(* ===== verification/_CoqProject ===== *)
-Q . S2P
Prelude.v
GoStd.v
Provider.v
Config.v
Availability.v
Cooldown.v
Defaults.v
Routing.v
Catalog.v
Telemetry.v
Writers.v
Usage.v
Failover.v
Operation.v
State.v
Runtime.v
ProviderManager.v
Lifecycle.v
Daemon.v
Mutations.v
OperationManager.v
GoJson.v
Upstream.v
Responses.v
Transport.v
AnthropicRequest.v
AnthropicStream.v
AnthropicProtocol.v
AnthropicHandler.v
Idempotency.v
Secrets.v
Control.v
Pool.v
Accounts.v
Jwt.v
Credentials.v
Kilo.v
CodexBackend.v
CopilotBackend.v
CopilotFree.v
ManagedRuntime.v
AuthSession.v
OperationResources.v
Security.v
WebSocket.v
WSChat.v
ReadModel.v
ReadResources.v
Client.v
WSClient.v
ConfigFiles.v
ControlRuntime.v
Flags.v
Cli.v
ClientCli.v
ChatPane.v
Dashboard.v
Workspace.v
Startup.v
