(* ===== verification/Prelude.v ===== *)
(** * ya-router: a verification development

    [ya-router] is an OpenAI-compatible gateway.  A request names a model; the
    router resolves it to a provider and an upstream model, trying the targets of
    an umbrella model one after the other until one answers; failures put targets
    on cooldown; a control plane changes the configuration under revisions, runs
    long operations and publishes new provider sets while requests are in flight.
    This library models that core in Rocq, definition by definition, and proves
    what makes it correct.  A definition that models code carries a comment with
    the file (under [src/]) and the symbol, or the lines, it translates.

    ** The files, in the order of their dependencies

    - [Prelude]: results with errors, lists, loops that reject duplicates, tactics.
    - [GoStd]: the integers, times and string functions of Go the program uses.
    - [Provider] ([internal/provider]): Modules [Registry], [HealthRegistry],
      [Descriptor] and [EventBus].
    - [Config] ([internal/config]): the schema, [Clone], [Redact], the validation
      of the virtual (umbrella) models.
    - [Availability] ([internal/availability]): [Snapshot] and [Evaluate], the one
      place that decides whether a target is routable.
    - [Cooldown] ([internal/routing/cooldown.go], [prefixes.go]): the registry of
      failed targets and its file.
    - [Defaults] ([src/src/config_defaults.go], [revisioned_state.go]): default
      values, the migration of old files, the validator.
    - [Routing] ([internal/routing]): selector, preferred targets, metrics, router
      ([Resolve], [ResolveNext], [RecordOutcome]) and readiness.  Its theorems use
      [Evaluate] through [Availability] and the registry through [Cooldown].
    - [Telemetry] ([internal/telemetry]): request counters and their handles.
    - [Writers] ([src/src/proxy.go], [virtual_model_response.go]): the stack of
      response writers of one attempt; [Usage] ([usage_sniffer.go]) reads token
      counts out of the same bytes.
    - [Failover] ([src/src/proxy.go], [provider_error.go], [telemetry_runtime.go],
      [internal/proxy]): [processProxyRequest] and [proxyHandler], composed from
      the router, the writers and the recorder above as the code composes them.
    - [Operation] ([internal/operation]): the durable store of operations;
      [OperationManager] ([manager.go]): the goroutines that run workers over it.
    - [State] ([internal/state]): desired and effective configuration, with
      [Apply], [Rollback], [SetEffective] and the recovery of [Open].
    - [Runtime] ([internal/runtime]): snapshots, leases, publication, retirement.
    - [ProviderManager] ([internal/provider/manager.go]): the instances of the
      providers: reconciliation, replacement, draining.  [Lifecycle] proves what it
      needs of any publisher ([Publisher], [PublisherLaws], from [publication.go]);
      [Daemon] makes [Runtime] that publisher and composes the two.
    - [Mutations] ([internal/control/mutations.go], [src/src/mutation_runtime.go]):
      the control API's changes and their application through [State].
    - [Upstream] ([src/src/proxy.go]): the circuit breaker and the retries the
      providers call their services through.
    - [Idempotency] ([internal/control/idempotency.go]): the store that makes a
      repeated control request wait for, and replay, the first one's answer.
    - [Secrets] ([internal/secret], [src/src/secret_runtime.go]): the store of
      credentials, its file and the precedence of sources.
    - [Control] ([internal/control]): identities, versions, the router with its
      middleware and audit trail, and the secret resources over [Secrets].
    - [GoJson]: decoding and encoding of JSON trees as [encoding/json] does it.
    - [Responses] ([src/src/responses_adapter.go]): chat requests and answers as
      requests and events of a Responses transport, and back; [Transport]
      ([responses_transport.go], [copilot_responses.go]): how they travel.
    - [AnthropicRequest], [AnthropicStream], [AnthropicProtocol], [AnthropicHandler]
      ([src/src/anthropic_*.go]): the Anthropic facade: requests; the translation of
      upstream events; the two protocols it stands between; whole answers, errors
      and the handler, over the router and the recorder above.
    - [Catalog] ([src/src/models.go], [model_cache.go], [provider_availability.go],
      [catalog_refresher.go]): the lists of models the client sees, their caches and
      their refresh; [Pool] ([proxy.go]): the worker pool and the coalescing of
      identical requests.
    - [Accounts] ([copilot_provider.go], [codex_provider.go]): the pools of accounts and
      their cooldowns; [Jwt], [Credentials] ([auth.go], [codex_auth.go],
      [codex_device_flow.go], [copilot_device_flow.go]): tokens, the device flows and
      the refreshes.
    - [Kilo], [CodexBackend], [CopilotBackend], [CopilotFree] ([src/src/*_provider.go],
      [copilot_free_catalog.go]): the providers' request paths, over [Upstream],
      [Accounts] and [Credentials].
    - [ManagedRuntime] ([src/src/managed_runtime.go]): the providers a configuration
      asks for; [AuthSession] ([auth_session_runtime.go]): an authentication session as a
      worker of [OperationManager] that ends in [State.Apply].
    - [OperationResources], [ReadModel], [ReadResources] ([internal/control],
      [control_read_model.go], [mutation_runtime.go]): the resources of the control
      API and what they read.
    - [Security] ([security.go], [internal/control/transport.go], [server.go]): the
      addresses and credentials of both planes.
    - [WebSocket] ([internal/control/ws_*.go]), [WSChat] ([ws_chat_handler.go]): the
      control connection, its state hub and its chats.
    - [Client], [WSClient] ([internal/client]): the other ends of the control API and
      of its connection.
    - [ConfigFiles] ([src/src/config.go], [config_migration.go], [config_persistence.go]):
      where the configuration is, its reading and merging, and the writes of tokens at
      run time, over [State]; [ControlRuntime] ([control_runtime.go]): what the
      environment says of the control plane, its start and the end of both servers.
    - [Flags] (the package [flag]), [Cli] ([cli.go], [main.go]): the commands of the
      service; [ClientCli] ([client_cli.go], [client_mutations.go], [client_secrets.go],
      [client_auth.go]): those of the scriptable client, whose mutations are read by
      [Mutations].
    - [ChatPane], [Dashboard], [Workspace] ([client_chat_*.go], [client_dashboard*.go]):
      the terminal client: the composer and the transcript over UTF-8 strings; what keys
      make the dashboard ask of the daemon; both in one program, fed by [WSClient].
    - [Startup] ([cli.go]): the order in which the daemon is built, and the way of a
      request through the check of [Security] and the patterns of the mux.

    ** How the code is modelled

    - An operation is a function from the state and its arguments to the new state
      and its result; an error return is a value of [result], with a constructor
      for each error the code builds.  What the code protects with one mutex is
      one step; [Runtime], [Telemetry], [Idempotency], [OperationManager], [Daemon], [Pool],
      [OperationResources], [ReadResources], [WebSocket] and [WSClient], whose operations
      release a mutex or wait in the middle, have one step for each critical section
      and any interleaving.
    - [uint64] counters wrap ([wrap_u64]); theorems that need a counter not to wrap
      say so.  Times and durations are nanoseconds.
    - The instants an operation reads, the writes that fail and what a provider
      answers are arguments, so the theorems hold for all of them.  A channel has the
      capacity of the code and drops what finds it full; what its reader has taken out
      is kept beside it where a theorem is about what was received.  A failing
      write of a file is modelled at every point at which it can stop.
    - JSON, SHA-256 and the files' encodings are parameters: the classes [JSON]
      ([Writers]), [StateCodec] ([Cooldown] and, with more operations, [State]).
      What is assumed of them is that a text that was written reads back
      ([MetadataLaws], the round-trip premises of the theorems); each theorem that
      uses one has a witness at a concrete instance.
    - The protocol adapters work on the trees that texts parse to ([parse], [marshal],
      number and compaction texts are parameters); members keep the order of the
      text, and what a Go map encodes to is sorted.
    - Rune tables, key names, the encoding of secrets and other code outside the
      repository are parameters of the sections that use them.
    - Log output is left out.

    ** What is proved

    - Requests: [failover_terminates], [only_last_attempt_reaches_client],
      [umbrella_request_is_answered], [attempts_close_their_handles] ([Failover]);
      [attempt_commits_only_success], [stream_chunks_irrelevant],
      [model_rewriting_exact] ([Writers]).
    - Routing: [select_first_selectable], [resolve_sound],
      [catalog_route_is_unique], [readiness_agrees_with_selection],
      [quota_failure_avoids_target] ([Routing]); [evaluate_routable_iff]
      ([Availability]); [failed_target_stays_cooling],
      [cooldowns_survive_restart] ([Cooldown]).
    - Configuration: [one_writer_per_revision], [apply_is_crash_safe],
      [rollback_restores] ([State]); [mutation_keeps_routing_valid],
      [failed_reload_is_undone] ([Mutations]); [redaction_hides_secrets],
      [virtual_models_validated] ([Config]); [defaults_stabilise] ([Defaults]).
    - Runtime: [leased_snapshot_is_intact], [no_lost_drain],
      [retirement_waits_for_leases], [writer_never_blocks], from one invariant of every interleaving.
    - Providers: [reconcile_reaches_desired], [failed_operation_changes_nothing]
      ([ProviderManager]); with the snapshots below them,
      [requests_meet_open_providers], [instances_are_conserved],
      [retired_instances_get_closed], [configuration_is_frozen_at_boot] ([Daemon]).
    - Upstream calls: [breaker_refines_spec] (a refinement), [retries_are_bounded]
      ([Upstream]).
    - Control requests: [one_handler_per_key], [duplicates_replay_the_original]
      ([Idempotency]), from one invariant of every interleaving.
    - Control access ([Control]): [control_dispatch_is_authorised],
      [every_control_request_is_audited], [secret_resources_keep_secrets] (two runs
      compared, of which the store and the request differ in secret values), [token_authenticates_its_role].
    - Secrets: [managed_secrets_survive_restart], [environment_erases_managed_secret],
      [secrets_never_leave], [resolve_takes_the_highest_source].
    - Operations: [store_invariant], [operations_are_atomic], [record_lifecycle],
      [restart_recovers], [create_is_idempotent] ([Operation]);
      [workers_are_exclusive], [finished_worker_settles],
      [cancelled_operation_stays_cancelled], [close_is_final] ([OperationManager]).
    - Chat over Responses ([Responses]): [chat_stream_is_well_formed],
      [streamed_text_is_aggregated_text], [codex_request_is_native],
      [upstream_failure_is_sent_as_success].
    - Anthropic facade: [anthropic_conversation_is_preserved],
      [chatgpt_refuses_anthropic_requests] ([AnthropicRequest]);
      [anthropic_chunks_irrelevant], [anthropic_stream_is_well_formed] (a simulation
      between two protocols, [AnthropicProtocol]); [anthropic_answers_once],
      [anthropic_and_chat_agree], [streamed_rejection_becomes_bad_gateway]
      ([AnthropicHandler]).
    - Observation: [telemetry_conservation] ([Telemetry]),
      [history_is_log_suffix] (a refinement, [Provider]).
    - Models and work: [one_fetch_at_a_time], [model_list_is_unambiguous],
      [every_virtual_model_is_listed] ([Catalog]); [accepted_jobs_run_once_in_order],
      [coalesced_callers_share_one_run] ([Pool]).
    - Credentials: [jwt_payload_is_read] ([Jwt]); [refresh_is_bounded_and_atomic],
      [device_flow_is_complete], [auth_errors_are_redacted] ([Credentials]).
    - Providers' requests: [kilo_anonymous_requests_are_free], [kilo_gives_back_its_probe]
      ([Kilo]); [codex_credentials_stay_in_their_domain], [codex_tries_each_account_once]
      ([CodexBackend]); [copilot_request_is_accounted_for] ([CopilotBackend]);
      [free_catalog_outlives_failures] ([CopilotFree]); [daemon_builds_its_providers],
      [unrelated_changes_keep_the_providers] ([ManagedRuntime]).
    - Sign-ins: [refused_session_is_undone], [session_results_carry_no_credential]
      ([AuthSession]); [copilot_authentication_touches_one_account],
      [refresh_keeps_the_pool], [status_agrees_with_the_pool],
      [service_binary_only_serves] ([Cli]).
    - Control resources: [event_stream_misses_nothing], [operations_are_private]
      ([OperationResources]); [catalogs_keep_the_last_good_list],
      [read_resources_keep_secrets] ([ReadModel]); [lifecycle_stream_has_no_gaps],
      [event_pages_resume] ([ReadResources]).
    - Listeners: [exposed_daemon_serves_the_key], [control_start_is_all_or_nothing]
      ([Security]); [remote_control_is_identified], [control_plane_comes_up_whole],
      [servers_go_down_together] ([ControlRuntime]); [only_health_is_open],
      [proxied_paths_have_a_capability], [start_closes_what_it_opened] ([Startup]).
    - The control connection: [ws_frames_are_numbered_once],
      [uncancelled_chats_run_one_at_a_time], [clients_show_the_last_broadcast]
      ([WebSocket]); [every_chat_ends_once], [chat_reads_what_upstream_streams]
      ([WSChat]).
    - Clients: [client_retries], [mutation_runs_once] ([Client] with [Idempotency]);
      [lost_chats_are_interrupted], [client_shows_the_state_of_the_daemon] ([WSClient]
      with [WebSocket]); [client_finds_the_daemon], [client_mutations_are_understood],
      [every_mutation_names_its_revision], [exit_codes_tell_the_answer],
      [refusals_are_not_repeated] ([ClientCli] with [Mutations]).
    - The terminal client: [composer_is_a_text_editor] ([ChatPane]);
      [toggles_do_what_was_asked], [api_keys_are_stored_when_entered] ([Dashboard] with
      [Mutations]); [workspace_never_fails], [what_was_said_stays],
      [workspace_acts_as_its_dashboard] (a refinement), [rows_fit_the_terminal] and
      [terminal_shows_the_reply], which goes from [WSChat] through [WSClient] to the
      transcript ([Workspace]).
    - The files of the configuration ([ConfigFiles]): [config_path_is_settled],
      [existing_files_keep_their_models], [merge_takes_only_allowed_models],
      [runtime_write_changes_one_account], [every_start_commits],
      [the_open_state_is_the_active_one].
    - Further theorems: [acquire_succeeds_unless_overtaken], [registry_consistent], [cooldown_duration_closed_form],
      [buffered_answer], [cooldown_isolation], [model_prefix_roundtrip],
      [reorder_is_permutation], [umbrella_resolution_counted_once],
      [finish_records_once], [validated_config_is_usable], [balanced_fragment_iff].
    - Behaviour worth knowing, stated as theorems or examples next to the code:
      [failed_final_write_leaves_it_running],
      [silent_probe_blocks_forever], [the_bound_is_not_restored],
      [silent_failure_is_sent_as_success], [long_retry_after_becomes_five_minutes],
      [padded_target_disagrees], [failed_write_becomes_last_known_good],
      [closed_manager_still_writes], [restart_still_required],
      [applied_digest_is_of_the_defaults], [unstable_codex_defaults],
      [duplicate_account_ids], [two_limits_race], [null_response],
      [alias_replaces_model], [split_line_end], [indices_skip_after_a_call],
      [delta_after_stop], [content_part_is_refused], [early_failure_is_told_twice],
      [version_starts_again], [blank_value_is_half_configured], [panic_leaves_no_trail],
      [restart_forgets_the_last_known_good], [renamed_account_is_gone],
      [reported_success_leaves_it_disabled], [refused_authentication_may_enable],
      [refresh_without_copilot_never_reaches_codex], [switched_off_socket_is_called],
      [forgotten_models_lift_the_restriction], [long_timeouts_overflow],
      [pasted_text_is_lost], [the_old_answer_flows_into_the_new_conversation],
      [the_question_is_not_shown], [chat_below_embeddings],
      [refused_chat_hides_the_first], [full_channel_loses_the_interruption],
      [incompatible_daemon_leaves_the_chat], [undecodable_error_is_shown_in_part].

    ** Bounds

    Loops the kernel does not see to be structural have fuel: [failover_loop] the
    number of configured targets ([failover_terminates]: it is enough),
    [trim_left_with] and [sniff_loop] the length of the text
    ([trim_left_with_clean], [sniff_loop_fuel]), [stream_lines] the length of what
    is pending, [double_cooldown] the number of doublings before the cap, [write_loop]
    and [events_of] the length of the pending text ([write_loop_events], [events_of_fuel]),
    [runes_loop] the length of the string ([runes_of_runes], [runes_loop_fuel]).

    ** What is not modelled

    The tables of the scriptable client ([client_output.go]) and the screen of the
    dashboard ([client_dashboard_view.go]), which the workspace never draws; log lines,
    their rotation and what commands print while they work; sockets, TLS and the terminal
    library themselves, whose answers and events are arguments; the record constructor of
    [internal/runtime/components.go], the locks of files of the operating system and the
    one-line adapters between packages ([router.go], [registry.go], [prefixes.go]). *)

From Stdlib Require Export ZArith Lia.
From stdpp Require Export base gmap sets list strings sorting.
#[global] Set Default Goal Selector "!".

(** ** Results

    A Go function that returns [(T, error)] becomes a function into
    [result T E], where [E] has one constructor per error the source builds. *)

Inductive result (A E : Type) : Type :=
| Ok (a : A)
| Err (e : E).
Arguments Ok {_ _} _.
Arguments Err {_ _} _.

Definition bind_result {A B E} (r : result A E) (k : A → result B E) : result B E :=
  match r with Ok a => k a | Err e => Err e end.

Definition map_err {A E F} (f : E → F) (r : result A E) : result A F :=
  match r with Ok a => Ok a | Err e => Err (f e) end.

Definition is_ok {A E} (r : result A E) : bool :=
  match r with Ok _ => true | Err _ => false end.

Declare Scope go_scope.
Delimit Scope go_scope with go.
Notation "'let?' x ':=' c 'in' k" := (bind_result c (λ x, k))
  (at level 10, x binder, c at level 100, k at level 200) : go_scope.
Open Scope go_scope.

Lemma bind_result_Ok {A B E} (r : result A E) (k : A → result B E) b :
  bind_result r k = Ok b ↔ ∃ a, r = Ok a ∧ k a = Ok b.
Proof. destruct r; naive_solver. Qed.

Lemma bind_result_Err {A B E} (r : result A E) (k : A → result B E) e :
  bind_result r k = Err e ↔ r = Err e ∨ ∃ a, r = Ok a ∧ k a = Err e.
Proof. destruct r; naive_solver. Qed.

(** ** Tactics *)

(** Case analysis on the scrutinees of a hypothesis or of the goal, keeping the
    equations and closing the impossible branches. *)
Ltac peel_in H :=
  repeat (match type of H with
    | context [match ?x with _ => _ end] => destruct x eqn:?
    end; simplify_eq/=).

Ltac peel := repeat (case_match; simplify_eq/=; try discriminate).

Ltac inv_ok :=
  repeat match goal with
  | H : Ok _ = Ok _ |- _ => injection H as H; subst
  | H : Err _ = Err _ |- _ => injection H as H; subst
  | H : Ok _ = Err _ |- _ => discriminate H
  | H : Err _ = Ok _ |- _ => discriminate H
  | H : bind_result _ _ = Ok _ |- _ => apply bind_result_Ok in H as (? & ? & H)
  end.

(** Boolean tests as propositions. *)
Ltac reflect_bools :=
  repeat match goal with
  | H : _ && _ = true |- _ => apply andb_true_iff in H as [? ?]
  | H : _ || _ = false |- _ => apply orb_false_iff in H as [? ?]
  | H : negb _ = true |- _ => apply negb_true_iff in H
  | H : negb _ = false |- _ => apply negb_false_iff in H
  | H : bool_decide _ = true |- _ => apply bool_decide_eq_true in H
  | H : bool_decide _ = false |- _ => apply bool_decide_eq_false in H
  | H : (_ <? _)%Z = true |- _ => apply Z.ltb_lt in H
  | H : (_ <? _)%Z = false |- _ => apply Z.ltb_ge in H
  | H : (_ <=? _)%Z = true |- _ => apply Z.leb_le in H
  | H : (_ <=? _)%Z = false |- _ => apply Z.leb_gt in H
  | H : (_ =? _)%Z = true |- _ => apply Z.eqb_eq in H
  | H : (_ =? _)%Z = false |- _ => apply Z.eqb_neq in H
  end.

(** Membership of a literal in a literal list, and its absence, by evaluation. *)
Ltac listed := eapply bool_decide_eq_true_1; reflexivity.
Ltac unlisted := eapply bool_decide_eq_false_1; reflexivity.

(** ** Lists *)

Create HintDb router discriminated.

(** The first element a function accepts, with its position. *)
Fixpoint find_index {A B} (f : A → option B) (l : list A) : option (nat * B) :=
  match l with
  | [] => None
  | x :: l' =>
    match f x with
    | Some b => Some (0, b)
    | None => match find_index f l' with Some (i, b) => Some (S i, b) | None => None end
    end
  end.

Lemma find_index_Some {A B} (f : A → option B) l i b :
  find_index f l = Some (i, b) ↔
  ∃ x, l !! i = Some x ∧ f x = Some b ∧ ∀ j y, j < i → l !! j = Some y → f y = None.
Proof.
  revert i; induction l as [|x l IH]; intros i; simpl; [naive_solver|].
  destruct (f x) as [b'|] eqn:Hx.
  - split; [intros [= <- <-]; exists x; repeat split; auto; intros; lia|].
    intros (z & Hz & Hf & Hlt). destruct i as [|i]; simplify_eq/=; [done|].
    specialize (Hlt 0 x ltac:(lia) eq_refl); congruence.
  - transitivity (∃ i', i = S i' ∧ find_index f l = Some (i', b)).
    { destruct (find_index f l) as [[j b'']|]; naive_solver. }
    split.
    + intros (i' & -> & (z & Hz & Hf & Hlt)%IH). exists z. split_and!; [done..|].
      intros [|k] y Hk Hy; [by simplify_eq/=|]. apply (Hlt k); [lia|done].
    + intros (z & Hz & Hf & Hlt). destruct i as [|i]; [simplify_eq/=; congruence|].
      exists i. split; [done|]. apply IH. exists z. split_and!; [done..|].
      intros k y Hk Hy. apply (Hlt (S k) y); [lia|done].
Qed.

Lemma find_index_None {A B} (f : A → option B) l :
  find_index f l = None ↔ ∀ x, x ∈ l → f x = None.
Proof.
  induction l as [|x l IH]; simpl; [split; [intros _ x Hx; by apply not_elem_of_nil in Hx|done]|].
  setoid_rewrite elem_of_cons. destruct (f x) eqn:Hx; [naive_solver|].
  destruct (find_index f l) as [[]|]; naive_solver.
Qed.

Lemma filter_all {A} (P : A → Prop) `{∀ x, Decision (P x)} (l : list A) :
  (∀ x, x ∈ l → P x) → filter P l = l.
Proof.
  induction l as [|x l IH]; intros Hl; [done|].
  rewrite filter_cons_True by (apply Hl; by left). f_equal. apply IH. intros y Hy.
  apply Hl. by right.
Qed.

(** A list cut to its last [n] elements, as the bounded histories are. *)
Definition take_last {A} (n : nat) (l : list A) : list A := drop (length l - n) l.

Lemma length_take_last {A} n (l : list A) : length (take_last n l) = n `min` length l.
Proof. unfold take_last. rewrite length_drop. lia. Qed.

Lemma take_last_le {A} n (l : list A) : length l ≤ n → take_last n l = l.
Proof. intros. unfold take_last. replace (length l - n) with 0 by lia. done. Qed.

Lemma elem_of_take_last {A} n (l : list A) x : x ∈ take_last n l → x ∈ l.
Proof.
  intros Hx. unfold take_last in Hx. rewrite <-(take_drop (length l - n) l).
  apply elem_of_app. by right.
Qed.

Lemma StronglySorted_drop {A} (R : relation A) n l :
  StronglySorted R l → StronglySorted R (drop n l).
Proof.
  intros Hs. rewrite <-(take_drop n l) in Hs. by apply StronglySorted_app_1_r in Hs.
Qed.

Lemma StronglySorted_snoc {A} (R : relation A) l x :
  StronglySorted R l → Forall (λ y, R y x) l → StronglySorted R (l ++ [x]).
Proof.
  induction 1 as [|y l Hs IH HF]; intros Hx; simpl.
  - repeat constructor.
  - apply Forall_cons in Hx as [? ?]. constructor; [auto|].
    apply Forall_app; split; [done|]. by repeat constructor.
Qed.

Lemma list_insert_snoc {A} (l : list A) x y : <[length l := y]> (l ++ [x]) = l ++ [y].
Proof. induction l as [|z l IH]; simpl; [done|]. by f_equal. Qed.

Lemma NoDup_app_snoc {A} (l : list A) x : x ∉ l → NoDup l → NoDup (l ++ [x]).
Proof.
  intros Hx Hl. apply NoDup_app; split; [done|split; [|apply NoDup_singleton]].
  intros y Hy ->%list_elem_of_singleton. done.
Qed.

#[export] Hint Resolve StronglySorted_drop StronglySorted_snoc NoDup_app_snoc : router.
#[export] Hint Rewrite @length_take_last : router.

(** ** Loops that reject duplicates

    Several validators walk a list with a set of the keys already [seen]: an
    element is checked, then rejected when its key repeats, then checked again. *)
Section scan_unique.
Context {A K E : Type} `{Countable K}.
Context (pre : A → option E) (key : A → K) (dup : A → E) (post : A → option E).

Fixpoint scan_unique (seen : gset K) (l : list A) : result unit E :=
  match l with
  | [] => Ok tt
  | x :: l' =>
    match pre x with
    | Some e => Err e
    | None =>
      if decide (key x ∈ seen) then Err (dup x)
      else
        match post x with
        | Some e => Err e
        | None => scan_unique ({[key x]} ∪ seen) l'
        end
    end
  end.

Lemma scan_unique_Ok seen l :
  scan_unique seen l = Ok tt ↔
  (∀ x, x ∈ l → pre x = None ∧ post x = None ∧ key x ∉ seen) ∧ NoDup (key <$> l).
Proof.
  revert seen; induction l as [|x l IH]; intros seen; csimpl.
  { split; [|done]. intros _. split; [intros x Hx; set_solver|constructor]. }
  rewrite NoDup_cons. setoid_rewrite elem_of_cons.
  destruct (pre x) eqn:Hpre; [naive_solver|].
  case_decide as Hseen; [naive_solver|].
  destruct (post x) eqn:Hpost; [naive_solver|].
  rewrite IH. setoid_rewrite not_elem_of_union.
  setoid_rewrite not_elem_of_singleton. rewrite list_elem_of_fmap. naive_solver.
Qed.
End scan_unique.

(** Inserting the pairs of a list, one after the other. *)
Lemma foldl_insert_lookup {A} (l : list (string * A)) (m : gmap string A) k :
  NoDup l.*1 →
  foldl (λ m kv, <[kv.1 := kv.2]> m) m l !! k
  = match list_to_map (M := gmap string A) l !! k with Some x => Some x | None => m !! k end.
Proof.
  revert m; induction l as [|[k' x] l IH]; intros m Hn; simpl; [by rewrite lookup_empty|].
  apply NoDup_cons in Hn as [Hk Hn]. rewrite IH by done. rewrite lookup_insert. case_decide as Heq; subst.
  - rewrite not_elem_of_list_to_map_1 by done. by rewrite lookup_insert_eq.
  - rewrite lookup_insert_ne by done. done.
Qed.
