(* ===== verification/GoStd.v ===== *)
(** * The part of Go the program uses

    Machine integers with their wrap-around, [time.Time] and [time.Duration],
    the functions of [strings], [sort] and [strconv] the sources call, the two
    regular expressions they compile, and HTTP status codes.

    Strings are Go's byte strings.  Letter case ([ToLower], [EqualFold]) is the
    mapping of the ASCII letters; bytes above 127 are left as they are. *)

From S2P Require Import Prelude.
From Stdlib Require Export Ascii.

(** ** Integers *)

(** [uint64] and [int]/[int64] arithmetic is arithmetic modulo [2^64]. *)
Definition wrap_u64 (x : Z) : Z := x mod 2 ^ 64.
Definition wrap_i64 (x : Z) : Z := (x + 2 ^ 63) mod 2 ^ 64 - 2 ^ 63.
Definition maxInt64 : Z := 2 ^ 63 - 1.
Definition maxUint64 : Z := 2 ^ 64 - 1.

Lemma wrap_u64_range x : (0 ≤ wrap_u64 x < 2 ^ 64)%Z.
Proof. unfold wrap_u64. apply Z.mod_pos_bound. lia. Qed.

Lemma wrap_u64_small x : (0 ≤ x < 2 ^ 64)%Z → wrap_u64 x = x.
Proof. apply Z.mod_small. Qed.

(** Adding one always changes a [uint64], wrap-around included. *)
Lemma wrap_u64_succ x : wrap_u64 (x + 1) ≠ x.
Proof.
  unfold wrap_u64. intros Heq. pose proof (Z.div_mod (x + 1) (2 ^ 64) ltac:(lia)). lia.
Qed.

Lemma wrap_i64_range x : (- 2 ^ 63 ≤ wrap_i64 x < 2 ^ 63)%Z.
Proof. unfold wrap_i64. pose proof (Z.mod_pos_bound (x + 2 ^ 63) (2 ^ 64)). lia. Qed.

Lemma wrap_i64_small x : (- 2 ^ 63 ≤ x < 2 ^ 63)%Z → wrap_i64 x = x.
Proof. intros. unfold wrap_i64. rewrite Z.mod_small; lia. Qed.

(** ** Time

    An instant is its number of nanoseconds since Go's zero time (year 1, UTC),
    so that [IsZero] is the test for 0 and [UTC] the identity. *)

Notation Time := Z (only parsing).
Notation Duration := Z (only parsing).

Definition Second : Duration := 1000000000.
Definition Minute : Duration := 60 * Second.
Definition Hour : Duration := 60 * Minute.
Definition zeroTime : Time := 0.
Definition IsZero (t : Time) : bool := (t =? 0)%Z.
Definition After (t u : Time) : bool := (u <? t)%Z.
Definition Before (t u : Time) : bool := (t <? u)%Z.
(** Seconds between Go's zero time and the Unix epoch. *)
Definition unixToInternal : Z := 62135596800.
Definition Unix (t : Time) : Z := t / Second - unixToInternal.

(** ** HTTP *)

Definition StatusOK : Z := 200.
Definition StatusNoContent : Z := 204.
Definition StatusMultipleChoices : Z := 300.
Definition StatusBadRequest : Z := 400.
Definition StatusUnauthorized : Z := 401.
Definition StatusPaymentRequired : Z := 402.
Definition StatusForbidden : Z := 403.
Definition StatusNotFound : Z := 404.
Definition StatusMethodNotAllowed : Z := 405.
Definition StatusRequestTimeout : Z := 408.
Definition StatusConflict : Z := 409.
Definition StatusRequestEntityTooLarge : Z := 413.
Definition StatusUpgradeRequired : Z := 426.
Definition StatusTooManyRequests : Z := 429.
Definition StatusInternalServerError : Z := 500.
Definition StatusNotImplemented : Z := 501.
Definition StatusBadGateway : Z := 502.
Definition StatusServiceUnavailable : Z := 503.
Definition StatusGatewayTimeout : Z := 504.

(** ** Strings *)

#[global] Arguments String.append !_ _ / : simpl nomatch.

Definition str (l : list nat) : string :=
  String.string_of_list_ascii (ascii_of_nat <$> l).
(** The byte 0 the sources use as a separator in composite keys. *)
Definition nul : string := str [0].

(** [s] without the prefix [p], when it has it. *)
Fixpoint strip_prefix (p s : string) : option string :=
  match p, s with
  | "", _ => Some s
  | String a p', String b s' => if Ascii.eqb a b then strip_prefix p' s' else None
  | _, _ => None
  end.

Definition HasPrefix (s p : string) : bool :=
  match strip_prefix p s with Some _ => true | None => false end.

(** [strings.TrimPrefix]. *)
Definition TrimPrefix (s p : string) : string :=
  match strip_prefix p s with Some r => r | None => s end.

Lemma strip_prefix_Some p s r : strip_prefix p s = Some r ↔ s = p +:+ r.
Proof.
  revert s; induction p as [|a p IH]; intros s; simpl; [naive_solver|].
  destruct s as [|b s]; [naive_solver|].
  destruct (Ascii.eqb_spec a b) as [->|Hne]; [rewrite IH; split; [by intros ->|by intros [= ->]]|].
  split; [done|]. intros Heq. simpl in Heq. congruence.
Qed.

Lemma strip_prefix_app p r : strip_prefix p (p +:+ r) = Some r.
Proof. by apply strip_prefix_Some. Qed.

Lemma HasPrefix_true s p : HasPrefix s p = true ↔ ∃ r, s = p +:+ r.
Proof.
  unfold HasPrefix. destruct (strip_prefix p s) eqn:E.
  - apply strip_prefix_Some in E. naive_solver.
  - split; [done|]. intros [r ->]. by rewrite strip_prefix_app in E.
Qed.

Lemma str_app_assoc (a b c : string) : (a +:+ b) +:+ c = a +:+ (b +:+ c).
Proof. induction a as [|x a IH]; simpl; [done|]. by rewrite IH. Qed.

Lemma str_app_nil_r (a : string) : a +:+ "" = a.
Proof. induction a as [|x a IH]; simpl; [done|]. by rewrite IH. Qed.

Lemma str_length_app (a b : string) :
  String.length (a +:+ b) = String.length a + String.length b.
Proof. induction a as [|x a IH]; simpl; [done|]. by rewrite IH. Qed.

#[global] Instance str_app_inj (a : string) : Inj (=) (=) (String.append a).
Proof. induction a as [|x a IH]; intros b c; simpl; [done|]. intros [= ?]. by apply IH. Qed.

(** The byte strings of the runes [unicode.IsSpace] accepts. *)
Definition space_runes : list string :=
  str <$> ([[9]; [10]; [11]; [12]; [13]; [32]; [194; 133]; [194; 160]; [225; 154; 128];
    [226; 128; 128]; [226; 128; 129]; [226; 128; 130]; [226; 128; 131]; [226; 128; 132];
    [226; 128; 133]; [226; 128; 134]; [226; 128; 135]; [226; 128; 136]; [226; 128; 137];
    [226; 128; 138]; [226; 128; 168]; [226; 128; 169]; [226; 128; 175]; [226; 129; 159];
    [227; 128; 128]] : list (list nat)).

Definition strip_rune (runes : list string) (s : string) : option string :=
  snd <$> find_index (λ r, strip_prefix r s) runes.

(** Drops leading runes; every one has at least a byte, so the length of the
    string bounds the number of rounds. *)
Fixpoint trim_left_with (runes : list string) (fuel : nat) (s : string) : string :=
  match fuel with
  | 0 => s
  | S fuel =>
    match strip_rune runes s with
    | Some r => trim_left_with runes fuel r
    | None => s
    end
  end.

Definition TrimLeft (s : string) : string :=
  trim_left_with space_runes (String.length s) s.

Definition str_rev (s : string) : string :=
  String.string_of_list_ascii (rev (String.list_ascii_of_string s)).

Definition TrimRight (s : string) : string :=
  str_rev (trim_left_with (str_rev <$> space_runes) (String.length s) (str_rev s)).

(** [strings.TrimSpace]. *)
Definition TrimSpace (s : string) : string := TrimRight (TrimLeft s).

Definition lower_ascii (c : ascii) : ascii :=
  let n := nat_of_ascii c in
  if (65 <=? n)%nat && (n <=? 90)%nat then ascii_of_nat (n + 32) else c.

Definition upper_ascii (c : ascii) : ascii :=
  let n := nat_of_ascii c in
  if (97 <=? n)%nat && (n <=? 122)%nat then ascii_of_nat (n - 32) else c.

Fixpoint str_map (f : ascii → ascii) (s : string) : string :=
  match s with "" => "" | String c s' => String (f c) (str_map f s') end.

(** [strings.ToLower], [strings.ToUpper] and [strings.EqualFold]. *)
Definition ToLower (s : string) : string := str_map lower_ascii s.
Definition ToUpper (s : string) : string := str_map upper_ascii s.
Definition EqualFold (s t : string) : bool := (ToLower s =? ToLower t)%string.

(** [strings.Contains]. *)
Fixpoint Contains (s sub : string) : bool :=
  HasPrefix s sub || match s with "" => false | String _ s' => Contains s' sub end.

(** The first [n] bytes, and the rest: Go's [s[:n]] and [s[n:]]. *)
Fixpoint str_take (n : nat) (s : string) : string :=
  match n, s with S n, String c s' => String c (str_take n s') | _, _ => "" end.
Fixpoint str_drop (n : nat) (s : string) : string :=
  match n, s with S n, String _ s' => str_drop n s' | _, _ => s end.

(** [strings.Split] with a one-byte separator. *)
Fixpoint Split (s : string) (sep : ascii) : list string :=
  match s with
  | "" => [""]
  | String c s' =>
    if Ascii.eqb c sep then "" :: Split s' sep
    else match Split s' sep with
         | [] => [String c ""]
         | p :: ps => String c p :: ps
         end
  end.

(** [strings.Join]. *)
Fixpoint Join (l : list string) (sep : string) : string :=
  match l with
  | [] => ""
  | [x] => x
  | x :: l' => x +:+ sep +:+ Join l' sep
  end.

(** [sort.Strings]: Go compares strings byte by byte. *)
Definition sort_Strings (l : list string) : list string := merge_sort String.le l.

Definition digit (c : ascii) : option Z :=
  let n := nat_of_ascii c in
  if (48 <=? n)%nat && (n <=? 57)%nat then Some (Z.of_nat (n - 48)) else None.

Fixpoint digits (acc : Z) (s : string) : option Z :=
  match s with
  | "" => Some acc
  | String c s' => match digit c with Some d => digits (10 * acc + d) s' | None => None end
  end.

(** [strconv.Atoi]: an optional sign, at least one digit, the value in [int]. *)
Definition Atoi (s : string) : option Z :=
  let '(neg, body) :=
    match s with
    | String c s' =>
      if Ascii.eqb c "-" then (true, s') else if Ascii.eqb c "+" then (false, s') else (false, s)
    | "" => (false, "")
    end in
  match body with
  | "" => None
  | _ =>
    match digits 0 body with
    | Some n =>
      let v := if neg : bool then (- n)%Z else n in
      if ((- 2 ^ 63 <=? v) && (v <=? maxInt64))%Z then Some v else None
    | None => None
    end
  end.

Fixpoint str_all (f : ascii → bool) (s : string) : bool :=
  match s with "" => true | String c s' => f c && str_all f s' end.

Definition in_range (lo hi : nat) (c : ascii) : bool :=
  (lo <=? nat_of_ascii c)%nat && (nat_of_ascii c <=? hi)%nat.
Definition is_lower := in_range 97 122.
Definition is_upper := in_range 65 90.
Definition is_digit := in_range 48 57.
Definition is_char (d : ascii) (c : ascii) : bool := Ascii.eqb d c.

(** [^[a-z][a-z0-9_]{0,63}$]: operation kinds and failure codes. *)
Definition safe_ident (s : string) : bool :=
  match s with
  | "" => false
  | String c s' =>
    is_lower c && str_all (λ d, is_lower d || is_digit d || is_char "_" d) s'
    && (String.length s' <=? 63)%nat
  end.

(** [^[a-z][a-z0-9_.-]{0,63}$]: operation metadata keys. *)
Definition safe_metadata_key (s : string) : bool :=
  match s with
  | "" => false
  | String c s' =>
    is_lower c
    && str_all (λ d, is_lower d || is_digit d || is_char "_" d || is_char "." d || is_char "-" d) s'
    && (String.length s' <=? 63)%nat
  end.

(** ** Facts about trimming and case *)

Lemma str_all_app f s t : str_all f (s +:+ t) = str_all f s && str_all f t.
Proof. induction s as [|c s IH]; simpl; [done|]. by rewrite IH, andb_assoc. Qed.

Lemma list_ascii_app s t :
  String.list_ascii_of_string (s +:+ t)
  = (String.list_ascii_of_string s ++ String.list_ascii_of_string t).
Proof. induction s as [|c s IH]; simpl; [done|]. by rewrite IH. Qed.

Lemma string_of_list_app l k :
  String.string_of_list_ascii (l ++ k)
  = String.string_of_list_ascii l +:+ String.string_of_list_ascii k.
Proof. induction l as [|c l IH]; simpl; [done|]. by rewrite IH. Qed.

Lemma str_rev_app s t : str_rev (s +:+ t) = str_rev t +:+ str_rev s.
Proof. unfold str_rev. by rewrite list_ascii_app, rev_app_distr, string_of_list_app. Qed.

Lemma str_rev_involutive s : str_rev (str_rev s) = s.
Proof.
  unfold str_rev. rewrite String.list_ascii_of_string_of_list_ascii, rev_involutive.
  apply String.string_of_list_ascii_of_string.
Qed.

Lemma str_rev_length s : String.length (str_rev s) = String.length s.
Proof.
  induction s as [|c s IH]; [done|].
  change (String c s) with (String c "" +:+ s).
  rewrite str_rev_app, !str_length_app, IH. simpl. lia.
Qed.

Lemma strip_rune_Some runes s r :
  strip_rune runes s = Some r → ∃ p, p ∈ runes ∧ s = p +:+ r.
Proof.
  unfold strip_rune. intros ([i r'] & (p & Hp & Hs & _)%find_index_Some & ->)%fmap_Some.
  apply strip_prefix_Some in Hs. exists p. split; [|done]. by eapply list_elem_of_lookup_2.
Qed.

Lemma strip_rune_None runes s :
  strip_rune runes s = None ↔ ∀ p r, p ∈ runes → s ≠ p +:+ r.
Proof.
  unfold strip_rune. rewrite fmap_None, find_index_None. split.
  - intros Hn p r Hp ->. specialize (Hn p Hp). by rewrite strip_prefix_app in Hn.
  - intros Hn p Hp. destruct (strip_prefix p s) eqn:E; [|done].
    apply strip_prefix_Some in E. by destruct (Hn p s0).
Qed.

(** A trimmed string is a suffix of the original that starts with no rune. *)
Lemma trim_left_with_suffix runes fuel s : ∃ p, s = p +:+ trim_left_with runes fuel s.
Proof.
  revert s; induction fuel as [|fuel IH]; intros s; simpl; [by exists ""|].
  destruct (strip_rune runes s) as [r|] eqn:E; [|by exists ""].
  apply strip_rune_Some in E as (p & _ & ->). destruct (IH r) as [q Hq].
  exists (p +:+ q). by rewrite str_app_assoc, <-Hq.
Qed.

Lemma trim_left_with_clean runes fuel s :
  "" ∉ runes → String.length s ≤ fuel → strip_rune runes (trim_left_with runes fuel s) = None.
Proof.
  intros Hne. revert s; induction fuel as [|fuel IH]; intros s Hs; simpl.
  - destruct s; [|simpl in Hs; lia]. apply strip_rune_None. intros p r Hp Heq.
    destruct p; [done|]. done.
  - destruct (strip_rune runes s) as [r|] eqn:E; [|done]. apply IH.
    apply strip_rune_Some in E as (p & Hp & ->). rewrite str_length_app in Hs.
    destruct p; [done|]. simpl in Hs. lia.
Qed.

Lemma trim_left_with_id runes fuel s :
  strip_rune runes s = None → trim_left_with runes fuel s = s.
Proof. intros E. destruct fuel; simpl; [done|]. by rewrite E. Qed.

Lemma space_runes_nonempty : "" ∉ space_runes.
Proof. apply (bool_decide_eq_true_1 ("" ∉ space_runes)). by vm_compute. Qed.

Lemma rev_space_runes_nonempty : "" ∉ str_rev <$> space_runes.
Proof. apply (bool_decide_eq_true_1 ("" ∉ str_rev <$> space_runes)). by vm_compute. Qed.

(** [trimmed s]: no rune of white space at either end. *)
Definition trimmed (s : string) : Prop :=
  strip_rune space_runes s = None ∧ strip_rune (str_rev <$> space_runes) (str_rev s) = None.

Lemma TrimSpace_id s : trimmed s → TrimSpace s = s.
Proof.
  intros [Hl Hr]. unfold TrimSpace, TrimRight, TrimLeft.
  rewrite (trim_left_with_id _ _ _ Hl), (trim_left_with_id _ _ _ Hr).
  apply str_rev_involutive.
Qed.

Lemma TrimSpace_trimmed s : trimmed (TrimSpace s).
Proof.
  unfold TrimSpace, TrimRight.
  set (t := TrimLeft s).
  assert (Ht : strip_rune space_runes t = None).
  { apply trim_left_with_clean; [apply space_runes_nonempty|done]. }
  clearbody t.
  pose proof (trim_left_with_clean (str_rev <$> space_runes) (String.length t) (str_rev t)
    rev_space_runes_nonempty ltac:(by rewrite str_rev_length)) as Hr.
  destruct (trim_left_with_suffix (str_rev <$> space_runes) (String.length t) (str_rev t))
    as [p Hp].
  set (u := trim_left_with _ _ _) in *. clearbody u. split.
  - apply strip_rune_None. intros q r Hq Hu.
    rewrite strip_rune_None in Ht. apply (Ht q (r +:+ str_rev p) Hq).
    rewrite <-str_app_assoc, <-Hu, <-str_rev_app, <-Hp. symmetry. apply str_rev_involutive.
  - by rewrite str_rev_involutive.
Qed.

Lemma TrimSpace_idemp s : TrimSpace (TrimSpace s) = TrimSpace s.
Proof. apply TrimSpace_id, TrimSpace_trimmed. Qed.

(** Case mapping leaves bytes that are not letters alone, so it neither creates
    nor destroys white space. *)
Lemma lower_ascii_idemp c : lower_ascii (lower_ascii c) = lower_ascii c.
Proof. destruct c as [[] [] [] [] [] [] [] []]; reflexivity. Qed.

Lemma ToLower_idemp s : ToLower (ToLower s) = ToLower s.
Proof.
  unfold ToLower. induction s as [|c s IH]; simpl; [done|]. by rewrite lower_ascii_idemp, IH.
Qed.

Definition not_letter (c : ascii) : bool := negb (is_lower c || is_upper c).

Lemma lower_ascii_fixed c : not_letter (lower_ascii c) = true → lower_ascii c = c.
Proof. destruct c as [[] [] [] [] [] [] [] []]; first [reflexivity|discriminate]. Qed.

Lemma lower_ascii_not_letter c d : not_letter d = true → lower_ascii c = d → c = d.
Proof. intros Hd <-. symmetry. by apply lower_ascii_fixed. Qed.

Lemma str_map_app f s t : str_map f (s +:+ t) = str_map f s +:+ str_map f t.
Proof. induction s as [|c s IH]; simpl; [done|]. by rewrite IH. Qed.

Lemma lower_strip p s r :
  str_all not_letter p = true → ToLower s = p +:+ r → ∃ r', s = p +:+ r'.
Proof.
  revert s; induction p as [|d p IH]; intros s Hp Heq; [by exists s|].
  simpl in Hp. apply andb_true_iff in Hp as [Hd Hp].
  destruct s as [|c s]; [done|]. simpl in Heq. injection Heq as Hc Heq.
  apply lower_ascii_not_letter in Hc as ->; [|done].
  destruct (IH s Hp Heq) as [r' ->]. by exists r'.
Qed.

Lemma space_runes_not_letters : Forall (λ p, str_all not_letter p = true) space_runes.
Proof. apply (bool_decide_eq_true_1 (Forall _ _)). by vm_compute. Qed.

Lemma rev_space_runes_not_letters :
  Forall (λ p, str_all not_letter p = true) (str_rev <$> space_runes).
Proof. apply (bool_decide_eq_true_1 (Forall _ _)). by vm_compute. Qed.

Lemma ToLower_rev s : ToLower (str_rev s) = str_rev (ToLower s).
Proof.
  unfold ToLower. induction s as [|c s IH]; [done|].
  change (String c s) with (String c "" +:+ s).
  by rewrite str_rev_app, !str_map_app, str_rev_app, IH.
Qed.

Lemma strip_rune_lower runes s :
  Forall (λ p, str_all not_letter p = true) runes →
  strip_rune runes s = None → strip_rune runes (ToLower s) = None.
Proof.
  rewrite Forall_forall, !strip_rune_None. intros Hl Hn p r Hp Heq.
  destruct (lower_strip p s r) as [r' ->]; [by apply Hl|done|]. by eapply Hn.
Qed.

Lemma ToLower_trimmed s : trimmed s → trimmed (ToLower s).
Proof.
  intros [Hl Hr]. split.
  - apply strip_rune_lower; [apply space_runes_not_letters|done].
  - rewrite <-ToLower_rev. apply strip_rune_lower; [apply rev_space_runes_not_letters|done].
Qed.

#[export] Hint Resolve TrimSpace_trimmed ToLower_trimmed : router.
#[export] Hint Rewrite TrimSpace_idemp ToLower_idemp : router.

(** ** Composite keys separated by the byte 0 *)

Definition no_nul (s : string) : Prop := str_all (λ c, negb (Ascii.eqb c "000")) s = true.

#[global] Instance no_nul_dec s : Decision (no_nul s).
Proof. unfold no_nul. apply _. Defined.

Lemma nul_key_inj a b x y :
  no_nul a → no_nul b → a +:+ nul +:+ x = b +:+ nul +:+ y → a = b ∧ x = y.
Proof.
  unfold no_nul, nul. revert b; induction a as [|c a IH]; intros b Ha Hb Heq; simpl in *.
  - destruct b as [|d b]; simpl in *; [by injection Heq|].
    injection Heq as Hd _. subst d. done.
  - apply andb_true_iff in Ha as [Hc Ha].
    destruct b as [|d b]; simpl in *; [injection Heq as -> _; done|].
    apply andb_true_iff in Hb as [Hd Hb]. injection Heq as -> Heq.
    destruct (IH b Ha Hb Heq) as [-> ->]. done.
Qed.

Lemma EqualFold_refl s : EqualFold s s = true.
Proof. apply String.eqb_refl. Qed.

(** [sort.Strings] returns the strings of its argument in byte order. *)
Lemma sort_Strings_perm l : sort_Strings l ≡ₚ l.
Proof. apply merge_sort_Permutation. Qed.

Lemma sort_Strings_sorted l : StronglySorted String.le (sort_Strings l).
Proof. apply StronglySorted_merge_sort; apply _. Qed.

Lemma elem_of_sort_Strings l x : x ∈ sort_Strings l ↔ x ∈ l.
Proof. by rewrite sort_Strings_perm. Qed.

Lemma NoDup_sort_Strings l : NoDup l → NoDup (sort_Strings l).
Proof. by rewrite sort_Strings_perm. Qed.
#[export] Hint Resolve NoDup_sort_Strings : router.
