(* ===== verification/Provider.v ===== *)
(** * Providers: the data-plane contract and its registries

    [internal/provider]: identifiers and capabilities, the [Provider] interface
    (as the answers its methods give), [Registry], [HealthRegistry], the
    descriptor checks and the lifecycle [EventBus]. *)

From S2P Require Import Prelude GoStd.

(** ** Identifiers *)

(* src/internal/provider/provider.go ID *)
Definition Copilot : string := "copilot".
(* src/internal/provider/provider.go ID *)
Definition Codex : string := "codex".
(* src/internal/provider/provider.go ID *)
Definition Kilo : string := "kilo".

(* src/internal/provider/provider.go Capability *)
Definition CapabilityChat : string := "chat".
(* src/internal/provider/provider.go Capability *)
Definition CapabilityResponses : string := "responses".
(* src/internal/provider/provider.go Capability *)
Definition CapabilityEmbeddings : string := "embeddings".

(* src/internal/provider/provider.go Health *)
Record Health := mkHealth {
  Authenticated : bool;
  CanRefresh : bool;
  LastError : string;
  LastRefreshAt : Time;
}.

(** What the methods of a provider answer at the moment they are called.
    [ListModels] is [Err] for a failed fetch and [Ok None] for a nil list;
    [LastKnownModels] and [AllowedModelIDs] are [None] when the provider does not
    implement the optional interface, and the inner option of the first is the
    [ok] result. *)
(* src/internal/provider/provider.go Provider *)
Record Provider := mkProvider {
  p_ID : string;
  p_Capabilities : list string;
  p_ListModels : result (option (list string)) string;
  p_Health : Health;
  p_LastKnownModels : option (option (list string * Time * bool));
  p_AllowedModelIDs : option (list string);
}.

(** ** Registry

    Registration order is kept next to the map; a nil provider is [None]. *)
Module Registry.

(* src/internal/provider/registry.go Registry *)
Record t := mk {
  providers : gmap string Provider;
  order : list string;
  frozen : bool;
}.

Inductive error := ProviderRequired | RegistryFrozen | NotRegistered (id : string).

Definition empty : t := mk ∅ [] false.

(* src/internal/provider/registry.go Registry.Register *)
Definition Register (r : t) (provider : option Provider) : result t error :=
  match provider with
  | None => Err ProviderRequired
  | Some provider =>
    if frozen r then Err RegistryFrozen
    else
      let order' :=
        match providers r !! p_ID provider with
        | None => order r ++ [p_ID provider]
        | Some _ => order r
        end in
      Ok (mk (<[p_ID provider := provider]> (providers r)) order' (frozen r))
  end.

(** [NewRegistry] ignores the error of each registration. *)
(* src/internal/provider/registry.go NewRegistry *)
Definition NewRegistry (l : list (option Provider)) : t :=
  foldl (λ r p, match Register r p with Ok r' => r' | Err _ => r end) empty l.

Fixpoint remove_first (id : string) (l : list string) : list string :=
  match l with
  | [] => []
  | x :: l' => if decide (x = id) then l' else x :: remove_first id l'
  end.

(* src/internal/provider/registry.go Registry.Unregister *)
Definition Unregister (r : t) (id : string) : result (t * option Provider) error :=
  if frozen r then Err RegistryFrozen
  else
    match providers r !! id with
    | None => Ok (r, None)
    | Some registered =>
      Ok (mk (delete id (providers r)) (remove_first id (order r)) (frozen r), Some registered)
    end.

(* src/internal/provider/registry.go Registry.Freeze *)
Definition Freeze (r : t) : t := mk (providers r) (order r) true.

(* src/internal/provider/registry.go Registry.Frozen *)
Definition Frozen (r : t) : bool := frozen r.

(* src/internal/provider/registry.go Registry.IDs *)
Definition IDs (r : t) : list string := order r.

(* src/internal/provider/registry.go Registry.Get *)
Definition Get (r : t) (id : string) : result Provider error :=
  match providers r !! id with
  | Some registered => Ok registered
  | None => Err (NotRegistered id)
  end.

(** An identifier of the order that the map lacks would put Go's nil in the
    result: [None]. *)
(* src/internal/provider/registry.go Registry.All *)
Definition All (r : t) : list (option Provider) := (λ id, providers r !! id) <$> order r.

(** *** Invariant: the order lists exactly the keys, once each, and every
    provider is stored under its own identifier. *)
Record wf (r : t) : Prop := {
  wf_nodup : NoDup (order r);
  wf_dom : ∀ id, id ∈ order r ↔ is_Some (providers r !! id);
  wf_key : ∀ id p, providers r !! id = Some p → p_ID p = id;
}.

Lemma wf_empty : wf empty.
Proof.
  split; simpl; [constructor| |done].
  intros id. split; [by intros ?%not_elem_of_nil|by intros [? ?]].
Qed.

Lemma wf_Register r p r' : wf r → Register r p = Ok r' → wf r'.
Proof.
  intros [Hnd Hdom Hkey] Hr. unfold Register in Hr. peel_in Hr; inv_ok.
  destruct (providers r !! p_ID p0) eqn:?; split; simpl.
  - done.
  - intros id. rewrite Hdom, lookup_insert. case_decide; naive_solver.
  - intros id q. rewrite lookup_insert. case_decide; naive_solver.
  - apply NoDup_app_snoc; [|done]. rewrite Hdom. intros [? ?]; congruence.
  - intros id. rewrite elem_of_app, list_elem_of_singleton, Hdom, lookup_insert.
    case_decide; naive_solver.
  - intros id q. rewrite lookup_insert. case_decide; naive_solver.
Qed.

Lemma wf_NewRegistry l : wf (NewRegistry l).
Proof.
  unfold NewRegistry. generalize wf_empty. generalize empty.
  induction l as [|p l IH]; intros r Hr; simpl; [done|].
  apply IH. destruct (Register r p) eqn:E; [|done]. by eapply wf_Register.
Qed.

Lemma elem_of_remove_first id x l :
  NoDup l → x ∈ remove_first id l ↔ x ∈ l ∧ x ≠ id.
Proof.
  induction 1 as [|y l Hy Hl IH]; simpl; [split; [by intros ?%not_elem_of_nil|by intros [?%not_elem_of_nil _]]|].
  rewrite elem_of_cons. case_decide as Hd; [subst|]; rewrite ?elem_of_cons; naive_solver.
Qed.

Lemma NoDup_remove_first id l : NoDup l → NoDup (remove_first id l).
Proof.
  induction 1 as [|y l Hy Hl IH]; simpl; [constructor|].
  case_decide; [done|]. constructor; [|done].
  rewrite elem_of_remove_first by done. naive_solver.
Qed.

Lemma wf_Unregister r id r' p : wf r → Unregister r id = Ok (r', p) → wf r'.
Proof.
  intros [Hnd Hdom Hkey] Hr. unfold Unregister in Hr. peel_in Hr; [|done].
  split; simpl.
  - by apply NoDup_remove_first.
  - intros x. rewrite elem_of_remove_first, Hdom, lookup_delete by done. case_decide; naive_solver.
  - intros x q. rewrite lookup_delete. case_decide; naive_solver.
Qed.

Lemma wf_Freeze r : wf r → wf (Freeze r).
Proof. by intros []. Qed.

#[export] Hint Resolve wf_empty wf_Register wf_NewRegistry wf_Unregister wf_Freeze : router.

(** [All] of a well-formed registry holds no nil provider. *)
Lemma All_spec r : wf r → ∃ l, All r = Some <$> l ∧ p_ID <$> l = order r ∧
  ∀ p, p ∈ l ↔ providers r !! p_ID p = Some p.
Proof.
  intros [Hnd Hdom Hkey]. unfold All.
  assert (Hs : ∀ id, id ∈ order r → is_Some (providers r !! id)) by naive_solver.
  assert (∃ l, (λ id, providers r !! id) <$> order r = Some <$> l ∧ p_ID <$> l = order r
    ∧ ∀ p, p ∈ l ↔ p_ID p ∈ order r ∧ providers r !! p_ID p = Some p) as (l & ? & ? & Hl).
  { clear Hnd Hdom. induction (order r) as [|id o IH]; csimpl.
    - exists []. split_and!; [done..|]. intros p. rewrite !elem_of_nil. naive_solver.
    - destruct IH as (l & -> & <- & Hl); [set_solver|].
      destruct (Hs id ltac:(set_solver)) as [p Hp]. exists (p :: l).
      rewrite Hp. csimpl. rewrite (Hkey _ _ Hp). split_and!; [done..|].
      intros q. rewrite elem_of_cons, Hl, elem_of_cons. split; [|naive_solver].
      intros [->|[? ?]]; [|naive_solver]. rewrite (Hkey _ _ Hp). naive_solver. }
  exists l. split_and!; [done..|]. intros p. rewrite Hl. split; [naive_solver|].
  intros Hp. split; [|done]. apply Hdom. by rewrite Hp.
Qed.

(** What a registry holds was registered. *)
Lemma NewRegistry_from l id q : providers (NewRegistry l) !! id = Some q → Some q ∈ l.
Proof.
  unfold NewRegistry.
  assert (Hg : ∀ r, providers (foldl (λ r p, match Register r p with Ok r' => r' | Err _ => r end) r l) !! id
    = Some q → providers r !! id = Some q ∨ Some q ∈ l).
  { induction l as [|p l IH]; intros r Hq; [by left|]. destruct (IH _ Hq) as [Hr|]; [|right; by right].
    unfold Register in Hr. destruct p as [p|]; [|by left]. destruct (frozen r); [by left|].
    simpl in Hr. apply lookup_insert_Some in Hr as [[_ <-]|[_ ?]]; [right; by left|by left]. }
  intros [Hq|?]%Hg; [|done]. simpl in Hq. by rewrite lookup_empty in Hq.
Qed.

(** *** Histories *)

Inductive op := OpRegister (p : option Provider) | OpUnregister (id : string) | OpFreeze.

Definition step (r : t) (o : op) : t :=
  match o with
  | OpRegister p => match Register r p with Ok r => r | Err _ => r end
  | OpUnregister id => match Unregister r id with Ok (r, _) => r | Err _ => r end
  | OpFreeze => Freeze r
  end.

Lemma registry_wf_step r o : wf r → wf (step r o).
Proof.
  intros Hr. destruct o as [p|id|]; simpl; [| |by apply wf_Freeze].
  - destruct (Register r p) eqn:E; eauto with router.
  - destruct (Unregister r id) as [[r' p]|] eqn:E; eauto with router.
Qed.

Lemma registry_wf_steps r ops : wf r → wf (foldl step r ops).
Proof. revert r; induction ops as [|o ops IH]; intros r Hr; simpl; auto using registry_wf_step. Qed.

Lemma frozen_steps r ops : frozen r = true → foldl step r ops = r.
Proof.
  intros Hf. induction ops as [|o ops IH]; simpl; [done|].
  assert (step r o = r) as ->; [|done].
  destruct o as [[p|]|id|]; simpl; unfold Unregister; rewrite ?Hf; [done..|].
  destruct r; unfold Freeze; simpl in *; by rewrite Hf.
Qed.

(** The registry.  Whatever is registered and unregistered, the providers it
    lists are the registered ones, each once, in the order [IDs] gives and under
    its own identifier, with no nil among them; and a frozen registry never
    changes. *)
Theorem registry_consistent l ops :
  let r := foldl step (NewRegistry l) ops in
  (∃ ps, All r = Some <$> ps ∧ p_ID <$> ps = IDs r ∧ NoDup (IDs r)
     ∧ ∀ p, p ∈ ps ↔ Get r (p_ID p) = Ok p)
  ∧ ∀ later, foldl step (Freeze r) later = Freeze r.
Proof.
  intros r. assert (wf r) as Hr by apply registry_wf_steps, wf_NewRegistry.
  split; [|intros; by apply frozen_steps].
  destruct (All_spec r Hr) as (ps & Ha & Ho & Hp). exists ps. split_and!; [done..|apply Hr|].
  intros p. rewrite Hp. unfold Get. destruct (providers r !! p_ID p) as [q|]; naive_solver.
Qed.

End Registry.

(** ** Provider health, independent from the routing registry *)
Module HealthRegistry.

(* src/internal/provider/health_registry.go State *)
Inductive State :=
| StateDisabled | StateEnabledUnconfigured | StateReady
| StateDegraded | StateError | StateDraining.

#[global] Instance State_eq_dec : EqDecision State.
Proof. solve_decision. Defined.

(* src/internal/provider/health_registry.go HealthRecord *)
Record HealthRecord := mkRecord {
  hr_ProviderID : string;
  hr_State : State;
  hr_Health : Health;
  hr_Generation : Z;
  hr_UpdatedAt : Time;
}.

(* src/internal/provider/health_registry.go HealthRegistry *)
Definition t := gmap string HealthRecord.

Definition zeroHealth : Health := mkHealth false false "" zeroTime.

(* src/internal/provider/health_registry.go HealthRegistry.Set *)
Definition Set_ (now : Time) (record : HealthRecord) (registry : t) : t :=
  if decide (hr_ProviderID record = "") then registry
  else
    let record :=
      if IsZero (hr_UpdatedAt record)
      then mkRecord (hr_ProviderID record) (hr_State record) (hr_Health record)
             (hr_Generation record) now
      else record in
    <[hr_ProviderID record := record]> registry.

(* src/internal/provider/health_registry.go HealthRegistry.Get *)
Definition Get (registry : t) (id : string) : option HealthRecord :=
  (registry : gmap string HealthRecord) !! id.

(* src/internal/provider/health_registry.go HealthRegistry.Remove *)
Definition Remove (id : string) (registry : t) : t :=
  delete id (registry : gmap string HealthRecord).

Definition le_ID (a b : HealthRecord) : Prop := String.le (hr_ProviderID a) (hr_ProviderID b).
#[global] Instance le_ID_dec : RelDecision le_ID := λ a b, _.

(* src/internal/provider/health_registry.go HealthRegistry.All *)
Definition All (registry : t) : list HealthRecord :=
  merge_sort le_ID ((map_to_list (registry : gmap string HealthRecord)).*2).

(* src/internal/provider/manager.go stateFromHealth *)
Definition stateFromHealth (health : Health) : State :=
  if Authenticated health then StateReady
  else if negb (String.eqb (LastError health) "") then StateError
  else if CanRefresh health then StateDegraded
  else StateEnabledUnconfigured.

End HealthRegistry.

(** ** Descriptors *)
Module Descriptor.

(* src/internal/provider/descriptor.go AuthMethod *)
Inductive AuthMethod :=
| AuthDeviceCode | AuthAPIKey | AuthManualTokenRecovery | AuthAnonymous.

(* src/internal/provider/descriptor.go ConfigValueType *)
Inductive ConfigValueType := ConfigString | ConfigBoolean | ConfigInteger | ConfigStrings.

(* src/internal/provider/descriptor.go ConfigField *)
Record ConfigField := mkField {
  cf_Name : string; cf_Type : ConfigValueType; cf_Required : bool; cf_Secret : bool;
}.

(* src/internal/provider/descriptor.go Descriptor *)
Record t := mk {
  d_ID : string;
  d_Name : string;
  d_Capabilities : list string;
  d_AuthMethods : list AuthMethod;
  d_MultiAccount : bool;
  d_ConfigSchema : list ConfigField;
  d_SchemaVersion : Z;
}.

Inductive error :=
| IDRequired | NameRequired | SchemaVersionNotPositive | NoCapability
| UnnamedField | RepeatedField (name : string) | UndescribedCapability (c : string).

(* src/internal/provider/descriptor.go ValidateDescriptor *)
Definition ValidateDescriptor (d : t) : result unit error :=
  if decide (d_ID d = "") then Err IDRequired
  else if decide (d_Name d = "") then Err NameRequired
  else if (d_SchemaVersion d <? 1)%Z then Err SchemaVersionNotPositive
  else if decide (d_Capabilities d = []) then Err NoCapability
  else
    scan_unique (λ f, if decide (cf_Name f = "") then Some UnnamedField else None)
      cf_Name (λ f, RepeatedField (cf_Name f)) (λ _, None) ∅ (d_ConfigSchema d).

(* src/internal/provider/manager.go validateCapabilities *)
Fixpoint validateCapabilities (d : t) (capabilities : list string) : result unit error :=
  match capabilities with
  | [] => Ok tt
  | c :: cs =>
    if decide (c ∈ d_Capabilities d) then validateCapabilities d cs
    else Err (UndescribedCapability c)
  end.

(** A descriptor that may drive a generic management client. *)
Definition valid (d : t) : Prop :=
  d_ID d ≠ "" ∧ d_Name d ≠ "" ∧ (1 ≤ d_SchemaVersion d)%Z ∧ d_Capabilities d ≠ [] ∧
  "" ∉ cf_Name <$> d_ConfigSchema d ∧ NoDup (cf_Name <$> d_ConfigSchema d).

Lemma ValidateDescriptor_Ok d : ValidateDescriptor d = Ok tt ↔ valid d.
Proof.
  unfold ValidateDescriptor, valid.
  do 2 (case_decide; [naive_solver|]).
  destruct (d_SchemaVersion d <? 1)%Z eqn:Hv; reflect_bools; [split; [done|lia]|].
  case_decide; [naive_solver|]. rewrite scan_unique_Ok, list_elem_of_fmap.
  split.
  - intros [Hall Hnd]. split_and!; try done. intros (f & Hf & Hin).
    destruct (Hall f Hin) as (Hpre & _). by case_decide.
  - intros (_ & _ & _ & _ & Hne & Hnd). split; [|done]. intros f Hf.
    case_decide as Hn; [destruct Hne; by exists f|]. set_solver.
Qed.

Lemma validateCapabilities_Ok d cs :
  validateCapabilities d cs = Ok tt ↔ ∀ c, c ∈ cs → c ∈ d_Capabilities d.
Proof.
  induction cs as [|c cs IH]; simpl; [set_solver|].
  case_decide; [rewrite IH; set_solver|]. split; [done|set_solver].
Qed.

End Descriptor.

(** ** Lifecycle events with a bounded history

    A subscriber's channel is its buffered events and its capacity; the
    non-blocking send drops the event when the buffer is full. *)
Module EventBus.

(* src/internal/provider/events.go EventType *)
Inductive EventType :=
| EventFactoryRegistered | EventFactoryUnregistered | EventConstructing | EventValidating
| EventPublished | EventRemoved | EventReconcileFailed
| EventDrainStarted | EventDrainTimedOut | EventDrained.

(* src/internal/provider/events.go LifecycleEvent *)
Record LifecycleEvent := mkEvent {
  ev_Sequence : Z;
  ev_Type : EventType;
  ev_ProviderID : string;
  ev_Generation : Z;
  ev_Reason : string;
  ev_PendingSnapshots : Z;
  ev_Timestamp : Time;
}.

Record channel := mkChannel { ch_buffer : list LifecycleEvent; ch_capacity : nat }.

(* src/internal/provider/events.go EventBus *)
Record t := mk {
  nextSequence : Z;
  historyLimit : nat;
  history : list LifecycleEvent;
  nextSubID : Z;
  subscribers : gmap Z channel;
}.

(* src/internal/provider/events.go NewEventBus *)
Definition NewEventBus (limit : Z) : t :=
  mk 0 (if (limit <=? 0)%Z then 256 else Z.to_nat limit) [] 0 ∅.

Definition offer (event : LifecycleEvent) (ch : channel) : channel :=
  if (length (ch_buffer ch) <? ch_capacity ch)%nat
  then mkChannel (ch_buffer ch ++ [event]) (ch_capacity ch)
  else ch.

Definition stamp (sequence : Z) (now : Time) (event : LifecycleEvent) : LifecycleEvent :=
  mkEvent sequence (ev_Type event) (ev_ProviderID event) (ev_Generation event)
    (ev_Reason event) (ev_PendingSnapshots event)
    (if IsZero (ev_Timestamp event) then now else ev_Timestamp event).

(* src/internal/provider/events.go EventBus.Publish *)
Definition Publish (now : Time) (event : LifecycleEvent) (bus : t) : t * LifecycleEvent :=
  let sequence := wrap_u64 (nextSequence bus + 1) in
  let event := stamp sequence now event in
  let history' := history bus ++ [event] in
  let overflow := (length history' - historyLimit bus)%nat in
  (mk sequence (historyLimit bus)
     (if (0 <? overflow)%nat then drop overflow history' else history')
     (nextSubID bus) (offer event <$> subscribers bus), event).

(* src/internal/provider/events.go EventBus.History *)
Definition History (bus : t) (after : Z) : list LifecycleEvent :=
  filter (λ e, (after < ev_Sequence e)%Z) (history bus).

(* src/internal/provider/events.go EventBus.Subscribe *)
Definition Subscribe (buffer : Z) (bus : t) : t * Z :=
  let capacity := Z.to_nat (if (buffer <=? 0)%Z then 16 else buffer) in
  let id := wrap_u64 (nextSubID bus + 1) in
  (mk (nextSequence bus) (historyLimit bus) (history bus) id
     (<[id := mkChannel [] capacity]> (subscribers bus)), id).

(** The cancel function of a subscription; [delete] of an absent key is the
    no-op the [sync.Once] makes of a second call. *)
(* src/internal/provider/events.go EventBus.Subscribe *)
Definition Cancel (id : Z) (bus : t) : t :=
  mk (nextSequence bus) (historyLimit bus) (history bus) (nextSubID bus)
    (delete id (subscribers bus)).

(** A subscriber reads one event. *)
Definition Receive (id : Z) (bus : t) : t :=
  mk (nextSequence bus) (historyLimit bus) (history bus) (nextSubID bus)
    (alter (λ ch, mkChannel (tail (ch_buffer ch)) (ch_capacity ch)) id (subscribers bus)).

(** *** Refinement: the history is the tail of the complete log. *)
Inductive op :=
| OpPublish (now : Time) (event : LifecycleEvent)
| OpSubscribe (buffer : Z)
| OpCancel (id : Z)
| OpReceive (id : Z).

Definition step (bus : t) (o : op) : t :=
  match o with
  | OpPublish now event => fst (Publish now event bus)
  | OpSubscribe buffer => fst (Subscribe buffer bus)
  | OpCancel id => Cancel id bus
  | OpReceive id => Receive id bus
  end.

(** The abstract bus: every event ever published, numbered from 1. *)
Definition log_step (log : list LifecycleEvent) (o : op) : list LifecycleEvent :=
  match o with
  | OpPublish now event => log ++ [stamp (wrap_u64 (Z.of_nat (length log) + 1)) now event]
  | _ => log
  end.

Lemma take_last_snoc {A} n (l k : list A) x :
  n ≠ 0 → l = take_last n k → take_last n (l ++ [x]) = take_last n (k ++ [x]).
Proof.
  intros Hn ->. unfold take_last. rewrite !length_app, length_drop; simpl.
  destruct (decide (length k < n)) as [Hk|Hk].
  - replace (length k - n) with 0 by lia. rewrite drop_0.
    replace (length k - 0) with (length k) by lia. done.
  - rewrite drop_app_le by (rewrite length_drop; lia). rewrite drop_app_le by lia.
    rewrite drop_drop. do 2 f_equal. lia.
Qed.

Lemma step_refines limit ops bus log :
  historyLimit bus = limit → limit ≠ 0 →
  history bus = take_last limit log →
  nextSequence bus = wrap_u64 (Z.of_nat (length log)) →
  let bus' := foldl step bus ops in
  let log' := foldl log_step log ops in
  history bus' = take_last limit log' ∧ nextSequence bus' = wrap_u64 (Z.of_nat (length log')).
Proof.
  intros Hlim Hne. revert bus log Hlim; induction ops as [|o ops IH]; intros bus log Hlim Hh Hs.
  { done. }
  simpl. apply IH; destruct o; simpl; try done.
  - assert (Hseq : wrap_u64 (nextSequence bus + 1) = wrap_u64 (Z.of_nat (length log) + 1)).
    { rewrite Hs. unfold wrap_u64. by rewrite Zplus_mod_idemp_l. }
    rewrite Hseq, Hlim. rewrite <-(take_last_snoc limit _ _ _ Hne Hh).
    unfold take_last at 1. destruct (Nat.ltb_spec 0 (length (history bus ++
      [stamp (wrap_u64 (Z.of_nat (length log) + 1)) now event]) - limit)) as [|Hle]; [done|].
    by replace (_ - limit) with 0 by lia.
  - rewrite Hs, length_app. unfold wrap_u64. rewrite Zplus_mod_idemp_l. f_equal. simpl. lia.
Qed.

Lemma log_steps_sequences ops log :
  ev_Sequence <$> log = wrap_u64 <$> seqZ 1 (Z.of_nat (length log)) →
  ev_Sequence <$> foldl log_step log ops
  = wrap_u64 <$> seqZ 1 (Z.of_nat (length (foldl log_step log ops))).
Proof.
  revert log; induction ops as [|o ops IH]; intros log Hl; simpl; [done|]. apply IH.
  destruct o; simpl; try done. rewrite fmap_app, Hl, length_app, Nat2Z.inj_add.
  rewrite seqZ_app by lia. rewrite fmap_app. f_equal. simpl. by rewrite Z.add_comm.
Qed.

(** The event bus refines a log.  After any sequence of publications,
    subscriptions, cancellations and reads, the history is the last [limit] (256
    by default) entries of the log of every event ever published, and that log is
    numbered 1, 2, 3 and so on, without gaps. *)
Theorem history_is_log_suffix limit ops :
  let log := foldl log_step [] ops in
  history (foldl step (NewEventBus limit) ops)
    = take_last (if (limit <=? 0)%Z then 256 else Z.to_nat limit) log
  ∧ ev_Sequence <$> log = wrap_u64 <$> seqZ 1 (Z.of_nat (length log)).
Proof.
  intros log. split; [|by apply log_steps_sequences].
  apply (step_refines _ ops (NewEventBus limit) []); [done| |by destruct (Z.to_nat limit)|done].
  simpl. destruct (limit <=? 0)%Z eqn:Hl; reflect_bools; lia.
Qed.

End EventBus.
