(* ===== verification/Config.v ===== *)
(** * Configuration: the persisted schema, its validation, copies and redaction

    [internal/config].  A slice field keeps Go's difference between nil and
    empty ([None] and [Some []]) because JSON shows it; maps are identified with
    their contents (every map field is [omitempty]). *)

From S2P Require Import Prelude GoStd.

Notation slice A := (option (list A)) (only parsing).
Definition elems {A} (s : slice A) : list A := default [] s.

(* src/internal/config/types.go SecretReference *)
Record SecretReference := mkSecretReference {
  sr_ID : string; sr_Source : string; sr_ReadOnly : bool;
}.

(* src/internal/config/types.go ModelMapEntry *)
Record ModelMapEntry := mkModelMapEntry {
  mm_Provider : string; mm_UpstreamModel : string;
}.

(* src/internal/config/types.go VirtualModelStrategyPriority *)
Definition VirtualModelStrategyPriority : string := "priority".
(* src/internal/config/types.go VirtualModelStrategyQuotaPriority *)
Definition VirtualModelStrategyQuotaPriority : string := "quota_priority".

(* src/internal/config/types.go VirtualModel *)
Record VirtualModel := mkVirtualModel {
  vm_Strategy : string; vm_Targets : slice string;
}.

(* src/internal/config/types.go Routing *)
Record Routing := mkRouting {
  DefaultModel : string;
  DefaultProvider : string;
  ShowUnavailableModels : bool;
  ModelMap : gmap string ModelMapEntry;
  ClaudeAliases : gmap string string;
  VirtualModels : gmap string VirtualModel;
  ExposeInternalModels : bool;
}.

(* src/internal/config/types.go CopilotAuthState *)
Record CopilotAuthState := mkCopilotAuth {
  ca_Mode : string;
  ca_GitHubToken : string;
  ca_GitHubTokenRef : option SecretReference;
  ca_CopilotToken : string;
  ca_CopilotTokenRef : option SecretReference;
  ca_ExpiresAt : Z;
  ca_RefreshIn : Z;
}.

(* src/internal/config/types.go CopilotAccount *)
Record CopilotAccount := mkCopilotAccount {
  cpa_ID : string; cpa_Label : string; cpa_Auth : CopilotAuthState; cpa_LastLimitedAt : Z;
}.

(* src/internal/config/types.go CopilotProvider *)
Record CopilotProvider := mkCopilotProvider {
  cp_Enabled : bool;
  cp_Auth : CopilotAuthState;
  cp_Accounts : slice CopilotAccount;
  cp_AccountCooldownSeconds : Z;
  cp_AllowedModels : slice string;
}.

(* src/internal/config/types.go CodexAuthState *)
Record CodexAuthState := mkCodexAuth {
  xa_Mode : string;
  xa_APIKey : string;
  xa_APIKeyRef : option SecretReference;
  xa_AccessToken : string;
  xa_AccessTokenRef : option SecretReference;
  xa_RefreshToken : string;
  xa_RefreshTokenRef : option SecretReference;
  xa_ExpiresAt : Z;
  xa_AccountID : string;
}.

(* src/internal/config/types.go CodexAccount *)
Record CodexAccount := mkCodexAccount {
  cxa_ID : string; cxa_Label : string; cxa_Auth : CodexAuthState; cxa_LastLimitedAt : Z;
}.

(* src/internal/config/types.go CodexProvider *)
Record CodexProvider := mkCodexProvider {
  cx_Enabled : bool;
  cx_Auth : CodexAuthState;
  cx_Accounts : slice CodexAccount;
  cx_AccountCooldownSeconds : Z;
  cx_AllowedModels : slice string;
  cx_ChatGPTBaseURL : string;
}.

(* src/internal/config/types.go KiloProvider *)
Record KiloProvider := mkKiloProvider {
  kp_Enabled : bool;
  kp_AllowAnonymous : bool;
  kp_APIKey : string;
  kp_APIKeyRef : option SecretReference;
  kp_OrganizationID : string;
  kp_OrganizationIDRef : option SecretReference;
  kp_BaseURL : string;
  kp_AllowedModels : slice string;
}.

(* src/internal/config/types.go Providers *)
Record Providers := mkProviders {
  pr_Copilot : CopilotProvider; pr_Codex : CodexProvider; pr_Kilo : KiloProvider;
}.

(* src/internal/config/types.go Timeouts *)
Record Timeouts := mkTimeouts {
  HTTPClient : Z; ServerRead : Z; ServerWrite : Z; ServerIdle : Z; ProxyContext : Z;
  CircuitBreaker : Z; KeepAlive : Z; TLSHandshake : Z; DialTimeout : Z; IdleConnTimeout : Z;
}.

(* src/internal/config/types.go Logging *)
Record Logging := mkLogging { FilePath : string; MaxFileSizeMiB : Z; RetainedFiles : Z }.

(* src/internal/config/types.go Config *)
Record Config := mkConfig {
  Port : Z;
  ConfigVersion : Z;
  EnablePprof : bool;
  cfg_Logging : Logging;
  cfg_Routing : Routing;
  cfg_Providers : Providers;
  cfg_Timeouts : Timeouts;
}.

(** ** Clone

    [append([]T(nil), source...)] of an empty slice is nil. *)

Definition append_nil {A} (l : list A) : slice A := match l with [] => None | _ => Some l end.

(* src/internal/config/clone.go cloneStrings *)
Definition cloneStrings (source : slice string) : slice string :=
  match source with None => None | Some l => append_nil l end.

(* src/internal/config/clone.go cloneModelMap *)
Definition cloneModelMap (source : gmap string ModelMapEntry) : gmap string ModelMapEntry :=
  source.

(* src/internal/config/clone.go cloneVirtualModels *)
Definition cloneVirtualModels (source : gmap string VirtualModel) : gmap string VirtualModel :=
  (λ value, mkVirtualModel (vm_Strategy value) (cloneStrings (vm_Targets value))) <$> source.

(* src/internal/config/clone.go cloneSecretReference *)
Definition cloneSecretReference (source : option SecretReference) : option SecretReference :=
  match source with None => None | Some r => Some r end.

(* src/internal/config/clone.go cloneCopilotAuth *)
Definition cloneCopilotAuth (a : CopilotAuthState) : CopilotAuthState :=
  mkCopilotAuth (ca_Mode a) (ca_GitHubToken a) (cloneSecretReference (ca_GitHubTokenRef a))
    (ca_CopilotToken a) (cloneSecretReference (ca_CopilotTokenRef a))
    (ca_ExpiresAt a) (ca_RefreshIn a).

(* src/internal/config/clone.go cloneCodexAuth *)
Definition cloneCodexAuth (a : CodexAuthState) : CodexAuthState :=
  mkCodexAuth (xa_Mode a) (xa_APIKey a) (cloneSecretReference (xa_APIKeyRef a))
    (xa_AccessToken a) (cloneSecretReference (xa_AccessTokenRef a))
    (xa_RefreshToken a) (cloneSecretReference (xa_RefreshTokenRef a))
    (xa_ExpiresAt a) (xa_AccountID a).

(* src/internal/config/clone.go cloneCopilotAccounts *)
Definition cloneCopilotAccounts (source : slice CopilotAccount) : slice CopilotAccount :=
  match source with
  | None => None
  | Some l =>
    append_nil ((λ a, mkCopilotAccount (cpa_ID a) (cpa_Label a)
      (cloneCopilotAuth (cpa_Auth a)) (cpa_LastLimitedAt a)) <$> l)
  end.

(* src/internal/config/clone.go cloneCodexAccounts *)
Definition cloneCodexAccounts (source : slice CodexAccount) : slice CodexAccount :=
  match source with
  | None => None
  | Some l =>
    append_nil ((λ a, mkCodexAccount (cxa_ID a) (cxa_Label a)
      (cloneCodexAuth (cxa_Auth a)) (cxa_LastLimitedAt a)) <$> l)
  end.

(** The struct is copied, then the fields below are replaced by copies;
    [ClaudeAliases] is not among them and keeps the source's value. *)
(* src/internal/config/clone.go Clone *)
Definition Clone (source : Config) : Config :=
  let r := cfg_Routing source in
  let p := cfg_Providers source in
  let c := pr_Copilot p in let x := pr_Codex p in let k := pr_Kilo p in
  mkConfig (Port source) (ConfigVersion source) (EnablePprof source) (cfg_Logging source)
    (mkRouting (DefaultModel r) (DefaultProvider r) (ShowUnavailableModels r)
      (cloneModelMap (ModelMap r)) (ClaudeAliases r) (cloneVirtualModels (VirtualModels r))
      (ExposeInternalModels r))
    (mkProviders
      (mkCopilotProvider (cp_Enabled c) (cloneCopilotAuth (cp_Auth c))
        (cloneCopilotAccounts (cp_Accounts c)) (cp_AccountCooldownSeconds c)
        (cloneStrings (cp_AllowedModels c)))
      (mkCodexProvider (cx_Enabled x) (cloneCodexAuth (cx_Auth x))
        (cloneCodexAccounts (cx_Accounts x)) (cx_AccountCooldownSeconds x)
        (cloneStrings (cx_AllowedModels x)) (cx_ChatGPTBaseURL x))
      (mkKiloProvider (kp_Enabled k) (kp_AllowAnonymous k) (kp_APIKey k)
        (cloneSecretReference (kp_APIKeyRef k)) (kp_OrganizationID k)
        (cloneSecretReference (kp_OrganizationIDRef k)) (kp_BaseURL k)
        (cloneStrings (kp_AllowedModels k))))
    (cfg_Timeouts source).

(** ** Redact *)

(* src/internal/config/redact.go redactCopilotAuth *)
Definition redactCopilotAuth (a : CopilotAuthState) : CopilotAuthState :=
  mkCopilotAuth (ca_Mode a) "" (ca_GitHubTokenRef a) "" (ca_CopilotTokenRef a)
    (ca_ExpiresAt a) (ca_RefreshIn a).

(* src/internal/config/redact.go redactCodexAuth *)
Definition redactCodexAuth (a : CodexAuthState) : CodexAuthState :=
  mkCodexAuth (xa_Mode a) "" (xa_APIKeyRef a) "" (xa_AccessTokenRef a) ""
    (xa_RefreshTokenRef a) (xa_ExpiresAt a) "".

(* src/internal/config/redact.go Redact *)
Definition Redact (source : Config) : Config :=
  let cloned := Clone source in
  let p := cfg_Providers cloned in
  let c := pr_Copilot p in let x := pr_Codex p in let k := pr_Kilo p in
  mkConfig (Port cloned) (ConfigVersion cloned) (EnablePprof cloned) (cfg_Logging cloned)
    (cfg_Routing cloned)
    (mkProviders
      (mkCopilotProvider (cp_Enabled c) (redactCopilotAuth (cp_Auth c))
        ((λ l : list _, (λ a, mkCopilotAccount (cpa_ID a) (cpa_Label a)
          (redactCopilotAuth (cpa_Auth a)) (cpa_LastLimitedAt a)) <$> l) <$> cp_Accounts c)
        (cp_AccountCooldownSeconds c) (cp_AllowedModels c))
      (mkCodexProvider (cx_Enabled x) (redactCodexAuth (cx_Auth x))
        ((λ l : list _, (λ a, mkCodexAccount (cxa_ID a) (cxa_Label a)
          (redactCodexAuth (cxa_Auth a)) (cxa_LastLimitedAt a)) <$> l) <$> cx_Accounts x)
        (cx_AccountCooldownSeconds x) (cx_AllowedModels x) (cx_ChatGPTBaseURL x))
      (mkKiloProvider (kp_Enabled k) (kp_AllowAnonymous k) "" (kp_APIKeyRef k) ""
        (kp_OrganizationIDRef k) (kp_BaseURL k) (kp_AllowedModels k)))
    (cfg_Timeouts cloned).

(** ** Validation of the virtual models *)

Inductive error :=
| EmptyID
| ProviderPrefixCollision (id prefix : string)
| ShadowsModelMap (id : string)
| UnsupportedStrategy (id strategy : string)
| NoTarget (id : string)
| EmptyTarget (id : string)
| DuplicateTarget (id target : string)
| VirtualTarget (id target : string)
| UnknownPrefix (id target : string) (prefixes : list string).

(* src/internal/config/validate.go matchKnownPrefix *)
Fixpoint matchKnownPrefix (id : string) (knownPrefixes : list string) : option string :=
  match knownPrefixes with
  | [] => None
  | prefix :: rest =>
    if bool_decide (prefix ≠ "") && HasPrefix id prefix then Some prefix
    else matchKnownPrefix id rest
  end.

(* src/internal/config/validate.go sortedCopy *)
Definition sortedCopy (values : list string) : list string := sort_Strings values.

(** The body of the loop over the sorted identifiers. *)
(* src/internal/config/validate.go Routing.ValidateVirtualModels *)
Definition validateVirtualModel (r : Routing) (knownPrefixes : list string)
    (id : string) (vm : VirtualModel) : result unit error :=
  if decide (TrimSpace id = "") then Err EmptyID
  else
    match matchKnownPrefix id knownPrefixes with
    | Some prefix => Err (ProviderPrefixCollision id prefix)
    | None =>
      match ModelMap r !! id with
      | Some _ => Err (ShadowsModelMap id)
      | None =>
        if bool_decide (vm_Strategy vm = VirtualModelStrategyPriority)
           || bool_decide (vm_Strategy vm = VirtualModelStrategyQuotaPriority)
        then
          if decide (elems (vm_Targets vm) = []) then Err (NoTarget id)
          else
            scan_unique
              (λ target, if decide (TrimSpace target = "") then Some (EmptyTarget id) else None)
              TrimSpace
              (λ target, DuplicateTarget id (TrimSpace target))
              (λ target,
                match VirtualModels r !! TrimSpace target with
                | Some _ => Some (VirtualTarget id (TrimSpace target))
                | None =>
                  match matchKnownPrefix (TrimSpace target) knownPrefixes with
                  | Some _ => None
                  | None =>
                    Some (UnknownPrefix id (TrimSpace target) (sortedCopy knownPrefixes))
                  end
                end)
              ∅ (elems (vm_Targets vm))
        else Err (UnsupportedStrategy id (vm_Strategy vm))
      end
    end.

Fixpoint validateIDs (r : Routing) (knownPrefixes : list string) (ids : list string)
    : result unit error :=
  match ids with
  | [] => Ok tt
  | id :: ids' =>
    match VirtualModels r !! id with
    | Some vm =>
      let? _ := validateVirtualModel r knownPrefixes id vm in
      validateIDs r knownPrefixes ids'
    | None => validateIDs r knownPrefixes ids'
    end
  end.

(* src/internal/config/validate.go Routing.ValidateVirtualModels *)
Definition ValidateVirtualModels (r : Routing) (knownPrefixes : list string)
    : result unit error :=
  if decide (size (VirtualModels r) = 0) then Ok tt
  else validateIDs r knownPrefixes (sort_Strings (elements (dom (VirtualModels r)))).

(** What the validation promises of one virtual model. *)
Record valid_virtual_model (r : Routing) (known : list string) (id : string)
    (vm : VirtualModel) : Prop := {
  vv_id : TrimSpace id ≠ "";
  vv_prefix : matchKnownPrefix id known = None;
  vv_shadow : ModelMap r !! id = None;
  vv_strategy : vm_Strategy vm = VirtualModelStrategyPriority
    ∨ vm_Strategy vm = VirtualModelStrategyQuotaPriority;
  vv_nonempty : elems (vm_Targets vm) ≠ [];
  vv_nodup : NoDup (TrimSpace <$> elems (vm_Targets vm));
  vv_target : ∀ t, t ∈ elems (vm_Targets vm) →
    TrimSpace t ≠ "" ∧ VirtualModels r !! TrimSpace t = None
    ∧ is_Some (matchKnownPrefix (TrimSpace t) known);
}.

Lemma matchKnownPrefix_Some id known p :
  matchKnownPrefix id known = Some p → p ∈ known ∧ p ≠ "" ∧ HasPrefix id p = true.
Proof.
  induction known as [|q known IH]; simpl; [done|].
  destruct (bool_decide (q ≠ "") && HasPrefix id q) eqn:E; [|set_solver].
  intros [= ->]. reflect_bools. set_solver.
Qed.

Lemma matchKnownPrefix_None id known :
  matchKnownPrefix id known = None ↔ ∀ p, p ∈ known → p ≠ "" → HasPrefix id p = false.
Proof.
  induction known as [|q known IH]; simpl; [set_solver|].
  setoid_rewrite elem_of_cons.
  destruct (bool_decide (q ≠ "") && HasPrefix id q) eqn:E.
  - reflect_bools. split; [done|]. intros Hall. rewrite (Hall q) in *; naive_solver.
  - rewrite IH. apply andb_false_iff in E as [E|E]; [|naive_solver].
    apply bool_decide_eq_false in E. split; [|naive_solver].
    intros Hall p [->|Hp] Hne; [done|auto].
Qed.

Lemma validateVirtualModel_Ok r known id vm :
  validateVirtualModel r known id vm = Ok tt ↔ valid_virtual_model r known id vm.
Proof.
  unfold validateVirtualModel. split.
  - intros H. case_decide; [done|].
    destruct (matchKnownPrefix id known) eqn:?; [done|].
    destruct (ModelMap r !! id) eqn:?; [done|].
    destruct (_ || _) eqn:Hs in H; [|done]. case_decide; [done|].
    apply scan_unique_Ok in H as [Hall Hnd]. split; try done.
    + apply orb_true_iff in Hs. rewrite !bool_decide_eq_true in Hs. done.
    + intros t Ht. destruct (Hall t Ht) as (Hpre & Hpost & _).
      destruct (decide (TrimSpace t = "")); [done|]. split; [done|].
      destruct (VirtualModels r !! TrimSpace t); [done|].
      by destruct (matchKnownPrefix (TrimSpace t) known).
  - intros [Hid Hp Hsh Hs Hne Hnd Ht]. rewrite decide_False, Hp, Hsh by done.
    rewrite (proj2 (orb_true_iff _ _)) by (rewrite !bool_decide_eq_true; done).
    rewrite decide_False by done. apply scan_unique_Ok. split; [|done].
    intros t Hin. destruct (Ht t Hin) as (Hne' & Hvm & [p Hk]).
    rewrite Hvm, Hk. case_decide; [done|]. set_solver.
Qed.

Lemma validateIDs_Ok r known ids :
  validateIDs r known ids = Ok tt ↔
  ∀ id vm, id ∈ ids → VirtualModels r !! id = Some vm → valid_virtual_model r known id vm.
Proof.
  induction ids as [|id ids IH]; simpl.
  { split; [|done]. by intros _ id vm ?%not_elem_of_nil. }
  destruct (VirtualModels r !! id) as [vm|] eqn:Hvm.
  - rewrite bind_result_Ok. split.
    + intros ([] & Hv%validateVirtualModel_Ok & Hrest) id' vm' [->|Hin]%elem_of_cons Hl;
        [congruence|exact (proj1 IH Hrest id' vm' Hin Hl)].
    + intros Hall. exists tt. split; [apply validateVirtualModel_Ok, Hall; [by left|done]|].
      apply (proj2 IH). intros id' vm' Hin Hl. apply Hall; [by right|done].
  - rewrite IH. split.
    + intros Hall id' vm' [->|Hin]%elem_of_cons Hl; [congruence|by eapply Hall].
    + intros Hall id' vm' Hin Hl. apply Hall; [by right|done].
Qed.

Lemma ValidateVirtualModels_Ok r known :
  ValidateVirtualModels r known = Ok tt ↔
  ∀ id vm, VirtualModels r !! id = Some vm → valid_virtual_model r known id vm.
Proof.
  unfold ValidateVirtualModels. case_decide as Hsz.
  - split; [|done]. intros _ id vm Hl. apply map_size_empty_iff in Hsz.
    rewrite Hsz, lookup_empty in Hl. done.
  - rewrite validateIDs_Ok. split; [|naive_solver]. intros Hall id vm Hl.
    apply Hall; [|done]. apply elem_of_sort_Strings, elem_of_elements, elem_of_dom. eauto.
Qed.

(** ** Redaction and secrets *)

Definition map_copilot_secrets (f : string → string) (a : CopilotAuthState) :=
  mkCopilotAuth (ca_Mode a) (f (ca_GitHubToken a)) (ca_GitHubTokenRef a)
    (f (ca_CopilotToken a)) (ca_CopilotTokenRef a) (ca_ExpiresAt a) (ca_RefreshIn a).

Definition map_codex_secrets (f : string → string) (a : CodexAuthState) :=
  mkCodexAuth (xa_Mode a) (f (xa_APIKey a)) (xa_APIKeyRef a) (f (xa_AccessToken a))
    (xa_AccessTokenRef a) (f (xa_RefreshToken a)) (xa_RefreshTokenRef a) (xa_ExpiresAt a)
    (f (xa_AccountID a)).

Definition map_copilot_account f (a : CopilotAccount) :=
  mkCopilotAccount (cpa_ID a) (cpa_Label a) (map_copilot_secrets f (cpa_Auth a))
    (cpa_LastLimitedAt a).
Definition map_codex_account f (a : CodexAccount) :=
  mkCodexAccount (cxa_ID a) (cxa_Label a) (map_codex_secrets f (cxa_Auth a))
    (cxa_LastLimitedAt a).

(** The configuration with every raw secret replaced by its image under [f]:
    the tokens and keys of the three providers and of every pooled account. *)
Definition map_secrets (f : string → string) (cfg : Config) : Config :=
  let p := cfg_Providers cfg in
  let c := pr_Copilot p in let x := pr_Codex p in let k := pr_Kilo p in
  mkConfig (Port cfg) (ConfigVersion cfg) (EnablePprof cfg) (cfg_Logging cfg)
    (cfg_Routing cfg)
    (mkProviders
      (mkCopilotProvider (cp_Enabled c) (map_copilot_secrets f (cp_Auth c))
        (fmap (M := list) (map_copilot_account f) <$> cp_Accounts c)
        (cp_AccountCooldownSeconds c) (cp_AllowedModels c))
      (mkCodexProvider (cx_Enabled x) (map_codex_secrets f (cx_Auth x))
        (fmap (M := list) (map_codex_account f) <$> cx_Accounts x)
        (cx_AccountCooldownSeconds x) (cx_AllowedModels x) (cx_ChatGPTBaseURL x))
      (mkKiloProvider (kp_Enabled k) (kp_AllowAnonymous k) (f (kp_APIKey k)) (kp_APIKeyRef k)
        (f (kp_OrganizationID k)) (kp_OrganizationIDRef k) (kp_BaseURL k) (kp_AllowedModels k)))
    (cfg_Timeouts cfg).

Definition copilot_secrets (a : CopilotAuthState) : list string :=
  [ca_GitHubToken a; ca_CopilotToken a].
Definition codex_secrets (a : CodexAuthState) : list string :=
  [xa_APIKey a; xa_AccessToken a; xa_RefreshToken a; xa_AccountID a].

(** Every raw secret of a configuration. *)
Definition raw_secrets (cfg : Config) : list string :=
  let p := cfg_Providers cfg in
  copilot_secrets (cp_Auth (pr_Copilot p))
  ++ (elems (cp_Accounts (pr_Copilot p)) ≫= λ a, copilot_secrets (cpa_Auth a))
  ++ codex_secrets (cx_Auth (pr_Codex p))
  ++ (elems (cx_Accounts (pr_Codex p)) ≫= λ a, codex_secrets (cxa_Auth a))
  ++ [kp_APIKey (pr_Kilo p); kp_OrganizationID (pr_Kilo p)].

(** Redaction of an account list, with the copy that precedes it. *)
Definition redact_copilot_accounts (l : slice CopilotAccount) : slice CopilotAccount :=
  (λ l : list _, (λ a, mkCopilotAccount (cpa_ID a) (cpa_Label a)
     (redactCopilotAuth (cpa_Auth a)) (cpa_LastLimitedAt a)) <$> l) <$> cloneCopilotAccounts l.
Definition redact_codex_accounts (l : slice CodexAccount) : slice CodexAccount :=
  (λ l : list _, (λ a, mkCodexAccount (cxa_ID a) (cxa_Label a)
     (redactCodexAuth (cxa_Auth a)) (cxa_LastLimitedAt a)) <$> l) <$> cloneCodexAccounts l.

Lemma redact_copilot_accounts_secrets f l :
  redact_copilot_accounts (fmap (M := list) (map_copilot_account f) <$> l)
  = redact_copilot_accounts l.
Proof.
  destruct l as [[|a l]|]; unfold redact_copilot_accounts; simpl; [done| |done].
  do 2 f_equal. rewrite <-!list_fmap_compose. by apply list_fmap_ext.
Qed.

Lemma redact_codex_accounts_secrets f l :
  redact_codex_accounts (fmap (M := list) (map_codex_account f) <$> l)
  = redact_codex_accounts l.
Proof.
  destruct l as [[|a l]|]; unfold redact_codex_accounts; simpl; [done| |done].
  do 2 f_equal. rewrite <-!list_fmap_compose. by apply list_fmap_ext.
Qed.

Lemma Redact_map_secrets f cfg : Redact (map_secrets f cfg) = Redact cfg.
Proof.
  destruct cfg as [? ? ? ? ? [[? ? ac ? ?] [? ? ax ? ? ?] [? ? ? ? ? ? ? ?]] ?].
  pose proof (redact_copilot_accounts_secrets f ac) as Hc.
  pose proof (redact_codex_accounts_secrets f ax) as Hx.
  unfold redact_copilot_accounts, redact_codex_accounts in Hc, Hx.
  unfold Redact, Clone, map_secrets. cbn -[fmap cloneCopilotAccounts cloneCodexAccounts].
  by rewrite Hc, Hx.
Qed.

Lemma copilot_accounts_redacted (l : list CopilotAccount) :
  Forall (eq "") (l ≫= λ a, copilot_secrets (redactCopilotAuth (cpa_Auth a))).
Proof. induction l; simpl; repeat constructor; done. Qed.

Lemma codex_accounts_redacted (l : list CodexAccount) :
  Forall (eq "") (l ≫= λ a, codex_secrets (redactCodexAuth (cxa_Auth a))).
Proof. induction l; simpl; repeat constructor; done. Qed.

Lemma Redact_raw_secrets cfg : Forall (eq "") (raw_secrets (Redact cfg)).
Proof.
  destruct cfg as [? ? ? ? ? [[? ? ac ? ?] [? ? ax ? ? ?] [? ? ? ? ? ? ? ?]] ?].
  unfold raw_secrets; simpl. repeat (apply Forall_cons; split; [done|]).
  apply Forall_app; split; [|apply Forall_cons; split; [done|]].
  { destruct ac as [[|a l]|]; simpl; repeat constructor; try done.
    induction l; simpl; repeat constructor; done. }
  repeat (apply Forall_cons; split; [done|]).
  apply Forall_app; split; [|by repeat constructor].
  destruct ax as [[|a l]|]; simpl; repeat constructor; try done.
  induction l; simpl; repeat constructor; done.
Qed.

(** ** Properties *)

(** A copy of a copy is the copy. *)
Lemma append_nil_fmap {A B} (f : A → B) (l : list A) :
  match append_nil l with None => None | Some l => append_nil (f <$> l) end = append_nil (f <$> l).
Proof. by destruct l. Qed.

Lemma cloneSecretReference_idemp r : cloneSecretReference r = r.
Proof. by destruct r. Qed.

Lemma cloneStrings_idemp s : cloneStrings (cloneStrings s) = cloneStrings s.
Proof. destruct s as [[]|]; done. Qed.

Lemma cloneCopilotAccounts_idemp s :
  cloneCopilotAccounts (cloneCopilotAccounts s) = cloneCopilotAccounts s.
Proof.
  destruct s as [l|]; [|done]. unfold cloneCopilotAccounts. rewrite append_nil_fmap. f_equal.
  rewrite <-list_fmap_compose. apply list_fmap_ext. intros i x _. simpl. unfold cloneCopilotAuth. simpl. by rewrite !cloneSecretReference_idemp.
Qed.

Lemma cloneCodexAccounts_idemp s :
  cloneCodexAccounts (cloneCodexAccounts s) = cloneCodexAccounts s.
Proof.
  destruct s as [l|]; [|done]. unfold cloneCodexAccounts. rewrite append_nil_fmap. f_equal.
  rewrite <-list_fmap_compose. apply list_fmap_ext. intros i x _. simpl. unfold cloneCodexAuth. simpl. by rewrite !cloneSecretReference_idemp.
Qed.

Lemma Clone_idemp c : Clone (Clone c) = Clone c.
Proof.
  unfold Clone, cloneCopilotAuth, cloneCodexAuth, cloneVirtualModels, cloneModelMap. simpl.
  rewrite !cloneStrings_idemp, cloneCopilotAccounts_idemp, cloneCodexAccounts_idemp,
    !cloneSecretReference_idemp, <-map_fmap_compose. do 2 f_equal.
  apply map_fmap_ext. intros k v _. simpl. by rewrite cloneStrings_idemp.
Qed.


Lemma Redact_is_map cfg : Redact cfg = map_secrets (λ _, "") (Clone cfg).
Proof.
  destruct cfg as [? ? ? ? ? [[? ? ac ? ?] [? ? ax ? ? ?] [? ? ? ? ? ? ? ?]] ?]. done.
Qed.

(** Redaction.  A redacted configuration is a copy in which every raw secret,
    of the providers and of every pooled account, is empty, and nothing else
    differs.  So it depends on no secret: replacing the secrets of a configuration
    by any others gives the same redaction. *)
Theorem redaction_hides_secrets f cfg :
  Redact cfg = map_secrets (λ _, "") (Clone cfg)
  ∧ Forall (eq "") (raw_secrets (Redact cfg))
  ∧ Redact (map_secrets f cfg) = Redact cfg.
Proof.
  split_and!; [apply Redact_is_map|apply Redact_raw_secrets|apply Redact_map_secrets].
Qed.

(** Validation of the virtual models.  A routing section is accepted exactly
    when every virtual model has a usable name that shadows nothing, a known
    strategy, and a non-empty list of distinct prefixed targets none of which is
    a virtual model itself. *)
Theorem virtual_models_validated r known :
  ValidateVirtualModels r known = Ok tt ↔
  ∀ id vm, VirtualModels r !! id = Some vm → valid_virtual_model r known id vm.
Proof. apply ValidateVirtualModels_Ok. Qed.
