(* ===== verification/Availability.v ===== *)
(** * Availability: which targets are routable, from observed state only

    [internal/availability].  A snapshot is built from one view per provider;
    [Evaluate] answers for one target and one capability. *)

From S2P Require Import Prelude GoStd.

(* src/internal/availability/availability.go Reason *)
(* src/internal/availability/availability.go ReasonRoutable *)
Inductive Reason :=
| ReasonRoutable
| ReasonProviderNotRegistered
| ReasonTargetDisabled
| ReasonProviderNotReady
| ReasonCapabilityUnsupported
| ReasonModelDisallowed
| ReasonModelNotInCatalog
| ReasonCatalogStale
| ReasonCooldown
| ReasonAlreadyAttempted.

#[global] Instance Reason_eq_dec : EqDecision Reason.
Proof. solve_decision. Defined.

(** The stable codes the reasons are printed as. *)
Definition Reason_string (r : Reason) : string :=
  match r with
  | ReasonRoutable => "routable"
  | ReasonProviderNotRegistered => "provider_not_registered"
  | ReasonTargetDisabled => "target_disabled"
  | ReasonProviderNotReady => "provider_not_ready"
  | ReasonCapabilityUnsupported => "capability_unsupported"
  | ReasonModelDisallowed => "model_disallowed"
  | ReasonModelNotInCatalog => "model_not_in_catalog"
  | ReasonCatalogStale => "catalog_stale"
  | ReasonCooldown => "cooldown"
  | ReasonAlreadyAttempted => "already_attempted"
  end.

(** A cooldown reason is a string in the code: a persisted one may be any. *)
(* src/internal/availability/availability.go CooldownRateLimited *)
Definition CooldownRateLimited : string := "rate_limited".
(* src/internal/availability/availability.go CooldownEntitlementDenied *)
Definition CooldownEntitlementDenied : string := "entitlement_denied".
(* src/internal/availability/availability.go CooldownAuthRequired *)
Definition CooldownAuthRequired : string := "auth_required".
(* src/internal/availability/availability.go CooldownTransientFailure *)
Definition CooldownTransientFailure : string := "transient_failure".
(* src/internal/availability/availability.go CooldownTimeout *)
Definition CooldownTimeout : string := "timeout".
(* src/internal/availability/quota_cooldown.go CooldownQuotaExhausted *)
Definition CooldownQuotaExhausted : string := "quota_exhausted".

(* src/internal/availability/availability.go Cooldown *)
Record Cooldown := mkCooldown {
  cd_Model : string; cd_Capability : string; cd_Until : Time; cd_Reason : string;
}.
Definition zeroCooldown : Cooldown := mkCooldown "" "" zeroTime "".

(* src/internal/availability/availability.go ProviderView *)
Record ProviderView := mkView {
  v_ID : string;
  v_Disabled : bool;
  v_Ready : bool;
  v_Capabilities : list string;
  v_AllowedModels : list string;
  v_CatalogPresent : bool;
  v_CatalogStale : bool;
  v_CatalogFetchedAt : Time;
  v_CatalogModels : list string;
  v_Cooldowns : list Cooldown;
}.

(* src/internal/availability/availability.go providerEntry *)
Record providerEntry := mkEntry {
  e_disabled : bool;
  e_ready : bool;
  e_capabilities : gset string;
  e_allowed : gset string;
  e_hasAllowlist : bool;
  e_catalogPresent : bool;
  e_catalogStale : bool;
  e_catalogFetchedAt : Time;
  e_models : gset string;
  e_cooldowns : gmap string Cooldown;
}.

(* src/internal/availability/availability.go Snapshot *)
Record Snapshot := mkSnapshot {
  s_generation : Z; s_builtAt : Time; s_providers : gmap string providerEntry;
}.

(* src/internal/availability/availability.go TargetResult *)
Record TargetResult := mkResult {
  Routable : bool;
  tr_Reason : Reason;
  tr_Generation : Z;
  tr_CatalogFetchedAt : Time;
  tr_CatalogStale : bool;
  tr_CooldownUntil : Time;
  tr_CooldownReason : string;
}.

(* src/internal/availability/availability.go normalizeModel *)
Definition normalizeModel (model : string) : string := ToLower (TrimSpace model).

(* src/internal/availability/availability.go cooldownKey *)
Definition cooldownKey (model capability : string) : string :=
  capability +:+ nul +:+ normalizeModel model.

Definition set_of (l : list string) : gset string := list_to_set l.
#[global] Arguments set_of : simpl never.
Lemma elem_of_set_of x l : x ∈ set_of l ↔ x ∈ l.
Proof. apply elem_of_list_to_set. Qed.

(** The cooldowns of a view that are still active, under their normalised key;
    a later one replaces an earlier one with the same key. *)
Definition insert_cooldown (builtAt : Time) (m : gmap string Cooldown) (c : Cooldown)
    : gmap string Cooldown :=
  if After (cd_Until c) builtAt then
    let c := mkCooldown (normalizeModel (cd_Model c)) (cd_Capability c) (cd_Until c)
               (cd_Reason c) in
    <[cooldownKey (cd_Model c) (cd_Capability c) := c]> m
  else m.

Definition entry_of_view (builtAt : Time) (view : ProviderView) : providerEntry :=
  let hasAllowlist := negb (bool_decide (v_AllowedModels view = [])) in
  mkEntry (v_Disabled view) (v_Ready view)
    (set_of (v_Capabilities view))
    (if hasAllowlist then set_of (normalizeModel <$> v_AllowedModels view) else ∅)
    hasAllowlist
    (v_CatalogPresent view) (v_CatalogStale view) (v_CatalogFetchedAt view)
    (set_of (normalizeModel <$> v_CatalogModels view))
    (foldl (insert_cooldown builtAt) ∅ (v_Cooldowns view)).

(* src/internal/availability/availability.go NewSnapshot *)
Definition NewSnapshot (generation : Z) (builtAt : Time) (views : list ProviderView) : Snapshot :=
  mkSnapshot generation builtAt
    (foldl (λ m view, <[v_ID view := entry_of_view builtAt view]> m) ∅ views).

(* src/internal/availability/availability.go Snapshot.Generation *)
Definition Generation (s : option Snapshot) : Z :=
  match s with None => 0 | Some s => s_generation s end.

(* src/internal/availability/availability.go Snapshot.BuiltAt *)
Definition BuiltAt (s : option Snapshot) : Time :=
  match s with None => zeroTime | Some s => s_builtAt s end.

(* src/internal/availability/availability.go providerEntry.cooldown *)
Definition entry_cooldown (entry : providerEntry) (model capability : string) (now : Time)
    : Cooldown :=
  let c := default zeroCooldown
    (e_cooldowns entry !! cooldownKey (normalizeModel model) capability) in
  if After (cd_Until c) now then c else zeroCooldown.

(* src/internal/availability/availability.go Snapshot.supportsCapability *)
Definition supportsCapability (entry : providerEntry) (capability : string) : bool :=
  bool_decide (capability ∈ e_capabilities entry).

(* src/internal/availability/availability.go providerEntry.isAllowed *)
Definition isAllowed (entry : providerEntry) (bareModel : string) : bool :=
  bool_decide (normalizeModel bareModel ∈ e_allowed entry).

(* src/internal/availability/availability.go providerEntry.hasModel *)
Definition hasModel (entry : providerEntry) (bareModel : string) : bool :=
  bool_decide (normalizeModel bareModel ∈ e_models entry).

Definition not_registered (generation : Z) : TargetResult :=
  mkResult false ReasonProviderNotRegistered generation zeroTime false zeroTime "".

(* src/internal/availability/availability.go Snapshot.Evaluate *)
Definition Evaluate (s : option Snapshot) (providerID bareModel capability : string)
    : TargetResult :=
  match s with
  | None => not_registered 0
  | Some s =>
    match s_providers s !! providerID with
    | None => not_registered (s_generation s)
    | Some entry =>
      let answer routable reason until cooldownReason :=
        mkResult routable reason (s_generation s) (e_catalogFetchedAt entry)
          (e_catalogStale entry) until cooldownReason in
      let cooldown := entry_cooldown entry bareModel capability (s_builtAt s) in
      if e_disabled entry then answer false ReasonTargetDisabled zeroTime ""
      else if negb (e_ready entry) then answer false ReasonProviderNotReady zeroTime ""
      else if negb (supportsCapability entry capability)
      then answer false ReasonCapabilityUnsupported zeroTime ""
      else if After (cd_Until cooldown) (s_builtAt s)
      then answer false ReasonCooldown (cd_Until cooldown) (cd_Reason cooldown)
      else if e_hasAllowlist entry && negb (isAllowed entry bareModel)
      then answer false ReasonModelDisallowed zeroTime ""
      else if negb (e_catalogPresent entry) || negb (hasModel entry bareModel)
      then answer false ReasonModelNotInCatalog zeroTime ""
      else answer true ReasonRoutable zeroTime ""
    end
  end.

(* src/internal/availability/availability.go Snapshot.ProviderIDs *)
Definition ProviderIDs (s : option Snapshot) : list string :=
  match s with
  | None => []
  | Some s => sort_Strings (elements (dom (s_providers s)))
  end.

(** ** Facts *)

Lemma normalizeModel_idemp m : normalizeModel (normalizeModel m) = normalizeModel m.
Proof.
  unfold normalizeModel. rewrite (TrimSpace_id (ToLower (TrimSpace m))) by eauto with router.
  apply ToLower_idemp.
Qed.

Lemma cooldownKey_normalize m c : cooldownKey (normalizeModel m) c = cooldownKey m c.
Proof. unfold cooldownKey. by rewrite normalizeModel_idemp. Qed.
#[export] Hint Rewrite normalizeModel_idemp cooldownKey_normalize : router.

Lemma cooldownKey_inj m c m' c' :
  no_nul c → no_nul c' → cooldownKey m c = cooldownKey m' c' →
  c = c' ∧ normalizeModel m = normalizeModel m'.
Proof. apply nul_key_inj. Qed.

(** The snapshot entry of a provider is that of its last view. *)
Lemma NewSnapshot_lookup generation builtAt views id :
  s_providers (NewSnapshot generation builtAt views) !! id
  = entry_of_view builtAt <$> last (filter (λ v, v_ID v = id) views).
Proof.
  unfold NewSnapshot; simpl. induction views as [|v views IH] using rev_ind; [done|].
  rewrite foldl_app, filter_app. simpl. rewrite filter_cons, filter_nil, lookup_insert.
  case_decide as Hid; [by rewrite last_snoc|]. by rewrite app_nil_r.
Qed.

Lemma foldl_insert_cooldown_lookup builtAt cs m k :
  foldl (insert_cooldown builtAt) m cs !! k
  = match last (filter (λ c, After (cd_Until c) builtAt = true
                    ∧ cooldownKey (cd_Model c) (cd_Capability c) = k) cs) with
    | Some c => Some (mkCooldown (normalizeModel (cd_Model c)) (cd_Capability c)
                        (cd_Until c) (cd_Reason c))
    | None => m !! k
    end.
Proof.
  induction cs as [|c cs IH] using rev_ind; [done|].
  rewrite foldl_app, filter_app. simpl. unfold insert_cooldown at 1. simpl.
  rewrite filter_cons, filter_nil, cooldownKey_normalize.
  destruct (After (cd_Until c) builtAt) eqn:Ha.
  - rewrite lookup_insert. case_decide as Hk; case_decide as Hk'; try naive_solver.
    + by rewrite last_snoc.
    + rewrite app_nil_r. apply IH.
  - case_decide as Hk; [by destruct Hk|]. rewrite app_nil_r. apply IH.
Qed.

(** The cooldown a snapshot reports is active, and is one of the view. *)
Lemma entry_cooldown_spec builtAt view model capability :
  let c := entry_cooldown (entry_of_view builtAt view) model capability builtAt in
  let found := last (filter (λ c, After (cd_Until c) builtAt = true
      ∧ cooldownKey (cd_Model c) (cd_Capability c) = cooldownKey model capability)
      (v_Cooldowns view)) in
  c = match found with
      | Some c => mkCooldown (normalizeModel (cd_Model c)) (cd_Capability c) (cd_Until c)
                    (cd_Reason c)
      | None => zeroCooldown
      end.
Proof.
  simpl. unfold entry_cooldown. rewrite cooldownKey_normalize. unfold entry_of_view; simpl.
  rewrite foldl_insert_cooldown_lookup, lookup_empty.
  destruct (last _) as [c|] eqn:Hl; simpl.
  - apply last_Some_elem_of, list_elem_of_filter in Hl as [[Ha _] _]. by rewrite Ha.
  - by case_match.
Qed.

(** ** When a target is routable *)

Definition active_cooldown (builtAt : Time) (view : ProviderView) (model capability : string)
    : Prop :=
  ∃ c, c ∈ v_Cooldowns view ∧ (builtAt < cd_Until c)%Z
    ∧ cooldownKey (cd_Model c) (cd_Capability c) = cooldownKey model capability.

(** The conditions of the availability contract, over a provider's view. *)
Record routable_spec (builtAt : Time) (view : ProviderView) (model capability : string)
    : Prop := {
  rs_enabled : v_Disabled view = false;
  rs_ready : v_Ready view = true;
  rs_capability : capability ∈ v_Capabilities view;
  rs_cooldown : ¬ active_cooldown builtAt view model capability;
  rs_allowed : v_AllowedModels view = [] ∨
    normalizeModel model ∈ normalizeModel <$> v_AllowedModels view;
  rs_catalog : v_CatalogPresent view = true;
  rs_model : normalizeModel model ∈ normalizeModel <$> v_CatalogModels view;
}.

Lemma active_cooldown_After builtAt view model capability :
  (0 ≤ builtAt)%Z →
  After (cd_Until (entry_cooldown (entry_of_view builtAt view) model capability builtAt)) builtAt
    = true ↔ active_cooldown builtAt view model capability.
Proof.
  intros H0. rewrite entry_cooldown_spec.
  destruct (last _) as [c|] eqn:Hl.
  - apply last_Some_elem_of, list_elem_of_filter in Hl as [[Ha Hk] Hc]. simpl. rewrite Ha.
    split; [|done]. intros _. exists c. unfold After in Ha. reflect_bools. done.
  - split.
    + unfold After; simpl. intros. reflect_bools. unfold zeroTime in *. lia.
    + intros (c & Hc & Hu & Hk). apply last_None in Hl.
      assert (c ∈ filter (λ c, After (cd_Until c) builtAt = true
        ∧ cooldownKey (cd_Model c) (cd_Capability c) = cooldownKey model capability)
        (v_Cooldowns view)) as Hin.
      { apply list_elem_of_filter. split; [|done]. split; [|done].
        unfold After. by apply Z.ltb_lt. }
      rewrite Hl in Hin. by apply not_elem_of_nil in Hin.
Qed.

Lemma last_filter_unique {A} (f : A → string) (l : list A) x :
  NoDup (f <$> l) → x ∈ l → last (filter (λ y, f y = f x) l) = Some x.
Proof.
  induction l as [|y l IH]; csimpl; [by intros _ ?%not_elem_of_nil|].
  intros [Hy Hnd]%NoDup_cons [->|Hx]%elem_of_cons.
  - rewrite filter_cons_True by done.
    destruct (filter (λ z, f z = f y) l) as [|z l'] eqn:E; [done|].
    assert (z ∈ filter (λ z, f z = f y) l) as [Hf Hz]%list_elem_of_filter
      by (rewrite E; by left).
    destruct Hy. rewrite <-Hf. by apply list_elem_of_fmap_2.
  - rewrite filter_cons_False; [by apply IH|]. intros Hf. apply Hy. rewrite Hf.
    by apply list_elem_of_fmap_2.
Qed.

Lemma snapshot_entry generation builtAt views view :
  NoDup (v_ID <$> views) → view ∈ views →
  s_providers (NewSnapshot generation builtAt views) !! v_ID view
  = Some (entry_of_view builtAt view).
Proof. intros. rewrite NewSnapshot_lookup, last_filter_unique by done. done. Qed.

Lemma entry_allowed_iff builtAt view model :
  e_hasAllowlist (entry_of_view builtAt view)
    && negb (isAllowed (entry_of_view builtAt view) model) = false
  ↔ v_AllowedModels view = [] ∨ normalizeModel model ∈ normalizeModel <$> v_AllowedModels view.
Proof.
  unfold entry_of_view, isAllowed; simpl.
  case_bool_decide as Ha; simpl; [naive_solver|].
  rewrite negb_false_iff, bool_decide_eq_true, elem_of_set_of. naive_solver.
Qed.

Lemma entry_capability_iff builtAt view capability :
  supportsCapability (entry_of_view builtAt view) capability = true
  ↔ capability ∈ v_Capabilities view.
Proof.
  unfold supportsCapability; simpl. by rewrite bool_decide_eq_true, elem_of_set_of.
Qed.

Lemma entry_model_iff builtAt view model :
  hasModel (entry_of_view builtAt view) model = true
  ↔ normalizeModel model ∈ normalizeModel <$> v_CatalogModels view.
Proof.
  unfold hasModel; simpl. by rewrite bool_decide_eq_true, elem_of_set_of.
Qed.

Section evaluate.
Context (generation : Z) (builtAt : Time) (views : list ProviderView) (view : ProviderView).
Context (Htime : (0 ≤ builtAt)%Z) (Hids : NoDup (v_ID <$> views)) (Hin : view ∈ views).

Let snapshot := NewSnapshot generation builtAt views.

Lemma Evaluate_routable_spec model capability :
  Routable (Evaluate (Some snapshot) (v_ID view) model capability) = true ↔
  routable_spec builtAt view model capability.
Proof.
  subst snapshot. unfold Evaluate. rewrite snapshot_entry by done. simpl.
  destruct (v_Disabled view) eqn:Hd; simpl.
  { split; [done|]. intros []. congruence. }
  destruct (v_Ready view) eqn:Hr; simpl.
  2:{ split; [done|]. intros []. congruence. }
  destruct (supportsCapability _ _) eqn:Hc; simpl.
  2:{ split; [done|]. intros []. apply not_true_iff_false in Hc. destruct Hc.
      by apply entry_capability_iff. }
  apply entry_capability_iff in Hc.
  destruct (After _ _) eqn:Ha; simpl.
  { apply active_cooldown_After in Ha; [|done]. split; [done|]. by intros []. }
  apply not_true_iff_false in Ha. rewrite active_cooldown_After in Ha by done.
  destruct (negb (bool_decide _) && _) eqn:Hal; simpl.
  { split; [done|]. intros [?????? ?]. apply not_false_iff_true in Hal. destruct Hal.
    by apply (entry_allowed_iff builtAt). }
  apply (entry_allowed_iff builtAt) in Hal.
  destruct (v_CatalogPresent view) eqn:Hp; simpl.
  2:{ split; [done|]. intros []. congruence. }
  destruct (hasModel _ _) eqn:Hm; simpl.
  2:{ split; [done|]. intros []. apply not_true_iff_false in Hm. destruct Hm.
      by apply entry_model_iff. }
  apply entry_model_iff in Hm. split; [done|]. intros _. by split.
Qed.
End evaluate.

(** The reason agrees with the verdict, and is never one of the two reasons the
    package documents as produced elsewhere or never. *)
Lemma Evaluate_reason s id model capability :
  let r := Evaluate s id model capability in
  (Routable r = true ↔ tr_Reason r = ReasonRoutable)
  ∧ tr_Reason r ≠ ReasonCatalogStale ∧ tr_Reason r ≠ ReasonAlreadyAttempted
  ∧ (tr_CooldownUntil r ≠ zeroTime → tr_Reason r = ReasonCooldown).
Proof. unfold Evaluate, not_registered. simpl. repeat case_match; naive_solver. Qed.

(** ** Properties *)

(** A target is routable exactly when the availability contract says so:
    the provider is enabled and ready, supports the capability, has no active
    cooldown for this model and capability, its allowlist (if any) and its
    last-known catalog contain the model.  The staleness of the catalog plays no
    part. *)
Theorem evaluate_routable_iff generation builtAt views view model capability :
  (0 ≤ builtAt)%Z → NoDup (v_ID <$> views) → view ∈ views →
  Routable (Evaluate (Some (NewSnapshot generation builtAt views)) (v_ID view) model capability)
    = true
  ↔ routable_spec builtAt view model capability.
Proof. intros. by apply Evaluate_routable_spec. Qed.

Definition example_view (cooldowns : list Cooldown) : ProviderView :=
  mkView "codex" false true ["chat"; "responses"] [] true true 5 ["GPT-5 "; "spark"] cooldowns.

Lemma evaluate_routable_iff_witness :
  Routable (Evaluate (Some (NewSnapshot 1 100 [example_view []])) "codex" "gpt-5" "chat") = true
  ∧ routable_spec 100 (example_view []) "gpt-5" "chat".
Proof.
  assert (H : Routable (Evaluate (Some (NewSnapshot 1 100 [example_view []]))
    (v_ID (example_view [])) "gpt-5" "chat") = true) by (vm_compute; reflexivity).
  split; [exact H|].
  apply (evaluate_routable_iff 1 100 [example_view []] (example_view []) "gpt-5" "chat");
    [lia|repeat constructor; set_solver|set_solver|exact H].
Defined.
