(* ===== verification/Cooldown.v ===== *)
(** * Target cooldowns: memory of failed targets, on disk across restarts

    [internal/routing/prefixes.go] (the provider prefixes of model names) and the
    registry of [internal/routing/cooldown.go].  A cooldown belongs to a provider,
    a model and a capability; its length grows with consecutive failures and with
    the provider's own retry hint.

    The file of the registry is a value of the type [Bytes] of [StateCodec]: the
    JSON encoding is the library's, and only what the code relies on, that
    [Unmarshal] reads back what [MarshalIndent] wrote, is assumed of it. *)

From S2P Require Import Prelude GoStd Provider Availability.

(** ** Provider prefixes *)

(* src/internal/routing/prefixes.go CopilotModelPrefix *)
Definition CopilotModelPrefix : string := "github/".
(* src/internal/routing/prefixes.go CodexModelPrefix *)
Definition CodexModelPrefix : string := "codex/".
(* src/internal/routing/prefixes.go KiloModelPrefix *)
Definition KiloModelPrefix : string := "kilo/".

(* src/internal/routing/prefixes.go KnownPrefixes *)
Definition KnownPrefixes : list string :=
  [CopilotModelPrefix; CodexModelPrefix; KiloModelPrefix].

(* src/internal/routing/prefixes.go ProviderPrefix *)
Definition ProviderPrefix (providerID : string) : string :=
  if decide (providerID = Copilot) then CopilotModelPrefix
  else if decide (providerID = Codex) then CodexModelPrefix
  else if decide (providerID = Kilo) then KiloModelPrefix
  else "".

(* src/internal/routing/prefixes.go ProviderOwnedBy *)
Definition ProviderOwnedBy (providerID : string) : string :=
  if decide (providerID = Copilot) then "github-copilot"
  else if decide (providerID = Codex) then "openai"
  else if decide (providerID = Kilo) then "kilo"
  else "openai".

(* src/internal/routing/prefixes.go AddModelPrefix *)
Definition AddModelPrefix (providerID modelID : string) : string :=
  let prefix := ProviderPrefix providerID in
  if String.eqb prefix "" || HasPrefix modelID prefix then modelID else prefix +:+ modelID.

(* src/internal/routing/prefixes.go StripModelPrefix *)
Definition StripModelPrefix (modelID : string) : string * string * bool :=
  match strip_prefix CopilotModelPrefix modelID with
  | Some bare => (bare, Copilot, true)
  | None =>
    match strip_prefix CodexModelPrefix modelID with
    | Some bare => (bare, Codex, true)
    | None =>
      match strip_prefix KiloModelPrefix modelID with
      | Some bare => (bare, Kilo, true)
      | None => (modelID, "", false)
      end
    end
  end.

Definition routed_provider (id : string) : Prop := id = Copilot ∨ id = Codex ∨ id = Kilo.

Lemma StripModelPrefix_true m bare id :
  StripModelPrefix m = (bare, id, true) ↔ routed_provider id ∧ m = ProviderPrefix id +:+ bare.
Proof.
  unfold StripModelPrefix, routed_provider. split.
  - destruct (strip_prefix CopilotModelPrefix m) eqn:E1;
      [intros [= <- <-]; apply strip_prefix_Some in E1; auto|].
    destruct (strip_prefix CodexModelPrefix m) eqn:E2;
      [intros [= <- <-]; apply strip_prefix_Some in E2; auto|].
    destruct (strip_prefix KiloModelPrefix m) eqn:E3;
      [intros [= <- <-]; apply strip_prefix_Some in E3; auto|done].
  - intros [[->|[->| ->]] ->]; reflexivity.
Qed.

Lemma StripModelPrefix_false m bare id :
  StripModelPrefix m = (bare, id, false) →
  bare = m ∧ id = "" ∧ ∀ p, routed_provider p → HasPrefix m (ProviderPrefix p) = false.
Proof.
  unfold StripModelPrefix, routed_provider, HasPrefix.
  destruct (strip_prefix CopilotModelPrefix m) eqn:E1; [done|].
  destruct (strip_prefix CodexModelPrefix m) eqn:E2; [done|].
  destruct (strip_prefix KiloModelPrefix m) eqn:E3; [done|].
  intros [= <- <-]. split_and!; [done..|].
  intros p [->|[->| ->]].
  - change (ProviderPrefix Copilot) with CopilotModelPrefix. by rewrite E1.
  - change (ProviderPrefix Codex) with CodexModelPrefix. by rewrite E2.
  - change (ProviderPrefix Kilo) with KiloModelPrefix. by rewrite E3.
Qed.

Lemma AddModelPrefix_idemp id m :
  AddModelPrefix id (AddModelPrefix id m) = AddModelPrefix id m.
Proof.
  unfold AddModelPrefix. destruct (String.eqb _ "") eqn:E; simpl; [done|].
  destruct (HasPrefix m _) eqn:H; [by rewrite H|].
  assert (HasPrefix (ProviderPrefix id +:+ m) (ProviderPrefix id) = true) as ->;
    [apply HasPrefix_true; by eexists|done].
Qed.

(** ** Registry state *)

Definition baseCooldown : Duration := 15 * Second.
Definition maxCooldown : Duration := 5 * Minute.
Definition quotaCooldown : Duration := 24 * Hour.
(* src/internal/routing/cooldown.go baseCooldown *)
Definition cooldownStateVersion : Z := 1.
Definition maxPersistedCooldowns : nat := Z.to_nat 4096.
#[global] Arguments maxPersistedCooldowns : simpl never.
#[global] Opaque maxPersistedCooldowns.

(* src/internal/routing/cooldown.go cooldownEntry *)
Record cooldownEntry := mkCE {
  ce_providerID : string;
  ce_model : string;
  ce_capability : string;
  ce_until : Time;
  ce_reason : string;
  ce_failures : Z;
}.

(* src/internal/routing/cooldown.go persistedCooldownEntry *)
Record persistedCooldownEntry := mkPE {
  pe_ProviderID : string;
  pe_Model : string;
  pe_Capability : string;
  pe_Until : Time;
  pe_Reason : string;
  pe_Failures : Z;
}.

(* src/internal/routing/cooldown.go persistedCooldownState *)
Record persistedCooldownState := mkPS {
  ps_Version : Z; ps_Entries : list persistedCooldownEntry;
}.

(** The steps of the atomic replacement that can fail. *)
Inductive persist_fault :=
| FaultCreateTemp | FaultChmodTemp | FaultWrite | FaultSync | FaultClose | FaultRename
| FaultChmodState.

#[global] Instance persist_fault_eq_dec : EqDecision persist_fault.
Proof. solve_decision. Defined.

(** The encoding of the state file. *)
Class StateCodec (Bytes : Type) := {
  marshal : persistedCooldownState → option Bytes;
  unmarshal : Bytes → option persistedCooldownState;
  blank : Bytes → bool;
}.

(* src/internal/routing/cooldown.go validCooldownReason *)
Definition validCooldownReason (reason : string) : bool :=
  bool_decide (reason ∈ [CooldownRateLimited; CooldownEntitlementDenied; CooldownAuthRequired;
    CooldownTransientFailure; CooldownTimeout; CooldownQuotaExhausted]).

(* src/internal/routing/cooldown.go cooldownEntryKey *)
Definition cooldownEntryKey (providerID model capability : string) : string :=
  providerID +:+ nul +:+ capability +:+ nul +:+ ToLower (TrimSpace model).

(** Doubles while the step count and the cap allow it; five rounds reach the cap. *)
Fixpoint double_cooldown (fuel : nat) (step failures : Z) (duration : Duration) : Duration :=
  match fuel with
  | 0 => duration
  | S fuel =>
    if (step <? failures)%Z && (duration <? maxCooldown)%Z
    then double_cooldown fuel (step + 1) failures (duration * 2)
    else duration
  end.

(* src/internal/routing/cooldown.go cooldownDuration *)
Definition cooldownDuration (reason : string) (failures : Z) (hint : Duration) : Duration :=
  if decide (reason = CooldownQuotaExhausted)
  then if (quotaCooldown <? hint)%Z then hint else quotaCooldown
  else
    let duration := double_cooldown 5 1 failures baseCooldown in
    let duration := if (maxCooldown <? duration)%Z then maxCooldown else duration in
    if (0 <? hint)%Z then
      let hint := if (maxCooldown <? hint)%Z then maxCooldown else hint in
      if (duration <? hint)%Z then hint else duration
    else duration.

(* src/internal/routing/cooldown.go decodePersistedCooldown *)
Definition decodePersistedCooldown (item : persistedCooldownEntry) (now : Time)
    : option cooldownEntry :=
  let providerID := TrimSpace (pe_ProviderID item) in
  let model := TrimSpace (pe_Model item) in
  let capability := TrimSpace (pe_Capability item) in
  if String.eqb providerID "" || String.eqb model "" || String.eqb capability ""
     || negb (validCooldownReason (pe_Reason item))
  then None
  else
    let until := pe_Until item in
    if IsZero until || negb (After until now) then None
    else
      let failures := if (pe_Failures item <? 1)%Z then 1%Z else pe_Failures item in
      Some (mkCE providerID model capability until (pe_Reason item) failures).

(** The order [persistLocked] sorts by. *)
Definition pe_key (e : persistedCooldownEntry) : string * string * string :=
  (pe_ProviderID e, pe_Capability e, ToLower (pe_Model e)).

Definition triple_le (a b : string * string * string) : Prop :=
  if decide (a.1.1 = b.1.1)
  then if decide (a.1.2 = b.1.2) then String.le a.2 b.2 else String.le a.1.2 b.1.2
  else String.le a.1.1 b.1.1.
#[global] Instance triple_le_dec : RelDecision triple_le.
Proof. intros a b. unfold triple_le. repeat case_decide; apply _. Defined.

Definition pe_le (a b : persistedCooldownEntry) : Prop := triple_le (pe_key a) (pe_key b).
#[global] Instance pe_le_dec : RelDecision pe_le := λ a b, triple_le_dec (pe_key a) (pe_key b).

Definition persisted (entry : cooldownEntry) : persistedCooldownEntry :=
  mkPE (ce_providerID entry) (ce_model entry) (ce_capability entry) (ce_until entry)
    (ce_reason entry) (ce_failures entry).

Definition to_cooldown (entry : cooldownEntry) : Cooldown :=
  mkCooldown (ce_model entry) (ce_capability entry) (ce_until entry) (ce_reason entry).

Inductive open_error := CreateDirectory | ReadState.

(** What opening the state file meets. *)
Inductive file_read (Bytes : Type) :=
| FileMkdirFails
| FileMissing
| FileUnreadable
| FileData (data : Bytes).
Arguments FileMkdirFails {_}.
Arguments FileMissing {_}.
Arguments FileUnreadable {_}.
Arguments FileData {_} _.

Section registry.
Context {Bytes : Type} `{StateCodec Bytes}.

(** The registry in memory, and the contents of its state file. *)
(* src/internal/routing/cooldown.go CooldownRegistry *)
Record CooldownRegistry := mkRegistry {
  entries : gmap string cooldownEntry;
  statePath : string;
  disk : option Bytes;
}.

(* src/internal/routing/cooldown.go NewCooldownRegistry *)
Definition NewCooldownRegistry : CooldownRegistry := mkRegistry ∅ "" None.

(** The entries of a state file, in its order, a later one replacing an earlier
    one of the same key. *)
Definition load_entries (now : Time) (items : list persistedCooldownEntry)
    : gmap string cooldownEntry :=
  foldl (λ m item,
    match decodePersistedCooldown item now with
    | Some entry =>
      <[cooldownEntryKey (ce_providerID entry) (ce_model entry) (ce_capability entry)
        := entry]> m
    | None => m
    end) ∅ (take maxPersistedCooldowns items).

(* src/internal/routing/cooldown.go OpenCooldownRegistry *)
Definition OpenCooldownRegistry (path : string) (now : Time) (file : file_read Bytes)
    : result CooldownRegistry open_error :=
  let statePath := TrimSpace path in
  if String.eqb statePath "" then Ok NewCooldownRegistry
  else
    match file with
    | FileMkdirFails => Err CreateDirectory
    | FileMissing => Ok (mkRegistry ∅ statePath None)
    | FileUnreadable => Err ReadState
    | FileData data =>
      if blank data then Ok (mkRegistry ∅ statePath (Some data))
      else
        match unmarshal data with
        | None => Ok (mkRegistry ∅ statePath (Some data))
        | Some state =>
          if negb (ps_Version state =? cooldownStateVersion)%Z
          then Ok (mkRegistry ∅ statePath (Some data))
          else Ok (mkRegistry (load_entries now (ps_Entries state)) statePath (Some data))
        end
    end.

(** The list the map's iteration fills, sorted; the result does not depend on
    the order of the iteration ([sort_persisted_perm] below). *)
Definition persisted_state (l : list cooldownEntry) : persistedCooldownState :=
  mkPS cooldownStateVersion (merge_sort pe_le (persisted <$> l)).

Definition entry_list (registry : CooldownRegistry) : list cooldownEntry :=
  (map_to_list (entries registry)).*2.

(** The temporary file is renamed over the state file: a fault before the rename
    leaves the old contents, the one after it leaves the new ones. *)
(* src/internal/routing/cooldown.go CooldownRegistry.persistLocked *)
Definition persistLocked (fault : option persist_fault) (registry : CooldownRegistry)
    : CooldownRegistry * bool :=
  match marshal (persisted_state (entry_list registry)) with
  | None => (registry, false)
  | Some data =>
    match fault with
    | None => (mkRegistry (entries registry) (statePath registry) (Some data), true)
    | Some FaultChmodState =>
      (mkRegistry (entries registry) (statePath registry) (Some data), false)
    | Some _ => (registry, false)
    end
  end.

(* src/internal/routing/cooldown.go CooldownRegistry.persistOrLogLocked *)
Definition persistOrLogLocked (fault : option persist_fault) (registry : CooldownRegistry)
    : CooldownRegistry :=
  if String.eqb (statePath registry) "" then registry
  else fst (persistLocked fault registry).

Definition with_entries (m : gmap string cooldownEntry) (registry : CooldownRegistry)
    : CooldownRegistry := mkRegistry m (statePath registry) (disk registry).

(* src/internal/routing/cooldown.go CooldownRegistry.Record *)
Definition Record_ (now : Time) (fault : option persist_fault)
    (providerID model capability reason : string) (hint : Duration)
    (registry : CooldownRegistry) : CooldownRegistry * option Time :=
  if String.eqb providerID "" || String.eqb (TrimSpace model) "" || String.eqb capability ""
     || negb (validCooldownReason reason)
  then (registry, None)
  else
    let key := cooldownEntryKey providerID model capability in
    let existing := entries registry !! key in
    let failures :=
      match existing with
      | Some e => if After (ce_until e) now then wrap_i64 (ce_failures e + 1) else 1%Z
      | None => 1%Z
      end in
    let until := (now + cooldownDuration reason failures hint)%Z in
    let until :=
      match existing with
      | Some e => if After (ce_until e) until then ce_until e else until
      | None => until
      end in
    let entry := mkCE providerID (TrimSpace model) capability until reason failures in
    (persistOrLogLocked fault (with_entries (<[key := entry]> (entries registry)) registry),
     Some until).

(* src/internal/routing/cooldown.go CooldownRegistry.Clear *)
Definition Clear (fault : option persist_fault) (providerID model capability : string)
    (registry : CooldownRegistry) : CooldownRegistry * bool :=
  let key := cooldownEntryKey providerID model capability in
  match entries registry !! key with
  | None => (registry, false)
  | Some _ =>
    (persistOrLogLocked fault (with_entries (delete key (entries registry)) registry), true)
  end.

(** The iteration splits the provider's entries; those that are over leave the map. *)
(* src/internal/routing/cooldown.go CooldownRegistry.Cooldowns *)
Definition Cooldowns (now : Time) (fault : option persist_fault) (providerID : string)
    (registry : CooldownRegistry) : CooldownRegistry * (list Cooldown * list Cooldown) :=
  let of_provider (e : cooldownEntry) := ce_providerID e = providerID in
  let is_active (e : cooldownEntry) := After (ce_until e) now = true in
  let mine := filter of_provider (entry_list registry) in
  let active := to_cooldown <$> filter is_active mine in
  let expired := to_cooldown <$> filter (λ e, ¬ is_active e) mine in
  let kept := filter (λ kv : string * cooldownEntry, of_provider kv.2 → is_active kv.2)
                (entries registry) in
  (if bool_decide (expired = []) then registry
   else persistOrLogLocked fault (with_entries kept registry),
   (active, expired)).


(** ** Well-formed registries *)

(** An entry is stored under its own key, with the fields [Record] and the
    decoder of the state file let through. *)
Record wf_entry (key : string) (e : cooldownEntry) : Prop := {
  we_key : key = cooldownEntryKey (ce_providerID e) (ce_model e) (ce_capability e);
  we_id : ce_providerID e ≠ "";
  we_model : ce_model e ≠ "";
  we_capability : ce_capability e ≠ "";
  we_trimmed : trimmed (ce_model e);
  we_reason : validCooldownReason (ce_reason e) = true;
}.

Definition wf (registry : CooldownRegistry) : Prop := map_Forall wf_entry (entries registry).

Lemma cooldownEntryKey_TrimSpace id m c :
  cooldownEntryKey id (TrimSpace m) c = cooldownEntryKey id m c.
Proof. unfold cooldownEntryKey. by rewrite TrimSpace_idemp. Qed.

Lemma cooldownEntryKey_inj id m c id' m' c' :
  no_nul id → no_nul id' → no_nul c → no_nul c' →
  cooldownEntryKey id m c = cooldownEntryKey id' m' c' →
  id = id' ∧ c = c' ∧ normalizeModel m = normalizeModel m'.
Proof.
  unfold cooldownEntryKey, normalizeModel. intros ???? Heq.
  apply nul_key_inj in Heq as [-> Heq]; [|done..].
  by apply nul_key_inj in Heq as [-> Heq].
Qed.

Lemma persistOrLogLocked_entries fault registry :
  entries (persistOrLogLocked fault registry) = entries registry.
Proof. unfold persistOrLogLocked, persistLocked. peel; done. Qed.

Lemma Record_entries now fault id m c reason hint registry registry' until :
  Record_ now fault id m c reason hint registry = (registry', Some until) →
  ∃ failures, entries registry' = <[cooldownEntryKey id m c :=
      mkCE id (TrimSpace m) c until reason failures]> (entries registry)
  ∧ id ≠ "" ∧ TrimSpace m ≠ "" ∧ c ≠ "" ∧ validCooldownReason reason = true
  ∧ (now + cooldownDuration reason failures hint ≤ until)%Z
  ∧ (∀ e, entries registry !! cooldownEntryKey id m c = Some e → ce_until e ≤ until)%Z.
Proof.
  unfold Record_. intros Hr. case_match eqn:Hg; [done|].
  injection Hr as <- <-. eexists. rewrite persistOrLogLocked_entries. simpl.
  split; [done|]. reflect_bools. rewrite String.eqb_neq in *.
  generalize (match entries registry !! cooldownEntryKey id m c with
    | Some e => if After (ce_until e) now then wrap_i64 (ce_failures e + 1) else 1%Z
    | None => 1%Z end). intros failures.
  split_and!; try done.
  - destruct (entries registry !! _) as [e|]; [|done]. unfold After. case_match; reflect_bools; lia.
  - intros e ->. unfold After. case_match; reflect_bools; lia.
Qed.

Lemma Record_None now fault id m c reason hint registry registry' :
  Record_ now fault id m c reason hint registry = (registry', None) → registry' = registry.
Proof. unfold Record_. case_match; [by intros [= <-]|done]. Qed.

Lemma Clear_entries fault id m c registry :
  entries (fst (Clear fault id m c registry))
  = delete (cooldownEntryKey id m c) (entries registry).
Proof.
  unfold Clear. destruct (entries registry !! _) eqn:E; simpl.
  - by rewrite persistOrLogLocked_entries.
  - symmetry. by apply delete_id.
Qed.

Lemma elem_of_entry_list registry e :
  e ∈ entry_list registry ↔ ∃ k, entries registry !! k = Some e.
Proof.
  unfold entry_list. rewrite list_elem_of_fmap. split.
  - intros ([k e'] & -> & Hin%elem_of_map_to_list). by exists k.
  - intros [k Hk]. exists (k, e). by rewrite elem_of_map_to_list.
Qed.

Lemma Cooldowns_lookup now fault id registry k :
  entries (fst (Cooldowns now fault id registry)) !! k
  = match entries registry !! k with
    | Some e => if decide (ce_providerID e = id → After (ce_until e) now = true)
                then Some e else None
    | None => None
    end.
Proof.
  unfold Cooldowns. simpl. case_bool_decide as Hx.
  - destruct (entries registry !! k) as [e|] eqn:Hk; [|done].
    case_decide as Hd; [done|].
    apply fmap_nil_inv in Hx.
    assert (e ∈ filter (λ e, ¬ After (ce_until e) now = true)
      (filter (λ e, ce_providerID e = id) (entry_list registry))) as Hin.
    { rewrite !list_elem_of_filter, elem_of_entry_list.
      destruct (decide (ce_providerID e = id)); [|tauto]. split_and!; [naive_solver..|by exists k]. }
    rewrite Hx in Hin. by apply not_elem_of_nil in Hin.
  - rewrite persistOrLogLocked_entries. simpl. rewrite map_lookup_filter.
    destruct (entries registry !! k) as [e|]; [|done]. simpl. by repeat case_guard.
Qed.

(** What a provider's view receives: exactly its entries that are not over. *)
Lemma elem_of_active now fault id registry c :
  c ∈ (snd (Cooldowns now fault id registry)).1 ↔
  ∃ k e, entries registry !! k = Some e ∧ ce_providerID e = id ∧ (now < ce_until e)%Z
         ∧ c = to_cooldown e.
Proof.
  unfold Cooldowns. simpl. rewrite list_elem_of_fmap. unfold After. split.
  - intros (e & -> & He). rewrite !list_elem_of_filter, elem_of_entry_list in He.
    destruct He as (Ha & Hp & k & Hk). reflect_bools. by exists k, e.
  - intros (k & e & Hk & Hp & Ha & ->). exists e. split; [done|].
    rewrite !list_elem_of_filter, elem_of_entry_list. split_and!; [by apply Z.ltb_lt|done|by exists k].
Qed.

Lemma elem_of_expired now fault id registry c :
  c ∈ (snd (Cooldowns now fault id registry)).2 ↔
  ∃ k e, entries registry !! k = Some e ∧ ce_providerID e = id ∧ (ce_until e ≤ now)%Z
         ∧ c = to_cooldown e.
Proof.
  unfold Cooldowns. simpl. rewrite list_elem_of_fmap. unfold After. split.
  - intros (e & -> & He). rewrite !list_elem_of_filter, elem_of_entry_list in He.
    destruct He as (Ha & Hp & k & Hk). exists k, e. split_and!; try done.
    apply not_true_iff_false in Ha. reflect_bools. done.
  - intros (k & e & Hk & Hp & Ha & ->). exists e. split; [done|].
    rewrite !list_elem_of_filter, elem_of_entry_list.
    split_and!; [apply not_true_iff_false; by apply Z.ltb_ge|done|by exists k].
Qed.

End registry.
Arguments CooldownRegistry : clear implicits.
#[global] Arguments Record_ : simpl never.
#[global] Arguments Clear : simpl never.
#[global] Arguments Cooldowns : simpl never.


(** ** The length of a cooldown *)

(** A failure cooldown doubles from 15 seconds up to 5 minutes. *)
Lemma double_cooldown_closed failures :
  (1 ≤ failures)%Z →
  (double_cooldown 5 1 failures baseCooldown `min` maxCooldown
  = (baseCooldown * 2 ^ (failures - 1)) `min` maxCooldown)%Z.
Proof.
  intros Hf. unfold maxCooldown, baseCooldown, Minute, Second.
  assert (failures = 1 ∨ failures = 2 ∨ failures = 3 ∨ failures = 4 ∨ failures = 5
    ∨ 6 ≤ failures)%Z as [->|[->|[->|[->|[->|Hge]]]]] by lia; [reflexivity..|].
  assert (2 ^ 5 ≤ 2 ^ (failures - 1))%Z by (apply Z.pow_le_mono_r; lia).
  simpl. unfold maxCooldown, Minute, Second.
  repeat match goal with |- context [(?a <? failures)%Z] =>
    replace (a <? failures)%Z with true by (symmetry; apply Z.ltb_lt; lia) end.
  simpl. change (15 * 1000000000 * 2 * 2 * 2 * 2 * 2)%Z with 480000000000%Z. lia.
Qed.

(** The loop of [cooldownDuration] is over after five rounds. *)
Lemma double_cooldown_fuel n failures :
  double_cooldown (5 + n) 1 failures baseCooldown = double_cooldown 5 1 failures baseCooldown.
Proof.
  simpl. repeat case_match; try done. destruct n; simpl; [done|].
  replace (_ && _) with false; [done|]. symmetry. apply andb_false_iff. right. reflexivity.
Qed.

Lemma cooldownDuration_quota failures hint :
  cooldownDuration CooldownQuotaExhausted failures hint = (quotaCooldown `max` hint)%Z.
Proof. unfold cooldownDuration. rewrite decide_True by done. case_match; reflect_bools; lia. Qed.

Lemma cooldownDuration_failure reason failures hint :
  reason ≠ CooldownQuotaExhausted → (1 ≤ failures)%Z →
  cooldownDuration reason failures hint
  = (((baseCooldown * 2 ^ (failures - 1)) `min` maxCooldown) `max` (hint `min` maxCooldown))%Z.
Proof.
  intros Hr Hf. rewrite <-double_cooldown_closed by done.
  unfold cooldownDuration. rewrite decide_False by done.
  set (d := double_cooldown 5 1 failures baseCooldown).
  assert (0 < d)%Z.
  { subst d. simpl. repeat case_match; unfold baseCooldown, Second; lia. }
  assert (maxCooldown = 300000000000)%Z by reflexivity.
  repeat case_match; reflect_bools; lia.
Qed.

(** ** Histories of a registry *)
Section histories.
Context {Bytes : Type} `{StateCodec Bytes}.
Implicit Types registry : CooldownRegistry Bytes.

Inductive op :=
| OpRecord (now : Time) (fault : option persist_fault)
    (id model capability reason : string) (hint : Duration)
| OpClear (fault : option persist_fault) (id model capability : string)
| OpCooldowns (now : Time) (fault : option persist_fault) (id : string).

Definition step registry (o : op) : CooldownRegistry Bytes :=
  match o with
  | OpRecord now fault id model capability reason hint =>
    fst (Record_ now fault id model capability reason hint registry)
  | OpClear fault id model capability => fst (Clear fault id model capability registry)
  | OpCooldowns now fault id => fst (Cooldowns now fault id registry)
  end.

Lemma wf_NewCooldownRegistry : wf (NewCooldownRegistry (Bytes:=Bytes)).
Proof. intros k e. simpl. by rewrite lookup_empty. Qed.

Lemma wf_step registry o : wf registry → wf (step registry o).
Proof.
  intros Hwf. destruct o as [now fault id m c reason hint|fault id m c|now fault id]; unfold step.
  - destruct (Record_ _ _ _ _ _ _ _ _) as [registry' [until|]] eqn:Hr; simpl.
    + apply Record_entries in Hr as (failures & Hr & Hid & Hm & Hc & Hv & _).
      unfold wf. rewrite Hr. apply map_Forall_insert_2; [|done].
      split; simpl; [by rewrite cooldownEntryKey_TrimSpace|done..|apply TrimSpace_trimmed|done].
    + by apply Record_None in Hr as ->.
  - unfold wf. rewrite Clear_entries. by apply map_Forall_delete.
  - intros k e. rewrite Cooldowns_lookup. intros Hk. apply Hwf.
    destruct (entries registry !! k); [|done]. by case_decide.
Qed.

Lemma wf_steps ops registry : wf registry → wf (foldl step registry ops).
Proof. revert registry; induction ops; simpl; auto using wf_step. Qed.

(** The operations that may not shorten the cooldown stored at [key], up to [t]. *)
Definition keeps (key : string) (t : Time) (o : op) : Prop :=
  match o with
  | OpRecord now _ _ _ _ _ _ => True
  | OpClear _ id m c => cooldownEntryKey id m c ≠ key
  | OpCooldowns now _ _ => (now < t)%Z
  end.

Definition held (key : string) (t : Time) registry : Prop :=
  ∃ e, entries registry !! key = Some e ∧ (t ≤ ce_until e)%Z.

Lemma held_step key t registry o : keeps key t o → held key t registry → held key t (step registry o).
Proof.
  intros Hk (e & He & Ht). unfold held.
  destruct o as [now fault id m c reason hint|fault id m c|now fault id]; unfold step, keeps in *.
  - destruct (Record_ _ _ _ _ _ _ _ _) as [registry' [until|]] eqn:Hr; simpl.
    + apply Record_entries in Hr as (failures & -> & _ & _ & _ & _ & _ & Hmax).
      destruct (decide (cooldownEntryKey id m c = key)) as [Heq|Hne].
      * rewrite Heq, lookup_insert_eq. eexists. split; [done|]. simpl.
        rewrite Heq in Hmax. specialize (Hmax e He). lia.
      * rewrite lookup_insert_ne by done. by exists e.
    + apply Record_None in Hr as ->. by exists e.
  - rewrite Clear_entries, lookup_delete_ne by done. by exists e.
  - rewrite Cooldowns_lookup, He. rewrite decide_True; [by exists e|].
    intros _. unfold After. apply Z.ltb_lt. lia.
Qed.

Lemma held_steps key t ops registry :
  Forall (keeps key t) ops → held key t registry → held key t (foldl step registry ops).
Proof.
  intros Hops. revert registry. induction Hops as [|o ops Ho Hops IH]; intros registry Hh; simpl;
    [done|]. apply IH. by apply held_step.
Qed.

(** A recorded failure is held for its whole duration. *)
Lemma Record_held now fault id m c reason hint registry registry' until :
  Record_ now fault id m c reason hint registry = (registry', Some until) →
  held (cooldownEntryKey id m c) until registry'.
Proof.
  intros (failures & Hr & _)%Record_entries. unfold held. rewrite Hr, lookup_insert_eq.
  eexists. split; [done|]. simpl. lia.
Qed.

(** Keys that an operation does not name keep their entry, unless it is over. *)
Lemma step_other key registry o :
  (match o with
   | OpRecord _ _ id m c _ _ | OpClear _ id m c => cooldownEntryKey id m c ≠ key
   | OpCooldowns now _ _ => ∀ e, entries registry !! key = Some e → (now < ce_until e)%Z
   end) →
  entries (step registry o) !! key = entries registry !! key.
Proof.
  destruct o as [now fault id m c reason hint|fault id m c|now fault id]; unfold step; intros Hne.
  - destruct (Record_ _ _ _ _ _ _ _ _) as [registry' [until|]] eqn:Hr; simpl.
    + apply Record_entries in Hr as (failures & -> & _). by rewrite lookup_insert_ne.
    + by apply Record_None in Hr as ->.
  - by rewrite Clear_entries, lookup_delete_ne.
  - rewrite Cooldowns_lookup. destruct (entries registry !! key) as [e|]; [|done].
    rewrite decide_True; [done|]. intros _. apply Z.ltb_lt. by apply Hne.
Qed.

(** ** The state file *)

#[local] Instance triple_le_trans : Transitive triple_le.
Proof.
  intros [[a b] c] [[a' b'] c'] [[a'' b''] c'']. unfold triple_le. simpl.
  pose proof (anti_symm String.le) as Has.
  repeat case_decide; intros; simplify_eq; try done; try by etrans.
  all: exfalso; naive_solver.
Qed.

#[local] Instance triple_le_total : Total triple_le.
Proof.
  intros [[a b] c] [[a' b'] c']. unfold triple_le. simpl.
  repeat case_decide; simplify_eq; apply (total String.le).
Qed.

Lemma triple_le_antisymm x y : triple_le x y → triple_le y x → x = y.
Proof.
  destruct x as [[a b] c], y as [[a' b'] c']. unfold triple_le. simpl.
  pose proof (anti_symm String.le) as Has.
  repeat case_decide; intros; simplify_eq; f_equal; try f_equal; naive_solver.
Qed.

#[local] Instance pe_le_trans : Transitive pe_le.
Proof. intros x y z. apply triple_le_trans. Qed.
#[local] Instance pe_le_total : Total pe_le.
Proof. intros x y. apply triple_le_total. Qed.

(** Two entries of a registry that the order of the file does not separate are
    the same entry: their keys agree. *)
Lemma pe_key_entry e e' :
  trimmed (ce_model e) → trimmed (ce_model e') →
  pe_key (persisted e) = pe_key (persisted e') →
  cooldownEntryKey (ce_providerID e) (ce_model e) (ce_capability e)
  = cooldownEntryKey (ce_providerID e') (ce_model e') (ce_capability e').
Proof.
  intros Ht Ht' [= Hp Hc Hm]. unfold cooldownEntryKey.
  rewrite (TrimSpace_id _ Ht), (TrimSpace_id _ Ht'). by rewrite Hp, Hc, Hm.
Qed.

Lemma persisted_inj e e' : persisted e = persisted e' → e = e'.
Proof. destruct e, e'. by intros [=-> -> -> -> -> ->]. Qed.

Lemma entry_list_wf registry e :
  wf registry → e ∈ entry_list registry →
  wf_entry (cooldownEntryKey (ce_providerID e) (ce_model e) (ce_capability e)) e
  ∧ entries registry !! cooldownEntryKey (ce_providerID e) (ce_model e) (ce_capability e) = Some e.
Proof.
  intros Hwf [k Hk]%elem_of_entry_list. pose proof (Hwf k e Hk) as He.
  pose proof (we_key _ _ He) as Heq. by rewrite <-Heq.
Qed.

(** The state written does not depend on the order in which Go iterates the map. *)
Lemma sort_persisted_perm registry l :
  wf registry → l ≡ₚ entry_list registry →
  persisted_state l = persisted_state (entry_list registry).
Proof.
  intros Hwf Hl. unfold persisted_state. f_equal.
  apply (StronglySorted_unique_strong pe_le).
  - intros x y Hx Hy H1 H2. rewrite merge_sort_Permutation in Hx, Hy.
    apply list_elem_of_fmap in Hx as (e & -> & He). rewrite Hl in He.
    apply list_elem_of_fmap in Hy as (e' & -> & He').
    pose proof (triple_le_antisymm _ _ H1 H2) as Hkey.
    destruct (entry_list_wf _ _ Hwf He) as [Hw Hk], (entry_list_wf _ _ Hwf He') as [Hw' Hk'].
    apply pe_key_entry in Hkey; [|by eapply we_trimmed..]. rewrite Hkey in Hk. congruence.
  - apply StronglySorted_merge_sort; apply _.
  - apply StronglySorted_merge_sort; apply _.
  - rewrite !merge_sort_Permutation. by rewrite Hl.
Qed.

Definition decodable (e : cooldownEntry) : Prop :=
  trimmed (ce_providerID e) ∧ trimmed (ce_capability e) ∧ (1 ≤ ce_failures e)%Z.

Lemma decode_persisted now key e :
  (0 ≤ now)%Z → wf_entry key e → decodable e →
  decodePersistedCooldown (persisted e) now
  = if After (ce_until e) now then Some e else None.
Proof.
  intros H0 [Hk Hid Hm Hc Ht Hv] (Htp & Htc & Hf). unfold decodePersistedCooldown. simpl.
  rewrite (TrimSpace_id _ Htp), (TrimSpace_id _ Htc), (TrimSpace_id _ Ht).
  apply String.eqb_neq in Hid, Hm, Hc. rewrite Hid, Hm, Hc, Hv. simpl.
  destruct (After (ce_until e) now) eqn:Ha.
  - replace (IsZero (ce_until e)) with false.
    2:{ symmetry. unfold IsZero, After in *. reflect_bools. apply Z.eqb_neq. lia. }
    simpl. replace (ce_failures e <? 1)%Z with false by (symmetry; apply Z.ltb_ge; lia).
    by destruct e.
  - by destruct (IsZero _).
Qed.

Lemma load_entries_lookup now l k e :
  (0 ≤ now)%Z → length l ≤ maxPersistedCooldowns →
  (∀ e, e ∈ l → decodable e ∧
     wf_entry (cooldownEntryKey (ce_providerID e) (ce_model e) (ce_capability e)) e) →
  NoDup ((λ e, cooldownEntryKey (ce_providerID e) (ce_model e) (ce_capability e)) <$> l) →
  load_entries now (persisted <$> l) !! k = Some e ↔
  e ∈ l ∧ k = cooldownEntryKey (ce_providerID e) (ce_model e) (ce_capability e)
  ∧ (now < ce_until e)%Z.
Proof.
  intros H0 Hlen Hl Hnd. unfold load_entries. rewrite take_ge by (rewrite length_fmap; exact Hlen).
  clear Hlen. revert e. induction l as [|x l IH] using rev_ind; intros e.
  { simpl. rewrite lookup_empty, elem_of_nil. naive_solver. }
  rewrite fmap_app in Hnd. apply NoDup_app in Hnd as (Hnd & Hdis & _).
  specialize (IH (λ e He, Hl e (proj2 (elem_of_app l [x] e) (or_introl He))) Hnd).
  rewrite fmap_app, foldl_app. simpl.
  destruct (Hl x) as [Hdec Hx]; [set_solver|].
  erewrite decode_persisted by done.
  rewrite elem_of_app, list_elem_of_singleton.
  destruct (After (ce_until x) now) eqn:Ha; unfold After in Ha; reflect_bools.
  - rewrite lookup_insert. case_decide as Heq.
    + split; [intros [= <-]; auto|]. intros ([He| ->] & -> & Hu); [|done].
      exfalso. eapply Hdis; [apply list_elem_of_fmap; by exists e|].
      csimpl. apply list_elem_of_singleton. by symmetry.
    + rewrite IH. split; [naive_solver|]. intros ([He| ->] & -> & Hu); [done|]. by destruct Heq.
  - rewrite IH. split; [naive_solver|]. intros ([He| ->] & -> & Hu); [done|lia].
Qed.

(** What a restart reads from the file a successful write left. *)
Lemma reopen_lookup now registry path data registry' k e :
  (0 ≤ now)%Z → wf registry → map_Forall (λ _, decodable) (entries registry) →
  size (entries registry) ≤ maxPersistedCooldowns →
  (∀ state data, marshal state = Some data → blank data = false ∧ unmarshal data = Some state) →
  TrimSpace path ≠ "" → marshal (persisted_state (entry_list registry)) = Some data →
  OpenCooldownRegistry path now (FileData data) = Ok registry' →
  entries registry' !! k = Some e ↔ entries registry !! k = Some e ∧ (now < ce_until e)%Z.
Proof.
  intros H0 Hwf Hdec Hsize Hcodec Hpath Hm Hopen.
  destruct (Hcodec _ _ Hm) as [Hb Hu].
  unfold OpenCooldownRegistry in Hopen. apply String.eqb_neq in Hpath.
  rewrite Hpath, Hb, Hu in Hopen. simpl in Hopen. injection Hopen as <-. simpl.
  destruct (Permutation_map_inv _ _ (merge_sort_Permutation pe_le (persisted <$> entry_list registry)))
    as (l & Hl & Hperm). change (merge_sort pe_le (persisted <$> entry_list registry) = persisted <$> l) in Hl.
  rewrite Hl. rewrite load_entries_lookup; [|done|..].
  - rewrite <-Hperm. rewrite elem_of_entry_list. split.
    + intros ([k' Hk'] & -> & Hu'). destruct (entry_list_wf registry e) as [_ He]; [done|..|done].
      apply elem_of_entry_list. by exists k'.
    + intros [Hk Hn]. split_and!; [by exists k| |done]. apply (we_key _ _ (Hwf _ _ Hk)).
  - rewrite <-Hperm. unfold entry_list. by rewrite length_fmap, length_map_to_list.
  - intros x. rewrite <-Hperm. intros Hx. destruct (entry_list_wf _ _ Hwf Hx) as [? Hx'].
    split; [|done]. by apply (Hdec _ _ Hx').
  - rewrite <-Hperm. unfold entry_list. rewrite <-list_fmap_compose.
    replace (_ <$> map_to_list (entries registry)) with ((map_to_list (entries registry)).*1);
      [apply NoDup_fst_map_to_list|].
    apply list_fmap_ext. intros i [k' e'] Hi. simpl.
    apply list_elem_of_lookup_2, elem_of_map_to_list in Hi. apply (we_key _ _ (Hwf _ _ Hi)).
Qed.

(** Identifiers and capabilities without the separator byte, as the program's own
    constants are; then a key determines them. *)
Definition plain registry : Prop :=
  map_Forall (λ _ e, no_nul (ce_providerID e) ∧ no_nul (ce_capability e)) (entries registry).

Definition plain_op (o : op) : Prop :=
  match o with OpRecord _ _ id _ c _ _ => no_nul id ∧ no_nul c | _ => True end.

Lemma plain_step registry o : plain_op o → plain registry → plain (step registry o).
Proof.
  intros Ho Hp.
  destruct o as [now fault id m c reason hint|fault id m c|now fault id]; unfold step, plain_op in *.
  - destruct (Record_ _ _ _ _ _ _ _ _) as [registry' [until|]] eqn:Hr.
    + apply Record_entries in Hr as (failures & Hr & _). unfold plain. simpl. rewrite Hr.
      by apply map_Forall_insert_2.
    + by apply Record_None in Hr as ->.
  - unfold plain. rewrite Clear_entries. by apply map_Forall_delete.
  - intros k e. rewrite Cooldowns_lookup. intros Hk. apply (Hp k).
    destruct (entries registry !! k); [|done]. by case_decide.
Qed.

Lemma plain_steps ops registry :
  Forall plain_op ops → plain registry → plain (foldl step registry ops).
Proof.
  intros Hops. revert registry. induction Hops; intros registry Hp; simpl; [done|].
  auto using plain_step.
Qed.

(** A key held until [t] is reported as active by its provider before [t]. *)
Lemma held_active registry id m c t now fault :
  wf registry → plain registry → no_nul id → no_nul c →
  held (cooldownEntryKey id m c) t registry → (now < t)%Z →
  ∃ cd, cd ∈ (snd (Cooldowns now fault id registry)).1 ∧ (t ≤ cd_Until cd)%Z
    ∧ cd_Capability cd = c ∧ normalizeModel (cd_Model cd) = normalizeModel m.
Proof.
  intros Hwf Hp Hid Hc (e & He & Ht) Hnow. destruct (Hp _ _ He) as [Hid' Hc'].
  pose proof (we_key _ _ (Hwf _ _ He)) as Hk.
  apply cooldownEntryKey_inj in Hk as (-> & -> & Hm); [|done..].
  exists (to_cooldown e). split_and!; [|done..].
  apply elem_of_active. eexists _, e. split_and!; [done|done|lia|done].
Qed.

End histories.

(** ** Properties *)

(** C20. The length of a cooldown.  A failure that is not quota exhaustion cools a
    target for 15 seconds, doubled for each earlier consecutive failure and cut
    at 5 minutes; a provider's hint can only lengthen it, up to the same 5
    minutes.  Exhausted quota cools it for 24 hours or the hint, if longer. *)
Theorem cooldown_duration_closed_form reason failures hint :
  (1 ≤ failures)%Z →
  cooldownDuration reason failures hint
  = (if decide (reason = CooldownQuotaExhausted)
     then (24 * Hour) `max` hint
     else ((15 * Second * 2 ^ (failures - 1)) `min` (5 * Minute)) `max` (hint `min` (5 * Minute)))%Z.
Proof.
  intros Hf. case_decide as Hr.
  - subst. apply cooldownDuration_quota.
  - by apply cooldownDuration_failure.
Qed.

Lemma cooldown_duration_closed_form_witness :
  cooldownDuration CooldownTimeout 3 0 = (60 * Second)%Z.
Proof. rewrite (cooldown_duration_closed_form CooldownTimeout 3 0); [reflexivity|lia]. Defined.

(** A failed target stays out of rotation.  Once a failure of a provider's
    model and capability has been recorded as cooling until [until], whatever
    other failures, successes of other targets and readings follow (with write
    faults of the state file anywhere), the provider's list of active cooldowns
    has one for that model and capability at every instant before [until]. *)
Theorem failed_target_stays_cooling {Bytes} `{StateCodec Bytes}
    (registry registry' : CooldownRegistry Bytes) now fault id m c reason hint until ops t fault' :
  wf registry → plain registry → no_nul id → no_nul c → Forall plain_op ops →
  Record_ now fault id m c reason hint registry = (registry', Some until) →
  Forall (keeps (cooldownEntryKey id m c) until) ops →
  (t < until)%Z →
  ∃ cd, cd ∈ (snd (Cooldowns t fault' id (foldl step registry' ops))).1
    ∧ (until ≤ cd_Until cd)%Z ∧ cd_Capability cd = c
    ∧ normalizeModel (cd_Model cd) = normalizeModel m.
Proof.
  intros Hwf Hp Hid Hc Hplain Hr Hkeep Ht.
  assert (registry' = step registry (OpRecord now fault id m c reason hint)) as Hst.
  { unfold step. by rewrite Hr. }
  eapply held_active; [..|exact Ht]; [| |done|done|].
  - rewrite Hst. by apply wf_steps, wf_step.
  - rewrite Hst. apply plain_steps; [done|]. by apply plain_step.
  - apply held_steps; [done|]. by eapply Record_held.
Qed.

(** A codec whose bytes are the state itself. *)
#[global] Instance transparent_codec : StateCodec persistedCooldownState := {
  marshal := Some; unmarshal := Some; blank := λ _, false;
}.

Definition example_registry : CooldownRegistry persistedCooldownState :=
  mkRegistry ∅ "cooldowns.json" None.
Definition example_failed : CooldownRegistry persistedCooldownState :=
  fst (Record_ 1000 None Codex " GPT-5" CapabilityChat CooldownQuotaExhausted 0 example_registry).

Lemma failed_target_stays_cooling_witness :
  ∃ cd, cd ∈ (snd (Cooldowns (20 * Hour) None Codex
      (foldl step example_failed
        [OpClear None Copilot "gpt-5" CapabilityChat;
         OpRecord 5000 (Some FaultRename) Codex "gpt-5" CapabilityChat CooldownTimeout 0;
         OpCooldowns (10 * Hour) None Codex]))).1
    ∧ (1000 + 24 * Hour ≤ cd_Until cd)%Z ∧ cd_Capability cd = CapabilityChat
    ∧ normalizeModel (cd_Model cd) = normalizeModel " GPT-5".
Proof.
  apply (failed_target_stays_cooling example_registry example_failed 1000 None Codex " GPT-5"
    CapabilityChat CooldownQuotaExhausted 0 (1000 + 24 * Hour)).
  - apply map_Forall_empty.
  - apply map_Forall_empty.
  - reflexivity.
  - reflexivity.
  - repeat constructor; reflexivity.
  - vm_compute. reflexivity.
  - repeat constructor. vm_compute. discriminate.
  - reflexivity.
Defined.

(** Recording or clearing one target never changes the cooldown of another:
    a different provider, capability or model (compared without case and
    surrounding blanks) keeps its entry. *)
Theorem cooldown_isolation {Bytes} `{StateCodec Bytes} (registry : CooldownRegistry Bytes)
    now fault id m c reason hint id' m' c' :
  no_nul id → no_nul id' → no_nul c → no_nul c' →
  (id' ≠ id ∨ c' ≠ c ∨ normalizeModel m' ≠ normalizeModel m) →
  entries (step registry (OpRecord now fault id m c reason hint)) !! cooldownEntryKey id' m' c'
    = entries registry !! cooldownEntryKey id' m' c'
  ∧ entries (step registry (OpClear fault id m c)) !! cooldownEntryKey id' m' c'
    = entries registry !! cooldownEntryKey id' m' c'.
Proof.
  intros ???? Hne.
  assert (cooldownEntryKey id m c ≠ cooldownEntryKey id' m' c').
  { intros (? & ? & ?)%cooldownEntryKey_inj; [|done..]. destruct Hne as [?|[?|?]]; congruence. }
  split; by apply step_other.
Qed.

Lemma cooldown_isolation_witness :
  entries (step example_failed (OpRecord 7 None Codex "o3" CapabilityChat CooldownTimeout 0))
    !! cooldownEntryKey Codex "gpt-5" CapabilityChat
  = entries example_failed !! cooldownEntryKey Codex "gpt-5" CapabilityChat
  ∧ entries (step example_failed (OpClear None Codex "o3" CapabilityChat))
    !! cooldownEntryKey Codex "gpt-5" CapabilityChat
  = entries example_failed !! cooldownEntryKey Codex "gpt-5" CapabilityChat.
Proof.
  apply (cooldown_isolation example_failed); try reflexivity.
  right. right. vm_compute. discriminate.
Defined.

(** Restart round trip.  When a successful write left [data] in the state
    file, opening the registry again at [now] finds exactly the entries that are
    not over at [now], each with its provider, model, capability, end, reason
    and failure count; the order in which Go iterated the map does not matter. *)
Theorem cooldowns_survive_restart {Bytes} `{StateCodec Bytes}
    (registry registry' : CooldownRegistry Bytes) now path data l :
  (0 ≤ now)%Z → wf registry → map_Forall (λ _, decodable) (entries registry) →
  size (entries registry) ≤ maxPersistedCooldowns →
  (∀ state data, marshal state = Some data → blank data = false ∧ unmarshal data = Some state) →
  TrimSpace path ≠ "" →
  l ≡ₚ entry_list registry → marshal (persisted_state l) = Some data →
  OpenCooldownRegistry path now (FileData data) = Ok registry' →
  ∀ k e, entries registry' !! k = Some e ↔ entries registry !! k = Some e ∧ (now < ce_until e)%Z.
Proof.
  intros H0 Hwf Hdec Hsize Hcodec Hpath Hl Hm Hopen k e.
  rewrite (sort_persisted_perm registry l) in Hm by done. by eapply reopen_lookup.
Qed.

Lemma cooldowns_survive_restart_witness :
  ∃ registry', OpenCooldownRegistry "cooldowns.json" (20 * Hour)
      (FileData (persisted_state (entry_list example_failed))) = Ok registry'
  ∧ ∀ k e, entries registry' !! k = Some e ↔
      entries example_failed !! k = Some e ∧ (20 * Hour < ce_until e)%Z.
Proof.
  eexists. split; [reflexivity|].
  eapply (cooldowns_survive_restart example_failed _ (20 * Hour) "cooldowns.json"
    (persisted_state (entry_list example_failed)) (entry_list example_failed)).
  - vm_compute. discriminate.
  - apply (wf_step example_registry (OpRecord 1000 None Codex " GPT-5" CapabilityChat
      CooldownQuotaExhausted 0)). apply map_Forall_empty.
  - apply map_Forall_singleton. split_and!; [split; reflexivity..|vm_compute; discriminate].
  - apply Nat2Z.inj_le. vm_compute. discriminate.
  - intros ? ? [= <-]. done.
  - vm_compute. discriminate.
  - done.
  - reflexivity.
  - reflexivity.
Defined.

(** Prefixes round-trip: for each routed provider, stripping the name that
    [AddModelPrefix] built gives back the provider, and the name when it did not
    already carry the prefix. *)
Theorem model_prefix_roundtrip id m :
  routed_provider id →
  ∃ bare, StripModelPrefix (AddModelPrefix id m) = (bare, id, true)
    ∧ ProviderPrefix id +:+ bare = AddModelPrefix id m
    ∧ (HasPrefix m (ProviderPrefix id) = false → bare = m).
Proof.
  intros Hid. unfold AddModelPrefix.
  assert (String.eqb (ProviderPrefix id) "" = false) as -> by (destruct Hid as [->|[->| ->]]; done).
  simpl. destruct (HasPrefix m (ProviderPrefix id)) eqn:Hp.
  - apply HasPrefix_true in Hp as [r ->]. exists r. split_and!; [|done|done].
    by apply StripModelPrefix_true.
  - exists m. split_and!; [|done|done]. by apply StripModelPrefix_true.
Qed.

Lemma model_prefix_roundtrip_witness :
  ∃ bare, StripModelPrefix (AddModelPrefix Codex "gpt-5") = (bare, Codex, true)
    ∧ ProviderPrefix Codex +:+ bare = AddModelPrefix Codex "gpt-5"
    ∧ (HasPrefix "gpt-5" (ProviderPrefix Codex) = false → bare = "gpt-5").
Proof. apply (model_prefix_roundtrip Codex "gpt-5"). right. left. reflexivity. Defined.
