(* ===== verification/Defaults.v ===== *)
(** * The managed configuration: defaults and validation

    [config_defaults.go] and [revisioned_state.go] of [src/src]: the configuration
    of a fresh installation, the migration of a pre-V1 file, the defaults filled
    into every configuration that is loaded, and the validator the state manager
    is given.

    Maps are identified with their contents, so the one test the code makes for a
    nil map, that of [VirtualModels], is the argument [vm_nil] of
    [applyConfigDefaults].  SHA-256 in hexadecimal is a parameter. *)

From S2P Require Import Prelude GoStd Config Provider Cooldown.
From stdpp Require Import pretty.

Local Open Scope Z_scope.

(* src/src/config.go currentConfigVersion *)
Definition currentConfigVersion : Z := 1.
(* src/src/config_defaults.go:10-19 defaultRoutingModel *)
Definition defaultRoutingModel : string := "thiendu".

Definition set_routing (r : Routing) (c : Config) : Config :=
  mkConfig (Port c) (ConfigVersion c) (EnablePprof c) (cfg_Logging c) r (cfg_Providers c)
    (cfg_Timeouts c).
Definition set_providers (p : Providers) (c : Config) : Config :=
  mkConfig (Port c) (ConfigVersion c) (EnablePprof c) (cfg_Logging c) (cfg_Routing c) p
    (cfg_Timeouts c).

Definition or_default (x d : Z) : Z := if x =? 0 then d else x.
Definition or_string (s d : string) : string := if String.eqb s "" then d else s.

(* src/src/config_defaults.go setDefaultTimeouts *)
Definition setDefaultTimeouts (t : Timeouts) : Timeouts :=
  mkTimeouts (or_default (HTTPClient t) 300) (or_default (ServerRead t) 30)
    (or_default (ServerWrite t) 300) (or_default (ServerIdle t) 120)
    (or_default (ProxyContext t) 300) (or_default (CircuitBreaker t) 30)
    (or_default (KeepAlive t) 30) (or_default (TLSHandshake t) 10)
    (or_default (DialTimeout t) 10) (or_default (IdleConnTimeout t) 90).

(* src/src/config_defaults.go setDefaultLogging *)
Definition setDefaultLogging (l : Logging) : Logging :=
  mkLogging
    (if String.eqb (TrimSpace (FilePath l)) "" then "logs/ya-router.log" else FilePath l)
    (if MaxFileSizeMiB l <=? 0 then 5 else MaxFileSizeMiB l)
    (if RetainedFiles l <=? 0 then 2 else RetainedFiles l).

(* src/src/config_defaults.go defaultVirtualModels *)
Definition defaultVirtualModels : gmap string VirtualModel :=
  {["thiendu" := mkVirtualModel "quota_priority"
      (Some ["codex/gpt-5.3-codex-spark"; "codex/gpt-5.4-mini"; "github/gpt-5.4-mini";
             "github/gpt-5-mini"; "kilo/kilo-auto/free"])]}.

Definition emptyCopilotAuth : CopilotAuthState := mkCopilotAuth "" "" None "" None 0 0.
Definition emptyCodexAuth : CodexAuthState := mkCodexAuth "" "" None "" None "" None 0 "".

Section defaults.
Context (sha256_hex : string → string).

(** The first twelve bytes of the digest, 24 hexadecimal characters. *)
(* src/src/config_defaults.go stableAccountID *)
Definition stableAccountID (provider identity : string) : string :=
  "acct_" +:+ str_take 24 (sha256_hex (provider +:+ nul +:+ identity)).

(** The loop of [ensureCopilotAccountIDs] and [ensureCodexAccountIDs] over the
    identifiers and labels: [seen] counts the labels of the accounts that had no
    identifier. *)
(* src/src/config_defaults.go ensureCopilotAccountIDs *)
Fixpoint assign_ids (provider : string) (seen : gmap string nat) (l : list (string * string))
    : list string :=
  match l with
  | [] => []
  | (id, label) :: l =>
    if negb (String.eqb id "") then id :: assign_ids provider seen l
    else
      let label := TrimSpace label in
      let occurrence := default 0%nat (seen !! label) in
      stableAccountID provider (label +:+ nul +:+ pretty occurrence)
      :: assign_ids provider (<[label := S occurrence]> seen) l
  end.

(* src/src/config_defaults.go ensureCopilotAccountIDs *)
Definition ensureCopilotAccountIDs (l : list CopilotAccount) : list CopilotAccount :=
  zip_with (λ id a, mkCopilotAccount id (cpa_Label a) (cpa_Auth a) (cpa_LastLimitedAt a))
    (assign_ids "copilot" ∅ ((λ a, (cpa_ID a, cpa_Label a)) <$> l)) l.

(* src/src/config_defaults.go ensureCodexAccountIDs *)
Definition ensureCodexAccountIDs (l : list CodexAccount) : list CodexAccount :=
  zip_with (λ id a, mkCodexAccount id (cxa_Label a) (cxa_Auth a) (cxa_LastLimitedAt a))
    (assign_ids "codex" ∅ ((λ a, (cxa_ID a, cxa_Label a)) <$> l)) l.

(** A single-account configuration becomes a pool of one. *)
(* src/src/config_defaults.go normalizeCopilotAccounts *)
Definition normalizeCopilotAccounts (p : CopilotProvider) : CopilotProvider :=
  let '(auth, accounts) :=
    if (length (elems (cp_Accounts p)) =? 0)%nat
       && negb (String.eqb (ca_GitHubToken (cp_Auth p)) "")
    then (emptyCopilotAuth,
          Some [mkCopilotAccount (stableAccountID "copilot" "primary") "primary" (cp_Auth p) 0])
    else (cp_Auth p, cp_Accounts p) in
  mkCopilotProvider (cp_Enabled p) auth (ensureCopilotAccountIDs <$> accounts)
    (cp_AccountCooldownSeconds p) (cp_AllowedModels p).

(* src/src/config_defaults.go normalizeCodexAccounts *)
Definition normalizeCodexAccounts (p : CodexProvider) : CodexProvider :=
  let '(auth, accounts) :=
    if (length (elems (cx_Accounts p)) =? 0)%nat
       && (negb (String.eqb (xa_AccessToken (cx_Auth p)) "")
           || negb (String.eqb (xa_APIKey (cx_Auth p)) ""))
    then (emptyCodexAuth,
          Some [mkCodexAccount (stableAccountID "codex" "primary") "primary" (cx_Auth p) 0])
    else (cx_Auth p, cx_Accounts p) in
  mkCodexProvider (cx_Enabled p) auth (ensureCodexAccountIDs <$> accounts)
    (cx_AccountCooldownSeconds p) (cx_AllowedModels p) (cx_ChatGPTBaseURL p).

Definition default_codex_mode (p : CodexProvider) : CodexProvider :=
  let a := cx_Auth p in
  mkCodexProvider (cx_Enabled p)
    (mkCodexAuth (or_string (xa_Mode a) "device_code") (xa_APIKey a) (xa_APIKeyRef a)
      (xa_AccessToken a) (xa_AccessTokenRef a) (xa_RefreshToken a) (xa_RefreshTokenRef a)
      (xa_ExpiresAt a) (xa_AccountID a))
    (cx_Accounts p) (cx_AccountCooldownSeconds p) (cx_AllowedModels p) (cx_ChatGPTBaseURL p).

(* src/src/config_defaults.go applyConfigDefaults *)
Definition applyConfigDefaults (vm_nil : bool) (cfg : Config) : Config :=
  let r := cfg_Routing cfg in
  let p := cfg_Providers cfg in
  let x := default_codex_mode (pr_Codex p) in
  let c := pr_Copilot p in
  let c := mkCopilotProvider (cp_Enabled c) (cp_Auth c) (cp_Accounts c)
             (or_default (cp_AccountCooldownSeconds c) 300) (cp_AllowedModels c) in
  let c := normalizeCopilotAccounts c in
  let x := mkCodexProvider (cx_Enabled x) (cx_Auth x) (cx_Accounts x)
             (or_default (cx_AccountCooldownSeconds x) 300) (cx_AllowedModels x)
             (cx_ChatGPTBaseURL x) in
  let x := normalizeCodexAccounts x in
  mkConfig (or_default (Port cfg) 7071) (ConfigVersion cfg) (EnablePprof cfg)
    (setDefaultLogging (cfg_Logging cfg))
    (mkRouting (or_string (DefaultModel r) defaultRoutingModel)
      (or_string (DefaultProvider r) Copilot) (ShowUnavailableModels r) (ModelMap r)
      (ClaudeAliases r) (if vm_nil then defaultVirtualModels else VirtualModels r)
      (ExposeInternalModels r))
    (mkProviders c x (pr_Kilo p)) (setDefaultTimeouts (cfg_Timeouts cfg)).

(** ** A fresh configuration and the migration of an old one *)

(* src/src/config_defaults.go defaultConfig *)
Definition defaultConfig : Config :=
  mkConfig 7071 currentConfigVersion false (setDefaultLogging (mkLogging "" 0 0))
    (mkRouting defaultRoutingModel Copilot false ∅ ∅ defaultVirtualModels false)
    (mkProviders
      (mkCopilotProvider true (mkCopilotAuth "device_code" "" None "" None 0 0) None 0 None)
      (mkCodexProvider false (mkCodexAuth "device_code" "" None "" None "" None 0 "") None 0 None "")
      (mkKiloProvider false true "" None "" None "" None))
    (setDefaultTimeouts (mkTimeouts 0 0 0 0 0 0 0 0 0 0)).

(* src/src/config.go legacyV0Config *)
Record legacyV0Config := mkLegacy {
  v0_Port : Z; v0_GitHubToken : string; v0_CopilotToken : string; v0_ExpiresAt : Z;
  v0_RefreshIn : Z; v0_AllowedModels : slice string; v0_DefaultModel : string;
  v0_EnablePprof : bool; v0_Timeouts : Timeouts;
}.

(* src/src/config_defaults.go setLegacyTimeouts *)
Definition setLegacyTimeouts (dst src : Timeouts) : Timeouts :=
  mkTimeouts (or_default (HTTPClient src) (HTTPClient dst))
    (or_default (ServerRead src) (ServerRead dst)) (or_default (ServerWrite src) (ServerWrite dst))
    (or_default (ServerIdle src) (ServerIdle dst))
    (or_default (ProxyContext src) (ProxyContext dst))
    (or_default (CircuitBreaker src) (CircuitBreaker dst))
    (or_default (KeepAlive src) (KeepAlive dst)) (or_default (TLSHandshake src) (TLSHandshake dst))
    (or_default (DialTimeout src) (DialTimeout dst))
    (or_default (IdleConnTimeout src) (IdleConnTimeout dst)).

(* src/src/config_defaults.go migrateV0ToV1 *)
Definition migrateV0ToV1 (v0 : legacyV0Config) : Config :=
  let cfg := defaultConfig in
  let r := cfg_Routing cfg in
  let p := cfg_Providers cfg in
  let copilot := mkCopilotProvider true
    (mkCopilotAuth "device_code" (v0_GitHubToken v0) None (v0_CopilotToken v0) None
      (v0_ExpiresAt v0) (v0_RefreshIn v0))
    (cp_Accounts (pr_Copilot p)) (cp_AccountCooldownSeconds (pr_Copilot p))
    (match v0_AllowedModels v0 with Some l => Some l | None => cp_AllowedModels (pr_Copilot p) end) in
  mkConfig (or_default (v0_Port v0) (Port cfg)) (ConfigVersion cfg) (v0_EnablePprof v0)
    (cfg_Logging cfg)
    (mkRouting (or_string (v0_DefaultModel v0) (DefaultModel r)) Copilot
      (ShowUnavailableModels r) (ModelMap r) (ClaudeAliases r) (VirtualModels r) true)
    (mkProviders (normalizeCopilotAccounts copilot) (normalizeCodexAccounts (pr_Codex p))
      (pr_Kilo p))
    (setLegacyTimeouts (cfg_Timeouts cfg) (v0_Timeouts v0)).

(** ** Validation *)

Inductive error :=
| ConfigurationRequired | UnsupportedVersion (v : Z) | PortOutOfRange | InvalidRouting (e : Config.error).

(** The validator fills in the defaults of the configuration it is given a pointer
    to, and its version. *)
(* src/src/revisioned_state.go validateManagedConfig *)
Definition validateManagedConfig (vm_nil : bool) (config : option Config) : result Config error :=
  match config with
  | None => Err ConfigurationRequired
  | Some config =>
    let config := applyConfigDefaults vm_nil config in
    let version := or_default (ConfigVersion config) currentConfigVersion in
    let config := mkConfig (Port config) version (EnablePprof config) (cfg_Logging config)
      (cfg_Routing config) (cfg_Providers config) (cfg_Timeouts config) in
    if negb (version =? currentConfigVersion) then Err (UnsupportedVersion version)
    else if (Port config <? 1) || (65535 <? Port config) then Err PortOutOfRange
    else
    let? _ := map_err InvalidRouting (ValidateVirtualModels (cfg_Routing config) KnownPrefixes) in
    Ok config
  end.
End defaults.

(** ** Facts *)

Section facts.
Context (sha256_hex : string → string).

Lemma or_default_idemp x d : d ≠ 0 → or_default (or_default x d) d = or_default x d.
Proof.
  intros Hd. unfold or_default. destruct (x =? 0) eqn:Hx; [|by rewrite Hx].
  by rewrite (proj2 (Z.eqb_neq d 0) Hd).
Qed.

Lemma or_default_nonzero x d : d ≠ 0 → or_default x d ≠ 0.
Proof. intros Hd. unfold or_default. destruct (x =? 0) eqn:Hx; [done|]. by apply Z.eqb_neq. Qed.

Lemma or_string_idemp s d : d ≠ "" → or_string (or_string s d) d = or_string s d.
Proof.
  intros Hd. unfold or_string. destruct (String.eqb s "") eqn:Hs; [|by rewrite Hs].
  by rewrite (proj2 (String.eqb_neq d "") Hd).
Qed.

Lemma setDefaultTimeouts_idemp t : setDefaultTimeouts (setDefaultTimeouts t) = setDefaultTimeouts t.
Proof. unfold setDefaultTimeouts. simpl. by rewrite !or_default_idemp. Qed.

Lemma setDefaultLogging_idemp l : setDefaultLogging (setDefaultLogging l) = setDefaultLogging l.
Proof.
  unfold setDefaultLogging. simpl. f_equal.
  - destruct (String.eqb (TrimSpace (FilePath l)) "") eqn:Hp; [|by rewrite Hp].
    by vm_compute.
  - destruct (MaxFileSizeMiB l <=? 0) eqn:Hm; [done|by rewrite Hm].
  - destruct (RetainedFiles l <=? 0) eqn:Hm; [done|by rewrite Hm].
Qed.

Lemma stableAccountID_nonempty p i : String.eqb (stableAccountID sha256_hex p i) "" = false.
Proof. done. Qed.

Lemma assign_ids_length p seen l : length (assign_ids sha256_hex p seen l) = length l.
Proof.
  revert seen; induction l as [|[id label] l IH]; intros seen; simpl; [done|].
  case_match; simpl; by rewrite IH.
Qed.

Lemma assign_ids_nonempty p seen l : Forall (λ id, String.eqb id "" = false) (assign_ids sha256_hex p seen l).
Proof.
  revert seen; induction l as [|[id label] l IH]; intros seen; simpl; [done|].
  destruct (String.eqb id "") eqn:Hid; simpl; constructor; auto.
Qed.

Lemma assign_ids_id p seen l :
  Forall (λ x, String.eqb x.1 "" = false) l → assign_ids sha256_hex p seen l = l.*1.
Proof.
  induction 1 as [|[id label] l Hid Hl IH]; simpl in *; [done|]. rewrite Hid. simpl. by f_equal.
Qed.

Lemma fmap_zip_ids {A B C} (f : A → B → C) (g : C → A) (ids : list A) (l : list B) :
  (∀ a b, g (f a b) = a) → length ids = length l → g <$> zip_with f ids l = ids.
Proof.
  intros Hg. revert l; induction ids as [|i ids IH]; intros [|b l] Hl; simplify_eq/=; [done|].
  rewrite Hg. f_equal. auto.
Qed.

Lemma zip_with_idemp {A B} (f : A → B → B) (ids : list A) (l : list B) :
  (∀ a b, f a (f a b) = f a b) → zip_with f ids (zip_with f ids l) = zip_with f ids l.
Proof.
  intros Hf. revert l; induction ids as [|i ids IH]; intros [|b l]; simpl; [done..|].
  by rewrite Hf, IH.
Qed.

Lemma ensureCopilotAccountIDs_idemp l :
  ensureCopilotAccountIDs sha256_hex (ensureCopilotAccountIDs sha256_hex l)
  = ensureCopilotAccountIDs sha256_hex l.
Proof.
  unfold ensureCopilotAccountIDs at 1 3. set (f := λ id a, _).
  set (ids := assign_ids sha256_hex "copilot" ∅ ((λ a, (cpa_ID a, cpa_Label a)) <$> l)).
  assert (ensureCopilotAccountIDs sha256_hex l = zip_with f ids l) as -> by done.
  assert (cpa_ID <$> zip_with f ids l = ids) as Hids.
  { apply fmap_zip_ids; [done|]. subst ids. by rewrite assign_ids_length, length_fmap. }
  rewrite assign_ids_id.
  - rewrite <-list_fmap_compose. change (fst ∘ _) with cpa_ID. rewrite Hids. by apply zip_with_idemp.
  - rewrite Forall_fmap. pose proof (assign_ids_nonempty "copilot" ∅
      ((λ a, (cpa_ID a, cpa_Label a)) <$> l)) as Hne. fold ids in Hne.
    rewrite <-Hids, Forall_fmap in Hne. exact Hne.
Qed.

Lemma ensureCodexAccountIDs_idemp l :
  ensureCodexAccountIDs sha256_hex (ensureCodexAccountIDs sha256_hex l)
  = ensureCodexAccountIDs sha256_hex l.
Proof.
  unfold ensureCodexAccountIDs at 1 3. set (f := λ id a, _).
  set (ids := assign_ids sha256_hex "codex" ∅ ((λ a, (cxa_ID a, cxa_Label a)) <$> l)).
  assert (ensureCodexAccountIDs sha256_hex l = zip_with f ids l) as -> by done.
  assert (cxa_ID <$> zip_with f ids l = ids) as Hids.
  { apply fmap_zip_ids; [done|]. subst ids. by rewrite assign_ids_length, length_fmap. }
  rewrite assign_ids_id.
  - rewrite <-list_fmap_compose. change (fst ∘ _) with cxa_ID. rewrite Hids. by apply zip_with_idemp.
  - rewrite Forall_fmap. pose proof (assign_ids_nonempty "codex" ∅
      ((λ a, (cxa_ID a, cxa_Label a)) <$> l)) as Hne. fold ids in Hne.
    rewrite <-Hids, Forall_fmap in Hne. exact Hne.
Qed.

Lemma length_ensureCopilot l : length (ensureCopilotAccountIDs sha256_hex l) = length l.
Proof. unfold ensureCopilotAccountIDs. rewrite length_zip_with, assign_ids_length, length_fmap. lia. Qed.
Lemma length_ensureCodex l : length (ensureCodexAccountIDs sha256_hex l) = length l.
Proof. unfold ensureCodexAccountIDs. rewrite length_zip_with, assign_ids_length, length_fmap. lia. Qed.

Lemma normalizeCopilotAccounts_idemp p :
  normalizeCopilotAccounts sha256_hex (normalizeCopilotAccounts sha256_hex p)
  = normalizeCopilotAccounts sha256_hex p.
Proof.
  unfold normalizeCopilotAccounts. destruct p as [en auth acc cool allowed]; simpl.
  destruct ((length (elems acc) =? 0)%nat && _) eqn:Hmv; simpl; [done|].
  destruct acc as [l|]; simpl in *.
  - rewrite length_ensureCopilot, Hmv. simpl. by rewrite ensureCopilotAccountIDs_idemp.
  - by rewrite Hmv.
Qed.

(** A codex provider whose single account was not moved to a pool. *)
Definition codex_pooled (p : CodexProvider) : Prop :=
  length (elems (cx_Accounts p)) ≠ 0%nat
  ∨ xa_AccessToken (cx_Auth p) = "" ∧ xa_APIKey (cx_Auth p) = "".

Definition moves_codex (p : CodexProvider) : bool :=
  (length (elems (cx_Accounts p)) =? 0)%nat
  && (negb (String.eqb (xa_AccessToken (cx_Auth p)) "")
      || negb (String.eqb (xa_APIKey (cx_Auth p)) "")).

Lemma codex_pooled_moves p : codex_pooled p → moves_codex p = false.
Proof.
  unfold codex_pooled, moves_codex. intros [Hl|[-> ->]]; [|by rewrite andb_false_r].
  by rewrite (proj2 (Nat.eqb_neq _ _) Hl).
Qed.

(** The defaults of the codex provider, as one function. *)
Definition default_codex (x : CodexProvider) : CodexProvider :=
  let x := default_codex_mode x in
  normalizeCodexAccounts sha256_hex
    (mkCodexProvider (cx_Enabled x) (cx_Auth x) (cx_Accounts x)
       (or_default (cx_AccountCooldownSeconds x) 300) (cx_AllowedModels x) (cx_ChatGPTBaseURL x)).

Lemma default_codex_idemp x : codex_pooled x → default_codex (default_codex x) = default_codex x.
Proof.
  intros Hp%codex_pooled_moves. unfold moves_codex in Hp.
  destruct x as [en a acc cool allowed url]. unfold default_codex, default_codex_mode, normalizeCodexAccounts.
  simpl in *. rewrite Hp. simpl.
  assert ((length (elems (ensureCodexAccountIDs sha256_hex <$> acc)) =? 0)%nat
    && (negb (String.eqb (xa_AccessToken a) "") || negb (String.eqb (xa_APIKey a) "")) = false) as ->.
  { destruct acc as [l|]; simpl in *; [by rewrite length_ensureCodex|done]. }
  simpl. rewrite or_string_idemp, or_default_idemp by done. f_equal.
  destruct acc as [l|]; simpl; [|done]. by rewrite ensureCodexAccountIDs_idemp.
Qed.

Lemma default_codex_pooled x : codex_pooled (default_codex x).
Proof.
  destruct x as [en a acc cool allowed url].
  unfold default_codex, default_codex_mode, normalizeCodexAccounts, codex_pooled. simpl.
  destruct ((length (elems acc) =? 0)%nat && _) eqn:Hmv; simpl; [by left|].
  apply andb_false_iff in Hmv as [Hl|Hs].
  - left. destruct acc as [l|]; simpl in *; [|done]. rewrite length_ensureCodex. by apply Nat.eqb_neq.
  - right. apply orb_false_iff in Hs as [H1%negb_false_iff H2%negb_false_iff].
    apply String.eqb_eq in H1, H2. done.
Qed.

Definition default_copilot (c : CopilotProvider) : CopilotProvider :=
  normalizeCopilotAccounts sha256_hex
    (mkCopilotProvider (cp_Enabled c) (cp_Auth c) (cp_Accounts c)
       (or_default (cp_AccountCooldownSeconds c) 300) (cp_AllowedModels c)).

Lemma default_copilot_idemp c : default_copilot (default_copilot c) = default_copilot c.
Proof.
  unfold default_copilot. set (p := mkCopilotProvider (cp_Enabled c) _ _ _ _).
  rewrite <-(normalizeCopilotAccounts_idemp p) at 6. f_equal.
  assert (or_default (cp_AccountCooldownSeconds (normalizeCopilotAccounts sha256_hex p)) 300
    = cp_AccountCooldownSeconds (normalizeCopilotAccounts sha256_hex p)) as ->.
  { subst p. unfold normalizeCopilotAccounts. case_match. simpl. by apply or_default_idemp. }
  by destruct (normalizeCopilotAccounts sha256_hex p).
Qed.

Lemma applyConfigDefaults_again vm_nil cfg :
  default_codex (pr_Codex (cfg_Providers (applyConfigDefaults sha256_hex vm_nil cfg)))
    = pr_Codex (cfg_Providers (applyConfigDefaults sha256_hex vm_nil cfg)) →
  applyConfigDefaults sha256_hex false (applyConfigDefaults sha256_hex vm_nil cfg)
  = applyConfigDefaults sha256_hex vm_nil cfg.
Proof.
  unfold default_codex. set (d := applyConfigDefaults sha256_hex vm_nil cfg). intros Hx.
  unfold applyConfigDefaults at 1. cbv zeta. rewrite Hx. subst d.
  unfold applyConfigDefaults. cbv zeta. cbn [Port ConfigVersion EnablePprof cfg_Logging cfg_Routing
    cfg_Providers cfg_Timeouts pr_Copilot pr_Codex pr_Kilo DefaultModel DefaultProvider
    ShowUnavailableModels ModelMap ClaudeAliases VirtualModels ExposeInternalModels].
  rewrite or_default_idemp, setDefaultLogging_idemp, setDefaultTimeouts_idemp, !or_string_idemp by done.
  do 2 f_equal. exact (default_copilot_idemp (pr_Copilot (cfg_Providers cfg))).
Qed.

(** ** Properties *)

(** The defaults are stable.  Filling in the defaults twice is the same as
    filling them in once, for every configuration whose codex provider already has
    a pool of accounts or has no credential; and for every configuration at all a
    third round changes nothing. *)
Theorem defaults_stabilise vm_nil cfg :
  (codex_pooled (pr_Codex (cfg_Providers cfg)) →
     applyConfigDefaults sha256_hex false (applyConfigDefaults sha256_hex vm_nil cfg)
     = applyConfigDefaults sha256_hex vm_nil cfg)
  ∧ let twice := applyConfigDefaults sha256_hex false (applyConfigDefaults sha256_hex vm_nil cfg) in
    applyConfigDefaults sha256_hex false twice = twice.
Proof.
  split.
  - intros Hp. apply applyConfigDefaults_again. apply (default_codex_idemp _ Hp).
  - cbv zeta. apply applyConfigDefaults_again. apply default_codex_idemp. apply default_codex_pooled.
Qed.

(** What the validator lets through.  A configuration the state manager accepts
    has the current version, a port that exists, positive log limits, timeouts that
    are all set, and valid virtual models. *)
Theorem validated_config_is_usable vm_nil config cfg :
  validateManagedConfig sha256_hex vm_nil config = Ok cfg →
  ConfigVersion cfg = currentConfigVersion ∧ 1 ≤ Port cfg ≤ 65535
  ∧ 0 < MaxFileSizeMiB (cfg_Logging cfg) ∧ 0 < RetainedFiles (cfg_Logging cfg)
  ∧ TrimSpace (FilePath (cfg_Logging cfg)) ≠ ""
  ∧ HTTPClient (cfg_Timeouts cfg) ≠ 0 ∧ ProxyContext (cfg_Timeouts cfg) ≠ 0
  ∧ CircuitBreaker (cfg_Timeouts cfg) ≠ 0
  ∧ DefaultModel (cfg_Routing cfg) ≠ "" ∧ DefaultProvider (cfg_Routing cfg) ≠ ""
  ∧ (∀ id vm, VirtualModels (cfg_Routing cfg) !! id = Some vm →
       valid_virtual_model (cfg_Routing cfg) KnownPrefixes id vm).
Proof.
  intros Hv. unfold validateManagedConfig in Hv. destruct config as [c|]; [|done].
  set (d := applyConfigDefaults sha256_hex vm_nil c) in Hv. cbv zeta in Hv.
  destruct (negb _) eqn:Hver; [done|]. destruct (_ || _) eqn:Hport; [done|].
  apply bind_result_Ok in Hv as ([] & Hvm & [= <-]).
  apply orb_false_iff in Hport as [Hlo Hhi]. apply negb_false_iff, Z.eqb_eq in Hver.
  cbn [Port ConfigVersion cfg_Logging cfg_Routing cfg_Timeouts] in *.
  destruct (ValidateVirtualModels (cfg_Routing d) KnownPrefixes) as [[]|e] eqn:Hr; [|done].
  rewrite ValidateVirtualModels_Ok in Hr. reflect_bools.
  assert (Hs : ∀ s x, x ≠ "" → or_string s x ≠ "").
  { intros s x Hx. unfold or_string. destruct (String.eqb s "") eqn:E; [done|].
    by apply String.eqb_neq. }
  split_and!; try done; try (by apply or_default_nonzero); try (by apply Hs); subst d; simpl.
  - case_match eqn:E; reflect_bools; lia.
  - case_match eqn:E; reflect_bools; lia.
  - destruct (String.eqb (TrimSpace (FilePath (cfg_Logging c))) "") eqn:E; [by vm_compute|].
    by apply String.eqb_neq.
Qed.
End facts.

Lemma defaults_stabilise_witness :
  applyConfigDefaults id false (applyConfigDefaults id true defaultConfig)
  = applyConfigDefaults id true defaultConfig.
Proof. apply (proj1 (defaults_stabilise id true defaultConfig)). right. split; reflexivity. Defined.

Lemma validated_config_is_usable_witness :
  ∃ cfg, validateManagedConfig id false (Some defaultConfig) = Ok cfg
    ∧ ConfigVersion cfg = currentConfigVersion.
Proof.
  destruct (validateManagedConfig id false (Some defaultConfig)) as [cfg|e] eqn:Hv.
  - exists cfg. split; [reflexivity|].
    exact (proj1 (validated_config_is_usable id false (Some defaultConfig) cfg Hv)).
  - exfalso. vm_compute in Hv. discriminate Hv.
Defined.

(** ** Behaviours to know about *)

Definition with_codex (p : CodexProvider) (c : Config) : Config :=
  set_providers (mkProviders (pr_Copilot (cfg_Providers c)) p (pr_Kilo (cfg_Providers c))) c.

(** With a codex token outside a pool the second round differs from the first: the
    token is moved with its mode, and the emptied mode is filled in again. *)
Example unstable_codex_defaults :
  let cfg := with_codex (mkCodexProvider true (mkCodexAuth "" "" None "token" None "" None 0 "")
    None 0 None "") defaultConfig in
  let once := applyConfigDefaults id false cfg in
  let twice := applyConfigDefaults id false once in
  xa_Mode (cx_Auth (pr_Codex (cfg_Providers once))) = ""
  ∧ xa_Mode (cx_Auth (pr_Codex (cfg_Providers twice))) = "device_code".
Proof. vm_compute. done. Qed.

(** The labels are counted only among the accounts without an identifier, so an
    account added under the label of an existing one gets the same identifier. *)
Example duplicate_account_ids :
  let first := ensureCopilotAccountIDs id [mkCopilotAccount "" "work" emptyCopilotAuth 0] in
  let both := ensureCopilotAccountIDs id (first ++ [mkCopilotAccount "" "work" emptyCopilotAuth 0]) in
  ∃ a, cpa_ID <$> both = [a; a].
Proof. eexists. vm_compute. done. Qed.
