(* ===== verification/Routing.v ===== *)
(** * Routing: from a requested model to a provider and an upstream model

    [internal/routing]: umbrella selection ([selector.go]), the memory of the last
    successful target ([preferred_target.go]), the routing counters
    ([metrics.go]), redacted readiness ([diagnostics.go]) and the router itself
    ([router.go], with [RecordOutcome] of [cooldown.go]).

    An operation of the router takes the router and what it reads from outside, a
    [clock] (the instants at which it looks at the time, and whether the write of
    the cooldown file fails), and returns the router it leaves. *)

From S2P Require Import Prelude GoStd Provider Config Availability Cooldown.

(** ** Umbrella selection *)

(* src/internal/routing/selector.go SkippedTarget *)
Record SkippedTarget := mkSkipped {
  sk_Target : string; sk_Index : nat; sk_Reason : Reason; sk_CooldownUntil : Z;
}.

(* src/internal/routing/selector.go SelectionDecision *)
Record SelectionDecision := mkDecision {
  VirtualModelID : string;
  Strategy : string;
  SelectedTarget : string;
  SelectedIndex : nat;
  sd_Generation : Z;
  CatalogFetchedAt : Z;
  CatalogStale : bool;
  sd_Capability : string;
  Skipped : list SkippedTarget;
}.

(* src/internal/routing/selector.go NoActiveTargetError *)
Record NoActiveTargetError := mkNoActive {
  na_VirtualModel : string; na_Skipped : list SkippedTarget;
}.

Definition unix_or_zero (t : Time) : Z := if IsZero t then 0 else Unix t.

(** The verdict on one target: [inl] the availability result of the target to
    select, or [inr] the record of why it is skipped. *)
(* src/internal/routing/selector.go SelectPriorityTargetExcluding *)
Definition consider (snapshot : option Snapshot) (capability : string) (exclude : gset string)
    (index : nat) (target : string) : TargetResult + SkippedTarget :=
  let trimmed := TrimSpace target in
  if decide (trimmed ∈ exclude) then inr (mkSkipped target index ReasonAlreadyAttempted 0)
  else
    match StripModelPrefix trimmed with
    | (_, _, false) => inr (mkSkipped target index ReasonProviderNotRegistered 0)
    | (bare, providerID, true) =>
      let result := Evaluate snapshot providerID bare capability in
      if Routable result then inl result
      else inr (mkSkipped target index (tr_Reason result) (unix_or_zero (tr_CooldownUntil result)))
    end.

(* src/internal/routing/selector.go SelectPriorityTargetExcluding *)
Fixpoint select_loop (virtualModelID capability : string) (snapshot : option Snapshot)
    (exclude : gset string) (index : nat) (skipped : list SkippedTarget) (targets : list string)
    : result SelectionDecision NoActiveTargetError :=
  match targets with
  | [] => Err (mkNoActive virtualModelID skipped)
  | target :: targets =>
    match consider snapshot capability exclude index target with
    | inl result =>
      Ok (mkDecision virtualModelID VirtualModelStrategyPriority target index
            (tr_Generation result) (unix_or_zero (tr_CatalogFetchedAt result))
            (tr_CatalogStale result) capability skipped)
    | inr skip =>
      select_loop virtualModelID capability snapshot exclude (S index) (skipped ++ [skip]) targets
    end
  end.

(** A nil exclude map excludes nothing: the empty set. *)
(* src/internal/routing/selector.go SelectPriorityTargetExcluding *)
Definition SelectPriorityTargetExcluding (virtualModelID : string) (vm : VirtualModel)
    (capability : string) (snapshot : option Snapshot) (exclude : gset string)
    : result SelectionDecision NoActiveTargetError :=
  select_loop virtualModelID capability snapshot exclude 0 [] (elems (vm_Targets vm)).

(* src/internal/routing/selector.go SelectPriorityTarget *)
Definition SelectPriorityTarget (virtualModelID : string) (vm : VirtualModel)
    (capability : string) (snapshot : option Snapshot)
    : result SelectionDecision NoActiveTargetError :=
  SelectPriorityTargetExcluding virtualModelID vm capability snapshot ∅.

(** ** The last successful target of an umbrella model *)

(* src/internal/routing/preferred_target.go PreferredTargetRegistry *)
Definition PreferredTargetRegistry := gmap (string * string) string.

(* src/internal/routing/preferred_target.go PreferredTargetRegistry.Set *)
Definition Preferred_Set (virtualModel capability target : string)
    (r : PreferredTargetRegistry) : PreferredTargetRegistry :=
  if String.eqb virtualModel "" || String.eqb capability "" || String.eqb target "" then r
  else <[(virtualModel, capability) := target]> (r : gmap _ _).

(* src/internal/routing/preferred_target.go PreferredTargetRegistry.Get *)
Definition Preferred_Get (virtualModel capability : string) (r : PreferredTargetRegistry)
    : option string := (r : gmap _ _) !! (virtualModel, capability).

(* src/internal/routing/router.go reorderVMTargets *)
Definition reorderVMTargets (vm : VirtualModel) (preferredTarget : string) : VirtualModel :=
  let targets := elems (vm_Targets vm) in
  let same t := TrimSpace t = TrimSpace preferredTarget in
  if existsb (λ t, bool_decide (same t)) targets
  then mkVirtualModel (vm_Strategy vm) (Some (preferredTarget :: filter (λ t, ¬ same t) targets))
  else vm.

(** ** Counters *)

(* src/internal/routing/metrics.go Metrics *)
Record Metrics := mkMetrics {
  selections : gmap string Z;
  noActiveTarget : gmap string Z;
  skipped : gmap string Z;
  staleCatalog : gmap string Z;
  cooldownEntries : gmap string Z;
  cooldownExits : gmap string Z;
}.

(* src/internal/routing/metrics.go NewMetrics *)
Definition NewMetrics : Metrics := mkMetrics ∅ ∅ ∅ ∅ ∅ ∅.

Definition count (m : gmap string Z) (key : string) : Z := default 0%Z (m !! key).
Definition bump (key : string) (m : gmap string Z) : gmap string Z :=
  <[key := wrap_u64 (count m key + 1)]> m.

(* src/internal/routing/metrics.go metricKey *)
Definition metricKey (a b : string) : string := a +:+ nul +:+ b.

(* src/internal/routing/metrics.go splitKey *)
Fixpoint splitKey (key : string) : string * string :=
  match key with
  | "" => ("", "")
  | String c rest =>
    if Ascii.eqb c "000" then ("", rest)
    else let '(a, b) := splitKey rest in (String c a, b)
  end.

(* src/internal/routing/metrics.go Metrics.RecordCooldownEntry *)
Definition RecordCooldownEntry (target reason : string) (m : Metrics) : Metrics :=
  if String.eqb target "" || String.eqb reason "" then m
  else mkMetrics (selections m) (noActiveTarget m) (skipped m) (staleCatalog m)
         (bump (metricKey target reason) (cooldownEntries m)) (cooldownExits m).

(* src/internal/routing/metrics.go Metrics.RecordCooldownExit *)
Definition RecordCooldownExit (target reason : string) (m : Metrics) : Metrics :=
  if String.eqb target "" || String.eqb reason "" then m
  else mkMetrics (selections m) (noActiveTarget m) (skipped m) (staleCatalog m)
         (cooldownEntries m) (bump (metricKey target reason) (cooldownExits m)).

Definition record_skips (virtualModel : string) (skips : list SkippedTarget) (m : Metrics)
    : Metrics :=
  foldl (λ m skip,
    mkMetrics (selections m) (noActiveTarget m)
      (bump (metricKey (sk_Target skip) (Reason_string (sk_Reason skip))) (skipped m))
      (if decide (sk_Reason skip = ReasonCatalogStale)
       then bump virtualModel (staleCatalog m) else staleCatalog m)
      (cooldownEntries m) (cooldownExits m)) m skips.

(* src/internal/routing/metrics.go Metrics.RecordSelection *)
Definition RecordSelection (decision : SelectionDecision) (m : Metrics) : Metrics :=
  let m := mkMetrics
    (bump (metricKey (VirtualModelID decision) (SelectedTarget decision)) (selections m))
    (noActiveTarget m) (skipped m)
    (if CatalogStale decision then bump (VirtualModelID decision) (staleCatalog m)
     else staleCatalog m)
    (cooldownEntries m) (cooldownExits m) in
  record_skips (VirtualModelID decision) (Skipped decision) m.

(* src/internal/routing/metrics.go Metrics.RecordNoActiveTarget *)
Definition RecordNoActiveTarget (err : NoActiveTargetError) (m : Metrics) : Metrics :=
  record_skips (na_VirtualModel err) (na_Skipped err)
    (mkMetrics (selections m) (bump (na_VirtualModel err) (noActiveTarget m)) (skipped m)
       (staleCatalog m) (cooldownEntries m) (cooldownExits m)).

(* src/internal/routing/metrics.go Counter *)
Record Counter := mkCounter { c_Name : string; c_Labels : gmap string string; c_Value : Z }.

(* src/internal/routing/metrics.go labelString *)
Definition labelString (labels : gmap string string) : string :=
  foldl (λ s k, s +:+ k +:+ "=" +:+ default "" (labels !! k) +:+ ";") ""
    (sort_Strings (elements (dom labels))).

Definition counter_le (a b : Counter) : Prop :=
  if decide (c_Name a = c_Name b)
  then String.le (labelString (c_Labels a)) (labelString (c_Labels b))
  else String.le (c_Name a) (c_Name b).
#[global] Instance counter_le_dec : RelDecision counter_le.
Proof. intros a b. unfold counter_le. case_decide; apply _. Defined.

Definition pair_counters (name la lb : string) (m : gmap string Z) : list Counter :=
  (λ kv : string * Z, let '(a, b) := splitKey kv.1 in
    mkCounter name (<[la := a]> {[lb := b]}) kv.2) <$> map_to_list m.
Definition single_counters (name la : string) (m : gmap string Z) : list Counter :=
  (λ kv : string * Z, mkCounter name {[la := kv.1]} kv.2) <$> map_to_list m.

(* src/internal/routing/metrics.go Metrics.Snapshot *)
Definition Metrics_Snapshot (m : Metrics) : list Counter :=
  merge_sort counter_le
    (pair_counters "umbrella_selections_total" "virtual_model" "target" (selections m)
     ++ single_counters "umbrella_no_active_target_total" "virtual_model" (noActiveTarget m)
     ++ pair_counters "umbrella_skipped_targets_total" "target" "reason" (skipped m)
     ++ single_counters "umbrella_stale_catalog_total" "virtual_model" (staleCatalog m)
     ++ pair_counters "umbrella_cooldown_entries_total" "target" "reason" (cooldownEntries m)
     ++ pair_counters "umbrella_cooldown_exits_total" "target" "reason" (cooldownExits m)).

(** ** The router *)

(** [Result] in the code, where the provider is a pointer into the registry. *)
(* src/internal/routing/router.go Result *)
Record Result := mkRoute {
  res_Provider : Provider;
  ResolvedModel : string;
  Selection : option SelectionDecision;
}.

Inductive resolve_error :=
| MapsToUnknownProvider (model provider : string)
| MapsWithoutCapability (model provider capability : string)
| Ambiguous (model : string) (providers : list string)
| ModelUnavailable (model capability : string)
| PrefixNotRegistered (model provider : string)
| PrefixWithoutCapability (model provider capability : string)
| PrefixUnavailable (model capability provider : string)
| DefaultProviderUnavailable (model provider : string)
| DefaultWithoutCapability (provider capability : string)
| NoActiveTarget (e : NoActiveTargetError).

(** What one operation reads of the time: the instant at which the cooldowns of
    each provider are read, the instant of the snapshot, and the fault, if any,
    of the writes of the cooldown file. *)
Record clock := mkClock {
  cooldowns_read : string → Time; snapshot_built : Time; write_fault : option persist_fault;
}.

(* src/internal/routing/router.go hasCapability *)
Definition hasCapability (registered : Provider) (capability : string) : bool :=
  existsb (String.eqb capability) (p_Capabilities registered).

(** The providers of the registry, in registration order; [Registry.All_spec] shows
    that a registry has no nil among them. *)
Definition registered_providers (r : Registry.t) : list Provider := omap id (Registry.All r).

Section router.
Context {Bytes : Type} `{StateCodec Bytes}.

(* src/internal/routing/router.go Router *)
Record Router := mkRouter {
  registry : Registry.t;
  routing : Routing;
  generation : Z;
  metrics : Metrics;
  cooldowns : CooldownRegistry Bytes;
  preferred : PreferredTargetRegistry;
}.

(** A nil model map behaves as the empty one everywhere the router reads it. *)
(* src/internal/routing/router.go NewRouterWithRegistries *)
Definition NewRouterWithRegistries (registry : Registry.t) (config : Routing)
    (cooldowns : option (CooldownRegistry Bytes)) (preferred : option PreferredTargetRegistry)
    : Router :=
  mkRouter registry config 0 NewMetrics (default NewCooldownRegistry cooldowns)
    (default (∅ : gmap _ _) preferred).

(* src/internal/routing/router.go NewRouter *)
Definition NewRouter (registry : Registry.t) (config : Routing) : Router :=
  NewRouterWithRegistries registry config None None.

(* src/internal/routing/router.go Router.SetGeneration *)
Definition SetGeneration (g : Z) (r : Router) : Router :=
  mkRouter (registry r) (routing r) g (metrics r) (cooldowns r) (preferred r).

Definition with_metrics (m : Metrics) (r : Router) : Router :=
  mkRouter (registry r) (routing r) (generation r) m (cooldowns r) (preferred r).
Definition with_cooldowns (c : CooldownRegistry Bytes) (r : Router) : Router :=
  mkRouter (registry r) (routing r) (generation r) (metrics r) c (preferred r).
Definition with_preferred (p : PreferredTargetRegistry) (r : Router) : Router :=
  mkRouter (registry r) (routing r) (generation r) (metrics r) (cooldowns r) p.

(** One provider's view, and the router after its cooldowns were read. *)
(* src/internal/routing/router.go Router.buildAvailabilitySnapshot *)
Definition provider_view (c : clock) (r : Router) (p : Provider) : Router * ProviderView :=
  let '(cd, (active, expired)) :=
    Cooldowns (cooldowns_read c (p_ID p)) (write_fault c) (p_ID p) (cooldowns r) in
  let m := foldl (λ m cooldown,
    RecordCooldownExit (AddModelPrefix (p_ID p) (cd_Model cooldown)) "expired" m)
    (metrics r) expired in
  let '(present, models, fetchedAt, stale) :=
    match p_LastKnownModels p with
    | Some (Some (models, fetchedAt, stale)) => (true, models, fetchedAt, stale)
    | _ => (false, [], zeroTime, false)
    end in
  (with_metrics m (with_cooldowns cd r),
   mkView (p_ID p) false (Authenticated (p_Health p)) (p_Capabilities p)
     (default [] (p_AllowedModelIDs p)) present stale fetchedAt models active).

(* src/internal/routing/router.go Router.buildAvailabilitySnapshot *)
Fixpoint provider_views (c : clock) (r : Router) (ps : list Provider)
    : Router * list ProviderView :=
  match ps with
  | [] => (r, [])
  | p :: ps =>
    let '(r, view) := provider_view c r p in
    let '(r, views) := provider_views c r ps in
    (r, view :: views)
  end.

(* src/internal/routing/router.go Router.buildAvailabilitySnapshot *)
Definition buildAvailabilitySnapshot (c : clock) (r : Router) : Router * Snapshot :=
  let '(r, views) := provider_views c r (registered_providers (registry r)) in
  (r, NewSnapshot (generation r) (snapshot_built c) views).

(* src/internal/routing/router.go Router.resolveVirtualModelExcluding *)
Definition resolveVirtualModelExcluding (c : clock) (virtualID : string) (vm : VirtualModel)
    (capability : string) (exclude : gset string) (r : Router)
    : Router * result Result resolve_error :=
  let orderedVM :=
    if String.eqb (vm_Strategy vm) VirtualModelStrategyPriority
    then match Preferred_Get virtualID capability (preferred r) with
         | Some preferredTarget =>
           if String.eqb preferredTarget "" then vm else reorderVMTargets vm preferredTarget
         | None => vm
         end
    else vm in
  let '(r, snapshot) := buildAvailabilitySnapshot c r in
  match SelectPriorityTargetExcluding virtualID orderedVM capability (Some snapshot) exclude with
  | Err e => (with_metrics (RecordNoActiveTarget e (metrics r)) r, Err (NoActiveTarget e))
  | Ok decision =>
    let '(bare, providerID, _) := StripModelPrefix (TrimSpace (SelectedTarget decision)) in
    match Registry.Get (registry r) providerID with
    | Err _ =>
      let e := mkNoActive virtualID
        (Skipped decision ++ [mkSkipped (SelectedTarget decision) (SelectedIndex decision)
           ReasonProviderNotRegistered 0]) in
      (with_metrics (RecordNoActiveTarget e (metrics r)) r, Err (NoActiveTarget e))
    | Ok registered =>
      (with_metrics (RecordSelection decision (metrics r)) r,
       Ok (mkRoute registered bare (Some decision)))
    end
  end.

(* src/internal/routing/router.go Router.resolveVirtualModel *)
Definition resolveVirtualModel (c : clock) (virtualID : string) (vm : VirtualModel)
    (capability : string) (r : Router) : Router * result Result resolve_error :=
  resolveVirtualModelExcluding c virtualID vm capability ∅ r.

(* src/internal/routing/router.go Router.ResolveNext *)
Definition ResolveNext (c : clock) (virtualID capability : string) (exclude : gset string)
    (r : Router) : Router * result Result resolve_error :=
  match VirtualModels (routing r) !! virtualID with
  | None => (r, Err (NoActiveTarget (mkNoActive virtualID [])))
  | Some vm => resolveVirtualModelExcluding c virtualID vm capability exclude r
  end.

Definition offers (p : Provider) (model : string) : bool :=
  match p_ListModels p with
  | Ok (Some models) => existsb (λ m, EqualFold m model) models
  | _ => false
  end.

(* src/internal/routing/router.go Router.resolveWithPrefix *)
Definition resolveWithPrefix (fullModel bareModel providerID capability : string) (r : Router)
    : result Result resolve_error :=
  match Registry.Get (registry r) providerID with
  | Err _ => Err (PrefixNotRegistered fullModel providerID)
  | Ok registered =>
    if negb (hasCapability registered capability)
    then Err (PrefixWithoutCapability fullModel providerID capability)
    else if offers registered bareModel then Ok (mkRoute registered bareModel None)
    else Err (PrefixUnavailable fullModel capability providerID)
  end.

(* src/internal/routing/router.go Router.discoverFromCatalogs *)
Definition discoverFromCatalogs (model capability : string) (r : Router) : list Result :=
  (λ p, mkRoute p model None) <$>
    filter (λ p, hasCapability p capability = true ∧ offers p model = true)
      (registered_providers (registry r)).

(* src/internal/routing/router.go Router.defaultProviderRoute *)
Definition defaultProviderRoute (model capability : string) (r : Router)
    : result Result resolve_error :=
  let providerID :=
    if String.eqb (DefaultProvider (routing r)) "" then Copilot else DefaultProvider (routing r) in
  match Registry.Get (registry r) providerID with
  | Err _ => Err (DefaultProviderUnavailable model providerID)
  | Ok registered =>
    if negb (hasCapability registered capability)
    then Err (DefaultWithoutCapability providerID capability)
    else Ok (mkRoute registered model None)
  end.

(* src/internal/routing/router.go Router.Resolve *)
Definition Resolve (c : clock) (requestedModel capability : string) (r : Router)
    : Router * result Result resolve_error :=
  let usedDefaultModel := String.eqb requestedModel "" in
  let model := if usedDefaultModel then DefaultModel (routing r) else requestedModel in
  let '(bareModel, prefixProvider, hasPrefix) := StripModelPrefix model in
  let mapped :=
    match ModelMap (routing r) !! model with
    | Some entry => Some entry
    | None => if hasPrefix then ModelMap (routing r) !! bareModel else None
    end in
  match mapped with
  | Some entry =>
    match Registry.Get (registry r) (mm_Provider entry) with
    | Err _ => (r, Err (MapsToUnknownProvider model (mm_Provider entry)))
    | Ok registered =>
      if negb (hasCapability registered capability)
      then (r, Err (MapsWithoutCapability model (p_ID registered) capability))
      else
        let upstream :=
          if String.eqb (mm_UpstreamModel entry) "" then bareModel else mm_UpstreamModel entry in
        (r, Ok (mkRoute registered upstream None))
    end
  | None =>
    if hasPrefix then (r, resolveWithPrefix model bareModel prefixProvider capability r)
    else
      match VirtualModels (routing r) !! model with
      | Some vm => resolveVirtualModel c model vm capability r
      | None =>
        match discoverFromCatalogs model capability r with
        | [] =>
          if negb usedDefaultModel then (r, Err (ModelUnavailable model capability))
          else (r, defaultProviderRoute model capability r)
        | [candidate] => (r, Ok candidate)
        | candidates =>
          (r, Err (Ambiguous model ((λ res, p_ID (res_Provider res)) <$> candidates)))
        end
      end
  end.

(* src/internal/routing/router.go Router.RecordPreferred *)
Definition RecordPreferred (virtualID capability target : string) (r : Router) : Router :=
  match VirtualModels (routing r) !! virtualID with
  | Some vm =>
    if String.eqb (vm_Strategy vm) VirtualModelStrategyPriority
    then with_preferred (Preferred_Set virtualID capability target (preferred r)) r
    else r
  | None => r
  end.

(* src/internal/routing/router.go Router.VirtualModelIDs *)
Definition VirtualModelIDs (r : Router) : list string := elements (dom (VirtualModels (routing r))).

End router.
Arguments Router : clear implicits.

(** ** Feedback from a dispatched request *)

(** A Go error, as far as the code asks: is it (or does it wrap) the context's
    cancellation, or its deadline. *)
Record goerror := mkError { IsCanceled : bool; IsDeadlineExceeded : bool }.

(* src/internal/routing/cooldown.go cooldownReason *)
Definition cooldownReason (status : Z) (err : option goerror) : option string :=
  let err_is f := match err with Some e => f e | None => false end in
  if err_is IsCanceled then None
  else if err_is IsDeadlineExceeded || (status =? StatusRequestTimeout)%Z
          || (status =? StatusGatewayTimeout)%Z
  then Some CooldownTimeout
  else if (status =? StatusTooManyRequests)%Z then Some CooldownRateLimited
  else if (status =? StatusUnauthorized)%Z then Some CooldownAuthRequired
  else if (status =? StatusPaymentRequired)%Z || (status =? StatusForbidden)%Z
  then Some CooldownEntitlementDenied
  else if (StatusInternalServerError <=? status)%Z || bool_decide (is_Some err)
  then Some CooldownTransientFailure
  else None.

(* src/internal/routing/cooldown.go cooldownPolicy *)
Definition cooldownPolicy (status : Z) (err : option goerror) (retryAfter : Duration)
    : option (string * Duration) :=
  match cooldownReason status err with
  | None => None
  | Some reason =>
    if (status =? StatusPaymentRequired)%Z || (status =? StatusForbidden)%Z
    then Some (CooldownQuotaExhausted, retryAfter)
    else if (status =? StatusTooManyRequests)%Z
    then if (0 <? retryAfter)%Z && (retryAfter <=? maxCooldown)%Z
         then Some (CooldownRateLimited, retryAfter)
         else Some (CooldownQuotaExhausted, retryAfter)
    else Some (reason, retryAfter)
  end.

(** The outcome of a dispatched request is a success that clears. *)
Definition outcome_success (status : Z) (err : option goerror) : bool :=
  ((StatusOK <=? status) && (status <? StatusMultipleChoices))%Z
  && match err with None => true | Some _ => false end.

(* src/internal/routing/diagnostics.go TargetReadiness *)
Record TargetReadiness := mkReadiness {
  rd_Target : string;
  rd_Index : nat;
  rd_Routable : bool;
  rd_Reason : Reason;
  rd_CooldownUntil : Z;
  rd_CooldownReason : string;
  rd_CatalogFetchedAt : Z;
  rd_CatalogStale : bool;
}.

(* src/internal/routing/diagnostics.go VirtualModelReadiness *)
Record VirtualModelReadiness := mkSummary {
  vr_VirtualModel : string;
  vr_Strategy : string;
  vr_Capability : string;
  vr_Generation : Z;
  vr_SelectedTarget : string;
  vr_Active : bool;
  vr_Targets : list TargetReadiness;
}.

(** Unlike the selector, the diagnostics classify a target as it is written. *)
(* src/internal/routing/diagnostics.go Router.VirtualModelReadinessFor *)
Definition target_readiness (snapshot : option Snapshot) (capability : string) (index : nat)
    (target : string) : TargetReadiness :=
  match StripModelPrefix target with
  | (_, _, false) => mkReadiness target index false ReasonProviderNotRegistered 0 "" 0 false
  | (bare, providerID, true) =>
    let result := Evaluate snapshot providerID bare capability in
    mkReadiness target index (Routable result) (tr_Reason result)
      (unix_or_zero (tr_CooldownUntil result)) (tr_CooldownReason result)
      (unix_or_zero (tr_CatalogFetchedAt result)) (tr_CatalogStale result)
  end.

(* src/internal/routing/diagnostics.go Router.VirtualModelReadinessFor *)
Definition readiness_of (snapshot : option Snapshot) (capability id : string) (vm : VirtualModel)
    : VirtualModelReadiness :=
  let targets := imap (target_readiness snapshot capability) (elems (vm_Targets vm)) in
  let first := find_index (λ t, if rd_Routable t then Some (rd_Target t) else None) targets in
  mkSummary id (vm_Strategy vm) capability (Availability.Generation snapshot)
    (default "" (snd <$> first)) (bool_decide (is_Some first)) targets.

Section feedback.
Context {Bytes : Type} `{StateCodec Bytes}.

(* src/internal/routing/cooldown.go Router.RecordOutcome *)
Definition RecordOutcome (now : Time) (fault : option persist_fault)
    (decision : option SelectionDecision) (status : Z) (err : option goerror)
    (retryAfter : Duration) (r : Router Bytes) : Router Bytes :=
  match decision with
  | None => r
  | Some decision =>
    match StripModelPrefix (SelectedTarget decision) with
    | (_, _, false) => r
    | (bare, providerID, true) =>
      if outcome_success status err
      then
        let '(cd, cleared) := Clear fault providerID bare (sd_Capability decision) (cooldowns r) in
        let r := with_cooldowns cd r in
        if cleared then with_metrics
          (RecordCooldownExit (SelectedTarget decision) "recovered" (metrics r)) r
        else r
      else
        match cooldownPolicy status err retryAfter with
        | None => r
        | Some (reason, hint) =>
          let '(cd, entered) :=
            Record_ now fault providerID bare (sd_Capability decision) reason hint (cooldowns r) in
          let r := with_cooldowns cd r in
          match entered with
          | Some _ => with_metrics
              (RecordCooldownEntry (SelectedTarget decision) reason (metrics r)) r
          | None => r
          end
        end
    end
  end.

(* src/internal/routing/diagnostics.go Router.VirtualModelReadinessFor *)
Definition VirtualModelReadinessFor (capability : string) (snapshot : option Snapshot)
    (r : Router Bytes) : list VirtualModelReadiness :=
  omap (λ id, readiness_of snapshot capability id <$> VirtualModels (routing r) !! id)
    (sort_Strings (VirtualModelIDs r)).

(* src/internal/routing/diagnostics.go Router.AvailabilitySnapshot *)
Definition AvailabilitySnapshot (c : clock) (r : Router Bytes) : Router Bytes * Snapshot :=
  buildAvailabilitySnapshot c r.

End feedback.

(** ** Facts about selection *)

(** A target the selector may choose: not excluded, under a known prefix, and
    routable in the snapshot. *)
Definition selectable (snapshot : option Snapshot) (capability : string) (exclude : gset string)
    (target : string) : Prop :=
  TrimSpace target ∉ exclude ∧
  ∃ id bare, routed_provider id ∧ TrimSpace target = ProviderPrefix id +:+ bare
    ∧ Routable (Evaluate snapshot id bare capability) = true.

Lemma consider_inl snapshot capability exclude i t res :
  consider snapshot capability exclude i t = inl res →
  selectable snapshot capability exclude t.
Proof.
  unfold consider, selectable. case_decide as Hex; [done|].
  destruct (StripModelPrefix (TrimSpace t)) as [[bare id] []] eqn:Hs; [|done].
  case_match eqn:Hr; [|done]. intros _. apply StripModelPrefix_true in Hs as [? ?].
  split; [done|]. by exists id, bare.
Qed.

Lemma consider_inr snapshot capability exclude i t skip :
  consider snapshot capability exclude i t = inr skip →
  ¬ selectable snapshot capability exclude t
  ∧ sk_Target skip = t ∧ sk_Index skip = i
  ∧ (sk_Reason skip = ReasonAlreadyAttempted ↔ TrimSpace t ∈ exclude)
  ∧ sk_Reason skip ≠ ReasonRoutable.
Proof.
  unfold consider, selectable. case_decide as Hex.
  { intros [= <-]. simpl. naive_solver. }
  destruct (StripModelPrefix (TrimSpace t)) as [[bare id] []] eqn:Hs.
  - pose proof (Evaluate_reason snapshot id bare capability) as (Hiff & Hst & Hat & _).
    case_match eqn:Hr; [done|]. intros [= <-]. simpl.
    split_and!; [|done|done|naive_solver|naive_solver].
    intros (_ & id' & bare' & Hid & Heq & Hrt).
    assert (StripModelPrefix (TrimSpace t) = (bare', id', true))
      by (by apply StripModelPrefix_true). congruence.
  - intros [= <-]. simpl. split_and!; [|done|done|naive_solver|done].
    intros (_ & id' & bare' & Hid & Heq & Hrt).
    assert (StripModelPrefix (TrimSpace t) = (bare', id', true))
      by (by apply StripModelPrefix_true). congruence.
Qed.

(** A skip list that accounts for the targets from position [i] on. *)
Definition accounts (exclude : gset string) (i : nat) (targets : list string)
    (skips : list SkippedTarget) : Prop :=
  sk_Target <$> skips = targets ∧ sk_Index <$> skips = seq i (length targets)
  ∧ Forall (λ s, sk_Reason s ≠ ReasonRoutable
      ∧ (sk_Reason s = ReasonAlreadyAttempted ↔ TrimSpace (sk_Target s) ∈ exclude)) skips.

Lemma select_loop_Ok vid capability snapshot exclude i skips targets d :
  select_loop vid capability snapshot exclude i skips targets = Ok d →
  ∃ before, take (length before) targets = before
    ∧ targets !! length before = Some (SelectedTarget d)
    ∧ SelectedIndex d = i + length before
    ∧ selectable snapshot capability exclude (SelectedTarget d)
    ∧ Forall (λ t, ¬ selectable snapshot capability exclude t) before
    ∧ sd_Capability d = capability ∧ VirtualModelID d = vid
    ∧ ∃ skips', Skipped d = skips ++ skips' ∧ accounts exclude i before skips'.
Proof.
  revert i skips; induction targets as [|t targets IH]; intros i skips; simpl; [done|].
  destruct (consider snapshot capability exclude i t) as [res|skip] eqn:Hc.
  - intros [= <-]. exists []. simpl. split_and!; [done|done|lia|by eapply consider_inl|done..|].
    exists []. by rewrite app_nil_r.
  - apply consider_inr in Hc as (Hns & Ht & Hi & Hr & Hnr).
    intros (before & Hb & Hl & Hidx & Hsel & Hall & ? & ? & skips' & Hsk & Hm & Hix & HF)%IH.
    exists (t :: before). simpl. split_and!; [by rewrite Hb|done|lia|done|by constructor|done|done|].
    exists (skip :: skips'). split; [by rewrite Hsk, <-app_assoc|].
    split_and!; csimpl; [by rewrite Ht, Hm|by rewrite Hi, Hix|]. constructor; [|done].
    rewrite Ht. done.
Qed.

Lemma select_loop_Err vid capability snapshot exclude i skips targets e :
  select_loop vid capability snapshot exclude i skips targets = Err e →
  na_VirtualModel e = vid ∧ Forall (λ t, ¬ selectable snapshot capability exclude t) targets
  ∧ ∃ skips', na_Skipped e = skips ++ skips' ∧ accounts exclude i targets skips'.
Proof.
  revert i skips; induction targets as [|t targets IH]; intros i skips; simpl.
  { intros [= <-]. split_and!; [done..|]. exists []. by rewrite app_nil_r. }
  destruct (consider snapshot capability exclude i t) as [res|skip] eqn:Hc; [done|].
  apply consider_inr in Hc as (Hns & Ht & Hi & Hr & Hnr).
  intros (Hv & Hall & skips' & Hsk & Hm & Hix & HF)%IH.
  split_and!; [done|by constructor|]. exists (skip :: skips').
  split; [by rewrite Hsk, <-app_assoc|].
  split_and!; csimpl; [by rewrite Ht, Hm|by rewrite Hi, Hix|]. constructor; [|done].
  rewrite Ht. done.
Qed.

(** ** Facts about the router *)
Section router_facts.
Context {Bytes : Type} `{StateCodec Bytes}.
Implicit Types r : Router Bytes.

Definition same_config r r' : Prop :=
  registry r' = registry r ∧ routing r' = routing r ∧ generation r' = generation r
  ∧ preferred r' = preferred r.

(** The view a provider contributes, whatever cooldowns it was given. *)
Definition view_of (p : Provider) (v : ProviderView) : Prop :=
  v_ID v = p_ID p ∧ v_Disabled v = false ∧ v_Ready v = Authenticated (p_Health p)
  ∧ v_Capabilities v = p_Capabilities p ∧ v_AllowedModels v = default [] (p_AllowedModelIDs p)
  ∧ (v_CatalogPresent v = true → ∃ t s, p_LastKnownModels p = Some (Some (v_CatalogModels v, t, s))).

Definition reading (c : clock) (o : op) : Prop :=
  ∃ id, o = OpCooldowns (cooldowns_read c id) (write_fault c) id.

Lemma provider_view_spec c r p r' v :
  provider_view c r p = (r', v) →
  same_config r r' ∧ view_of p v
  ∧ cooldowns r' = step (cooldowns r) (OpCooldowns (cooldowns_read c (p_ID p)) (write_fault c) (p_ID p))
  ∧ v_Cooldowns v = (snd (Cooldowns (cooldowns_read c (p_ID p)) (write_fault c) (p_ID p)
                            (cooldowns r))).1.
Proof.
  unfold provider_view, step. destruct (Cooldowns _ _ _ _) as [cd [active expired]].
  destruct (p_LastKnownModels p) as [[[[models fetched] stale]|]|] eqn:Hl; intros [= <- <-];
    (split_and!; [done| |done|done]); unfold view_of; simpl; rewrite ?Hl; naive_solver.
Qed.

Lemma provider_views_spec c r ps r' views :
  provider_views c r ps = (r', views) →
  same_config r r'
  ∧ (∃ ops, Forall (reading c) ops ∧ cooldowns r' = foldl step (cooldowns r) ops)
  ∧ Forall2 (λ p v, view_of p v ∧ ∃ ops, Forall (reading c) ops ∧
      v_Cooldowns v = (snd (Cooldowns (cooldowns_read c (p_ID p)) (write_fault c) (p_ID p)
                              (foldl step (cooldowns r) ops))).1) ps views.
Proof.
  revert r r' views; induction ps as [|p ps IH]; intros r r' views; simpl.
  { intros [= <- <-]. split_and!; [done|exists []; done|done]. }
  destruct (provider_view c r p) as [r1 v] eqn:Hv.
  destruct (provider_views c r1 ps) as [r2 vs] eqn:Hvs. intros [= <- <-].
  apply provider_view_spec in Hv as ((Hr1 & Hr2 & Hr3 & Hr4) & Hvo & Hcd & Hact).
  apply IH in Hvs as ((? & ? & ? & ?) & (ops & Hops & Hcd') & Hall).
  split_and!; [repeat split; congruence| |constructor].
  - exists (OpCooldowns (cooldowns_read c (p_ID p)) (write_fault c) (p_ID p) :: ops). split.
    + constructor; [by exists (p_ID p)|done].
    + rewrite Hcd', Hcd. done.
  - split; [done|]. exists []. split; [constructor|done].
  - eapply Forall2_impl; [exact Hall|]. intros q w [Hq (ops' & Hops' & Hw)]. split; [done|].
    exists (OpCooldowns (cooldowns_read c (p_ID p)) (write_fault c) (p_ID p) :: ops'). split.
    + constructor; [by exists (p_ID p)|done].
    + rewrite Hw, Hcd. done.
Qed.

Lemma registered_providers_spec (reg : Registry.t) p :
  Registry.wf reg →
  p ∈ registered_providers reg ↔ Registry.providers reg !! p_ID p = Some p.
Proof.
  intros Hwf. destruct (Registry.All_spec reg Hwf) as (l & Hl & _ & Hin).
  unfold registered_providers. rewrite Hl, <-Hin.
  replace (omap id (Some <$> l)) with l; [done|].
  clear. induction l as [|x l IH]; csimpl; [done|]. by rewrite <-IH.
Qed.

Lemma registered_providers_NoDup (reg : Registry.t) :
  Registry.wf reg → NoDup (p_ID <$> registered_providers reg).
Proof.
  intros Hwf. destruct (Registry.All_spec reg Hwf) as (l & Hl & Ho & _).
  unfold registered_providers. rewrite Hl.
  replace (omap id (Some <$> l)) with l.
  - rewrite Ho. apply Hwf.
  - clear. induction l as [|x l IH]; csimpl; [done|]. by rewrite <-IH.
Qed.

Lemma Evaluate_routable_view g t views id m c :
  Routable (Evaluate (Some (NewSnapshot g t views)) id m c) = true →
  ∃ view, view ∈ views ∧ v_ID view = id.
Proof.
  unfold Evaluate. rewrite NewSnapshot_lookup.
  destruct (last (filter (λ v, v_ID v = id) views)) as [view|] eqn:Hl; [|done].
  intros _. apply last_Some_elem_of, list_elem_of_filter in Hl as [Hid Hin]. by exists view.
Qed.

(** What a router knows of a target its snapshot calls routable. *)
Record routed (c : clock) r (id bare capability : string) (p : Provider) : Prop := {
  rt_registered : Registry.providers (registry r) !! id = Some p;
  rt_ready : Authenticated (p_Health p) = true;
  rt_capability : capability ∈ p_Capabilities p;
  rt_allowed : default [] (p_AllowedModelIDs p) = [] ∨
    normalizeModel bare ∈ normalizeModel <$> default [] (p_AllowedModelIDs p);
  rt_catalog : ∃ models t s, p_LastKnownModels p = Some (Some (models, t, s))
    ∧ normalizeModel bare ∈ normalizeModel <$> models;
  rt_cooldown : ∃ view ops, Forall (reading c) ops
    ∧ v_Cooldowns view = (snd (Cooldowns (cooldowns_read c id) (write_fault c) id
                              (foldl step (cooldowns r) ops))).1
    ∧ ¬ active_cooldown (snapshot_built c) view bare capability;
}.

Lemma snapshot_routed c r r' snapshot id bare capability :
  Registry.wf (registry r) → (0 ≤ snapshot_built c)%Z →
  buildAvailabilitySnapshot c r = (r', snapshot) →
  Routable (Evaluate (Some snapshot) id bare capability) = true →
  same_config r r' ∧ (∃ ops, Forall (reading c) ops ∧ cooldowns r' = foldl step (cooldowns r) ops)
  ∧ ∃ p, routed c r id bare capability p.
Proof.
  intros Hwf H0. unfold buildAvailabilitySnapshot.
  destruct (provider_views _ _ _) as [r1 views] eqn:Hv. intros [= <- <-] Hr.
  apply provider_views_spec in Hv as (Hcfg & Hops & Hall). split_and!; [done..|].
  pose proof (registered_providers_NoDup _ Hwf) as Hnd.
  assert (v_ID <$> views = p_ID <$> registered_providers (registry r)) as Hids.
  { clear -Hall. induction Hall as [|p v ps vs [(Hv & _) _] _ IH]; csimpl; congruence. }
  destruct (Evaluate_routable_view _ _ _ _ _ _ Hr) as (view & Hin & <-).
  apply Evaluate_routable_spec in Hr; [|done|by rewrite Hids|done].
  apply list_elem_of_lookup in Hin as [i Hi].
  destruct (Forall2_lookup_r _ _ _ _ _ Hall Hi) as
    (p & Hp & (Hid & _ & Hready & Hcap & Hallow & Hcat) & ops & Hfr & Hcd).
  apply list_elem_of_lookup_2, registered_providers_spec in Hp; [|done].
  destruct Hr as [Hd Hrd Hc Hco Hal Hpr Hm]. exists p. split.
  - by rewrite Hid.
  - congruence.
  - congruence.
  - by rewrite <-Hallow.
  - destruct (Hcat Hpr) as (t & s & Hlk). by exists (v_CatalogModels view), t, s.
  - exists view, ops. by rewrite Hid.
Qed.

Lemma elem_of_reorder vm p t :
  t ∈ elems (vm_Targets (reorderVMTargets vm p)) →
  ∃ t', t' ∈ elems (vm_Targets vm) ∧ TrimSpace t' = TrimSpace t.
Proof.
  unfold reorderVMTargets. destruct (existsb _ _) eqn:He; [|by exists t].
  apply existsb_exists in He as (t' & Hin & Heq). reflect_bools.
  apply list_elem_of_In in Hin. simpl. rewrite elem_of_cons, list_elem_of_filter.
  intros [->|[_ Ht]]; [by exists t'|by exists t].
Qed.

Lemma resolveVirtualModelExcluding_Ok c vid vm capability exclude r r' res :
  Registry.wf (registry r) → (0 ≤ snapshot_built c)%Z →
  resolveVirtualModelExcluding c vid vm capability exclude r = (r', Ok res) →
  ∃ d target, Selection res = Some d ∧ sd_Capability d = capability
    ∧ TrimSpace (SelectedTarget d) ∉ exclude
    ∧ target ∈ elems (vm_Targets vm) ∧ TrimSpace target = TrimSpace (SelectedTarget d)
    ∧ routed_provider (p_ID (res_Provider res))
    ∧ TrimSpace (SelectedTarget d) = ProviderPrefix (p_ID (res_Provider res)) +:+ ResolvedModel res
    ∧ routed c r (p_ID (res_Provider res)) (ResolvedModel res) capability (res_Provider res).
Proof.
  intros Hwf H0. unfold resolveVirtualModelExcluding.
  set (ordered := if String.eqb (vm_Strategy vm) VirtualModelStrategyPriority then _ else vm).
  assert (∀ t, t ∈ elems (vm_Targets ordered) →
    ∃ t', t' ∈ elems (vm_Targets vm) ∧ TrimSpace t' = TrimSpace t) as Hord.
  { subst ordered. intros t. repeat case_match; try apply elem_of_reorder; by exists t. }
  clearbody ordered.
  destruct (buildAvailabilitySnapshot c r) as [r1 snapshot] eqn:Hb.
  destruct (SelectPriorityTargetExcluding _ _ _ _ _) as [d|e] eqn:Hsel; [|done].
  apply select_loop_Ok in Hsel as (before & _ & Hl & _ & (Hex & id & bare & Hid & Heq & Hrt) & _ & Hcap & _).
  assert (StripModelPrefix (TrimSpace (SelectedTarget d)) = (bare, id, true)) as ->
    by (by apply StripModelPrefix_true).
  destruct (snapshot_routed _ _ _ _ _ _ _ Hwf H0 Hb Hrt) as ((Hreg & _) & _ & p & Hp).
  unfold Registry.Get. rewrite Hreg, (rt_registered _ _ _ _ _ _ Hp). intros [= <- <-]. simpl.
  pose proof (Registry.wf_key _ Hwf _ _ (rt_registered _ _ _ _ _ _ Hp)) as Hkey.
  apply list_elem_of_lookup_2, Hord in Hl as (t' & Ht' & Htrim).
  exists d, t'. by rewrite Hkey.
Qed.

Lemma hasCapability_iff p c : hasCapability p c = true ↔ c ∈ p_Capabilities p.
Proof.
  unfold hasCapability. rewrite existsb_exists. setoid_rewrite <-list_elem_of_In.
  setoid_rewrite String.eqb_eq. naive_solver.
Qed.

Lemma Registry_Get_Ok (reg : Registry.t) id p :
  Registry.wf reg → Registry.Get reg id = Ok p →
  p_ID p = id ∧ Registry.providers reg !! p_ID p = Some p.
Proof.
  intros Hwf. unfold Registry.Get. destruct (_ !! id) as [q|] eqn:E; [|done].
  intros [= ->]. rewrite (Registry.wf_key _ Hwf _ _ E). done.
Qed.

End router_facts.

(** ** Histories of a router *)
Section router_histories.
Context {Bytes : Type} `{StateCodec Bytes}.
Implicit Types r : Router Bytes.

Inductive rop :=
| RResolve (c : clock) (model capability : string)
| RResolveNext (c : clock) (virtualID capability : string) (exclude : gset string)
| ROutcome (now : Time) (fault : option persist_fault) (decision : option SelectionDecision)
    (status : Z) (err : option goerror) (retryAfter : Duration)
| RPreferred (virtualID capability target : string).

Definition rstep r (o : rop) : Router Bytes :=
  match o with
  | RResolve c model capability => fst (Resolve c model capability r)
  | RResolveNext c vid capability exclude => fst (ResolveNext c vid capability exclude r)
  | ROutcome now fault d status err retryAfter => RecordOutcome now fault d status err retryAfter r
  | RPreferred vid capability target => RecordPreferred vid capability target r
  end.

(** An operation that does not clear the cooldown at [key] before [t]: it reads the
    time before [t], and is not the report of a success of that very target. *)
Definition rkeeps (key : string) (t : Time) (o : rop) : Prop :=
  match o with
  | RResolve c _ _ | RResolveNext c _ _ _ => ∀ id, (cooldowns_read c id < t)%Z
  | ROutcome now fault (Some d) status err _ =>
    no_nul (sd_Capability d) ∧
    ∀ bare id, StripModelPrefix (SelectedTarget d) = (bare, id, true) →
      outcome_success status err = true → cooldownEntryKey id bare (sd_Capability d) ≠ key
  | _ => True
  end.

Definition cooldown_steps (key : string) (t : Time) r r' : Prop :=
  registry r' = registry r ∧
  ∃ ops, cooldowns r' = foldl step (cooldowns r) ops ∧ Forall (keeps key t) ops ∧ Forall plain_op ops.

Lemma cooldown_steps_refl key t r r' :
  registry r' = registry r → cooldowns r' = cooldowns r → cooldown_steps key t r r'.
Proof. intros Hr Hc. split; [done|]. by exists []. Qed.

Lemma reading_keeps c key t ops :
  (∀ id, (cooldowns_read c id < t)%Z) → Forall (reading c) ops →
  Forall (keeps key t) ops ∧ Forall plain_op ops.
Proof.
  intros Ht Hops. split; (eapply Forall_impl; [exact Hops|]); intros o [id ->]; simpl; auto.
Qed.

Lemma resolveVirtualModelExcluding_steps c vid vm capability exclude key t r :
  (∀ id, (cooldowns_read c id < t)%Z) →
  cooldown_steps key t r (fst (resolveVirtualModelExcluding c vid vm capability exclude r)).
Proof.
  intros Ht. unfold resolveVirtualModelExcluding, buildAvailabilitySnapshot.
  generalize (if String.eqb (vm_Strategy vm) VirtualModelStrategyPriority
    then match Preferred_Get vid capability (preferred r) with
         | Some p => if String.eqb p "" then vm else reorderVMTargets vm p
         | None => vm end
    else vm). intros ordered.
  destruct (provider_views _ _ _) as [r1 views] eqn:Hv.
  apply provider_views_spec in Hv as ((Hreg & _) & (ops & Hops & Hcd) & _).
  destruct (reading_keeps c key t ops Ht Hops).
  repeat case_match; simpl; (split; [done|]); by exists ops.
Qed.

Lemma RecordOutcome_steps now fault d status err retryAfter key t r :
  rkeeps key t (ROutcome now fault d status err retryAfter) →
  cooldown_steps key t r (RecordOutcome now fault d status err retryAfter r).
Proof.
  unfold rkeeps, RecordOutcome. destruct d as [d|]; [|intros _; by apply cooldown_steps_refl].
  intros [Hcap Hne].
  destruct (StripModelPrefix (SelectedTarget d)) as [[bare id] []] eqn:Hs;
    [|by apply cooldown_steps_refl].
  pose proof (proj1 (StripModelPrefix_true _ _ _) Hs) as [Hid _].
  assert (no_nul id) by (by destruct Hid as [->|[->| ->]]).
  destruct (outcome_success status err) eqn:Hok.
  - destruct (Clear _ _ _ _ _) as [cd cleared] eqn:Hc.
    assert (cd = step (cooldowns r) (OpClear fault id bare (sd_Capability d))) as Hst
      by (unfold step; by rewrite Hc).
    destruct cleared; (split; [done|]); exists [OpClear fault id bare (sd_Capability d)];
      (split_and!; [done|constructor; [by apply (Hne bare id)|constructor]|by repeat constructor]).
  - destruct (cooldownPolicy _ _ _) as [[reason hint]|]; [|by apply cooldown_steps_refl].
    destruct (Record_ _ _ _ _ _ _ _ _) as [cd entered] eqn:Hc.
    assert (cd = step (cooldowns r) (OpRecord now fault id bare (sd_Capability d) reason hint))
      as Hst by (unfold step; by rewrite Hc).
    destruct entered; (split; [done|]);
      exists [OpRecord now fault id bare (sd_Capability d) reason hint];
      (split_and!; [done|by repeat constructor|by repeat constructor]).
Qed.

Lemma Resolve_steps c model capability key t r :
  (∀ id, (cooldowns_read c id < t)%Z) →
  cooldown_steps key t r (fst (Resolve c model capability r)).
Proof.
  intros Ht. unfold Resolve. destruct (StripModelPrefix _) as [[bare id] hp].
  destruct (match ModelMap (routing r) !! _ with Some _ => _ | None => _ end) as [entry|].
  { repeat case_match; by apply cooldown_steps_refl. }
  destruct hp; [by apply cooldown_steps_refl|].
  destruct (VirtualModels (routing r) !! _) as [vm|].
  - by apply resolveVirtualModelExcluding_steps.
  - repeat case_match; by apply cooldown_steps_refl.
Qed.

Lemma rstep_steps key t r o : rkeeps key t o → cooldown_steps key t r (rstep r o).
Proof.
  destruct o as [c model capability|c vid capability exclude|now fault d status err ra|vid capability target];
    unfold rstep.
  - apply Resolve_steps.
  - intros Ht. unfold ResolveNext. destruct (_ !! vid); [|by apply cooldown_steps_refl].
    by apply resolveVirtualModelExcluding_steps.
  - apply RecordOutcome_steps.
  - intros _. unfold RecordPreferred. repeat case_match; by apply cooldown_steps_refl.
Qed.

Lemma rsteps_steps key t ops r :
  Forall (rkeeps key t) ops → cooldown_steps key t r (foldl rstep r ops).
Proof.
  intros Hops. revert r. induction Hops as [|o ops Ho _ IH]; intros r; simpl.
  { by apply cooldown_steps_refl. }
  destruct (rstep_steps key t r o Ho) as [Hr1 (l1 & Hc1 & Hk1 & Hp1)].
  destruct (IH (rstep r o)) as [Hr2 (l2 & Hc2 & Hk2 & Hp2)].
  split; [congruence|]. exists (l1 ++ l2). rewrite foldl_app, <-Hc1, <-Hc2.
  split_and!; [done|by apply Forall_app..].
Qed.

(** While a cooldown is held, no umbrella resolution chooses its target. *)
Lemma held_not_resolved c vid vm capability exclude r r' res t id bare :
  Registry.wf (registry r) → wf (cooldowns r) → plain (cooldowns r) →
  no_nul id → no_nul capability →
  held (cooldownEntryKey id bare capability) t (cooldowns r) →
  (0 ≤ snapshot_built c < t)%Z → (∀ p, (cooldowns_read c p < t)%Z) →
  resolveVirtualModelExcluding c vid vm capability exclude r = (r', Ok res) →
  p_ID (res_Provider res) = id → normalizeModel (ResolvedModel res) ≠ normalizeModel bare.
Proof.
  intros Hreg Hwf Hp Hid Hcap Hheld Hb Hread Hres Hpid Hm.
  apply resolveVirtualModelExcluding_Ok in Hres as (d & tgt & _ & _ & _ & _ & _ & _ & _ & Hrt);
    [|done|lia].
  destruct (rt_cooldown _ _ _ _ _ _ Hrt) as (view & ops & Hops & Hcd & Hna). rewrite Hpid in Hcd.
  destruct (reading_keeps c (cooldownEntryKey id bare capability) t ops Hread Hops) as [Hk Hpo].
  destruct (held_active (foldl step (cooldowns r) ops) id bare capability t
    (cooldowns_read c id) (write_fault c)) as (cd & Hin & Hu & Hc & Hn); try done.
  - by apply wf_steps.
  - by apply plain_steps.
  - by apply held_steps.
  - rewrite <-Hcd in Hin. apply Hna. exists cd. split_and!; [done|lia|].
    rewrite Hc. unfold cooldownKey. by rewrite Hn, Hm.
Qed.

(** Only umbrella routes carry a selection. *)
Lemma resolveWithPrefix_Selection full bare id capability r res :
  resolveWithPrefix full bare id capability r = Ok res → Selection res = None.
Proof. unfold resolveWithPrefix. intros Hr. by peel_in Hr. Qed.

Lemma defaultProviderRoute_Selection model capability r res :
  defaultProviderRoute model capability r = Ok res → Selection res = None.
Proof. unfold defaultProviderRoute. intros Hr. by peel_in Hr. Qed.

Lemma discoverFromCatalogs_Selection model capability r res :
  res ∈ discoverFromCatalogs model capability r → Selection res = None.
Proof. by intros (p & -> & _)%list_elem_of_fmap. Qed.

(** The model a request asks for: the default one when it names none. *)
Definition asked_model r (model : string) : string :=
  if String.eqb model "" then DefaultModel (routing r) else model.

(** [bare] is [model] without the prefix of a provider, if it has one. *)
Definition without_prefix (model bare : string) : Prop :=
  (∃ id, routed_provider id ∧ model = ProviderPrefix id +:+ bare) ∨
  bare = model ∧ ∀ id, routed_provider id → HasPrefix model (ProviderPrefix id) = false.

(** The entry of the model map: under the full name before the one without a prefix. *)
Definition mapped_entry r (model : string) (entry : ModelMapEntry) : Prop :=
  ModelMap (routing r) !! model = Some entry ∨
  ModelMap (routing r) !! model = None ∧ ∃ bare, without_prefix model bare ∧ ModelMap (routing r) !! bare = Some entry.

Definition lists (p : Provider) (model : string) : Prop :=
  ∃ models m, p_ListModels p = Ok (Some models) ∧ m ∈ models ∧ EqualFold m model = true.

(** The registered providers that can serve [model] under its own name. *)
Definition candidate r (capability model : string) (p : Provider) : Prop :=
  p ∈ registered_providers (registry r) ∧ capability ∈ p_Capabilities p ∧ lists p model.

(** What a route outside the umbrellas is, by the branch that found it, when [model] was
    asked for. *)
Inductive promised r (requested capability : string) (id resolved : string) : Prop :=
| ByModelMap entry bare : mapped_entry r (asked_model r requested) entry → id = mm_Provider entry →
    without_prefix (asked_model r requested) bare →
    resolved = (if String.eqb (mm_UpstreamModel entry) "" then bare else mm_UpstreamModel entry) →
    promised r requested capability id resolved
| ByPrefix p : (∀ entry, ¬ mapped_entry r (asked_model r requested) entry) → routed_provider id →
    asked_model r requested = ProviderPrefix id +:+ resolved →
    Registry.Get (registry r) id = Ok p → lists p resolved → promised r requested capability id resolved
| ByCatalog p : (∀ entry, ¬ mapped_entry r (asked_model r requested) entry) →
    without_prefix (asked_model r requested) (asked_model r requested) →
    VirtualModels (routing r) !! asked_model r requested = None →
    resolved = asked_model r requested → p_ID p = id →
    (∀ q, candidate r capability resolved q ↔ q = p) → promised r requested capability id resolved
| ByDefault : requested = "" → (∀ entry, ¬ mapped_entry r (DefaultModel (routing r)) entry) →
    without_prefix (DefaultModel (routing r)) (DefaultModel (routing r)) →
    VirtualModels (routing r) !! DefaultModel (routing r) = None →
    (∀ q, ¬ candidate r capability (DefaultModel (routing r)) q) →
    id = (if String.eqb (DefaultProvider (routing r)) "" then Copilot else DefaultProvider (routing r)) →
    resolved = DefaultModel (routing r) → promised r requested capability id resolved.

Lemma StripModelPrefix_without model bare id hp : StripModelPrefix model = (bare, id, hp) →
  without_prefix model bare ∧ (hp = false → bare = model).
Proof.
  intros Hs. destruct hp.
  - apply StripModelPrefix_true in Hs as [Hid ->]. split; [left; by exists id|done].
  - pose proof Hs as (-> & _ & Hn)%StripModelPrefix_false. split; [by right|done].
Qed.

Lemma without_prefix_unique model bare bare' : without_prefix model bare → without_prefix model bare' → bare = bare'.
Proof.
  assert (Hone : ∀ model bare, without_prefix model bare → ∃ id hp, StripModelPrefix model = (bare, id, hp)).
  { intros m b [(id & Hid & ->)|[-> Hn]].
    - exists id, true. by apply StripModelPrefix_true.
    - destruct (StripModelPrefix m) as [[b id] [|]] eqn:Hs; [|exists id, false; by apply StripModelPrefix_without in Hs as [_ ->]].
      apply StripModelPrefix_true in Hs as [Hid Hm]. specialize (Hn id Hid). apply not_true_iff_false in Hn. destruct Hn.
      apply HasPrefix_true. by exists b. }
  intros (? & ? & H1)%Hone (? & ? & H2)%Hone. congruence.
Qed.

Lemma offers_lists p model : offers p model = true ↔ lists p model.
Proof.
  unfold offers, lists. split.
  - destruct (p_ListModels p) as [[models|]|]; try done. intros (m & Hm & He)%existsb_exists.
    exists models, m. split_and!; [done|by apply list_elem_of_In|done].
  - intros (models & m & -> & Hm & He). apply existsb_exists. exists m. split; [by apply list_elem_of_In|done].
Qed.

Lemma discovered r capability model res :
  res ∈ discoverFromCatalogs model capability r ↔ ∃ p, candidate r capability model p ∧ res = mkRoute p model None.
Proof.
  unfold discoverFromCatalogs, candidate. rewrite list_elem_of_fmap. split.
  - intros (p & -> & [[Hc Ho] Hin]%list_elem_of_filter). exists p. by rewrite <-hasCapability_iff, <-offers_lists.
  - intros (p & (Hin & Hc & Hl) & ->). exists p. split; [done|]. apply list_elem_of_filter.
    by rewrite hasCapability_iff, offers_lists.
Qed.

(** The entry that [Resolve] looks up is the mapped one. *)
Lemma mapped_lookup r model bare id hp : StripModelPrefix model = (bare, id, hp) →
  let found := match ModelMap (routing r) !! model with
    | Some entry => Some entry
    | None => if hp then ModelMap (routing r) !! bare else None
    end in
  ∀ entry, mapped_entry r model entry ↔ found = Some entry.
Proof.
  intros [Hb Hsame]%StripModelPrefix_without found entry. unfold found, mapped_entry.
  destruct (ModelMap (routing r) !! model) as [e|] eqn:He; [split; [by intros [[= ->]|[? _]]|intros [= ->]; by left]|].
  split.
  - intros [?|[_ (b & Hb' & Hentry)]]; [done|]. rewrite (without_prefix_unique _ _ _ Hb' Hb) in Hentry.
    destruct hp; [done|]. rewrite Hsame in Hentry by done. congruence.
  - destruct hp; [|done]. intros Hentry. right. split; [done|]. by exists bare.
Qed.

(** An umbrella answer of [Resolve] comes from the umbrella that was asked for. *)
Lemma Resolve_umbrella_asked c model capability r r' res :
  Resolve c model capability r = (r', Ok res) → is_Some (Selection res) →
  ∃ vm, VirtualModels (routing r) !! asked_model r model = Some vm
    ∧ resolveVirtualModelExcluding c (asked_model r model) vm capability ∅ r = (r', Ok res).
Proof.
  intros Hr Hsel. apply not_eq_None_Some in Hsel. revert Hr. unfold Resolve. fold (asked_model r model).
  destruct (StripModelPrefix _) as [[bare id] hp].
  destruct (match ModelMap (routing r) !! _ with Some _ => _ | None => _ end) as [entry|].
  { destruct (Registry.Get _ _); [|done]. destruct (negb _); [done|]. by intros [= _ <-]. }
  destruct hp.
  { intros [= _ Hp]. by apply resolveWithPrefix_Selection in Hp. }
  destruct (VirtualModels (routing r) !! asked_model r model) as [vm|] eqn:Hvm.
  { intros Hr. by exists vm. }
  pose proof (discoverFromCatalogs_Selection (asked_model r model) capability r res) as Hdisc.
  destruct (discoverFromCatalogs _ _ _) as [|x [|y l]] eqn:Hl; [|intros [= _ <-]; exfalso; apply Hsel, Hdisc; by left|done].
  destruct (negb _); [done|]. intros [= _ Hp]. by apply defaultProviderRoute_Selection in Hp.
Qed.

Lemma Resolve_umbrella c model capability r r' res :
  Resolve c model capability r = (r', Ok res) → is_Some (Selection res) →
  ∃ id vm, VirtualModels (routing r) !! id = Some vm
    ∧ resolveVirtualModelExcluding c id vm capability ∅ r = (r', Ok res).
Proof. intros Hr (vm & ? & ?)%(Resolve_umbrella_asked _ _ _ _ _ _ Hr). by eexists _, vm. Qed.

(** A route outside the umbrellas keeps the promise of its branch, and its provider has
    the capability. *)
Lemma Resolve_plain c model capability r r' res :
  Registry.wf (registry r) → Resolve c model capability r = (r', Ok res) → Selection res = None →
  (0 ≤ snapshot_built c)%Z →
  (Registry.providers (registry r) !! p_ID (res_Provider res) = Some (res_Provider res)
   ∧ capability ∈ p_Capabilities (res_Provider res)) ∧
  promised r model capability (p_ID (res_Provider res)) (ResolvedModel res).
Proof.
  intros Hwf Hr Hsel H0. revert Hr. unfold Resolve. fold (asked_model r model).
  destruct (StripModelPrefix (asked_model r model)) as [[bare id] hp] eqn:Hs.
  pose proof (mapped_lookup r _ bare id hp Hs) as Hmapped. cbv zeta in Hmapped.
  pose proof (StripModelPrefix_without _ _ _ _ Hs) as [Hbare Hsame].
  destruct (match ModelMap (routing r) !! _ with Some _ => _ | None => _ end) as [entry|].
  { destruct (Registry.Get _ _) as [p|] eqn:Hg; [|done]. destruct (hasCapability p _) eqn:Hc; [|done].
    intros [= _ <-]. pose proof (Registry_Get_Ok _ _ _ Hwf Hg) as [Hid Hp].
    split; [by split; [|apply hasCapability_iff]|]. by eapply ByModelMap; [by apply Hmapped|..]. }
  assert (Hnone : ∀ entry, ¬ mapped_entry r (asked_model r model) entry) by (intros e He; by apply Hmapped in He).
  destruct hp.
  { apply StripModelPrefix_true in Hs as [Hid Hm]. unfold resolveWithPrefix.
    destruct (Registry.Get _ _) as [p|] eqn:Hg; [|done]. destruct (hasCapability p _) eqn:Hc; [|done].
    destruct (offers p bare) eqn:Ho; [|done]. intros [= _ <-]. pose proof (Registry_Get_Ok _ _ _ Hwf Hg) as [<- Hp].
    split; [by split; [|apply hasCapability_iff]|]. apply (ByPrefix _ _ _ _ _ p); try done. by apply offers_lists. }
  rewrite Hsame in Hbare by done.
  destruct (VirtualModels (routing r) !! asked_model r model) as [vm|] eqn:Hvm.
  { intros Hr. apply resolveVirtualModelExcluding_Ok in Hr as (d' & t & Hd' & _); [congruence|done..]. }
  pose proof (discovered r capability (asked_model r model)) as Hdisc.
  destruct (discoverFromCatalogs _ _ _) as [|x [|y l]] eqn:Hl; [| |done].
  - destruct (String.eqb_spec model "") as [->|]; [|done]. cbn [negb]. unfold defaultProviderRoute.
    destruct (Registry.Get _ _) as [p|] eqn:Hg; [|done]. destruct (hasCapability p _) eqn:Hc; [|done].
    intros [= _ <-]. pose proof (Registry_Get_Ok _ _ _ Hwf Hg) as [Hid Hp].
    split; [by split; [|apply hasCapability_iff]|]. apply ByDefault; try done.
    intros q Hq. destruct (not_elem_of_nil (mkRoute q (DefaultModel (routing r)) None)). apply Hdisc. by exists q.
  - intros [= _ <-]. destruct (proj1 (Hdisc x)) as (p & Hp & ->); [by left|].
    split; [by destruct Hp as (Hin & Hc & _); split; [by apply registered_providers_spec|]|].
    apply (ByCatalog _ _ _ _ _ p); try done. intros q. split; [|by intros ->].
    intros Hq. assert (mkRoute q (asked_model r model) None ∈ [mkRoute p (asked_model r model) None]) as Hin
      by (apply Hdisc; by exists q). apply list_elem_of_singleton in Hin. by injection Hin.
Qed.

End router_histories.

(** ** Facts about counters, reordering and readiness *)

Definition sum_counts (m : gmap string Z) : Z := map_fold (λ _ v acc, v + acc)%Z 0%Z m.
(** The sum of a family of counters, modulo the width of one. *)
Definition total (m : gmap string Z) : Z := wrap_u64 (sum_counts m).

Lemma sum_counts_insert k v m : sum_counts (<[k:=v]> m) = (sum_counts m - count m k + v)%Z.
Proof.
  unfold sum_counts, count. destruct (m !! k) as [x|] eqn:E.
  - rewrite <-insert_delete_eq. rewrite map_fold_insert_L; [|intros; lia|apply lookup_delete_eq].
    rewrite (map_fold_delete_L _ _ k x m); [simpl; lia|intros; lia|done].
  - rewrite map_fold_insert_L; [simpl; lia|intros; lia|done].
Qed.

Lemma total_bump k m : total (bump k m) = wrap_u64 (total m + 1).
Proof.
  unfold total, bump. rewrite sum_counts_insert. unfold wrap_u64.
  rewrite Zplus_mod_idemp_l, Zplus_mod_idemp_r. f_equal. lia.
Qed.

Lemma record_skips_totals vm skips m :
  selections (record_skips vm skips m) = selections m
  ∧ noActiveTarget (record_skips vm skips m) = noActiveTarget m.
Proof.
  unfold record_skips. revert m; induction skips as [|s skips IH]; intros m; simpl; [done|].
  destruct (IH (mkMetrics (selections m) (noActiveTarget m)
      (bump (metricKey (sk_Target s) (Reason_string (sk_Reason s))) (skipped m))
      (if decide (sk_Reason s = ReasonCatalogStale) then bump vm (staleCatalog m) else staleCatalog m)
      (cooldownEntries m) (cooldownExits m))) as [-> ->]. done.
Qed.

Lemma exits_totals {A} (f g : A → string) (l : list A) m :
  selections (foldl (λ m x, RecordCooldownExit (f x) (g x) m) m l) = selections m
  ∧ noActiveTarget (foldl (λ m x, RecordCooldownExit (f x) (g x) m) m l) = noActiveTarget m.
Proof.
  revert m; induction l as [|x l IH]; intros m; simpl; [done|].
  destruct (IH (RecordCooldownExit (f x) (g x) m)) as [-> ->].
  unfold RecordCooldownExit. by case_match.
Qed.

Lemma provider_views_totals {Bytes} `{StateCodec Bytes} c (r : Router Bytes) ps :
  selections (metrics (fst (provider_views c r ps))) = selections (metrics r)
  ∧ noActiveTarget (metrics (fst (provider_views c r ps))) = noActiveTarget (metrics r).
Proof.
  revert r; induction ps as [|p ps IH]; intros r; simpl; [done|].
  destruct (provider_view c r p) as [r1 v] eqn:Hv. specialize (IH r1).
  destruct (provider_views c r1 ps) as [r2 vs]. simpl in *. destruct IH as [-> ->].
  unfold provider_view in Hv. destruct (Cooldowns _ _ _ _) as [cd [active expired]].
  destruct (match p_LastKnownModels p with Some _ => _ | None => _ end) as [[[? ?] ?] ?].
  injection Hv as <- _. simpl. apply (exits_totals _ (λ _, "expired")).
Qed.

Lemma filter_other_perm (f : string → string) l p :
  NoDup (f <$> l) → (∃ t, t ∈ l ∧ f t = f p) →
  f <$> (p :: filter (λ t, f t ≠ f p) l) ≡ₚ f <$> l.
Proof.
  induction l as [|x l IH]; csimpl; [by intros _ (t & ?%not_elem_of_nil & _)|].
  intros [Hx Hnd]%NoDup_cons (t & [->|Ht]%elem_of_cons & Heq).
  - rewrite filter_cons_False by (intros []; done). rewrite Heq in *. constructor.
    rewrite filter_all; [done|]. intros y Hy Hyp. apply Hx. rewrite <-Hyp.
    by apply list_elem_of_fmap_2.
  - assert (f x ≠ f p) as Hne.
    { intros Hxp. apply Hx. rewrite Hxp, <-Heq. by apply list_elem_of_fmap_2. }
    rewrite filter_cons_True by done. csimpl. rewrite <-(IH Hnd) by eauto. csimpl. constructor.
Qed.

Lemma find_index_imap {A B C} (f : nat → A → B) (g : B → option C) (h : A → option C) l :
  (∀ i x, x ∈ l → g (f i x) = h x) →
  find_index g (imap f l) = find_index h l.
Proof.
  revert f; induction l as [|x l IH]; intros f Hf; simpl; [done|].
  rewrite (Hf 0 x) by (by left). rewrite (IH (f ∘ S)); [done|].
  intros i y Hy. apply Hf. by right.
Qed.

(** For targets without surrounding blanks, the selector is a search for the first
    target that the diagnostics call routable. *)
Lemma select_loop_search vid capability snapshot i skips targets :
  Forall (λ t, TrimSpace t = t) targets →
  let h t := if rd_Routable (target_readiness snapshot capability 0 t) then Some t else None in
  match select_loop vid capability snapshot ∅ i skips targets with
  | Ok d => snd <$> find_index h targets = Some (SelectedTarget d)
  | Err _ => find_index h targets = None
  end.
Proof.
  intros Htr h. revert i skips. induction Htr as [|t targets Ht _ IH]; intros i skips; simpl; [done|].
  assert (h t = match consider snapshot capability ∅ i t with inl _ => Some t | inr _ => None end)
    as ->.
  { unfold h, target_readiness, consider. rewrite Ht, decide_False by set_solver.
    destruct (StripModelPrefix t) as [[bare id] []]; simpl; [|done].
    by destruct (Routable _). }
  destruct (consider snapshot capability ∅ i t) as [res|skip]; [done|].
  specialize (IH (S i) (skips ++ [skip])).
  destruct (select_loop _ _ _ _ (S i) _ _) as [d|e].
  - destruct (find_index h targets) as [[]|]; simpl in *; congruence.
  - by rewrite IH.
Qed.

Lemma splitKey_metricKey a b : no_nul a → splitKey (metricKey a b) = (a, b).
Proof.
  unfold no_nul, metricKey, nul. induction a as [|c a IH]; simpl; [done|].
  intros [Hc Ha]%andb_true_iff. apply negb_true_iff in Hc. rewrite Hc.
  simpl in IH. by rewrite (IH Ha).
Qed.

(** ** Properties *)

(** C9. Umbrella selection.  The selector answers with the first target, in the
    order of the list, that is not excluded, has a known prefix and is routable;
    every target before it is reported as skipped, in order and with its index.
    It answers that no target is active exactly when none can be selected, and
    then accounts for all of them.  A target is reported as already attempted
    exactly when it is excluded. *)
Theorem select_first_selectable vid vm capability snapshot exclude :
  let targets := elems (vm_Targets vm) in
  let ok := selectable snapshot capability exclude in
  match SelectPriorityTargetExcluding vid vm capability snapshot exclude with
  | Ok d =>
    targets !! SelectedIndex d = Some (SelectedTarget d) ∧ ok (SelectedTarget d)
    ∧ (∀ j t, j < SelectedIndex d → targets !! j = Some t → ¬ ok t)
    ∧ accounts exclude 0 (take (SelectedIndex d) targets) (Skipped d)
    ∧ VirtualModelID d = vid ∧ sd_Capability d = capability
  | Err e =>
    (∀ t, t ∈ targets → ¬ ok t) ∧ accounts exclude 0 targets (na_Skipped e)
    ∧ na_VirtualModel e = vid
  end.
Proof.
  intros targets ok. unfold SelectPriorityTargetExcluding.
  destruct (select_loop _ _ _ _ _ _ _) as [d|e] eqn:Hs.
  - apply select_loop_Ok in Hs as (before & Hb & Hl & Hi & Hok & Hall & ? & ? & sk & Hsk & Hacc).
    simpl in Hi, Hsk. rewrite Hi, Hsk. fold targets in Hb, Hl. rewrite Hb.
    split_and!; [done|done| |done..]. intros j t Hj Ht.
    assert (before !! j = Some t) as Hbj by (rewrite <-Hb; by rewrite lookup_take_lt).
    rewrite Forall_lookup in Hall. by eapply Hall.
  - apply select_loop_Err in Hs as (Hv & Hall & sk & Hsk & Hacc). rewrite Forall_forall in Hall.
    simpl in Hsk. rewrite Hsk. done.
Qed.

(** Moving the last successful target to the front only reorders: when the
    targets are distinct (without surrounding blanks) the new list has the same
    targets; the preferred one is first if it was there at all, and otherwise
    nothing changes. *)
Theorem reorder_is_permutation vm p :
  NoDup (TrimSpace <$> elems (vm_Targets vm)) →
  let vm' := reorderVMTargets vm p in
  TrimSpace <$> elems (vm_Targets vm') ≡ₚ TrimSpace <$> elems (vm_Targets vm)
  ∧ vm_Strategy vm' = vm_Strategy vm
  ∧ (if decide (TrimSpace p ∈ TrimSpace <$> elems (vm_Targets vm))
     then head (elems (vm_Targets vm')) = Some p else vm' = vm).
Proof.
  intros Hnd. unfold reorderVMTargets.
  destruct (existsb _ _) eqn:He.
  - apply existsb_exists in He as (t & Hin & Heq). reflect_bools. apply list_elem_of_In in Hin.
    split_and!; [|done|].
    + apply (filter_other_perm TrimSpace); [done|]. by exists t.
    + rewrite decide_True; [done|]. rewrite <-Heq. by apply list_elem_of_fmap_2.
  - split_and!; [done..|]. rewrite decide_False; [done|].
    intros (t & Ht & Hin)%list_elem_of_fmap. apply not_true_iff_false in He. apply He.
    apply existsb_exists. exists t. split; [by apply list_elem_of_In|].
    by apply bool_decide_eq_true.
Qed.

Definition example_umbrella : VirtualModel :=
  mkVirtualModel VirtualModelStrategyPriority (Some ["codex/a"; " kilo/b"; "github/c"]).

Lemma reorder_is_permutation_witness :
  TrimSpace <$> elems (vm_Targets (reorderVMTargets example_umbrella "kilo/b"))
    ≡ₚ TrimSpace <$> elems (vm_Targets example_umbrella).
Proof.
  assert (Hnd : NoDup (TrimSpace <$> elems (vm_Targets example_umbrella)))
    by (apply (bool_decide_eq_true_1 (NoDup _)); vm_compute; reflexivity).
  exact (proj1 (reorder_is_permutation example_umbrella "kilo/b" Hnd)).
Defined.

Section router_properties.
Context {Bytes : Type} `{StateCodec Bytes}.
Implicit Types r : Router Bytes.

(** C4. Soundness of routing.  Whatever route [Resolve] finds, the provider is registered
    under its own identifier and supports the requested capability, and provider and
    model are those its branch promises: the entry of the model map, with the model it
    names or else the one asked for without its prefix; the provider of the prefix,
    which lists the rest; the one provider that can serve the model asked for; or, when
    none is asked for and no catalog has it, the default provider and model.  An
    umbrella route comes from a configured target of the umbrella that was asked for;
    its provider is authenticated, its allowlist and its catalog contain the model. *)
Theorem resolve_sound c model capability r r' res :
  Registry.wf (registry r) → (0 ≤ snapshot_built c)%Z →
  Resolve c model capability r = (r', Ok res) →
  Registry.providers (registry r) !! p_ID (res_Provider res) = Some (res_Provider res)
  ∧ capability ∈ p_Capabilities (res_Provider res)
  ∧ match Selection res with
    | None => promised r model capability (p_ID (res_Provider res)) (ResolvedModel res)
    | Some d =>
      routed c r (p_ID (res_Provider res)) (ResolvedModel res) capability (res_Provider res)
      ∧ ∃ vm target, VirtualModels (routing r) !! asked_model r model = Some vm
        ∧ target ∈ elems (vm_Targets vm) ∧ TrimSpace target = TrimSpace (SelectedTarget d)
        ∧ TrimSpace target = ProviderPrefix (p_ID (res_Provider res)) +:+ ResolvedModel res
    end.
Proof.
  intros Hwf H0 Hr. destruct (Selection res) as [d|] eqn:Hsel.
  - destruct (Resolve_umbrella_asked _ _ _ _ _ _ Hr) as (vm & Hvm & Hres); [by rewrite Hsel|].
    apply resolveVirtualModelExcluding_Ok in Hres
      as (d' & t & Hd' & Ht & _ & Hin & Heq & _ & Hpre & Hrt); [|done..].
    split_and!; [apply Hrt|apply Hrt|done|]. exists vm, t. assert (d' = d) as -> by congruence. split_and!; [done..|by rewrite Heq].
  - destruct (Resolve_plain _ _ _ _ _ _ Hwf Hr Hsel H0) as [[Hp Hc] Hpromised]. by split_and!.
Qed.

(** Catalog routing.  A model that is neither mapped, prefixed nor an umbrella
    is routed, under its own name, to the one provider that supports the
    capability and lists the model; when no provider or several do, the request
    is refused and nothing changes. *)
Theorem catalog_route_is_unique c model capability r :
  model ≠ "" → ModelMap (routing r) !! model = None → VirtualModels (routing r) !! model = None →
  (∀ id, routed_provider id → HasPrefix model (ProviderPrefix id) = false) →
  Registry.wf (registry r) →
  let can p := p ∈ registered_providers (registry r)
    ∧ capability ∈ p_Capabilities p ∧ offers p model = true in
  fst (Resolve c model capability r) = r ∧
  match snd (Resolve c model capability r) with
  | Ok res => res = mkRoute (res_Provider res) model None
      ∧ ∀ p, can p ↔ p = res_Provider res
  | Err e => (e = ModelUnavailable model capability ∧ ∀ p, ¬ can p)
      ∨ (∃ ids p q, e = Ambiguous model ids ∧ can p ∧ can q ∧ p_ID p ≠ p_ID q
         ∧ p_ID p ∈ ids ∧ p_ID q ∈ ids)
  end.
Proof.
  intros Hne Hmm Hvm Hpre Hwf can. unfold Resolve.
  apply String.eqb_neq in Hne. rewrite Hne.
  destruct (StripModelPrefix model) as [[bare id] []] eqn:Hs.
  { apply StripModelPrefix_true in Hs as [Hid Heq]. specialize (Hpre id Hid).
    apply not_true_iff_false in Hpre. destruct Hpre. apply HasPrefix_true. by exists bare. }
  rewrite Hmm, Hvm. unfold discoverFromCatalogs. set (l := filter _ _).
  assert (∀ p, can p ↔ p ∈ l) as Hl.
  { intros p. unfold can, l. rewrite list_elem_of_filter, hasCapability_iff. tauto. }
  assert (NoDup (p_ID <$> l)) as Hnd.
  { pose proof (registered_providers_NoDup _ Hwf) as Hnd. subst l. clear -Hnd.
    induction (registered_providers (registry r)) as [|p ps IH]; [constructor|].
    apply NoDup_cons in Hnd as [Hp Hnd]. rewrite filter_cons. case_decide; [|by apply IH].
    csimpl. constructor; [|by apply IH].
    intros (q & Heq & [_ Hq]%list_elem_of_filter)%list_elem_of_fmap. apply Hp. rewrite Heq.
    by apply list_elem_of_fmap_2. }
  clearbody l. destruct l as [|p [|q l]]; simpl.
  - split; [done|]. left. split; [done|]. intros p. rewrite Hl. apply not_elem_of_nil.
  - split_and!; [done..|]. intros q. rewrite Hl. apply list_elem_of_singleton.
  - split; [done|]. right. csimpl. eexists _, p, q. csimpl in Hnd.
    apply NoDup_cons in Hnd as [Hpq _]. rewrite !Hl.
    split_and!; [done|by left|by right; left| |by left|by right; left].
    intros Heq. apply Hpq. rewrite Heq. by left.
Qed.

(** Exhausted quota keeps a target out of rotation for a day.  After a
    dispatched umbrella request was answered 402 or 403, and whatever the router
    does next short of a reported success of that same target, no umbrella
    resolution within 24 hours (neither a new request nor the failover of one)
    chooses that provider and model for that capability. *)
Theorem quota_failure_avoids_target r now fault d status err retryAfter id bare ops c r2 res :
  Registry.wf (registry r) → wf (cooldowns r) → plain (cooldowns r) →
  StripModelPrefix (SelectedTarget d) = (bare, id, true) → TrimSpace bare ≠ "" →
  sd_Capability d ≠ "" → no_nul (sd_Capability d) →
  (status = StatusPaymentRequired ∨ status = StatusForbidden) →
  (∀ e, err = Some e → IsCanceled e = false) →
  let key := cooldownEntryKey id bare (sd_Capability d) in
  let t := (now + 24 * Hour)%Z in
  Forall (rkeeps key t) ops →
  (0 ≤ snapshot_built c < t)%Z → (∀ p, (cooldowns_read c p < t)%Z) →
  let r1 := foldl rstep (RecordOutcome now fault (Some d) status err retryAfter r) ops in
  (∃ model, Resolve c model (sd_Capability d) r1 = (r2, Ok res) ∧ is_Some (Selection res))
  ∨ (∃ vid exclude, ResolveNext c vid (sd_Capability d) exclude r1 = (r2, Ok res)) →
  ¬ (p_ID (res_Provider res) = id ∧ normalizeModel (ResolvedModel res) = normalizeModel bare).
Proof.
  intros Hreg Hwf Hp Hs Hbare Hcap Hnul Hst Herr key t Hops Hb Hread r1 Hres [Hid Hm].
  assert (∃ until, Record_ now fault id bare (sd_Capability d) CooldownQuotaExhausted retryAfter
      (cooldowns r) = (cooldowns (RecordOutcome now fault (Some d) status err retryAfter r), Some until)
      ∧ registry (RecordOutcome now fault (Some d) status err retryAfter r) = registry r) as (until & Hrec & Hr0).
  { unfold RecordOutcome. rewrite Hs.
    assert (outcome_success status err = false) as -> by (destruct Hst as [->| ->]; done).
    assert (cooldownPolicy status err retryAfter = Some (CooldownQuotaExhausted, retryAfter)) as ->.
    { unfold cooldownPolicy, cooldownReason. destruct err as [e|]; [rewrite (Herr e eq_refl)|];
        destruct Hst as [->| ->]; simpl; try done; by destruct (IsDeadlineExceeded e). }
    unfold Record_. pose proof (proj1 (StripModelPrefix_true _ _ _) Hs) as [Hrid _].
    assert (id ≠ "") as Hidne by (by destruct Hrid as [->|[->| ->]]).
    apply String.eqb_neq in Hbare, Hcap, Hidne. rewrite Hbare, Hcap, Hidne. simpl. by eexists. }
  pose proof (proj1 (StripModelPrefix_true _ _ _) Hs) as [Hrid _].
  assert (no_nul id) as Hnid by (by destruct Hrid as [->|[->| ->]]).
  set (r0 := RecordOutcome _ _ _ _ _ _ _) in *.
  assert (cooldowns r0 = step (cooldowns r)
    (OpRecord now fault id bare (sd_Capability d) CooldownQuotaExhausted retryAfter)) as Hcd0
    by (unfold step; by rewrite Hrec).
  assert (held key t (cooldowns r0)) as Hheld.
  { pose proof (Record_held _ _ _ _ _ _ _ _ _ _ Hrec) as (e & He & Hu).
    apply Record_entries in Hrec as (fs & _ & _ & _ & _ & _ & Hlen & _).
    rewrite cooldownDuration_quota in Hlen. exists e. split; [done|].
    subst t. unfold quotaCooldown in Hlen. lia. }
  destruct (rsteps_steps key t ops r0 Hops) as [Hr1 (cops & Hc1 & Hk1 & Hp1)].
  assert (∃ vid vm exclude, resolveVirtualModelExcluding c vid vm (sd_Capability d) exclude r1
    = (r2, Ok res)) as (vid & vm & exclude & Hrv).
  { destruct Hres as [(model & Hr & Hsel)|(vid & exclude & Hr)].
    - destruct (Resolve_umbrella _ _ _ _ _ _ Hr Hsel) as (vid & vm & _ & ?). eauto.
    - unfold ResolveNext in Hr. destruct (_ !! vid); [eauto|done]. }
  eapply (held_not_resolved c vid vm (sd_Capability d) exclude r1 r2 res t id bare); try done.
  - subst r1. congruence.
  - subst r1. rewrite Hc1, Hcd0. by apply wf_steps, wf_step.
  - subst r1. rewrite Hc1, Hcd0. apply plain_steps; [done|]. by apply plain_step.
  - subst r1. rewrite Hc1. by apply held_steps.
Qed.

(** Every umbrella resolution is counted exactly once (modulo the 64-bit width
    of the counters): an answer adds one to the selections and nothing to the
    refusals, a refusal the other way round. *)
Theorem umbrella_resolution_counted_once c vid vm capability exclude r r' out :
  resolveVirtualModelExcluding c vid vm capability exclude r = (r', out) →
  total (selections (metrics r'))
    = wrap_u64 (total (selections (metrics r)) + (if is_ok out then 1 else 0))
  ∧ total (noActiveTarget (metrics r'))
    = wrap_u64 (total (noActiveTarget (metrics r)) + (if is_ok out then 0 else 1)).
Proof.
  assert (∀ m, total m = wrap_u64 (total m + 0)) as Hid.
  { intros m. rewrite Z.add_0_r. unfold total, wrap_u64. by rewrite Zmod_mod. }
  unfold resolveVirtualModelExcluding, buildAvailabilitySnapshot.
  generalize (if String.eqb (vm_Strategy vm) VirtualModelStrategyPriority
    then match Preferred_Get vid capability (preferred r) with
         | Some p => if String.eqb p "" then vm else reorderVMTargets vm p
         | None => vm end
    else vm). intros ordered.
  pose proof (provider_views_totals c r (registered_providers (registry r))) as [Hs Hn].
  destruct (provider_views _ _ _) as [r1 views]. simpl in Hs, Hn. rewrite <-Hs, <-Hn.
  destruct (SelectPriorityTargetExcluding _ _ _ _ _) as [d|e];
    [destruct (StripModelPrefix _) as [[bare id] b], (Registry.Get _ _)|];
    intros [= <- <-]; simpl; unfold RecordSelection, RecordNoActiveTarget;
    match goal with |- context [record_skips ?v ?s ?m] =>
      destruct (record_skips_totals v s m) as [-> ->] end; simpl; rewrite total_bump; by rewrite <-?Hid.
Qed.

End router_properties.

(** ** A concrete router *)

Definition example_provider (id : string) (models : list string) : Provider :=
  mkProvider id [CapabilityChat] (Ok (Some models)) (mkHealth true true "" zeroTime)
    (Some (Some (models, 5%Z, false))) None.

Definition example_routing : Routing :=
  mkRouting "" "" false ∅ ∅
    {["best" := mkVirtualModel VirtualModelStrategyPriority
        (Some ["codex/gpt-5"; "kilo/free"])]} false.

Definition example_router : Router persistedCooldownState :=
  NewRouter (Registry.NewRegistry
    [Some (example_provider Codex ["gpt-5"]); Some (example_provider Kilo ["free"])])
    example_routing.

Definition example_clock (t : Time) : clock := mkClock (λ _, t) t None.

Definition example_decision : SelectionDecision :=
  mkDecision "best" VirtualModelStrategyPriority "codex/gpt-5" 0 0 0 false CapabilityChat [].

Lemma resolve_sound_witness :
  match snd (Resolve (example_clock 100) "codex/gpt-5" CapabilityChat example_router) with
  | Ok res => p_ID (res_Provider res) = Codex ∧ ResolvedModel res = "gpt-5"
      ∧ promised example_router "codex/gpt-5" CapabilityChat Codex "gpt-5"
  | Err _ => False
  end.
Proof.
  assert (Hc : match snd (Resolve (example_clock 100) "codex/gpt-5" CapabilityChat example_router) with
    | Ok res => String.eqb (p_ID (res_Provider res)) Codex && String.eqb (ResolvedModel res) "gpt-5"
                && bool_decide (Selection res = None) | Err _ => false end = true)
    by (vm_compute; reflexivity).
  destruct (Resolve (example_clock 100) "codex/gpt-5" CapabilityChat example_router) as [r' [res|e]] eqn:E;
    simpl in Hc |- *; [|discriminate Hc].
  apply andb_true_iff in Hc as [[Hid Hm]%andb_true_iff Hs%bool_decide_eq_true]. apply String.eqb_eq in Hid, Hm.
  split; [exact Hid|]. split; [exact Hm|].
  destruct (resolve_sound (example_clock 100) "codex/gpt-5" CapabilityChat example_router r' res) as (_ & _ & Hp);
    [apply Registry.wf_NewRegistry|vm_compute; discriminate|exact E|].
  rewrite Hs, Hid, Hm in Hp. exact Hp.
Defined.

Lemma catalog_route_is_unique_witness :
  fst (Resolve (example_clock 1) "free" CapabilityChat example_router) = example_router.
Proof.
  refine (proj1 (catalog_route_is_unique (example_clock 1) "free" CapabilityChat example_router
    _ _ _ _ _)); [discriminate|reflexivity|reflexivity| |apply Registry.wf_NewRegistry].
  intros id [->|[->| ->]]; reflexivity.
Defined.

Lemma quota_failure_avoids_target_witness :
  let r1 := foldl rstep (RecordOutcome 1000 None (Some example_decision) 402 None 0 example_router)
    [RResolve (example_clock (2 * Hour)) "best" CapabilityChat;
     RPreferred "best" CapabilityChat "codex/gpt-5"] in
  match snd (Resolve (example_clock (20 * Hour)) "best" CapabilityChat r1) with
  | Ok res => ¬ (p_ID (res_Provider res) = Codex
                 ∧ normalizeModel (ResolvedModel res) = normalizeModel "gpt-5")
  | Err _ => False
  end.
Proof.
  intros r1.
  assert (Hc : match snd (Resolve (example_clock (20 * Hour)) "best" CapabilityChat r1) with
    | Ok res => bool_decide (is_Some (Selection res)) | Err _ => false end = true)
    by (vm_compute; reflexivity).
  destruct (Resolve (example_clock (20 * Hour)) "best" CapabilityChat r1) as [r2 [res|e]] eqn:E;
    simpl in Hc |- *; [|discriminate Hc].
  apply (quota_failure_avoids_target example_router 1000 None example_decision 402 None 0 Codex
    "gpt-5" [RResolve (example_clock (2 * Hour)) "best" CapabilityChat;
     RPreferred "best" CapabilityChat "codex/gpt-5"] (example_clock (20 * Hour)) r2 res).
  - apply Registry.wf_NewRegistry.
  - apply map_Forall_empty.
  - apply map_Forall_empty.
  - reflexivity.
  - vm_compute. discriminate.
  - discriminate.
  - reflexivity.
  - left. reflexivity.
  - discriminate.
  - repeat constructor; intros; reflexivity.
  - split; [vm_compute; discriminate|reflexivity].
  - intros. reflexivity.
  - left. exists "best". split; [exact E|exact (bool_decide_eq_true_1 _ Hc)].
Defined.

Lemma umbrella_resolution_counted_once_witness :
  total (selections (metrics (fst (resolveVirtualModelExcluding (example_clock 100) "best"
    (mkVirtualModel VirtualModelStrategyPriority (Some ["codex/gpt-5"; "kilo/free"]))
    CapabilityChat ∅ example_router)))) = 1%Z.
Proof.
  set (vm := mkVirtualModel VirtualModelStrategyPriority (Some ["codex/gpt-5"; "kilo/free"])).
  assert (Hc : is_ok (snd (resolveVirtualModelExcluding (example_clock 100) "best" vm
    CapabilityChat ∅ example_router)) = true) by (vm_compute; reflexivity).
  destruct (resolveVirtualModelExcluding (example_clock 100) "best" vm
    CapabilityChat ∅ example_router) as [r' out] eqn:E.
  simpl in Hc |- *. rewrite (proj1 (umbrella_resolution_counted_once (example_clock 100) "best" vm
    CapabilityChat ∅ example_router r' out E)), Hc. vm_compute. reflexivity.
Defined.

(** The readiness report and the selector agree.  For an umbrella whose targets
    carry no surrounding blanks, the report is active exactly when the selector
    finds a target, and names the same one. *)
Theorem readiness_agrees_with_selection snapshot capability id vm :
  Forall (λ t, TrimSpace t = t) (elems (vm_Targets vm)) →
  let report := readiness_of snapshot capability id vm in
  match SelectPriorityTarget id vm capability snapshot with
  | Ok d => vr_Active report = true ∧ vr_SelectedTarget report = SelectedTarget d
  | Err _ => vr_Active report = false ∧ vr_SelectedTarget report = ""
  end.
Proof.
  intros Htr. pose proof (select_loop_search id capability snapshot 0 [] _ Htr) as Hs.
  unfold SelectPriorityTarget, SelectPriorityTargetExcluding, readiness_of. simpl in *.
  rewrite (find_index_imap _ _ (λ t, if rd_Routable (target_readiness snapshot capability 0 t)
    then Some t else None)).
  - destruct (select_loop _ _ _ _ _ _ _) as [d|e]; [|by rewrite Hs].
    destruct (find_index _ _) as [[i t]|]; [|done]. simpl in Hs. injection Hs as ->. done.
  - intros i t _. unfold target_readiness. by destruct (StripModelPrefix t) as [[bare pid] []].
Qed.

Lemma readiness_agrees_with_selection_witness :
  vr_SelectedTarget (readiness_of (Some (NewSnapshot 1 100 [example_view []])) CapabilityChat "best"
    (mkVirtualModel VirtualModelStrategyPriority (Some ["kilo/x"; "codex/gpt-5"]))) = "codex/gpt-5".
Proof.
  refine (proj2 (readiness_agrees_with_selection (Some (NewSnapshot 1 100 [example_view []]))
    CapabilityChat "best"
    (mkVirtualModel VirtualModelStrategyPriority (Some ["kilo/x"; "codex/gpt-5"])) _)).
  repeat constructor.
Defined.

(** Where it fails: a target padded with a blank is accepted by the validation and
    chosen by the selector, but reported as not registered by the diagnostics, and
    its failures are never recorded. *)
Example padded_target_disagrees :
  let vm := mkVirtualModel VirtualModelStrategyPriority (Some [" codex/gpt-5"]) in
  let snapshot := Some (NewSnapshot 1 100 [example_view []]) in
  let d := mkDecision "best" VirtualModelStrategyPriority " codex/gpt-5" 0 0 0 false CapabilityChat [] in
  is_ok (SelectPriorityTarget "best" vm CapabilityChat snapshot) = true
  ∧ vr_Active (readiness_of snapshot CapabilityChat "best" vm) = false
  ∧ (∀ now fault status err retryAfter,
       RecordOutcome now fault (Some d) status err retryAfter example_router = example_router).
Proof. split_and!; [vm_compute; reflexivity..|]. intros. reflexivity. Qed.
