(* ===== verification/Catalog.v ===== *)
(** * Model catalogs: the cache, the allowlists and the list of models

    [src/src/model_cache.go] (Module [ModelCache], and Module [SingleFetch] for its
    concurrent callers), [models.go] (Module [Models]: the filters and the handler of
    [/v1/models]), [provider_availability.go] and [catalog_refresher.go] (Module
    [Refresh]). *)

From S2P Require Import Prelude GoStd Provider Config Availability Cooldown Routing.

(* src/internal/api/types.go Model *)
Record Model := mkModel {
  m_ID : string; m_Object : string; m_Created : Z; m_OwnedBy : string; m_Name : string;
  m_Vendor : string; m_Version : string; m_PickerEnabled : bool; m_PickerCategory : string;
  m_Preview : bool; m_SupportedEndpoints : list string;
}.

(** An entry with the four fields the router sets itself. *)
Definition plain_model (id object : string) (created : Z) (ownedBy : string) : Model :=
  mkModel id object created ownedBy "" "" "" false "" false [].

(* src/internal/api/types.go ModelList *)
Record ModelList := mkModelList { ml_Object : string; ml_Data : list Model }.

Module ModelCache.

(* src/src/model_cache.go defaultModelCacheTTL *)
Definition defaultModelCacheTTL : Duration := (10 * Minute)%Z.

(* src/src/model_cache.go ModelCache *)
Record t := mk { data : option ModelList; fetched : Time; ttl : Duration }.

(* src/src/model_cache.go NewModelCache *)
Definition NewModelCache (ttl : Duration) : t :=
  mk None zeroTime (if (ttl <=? 0)%Z then defaultModelCacheTTL else ttl).

(* src/src/model_cache.go ModelCache.Get *)
Definition Get (now : Time) (c : t) : option ModelList :=
  match data c with
  | Some ml => if (now - fetched c <? ttl c)%Z then Some ml else None
  | None => None
  end.

(* src/src/model_cache.go ModelCache.Set *)
Definition Set_ (now : Time) (ml : ModelList) (c : t) : t := mk (Some ml) now (ttl c).

(* src/src/model_cache.go ModelCache.Invalidate *)
Definition Invalidate (c : t) : t := mk None zeroTime (ttl c).

(* src/src/model_cache.go cloneModelList *)
Definition cloneModelList (ml : ModelList) : ModelList := mkModelList (ml_Object ml) (ml_Data ml).

(* src/src/model_cache.go ModelCache.LastKnownGood *)
Definition LastKnownGood (now : Time) (c : t) : option (ModelList * Time * bool) :=
  match data c with
  | None => None
  | Some ml => Some (cloneModelList ml, fetched c, (ttl c <=? now - fetched c)%Z)
  end.

(* src/src/model_cache.go ModelCache.Age *)
Definition Age (now : Time) (c : t) : Duration :=
  match data c with None => (-1)%Z | Some _ => (now - fetched c)%Z end.

(** A call that no other call overlaps; [t1], [t2] and [t3] are the instants of the two
    checks and of [Set].  A fetch that succeeds returns a list. *)
(* src/src/model_cache.go ModelCache.GetOrFetch *)
Definition GetOrFetch {E : Type} (t1 t2 t3 : Time) (fetch : result ModelList E) (c : t)
    : t * result ModelList E :=
  match Get t1 c with
  | Some ml => (c, Ok ml)
  | None =>
    match Get t2 c with
    | Some ml => (c, Ok ml)
    | None =>
      match fetch with
      | Err e => (c, Err e)
      | Ok ml => (Set_ t3 ml c, Ok ml)
      end
    end
  end.
End ModelCache.

(** ** Concurrent callers of [GetOrFetch] *)
Module SingleFetch.
Section fetch.
Context {E : Type}.

(** Where a caller stands: before the first check; at [fetchMu]; holding it before the
    second check; inside [fetchFn]; before [Set]; before the deferred unlock;
    returned. *)
Inductive caller :=
| Start | AtLock | Holding | Fetching | Storing (ml : ModelList)
| Leaving (r : result ModelList E) | Returned (r : result ModelList E).

(** [holder] is the caller that holds [fetchMu]. *)
(* src/src/model_cache.go ModelCache *)
Record t := mk { cache : ModelCache.t; holder : option nat; callers : list caller }.

Definition move (c : nat) (x : caller) (s : t) : t :=
  mk (cache s) (holder s) (<[c := x]> (callers s)).

(** One atomic action: the reader's lock of [Get], the lock of [fetchMu], the return of
    [fetchFn], the critical section of [Set], the unlock.  [EInvalidate] is any
    caller of [Invalidate]. *)
Inductive event :=
| ECall | ECheck (c : nat) (now : Time) | ELock (c : nat) | ERecheck (c : nat) (now : Time)
| EFetched (c : nat) (r : result ModelList E) | EStore (c : nat) (now : Time) | EUnlock (c : nat)
| EInvalidate.

(* src/src/model_cache.go:47-67 ModelCache.GetOrFetch *)
Definition step (e : event) (s : t) : option t :=
  match e with
  | ECall => Some (mk (cache s) (holder s) (callers s ++ [Start]))
  | ECheck c now =>
    match callers s !! c with
    | Some Start =>
      Some (move c (match ModelCache.Get now (cache s) with
                    | Some ml => Returned (Ok ml) | None => AtLock end) s)
    | _ => None
    end
  | ELock c =>
    match callers s !! c, holder s with
    | Some AtLock, None => Some (move c Holding (mk (cache s) (Some c) (callers s)))
    | _, _ => None
    end
  | ERecheck c now =>
    match callers s !! c with
    | Some Holding =>
      Some (move c (match ModelCache.Get now (cache s) with
                    | Some ml => Leaving (Ok ml) | None => Fetching end) s)
    | _ => None
    end
  | EFetched c r =>
    match callers s !! c with
    | Some Fetching =>
      Some (move c (match r with Ok ml => Storing ml | Err e => Leaving (Err e) end) s)
    | _ => None
    end
  | EStore c now =>
    match callers s !! c with
    | Some (Storing ml) =>
      Some (move c (Leaving (Ok ml)) (mk (ModelCache.Set_ now ml (cache s)) (holder s) (callers s)))
    | _ => None
    end
  | EUnlock c =>
    match callers s !! c with
    | Some (Leaving r) => Some (move c (Returned r) (mk (cache s) None (callers s)))
    | _ => None
    end
  | EInvalidate => Some (mk (ModelCache.Invalidate (cache s)) (holder s) (callers s))
  end.

Fixpoint run (l : list event) (s : t) : option t :=
  match l with
  | [] => Some s
  | e :: l => match step e s with Some s => run l s | None => None end
  end.

Definition new (ttl : Duration) : t := mk (ModelCache.NewModelCache ttl) None [].

Definition holds (x : caller) : bool :=
  match x with Holding | Fetching | Storing _ | Leaving _ => true | _ => false end.

(** The callers inside the locked part are exactly the holder of the lock. *)
Definition inv (s : t) : Prop :=
  ∀ c, holder s = Some c ↔ holds <$> callers s !! c = Some true.

Lemma move_inv c x y k h s :
  callers s !! c = Some x → inv s → (h = Some c ↔ holds y = true) →
  (∀ d, d ≠ c → h = Some d ↔ holder s = Some d) → inv (move c y (mk k h (callers s))).
Proof.
  intros Hc I Hy Hh d. simpl. destruct (decide (d = c)) as [->|Hd].
  - rewrite list_lookup_insert_eq by (by eapply lookup_lt_Some). simpl. rewrite Hy. split; congruence.
  - rewrite list_lookup_insert_ne, Hh by done. apply I.
Qed.

(** A move that neither takes nor gives back the lock. *)
Lemma stay_inv c x y k s :
  callers s !! c = Some x → holds y = holds x → inv s →
  inv (move c y (mk k (holder s) (callers s))).
Proof.
  intros Hc Hy I. eapply move_inv; [done|done| |done].
  rewrite Hy, (I c), Hc. simpl. split; congruence.
Qed.

Lemma fetch_step_inv e s s' : step e s = Some s' → inv s → inv s'.
Proof.
  intros Hstep I. destruct e as [|c now|c|c now|c r|c now|c|]; simpl in Hstep.
  - simplify_eq. intros d. simpl. rewrite (I d).
    destruct (decide (d < length (callers s))); [by rewrite lookup_app_l|].
    rewrite (lookup_ge_None_2 (callers s) d), lookup_app_r by lia.
    destruct (d - length (callers s)) as [|[|?]]; done.
  - peel; by eapply stay_inv.
  - peel. eapply move_inv; [done|done|done|]. intros d Hd. rewrite H0. naive_solver.
  - peel; by eapply stay_inv.
  - peel; by eapply stay_inv.
  - peel. by eapply stay_inv.
  - peel. rename H into Hc. eapply move_inv; [done|done|done|]. intros d Hd.
    assert (holder s = Some c) as -> by (apply I; by rewrite Hc). naive_solver.
  - simplify_eq. exact I.
Qed.

Lemma fetch_run_inv l s s' : run l s = Some s' → inv s → inv s'.
Proof.
  revert s. induction l as [|e l IH]; simpl; intros s Hr I; [by simplify_eq|].
  case_match; [|done]. by eapply IH, fetch_step_inv.
Qed.

(** However callers of [GetOrFetch] and of [Invalidate] interleave, at most one
    fetch is under way; and a caller that takes a list from the cache takes one
    stored less than the time to live before: an expired list is never served, the
    caller waits for the fetch. *)
Theorem one_fetch_at_a_time ttl l s (Hrun : run l (new ttl) = Some s) :
  (∀ c d, callers s !! c = Some Fetching → callers s !! d = Some Fetching → c = d) ∧
  (∀ c now s', callers s !! c = Some Start → step (ECheck c now) s = Some s' →
     callers s' !! c = Some AtLock ∨
     ∃ ml, callers s' !! c = Some (Returned (Ok ml)) ∧ ModelCache.data (cache s) = Some ml ∧
           (now - ModelCache.fetched (cache s) < ModelCache.ttl (cache s))%Z).
Proof.
  assert (inv s) as I.
  { eapply fetch_run_inv; [done|]. intros c. simpl. by split. }
  split.
  - intros c d Hc Hd.
    assert (holder s = Some c) as H1 by (apply I; by rewrite Hc).
    assert (holder s = Some d) as H2 by (apply I; by rewrite Hd). congruence.
  - intros c now s' Hc Hs. simpl in Hs. rewrite Hc in Hs. simplify_eq/=.
    rewrite list_lookup_insert_eq by (by eapply lookup_lt_Some).
    unfold ModelCache.Get. destruct (ModelCache.data (cache s)) as [ml|]; [|by left].
    destruct (Z.ltb_spec (now - ModelCache.fetched (cache s)) (ModelCache.ttl (cache s))); [|by left].
    right. eauto.
Qed.
End fetch.

Lemma one_fetch_at_a_time_witness :
  ∃ s : t (E := string), run [ECall; ECall; ECheck 0 5%Z; ECheck 1 6%Z; ELock 0; ERecheck 0 7%Z] (new 100%Z) = Some s
    ∧ callers s = [Fetching; AtLock] ∧ ∀ d, callers s !! d = Some Fetching → 0 = d.
Proof.
  eexists. split; [vm_compute; reflexivity|]. split; [reflexivity|]. intros d Hd.
  refine (proj1 (one_fetch_at_a_time (E := string) 100%Z
    [ECall; ECall; ECheck 0 5%Z; ECheck 1 6%Z; ELock 0; ERecheck 0 7%Z] _ _) 0 d _ Hd);
    [vm_compute; reflexivity|reflexivity].
Defined.

(** A failed fetch is not shared: the caller that waited for it fetches again. *)
Example failed_fetch_is_repeated :
  run [ECall; ECall; ECheck 0 5%Z; ECheck 1 6%Z; ELock 0; ERecheck 0 7%Z;
       EFetched 0 (Err "down"); EUnlock 0; ELock 1; ERecheck 1 8%Z] (new (E := string) 100%Z)
  = Some (mk (ModelCache.NewModelCache 100%Z) (Some 1) [Returned (Err "down"); Fetching]).
Proof. reflexivity. Qed.
End SingleFetch.

Module Models.

(** ** Allowlists *)

(* src/src/models.go isModelAllowedWithPrefix *)
Definition isModelAllowedWithPrefix (modelID : string) (allowedModels : list string) : bool :=
  bool_decide (allowedModels = []) ||
  let bareID := fst (fst (StripModelPrefix modelID)) in
  existsb (λ allowed,
    let bareAllowed := fst (fst (StripModelPrefix allowed)) in
    EqualFold modelID allowed || EqualFold bareID allowed
    || EqualFold modelID bareAllowed || EqualFold bareID bareAllowed) allowedModels.

(** [clock] is [time.Now().Unix()] when the entry of a name is made. *)
(* src/src/models.go filterAllowedModels *)
Definition filterAllowedModels (clock : string → Z) (modelList : ModelList)
    (allowedModels : list string) : ModelList :=
  if decide (allowedModels = []) then modelList
  else
    let filtered :=
      filter (λ m, isModelAllowedWithPrefix (m_ID m) allowedModels = true) (ml_Data modelList) in
    let filtered :=
      if decide (filtered = [])
      then (λ id, plain_model id "model" (clock id) "openai") <$> allowedModels
      else filtered in
    mkModelList "list" filtered.

(** ** The handler of [/v1/models] *)

(** [val] is the query parameter [refresh]. *)
(* src/src/models.go shouldRefreshModels *)
Definition shouldRefreshModels (val : string) : bool :=
  let val := TrimSpace val in
  String.eqb val "1" || EqualFold val "true" || EqualFold val "yes" || EqualFold val "on".

(* src/src/models.go isClaudeDiscoveryID *)
Definition isClaudeDiscoveryID (model : string) : bool :=
  let model := ToLower (TrimSpace model) in
  HasPrefix model "claude" || HasPrefix model "anthropic".

(* src/src/models.go providerSupportsResponses *)
Definition providerSupportsResponses (provider : Provider) : bool :=
  bool_decide (CapabilityResponses ∈ p_Capabilities provider).

Section handler.
(** What each provider's [ListModels] answers, and the clock. *)
Context (list_models : Provider → result (option ModelList) string) (clock : string → Z).

(** [seen] and a list of entries under construction. *)
Definition listing : Type := gset string * list Model.

(** The step every stage repeats: an entry whose name was not seen is appended. *)
Definition add_entry (st : listing) (m : Model) : listing :=
  if decide (m_ID m ∈ fst st) then st else ({[m_ID m]} ∪ fst st, snd st ++ [m]).

Definition prefixed_entry (p : Provider) (m : Model) : Model :=
  plain_model (AddModelPrefix (p_ID p) (m_ID m)) (m_Object m) (m_Created m) (ProviderOwnedBy (p_ID p)).

(** One provider; its [Health] is read after [EnsureAuthenticated]. *)
(* src/src/models.go:114-143 modelsHandler *)
Definition add_provider (showUnavailable : bool) (st : listing) (p : Provider) : listing :=
  let h := p_Health p in
  if negb (Authenticated h) && negb (CanRefresh h) && negb showUnavailable then st
  else
    match list_models p with
    | Err _ | Ok None => st
    | Ok (Some ml) => foldl add_entry st (prefixed_entry p <$> ml_Data ml)
    end.

(* src/src/models.go:148-158 modelsHandler *)
Definition mapped_entry (x : string * ModelMapEntry) : Model :=
  plain_model (fst x) "model" (clock (fst x)) (ProviderOwnedBy (mm_Provider (snd x))).
(* src/src/models.go:164-173 modelsHandler *)
Definition virtual_entry (x : string * VirtualModel) : Model :=
  plain_model (fst x) "model" (clock (fst x)) "ya-router".

(* src/src/models.go discoverClaudeAliases *)
Definition discoverClaudeAliases (registry : Registry.t) (aliases : list (string * string))
    (known : gset string) : list Model :=
  omap (λ '(alias, target),
    if bool_decide (alias ∈ known) || negb (bool_decide (target ∈ known))
       || negb (isClaudeDiscoveryID alias)
    then None
    else
      match StripModelPrefix target with
      | (_, providerID, true) =>
        match Registry.Get registry providerID with
        | Ok provider =>
          if providerSupportsResponses provider
          then Some (plain_model alias "model" (clock alias) "ya-router") else None
        | Err _ => None
        end
      | (_, _, false) => None
      end) aliases.

(** The order in which the loops visit the three maps. *)
Record map_orders := mkOrders {
  o_mapped : list (string * ModelMapEntry);
  o_virtual : list (string * VirtualModel);
  o_aliases : list (string * string);
}.

(** The entries of the catalog (provider models and [model_map]), the public entries,
    and every name that was seen. *)
Definition internal_entries (registry : Registry.t) (r : Routing) (o : map_orders) : listing :=
  let providers := foldl (add_provider (ShowUnavailableModels r)) (∅, [])
    (registered_providers registry) in
  foldl add_entry providers (mapped_entry <$> o_mapped o).
Definition public_entries (registry : Registry.t) (r : Routing) (o : map_orders) : list Model :=
  let seen := fst (internal_entries registry r o) in
  let '(seen, virtuals) := foldl add_entry (seen, []) (virtual_entry <$> o_virtual o) in
  virtuals ++ discoverClaudeAliases registry (o_aliases o) seen.

(** The entries of the response. *)
(* src/src/models.go:101-194 modelsHandler *)
Definition modelsHandler (registry : Registry.t) (r : Routing) (o : map_orders) : list Model :=
  let internal := snd (internal_entries registry r o) in
  let public := public_entries registry r o in
  if ExposeInternalModels r then internal ++ public else public.

(** The loops visit each key of a map once. *)
Record visits (r : Routing) (o : map_orders) : Prop := {
  v_mapped : o_mapped o ≡ₚ map_to_list (ModelMap r);
  v_virtual : o_virtual o ≡ₚ map_to_list (VirtualModels r);
  v_aliases : o_aliases o ≡ₚ map_to_list (ClaudeAliases r);
}.

(** ** What the loops build *)

Definition ids (l : list Model) : list string := m_ID <$> l.

(** Every name in the list was seen, and none is there twice. *)
Definition tidy (st : listing) : Prop := NoDup (ids (snd st)) ∧ ∀ id, id ∈ ids (snd st) → id ∈ fst st.

Lemma add_entry_tidy st m : tidy st → tidy (add_entry st m).
Proof.
  unfold add_entry. intros [Hnd Hin]. case_decide as Hm; [done|]. split; simpl.
  - unfold ids. rewrite fmap_app. apply NoDup_app_snoc; [|done]. intros H. by apply Hm, Hin.
  - intros id. unfold ids. rewrite fmap_app, elem_of_app. simpl.
    rewrite list_elem_of_singleton. intros [H| ->]; [|set_solver]. apply Hin in H. set_solver.
Qed.

Lemma add_entries_tidy l st : tidy st → tidy (foldl add_entry st l).
Proof. revert st. induction l as [|m l IH]; simpl; intros st H; [done|]. by apply IH, add_entry_tidy. Qed.

Lemma filter_agree {A} (P Q : A → Prop) `{∀ x, Decision (P x), ∀ x, Decision (Q x)} (l : list A) :
  (∀ x, x ∈ l → P x ↔ Q x) → filter P l = filter Q l.
Proof.
  induction l as [|x l IH]; [done|]. intros Hl. rewrite !filter_cons, IH by (intros; apply Hl; by right).
  pose proof (Hl x (list_elem_of_here x l)). repeat case_decide; naive_solver.
Qed.

(** With distinct names, the loop appends the entries not seen before it. *)
Lemma add_entries_distinct l seen acc :
  NoDup (ids l) →
  foldl add_entry (seen, acc) l
  = (list_to_set (ids l) ∪ seen, acc ++ filter (λ m, m_ID m ∉ seen) l).
Proof.
  revert seen acc. induction l as [|m l IH]; simpl; intros seen acc Hnd.
  { rewrite app_nil_r. f_equal. set_solver. }
  apply NoDup_cons in Hnd as [Hm Hnd]. unfold add_entry at 2. simpl.
  rewrite filter_cons. destruct (decide (m_ID m ∈ seen)) as [Hin|Hin].
  - rewrite decide_False by (intros H; by apply H). rewrite IH by done. f_equal. set_solver.
  - rewrite decide_True by done. rewrite IH by done. rewrite <- app_assoc. simpl. f_equal.
    + set_solver.
    + do 2 f_equal. apply filter_agree. intros x Hx. split; [set_solver|].
      intros Hs [Heq%elem_of_singleton|]%elem_of_union; [|done].
      apply Hm. rewrite <- Heq. by apply list_elem_of_fmap_2.
Qed.

Lemma ids_keyed {A} (f : string * A → Model) (l : list (string * A)) :
  (∀ x, m_ID (f x) = fst x) → ids (f <$> l) = fst <$> l.
Proof. intros Hf. unfold ids. rewrite <- list_fmap_compose. apply list_fmap_ext. intros. apply Hf. Qed.

Lemma visited_once {A} (m : gmap string A) (l : list (string * A)) :
  l ≡ₚ map_to_list m → NoDup (fst <$> l).
Proof. intros ->. apply NoDup_fst_map_to_list. Qed.

Definition providers_listing (registry : Registry.t) (r : Routing) : listing :=
  foldl (add_provider (ShowUnavailableModels r)) (∅, []) (registered_providers registry).

Lemma providers_listing_tidy registry r : tidy (providers_listing registry r).
Proof.
  unfold providers_listing. generalize (registered_providers registry).
  assert (tidy (∅, [])) as H by (split; [constructor|set_solver]).
  revert H. generalize ((∅, []) : listing). intros st H ps. revert st H.
  induction ps as [|p ps IH]; simpl; intros st H; [done|]. apply IH.
  unfold add_provider. repeat case_match; try done. by apply add_entries_tidy.
Qed.

Lemma internal_entries_eq registry r o :
  visits r o →
  internal_entries registry r o =
  (list_to_set (fst <$> o_mapped o) ∪ fst (providers_listing registry r),
   snd (providers_listing registry r) ++
   filter (λ m, m_ID m ∉ fst (providers_listing registry r)) (mapped_entry <$> o_mapped o)).
Proof.
  intros [Hm _ _]. unfold internal_entries. fold (providers_listing registry r).
  destruct (providers_listing registry r) as [seen acc].
  assert (ids (mapped_entry <$> o_mapped o) = fst <$> o_mapped o) as E by by apply ids_keyed.
  rewrite add_entries_distinct; rewrite E; [done|]. by eapply visited_once.
Qed.

Lemma internal_entries_tidy registry r o : tidy (internal_entries registry r o).
Proof. apply add_entries_tidy, providers_listing_tidy. Qed.

Lemma public_entries_eq registry r o :
  visits r o →
  public_entries registry r o =
  filter (λ m, m_ID m ∉ fst (internal_entries registry r o)) (virtual_entry <$> o_virtual o) ++
  discoverClaudeAliases registry (o_aliases o)
    (list_to_set (fst <$> o_virtual o) ∪ fst (internal_entries registry r o)).
Proof.
  intros [_ Hv _]. unfold public_entries.
  assert (ids (virtual_entry <$> o_virtual o) = fst <$> o_virtual o) as E by by apply ids_keyed.
  rewrite add_entries_distinct; rewrite E; [done|]. by eapply visited_once.
Qed.

(** An alias that is listed: new, a Claude name, for a seen name of a registered
    provider with the Responses capability. *)
Lemma elem_of_aliases registry aliases known m :
  m ∈ discoverClaudeAliases registry aliases known ↔
  ∃ alias target bare id p, (alias, target) ∈ aliases ∧ m = plain_model alias "model" (clock alias) "ya-router"
    ∧ alias ∉ known ∧ target ∈ known ∧ isClaudeDiscoveryID alias = true
    ∧ StripModelPrefix target = (bare, id, true) ∧ Registry.Get registry id = Ok p
    ∧ providerSupportsResponses p = true.
Proof.
  unfold discoverClaudeAliases. rewrite list_elem_of_omap. split.
  - intros ([alias target] & Hin & Hm).
    destruct (bool_decide (alias ∈ known)) eqn:E1; [done|].
    destruct (bool_decide (target ∈ known)) eqn:E2; [|done].
    destruct (isClaudeDiscoveryID alias) eqn:E3; [|done]. simpl in Hm.
    destruct (StripModelPrefix target) as [[bare id] [|]] eqn:E4; [|done].
    destruct (Registry.Get registry id) as [p|] eqn:E5; [|done].
    destruct (providerSupportsResponses p) eqn:E6; [|done]. simplify_eq.
    apply bool_decide_eq_false in E1. apply bool_decide_eq_true in E2. eauto 15.
  - intros (alias & target & bare & id & p & Hin & -> & H1 & H2 & H3 & H4 & H5 & H6).
    exists (alias, target). split; [done|].
    rewrite bool_decide_eq_false_2, bool_decide_eq_true_2 by done. rewrite H3. simpl.
    by rewrite H4, H5, H6.
Qed.

Lemma aliases_nodup registry aliases known :
  NoDup (fst <$> aliases) → NoDup (ids (discoverClaudeAliases registry aliases known)).
Proof.
  induction aliases as [|[alias target] l IH]; [constructor|].
  rewrite fmap_cons, NoDup_cons. intros [Ha Hnd].
  assert (alias ∉ ids (discoverClaudeAliases registry l known)) as Hnew.
  { intros (m & -> & Hm)%list_elem_of_fmap. apply elem_of_aliases in Hm
      as (a & t & ? & ? & ? & Hin & -> & _). apply Ha. simpl. by apply (list_elem_of_fmap_2 fst _ (a, t)). }
  specialize (IH Hnd). revert Hnew IH. unfold discoverClaudeAliases. simpl.
  intros. repeat case_match; try done; simplify_eq; by constructor.
Qed.

Lemma elem_of_ids_filter P `{∀ m : Model, Decision (P m)} id l :
  id ∈ ids (filter P l) → ∃ m, id = m_ID m ∧ P m ∧ m ∈ l.
Proof. intros (m & -> & [? ?]%list_elem_of_filter)%list_elem_of_fmap. eauto. Qed.

Lemma ids_filter_nodup P `{∀ m : Model, Decision (P m)} l : NoDup (ids l) → NoDup (ids (filter P l)).
Proof.
  induction l as [|m l IH]; [done|]. unfold ids. rewrite fmap_cons, NoDup_cons, filter_cons.
  intros [Hm Hnd]. case_decide; [|by apply IH]. rewrite fmap_cons, NoDup_cons.
  split; [|by apply IH]. intros (x & Hx & _ & Hl)%elem_of_ids_filter. apply Hm. rewrite Hx.
  by apply list_elem_of_fmap_2.
Qed.

Lemma public_ids_new registry r o id :
  visits r o → id ∈ ids (public_entries registry r o) → id ∉ fst (internal_entries registry r o).
Proof.
  intros Hv. rewrite public_entries_eq by done. unfold ids. rewrite fmap_app, elem_of_app.
  intros [(m & -> & Hm & _)%elem_of_ids_filter|(m & -> & Hm)%list_elem_of_fmap]; [done|].
  apply elem_of_aliases in Hm as (a & t & ? & ? & ? & Hin & -> & Hnew & _). set_solver.
Qed.

Lemma public_ids_nodup registry r o : visits r o → NoDup (ids (public_entries registry r o)).
Proof.
  intros Hv. pose proof Hv as [_ Hvm Ha]. rewrite public_entries_eq by done.
  unfold ids. rewrite fmap_app, NoDup_app. split_and!.
  - apply ids_filter_nodup. rewrite ids_keyed by done. by eapply visited_once.
  - intros id (m & -> & _ & Hm)%elem_of_ids_filter (m' & Heq & Hm')%list_elem_of_fmap.
    apply elem_of_aliases in Hm' as (a & t & ? & ? & ? & Hin & -> & Hnew & _). simpl in Heq.
    apply list_elem_of_fmap in Hm as (y & -> & Hy). apply Hnew. simpl in Heq. rewrite <- Heq.
    apply elem_of_union_l, elem_of_list_to_set. by apply list_elem_of_fmap_2.
  - apply aliases_nodup. by eapply visited_once.
Qed.

(** The list of models does not depend on the order in which Go visits the maps,
    and no name is in it twice, whatever the providers answer. *)
Theorem model_list_is_unambiguous registry r o o' (Ho : visits r o) (Ho' : visits r o') :
  NoDup (ids (modelsHandler registry r o)) ∧
  modelsHandler registry r o ≡ₚ modelsHandler registry r o'.
Proof.
  split.
  - unfold modelsHandler. case_match; [|by apply public_ids_nodup].
    unfold ids. rewrite fmap_app, NoDup_app. destruct (internal_entries_tidy registry r o) as [Hnd Hin].
    split_and!; [done| |by apply public_ids_nodup].
    intros id Hid Hpub. by apply (public_ids_new _ _ _ _ Ho) in Hpub; [apply Hpub, Hin].
  - assert (o_mapped o ≡ₚ o_mapped o') as Hm by by rewrite (v_mapped _ _ Ho), (v_mapped _ _ Ho').
    assert (o_virtual o ≡ₚ o_virtual o') as Hv by by rewrite (v_virtual _ _ Ho), (v_virtual _ _ Ho').
    assert (o_aliases o ≡ₚ o_aliases o') as Ha by by rewrite (v_aliases _ _ Ho), (v_aliases _ _ Ho').
    assert (fst (internal_entries registry r o) = fst (internal_entries registry r o')) as Hseen.
    { rewrite !internal_entries_eq by done. simpl. f_equal. by apply list_to_set_perm_L, fmap_Permutation. }
    assert (public_entries registry r o ≡ₚ public_entries registry r o') as Hpub.
    { rewrite !public_entries_eq, Hseen by done.
      rewrite (list_to_set_perm_L (C := gset string) _ _ (fmap_Permutation fst _ _ Hv)).
      f_equiv; [by rewrite Hv|]. unfold discoverClaudeAliases. by rewrite Ha. }
    unfold modelsHandler. case_match; [|done]. rewrite Hpub. f_equiv.
    rewrite !internal_entries_eq by done. simpl. by rewrite Hm.
Qed.

(** The names of the providers' entries carry a known prefix, when the providers are
    the known ones. *)
Lemma AddModelPrefix_known id m :
  routed_provider id → is_Some (matchKnownPrefix (AddModelPrefix id m) KnownPrefixes).
Proof.
  intros Hid.
  assert (∃ p, p ∈ KnownPrefixes ∧ p ≠ "" ∧ HasPrefix (AddModelPrefix id m) p = true) as Hp.
  { exists (ProviderPrefix id). unfold AddModelPrefix.
    destruct Hid as [-> |[-> | ->]]; (split; [listed|]); (split; [done|]);
      match goal with |- context [HasPrefix m ?p] => destruct (HasPrefix m p) eqn:E end;
      simpl; try done; by apply HasPrefix_app. }
  destruct Hp as (p & Hin & Hne & Hpre).
  destruct (matchKnownPrefix (AddModelPrefix id m) KnownPrefixes) eqn:E; [done|].
  by rewrite (proj1 (matchKnownPrefix_None _ _) E p Hin Hne) in Hpre.
Qed.

Lemma add_entries_seen l st id :
  id ∈ fst (foldl add_entry st l) → id ∈ fst st ∨ id ∈ ids l.
Proof.
  revert st. induction l as [|m l IH]; simpl; intros st H; [by left|].
  apply IH in H as [H|H]; [|right; by right].
  unfold add_entry in H. case_decide; [by left|]. simpl in H.
  apply elem_of_union in H as [->%elem_of_singleton|H]; [right; by left|by left].
Qed.

Lemma providers_seen_prefixed registry r id :
  (∀ p, p ∈ registered_providers registry → routed_provider (p_ID p)) →
  id ∈ fst (providers_listing registry r) → is_Some (matchKnownPrefix id KnownPrefixes).
Proof.
  intros Hps. unfold providers_listing. revert Hps id.
  assert (∀ id, id ∈ fst ((∅, []) : listing) → is_Some (matchKnownPrefix id KnownPrefixes)) as H by set_solver.
  revert H. generalize ((∅, []) : listing). generalize (registered_providers registry).
  intros ps. induction ps as [|p ps IH]; simpl; intros st Hst Hps; [done|].
  apply IH; [|intros; apply Hps; by right]. intros id.
  unfold add_provider. repeat case_match; try exact (Hst id).
  intros [|Hid]%add_entries_seen; [by apply Hst|].
  unfold ids in Hid. rewrite <- list_fmap_compose in Hid.
  apply list_elem_of_fmap in Hid as (u & -> & _). apply AddModelPrefix_known, Hps. by left.
Qed.

(** Every umbrella model of a validated configuration is in the public list,
    once, owned by the router, whether or not the catalogs of the providers are
    shown, and whatever they contain. *)
Theorem every_virtual_model_is_listed registry r o id vm (Ho : visits r o)
    (Hvalid : ValidateVirtualModels r KnownPrefixes = Ok tt)
    (Hps : ∀ p, p ∈ registered_providers registry → routed_provider (p_ID p))
    (Hid : VirtualModels r !! id = Some vm) :
  plain_model id "model" (clock id) "ya-router" ∈ modelsHandler registry r o.
Proof.
  destruct (proj1 (ValidateVirtualModels_Ok _ _) Hvalid _ _ Hid) as [_ Hprefix Hshadow _ _ _ _].
  assert (plain_model id "model" (clock id) "ya-router" ∈ public_entries registry r o) as Hin.
  { rewrite public_entries_eq by done. apply elem_of_app. left. apply list_elem_of_filter. split.
    - rewrite internal_entries_eq by done. simpl. rewrite elem_of_union, elem_of_list_to_set.
      intros [([k v] & -> & Hx)%list_elem_of_fmap|Hseen].
      + rewrite (v_mapped _ _ Ho) in Hx. apply elem_of_map_to_list in Hx. simpl in *. congruence.
      + apply providers_seen_prefixed in Hseen as [? ?]; [congruence|done].
    - apply list_elem_of_fmap. exists (id, vm). split; [done|].
      rewrite (v_virtual _ _ Ho). by apply elem_of_map_to_list. }
  unfold modelsHandler. case_match; [|done]. apply elem_of_app. by right.
Qed.

End handler.
End Models.

(** ** Last known catalogs and their refresh *)
Module Refresh.

(* src/src/provider_availability.go lastKnownModelIDs *)
Definition lastKnownModelIDs (now : Time) (cache : ModelCache.t)
    : option (list string * Time * bool) :=
  match ModelCache.LastKnownGood now cache with
  | None => None
  | Some (ml, fetched, isStale) =>
    Some ((λ m, fst (fst (StripModelPrefix (m_ID m)))) <$> ml_Data ml, fetched, isStale)
  end.

(* src/src/provider_availability.go bareAllowedModels *)
Definition bareAllowedModels (allowed : list string) : list string :=
  (λ entry, fst (fst (StripModelPrefix entry))) <$> allowed.

(** A provider as the router asks it, with the views above of its cache and its
    configured allowlist. *)
(* src/src/provider_availability.go:36-44 CopilotProvider.LastKnownModels *)
(* src/src/provider_availability.go:46-54 CodexProvider.LastKnownModels *)
(* src/src/provider_availability.go:56-64 KiloProvider.LastKnownModels *)
Definition with_views (now : Time) (cache : ModelCache.t) (allowed : list string) (p : Provider)
    : Provider :=
  mkProvider (p_ID p) (p_Capabilities p) (p_ListModels p) (p_Health p)
    (Some (lastKnownModelIDs now cache)) (Some (bareAllowedModels allowed)).

Section refresh.
(** The instants and the answer of the fetch of each provider. *)
Context {E : Type} (t1 t2 t3 : string → Time) (fetch : string → result ModelList E).

Notation caches := (gmap string ModelCache.t).

(** Every provider's [ListModels] goes through its cache. *)
Definition ListModels (id : string) (m : caches) : caches :=
  match m !! id with
  | Some c => <[id := fst (ModelCache.GetOrFetch (t1 id) (t2 id) (t3 id) (fetch id) c)]> m
  | None => m
  end.

(* src/src/catalog_refresher.go refreshAllCatalogs *)
Definition refreshAllCatalogs (providers : list string) (m : caches) : caches :=
  foldl (λ m id, ListModels id m) m providers.

(* src/src/models.go invalidateProvidersModelCache *)
Definition invalidateProvidersModelCache (providers : list string) (m : caches) : caches :=
  foldl (λ m id, alter ModelCache.Invalidate id m) m providers.

(** A background refresh keeps what was known of a provider whose fetch fails. *)
Lemma ListModels_failed id d e m : fetch id = Err e → ListModels d m !! id = m !! id.
Proof.
  intros Hf. unfold ListModels. destruct (m !! d) as [c|] eqn:Hd; [|done].
  destruct (decide (d = id)) as [->|Hn]; [|by rewrite lookup_insert_ne].
  rewrite lookup_insert_eq, Hd. unfold ModelCache.GetOrFetch. rewrite Hf. by repeat case_match.
Qed.

Theorem failed_refresh_keeps_the_catalog providers id e m (Hf : fetch id = Err e) :
  refreshAllCatalogs providers m !! id = m !! id.
Proof.
  unfold refreshAllCatalogs. revert m. induction providers as [|d ps IH]; simpl; intros m; [done|].
  by rewrite IH, (ListModels_failed _ _ e).
Qed.

Lemma invalidate_spec providers id m :
  invalidateProvidersModelCache providers m !! id
  = if decide (id ∈ providers) then ModelCache.Invalidate <$> m !! id else m !! id.
Proof.
  unfold invalidateProvidersModelCache. revert m.
  induction providers as [|d ps IH]; simpl; intros m; [done|]. rewrite IH.
  destruct (decide (d = id)) as [->|Hn].
  - rewrite lookup_alter_eq, (decide_True (P := id ∈ id :: ps)) by (by left).
    case_decide; [|done]. by destruct (m !! id).
  - rewrite lookup_alter_ne by done. repeat case_decide; try done; set_solver.
Qed.

(** What the next callers of the cache find after a request to refresh whose fetch
    fails. *)
Lemma invalidated_and_failed providers id e m c :
  id ∈ providers → m !! id = Some c → fetch id = Err e →
  ListModels id (invalidateProvidersModelCache providers m) !! id = Some (ModelCache.Invalidate c).
Proof.
  intros Hin Hc Hf. rewrite (ListModels_failed _ _ e), invalidate_spec, decide_True by done.
  by rewrite Hc.
Qed.
End refresh.

(** A provider without a known catalog has no routable target. *)
Lemma no_catalog_not_routable {Bytes} `{StateCodec Bytes} c (r : Router Bytes) p s t model capability :
  p_LastKnownModels p = Some None →
  s_providers s !! p_ID p = Some (entry_of_view t (snd (provider_view c r p))) →
  Routable (Evaluate (Some s) (p_ID p) model capability) = false.
Proof.
  intros Hk Hs. unfold Evaluate. rewrite Hs. clear Hs. unfold provider_view.
  destruct (Cooldowns _ _ _ _) as [cd [active expired]]. rewrite Hk. simpl.
  repeat case_match; done.
Qed.

(** A background refresh that fails leaves the last known catalog, and with it
    every umbrella target.  A client's [GET /v1/models?refresh=1] whose fetch fails
    does not: the catalogs are dropped before the fetch, and until a later fetch
    succeeds no target of the provider is routable. *)
Theorem refresh_request_unroutes_umbrellas {Bytes} `{StateCodec Bytes} {E} c (r : Router Bytes)
    t1 t2 t3 (fetch : string → result ModelList E) providers m p cache cache' e allowed now s t model capability
    (Hp : p_ID p ∈ providers) (Hc : m !! p_ID p = Some cache) (Hf : fetch (p_ID p) = Err e)
    (Hc' : ListModels t1 t2 t3 fetch (p_ID p) (invalidateProvidersModelCache providers m) !! p_ID p = Some cache')
    (Hs : s_providers s !! p_ID p =
          Some (entry_of_view t (snd (provider_view c r (with_views now cache' allowed p))))) :
  refreshAllCatalogs t1 t2 t3 fetch providers m !! p_ID p = Some cache ∧
  Routable (Evaluate (Some s) (p_ID p) model capability) = false.
Proof.
  split; [by rewrite (failed_refresh_keeps_the_catalog _ _ _ _ _ _ e)|].
  rewrite (invalidated_and_failed _ _ _ _ _ _ e _ cache) in Hc' by done. injection Hc' as <-.
  by apply (no_catalog_not_routable c r (with_views now (ModelCache.Invalidate cache) allowed p) s t).
Qed.
End Refresh.

Module ExampleCatalog.

Definition known : ModelCache.t :=
  ModelCache.Set_ 5%Z (mkModelList "list" [plain_model "gpt-5" "model" 1 "openai"])
    (ModelCache.NewModelCache 0).

(** The target is routable with the catalog, and unroutable after the request. *)
Definition views (cache : ModelCache.t) : Provider :=
  Refresh.with_views 6%Z cache [] (example_provider Codex []).
Definition snapshot (cache : ModelCache.t) : Snapshot :=
  NewSnapshot 1 100%Z [snd (provider_view (example_clock 100) example_router (views cache))].

Example known_catalog_is_routable :
  Routable (Evaluate (Some (snapshot known)) Codex "gpt-5" CapabilityChat) = true.
Proof. vm_compute. reflexivity. Qed.

Lemma refresh_request_unroutes_umbrellas_witness :
  Routable (Evaluate (Some (snapshot (ModelCache.Invalidate known))) Codex "gpt-5" CapabilityChat) = false.
Proof.
  refine (proj2 (Refresh.refresh_request_unroutes_umbrellas (example_clock 100) example_router
    (λ _, 6%Z) (λ _, 6%Z) (λ _, 7%Z) (λ _, Err "down") [Codex] {[Codex := known]}
    (example_provider Codex []) known (ModelCache.Invalidate known) "down" [] 6%Z
    (snapshot (ModelCache.Invalidate known)) 100%Z "gpt-5" CapabilityChat _ _ _ _ _));
    [listed|reflexivity|reflexivity|vm_compute; reflexivity|vm_compute; reflexivity].
Defined.

(** ** A list of models *)

Definition catalog (p : Provider) : result (option ModelList) string :=
  Ok (Some (mkModelList "list" [plain_model "gpt-5" "model" 1 "x"; plain_model "gpt-5" "model" 2 "x"])).
Definition responses_provider : Provider :=
  mkProvider Codex [CapabilityChat; CapabilityResponses] (Err "") (mkHealth true true "" zeroTime) None None.
Definition registry : Registry.t := Registry.NewRegistry [Some responses_provider].
Definition routing : Routing :=
  mkRouting "" "" false {["mine" := mkModelMapEntry Codex "gpt-5"]}
    {["claude-x" := "codex/gpt-5"; "claude-y" := "mine"; "other" := "codex/gpt-5"]}
    {["best" := mkVirtualModel VirtualModelStrategyPriority (Some ["codex/gpt-5"])]} true.
Definition orders : Models.map_orders :=
  Models.mkOrders (map_to_list (ModelMap routing)) (map_to_list (VirtualModels routing))
    (map_to_list (ClaudeAliases routing)).

Lemma orders_visit : Models.visits routing orders.
Proof. by split. Defined.

Example listed_models :
  Models.ids (Models.modelsHandler catalog (λ _, 9%Z) registry routing orders)
  = ["codex/gpt-5"; "mine"; "best"; "claude-x"].
Proof. vm_compute. reflexivity. Qed.

Lemma model_list_is_unambiguous_witness :
  NoDup (Models.ids (Models.modelsHandler catalog (λ _, 9%Z) registry routing orders)).
Proof.
  refine (proj1 (Models.model_list_is_unambiguous catalog (λ _, 9%Z) registry routing orders orders _ _));
    exact orders_visit.
Defined.

Lemma every_virtual_model_is_listed_witness :
  plain_model "best" "model" 9 "ya-router" ∈
  Models.modelsHandler catalog (λ _, 9%Z) registry routing orders.
Proof.
  refine (Models.every_virtual_model_is_listed catalog (λ _, 9%Z) registry routing orders "best"
    (mkVirtualModel VirtualModelStrategyPriority (Some ["codex/gpt-5"])) orders_visit _ _ _).
  - vm_compute. reflexivity.
  - intros p Hp%list_elem_of_singleton. subst p. right. by left.
  - vm_compute. reflexivity.
Defined.
End ExampleCatalog.
