(* ===== verification/Telemetry.v ===== *)
(** * Telemetry: per-target request and usage counters

    [internal/telemetry].  A request's handle is a value of the heap [handles]:
    the code's [Finish] first marks the handle as done, under its own lock, and
    then updates the recorder under the recorder's, so other requests can run in
    between; the two halves are two operations here, and [Finish] is the one after
    the other. *)

From S2P Require Import Prelude GoStd.

(** ** Data *)

(* src/internal/telemetry/telemetry.go ErrorCategory *)
(* src/internal/telemetry/telemetry.go ErrorCategoryNone *)
Inductive ErrorCategory :=
| ErrorCategoryNone | ErrorCategoryInvalidRequest | ErrorCategoryAuthRequired
| ErrorCategoryEntitlementDenied | ErrorCategoryRateLimited | ErrorCategoryUnsupported
| ErrorCategoryProviderUnavailable | ErrorCategoryTransport | ErrorCategoryModelUnavailable
| ErrorCategoryTimeout | ErrorCategoryCanceled.

(* src/internal/telemetry/telemetry.go ProviderDisplayState *)
(* src/internal/telemetry/telemetry.go StateServing *)
Inductive ProviderDisplayState :=
| StateServing | StateReady | StateCooldown | StateAuthRequired | StateDisabled | StateError.

(* src/internal/telemetry/telemetry.go Usage *)
Record Usage := mkUsage { InputTokens : Z; OutputTokens : Z; TotalTokens : Z }.

(* src/internal/telemetry/telemetry.go Outcome *)
Record Outcome := mkOutcome {
  Success : bool;
  oc_ErrorCategory : ErrorCategory;
  ProducedMessage : bool;
  oc_Usage : option Usage;
}.

(* src/internal/telemetry/telemetry.go targetState *)
Record targetState := mkTarget {
  requests : Z;
  successes : Z;
  errors : Z;
  inFlight : Z;
  messages : Z;
  lastLatency : Duration;
  lastErrorCategory : ErrorCategory;
  inputTokens : Z;
  outputTokens : Z;
  totalTokens : Z;
  unavailableUsageCount : Z;
}.
Definition zeroTarget : targetState := mkTarget 0 0 0 0 0 0 ErrorCategoryNone 0 0 0 0.

(** A handle is open, done but not yet counted, or counted. *)
Inductive handle_status := Open | Closing (outcome : Outcome) | Closed.

(* src/internal/telemetry/telemetry.go InFlight *)
Record InFlight := mkHandle {
  h_recorder : bool;
  h_providerID : string;
  h_model : string;
  h_start : Time;
  h_status : handle_status;
}.

(* src/internal/telemetry/telemetry.go Recorder *)
Record Recorder := mkRecorder { targets : gmap string targetState; handles : list InFlight }.

(* src/internal/telemetry/telemetry.go NewRecorder *)
Definition NewRecorder : Recorder := mkRecorder ∅ [].

(* src/internal/telemetry/telemetry.go targetKey *)
Definition targetKey (providerID model : string) : string := providerID +:+ nul +:+ model.

(* src/internal/telemetry/telemetry.go splitTargetKey *)
Fixpoint splitTargetKey (key : string) : string * string :=
  match key with
  | "" => ("", "")
  | String c rest =>
    if Ascii.eqb c "000" then ("", rest)
    else let '(a, b) := splitTargetKey rest in (String c a, b)
  end.

(* src/internal/telemetry/telemetry.go Recorder.stateLocked *)
Definition stateLocked (m : gmap string targetState) (key : string) : targetState :=
  default zeroTarget (m !! key).

(** [recorder] says whether a recorder is installed: the methods of a nil one are
    no-ops, but the handle exists. *)
(* src/internal/telemetry/telemetry.go Recorder.Begin *)
Definition Begin (recorder : bool) (now : Time) (providerID model : string) (w : Recorder)
    : Recorder * nat :=
  let handle := mkHandle recorder providerID model now Open in
  let handles' := handles w ++ [handle] in
  if recorder then
    let key := targetKey providerID model in
    let s := stateLocked (targets w) key in
    (mkRecorder
       (<[key := mkTarget (wrap_u64 (requests s + 1)) (successes s) (errors s)
           (wrap_i64 (inFlight s + 1)) (messages s) (lastLatency s) (lastErrorCategory s)
           (inputTokens s) (outputTokens s) (totalTokens s) (unavailableUsageCount s)]>
          (targets w)) handles', length (handles w))
  else (mkRecorder (targets w) handles', length (handles w)).

Definition set_status (s : handle_status) (h : InFlight) : InFlight :=
  mkHandle (h_recorder h) (h_providerID h) (h_model h) (h_start h) s.

(** The first half of [Finish]: the handle is marked done, once. *)
(* src/internal/telemetry/telemetry.go InFlight.Finish *)
Definition Finish_mark (id : nat) (outcome : Outcome) (w : Recorder) : Recorder :=
  match handles w !! id with
  | Some h =>
    match h_status h with
    | Open =>
      mkRecorder (targets w)
        (<[id := set_status (Closing outcome) h]> (handles w))
    | _ => w
    end
  | None => w
  end.

Definition apply_outcome (latency : Duration) (outcome : Outcome) (s : targetState) : targetState :=
  let success := Success outcome in
  mkTarget (requests s)
    (if success then wrap_u64 (successes s + 1) else successes s)
    (if success then errors s else wrap_u64 (errors s + 1))
    (if (0 <? inFlight s)%Z then inFlight s - 1 else inFlight s)
    (if ProducedMessage outcome then wrap_u64 (messages s + 1) else messages s)
    latency
    (if success then lastErrorCategory s else oc_ErrorCategory outcome)
    (match oc_Usage outcome with Some u => wrap_i64 (inputTokens s + InputTokens u) | None => inputTokens s end)
    (match oc_Usage outcome with Some u => wrap_i64 (outputTokens s + OutputTokens u) | None => outputTokens s end)
    (match oc_Usage outcome with Some u => wrap_i64 (totalTokens s + TotalTokens u) | None => totalTokens s end)
    (match oc_Usage outcome with Some _ => unavailableUsageCount s | None => wrap_u64 (unavailableUsageCount s + 1) end).

(** The second half: the outcome is counted. *)
(* src/internal/telemetry/telemetry.go InFlight.Finish *)
Definition Finish_apply (now : Time) (id : nat) (w : Recorder) : Recorder :=
  match handles w !! id with
  | Some h =>
    match h_status h with
    | Closing outcome =>
      let key := targetKey (h_providerID h) (h_model h) in
      mkRecorder
        (if h_recorder h
         then <[key := apply_outcome (now - h_start h) outcome (stateLocked (targets w) key)]>
                (targets w)
         else targets w)
        (<[id := set_status Closed h]> (handles w))
    | _ => w
    end
  | None => w
  end.

(* src/internal/telemetry/telemetry.go InFlight.Finish *)
Definition Finish (now : Time) (id : nat) (outcome : Outcome) (w : Recorder) : Recorder :=
  match handles w !! id with
  | Some h =>
    match h_status h with
    | Open => Finish_apply now id (Finish_mark id outcome w)
    | _ => w
    end
  | None => w
  end.

(* src/internal/telemetry/telemetry.go TargetSnapshot *)
Record TargetSnapshot := mkTS { ts_Provider : string; ts_Model : string; ts_State : targetState }.

Definition ts_le (a b : TargetSnapshot) : Prop :=
  if decide (ts_Provider a = ts_Provider b) then String.le (ts_Model a) (ts_Model b)
  else String.le (ts_Provider a) (ts_Provider b).
#[global] Instance ts_le_dec : RelDecision ts_le.
Proof. intros a b. unfold ts_le. case_decide; apply _. Defined.

(* src/internal/telemetry/telemetry.go Recorder.Snapshot *)
Definition Snapshot (w : Recorder) : list TargetSnapshot :=
  merge_sort ts_le
    ((λ kv : string * targetState, let '(p, m) := splitTargetKey kv.1 in mkTS p m kv.2)
       <$> map_to_list (targets w)).

(* src/internal/telemetry/telemetry.go DeriveProviderState *)
Definition DeriveProviderState (enabled authenticated healthError hasActiveCooldown : bool)
    (inFlight : Z) : ProviderDisplayState :=
  if negb enabled then StateDisabled
  else if healthError then StateError
  else if negb authenticated then StateAuthRequired
  else if hasActiveCooldown then StateCooldown
  else if (0 <? inFlight)%Z then StateServing
  else StateReady.

(** ** Interleavings *)

Inductive op :=
| OpBegin (recorder : bool) (now : Time) (providerID model : string)
| OpMark (id : nat) (outcome : Outcome)
| OpApply (now : Time) (id : nat).

Definition step (w : Recorder) (o : op) : Recorder :=
  match o with
  | OpBegin recorder now providerID model => fst (Begin recorder now providerID model w)
  | OpMark id outcome => Finish_mark id outcome w
  | OpApply now id => Finish_apply now id w
  end.

(** The number of handles with a property, as the counters count them. *)
Fixpoint tally (p : InFlight → bool) (l : list InFlight) : Z :=
  match l with [] => 0 | h :: l => (if p h then 1 else 0) + tally p l end.

Definition of_target (key : string) (h : InFlight) : bool :=
  h_recorder h && String.eqb (targetKey (h_providerID h) (h_model h)) key.
Definition not_counted (h : InFlight) : bool :=
  match h_status h with Closed => false | _ => true end.
Definition counted (h : InFlight) : bool := negb (not_counted h).

Lemma tally_app p l k : tally p (l ++ k) = (tally p l + tally p k)%Z.
Proof. induction l; simpl; lia. Qed.

Lemma tally_insert p l i h h' :
  l !! i = Some h →
  tally p (<[i := h']> l) = (tally p l - (if p h then 1 else 0) + (if p h' then 1 else 0))%Z.
Proof.
  revert i; induction l as [|x l IH]; intros i Hi; [done|].
  destruct i as [|i]; simpl in *; [injection Hi as ->; lia|]. rewrite (IH i Hi). lia.
Qed.

Lemma tally_bounds p l : (0 ≤ tally p l ≤ Z.of_nat (length l))%Z.
Proof. induction l; simpl; [lia|]. destruct (p a); lia. Qed.

Lemma tally_ext p q l : (∀ h, p h = q h) → tally p l = tally q l.
Proof. intros Hpq. induction l; simpl; [done|]. by rewrite Hpq, IHl. Qed.

Lemma tally_split p q l :
  tally p l = (tally (λ h, p h && q h) l + tally (λ h, p h && negb (q h)) l)%Z.
Proof. induction l; simpl; [done|]. destruct (p a), (q a); simpl; lia. Qed.

(** What the counters of a target mean: [inFlight] is the number of its handles
    whose outcome is not counted yet, [requests] the number of all of them. *)
Record accounted (w : Recorder) (key : string) : Prop := {
  ac_requests : requests (stateLocked (targets w) key) = tally (of_target key) (handles w);
  ac_inflight : inFlight (stateLocked (targets w) key)
    = tally (λ h, of_target key h && not_counted h) (handles w);
  ac_outcomes : (successes (stateLocked (targets w) key) + errors (stateLocked (targets w) key))%Z
    = tally (λ h, of_target key h && counted h) (handles w);
  ac_signs : (0 ≤ successes (stateLocked (targets w) key))%Z
    ∧ (0 ≤ errors (stateLocked (targets w) key))%Z;
}.

Lemma accounted_init key : accounted NewRecorder key.
Proof. by split. Qed.

Lemma length_step w o : length (handles w) ≤ length (handles (step w o)).
Proof.
  destruct o; simpl; unfold Begin, Finish_mark, Finish_apply; repeat case_match; simpl;
    rewrite ?length_app, ?length_insert; lia.
Qed.

Lemma accounted_begin w key recorder now providerID model :
  (Z.of_nat (S (length (handles w))) < 2 ^ 63)%Z →
  accounted w key → accounted (fst (Begin recorder now providerID model w)) key.
Proof.
  intros Hlen [Hr Hi Ho Hs]. unfold Begin.
  pose proof (tally_bounds (of_target key) (handles w)).
  pose proof (tally_bounds (λ h, of_target key h && not_counted h) (handles w)).
  destruct recorder; simpl; [|split; simpl; rewrite ?tally_app; simpl; lia].
  destruct (decide (targetKey providerID model = key)) as [<-|Hne].
  - split; unfold stateLocked in *; simpl; rewrite ?lookup_insert_eq, ?tally_app; simpl;
      unfold of_target, not_counted, counted in *; simpl; rewrite ?String.eqb_refl; simpl.
    + rewrite wrap_u64_small; lia.
    + rewrite wrap_i64_small; lia.
    + lia.
    + lia.
  - assert (of_target key (mkHandle true providerID model now Open) = false) as Hf.
    { unfold of_target. simpl. by apply String.eqb_neq. }
    split; unfold stateLocked in *; simpl; rewrite ?lookup_insert_ne, ?tally_app by done; simpl;
      rewrite ?Hf; simpl; lia.
Qed.

Lemma accounted_mark w key id outcome : accounted w key → accounted (Finish_mark id outcome w) key.
Proof.
  intros [Hr Hi Ho Hs]. unfold Finish_mark.
  destruct (handles w !! id) as [h|] eqn:Hh; [|done].
  destruct (h_status h) eqn:Hst; [|done..].
  split; simpl; try done; rewrite ?Hr, ?Hi, ?Ho; rewrite (tally_insert _ _ _ _ _ Hh);
    unfold of_target, counted, not_counted; simpl; rewrite ?Hst;
    destruct (h_recorder h), (String.eqb _ _); simpl; lia.
Qed.

Lemma accounted_apply w key now id :
  (Z.of_nat (length (handles w)) < 2 ^ 63)%Z →
  accounted w key → accounted (Finish_apply now id w) key.
Proof.
  intros Hlen [Hr Hi Ho Hs]. unfold Finish_apply.
  destruct (handles w !! id) as [h|] eqn:Hh; [|done].
  destruct (h_status h) as [|outcome|] eqn:Hst; [done| |done].
  pose proof (tally_insert (of_target key) _ _ _ (set_status Closed h) Hh) as T1.
  pose proof (tally_insert (λ h, of_target key h && not_counted h) _ _ _ (set_status Closed h) Hh) as T2.
  pose proof (tally_insert (λ h, of_target key h && counted h) _ _ _ (set_status Closed h) Hh) as T3.
  assert (of_target key (set_status Closed h) = of_target key h) as Hof by done.
  assert (not_counted h = true) as Hnc by (unfold not_counted; by rewrite Hst).
  cbn beta in T2, T3.
  assert (counted h = false) as Hct by (unfold counted; by rewrite Hnc).
  rewrite Hof in T1, T2, T3. rewrite Hnc in T2. rewrite Hct in T3. simpl in T2, T3.
  pose proof (tally_bounds (λ h, of_target key h && not_counted h) (<[id:=set_status Closed h]> (handles w))).
  pose proof (tally_bounds (λ h, of_target key h && counted h) (handles w)).
  destruct (decide (h_recorder h = true ∧ targetKey (h_providerID h) (h_model h) = key)) as [[Hrec <-]|Hne].
  - assert (of_target (targetKey (h_providerID h) (h_model h)) h = true) as Ht
      by (unfold of_target; by rewrite Hrec, String.eqb_refl).
    rewrite Ht in T1, T2, T3. simpl in T1, T2, T3.
    split; unfold stateLocked in *; simpl; rewrite ?Hrec, lookup_insert_eq; simpl.
    + lia.
    + destruct (Z.ltb_spec 0 (inFlight (default zeroTarget
        (targets w !! targetKey (h_providerID h) (h_model h))))); lia.
    + destruct (Success outcome); rewrite wrap_u64_small; lia.
    + destruct (Success outcome); rewrite wrap_u64_small; lia.
  - assert (of_target key h = false) as Ht.
    { unfold of_target. destruct (h_recorder h); simpl; [|done]. apply String.eqb_neq. naive_solver. }
    rewrite Ht in T1, T2, T3. simpl in T1, T2, T3.
    assert (stateLocked (if h_recorder h
         then <[targetKey (h_providerID h) (h_model h) :=
           apply_outcome (now - h_start h) outcome
             (stateLocked (targets w) (targetKey (h_providerID h) (h_model h)))]> (targets w)
         else targets w) key = stateLocked (targets w) key) as Hst'.
    { destruct (h_recorder h) eqn:Hrec; [|done]. unfold stateLocked at 1.
      rewrite lookup_insert_ne; [done|]. naive_solver. }
    split; simpl; rewrite Hst'; lia.
Qed.

Lemma accounted_step w key o :
  (Z.of_nat (length (handles (step w o))) < 2 ^ 63)%Z →
  accounted w key → accounted (step w o) key.
Proof.
  intros Hlen. pose proof (length_step w o).
  destruct o as [recorder now p m|id outcome|now id]; simpl in *.
  - apply accounted_begin. unfold Begin in Hlen. destruct recorder; simpl in Hlen;
      rewrite length_app in Hlen; simpl in Hlen; lia.
  - apply accounted_mark.
  - apply accounted_apply. lia.
Qed.

Lemma length_steps ops w : length (handles w) ≤ length (handles (foldl step w ops)).
Proof.
  revert w; induction ops as [|o ops IH]; intros w; simpl; [done|].
  pose proof (length_step w o). specialize (IH (step w o)). lia.
Qed.

Lemma accounted_steps ops w key :
  (Z.of_nat (length (handles (foldl step w ops))) < 2 ^ 63)%Z →
  accounted w key → accounted (foldl step w ops) key.
Proof.
  revert w; induction ops as [|o ops IH]; intros w Hlen Hw; simpl in *; [done|].
  apply IH; [done|]. apply accounted_step; [|done].
  pose proof (length_steps ops (step w o)). lia.
Qed.

Lemma tally_zero p l : (∀ h, h ∈ l → p h = false) → tally p l = 0%Z.
Proof.
  induction l as [|h l IH]; intros Hp; simpl; [done|].
  rewrite Hp by (by left). rewrite IH; [done|]. intros x Hx. apply Hp. by right.
Qed.

(** A request begun and finished leaves one closed handle more. *)
Lemma Begin_Finish_handles recorder now now' p m outcome w :
  let '(w1, id) := Begin recorder now p m w in
  handles (Finish now' id outcome w1) = handles w ++ [mkHandle recorder p m now Closed].
Proof.
  assert (∀ ts, handles (Finish now' (length (handles w)) outcome
    (mkRecorder ts (handles w ++ [mkHandle recorder p m now Open])))
    = handles w ++ [mkHandle recorder p m now Closed]) as Hf.
  { intros ts. unfold Finish, Finish_mark, Finish_apply. simpl.
    rewrite list_lookup_middle by done. simpl.
    rewrite list_insert_snoc. simpl. rewrite list_lookup_middle by done. simpl.
    by rewrite list_insert_snoc. }
  unfold Begin. destruct recorder; apply Hf.
Qed.

(** ** Properties *)

(** Telemetry conservation, under every interleaving of the starts and the two
    halves of the finishes of concurrent requests: for every target, [requests] is
    the number of requests begun, [inFlight] the number of those whose outcome is
    not counted yet, and [requests = successes + errors + inFlight]; once every
    handle is finished, [inFlight] is back at zero. *)
Theorem telemetry_conservation ops key :
  let w := foldl step NewRecorder ops in
  let s := stateLocked (targets w) key in
  (Z.of_nat (length (handles w)) < 2 ^ 63)%Z →
  requests s = tally (of_target key) (handles w)
  ∧ inFlight s = tally (λ h, of_target key h && not_counted h) (handles w)
  ∧ requests s = (successes s + errors s + inFlight s)%Z
  ∧ ((∀ h, h ∈ handles w → h_status h = Closed) → inFlight s = 0%Z).
Proof.
  intros w s Hlen. destruct (accounted_steps ops NewRecorder key Hlen (accounted_init key))
    as [Hr Hi Ho _]. fold w in Hr, Hi, Ho. fold s in Hr, Hi, Ho. split_and!; [done|done| |].
  - rewrite Hr, (tally_split _ not_counted), Ho, Hi. unfold counted. lia.
  - intros Hall. rewrite Hi. apply tally_zero. intros h Hh. unfold not_counted.
    rewrite (Hall h Hh). by rewrite andb_false_r.
Qed.

Definition example_ops : list op :=
  [OpBegin true 1 "codex" "gpt-5"; OpBegin true 2 "codex" "gpt-5";
   OpMark 0 (mkOutcome true ErrorCategoryNone true None);
   OpMark 0 (mkOutcome false ErrorCategoryTimeout false None); OpApply 9 0].

Lemma telemetry_conservation_witness :
  let s := stateLocked (targets (foldl step NewRecorder example_ops)) (targetKey "codex" "gpt-5") in
  requests s = (successes s + errors s + inFlight s)%Z ∧ inFlight s = 1%Z.
Proof.
  split; [|vm_compute; reflexivity].
  refine (proj1 (proj2 (proj2 (telemetry_conservation example_ops (targetKey "codex" "gpt-5") _)))).
  vm_compute. reflexivity.
Defined.

(** Finishing a request twice records the first outcome only. *)
Theorem finish_records_once now now' id outcome outcome' w :
  Finish now' id outcome' (Finish now id outcome w) = Finish now id outcome w.
Proof.
  unfold Finish at 2 3. destruct (handles w !! id) as [h|] eqn:Hh.
  - destruct (h_status h) eqn:Hst.
    + unfold Finish_mark. rewrite Hh, Hst. unfold Finish_apply. simpl.
      rewrite list_lookup_insert_eq by (by eapply lookup_lt_Some). simpl.
      unfold Finish. simpl.
      rewrite list_lookup_insert_eq by (rewrite length_insert; by eapply lookup_lt_Some). done.
    + unfold Finish. by rewrite Hh, Hst.
    + unfold Finish. by rewrite Hh, Hst.
  - unfold Finish. by rewrite Hh.
Qed.
