(* ===== verification/Writers.v ===== *)
(** * The response path of one attempt

    The writers of [src/src]: the client's [responseWrapper] and the
    [attemptResponseWriter] of [proxy.go], the [virtualModelResponseWriter] of
    [virtual_model_response.go], which puts the name the client asked for back
    into the answer, and the tee of [usage_sniffer.go].

    A provider is seen as the calls it makes on its [http.ResponseWriter], a list
    of [action]s.  JSON text is read and written by the standard library; a [JSON]
    instance is a reader and a writer for the values below, with objects as the
    association lists of Go's [map[string]any]. *)

From S2P Require Import Prelude GoStd.

(** ** JSON values *)

#[warnings="-register-all"]
Inductive json :=
| JNull | JBool (b : bool) | JNum (n : string) | JStr (s : string)
| JArr (l : list json) | JObj (l : list (string * json)).

(** [json_string_field] and [json_int_fields] are decodings into a struct with one
    string field, and with three [*int] fields; [None] is the decoder's error. *)
Class JSON := {
  json_unmarshal : string → option json;
  json_marshal : json → option string;
  json_string_field : string → string → option string;
  json_int_fields : string → string * string * string → option (option Z * option Z * option Z);
}.

(** Replaces the string under every key [model], at any depth; what is under such
    a key and is not a string is left as it is. *)
(* src/src/virtual_model_response.go rewriteModelField *)
Fixpoint rewriteModelField (model : string) (payload : json) : json :=
  match payload with
  | JObj l =>
    JObj ((fix go l :=
      match l with
      | [] => []
      | (key, nested) :: l =>
        (if String.eqb key "model"
         then (key, match nested with JStr _ => JStr model | _ => nested end)
         else (key, rewriteModelField model nested)) :: go l
      end) l)
  | JArr l => JArr (map (rewriteModelField model) l)
  | _ => payload
  end.

Section json_induction.
Context (P : json → Prop).
Context (Hnull : P JNull) (Hbool : ∀ b, P (JBool b)) (Hnum : ∀ n, P (JNum n)).
Context (Hstr : ∀ s, P (JStr s)).
Context (Harr : ∀ l, Forall P l → P (JArr l)).
Context (Hobj : ∀ l, Forall (λ kv, P kv.2) l → P (JObj l)).

(** Induction through the nested lists. *)
Fixpoint json_nested_ind (j : json) : P j :=
  match j with
  | JNull => Hnull
  | JBool b => Hbool b
  | JNum n => Hnum n
  | JStr s => Hstr s
  | JArr l => Harr l ((fix go l : Forall P l :=
      match l with
      | [] => Forall_nil_2 P
      | x :: l => Forall_cons_2 P x l (json_nested_ind x) (go l)
      end) l)
  | JObj l => Hobj l ((fix go l : Forall (λ kv : string * json, P kv.2) l :=
      match l with
      | [] => Forall_nil_2 _
      | kv :: l => Forall_cons_2 _ kv l (json_nested_ind kv.2) (go l)
      end) l)
  end.
End json_induction.

Definition rewrite_member (model : string) (kv : string * json) : string * json :=
  if String.eqb kv.1 "model"
  then (kv.1, match kv.2 with JStr _ => JStr model | _ => kv.2 end)
  else (kv.1, rewriteModelField model kv.2).

Lemma rewriteModelField_obj model l :
  rewriteModelField model (JObj l) = JObj (rewrite_member model <$> l).
Proof.
  simpl. f_equal. induction l as [|[k v] l IH]; csimpl; [done|]. by rewrite IH.
Qed.

(** Every string under a [model] key is [model]. *)
#[warnings="-register-all"]
Inductive models_are (model : string) : json → Prop :=
| MaNull : models_are model JNull
| MaBool b : models_are model (JBool b)
| MaNum n : models_are model (JNum n)
| MaStr s : models_are model (JStr s)
| MaArr l : Forall (models_are model) l → models_are model (JArr l)
| MaObj l : Forall (λ kv : string * json,
      (kv.1 = "model" → ∀ s, kv.2 = JStr s → s = model)
      ∧ (kv.1 ≠ "model" → models_are model kv.2)) l → models_are model (JObj l).

(** The same value but for those strings. *)
#[warnings="-register-all"]
Inductive same_but_models : json → json → Prop :=
| SbRefl j : same_but_models j j
| SbArr l l' : Forall2 same_but_models l l' → same_but_models (JArr l) (JArr l')
| SbObj l l' : Forall2 (λ kv kv' : string * json, kv.1 = kv'.1 ∧
      ((kv.1 = "model" ∧ (kv.2 = kv'.2 ∨ ∃ s s', kv.2 = JStr s ∧ kv'.2 = JStr s'))
       ∨ same_but_models kv.2 kv'.2)) l l' → same_but_models (JObj l) (JObj l').

Lemma rewriteModelField_models model j : models_are model (rewriteModelField model j).
Proof.
  induction j as [|b|n|s|l IH|l IH] using json_nested_ind; [constructor..| |].
  - constructor. apply Forall_fmap. eapply Forall_impl; [exact IH|]. done.
  - rewrite rewriteModelField_obj. constructor. apply Forall_fmap.
    eapply Forall_impl; [exact IH|]. intros [k v] Hv. unfold rewrite_member. simpl in *.
    destruct (String.eqb_spec k "model") as [->|Hk]; simpl.
    + split; [|done]. intros _ s. destruct v; naive_solver.
    + done.
Qed.

Lemma rewriteModelField_same model j : same_but_models j (rewriteModelField model j).
Proof.
  induction j as [|b|n|s|l IH|l IH] using json_nested_ind; [constructor..| |].
  - apply SbArr. induction IH; simpl; constructor; auto.
  - rewrite rewriteModelField_obj. apply SbObj. induction IH as [|[k v] l Hv _ IHl]; csimpl; constructor; [|done].
    unfold rewrite_member. simpl in *. destruct (String.eqb_spec k "model") as [->|Hk]; simpl.
    + split; [done|]. left. split; [done|]. destruct v; eauto.
    + auto.
Qed.

Lemma rewriteModelField_idemp model j :
  rewriteModelField model (rewriteModelField model j) = rewriteModelField model j.
Proof.
  induction j as [|b|n|s|l IH|l IH] using json_nested_ind; try done.
  - simpl. f_equal. rewrite map_map. induction IH; simpl; congruence.
  - rewrite !rewriteModelField_obj. f_equal. rewrite <-list_fmap_compose.
    induction IH as [|[k v] l Hv _ IHl]; csimpl; [done|]. rewrite IHl. f_equal.
    unfold rewrite_member; simpl in *. destruct (String.eqb_spec k "model") as [->|Hk]; simpl.
    + destruct v; done.
    + apply String.eqb_neq in Hk. by rewrite Hk, Hv.
Qed.

(** ** The client's writer *)

(** What the client has received, and the header map every layer shares.
    [rw_broken] counts down to the write that fails because the client is gone. *)
(* src/src/proxy.go responseWrapper *)
Record responseWrapper := mkRW {
  rw_headersSent : bool;
  rw_statusCode : Z;
  rw_bytesWritten : Z;
  rw_header : gmap string string;
  rw_body : string;
  rw_flushes : nat;
  rw_broken : option nat;
}.

(** The state of the client's side: nothing of a response has been sent. *)
Definition pristine (rw : responseWrapper) : Prop :=
  rw_headersSent rw = false ∧ rw_body rw = "" ∧ rw_statusCode rw = 0%Z.

(* src/src/proxy.go responseWrapper.WriteHeader *)
Definition rw_WriteHeader (code : Z) (rw : responseWrapper) : responseWrapper :=
  if rw_headersSent rw then rw
  else mkRW true code (rw_bytesWritten rw) (rw_header rw) (rw_body rw) (rw_flushes rw)
         (rw_broken rw).

(* src/src/proxy.go responseWrapper.Write *)
Definition rw_Write (data : string) (rw : responseWrapper) : responseWrapper * bool :=
  let rw := if rw_headersSent rw then rw else rw_WriteHeader StatusOK rw in
  match rw_broken rw with
  | Some 0 => (rw, false)
  | broken =>
    (mkRW (rw_headersSent rw) (rw_statusCode rw)
       (rw_bytesWritten rw + Z.of_nat (String.length data)) (rw_header rw)
       (rw_body rw +:+ data) (rw_flushes rw) (pred <$> broken), true)
  end.

(* src/src/proxy.go responseWrapper.Flush *)
Definition rw_Flush (rw : responseWrapper) : responseWrapper :=
  mkRW (rw_headersSent rw) (rw_statusCode rw) (rw_bytesWritten rw) (rw_header rw) (rw_body rw)
    (S (rw_flushes rw)) (rw_broken rw).

(* src/src/proxy.go responseWrapper.StatusCode *)
Definition rw_StatusCode (rw : responseWrapper) : Z :=
  if (rw_statusCode rw =? 0)%Z && rw_headersSent rw then StatusOK else rw_statusCode rw.

Definition rw_set_header (h : gmap string string) (rw : responseWrapper) : responseWrapper :=
  mkRW (rw_headersSent rw) (rw_statusCode rw) (rw_bytesWritten rw) h (rw_body rw) (rw_flushes rw)
    (rw_broken rw).

(** ** The attempt writer *)

(* src/src/proxy.go attemptResponseWriter *)
Record attemptResponseWriter := mkAttempt {
  a_statusCode : Z;
  a_headersSent : bool;
  a_outputCommitted : bool;
  a_buf : string;
}.

(* src/src/proxy.go newAttemptResponseWriter *)
Definition newAttemptResponseWriter : attemptResponseWriter := mkAttempt 0 false false "".

(** An attempt writer and the client's writer behind it. *)
Definition attempt := (attemptResponseWriter * responseWrapper)%type.

(* src/src/proxy.go attemptResponseWriter.WriteHeader *)
Definition a_WriteHeader (code : Z) (s : attempt) : attempt :=
  let '(a, rw) := s in
  if a_headersSent a then s
  else (mkAttempt code true (a_outputCommitted a) (a_buf a), rw).

(* src/src/proxy.go attemptResponseWriter.StatusCode *)
Definition a_StatusCode (a : attemptResponseWriter) : Z :=
  if (a_statusCode a =? 0)%Z then StatusOK else a_statusCode a.

(* src/src/proxy.go attemptResponseWriter.OutputCommitted *)
Definition OutputCommitted (a : attemptResponseWriter) : bool := a_outputCommitted a.

(* src/src/proxy.go attemptResponseWriter.CommitToReal *)
Definition CommitToReal (s : attempt) : attempt * bool :=
  let '(a, rw) := s in
  if a_outputCommitted a then (s, true)
  else
    let rw := rw_WriteHeader (a_StatusCode a) rw in
    if String.eqb (a_buf a) ""
    then ((mkAttempt (a_statusCode a) (a_headersSent a) true "", rw), true)
    else
      let '(rw, ok) := rw_Write (a_buf a) rw in
      ((mkAttempt (a_statusCode a) (a_headersSent a) true "", rw), ok).

Definition is_success (status : Z) : bool :=
  ((StatusOK <=? status) && (status <? StatusMultipleChoices))%Z.

(* src/src/proxy.go attemptResponseWriter.Write *)
Definition a_Write (data : string) (s : attempt) : attempt * bool :=
  let '(a, rw) := s in
  if a_outputCommitted a then let '(rw, ok) := rw_Write data rw in ((a, rw), ok)
  else if is_success (a_StatusCode a) then
    let '((a, rw), _) := CommitToReal s in
    let '(rw, ok) := rw_Write data rw in ((a, rw), ok)
  else ((mkAttempt (a_statusCode a) (a_headersSent a) false (a_buf a +:+ data), rw), true).

(* src/src/proxy.go attemptResponseWriter.Flush *)
Definition a_Flush (s : attempt) : attempt :=
  let '(a, rw) := s in if a_outputCommitted a then (a, rw_Flush rw) else s.

#[global] Arguments CommitToReal : simpl never.
#[global] Arguments a_Write : simpl never.
#[global] Arguments rw_Write : simpl never.

(** ** The virtual model writer *)

(* src/src/virtual_model_response.go virtualModelResponseWriter *)
Record virtualModelResponseWriter := mkVirtual {
  v_model : string;
  v_statusCode : Z;
  v_headersSent : bool;
  v_streaming : bool;
  v_body : string;
  v_streamPending : string;
}.

(* src/src/virtual_model_response.go newVirtualModelResponseWriter *)
Definition newVirtualModelResponseWriter (model : string) : virtualModelResponseWriter :=
  mkVirtual model 0 false false "" "".

(* src/src/virtual_model_response.go virtualModelResponseWriter.WriteHeader *)
Definition v_WriteHeader (code : Z) (v : virtualModelResponseWriter) : virtualModelResponseWriter :=
  if v_headersSent v then v
  else mkVirtual (v_model v) code true (v_streaming v) (v_body v) (v_streamPending v).

(* src/src/virtual_model_response.go virtualModelResponseWriter.StatusCode *)
Definition v_StatusCode (v : virtualModelResponseWriter) : Z :=
  if (v_statusCode v =? 0)%Z then StatusOK else v_statusCode v.

(** The pending bytes up to and with the first line end, and the rest. *)
Fixpoint first_line (s : string) : option (string * string) :=
  match s with
  | "" => None
  | String c rest =>
    if Ascii.eqb c "010" then Some (String c "", rest)
    else match first_line rest with Some (l, r) => Some (String c l, r) | None => None end
  end.

Definition newline : string := str [10].
(** [strings.TrimSuffix(line, newline)]. *)
Definition TrimSuffix (s suffix : string) : string :=
  str_rev (TrimPrefix (str_rev s) (str_rev suffix)).

Section virtual.
Context `{JSON}.

(* src/src/virtual_model_response.go rewriteModelJSON *)
Definition rewriteModelJSON (body model : string) : string :=
  match json_unmarshal body with
  | None => body
  | Some payload => default body (json_marshal (rewriteModelField model payload))
  end.

(* src/src/virtual_model_response.go rewriteSSEModelLine *)
Definition rewriteSSEModelLine (line model : string) : string :=
  let trimmed := TrimSuffix line newline in
  if negb (HasPrefix trimmed "data: ") then line
  else "data: " +:+ rewriteModelJSON (TrimPrefix trimmed "data: ") model +:+ newline.

(* src/src/virtual_model_response.go virtualModelResponseWriter.commitHeaders *)
Definition commitHeaders (v : virtualModelResponseWriter) (s : attempt) : attempt :=
  let '(a, rw) := s in
  a_WriteHeader (v_StatusCode v) (a, rw_set_header (delete "Content-Length" (rw_header rw)) rw).

(** Every round of the loop consumes a line end, so the length of the pending
    bytes bounds the rounds. *)
(* src/src/virtual_model_response.go virtualModelResponseWriter.writeStream *)
Fixpoint stream_lines (fuel : nat) (model pending : string) (s : attempt)
    : string * attempt * bool :=
  match fuel with
  | 0 => (pending, s, true)
  | S fuel =>
    match first_line pending with
    | None => (pending, s, true)
    | Some (line, rest) =>
      let '(s, ok) := a_Write (rewriteSSEModelLine line model) s in
      if ok then stream_lines fuel model rest s else (rest, s, false)
    end
  end.

(* src/src/virtual_model_response.go virtualModelResponseWriter.writeStream *)
Definition writeStream (body : string) (v : virtualModelResponseWriter) (s : attempt)
    : virtualModelResponseWriter * attempt * bool :=
  let pending := v_streamPending v +:+ body in
  let '(pending, s, ok) := stream_lines (String.length pending) (v_model v) pending s in
  (mkVirtual (v_model v) (v_statusCode v) (v_headersSent v) (v_streaming v) (v_body v) pending,
   s, ok).

(* src/src/virtual_model_response.go virtualModelResponseWriter.Write *)
Definition v_Write (body : string) (v : virtualModelResponseWriter) (s : attempt)
    : virtualModelResponseWriter * attempt * bool :=
  if v_streaming v then writeStream body v s
  else (mkVirtual (v_model v) (v_statusCode v) (v_headersSent v) false (v_body v +:+ body)
          (v_streamPending v), s, true).

(* src/src/virtual_model_response.go virtualModelResponseWriter.Flush *)
Definition v_Flush (v : virtualModelResponseWriter) (s : attempt)
    : virtualModelResponseWriter * attempt :=
  let '(v, s) :=
    if v_streaming v then (v, s)
    else
      let v := mkVirtual (v_model v) (v_statusCode v) (v_headersSent v) true (v_body v)
                 (v_streamPending v) in
      let s := commitHeaders v s in
      if String.eqb (v_body v) "" then (v, s)
      else
        let '(v, s, _) := writeStream (v_body v) v s in
        (mkVirtual (v_model v) (v_statusCode v) (v_headersSent v) true "" (v_streamPending v), s) in
  (v, a_Flush s).

(* src/src/virtual_model_response.go virtualModelResponseWriter.Commit *)
Definition Commit (v : virtualModelResponseWriter) (s : attempt)
    : virtualModelResponseWriter * attempt * bool :=
  if v_streaming v then
    if String.eqb (v_streamPending v) "" then (v, s, true)
    else
      let '(s, ok) := a_Write (rewriteSSEModelLine (v_streamPending v) (v_model v)) s in
      (mkVirtual (v_model v) (v_statusCode v) (v_headersSent v) true (v_body v)
         (if ok then "" else v_streamPending v), s, ok)
  else
    let s := commitHeaders v s in
    let '(s, ok) := a_Write (rewriteModelJSON (v_body v) (v_model v)) s in
    (v, s, ok).

End virtual.

(** ** The usage tee *)

Definition usageSniffMaxBytes : Z := 2 ^ 20.

(* src/src/usage_sniffer.go usageSniffWriter *)
Record usageSniffWriter := mkUsageWriter { u_buf : string; u_capped : bool }.

(* src/src/usage_sniffer.go usageSniffWriter.Write *)
Definition u_tee (p : string) (u : usageSniffWriter) : usageSniffWriter :=
  if u_capped u then u
  else if (usageSniffMaxBytes <? Z.of_nat (String.length (u_buf u) + String.length p))%Z
  then mkUsageWriter "" true
  else mkUsageWriter (u_buf u +:+ p) false.

(** ** What a provider does with its writer *)

Inductive action :=
| ASetHeader (key value : string)
| ADelHeader (key : string)
| AWriteHeader (code : Z)
| AWrite (data : string)
| AFlush.

(** The stack one umbrella attempt writes through. *)
Record stack := mkStack {
  st_usage : usageSniffWriter; st_virtual : virtualModelResponseWriter; st_attempt : attempt;
}.

Definition new_stack (model : string) (rw : responseWrapper) : stack :=
  mkStack (mkUsageWriter "" false) (newVirtualModelResponseWriter model)
    (newAttemptResponseWriter, rw).

Definition on_header (f : gmap string string → gmap string string) (s : attempt) : attempt :=
  let '(a, rw) := s in (a, rw_set_header (f (rw_header rw)) rw).

(** The [usageSniffWriter]'s own methods: only [Write] and [Flush] are its own. *)
(* src/src/usage_sniffer.go usageSniffWriter.Flush *)
Definition act `{JSON} (st : stack) (x : action) : stack :=
  let '(mkStack u v s) := st in
  match x with
  | ASetHeader key value => mkStack u v (on_header (insert key value) s)
  | ADelHeader key => mkStack u v (on_header (delete key) s)
  | AWriteHeader code => mkStack u (v_WriteHeader code v) s
  | AWrite data =>
    let '(v, s, _) := v_Write data v s in mkStack (u_tee data u) v s
  | AFlush => let '(v, s) := v_Flush v s in mkStack u v s
  end.

Definition run_script `{JSON} (script : list action) (st : stack) : stack := foldl act st script.

(** ** Lines of a stream *)

(** The complete lines of a string, and what follows the last one. *)
Fixpoint lines_of (s : string) : list string * string :=
  match s with
  | "" => ([], "")
  | String c r =>
    let '(ls, rest) := lines_of r in
    if Ascii.eqb c "010" then (String c "" :: ls, rest)
    else match ls with [] => ([], String c rest) | l :: ls => (String c l :: ls, rest) end
  end.

Lemma lines_of_first s :
  match first_line s with
  | None => lines_of s = ([], s)
  | Some (l, r) => lines_of s = (l :: (lines_of r).1, (lines_of r).2)
                   ∧ String.length r < String.length s
  end.
Proof.
  induction s as [|c s IH]; simpl; [done|].
  destruct (Ascii.eqb c "010") eqn:Hc; [destruct (lines_of s); split; [done|simpl; lia]|].
  destruct (first_line s) as [[l r]|]; [destruct IH as [-> ?]; split; [done|simpl; lia]|by rewrite IH].
Qed.

Lemma lines_of_app a b :
  lines_of (a +:+ b)
  = ((lines_of a).1 ++ (lines_of ((lines_of a).2 +:+ b)).1, (lines_of ((lines_of a).2 +:+ b)).2).
Proof.
  induction a as [|c a IH]; simpl; [by destruct (lines_of b)|].
  rewrite IH. destruct (lines_of a) as [ls rest]. simpl.
  destruct (Ascii.eqb c "010") eqn:Hc; [done|].
  destruct ls as [|l ls]; simpl; [|done].
  rewrite Hc. destruct (lines_of (rest +:+ b)) as [[|l ls] r]; done.
Qed.

Definition concat_str (l : list string) : string := foldr String.append "" l.

Lemma concat_str_app l k : concat_str (l ++ k) = concat_str l +:+ concat_str k.
Proof. induction l; simpl; [done|]. by rewrite IHl, str_app_assoc. Qed.

(** ** Facts about the writers *)

(** Nothing of the response has changed on the client's side: at most the header
    map and the count of failed writes differ. *)
Definition same_client (rw rw' : responseWrapper) : Prop :=
  rw_headersSent rw' = rw_headersSent rw ∧ rw_statusCode rw' = rw_statusCode rw
  ∧ rw_body rw' = rw_body rw ∧ rw_bytesWritten rw' = rw_bytesWritten rw
  ∧ rw_flushes rw' = rw_flushes rw ∧ rw_broken rw' = rw_broken rw.

#[global] Instance same_client_equiv : Equivalence same_client.
Proof. unfold same_client. split; [repeat split|red; naive_solver|red; intuition congruence]. Qed.

(** The invariant of an attempt started on [rw0]: it has not touched the client, or
    it has sent the status 2xx that it recorded. *)
Definition attempt_inv (rw0 : responseWrapper) (s : attempt) : Prop :=
  let '(a, rw) := s in
  if a_outputCommitted a
  then a_headersSent a = true ∧ is_success (a_StatusCode a) = true ∧ rw_headersSent rw = true
       ∧ (rw_headersSent rw0 = false → rw_statusCode rw = a_StatusCode a)
  else same_client rw0 rw.

Lemma rw_Write_sent data rw :
  rw_headersSent rw = true →
  rw_headersSent (fst (rw_Write data rw)) = true
  ∧ rw_statusCode (fst (rw_Write data rw)) = rw_statusCode rw.
Proof. intros Hs. unfold rw_Write. rewrite Hs. by destruct (rw_broken rw) as [[]|]. Qed.

Lemma a_WriteHeader_inv rw0 code s : attempt_inv rw0 s → attempt_inv rw0 (a_WriteHeader code s).
Proof.
  destruct s as [a rw]. unfold attempt_inv, a_WriteHeader.
  destruct (a_headersSent a) eqn:Hs; simpl; [by rewrite Hs|].
  destruct (a_outputCommitted a); [intros (Hc & _); congruence|auto].
Qed.

Lemma on_header_inv rw0 f s : attempt_inv rw0 s → attempt_inv rw0 (on_header f s).
Proof. destruct s as [a rw]. unfold attempt_inv, on_header, same_client. simpl. destruct (a_outputCommitted a); auto. Qed.

Lemma CommitToReal_spec a rw :
  a_outputCommitted a = false →
  ∃ rw' ok, CommitToReal (a, rw)
    = ((mkAttempt (a_statusCode a) (a_headersSent a) true "", rw'), ok)
  ∧ rw_headersSent rw' = true
  ∧ rw_statusCode rw' = (if rw_headersSent rw then rw_statusCode rw else a_StatusCode a)
  ∧ (ok = true → rw_body rw' = rw_body rw +:+ a_buf a).
Proof.
  intros Hc. unfold CommitToReal. rewrite Hc.
  assert (rw_headersSent (rw_WriteHeader (a_StatusCode a) rw) = true
    ∧ rw_statusCode (rw_WriteHeader (a_StatusCode a) rw)
      = (if rw_headersSent rw then rw_statusCode rw else a_StatusCode a)
    ∧ rw_body (rw_WriteHeader (a_StatusCode a) rw) = rw_body rw
    ∧ rw_broken (rw_WriteHeader (a_StatusCode a) rw) = rw_broken rw) as (Hs & Hst & Hb & _).
  { unfold rw_WriteHeader. by destruct (rw_headersSent rw) eqn:E. }
  destruct (String.eqb_spec (a_buf a) "") as [->|Hne].
  - eexists _, _. split_and!; [done..|]. intros _. by rewrite Hb, str_app_nil_r.
  - pose proof (rw_Write_sent (a_buf a) _ Hs) as [Hs' Hst'].
    destruct (rw_Write (a_buf a) _) as [rw' ok] eqn:Hw. simpl in Hs', Hst'.
    eexists _, _. split_and!; [done|done|congruence|]. intros ->.
    unfold rw_Write in Hw. rewrite Hs in Hw. rewrite <-Hb.
    by destruct (rw_broken _) as [[]|]; injection Hw as <-.
Qed.

(** Writing with the headers sent keeps the invariant. *)
Lemma a_Write_inv rw0 data s :
  a_headersSent s.1 = true → attempt_inv rw0 s →
  attempt_inv rw0 (fst (a_Write data s))
  ∧ a_headersSent (fst (a_Write data s)).1 = true
  ∧ a_StatusCode (fst (a_Write data s)).1 = a_StatusCode s.1.
Proof.
  destruct s as [a rw]. unfold attempt_inv, a_Write. cbn [fst]. intros Hh Hinv.
  destruct (a_outputCommitted a) eqn:Hc.
  - destruct Hinv as (Hs & Hok & Hsent & Hst). pose proof (rw_Write_sent data rw Hsent) as [Hw1 Hw2].
    destruct (rw_Write data rw) as [rw' ok]. simpl in *. rewrite ?Hc, Hw1, Hw2. done.
  - destruct (is_success (a_StatusCode a)) eqn:Hok; [|done].
    destruct (CommitToReal_spec a rw Hc) as (rw2 & ok2 & -> & Hs2 & Hst2 & _).
    pose proof (rw_Write_sent data rw2 Hs2) as [Hw1 Hw2].
    destruct (rw_Write data rw2) as [rw' ok]. simpl in *. rewrite Hw1, Hw2, Hst2.
    destruct Hinv as (-> & _). unfold a_StatusCode in *; simpl in *.
    split_and!; try done. by intros ->.
Qed.

Lemma a_Flush_inv rw0 s : attempt_inv rw0 s → attempt_inv rw0 (a_Flush s).
Proof.
  destruct s as [a rw]. unfold attempt_inv, a_Flush. destruct (a_outputCommitted a) eqn:E; by rewrite ?E.
Qed.

Lemma a_Flush_attempt s : (a_Flush s).1 = s.1.
Proof. destruct s as [a rw]. unfold a_Flush. by case_match. Qed.

Section virtual_facts.
Context `{JSON}.

Lemma commitHeaders_inv rw0 v s : attempt_inv rw0 s → attempt_inv rw0 (commitHeaders v s).
Proof.
  intros Hinv. pose proof (on_header_inv rw0 (delete "Content-Length") s Hinv) as Hh.
  destruct s as [a rw]. unfold commitHeaders. apply a_WriteHeader_inv. done.
Qed.

Lemma commitHeaders_sent v s : a_headersSent (commitHeaders v s).1 = true.
Proof.
  destruct s as [a rw]. unfold commitHeaders, a_WriteHeader.
  destruct (a_headersSent a) eqn:E; simpl; congruence.
Qed.

Lemma stream_lines_inv rw0 fuel model pending s :
  a_headersSent s.1 = true → attempt_inv rw0 s →
  attempt_inv rw0 (stream_lines fuel model pending s).1.2
  ∧ a_headersSent (stream_lines fuel model pending s).1.2.1 = true
  ∧ a_StatusCode (stream_lines fuel model pending s).1.2.1 = a_StatusCode s.1.
Proof.
  revert pending s; induction fuel as [|fuel IH]; intros pending s Hh Hinv; simpl; [done|].
  destruct (first_line pending) as [[line rest]|]; [|done].
  pose proof (a_Write_inv rw0 (rewriteSSEModelLine line model) s Hh Hinv) as (Hi & Hs & Hc).
  destruct (a_Write _ s) as [s' ok]. simpl in *. destruct ok; [|done].
  destruct (IH rest s' Hs Hi) as (? & ? & ?). split_and!; [done|done|congruence].
Qed.

(** The invariant of the whole stack; a streaming writer has sent its headers. *)
Definition stack_inv (rw0 : responseWrapper) (st : stack) : Prop :=
  attempt_inv rw0 (st_attempt st)
  ∧ (v_streaming (st_virtual st) = true → a_headersSent (st_attempt st).1 = true).

Lemma new_stack_inv model rw : stack_inv rw (new_stack model rw).
Proof. split; [done|done]. Qed.

Lemma v_Write_inv rw0 data v s :
  attempt_inv rw0 s → (v_streaming v = true → a_headersSent s.1 = true) →
  attempt_inv rw0 (v_Write data v s).1.2
  ∧ (v_streaming (v_Write data v s).1.1 = true → a_headersSent (v_Write data v s).1.2.1 = true).
Proof.
  intros Hinv Hstr. unfold v_Write. destruct (v_streaming v) eqn:Hv; [|done].
  unfold writeStream.
  pose proof (stream_lines_inv rw0 (String.length (v_streamPending v +:+ data)) (v_model v)
    (v_streamPending v +:+ data) s (Hstr eq_refl) Hinv) as (Hi & Hs & _).
  by destruct (stream_lines _ _ _ s) as [[pending s'] ok].
Qed.

Lemma v_Flush_inv rw0 v s :
  attempt_inv rw0 s → (v_streaming v = true → a_headersSent s.1 = true) →
  attempt_inv rw0 (v_Flush v s).2 ∧ a_headersSent (v_Flush v s).2.1 = true.
Proof.
  intros Hinv Hstr. unfold v_Flush. destruct (v_streaming v) eqn:Hv.
  { simpl. rewrite a_Flush_attempt. split; [by apply a_Flush_inv|auto]. }
  cbn [v_body]. destruct (String.eqb (v_body v) "").
  { simpl. rewrite a_Flush_attempt. split; [by apply a_Flush_inv, commitHeaders_inv|].
    apply commitHeaders_sent. }
  unfold writeStream. cbn [v_model v_streamPending].
  match goal with |- context [stream_lines ?f ?m ?p ?s0] =>
    pose proof (stream_lines_inv rw0 f m p s0 (commitHeaders_sent _ _)
      (commitHeaders_inv rw0 _ _ Hinv)) as (Hi & Hs & _);
    destruct (stream_lines f m p s0) as [[pending s'] ok] end.
  simpl in *. rewrite a_Flush_attempt. split; [by apply a_Flush_inv|done].
Qed.

Lemma act_inv rw0 st x : stack_inv rw0 st → stack_inv rw0 (act st x).
Proof.
  destruct st as [u v s]. intros [Hinv Hstr]. simpl in Hinv, Hstr.
  destruct x as [k val|k|code|data|]; cbn [act].
  - split; [by apply on_header_inv|]. by destruct s.
  - split; [by apply on_header_inv|]. by destruct s.
  - split; [done|]. simpl. unfold v_WriteHeader. by case_match.
  - pose proof (v_Write_inv rw0 data v s Hinv Hstr) as [? ?].
    by destruct (v_Write data v s) as [[v' s'] ok].
  - pose proof (v_Flush_inv rw0 v s Hinv Hstr) as [? ?]. by destruct (v_Flush v s) as [v' s'].
Qed.

Lemma run_script_inv rw0 script st : stack_inv rw0 st → stack_inv rw0 (run_script script st).
Proof. revert st; induction script; simpl; auto using act_inv. Qed.

Lemma Commit_inv rw0 v s :
  attempt_inv rw0 s → (v_streaming v = true → a_headersSent s.1 = true) →
  attempt_inv rw0 (Commit v s).1.2.
Proof.
  intros Hinv Hstr. unfold Commit. destruct (v_streaming v).
  - destruct (String.eqb _ ""); [done|].
    pose proof (a_Write_inv rw0 (rewriteSSEModelLine (v_streamPending v) (v_model v)) s
      (Hstr eq_refl) Hinv) as (Hi & _). by destruct (a_Write _ s) as [s' ok].
  - pose proof (a_Write_inv rw0 (rewriteModelJSON (v_body v) (v_model v)) (commitHeaders v s)
      (commitHeaders_sent _ _) (commitHeaders_inv _ _ _ Hinv)) as (Hi & _).
    by destruct (a_Write _ (commitHeaders v s)) as [s' ok].
Qed.

End virtual_facts.

(** ** What reaches the client *)

(** The text of an attempt: what the client has and what is still buffered. *)
Definition text (s : attempt) : string :=
  if a_outputCommitted s.1 then rw_body s.2 else rw_body s.2 +:+ a_buf s.1.

Lemma rw_Write_ok data rw :
  rw_broken rw = None →
  ∃ rw', rw_Write data rw = (rw', true) ∧ rw_broken rw' = None
    ∧ rw_body rw' = rw_body rw +:+ data.
Proof.
  intros Hb. unfold rw_Write. destruct (rw_headersSent rw) eqn:Hs.
  - rewrite Hb. eexists. split_and!; [done|done|done].
  - unfold rw_WriteHeader. rewrite Hs. simpl. rewrite Hb. by eexists.
Qed.

Lemma CommitToReal_text a rw :
  a_outputCommitted a = false → rw_broken rw = None →
  ∃ rw' ok, CommitToReal (a, rw)
    = ((mkAttempt (a_statusCode a) (a_headersSent a) true "", rw'), ok)
  ∧ rw_broken rw' = None ∧ rw_body rw' = rw_body rw +:+ a_buf a.
Proof.
  intros Hc Hb. unfold CommitToReal. rewrite Hc.
  assert (rw_body (rw_WriteHeader (a_StatusCode a) rw) = rw_body rw
    ∧ rw_broken (rw_WriteHeader (a_StatusCode a) rw) = None) as [Hb1 Hb2].
  { unfold rw_WriteHeader. by case_match. }
  destruct (String.eqb_spec (a_buf a) "") as [->|Hne].
  - eexists _, _. split_and!; [done|done|]. by rewrite Hb1, str_app_nil_r.
  - destruct (rw_Write_ok (a_buf a) _ Hb2) as (rw' & -> & ? & Hbody).
    eexists _, _. split_and!; [done|done|]. by rewrite Hbody, Hb1.
Qed.

Lemma a_Write_text data s :
  rw_broken s.2 = None →
  ∃ s', a_Write data s = (s', true) ∧ rw_broken s'.2 = None ∧ text s' = text s +:+ data
    ∧ a_outputCommitted s'.1 = a_outputCommitted s.1 || is_success (a_StatusCode s.1).
Proof.
  destruct s as [a rw]. simpl. intros Hb. unfold a_Write, text. simpl.
  destruct (a_outputCommitted a) eqn:Hc; simpl.
  - destruct (rw_Write_ok data rw Hb) as (rw' & -> & Hb' & Hbody).
    eexists. split_and!; [done|done| |done]. simpl. by rewrite Hc, Hbody.
  - destruct (is_success (a_StatusCode a)) eqn:Hok.
    + destruct (CommitToReal_text a rw Hc Hb) as (rw1 & ok & -> & Hb1 & Hbody1).
      destruct (rw_Write_ok data rw1 Hb1) as (rw' & -> & Hb' & Hbody).
      eexists. split_and!; [done|done| |done]. simpl. by rewrite Hbody, Hbody1.
    + eexists. split_and!; [done|done| |done]. simpl. by rewrite str_app_assoc.
Qed.

Section delivered.
Context `{JSON}.

Definition rewritten_lines (model : string) (l : list string) : string :=
  concat_str ((λ line, rewriteSSEModelLine line model) <$> l).

Lemma stream_lines_text fuel model pending s :
  String.length pending ≤ fuel → rw_broken s.2 = None →
  ∃ s', stream_lines fuel model pending s = ((lines_of pending).2, s', true)
    ∧ rw_broken s'.2 = None
    ∧ text s' = text s +:+ rewritten_lines model (lines_of pending).1.
Proof.
  revert pending s; induction fuel as [|fuel IH]; intros pending s Hf Hb; simpl.
  - destruct pending; [|simpl in Hf; lia]. exists s. by rewrite str_app_nil_r.
  - pose proof (lines_of_first pending) as Hl. destruct (first_line pending) as [[line rest]|].
    + destruct Hl as [-> Hlt]. simpl.
      destruct (a_Write_text (rewriteSSEModelLine line model) s Hb) as (s1 & -> & Hb1 & Ht1 & _).
      destruct (IH rest s1 ltac:(lia) Hb1) as (s2 & -> & Hb2 & Ht2).
      exists s2. split_and!; [done|done|]. rewrite Ht2, Ht1, str_app_assoc. done.
    + rewrite Hl. exists s. by rewrite str_app_nil_r.
Qed.

Lemma stream_writes chunks st :
  v_streaming (st_virtual st) = true → rw_broken (st_attempt st).2 = None →
  let model := v_model (st_virtual st) in
  let all := v_streamPending (st_virtual st) +:+ concat_str chunks in
  (lines_of (v_streamPending (st_virtual st))).1 = [] →
  let st' := run_script (AWrite <$> chunks) st in
  text (st_attempt st') = text (st_attempt st) +:+ rewritten_lines model (lines_of all).1
  ∧ v_streamPending (st_virtual st') = (lines_of all).2.
Proof.
  revert st; induction chunks as [|d chunks IH]; intros [u v s] Hv Hb; csimpl in *.
  { rewrite !str_app_nil_r. intros Hl. rewrite Hl. simpl. rewrite str_app_nil_r. split; [done|].
    pose proof (lines_of_first (v_streamPending v)) as Hf.
    destruct (first_line _) as [[? ?]|]; [destruct Hf as [Heq _]; by rewrite Heq in Hl|by rewrite Hf]. }
  intros Hl. unfold v_Write. rewrite Hv. unfold writeStream.
  destruct (stream_lines_text (String.length (v_streamPending v +:+ d)) (v_model v)
    (v_streamPending v +:+ d) s ltac:(done) Hb) as (s1 & -> & Hb1 & Ht1).
  set (p1 := (lines_of (v_streamPending v +:+ d)).2).
  set (st1 := mkStack _ _ _).
  assert (Hidem : lines_of p1 = ([], p1)).
  { subst p1. generalize (v_streamPending v +:+ d). clear. intros t.
    induction t as [|c t IHt]; simpl; [done|]. destruct (lines_of t) as [ls r].
    destruct (Ascii.eqb c "010") eqn:Hc; simpl in *; [done|].
    destruct ls; simpl in *; [|done]. by rewrite IHt, Hc. }
  assert (v_streamPending (st_virtual st1) = p1) as Hp1 by done.
  destruct (IH st1) as [IH1 IH2]; [done|done|by rewrite Hp1, Hidem|].
  unfold run_script in *. rewrite IH1, IH2, Hp1. simpl. rewrite Ht1.
  rewrite <-str_app_assoc, (lines_of_app (v_streamPending v +:+ d)). fold p1. simpl.
  split; [|done]. rewrite str_app_assoc. f_equal. unfold rewritten_lines.
  by rewrite fmap_app, concat_str_app.
Qed.

(** The first status and the whole body of a script that never flushes. *)
Fixpoint first_code (script : list action) : option Z :=
  match script with
  | [] => None
  | AWriteHeader code :: _ => Some code
  | _ :: script => first_code script
  end.
Fixpoint whole_body (script : list action) : string :=
  match script with
  | [] => ""
  | AWrite data :: script => data +:+ whole_body script
  | _ :: script => whole_body script
  end.

Lemma run_buffered script u v s :
  v_streaming v = false → AFlush ∉ script →
  let st := run_script script (mkStack u v s) in
  v_body (st_virtual st) = v_body v +:+ whole_body script
  ∧ v_statusCode (st_virtual st)
    = (if v_headersSent v then v_statusCode v else default (v_statusCode v) (first_code script))
  ∧ v_streaming (st_virtual st) = false ∧ v_model (st_virtual st) = v_model v
  ∧ (st_attempt st).1 = s.1 ∧ same_client s.2 (st_attempt st).2.
Proof.
  revert u v s; induction script as [|x script IH]; intros u v s Hv Hnf; simpl.
  { rewrite str_app_nil_r. split_and!; try done. by destruct (v_headersSent v). }
  apply not_elem_of_cons in Hnf as [Hx Hnf].
  destruct x as [k val|k|code|data|]; simpl; [| | | |done].
  - destruct (IH u v (on_header (insert k val) s) Hv Hnf) as (-> & -> & -> & -> & -> & Hsame).
    destruct s; simpl in *. done.
  - destruct (IH u v (on_header (delete k) s) Hv Hnf) as (-> & -> & -> & -> & -> & Hsame).
    destruct s; simpl in *. done.
  - destruct (IH u (v_WriteHeader code v) s) as (Hb & Hst & Hs & Hm & Ha & Hsame);
      [unfold v_WriteHeader; case_match; exact Hv|done|].
    unfold run_script in *. rewrite Hb, Hst, Hs, Hm, Ha.
    split_and!; try done; unfold v_WriteHeader; destruct (v_headersSent v) eqn:Hh; simpl;
      by rewrite ?Hh.
  - unfold v_Write. rewrite Hv.
    destruct (IH (u_tee data u) (mkVirtual (v_model v) (v_statusCode v) (v_headersSent v) false
      (v_body v +:+ data) (v_streamPending v)) s eq_refl Hnf) as (Hb & Hst & Hs & Hm & Ha & Hsame).
    unfold run_script in *. simpl in *. rewrite Hb, Hst, Hs, Hm, Ha, str_app_assoc. done.
Qed.

End delivered.

(** The whole life of one attempt's writers: the provider's calls, then [Commit]. *)
Definition attempt_run `{JSON} (model : string) (script : list action) (rw : responseWrapper)
    : virtualModelResponseWriter * attempt * bool :=
  let st := run_script script (new_stack model rw) in
  Commit (st_virtual st) (st_attempt st).

Lemma attempt_run_inv `{JSON} model script rw : attempt_inv rw (attempt_run model script rw).1.2.
Proof.
  pose proof (run_script_inv rw script _ (new_stack_inv model rw)) as [Hi Hs].
  unfold attempt_run. by apply Commit_inv.
Qed.

Lemma buffered_attempt `{JSON} model script rw :
  AFlush ∉ script → rw_broken rw = None → rw_headersSent rw = false →
  let status := let c := default 0%Z (first_code script) in if (c =? 0)%Z then StatusOK else c in
  let '(_, (a, rw'), ok) := attempt_run model script rw in
  ok = true ∧ a_StatusCode a = status
  ∧ text (a, rw') = rw_body rw +:+ rewriteModelJSON (whole_body script) model
  ∧ OutputCommitted a = is_success status
  ∧ (is_success status = true → rw_statusCode rw' = status)
  ∧ (is_success status = false → same_client rw rw').
Proof.
  intros Hnf Hb Hsent status.
  pose proof (attempt_run_inv model script rw) as Hinv. unfold attempt_run in *.
  destruct (run_buffered script (mkUsageWriter "" false) (newVirtualModelResponseWriter model)
    (newAttemptResponseWriter, rw) eq_refl Hnf) as (Hbody & Hst & Hs & Hm & Ha & Hsame).
  unfold new_stack in *. set (st := run_script _ _) in *. clearbody st.
  unfold Commit in *. rewrite Hs in *. rewrite Hbody, Hm in *. simpl in Hst, Ha.
  destruct (st_attempt st) as [a0 rw0]. simpl in Ha, Hsame. subst a0.
  unfold commitHeaders, a_WriteHeader, newAttemptResponseWriter in *. cbn [a_headersSent fst snd] in *.
  set (v := st_virtual st) in *.
  assert (v_StatusCode v = status) as Hv by (unfold v_StatusCode; by rewrite Hst).
  rewrite Hv in *. simpl in *.
  match goal with |- context [a_Write ?d ?s] =>
    destruct (a_Write_text d s) as (s' & Hw & Hb' & Ht & Hc) end.
  { simpl. destruct Hsame as (_ & _ & _ & _ & _ & Hbr). by rewrite Hbr. }
  rewrite Hw in *. destruct s' as [a' rw'].
  assert (Hstat : a_StatusCode a' = status).
  { match type of Hw with a_Write ?d ?s = _ =>
      destruct (a_Write_inv (rw_set_header (delete "Content-Length" (rw_header rw0)) rw0) d s)
        as (_ & _ & Heq); [done|done|] end.
    rewrite Hw in Heq. simpl in Heq. rewrite Heq. unfold a_StatusCode. simpl.
    subst status. by case_match; rewrite ?Z.eqb_refl; simpl; [|case_match]. }
  simpl in Hinv, Hc. unfold a_StatusCode in Hc. simpl in Hc. unfold OutputCommitted.
  assert (Hc' : a_outputCommitted a' = is_success status).
  { rewrite Hc. subst status. by repeat case_match. }
  destruct Hsame as (_ & _ & Hbd & _).
  split_and!; [done|done| |done| |].
  - rewrite Ht. unfold text. simpl. by rewrite Hbd, str_app_nil_r.
  - intros Hok. rewrite Hc', Hok in Hinv. destruct Hinv as (_ & _ & _ & Hst'). rewrite <-Hstat. auto.
  - intros Hok. by rewrite Hc', Hok in Hinv.
Qed.

(** ** Properties *)

(** An attempt is discardable until it commits, and only a success commits.
    Whatever calls the provider makes on its writer (statuses, writes, flushes,
    in any order), after the attempt either nothing of it reached the client, so
    that the next attempt starts from the same response, or its recorded status
    is 2xx and is the status the client received. *)
Theorem attempt_commits_only_success `{JSON} model script rw :
  let '(_, (a, rw'), _) := attempt_run model script rw in
  (OutputCommitted a = false → same_client rw rw')
  ∧ (OutputCommitted a = true → is_success (a_StatusCode a) = true
       ∧ rw_headersSent rw' = true
       ∧ (rw_headersSent rw = false → rw_statusCode rw' = a_StatusCode a)).
Proof.
  pose proof (attempt_run_inv model script rw) as Hinv.
  destruct (attempt_run model script rw) as [[v [a rw']] ok]. simpl in Hinv. unfold OutputCommitted.
  destruct (a_outputCommitted a); [|done]. split; [done|]. naive_solver.
Qed.

(** A buffered answer.  When the provider never flushes and the client is
    there, the attempt answers with the first status it was given (200 if none)
    and with the model of the whole body rewritten at once; it is committed to the
    client exactly when that status is 2xx, and kept for discarding otherwise. *)
Theorem buffered_answer `{JSON} model script rw :
  AFlush ∉ script → rw_broken rw = None → rw_headersSent rw = false →
  let status := let c := default 0%Z (first_code script) in if (c =? 0)%Z then StatusOK else c in
  let '(_, (a, rw'), ok) := attempt_run model script rw in
  ok = true ∧ a_StatusCode a = status
  ∧ text (a, rw') = rw_body rw +:+ rewriteModelJSON (whole_body script) model
  ∧ OutputCommitted a = is_success status
  ∧ (is_success status = true → rw_statusCode rw' = status)
  ∧ (is_success status = false → same_client rw rw').
Proof. intros. by apply buffered_attempt. Qed.

(** A JSON library that knows two texts, for the witnesses. *)
#[global] Instance tiny_json : JSON := {
  json_unmarshal s :=
    if String.eqb s "{m}" then Some (JObj [("model", JStr "gpt-5"); ("n", JNum "1")]) else None;
  json_marshal j :=
    match j with JObj ((_, JStr m) :: _) => Some ("{" +:+ m +:+ "}") | _ => None end;
  json_string_field s _ := if String.eqb s "{m}" then Some "gpt-5" else Some "best";
  json_int_fields s _ := None;
}.

Definition fresh_client : responseWrapper := mkRW false 0 0 ∅ "" 0 None.

Lemma buffered_answer_witness :
  let '(_, (a, rw'), ok) :=
    attempt_run "best" [AWriteHeader 200; AWrite "{"; AWrite "m}"] fresh_client in
  ok = true ∧ a_StatusCode a = 200%Z ∧ text (a, rw') = "{best}".
Proof.
  pose proof (buffered_answer "best" [AWriteHeader 200; AWrite "{"; AWrite "m}"] fresh_client
    ltac:(set_solver) eq_refl eq_refl) as Hb.
  destruct (attempt_run "best" [AWriteHeader 200; AWrite "{"; AWrite "m}"] fresh_client)
    as [[v [a rw']] ok].
  exact (conj (proj1 Hb) (conj (proj1 (proj2 Hb)) (proj1 (proj2 (proj2 Hb))))).
Defined.

(** Streaming does not depend on how the provider cuts its writes.  After the
    first flush, writing a text in any chunks delivers the rewritten form of its
    complete lines, in order, and keeps exactly the unfinished last line pending:
    two ways to cut the same text are the same for the client. *)
Theorem stream_chunks_irrelevant `{JSON} chunks chunks' st :
  v_streaming (st_virtual st) = true → rw_broken (st_attempt st).2 = None →
  (lines_of (v_streamPending (st_virtual st))).1 = [] →
  concat_str chunks = concat_str chunks' →
  let run l := run_script (AWrite <$> l) st in
  text (st_attempt (run chunks))
    = text (st_attempt st) +:+ rewritten_lines (v_model (st_virtual st))
        (lines_of (v_streamPending (st_virtual st) +:+ concat_str chunks)).1
  ∧ text (st_attempt (run chunks)) = text (st_attempt (run chunks'))
  ∧ v_streamPending (st_virtual (run chunks)) = v_streamPending (st_virtual (run chunks')).
Proof.
  intros Hv Hb Hl Heq run.
  destruct (stream_writes chunks st Hv Hb Hl) as [H1 H2].
  destruct (stream_writes chunks' st Hv Hb Hl) as [H3 H4].
  unfold run. rewrite H1, H2, H3, H4, Heq. done.
Qed.

Definition streaming_stack : stack := act (new_stack "best" fresh_client) AFlush.

Lemma stream_chunks_irrelevant_witness :
  text (st_attempt (run_script (AWrite <$> ["data: {"; "m}" +:+ newline]) streaming_stack))
  = text (st_attempt (run_script (AWrite <$> ["data: {m}" +:+ newline]) streaming_stack)).
Proof.
  apply (stream_chunks_irrelevant ["data: {"; "m}" +:+ newline] ["data: {m}" +:+ newline]
    streaming_stack); reflexivity.
Defined.

(** The client sees the model it asked for and nothing else changed: after the
    rewriting every string under a [model] key, at any depth outside such a key,
    is the requested name, the rest of the value is untouched, and rewriting
    again changes nothing. *)
Theorem model_rewriting_exact model j :
  models_are model (rewriteModelField model j)
  ∧ same_but_models j (rewriteModelField model j)
  ∧ rewriteModelField model (rewriteModelField model j) = rewriteModelField model j.
Proof.
  split_and!; [apply rewriteModelField_models|apply rewriteModelField_same|
    apply rewriteModelField_idemp].
Qed.
