(* ===== verification/Usage.v ===== *)
(** * Token usage read out of a response

    [src/src/usage_sniffer.go] scans the bytes an attempt produced for the last
    well-formed usage object.  Both loops advance by at least a byte a round; their
    fuel is the length of the text. *)

From S2P Require Import Prelude GoStd Telemetry Writers.

Definition maxObjectScan : nat := Z.to_nat 8192.
#[global] Opaque maxObjectScan.

Definition quote : ascii := ascii_of_nat 34.
Definition backslash : ascii := ascii_of_nat 92.
Definition usage_key : string := str [34; 117; 115; 97; 103; 101; 34].

(** The position after the first occurrence, and what follows it: [bytes.Index]. *)
Fixpoint after_first (key s : string) : option (nat * string) :=
  match strip_prefix key s with
  | Some rest => Some (String.length key, rest)
  | None =>
    match s with
    | "" => None
    | String _ s' => match after_first key s' with Some (n, r) => Some (S n, r) | None => None end
    end
  end.

(** The suffix that starts at the first [c]: [bytes.IndexByte]. *)
Fixpoint from_byte (c : ascii) (s : string) : option string :=
  match s with
  | "" => None
  | String d s' => if Ascii.eqb d c then Some s else from_byte c s'
  end.

(** The scan's state: nesting depth, inside a string, after a backslash. *)
Record scan := mkScan { depth : Z; inString : bool; escaped : bool }.

Definition scan_byte (c : ascii) (s : scan) : scan :=
  if escaped s then mkScan (depth s) (inString s) false
  else if inString s && Ascii.eqb c backslash then mkScan (depth s) (inString s) true
  else if Ascii.eqb c quote then mkScan (depth s) (negb (inString s)) false
  else if inString s then s
  else if Ascii.eqb c "{" then mkScan (depth s + 1) false false
  else if Ascii.eqb c "}" then mkScan (depth s - 1) false false
  else s.

(** The closing brace that brings the depth to zero ends the scan. *)
Definition closes (c : ascii) (s : scan) : bool :=
  negb (escaped s) && negb (inString s) && Ascii.eqb c "}" && (depth s =? 1)%Z.

Fixpoint balanced_prefix (limit : nat) (s : scan) (data : string) : option string :=
  match limit, data with
  | S limit, String c data =>
    if closes c s then Some (String c "")
    else String c <$> balanced_prefix limit (scan_byte c s) data
  | _, _ => None
  end.

(* src/src/usage_sniffer.go extractBalancedJSONObject *)
Definition extractBalancedJSONObject (data : string) : option string :=
  match data with
  | String c _ => if Ascii.eqb c "{" then balanced_prefix maxObjectScan (mkScan 0 false false) data else None
  | "" => None
  end.

Section usage.
Context `{JSON}.

Definition usage_of_fields (fields : option Z * option Z * option Z) : option Usage :=
  let '(input, output, total) := fields in
  match input, output with
  | None, None => None
  | _, _ =>
    let i := default 0%Z input in
    let o := default 0%Z output in
    Some (mkUsage i o (default (wrap_i64 (i + o)) total))
  end.

(* src/src/usage_sniffer.go parseUsageFragment *)
Definition parseUsageFragment (fragment : string) : option Usage :=
  match json_int_fields fragment ("prompt_tokens", "completion_tokens", "total_tokens")
        ≫= usage_of_fields with
  | Some u => Some u
  | None =>
    json_int_fields fragment ("input_tokens", "output_tokens", "total_tokens") ≫= usage_of_fields
  end.

(* src/src/usage_sniffer.go sniffUsageJSON *)
Fixpoint sniff_loop (fuel : nat) (rest : string) (found : option Usage) : option Usage :=
  match fuel with
  | 0 => found
  | S fuel =>
    match after_first usage_key rest with
    | None => found
    | Some (_, afterKey) =>
      match from_byte "{" afterKey with
      | None => found
      | Some object =>
        let found :=
          match extractBalancedJSONObject object ≫= parseUsageFragment with
          | Some u => Some u
          | None => found
          end in
        sniff_loop fuel (str_drop 1 object) found
      end
    end
  end.

(* src/src/usage_sniffer.go sniffUsageJSON *)
Definition sniffUsageJSON (body : string) : option Usage :=
  sniff_loop (S (String.length body)) body None.

(* src/src/usage_sniffer.go usageSniffWriter.Usage *)
Definition Usage_of (u : usageSniffWriter) : option Usage :=
  if u_capped u then None else sniffUsageJSON (u_buf u).

End usage.

(** ** The fragment an object is read from *)

Fixpoint scan_all (s : scan) (data : string) : scan :=
  match data with "" => s | String c data => scan_all (scan_byte c s) data end.

(** The depth at the end is zero, and was positive all along. *)
Fixpoint first_zero (s : scan) (data : string) : Prop :=
  match data with
  | "" => False
  | String c "" => depth (scan_byte c s) = 0%Z
  | String c data => (0 < depth (scan_byte c s))%Z ∧ first_zero (scan_byte c s) data
  end.

Lemma closes_depth c s : (0 < depth s)%Z → closes c s = true ↔ depth (scan_byte c s) = 0%Z.
Proof.
  intros Hd. unfold closes, scan_byte. destruct s as [d i e]; simpl in *.
  destruct e; simpl; [split; [done|lia]|]. destruct i; simpl.
  { destruct (Ascii.eqb c backslash); simpl; [split; [done|lia]|].
    destruct (Ascii.eqb c quote); simpl; split; done || lia. }
  destruct (Ascii.eqb_spec c quote) as [->|]; simpl.
  { split; [done|lia]. }
  destruct (Ascii.eqb_spec c "{") as [->|]; simpl; [split; [done|lia]|].
  destruct (Ascii.eqb_spec c "}") as [->|]; simpl; [|split; [done|lia]].
  rewrite Z.eqb_eq. lia.
Qed.

Lemma scan_byte_depth c s : (0 < depth s)%Z → (0 ≤ depth (scan_byte c s))%Z.
Proof. intros Hd. unfold scan_byte. repeat case_match; simpl; lia. Qed.

Lemma balanced_prefix_iff limit s data frag :
  (0 < depth s)%Z →
  balanced_prefix limit s data = Some frag ↔
  (∃ rest, data = frag +:+ rest) ∧ String.length frag ≤ limit ∧ first_zero s frag.
Proof.
  revert limit s frag; induction data as [|c data IH]; intros limit s frag Hd.
  { destruct limit; simpl; (split; [done|]); intros ([rest Hr] & _ & Hz);
      destruct frag; simpl in *; done. }
  destruct limit as [|limit]; simpl.
  { split; [done|]. intros (_ & Hl & Hz). destruct frag; simpl in *; [done|lia]. }
  pose proof (closes_depth c s Hd) as Hc. pose proof (scan_byte_depth c s Hd) as Hge.
  destruct (closes c s).
  - split.
    + intros [= <-]. split_and!; [by exists data|simpl; lia|]. simpl. by apply Hc.
    + intros ([rest Hr] & Hl & Hz). destruct frag as [|d frag]; [done|].
      simpl in Hr. injection Hr as -> Hr. destruct frag as [|d' frag]; [done|].
      destruct Hz as [Hz _]. destruct Hc as [Hc _]. specialize (Hc eq_refl). lia.
  - assert (0 < depth (scan_byte c s))%Z as Hpos.
    { destruct (decide (depth (scan_byte c s) = 0%Z)) as [H0|]; [|lia]. by apply Hc in H0. }
    rewrite fmap_Some. split.
    + intros (frag' & Hf%IH & ->); [|done]. destruct Hf as ([rest ->] & Hl & Hz).
      split_and!; [by exists rest|simpl; lia|]. simpl. by destruct frag'.
    + intros ([rest Hr] & Hl & Hz). destruct frag as [|d frag]; [done|].
      simpl in Hr. injection Hr as -> Hr. exists frag. split; [|done].
      apply IH; [done|]. destruct frag as [|d' frag].
      { simpl in Hz. lia. }
      split_and!; [by exists rest|simpl in *; lia|by destruct Hz].
Qed.

(** The usage object.  The scan returns a fragment exactly when it is the
    shortest prefix of the data that starts with a brace and closes every brace it
    opened outside string literals, and no longer than the scan window. *)
Theorem balanced_fragment_iff data frag :
  extractBalancedJSONObject data = Some frag ↔
  (∃ rest, data = frag +:+ rest) ∧ (∃ rest, frag = "{" +:+ rest)
  ∧ String.length frag ≤ maxObjectScan ∧ first_zero (mkScan 0 false false) frag.
Proof.
  unfold extractBalancedJSONObject. destruct data as [|c data].
  { split; [done|]. intros ([r Hr] & [r' ->] & _). done. }
  assert (maxObjectScan = S (Z.to_nat 8191)) as Hmax by (with_strategy transparent [maxObjectScan] unfold maxObjectScan; lia).
  rewrite Hmax. generalize (Z.to_nat 8191). intros limit.
  destruct (Ascii.eqb_spec c "{") as [->|Hne].
  2:{ split; [done|]. intros ([r Hr] & [r' ->] & _). simpl in Hr. congruence. }
  cbn [balanced_prefix]. change (closes "{" (mkScan 0 false false)) with false. cbv iota.
  change (scan_byte "{" (mkScan 0 false false)) with (mkScan 1 false false).
  rewrite fmap_Some. setoid_rewrite balanced_prefix_iff; [|done..]. split.
  - intros (frag' & ([r ->] & Hl & Hz) & ->). split_and!; [by exists r|by exists frag'|simpl; lia|].
    by destruct frag'.
  - intros ([r Hr] & [frag' ->] & Hl & Hz). exists frag'. simpl in Hr. injection Hr as Hr.
    destruct frag' as [|d frag']; [simpl in Hz; lia|]. simpl in Hl.
    split; [|done]. split_and!; [by exists r|simpl; lia|by destruct Hz].
Qed.

(** The loop over the text cannot run out of rounds: each drops a byte. *)
Lemma after_first_length key s n r :
  after_first key s = Some (n, r) → String.length r ≤ String.length s.
Proof.
  revert n r; induction s as [|c s IH]; intros n r Hs; simpl in Hs.
  - destruct (strip_prefix key "") eqn:E; [|done]. apply strip_prefix_Some in E.
    destruct key; simplify_eq/=. done.
  - destruct (strip_prefix key (String c s)) eqn:E.
    + apply strip_prefix_Some in E. injection Hs as <- <-. rewrite E, str_length_app. lia.
    + destruct (after_first key s) as [[n' r']|]; [|done]. injection Hs as <- <-.
      specialize (IH _ _ eq_refl). simpl. lia.
Qed.

Lemma from_byte_length c s r : from_byte c s = Some r → String.length r ≤ String.length s ∧ r ≠ "".
Proof.
  revert r; induction s as [|d s IH]; intros r Hr; simpl in Hr; [done|].
  destruct (Ascii.eqb d c); [by injection Hr as <-|]. apply IH in Hr as [? ?]. simpl. split; [lia|done].
Qed.

Lemma sniff_loop_fuel `{JSON} fuel fuel' rest found :
  String.length rest < fuel → String.length rest < fuel' →
  sniff_loop fuel rest found = sniff_loop fuel' rest found.
Proof.
  revert fuel' rest found; induction fuel as [|fuel IH]; intros [|fuel'] rest found Hf Hf'; try lia.
  simpl. destruct (after_first _ _) as [[n r]|] eqn:Ha; [|done].
  destruct (from_byte _ _) as [object|] eqn:Hb; [|done].
  apply after_first_length in Ha. apply from_byte_length in Hb as [Hb Hne].
  destruct object as [|c object]; [done|]. simpl in *.
  assert (str_drop 0 object = object) as Hd by (by destruct object).
  apply IH; rewrite ?Hd; lia.
Qed.
