(* ===== verification/Failover.v ===== *)
(** * The request loop: dispatch, failover and what the client gets

    [processProxyRequest], [dispatchSingleRoute] and the error path of
    [proxyHandler] of [src/src/proxy.go], with [provider_error.go],
    [telemetry_runtime.go] and [internal/proxy/request.go].

    What the world answers to the n-th attempt of a request is an [env]: the calls
    the provider makes on its writer and the error it returns, the times, whether
    the request's context is over.  The loop is bounded by fuel; the number of
    configured targets is enough ([failover_terminates]). *)

From S2P Require Import Prelude GoStd Provider Config Availability Cooldown Routing Telemetry.
From S2P Require Import Writers Usage.

(** ** Request helpers *)

(* src/internal/proxy/request.go CapabilityFromPath *)
Definition CapabilityFromPath (path : string) : option string :=
  if Contains path "/chat/completions" then Some CapabilityChat
  else if Contains path "/responses" then Some CapabilityResponses
  else if Contains path "/embeddings" then Some CapabilityEmbeddings
  else None.

(** Go's map assignment on the decoded members: replace in place or add. *)
Fixpoint set_member (key : string) (v : json) (l : list (string * json)) : list (string * json) :=
  match l with
  | [] => [(key, v)]
  | (k, x) :: l => if String.eqb k key then (key, v) :: l else (k, x) :: set_member key v l
  end.

Inductive go_outcome (A : Type) := Returns (a : A) | Panics.
Arguments Returns {_} _.
Arguments Panics {_}.

(* src/internal/proxy/request.go ExtractModel *)
Definition ExtractModel `{JSON} (body : string) : string :=
  default "" (json_string_field body "model").

(** Decoding [null] into a map succeeds and leaves it nil; assigning to a nil map
    panics. *)
(* src/internal/proxy/request.go PatchModel *)
Definition PatchModel `{JSON} (body model : string) : go_outcome string :=
  match json_unmarshal body with
  | Some (JObj l) =>
    Returns (default body (json_marshal (JObj (set_member "model" (JStr model) l))))
  | Some JNull => Panics
  | _ => Returns body
  end.

(** ** Provider errors *)

(* src/src/provider_error.go ProviderErrorKind *)
(* src/src/provider_error.go ProviderErrorInvalidRequest *)
Inductive ProviderErrorKind :=
| ProviderErrorInvalidRequest | ProviderErrorAuthRequired | ProviderErrorEntitlement
| ProviderErrorRateLimit | ProviderErrorUnsupported | ProviderErrorUnavailable
| ProviderErrorTransport | ProviderErrorModelUnavailable.

Definition kind_string (k : ProviderErrorKind) : string :=
  match k with
  | ProviderErrorInvalidRequest => "invalid_request"
  | ProviderErrorAuthRequired => "auth_required"
  | ProviderErrorEntitlement => "entitlement_denied"
  | ProviderErrorRateLimit => "rate_limited"
  | ProviderErrorUnsupported => "unsupported_capability"
  | ProviderErrorUnavailable => "provider_unavailable"
  | ProviderErrorTransport => "transport_error"
  | ProviderErrorModelUnavailable => "model_unavailable"
  end.

(** An error as the proxy asks about it: its text, the context errors it wraps and
    the [ProviderError], if any, that it is or wraps. *)
(* src/src/provider_error.go ProviderError *)
Record perr := mkPerr {
  pe_message : string;
  pe_go : goerror;
  pe_provider : option (ProviderErrorKind * Z);
}.

(* src/src/provider_error.go newProviderError *)
Definition newProviderError (kind : ProviderErrorKind) (status : Z) (message : string) : perr :=
  mkPerr message (mkError false false) (Some (kind, status)).

(* src/src/provider_error.go providerErrorStatus *)
Definition providerErrorStatus (err : option perr) : Z :=
  match err with
  | None => StatusOK
  | Some e =>
    match pe_provider e with
    | Some (_, status) =>
      if (0 <? status)%Z then status
      else if IsDeadlineExceeded (pe_go e) then StatusGatewayTimeout
      else if IsCanceled (pe_go e) then StatusRequestTimeout else StatusBadGateway
    | None =>
      if IsDeadlineExceeded (pe_go e) then StatusGatewayTimeout
      else if IsCanceled (pe_go e) then StatusRequestTimeout else StatusBadGateway
    end
  end.

(* src/src/provider_error.go writeOpenAIError *)
Definition writeOpenAIError `{JSON} (status : Z) (err : option perr) (rw : responseWrapper)
    : responseWrapper :=
  let status := if (status <=? 0)%Z then StatusInternalServerError else status in
  let message := match err with Some e => pe_message e | None => "request failed" end in
  let errorType :=
    match err ≫= pe_provider with Some (kind, _) => kind_string kind | None => "proxy_error" end in
  let body := default "" (json_marshal
    (JObj [("error", JObj [("message", JStr message); ("type", JStr errorType)])])) in
  let rw := rw_set_header (insert "Content-Type" "application/json" (rw_header rw)) rw in
  fst (rw_Write body (rw_WriteHeader status rw)).

(* src/src/provider_error.go responseStatus *)
Definition responseStatus (status : Z) : Z := if (0 <? status)%Z then status else StatusOK.

(* src/src/telemetry_runtime.go classifyErrorCategory *)
Definition classifyErrorCategory (status : Z) (err : option perr) : ErrorCategory :=
  let by_status :=
    if (status =? 429)%Z then ErrorCategoryRateLimited
    else if (status =? 401)%Z || (status =? 403)%Z then ErrorCategoryAuthRequired
    else if (status =? 408)%Z || (status =? 504)%Z then ErrorCategoryTimeout
    else if (status =? 503)%Z then ErrorCategoryProviderUnavailable
    else if (500 <=? status)%Z then ErrorCategoryProviderUnavailable
    else if (400 <=? status)%Z then ErrorCategoryInvalidRequest
    else ErrorCategoryTransport in
  match err with
  | None => by_status
  | Some e =>
    if IsDeadlineExceeded (pe_go e) then ErrorCategoryTimeout
    else if IsCanceled (pe_go e) then ErrorCategoryCanceled
    else
      match pe_provider e with
      | Some (ProviderErrorInvalidRequest, _) => ErrorCategoryInvalidRequest
      | Some (ProviderErrorAuthRequired, _) => ErrorCategoryAuthRequired
      | Some (ProviderErrorEntitlement, _) => ErrorCategoryEntitlementDenied
      | Some (ProviderErrorRateLimit, _) => ErrorCategoryRateLimited
      | Some (ProviderErrorUnsupported, _) => ErrorCategoryUnsupported
      | Some (ProviderErrorUnavailable, _) => ErrorCategoryProviderUnavailable
      | Some (ProviderErrorModelUnavailable, _) => ErrorCategoryModelUnavailable
      | Some (ProviderErrorTransport, _) => ErrorCategoryTransport
      | None => by_status
      end
  end.

(** The multiplication by [time.Second] wraps for absurd values. *)
(* src/src/proxy.go retryAfterDuration *)
Definition retryAfterDuration (value : string) : Duration :=
  match Atoi (TrimSpace value) with
  | None => 0%Z
  | Some seconds =>
    if (seconds <=? 0)%Z then 0%Z
    else
      let duration := wrap_i64 (seconds * Second) in
      if (5 * Minute <? duration)%Z then (5 * Minute)%Z else duration
  end.

(* src/src/proxy.go isEligibleFailoverStatus *)
Definition isEligibleFailoverStatus (status : Z) (err : option perr) : bool :=
  match err with
  | Some _ => true
  | None =>
    bool_decide (status ∈ [StatusTooManyRequests; StatusUnauthorized; StatusPaymentRequired;
      StatusForbidden; StatusRequestTimeout; StatusGatewayTimeout])
    || (StatusInternalServerError <=? status)%Z
  end.

(** ** State and environment *)

(** What the n-th attempt of a request (from 1) meets. *)
Record env := mkEnv {
  behave : nat → string → string → string → list action * option perr;
  begin_time : nat → Time;
  outcome_time : nat → Time;
  outcome_fault : nat → option persist_fault;
  context_error : nat → option perr;
  next_clock : nat → clock;
  has_recorder : bool;
}.

(** One attempt in the trace of a request: the target, the provider and the body it got,
    what the client had received when the attempt started, and whether it committed. *)
Record attempt_record := mkTrace {
  at_target : string; at_provider : string; at_body : string; at_client : responseWrapper; at_committed : bool;
}.

(** The error of a write to a client that is gone. *)
Definition write_error : perr := mkPerr "write failed" (mkError false false) None.

Section loop.
Context {Bytes : Type} `{StateCodec Bytes} `{JSON}.

Record world := mkWorld {
  w_router : Router Bytes; w_telemetry : Recorder; w_client : responseWrapper;
}.

(** One attempt, up to the decision to go on: the state, whether it succeeded,
    its status and error, and its writers. *)
Record attempt_result := mkAR {
  ar_world : world;
  ar_attempt : attemptResponseWriter;
  ar_success : bool;
  ar_status : Z;
  ar_error : option perr;
}.

(* src/src/proxy.go:647-674 processProxyRequest *)
Definition run_attempt (e : env) (n : nat) (requestedModel capability : string)
    (route : Result) (d : SelectionDecision) (attemptBody : string) (w : world) : attempt_result :=
  let '(telemetry, handle) := Telemetry.Begin (has_recorder e) (begin_time e n)
    (p_ID (res_Provider route)) (ResolvedModel route) (w_telemetry w) in
  let '(script, err) := behave e n (p_ID (res_Provider route)) attemptBody capability in
  let st := run_script script (new_stack requestedModel (w_client w)) in
  let '(v, (a, rw), ok) := Commit (st_virtual st) (st_attempt st) in
  let proxyErr := if ok then err else match err with Some x => Some x | None => Some write_error end in
  let status := responseStatus (v_StatusCode v) in
  let status :=
    if bool_decide (is_Some proxyErr) && (status =? StatusOK)%Z then providerErrorStatus proxyErr
    else status in
  let retryAfter := retryAfterDuration (default "" (rw_header rw !! "Retry-After")) in
  let router := RecordOutcome (outcome_time e n) (outcome_fault e n) (Some d) status
    (pe_go <$> proxyErr) retryAfter (w_router w) in
  let success := negb (bool_decide (is_Some proxyErr)) && (status <? StatusBadRequest)%Z in
  let telemetry := Telemetry.Finish (outcome_time e n) handle
    (mkOutcome success (classifyErrorCategory status proxyErr)
       (success && negb (String.eqb capability CapabilityEmbeddings)) (Usage_of (st_usage st)))
    telemetry in
  mkAR (mkWorld router telemetry rw) a success status proxyErr.

(** The model of the body as the provider gets it. *)
(* src/src/proxy.go:637-641 processProxyRequest *)
Definition body_for (body requestedModel resolvedModel : string) : go_outcome string :=
  if String.eqb resolvedModel requestedModel then Returns body
  else PatchModel body resolvedModel.

Definition with_client (rw : responseWrapper) (w : world) : world :=
  mkWorld (w_router w) (w_telemetry w) rw.
Definition with_router (r : Router Bytes) (w : world) : world :=
  mkWorld r (w_telemetry w) (w_client w).

(** The loop returns the final state, the attempts made and the error, or [None]
    when the fuel is gone. *)
(* src/src/proxy.go:612-732 processProxyRequest *)
Fixpoint failover_loop (fuel : nat) (e : env) (n : nat) (requestedModel capability body : string)
    (route : Result) (attempted : gset string) (w : world)
    : option (world * list attempt_record * go_outcome (option perr)) :=
  match fuel with
  | 0 => None
  | S fuel =>
    match Selection route with
    | None => Some (w, [], Panics)
    | Some d =>
      let target := TrimSpace (SelectedTarget d) in
      let attempted := {[target]} ∪ attempted in
      match body_for body requestedModel (ResolvedModel route) with
      | Panics => Some (w, [], Panics)
      | Returns attemptBody =>
        let res := run_attempt e n requestedModel capability route d attemptBody w in
        let a := ar_attempt res in
        let here := mkTrace target (p_ID (res_Provider route)) attemptBody (w_client w) (OutputCommitted a) in
        let w := ar_world res in
        if ar_success res || OutputCommitted a then
          let w := if ar_success res
                   then with_router (RecordPreferred (VirtualModelID d) capability target (w_router w)) w
                   else w in
          if OutputCommitted a then Some (w, [here], Returns (ar_error res))
          else
            let '((_, rw), ok) := CommitToReal (a, w_client w) in
            Some (with_client rw w, [here],
                  Returns (if ok then ar_error res else Some write_error))
        else if negb (isEligibleFailoverStatus (ar_status res) (ar_error res)) then
          let '((_, rw), _) := CommitToReal (a, w_client w) in
          Some (with_client rw w, [here], Returns (ar_error res))
        else
          match context_error e n with
          | Some _ => Some (w, [here], Returns (ar_error res))
          | None =>
            let '(r, next) :=
              ResolveNext (next_clock e n) (VirtualModelID d) capability attempted (w_router w) in
            let w := with_router r w in
            match next with
            | Err _ =>
              Some (w, [here], Returns (Some (newProviderError ProviderErrorModelUnavailable
                StatusServiceUnavailable "all active targets failed")))
            | Ok route =>
              match failover_loop fuel e (S n) requestedModel capability body route attempted w with
              | Some (w, trace, out) => Some (w, here :: trace, out)
              | None => None
              end
            end
          end
      end
    end
  end.

(** Routes other than umbrella ones are dispatched once, on the client's writer. *)
(* src/src/proxy.go dispatchSingleRoute *)
Definition dispatchSingleRoute (e : env) (requestedModel capability body : string)
    (route : Result) (w : world) : world * go_outcome (option perr) :=
  match body_for body requestedModel (ResolvedModel route) with
  | Panics => (w, Panics)
  | Returns body =>
    let '(telemetry, handle) := Telemetry.Begin (has_recorder e) (begin_time e 1)
      (p_ID (res_Provider route)) (ResolvedModel route) (w_telemetry w) in
    let '(script, proxyErr) := behave e 1 (p_ID (res_Provider route)) body capability in
    let '(u, rw) := foldl (λ '(u, rw) x,
      match x with
      | ASetHeader k v => (u, rw_set_header (insert k v (rw_header rw)) rw)
      | ADelHeader k => (u, rw_set_header (delete k (rw_header rw)) rw)
      | AWriteHeader code => (u, rw_WriteHeader code rw)
      | AWrite data => (u_tee data u, fst (rw_Write data rw))
      | AFlush => (u, rw_Flush rw)
      end) (mkUsageWriter "" false, w_client w) script in
    let status := responseStatus (rw_StatusCode rw) in
    let status :=
      if bool_decide (is_Some proxyErr) && (status =? StatusOK)%Z then providerErrorStatus proxyErr
      else status in
    let success := negb (bool_decide (is_Some proxyErr)) && (status <? StatusBadRequest)%Z in
    let telemetry := Telemetry.Finish (outcome_time e 1) handle
      (mkOutcome success (classifyErrorCategory status proxyErr)
         (success && negb (String.eqb capability CapabilityEmbeddings)) (Usage_of u)) telemetry in
    (mkWorld (w_router w) telemetry rw, Returns proxyErr)
  end.

(** The fuel of the loop: the targets of the umbrella that was selected. *)
Definition loop_fuel (r : Router Bytes) (d : SelectionDecision) : nat :=
  match VirtualModels (routing r) !! VirtualModelID d with
  | Some vm => length (elems (vm_Targets vm))
  | None => 0
  end.

(** [body] is [None] when reading the request failed. *)
(* src/src/proxy.go:562-622 processProxyRequest *)
Definition processProxyRequest (e : env) (c : clock) (path : string) (body : option string)
    (w : world) : option (world * list attempt_record * go_outcome (option perr)) :=
  match CapabilityFromPath path with
  | None => Some (w, [], Returns (Some (newProviderError ProviderErrorInvalidRequest StatusNotFound
      ("unsupported path: " +:+ path))))
  | Some capability =>
    match body with
    | None => Some (w, [], Returns (Some (newProviderError ProviderErrorInvalidRequest
        StatusBadRequest "reading request body")))
    | Some body =>
      let requestedModel := ExtractModel body in
      let '(r, route) := Resolve c requestedModel capability (w_router w) in
      let w := with_router r w in
      match route with
      | Err (NoActiveTarget _) =>
        Some (w, [], Returns (Some (newProviderError ProviderErrorModelUnavailable
          StatusServiceUnavailable "no active target is available")))
      | Err _ => Some (w, [], Returns (Some (newProviderError ProviderErrorInvalidRequest
          StatusBadRequest "routing")))
      | Ok route =>
        match Selection route with
        | None => let '(w, out) := dispatchSingleRoute e requestedModel capability body route w in
                  Some (w, [], out)
        | Some d =>
          failover_loop (loop_fuel (w_router w) d) e 1 requestedModel capability body route ∅ w
        end
      end
    end
  end.

(** [ctx_end] is the error of the request's context when the request returns. *)
(* src/src/proxy.go proxyHandler *)
Definition proxyHandler (e : env) (c : clock) (ctx_end : option perr) (path : string)
    (body : option string) (w : world) : option world :=
  match processProxyRequest e c path body w with
  | None => None
  | Some (w, _, Panics) =>
    let rw := w_client w in
    if rw_headersSent rw then Some w
    else Some (with_client (writeOpenAIError StatusInternalServerError
      (Some (newProviderError ProviderErrorTransport StatusInternalServerError
        "internal server error")) rw) w)
  | Some (w, _, Returns err) =>
    let rw := w_client w in
    let err := match err with
               | Some x => Some x
               | None => if rw_headersSent rw then None else ctx_end
               end in
    match err with
    | Some x =>
      if rw_headersSent rw then Some w
      else
        let status := providerErrorStatus err in
        let status := if IsDeadlineExceeded (pe_go x) then StatusGatewayTimeout else status in
        Some (with_client (writeOpenAIError status err rw) w)
    | None => Some w
    end
  end.

End loop.

(** ** Facts *)

#[global] Arguments RecordOutcome : simpl never.
#[global] Arguments ResolveNext : simpl never.
#[global] Arguments Telemetry.Finish : simpl never.
#[global] Arguments classifyErrorCategory : simpl never.

Section loop_facts.
Context {Bytes : Type} `{StateCodec Bytes} `{JSON}.
Implicit Types r : Router Bytes.

Definition same_tables r r' : Prop := registry r' = registry r ∧ routing r' = routing r.

#[local] Instance same_tables_equiv : Equivalence same_tables.
Proof. unfold same_tables. split; [done|red; naive_solver|red; intuition congruence]. Qed.

Lemma RecordOutcome_tables now fault d status err ra r :
  same_tables r (RecordOutcome now fault d status err ra r).
Proof.
  unfold RecordOutcome. destruct d as [d|]; [|done].
  destruct (StripModelPrefix _) as [[bare id] []]; [|done].
  destruct (outcome_success _ _).
  - by destruct (Clear _ _ _ _ _) as [cd []].
  - destruct (cooldownPolicy _ _ _) as [[reason hint]|]; [|done].
    by destruct (Record_ _ _ _ _ _ _ _ _) as [cd []].
Qed.

Lemma RecordPreferred_tables vid capability target r :
  same_tables r (RecordPreferred vid capability target r).
Proof. unfold RecordPreferred. by repeat case_match. Qed.

Lemma resolveVirtualModelExcluding_tables c vid vm capability exclude r :
  same_tables r (fst (resolveVirtualModelExcluding c vid vm capability exclude r)).
Proof.
  unfold resolveVirtualModelExcluding, buildAvailabilitySnapshot.
  match goal with |- context [SelectPriorityTargetExcluding _ ?o] => generalize o end. intros ordered.
  destruct (provider_views _ _ _) as [r1 views] eqn:Hv.
  apply provider_views_spec in Hv as ((? & ? & _) & _).
  by repeat case_match.
Qed.

Lemma ResolveNext_tables c vid capability exclude r :
  same_tables r (fst (ResolveNext c vid capability exclude r)).
Proof.
  unfold ResolveNext. destruct (_ !! vid); [apply resolveVirtualModelExcluding_tables|done].
Qed.

Lemma resolveVirtualModelExcluding_id c vid vm capability exclude r r' res d :
  resolveVirtualModelExcluding c vid vm capability exclude r = (r', Ok res) →
  Selection res = Some d → VirtualModelID d = vid.
Proof.
  unfold resolveVirtualModelExcluding.
  match goal with |- context [SelectPriorityTargetExcluding _ ?o] => generalize o end. intros ordered.
  destruct (buildAvailabilitySnapshot _ _) as [r1 snapshot].
  destruct (SelectPriorityTargetExcluding _ _ _ _ _) as [d'|] eqn:Hs; [|done].
  apply select_loop_Ok in Hs as (_ & _ & _ & _ & _ & _ & _ & Hid & _).
  destruct (StripModelPrefix _) as [[bare id] b]. destruct (Registry.Get _ _); [|done].
  intros [= _ <-] [= <-]. done.
Qed.

(** The distinct targets of an umbrella. *)
Definition target_set r (vid : string) : gset string :=
  match VirtualModels (routing r) !! vid with
  | Some vm => set_of (TrimSpace <$> elems (vm_Targets vm))
  | None => ∅
  end.

Lemma target_set_tables r r' vid : same_tables r r' → target_set r' vid = target_set r vid.
Proof. unfold target_set. by intros [_ ->]. Qed.

(** What the failover of an umbrella request may be handed next. *)
Lemma ResolveNext_Ok c vid capability exclude r r' res :
  Registry.wf (registry r) → (0 ≤ snapshot_built c)%Z →
  ResolveNext c vid capability exclude r = (r', Ok res) →
  ∃ d, Selection res = Some d ∧ VirtualModelID d = vid
    ∧ TrimSpace (SelectedTarget d) ∈ target_set r vid ∖ exclude.
Proof.
  intros Hwf Hbuilt. unfold ResolveNext, target_set.
  destruct (VirtualModels (routing r) !! vid) as [vm|]; [|done]. intros Hr.
  pose proof Hr as (d & t & Hd & _ & Hex & Hin & Heq & _)%resolveVirtualModelExcluding_Ok; [|done..].
  exists d. split_and!; [done|by eapply resolveVirtualModelExcluding_id|].
  apply elem_of_difference. split; [|done]. apply elem_of_set_of. rewrite <-Heq.
  by apply list_elem_of_fmap_2.
Qed.

Implicit Types w : world (Bytes:=Bytes).

Definition all_closed (t : Recorder) : Prop := Forall (λ h, h_status h = Closed) (handles t).

Lemma run_attempt_spec e n requestedModel capability route d body w :
  let res := run_attempt e n requestedModel capability route d body w in
  attempt_inv (w_client w) (ar_attempt res, w_client (ar_world res))
  ∧ same_tables (w_router w) (w_router (ar_world res))
  ∧ (all_closed (w_telemetry w) → all_closed (w_telemetry (ar_world res)))
  ∧ length (handles (w_telemetry (ar_world res))) = S (length (handles (w_telemetry w))).
Proof.
  unfold run_attempt.
  destruct (Begin _ _ _ _ _) as [telemetry handle] eqn:Hb.
  destruct (behave _ _ _ _ _) as [script err].
  pose proof (attempt_run_inv requestedModel script (w_client w)) as Hinv.
  unfold attempt_run in Hinv.
  set (st := run_script _ _) in *.
  destruct (Commit (st_virtual st) (st_attempt st)) as [[v [a rw]] ok]. simpl in *.
  split_and!; [done|apply RecordOutcome_tables|..].
  - pose proof (λ o, Begin_Finish_handles (has_recorder e) (begin_time e n) (outcome_time e n)
      (p_ID (res_Provider route)) (ResolvedModel route) o (w_telemetry w)) as Hf.
    rewrite Hb in Hf. unfold all_closed. rewrite Hf. intros. apply Forall_app. by repeat constructor.
  - pose proof (λ o, Begin_Finish_handles (has_recorder e) (begin_time e n) (outcome_time e n)
      (p_ID (res_Provider route)) (ResolvedModel route) o (w_telemetry w)) as Hf.
    rewrite Hb in Hf. rewrite Hf, length_app. simpl. lia.
Qed.

(** What the last attempt leaves with the client, when it alone is run on the response as
    it was: what it has written through; or else all it has kept back, released; or
    nothing at all. *)
Definition delivered (model : string) (script : list action) (before after : responseWrapper) : Prop :=
  let '(_, (a, rw), _) := attempt_run model script before in
  if OutputCommitted a then after = rw
  else after = (CommitToReal (a, rw)).1.2 ∨ (after = rw ∧ same_client before after).

(** The client after the attempts of a trace, the first of which is the [n]-th. *)
Definition client_after (e : env) (n : nat) (model capability : string) (before after : responseWrapper)
    (trace : list attempt_record) : Prop :=
  match last trace with
  | None => after = before
  | Some a => delivered model (behave e (n + length trace - 1) (at_provider a) (at_body a) capability).1 (at_client a) after
  end.

Lemma run_attempt_writers e n requestedModel capability route d body w :
  let res := run_attempt e n requestedModel capability route d body w in
  ∃ v ok, attempt_run requestedModel (behave e n (p_ID (res_Provider route)) body capability).1 (w_client w)
    = (v, (ar_attempt res, w_client (ar_world res)), ok).
Proof.
  unfold run_attempt, attempt_run. destruct (Telemetry.Begin _ _ _ _ _) as [telemetry handle].
  destruct (behave _ _ _ _ _) as [script err]. cbn [fst].
  destruct (Commit _ _) as [[v [a rw]] ok]. by exists v, ok.
Qed.

(** The claims about a request's loop, for the attempts from here on. *)
Record loop_outcome (e : env) (n : nat) (model capability : string) (pool : gset string) w w' (trace : list attempt_record)
    (out : go_outcome (option perr)) : Prop := {
  lo_distinct : NoDup (at_target <$> trace);
  lo_pool : ∀ a, a ∈ trace → at_target a ∈ pool;
  lo_discarded : ∀ i a, trace !! i = Some a → S i < length trace → at_committed a = false;
  lo_clean_start : ∀ a, a ∈ trace → same_client (w_client w) (at_client a);
  lo_client : client_after e n model capability (w_client w) (w_client w') trace;
  lo_answered : rw_headersSent (w_client w') = true ∨ out = Panics
    ∨ (∃ x, out = Returns (Some x)) ∨ (∃ n, context_error e n ≠ None);
  lo_closed : all_closed (w_telemetry w) → all_closed (w_telemetry w');
  lo_handles : length (handles (w_telemetry w'))
    = length (handles (w_telemetry w)) + length trace;
}.

Lemma loop_outcome_panic e n model capability pool w : loop_outcome e n model capability pool w w [] Panics.
Proof.
  split; csimpl; [constructor|by intros a ?%not_elem_of_nil|done|
    by intros a ?%not_elem_of_nil|done|by right; left|done|lia].
Qed.

(** An attempt after which the loop stops. *)
Lemma loop_outcome_last e n model capability pool w w' a out :
  at_target a ∈ pool → at_client a = w_client w →
  delivered model (behave e n (at_provider a) (at_body a) capability).1 (w_client w) (w_client w') →
  (rw_headersSent (w_client w') = true ∨ (∃ x, out = Returns (Some x))
   ∨ (∃ n, context_error e n ≠ None)) →
  (all_closed (w_telemetry w) → all_closed (w_telemetry w')) →
  length (handles (w_telemetry w')) = S (length (handles (w_telemetry w))) →
  loop_outcome e n model capability pool w w' [a] out.
Proof.
  intros Hp Hc Hd Hans Hcl Hh. split; simpl.
  - repeat constructor. apply not_elem_of_nil.
  - by intros b ->%list_elem_of_singleton.
  - intros i b Hi Hlt. lia.
  - intros b ->%list_elem_of_singleton. by rewrite Hc.
  - unfold client_after. simpl. by rewrite Hc, Nat.add_sub.
  - destruct Hans as [?|[?|?]]; [by left|by do 2 right; left|by do 3 right].
  - done.
  - lia.
Qed.

(** A discarded attempt in front of the rest of the loop. *)
Lemma loop_outcome_cons e n model capability pool w w1 w' a trace out :
  at_target a ∈ pool → at_client a = w_client w → at_committed a = false →
  same_client (w_client w) (w_client w1) →
  (trace = [] → delivered model (behave e n (at_provider a) (at_body a) capability).1 (w_client w) (w_client w1)) →
  (all_closed (w_telemetry w) → all_closed (w_telemetry w1)) →
  length (handles (w_telemetry w1)) = S (length (handles (w_telemetry w))) →
  loop_outcome e (S n) model capability (pool ∖ {[at_target a]}) w1 w' trace out →
  loop_outcome e n model capability pool w w' (a :: trace) out.
Proof.
  intros Hp Hc Hnc Hsame Hd Hcl Hh [Hnd Hpool Hdis Hclean Hcli Hans Hcl' Hh']. split; csimpl.
  - constructor; [|done]. intros (b & Heq & Hb)%list_elem_of_fmap. apply Hpool in Hb. set_solver.
  - intros b [->|Hb]%elem_of_cons; [done|]. apply Hpool in Hb. set_solver.
  - intros [|i] b Hi Hlt; simpl in *; [congruence|]. apply (Hdis i); [done|lia].
  - intros b [->|Hb]%elem_of_cons; [by rewrite Hc|]. rewrite Hsame. by apply Hclean.
  - destruct trace as [|b trace].
    + unfold client_after in *. simpl in *. rewrite Hcli, Hc, Nat.add_sub. by apply Hd.
    + unfold client_after in *. rewrite last_cons. destruct (last (b :: trace)) as [b'|] eqn:El; [|by apply last_None in El].
      by replace (n + length (a :: b :: trace) - 1) with (S n + length (b :: trace) - 1) by (simpl; lia).
  - done.
  - auto.
  - lia.
Qed.

Lemma CommitToReal_sent a rw : rw_headersSent (CommitToReal (a, rw)).1.2 = true ∨ a_outputCommitted a = true.
Proof.
  destruct (a_outputCommitted a) eqn:Hc; [by right|]. left.
  by destruct (CommitToReal_spec a rw Hc) as (rw' & ok & -> & Hs & _).
Qed.

Lemma failover_loop_spec fuel e n requestedModel capability body route d attempted w :
  Registry.wf (registry (w_router w)) → (∀ n, 0 ≤ snapshot_built (next_clock e n))%Z →
  Selection route = Some d →
  let pool := target_set (w_router w) (VirtualModelID d) ∖ attempted in
  TrimSpace (SelectedTarget d) ∈ pool → size pool ≤ fuel →
  ∃ w' trace out,
    failover_loop fuel e n requestedModel capability body route attempted w = Some (w', trace, out)
    ∧ loop_outcome e n requestedModel capability pool w w' trace out.
Proof.
  revert n route d attempted w.
  induction fuel as [|fuel IH]; intros n route d attempted w Hwf Hbuilt Hsel pool Hin Hfuel.
  { assert (pool = ∅) as He by (apply size_empty_inv in Hfuel || (apply leibniz_equiv, size_empty_inv; lia)).
    rewrite He in Hin. set_solver. }
  cbn [failover_loop]. rewrite Hsel. set (target := TrimSpace (SelectedTarget d)) in *.
  destruct (body_for _ _ _) as [attemptBody|]; [|by eexists _, _, _; split; [done|apply loop_outcome_panic]].
  destruct (run_attempt_spec e n requestedModel capability route d attemptBody w)
    as (Hinv & Htab & Hclosed & Hhandles).
  destruct (run_attempt_writers e n requestedModel capability route d attemptBody w) as (v & ok0 & Hrun).
  set (res := run_attempt _ _ _ _ _ _ _ _) in *. cbv zeta in Hrun.
  set (a := ar_attempt res) in *. set (w1 := ar_world res) in *.
  unfold attempt_inv in Hinv. unfold OutputCommitted.
  assert (Hdel : ∀ after, (if a_outputCommitted a then after = w_client w1
      else after = (CommitToReal (a, w_client w1)).1.2 ∨ after = w_client w1) →
    delivered requestedModel (behave e n (p_ID (res_Provider route)) attemptBody capability).1 (w_client w) after).
  { intros after Ha. unfold delivered. rewrite Hrun. unfold OutputCommitted. destruct (a_outputCommitted a) eqn:Hc; [done|].
    destruct Ha as [Ha| ->]; [by left|by right]. }
  destruct (ar_success res || a_outputCommitted a) eqn:Hdone.
  { set (w2 := if ar_success res then _ else w1).
    assert (w_client w2 = w_client w1 ∧ w_telemetry w2 = w_telemetry w1) as [Hc2 Ht2]
      by (subst w2; by destruct (ar_success res)).
    clearbody w2. destruct (a_outputCommitted a) eqn:Hc.
    - eexists _, _, _. split; [done|]. apply loop_outcome_last; try done.
      + apply Hdel. by rewrite Hc2.
      + left. rewrite Hc2. apply Hinv.
      + by rewrite Ht2.
      + by rewrite Ht2.
    - pose proof (CommitToReal_sent a (w_client w2)) as Hs. rewrite Hc in Hs. rewrite <-Hc2 in Hdel.
      destruct (CommitToReal (a, w_client w2)) as [[a' rw] ok]. simpl in Hs.
      eexists _, _, _. split; [done|]. apply loop_outcome_last; simpl; try done.
      + apply Hdel. by left.
      + left. by destruct Hs.
      + by rewrite Ht2.
      + by rewrite Ht2. }
  apply orb_false_iff in Hdone as [_ Hc]. rewrite Hc in *.
  destruct (negb (isEligibleFailoverStatus _ _)).
  { pose proof (CommitToReal_sent a (w_client w1)) as Hs. rewrite Hc in Hs.
    destruct (CommitToReal (a, w_client w1)) as [[a' rw] ok]. simpl in Hs.
    eexists _, _, _. split; [done|]. apply loop_outcome_last; simpl; try done.
    - apply Hdel. by left.
    - left. by destruct Hs. }
  destruct (context_error e n) as [x|] eqn:Hctx.
  { eexists _, _, _. split; [done|]. apply loop_outcome_last; try done; [by apply Hdel; right|].
    do 2 right. exists n. congruence. }
  destruct (ResolveNext _ _ _ _ _) as [r2 next] eqn:Hnext.
  pose proof (ResolveNext_tables (next_clock e n) (VirtualModelID d) capability
    ({[target]} ∪ attempted) (w_router w1)) as Htab2. rewrite Hnext in Htab2. simpl in Htab2.
  destruct next as [route'|err].
  2:{ eexists _, _, _. split; [done|]. apply loop_outcome_last; simpl; try done; [by apply Hdel; right|].
      right. left. by eexists. }
  assert (Registry.wf (registry (w_router w1))) as Hwf1 by (destruct Htab as [-> _]; done).
  destruct (ResolveNext_Ok _ _ _ _ _ _ _ Hwf1 (Hbuilt n) Hnext) as (d' & Hsel' & Hid' & Hin').
  assert (target_set r2 (VirtualModelID d) = target_set (w_router w) (VirtualModelID d)) as Hts
    by (apply target_set_tables; by etrans).
  rewrite (target_set_tables _ _ _ Htab) in Hin'.
  assert (target_set r2 (VirtualModelID d') ∖ ({[target]} ∪ attempted) = pool ∖ {[target]}) as Hpool.
  { rewrite Hid', Hts. subst pool. set_solver. }
  destruct (IH (S n) route' d' ({[target]} ∪ attempted) (with_router r2 w1))
    as (w' & trace & out & Heq & Hlo).
  - simpl. destruct Htab2 as [-> _]. done.
  - done.
  - done.
  - simpl. rewrite Hpool. subst pool. set_solver.
  - simpl. rewrite Hpool. rewrite size_difference by set_solver. rewrite size_singleton. lia.
  - rewrite Heq. eexists _, _, _. split; [done|]. simpl in Hlo. rewrite Hpool in Hlo.
    eapply (loop_outcome_cons e n requestedModel capability pool w (with_router r2 w1)); simpl; try done.
    intros _. apply Hdel. by right.
Qed.

Lemma size_set_of (l : list string) : size (set_of l) ≤ length l.
Proof.
  induction l as [|x l IH]; [done|]. unfold set_of in *. simpl. rewrite size_union_alt, size_singleton.
  pose proof (subseteq_size (list_to_set l ∖ {[x]} : gset string) (list_to_set l)). 
  assert (size (list_to_set l ∖ {[x]} : gset string) ≤ size (list_to_set l : gset string))
    by (apply subseteq_size; set_solver). lia.
Qed.

(** A request for an umbrella model runs the loop on the umbrella's targets. *)
Lemma process_umbrella e c path body w capability r' route d :
  Registry.wf (registry (w_router w)) → (0 ≤ snapshot_built c)%Z →
  (∀ n, 0 ≤ snapshot_built (next_clock e n))%Z →
  CapabilityFromPath path = Some capability →
  Resolve c (ExtractModel body) capability (w_router w) = (r', Ok route) →
  Selection route = Some d →
  ∃ w' trace out,
    processProxyRequest e c path (Some body) w = Some (w', trace, out)
    ∧ loop_outcome e 1 (ExtractModel body) capability (target_set (w_router w) (VirtualModelID d)) w w' trace out.
Proof.
  intros Hwf Hc Hbuilt Hcap Hres Hsel.
  pose proof Hres as (vid & vm & Hvm & Hrv)%Resolve_umbrella; [|by rewrite Hsel].
  pose proof (resolveVirtualModelExcluding_tables c vid vm capability ∅ (w_router w)) as Htab.
  rewrite Hrv in Htab. simpl in Htab.
  pose proof (resolveVirtualModelExcluding_id _ _ _ _ _ _ _ _ _ Hrv Hsel) as Hid.
  apply resolveVirtualModelExcluding_Ok in Hrv as (d' & t & Hd' & _ & _ & Hin & Heq & _); [|done..].
  rewrite Hsel in Hd'. injection Hd' as <-.
  assert (target_set r' (VirtualModelID d) = set_of (TrimSpace <$> elems (vm_Targets vm))) as Hts.
  { rewrite (target_set_tables _ _ _ Htab). unfold target_set. by rewrite Hid, Hvm. }
  unfold processProxyRequest. rewrite Hcap, Hres, Hsel.
  destruct (failover_loop_spec (loop_fuel r' d) e 1 (ExtractModel body) capability body route d ∅
    (with_router r' w)) as (w' & trace & out & Hl & Hlo).
  - simpl. destruct Htab as [-> _]. done.
  - done.
  - done.
  - simpl. rewrite Hts, <-Heq. apply elem_of_difference. split; [|set_solver].
    apply elem_of_set_of. by apply list_elem_of_fmap_2.
  - simpl. rewrite Hts, difference_empty_L. unfold loop_fuel. destruct Htab as [_ ->].
    rewrite Hid, Hvm. etrans; [apply size_set_of|]. by rewrite length_fmap.
  - exists w', trace, out. split; [exact Hl|]. simpl in Hlo.
    rewrite difference_empty_L, (target_set_tables _ _ _ Htab) in Hlo.
    destruct Hlo. by split.
Qed.

(** What the handler adds to the answer of a request. *)
Lemma proxyHandler_client e c ctx_end path body w w1 trace out :
  processProxyRequest e c path body w = Some (w1, trace, out) →
  ∃ w2, proxyHandler e c ctx_end path body w = Some w2 ∧
    (w_client w2 = w_client w1 ∨
     rw_headersSent (w_client w1) = false ∧ ∃ status err, w_client w2 = writeOpenAIError status err (w_client w1)).
Proof.
  intros Hp. unfold proxyHandler. rewrite Hp.
  destruct (rw_headersSent (w_client w1)); destruct out as [[x|]|]; try (eexists; split; [done|by left]);
    try (eexists; split; [done|right; split; [done|by eexists _, _]]).
  destruct ctx_end as [x|]; eexists; (split; [done|]); [right; split; [done|by eexists _, _]|by left].
Qed.

Lemma writeOpenAIError_sent status err rw : rw_headersSent (writeOpenAIError status err rw) = true.
Proof.
  unfold writeOpenAIError.
  match goal with |- context [rw_Write ?b ?r] => apply (rw_Write_sent b r) end.
  unfold rw_WriteHeader. by case_match.
Qed.

Lemma process_cases e c path body w :
  (∃ capability b r' route d, CapabilityFromPath path = Some capability ∧ body = Some b
     ∧ Resolve c (ExtractModel b) capability (w_router w) = (r', Ok route)
     ∧ Selection route = Some d)
  ∨ (∃ w' out, processProxyRequest e c path body w = Some (w', [], out)).
Proof.
  unfold processProxyRequest.
  destruct (CapabilityFromPath path) as [capability|] eqn:Hcap; [|right; by eexists _, _].
  destruct body as [b|]; [|right; by eexists _, _].
  destruct (Resolve _ _ _ _) as [r' [route|[]]] eqn:Hr; try (right; by eexists _, _).
  destruct (Selection route) as [d|] eqn:Hs; [left; by exists capability, b, r', route, d|right].
  destruct (dispatchSingleRoute _ _ _ _ _ _) as [w' out]. by eexists _, _.
Qed.

End loop_facts.

Lemma TrimSpace_empty : TrimSpace "" = "".
Proof. reflexivity. Qed.

Lemma retryAfterDuration_le v : (retryAfterDuration v ≤ 5 * Minute)%Z.
Proof.
  unfold retryAfterDuration. assert (0 ≤ 5 * Minute)%Z by (vm_compute; discriminate).
  repeat case_match; reflect_bools; lia.
Qed.

(** ** Properties *)

Section properties.
Context {Bytes : Type} `{StateCodec Bytes} `{JSON}.
Implicit Types w : world (Bytes:=Bytes).

(** C2. Failover is bounded and never repeats a target.  A request always comes to
    an end, whatever the providers do.  When its model is an umbrella, every
    attempt goes to a different target of that umbrella, so there are at most as
    many attempts as configured targets. *)
Theorem failover_terminates e c path body w :
  Registry.wf (registry (w_router w)) → (0 ≤ snapshot_built c)%Z →
  (∀ n, 0 ≤ snapshot_built (next_clock e n))%Z →
  ∃ w' trace out, processProxyRequest e c path body w = Some (w', trace, out)
    ∧ NoDup (at_target <$> trace)
    ∧ (trace = [] ∨ ∃ id vm, VirtualModels (routing (w_router w)) !! id = Some vm
         ∧ (∀ a, a ∈ trace → at_target a ∈ TrimSpace <$> elems (vm_Targets vm))
         ∧ length trace ≤ length (elems (vm_Targets vm))).
Proof.
  intros Hwf Hc Hbuilt.
  destruct (process_cases e c path body w)
    as [(capability & b & r' & route & d & Hcap & -> & Hres & Hsel)|(w1 & out1 & Hp1)].
  2:{ eexists _, _, _. split_and!; [exact Hp1|constructor|by left]. }
  destruct (process_umbrella e c path b w capability r' route d) as (w' & trace & out & -> & Hlo);
    [done..|].
  eexists _, _, _. split_and!; [done|by apply (lo_distinct _ _ _ _ _ _ _ _ _ Hlo)|].
  destruct trace as [|a trace]; [by left|right].
  pose proof (lo_pool _ _ _ _ _ _ _ _ _ Hlo) as Hpool. unfold target_set in Hpool.
  destruct (VirtualModels _ !! VirtualModelID d) as [vm|] eqn:Hvm;
    [|by destruct (not_elem_of_empty (C:=gset string) (at_target a)); apply Hpool; left].
  exists (VirtualModelID d), vm. split_and!; [done| |].
  - intros x Hx. by apply elem_of_set_of, Hpool.
  - rewrite <-(length_fmap at_target), <-(length_fmap TrimSpace (elems (vm_Targets vm))).
    apply submseteq_length, NoDup_submseteq; [apply (lo_distinct _ _ _ _ _ _ _ _ _ Hlo)|].
    intros t (x & -> & Hx)%list_elem_of_fmap. by apply elem_of_set_of, Hpool.
Qed.

(** C1. The client only ever sees the last attempt.  In an umbrella request every
    attempt but the last is discarded before a byte or a status of it reached the
    client, and each attempt, so the last too, starts with the response exactly as
    it was when the request arrived, but for headers.  In the end the client has what
    the last attempt, run alone on that, leaves: all it has written, or, when the
    request ends without an answer, nothing; then the handler writes its error, which
    it only does while nothing has been sent. *)
Theorem only_last_attempt_reaches_client e c path b capability r' route d w w' trace out ctx_end :
  Registry.wf (registry (w_router w)) → (0 ≤ snapshot_built c)%Z →
  (∀ n, 0 ≤ snapshot_built (next_clock e n))%Z →
  CapabilityFromPath path = Some capability →
  Resolve c (ExtractModel b) capability (w_router w) = (r', Ok route) → Selection route = Some d →
  processProxyRequest e c path (Some b) w = Some (w', trace, out) →
  (∀ i a, trace !! i = Some a → S i < length trace → at_committed a = false)
  ∧ (∀ a, a ∈ trace → same_client (w_client w) (at_client a))
  ∧ client_after e 1 (ExtractModel b) capability (w_client w) (w_client w') trace
  ∧ ∃ w2, proxyHandler e c ctx_end path (Some b) w = Some w2 ∧
      (w_client w2 = w_client w' ∨
       rw_headersSent (w_client w') = false ∧ ∃ status err, w_client w2 = writeOpenAIError status err (w_client w')).
Proof.
  intros Hwf Hc Hbuilt Hcap Hres Hsel Hp.
  destruct (process_umbrella e c path b w capability r' route d) as (w1 & trace1 & out1 & Hp1 & Hlo); [done..|].
  assert (w1 = w' ∧ trace1 = trace ∧ out1 = out) as (-> & -> & ->) by (rewrite Hp1 in Hp; by injection Hp).
  split; [apply Hlo|]. split; [apply Hlo|]. split; [apply Hlo|]. by eapply proxyHandler_client.
Qed.

(** Every umbrella request is answered.  When the handler returns from a request
    whose model is an umbrella, a status has been sent to the client: an attempt's,
    or the handler's own error response.  (If the request's context was over at
    some point, it is over at the end.) *)
Theorem umbrella_request_is_answered e c ctx_end path body w capability r' route d :
  Registry.wf (registry (w_router w)) → (0 ≤ snapshot_built c)%Z →
  (∀ n, 0 ≤ snapshot_built (next_clock e n))%Z →
  (∀ n, context_error e n ≠ None → ctx_end ≠ None) →
  CapabilityFromPath path = Some capability →
  Resolve c (ExtractModel body) capability (w_router w) = (r', Ok route) →
  Selection route = Some d →
  ∃ w', proxyHandler e c ctx_end path (Some body) w = Some w'
    ∧ rw_headersSent (w_client w') = true.
Proof.
  intros Hwf Hc Hbuilt Hctx Hcap Hres Hsel.
  destruct (process_umbrella e c path body w capability r' route d) as (w' & trace & out & Hp & Hlo);
    [done..|].
  unfold proxyHandler. rewrite Hp. pose proof (lo_answered _ _ _ _ _ _ _ _ _ Hlo) as Hans.
  destruct (rw_headersSent (w_client w')) eqn:Hs.
  { destruct out as [[x|]|]; by eexists. }
  destruct out as [[x|]|].
  - eexists. split; [done|]. apply writeOpenAIError_sent.
  - destruct ctx_end as [x|].
    + eexists. split; [done|]. apply writeOpenAIError_sent.
    + destruct Hans as [?|[?|[[? ?]|[n Hn]]]]; [done..|]. by destruct (Hctx n).
  - eexists. split; [done|]. apply writeOpenAIError_sent.
Qed.

(** Each attempt of an umbrella request is counted by exactly one telemetry
    handle, and all of them are closed when the request ends. *)
Theorem attempts_close_their_handles e c path body w capability r' route d :
  Registry.wf (registry (w_router w)) → (0 ≤ snapshot_built c)%Z →
  (∀ n, 0 ≤ snapshot_built (next_clock e n))%Z →
  CapabilityFromPath path = Some capability →
  Resolve c (ExtractModel body) capability (w_router w) = (r', Ok route) →
  Selection route = Some d →
  ∃ w' trace out, processProxyRequest e c path (Some body) w = Some (w', trace, out)
    ∧ length (handles (w_telemetry w')) = length (handles (w_telemetry w)) + length trace
    ∧ (all_closed (w_telemetry w) → all_closed (w_telemetry w')).
Proof.
  intros Hwf Hc Hbuilt Hcap Hres Hsel.
  destruct (process_umbrella e c path body w capability r' route d) as (w' & trace & out & Hp & Hlo);
    [done..|].
  eexists _, _, _. split_and!; [exact Hp|apply Hlo|apply Hlo].
Qed.

(** A provider that fails without answering ends the request with an empty
    success.  When an attempt returns an error and never touched its writer, the
    virtual writer commits the implicit status 200 before the error is looked at,
    so the client gets 200 and the loop stops: no other target is tried. *)
Theorem silent_failure_is_sent_as_success fuel e n requestedModel capability body attemptBody
    route attempted w d x :
  Selection route = Some d →
  body_for body requestedModel (ResolvedModel route) = Returns attemptBody →
  behave e n (p_ID (res_Provider route)) attemptBody capability = ([], Some x) →
  rw_headersSent (w_client w) = false → rw_broken (w_client w) = None →
  ∃ w' a, failover_loop (S fuel) e n requestedModel capability body route attempted w
    = Some (w', [a], Returns (Some x))
    ∧ at_committed a = true ∧ rw_statusCode (w_client w') = StatusOK
    ∧ rw_body (w_client w') = rw_body (w_client w) +:+ rewriteModelJSON "" requestedModel.
Proof.
  intros Hsel Hbody Hbeh Hs Hb. cbn [failover_loop]. rewrite Hsel, Hbody.
  unfold run_attempt. destruct (Begin _ _ _ _ _) as [telemetry handle]. rewrite Hbeh.
  pose proof (buffered_attempt requestedModel [] (w_client w) ltac:(apply not_elem_of_nil) Hb Hs)
    as Hatt. cbn zeta in Hatt. unfold attempt_run in Hatt.
  set (st := run_script [] _) in *.
  destruct (Commit (st_virtual st) (st_attempt st)) as [[v [a rw]] ok].
  destruct Hatt as (-> & _ & Ht & Hc & Hst & _). simpl in Hc, Hst.
  specialize (Hst eq_refl). unfold text, OutputCommitted in *. simpl in Ht.
  simpl. rewrite Hc in *. eexists _, _. split_and!; [done|done|done|done].
Qed.

End properties.

(** A 429 whose [Retry-After] is longer than five minutes is recorded as a rate
    limit of five minutes: [retryAfterDuration] cuts the hint before
    [cooldownPolicy] can see that it was a long one. *)
Theorem long_retry_after_becomes_five_minutes v seconds :
  Atoi (TrimSpace v) = Some seconds → (300 ≤ seconds ≤ 9223372036)%Z →
  retryAfterDuration v = (5 * Minute)%Z
  ∧ cooldownPolicy StatusTooManyRequests None (retryAfterDuration v)
    = Some (CooldownRateLimited, (5 * Minute)%Z).
Proof.
  intros Ha Hs.
  assert (retryAfterDuration v = 5 * Minute)%Z as Hd; [|by rewrite Hd].
  unfold retryAfterDuration. rewrite Ha.
  destruct (Z.leb_spec seconds 0); [lia|].
  unfold Minute, Second in *. rewrite wrap_i64_small by lia.
  destruct (Z.ltb_spec (5 * (60 * 1000000000)) (seconds * 1000000000)); lia.
Qed.

Lemma long_retry_after_becomes_five_minutes_witness :
  retryAfterDuration " 86400" = (5 * Minute)%Z.
Proof. apply (long_retry_after_becomes_five_minutes " 86400" 86400); [reflexivity|lia]. Defined.

(** ** Concrete requests *)

(** Codex answers 500, then Kilo answers 200. *)
Definition example_env : env :=
  mkEnv (λ n id _ _, if String.eqb id Codex then ([AWriteHeader 500; AWrite "no"], None)
                     else ([AWriteHeader 200; AWrite "{m}"], None))
    (λ _, 200%Z) (λ _, 300%Z) (λ _, None) (λ _, None) (λ _, example_clock 400) true.

Definition example_world : world (Bytes:=persistedCooldownState) :=
  mkWorld example_router NewRecorder fresh_client.

Definition chat_path : string := "/v1/chat/completions".

Lemma failover_terminates_witness :
  ∃ w' trace out, processProxyRequest example_env (example_clock 100) chat_path (Some "x") example_world
    = Some (w', trace, out) ∧ NoDup (at_target <$> trace).
Proof.
  destruct (failover_terminates example_env (example_clock 100) chat_path (Some "x") example_world)
    as (w' & trace & out & Hp & Hnd & _); [apply Registry.wf_NewRegistry|vm_compute; discriminate|
      intros; vm_compute; discriminate|].
  exists w', trace, out. split; [exact Hp|exact Hnd].
Defined.

(** The request of the example really fails over: two attempts, the second commits. *)
Example example_fails_over :
  match processProxyRequest example_env (example_clock 100) chat_path (Some "x") example_world with
  | Some (w', trace, _) =>
    (map at_target trace, map at_committed trace, rw_statusCode (w_client w'))
    = (["codex/gpt-5"; "kilo/free"], [false; true], 200%Z)
  | None => False
  end.
Proof. vm_compute. reflexivity. Qed.

(** The route of the example request. *)
Lemma example_route : 
  ∃ r' route d, Resolve (example_clock 100) (ExtractModel "x") CapabilityChat example_router
    = (r', Ok route) ∧ Selection route = Some d.
Proof.
  assert (Hc : match snd (Resolve (example_clock 100) (ExtractModel "x") CapabilityChat example_router) with
    | Ok res => bool_decide (is_Some (Selection res)) | Err _ => false end = true)
    by (vm_compute; reflexivity).
  destruct (Resolve _ _ _ _) as [r' [route|err]]; [|done]. simpl in Hc.
  apply (bool_decide_eq_true_1 _) in Hc as [d Hd]. by exists r', route, d.
Qed.

(** Codex answers 500 and is discarded, Kilo's answer is what the client gets. *)
Lemma only_last_attempt_reaches_client_witness :
  ∃ w' trace out, processProxyRequest example_env (example_clock 100) chat_path (Some "x") example_world = Some (w', trace, out)
    ∧ (∀ a, a ∈ trace → same_client fresh_client (at_client a))
    ∧ client_after example_env 1 (ExtractModel "x") CapabilityChat fresh_client (w_client w') trace
    ∧ length trace = 2.
Proof.
  destruct example_route as (r' & route & d & Hr & Hd).
  assert (Hs : match processProxyRequest example_env (example_clock 100) chat_path (Some "x") example_world with
    | Some (_, trace, _) => length trace = 2 | None => False end) by (vm_compute; reflexivity).
  destruct (processProxyRequest example_env (example_clock 100) chat_path (Some "x") example_world)
    as [[[w' trace] out]|] eqn:E; [|destruct Hs].
  destruct (only_last_attempt_reaches_client example_env (example_clock 100) chat_path "x" CapabilityChat r' route d
    example_world w' trace out None) as (_ & H1 & H2 & _); [apply Registry.wf_NewRegistry|vm_compute; discriminate|
    intros; vm_compute; discriminate|reflexivity|exact Hr|exact Hd|exact E|].
  exists w', trace, out. split; [reflexivity|]. split; [exact H1|]. split; [exact H2|exact Hs].
Defined.

Lemma umbrella_request_is_answered_witness :
  ∃ w', proxyHandler example_env (example_clock 100) None chat_path (Some "x") example_world = Some w'
    ∧ rw_headersSent (w_client w') = true.
Proof.
  destruct example_route as (r' & route & d & Hr & Hd).
  apply (umbrella_request_is_answered example_env (example_clock 100) None chat_path "x" example_world
    CapabilityChat r' route d); [apply Registry.wf_NewRegistry|vm_compute; discriminate|
    intros; vm_compute; discriminate|done|reflexivity|exact Hr|exact Hd].
Defined.

Lemma attempts_close_their_handles_witness :
  ∃ w' trace out, processProxyRequest example_env (example_clock 100) chat_path (Some "x") example_world
      = Some (w', trace, out)
    ∧ length (handles (w_telemetry w')) = length trace.
Proof.
  destruct example_route as (r' & route & d & Hr & Hd).
  destruct (attempts_close_their_handles example_env (example_clock 100) chat_path "x" example_world
    CapabilityChat r' route d) as (w' & trace & out & Hp & Hl & _);
    [apply Registry.wf_NewRegistry|vm_compute; discriminate|
    intros; vm_compute; discriminate|reflexivity|exact Hr|exact Hd|].
  exists w', trace, out. split; [exact Hp|exact Hl].
Defined.

(** Codex returns an error and writes nothing. *)
Definition silent_env : env :=
  mkEnv (λ n id _ _, if String.eqb id Codex then ([], Some write_error)
                     else ([AWriteHeader 200; AWrite "{m}"], None))
    (λ _, 200%Z) (λ _, 300%Z) (λ _, None) (λ _, None) (λ _, example_clock 400) true.

Definition codex_route : Result :=
  mkRoute (example_provider Codex ["gpt-5"]) "gpt-5" (Some example_decision).

Lemma silent_failure_is_sent_as_success_witness :
  ∃ w' a, failover_loop 2 silent_env 1 "best" CapabilityChat "{m}" codex_route ∅ example_world
    = Some (w', [a], Returns (Some write_error))
    ∧ at_committed a = true ∧ rw_statusCode (w_client w') = StatusOK
    ∧ rw_body (w_client w') = rw_body (w_client example_world) +:+ rewriteModelJSON "" "best".
Proof.
  apply (silent_failure_is_sent_as_success 1 silent_env 1 "best" CapabilityChat "{m}" "{gpt-5}"
    codex_route ∅ example_world example_decision write_error); reflexivity.
Defined.
