(* ===== verification/Operation.v ===== *)
(** * Operations: the durable state machine of long-running work

    [internal/operation]: the types and the synchronous store ([types.go],
    [store.go], [persistence.go]); [OperationManager] runs workers over it.
    The state file is seen through its JSON encoding, as the
    [persistedStore] it holds; a write may fail before the rename, which leaves
    the old file, or after it, which leaves the new one.  SHA-256 and the random
    identifiers of new operations are arguments. *)

From S2P Require Import Prelude GoStd.

(** ** Data *)

Definition schemaVersion : Z := 1.

(** A state is a string in the code: a state file may hold any other. *)
(* src/internal/operation/types.go State *)
(* src/internal/operation/types.go StatePending *)
Inductive State :=
| StatePending | StateRunning | StateWaitingForUser
| StateSucceeded | StateFailed | StateCancelled | StateExpired
| StateOther (s : string).

#[global] Instance State_eq_dec : EqDecision State.
Proof. solve_decision. Defined.

(* src/internal/operation/types.go State.Terminal *)
Definition Terminal (state : State) : bool :=
  match state with
  | StateSucceeded | StateFailed | StateCancelled | StateExpired => true
  | _ => false
  end.

(* src/internal/operation/types.go RecoveryFail *)
Definition RecoveryFail : string := "fail".
(* src/internal/operation/types.go RecoveryExpire *)
Definition RecoveryExpire : string := "expire".

(* src/internal/operation/types.go Failure *)
Record Failure := mkFailure { f_Code : string; f_Message : string; f_Retryable : bool }.

(* src/internal/operation/types.go Record *)
Record Record_ := mkRecord {
  r_ID : string;
  r_Kind : string;
  r_Target : string;
  r_Owner : string;
  r_State : State;
  r_Progress : Z;
  r_Cancelable : bool;
  r_RecoveryPolicy : string;
  r_CreatedAt : Time;
  r_UpdatedAt : Time;
  r_ExpiresAt : Time;
  r_Sequence : Z;
  r_Failure : option Failure;
  r_Metadata : gmap string string;
  r_Result : gmap string string;
}.

(* src/internal/operation/types.go Event *)
Record Event := mkEvent {
  e_Sequence : Z; e_OperationID : string; e_Type : string; e_State : State; e_Timestamp : Time;
}.

(* src/internal/operation/types.go CreateRequest *)
Record CreateRequest := mkCreate {
  q_Kind : string;
  q_Target : string;
  q_Owner : string;
  q_Cancelable : bool;
  q_ExpiresAt : Time;
  q_RecoveryPolicy : string;
  q_Metadata : gmap string string;
  q_IdempotencyKey : string;
  q_RequestDigest : string;
}.

(* src/internal/operation/types.go Options *)
Record Options := mkOptions {
  Path : string; MaxOperations : nat; MaxEvents : nat; Retention : Duration; DefaultTTL : Duration;
}.

(* src/internal/operation/types.go failureMessage *)
Definition failureMessage (code : string) : string :=
  if String.eqb code "operation_cancelled" then "The operation was cancelled."
  else if String.eqb code "operation_expired" then "The operation expired."
  else if String.eqb code "operation_interrupted" then "The operation was interrupted."
  else if String.eqb code "operation_panic" then "The operation failed unexpectedly."
  else if String.eqb code "progress_failed" then "Operation progress could not be persisted."
  else "The operation failed.".

(* src/internal/operation/types.go NewFailure *)
Definition NewFailure (code message : string) (retryable : bool) : Failure :=
  let code := TrimSpace code in
  let code := if safe_ident code then code else "operation_failed" in
  mkFailure code (failureMessage code) retryable.

(* src/internal/operation/store.go entry *)
Record entry := mkEntry {
  en_record : Record_; en_idempotencyHash : string; en_requestDigest : string;
}.

(* src/internal/operation/persistence.go persistedOperation *)
Definition persistedOperation := entry.

(* src/internal/operation/persistence.go persistedStore *)
Record persistedStore := mkPersisted {
  ps_SchemaVersion : Z;
  ps_NextSequence : Z;
  ps_Operations : list persistedOperation;
  ps_Events : list Event;
}.

Record channel := mkChannel { ch_buffer : list Event; ch_capacity : nat; ch_closed : bool }.

(** The store, with the contents of its state file. *)
(* src/internal/operation/store.go Store *)
Record Store := mkStore {
  options : Options;
  operations : gmap string entry;
  events : list Event;
  nextSequence : Z;
  subscribers : gmap Z channel;
  nextSubID : Z;
  closed : bool;
  disk : option persistedStore;
}.

Inductive error :=
| PathRequired | ReadFailed | DecodeFailed | UnsupportedSchema (version : Z) | PersistFailed
| StoreClosed | IdempotencyConflictError | CapacityError | NotFoundError (id : string)
| InvalidTransitionError (id : string) (from to : State) | NotCancelable (id : string)
| InvalidKind | OwnerRequired | TargetTooLong | ExpiryInPast | UnsupportedRecoveryPolicy
| TooManyMetadataFields | InvalidMetadataKey | MetadataValueTooLong | DigestRequired
| WorkerRequired | ManagerClosing | AlreadyRunning (id : string).

(** Where an atomic replacement of the state file can fail. *)
Inductive persist_fault := BeforeRename | AfterRename.

(** ** Pure parts *)

(* src/internal/operation/store.go allowedTransition *)
Definition allowedTransition (from to : State) : bool :=
  if Terminal from then false
  else
    match from, to with
    | StatePending, (StateRunning | StateWaitingForUser | StateSucceeded | StateFailed
                     | StateCancelled | StateExpired) => true
    | StateRunning, (StateWaitingForUser | StateSucceeded | StateFailed | StateCancelled
                     | StateExpired) => true
    | StateWaitingForUser, (StateRunning | StateSucceeded | StateFailed | StateCancelled
                     | StateExpired) => true
    | _, _ => false
    end.

(** The map is visited in some order; keys that only differ by blanks collide, and
    the last one visited stays. *)
(* src/internal/operation/store.go validateMetadata *)
Definition validateMetadata (source : gmap string string) : result (gmap string string) error :=
  if (32 <? size source)%nat then Err TooManyMetadataFields
  else
    foldl (λ acc kv,
      let? result := acc in
      let key := TrimSpace kv.1 in
      if negb (safe_metadata_key key) then Err InvalidMetadataKey
      else
        let value := TrimSpace kv.2 in
        if (1024 <? Z.of_nat (String.length value))%Z then Err MetadataValueTooLong
        else Ok (<[key := value]> result)) (Ok ∅) (map_to_list source).

(* src/internal/operation/store.go sanitizeMetadata *)
Definition sanitizeMetadata (source : gmap string string) : gmap string string :=
  match validateMetadata source with Ok m => m | Err _ => ∅ end.

(* src/internal/operation/store.go validateCreate *)
Definition validateCreate (request : CreateRequest) (now : Time) : result unit error :=
  if negb (safe_ident (q_Kind request)) then Err InvalidKind
  else if String.eqb (TrimSpace (q_Owner request)) ""
          || (256 <? Z.of_nat (String.length (q_Owner request)))%Z then Err OwnerRequired
  else if (512 <? Z.of_nat (String.length (q_Target request)))%Z then Err TargetTooLong
  else if negb (After (q_ExpiresAt request) now) then Err ExpiryInPast
  else if negb (String.eqb (q_RecoveryPolicy request) "")
          && negb (String.eqb (q_RecoveryPolicy request) RecoveryFail)
          && negb (String.eqb (q_RecoveryPolicy request) RecoveryExpire)
  then Err UnsupportedRecoveryPolicy
  else
    match validateMetadata (q_Metadata request) with
    | Err e => Err e
    | Ok _ =>
      if negb (String.eqb (q_IdempotencyKey request) "")
         && String.eqb (TrimSpace (q_RequestDigest request)) "" then Err DigestRequired
      else Ok tt
    end.

Definition clamp_progress (progress : Z) : Z :=
  let progress := if (progress <? 0)%Z then 0%Z else progress in
  if (100 <? progress)%Z then 100%Z else progress.

Definition set_record (f : Record_ → Record_) (e : entry) : entry :=
  mkEntry (f (en_record e)) (en_idempotencyHash e) (en_requestDigest e).

(** ** Steps under the store's lock *)

Definition with_state (ops : gmap string entry) (evs : list Event) (seq : Z) (s : Store) : Store :=
  mkStore (options s) ops evs seq (subscribers s) (nextSubID s) (closed s) (disk s).

(** [checkpointLocked] copies these three, and [restoreLocked] puts them back. *)
(* src/internal/operation/store.go storeCheckpoint *)
Definition storeCheckpoint := (gmap string entry * list Event * Z)%type.

(* src/internal/operation/store.go Store.checkpointLocked *)
Definition checkpointLocked (s : Store) : storeCheckpoint := (operations s, events s, nextSequence s).

(* src/internal/operation/store.go Store.restoreLocked *)
Definition restoreLocked (c : storeCheckpoint) (s : Store) : Store :=
  with_state c.1.1 c.1.2 c.2 s.

Definition lookup_all (m : gmap string entry) (ids : list string) : list entry :=
  omap (λ id, m !! id) ids.

(** The contents [persistLocked] writes: the entries in the order of their keys. *)
(* src/internal/operation/store.go Store.persistLocked *)
Definition snapshot_of (s : Store) : persistedStore :=
  mkPersisted schemaVersion (nextSequence s)
    (lookup_all (operations s) (sort_Strings (elements (dom (operations s))))) (events s).

Definition with_disk (d : option persistedStore) (s : Store) : Store :=
  mkStore (options s) (operations s) (events s) (nextSequence s) (subscribers s) (nextSubID s)
    (closed s) d.

(* src/internal/operation/persistence.go persistSnapshot *)
Definition persistSnapshot (fault : option persist_fault) (snapshot : persistedStore) (s : Store)
    : Store * bool :=
  match fault with
  | None => (with_disk (Some snapshot) s, true)
  | Some BeforeRename => (s, false)
  | Some AfterRename => (with_disk (Some snapshot) s, false)
  end.

(* src/internal/operation/store.go Store.persistLocked *)
Definition persistLocked (fault : option persist_fault) (s : Store) : Store * bool :=
  persistSnapshot fault (snapshot_of s) s.

(* src/internal/operation/store.go Store.nextEventLocked *)
Definition nextEventLocked (id type : string) (state : State) (now : Time) (s : Store)
    : Store * Event :=
  let seq := wrap_u64 (nextSequence s + 1) in
  (with_state (operations s) (events s) seq s, mkEvent seq id type state now).

(* src/internal/operation/store.go Store.appendEventLocked *)
Definition appendEventLocked (event : Event) (s : Store) : Store :=
  with_state (operations s) (take_last (MaxEvents (options s)) (events s ++ [event]))
    (nextSequence s) s.

Definition set_entry (id : string) (e : entry) (s : Store) : Store :=
  with_state (<[id := e]> (operations s)) (events s) (nextSequence s) s.

Definition offer (event : Event) (ch : channel) : channel :=
  if (length (ch_buffer ch) <? ch_capacity ch)%nat
  then mkChannel (ch_buffer ch ++ [event]) (ch_capacity ch) (ch_closed ch)
  else ch.

(* src/internal/operation/store.go Store.publish *)
Definition publish (event : Event) (s : Store) : Store :=
  mkStore (options s) (operations s) (events s) (nextSequence s)
    (offer event <$> subscribers s) (nextSubID s) (closed s) (disk s).

(** The oldest terminal records first, for the second stage of the pruning. *)
Definition older (a b : string * entry) : Prop :=
  (r_UpdatedAt (en_record a.2) ≤ r_UpdatedAt (en_record b.2))%Z.
#[global] Instance older_dec : RelDecision older.
Proof. intros a b. unfold older. apply _. Defined.

Definition terminal_entry (e : entry) : bool := Terminal (r_State (en_record e)).

(* src/internal/operation/store.go Store.pruneLocked *)
Definition pruneLocked (now : Time) (s : Store) : Store * bool :=
  let cutoff := (now - Retention (options s))%Z in
  let stale (e : entry) := terminal_entry e && Before (r_UpdatedAt (en_record e)) cutoff in
  let kept := filter (λ kv : string * entry, stale kv.2 = false) (operations s) in
  let changed := bool_decide (size kept ≠ size (operations s)) in
  let excess := (size kept - MaxOperations (options s))%nat in
  let terminal := merge_sort older
    (filter (λ kv : string * entry, terminal_entry kv.2 = true) (map_to_list kept)) in
  let dropped := take excess terminal in
  (with_state (foldr (λ kv m, delete kv.1 m) kept dropped) (events s) (nextSequence s) s,
   changed || bool_decide (dropped ≠ [])).

Definition recovered_record (now : Time) (r : Record_) : Record_ :=
  let expired := negb (After (r_ExpiresAt r) now) || String.eqb (r_RecoveryPolicy r) RecoveryExpire in
  let failure :=
    if expired then NewFailure "operation_expired" "" true
    else NewFailure "operation_interrupted" "" true in
  mkRecord (r_ID r) (r_Kind r) (r_Target r) (r_Owner r)
    (if expired then StateExpired else StateFailed) (r_Progress r) (r_Cancelable r)
    (r_RecoveryPolicy r) (r_CreatedAt r) now (r_ExpiresAt r) (r_Sequence r) (Some failure)
    (r_Metadata r) (r_Result r).

Definition set_sequence (seq : Z) (r : Record_) : Record_ :=
  mkRecord (r_ID r) (r_Kind r) (r_Target r) (r_Owner r) (r_State r) (r_Progress r) (r_Cancelable r)
    (r_RecoveryPolicy r) (r_CreatedAt r) (r_UpdatedAt r) (r_ExpiresAt r) seq (r_Failure r)
    (r_Metadata r) (r_Result r).

(** The body of the recovery loop for one identifier. *)
(* src/internal/operation/store.go Store.recoverLocked *)
Definition recover_one (now : Time) (s : Store) (id : string) : Store :=
  match operations s !! id with
  | None => s
  | Some item =>
    if terminal_entry item then s
    else
      let r := recovered_record now (en_record item) in
      let '(s, event) := nextEventLocked id "recovered" (r_State r) now s in
      appendEventLocked event
        (set_entry id (mkEntry (set_sequence (e_Sequence event) r) (en_idempotencyHash item)
                         (en_requestDigest item)) s)
  end.

(* src/internal/operation/store.go Store.recoverLocked *)
Definition recoverLocked (now : Time) (s : Store) : Store * bool :=
  let ids := sort_Strings (elements (dom (operations s))) in
  (foldl (recover_one now) s ids,
   existsb (λ id, match operations s !! id with
                  | Some item => negb (terminal_entry item) | None => false end) ids).

(** ** Opening *)

Inductive load_result := LoadMissing | LoadUnreadable | LoadInvalid | Loaded (p : persistedStore).

(* src/internal/operation/persistence.go loadPersisted *)
Definition loadPersisted (file : load_result) : result persistedStore error :=
  match file with
  | LoadMissing => Ok (mkPersisted schemaVersion 0 [] [])
  | LoadUnreadable => Err ReadFailed
  | LoadInvalid => Err DecodeFailed
  | Loaded p =>
    if (ps_SchemaVersion p =? schemaVersion)%Z then Ok p
    else Err (UnsupportedSchema (ps_SchemaVersion p))
  end.

(** The options as given: a count or a duration that is not positive takes its
    default. *)
(* src/internal/operation/store.go:53-66 Open *)
Definition default_options (path : string) (maxOperations maxEvents retention ttl : Z) : Options :=
  mkOptions path
    (if (maxOperations <=? 0)%Z then Z.to_nat 1024 else Z.to_nat maxOperations)
    (if (maxEvents <=? 0)%Z then Z.to_nat 4096 else Z.to_nat maxEvents)
    (if (retention <=? 0)%Z then (7 * 24 * Hour)%Z else retention)
    (if (ttl <=? 0)%Z then (15 * Minute)%Z else ttl).

(* src/internal/operation/store.go Open *)
Definition Open (o : Options) (file : load_result) (now_recover now_prune : Time)
    (fault : option persist_fault) : result Store error :=
  if String.eqb (TrimSpace (Path o)) "" then Err PathRequired
  else
    let? persisted := loadPersisted file in
    let ops := foldl (λ m item, <[r_ID (en_record item) := item]> m) ∅ (ps_Operations persisted) in
    let seq := foldl (λ seq item, Z.max seq (r_Sequence (en_record item)))
                 (ps_NextSequence persisted) (ps_Operations persisted) in
    let seq := foldl (λ seq event, Z.max seq (e_Sequence event)) seq (ps_Events persisted) in
    let s := mkStore o ops (ps_Events persisted) seq ∅ 0 false
               (match file with Loaded p => Some p | _ => None end) in
    let '(s, recovered) := recoverLocked now_recover s in
    let '(s, pruned) := pruneLocked now_prune s in
    if recovered || pruned then
      let '(s, ok) := persistLocked fault s in
      if ok then Ok s else Err PersistFailed
    else Ok s.

(** ** Operations *)

(** [Create] reads the time when it validates, when it prunes and when it makes the
    record. *)
Record create_times := mkTimes { now_validate : Time; now_create_prune : Time; now_create : Time }.

Section create.
Context (sha256_hex : string → string).

(* src/internal/operation/store.go hashIdempotency *)
Definition hashIdempotency (owner key : string) : string :=
  let key := TrimSpace key in
  if String.eqb key "" then "" else sha256_hex (owner +:+ nul +:+ key).

Definition new_record (id : string) (request : CreateRequest) (now : Time) : Record_ :=
  mkRecord id (q_Kind request) (TrimSpace (q_Target request)) (TrimSpace (q_Owner request))
    StatePending 0 (q_Cancelable request)
    (if String.eqb (q_RecoveryPolicy request) "" then RecoveryFail else q_RecoveryPolicy request)
    now now (q_ExpiresAt request) 0 None (sanitizeMetadata (q_Metadata request)) ∅.

(** The entry of an earlier request with the same idempotency key, the first the
    map's iteration meets. *)
Definition find_idempotent (hash : string) (m : gmap string entry) : option entry :=
  snd <$> find_index (λ kv : string * entry,
    if String.eqb (en_idempotencyHash kv.2) hash then Some kv.2 else None) (map_to_list m).

(* src/internal/operation/store.go Store.Create *)
Definition Create (t : create_times) (fault : option persist_fault) (newID : string)
    (request : CreateRequest) (s : Store) : Store * result (Record_ * bool) error :=
  match validateCreate request (now_validate t) with
  | Err e => (s, Err e)
  | Ok _ =>
    if closed s then (s, Err StoreClosed)
    else
      let checkpoint := checkpointLocked s in
      let '(s, pruned) := pruneLocked (now_create_prune t) s in
      let hash := hashIdempotency (q_Owner request) (q_IdempotencyKey request) in
      match (if String.eqb hash "" then None else find_idempotent hash (operations s)) with
      | Some existing =>
        if negb (String.eqb (en_requestDigest existing) (q_RequestDigest request))
        then (restoreLocked checkpoint s, Err IdempotencyConflictError)
        else if pruned then
          let '(s, ok) := persistLocked fault s in
          if ok then (s, Ok (en_record existing, false))
          else (restoreLocked checkpoint s, Err PersistFailed)
        else (s, Ok (en_record existing, false))
      | None =>
        if (MaxOperations (options s) <=? size (operations s))%nat
        then (restoreLocked checkpoint s, Err CapacityError)
        else
          let record := new_record newID request (now_create t) in
          let '(s, event) := nextEventLocked newID "created" StatePending (now_create t) s in
          let record := set_sequence (e_Sequence event) record in
          let s := appendEventLocked event
            (set_entry newID (mkEntry record hash (q_RequestDigest request)) s) in
          let '(s, ok) := persistLocked fault s in
          if ok then (publish event s, Ok (record, true))
          else (restoreLocked checkpoint s, Err PersistFailed)
      end
  end.
End create.

(* src/internal/operation/store.go Store.Get *)
Definition Get (id : string) (s : Store) : result Record_ error :=
  match operations s !! id with Some item => Ok (en_record item) | None => Err (NotFoundError id) end.

Definition earlier (a b : Record_) : Prop :=
  if decide (r_CreatedAt a = r_CreatedAt b) then String.le (r_ID a) (r_ID b)
  else (r_CreatedAt a ≤ r_CreatedAt b)%Z.
#[global] Instance earlier_dec : RelDecision earlier.
Proof. intros a b. unfold earlier. case_decide; apply _. Defined.

(* src/internal/operation/store.go Store.List *)
Definition List_ (s : Store) : list Record_ :=
  merge_sort earlier ((λ kv : string * entry, en_record kv.2) <$> map_to_list (operations s)).

(** What both mutations of a record do once the new record is known. *)
Definition commit_record (fault : option persist_fault) (id eventType : string) (now : Time)
    (item : entry) (record : Record_) (s : Store) : Store * result Record_ error :=
  let checkpoint := checkpointLocked s in
  let '(s, event) := nextEventLocked id eventType (r_State record) now s in
  let record := set_sequence (e_Sequence event) record in
  let s := appendEventLocked event
    (set_entry id (mkEntry record (en_idempotencyHash item) (en_requestDigest item)) s) in
  let '(s, ok) := persistLocked fault s in
  if ok then (publish event s, Ok record) else (restoreLocked checkpoint s, Err PersistFailed).

Definition transitioned (next : State) (progress : Z) (result : gmap string string)
    (failure : option Failure) (now : Time) (r : Record_) : Record_ :=
  mkRecord (r_ID r) (r_Kind r) (r_Target r) (r_Owner r) next (clamp_progress progress)
    (r_Cancelable r) (r_RecoveryPolicy r) (r_CreatedAt r) now (r_ExpiresAt r) (r_Sequence r)
    ((λ f, NewFailure (f_Code f) (f_Message f) (f_Retryable f)) <$> failure)
    (r_Metadata r) (sanitizeMetadata result).

(* src/internal/operation/store.go Store.Transition *)
Definition Transition (now : Time) (fault : option persist_fault) (id : string) (next : State)
    (progress : Z) (result : gmap string string) (failure : option Failure) (eventType : string)
    (s : Store) : Store * Prelude.result Record_ error :=
  if closed s then (s, Err StoreClosed)
  else
    match operations s !! id with
    | None => (s, Err (NotFoundError id))
    | Some item =>
      let from := r_State (en_record item) in
      if negb (allowedTransition from next) then (s, Err (InvalidTransitionError id from next))
      else commit_record fault id (if String.eqb eventType "" then "state_changed" else eventType) now
             item (transitioned next progress result failure now (en_record item)) s
    end.

Definition progressed (progress : Z) (metadata : option (gmap string string)) (now : Time)
    (r : Record_) : Record_ :=
  mkRecord (r_ID r) (r_Kind r) (r_Target r) (r_Owner r) (r_State r) (clamp_progress progress)
    (r_Cancelable r) (r_RecoveryPolicy r) (r_CreatedAt r) now (r_ExpiresAt r) (r_Sequence r)
    (r_Failure r) (r_Metadata r)
    (match metadata with Some m => sanitizeMetadata m | None => r_Result r end).

(* src/internal/operation/store.go Store.UpdateProgress *)
Definition UpdateProgress (now : Time) (fault : option persist_fault) (id : string) (progress : Z)
    (metadata : option (gmap string string)) (s : Store) : Store * result Record_ error :=
  if closed s then (s, Err StoreClosed)
  else
    match operations s !! id with
    | None => (s, Err (NotFoundError id))
    | Some item =>
      let st := r_State (en_record item) in
      if Terminal st then (s, Err (InvalidTransitionError id st st))
      else commit_record fault id "progress" now item (progressed progress metadata now (en_record item)) s
    end.

(* src/internal/operation/store.go Store.Cancel *)
Definition Cancel (now : Time) (fault : option persist_fault) (id : string) (s : Store)
    : Store * result Record_ error :=
  match Get id s with
  | Err e => (s, Err e)
  | Ok item =>
    if negb (r_Cancelable item) then (s, Err (NotCancelable id))
    else Transition now fault id StateCancelled (r_Progress item) ∅
           (Some (NewFailure "operation_cancelled" "The operation was cancelled." false))
           "cancelled" s
  end.

(* src/internal/operation/store.go Store.Events *)
Definition Events (after : Z) (s : Store) : list Event :=
  filter (λ e, (after < e_Sequence e)%Z) (events s).

(* src/internal/operation/store.go Store.Subscribe *)
Definition Subscribe (buffer : Z) (s : Store) : Store * option Z :=
  let buffer := if (buffer <? 1)%Z then 1%Z else buffer in
  if closed s then (s, None)
  else
    let id := wrap_u64 (nextSubID s + 1) in
    (mkStore (options s) (operations s) (events s) (nextSequence s)
       (<[id := mkChannel [] (Z.to_nat buffer) false]> (subscribers s)) id (closed s) (disk s),
     Some id).

(** The cancel function of a subscription. *)
(* src/internal/operation/store.go Store.Subscribe *)
Definition Unsubscribe (id : Z) (s : Store) : Store :=
  mkStore (options s) (operations s) (events s) (nextSequence s) (delete id (subscribers s))
    (nextSubID s) (closed s) (disk s).

(* src/internal/operation/store.go Store.Close *)
Definition Close (s : Store) : Store :=
  if closed s then s
  else mkStore (options s) (operations s) (events s) (nextSequence s) ∅ (nextSubID s) true (disk s).

#[global] Arguments pruneLocked : simpl never.

(** ** Facts about pruning *)

Lemma foldr_delete_lookup {A} (l : list (string * A)) (m : gmap string A) k x :
  foldr (λ kv m, delete kv.1 m) m l !! k = Some x ↔ m !! k = Some x ∧ k ∉ l.*1.
Proof.
  induction l as [|[k' y] l IH]; csimpl.
  - rewrite elem_of_nil. tauto.
  - rewrite lookup_delete_Some, IH, elem_of_cons. naive_solver.
Qed.

Record pruned (s s' : Store) (changed : bool) : Prop := {
  pr_options : options s' = options s;
  pr_events : events s' = events s;
  pr_sequence : nextSequence s' = nextSequence s;
  pr_closed : closed s' = closed s;
  pr_disk : disk s' = disk s;
  pr_subset : operations s' ⊆ operations s;
  pr_live : ∀ id e, operations s !! id = Some e → terminal_entry e = false →
    operations s' !! id = Some e;
  pr_changed : changed = false → operations s' = operations s;
}.

Lemma pruneLocked_spec now s s' changed : pruneLocked now s = (s', changed) → pruned s s' changed.
Proof.
  unfold pruneLocked.
  set (cut := (now - Retention (options s))%Z).
  set (kept := filter _ (operations s)).
  set (terminal := merge_sort older _).
  set (dropped := take _ terminal).
  intros [= <- <-]. simpl.
  assert (kept ⊆ operations s) as Hsub by apply map_filter_subseteq.
  split; simpl; try done.
  - apply map_subseteq_spec. intros k x [Hk _]%foldr_delete_lookup.
    rewrite map_subseteq_spec in Hsub. auto.
  - intros id e He Ht. apply foldr_delete_lookup. split.
    + apply map_lookup_filter_Some. split; [done|]. simpl. by rewrite Ht.
    + intros (kv & -> & Hin)%list_elem_of_fmap. subst dropped.
      assert (kv ∈ terminal) as Hin' by (rewrite <-(take_drop (size kept - MaxOperations (options s)) terminal);
        apply elem_of_app; by left).
      subst terminal. rewrite merge_sort_Permutation in Hin'.
      apply list_elem_of_filter in Hin' as [Hter Hm]. destruct kv as [k e'].
      apply elem_of_map_to_list, map_lookup_filter_Some in Hm as [Hm _]. simpl in *. congruence.
  - intros [Hs Hd]%orb_false_iff. apply bool_decide_eq_false in Hs, Hd.
    apply dec_stable in Hs, Hd. rewrite Hd. simpl.
    apply map_subseteq_size_eq; [done|]. lia.
Qed.

(** What pruning drops of records that have all ended: those of before the retention,
    and then the oldest above the limit. *)
Definition dropped_at (o : Options) (now : Time) (t : Time) (ops : gmap string entry) : Prop :=
  (t < now - Retention o)%Z
  ∨ size ops = MaxOperations o ∧ ∀ k e, ops !! k = Some e → (t ≤ r_UpdatedAt (en_record e))%Z.

Lemma size_foldr_delete {A} (l : list (string * A)) (m : gmap string A) :
  NoDup l.*1 → (∀ k, k ∈ l.*1 → is_Some (m !! k)) → size (foldr (λ kv m, delete kv.1 m) m l) = size m - length l.
Proof.
  induction l as [|[k x] l IH]; csimpl; [lia|]. intros [Hk Hnd]%NoDup_cons Hin.
  rewrite map_size_delete, IH; [|done|intros j Hj; apply Hin; by right].
  destruct (Hin k) as [y Hy]; [by left|].
  assert (foldr (λ kv m, delete kv.1 m) m l !! k = Some y) as -> by (by apply foldr_delete_lookup). simpl. lia.
Qed.

Lemma older_take l n a b :
  Sorted older l → a ∈ take n l → b ∈ drop n l → older a b.
Proof.
  intros Hs%Sorted_StronglySorted; [|intros x y z; unfold older; lia].
  rewrite <-(take_drop n l), StronglySorted_app in Hs. destruct Hs as (Hab & _). auto.
Qed.

Lemma pruneLocked_drops now s s' changed k e :
  pruneLocked now s = (s', changed) → (∀ k e, operations s !! k = Some e → terminal_entry e = true) →
  operations s !! k = Some e →
  operations s' !! k = Some e ∨ dropped_at (options s) now (r_UpdatedAt (en_record e)) (operations s').
Proof.
  unfold pruneLocked. set (cut := (now - Retention (options s))%Z).
  set (kept := filter _ (operations s)). set (terminal := merge_sort older _). set (n := size kept - MaxOperations (options s)).
  intros Hp Hter Hk. injection Hp as <- _. cbn [operations with_state].
  destruct (decide (r_UpdatedAt (en_record e) < cut)%Z) as [Hlt|Hge]; [right; by left|].
  assert (kept !! k = Some e) as Hkept.
  { apply map_lookup_filter_Some. split; [done|]. cbn [snd]. rewrite (Hter k e Hk). apply Z.ltb_nlt. lia. }
  assert (Hall : terminal ≡ₚ map_to_list kept).
  { unfold terminal. rewrite merge_sort_Permutation. rewrite filter_all; [done|].
    intros [j x] [Hj _]%elem_of_map_to_list%map_lookup_filter_Some. by apply (Hter j). }
  assert (Hnd : NoDup terminal.*1) by (rewrite Hall; apply NoDup_fst_map_to_list).
  assert (Hlen : length terminal = size kept) by (by rewrite Hall, length_map_to_list).
  set (dropped := take n terminal). destruct (decide (k ∈ dropped.*1)) as [Hd|Hd].
  2:{ left. by apply foldr_delete_lookup. }
  right; right. assert (Hn : 0 < n).
  { destruct n eqn:En; [|lia]. subst dropped. by apply elem_of_nil in Hd. }
  assert (Hdn : NoDup dropped.*1) by (unfold dropped; rewrite fmap_take; eapply sublist_NoDup; [exact Hnd|apply sublist_take]).
  assert (Hin : ∀ x, x ∈ dropped → x ∈ terminal) by (intros x Hx; rewrite <-(take_drop n terminal); apply elem_of_app; by left).
  split.
  - rewrite size_foldr_delete; [|done|].
    + unfold dropped. rewrite length_take, Hlen. unfold n in *. lia.
    + intros j ([j' x] & -> & Hx%Hin)%list_elem_of_fmap. rewrite Hall in Hx. apply elem_of_map_to_list in Hx. by exists x.
  - intros j x [Hj Hjd]%foldr_delete_lookup.
    apply list_elem_of_fmap in Hd as ([k' e'] & -> & He'). assert (e' = e) as ->.
    { apply Hin in He'. rewrite Hall in He'. apply elem_of_map_to_list in He'. simpl in *. congruence. }
    assert ((j, x) ∈ terminal) as Hjt by (rewrite Hall; by apply elem_of_map_to_list).
    rewrite <-(take_drop n terminal) in Hjt. apply elem_of_app in Hjt as [Hjt|Hjt].
    { destruct Hjd. by apply (list_elem_of_fmap_2 fst) in Hjt. }
    apply (older_take terminal n (k', e) (j, x)); [apply Sorted_merge_sort; intros a b; unfold older; lia|done|done].
Qed.

(** ** The shape of a commit *)

Definition same_state (s s' : Store) : Prop :=
  options s' = options s ∧ operations s' = operations s ∧ events s' = events s
  ∧ nextSequence s' = nextSequence s ∧ closed s' = closed s.

#[global] Instance same_state_equiv : Equivalence same_state.
Proof. unfold same_state. split; [done|red; naive_solver|red; intuition congruence]. Qed.

(** The file and the memory agree. *)
Definition synced (s : Store) : Prop := disk s = Some (snapshot_of s).

Lemma snapshot_same_state s s' : same_state s s' → snapshot_of s' = snapshot_of s.
Proof. unfold snapshot_of. by intros (_ & -> & -> & -> & _). Qed.

(** One recorded event: [id]'s entry is replaced, the event appended. *)
Record advanced (id : string) (event : Event) (e : entry) (s s' : Store) : Prop := {
  cm_options : options s' = options s;
  cm_closed : closed s' = closed s;
  cm_operations : operations s' = <[id := e]> (operations s);
  cm_events : events s' = take_last (MaxEvents (options s)) (events s ++ [event]);
  cm_sequence : nextSequence s' = wrap_u64 (nextSequence s + 1);
  cm_event : e_Sequence event = wrap_u64 (nextSequence s + 1);
  cm_record : r_Sequence (en_record e) = wrap_u64 (nextSequence s + 1);
}.

(** The same, persisted. *)
Definition committed (id : string) (event : Event) (e : entry) (s s' : Store) : Prop :=
  advanced id event e s s' ∧ synced s'.

(** A failed write: memory is as before; the file too, unless the failure came
    after the rename. *)
Definition write_failed (fault : option persist_fault) (s s' : Store) : Prop :=
  same_state s s' ∧ (fault = Some AfterRename ∨ disk s' = disk s).

Lemma commit_record_spec fault id type now item record s :
  let '(s', out) := commit_record fault id type now item record s in
  match out with
  | Ok r => ∃ event, committed id event
      (mkEntry r (en_idempotencyHash item) (en_requestDigest item)) s s'
      ∧ r = set_sequence (wrap_u64 (nextSequence s + 1)) record
      ∧ event = mkEvent (wrap_u64 (nextSequence s + 1)) id type (r_State record) now
  | Err e => e = PersistFailed ∧ write_failed fault s s'
  end.
Proof.
  unfold commit_record, persistLocked, persistSnapshot. simpl.
  destruct fault as [[]|]; simpl.
  - split; [done|]. by split; [|right].
  - split; [done|]. by split; [|left].
  - eexists. split; [|done]. split; [by split|done].
Qed.

(** ** Effects *)

(** What one operation can do to the store. *)
Inductive effect (fault : option persist_fault) (s s' : Store) : Prop :=
| EffNone : same_state s s' → (fault = Some AfterRename ∨ disk s' = disk s) → effect fault s s'
| EffClosed : s' = Close s → effect fault s s'
| EffPrune s1 changed : pruned s s1 changed → same_state s1 s' → (synced s' ∨ changed = false ∧ disk s' = disk s) →
    effect fault s s'
| EffCreate s1 changed id event e : pruned s s1 changed → operations s !! id = None →
    r_State (en_record e) = StatePending → r_ID (en_record e) = id →
    size (operations s1) < MaxOperations (options s) →
    (en_idempotencyHash e = "" ∨ find_idempotent (en_idempotencyHash e) (operations s1) = None) →
    committed id event e s1 s' → effect fault s s'
| EffMutate id event item e : operations s !! id = Some item →
    terminal_entry item = false →
    (r_State (en_record e) = r_State (en_record item)
     ∨ allowedTransition (r_State (en_record item)) (r_State (en_record e)) = true) →
    r_ID (en_record e) = r_ID (en_record item) →
    en_idempotencyHash e = en_idempotencyHash item →
    en_requestDigest e = en_requestDigest item →
    committed id event e s s' → effect fault s s'.

Lemma same_state_effect fault s : effect fault s s.
Proof. apply EffNone; [done|by right]. Qed.

Lemma restore_same_state c s s' :
  options s' = options s → closed s' = closed s → c = checkpointLocked s →
  same_state s (restoreLocked c s').
Proof. intros ?? ->. by unfold same_state, restoreLocked; simpl. Qed.

Lemma Transition_effect now fault id next progress result failure type s :
  let '(s', out) := Transition now fault id next progress result failure type s in
  effect fault s s' ∧ (is_ok out = false → same_state s s' ∧ (fault = Some AfterRename ∨ disk s' = disk s)).
Proof.
  unfold Transition. destruct (closed s); [split; [apply same_state_effect|by split; [|right]]|].
  destruct (operations s !! id) as [item|] eqn:Hi;
    [|split; [apply same_state_effect|by split; [|right]]].
  destruct (allowedTransition _ next) eqn:Ha; simpl;
    [|split; [apply same_state_effect|by split; [|right]]].
  match goal with |- context [commit_record ?f ?i ?t ?n ?it ?r s] =>
    pose proof (commit_record_spec f i t n it r s) as Hc; destruct (commit_record f i t n it r s)
      as [s' [r'|e]] end.
  - destruct Hc as (event & Hc & -> & _). split; [|done].
    refine (EffMutate _ _ _ id event item _ Hi _ _ _ _ _ Hc); [|by right|done..].
    unfold terminal_entry. unfold allowedTransition in Ha. by destruct (Terminal _).
  - destruct Hc as (_ & Hs & Hd). split; [by apply EffNone|done].
Qed.

Lemma UpdateProgress_effect now fault id progress metadata s :
  let '(s', out) := UpdateProgress now fault id progress metadata s in
  effect fault s s' ∧ (is_ok out = false → same_state s s' ∧ (fault = Some AfterRename ∨ disk s' = disk s)).
Proof.
  unfold UpdateProgress. destruct (closed s); [split; [apply same_state_effect|by split; [|right]]|].
  destruct (operations s !! id) as [item|] eqn:Hi;
    [|split; [apply same_state_effect|by split; [|right]]].
  destruct (Terminal _) eqn:Ha; simpl;
    [split; [apply same_state_effect|by split; [|right]]|].
  match goal with |- context [commit_record ?f ?i ?t ?n ?it ?r s] =>
    pose proof (commit_record_spec f i t n it r s) as Hc; destruct (commit_record f i t n it r s)
      as [s' [r'|e]] end.
  - destruct Hc as (event & Hc & -> & _). split; [|done].
    by refine (EffMutate _ _ _ id event item _ Hi Ha _ _ _ _ Hc); [left|..].
  - destruct Hc as (_ & Hs & Hd). split; [by apply EffNone|done].
Qed.

(** ** Histories *)

Section histories.
Context (sha256_hex : string → string).

Inductive op :=
| OpCreate (t : create_times) (fault : option persist_fault) (newID : string) (request : CreateRequest)
| OpTransition (now : Time) (fault : option persist_fault) (id : string) (next : State)
    (progress : Z) (result : gmap string string) (failure : option Failure) (eventType : string)
| OpProgress (now : Time) (fault : option persist_fault) (id : string) (progress : Z)
    (metadata : option (gmap string string))
| OpCancel (now : Time) (fault : option persist_fault) (id : string)
| OpSubscribe (buffer : Z) | OpUnsubscribe (id : Z) | OpClose.

(** The store after an operation, and whether the operation reported an error. *)
Definition run (s : Store) (o : op) : Store * option error :=
  let err {A} (r : result A error) := match r with Ok _ => None | Err e => Some e end in
  match o with
  | OpCreate t fault newID request => let '(s, out) := Create sha256_hex t fault newID request s in (s, err out)
  | OpTransition now fault id next progress result failure type =>
    let '(s, out) := Transition now fault id next progress result failure type s in (s, err out)
  | OpProgress now fault id progress metadata =>
    let '(s, out) := UpdateProgress now fault id progress metadata s in (s, err out)
  | OpCancel now fault id => let '(s, out) := Cancel now fault id s in (s, err out)
  | OpSubscribe buffer => (fst (Subscribe buffer s), None)
  | OpUnsubscribe id => (Unsubscribe id s, None)
  | OpClose => (Close s, None)
  end.
Definition step (s : Store) (o : op) : Store := fst (run s o).

Definition op_fault (o : op) : option persist_fault :=
  match o with
  | OpCreate _ fault _ _ | OpTransition _ fault _ _ _ _ _ _ | OpProgress _ fault _ _ _
  | OpCancel _ fault _ => fault
  | _ => None
  end.

(** The identifiers of new operations are fresh: they are 128 random bits. *)
Definition fresh_op (s : Store) (o : op) : Prop :=
  match o with OpCreate _ _ newID _ => operations s !! newID = None | _ => True end.

Lemma Create_effect t fault newID request s :
  operations s !! newID = None →
  let '(s', out) := Create sha256_hex t fault newID request s in
  effect fault s s' ∧ (is_ok out = false → same_state s s' ∧ (fault = Some AfterRename ∨ disk s' = disk s)).
Proof.
  intros Hfresh. unfold Create.
  destruct (validateCreate _ _); [|split; [apply same_state_effect|by split; [|right]]].
  destruct (closed s); [split; [apply same_state_effect|by split; [|right]]|].
  destruct (pruneLocked _ s) as [s1 changed] eqn:Hp. pose proof (pruneLocked_spec _ _ _ _ Hp) as Hpr.
  assert (Hrest : ∀ s2, options s2 = options s1 → closed s2 = closed s1 →
    same_state s (restoreLocked (checkpointLocked s) s2)).
  { intros s2 Ho Hc. apply restore_same_state; [|by rewrite Hc; apply Hpr|done].
    rewrite Ho. apply Hpr. }
  set (hash := hashIdempotency _ _ _).
  destruct (if String.eqb hash "" then None else find_idempotent hash (operations s1)) as [existing|] eqn:Hf.
  - destruct (negb _).
    { split; [apply EffNone|intros _; split]; try (by apply Hrest); right; apply Hpr. }
    destruct changed.
    + unfold persistLocked, persistSnapshot. destruct fault as [[]|]; simpl.
      * split; [apply EffNone|intros _; split]; try (by apply Hrest); right; apply Hpr.
      * split; [apply EffNone|intros _; split]; try (by apply Hrest); by left.
      * split; [|done]. eapply EffPrune; [exact Hpr|done|left; done].
    + simpl. split; [|done]. eapply EffPrune; [exact Hpr|done|right; split; [done|apply Hpr]].
  - destruct (Nat.leb_spec (MaxOperations (options s1)) (size (operations s1))).
    { split; [apply EffNone|intros _; split]; try (by apply Hrest); right; apply Hpr. }
    unfold persistLocked, persistSnapshot. destruct fault as [[]|]; simpl.
    + split; [apply EffNone|intros _; split]; try (by apply Hrest); right; apply Hpr.
    + split; [apply EffNone|intros _; split]; try (by apply Hrest); by left.
    + split; [|done]. eapply (EffCreate _ _ _ s1 changed newID
        (mkEvent (wrap_u64 (nextSequence s1 + 1)) newID "created" StatePending (now_create t))
        (mkEntry (set_sequence (wrap_u64 (nextSequence s1 + 1))
          (new_record newID request (now_create t))) hash (q_RequestDigest request)));
        [exact Hpr|done|done|done|by rewrite <-(pr_options _ _ _ Hpr)| |split; [by split|done]].
      simpl. destruct (String.eqb_spec hash ""); [by left|by right].
Qed.

Lemma run_effect s o :
  fresh_op s o →
  effect (op_fault o) s (fst (run s o))
  ∧ (snd (run s o) ≠ None →
     same_state s (fst (run s o)) ∧ (op_fault o = Some AfterRename ∨ disk (fst (run s o)) = disk s)).
Proof.
  destruct o as [t fault newID request|now fault id next progress result failure type
    |now fault id progress metadata|now fault id|buffer|id|]; simpl; intros Hf.
  - pose proof (Create_effect t fault newID request s Hf) as Hc.
    destruct (Create _ _ _ _ _ _) as [s' out]. destruct Hc as [? Hc]. split; [done|].
    destruct out; [done|auto].
  - pose proof (Transition_effect now fault id next progress result failure type s) as Hc.
    destruct (Transition _ _ _ _ _ _ _ _ _) as [s' out]. destruct Hc as [? Hc]. split; [done|].
    destruct out; [done|auto].
  - pose proof (UpdateProgress_effect now fault id progress metadata s) as Hc.
    destruct (UpdateProgress _ _ _ _ _ _) as [s' out]. destruct Hc as [? Hc]. split; [done|].
    destruct out; [done|auto].
  - unfold Cancel. destruct (Get id s) as [item|]; [|by split; [apply same_state_effect|split; [|right]]].
    destruct (negb _); [by split; [apply same_state_effect|split; [|right]]|].
    match goal with |- context [Transition ?a ?b ?c ?d ?e ?f ?g ?h s] =>
      pose proof (Transition_effect a b c d e f g h s) as Hc; destruct (Transition a b c d e f g h s) as [s' out] end.
    destruct Hc as [? Hc]. split; [done|]. destruct out; [done|auto].
  - unfold Subscribe. split; [|done]. destruct (closed s) eqn:Hcl; [apply same_state_effect|].
    apply EffNone; [by unfold same_state; simpl; rewrite ?Hcl|by right].
  - split; [|done]. apply EffNone; [done|by right].
  - split; [|done]. by apply EffClosed.
Qed.

End histories.

(** ** The invariant *)

Record inv (s : Store) : Prop := {
  i_keys : ∀ k e, operations s !! k = Some e → r_ID (en_record e) = k;
  i_sorted : StronglySorted (λ a b, e_Sequence a < e_Sequence b)%Z (events s);
  i_events : Forall (λ e, e_Sequence e ≤ nextSequence s)%Z (events s);
  i_length : length (events s) ≤ MaxEvents (options s);
  i_records : ∀ k e, operations s !! k = Some e → (r_Sequence (en_record e) ≤ nextSequence s)%Z;
  i_hash : ∀ k k' e e', operations s !! k = Some e → operations s !! k' = Some e' →
    en_idempotencyHash e = en_idempotencyHash e' → en_idempotencyHash e ≠ "" → k = k';
  i_size : size (operations s) ≤ MaxOperations (options s);
  i_sequence : (0 ≤ nextSequence s)%Z;
}.

Lemma inv_same_state s s' : same_state s s' → inv s → inv s'.
Proof.
  intros (Ho & Hm & He & Hn & _) []. split; rewrite ?Ho, ?Hm, ?He, ?Hn; done.
Qed.

Lemma inv_pruned s s' changed : pruned s s' changed → inv s → inv s'.
Proof.
  intros [Ho He Hn _ _ Hsub _ _] [K S E L R H Z N].
  rewrite map_subseteq_spec in Hsub.
  split; rewrite ?Ho, ?He, ?Hn; eauto.
  etrans; [|exact Z]. apply map_subseteq_size. by apply map_subseteq_spec.
Qed.

Lemma find_idempotent_None h m :
  find_idempotent h m = None ↔ ∀ k e, m !! k = Some e → en_idempotencyHash e ≠ h.
Proof.
  unfold find_idempotent. rewrite fmap_None, find_index_None. split.
  - intros Hn k e He. specialize (Hn (k, e)). rewrite elem_of_map_to_list in Hn.
    specialize (Hn He). simpl in Hn. by destruct (String.eqb_spec (en_idempotencyHash e) h).
  - intros Hn [k e] He%elem_of_map_to_list. simpl.
    destruct (String.eqb_spec (en_idempotencyHash e) h); [|done]. by destruct (Hn k e).
Qed.

Lemma find_idempotent_Some h m e :
  find_idempotent h m = Some e → ∃ k, m !! k = Some e ∧ en_idempotencyHash e = h.
Proof.
  unfold find_idempotent. intros ([i e'] & ([k x] & Hl & Hx & _)%find_index_Some & ->)%fmap_Some.
  simpl in *. apply list_elem_of_lookup_2, elem_of_map_to_list in Hl.
  destruct (String.eqb_spec (en_idempotencyHash x) h); [|done]. injection Hx as ->. by exists k.
Qed.

Lemma inv_committed id event e s s' :
  inv s → (nextSequence s + 1 < 2 ^ 64)%Z → advanced id event e s s' →
  r_ID (en_record e) = id →
  (∀ k e', operations s !! k = Some e' → en_idempotencyHash e = en_idempotencyHash e' →
     en_idempotencyHash e ≠ "" → k = id) →
  size (operations s') ≤ MaxOperations (options s) →
  inv s'.
Proof.
  intros [K S E L R H Z N] Hb [Ho _ Hops Hev Hseq Hes Hrs] Hid Hhash Hsize.
  rewrite wrap_u64_small in Hseq, Hes, Hrs by lia.
  assert (Forall (λ e, e_Sequence e ≤ nextSequence s + 1)%Z (events s ++ [event])) as Hall.
  { apply Forall_app; split; [eapply Forall_impl; [exact E|]; simpl; lia|].
    repeat constructor. rewrite Hes. lia. }
  split; rewrite ?Ho, ?Hev, ?Hseq.
  - intros k x. rewrite Hops, lookup_insert. case_decide; naive_solver.
  - apply StronglySorted_drop, StronglySorted_snoc; [done|].
    eapply Forall_impl; [exact E|]. simpl. rewrite Hes. lia.
  - apply Forall_forall. intros x Hx%elem_of_take_last. rewrite Forall_forall in Hall. auto.
  - rewrite length_take_last. lia.
  - intros k x. rewrite Hops, lookup_insert. case_decide.
    + intros [= <-]. rewrite Hrs. lia.
    + intros Hx%R. lia.
  - intros k k' x x'. rewrite Hops, !lookup_insert.
    repeat case_decide; subst; [done|..].
    + intros [= <-] Hk' Heq Hne. symmetry. by eapply Hhash.
    + intros Hk [= <-] Heq Hne. rewrite Heq in Hne. by eapply Hhash.
    + eauto.
  - done.
  - lia.
Qed.

Lemma inv_effect fault s s' :
  inv s → (nextSequence s + 1 < 2 ^ 64)%Z → effect fault s s' → inv s'.
Proof.
  intros Hi Hb [Hs _|Hc|s1 changed Hp Hs _|s1 changed id event e Hp Hfr _ Hid Hsz Hf Hcm
    |id event item e Hit Hlive _ Hid Hh _ Hcm].
  - by eapply inv_same_state.
  - rewrite Hc. unfold Close. destruct (closed s); [done|]. by destruct Hi.
  - eapply inv_same_state; [done|]. by eapply inv_pruned.
  - pose proof (inv_pruned _ _ _ Hp Hi) as Hi1.
    eapply inv_committed; [exact Hi1|by rewrite (pr_sequence _ _ _ Hp)|exact (proj1 Hcm)|done| |].
    + intros k e' Hk Heq Hne. destruct Hf as [?|Hf]; [done|].
      rewrite find_idempotent_None in Hf. by destruct (Hf k e').
    + rewrite (cm_operations _ _ _ _ _ (proj1 Hcm)), (pr_options _ _ _ Hp).
      rewrite map_size_insert. case_match; simpl; lia.
  - eapply inv_committed; [exact Hi|done|exact (proj1 Hcm)| | |].
    + rewrite Hid. by apply (i_keys _ Hi).
    + intros k e' Hk Heq Hne. rewrite Hh in Heq, Hne. symmetry. by eapply (i_hash _ Hi id k).
    + rewrite (cm_operations _ _ _ _ _ (proj1 Hcm)), map_size_insert, Hit. simpl. apply Hi.
Qed.

Lemma effect_sequence fault s s' :
  (0 ≤ nextSequence s)%Z → (nextSequence s + 1 < 2 ^ 64)%Z → effect fault s s' →
  (nextSequence s ≤ nextSequence s' ≤ nextSequence s + 1)%Z.
Proof.
  intros H0 Hb [(?&?&?&?&?) _|Hc|s1 changed Hp (?&?&?&?&?) _|s1 changed id event e Hp _ _ _ _ _ Hcm
    |id event item e _ _ _ _ _ _ Hcm].
  - lia.
  - rewrite Hc. unfold Close. destruct (closed s); simpl; lia.
  - pose proof (pr_sequence _ _ _ Hp). lia.
  - pose proof (pr_sequence _ _ _ Hp). pose proof (cm_sequence _ _ _ _ _ (proj1 Hcm)) as Hq.
    rewrite wrap_u64_small in Hq; lia.
  - pose proof (cm_sequence _ _ _ _ _ (proj1 Hcm)) as Hq. rewrite wrap_u64_small in Hq; lia.
Qed.

Lemma synced_effect fault s s' : fault ≠ Some AfterRename → synced s → effect fault s s' → synced s'.
Proof.
  intros Hne Hs [Hst Hd|Hc|s1 changed Hp Hst Hd|s1 changed id event e Hp _ _ _ _ _ Hcm
    |id event item e _ _ _ _ _ _ Hcm].
  - destruct Hd as [?|Hd]; [done|]. unfold synced. rewrite Hd, (snapshot_same_state _ _ Hst). done.
  - rewrite Hc. unfold Close. by destruct (closed s).
  - destruct Hd as [?|[Hch Hd]]; [done|]. unfold synced. rewrite Hd, (snapshot_same_state _ _ Hst).
    unfold synced in Hs. rewrite Hs. f_equal. unfold snapshot_of.
    by rewrite (pr_changed _ _ _ Hp Hch), (pr_events _ _ _ Hp), (pr_sequence _ _ _ Hp).
  - apply Hcm.
  - apply Hcm.
Qed.

(** What one operation does to one record. *)
Lemma record_effect fault s s' id e :
  effect fault s s' → operations s !! id = Some e →
  if terminal_entry e
  then operations s' !! id = Some e ∨ operations s' !! id = None
  else ∃ e', operations s' !! id = Some e'
    ∧ (e' = e ∨ r_State (en_record e') = r_State (en_record e)
       ∨ allowedTransition (r_State (en_record e)) (r_State (en_record e')) = true).
Proof.
  intros He Hid. destruct He as [(_ & Hm & _) _|Hc|s1 changed Hp (_ & Hm & _) _|s1 changed id' event e1 Hp Hfr _ _ _ _ Hcm
    |id' event item e1 Hit Hlive Htr _ _ _ Hcm].
  - rewrite Hm, Hid. destruct (terminal_entry e); [by left|]. eauto.
  - rewrite Hc. unfold Close. destruct (closed s); simpl; rewrite Hid;
      destruct (terminal_entry e); eauto.
  - rewrite Hm. destruct (terminal_entry e) eqn:Ht.
    + destruct (operations s1 !! id) as [x|] eqn:Hx; [left|by right].
      pose proof (pr_subset _ _ _ Hp) as Hsub. rewrite map_subseteq_spec in Hsub.
      apply Hsub in Hx. congruence.
    + exists e. split; [by eapply pr_live|by left].
  - assert (id' ≠ id) as Hne by congruence.
    rewrite (cm_operations _ _ _ _ _ (proj1 Hcm)), lookup_insert_ne by done.
    destruct (terminal_entry e) eqn:Ht.
    + destruct (operations s1 !! id) as [x|] eqn:Hx; [left|by right].
      pose proof (pr_subset _ _ _ Hp) as Hsub. rewrite map_subseteq_spec in Hsub.
      apply Hsub in Hx. congruence.
    + exists e. split; [by eapply pr_live|by left].
  - rewrite (cm_operations _ _ _ _ _ (proj1 Hcm)), lookup_insert. case_decide as Heq.
    + subst id'. assert (item = e) as -> by congruence. rewrite Hlive.
      exists e1. split; [done|]. right. destruct Htr; auto.
    + rewrite Hid. destruct (terminal_entry e); eauto.
Qed.

Section steps.
Context (sha256_hex : string → string).

(** A sequence of operations in which every new identifier is fresh. *)
Fixpoint all_fresh (s : Store) (ops : list op) : Prop :=
  match ops with
  | [] => True
  | o :: ops => fresh_op s o ∧ all_fresh (step sha256_hex s o) ops
  end.

Lemma inv_steps ops s :
  inv s → (nextSequence s + Z.of_nat (length ops) < 2 ^ 64)%Z → all_fresh s ops →
  inv (foldl (step sha256_hex) s ops).
Proof.
  revert s; induction ops as [|o ops IH]; intros s Hi Hb Hf; simpl in *; [done|].
  destruct Hf as [Hfo Hf]. destruct (run_effect sha256_hex s o Hfo) as [He _].
  pose proof (effect_sequence _ _ _ (i_sequence _ Hi) ltac:(lia) He).
  apply IH; [eapply inv_effect; [done| |exact He]; lia|unfold step; lia|done].
Qed.

End steps.

(** ** Recovery *)

Lemma recover_one_advanced now s id item :
  operations s !! id = Some item → terminal_entry item = false →
  ∃ event, advanced id event
    (mkEntry (set_sequence (wrap_u64 (nextSequence s + 1)) (recovered_record now (en_record item)))
       (en_idempotencyHash item) (en_requestDigest item)) s (recover_one now s id)
    ∧ subscribers (recover_one now s id) = subscribers s.
Proof.
  intros Hi Ht. unfold recover_one. rewrite Hi, Ht. simpl. eexists. split; [by split|done].
Qed.

Lemma recovered_terminal now r : Terminal (r_State (recovered_record now r)) = true.
Proof. unfold recovered_record. simpl. by case_match. Qed.

(** A recovered entry differs from the old one in its state, failure, time and
    sequence number. *)
Definition recovered_from (now : Time) (e e' : entry) : Prop :=
  if terminal_entry e then e' = e
  else ∃ seq, e' = mkEntry (set_sequence seq (recovered_record now (en_record e)))
                     (en_idempotencyHash e) (en_requestDigest e).

Lemma recover_fold now ids s :
  let s' := foldl (recover_one now) s ids in
  options s' = options s ∧ dom (operations s') = dom (operations s)
  ∧ (∀ k e', operations s' !! k = Some e' → ∃ e, operations s !! k = Some e
       ∧ (e' = e ∨ recovered_from now e e') ∧ (k ∈ ids → terminal_entry e' = true))
  ∧ (inv s → (nextSequence s + Z.of_nat (length ids) < 2 ^ 64)%Z → inv s').
Proof.
  revert s; induction ids as [|id ids IH]; intros s; simpl.
  { split_and!; [done..| |done]. intros k e' Hk. exists e'. split_and!; [done|by left|].
    by intros ?%not_elem_of_nil. }
  destruct (IH (recover_one now s id)) as (Ho & Hd & Hk & Hinv).
  destruct (operations s !! id) as [item|] eqn:Hi.
  2:{ assert (recover_one now s id = s) as Heq by (unfold recover_one; by rewrite Hi).
      rewrite Heq in *. split_and!; [done|done| |intros; apply Hinv; [done|lia]].
      intros k e' He'. destruct (Hk k e' He') as (e & He & ? & Hter). exists e.
      split_and!; [done..|]. intros [->|?]%elem_of_cons; [congruence|auto]. }
  destruct (terminal_entry item) eqn:Ht.
  { assert (recover_one now s id = s) as Heq by (unfold recover_one; by rewrite Hi, Ht).
    rewrite Heq in *. split_and!; [done|done| |intros; apply Hinv; [done|lia]].
    intros k e' He'. destruct (Hk k e' He') as (e & He & Hr & Hter). exists e.
    split_and!; [done..|]. intros [->|?]%elem_of_cons; [|auto].
    assert (item = e) as -> by congruence. unfold recovered_from in Hr. rewrite Ht in Hr.
    by destruct Hr as [->| ->]. }
  destruct (recover_one_advanced now s id item Hi Ht) as (event & Ha & _).
  set (rec := mkEntry _ _ _) in Ha.
  assert (terminal_entry rec = true) as Htr by apply recovered_terminal.
  split_and!.
  - rewrite Ho. apply Ha.
  - rewrite Hd, (cm_operations _ _ _ _ _ Ha), dom_insert_L.
    apply elem_of_dom_2 in Hi. set_solver.
  - intros k e' He'. destruct (Hk k e' He') as (e & He & Hr & Hter).
    rewrite (cm_operations _ _ _ _ _ Ha), lookup_insert in He. case_decide as Heq.
    + subst k. injection He as <-. exists item. unfold recovered_from in Hr. rewrite Htr in Hr.
      assert (e' = rec) as -> by (by destruct Hr).
      split_and!; [done| |done]. right. unfold recovered_from. rewrite Ht. by eexists.
    + exists e. split_and!; [done..|]. intros [->|?]%elem_of_cons; [done|auto].
  - intros Hinv0 Hb. apply Hinv.
    + eapply inv_committed; [exact Hinv0|lia|exact Ha| | |].
      * simpl. by apply (i_keys _ Hinv0).
      * intros k e' Hk' Heq Hne. simpl in *. symmetry. by eapply (i_hash _ Hinv0 id k).
      * rewrite (cm_operations _ _ _ _ _ Ha), map_size_insert, Hi. simpl. apply Hinv0.
    + rewrite (cm_sequence _ _ _ _ _ Ha). rewrite wrap_u64_small; [lia|].
      pose proof (i_sequence _ Hinv0). lia.
Qed.

Lemma foldl_max_id {A} (f : A → Z) l acc :
  (∀ x, x ∈ l → f x ≤ acc)%Z → foldl (λ a x, Z.max a (f x)) acc l = acc.
Proof.
  revert acc; induction l as [|x l IH]; intros acc Hl; simpl; [done|].
  rewrite Z.max_l by (apply Hl; by left). apply IH. intros y Hy. apply Hl. by right.
Qed.

Lemma load_map_lookup (l : list entry) k e :
  NoDup ((λ e, r_ID (en_record e)) <$> l) →
  foldl (λ m item, <[r_ID (en_record item) := item]> m) (∅ : gmap string entry) l !! k = Some e
  ↔ e ∈ l ∧ r_ID (en_record e) = k.
Proof.
  induction l as [|x l IH] using rev_ind; intros Hnd.
  { simpl. rewrite lookup_empty, elem_of_nil. naive_solver. }
  rewrite fmap_app in Hnd. apply NoDup_app in Hnd as (Hnd & Hdis & _).
  rewrite foldl_app. simpl. rewrite lookup_insert, elem_of_app, list_elem_of_singleton.
  case_decide as Heq.
  - split; [intros [= <-]; auto|]. intros [[Hin| ->] He]; [|done].
    exfalso. apply (Hdis k); [rewrite <-He; by apply (list_elem_of_fmap_2 (λ e, r_ID (en_record e)))|].
    rewrite <-Heq. by left.
  - rewrite IH by done. split; [naive_solver|]. intros [[?| ->] ?]; [done|congruence].
Qed.

Lemma lookup_all_elem m ids e : e ∈ lookup_all m ids ↔ ∃ k, k ∈ ids ∧ m !! k = Some e.
Proof. unfold lookup_all. rewrite list_elem_of_omap. naive_solver. Qed.

Lemma lookup_all_ids (m : gmap string entry) ids :
  (∀ k e, m !! k = Some e → r_ID (en_record e) = k) → NoDup ids →
  NoDup ((λ e, r_ID (en_record e)) <$> lookup_all m ids).
Proof.
  intros Hk. induction 1 as [|id ids Hid Hnd IH]; csimpl; [constructor|].
  unfold lookup_all in *. csimpl. destruct (m !! id) as [e|] eqn:He; [|done].
  csimpl. constructor; [|done]. rewrite (Hk _ _ He).
  intros (e' & Heq & (k & Hin & Hm)%lookup_all_elem)%list_elem_of_fmap. apply Hk in Hm. congruence.
Qed.

Lemma load_snapshot_map s :
  inv s →
  foldl (λ m item, <[r_ID (en_record item) := item]> m) ∅ (ps_Operations (snapshot_of s))
  = operations s.
Proof.
  intros Hi. apply map_eq. intros k. apply option_eq. intros e.
  assert (NoDup (sort_Strings (elements (dom (operations s))))) as Hnd
    by (apply NoDup_sort_Strings, NoDup_elements).
  rewrite load_map_lookup by (apply lookup_all_ids; [apply Hi|done]).
  simpl. rewrite lookup_all_elem. split.
  - intros [(k' & _ & Hk') Hid]. by rewrite <-Hid, (i_keys _ Hi _ _ Hk').
  - intros Hk. split; [|by apply (i_keys _ Hi)]. exists k. split; [|done].
    rewrite elem_of_sort_Strings, elem_of_elements. by apply elem_of_dom_2 in Hk.
Qed.

Lemma length_ids s : length (sort_Strings (elements (dom (operations s)))) = size (operations s).
Proof. rewrite sort_Strings_perm. by rewrite <-size_dom. Qed.

(** When a record that a restart has found ended. *)
Definition ended_at (now_recover : Time) (e : entry) : Time :=
  if terminal_entry e then r_UpdatedAt (en_record e) else now_recover.

(** The store a restart finds. *)
Lemma Open_snapshot s now_recover now_prune :
  inv s → TrimSpace (Path (options s)) ≠ "" →
  (nextSequence s + Z.of_nat (size (operations s)) < 2 ^ 64)%Z →
  ∃ s', Open (options s) (Loaded (snapshot_of s)) now_recover now_prune None = Ok s'
    ∧ inv s' ∧ synced s'
    ∧ (∀ k e', operations s' !! k = Some e' →
        terminal_entry e' = true ∧ ∃ e, operations s !! k = Some e ∧ recovered_from now_recover e e')
    ∧ ∀ k e, operations s !! k = Some e → is_Some (operations s' !! k)
        ∨ dropped_at (options s) now_prune (ended_at now_recover e) (operations s').
Proof.
  intros Hi Hpath Hb. unfold Open. apply String.eqb_neq in Hpath. rewrite Hpath.
  simpl loadPersisted. cbn [bind_result].
  rewrite load_snapshot_map by done.
  rewrite (foldl_max_id (λ item, r_Sequence (en_record item))).
  2:{ intros x (k & _ & Hk)%lookup_all_elem. by apply (i_records _ Hi k). }
  rewrite (foldl_max_id e_Sequence).
  2:{ intros x Hx. pose proof (i_events _ Hi) as He. rewrite Forall_forall in He. by apply He. }
  set (s0 := mkStore _ _ _ _ _ _ _ _).
  assert (inv s0) as Hi0 by (by destruct Hi).
  unfold recoverLocked. set (ids := sort_Strings _).
  destruct (recover_fold now_recover ids s0) as (Ho & Hd & Hk & Hinv).
  set (s1 := foldl (recover_one now_recover) s0 ids) in *.
  assert (inv s1) as Hi1 by (apply Hinv; [done|]; subst ids; rewrite length_ids; done).
  assert (∀ k e', operations s1 !! k = Some e' → terminal_entry e' = true
    ∧ ∃ e, operations s !! k = Some e ∧ recovered_from now_recover e e') as Hk1.
  { intros k e' He'. destruct (Hk k e' He') as (e & He & Hr & Hter).
    assert (terminal_entry e' = true) as Ht'.
    { apply Hter. subst ids. rewrite elem_of_sort_Strings, elem_of_elements. by apply elem_of_dom_2 in He. }
    split; [done|]. exists e. split; [done|]. destruct Hr as [->|Hr]; [|done].
    unfold recovered_from. by rewrite Ht'. }
  destruct (pruneLocked now_prune s1) as [s2 changed] eqn:Hp.
  assert (∀ k e, operations s !! k = Some e → is_Some (operations s2 !! k)
      ∨ dropped_at (options s) now_prune (ended_at now_recover e) (operations s2)) as Hkept.
  { intros k e He. assert (is_Some (operations s1 !! k)) as [e1 He1].
    { apply elem_of_dom. rewrite Hd. by apply elem_of_dom_2 in He. }
    destruct (Hk1 k e1 He1) as (_ & e0 & He0 & Hr). assert (e0 = e) as -> by congruence.
    assert (ended_at now_recover e = r_UpdatedAt (en_record e1)) as ->.
    { unfold recovered_from in Hr. unfold ended_at. destruct (terminal_entry e); [by subst|]. by destruct Hr as [seq ->]. }
    destruct (pruneLocked_drops _ _ _ _ k e1 Hp (λ k e' H, proj1 (Hk1 k e' H)) He1) as [->|Hdr]; [left; by eexists|right].
    by rewrite Ho in Hdr. }
  apply pruneLocked_spec in Hp.
  pose proof (inv_pruned _ _ _ Hp Hi1) as Hi2.
  assert (∀ k e', operations s2 !! k = Some e' → operations s1 !! k = Some e') as Hsub
    by (intros k e'; pose proof (pr_subset _ _ _ Hp) as Hs; rewrite map_subseteq_spec in Hs; apply Hs).
  set (recovered := existsb _ ids).
  destruct (recovered || changed) eqn:Hc.
  - eexists. split; [done|]. split_and!; [by destruct Hi2|done| |exact Hkept].
    intros k e' He'. apply Hk1. by apply Hsub.
  - apply orb_false_iff in Hc as [Hrec Hch].
    eexists. split; [done|]. split_and!; [done| |intros k e' He'; apply Hk1; by apply Hsub|exact Hkept].
    assert (s1 = s0) as Hs10.
    { subst s1 recovered. revert Hrec. generalize ids. clear. intros ids.
      induction ids as [|id ids IH]; simpl; [done|]. intros [Hid Hrest]%orb_false_iff.
      assert (recover_one now_recover s0 id = s0) as ->; [|auto].
      unfold recover_one. change (operations s0 !! id) with (operations s !! id).
      destruct (operations s !! id) as [item|]; [|done].
      apply negb_false_iff in Hid. by rewrite Hid. }
    unfold synced. rewrite (pr_disk _ _ _ Hp), Hs10. simpl. f_equal. unfold snapshot_of.
    rewrite (pr_changed _ _ _ Hp Hch), (pr_events _ _ _ Hp), (pr_sequence _ _ _ Hp), Hs10. done.
Qed.

Lemma find_idempotent_unique s k e :
  inv s → operations s !! k = Some e → en_idempotencyHash e ≠ "" →
  find_idempotent (en_idempotencyHash e) (operations s) = Some e.
Proof.
  intros Hi He Hne. destruct (find_idempotent _ _) as [e'|] eqn:Hf.
  - apply find_idempotent_Some in Hf as (k' & Hk' & Heq).
    assert (k = k') as <- by (eapply (i_hash _ Hi); [exact He|exact Hk'|by rewrite Heq|done]). congruence.
  - rewrite find_idempotent_None in Hf. by destruct (Hf k e).
Qed.

(** ** Properties *)

(** C7. The store's invariant.  From a well-formed store every history of
    operations, failed writes included, keeps it so: each record is stored under
    its own identifier, the kept events are strictly ordered, no more than
    [MaxEvents], and none is ahead of the sequence counter, no more than
    [MaxOperations] records are kept, and an idempotency key belongs to one
    record. *)
Theorem store_invariant sha256_hex ops s :
  inv s → (nextSequence s + Z.of_nat (length ops) < 2 ^ 64)%Z → all_fresh sha256_hex s ops →
  inv (foldl (step sha256_hex) s ops).
Proof. apply inv_steps. Qed.

(** Operations are atomic.  An operation that reports an error leaves the
    records, the events and the sequence counter as they were, and the state file
    too unless the write failed after its rename.  And as long as no write fails
    there, the file is, after every operation, the exact image of the memory. *)
Theorem operations_are_atomic sha256_hex s o :
  fresh_op s o →
  (snd (run sha256_hex s o) ≠ None →
     same_state s (step sha256_hex s o)
     ∧ (op_fault o = Some AfterRename ∨ disk (step sha256_hex s o) = disk s))
  ∧ (synced s → op_fault o ≠ Some AfterRename → synced (step sha256_hex s o)).
Proof.
  intros Hf. destruct (run_effect sha256_hex s o Hf) as [He Herr]. split; [done|].
  intros Hs Hne. by eapply synced_effect.
Qed.

(** The state machine of a record.  A terminal record never changes again (at
    most the pruning removes it), and a record that is not terminal is never
    lost, and moves only along the allowed transitions. *)
Theorem record_lifecycle sha256_hex s o id e :
  fresh_op s o → operations s !! id = Some e →
  let s' := step sha256_hex s o in
  if Terminal (r_State (en_record e))
  then operations s' !! id = Some e ∨ operations s' !! id = None
  else ∃ e', operations s' !! id = Some e'
    ∧ (r_State (en_record e') = r_State (en_record e)
       ∨ allowedTransition (r_State (en_record e)) (r_State (en_record e')) = true).
Proof.
  intros Hf Hid s'. destruct (run_effect sha256_hex s o Hf) as [He _].
  pose proof (record_effect _ _ _ id e He Hid) as Hr. unfold terminal_entry in Hr.
  destruct (Terminal _); [done|]. destruct Hr as (e' & He' & [->|Hr]); eauto.
Qed.

(** C12. Crash and restart.  Opening the store again on the file of a store that was
    in sync succeeds, and finds only terminal records: those that had ended are
    kept unchanged, and every operation that was still going is recorded as expired,
    when its time is over or its policy asks for it, or else as failed.  Every record
    is found again but those pruned at once: ended before the retention, or, when the
    store is filled to its limit, not later than any that is found. *)
Theorem restart_recovers s d now_recover now_prune :
  inv s → synced s → disk s = Some d → TrimSpace (Path (options s)) ≠ "" →
  (nextSequence s + Z.of_nat (size (operations s)) < 2 ^ 64)%Z →
  ∃ s', Open (options s) (Loaded d) now_recover now_prune None = Ok s' ∧ inv s' ∧ synced s'
    ∧ (∀ k e', operations s' !! k = Some e' →
      Terminal (r_State (en_record e')) = true
      ∧ ∃ e, operations s !! k = Some e ∧
        if Terminal (r_State (en_record e)) then e' = e
        else r_State (en_record e')
             = (if negb (After (r_ExpiresAt (en_record e)) now_recover)
                   || String.eqb (r_RecoveryPolicy (en_record e)) RecoveryExpire
                then StateExpired else StateFailed))
    ∧ ∀ k e, operations s !! k = Some e → is_Some (operations s' !! k) ∨
      let ended := if Terminal (r_State (en_record e)) then r_UpdatedAt (en_record e) else now_recover in
      (ended < now_prune - Retention (options s))%Z
      ∨ size (operations s') = MaxOperations (options s)
        ∧ ∀ k' e', operations s' !! k' = Some e' → (ended ≤ r_UpdatedAt (en_record e'))%Z.
Proof.
  intros Hi Hs Hd Hpath Hb. unfold synced in Hs. rewrite Hs in Hd. injection Hd as <-.
  destruct (Open_snapshot s now_recover now_prune Hi Hpath Hb) as (s' & Ho & Hi' & Hs' & Hk & Hkept).
  exists s'. split_and!; [done..| |exact Hkept]. intros k e' He'. destruct (Hk k e' He') as (Ht & e & He & Hr).
  split; [done|]. exists e. split; [done|]. unfold recovered_from, terminal_entry in Hr.
  destruct (Terminal (r_State (en_record e))); [done|]. destruct Hr as [seq ->]. done.
Qed.

(** Idempotent creation.  When a request carries the idempotency key of an
    operation the store still has, the same digest gets that operation back and
    no new one is made, and another digest is refused without any change. *)
Theorem create_is_idempotent sha256_hex t newID request s k e :
  inv s → closed s = false → validateCreate request (now_validate t) = Ok tt →
  en_idempotencyHash e = hashIdempotency sha256_hex (q_Owner request) (q_IdempotencyKey request) →
  en_idempotencyHash e ≠ "" →
  operations (fst (pruneLocked (now_create_prune t) s)) !! k = Some e →
  let '(s', out) := Create sha256_hex t None newID request s in
  if String.eqb (en_requestDigest e) (q_RequestDigest request)
  then out = Ok (en_record e, false) ∧ operations s' ⊆ operations s
       ∧ events s' = events s ∧ nextSequence s' = nextSequence s
  else out = Err IdempotencyConflictError ∧ same_state s s'.
Proof.
  intros Hi Hc Hv Hh Hne Hk. unfold Create. rewrite Hv, Hc.
  destruct (pruneLocked _ s) as [s1 changed] eqn:Hp. simpl in Hk.
  apply pruneLocked_spec in Hp. pose proof (inv_pruned _ _ _ Hp Hi) as Hi1.
  rewrite <-Hh. apply String.eqb_neq in Hne as Hne'. rewrite Hne'.
  rewrite (find_idempotent_unique s1 k e) by done.
  destruct (String.eqb (en_requestDigest e) (q_RequestDigest request)); simpl.
  - destruct changed; simpl; split_and!; try done; apply Hp.
  - split; [done|]. apply restore_same_state; [apply Hp|by rewrite (pr_closed _ _ _ Hp)|done].
Qed.

(** ** A concrete store *)

Definition example_options : Options := mkOptions "ops.json" 4 8 1000 900.
Definition example_store : Store := mkStore example_options ∅ [] 0 ∅ 0 false None.
Definition example_request : CreateRequest :=
  mkCreate "provider_auth" "codex" "owner" true 5000 "" ∅ "key" "digest".
Definition example_times (t : Time) : create_times := mkTimes t t t.
Definition example_history : list op :=
  [OpCreate (example_times 100) None "op_1" example_request;
   OpTransition 200 None "op_1" StateRunning 10 ∅ None "started"].
Definition example_after : Store := foldl (step id) example_store example_history.

Lemma inv_example_store : inv example_store.
Proof.
  split; simpl; [|constructor|constructor|lia| | |rewrite map_size_empty; lia|lia];
    intros *; rewrite lookup_empty; done.
Qed.

Lemma fresh_example : all_fresh id example_store example_history.
Proof. split; [vm_compute; reflexivity|split; exact I]. Qed.

Lemma inv_example_after : inv example_after.
Proof. apply (inv_steps id); [apply inv_example_store|vm_compute; reflexivity|apply fresh_example]. Qed.

Lemma store_invariant_witness : inv example_after.
Proof.
  apply (store_invariant id example_history example_store);
    [apply inv_example_store|vm_compute; reflexivity|apply fresh_example].
Defined.

Lemma operations_are_atomic_witness :
  same_state example_after
    (step id example_after (OpTransition 300 (Some BeforeRename) "op_1" StateSucceeded 100 ∅ None "")).
Proof.
  refine (proj1 (proj1 (operations_are_atomic id example_after
    (OpTransition 300 (Some BeforeRename) "op_1" StateSucceeded 100 ∅ None "") I) _)).
  vm_compute. discriminate.
Defined.

Lemma record_lifecycle_witness :
  ∃ e', operations (step id example_after (OpProgress 300 None "op_1" 50 None)) !! "op_1" = Some e'.
Proof.
  destruct (operations example_after !! "op_1") as [e|] eqn:He;
    [|exfalso; assert (Hc : bool_decide (is_Some (operations example_after !! "op_1")) = true)
        by (vm_compute; reflexivity); rewrite He in Hc; discriminate].
  pose proof (record_lifecycle id example_after (OpProgress 300 None "op_1" 50 None) "op_1" e I He) as Hl.
  assert (Ht : (r_State ∘ en_record <$> operations example_after !! "op_1") = Some StateRunning)
    by (vm_compute; reflexivity).
  rewrite He in Ht. injection Ht as Ht. cbv zeta in Hl. unfold compose in Ht. rewrite Ht in Hl.
  destruct Hl as (e' & He' & _). exists e'. exact He'.
Defined.

(** The operation that ran is found again, and has failed. *)
Lemma restart_recovers_witness :
  ∃ s', Open example_options (Loaded (snapshot_of example_after)) 400 400 None = Ok s' ∧ inv s'
    ∧ is_Some (operations s' !! "op_1").
Proof.
  destruct (restart_recovers example_after (snapshot_of example_after) 400 400) as (s' & Ho & Hi & _ & _ & Hkept).
  - apply inv_example_after.
  - vm_compute. reflexivity.
  - vm_compute. reflexivity.
  - vm_compute. discriminate.
  - vm_compute. reflexivity.
  - exists s'. split; [exact Ho|]. split; [exact Hi|].
    assert (Hop : is_Some (operations example_after !! "op_1")) by (vm_compute; eexists; reflexivity).
    destruct Hop as [e He]. destruct (Hkept "op_1" e He) as [H|[H|[H _]]]; [exact H|exfalso..].
    + vm_compute in He. injection He as <-. vm_compute in H. discriminate H.
    + vm_compute in Ho. injection Ho as <-. vm_compute in H. discriminate H.
Defined.

Lemma create_is_idempotent_witness :
  ∃ r, snd (Create id (example_times 300) None "op_2" example_request example_after) = Ok (r, false)
    ∧ r_ID r = "op_1".
Proof.
  destruct (operations (fst (pruneLocked 300 example_after)) !! "op_1") as [e|] eqn:He;
    [|exfalso; assert (Hc : bool_decide (is_Some (operations (fst (pruneLocked 300 example_after)) !! "op_1"))
        = true) by (vm_compute; reflexivity); rewrite He in Hc; discriminate].
  assert (Hf : ((λ e, (en_idempotencyHash e, en_requestDigest e, r_ID (en_record e))) <$>
      operations (fst (pruneLocked 300 example_after)) !! "op_1")
    = Some (hashIdempotency id "owner" "key", "digest", "op_1")) by (vm_compute; reflexivity).
  rewrite He in Hf. injection Hf as Hh Hd Hid.
  pose proof (create_is_idempotent id (example_times 300) "op_2" example_request example_after "op_1" e
    inv_example_after ltac:(vm_compute; reflexivity) ltac:(vm_compute; reflexivity) Hh
    ltac:(rewrite Hh; vm_compute; discriminate) He) as Hi.
  rewrite Hd in Hi. destruct (Create _ _ _ _ _ _) as [s' out]. destruct Hi as [-> _].
  exists (en_record e). split; [reflexivity|exact Hid].
Defined.
