(* ===== verification/State.v ===== *)
(** * Revisioned configuration: compare-and-swap writes and crash recovery

    [internal/state]: the daemon's desired and effective configuration with its
    revision, the two files it is kept in (the configuration and its metadata),
    their last-known-good copies, and the recovery that follows a crash between
    the two renames.

    A file is its text, or [None] when it does not exist.  A temporary file is
    not part of the disk: it is removed on every path.  The functions the package
    is given ([Options.Loader], [Options.Validator]) and the encoder of the
    standard library are the operations of [StateCodec].  [Validator] receives a
    pointer and fills in defaults, so it returns the configuration it leaves
    behind.  The lock keeps other processes out for as long as a manager is open;
    every method runs under the manager's mutex, as one step. *)

From S2P Require Import Prelude GoStd Config Writers.

Local Open Scope Z_scope.

(** ** The difference of two configurations *)

Fixpoint assoc {A} (key : string) (l : list (string * A)) : option A :=
  match l with
  | [] => None
  | (k, v) :: l => if String.eqb key k then Some v else assoc key l
  end.

(** [reflect.DeepEqual] on decoded JSON: objects are maps, so the order of their
    members does not count. *)
Fixpoint DeepEqual (left right : json) : bool :=
  match left, right with
  | JNull, JNull => true
  | JBool a, JBool b => Bool.eqb a b
  | JNum a, JNum b => String.eqb a b
  | JStr a, JStr b => String.eqb a b
  | JArr l, JArr r =>
    (fix go l r :=
       match l, r with
       | [], [] => true
       | x :: l, y :: r => DeepEqual x y && go l r
       | _, _ => false
       end) l r
  | JObj l, JObj r =>
    (length l =? length r)%nat
    && (fix go l :=
          match l with
          | [] => true
          | (k, v) :: l =>
            match assoc k r with Some v' => DeepEqual v v' | None => false end && go l
          end) l
  | _, _ => false
  end.

(** A missing key of a [map[string]any] reads as nil, like a JSON null. *)
Definition at_key (key : string) (l : list (string * json)) : json := default JNull (assoc key l).

(** The recursion is on the value on the left: [subs] holds what the walk does
    under each of its keys. *)
(* src/internal/state/diff.go walkDiff *)
Fixpoint walkDiff (prefix : string) (left right : json) : list string :=
  if DeepEqual left right then []
  else
    match left, right with
    | JObj leftMap, JObj rightMap =>
      let subs := (fix go l :=
        match l with
        | [] => []
        | (k, v) :: l => (k, λ next, walkDiff next v) :: go l
        end) leftMap in
      let keys : gset string := list_to_set (leftMap.*1) ∪ list_to_set (rightMap.*1) in
      sort_Strings (elements keys) ≫= λ key,
        let next := if String.eqb prefix "" then key else prefix +:+ "." +:+ key in
        let rightValue := at_key key rightMap in
        match assoc key subs with
        | Some walk => walk next rightValue
        | None =>
          if DeepEqual JNull rightValue then []
          else [if String.eqb next "" then "$" else next]
        end
    | _, _ => [if String.eqb prefix "" then "$" else prefix]
    end.

(** ** Data *)

Definition metadataSchemaVersion : Z := 1.

(* src/internal/state/types.go FaultStage *)
(* src/internal/state/types.go FaultBeforeBackup *)
Inductive FaultStage :=
| FaultBeforeBackup | FaultBeforeConfigRename | FaultAfterConfigRename
| FaultBeforeMetadataRename | FaultAfterMetadataRename.

(** The file operations of [persist] and [writeAtomicJSON] that can fail. *)
Inductive io_stage :=
| TempFiles | ConfigBackup | MetadataBackup | ConfigRename | MetadataRename | DirectorySync.

Inductive stop_point := Hook (stage : FaultStage) | IO (stage : io_stage).
#[global] Instance FaultStage_eq_dec : EqDecision FaultStage.
Proof. solve_decision. Defined.
#[global] Instance io_stage_eq_dec : EqDecision io_stage.
Proof. solve_decision. Defined.
#[global] Instance stop_point_eq_dec : EqDecision stop_point.
Proof. solve_decision. Defined.

(* src/internal/state/types.go metadata *)
Record metadata := mkMetadata {
  md_SchemaVersion : Z; md_Revision : Z; md_Digest : string; md_EffectiveDigest : string;
  md_RestartRequired : list string; md_UpdatedAt : Time; md_Actor : string;
}.

(* src/internal/state/types.go Snapshot *)
Record Snapshot := mkSnapshot {
  SchemaVersion : Z; Revision : Z; Digest : string; EffectiveDigest : string;
  UpdatedAt : Time; Actor : string; Desired : Config; Effective : Config;
  RestartRequired : list string;
}.

(* src/internal/state/types.go Preview *)
Record Preview := mkPreview {
  p_CurrentRevision : Z; p_NextRevision : Z; p_Digest : string; p_Changed : bool;
  p_ChangedPaths : list string; p_RestartRequired : list string;
}.

(** The files [Path], [Path.state.json], [Path.lkg] and [Path.state.lkg.json]. *)
(* src/internal/state/manager.go:321-323 Manager.metadataPath *)
Record Disk := mkDisk {
  d_config : option string; d_meta : option string;
  d_configBackup : option string; d_metaBackup : option string;
}.

(* src/internal/state/types.go Options *)
Record Options := mkOptions { Path : string; Initial : option Config; o_Actor : string }.

(* src/internal/state/types.go Manager *)
Record Manager := mkManager {
  options : Options; snapshot : Snapshot; closed : bool; disk : Disk;
}.

(* src/internal/state/types.go ConflictError *)
Inductive error :=
| PathRequired | LockFailed | NoConfiguration | LoadFailed | BackupMissing
| ValidatePersisted (reason : string) | Invalid (reason : string)
| InvalidEffective (reason : string) | InvalidBackup (reason : string)
| MarshalFailed | MetadataUnreadable | MetadataWriteFailed (stage : io_stage)
| StateClosed | ConflictError (expected current : Z) | DesiredRequired | EffectiveRequired
| Interrupted (stage : FaultStage) | IOFailed (stage : io_stage).

(** [marshalConfig] and [marshalMetadata] are [json.MarshalIndent] with a final
    newline; [Loader] decodes a configuration file and [unmarshalMetadata] is
    [json.Unmarshal]; [marshalCompact] is [json.Marshal], and [decodeMap] the
    decoding of a text into a [map[string]any]. *)
(* src/internal/state/types.go Loader *)
Class StateCodec := {
  marshalConfig : Config → option string;
  marshalCompact : Config → option string;
  marshalMetadata : metadata → option string;
  unmarshalMetadata : string → option metadata;
  decodeMap : string → option (list (string * json));
  sha256_hex : string → string;
  Loader : string → option Config;
  Validator : Config → result Config string;
}.

(** The metadata file reads back as it was written. *)
Class MetadataLaws `{StateCodec} : Prop := {
  metadata_roundtrip meta text :
    marshalMetadata meta = Some text → unmarshalMetadata text = Some meta;
}.

Definition with_disk (d : Disk) (m : Manager) : Manager :=
  mkManager (options m) (snapshot m) (closed m) d.

(* src/internal/state/persistence.go cloneSnapshot *)
Definition cloneSnapshot (source : Snapshot) : Snapshot :=
  mkSnapshot (SchemaVersion source) (Revision source) (Digest source) (EffectiveDigest source)
    (UpdatedAt source) (Actor source) (Clone (Desired source)) (Clone (Effective source))
    (RestartRequired source).

Section manager.
Context `{StateCodec}.

(* src/internal/state/persistence.go configDigest *)
Definition configDigest (config : Config) : option string :=
  sha256_hex <$> marshalCompact config.

(* src/internal/state/diff.go toMap *)
Definition toMap (value : Config) : option (list (string * json)) :=
  marshalCompact value ≫= decodeMap.

(* src/internal/state/diff.go diffPaths *)
Definition diffPaths (before after : Config) : option (list string) :=
  match toMap before, toMap after with
  | Some l, Some r => Some (sort_Strings (walkDiff "" (JObj l) (JObj r)))
  | _, _ => None
  end.

(** ** Writing the files *)

(** A write that stops leaves the disk as it is at that moment, whether the call
    returns an error there or the process dies. *)
Definition stops_at (stop : option stop_point) (p : stop_point) : bool :=
  bool_decide (stop = Some p).

(* src/internal/state/persistence.go Manager.backupCurrent *)
Definition backupCurrent (stop : option stop_point) (d : Disk) : Disk * option error :=
  let copy_metadata (d : Disk) :=
    match d_meta d with
    | Some text =>
      if stops_at stop (IO MetadataBackup) then (d, Some (IOFailed MetadataBackup))
      else (mkDisk (d_config d) (d_meta d) (d_configBackup d) (Some text), None)
    | None => (d, None)
    end in
  match d_config d with
  | Some text =>
    if stops_at stop (IO ConfigBackup) then (d, Some (IOFailed ConfigBackup))
    else copy_metadata (mkDisk (d_config d) (d_meta d) (Some text) (d_metaBackup d))
  | None => copy_metadata d
  end.

Definition metadata_of (next : Snapshot) : metadata :=
  mkMetadata (SchemaVersion next) (Revision next) (Digest next) (EffectiveDigest next)
    (RestartRequired next) (UpdatedAt next) (Actor next).

(* src/internal/state/persistence.go Manager.persist *)
Definition persist (stop : option stop_point) (next : Snapshot) (d : Disk) : Disk * option error :=
  match marshalConfig (Desired next), marshalMetadata (metadata_of next) with
  | Some configPayload, Some metaPayload =>
    if stops_at stop (IO TempFiles) then (d, Some (IOFailed TempFiles))
    else if stops_at stop (Hook FaultBeforeBackup) then (d, Some (Interrupted FaultBeforeBackup))
    else
      match backupCurrent stop d with
      | (d, Some e) => (d, Some e)
      | (d, None) =>
        if stops_at stop (Hook FaultBeforeConfigRename)
        then (d, Some (Interrupted FaultBeforeConfigRename))
        else if stops_at stop (IO ConfigRename) then (d, Some (IOFailed ConfigRename))
        else
          let d := mkDisk (Some configPayload) (d_meta d) (d_configBackup d) (d_metaBackup d) in
          if stops_at stop (Hook FaultAfterConfigRename)
          then (d, Some (Interrupted FaultAfterConfigRename))
          else if stops_at stop (Hook FaultBeforeMetadataRename)
          then (d, Some (Interrupted FaultBeforeMetadataRename))
          else if stops_at stop (IO MetadataRename) then (d, Some (IOFailed MetadataRename))
          else
            let d := mkDisk (d_config d) (Some metaPayload) (d_configBackup d) (d_metaBackup d) in
            if stops_at stop (Hook FaultAfterMetadataRename)
            then (d, Some (Interrupted FaultAfterMetadataRename))
            else if stops_at stop (IO DirectorySync) then (d, Some (IOFailed DirectorySync))
            else (d, None)
      end
  | _, _ => (d, Some MarshalFailed)
  end.

(** [writeAtomicJSON] of the metadata, as [load] calls it. *)
(* src/internal/state/persistence.go writeAtomicJSON *)
Definition writeMetadata (stop : option stop_point) (meta : metadata) (d : Disk)
    : Disk * option error :=
  match marshalMetadata meta with
  | None => (d, Some MarshalFailed)
  | Some payload =>
    if stops_at stop (IO TempFiles) then (d, Some (MetadataWriteFailed TempFiles))
    else if stops_at stop (IO MetadataRename) then (d, Some (MetadataWriteFailed MetadataRename))
    else
      let d := mkDisk (d_config d) (Some payload) (d_configBackup d) (d_metaBackup d) in
      if stops_at stop (IO DirectorySync) then (d, Some (MetadataWriteFailed DirectorySync))
      else (d, None)
  end.

(** ** Opening *)

(* src/internal/state/manager.go Manager.loadConfig *)
Definition loadConfig (o : Options) (d : Disk) : result Config error :=
  match d_config d with
  | None => match Initial o with None => Err NoConfiguration | Some c => Ok (Clone c) end
  | Some text => match Loader text with Some c => Ok c | None => Err LoadFailed end
  end.

(* src/internal/state/persistence.go readMetadata *)
Definition readMetadata (d : Disk) : result (option metadata) error :=
  match d_meta d with
  | None => Ok None
  | Some text =>
    match unmarshalMetadata text with
    | Some meta => Ok (Some meta)
    | None => Err MetadataUnreadable
    end
  end.

Definition validate (wrap : string → error) (config : Config) : result Config error :=
  map_err wrap (Validator config).

Definition or_error {A} (e : error) (x : option A) : result A error :=
  match x with Some a => Ok a | None => Err e end.

(** The metadata [load] settles on, with the file it leaves. *)
(* src/internal/state/manager.go:60-84 Manager.load *)
Definition settle (o : Options) (stop : option stop_point) (now : Time) (digest : string)
    (meta : option metadata) (d : Disk) : result (metadata * Disk) error :=
  let? '(meta, d) :=
    match meta with
    | None =>
      let meta := mkMetadata metadataSchemaVersion 1 digest digest [] now (o_Actor o) in
      match writeMetadata stop meta d with (d, None) => Ok (meta, d) | (_, Some e) => Err e end
    | Some meta =>
      if String.eqb (md_Digest meta) digest then Ok (meta, d)
      else
        let meta := mkMetadata (md_SchemaVersion meta) (wrap_u64 (md_Revision meta + 1)) digest
          digest [] now "recovery" in
        match writeMetadata stop meta d with (d, None) => Ok (meta, d) | (_, Some e) => Err e end
    end in
  Ok (mkMetadata
        (if (md_SchemaVersion meta =? 0)%Z then metadataSchemaVersion else md_SchemaVersion meta)
        (if (md_Revision meta =? 0)%Z then 1 else md_Revision meta)
        (md_Digest meta) (md_EffectiveDigest meta) (md_RestartRequired meta) (md_UpdatedAt meta)
        (md_Actor meta), d).

(* src/internal/state/manager.go Manager.load *)
Definition load (o : Options) (stop : option stop_point) (now : Time) (d : Disk)
    : result Manager error :=
  let? config := loadConfig o d in
  let? config := validate ValidatePersisted (Clone config) in
  let? digest := or_error MarshalFailed (configDigest config) in
  let? meta := readMetadata d in
  let? '(meta, d) := settle o stop now digest meta d in
  Ok (mkManager o
    (mkSnapshot (md_SchemaVersion meta) (md_Revision meta) digest digest (md_UpdatedAt meta)
      (md_Actor meta) (Clone config) (Clone config) (md_RestartRequired meta)) false d).

(* src/internal/state/manager.go Open *)
Definition Open (o : Options) (lockFree : bool) (stop : option stop_point) (now : Time) (d : Disk)
    : result Manager error :=
  if String.eqb (TrimSpace (Path o)) "" then Err PathRequired
  else
    let o := mkOptions (Path o) (Initial o)
      (if String.eqb (TrimSpace (o_Actor o)) "" then "ya-routerd" else o_Actor o) in
    if negb lockFree then Err LockFailed else load o stop now d.

(** ** Operations *)

(* src/internal/state/manager.go Manager.previewLockedWithoutLock *)
Definition previewLockedWithoutLock (m : Manager) (desired effective : option Config)
    : result Preview error :=
  match desired with
  | None => Err DesiredRequired
  | Some desired =>
    let? desired := validate Invalid (Clone desired) in
    let? effective :=
      match effective with
      | None => Ok (Effective (snapshot m))
      | Some effective => validate InvalidEffective (Clone effective)
      end in
    let? digest := or_error MarshalFailed (configDigest desired) in
    let? changed := or_error MarshalFailed (diffPaths (Desired (snapshot m)) desired) in
    let? restart := or_error MarshalFailed (diffPaths effective desired) in
    Ok (mkPreview (Revision (snapshot m)) (wrap_u64 (Revision (snapshot m) + 1)) digest
      (negb (String.eqb digest (Digest (snapshot m)))) changed restart)
  end.

(* src/internal/state/manager.go Manager.Validate *)
(* src/internal/state/manager.go Manager.previewLocked *)
Definition Validate (m : Manager) (desired effective : option Config) : result Preview error :=
  previewLockedWithoutLock m desired effective.

(* src/internal/state/manager.go Manager.Snapshot *)
Definition currentSnapshot (m : Manager) : Snapshot := cloneSnapshot (snapshot m).

(** The end of every write: the files, then the memory. *)
(* src/internal/state/manager.go:200-204 Manager.Apply *)
Definition commit (stop : option stop_point) (next : Snapshot) (m : Manager)
    : Manager * result Snapshot error :=
  match persist stop next (disk m) with
  | (d, Some e) => (with_disk d m, Err e)
  | (d, None) => (mkManager (options m) next (closed m) d, Ok (cloneSnapshot next))
  end.

Definition or_actor (actor : string) (m : Manager) : string :=
  if String.eqb (TrimSpace actor) "" then o_Actor (options m) else actor.

(** [refuse m e] is an early return of an error. *)
Definition refuse (m : Manager) (e : error) : Manager * result Snapshot error := (m, Err e).

(* src/internal/state/manager.go Manager.Apply *)
Definition Apply (stop : option stop_point) (now : Time) (expected : Z)
    (desired effective : option Config) (actor : string) (dryRun : bool) (m : Manager)
    : Manager * result Snapshot error :=
  if closed m then refuse m StateClosed
  else if negb (expected =? Revision (snapshot m))
  then refuse m (ConflictError expected (Revision (snapshot m)))
  else
    match previewLockedWithoutLock m desired effective, desired with
    | Err e, _ => refuse m e
    | Ok _, None => refuse m DesiredRequired
    | Ok preview, Some desired =>
      if dryRun then
        let candidate := cloneSnapshot (snapshot m) in
        (m, Ok (mkSnapshot (SchemaVersion candidate) (p_NextRevision preview) (p_Digest preview)
          (EffectiveDigest candidate) (UpdatedAt candidate) (Actor candidate) (Clone desired)
          (match effective with Some e => Clone e | None => Effective candidate end)
          (p_RestartRequired preview)))
      else if negb (p_Changed preview) && (match effective with None => true | Some _ => false end)
      then (m, Ok (cloneSnapshot (snapshot m)))
      else
        let effective :=
          match effective with None => Effective (snapshot m) | Some e => Clone e end in
        match configDigest effective with
        | None => refuse m MarshalFailed
        | Some effectiveDigest =>
          commit stop (mkSnapshot metadataSchemaVersion (wrap_u64 (Revision (snapshot m) + 1))
            (p_Digest preview) effectiveDigest now (or_actor actor m) (Clone desired)
            (Clone effective) (p_RestartRequired preview)) m
        end
    end.

(* src/internal/state/persistence.go Manager.loadBackup *)
Definition loadBackup (d : Disk) : result Config error :=
  match d_configBackup d with
  | None => Err BackupMissing
  | Some text => or_error LoadFailed (Loader text)
  end.

(* src/internal/state/manager.go Manager.Rollback *)
Definition Rollback (stop : option stop_point) (now : Time) (expected : Z) (actor : string)
    (m : Manager) : Manager * result Snapshot error :=
  if closed m then refuse m StateClosed
  else if negb (expected =? Revision (snapshot m))
  then refuse m (ConflictError expected (Revision (snapshot m)))
  else
    match
      (let? backup := loadBackup (disk m) in
       let? backup := validate InvalidBackup backup in
       let? digest := or_error MarshalFailed (configDigest backup) in
       Ok (backup, digest))
    with
    | Err e => refuse m e
    | Ok (backup, digest) =>
      let effective := Clone (Effective (snapshot m)) in
      commit stop (mkSnapshot metadataSchemaVersion (wrap_u64 (Revision (snapshot m) + 1)) digest
        (EffectiveDigest (snapshot m)) now (or_actor actor m) (Clone backup) effective
        (default [] (diffPaths effective (Clone backup)))) m
    end.

(** [SetEffective] does not look at [closed]. *)
(* src/internal/state/manager.go Manager.SetEffective *)
Definition SetEffective (stop : option stop_point) (now : Time) (expected : Z)
    (effective : option Config) (actor : string) (m : Manager)
    : Manager * result Snapshot error :=
  if negb (expected =? Revision (snapshot m))
  then refuse m (ConflictError expected (Revision (snapshot m)))
  else
    match effective with
    | None => refuse m EffectiveRequired
    | Some effective =>
      match
        (let? effective := validate Invalid (Clone effective) in
         let? digest := or_error MarshalFailed (configDigest effective) in
         Ok (effective, digest))
      with
      | Err e => refuse m e
      | Ok (effective, digest) =>
        let next := cloneSnapshot (snapshot m) in
        commit stop (mkSnapshot (SchemaVersion next) (wrap_u64 (Revision next + 1)) (Digest next)
          digest now (or_actor actor m) (Desired next) effective
          (default [] (diffPaths effective (Desired next)))) m
      end
    end.

(* src/internal/state/manager.go Manager.Close *)
Definition Close (m : Manager) : Manager := mkManager (options m) (snapshot m) true (disk m).

(** ** Histories *)

Inductive op :=
| OpApply (stop : option stop_point) (now : Time) (expected : Z) (desired effective : option Config)
    (actor : string) (dryRun : bool)
| OpRollback (stop : option stop_point) (now : Time) (expected : Z) (actor : string)
| OpSetEffective (stop : option stop_point) (now : Time) (expected : Z) (effective : option Config)
    (actor : string)
| OpClose.

Definition run (m : Manager) (o : op) : Manager * option (result Snapshot error) :=
  match o with
  | OpApply stop now expected desired effective actor dryRun =>
    let '(m, out) := Apply stop now expected desired effective actor dryRun m in (m, Some out)
  | OpRollback stop now expected actor =>
    let '(m, out) := Rollback stop now expected actor m in (m, Some out)
  | OpSetEffective stop now expected effective actor =>
    let '(m, out) := SetEffective stop now expected effective actor m in (m, Some out)
  | OpClose => (Close m, None)
  end.

Definition step (m : Manager) (o : op) : Manager := fst (run m o).

(** The revision a write is made against. *)
Definition expects (o : op) : option Z :=
  match o with
  | OpApply _ _ expected _ _ _ _ | OpRollback _ _ expected _
  | OpSetEffective _ _ expected _ _ => Some expected
  | OpClose => None
  end.
End manager.

(** ** What a write leaves *)

Ltac split_stops :=
  repeat match goal with
  | |- context [stops_at ?s ?p] => destruct (stops_at s p) eqn:?
  end.

Section facts.
Context `{StateCodec}.

(** The three states of the files after a write: nothing replaced, the
    configuration only, or both. *)
Inductive written (d : Disk) (next : Snapshot) : Disk → option error → Prop :=
| WNothing d' e : d_config d' = d_config d → d_meta d' = d_meta d → written d next d' (Some e)
| WConfig d' e text : marshalConfig (Desired next) = Some text →
    d_config d' = Some text → d_meta d' = d_meta d → written d next d' (Some e)
| WBoth d' err text meta : marshalConfig (Desired next) = Some text →
    marshalMetadata (metadata_of next) = Some meta →
    d_config d' = Some text → d_meta d' = Some meta →
    d_configBackup d' = match d_config d with Some old => Some old | None => d_configBackup d end →
    written d next d' err.

Lemma backupCurrent_spec stop d d' err :
  backupCurrent stop d = (d', err) →
  d_config d' = d_config d ∧ d_meta d' = d_meta d
  ∧ (err = None → d_configBackup d'
       = match d_config d with Some old => Some old | None => d_configBackup d end).
Proof.
  unfold backupCurrent. split_stops; destruct d as [[c|] [t|] cb mb]; simpl;
    intros [= <- <-]; simpl; done.
Qed.

Lemma persist_written stop next d d' err :
  persist stop next d = (d', err) → written d next d' err.
Proof.
  unfold persist. destruct (marshalConfig _) as [text|] eqn:Hc.
  2:{ intros [= <- <-]. by apply WNothing. }
  destruct (marshalMetadata _) as [meta|] eqn:Hm.
  2:{ intros [= <- <-]. by apply WNothing. }
  destruct (backupCurrent stop d) as [d1 err1] eqn:Hb.
  apply backupCurrent_spec in Hb as (Hb1 & Hb2 & Hb3).
  split_stops; destruct err1 as [e|]; intros [= <- <-];
    first [by apply WNothing | by eapply WConfig | eapply WBoth; by auto].
Qed.

Lemma persist_completes next d :
  marshalConfig (Desired next) ≠ None → marshalMetadata (metadata_of next) ≠ None →
  ∃ d', persist None next d = (d', None).
Proof.
  intros Hc Hm. unfold persist. destruct (marshalConfig _); [|done].
  destruct (marshalMetadata _); [|done]. destruct d as [[c|] [t|] cb mb]; simpl; by eexists.
Qed.

(** The three ways an operation ends: refused or failed, answered without a write,
    and committed under the next revision. *)
Inductive outcome (m : Manager) (stop : option stop_point) : Manager → result Snapshot error → Prop :=
| Refused d e : (d = disk m ∨ ∃ next, persist stop next (disk m) = (d, Some e)) →
    outcome m stop (with_disk d m) (Err e)
| Answered s : outcome m stop m (Ok s)
| Committed next d : persist stop next (disk m) = (d, None) →
    Revision next = wrap_u64 (Revision (snapshot m) + 1) →
    outcome m stop (mkManager (options m) next (closed m) d) (Ok (cloneSnapshot next)).

Lemma with_disk_id m : with_disk (disk m) m = m.
Proof. by destruct m. Qed.

Lemma refuse_outcome stop m e : outcome m stop (fst (refuse m e)) (snd (refuse m e)).
Proof. simpl. rewrite <-(with_disk_id m) at 2. apply Refused. by left. Qed.

Lemma commit_outcome stop next m :
  Revision next = wrap_u64 (Revision (snapshot m) + 1) →
  outcome m stop (fst (commit stop next m)) (snd (commit stop next m)).
Proof.
  intros Hr. unfold commit. destruct (persist _ _ _) as [d [e|]] eqn:Hp; simpl.
  - apply Refused. eauto.
  - by apply Committed.
Qed.

Lemma Apply_outcome stop now expected desired effective actor dryRun m :
  let r := Apply stop now expected desired effective actor dryRun m in
  outcome m stop (fst r) (snd r)
  ∧ (snapshot (fst r) ≠ snapshot m → expected = Revision (snapshot m)).
Proof.
  unfold Apply. destruct (closed m); [split; [apply refuse_outcome|done]|].
  destruct (expected =? Revision (snapshot m)) eqn:Hr; simpl negb; cbv iota.
  2:{ split; [apply refuse_outcome|done]. }
  apply Z.eqb_eq in Hr. split; [|done].
  destruct (previewLockedWithoutLock _ _ _) as [preview|e], desired as [desired|];
    try apply refuse_outcome.
  destruct dryRun; [apply Answered|]. case_match; [apply Answered|].
  destruct (configDigest _); [|apply refuse_outcome]. by apply commit_outcome.
Qed.

Lemma Rollback_outcome stop now expected actor m :
  let r := Rollback stop now expected actor m in
  outcome m stop (fst r) (snd r)
  ∧ (snapshot (fst r) ≠ snapshot m → expected = Revision (snapshot m)).
Proof.
  unfold Rollback. destruct (closed m); [split; [apply refuse_outcome|done]|].
  destruct (expected =? Revision (snapshot m)) eqn:Hr; simpl negb; cbv iota.
  2:{ split; [apply refuse_outcome|done]. }
  apply Z.eqb_eq in Hr. split; [|done].
  match goal with |- context [match ?x with Ok _ => _ | Err _ => _ end] =>
    destruct x as [[backup digest]|e] end; [|apply refuse_outcome].
  by apply commit_outcome.
Qed.

Lemma SetEffective_outcome stop now expected effective actor m :
  let r := SetEffective stop now expected effective actor m in
  outcome m stop (fst r) (snd r)
  ∧ (snapshot (fst r) ≠ snapshot m → expected = Revision (snapshot m)).
Proof.
  unfold SetEffective. destruct (expected =? Revision (snapshot m)) eqn:Hr; simpl negb; cbv iota.
  2:{ split; [apply refuse_outcome|done]. }
  apply Z.eqb_eq in Hr. split; [|done].
  destruct effective as [effective|]; [|apply refuse_outcome].
  match goal with |- context [match ?x with Ok _ => _ | Err _ => _ end] =>
    destruct x as [[c digest]|e] end; [|apply refuse_outcome].
  by apply commit_outcome.
Qed.

Lemma outcome_snapshot m stop m' out :
  outcome m stop m' out →
  snapshot m' = snapshot m
  ∨ is_ok out = true ∧ Revision (snapshot m') = wrap_u64 (Revision (snapshot m) + 1).
Proof. destruct 1; simpl; auto. Qed.

Lemma expected_revision m stop m' out expected :
  outcome m stop m' out → (snapshot m' ≠ snapshot m → expected = Revision (snapshot m)) →
  snapshot m' = snapshot m
  ∨ Some expected = Some (Revision (snapshot m))
    ∧ Revision (snapshot m') = wrap_u64 (Revision (snapshot m) + 1).
Proof.
  intros [?|[_ Hw]]%outcome_snapshot He; [by left|]. right. split; [|done]. f_equal. apply He.
  intros Hs. rewrite Hs in Hw. by apply (wrap_u64_succ (Revision (snapshot m))).
Qed.

(** One step: the snapshot stays, or the step expected its revision and the
    revision advances by one. *)
Lemma step_snapshot m o :
  snapshot (step m o) = snapshot m
  ∨ expects o = Some (Revision (snapshot m))
    ∧ Revision (snapshot (step m o)) = wrap_u64 (Revision (snapshot m) + 1).
Proof.
  unfold step. destruct o as [stop now expected desired effective actor dryRun
    |stop now expected actor|stop now expected effective actor|]; simpl.
  - pose proof (Apply_outcome stop now expected desired effective actor dryRun m) as [Ho He].
    destruct (Apply _ _ _ _ _ _ _ _) as [m' out]; by eapply expected_revision.
  - pose proof (Rollback_outcome stop now expected actor m) as [Ho He].
    destruct (Rollback _ _ _ _ _) as [m' out]; by eapply expected_revision.
  - pose proof (SetEffective_outcome stop now expected effective actor m) as [Ho He].
    destruct (SetEffective _ _ _ _ _ _) as [m' out]; by eapply expected_revision.
  - by left.
Qed.
Lemma steps_conflict m r ops :
  Forall (λ o, expects o = Some r) ops → Revision (snapshot m) ≠ r →
  snapshot (foldl step m ops) = snapshot m.
Proof.
  revert m; induction ops as [|o ops IH]; intros m Hall Hr; simpl; [done|].
  apply Forall_cons in Hall as [Ho Hall].
  destruct (step_snapshot m o) as [Hs|[He _]]; [|congruence].
  rewrite IH by (rewrite ?Hs; done). done.
Qed.

(** ** Reading back *)

(** The files name [digest]: the configuration file, or the initial configuration
    when there is none, loads and validates to a configuration of that digest. *)
Definition reads (o : Options) (d : Disk) (digest : string) : Prop :=
  ∃ c v, loadConfig o d = Ok c ∧ Validator (Clone c) = Ok v ∧ configDigest v = Some digest.

(** The text of [c] reads back, through the loader and the validation, as a
    configuration whose digest is [digest]. *)
Definition durable (c : Config) (digest : string) : Prop :=
  ∀ text, marshalConfig c = Some text →
  ∃ c' v, Loader text = Some c' ∧ Validator (Clone c') = Ok v ∧ configDigest v = Some digest.

(** The files hold what the memory holds. *)
Record synced (m : Manager) : Prop := {
  sy_config : reads (options m) (disk m) (Digest (snapshot m));
  sy_meta : ∃ text meta, d_meta (disk m) = Some text ∧ unmarshalMetadata text = Some meta
    ∧ md_Digest meta = Digest (snapshot m) ∧ md_Revision meta = Revision (snapshot m);
  sy_revision : 0 < Revision (snapshot m);
}.

Context `{!MetadataLaws}.


Lemma durable_reads o c d text digest :
  durable c digest → marshalConfig c = Some text → d_config d = Some text → reads o d digest.
Proof.
  intros Hc Ht Hd. destruct (Hc text Ht) as (c' & v & Hl & Hv & Hg).
  exists c', v. split_and!; [|done..]. unfold loadConfig. by rewrite Hd, Hl.
Qed.



Lemma committed_synced m stop next d :
  Revision next = wrap_u64 (Revision (snapshot m) + 1) → 0 ≤ Revision (snapshot m) < 2 ^ 64 - 1 →
  durable (Desired next) (Digest next) → persist stop next (disk m) = (d, None) →
  synced (mkManager (options m) next (closed m) d).
Proof.
  intros Hr Hb Hdur Hp. rewrite wrap_u64_small in Hr by lia.
  apply persist_written in Hp. inversion Hp as [| |d' err' cp mp Hcp Hmp Hd1 Hd2 _]; subst.
  split; simpl.
  - by eapply durable_reads.
  - exists mp, (metadata_of next). split_and!; [done|by apply metadata_roundtrip|done..].
  - lia.
Qed.

(** A write of a valid configuration, with an effective one, that nothing stops. *)
Lemma Apply_succeeds now desired effective v e actor m :
  closed m = false → (∀ c, marshalConfig c ≠ None) → (∀ md, marshalMetadata md ≠ None) →
  (∀ c, toMap c ≠ None) → Validator (Clone desired) = Ok v → Validator (Clone effective) = Ok e →
  (∃ preview, previewLockedWithoutLock m (Some desired) (Some effective) = Ok preview)
  ∧ ∃ m', Apply None now (Revision (snapshot m)) (Some desired) (Some effective) actor false m
      = (m', Ok (cloneSnapshot (snapshot m')))
    ∧ configDigest v = Some (Digest (snapshot m'))
    ∧ Revision (snapshot m') = wrap_u64 (Revision (snapshot m) + 1) ∧ closed m' = false.
Proof.
  intros Hcl Hmc Hmm Hmap Hv He.
  assert (Hd : ∀ c, ∃ d, configDigest c = Some d).
  { intros c. specialize (Hmap c). unfold configDigest, toMap in *.
    destruct (marshalCompact c); [by eexists|done]. }
  assert (Hdiff : ∀ a b, ∃ l, diffPaths a b = Some l).
  { intros a b. pose proof (Hmap a). pose proof (Hmap b). unfold diffPaths.
    destruct (toMap a), (toMap b); try done. by eexists. }
  destruct (Hd v) as [dv Hdv]. destruct (Hdiff (Desired (snapshot m)) v) as [l1 Hl1].
  destruct (Hdiff e v) as [l2 Hl2]. destruct (Hd (Clone effective)) as [de Hde].
  assert (Hpre : previewLockedWithoutLock m (Some desired) (Some effective)
    = Ok (mkPreview (Revision (snapshot m)) (wrap_u64 (Revision (snapshot m) + 1)) dv
            (negb (String.eqb dv (Digest (snapshot m)))) l1 l2)).
  { unfold previewLockedWithoutLock, validate. rewrite Hv. cbn [map_err bind_result].
    rewrite He. cbn [map_err bind_result]. rewrite Hdv. cbn [or_error bind_result].
    rewrite Hl1. cbn [or_error bind_result]. by rewrite Hl2. }
  split; [by eexists|]. unfold Apply. rewrite Hcl, Z.eqb_refl, Hpre. cbn [negb].
  cbn [p_Changed]. rewrite andb_false_r, Hde. unfold commit.
  match goal with |- context [persist None ?n _] => set (next := n) end.
  destruct (persist_completes next (disk m)) as [d Hp]; [apply Hmc|apply Hmm|].
  rewrite Hp. exists (mkManager (options m) next (closed m) d). split; [reflexivity|]. done.
Qed.

(** What the write of an accepted [Apply] is. *)
Lemma Apply_writes stop now expected desired effective actor m m' out :
  Apply stop now expected (Some desired) effective actor false m = (m', out) →
  m' = m ∨ ∃ next v d err,
    persist stop next (disk m) = (d, err) ∧ Revision next = wrap_u64 (Revision (snapshot m) + 1)
    ∧ Desired next = Clone desired ∧ Validator (Clone desired) = Ok v
    ∧ configDigest v = Some (Digest next)
    ∧ match err with
      | None => m' = mkManager (options m) next (closed m) d ∧ out = Ok (cloneSnapshot next)
      | Some e => m' = with_disk d m ∧ out = Err e
      end.
Proof.
  unfold Apply. destruct (closed m) eqn:Hcl; [intros [= <- <-]; by left|].
  destruct (negb _); [intros [= <- <-]; by left|].
  destruct (previewLockedWithoutLock _ _ _) as [preview|e] eqn:Hpre; [|intros [= <- <-]; by left].
  destruct (_ && _); [intros [= <- <-]; by left|].
  destruct (configDigest (match effective with Some _ => _ | None => _ end)) as [ed|];
    [|intros [= <- <-]; by left].
  unfold previewLockedWithoutLock in Hpre.
  apply bind_result_Ok in Hpre as (v & Hv & Hpre). unfold validate in Hv.
  destruct (Validator (Clone desired)) as [v'|] eqn:HV; [|done]. injection Hv as ->.
  apply bind_result_Ok in Hpre as (eff & _ & Hpre).
  apply bind_result_Ok in Hpre as (dig & Hdig & Hpre).
  destruct (configDigest v) as [dig'|] eqn:Hg; [|done]. injection Hdig as ->.
  apply bind_result_Ok in Hpre as (ch & _ & Hpre). apply bind_result_Ok in Hpre as (rs & _ & Hpre).
  injection Hpre as <-. intros Hc. right. unfold commit in Hc.
  cbn [p_Digest p_RestartRequired] in Hc.
  match type of Hc with context [persist stop ?n (disk m)] => exists n end.
  destruct (persist _ _ _) as [d err] eqn:Hp. exists v, d, err.
  split_and!; try reflexivity; [exact Hg|].
  rewrite <-Hcl. destruct err; injection Hc as <- <-; split; reflexivity.
Qed.

(** ** Properties *)

(** C10. Compare-and-swap.  Of any sequence of writes made against the same
    revision, whatever they are and wherever they fail, at most one takes effect:
    either none does, or one advances the revision by one and every later one
    leaves the snapshot it published alone.  No update is lost. *)
Theorem one_writer_per_revision m r ops :
  Forall (λ o, expects o = Some r) ops →
  snapshot (foldl step m ops) = snapshot m
  ∨ ∃ pre o post, ops = pre ++ o :: post ∧ r = Revision (snapshot m)
    ∧ snapshot (foldl step m pre) = snapshot m
    ∧ Revision (snapshot (foldl step m ops)) = wrap_u64 (r + 1)
    ∧ snapshot (foldl step m ops) = snapshot (foldl step m (pre ++ [o])).
Proof.
  revert m; induction ops as [|o ops IH]; intros m Hall; [by left|].
  apply Forall_cons in Hall as [Ho Hall]. simpl.
  destruct (step_snapshot m o) as [Hs|[He Hw]].
  - destruct (IH (step m o) Hall) as [Heq|(pre & o' & post & -> & Hr & Hpre & Hrev & Hpost)].
    + left. congruence.
    + right. exists (o :: pre), o', post. rewrite Hs in *. split_and!; done.
  - right. exists [], o, ops. rewrite Ho in He. injection He as ->.
    assert (snapshot (foldl step (step m o) ops) = snapshot (step m o)) as ->.
    { apply (steps_conflict _ (Revision (snapshot m))); [done|]. rewrite Hw. apply wrap_u64_succ. }
    split_and!; done.
Qed.


(** Rollback undoes the last write.  After an [Apply] that took effect, a
    rollback against the revision it published succeeds and publishes, under the
    next revision, a configuration with the digest of the one that was replaced,
    and the files agree with it. *)
Theorem rollback_restores now expected desired effective actor m m1 s1 text c now2 actor2 :
  (∀ md, marshalMetadata md ≠ None) → (∀ c, marshalConfig c ≠ None) →
  synced m → Revision (snapshot m) < 2 ^ 64 - 2 →
  d_config (disk m) = Some text → Loader text = Some c → Clone c = c →
  (∀ v digest, Validator c = Ok v → configDigest v = Some digest → durable (Clone v) digest) →
  Apply None now expected (Some desired) effective actor false m = (m1, Ok s1) →
  snapshot m1 ≠ snapshot m → closed m = false →
  ∃ m2 s2, Rollback None now2 (Revision (snapshot m1)) actor2 m1 = (m2, Ok s2)
    ∧ Digest (snapshot m2) = Digest (snapshot m)
    ∧ Revision (snapshot m2) = Revision (snapshot m) + 2
    ∧ Effective (snapshot m2) = Clone (Effective (snapshot m1))
    ∧ synced m2.
Proof.
  intros Hmar Hmc Hs Hb Htext Hc Hclone Hdur Ha Hne Hcl. pose proof (sy_revision _ Hs) as Hpos.
  destruct (Apply_writes _ _ _ _ _ _ _ _ _ Ha)
    as [->|(next & v & d & err & Hp & Hrev & Hdes & Hv & Hg & Hm)]; [done|].
  destruct err as [e|]; [by destruct Hm|]. destruct Hm as [-> _]. simpl.
  pose proof (persist_written _ _ _ _ _ Hp) as Hw.
  inversion Hw as [| |d' err' cp mp Hcp Hmp Hd1 Hd2 Hback]; subst.
  rewrite Htext in Hback. destruct (sy_config _ Hs) as (c0 & v0 & Hl0 & Hv0 & Hg0).
  unfold loadConfig in Hl0. rewrite Htext, Hc in Hl0. injection Hl0 as <-. rewrite Hclone in Hv0.
  rewrite wrap_u64_small in Hrev by lia.
  unfold Rollback. simpl. rewrite Hcl, Z.eqb_refl. cbn [negb].
  unfold loadBackup. rewrite Hback, Hc. cbn [or_error bind_result]. unfold validate.
  rewrite Hv0. cbn [map_err bind_result]. rewrite Hg0. cbn [or_error bind_result].
  unfold commit. cbn [disk options closed snapshot].
  match goal with |- context [persist None ?n d] => set (back := n) end.
  destruct (persist_completes back d) as [d2 Hp2]; [apply Hmc|apply Hmar|].
  rewrite Hp2. eexists _, _. split; [reflexivity|]. simpl snapshot.
  split; [done|]. split; [subst back; simpl; rewrite Hrev, wrap_u64_small; lia|].
  split; [done|].
  assert (synced (mkManager (options (mkManager (options m) next (closed m) d)) back
    (closed (mkManager (options m) next (closed m) d)) d2)) as Hsync; [|by rewrite <-Hcl].
  eapply committed_synced; simpl; [done|lia|by apply Hdur|exact Hp2].
Qed.
End facts.

(** ** A concrete manager

    Configurations that differ in their port, written in unary. *)

Fixpoint bits_of (p : positive) : string :=
  match p with
  | xH => ""
  | xO p => String "0" (bits_of p)
  | xI p => String "1" (bits_of p)
  end.

Fixpoint of_bits (s : string) : positive :=
  match s with
  | "" => xH
  | String c s => if Ascii.eqb c "0" then xO (of_bits s) else xI (of_bits s)
  end.

Lemma of_bits_of p : of_bits (bits_of p) = p.
Proof. induction p as [p IH|p IH|]; simpl; congruence. Qed.

Fixpoint unary (n : nat) : string := match n with O => "" | S n => String "a" (unary n) end.

Definition on_port (port : Z) : Config :=
  mkConfig port 1 false (mkLogging "" 0 0) (mkRouting "" "" false ∅ ∅ ∅ false)
    (mkProviders
      (mkCopilotProvider false (mkCopilotAuth "" "" None "" None 0 0) None 0 None)
      (mkCodexProvider false (mkCodexAuth "" "" None "" None "" None 0 "") None 0 None "")
      (mkKiloProvider false false "" None "" None "" None))
    (mkTimeouts 0 0 0 0 0 0 0 0 0 0).

Definition metadata_tuple (md : metadata) : Z * Z * string * string * list string * Z * string :=
  (md_SchemaVersion md, md_Revision md, md_Digest md, md_EffectiveDigest md,
   md_RestartRequired md, md_UpdatedAt md, md_Actor md).

(** Its validator fills in the port 7 when there is none. *)
#[global] Instance port_codec : StateCodec := {
  marshalConfig c := Some (unary (Z.to_nat (Port c)));
  marshalCompact c := Some (unary (Z.to_nat (Port c)));
  marshalMetadata md := Some (bits_of (encode (metadata_tuple md)));
  unmarshalMetadata text :=
    (λ '(v, r, d, e, p, u, a), mkMetadata v r d e p u a) <$> decode (of_bits text);
  decodeMap text := Some [("port", JNum text)];
  sha256_hex text := text;
  Loader text := Some (on_port (Z.of_nat (String.length text)));
  Validator c := Ok (if (Port c =? 0)%Z then on_port 7 else on_port (Port c));
}.

#[global] Instance port_codec_laws : MetadataLaws.
Proof.
  split. intros md text [= <-]. simpl. rewrite of_bits_of, decode_encode. by destruct md.
Qed.

Definition example_meta : metadata := mkMetadata 1 3 "aa" "aa" [] 100 "ya".
Definition example_disk : Disk :=
  mkDisk (Some "aa") (marshalMetadata example_meta) None None.
Definition example_manager : Manager :=
  mkManager (mkOptions "config.json" None "ya-routerd")
    (mkSnapshot 1 3 "aa" "aa" 100 "ya" (on_port 2) (on_port 2) []) false example_disk.

Lemma synced_example : synced example_manager.
Proof.
  split; [|exists (bits_of (encode (metadata_tuple example_meta))), example_meta; split; [reflexivity|]|reflexivity].
  - exists (on_port 2), (on_port 2). split; [reflexivity|split; reflexivity].
  - split; [apply metadata_roundtrip; reflexivity|split; reflexivity].
Qed.

Lemma durable_port n : (0 < n)%nat → durable (on_port (Z.of_nat n)) (unary n).
Proof.
  intros Hn text Ht. simpl in Ht. rewrite Nat2Z.id in Ht. injection Ht as <-.
  exists (on_port (Z.of_nat n)), (on_port (Z.of_nat n)).
  assert (String.length (unary n) = n) as Hlen by (clear; induction n; simpl; congruence).
  split; [by cbn [Loader port_codec]; rewrite Hlen|]. split.
  - cbn [Validator port_codec]. change (Port (Clone (on_port (Z.of_nat n)))) with (Z.of_nat n).
    by rewrite (proj2 (Z.eqb_neq (Z.of_nat n) 0)) by lia.
  - cbn. by rewrite Nat2Z.id.
Qed.

Lemma one_writer_per_revision_witness :
  Revision (snapshot (foldl step example_manager
    [OpApply None 200 3 (Some (on_port 5)) None "a" false;
     OpApply None 300 3 (Some (on_port 6)) None "b" false])) = 4
  ∧ (snapshot (foldl step example_manager
       [OpApply None 200 3 (Some (on_port 5)) None "a" false;
        OpApply None 300 3 (Some (on_port 6)) None "b" false]) = snapshot example_manager
     ∨ 3 = Revision (snapshot example_manager)).
Proof.
  split; [vm_compute; reflexivity|].
  destruct (one_writer_per_revision example_manager 3
    [OpApply None 200 3 (Some (on_port 5)) None "a" false;
     OpApply None 300 3 (Some (on_port 6)) None "b" false])
    as [Heq|(pre & o & post & _ & Hr & _)].
  - repeat constructor.
  - left. exact Heq.
  - right. exact Hr.
Defined.



Definition example_applied : Manager :=
  fst (Apply None 200 3 (Some (on_port 5)) None "a" false example_manager).

Lemma rollback_restores_witness :
  ∃ m2 s2, Rollback None 300 4 "b" example_applied = (m2, Ok s2)
    ∧ Digest (snapshot m2) = "aa" ∧ Revision (snapshot m2) = 5.
Proof.
  destruct (rollback_restores 200 3 (on_port 5) None "a" example_manager example_applied
    (cloneSnapshot (snapshot example_applied)) "aa" (on_port 2) 300 "b")
    as (m2 & s2 & Hr & Hd & Hv & _).
  - discriminate.
  - discriminate.
  - exact synced_example.
  - reflexivity.
  - reflexivity.
  - reflexivity.
  - reflexivity.
  - intros v digest [= <-] [= <-]. exact (durable_port 2 ltac:(lia)).
  - vm_compute. reflexivity.
  - vm_compute. discriminate.
  - reflexivity.
  - exists m2, s2. split; [exact Hr|]. split; [exact Hd|exact Hv].
Defined.

(** ** Behaviours to know about *)

(** A closed manager, whose lock another process may hold, still writes through
    [SetEffective]. *)
Lemma closed_manager_still_writes :
  let m := Close example_manager in
  let '(m', out) := SetEffective None 200 3 (Some (on_port 5)) "a" m in
  is_ok out = true ∧ disk m' ≠ disk m
  ∧ snd (Apply None 200 3 (Some (on_port 5)) None "a" false m) = Err StateClosed.
Proof. vm_compute. split_and!; [done|discriminate|done]. Qed.

(** A write that failed after its first rename was refused to its caller, yet its
    configuration becomes the last known good one, the target of a rollback. *)
Lemma failed_write_becomes_last_known_good :
  let '(m1, out1) := Apply (Some (Hook FaultAfterConfigRename)) 200 3 (Some (on_port 5)) None "a"
    false example_manager in
  let '(m2, out2) := Apply None 300 3 (Some (on_port 6)) None "a" false m1 in
  let '(m3, out3) := Rollback None 400 4 "a" m2 in
  is_ok out1 = false ∧ snapshot m1 = snapshot example_manager
  ∧ is_ok out2 = true ∧ is_ok out3 = true ∧ Port (Desired (snapshot m3)) = 5.
Proof. vm_compute. done. Qed.

(** After a restart the desired configuration is in effect, and the paths that
    asked for the restart are still reported. *)
Lemma restart_still_required :
  let m := fst (Apply None 200 3 (Some (on_port 5)) None "a" false example_manager) in
  match load (options m) None 300 (disk m) with
  | Ok m2 => Effective (snapshot m2) = Desired (snapshot m2) ∧ RestartRequired (snapshot m2) = ["port"]
  | Err _ => False
  end.
Proof. vm_compute. done. Qed.

(** [Apply] validates a copy, and records the digest of that copy after the
    validator has filled in its defaults; the configuration it publishes and
    writes is the one without them. *)
Lemma applied_digest_is_of_the_defaults :
  let m := fst (Apply None 200 3 (Some (on_port 0)) None "a" false example_manager) in
  Digest (snapshot m) = "aaaaaaa" ∧ configDigest (Desired (snapshot m)) = Some "".
Proof. vm_compute. done. Qed.
