(* ===== verification/Runtime.v ===== *)
(** * The runtime: published snapshots, leases and retirement

    [internal/runtime]: the manager publishes immutable snapshots (a configuration
    and a frozen provider registry); a request holds a lease on one snapshot for
    as long as it runs; a replaced snapshot is retired, and its [drained] channel
    is closed when the last lease on it is released.  Providers are shut down only
    after that.

    The goroutines are interleaved: [step] is the effect of one of them between
    two points where another may run, that is one access to the atomic pointer,
    one critical section of a snapshot's mutex, or the closing of a [drained]
    channel, and a history is any sequence of such steps.  A snapshot is named by
    its address, the number of snapshots allocated before it. *)

From S2P Require Import Prelude GoStd Provider Config Cooldown Routing.

Local Open Scope Z_scope.
Notation ptr := nat (only parsing).

(** ** Snapshots *)

(* src/internal/runtime/snapshot.go Snapshot *)
Record Snapshot := mkSnapshot {
  generation : Z;
  config : Config;
  providers : Registry.t;
  active : Z;
  retired : bool;
  drained : bool;
}.

(** The configuration is copied and the registry frozen, so that what a lease
    sees never changes. *)
(* src/internal/runtime/snapshot.go newSnapshotWithRegistries *)
Definition newSnapshotWithRegistries (generation : Z) (config : Config)
    (providers : list (option Provider)) : Snapshot :=
  mkSnapshot generation (Clone config) (Registry.Freeze (Registry.NewRegistry providers))
    0 false false.

(** The router of a snapshot: its own registry and configuration, and the
    cooldown and preferred-target registries that outlive it. *)
(* src/internal/runtime/snapshot.go newSnapshotWithRegistries *)
(* src/internal/runtime/snapshot.go Snapshot.Router *)
Definition router {Bytes} (snapshot : Snapshot) (cooldowns : CooldownRegistry Bytes)
    (preferred : PreferredTargetRegistry) : Router Bytes :=
  SetGeneration (generation snapshot)
    (NewRouterWithRegistries (providers snapshot) (cfg_Routing (config snapshot))
       (Some cooldowns) (Some preferred)).

(** [active] counts goroutines that hold a lease, so it cannot overflow an [int]. *)
(* src/internal/runtime/snapshot.go Snapshot.tryAcquire *)
Definition tryAcquire (s : Snapshot) : option Snapshot :=
  if retired s then None
  else Some (mkSnapshot (generation s) (config s) (providers s) (active s + 1)
               (retired s) (drained s)).

(** The critical section of [release], with its [shouldDrain]. *)
(* src/internal/runtime/snapshot.go Snapshot.release *)
Definition release (s : Snapshot) : Snapshot * bool :=
  let active' := if 0 <? active s then active s - 1 else active s in
  (mkSnapshot (generation s) (config s) (providers s) active' (retired s) (drained s),
   retired s && (active' =? 0)).

(* src/internal/runtime/snapshot.go Snapshot.retire *)
Definition retire (s : Snapshot) : Snapshot * bool :=
  (mkSnapshot (generation s) (config s) (providers s) (active s) true (drained s), active s =? 0).

(** [drainOnce.Do(close(drained))]. *)
(* src/internal/runtime/snapshot.go:115-125 Snapshot.release *)
Definition close_drained (s : Snapshot) : Snapshot :=
  mkSnapshot (generation s) (config s) (providers s) (active s) (retired s) true.

(* src/internal/runtime/snapshot.go Snapshot.isDrained *)
Definition isDrained (s : Snapshot) : bool := drained s.

(** ** The manager *)

(** Who holds the manager's mutex: nobody, or a goroutine that still has to close
    the [drained] channel of [to_close], retire [todo], and, when it publishes,
    return its publication with the snapshots that were live before it. *)
Inductive writer :=
| Unlocked
| Locked (to_close : option ptr) (todo : list ptr) (publication : option (Z * list ptr)).

(* src/internal/runtime/manager.go retirement *)
Record retirement := mkRetirement { r_generation : Z; r_snapshots : list ptr }.

(** [acquiring] holds the pointer each goroutine inside [Acquire] has loaded,
    [leases] the snapshot of every lease that is not released, [draining] the
    snapshots a releaser is about to mark as drained. *)
(* src/internal/runtime/manager.go Manager *)
Record Manager := mkManager {
  current : option ptr;
  closed : bool;
  lastGeneration : Z;
  live : gset ptr;
  heap : gmap ptr Snapshot;
  nextPtr : ptr;
  mu : writer;
  acquiring : gmap nat ptr;
  leases : gmap nat ptr;
  draining : gset ptr;
  publications : list retirement;
}.

Inductive error :=
| ErrManagerClosed | ConfigRequired | NilProvider | IDRequired | DuplicateProvider (id : string).

(* src/internal/runtime/manager.go validateProviders *)
Definition validateProviders (l : list (option Provider)) : result unit error :=
  scan_unique
    (λ p, match p with
          | None => Some NilProvider
          | Some p => if String.eqb (p_ID p) "" then Some IDRequired else None
          end)
    (λ p, from_option p_ID "" p) (λ p, DuplicateProvider (from_option p_ID "" p)) (λ _, None) ∅ l.

(** *** Updates *)

Definition set_heap (h : gmap ptr Snapshot) (m : Manager) : Manager :=
  mkManager (current m) (closed m) (lastGeneration m) (live m) h (nextPtr m) (mu m)
    (acquiring m) (leases m) (draining m) (publications m).
Definition set_mu (w : writer) (m : Manager) : Manager :=
  mkManager (current m) (closed m) (lastGeneration m) (live m) (heap m) (nextPtr m) w
    (acquiring m) (leases m) (draining m) (publications m).
Definition set_acquiring (a : gmap nat ptr) (m : Manager) : Manager :=
  mkManager (current m) (closed m) (lastGeneration m) (live m) (heap m) (nextPtr m) (mu m)
    a (leases m) (draining m) (publications m).
Definition set_leases (l : gmap nat ptr) (m : Manager) : Manager :=
  mkManager (current m) (closed m) (lastGeneration m) (live m) (heap m) (nextPtr m) (mu m)
    (acquiring m) l (draining m) (publications m).
Definition set_draining (d : gset ptr) (m : Manager) : Manager :=
  mkManager (current m) (closed m) (lastGeneration m) (live m) (heap m) (nextPtr m) (mu m)
    (acquiring m) (leases m) d (publications m).

(** ** Steps *)

Inductive label :=
| LLoad (t : nat)        (** [Acquire] of goroutine [t] loads the pointer *)
| LTry (t : nat)         (** and tries the snapshot it loaded *)
| LRelease (t : nat)     (** the critical section of [t]'s [Lease.Release] *)
| LDrain (p : ptr)       (** what follows it: the closing of [drained] *)
| LPublish (config : option Config) (providers : list (option Provider))
| LPublishProviders (providers : list (option Provider))
| LRetire                (** the writer retires the next snapshot of its list *)
| LCloseDrained          (** and closes its [drained] channel *)
| LFinish                (** the writer unlocks and returns *)
| LClose                 (** [Close] takes the mutex and clears the pointer *)
| LTrack (p : ptr).      (** [track]'s goroutine forgets a drained snapshot *)

(** [Acquire] ends with an error when the pointer is nil. *)
(* src/internal/runtime/manager.go Manager.Acquire *)
Definition load_current (t : nat) (m : Manager) : option Manager :=
  match acquiring m !! t, leases m !! t, current m with
  | None, None, Some p => Some (set_acquiring (<[t := p]> (acquiring m)) m)
  | None, None, None => Some m
  | _, _, _ => None
  end.

(** A snapshot that was retired in between sends [Acquire] round its loop. *)
(* src/internal/runtime/manager.go Manager.Acquire *)
Definition try_loaded (t : nat) (m : Manager) : option Manager :=
  p ← acquiring m !! t;
  s ← heap m !! p;
  Some (match tryAcquire s with
        | None => set_acquiring (delete t (acquiring m)) m
        | Some s' =>
          set_leases (<[t := p]> (leases m))
            (set_acquiring (delete t (acquiring m)) (set_heap (<[p := s']> (heap m)) m))
        end).

(** [once] makes a second [Release] of the same lease do nothing. *)
(* src/internal/runtime/snapshot.go Lease.Release *)
Definition release_lease (t : nat) (m : Manager) : option Manager :=
  match leases m !! t with
  | None => Some m
  | Some p =>
    s ← heap m !! p;
    let '(s', shouldDrain) := release s in
    let m := set_leases (delete t (leases m)) (set_heap (<[p := s']> (heap m)) m) in
    Some (if shouldDrain then set_draining ({[p]} ∪ draining m) m else m)
  end.

(* src/internal/runtime/snapshot.go:115-125 Snapshot.release *)
Definition drain (p : ptr) (m : Manager) : option Manager :=
  if decide (p ∈ draining m) then
    s ← heap m !! p;
    Some (set_draining (draining m ∖ {[p]}) (set_heap (<[p := close_drained s]> (heap m)) m))
  else None.

(** The new snapshot is in the live set and current before the old one is
    retired. *)
(* src/internal/runtime/manager.go Manager.publishLocked *)
Definition publishLocked (config' : option Config) (l : list (option Provider)) (m : Manager)
    : result Manager error :=
  match config' with
  | None => Err ConfigRequired
  | Some config' =>
    let? _ := validateProviders l in
    let generation' := wrap_u64 (lastGeneration m + 1) in
    let p := nextPtr m in
    Ok (mkManager (Some p) (closed m) generation' ({[p]} ∪ live m)
          (<[p := newSnapshotWithRegistries generation' config' l]> (heap m)) (S p)
          (Locked None (match current m with Some old => [old] | None => [] end)
             (Some (generation', elements (live m))))
          (acquiring m) (leases m) (draining m) (publications m))
  end.

(* src/internal/runtime/manager.go Manager.Publish *)
Definition Publish (config' : option Config) (l : list (option Provider)) (m : Manager)
    : result Manager error :=
  if closed m then Err ErrManagerClosed else publishLocked config' l m.

(* src/internal/runtime/manager.go Manager.PublishProviders *)
Definition PublishProviders (l : list (option Provider)) (m : Manager) : result Manager error :=
  if closed m then Err ErrManagerClosed
  else
    match current m ≫= λ p, heap m !! p with
    | None => Err ErrManagerClosed
    | Some s => publishLocked (Some (config s)) l m
    end.

(* src/internal/runtime/manager.go newRetirement *)
Definition newRetirement (h : gmap ptr Snapshot) (generation' : Z) (prior : list ptr) : retirement :=
  mkRetirement generation' (filter (λ p, isDrained <$> h !! p ≠ Some true) prior).

(** [Wait] returns nil once every snapshot of the retirement is drained. *)
(* src/internal/runtime/manager.go retirement.Pending *)
Definition Pending (m : Manager) (r : retirement) : nat :=
  length (filter (λ p, isDrained <$> heap m !! p ≠ Some true) (r_snapshots r)).

Definition retire_next (m : Manager) : option Manager :=
  match mu m with
  | Locked None (p :: todo) publication =>
    s ← heap m !! p;
    let '(s', shouldDrain) := retire s in
    Some (set_mu (Locked (if shouldDrain then Some p else None) todo publication)
            (set_heap (<[p := s']> (heap m)) m))
  | _ => None
  end.

Definition writer_drain (m : Manager) : option Manager :=
  match mu m with
  | Locked (Some p) todo publication =>
    s ← heap m !! p;
    Some (set_mu (Locked None todo publication)
            (set_heap (<[p := close_drained s]> (heap m)) m))
  | _ => None
  end.

Definition finish (m : Manager) : option Manager :=
  match mu m with
  | Locked None [] publication =>
    Some (mkManager (current m) (closed m) (lastGeneration m) (live m) (heap m) (nextPtr m) Unlocked
            (acquiring m) (leases m) (draining m)
            (match publication with
             | Some (g, prior) => publications m ++ [newRetirement (heap m) g prior]
             | None => publications m
             end))
  | _ => None
  end.

(* src/internal/runtime/manager.go Manager.Close *)
Definition close_manager (m : Manager) : Manager :=
  if closed m then m
  else
    mkManager None true (lastGeneration m) (live m) (heap m) (nextPtr m)
      (Locked None (elements (live m)) None) (acquiring m) (leases m) (draining m) (publications m).

(* src/internal/runtime/manager.go Manager.track *)
Definition track (p : ptr) (m : Manager) : option Manager :=
  s ← heap m !! p;
  if isDrained s then
    Some (mkManager (current m) (closed m) (lastGeneration m) (live m ∖ {[p]}) (heap m) (nextPtr m)
            (mu m) (acquiring m) (leases m) (draining m) (publications m))
  else None.

Definition unlocked (m : Manager) : bool := match mu m with Unlocked => true | _ => false end.

(** [None]: the step is not enabled. *)
Definition step (m : Manager) (l : label) : option Manager :=
  match l with
  | LLoad t => load_current t m
  | LTry t => try_loaded t m
  | LRelease t => release_lease t m
  | LDrain p => drain p m
  | LPublish c l =>
    if unlocked m then Some (match Publish c l m with Ok m' => m' | Err _ => m end) else None
  | LPublishProviders l =>
    if unlocked m then Some (match PublishProviders l m with Ok m' => m' | Err _ => m end) else None
  | LRetire => retire_next m
  | LCloseDrained => writer_drain m
  | LFinish => finish m
  | LClose => if unlocked m then Some (close_manager m) else None
  | LTrack p => if unlocked m then track p m else None
  end.

Fixpoint steps (m : Manager) (l : list label) : option Manager :=
  match l with [] => Some m | x :: l => step m x ≫= λ m', steps m' l end.

(* src/internal/runtime/manager.go NewManager *)
Definition NewManager (config' : option Config) (l : list (option Provider)) : result Manager error :=
  match config' with
  | None => Err ConfigRequired
  | Some config' =>
    let? _ := validateProviders l in
    Ok (mkManager (Some 0%nat) false 1 {[0%nat]}
          {[0%nat := newSnapshotWithRegistries 1 config' l]} 1%nat Unlocked ∅ ∅ ∅ [])
  end.

(** ** Invariant *)

(** The leases held on a snapshot. *)
Definition held (p : ptr) (l : gmap nat ptr) : nat := size (filter (λ kv, kv.2 = p) l).

Definition to_close (w : writer) : option ptr :=
  match w with Locked c _ _ => c | Unlocked => None end.
Definition todo (w : writer) : list ptr :=
  match w with Locked _ t _ => t | Unlocked => [] end.
Definition publishing (w : writer) : option (Z * list ptr) :=
  match w with Locked _ _ p => p | Unlocked => None end.

(** What holds of every snapshot: [active] counts its leases; it is drained only
    when it is retired and unused; when it is, somebody is about to mark it; it
    stays in service as long as it is current or waits to be retired. *)
Record sound (m : Manager) (p : ptr) (s : Snapshot) : Prop := {
  so_active : active s = Z.of_nat (held p (leases m));
  so_drained : drained s = true → retired s = true ∧ active s = 0;
  so_wakeup : retired s = true → active s = 0 →
    drained s = true ∨ p ∈ draining m ∨ to_close (mu m) = Some p;
  so_serving : retired s = false → current m = Some p ∨ p ∈ todo (mu m);
  so_live : drained s = false → p ∈ live m;
  so_generation : generation s = wrap_u64 (Z.of_nat p + 1);
  so_ptr : (p < nextPtr m)%nat;
  so_frozen : Registry.frozen (providers s) = true;
}.

Definition finished (m : Manager) (p : ptr) : Prop :=
  ∃ s, heap m !! p = Some s ∧ retired s = true ∧ active s = 0.

Record inv (m : Manager) : Prop := {
  iv_sound : ∀ p s, heap m !! p = Some s → sound m p s;
  iv_leases : ∀ t p, leases m !! t = Some p → is_Some (heap m !! p);
  iv_acquiring : ∀ t p, acquiring m !! t = Some p → is_Some (heap m !! p);
  iv_exclusive : ∀ t, is_Some (acquiring m !! t) → leases m !! t = None;
  iv_draining : ∀ p, p ∈ draining m → finished m p;
  iv_to_close : ∀ p, to_close (mu m) = Some p → finished m p;
  iv_current : ∀ p, current m = Some p →
    p ∉ todo (mu m) ∧ ∃ s, heap m !! p = Some s ∧ retired s = false;
  iv_open : closed m = false → is_Some (current m);
  iv_todo : ∀ p, p ∈ todo (mu m) → is_Some (heap m !! p);
  iv_live : ∀ p, p ∈ live m → is_Some (heap m !! p);
  iv_generation : lastGeneration m = wrap_u64 (Z.of_nat (nextPtr m));
  iv_publishing : ∀ g prior, publishing (mu m) = Some (g, prior) →
    ∃ q, (q < nextPtr m)%nat ∧ g = wrap_u64 (Z.of_nat q + 1)
      ∧ ∀ p s, heap m !! p = Some s → drained s = false → (p < q)%nat → p ∈ prior;
  iv_publications : ∀ r, r ∈ publications m →
    ∃ q, (q < nextPtr m)%nat ∧ r_generation r = wrap_u64 (Z.of_nat q + 1)
      ∧ ∀ p s, heap m !! p = Some s → drained s = false → (p < q)%nat → p ∈ r_snapshots r;
}.

(** *** Counting leases *)

Lemma held_insert t p q l :
  l !! t = None → held q (<[t := p]> l) = if decide (p = q) then S (held q l) else held q l.
Proof.
  intros Ht. unfold held. rewrite map_filter_insert. simpl. case_decide as Hd.
  - rewrite map_size_insert_None; [done|]. apply map_lookup_filter_None. by left.
  - rewrite map_filter_delete, delete_id; [done|]. apply map_lookup_filter_None. by left.
Qed.

Lemma held_delete t p q l :
  l !! t = Some p →
  held q l = if decide (p = q) then S (held q (delete t l)) else held q (delete t l).
Proof.
  intros Ht. rewrite <-(insert_delete_id l t p) at 1 by done.
  apply held_insert. apply lookup_delete_eq.
Qed.

Lemma held_pos t p l : l !! t = Some p → (0 < held p l)%nat.
Proof. intros Ht. rewrite (held_delete t p) by done. rewrite decide_True by done. lia. Qed.

(** *** Preservation *)

Lemma sound_mono m m' p s :
  sound m p s → held p (leases m') = held p (leases m) →
  (p ∈ draining m ∨ to_close (mu m) = Some p →
     drained s = true ∨ p ∈ draining m' ∨ to_close (mu m') = Some p) →
  (retired s = false → current m = Some p ∨ p ∈ todo (mu m) →
     current m' = Some p ∨ p ∈ todo (mu m')) →
  (drained s = false → p ∈ live m → p ∈ live m') → (nextPtr m ≤ nextPtr m')%nat →
  sound m' p s.
Proof.
  intros [Ha Hd Hw Hs Hl Hg Hp Hf] Hh Hdr Hc Hlive Hn. split; try done; try lia; auto.
  intros Hr H0. destruct (Hw Hr H0); auto.
Qed.

(** The parts of the invariant about older publications only need that no
    snapshot becomes undrained. *)
Definition less_drained (m m' : Manager) : Prop :=
  ∀ p s', heap m' !! p = Some s' → drained s' = false → (p < nextPtr m)%nat →
  ∃ s, heap m !! p = Some s ∧ drained s = false.

Lemma covers_mono m m' q (l : list ptr) :
  less_drained m m' → (q < nextPtr m)%nat →
  (∀ p s, heap m !! p = Some s → drained s = false → (p < q)%nat → p ∈ l) →
  ∀ p s, heap m' !! p = Some s → drained s = false → (p < q)%nat → p ∈ l.
Proof.
  intros Hless Hq Hl p s' Hp Hd Hlt. destruct (Hless p s' Hp Hd) as (s & Hs & Hd'); [lia|eauto].
Qed.

(** Steps that replace one snapshot by [s'] and neither allocate nor publish. *)
Lemma inv_replace m m' p s s' :
  inv m → heap m !! p = Some s → heap m' = <[p := s']> (heap m) →
  sound m' p s' →
  (∀ q sq, q ≠ p → heap m !! q = Some sq → sound m' q sq) →
  (drained s' = false → drained s = false) →
  (finished m p → retired s' = true ∧ active s' = 0) →
  (retired s = false → retired s' = true → current m ≠ Some p) →
  current m' = current m → closed m' = closed m → nextPtr m' = nextPtr m →
  lastGeneration m' = lastGeneration m → publications m' = publications m →
  publishing (mu m') = publishing (mu m) → live m' = live m →
  (∀ q, q ∈ todo (mu m') → q ∈ todo (mu m)) →
  (∀ t q, leases m' !! t = Some q → leases m !! t = Some q ∨ acquiring m !! t = Some q) →
  (∀ t q, acquiring m' !! t = Some q → acquiring m !! t = Some q ∧ leases m' !! t = leases m !! t) →
  (∀ q, q ∈ draining m' → q ∈ draining m ∨ q = p ∧ retired s' = true ∧ active s' = 0) →
  (∀ q, to_close (mu m') = Some q →
     to_close (mu m) = Some q ∨ q = p ∧ retired s' = true ∧ active s' = 0) →
  inv m'.
Proof.
  intros Hi Hp Hheap Hsp Hsq Hdr Hfin Hcur Ec Ecl En Eg Epub Epi El Htodo Hle Hacq Hdra Htc.
  assert (Hdom : ∀ q, is_Some (heap m !! q) → is_Some (heap m' !! q)).
  { intros q Hq. rewrite Hheap, lookup_insert. by case_decide. }
  assert (Hf : ∀ q, finished m q → finished m' q).
  { intros q Hq. destruct (decide (p = q)) as [<-|Hne].
    - exists s'. rewrite Hheap, lookup_insert_eq. destruct (Hfin Hq). done.
    - destruct Hq as (sq & Hq & ?). exists sq. by rewrite Hheap, lookup_insert_ne. }
  assert (Hfp : retired s' = true ∧ active s' = 0 → finished m' p).
  { intros ?. exists s'. by rewrite Hheap, lookup_insert_eq. }
  assert (Hless : less_drained m m').
  { intros q sq Hq Hd _. rewrite Hheap, lookup_insert in Hq. case_decide; [simplify_eq|]; eauto. }
  split.
  - intros q sq Hq. rewrite Hheap, lookup_insert in Hq. case_decide; [by simplify_eq|eauto].
  - intros t q [Hq|Hq]%Hle; apply Hdom; [by eapply (iv_leases _ Hi)|by eapply (iv_acquiring _ Hi)].
  - intros t q [Hq _]%Hacq. apply Hdom. by eapply (iv_acquiring _ Hi).
  - intros t [q Hq]. destruct (Hacq t q Hq) as [Hq' ->]. apply (iv_exclusive _ Hi). by exists q.
  - intros q [Hq|[-> Hq]]%Hdra; [apply Hf, (iv_draining _ Hi), Hq|auto].
  - intros q [Hq|[-> Hq]]%Htc; [apply Hf, (iv_to_close _ Hi), Hq|auto].
  - rewrite Ec. intros q Hq. destruct (iv_current _ Hi q Hq) as [Hnt (sq & Hsq' & Hr)].
    split; [by intros ?%Htodo|]. destruct (decide (p = q)) as [<-|Hne].
    + exists s'. rewrite Hheap, lookup_insert_eq. split; [done|].
      destruct (retired s') eqn:Hr'; [|done]. simplify_eq. by destruct (Hcur Hr eq_refl).
    + exists sq. by rewrite Hheap, lookup_insert_ne.
  - rewrite Ecl, Ec. apply Hi.
  - intros q Hq. apply Hdom, (iv_todo _ Hi), Htodo, Hq.
  - rewrite El. intros q Hq. apply Hdom, (iv_live _ Hi), Hq.
  - rewrite Eg, En. apply Hi.
  - rewrite Epi, En. intros g prior Hg. destruct (iv_publishing _ Hi g prior Hg) as (q & Hq & ? & Hl).
    exists q. split_and!; [done..|]. by eapply covers_mono.
  - rewrite Epub, En. intros r Hr. destruct (iv_publications _ Hi r Hr) as (q & Hq & ? & Hl).
    exists q. split_and!; [done..|]. by eapply covers_mono.
Qed.

Ltac mono Hi Hq :=
  eapply (sound_mono _ _ _ _ (iv_sound _ Hi _ _ Hq)); simpl.

Lemma inv_acquiring m a :
  inv m → (∀ t p, a !! t = Some p → is_Some (heap m !! p) ∧ leases m !! t = None) →
  inv (set_acquiring a m).
Proof.
  intros Hi Ha. pose proof Hi as []. split; simpl; try done.
  - intros q sq Hq. mono Hi Hq; auto.
  - intros t p Hp. by apply (Ha t p).
  - intros t [p Hp]. by apply (Ha t p).
Qed.

Lemma inv_try t m m' : inv m → try_loaded t m = Some m' → inv m'.
Proof.
  intros Hi Hs. unfold try_loaded in Hs.
  destruct (acquiring m !! t) as [p|] eqn:Ht; [|done]. simpl in Hs.
  destruct (heap m !! p) as [s|] eqn:Hp; [|done]. simpl in Hs. injection Hs as <-.
  pose proof (iv_exclusive _ Hi t ltac:(by exists p)) as Hlt.
  pose proof (iv_sound _ Hi p s Hp) as Hso. unfold tryAcquire.
  destruct (retired s) eqn:Hr.
  - apply inv_acquiring; [done|]. intros t' q. rewrite lookup_delete. case_decide; [done|].
    intros Hq. split; [by eapply (iv_acquiring _ Hi)|]. apply (iv_exclusive _ Hi). by exists q.
  - assert (Hnf : ¬ finished m p).
    { intros (sp & Hsp & Hrp & _). simplify_eq. congruence. }
    eapply (inv_replace m _ p s); simpl; try done; try by auto.
    + pose proof (held_insert t p p (leases m) Hlt) as Hh. rewrite decide_True in Hh by done.
      destruct Hso. split; simpl; try done.
      * rewrite Hh, so_active0. lia.
      * intros Hd. destruct (so_drained0 Hd). congruence.
      * intros _. by apply so_serving0.
    + intros q sq Hne Hq. mono Hi Hq; try done; try by auto.
      rewrite (held_insert t p q) by done. by rewrite decide_False by done.
    + intros t' q. rewrite lookup_insert. case_decide; naive_solver.
    + intros t' q Hq. rewrite lookup_delete in Hq. case_decide; [done|].
      split; [done|]. by rewrite lookup_insert_ne by done.
Qed.

Lemma inv_release t m m' : inv m → release_lease t m = Some m' → inv m'.
Proof.
  intros Hi Hs. unfold release_lease in Hs.
  destruct (leases m !! t) as [p|] eqn:Ht; [|by injection Hs as <-].
  destruct (heap m !! p) as [s|] eqn:Hp; [|done]. simpl in Hs.
  pose proof (iv_sound _ Hi p s Hp) as Hso. pose proof (held_pos t p _ Ht) as Hpos.
  pose proof (so_active _ _ _ Hso) as Hact. pose proof (held_delete t p p _ Ht) as Hh.
  rewrite decide_True in Hh by done.
  rewrite (proj2 (Z.ltb_lt 0 (active s))) in Hs by lia.
  assert (Hnf : ¬ finished m p).
  { intros (sp & Hsp & _ & H0). simplify_eq. lia. }
  assert (Hleases : ∀ t' q, delete t (leases m) !! t' = Some q → leases m !! t' = Some q).
  { intros t' q. rewrite lookup_delete. by case_decide. }
  assert (Hacq : ∀ t' q, acquiring m !! t' = Some q → delete t (leases m) !! t' = leases m !! t').
  { intros t' q Hq. rewrite lookup_delete. case_decide; [|done]. subst t'. symmetry.
    apply (iv_exclusive _ Hi). by exists q. }
  assert (Hother : ∀ q, q ≠ p → held q (delete t (leases m)) = held q (leases m)).
  { intros q Hne. rewrite (held_delete t p q (leases m)) by done. by rewrite decide_False by congruence. }
  set (s' := mkSnapshot _ _ _ _ _ _) in Hs.
  destruct (retired s && (active s - 1 =? 0)) eqn:Hsd; injection Hs as <-.
  - apply andb_true_iff in Hsd as [Hr H0]. apply Z.eqb_eq in H0.
    eapply (inv_replace m _ p s s'); simpl; try done; try by eauto.
    + destruct Hso. split; simpl; try done.
      * lia.
      * intros _ _. right. left. set_solver.
    + intros q sq Hne Hq. mono Hi Hq; try done; try by auto. set_solver.
    + congruence.
    + intros q. rewrite elem_of_union, elem_of_singleton. intros [->|?]; [right|by left]. done.
  - eapply (inv_replace m _ p s s'); simpl; try done; try by eauto.
    + destruct Hso. split; simpl; try done.
      * lia.
      * intros Hd. destruct (so_drained0 Hd). lia.
      * intros Hr H0. rewrite Hr, H0 in Hsd. done.
    + intros q sq Hne Hq. mono Hi Hq; by auto.
    + congruence.
Qed.

Lemma inv_drain p m m' : inv m → drain p m = Some m' → inv m'.
Proof.
  intros Hi Hs. unfold drain in Hs. destruct (decide (p ∈ draining m)) as [Hpd|]; [|done].
  destruct (iv_draining _ Hi p Hpd) as (s & Hp & Hr & H0). rewrite Hp in Hs. simpl in Hs.
  injection Hs as <-. pose proof (iv_sound _ Hi p s Hp) as Hso.
  eapply (inv_replace m _ p s (close_drained s)); simpl; try done; try by auto.
  - destruct Hso. split; simpl; try done. by left.
  - intros q sq Hne Hq. mono Hi Hq; try done; try by auto. set_solver.
  - congruence.
  - set_solver.
Qed.

Lemma inv_writer_drain m m' : inv m → writer_drain m = Some m' → inv m'.
Proof.
  intros Hi Hs. unfold writer_drain in Hs.
  destruct (mu m) as [|[p|] td pub] eqn:Hmu; [done| |done].
  destruct (iv_to_close _ Hi p) as (s & Hp & Hr & H0); [by rewrite Hmu|].
  rewrite Hp in Hs. simpl in Hs. injection Hs as <-. pose proof (iv_sound _ Hi p s Hp) as Hso.
  eapply (inv_replace m _ p s (close_drained s)); simpl; rewrite ?Hmu; try done; try by auto.
  - destruct Hso as [? ? ? Hse ? ? ? ?]. rewrite Hmu in Hse. split; simpl; try done. by left.
  - intros q sq Hne Hq. mono Hi Hq; rewrite ?Hmu; simpl; try done; try by auto.
    intros [?|?]; [by auto|congruence].
  - congruence.
Qed.

Lemma inv_retire m m' : inv m → retire_next m = Some m' → inv m'.
Proof.
  intros Hi Hs. unfold retire_next in Hs.
  destruct (mu m) as [|[p'|] [|p td] pub] eqn:Hmu; try done.
  destruct (iv_todo _ Hi p) as [s Hp]; [rewrite Hmu; by left|].
  rewrite Hp in Hs. simpl in Hs. injection Hs as <-. pose proof (iv_sound _ Hi p s Hp) as Hso.
  assert (Hnc : current m ≠ Some p).
  { intros Hc. destruct (iv_current _ Hi p Hc) as [Hnt _]. rewrite Hmu in Hnt. apply Hnt. by left. }
  eapply (inv_replace m _ p s (fst (retire s))); simpl; rewrite ?Hmu; try done; try by auto.
  - destruct Hso as [? Hd Hw ? ? ? ? ?]. split; simpl; try done.
    + intros Hdr. destruct (Hd Hdr). done.
    + intros _ ->. right. right. done.
  - intros q sq Hne Hq. mono Hi Hq; rewrite ?Hmu; simpl; try done; try by auto.
    + intros [?|?]; [by auto|done].
    + intros _ [?|[?|?]%elem_of_cons]; by auto.
  - intros (sp & Hsp & Hr & H0). by simplify_eq.
  - intros q Hq. by right.
  - intros q. destruct (active s =? 0) eqn:H0; [|done]. intros [= <-]. right.
    apply Z.eqb_eq in H0. done.
Qed.

Lemma inv_load t m m' : inv m → load_current t m = Some m' → inv m'.
Proof.
  intros Hi Hs. unfold load_current in Hs.
  destruct (acquiring m !! t) eqn:Ha, (leases m !! t) eqn:Hl, (current m) as [p|] eqn:Hc;
    simplify_eq; try done.
  pose proof (iv_current _ Hi p Hc) as [_ (s & Hp & _)]. apply inv_acquiring; [done|].
  intros t' q. rewrite lookup_insert. case_decide as Heq.
  - intros [= <-]. subst t'. split; [by exists s|done].
  - intros Hq. split; [by eapply (iv_acquiring _ Hi)|]. apply (iv_exclusive _ Hi). by exists q.
Qed.

Lemma fresh_ptr m : inv m → heap m !! nextPtr m = None.
Proof.
  intros Hi. destruct (heap m !! nextPtr m) as [s|] eqn:Hp; [|done].
  pose proof (so_ptr _ _ _ (iv_sound _ Hi _ _ Hp)). lia.
Qed.

Lemma held_fresh m : inv m → held (nextPtr m) (leases m) = 0%nat.
Proof.
  intros Hi. unfold held. apply map_size_empty_iff, map_empty. intros t.
  apply map_lookup_filter_None. right. intros p Hp Heq. simpl in Heq. subst p.
  destruct (iv_leases _ Hi t _ Hp) as [s Hs]. by rewrite fresh_ptr in Hs.
Qed.

Lemma sequence_succ n : wrap_u64 (wrap_u64 (Z.of_nat n) + 1) = wrap_u64 (Z.of_nat (S n)).
Proof. unfold wrap_u64. rewrite Zplus_mod_idemp_l. f_equal. lia. Qed.

Lemma inv_publishLocked c l m m' :
  inv m → mu m = Unlocked → publishLocked c l m = Ok m' → inv m'.
Proof.
  intros Hi Hmu Hs. unfold publishLocked in Hs. destruct c as [c|]; [|done].
  apply bind_result_Ok in Hs as ([] & _ & [= <-]).
  pose proof (fresh_ptr m Hi) as Hfresh. pose proof (held_fresh m Hi) as Hheld.
  set (p := nextPtr m) in *. set (sn := newSnapshotWithRegistries _ _ _).
  assert (Hgen : wrap_u64 (lastGeneration m + 1) = wrap_u64 (Z.of_nat (S p)))
    by (rewrite (iv_generation _ Hi); apply sequence_succ).
  assert (Hold : ∀ q sq, heap m !! q = Some sq → <[p := sn]> (heap m) !! q = Some sq).
  { intros q sq Hq. rewrite lookup_insert_ne; [done|congruence]. }
  assert (Hdom : ∀ q, is_Some (heap m !! q) → is_Some (<[p := sn]> (heap m) !! q)).
  { intros q [sq Hq]. eauto. }
  assert (Hfin : ∀ q, finished m q → ∃ s, <[p := sn]> (heap m) !! q = Some s
    ∧ retired s = true ∧ active s = 0) by (intros q (s & Hq & ?); eauto).
  split; simpl; try done.
  - intros q sq Hq. rewrite lookup_insert in Hq. case_decide as Heq; [subst q; simplify_eq|].
    + split; simpl; try done.
      * by rewrite Hheld.
      * by left.
      * set_solver.
      * rewrite Hgen. f_equal. lia.
      * subst p. lia.
    + mono Hi Hq; rewrite ?Hmu; simpl; try done; try by auto.
      * intros _ [Hc|Hnil]; [rewrite Hc; right; by left|by apply not_elem_of_nil in Hnil].
      * intros _ Hl. apply elem_of_union. by right.
  - intros t q Hq. by eapply Hdom, (iv_leases _ Hi).
  - intros t q Hq. by eapply Hdom, (iv_acquiring _ Hi).
  - apply Hi.
  - intros q Hq. apply Hfin, (iv_draining _ Hi), Hq.
  - intros q [= <-]. split.
    + destruct (current m) as [old|] eqn:Hc; [|by intros ?%not_elem_of_nil].
      intros ->%list_elem_of_singleton. destruct (iv_current _ Hi _ Hc) as [_ (s & Hs & _)].
      by rewrite Hfresh in Hs.
    + exists sn. by rewrite lookup_insert_eq.
  - intros q Hq. destruct (current m) as [old|] eqn:Hc; [|by apply not_elem_of_nil in Hq].
    apply list_elem_of_singleton in Hq as ->. destruct (iv_current _ Hi _ Hc) as [_ (s & Hs & _)]. eauto.
  - intros q [->%elem_of_singleton|Hq]%elem_of_union; [rewrite lookup_insert_eq; eauto|].
    by apply Hdom, (iv_live _ Hi).
  - intros g prior [= <- <-]. exists p. split_and!; [lia|rewrite Hgen; f_equal; lia|].
    intros q sq Hq Hd Hlt. rewrite lookup_insert_ne in Hq by lia. apply elem_of_elements.
    by apply (so_live _ _ _ (iv_sound _ Hi q sq Hq)).
  - intros r Hr. destruct (iv_publications _ Hi r Hr) as (q & Hq & Hg & Hl).
    exists q. split_and!; [lia|done|]. intros q' sq Hq' Hd Hlt.
    rewrite lookup_insert_ne in Hq' by lia. eauto.
Qed.

Lemma inv_finish m m' : inv m → finish m = Some m' → inv m'.
Proof.
  intros Hi Hs. unfold finish in Hs.
  destruct (mu m) as [|[|] [|] pub] eqn:Hmu; try done. injection Hs as <-.
  pose proof Hi as []. rewrite Hmu in *. simpl in *. split; simpl; try done.
  - intros q sq Hq. mono Hi Hq; rewrite ?Hmu; simpl; auto.
  - destruct pub as [[g prior]|]; [|done].
    intros r [Hr| ->%list_elem_of_singleton]%elem_of_app; [eauto|].
    destruct (iv_publishing0 g prior eq_refl) as (q & Hq & Hg & Hl).
    exists q. split_and!; [done..|]. simpl. intros p s Hp Hd Hlt. apply list_elem_of_filter.
    rewrite Hp. simpl. unfold isDrained. rewrite Hd. split; [done|]. eauto.
Qed.

Lemma inv_close_manager m : inv m → mu m = Unlocked → inv (close_manager m).
Proof.
  intros Hi Hmu. unfold close_manager. destruct (closed m); [done|].
  pose proof Hi as []. rewrite Hmu in *. simpl in *. split; simpl; try done.
  - intros q sq Hq. mono Hi Hq; rewrite ?Hmu; simpl; try done; try by auto.
    intros Hr [Hc|?%not_elem_of_nil]; [|done]. right. apply elem_of_elements.
    pose proof (iv_sound0 q sq Hq) as []. apply so_live0.
    destruct (drained sq); [|done]. destruct so_drained0; [done|congruence].
  - intros q Hq%elem_of_elements. auto.
Qed.

Lemma inv_track p m m' : inv m → track p m = Some m' → inv m'.
Proof.
  intros Hi Hs. unfold track in Hs. destruct (heap m !! p) as [s|] eqn:Hp; [|done]. simpl in Hs.
  destruct (isDrained s) eqn:Hd; [|done]. injection Hs as <-. pose proof Hi as [].
  split; simpl; try done.
  - intros q sq Hq. mono Hi Hq; try done; try by auto.
    intros Hnd Hl. apply elem_of_difference. split; [done|]. intros ->%elem_of_singleton.
    unfold isDrained in Hd. congruence.
  - intros q [Hq _]%elem_of_difference. auto.
Qed.

Lemma inv_NewManager c l m : NewManager c l = Ok m → inv m.
Proof.
  intros Hm. unfold NewManager in Hm. destruct c as [c|]; [|done].
  apply bind_result_Ok in Hm as ([] & _ & [= <-]). split; simpl; try done.
  - intros q sq [<- <-]%lookup_singleton_Some. split; simpl; try done.
    + by left.
    + set_solver.
  - intros q [= <-]. split; [by intros ?%not_elem_of_nil|].
    eexists. by rewrite lookup_singleton_eq.
  - by intros q ?%not_elem_of_nil.
  - intros q ->%elem_of_singleton. rewrite lookup_singleton_eq. eauto.
  - by intros r ?%not_elem_of_nil.
Qed.

Lemma inv_step m l m' : inv m → step m l = Some m' → inv m'.
Proof.
  intros Hi Hs. destruct l; simpl in Hs;
    try (destruct (unlocked m) eqn:Hmu; [|done];
         assert (mu m = Unlocked) as Hu by (unfold unlocked in Hmu; by destruct (mu m)));
    eauto using inv_load, inv_try, inv_release, inv_drain, inv_retire, inv_writer_drain,
      inv_finish, inv_track.
  - injection Hs as <-. destruct (Publish _ _ _) as [m'|] eqn:Hp; [|done].
    unfold Publish in Hp. destruct (closed m); [done|]. by eapply inv_publishLocked.
  - injection Hs as <-. destruct (PublishProviders _ _) as [m'|] eqn:Hp; [|done].
    unfold PublishProviders in Hp. destruct (closed m); [done|].
    destruct (current m ≫= _); [|done]. by eapply inv_publishLocked.
  - injection Hs as <-. by apply inv_close_manager.
Qed.

Lemma inv_history m ls m' : inv m → steps m ls = Some m' → inv m'.
Proof.
  revert m; induction ls as [|l ls IH]; intros m Hi Hs; simpl in Hs; [by injection Hs as <-|].
  destruct (step m l) as [m1|] eqn:Hl; [|done]. simpl in Hs. eauto using inv_step.
Qed.

(** *** What a snapshot shows never changes *)

Definition same_view (s s' : Snapshot) : Prop :=
  generation s' = generation s ∧ config s' = config s ∧ providers s' = providers s
  ∧ (drained s = true → drained s' = true) ∧ (retired s = true → retired s' = true).

Definition keeps_views (m m' : Manager) : Prop :=
  ∀ p s, heap m !! p = Some s → ∃ s', heap m' !! p = Some s' ∧ same_view s s'.

Lemma keeps_views_same m m' : heap m' = heap m → keeps_views m m'.
Proof. intros Hh p s Hp. exists s. rewrite Hh. by split. Qed.

Lemma keeps_views_trans m1 m2 m3 : keeps_views m1 m2 → keeps_views m2 m3 → keeps_views m1 m3.
Proof.
  intros H12 H23 p s Hp. destruct (H12 p s Hp) as (s2 & Hp2 & E1 & E2 & E3 & E4 & E5).
  destruct (H23 p s2 Hp2) as (s3 & Hp3 & F1 & F2 & F3 & F4 & F5). exists s3. split; [done|].
  split_and!; [congruence..|auto|auto].
Qed.

Lemma keeps_views_insert m m' p s s' :
  heap m !! p = Some s → heap m' = <[p := s']> (heap m) → same_view s s' → keeps_views m m'.
Proof.
  intros Hp Hh Hv q sq Hq. rewrite Hh, lookup_insert. case_decide; [|by exists sq; split].
  simplify_eq. eauto.
Qed.

Lemma keeps_views_publish c l m m' : inv m → publishLocked c l m = Ok m' → keeps_views m m'.
Proof.
  intros Hi Hs. unfold publishLocked in Hs. destruct c as [c|]; [|done].
  apply bind_result_Ok in Hs as ([] & _ & [= <-]). intros q sq Hq. exists sq. simpl.
  rewrite lookup_insert_ne; [by split|]. intros <-. by rewrite fresh_ptr in Hq.
Qed.

Lemma step_keeps_views m l m' : inv m → step m l = Some m' → keeps_views m m'.
Proof.
  intros Hi Hs. destruct l; simpl in Hs.
  - unfold load_current in Hs. repeat case_match; simplify_eq; by apply keeps_views_same.
  - unfold try_loaded, tryAcquire in Hs. destruct (acquiring m !! t) as [p|]; [|done]. simpl in Hs.
    destruct (heap m !! p) as [s|] eqn:Hp; [|done]. simpl in Hs. injection Hs as <-.
    destruct (retired s) eqn:Hr; [by apply keeps_views_same|].
    eapply keeps_views_insert; [exact Hp|reflexivity|]. unfold same_view; simpl; rewrite Hr; by auto 10.
  - unfold release_lease, release in Hs. destruct (leases m !! t) as [p|]; [|simplify_eq; by apply keeps_views_same].
    destruct (heap m !! p) as [s|] eqn:Hp; [|done]. simpl in Hs.
    eapply keeps_views_insert with (s' := fst (release s)); [done| |unfold same_view; simpl; by auto 10].
    injection Hs as <-. by destruct (retired s && _).
  - unfold drain in Hs. case_decide; [|done]. destruct (heap m !! p) as [s|] eqn:Hp; [|done].
    simpl in Hs. injection Hs as <-. eapply keeps_views_insert; [exact Hp|reflexivity|]. unfold same_view; simpl; by auto 10.
  - destruct (unlocked m); [|done]. injection Hs as <-.
    destruct (Publish _ _ _) as [m'|] eqn:Hp; [|by apply keeps_views_same].
    unfold Publish in Hp. destruct (closed m); [done|]. by eapply keeps_views_publish.
  - destruct (unlocked m); [|done]. injection Hs as <-.
    destruct (PublishProviders _ _) as [m'|] eqn:Hp; [|by apply keeps_views_same].
    unfold PublishProviders in Hp. destruct (closed m); [done|].
    destruct (current m ≫= _); [|done]. by eapply keeps_views_publish.
  - unfold retire_next in Hs. destruct (mu m) as [|[|] [|p ?] ?]; try done.
    destruct (heap m !! p) as [s|] eqn:Hp; [|done]. simpl in Hs. injection Hs as <-.
    eapply keeps_views_insert; [exact Hp|reflexivity|]. unfold same_view; simpl; by auto 10.
  - unfold writer_drain in Hs. destruct (mu m) as [|[p|] ? ?]; try done.
    destruct (heap m !! p) as [s|] eqn:Hp; [|done]. simpl in Hs. injection Hs as <-.
    eapply keeps_views_insert; [exact Hp|reflexivity|]. unfold same_view; simpl; by auto 10.
  - unfold finish in Hs. by repeat case_match; simplify_eq; apply keeps_views_same.
  - destruct (unlocked m); [|done]. injection Hs as <-. unfold close_manager.
    by case_match; apply keeps_views_same.
  - destruct (unlocked m); [|done]. unfold track in Hs.
    destruct (heap m !! p) as [s|]; [|done]. simpl in Hs. case_match; simplify_eq.
    by apply keeps_views_same.
Qed.

Lemma steps_keep_views m ls m' : inv m → steps m ls = Some m' → keeps_views m m'.
Proof.
  revert m; induction ls as [|l ls IH]; intros m Hi Hs; simpl in Hs.
  { injection Hs as <-. by apply keeps_views_same. }
  destruct (step m l) as [m1|] eqn:Hl; [|done]. simpl in Hs.
  eapply keeps_views_trans; [by eapply step_keeps_views|eauto using inv_step].
Qed.

(** ** Properties *)

(** C6. A leased snapshot stays intact.  From the moment a goroutine holds a lease
    and for as long as it does, through any interleaving of publications, closings
    and other requests, the snapshot is not drained (so its providers are not shut
    down), and the configuration and the providers it shows are the ones it was
    published with, in a frozen registry. *)
Theorem leased_snapshot_is_intact c l m0 before m1 after m2 t p s :
  NewManager c l = Ok m0 → steps m0 before = Some m1 → steps m1 after = Some m2 →
  heap m1 !! p = Some s → leases m2 !! t = Some p →
  ∃ s', heap m2 !! p = Some s' ∧ drained s' = false
    ∧ generation s' = generation s ∧ config s' = config s ∧ providers s' = providers s
    ∧ Registry.Frozen (providers s') = true.
Proof.
  intros H0 H1 H2 Hp Ht. pose proof (inv_history _ _ _ (inv_NewManager _ _ _ H0) H1) as Hi1.
  pose proof (inv_history _ _ _ Hi1 H2) as Hi2.
  destruct (steps_keep_views _ _ _ Hi1 H2 p s Hp) as (s' & Hs' & ? & ? & ? & _).
  pose proof (iv_sound _ Hi2 p s' Hs') as [Ha Hd _ _ _ _ _ Hf]. pose proof (held_pos _ _ _ Ht).
  exists s'. split_and!; [done| |done..]. destruct (drained s'); [|done].
  destruct (Hd eq_refl). lia.
Qed.

(** No drain is lost.  Whenever no goroutine is in the middle of a publication
    or of a release, a snapshot is drained exactly when it is not the current one
    and no lease on it is held. *)
Theorem no_lost_drain c l m0 ls m p s :
  NewManager c l = Ok m0 → steps m0 ls = Some m → mu m = Unlocked → draining m = ∅ →
  heap m !! p = Some s →
  drained s = true ↔ current m ≠ Some p ∧ ∀ t, leases m !! t ≠ Some p.
Proof.
  intros H0 Hs Hmu Hdr Hp. pose proof (inv_history _ _ _ (inv_NewManager _ _ _ H0) Hs) as Hi.
  pose proof (iv_sound _ Hi p s Hp) as [Ha Hd Hw Hse _ _ _ _]. split.
  - intros Hdrained. destruct (Hd Hdrained) as [Hr H0']. split.
    + intros Hc. destruct (iv_current _ Hi p Hc) as [_ (s' & Hs' & Hr')]. congruence.
    + intros t Ht. pose proof (held_pos _ _ _ Ht). lia.
  - intros [Hc Hl]. destruct (retired s) eqn:Hr.
    + assert (held p (leases m) = 0%nat) as Hh.
      { apply map_size_empty_iff, map_empty. intros t. apply map_lookup_filter_None. right.
        intros q Hq Heq. simpl in Heq. subst q. by destruct (Hl t). }
      rewrite Hmu, Hdr, Ha, Hh in Hw. destruct (Hw eq_refl eq_refl) as [?|[?|?]]; set_solver.
    + rewrite Hmu in Hse. destruct (Hse eq_refl) as [?|?%not_elem_of_nil]; done.
Qed.

(** A retirement waits for every older lease.  When all the snapshots of a
    publication's retirement are drained, every lease still held is on the
    published generation or on a newer one. *)
Theorem retirement_waits_for_leases c l m0 ls m r t p s :
  NewManager c l = Ok m0 → steps m0 ls = Some m → Z.of_nat (nextPtr m) < 2 ^ 64 →
  r ∈ publications m → Pending m r = 0%nat →
  leases m !! t = Some p → heap m !! p = Some s → r_generation r ≤ generation s.
Proof.
  intros H0 Hs Hb Hr Hpend Ht Hp. pose proof (inv_history _ _ _ (inv_NewManager _ _ _ H0) Hs) as Hi.
  pose proof (iv_sound _ Hi p s Hp) as [Ha Hd _ _ _ Hg Hlt _]. pose proof (held_pos _ _ _ Ht).
  destruct (iv_publications _ Hi r Hr) as (q & Hq & -> & Hcov). rewrite Hg.
  rewrite !wrap_u64_small by lia. destruct (decide (p < q)%nat) as [Hpq|]; [|lia]. exfalso.
  destruct (drained s) eqn:Hds; [destruct (Hd eq_refl); lia|].
  specialize (Hcov p s Hp Hds Hpq). unfold Pending in Hpend.
  apply nil_length_inv in Hpend. assert (p ∈ (@nil nat)) as Hnil; [|by apply not_elem_of_nil in Hnil].
  rewrite <-Hpend. apply list_elem_of_filter. rewrite Hp. simpl. unfold isDrained. by rewrite Hds.
Qed.

(** [Acquire] only goes round its loop when it was overtaken.  The snapshot a
    goroutine has loaded is either leased to it, or a publication (or the closing)
    has replaced it since; and with no step in between, loading and trying always
    gives a lease on the current snapshot. *)
Theorem acquire_succeeds_unless_overtaken c l m0 ls m t :
  NewManager c l = Ok m0 → steps m0 ls = Some m →
  (∀ p m', acquiring m !! t = Some p → step m (LTry t) = Some m' →
     leases m' !! t = Some p ∨ current m ≠ Some p)
  ∧ (∀ p, acquiring m !! t = None → leases m !! t = None → current m = Some p →
     ∃ m', steps m [LLoad t; LTry t] = Some m' ∧ leases m' !! t = Some p).
Proof.
  intros H0 Hs. pose proof (inv_history _ _ _ (inv_NewManager _ _ _ H0) Hs) as Hi. split.
  - intros p m' Ha Hst. simpl in Hst. unfold try_loaded in Hst. rewrite Ha in Hst. simpl in Hst.
    destruct (heap m !! p) as [s|] eqn:Hp; [|done]. simpl in Hst. injection Hst as <-.
    unfold tryAcquire. destruct (retired s) eqn:Hr; [|left; apply lookup_insert_eq].
    right. intros Hc. destruct (iv_current _ Hi p Hc) as [_ (s' & Hs' & Hr')]. congruence.
  - intros p Ha Hl Hc. destruct (iv_current _ Hi p Hc) as [_ (s & Hp & Hr)].
    simpl. unfold load_current. rewrite Ha, Hl, Hc. simpl. unfold try_loaded. simpl.
    rewrite lookup_insert_eq. simpl. rewrite Hp. simpl. unfold tryAcquire. rewrite Hr.
    eexists. split; [done|]. simpl. apply lookup_insert_eq.
Qed.

(** The writer's own steps are always enabled. *)
Lemma writer_drain_step m q :
  inv m → to_close (mu m) = Some q →
  ∃ m', step m LCloseDrained = Some m' ∧ inv m' ∧ leases m' = leases m
    ∧ mu m' = Locked None (todo (mu m)) (publishing (mu m)).
Proof.
  intros Hi Hc. destruct (iv_to_close _ Hi q Hc) as (s & Hq & _).
  destruct (mu m) as [|[q'|] td pub] eqn:Hmu; simplify_eq/=; try done.
  destruct (writer_drain m) as [m'|] eqn:Hw.
  - exists m'. split; [done|]. split; [by eapply inv_writer_drain|].
    unfold writer_drain in Hw. rewrite Hmu, Hq in Hw. by injection Hw as <-.
  - unfold writer_drain in Hw. by rewrite Hmu, Hq in Hw.
Qed.

Lemma retire_step m p td pub :
  inv m → mu m = Locked None (p :: td) pub →
  ∃ m', step m LRetire = Some m' ∧ inv m' ∧ leases m' = leases m
    ∧ todo (mu m') = td ∧ mu m' ≠ Unlocked.
Proof.
  intros Hi Hmu. destruct (iv_todo _ Hi p) as [s Hp]; [rewrite Hmu; by left|].
  destruct (retire_next m) as [m'|] eqn:Hr.
  - exists m'. split; [done|]. split; [by eapply inv_retire|].
    unfold retire_next in Hr. rewrite Hmu, Hp in Hr. by injection Hr as <-.
  - unfold retire_next in Hr. by rewrite Hmu, Hp in Hr.
Qed.

Definition own_step (x : label) : Prop := x = LRetire ∨ x = LCloseDrained ∨ x = LFinish.

Lemma own_steps_finish n m :
  inv m → length (todo (mu m)) = n →
  ∃ own m', steps m own = Some m' ∧ mu m' = Unlocked ∧ leases m' = leases m
    ∧ Forall own_step own
    ∧ (length own ≤ 2 * n + (if to_close (mu m) then 2 else 1))%nat.
Proof.
  unfold own_step. revert m. induction n as [n IH] using lt_wf_ind; intros m Hi Hn.
  assert (Hnone : ∀ m, inv m → length (todo (mu m)) = n → to_close (mu m) = None →
    ∃ own m', steps m own = Some m' ∧ mu m' = Unlocked ∧ leases m' = leases m
      ∧ Forall (λ x, x = LRetire ∨ x = LCloseDrained ∨ x = LFinish) own
      ∧ (length own ≤ 2 * n + 1)%nat).
  { clear m Hi Hn. intros m Hi Hn Hc. destruct (mu m) as [|c [|p td] pub] eqn:Hmu; simplify_eq/=.
    - exists [], m. split_and!; [done..|constructor|simpl; lia].
    - exists [LFinish]. cbn [steps step]. unfold finish. rewrite Hmu.
      eexists. split_and!; [done..|apply Forall_singleton; by auto|simpl; lia].
    - destruct (retire_step m p td pub Hi Hmu) as (m1 & H1 & Hi1 & Hl1 & Ht1 & _).
      destruct (IH (length td) ltac:(lia) m1 Hi1) as (own & m' & Hst & ? & ? & ? & Hlen); [by rewrite Ht1|].
      exists (LRetire :: own), m'. cbn [steps]. rewrite H1.
      split_and!; [done|done|congruence|constructor; auto|].
      simpl. destruct (to_close (mu m1)); lia. }
  destruct (to_close (mu m)) as [q|] eqn:Hc; [|by apply Hnone].
  destruct (writer_drain_step m q Hi Hc) as (m1 & H1 & Hi1 & Hl1 & Hmu1).
  destruct (Hnone m1 Hi1) as (own & m' & Hst & ? & ? & ? & Hlen); [by rewrite Hmu1..|].
  exists (LCloseDrained :: own), m'. cbn [steps]. rewrite H1.
  split_and!; [done|done|congruence|constructor; auto|simpl; lia].
Qed.

(** Publishing and closing never wait for requests.  Whoever holds the
    manager's mutex can reach its release by its own steps alone, at most two for
    each snapshot it retires and two more, whatever leases are held. *)
Theorem writer_never_blocks c l m0 ls m :
  NewManager c l = Ok m0 → steps m0 ls = Some m →
  ∃ own m', steps m own = Some m' ∧ mu m' = Unlocked ∧ leases m' = leases m
    ∧ Forall own_step own ∧ (length own ≤ 2 * length (todo (mu m)) + 2)%nat.
Proof.
  intros H0 Hs. pose proof (inv_history _ _ _ (inv_NewManager _ _ _ H0) Hs) as Hi.
  destruct (own_steps_finish _ m Hi eq_refl) as (own & m' & ? & ? & ? & ? & Hlen).
  exists own, m'. split_and!; [done..|]. destruct (to_close (mu m)); lia.
Qed.

(** ** A concrete history

    Goroutine 1 holds a lease on the first snapshot while another configuration is
    published; goroutine 2 had loaded the first snapshot before, and has to retry. *)

Definition blank : Config :=
  mkConfig 7071 1 false (mkLogging "" 0 0) (mkRouting "" "" false ∅ ∅ ∅ false)
    (mkProviders
      (mkCopilotProvider false (mkCopilotAuth "" "" None "" None 0 0) None 0 None)
      (mkCodexProvider false (mkCodexAuth "" "" None "" None "" None 0 "") None 0 None "")
      (mkKiloProvider false false "" None "" None "" None))
    (mkTimeouts 0 0 0 0 0 0 0 0 0 0).
Definition example_provider : Provider :=
  mkProvider "codex" [CapabilityChat] (Ok None) (mkHealth true true "" 0) None None.

Definition initial : Manager :=
  mkManager (Some 0%nat) false 1 {[0%nat]}
    {[0%nat := newSnapshotWithRegistries 1 blank [Some example_provider]]} 1%nat Unlocked ∅ ∅ ∅ [].

Lemma initial_is_new : NewManager (Some blank) [Some example_provider] = Ok initial.
Proof. vm_compute. reflexivity. Qed.

Definition overlap : list label :=
  [LLoad 1; LTry 1; LLoad 2; LPublish (Some blank) []; LRetire; LFinish].
Definition overlapped : Manager := default initial (steps initial overlap).

Lemma steps_overlap : steps initial overlap = Some overlapped.
Proof. vm_compute. reflexivity. Qed.

Lemma leased_snapshot_is_intact_witness :
  ∃ s', heap overlapped !! 0%nat = Some s' ∧ drained s' = false.
Proof.
  destruct (leased_snapshot_is_intact (Some blank) [Some example_provider] initial
    [LLoad 1; LTry 1] (default initial (steps initial [LLoad 1; LTry 1]))
    [LLoad 2; LPublish (Some blank) []; LRetire; LFinish] overlapped 1 0%nat
    (mkSnapshot 1 (Clone blank)
       (Registry.Freeze (Registry.NewRegistry [Some example_provider])) 1 false false))
    as (s' & Hs & Hd & _).
  - exact initial_is_new.
  - vm_compute. reflexivity.
  - vm_compute. reflexivity.
  - vm_compute. reflexivity.
  - vm_compute. reflexivity.
  - exists s'. split; [exact Hs|exact Hd].
Defined.

Lemma no_lost_drain_witness :
  ∃ s, heap overlapped !! 1%nat = Some s
    ∧ (drained s = true ↔ current overlapped ≠ Some 1%nat ∧ ∀ t, leases overlapped !! t ≠ Some 1%nat).
Proof.
  exists (newSnapshotWithRegistries 2 blank []).
  split; [vm_compute; reflexivity|].
  apply (no_lost_drain (Some blank) [Some example_provider] initial overlap overlapped 1%nat).
  - exact initial_is_new.
  - exact steps_overlap.
  - vm_compute. reflexivity.
  - vm_compute. reflexivity.
  - vm_compute. reflexivity.
Defined.

(** Goroutine 1 releases its lease, the first snapshot is drained, and goroutine 2
    takes its lease on the second one. *)
Definition settled : Manager :=
  default initial (steps overlapped [LRelease 1; LDrain 0; LTry 2; LLoad 2; LTry 2]).

#[global] Instance retirement_eq_dec : EqDecision retirement.
Proof. solve_decision. Defined.

Lemma retirement_waits_for_leases_witness :
  (2 ≤ generation (mkSnapshot 2 (Clone blank) (Registry.Freeze (Registry.NewRegistry [])) 1 false false))%Z
  ∧ Pending overlapped (mkRetirement 2 [0%nat]) = 1%nat.
Proof.
  split; [|vm_compute; reflexivity].
  apply (retirement_waits_for_leases (Some blank) [Some example_provider] initial
    (overlap ++ [LRelease 1; LDrain 0; LTry 2; LLoad 2; LTry 2]) settled
    (mkRetirement 2 [0%nat]) 2 1%nat).
  - exact initial_is_new.
  - vm_compute. reflexivity.
  - vm_compute. reflexivity.
  - apply (bool_decide_eq_true_1 (mkRetirement 2 [0%nat] ∈ publications settled)).
    vm_compute. reflexivity.
  - vm_compute. reflexivity.
  - vm_compute. reflexivity.
  - vm_compute. reflexivity.
Defined.

Lemma acquire_succeeds_unless_overtaken_witness :
  leases (default initial (step overlapped (LTry 2))) !! 2%nat = Some 0%nat
  ∨ current overlapped ≠ Some 0%nat.
Proof.
  apply (proj1 (acquire_succeeds_unless_overtaken (Some blank) [Some example_provider] initial
    overlap overlapped 2 initial_is_new steps_overlap)).
  - vm_compute. reflexivity.
  - vm_compute. reflexivity.
Defined.

Lemma writer_never_blocks_witness :
  ∃ own m', steps overlapped own = Some m' ∧ mu m' = Unlocked.
Proof.
  destruct (writer_never_blocks (Some blank) [Some example_provider] initial overlap overlapped
    initial_is_new steps_overlap) as (own & m' & Hs & Hm & _).
  exists own, m'. split; [exact Hs|exact Hm].
Defined.
