(* ===== verification/ProviderManager.v ===== *)
(** * The provider manager

    [internal/provider/manager.go]: factories, the desired providers, the
    effective instances, and the operations that replace one by the other.

    An operation holds the mutex [mutations] from its beginning to the moment its
    new instances are published, and calls the snapshot publisher once.  It is
    modelled in two halves around that call: [prepare], which checks, builds and
    yields the instances to publish with what is left to do ([pending]), and
    [complete] or [refused], which go on with the publisher's answer.  What comes
    after the mutex is released, the draining of the retired instances, is the
    third part.  [Lifecycle] interleaves the parts of several operations with the
    runtime's leases.

    The instants the manager reads are the values of [clock], numbered by [ticks].
    [built] and [closed] record every instance a factory has returned and every
    one given to [closeProvider]. *)

From S2P Require Import Prelude GoStd Provider.

Local Open Scope Z_scope.
Import HealthRegistry EventBus.

(** ** Data *)

(* src/internal/provider/manager.go AccountState *)
Record AccountState := mkAccount {
  ac_ID : string; ac_Label : string; ac_Enabled : bool; ac_Priority : Z;
}.

(** A constructed provider: an address, the answers of its methods, and how its
    [Close] ends ([None] when it implements neither form of [Close], [Some true]
    for a nil error within the timeout). *)
Record instance := mkInstance {
  in_addr : nat; in_methods : Provider; in_Close : option bool;
}.

Definition instance_ID (i : instance) : string := p_ID (in_methods i).

(** What a call of a factory's [Build] gives. *)
Inductive build_result :=
| BuildFailed
| BuildNil
| Built (p : Provider) (close : option bool).

(* src/internal/provider/manager.go DrainReport *)
Record DrainReport := mkReport {
  rp_StartedAt : Time; rp_Deadline : Time; rp_CompletedAt : Time;
  rp_Completed : bool; rp_TimedOut : bool; rp_PendingSnapshots : Z; rp_CloseErrors : Z;
}.

Definition noReport : DrainReport := mkReport zeroTime zeroTime zeroTime false false 0 0.

(* src/internal/provider/manager.go ManagerOptions *)
Record ManagerOptions := mkOptions { DrainTimeout : Duration; CloseTimeout : Duration }.

(* src/internal/provider/manager.go desiredRecord *)
Record desiredRecord := mkDesiredRecord {
  dr_enabled : bool; dr_accounts : list AccountState; dr_fingerprint : string;
}.
Definition noDesired : desiredRecord := mkDesiredRecord false [] "".

(* src/internal/provider/manager.go effectiveRecord *)
Record effectiveRecord := mkEffective { er_provider : instance; er_generation : Z }.

Notation effective_map := (gmap string effectiveRecord) (only parsing).
Notation desired_map := (gmap string desiredRecord) (only parsing).

Inductive error :=
| PublisherRequired | FactoryRequired | DescriptorInvalid (e : Descriptor.error)
| FactoryRegistered (id : string) | FactoryNotRegistered (id : string)
| DesiredIDRequired | DesiredDuplicated (id : string)
| AccountIDRequired (id : string) | AccountPriorityNegative (id account : string)
| AccountDuplicated (id account : string)
| ConfigInvalid (id : string) | ConstructFailed (id : string) | ConstructedNil (id : string)
| WrongID (id reported : string) | CapabilityUndescribed (e : Descriptor.error)
| InstanceInvalid (id : string)
| PublishFailed | ContextDone | DrainWaitFailed.

Section Manager.

(** The opaque provider configuration, the fingerprint of its JSON text ([None]
    when it cannot be encoded), and the clock. *)
Context {Cfg : Type} (configFingerprint : Cfg → option string) (clock : nat → Time).

(* src/internal/provider/manager.go DesiredProvider *)
Record DesiredProvider := mkDesired {
  dp_ID : string; dp_Enabled : bool; dp_Config : Cfg; dp_ConfigFingerprint : string;
  dp_Accounts : list AccountState;
}.

(** [Build] gets the number of instances built before, so that equal calls may
    have different results. *)
(* src/internal/provider/descriptor.go FactoryFuncs *)
Record FactoryFuncs := mkFactory {
  ff_ProviderDescriptor : Descriptor.t;
  ff_ValidateConfigFunc : option (Cfg → bool);
  ff_BuildFunc : option (nat → Cfg → build_result);
  ff_ValidateFunc : option (instance → bool);
}.

(* src/internal/provider/descriptor.go FactoryFuncs.ValidateConfig *)
Definition ValidateConfig (f : FactoryFuncs) (c : Cfg) : bool :=
  match ff_ValidateConfigFunc f with None => true | Some g => g c end.
(* src/internal/provider/descriptor.go FactoryFuncs.Build *)
Definition Build (f : FactoryFuncs) (n : nat) (c : Cfg) : build_result :=
  match ff_BuildFunc f with None => BuildFailed | Some g => g n c end.
(* src/internal/provider/descriptor.go FactoryFuncs.ValidateProvider *)
Definition ValidateProvider (f : FactoryFuncs) (i : instance) : bool :=
  match ff_ValidateFunc f with None => true | Some g => g i end.
Definition factory_ID (f : FactoryFuncs) : string := Descriptor.d_ID (ff_ProviderDescriptor f).

(* src/internal/provider/manager.go Manager *)
Record Manager := mkManager {
  factories : gmap string FactoryFuncs;
  factoryOrder : list string;
  desired : gmap string desiredRecord;
  effective : gmap string effectiveRecord;
  health : HealthRegistry.t;
  events : EventBus.t;
  options : ManagerOptions;
  ticks : nat;
  built : list instance;
  closed : list nat;
}.

(* src/internal/provider/manager.go NewManager *)
Definition NewManager (publisher : bool) (health : option HealthRegistry.t)
    (events : option EventBus.t) (options : ManagerOptions) : result Manager error :=
  if negb publisher then Err PublisherRequired
  else
    Ok (mkManager ∅ [] ∅ ∅ (default ∅ health) (default (NewEventBus 256) events)
          (mkOptions
             (if DrainTimeout options <=? 0 then 30 * Second else DrainTimeout options)
             (if CloseTimeout options <=? 0 then 5 * Second else CloseTimeout options))
          0 [] []).

(** *** Updates *)

Definition set_factories f o (m : Manager) : Manager :=
  mkManager f o (desired m) (effective m) (health m) (events m) (options m) (ticks m) (built m) (closed m).
Definition set_desired d (m : Manager) : Manager :=
  mkManager (factories m) (factoryOrder m) d (effective m) (health m) (events m) (options m)
    (ticks m) (built m) (closed m).
Definition set_effective e (m : Manager) : Manager :=
  mkManager (factories m) (factoryOrder m) (desired m) e (health m) (events m) (options m)
    (ticks m) (built m) (closed m).

(** [manager.health.Set] and [manager.events.Publish] read the clock. *)
Definition set_health (r : HealthRecord) (m : Manager) : Manager :=
  mkManager (factories m) (factoryOrder m) (desired m) (effective m)
    (Set_ (clock (ticks m)) r (health m)) (events m) (options m) (S (ticks m)) (built m) (closed m).
Definition remove_health (id : string) (m : Manager) : Manager :=
  mkManager (factories m) (factoryOrder m) (desired m) (effective m)
    (Remove id (health m)) (events m) (options m) (ticks m) (built m) (closed m).
Definition publish_event (type : EventType) (id : string) (generation : Z) (reason : string)
    (pending : Z) (m : Manager) : Manager :=
  mkManager (factories m) (factoryOrder m) (desired m) (effective m) (health m)
    (fst (Publish (clock (ticks m)) (mkEvent 0 type id generation reason pending zeroTime) (events m)))
    (options m) (S (ticks m)) (built m) (closed m).
Definition tick (m : Manager) : Manager :=
  mkManager (factories m) (factoryOrder m) (desired m) (effective m) (health m) (events m)
    (options m) (S (ticks m)) (built m) (closed m).

(** A provider the factory has just constructed. *)
Definition add_built (p : Provider) (close : option bool) (m : Manager) : Manager * instance :=
  let i := mkInstance (length (built m)) p close in
  (mkManager (factories m) (factoryOrder m) (desired m) (effective m) (health m) (events m)
     (options m) (ticks m) (built m ++ [i]) (closed m), i).

Definition record_state (id : string) (s : State) (h : Health) (generation : Z) : HealthRecord :=
  mkRecord id s h generation zeroTime.

(** *** Helpers *)

(* src/internal/provider/manager.go validateAccounts *)
Definition validateAccounts (id : string) (accounts : list AccountState) : result unit error :=
  scan_unique
    (λ a, if String.eqb (ac_ID a) "" then Some (AccountIDRequired id)
          else if ac_Priority a <? 0 then Some (AccountPriorityNegative id (ac_ID a)) else None)
    ac_ID (λ a, AccountDuplicated id (ac_ID a)) (λ _, None) ∅ accounts.

(* src/internal/provider/manager.go desiredFingerprint *)
Definition desiredFingerprint (spec : DesiredProvider) : option string :=
  if String.eqb (dp_ConfigFingerprint spec) "" then configFingerprint (dp_Config spec)
  else Some (dp_ConfigFingerprint spec).

(** The instances in registration order, then those of no registered factory in
    the order of their identifiers. *)
(* src/internal/provider/manager.go providersFromEffective *)
Definition providersFromEffective (effective : gmap string effectiveRecord) (order : list string)
    : list instance :=
  let instances := omap (λ id, er_provider <$> effective !! id) in
  let providers := instances order in
  if bool_decide (length providers = size effective) then providers
  else providers ++ instances (sort_Strings (filter (λ id, id ∉ order) (elements (dom effective)))).

(* src/internal/provider/manager.go completedDrainReport *)
Definition completedDrainReport (m : Manager) : Manager * DrainReport :=
  let now := clock (ticks m) in (tick m, mkReport now now now true false 0 0).

(** The result counts the failures among [providers]; what has no [Close] counts
    as closed. *)
(* src/internal/provider/manager.go Manager.closeProvider *)
(* src/internal/provider/manager.go Manager.closeProviders *)
Definition closeProviders (providers : list instance) (m : Manager) : Manager * Z :=
  (mkManager (factories m) (factoryOrder m) (desired m) (effective m) (health m) (events m)
     (options m) (ticks m) (built m) (closed m ++ (in_addr <$> providers)),
   Z.of_nat (length (filter (λ i, in_Close i = Some false) providers))).

(* src/internal/provider/manager.go Manager.updateHealth *)
Definition updateHealth (generation : Z) (sample : nat → Health) (m : Manager) : Manager :=
  foldl (λ m id,
    match effective m !! id with
    | None => set_health (record_state id StateDisabled zeroHealth generation) m
    | Some record =>
      let h := sample (in_addr (er_provider record)) in
      set_health (record_state id (stateFromHealth h) h generation) m
    end) m (factoryOrder m).

(** ** Factories *)

(* src/internal/provider/manager.go Manager.RegisterFactory *)
Definition RegisterFactory (factory : option FactoryFuncs) (m : Manager) : Manager * result unit error :=
  match factory with
  | None => (m, Err FactoryRequired)
  | Some f =>
    match Descriptor.ValidateDescriptor (ff_ProviderDescriptor f) with
    | Err e => (m, Err (DescriptorInvalid e))
    | Ok _ =>
      let id := factory_ID f in
      match factories m !! id with
      | Some _ => (m, Err (FactoryRegistered id))
      | None =>
        let m := set_factories (<[id := f]> (factories m)) (factoryOrder m ++ [id]) m in
        let m := set_health (record_state id StateDisabled zeroHealth 0) m in
        (publish_event EventFactoryRegistered id 0 "" 0 m, Ok tt)
      end
    end
  end.

(** Every way out but the last one closes what was built. *)
(* src/internal/provider/manager.go Manager.build *)
Definition build (f : FactoryFuncs) (config : Cfg) (m : Manager) : Manager * result instance error :=
  let id := factory_ID f in
  let m := publish_event EventConstructing id 0 "" 0 m in
  if negb (ValidateConfig f config) then (m, Err (ConfigInvalid id))
  else
    match Build f (length (built m)) config with
    | BuildFailed => (m, Err (ConstructFailed id))
    | BuildNil => (m, Err (ConstructedNil id))
    | Built p close =>
      let '(m, registered) := add_built p close m in
      if negb (String.eqb (instance_ID registered) id) then
        (fst (closeProviders [registered] m), Err (WrongID id (instance_ID registered)))
      else
        let m := publish_event EventValidating id 0 "" 0 m in
        match Descriptor.validateCapabilities (ff_ProviderDescriptor f) (p_Capabilities p) with
        | Err e => (fst (closeProviders [registered] m), Err (CapabilityUndescribed e))
        | Ok _ =>
          if ValidateProvider f registered then (m, Ok registered)
          else (fst (closeProviders [registered] m), Err (InstanceInvalid id))
        end
    end.

(** ** Preparing an operation *)

(** What an operation still has to do once its instances are published. *)
Inductive pending :=
| PReconcile (nextEffective oldEffective : gmap string effectiveRecord)
    (nextDesired : gmap string desiredRecord) (reused : gset string) (newlyBuilt : list instance)
| PReplace (id : string) (replacement : instance) (nextEffective oldEffective : gmap string effectiveRecord)
    (desired : desiredRecord) (fingerprint : string)
| PRemove (unregister : bool) (id : string) (old : instance) (nextEffective : gmap string effectiveRecord)
    (desired : desiredRecord).

(** An operation that needs no publication is done, with its report. *)
Inductive outcome := Done (report : DrainReport) | Publishing (providers : list instance) (k : pending).

(** The pass over the desired set. *)
(* src/internal/provider/manager.go:209-221 Manager.Reconcile *)
Fixpoint collect (requested : gmap string DesiredProvider) (specs : list DesiredProvider)
    : result (gmap string DesiredProvider) error :=
  match specs with
  | [] => Ok requested
  | spec :: specs =>
    if String.eqb (dp_ID spec) "" then Err DesiredIDRequired
    else
      match requested !! dp_ID spec with
      | Some _ => Err (DesiredDuplicated (dp_ID spec))
      | None =>
        let? _ := validateAccounts (dp_ID spec) (dp_Accounts spec) in
        collect (<[dp_ID spec := spec]> requested) specs
      end
  end.

(** The local variables of the build loop. *)
Record plan := mkPlan {
  pl_effective : gmap string effectiveRecord; pl_built : list instance;
  pl_reused : gset string; pl_changed : bool;
}.

(** The instance of [spec] that is kept: same fingerprint, and still effective. *)
Definition reusable (spec : DesiredProvider) (m : Manager) : option effectiveRecord :=
  match desiredFingerprint spec, desired m !! dp_ID spec, effective m !! dp_ID spec with
  | Some fingerprint, Some prior, Some record =>
    if dr_enabled prior && String.eqb (dr_fingerprint prior) fingerprint then Some record else None
  | _, _, _ => None
  end.

(** The maps read here are the copies taken at the start; no iteration changes
    the maps they copy.  Every identifier of the order has a factory ([wf]). *)
(* src/internal/provider/manager.go:243-268 Manager.Reconcile *)
Fixpoint build_loop (requested : gmap string DesiredProvider) (order : list string) (p : plan)
    (m : Manager) : Manager * result plan error :=
  match order with
  | [] => (m, Ok p)
  | id :: order =>
    match requested !! id, factories m !! id with
    | Some spec, Some f =>
      if negb (dp_Enabled spec) then
        build_loop requested order
          (mkPlan (pl_effective p) (pl_built p) (pl_reused p)
             (pl_changed p || bool_decide (is_Some (effective m !! id)))) m
      else
        match reusable spec m with
        | Some record =>
          build_loop requested order
            (mkPlan (<[id := record]> (pl_effective p)) (pl_built p) ({[id]} ∪ pl_reused p) (pl_changed p)) m
        | None =>
          let '(m, r) := build f (dp_Config spec) m in
          match r with
          | Err e =>
            let m := fst (closeProviders (pl_built p) m) in
            (publish_event EventReconcileFailed id 0 "build_or_validation_failed" 0 m, Err e)
          | Ok registered =>
            build_loop requested order
              (mkPlan (<[id := mkEffective registered 0]> (pl_effective p)) (pl_built p ++ [registered])
                 (pl_reused p) true) m
          end
        end
    | _, _ =>
      build_loop requested order
        (mkPlan (pl_effective p) (pl_built p) (pl_reused p)
           (pl_changed p || bool_decide (is_Some (effective m !! id)))) m
    end
  end.

Definition desired_record (spec : DesiredProvider) : desiredRecord :=
  mkDesiredRecord (dp_Enabled spec) (dp_Accounts spec) (default "" (desiredFingerprint spec)).

(** [ctxDone]: the caller's context is over. *)
(* src/internal/provider/manager.go:197-284 Manager.Reconcile *)
Definition prepareReconcile (ctxDone : bool) (specs : list DesiredProvider) (m : Manager)
    : Manager * result outcome error :=
  if ctxDone then (m, Err ContextDone)
  else
    match collect ∅ specs with
    | Err e => (m, Err e)
    | Ok requested =>
      match filter (λ kv, factories m !! kv.1 = None) (map_to_list requested) with
      | (id, _) :: _ => (m, Err (FactoryNotRegistered id))
      | [] =>
        let '(m, r) := build_loop requested (factoryOrder m) (mkPlan ∅ [] ∅ false) m in
        match r with
        | Err e => (m, Err e)
        | Ok p =>
          let nextDesired := desired_record <$> requested in
          if negb (pl_changed p) then
            let '(m, report) := completedDrainReport (set_desired nextDesired m) in (m, Ok (Done report))
          else
            (m, Ok (Publishing (providersFromEffective (pl_effective p) (factoryOrder m))
                      (PReconcile (pl_effective p) (effective m) nextDesired (pl_reused p) (pl_built p))))
        end
      end
    end.

(* src/internal/provider/manager.go:319-348 Manager.Replace *)
Definition prepareReplace (ctxDone : bool) (id : string) (config : Cfg) (m : Manager)
    : Manager * result outcome error :=
  if ctxDone then (m, Err ContextDone)
  else
    match factories m !! id with
    | None => (m, Err (FactoryNotRegistered id))
    | Some f =>
      let prior := default noDesired (desired m !! id) in
      let '(m, r) := build f config m in
      match r with
      | Err e => (publish_event EventReconcileFailed id 0 "build_or_validation_failed" 0 m, Err e)
      | Ok replacement =>
        let nextEffective := <[id := mkEffective replacement 0]> (effective m) in
        (m, Ok (Publishing (providersFromEffective nextEffective (factoryOrder m))
                  (PReplace id replacement nextEffective (effective m) prior
                     (default "" (configFingerprint config)))))
      end
    end.

(** What [UnregisterFactory] adds to the removal. *)
(* src/internal/provider/manager.go:174-185 Manager.UnregisterFactory *)
Definition forget_factory (id : string) (m : Manager) : Manager :=
  let m := set_desired (delete id (desired m))
             (set_factories (delete id (factories m)) (Registry.remove_first id (factoryOrder m)) m) in
  publish_event EventFactoryUnregistered id 0 "" 0 (remove_health id m).

(* src/internal/provider/manager.go:400-421 Manager.prepareRemoveLocked *)
Definition prepareRemoveLocked (unregister : bool) (id : string) (m : Manager)
    : Manager * result outcome error :=
  match factories m !! id with
  | None => (m, Err (FactoryNotRegistered id))
  | Some _ =>
    let prior := default noDesired (desired m !! id) in
    match effective m !! id with
    | None =>
      let m := set_desired (<[id := mkDesiredRecord false (dr_accounts prior) (dr_fingerprint prior)]>
                              (desired m)) m in
      let m := set_health (record_state id StateDisabled zeroHealth 0) m in
      let '(m, report) := completedDrainReport m in
      (if unregister then forget_factory id m else m, Ok (Done report))
    | Some old =>
      let nextEffective := delete id (effective m) in
      (m, Ok (Publishing (providersFromEffective nextEffective (factoryOrder m))
                (PRemove unregister id (er_provider old) nextEffective prior)))
    end
  end.

(** [Remove] and [UnregisterFactory] up to the publication. *)
(* src/internal/provider/manager.go Manager.Remove *)
(* src/internal/provider/manager.go:153-173 Manager.UnregisterFactory *)
Definition prepareRemove (ctxDone : bool) (unregister : bool) (id : string) (m : Manager)
    : Manager * result outcome error :=
  if ctxDone then (m, Err ContextDone) else prepareRemoveLocked unregister id m.

(** ** Completing it *)

Definition at_generation (generation : Z) (e : gmap string effectiveRecord) : gmap string effectiveRecord :=
  (λ r, mkEffective (er_provider r) generation) <$> e.

(** The second half of an operation whose publication succeeded: the new state and
    the instances that are retired.  [sample] is what [Health] answers. *)
(* src/internal/provider/manager.go:291-313 Manager.Reconcile *)
(* src/internal/provider/manager.go:354-371 Manager.Replace *)
(* src/internal/provider/manager.go:425-437 Manager.prepareRemoveLocked *)
Definition complete (k : pending) (generation : Z) (sample : nat → Health) (m : Manager)
    : Manager * list instance :=
  match k with
  | PReconcile nextEffective oldEffective nextDesired reused _ =>
    let m := set_desired nextDesired (set_effective (at_generation generation nextEffective) m) in
    let m := updateHealth generation sample m in
    let m := foldl (λ m id,
               if bool_decide (is_Some (nextEffective !! id))
               then publish_event EventPublished id generation "" 0 m else m) m (factoryOrder m) in
    (m, providersFromEffective (filter (λ kv, kv.1 ∉ reused) oldEffective) (factoryOrder m))
  | PReplace id _ nextEffective oldEffective prior fingerprint =>
    let m := set_effective (at_generation generation nextEffective) m in
    let m := set_desired (<[id := mkDesiredRecord true (dr_accounts prior) fingerprint]> (desired m)) m in
    let m := updateHealth generation sample m in
    let m := publish_event EventPublished id generation "" 0 m in
    (m, match oldEffective !! id with Some old => [er_provider old] | None => [] end)
  | PRemove unregister id old nextEffective prior =>
    let m := set_effective (at_generation generation nextEffective) m in
    let m := set_desired (<[id := mkDesiredRecord false (dr_accounts prior) (dr_fingerprint prior)]>
                            (desired m)) m in
    let m := set_health (record_state id StateDisabled zeroHealth generation) m in
    let m := publish_event EventRemoved id generation "" 0 m in
    (if unregister then forget_factory id m else m, [old])
  end.

(** The publisher's error: what was built is closed. *)
(* src/internal/provider/manager.go:286-290 Manager.Reconcile *)
(* src/internal/provider/manager.go:350-353 Manager.Replace *)
(* src/internal/provider/manager.go:422-424 Manager.prepareRemoveLocked *)
Definition refused (k : pending) (m : Manager) : Manager * error :=
  match k with
  | PReconcile _ _ _ _ newlyBuilt =>
    let m := fst (closeProviders newlyBuilt m) in
    (publish_event EventReconcileFailed "" 0 "publication_failed" 0 m, PublishFailed)
  | PReplace _ replacement _ _ _ _ => (fst (closeProviders [replacement] m), PublishFailed)
  | PRemove _ _ _ _ _ => (m, PublishFailed)
  end.

(** *** The operations up to the release of the mutex *)

Inductive operation :=
| OpReconcile (specs : list DesiredProvider)
| OpReplace (id : string) (config : Cfg)
| OpRemove (unregister : bool) (id : string).

Definition prepare (ctxDone : bool) (op : operation) (m : Manager) : Manager * result outcome error :=
  match op with
  | OpReconcile specs => prepareReconcile ctxDone specs m
  | OpReplace id config => prepareReplace ctxDone id config m
  | OpRemove unregister id => prepareRemove ctxDone unregister id m
  end.

(** [publish] is the call of the snapshot publisher: the new generation, or
    [None] for an error.  The result is the report when nothing was published, or
    the generation and what is left to drain. *)
(* src/internal/provider/manager.go Manager.Reconcile *)
(* src/internal/provider/manager.go Manager.Replace *)
(* src/internal/provider/manager.go Manager.UnregisterFactory *)
Definition run (ctxDone : bool) (op : operation) (publish : list instance → option Z)
    (sample : nat → Health) (m : Manager) : Manager * result (DrainReport + Z * list instance) error :=
  match prepare ctxDone op m with
  | (m, Err e) => (m, Err e)
  | (m, Ok (Done report)) => (m, Ok (inl report))
  | (m, Ok (Publishing l k)) =>
    match publish l with
    | None => let '(m, e) := refused k m in (m, Err e)
    | Some generation =>
      let '(m, retired) := complete k generation sample m in (m, Ok (inr (generation, retired)))
    end
  end.

(** ** Draining *)

(** One event for each retired instance; [pending n] is the count the n-th carries. *)
Definition each_event (type : EventType) (generation : Z) (reason : string) (pending : nat → Z)
    (retired : list instance) (m : Manager) : Manager :=
  foldl (λ m ni, publish_event type (instance_ID ni.2) generation reason (pending ni.1) m) m
    (imap (λ n i, (n, i)) retired).

(* src/internal/provider/manager.go Manager.publishDrained *)
Definition publishDrained (generation : Z) (retired : list instance) (closeErrors : Z) (m : Manager)
    : Manager :=
  each_event EventDrained generation (if 0 <? closeErrors then "close_failed" else "") (λ _, 0) retired m.

(** Before the wait.  [pending n] is the answer of the n-th call of
    [Retirement.Pending]. *)
(* src/internal/provider/manager.go:536-553 Manager.drainRetired *)
Definition drain_begin (generation : Z) (pending : nat → Z) (retired : list instance) (m : Manager)
    : Manager * DrainReport :=
  let started := clock (ticks m) in
  let m := tick m in
  (each_event EventDrainStarted generation "" (λ n, pending (S n)) retired m,
   mkReport started (started + DrainTimeout (options m)) zeroTime false false (pending O) 0).

(** The wait has ended: in the call, which reads the clock for its report, or later
    in the goroutine it left behind. *)
(* src/internal/provider/manager.go:557-564 Manager.drainRetired *)
(* src/internal/provider/manager.go:579-583 Manager.drainRetired *)
Definition drain_done (inCall : bool) (generation : Z) (retired : list instance) (m : Manager)
    : Manager * Z :=
  let '(m, closeErrors) := closeProviders retired m in
  let m := if inCall then tick m else m in
  (publishDrained generation retired closeErrors m, closeErrors).

(* src/internal/provider/manager.go:568-578 Manager.drainRetired *)
Definition drain_timeout (generation pending : Z) (retired : list instance) (m : Manager) : Manager :=
  each_event EventDrainTimedOut generation "bounded_wait_elapsed" (λ _, pending) retired m.

Inductive wait_result := Waited | DeadlineExceeded | WaitFailed.

(** The whole of [drainRetired], the background goroutine apart; [retirement] is
    [false] when the publication has none. *)
(* src/internal/provider/manager.go Manager.drainRetired *)
Definition drainRetired (generation : Z) (retirement : bool) (pending : nat → Z) (pending' : Z) (w : wait_result)
    (retired : list instance) (m : Manager) : Manager * (DrainReport * option error) :=
  if bool_decide (retired = []) || negb retirement then
    let '(m, report) := completedDrainReport m in (m, (report, None))
  else
    let '(m, r) := drain_begin generation pending retired m in
    match w with
    | Waited =>
      let completed := clock (ticks m) in
      let '(m, closeErrors) := drain_done true generation retired m in
      (m, (mkReport (rp_StartedAt r) (rp_Deadline r) completed true false 0 closeErrors, None))
    | WaitFailed => (m, (r, Some DrainWaitFailed))
    | DeadlineExceeded =>
      (drain_timeout generation pending' retired m,
       (mkReport (rp_StartedAt r) (rp_Deadline r) zeroTime false true pending' 0, None))
    end.

(** ** Reading *)

(* src/internal/provider/manager.go ProviderStatus *)
Record ProviderStatus := mkStatus {
  st_Descriptor : Descriptor.t; st_Enabled : bool; st_EffectiveCapabilities : list string;
  st_Accounts : list AccountState; st_Health : HealthRecord; st_Generation : Z;
}.


(* src/internal/provider/manager.go effectiveCapabilities *)
Definition effectiveCapabilities (i : option instance) : list string :=
  match i with None => [] | Some i => p_Capabilities (in_methods i) end.

(** An identifier of the order that has no factory would be a nil call. *)
(* src/internal/provider/manager.go Manager.List *)
Definition List (m : Manager) : list ProviderStatus :=
  omap (λ id,
    f ← factories m !! id;
    let d := default noDesired (desired m !! id) in
    let e := effective m !! id in
    Some (mkStatus (ff_ProviderDescriptor f) (bool_decide (is_Some e) && dr_enabled d)
            (effectiveCapabilities (er_provider <$> e)) (dr_accounts d)
            (default (record_state id StateDisabled zeroHealth 0) (Get (health m) id))
            (default 0 (er_generation <$> e))))
    (factoryOrder m).

(* src/internal/provider/manager.go Manager.RefreshHealth *)
Definition RefreshHealth (sample : nat → Health) (m : Manager) : Manager :=
  foldl (λ m kv,
    let h := sample (in_addr (er_provider kv.2)) in
    set_health (record_state kv.1 (stateFromHealth h) h (er_generation kv.2)) m)
    m (map_to_list (effective m)).

(** ** Frames

    Everything but events, health and the clock. *)

Definition core (m : Manager) :=
  (factories m, factoryOrder m, desired m, effective m, built m, closed m).

Lemma core_foldl {A} (f : Manager → A → Manager) (l : list A) m :
  (∀ m x, core (f m x) = core m) → core (foldl f m l) = core m.
Proof. intros Hf. revert m; induction l as [|x l IH]; intros m; simpl; [done|]. by rewrite IH. Qed.

Lemma core_updateHealth g sample m : core (updateHealth g sample m) = core m.
Proof. apply core_foldl. intros m' id. by destruct (effective m' !! id). Qed.

Lemma core_each_event ty g reason pending l m : core (each_event ty g reason pending l m) = core m.
Proof. by apply core_foldl. Qed.

Lemma core_RefreshHealth sample m : core (RefreshHealth sample m) = core m.
Proof. by apply core_foldl. Qed.

Lemma core_eq m m' : core m = core m' →
  factories m = factories m' ∧ factoryOrder m = factoryOrder m' ∧ desired m = desired m'
  ∧ effective m = effective m' ∧ built m = built m' ∧ closed m = closed m'.
Proof. by intros [= ? ? ? ? ? ?]. Qed.

(** ** Invariant *)

(** What [build] has checked of an instance it accepts. *)
Definition accepted (f : FactoryFuncs) (i : instance) : Prop :=
  instance_ID i = factory_ID f
  ∧ (∀ c, c ∈ p_Capabilities (in_methods i) → c ∈ Descriptor.d_Capabilities (ff_ProviderDescriptor f))
  ∧ ValidateProvider f i = true.

Record wf (m : Manager) : Prop := {
  wf_order : NoDup (factoryOrder m);
  wf_factories : ∀ id, id ∈ factoryOrder m ↔ is_Some (factories m !! id);
  wf_descriptor : ∀ id f, factories m !! id = Some f →
    factory_ID f = id ∧ Descriptor.valid (ff_ProviderDescriptor f);
  wf_effective : ∀ id r, effective m !! id = Some r →
    er_provider r ∈ built m ∧ ∃ f, factories m !! id = Some f ∧ accepted f (er_provider r);
  wf_built : in_addr <$> built m = seq 0 (length (built m));
}.

Lemma wf_core m m' : core m = core m' → wf m → wf m'.
Proof.
  intros (Hf & Ho & Hd & He & Hb & Hc)%core_eq [H1 H2 H3 H4 H5].
  split; rewrite <-?Hf, <-?Ho, <-?Hd, <-?He, <-?Hb; done.
Qed.

Lemma wf_NewManager publisher h ev o m : NewManager publisher h ev o = Ok m → wf m.
Proof.
  unfold NewManager. destruct publisher; [|done]. intros [= <-].
  split; simpl; [constructor| |done|done|done].
  intros id. split; [by intros ?%not_elem_of_nil|by intros [? ?]].
Qed.

Lemma built_inj m i j : wf m → i ∈ built m → j ∈ built m → in_addr i = in_addr j → i = j.
Proof.
  intros Hw (x & Hx)%list_elem_of_lookup (y & Hy)%list_elem_of_lookup Heq.
  pose proof (wf_built m Hw) as Hb.
  assert (∀ n k, built m !! n = Some k → in_addr k = n) as Hn.
  { intros n k Hk. assert (Hk' : (in_addr <$> built m) !! n = Some (in_addr k))
      by (by rewrite list_lookup_fmap, Hk). rewrite Hb in Hk'.
    apply lookup_seq in Hk'. lia. }
  rewrite (Hn _ _ Hx), (Hn _ _ Hy) in Heq. congruence.
Qed.

(** Two identifiers never share an instance. *)
Lemma effective_inj m id id' r r' :
  wf m → effective m !! id = Some r → effective m !! id' = Some r' →
  in_addr (er_provider r) = in_addr (er_provider r') → id = id'.
Proof.
  intros Hw Hr Hr' Heq.
  destruct (wf_effective m Hw id r Hr) as (Hb & f & Hf & Ha & _).
  destruct (wf_effective m Hw id' r' Hr') as (Hb' & f' & Hf' & Ha' & _).
  apply (built_inj m _ _ Hw Hb Hb') in Heq as Heq'. rewrite <-Heq' in Ha'.
  destruct (wf_descriptor m Hw id f Hf) as [<- _], (wf_descriptor m Hw id' f' Hf') as [<- _]. congruence.
Qed.

(** *** Building *)

(** Instances built by a step get the next addresses. *)
Definition fresh (m : Manager) (new : list instance) : Prop :=
  in_addr <$> new = seq (length (built m)) (length new).

Lemma fresh_built m new :
  in_addr <$> built m = seq 0 (length (built m)) → fresh m new →
  in_addr <$> (built m ++ new) = seq 0 (length (built m ++ new)).
Proof. intros Hb Hn. by rewrite fmap_app, Hb, Hn, length_app, seq_app. Qed.

Lemma fresh_app m m' l k :
  built m' = built m ++ l → fresh m l → fresh m' k → fresh m (l ++ k).
Proof.
  unfold fresh. intros Hb Hl Hk. rewrite fmap_app, Hl, Hk, Hb, !length_app, seq_app. done.
Qed.

(** The fields an operation leaves alone until it completes. *)
Definition same_tables (m m' : Manager) : Prop :=
  factories m' = factories m ∧ factoryOrder m' = factoryOrder m
  ∧ desired m' = desired m ∧ effective m' = effective m.

Lemma build_spec f config m m' r :
  build f config m = (m', r) →
  same_tables m m' ∧ ∃ new, built m' = built m ++ new ∧ fresh m new ∧
  match r with
  | Ok i => new = [i] ∧ closed m' = closed m ∧ accepted f i
  | Err _ => closed m' = closed m ++ (in_addr <$> new)
  end.
Proof.
  unfold build. intros Hb.
  destruct (ValidateConfig f config); simpl in Hb;
    [|injection Hb as <- <-; split; [done|exists []; by rewrite !app_nil_r]].
  destruct (Build f _ config) as [| |p close]; simpl in Hb;
    [injection Hb as <- <-; split; [done|exists []; by rewrite !app_nil_r]..|].
  set (i := mkInstance (length (built m)) p close) in *.
  assert (Hfr : fresh m [i]) by done.
  destruct (String.eqb_spec (instance_ID i) (factory_ID f)) as [Hid|Hid]; simpl in Hb;
    [|injection Hb as <- <-; split; [done|by exists [i]]].
  destruct (Descriptor.validateCapabilities _ _) as [[]|e] eqn:Hc; simpl in Hb;
    [|injection Hb as <- <-; split; [done|by exists [i]]].
  pose proof (proj1 (Descriptor.validateCapabilities_Ok _ _) Hc) as Hcaps.
  destruct (ValidateProvider f i) eqn:Hv; injection Hb as <- <-; (split; [done|exists [i]; done]).
Qed.

(** The specification and the factory of an identifier that is to be effective. *)
Definition wanted (requested : gmap string DesiredProvider) (m : Manager) (id : string)
    : option (DesiredProvider * FactoryFuncs) :=
  spec ← requested !! id;
  f ← factories m !! id;
  if dp_Enabled spec then Some (spec, f) else None.

(** What the loop does at one identifier, given the instances it built. *)
Definition loop_entry (requested : gmap string DesiredProvider) (m : Manager)
    (e : gmap string effectiveRecord) (reused : gset string) (new : list instance)
    (e0 : option effectiveRecord) (r0 : Prop) (id : string) : Prop :=
  match wanted requested m id with
  | None => e !! id = e0 ∧ (id ∈ reused ↔ r0)
  | Some (spec, f) =>
    match reusable spec m with
    | Some r => e !! id = Some r ∧ id ∈ reused
    | None => ∃ i, e !! id = Some (mkEffective i 0) ∧ i ∈ new ∧ accepted f i ∧ (id ∈ reused ↔ r0)
    end
  end.

Lemma same_tables_trans m1 m2 m3 : same_tables m1 m2 → same_tables m2 m3 → same_tables m1 m3.
Proof. unfold same_tables. intros (?&?&?&?) (?&?&?&?). split_and!; congruence. Qed.

Lemma reusable_same m m' spec : same_tables m m' → reusable spec m' = reusable spec m.
Proof. intros (_ & _ & Hd & He). unfold reusable. by rewrite Hd, He. Qed.

Lemma wanted_same requested m m' id :
  same_tables m m' → wanted requested m' id = wanted requested m id.
Proof. intros (Hf & _). unfold wanted. by rewrite Hf. Qed.

Lemma loop_entry_same requested m m' e reused new e0 r0 id :
  same_tables m m' → loop_entry requested m' e reused new e0 r0 id →
  loop_entry requested m e reused new e0 r0 id.
Proof.
  intros Hs. unfold loop_entry. rewrite (wanted_same _ m m' _ Hs).
  destruct (wanted requested m id) as [[spec f]|]; [|done]. by rewrite (reusable_same m m' _ Hs).
Qed.

Lemma loop_entry_more requested m e reused new new' e0 r0 id :
  (∀ i, i ∈ new → i ∈ new') →
  loop_entry requested m e reused new e0 r0 id → loop_entry requested m e reused new' e0 r0 id.
Proof.
  intros Hn. unfold loop_entry. destruct (wanted requested m id) as [[spec f]|]; [|done].
  destruct (reusable spec m); [done|]. intros (i & ? & ? & ? & ?). exists i. auto.
Qed.

Record loop_ok (requested : gmap string DesiredProvider) (order : list string)
    (p : plan) (m : Manager) (p' : plan) (m' : Manager) (new : list instance) : Prop := {
  lo_tables : same_tables m m';
  lo_built : built m' = built m ++ new;
  lo_fresh : fresh m new;
  lo_closed : closed m' = closed m;
  lo_new : pl_built p' = pl_built p ++ new;
  lo_out : ∀ id, id ∉ order →
    pl_effective p' !! id = pl_effective p !! id ∧ (id ∈ pl_reused p' ↔ id ∈ pl_reused p);
  lo_in : ∀ id, id ∈ order →
    loop_entry requested m (pl_effective p') (pl_reused p') new
      (pl_effective p !! id) (id ∈ pl_reused p) id;
  lo_used : ∀ i, i ∈ new → ∃ id, id ∈ order ∧ pl_effective p' !! id = Some (mkEffective i 0);
  lo_changed : pl_changed p' = true ↔ pl_changed p = true ∨ new ≠ [] ∨
    ∃ id, id ∈ order ∧ wanted requested m id = None ∧ is_Some (effective m !! id);
}.

(** One iteration followed by the rest. *)
Lemma loop_ok_cons requested id order p m p1 m1 new1 p' m' new2 :
  id ∉ order →
  same_tables m m1 → built m1 = built m ++ new1 → fresh m new1 → closed m1 = closed m →
  pl_built p1 = pl_built p ++ new1 →
  (∀ x, x ≠ id → pl_effective p1 !! x = pl_effective p !! x ∧ (x ∈ pl_reused p1 ↔ x ∈ pl_reused p)) →
  loop_entry requested m (pl_effective p1) (pl_reused p1) new1 (pl_effective p !! id) (id ∈ pl_reused p) id →
  (∀ i, i ∈ new1 → pl_effective p1 !! id = Some (mkEffective i 0)) →
  (pl_changed p1 = true ↔ pl_changed p = true ∨ new1 ≠ [] ∨
     wanted requested m id = None ∧ is_Some (effective m !! id)) →
  loop_ok requested order p1 m1 p' m' new2 →
  loop_ok requested (id :: order) p m p' m' (new1 ++ new2).
Proof.
  intros Hid Ht Hb Hfr Hc Hpb Hout Hin Hused Hch [Lt Lb Lf Lc Ln Lo Li Lu Lch].
  destruct (Lo id Hid) as [Hide Hidr].
  split.
  - by eapply same_tables_trans.
  - by rewrite Lb, Hb, app_assoc.
  - by eapply fresh_app.
  - congruence.
  - by rewrite Ln, Hpb, app_assoc.
  - intros x [Hx Hxo]%not_elem_of_cons. destruct (Lo x Hxo) as [-> ->]. by apply Hout.
  - intros x [->|Hx]%elem_of_cons.
    + unfold loop_entry in *. destruct (wanted requested m id) as [[spec f]|];
        [|rewrite Hide, Hidr; done].
      destruct (reusable spec m); [rewrite Hide, Hidr; done|].
      destruct Hin as (i & ? & ? & ? & ?). exists i. rewrite Hide, Hidr. set_solver.
    + specialize (Li x Hx). assert (x ≠ id) as Hne by (intros ->; done).
      destruct (Hout x Hne) as [He Hr]. apply (loop_entry_same _ m m1); [done|].
      apply (loop_entry_more _ _ _ _ new2); [set_solver|].
      unfold loop_entry in *. rewrite <-He.
      destruct (wanted requested m1 x) as [[spec f]|]; [|by rewrite <-Hr].
      destruct (reusable spec m1); [done|]. destruct Li as (i & ? & ? & ? & ?). exists i.
      rewrite <-Hr. done.
  - intros i [Hi|Hi]%elem_of_app.
    + exists id. split; [by left|]. rewrite Hide. by apply Hused.
    + destruct (Lu i Hi) as (x & Hx & He). exists x. split; [by right|done].
  - rewrite Lch, Hch. setoid_rewrite (wanted_same requested m m1); [|done..].
    destruct Ht as (_ & _ & _ & ->). setoid_rewrite elem_of_cons.
    assert (new1 ++ new2 ≠ [] ↔ new1 ≠ [] ∨ new2 ≠ []) as ->
      by (destruct new1; naive_solver).
    clear. split; [intros [[?|[?|[? ?]]]|[?|(x & ? & ?)]]|intros [?|[[?|?]|(x & [->|?] & ?)]]]; eauto 8.
Qed.

Lemma loop_ok_nil requested p m : loop_ok requested [] p m p m [].
Proof.
  split; [done|by rewrite app_nil_r|done|done|by rewrite app_nil_r|done|set_solver..].
Qed.

(** The requested specifications are stored under their identifiers. *)
Definition keyed (requested : gmap string DesiredProvider) : Prop :=
  ∀ id spec, requested !! id = Some spec → dp_ID spec = id.

Lemma wanted_Some requested m id spec f :
  wanted requested m id = Some (spec, f) ↔
  requested !! id = Some spec ∧ factories m !! id = Some f ∧ dp_Enabled spec = true.
Proof.
  unfold wanted. destruct (requested !! id) as [s|]; simpl; [|naive_solver].
  destruct (factories m !! id); simpl; [|naive_solver].
  destruct (dp_Enabled s) eqn:He; (split; [intros Heq; simplify_eq; done|intros (? & ? & ?); congruence]).
Qed.

(** An identifier that is not wanted only counts as a change when it is active. *)
Lemma loop_skip requested id order p m p' m' new2 :
  id ∉ order → wanted requested m id = None →
  loop_ok requested order
    (mkPlan (pl_effective p) (pl_built p) (pl_reused p)
       (pl_changed p || bool_decide (is_Some (effective m !! id)))) m p' m' new2 →
  loop_ok requested (id :: order) p m p' m' new2.
Proof.
  intros Hid Hw Hl. apply (loop_ok_cons requested id order p m _ m [] p' m' new2) in Hl; try done.
  - by rewrite app_nil_r.
  - by rewrite app_nil_r.
  - unfold loop_entry. by rewrite Hw.
  - set_solver.
  - simpl. rewrite orb_true_iff, bool_decide_eq_true. naive_solver.
Qed.

Lemma loop_keep requested id order p m p' m' new2 spec f record :
  id ∉ order → wanted requested m id = Some (spec, f) → reusable spec m = Some record →
  loop_ok requested order
    (mkPlan (<[id := record]> (pl_effective p)) (pl_built p) ({[id]} ∪ pl_reused p) (pl_changed p))
    m p' m' new2 →
  loop_ok requested (id :: order) p m p' m' new2.
Proof.
  intros Hid Hw Hr Hl. apply (loop_ok_cons requested id order p m _ m [] p' m' new2) in Hl; try done.
  - by rewrite app_nil_r.
  - by rewrite app_nil_r.
  - intros x Hx. simpl. rewrite lookup_insert_ne by done. set_solver.
  - unfold loop_entry. rewrite Hw, Hr. simpl. rewrite lookup_insert_eq. set_solver.
  - set_solver.
  - simpl. rewrite Hw. naive_solver.
Qed.

Lemma loop_build requested id order p m m1 i p' m' new2 spec f :
  id ∉ order → wanted requested m id = Some (spec, f) → reusable spec m = None →
  build f (dp_Config spec) m = (m1, Ok i) →
  loop_ok requested order
    (mkPlan (<[id := mkEffective i 0]> (pl_effective p)) (pl_built p ++ [i]) (pl_reused p) true)
    m1 p' m' new2 →
  loop_ok requested (id :: order) p m p' m' (i :: new2).
Proof.
  intros Hid Hw Hr Hb Hl. apply build_spec in Hb as (Ht & new & Hb & Hf & -> & Hc & Ha).
  apply (loop_ok_cons requested id order p m _ m1 [i] p' m' new2) in Hl; try done.
  - intros x Hx. simpl. by rewrite lookup_insert_ne by done.
  - unfold loop_entry. rewrite Hw, Hr. simpl. exists i. rewrite lookup_insert_eq. set_solver.
  - intros j ->%list_elem_of_singleton. apply lookup_insert_eq.
  - simpl. split; [|done]. intros _. right; left. done.
Qed.

Lemma build_loop_spec requested order p m m' r :
  NoDup order → keyed requested →
  build_loop requested order p m = (m', r) →
  match r with
  | Ok p' => ∃ new, loop_ok requested order p m p' m' new
  | Err _ => same_tables m m' ∧ ∃ new, built m' = built m ++ new ∧ fresh m new
      ∧ closed m' ≡ₚ closed m ++ (in_addr <$> pl_built p) ++ (in_addr <$> new)
  end.
Proof.
  intros Hnd Hk. revert p m. induction order as [|id order IH]; intros p m Hl.
  { injection Hl as <- <-. exists []. apply loop_ok_nil. }
  apply NoDup_cons in Hnd as [Hid Hnd]. specialize (IH Hnd). cbn [build_loop] in Hl.
  destruct (wanted requested m id) as [[spec f]|] eqn:Hw.
  - apply wanted_Some in Hw as Hw'. destruct Hw' as (Hs & Hf & He). rewrite Hs, Hf, He in Hl. simpl in Hl.
    destruct (reusable spec m) as [record|] eqn:Hr.
    + apply IH in Hl. destruct r as [p'|e]; [|done]. destruct Hl as [new Hl].
      exists new. by eapply loop_keep.
    + destruct (build f (dp_Config spec) m) as [m1 [i|e]] eqn:Hb.
      * apply IH in Hl. destruct r as [p'|e].
        -- destruct Hl as [new Hl]. exists (i :: new). by eapply loop_build.
        -- apply build_spec in Hb as (Ht & new1 & Hb & Hfr & -> & Hc & Ha).
           destruct Hl as (Ht' & new2 & Hb' & Hfr' & Hc'). split; [by eapply same_tables_trans|].
           exists ([i] ++ new2). rewrite Hb', Hb, app_assoc. split_and!; [done|by eapply fresh_app|].
           rewrite Hc', Hc. simpl. rewrite fmap_app, <-app_assoc. done.
      * injection Hl as <- <-. apply build_spec in Hb as (Ht & new & Hb & Hfr & Hc).
        split; [done|]. exists new. simpl. split_and!; [done|done|].
        rewrite Hc, <-app_assoc. f_equiv. apply Permutation_app_comm.
  - assert (Hskip : build_loop requested order
        (mkPlan (pl_effective p) (pl_built p) (pl_reused p)
           (pl_changed p || bool_decide (is_Some (effective m !! id)))) m = (m', r)).
    { unfold wanted in Hw. destruct (requested !! id) as [spec|]; [|done]. simpl in Hw.
      destruct (factories m !! id); [|done]. simpl in Hw. by destruct (dp_Enabled spec). }
    apply IH in Hskip. destruct r as [p'|e]; [|done]. destruct Hskip as [new Hl'].
    exists new. by apply loop_skip.
Qed.

(** ** Publication order *)

Lemma providersFromEffective_registered (e : gmap string effectiveRecord) order :
  NoDup order → (∀ id, is_Some (e !! id) → id ∈ order) →
  providersFromEffective e order = omap (λ id, er_provider <$> e !! id) order.
Proof.
  intros Hnd Hin. unfold providersFromEffective. rewrite bool_decide_eq_true_2; [done|].
  revert e Hin. induction Hnd as [|id order Hid Hnd IH]; intros e Hin; csimpl.
  { assert (e = ∅) as ->; [|done]. apply map_empty. intros id. destruct (e !! id) eqn:He; [|done].
    assert (is_Some (e !! id)) as Hs by eauto. by apply Hin, not_elem_of_nil in Hs. }
  assert (Hrest : omap (λ x, er_provider <$> e !! x) order
    = omap (λ x, er_provider <$> delete id e !! x) order).
  { clear -Hid. induction order as [|x order IH]; csimpl; [done|].
    apply not_elem_of_cons in Hid as [Hx Hid]. rewrite lookup_delete_ne by done.
    rewrite IH by done. done. }
  specialize (IH (delete id e)). rewrite Hrest.
  destruct (e !! id) as [r|] eqn:He; csimpl.
  - rewrite IH.
    { rewrite map_size_delete_Some by eauto. assert (size e ≠ 0%nat); [|lia].
      intros ->%map_size_empty_iff. by rewrite lookup_empty in He. }
    intros x [? Hx%lookup_delete_Some]. destruct Hx as [Hne Hx].
    assert (is_Some (e !! x)) as Hs by eauto. apply Hin in Hs. set_solver.
  - rewrite IH; [by rewrite delete_id|]. intros x [? Hx%lookup_delete_Some]. destruct Hx as [Hne Hx].
    assert (is_Some (e !! x)) as Hs by eauto. apply Hin in Hs. set_solver.
Qed.

Lemma elem_of_providersFromEffective (e : gmap string effectiveRecord) order i :
  NoDup order → (∀ id, is_Some (e !! id) → id ∈ order) →
  i ∈ providersFromEffective e order ↔ ∃ id r, e !! id = Some r ∧ er_provider r = i.
Proof.
  intros Hnd Hin. rewrite providersFromEffective_registered by done. rewrite list_elem_of_omap. split.
  - intros (id & Hid & (r & Hr & ->)%fmap_Some). eauto.
  - intros (id & r & Hr & <-). exists id. split; [apply Hin; eauto|]. by rewrite Hr.
Qed.

(** ** Pending operations *)

Definition next_of (k : pending) : gmap string effectiveRecord :=
  match k with
  | PReconcile e _ _ _ _ => e | PReplace _ _ e _ _ _ => e | PRemove _ _ _ e _ => e
  end.
Definition new_of (k : pending) : list instance :=
  match k with
  | PReconcile _ _ _ _ l => l | PReplace _ i _ _ _ _ => [i] | PRemove _ _ _ _ _ => []
  end.
Definition retired_of (k : pending) (order : list string) : list instance :=
  match k with
  | PReconcile _ old _ reused _ => providersFromEffective (filter (λ kv, kv.1 ∉ reused) old) order
  | PReplace id _ _ old _ _ => match old !! id with Some r => [er_provider r] | None => [] end
  | PRemove _ _ old _ _ => [old]
  end.

(** What a pending operation promises about the tables it was prepared from; it
    only reads what other goroutines cannot change meanwhile. *)
Record pending_ok (k : pending) (m : Manager) : Prop := {
  pk_entry : ∀ id r, next_of k !! id = Some r →
    (effective m !! id = Some r ∨ er_provider r ∈ new_of k) ∧
    ∃ f, factories m !! id = Some f ∧ accepted f (er_provider r);
  pk_new : ∀ i, i ∈ new_of k →
    i ∈ built m ∧ (∃ id r, next_of k !! id = Some r ∧ er_provider r = i)
    ∧ ∀ id r, effective m !! id = Some r → in_addr (er_provider r) ≠ in_addr i;
  pk_new_nodup : NoDup (in_addr <$> new_of k);
  pk_retired : ∀ i, i ∈ retired_of k (factoryOrder m) ↔
    ∃ id r, effective m !! id = Some r ∧ er_provider r = i ∧ next_of k !! id ≠ Some r;
  pk_retired_nodup : NoDup (in_addr <$> retired_of k (factoryOrder m));
  pk_removed : match k with PRemove _ id _ e _ => e !! id = None | _ => True end;
}.

Lemma pending_ok_core k m m' :
  same_tables m m' → built m' = built m → pending_ok k m → pending_ok k m'.
Proof.
  intros (Hf & Ho & Hd & He) Hb [H1 H2 H3 H4 H5 H6].
  split; rewrite ?Hf, ?Ho, ?He, ?Hb; done.
Qed.

Lemma wf_grow m m' new :
  same_tables m m' → built m' = built m ++ new → fresh m new → wf m → wf m'.
Proof.
  intros (Hf & Ho & Hd & He) Hb Hn [H1 H2 H3 H4 H5].
  split; rewrite ?Hf, ?Ho, ?He, ?Hb; try done; [|by apply fresh_built].
  intros id r Hr. destruct (H4 id r Hr) as [? ?]. split; [|done]. apply elem_of_app. by left.
Qed.

Lemma wf_same m m' : same_tables m m' → built m' = built m → wf m → wf m'.
Proof. intros Ht Hb. apply (wf_grow m m' []); [done|by rewrite app_nil_r|done]. Qed.

(** A fresh instance is not effective, and fresh instances have distinct addresses. *)
Lemma fresh_not_effective m new i id r :
  wf m → fresh m new → i ∈ new → effective m !! id = Some r → in_addr (er_provider r) ≠ in_addr i.
Proof.
  intros Hw Hn Hi Hr Heq. destruct (wf_effective m Hw id r Hr) as [Hb _].
  apply (list_elem_of_fmap_2 in_addr) in Hb, Hi. rewrite (wf_built m Hw) in Hb. rewrite Hn in Hi.
  apply elem_of_seq in Hb, Hi. lia.
Qed.

Lemma fresh_nodup m new : fresh m new → NoDup (in_addr <$> new).
Proof. unfold fresh. intros ->. apply NoDup_seq. Qed.

Lemma effective_registered m : wf m → ∀ id, is_Some (effective m !! id) → id ∈ factoryOrder m.
Proof.
  intros Hw id [r Hr]. destruct (wf_effective m Hw id r Hr) as (_ & f & Hf & _).
  apply (wf_factories m Hw). eauto.
Qed.

(** The identifiers of a list of effective instances determine their addresses. *)
Lemma nodup_of_effective m (e : gmap string effectiveRecord) :
  wf m → (∀ id r, e !! id = Some r → effective m !! id = Some r) →
  NoDup (in_addr <$> providersFromEffective e (factoryOrder m)).
Proof.
  intros Hw Hsub. rewrite providersFromEffective_registered;
    [|apply Hw|intros id [r Hr]; apply (effective_registered m Hw); eauto].
  pose proof (wf_order m Hw) as Hnd. induction Hnd as [|id order Hid Hnd IH]; csimpl; [constructor|].
  destruct (e !! id) as [r|] eqn:He; csimpl; [|done]. constructor; [|done].
  intros (i & Hi & (x & Hx & (r' & Hr' & ->)%fmap_Some)%list_elem_of_omap)%list_elem_of_fmap.
  assert (id = x) as ->; [|done]. eapply (effective_inj m); eauto.
Qed.

(** *** The parts of [prepare] *)

Lemma collect_spec requested specs requested' :
  keyed requested → collect requested specs = Ok requested' →
  keyed requested' ∧ ∀ id spec, requested' !! id = Some spec ↔
    requested !! id = Some spec ∨ (spec ∈ specs ∧ dp_ID spec = id).
Proof.
  revert requested. induction specs as [|spec specs IH]; intros requested Hk Hc; cbn [collect] in Hc.
  { injection Hc as <-. split; [done|]. intros. set_solver. }
  destruct (String.eqb (dp_ID spec) ""); [done|].
  destruct (requested !! dp_ID spec) eqn:Hr; [done|].
  destruct (validateAccounts _ _); simpl in Hc; [|done].
  assert (keyed (<[dp_ID spec:=spec]> requested)) as Hk'.
  { intros x sp [[<- <-]|[_ Hx]]%lookup_insert_Some; [done|by apply Hk]. }
  apply IH in Hc as [Hk'' Hin]; [|done]. split; [done|]. intros x sp. rewrite Hin, lookup_insert_Some, elem_of_cons.
  split; [|intros [Hx|[[->|?] ?]]]; naive_solver.
Qed.

Lemma keyed_empty : keyed ∅.
Proof. intros id spec Hs. by rewrite lookup_empty in Hs. Qed.

Lemma reusable_Some spec m r : reusable spec m = Some r → effective m !! dp_ID spec = Some r.
Proof.
  unfold reusable. destruct (desiredFingerprint spec); [|done].
  destruct (desired m !! dp_ID spec) as [d|]; [|done]. destruct (effective m !! dp_ID spec); [|done].
  by destruct (_ && _).
Qed.

(** The entries of the next table: kept instances under a reused identifier, and
    new ones under the others. *)
Lemma loop_entries requested m p m' new id r :
  keyed requested → loop_ok requested (factoryOrder m) (mkPlan ∅ [] ∅ false) m p m' new →
  pl_effective p !! id = Some r →
  ∃ spec f, wanted requested m id = Some (spec, f) ∧
    (effective m !! id = Some r ∧ id ∈ pl_reused p
     ∨ (∃ i, r = mkEffective i 0 ∧ i ∈ new ∧ accepted f i) ∧ id ∉ pl_reused p).
Proof.
  intros Hk [_ _ _ _ _ Lo Li _ _] Hr. simpl in *. destruct (decide (id ∈ factoryOrder m)) as [Hin|Hout];
    [|destruct (Lo id Hout) as [Hx _]; rewrite Hr, lookup_empty in Hx; done].
  specialize (Li id Hin). unfold loop_entry in Li.
  destruct (wanted requested m id) as [[spec f]|] eqn:Hwt;
    [|destruct Li as [Hx _]; rewrite Hr, lookup_empty in Hx; done].
  exists spec, f. split; [done|]. destruct (reusable spec m) as [r'|] eqn:Hre.
  - destruct Li as [Hx Hin']. rewrite Hr in Hx. injection Hx as ->. left. split; [|done].
    apply reusable_Some in Hre. apply wanted_Some in Hwt as (Hs & _ & _). by rewrite (Hk _ _ Hs) in Hre.
  - destruct Li as (i & Hx & ? & ? & Hre'). rewrite Hr in Hx. injection Hx as ->. right.
    split; [by exists i|set_solver].
Qed.

(** An identifier is reused exactly when its entry is the one it had. *)
Lemma loop_reused requested m p m' new id :
  wf m → keyed requested → loop_ok requested (factoryOrder m) (mkPlan ∅ [] ∅ false) m p m' new →
  id ∈ pl_reused p ↔ is_Some (effective m !! id) ∧ pl_effective p !! id = effective m !! id.
Proof.
  intros Hw Hk Hl. split.
  - intros Hre. destruct Hl as [_ _ _ _ _ Lo Li _ _]. simpl in *.
    destruct (decide (id ∈ factoryOrder m)) as [Hin|Hout]; [|destruct (Lo id Hout); set_solver].
    specialize (Li id Hin). unfold loop_entry in Li.
    destruct (wanted requested m id) as [[spec f]|] eqn:Hwt; [|set_solver].
    destruct (reusable spec m) as [r|] eqn:Hr; [|set_solver].
    apply reusable_Some in Hr. apply wanted_Some in Hwt as (Hs & _ & _). rewrite (Hk _ _ Hs) in Hr.
    destruct Li as [-> _]. rewrite Hr. eauto.
  - intros [[r Hr] He]. rewrite Hr in He.
    destruct (loop_entries _ _ _ _ _ _ _ Hk Hl He) as (spec & f & _ & [[_ ?]|[(i & -> & Hi & _) _]]); [done|].
    destruct (fresh_not_effective m new i id _ Hw (lo_fresh _ _ _ _ _ _ _ Hl) Hi Hr). done.
Qed.

(** The loop of [Reconcile] from its initial plan yields a pending operation. *)
Lemma loop_pending requested m p m' new nextDesired :
  wf m → keyed requested → loop_ok requested (factoryOrder m) (mkPlan ∅ [] ∅ false) m p m' new →
  pending_ok (PReconcile (pl_effective p) (effective m) nextDesired (pl_reused p) (pl_built p)) m'.
Proof.
  intros Hw Hk Hl. pose proof (lo_tables _ _ _ _ _ _ _ Hl) as (Hf & Ho & Hd & He).
  pose proof (lo_fresh _ _ _ _ _ _ _ Hl) as Hfr. pose proof (lo_new _ _ _ _ _ _ _ Hl) as Hn. simpl in Hn.
  assert (Hsub : ∀ id r, filter (λ kv, kv.1 ∉ pl_reused p) (effective m) !! id = Some r →
    effective m !! id = Some r) by (intros id r [? _]%map_lookup_filter_Some; done).
  split; simpl; rewrite ?Hn, ?Hf, ?Ho, ?He.
  - intros id r Hr. destruct (loop_entries _ _ _ _ _ _ _ Hk Hl Hr) as (spec & f & Hwt & Hcase).
    apply wanted_Some in Hwt as (_ & Hff & _).
    destruct Hcase as [[He' _]|[(i & -> & Hi & Ha) _]]; [|split; [by right|eauto]].
    destruct (wf_effective m Hw id r He') as (_ & f' & Hf' & Ha). split; [by left|eauto].
  - intros i Hi. rewrite (lo_built _ _ _ _ _ _ _ Hl). split; [apply elem_of_app; by right|].
    destruct (lo_used _ _ _ _ _ _ _ Hl i Hi) as (id & _ & Hid). split; [by eexists id, _|].
    intros x r. by eapply fresh_not_effective.
  - by apply (fresh_nodup m).
  - intros i. rewrite elem_of_providersFromEffective;
      [|apply Hw|intros id [r Hr%Hsub]; apply (effective_registered m Hw); eauto].
    split; intros (id & r & Hr & Hi).
    + apply map_lookup_filter_Some in Hr as [Hr Hnot]. simpl in Hnot. exists id, r. split_and!; try done.
      intros Hx. apply Hnot, (loop_reused _ _ _ _ _ _ Hw Hk Hl). rewrite Hr. split; [eauto|congruence].
    + destruct Hi as [Hi Hne]. exists id, r. split; [|done]. apply map_lookup_filter_Some. split; [done|].
      simpl. intros [_ Hx]%(loop_reused _ _ _ _ _ _ Hw Hk Hl). congruence.
  - by apply (nodup_of_effective m).
  - done.
Qed.

Lemma replace_pending m m' id f i prior fp :
  wf m → factories m !! id = Some f → same_tables m m' → built m' = built m ++ [i] → fresh m [i] →
  accepted f i →
  pending_ok (PReplace id i (<[id := mkEffective i 0]> (effective m)) (effective m) prior fp) m'.
Proof.
  intros Hw Hf (Hf' & Ho & Hd & He) Hb Hfr Ha.
  assert (Hne : ∀ x r, effective m !! x = Some r → in_addr (er_provider r) ≠ in_addr i)
    by (intros x r; apply (fresh_not_effective m [i]); [done|done|by left]).
  split; simpl; rewrite ?Hf', ?Ho, ?He.
  - intros x r [[<- <-]|[Hx Hr]]%lookup_insert_Some; [split; [right; by left|eauto]|].
    destruct (wf_effective m Hw x r Hr) as (_ & f' & ? & ?). split; [by left|eauto].
  - intros j ->%list_elem_of_singleton. rewrite Hb. split; [apply elem_of_app; right; by left|].
    split; [|done]. exists id, (mkEffective i 0). by rewrite lookup_insert_eq.
  - apply NoDup_singleton.
  - intros j. destruct (effective m !! id) as [r|] eqn:Hr.
    + rewrite list_elem_of_singleton. split.
      * intros ->. exists id, r. rewrite lookup_insert_eq. split_and!; [done..|]. intros [= <-].
        by apply (Hne id (mkEffective i 0)).
      * intros (x & r' & Hr' & <- & Hx). destruct (decide (x = id)) as [->|]; [congruence|].
        by rewrite lookup_insert_ne in Hx by done.
    + split; [by intros ?%not_elem_of_nil|]. intros (x & r' & Hr' & <- & Hx).
      rewrite lookup_insert_ne in Hx; [done|congruence].
  - destruct (effective m !! id); [apply NoDup_singleton|constructor].
  - done.
Qed.

Lemma remove_pending m unregister id old prior :
  wf m → effective m !! id = Some old →
  pending_ok (PRemove unregister id (er_provider old) (delete id (effective m)) prior) m.
Proof.
  intros Hw Hold. split; simpl.
  - intros x r [_ Hr]%lookup_delete_Some.
    destruct (wf_effective m Hw x r Hr) as (_ & f' & ? & ?). split; [by left|eauto].
  - intros j Hj. by apply not_elem_of_nil in Hj.
  - constructor.
  - intros j. rewrite list_elem_of_singleton. split.
    + intros ->. exists id, old. rewrite lookup_delete_eq. done.
    + intros (x & r & Hr & <- & Hx). destruct (decide (x = id)) as [->|]; [congruence|].
      by rewrite lookup_delete_ne in Hx.
  - apply NoDup_singleton.
  - apply lookup_delete_eq.
Qed.

(** *** One statement for the three preparations *)

(** [prepare] leaves the effective instances alone, gives every instance it built
    to its continuation, and closes them all when there is none. *)
Lemma wf_forget_factory id m :
  wf m → effective m !! id = None → wf (forget_factory id m).
Proof.
  intros [H1 H2 H3 H4 H5] Hn. split; simpl; try done.
  - by apply Registry.NoDup_remove_first.
  - intros x. rewrite Registry.elem_of_remove_first, H2, lookup_delete by done.
    case_decide; [split; [naive_solver|by intros [? ?]]|naive_solver].
  - intros x f [_ Hf]%lookup_delete_Some. by apply H3.
  - intros x r Hr. destruct (H4 x r Hr) as (? & f & ? & ?). split; [done|]. exists f.
    rewrite lookup_delete_ne; [done|congruence].
Qed.

Lemma wf_set_desired d m : wf m → wf (set_desired d m).
Proof. by intros []. Qed.

Definition prepared (m m' : Manager) (r : result outcome error) : Prop :=
  wf m' ∧ ∃ new, built m' = built m ++ new ∧ fresh m new ∧ effective m' = effective m ∧
  match r with
  | Err _ => same_tables m m' ∧ closed m' ≡ₚ closed m ++ (in_addr <$> new)
  | Ok (Done _) => new = [] ∧ closed m' = closed m
  | Ok (Publishing l k) => same_tables m m' ∧ closed m' = closed m ∧ new = new_of k
      ∧ l = providersFromEffective (next_of k) (factoryOrder m) ∧ pending_ok k m'
  end.

Lemma prepared_nothing m e : wf m → prepared m m (Err e).
Proof.
  intros Hw. split; [done|]. exists []. rewrite !app_nil_r. done.
Qed.

Lemma prepareReconcile_spec ctxDone specs m m' r :
  wf m → prepareReconcile ctxDone specs m = (m', r) → prepared m m' r.
Proof.
  intros Hw. unfold prepareReconcile.
  destruct ctxDone; [intros [= <- <-]; by apply prepared_nothing|].
  destruct (collect ∅ specs) as [requested|e] eqn:Hc; [|intros [= <- <-]; by apply prepared_nothing].
  apply collect_spec in Hc as [Hk _]; [|apply keyed_empty].
  destruct (filter _ (map_to_list requested)) as [|[id ?] ?];
    [|intros [= <- <-]; by apply prepared_nothing].
  destruct (build_loop _ _ _ m) as [m1 r1] eqn:Hl.
  pose proof (build_loop_spec _ _ _ _ _ _ (wf_order m Hw) Hk Hl) as Hs.
  destruct r1 as [p|e].
  - destruct Hs as [new Hs]. pose proof Hs as [Ht Hb Hfr Hcl Hn _ _ _ Hch].
    pose proof Ht as (Hf & Ho & Hd & He). simpl in Hn.
    destruct (pl_changed p) eqn:Hpc; intros [= <- <-].
    + split; [by eapply wf_grow|]. exists new. rewrite <-Ho. split_and!; try done.
      rewrite He. by eapply loop_pending.
    + assert (new = []) as ->.
      { destruct new; [done|]. assert (false = true) as Hx; [|done]. apply Hch. right; left. done. }
      rewrite app_nil_r in Hb. split; [|exists []; simpl; rewrite app_nil_r; done].
      apply (wf_core (set_desired (desired_record <$> requested) m1)); [done|].
      apply wf_set_desired. eapply (wf_grow m m1 []); [done|by rewrite app_nil_r|done|done].
  - intros [= <- <-]. destruct Hs as (Ht & new & Hb & Hfr & Hcl).
    split; [by eapply wf_grow|]. exists new. simpl in Hcl. pose proof Ht as (_ & _ & _ & He). done.
Qed.

Lemma prepareReplace_spec ctxDone id config m m' r :
  wf m → prepareReplace ctxDone id config m = (m', r) → prepared m m' r.
Proof.
  intros Hw. unfold prepareReplace.
  destruct ctxDone; [intros [= <- <-]; by apply prepared_nothing|].
  destruct (factories m !! id) as [f|] eqn:Hf; [|intros [= <- <-]; by apply prepared_nothing].
  destruct (build f config m) as [m1 r1] eqn:Hb. apply build_spec in Hb as (Ht & new & Hb & Hfr & Hc).
  pose proof Ht as (Hf' & Ho & Hd & He).
  destruct r1 as [i|e]; intros [= <- <-].
  - destruct Hc as (-> & Hc & Ha). split; [by eapply wf_grow|]. exists [i]. split_and!; try done.
    + simpl. by rewrite Ho, He.
    + rewrite He. by eapply replace_pending.
  - split; [apply (wf_core m1); [done|by eapply wf_grow]|]. exists new. simpl. by rewrite Hc.
Qed.

Lemma prepareRemove_spec ctxDone unregister id m m' r :
  wf m → prepareRemove ctxDone unregister id m = (m', r) → prepared m m' r.
Proof.
  intros Hw. unfold prepareRemove, prepareRemoveLocked.
  destruct ctxDone; [intros [= <- <-]; by apply prepared_nothing|].
  destruct (factories m !! id) as [f|] eqn:Hf; [|intros [= <- <-]; by apply prepared_nothing].
  destruct (effective m !! id) as [old|] eqn:Hold.
  - intros [= <- <-]. split; [done|]. exists []. rewrite app_nil_r. split_and!; try done.
    by apply remove_pending.
  - assert (Hgo : ∀ d, wf (set_desired d m)) by (intros; by apply wf_set_desired).
    intros [= <- <-]. split.
    + destruct unregister; [|by apply (wf_core (set_desired (<[id := mkDesiredRecord false
        (dr_accounts (default noDesired (desired m !! id))) (dr_fingerprint (default noDesired (desired m !! id)))]> (desired m)) m))].
      apply wf_forget_factory; [|done]. by eapply wf_core; [|apply Hgo].
    + exists []. destruct unregister; simpl; rewrite app_nil_r; done.
Qed.

Lemma prepare_spec ctxDone op m m' r :
  wf m → prepare ctxDone op m = (m', r) → prepared m m' r.
Proof.
  intros Hw. destruct op; simpl.
  - by apply prepareReconcile_spec.
  - by apply prepareReplace_spec.
  - by apply prepareRemove_spec.
Qed.

(** *** Completion *)

Lemma at_generation_Some g e id r :
  at_generation g e !! id = Some r ↔
  ∃ r0, e !! id = Some r0 ∧ r = mkEffective (er_provider r0) g.
Proof. unfold at_generation. rewrite lookup_fmap, fmap_Some. naive_solver. Qed.

Lemma wf_next m k g d :
  wf m → pending_ok k m → wf (set_desired d (set_effective (at_generation g (next_of k)) m)).
Proof.
  intros [H1 H2 H3 H4 H5] Hk. split; simpl; try done.
  intros id r (r0 & Hr & ->)%at_generation_Some. simpl.
  destruct (pk_entry k m Hk id r0 Hr) as [[He|Hn] ?]; (split; [|done]).
  - by apply (H4 id).
  - by apply (pk_new k m Hk).
Qed.

Lemma complete_spec k g sample m m' retired :
  wf m → pending_ok k m → complete k g sample m = (m', retired) →
  wf m' ∧ built m' = built m ∧ closed m' = closed m
  ∧ effective m' = at_generation g (next_of k) ∧ retired = retired_of k (factoryOrder m).
Proof.
  intros Hw Hk. destruct k as [e old nd reused new|id i e old prior fp|unreg id old e prior]; simpl;
    intros [= <- <-].
  - set (m1 := set_desired nd (set_effective (at_generation g e) m)).
    set (m2 := foldl _ _ _). assert (Hc : core m2 = core m1).
    { unfold m2. rewrite core_foldl; [|intros ? ?; by case_bool_decide]. apply core_updateHealth. }
    clearbody m2. pose proof (core_eq _ _ Hc) as (Hf & Ho & Hd & He & Hb & Hcl).
    rewrite Hb, Hcl, He, Ho. split; [|split_and!; done]. eapply wf_core; [by symmetry|].
    exact (wf_next m (PReconcile e old nd reused new) g nd Hw Hk).
  - set (m1 := set_desired (<[id := mkDesiredRecord true (dr_accounts prior) fp]> (desired m))
      (set_effective (at_generation g e) m)).
    pose proof (core_updateHealth g sample m1) as Hc.
    pose proof (core_eq _ _ Hc) as (Hf & Ho & Hd & He & Hb & Hcl). simpl.
    change (set_desired _ _) with m1. rewrite Hb, Hcl, He. split; [|split_and!; done].
    eapply (wf_core m1); [by rewrite <-Hc|].
    exact (wf_next m (PReplace id i e old prior fp) g _ Hw Hk).
  - set (d := <[id := _]> (desired m)). apply (wf_next m _ g d) in Hk as Hw1; [|done]. simpl in Hw1.
    destruct unreg; simpl; (split; [|done]).
    + apply wf_forget_factory.
      * by eapply wf_core; [|exact Hw1].
      * simpl. unfold at_generation. rewrite lookup_fmap, fmap_None. apply (pk_removed _ _ Hk).
    + by eapply wf_core; [|exact Hw1].
Qed.

Lemma refused_spec k m m' e :
  wf m → refused k m = (m', e) →
  wf m' ∧ same_tables m m' ∧ built m' = built m ∧ closed m' = closed m ++ (in_addr <$> new_of k).
Proof.
  intros Hw. destruct k; csimpl; intros [= <- <-]; rewrite ?app_nil_r;
    (split; [by apply (wf_same m)|by split_and!]).
Qed.

Lemma run_wf ctxDone op publish sample m m' r :
  wf m → run ctxDone op publish sample m = (m', r) → wf m'.
Proof.
  intros Hw. unfold run. destruct (prepare ctxDone op m) as [m1 r1] eqn:Hp.
  destruct (prepare_spec _ _ _ _ _ Hw Hp) as (Hw1 & new & Hb & Hfr & He & Hr).
  destruct r1 as [[report|l k]|e]; [by intros [= <- <-]| |by intros [= <- <-]].
  destruct Hr as (_ & _ & _ & _ & Hk). destruct (publish l) as [g|].
  - destruct (complete k g sample m1) as [m2 retired] eqn:Hc. intros [= <- <-].
    by eapply complete_spec.
  - destruct (refused k m1) as [m2 e] eqn:Hre. intros [= <- <-]. by eapply refused_spec.
Qed.

(** ** Theorems *)

(** C11. A failed operation changes nothing and leaks nothing.  When [Reconcile],
    [Replace], [Remove] or [UnregisterFactory] fails, because the request is bad,
    a factory refuses the configuration or the instance, or the publication is
    refused, the factories, the desired set and the effective instances are what
    they were, and exactly the instances it had built are closed. *)
Theorem failed_operation_changes_nothing ctxDone op publish sample m m' e :
  wf m → run ctxDone op publish sample m = (m', Err e) →
  factories m' = factories m ∧ factoryOrder m' = factoryOrder m
  ∧ desired m' = desired m ∧ effective m' = effective m
  ∧ ∃ new, built m' = built m ++ new ∧ closed m' ≡ₚ closed m ++ (in_addr <$> new).
Proof.
  intros Hw. unfold run. destruct (prepare ctxDone op m) as [m1 r1] eqn:Hp.
  destruct (prepare_spec _ _ _ _ _ Hw Hp) as (Hw1 & new & Hb & Hfr & He & Hr).
  destruct r1 as [[report|l k]|e1]; [done| |].
  - destruct Hr as (Ht & Hcl & -> & _ & Hk). destruct (publish l) as [g|]; [by destruct (complete _ _ _ _)|].
    destruct (refused k m1) as [m2 e2] eqn:Hre. intros [= <- <-].
    destruct (refused_spec _ _ _ _ Hw1 Hre) as (_ & Ht' & Hb' & Hcl').
    destruct (same_tables_trans _ _ _ Ht Ht') as (? & ? & ? & ?). split_and!; try done.
    exists (new_of k). by rewrite Hb', Hcl', Hb, Hcl.
  - intros [= <- <-]. destruct Hr as ((? & ? & ? & ?) & ?). split_and!; try done. eauto.
Qed.









(** The other operations keep the manager well formed. *)
Lemma wf_RegisterFactory f m m' r : wf m → RegisterFactory f m = (m', r) → wf m'.
Proof.
  intros Hw. unfold RegisterFactory. destruct f as [f|]; [|by intros [= <- <-]].
  destruct (Descriptor.ValidateDescriptor _) as [[]|e] eqn:Hv; [|by intros [= <- <-]].
  pose proof (proj1 (Descriptor.ValidateDescriptor_Ok _) Hv) as Hvalid.
  destruct (factories m !! factory_ID f) eqn:Hf; intros [= <- <-]; [done|].
  destruct Hw as [H1 H2 H3 H4 H5]. split; simpl; try done.
  - apply NoDup_app_snoc; [|done]. rewrite H2, Hf. by intros [].
  - intros id. rewrite elem_of_app, list_elem_of_singleton, H2, lookup_insert.
    case_decide; [split; [eauto|by right]|]. split; [intros [?| ->]; done|by left].
  - intros id f' [[<- <-]|[_ Hf']]%lookup_insert_Some; [done|by apply H3].
  - intros id r Hr. destruct (H4 id r Hr) as (? & f' & Hf' & ?). split; [done|]. exists f'.
    rewrite lookup_insert_ne; [done|congruence].
Qed.

Lemma wf_register_all l m :
  wf m → wf (foldl (λ m f, fst (RegisterFactory (Some f) m)) m l).
Proof.
  revert m; induction l as [|f l IH]; intros m Hw; cbn [foldl]; [done|]. apply IH.
  destruct (RegisterFactory (Some f) m) as [m' r] eqn:Hr. by eapply wf_RegisterFactory.
Qed.

Lemma wf_RefreshHealth sample m : wf m → wf (RefreshHealth sample m).
Proof. apply wf_core. symmetry. apply core_RefreshHealth. Qed.

End Manager.

Arguments OpReconcile {Cfg} specs.
Arguments OpReplace {Cfg} id config.
Arguments OpRemove {Cfg} unregister id.

(** ** An example: two factories, and a third whose instances report another name *)

Module Example.

Definition fingerprint (c : string) : option string := Some c.
Definition clock (n : nat) : Time := Z.of_nat n + 1.
Definition healthy (n : nat) : Health := mkHealth true false "" zeroTime.

Definition methods (id : string) : Provider :=
  mkProvider id [CapabilityChat] (Ok None) (healthy 0) None None.
Definition factory (id reports : string) : FactoryFuncs :=
  mkFactory (Descriptor.mk id "Example" [CapabilityChat] [] false [] 1) None
    (Some (λ (_ : nat) (_ : string), Built (methods reports) (Some true))) None.

Definition registered : Manager (Cfg := string) :=
  foldl (λ m f, fst (RegisterFactory clock (Some f) m))
    (mkManager ∅ [] ∅ ∅ ∅ (NewEventBus 256) (mkOptions (30 * Second) (5 * Second)) 0 [] [])
    [factory "codex" "codex"; factory "kilo" "kilo"; factory "broken" "other"].

Definition want (id config : string) : DesiredProvider := mkDesired id true config "" [].

Definition both : list (DesiredProvider (Cfg := string)) := [want "kilo" "k1"; want "codex" "c1"].

Definition started : Manager (Cfg := string) :=
  fst (run fingerprint clock false (OpReconcile both) (λ _, Some 2) healthy registered).

Lemma wf_registered : wf registered.
Proof.
  apply wf_register_all. by eapply (wf_NewManager true None None (mkOptions (30 * Second) (5 * Second))).
Qed.

Lemma wf_started : wf started.
Proof.
  unfold started. destruct (run _ _ _ _ _ _ registered) as [m r] eqn:Hr.
  eapply run_wf; [apply wf_registered|exact Hr].
Qed.

(** The instances of the second reconciliation: codex is kept, kilo is rebuilt. *)
Definition again : list (DesiredProvider (Cfg := string)) := [want "kilo" "k2"; want "codex" "c1"].

End Example.


Lemma failed_operation_changes_nothing_witness :
  let out := run Example.fingerprint Example.clock false
    (OpReconcile (Example.want "broken" "b" :: Example.again)) (λ _, Some 3) Example.healthy
    Example.started in
  closed (fst out) = [3%nat; 2%nat]
  ∧ effective (fst out) = effective Example.started.
Proof.
  intros out. split; [vm_compute; reflexivity|].
  refine (proj1 (proj2 (proj2 (proj2 (failed_operation_changes_nothing Example.fingerprint
    Example.clock false (OpReconcile (Example.want "broken" "b" :: Example.again)) (λ _, Some 3)
    Example.healthy Example.started (fst out) (WrongID "broken" "other") Example.wf_started _))))).
  vm_compute. reflexivity.
Defined.
