(* ===== verification/Lifecycle.v ===== *)
(** * Providers and the snapshots that use them

    The operations of [ProviderManager] interleaved with whoever uses the published
    snapshots.  The manager knows its publisher only by the interface
    [SnapshotPublisher] of [internal/provider/publication.go]: the class
    [Publisher] with the laws of [PublisherLaws].  [Daemon] shows that the runtime
    keeps them. *)

From S2P Require Import Prelude GoStd Provider ProviderManager.

Local Open Scope Z_scope.

(** ** The interface *)

(** [pub_log] lists what was published, oldest first; a publication is named by its
    index there.  A call of [PublishProviders] begins, unless the publisher is busy
    ([None]) or refuses, and returns later with a generation and a [Retirement];
    [pub_env] is anything else that happens to the publisher.  [pub_waited] tells
    whether the retirement's [Wait] returns, [pub_covers q r] that [r] waits for
    every publication before the [q]-th. *)
(* src/internal/provider/publication.go SnapshotPublisher *)
(* src/internal/provider/publication.go Retirement *)
Class Publisher (P Ret Env : Type) := {
  pub_ok : P → Prop;
  pub_log : P → list (list instance);
  pub_lease : P → nat → Prop;
  pub_begin : list instance → P → option (result P unit);
  pub_return : P → option (P * (Z * Ret));
  pub_env : Env → P → option P;
  pub_waited : P → Ret → bool;
  pub_covers : P → nat → Ret → Prop;
}.

(** Retirements are never undone. *)
Definition pub_mono `{Publisher P Ret Env} (p p' : P) : Prop :=
  ∀ q r, pub_covers p q r →
    pub_covers p' q r ∧ (pub_waited p r = true → pub_waited p' r = true).

Class PublisherLaws (P Ret Env : Type) `{Publisher P Ret Env} := {
  pub_begin_ok (p p' : P) l : pub_ok p → pub_begin l p = Some (Ok p') →
    pub_ok p' ∧ pub_log p' = pub_log p ++ [l] ∧ pub_mono p p';
  pub_return_ok (p p' : P) g r : pub_ok p → pub_return p = Some (p', (g, r)) →
    pub_ok p' ∧ pub_log p' = pub_log p ∧ pub_mono p p'
    ∧ pub_covers p' (length (pub_log p) - 1) r;
  pub_env_ok (p p' : P) e : pub_ok p → pub_env e p = Some p' →
    pub_ok p' ∧ pub_log p' = pub_log p ∧ pub_mono p p';
  (** the point of [Wait]: afterwards only newer snapshots are in use *)
  pub_wait_ok (p : P) q r k : pub_ok p → pub_covers p q r → pub_waited p r = true →
    pub_lease p k → (q ≤ k)%nat;
}.

(** ** The world *)

Inductive stage := DrainNew | DrainWaiting | DrainTimedOut | DrainFinished.

Section World.

Context {Cfg P Ret Env : Type} `{PublisherLaws P Ret Env}.
Context (configFingerprint : Cfg → option string) (clock : nat → Time).

(** A call of [drainRetired], or the goroutine it left; [dn_index] is the index of
    the publication that retired the instances. *)
Record drain := mkDrain {
  dn_index : nat; dn_generation : Z; dn_retirement : Ret; dn_retired : list instance;
  dn_stage : stage;
}.

Definition set_stage (s : stage) (d : drain) : drain :=
  mkDrain (dn_index d) (dn_generation d) (dn_retirement d) (dn_retired d) s.

(** Where the goroutine that holds the mutex [mutations] is. *)
Inductive position :=
| Idle
| Prepared (l : list instance) (k : pending)   (** about to call the publisher *)
| Calling (k : pending).                       (** inside [PublishProviders] *)

Record World := mkWorld {
  w_pub : P; w_mgr : Manager (Cfg := Cfg); w_pos : position; w_drains : list drain;
}.

Inductive label :=
| WRegister (f : option (FactoryFuncs (Cfg := Cfg)))
| WRefresh (sample : nat → Health)
| WPrepare (ctxDone : bool) (op : operation (Cfg := Cfg))
| WPublish
| WReturn (sample : nat → Health)
| WDrainBegin (n : nat) (pending : nat → Z)
| WDrainTimeout (n : nat) (pending : Z)
| WDrainDone (n : nat)
| WEnv (e : Env).

Definition set_mgr (m : Manager (Cfg := Cfg)) (w : World) : World :=
  mkWorld (w_pub w) m (w_pos w) (w_drains w).
Definition set_drain (n : nat) (d : drain) (m : Manager (Cfg := Cfg)) (w : World) : World :=
  mkWorld (w_pub w) m (w_pos w) (<[n := d]> (w_drains w)).

Definition drain_step (n : nat) (w : World) (from : stage → bool)
    (f : drain → option World) : option World :=
  d ← w_drains w !! n;
  if from (dn_stage d) then f d else None.

(** [None]: not enabled. *)
Definition step (w : World) (l : label) : option World :=
  match l with
  | WRegister f =>
    match w_pos w with
    | Idle => Some (set_mgr (fst (RegisterFactory clock f (w_mgr w))) w)
    | _ => None
    end
  | WRefresh sample =>
    match w_pos w with
    | Idle => Some (set_mgr (RefreshHealth clock sample (w_mgr w)) w)
    | _ => None
    end
  | WPrepare ctxDone op =>
    match w_pos w with
    | Idle =>
      let '(m, r) := prepare configFingerprint clock ctxDone op (w_mgr w) in
      Some (match r with
            | Ok (Publishing l k) => mkWorld (w_pub w) m (Prepared l k) (w_drains w)
            | _ => set_mgr m w
            end)
    | _ => None
    end
  | WPublish =>
    match w_pos w with
    | Prepared l k =>
      match pub_begin l (w_pub w) with
      | None => None
      | Some (Err _) => Some (mkWorld (w_pub w) (fst (refused clock k (w_mgr w))) Idle (w_drains w))
      | Some (Ok p) => Some (mkWorld p (w_mgr w) (Calling k) (w_drains w))
      end
    | _ => None
    end
  | WReturn sample =>
    match w_pos w with
    | Calling k =>
      match pub_return (w_pub w) with
      | None => None
      | Some (p, (g, r)) =>
        let '(m, retired) := complete clock k g sample (w_mgr w) in
        let ds := if bool_decide (retired = []) then []
                  else [mkDrain (length (pub_log p) - 1) g r retired DrainNew] in
        Some (mkWorld p m Idle (w_drains w ++ ds))
      end
    | _ => None
    end
  | WDrainBegin n pending =>
    drain_step n w (λ s, match s with DrainNew => true | _ => false end) (λ d,
      Some (set_drain n (set_stage DrainWaiting d)
              (fst (drain_begin clock (dn_generation d) pending (dn_retired d) (w_mgr w))) w))
  | WDrainTimeout n pending =>
    drain_step n w (λ s, match s with DrainWaiting => true | _ => false end) (λ d,
      Some (set_drain n (set_stage DrainTimedOut d)
              (drain_timeout clock (dn_generation d) pending (dn_retired d) (w_mgr w)) w))
  | WDrainDone n =>
    drain_step n w (λ s, match s with DrainWaiting | DrainTimedOut => true | _ => false end) (λ d,
      if pub_waited (w_pub w) (dn_retirement d) then
        let inCall := match dn_stage d with DrainWaiting => true | _ => false end in
        Some (set_drain n (set_stage DrainFinished d)
                (fst (drain_done clock inCall (dn_generation d) (dn_retired d) (w_mgr w))) w)
      else None)
  | WEnv e =>
    p ← pub_env e (w_pub w);
    Some (mkWorld p (w_mgr w) (w_pos w) (w_drains w))
  end.

Fixpoint steps (w : World) (l : list label) : option World :=
  match l with [] => Some w | x :: l => step w x ≫= λ w', steps w' l end.

(** ** Ownership *)

Definition addrs (l : list instance) : list nat := in_addr <$> l.

(** The instances a drain still has to close. *)
Definition to_drain (d : drain) : list nat :=
  match dn_stage d with DrainFinished => [] | _ => addrs (dn_retired d) end.

Definition new_addrs (pos : position) : list nat :=
  match pos with Idle => [] | Prepared _ k | Calling k => addrs (new_of k) end.

(** Every address that is not in service. *)
Definition out_of_service (w : World) : list nat :=
  mjoin (to_drain <$> w_drains w) ++ closed (w_mgr w) ++ new_addrs (w_pos w).

Definition in_service (m : Manager (Cfg := Cfg)) (a : nat) : Prop :=
  ∃ id r, effective m !! id = Some r ∧ in_addr (er_provider r) = a.

(** [a] occurs in no publication from the [q]-th on. *)
Definition absent_from (log : list (list instance)) (q a : nat) : Prop :=
  ∀ k l, log !! k = Some l → (q ≤ k)%nat → a ∉ addrs l.

Record inv (w : World) : Prop := {
  iv_wf : wf (w_mgr w);
  iv_pub : pub_ok (w_pub w);
  iv_pending : match w_pos w with
    | Idle => True
    | Prepared l k => pending_ok k (w_mgr w)
        ∧ l = providersFromEffective (next_of k) (factoryOrder (w_mgr w))
        ∧ ∀ a, a ∈ addrs (new_of k) → absent_from (pub_log (w_pub w)) 0 a
    | Calling k => pending_ok k (w_mgr w)
        ∧ last (pub_log (w_pub w))
          = Some (providersFromEffective (next_of k) (factoryOrder (w_mgr w)))
    end;
  (** every instance is in service, or in exactly one other place *)
  iv_nodup : NoDup (out_of_service w);
  iv_owned : ∀ a, a ∈ out_of_service w → (a < length (built (w_mgr w)))%nat
    ∧ ¬ in_service (w_mgr w) a;
  iv_covered : ∀ a, (a < length (built (w_mgr w)))%nat →
    in_service (w_mgr w) a ∨ a ∈ out_of_service w;
  iv_published : ∀ k l i, pub_log (w_pub w) !! k = Some l → i ∈ l → i ∈ built (w_mgr w);
  iv_drains : ∀ d, d ∈ w_drains w →
    pub_covers (w_pub w) (dn_index d) (dn_retirement d)
    ∧ ∀ a, a ∈ addrs (dn_retired d) → absent_from (pub_log (w_pub w)) (dn_index d) a;
  iv_finished : ∀ d, d ∈ w_drains w → dn_stage d = DrainFinished →
    ∀ a, a ∈ addrs (dn_retired d) → a ∈ closed (w_mgr w);
  iv_closed : ∀ a, a ∈ closed (w_mgr w) →
    ∃ q, absent_from (pub_log (w_pub w)) q a
      ∧ (q = 0%nat ∨ ∃ r, pub_covers (w_pub w) q r ∧ pub_waited (w_pub w) r = true);
}.

(** *** Addresses of the next table *)

Lemma in_addrs (l : list instance) a : a ∈ addrs l ↔ ∃ i, i ∈ l ∧ in_addr i = a.
Proof. unfold addrs. rewrite list_elem_of_fmap. naive_solver. Qed.

(** An address the next table publishes is in service or new. *)
Lemma next_addr (m : Manager (Cfg := Cfg)) k id r :
  pending_ok k m → next_of k !! id = Some r →
  in_service m (in_addr (er_provider r)) ∨ in_addr (er_provider r) ∈ addrs (new_of k).
Proof.
  intros Hk Hr. destruct (pk_entry k m Hk id r Hr) as [[He|Hn] _].
  - left. by exists id, r.
  - right. apply in_addrs. eauto.
Qed.

Lemma next_registered (m : Manager (Cfg := Cfg)) k : wf m → pending_ok k m →
  ∀ id, is_Some (next_of k !! id) → id ∈ factoryOrder m.
Proof.
  intros Hw Hk id [r Hr]. destruct (pk_entry k m Hk id r Hr) as (_ & f & Hf & _).
  apply (wf_factories m Hw). eauto.
Qed.

Lemma published_addr (m : Manager (Cfg := Cfg)) k a : wf m → pending_ok k m →
  a ∈ addrs (providersFromEffective (next_of k) (factoryOrder m)) ↔
  ∃ id r, next_of k !! id = Some r ∧ in_addr (er_provider r) = a.
Proof.
  intros Hw Hk. rewrite in_addrs.
  setoid_rewrite elem_of_providersFromEffective; [|apply Hw|by apply next_registered]. naive_solver.
Qed.

(** A retired instance is in service and not published again. *)
Lemma retired_absent (m : Manager (Cfg := Cfg)) k a : wf m → pending_ok k m → a ∈ addrs (retired_of k (factoryOrder m)) →
  in_service m a ∧ a ∉ addrs (providersFromEffective (next_of k) (factoryOrder m)).
Proof.
  intros Hw Hk (i & (id & r & Hr & <- & Hne)%(pk_retired k m Hk) & <-)%in_addrs. split; [by exists id, r|].
  intros (id' & r' & Hr' & Heq)%published_addr; [|done..].
  destruct (pk_entry k m Hk id' r' Hr') as [[He|Hn] _].
  - assert (id' = id) as -> by (by eapply effective_inj). congruence.
  - destruct (pk_new k m Hk _ Hn) as (_ & _ & Hdiff). by apply (Hdiff id r Hr).
Qed.

(** In service afterwards: what is published. *)
Lemma in_service_next (m m' : Manager (Cfg := Cfg)) k g a : wf m → pending_ok k m →
  effective m' = at_generation g (next_of k) →
  in_service m' a ↔ a ∈ addrs (providersFromEffective (next_of k) (factoryOrder m)).
Proof.
  intros Hw Hk He. rewrite (published_addr m k a Hw Hk). unfold in_service. rewrite He. split.
  - intros (id & r & (r0 & Hr & ->)%at_generation_Some & <-). eauto.
  - intros (id & r & Hr & <-). exists id, (mkEffective (er_provider r) g).
    split; [apply at_generation_Some; eauto|done].
Qed.

(** *** Drains *)

Lemma concat_finish (ds : list drain) (n : nat) d d' :
  ds !! n = Some d → to_drain d' = [] →
  mjoin (to_drain <$> ds) ≡ₚ to_drain d ++ mjoin (to_drain <$> <[n := d']> ds).
Proof.
  intros Hn Hd'. revert n Hn; induction ds as [|x ds IH]; intros [|n] Hn; csimpl; simplify_eq/=.
  - by rewrite Hd'.
  - rewrite (IH n Hn). rewrite !app_assoc. f_equiv. apply Permutation_app_comm.
Qed.

Lemma concat_same (ds : list drain) (n : nat) d d' :
  ds !! n = Some d → to_drain d' = to_drain d →
  to_drain <$> <[n := d']> ds = to_drain <$> ds.
Proof.
  intros Hn Hd. rewrite list_fmap_insert, Hd. apply list_insert_id. by rewrite list_lookup_fmap, Hn.
Qed.

Lemma elem_of_set_drain (ds : list drain) (n : nat) d d0 d' :
  ds !! n = Some d0 → d ∈ <[n := d']> ds → d = d' ∨ d ∈ ds.
Proof.
  intros Hn (j & Hj)%list_elem_of_lookup. destruct (decide (j = n)) as [->|Hne].
  - rewrite list_lookup_insert_eq in Hj; [left; congruence|]. by eapply lookup_lt_Some.
  - rewrite list_lookup_insert_ne in Hj by done. right. by eapply list_elem_of_lookup_2.
Qed.

Lemma perm_move (A B C D : list nat) : A ++ (B ++ C) ++ D ≡ₚ (C ++ A) ++ B ++ D.
Proof.
  rewrite (Permutation_app_comm B C), (Permutation_app_comm C A), <-!app_assoc. done.
Qed.

Lemma absent_mono (log : list (list instance)) l q a :
  absent_from log q a → a ∉ addrs l → absent_from (log ++ [l]) q a.
Proof.
  intros Ha Hl k l' [Hk|[Hk Hl']]%lookup_app_Some Hq; [by eapply Ha|].
  apply list_lookup_singleton_Some in Hl' as [_ <-]. done.
Qed.

(** *** Preservation *)

(** Steps of the manager alone that neither build, close nor put in service. *)
Lemma inv_manager w m' :
  inv w → wf m' → effective m' = effective (w_mgr w) → built m' = built (w_mgr w) →
  closed m' = closed (w_mgr w) → (w_pos w = Idle ∨ same_tables (w_mgr w) m') →
  inv (set_mgr m' w).
Proof.
  intros [Hw Hp Hpd Hnd Ho Hc Hpub Hd Hf Hcl] Hw' He Hb Hclo Hpos.
  unfold out_of_service in *.
  split; simpl; unfold out_of_service, in_service; simpl; rewrite ?Hclo, ?Hb, ?He; try done.
  destruct (w_pos w) as [|l k|k]; [done| |]; (destruct Hpos as [?|Ht]; [done|]); pose proof Ht as (_ & -> & _ & _).
  - destruct Hpd as (Hk & ? & ?). split; [by eapply pending_ok_core|done].
  - destruct Hpd as (Hk & ?). split; [by eapply pending_ok_core|done].
Qed.

Lemma mono_closed (p p' : P) a :
  pub_mono p p' → pub_log p' = pub_log p →
  (∃ q, absent_from (pub_log p) q a
     ∧ (q = 0%nat ∨ ∃ r, pub_covers p q r ∧ pub_waited p r = true)) →
  ∃ q, absent_from (pub_log p') q a
    ∧ (q = 0%nat ∨ ∃ r, pub_covers p' q r ∧ pub_waited p' r = true).
Proof.
  intros Hm -> (q & Ha & Hq). exists q. split; [done|]. destruct Hq as [?|(r & Hc & Hw)]; [by left|right].
  exists r. destruct (Hm q r Hc); auto.
Qed.

Lemma inv_env w p :
  inv w → pub_ok p → pub_log p = pub_log (w_pub w) → pub_mono (w_pub w) p →
  inv (mkWorld p (w_mgr w) (w_pos w) (w_drains w)).
Proof.
  intros [Hw Hp Hpd Hnd Ho Hc Hpub Hd Hf Hcl] Hok Hlog Hm.
  split; simpl; rewrite ?Hlog; try done.
  - intros d Hin. destruct (Hd d Hin) as [Hcv ?]. split; [|done]. by destruct (Hm _ _ Hcv).
  - intros a Ha. pose proof (mono_closed _ _ a Hm Hlog (Hcl a Ha)) as Hx. by rewrite Hlog in Hx.
Qed.

(** Addresses of fresh instances. *)
Lemma fresh_addr (m : Manager (Cfg := Cfg)) new a :
  fresh m new → a ∈ addrs new → (length (built m) ≤ a < length (built m) + length new)%nat.
Proof. unfold fresh, addrs. intros ->. rewrite elem_of_seq. lia. Qed.

Lemma in_service_built m a : wf m → in_service m a → (a < length (built m))%nat.
Proof.
  intros Hw (id & r & Hr & <-). destruct (wf_effective m Hw id r Hr) as [Hb _].
  apply (list_elem_of_fmap_2 in_addr) in Hb. rewrite (wf_built m Hw) in Hb. apply elem_of_seq in Hb. lia.
Qed.

Lemma built_addr (m : Manager (Cfg := Cfg)) i : wf m → i ∈ built m → (in_addr i < length (built m))%nat.
Proof.
  intros Hw Hb%(list_elem_of_fmap_2 in_addr). rewrite (wf_built m Hw) in Hb. apply elem_of_seq in Hb. lia.
Qed.

(** A preparation: the new instances are closed, or belong to the pending operation. *)
Lemma inv_prepare w m' r :
  inv w → w_pos w = Idle → prepared (w_mgr w) m' r →
  inv (match r with
       | Ok (Publishing l k) => mkWorld (w_pub w) m' (Prepared l k) (w_drains w)
       | _ => set_mgr m' w
       end).
Proof.
  intros [Hw Hp Hpd Hnd Ho Hc Hpub Hd Hf Hcl] Hpos (Hw' & new & Hb & Hfr & He & Hr).
  set (w' := match r with Ok (Publishing l k) => _ | _ => _ end).
  assert (Hw_ : w_mgr w' = m' ∧ w_pub w' = w_pub w ∧ w_drains w' = w_drains w)
    by (destruct r as [[]|]; done). destruct Hw_ as (Em & Ep & Ed).
  assert (Hout : out_of_service w' ≡ₚ out_of_service w ++ addrs new).
  { unfold out_of_service. rewrite Ed, Em, Hpos. simpl. rewrite app_nil_r.
    destruct r as [[rep|l k]|e]; simpl; rewrite ?Hpos; simpl.
    - destruct Hr as [-> ->]. by rewrite !app_nil_r.
    - destruct Hr as (_ & -> & -> & _). by rewrite app_assoc.
    - destruct Hr as [_ ->]. by rewrite app_nil_r, app_assoc. }
  assert (Hin : ∀ a, in_service m' a ↔ in_service (w_mgr w) a) by (intros a; unfold in_service; by rewrite He).
  assert (Hlen : length (built m') = (length (built (w_mgr w)) + length new)%nat)
    by (by rewrite Hb, length_app).
  assert (Hnever : ∀ a, a ∈ addrs new → absent_from (pub_log (w_pub w)) 0 a).
  { intros a Ha k l Hl _ (i & Hi & <-)%in_addrs. pose proof (built_addr _ _ Hw (Hpub k l i Hl Hi)).
    apply (fresh_addr _ _ _ Hfr) in Ha. lia. }
  assert (Hfin : ∀ a, a ∈ closed (w_mgr w) → a ∈ closed m').
  { intros a Ha. destruct r as [[rep|l k]|e]; [by destruct Hr as [_ ->]|by destruct Hr as (_ & -> & _)|].
    destruct Hr as [_ ->]. apply elem_of_app. by left. }
  split; rewrite ?Ep, ?Em, ?Ed; try done.
  - destruct r as [[rep|l k]|e]; simpl; rewrite ?Hpos; try done.
    destruct Hr as (Ht & _ & -> & -> & Hk). pose proof Ht as (_ & -> & _). done.
  - rewrite Hout. apply NoDup_app. split_and!; [done| |by apply (fresh_nodup (w_mgr w))].
    intros a Ha Hn. apply (fresh_addr _ _ _ Hfr) in Hn. destruct (Ho a Ha). lia.
  - intros a. rewrite Hout, elem_of_app, Hin, Hlen. intros [Ha|Ha].
    + destruct (Ho a Ha). split; [lia|done].
    + apply (fresh_addr _ _ _ Hfr) in Ha as Hlt. split; [lia|].
      intros Hs%in_service_built; [lia|done].
  - intros a. rewrite Hout, elem_of_app, Hin, Hlen. intros Ha.
    destruct (decide (a < length (built (w_mgr w)))%nat) as [Hlt|Hge]; [destruct (Hc a Hlt); auto|].
    right. right. unfold addrs. rewrite Hfr. apply elem_of_seq. lia.
  - intros k l i Hl Hi. rewrite Hb. apply elem_of_app. left. by apply (Hpub k l).
  - intros d Hin' Hst a Ha. apply Hfin. by apply (Hf d).
  - intros a Ha. destruct r as [[rep|l k]|e].
    + destruct Hr as [_ Hx]. rewrite Hx in Ha. by apply Hcl.
    + destruct Hr as (_ & Hx & _). rewrite Hx in Ha. by apply Hcl.
    + destruct Hr as [_ Hx]. rewrite Hx in Ha. apply elem_of_app in Ha as [Ha|Ha]; [by apply Hcl|].
      exists 0%nat. split; [by apply Hnever|by left].
Qed.

(** The publisher refuses. *)
Lemma inv_refused w l k :
  inv w → w_pos w = Prepared l k →
  inv (mkWorld (w_pub w) (fst (refused clock k (w_mgr w))) Idle (w_drains w)).
Proof.
  intros [Hw Hp Hpd Hnd Ho Hc Hpub Hd Hf Hcl] Hpos. rewrite Hpos in Hpd. destruct Hpd as (Hk & -> & Hnew).
  destruct (refused clock k (w_mgr w)) as [m' e] eqn:Hr. apply refused_spec in Hr; [|done].
  destruct Hr as (Hw' & (_ & _ & _ & He) & Hb & Hclo).
  assert (Hout : out_of_service (mkWorld (w_pub w) m' Idle (w_drains w)) = out_of_service w).
  { unfold out_of_service. simpl. rewrite Hpos, Hclo. simpl. by rewrite app_nil_r. }
  split; simpl; rewrite ?Hout; unfold in_service; rewrite ?Hb, ?He; try done.
  - intros d Hin Hst a Ha. rewrite Hclo. apply elem_of_app. left. by apply (Hf d).
  - intros a. rewrite Hclo, elem_of_app. intros [Ha|Ha]; [by apply Hcl|].
    exists 0%nat. split; [by apply Hnew|by left].
Qed.

(** What is being drained or closed is not published again. *)
Lemma not_published_again w k a :
  inv w → pending_ok k (w_mgr w) → new_addrs (w_pos w) = addrs (new_of k) →
  a ∈ mjoin (to_drain <$> w_drains w) ++ closed (w_mgr w) →
  a ∉ addrs (providersFromEffective (next_of k) (factoryOrder (w_mgr w))).
Proof.
  intros Hi Hk Hn Ha (id & r & Hr & <-)%(published_addr _ _ _ (iv_wf _ Hi) Hk).
  pose proof (iv_nodup _ Hi) as Hnd. unfold out_of_service in Hnd. rewrite app_assoc in Hnd.
  apply NoDup_app in Hnd as (_ & Hdis & _). rewrite Hn in Hdis.
  destruct (next_addr _ _ _ _ Hk Hr) as [Hs|Hnew]; [|by apply (Hdis _ Ha)].
  apply (iv_owned _ Hi (in_addr (er_provider r))); [|done]. unfold out_of_service.
  rewrite app_assoc. apply elem_of_app. by left.
Qed.

Lemma drained_out w d a :
  inv w → d ∈ w_drains w → a ∈ addrs (dn_retired d) →
  a ∈ mjoin (to_drain <$> w_drains w) ++ closed (w_mgr w).
Proof.
  intros Hi Hd Ha. apply elem_of_app. destruct (dn_stage d) eqn:Hst;
    [left..|right; by apply (iv_finished _ Hi d)];
    (apply list_elem_of_join; exists (to_drain d); split; [by unfold to_drain; rewrite Hst|];
     apply list_elem_of_fmap; by exists d).
Qed.

(** The publication begins. *)
Lemma inv_publish w l k p :
  inv w → w_pos w = Prepared l k → pub_begin l (w_pub w) = Some (Ok p) →
  inv (mkWorld p (w_mgr w) (Calling k) (w_drains w)).
Proof.
  intros Hi Hpos Hb. pose proof Hi as [Hw Hp Hpd Hnd Ho Hc Hpub Hd Hf Hcl].
  destruct (pub_begin_ok _ _ _ Hp Hb) as (Hp' & Hlog & Hm).
  rewrite Hpos in Hpd. destruct Hpd as (Hk & Hl & Hnew).
  assert (Hout : out_of_service (mkWorld p (w_mgr w) (Calling k) (w_drains w)) = out_of_service w).
  { unfold out_of_service. by rewrite Hpos. }
  assert (Hagain : ∀ a, a ∈ mjoin (to_drain <$> w_drains w) ++ closed (w_mgr w) → a ∉ addrs l).
  { intros a Ha. rewrite Hl. apply (not_published_again w k a); [done|done|by rewrite Hpos|done]. }
  split; simpl; rewrite ?Hout, ?Hlog; try done.
  - split; [done|]. by rewrite last_snoc, Hl.
  - intros j l' i [Hj|[_ Hl']]%lookup_app_Some Hin; [by eapply Hpub|].
    apply list_lookup_singleton_Some in Hl' as [_ <-]. rewrite Hl in Hin.
    apply elem_of_providersFromEffective in Hin as (id & r & Hr & <-); [|apply Hw|by apply next_registered].
    destruct (pk_entry k _ Hk id r Hr) as [[He|Hn] _]; [by apply (wf_effective _ Hw id r)|by apply (pk_new k _ Hk)].
  - intros d Hin. destruct (Hd d Hin) as [Hcv Habs]. split; [by destruct (Hm _ _ Hcv)|].
    intros a Ha. apply absent_mono; [by apply Habs|]. apply Hagain. by eapply drained_out.
  - intros a Ha. destruct (Hcl a Ha) as (q & Habs & Hq). exists q. split.
    + apply absent_mono; [done|]. apply Hagain. apply elem_of_app. by right.
    + destruct Hq as [?|(r & Hcv & Hwt)]; [by left|right]. exists r. destruct (Hm q r Hcv); auto.
Qed.

(** The publication returns: new instances enter service, the others go to a drain. *)
Lemma inv_return w k sample p g r m retired :
  inv w → w_pos w = Calling k → pub_return (w_pub w) = Some (p, (g, r)) →
  complete clock k g sample (w_mgr w) = (m, retired) →
  inv (mkWorld p m Idle
    (w_drains w ++ (if bool_decide (retired = []) then []
                    else [mkDrain (length (pub_log p) - 1) g r retired DrainNew]))).
Proof.
  intros Hi Hpos Hret Hco. pose proof Hi as [Hw Hp Hpd Hnd Ho Hc Hpub Hd Hf Hcl].
  destruct (pub_return_ok _ _ _ _ Hp Hret) as (Hp' & Hlog & Hm & Hcov).
  rewrite Hpos in Hpd. destruct Hpd as (Hk & Hlast).
  destruct (complete_spec _ _ _ _ _ _ _ Hw Hk Hco) as (Hw' & Hb & Hclo & He & Hretd).
  assert (Hsvc : ∀ a, in_service m a ↔ a ∈ addrs (providersFromEffective (next_of k) (factoryOrder (w_mgr w))))
    by (intros a; by apply (in_service_next (w_mgr w) m k g)).
  set (ds := if bool_decide _ then _ else _).
  assert (Hds : mjoin (to_drain <$> ds) = addrs retired).
  { unfold ds. case_bool_decide as Hn; [by rewrite Hn|]. csimpl. by rewrite app_nil_r. }
  assert (Hout : out_of_service (mkWorld p m Idle (w_drains w ++ ds))
    ≡ₚ addrs retired ++ mjoin (to_drain <$> w_drains w) ++ closed (w_mgr w)).
  { unfold out_of_service. simpl. rewrite Hclo, app_nil_r, fmap_app, join_app, Hds.
    rewrite (app_assoc (addrs retired)). f_equiv. apply Permutation_app_comm. }
  assert (Hold : out_of_service w
    = (mjoin (to_drain <$> w_drains w) ++ closed (w_mgr w)) ++ addrs (new_of k)).
  { unfold out_of_service. by rewrite Hpos, app_assoc. }
  rewrite Hold in Hnd, Ho, Hc. apply NoDup_app in Hnd as (Hnd & Hdis & Hnn).
  assert (Hretired : ∀ a, a ∈ addrs retired → in_service (w_mgr w) a
    ∧ a ∉ addrs (providersFromEffective (next_of k) (factoryOrder (w_mgr w)))).
  { intros a. rewrite Hretd. by apply retired_absent. }
  split; simpl; try done.
  - rewrite Hout. apply NoDup_app. split_and!; [rewrite Hretd; apply (pk_retired_nodup _ _ Hk)| |done].
    intros a Ha Hin. destruct (Ho a) as [_ Hns]; [apply elem_of_app; by left|]. by apply Hns, Hretired.
  - intros a. rewrite Hout, elem_of_app, Hb, Hsvc. intros [Ha|Ha].
    + destruct (Hretired a Ha) as [Hs ?]. split; [by apply in_service_built|done].
    + destruct (Ho a) as [Hlt _]; [apply elem_of_app; by left|]. split; [done|].
      apply (not_published_again w k a); [done|done|by rewrite Hpos|done].
  - intros a. rewrite Hout, elem_of_app, Hb, Hsvc. intros Hlt.
    destruct (Hc a Hlt) as [(id & rc & Hr & <-)|[Ha|Ha]%elem_of_app]; [|by right; right|].
    + destruct (decide (in_addr (er_provider rc)
        ∈ addrs (providersFromEffective (next_of k) (factoryOrder (w_mgr w))))) as [Hn|Hn]; [by left|].
      right. left. rewrite Hretd. apply in_addrs. exists (er_provider rc). split; [|done].
      apply (pk_retired _ _ Hk). exists id, rc. split_and!; [done..|]. intros Hx.
      apply Hn, published_addr; eauto.
    + left. apply published_addr; [done..|]. apply in_addrs in Ha as (i & Hin & <-).
      destruct (pk_new _ _ Hk i Hin) as (_ & (id & rc & Hr & <-) & _). eauto.
  - intros j l i Hj Hin. rewrite Hlog in Hj. rewrite Hb. by eapply Hpub.
  - intros d [Hin|Hin]%elem_of_app; rewrite Hlog.
    + destruct (Hd d Hin) as [Hcv ?]. split; [by destruct (Hm _ _ Hcv)|done].
    + unfold ds in Hin. case_bool_decide; [by apply not_elem_of_nil in Hin|].
      apply list_elem_of_singleton in Hin as ->. simpl. rewrite Hlog. split; [by apply Hcov|].
      intros a Ha j l Hj Hle. rewrite last_lookup in Hlast.
      assert (j = Nat.pred (length (pub_log (w_pub w)))) as -> by (apply lookup_lt_Some in Hj; lia).
      rewrite Hj in Hlast. injection Hlast as ->. by apply Hretired.
  - intros d [Hin|Hin]%elem_of_app Hst a Ha; rewrite Hclo; [by apply (Hf d)|].
    unfold ds in Hin. case_bool_decide; [by apply not_elem_of_nil in Hin|].
    apply list_elem_of_singleton in Hin as ->. done.
  - intros a. rewrite Hclo. intros Ha. by apply (mono_closed (w_pub w) p), Hcl.
Qed.

(** A drain that only changes its stage. *)
Lemma inv_drain_stage w n d s m' :
  inv w → w_drains w !! n = Some d → dn_stage d ≠ DrainFinished → s ≠ DrainFinished →
  core m' = core (w_mgr w) →
  inv (set_drain n (set_stage s d) m' w).
Proof.
  intros Hi Hn Hs Hs' Hcore.
  pose proof (core_eq _ _ Hcore) as (Hfa & Hor & Hde & He & Hb & Hclo).
  assert (Hi' : inv (set_mgr m' w)).
  { apply inv_manager; [done|by eapply wf_core; [symmetry|apply Hi]|done|done|done|by right]. }
  destruct Hi' as [Hw Hp Hpd Hnd Ho Hc Hpub Hd Hf Hcl].
  assert (Hout : out_of_service (set_drain n (set_stage s d) m' w) = out_of_service (set_mgr m' w)).
  { unfold out_of_service. simpl. do 2 f_equal. apply concat_same with d; [done|].
    unfold to_drain. simpl. by destruct s, (dn_stage d). }
  split; rewrite ?Hout; try done.
  - intros d' [->|Hin]%(elem_of_set_drain _ _ _ d); [|by apply Hd|done].
    apply (Hd d). by eapply list_elem_of_lookup_2.
  - intros d' [->|Hin]%(elem_of_set_drain _ _ _ d) Hst; [done|by apply (Hf d')|done].
Qed.

(** A drain that is over: its instances are closed. *)
Lemma inv_drain_done w n d inCall :
  inv w → w_drains w !! n = Some d → dn_stage d ≠ DrainFinished →
  pub_waited (w_pub w) (dn_retirement d) = true →
  inv (set_drain n (set_stage DrainFinished d)
         (fst (drain_done clock inCall (dn_generation d) (dn_retired d) (w_mgr w))) w).
Proof.
  intros Hi Hn Hs Hwt. pose proof Hi as [Hw Hp Hpd Hnd Ho Hc Hpub Hd Hf Hcl].
  assert (Hin : d ∈ w_drains w) by (by eapply list_elem_of_lookup_2).
  destruct (drain_done _ _ _ _ _) as [m' ce] eqn:Hdd. simpl.
  assert (same_tables (w_mgr w) m' ∧ built m' = built (w_mgr w)
    ∧ closed m' = closed (w_mgr w) ++ addrs (dn_retired d)) as (Ht & Hb & Hclo).
  { unfold drain_done, publishDrained in Hdd. simpl in Hdd. injection Hdd as <- _.
    match goal with |- same_tables _ (each_event _ ?ty ?g ?re ?pe ?l ?m1) ∧ _ =>
      pose proof (core_eq _ _ (core_each_event clock ty g re pe l m1)) as (Hfa & Hor & Hde & He & Hb & Hclo)
    end. unfold same_tables. rewrite Hfa, Hor, Hde, He, Hb, Hclo. by destruct inCall. }
  pose proof Ht as (_ & Hor & _ & He).
  assert (Hret : to_drain d = addrs (dn_retired d)) by (unfold to_drain; by destruct (dn_stage d)).
  assert (Hout : out_of_service (set_drain n (set_stage DrainFinished d) m' w) ≡ₚ out_of_service w).
  { unfold out_of_service. simpl. rewrite Hclo.
    rewrite (concat_finish (w_drains w) n d (set_stage DrainFinished d)) by done.
    rewrite Hret. apply perm_move. }
  split; rewrite ?Hout; try done.
  - by eapply wf_same.
  - simpl. destruct (w_pos w) as [|l k|k]; [done|..]; rewrite Hor.
    + destruct Hpd as (? & ? & ?). split; [by eapply pending_ok_core|done].
    + destruct Hpd as (? & ?). split; [by eapply pending_ok_core|done].
  - intros a Ha. rewrite Hout in Ha. simpl. unfold in_service. rewrite Hb, He. by apply Ho.
  - intros a. rewrite Hout. simpl. unfold in_service. rewrite Hb, He. apply Hc.
  - intros j l i. simpl. rewrite Hb. apply Hpub.
  - intros d' [->|Hin']%(elem_of_set_drain _ _ _ d); [|by apply Hd|done]. apply (Hd d Hin).
  - simpl. rewrite Hclo. intros d' [->|Hin']%(elem_of_set_drain _ _ _ d) Hst a Ha; [| |done];
      apply elem_of_app; [by right|left; by apply (Hf d')].
  - intros a. simpl. rewrite Hclo, elem_of_app. intros [Ha|Ha]; [by apply Hcl|].
    destruct (Hd d Hin) as [Hcov Habs]. exists (dn_index d). split; [by apply Habs|]. right. by exists (dn_retirement d).
Qed.

Lemma step_keeps_inv w l w' : inv w → step w l = Some w' → inv w'.
Proof.
  intros Hi Hs. destruct l as [f|sample|ctx op| |sample|n pe|n pe|n|e]; simpl in Hs.
  - destruct (w_pos w) eqn:Hpos; [|done..]. injection Hs as <-.
    destruct (RegisterFactory clock f (w_mgr w)) as [m r] eqn:Hr. simpl.
    pose proof (wf_RegisterFactory _ _ _ _ _ (iv_wf _ Hi) Hr) as Hw. unfold RegisterFactory in Hr.
    apply inv_manager; try done; [..|by left]; repeat case_match; simplify_eq; done.
  - destruct (w_pos w) eqn:Hpos; [|done..]. injection Hs as <-.
    pose proof (core_eq _ _ (core_RefreshHealth clock sample (w_mgr w))) as (? & ? & ? & ? & ? & ?).
    apply inv_manager; try done; [by apply wf_RefreshHealth, Hi|by left].
  - destruct (w_pos w) eqn:Hpos; [|done..].
    destruct (prepare _ _ _ _ _) as [m r] eqn:Hp. injection Hs as <-.
    apply prepare_spec in Hp; [|apply Hi]. by apply inv_prepare.
  - destruct (w_pos w) as [|l k|k] eqn:Hpos; [done| |done].
    destruct (pub_begin l (w_pub w)) as [[p|e]|] eqn:Hb; [| |done]; injection Hs as <-.
    + by eapply inv_publish.
    + by eapply inv_refused.
  - destruct (w_pos w) as [|l k|k] eqn:Hpos; [done..|].
    destruct (pub_return (w_pub w)) as [[p [g r]]|] eqn:Hr; [|done].
    destruct (complete clock k g sample (w_mgr w)) as [m retired] eqn:Hco. injection Hs as <-.
    by eapply inv_return.
  - unfold drain_step in Hs. destruct (w_drains w !! n) as [d|] eqn:Hn; [|done]. simpl in Hs.
    destruct (dn_stage d) eqn:Hst; try done. injection Hs as <-.
    apply inv_drain_stage; [done|done|by rewrite Hst|done|by etrans; [apply core_each_event|]].
  - unfold drain_step in Hs. destruct (w_drains w !! n) as [d|] eqn:Hn; [|done]. simpl in Hs.
    destruct (dn_stage d) eqn:Hst; try done. injection Hs as <-.
    apply inv_drain_stage; [done|done|by rewrite Hst|done|by etrans; [apply core_each_event|]].
  - unfold drain_step in Hs. destruct (w_drains w !! n) as [d|] eqn:Hn; [|done]. simpl in Hs.
    destruct (dn_stage d) eqn:Hst; try done;
      (destruct (pub_waited _ _) eqn:Hw; [|done]); injection Hs as <-.
    + apply (inv_drain_done w n d true); [done|done|by rewrite Hst|done].
    + apply (inv_drain_done w n d false); [done|done|by rewrite Hst|done].
  - destruct (pub_env e (w_pub w)) as [p|] eqn:He; [|done]. injection Hs as <-.
    destruct (pub_env_ok _ _ _ (iv_pub _ Hi) He) as (? & ? & ?). by apply inv_env.
Qed.

Lemma steps_keep_inv w ls w' : inv w → steps w ls = Some w' → inv w'.
Proof.
  revert w; induction ls as [|l ls IH]; intros w Hi Hs; simpl in Hs; [by injection Hs as <-|].
  destruct (step w l) as [w1|] eqn:Hl; [|done]. eauto using step_keeps_inv.
Qed.

(** A manager that has built nothing, over a publisher without instances. *)
Definition start (p : P) (m : Manager (Cfg := Cfg)) : World := mkWorld p m Idle [].

Lemma inv_start p m :
  pub_ok p → (∀ l, l ∈ pub_log p → l = []) → wf m → built m = [] → closed m = [] →
  effective m = ∅ → inv (start p m).
Proof.
  intros Hp Hlog Hw Hb Hc He.
  assert (Hout : out_of_service (start p m) = []) by (unfold out_of_service; simpl; by rewrite Hc).
  split; rewrite ?Hout; simpl; rewrite ?Hb, ?Hc; try done.
  - constructor.
  - intros a Ha. by apply not_elem_of_nil in Ha.
  - intros a. simpl. lia.
  - intros k l i Hl Hi. apply list_elem_of_lookup_2 in Hl. apply Hlog in Hl as ->.
    by apply not_elem_of_nil in Hi.
  - intros d Hd. by apply not_elem_of_nil in Hd.
  - intros d Hd. by apply not_elem_of_nil in Hd.
  - intros a Ha. by apply not_elem_of_nil in Ha.
Qed.

(** ** Theorems *)

Lemma leased_not_closed w k l i :
  inv w → pub_lease (w_pub w) k → pub_log (w_pub w) !! k = Some l → i ∈ l →
  in_addr i ∉ closed (w_mgr w).
Proof.
  intros Hi Hle Hl Hin Hcl. destruct (iv_closed _ Hi _ Hcl) as (q & Habs & Hq).
  apply (Habs k l Hl); [|apply in_addrs; eauto].
  destruct Hq as [->|(r & Hcov & Hwt)]; [lia|]. by eapply pub_wait_ok; [apply Hi|..].
Qed.

(** A provider is closed only after its last user.  Under every interleaving of
    operations, drains, timed-out drains and the publisher's own steps, an instance
    of a snapshot on which a lease is held has not been closed, and neither has an
    effective instance. *)
Theorem no_closed_instance_is_leased p m ls w k l i :
  pub_ok p → (∀ l, l ∈ pub_log p → l = []) →
  wf m → built m = [] → closed m = [] → effective m = ∅ →
  steps (start p m) ls = Some w →
  (pub_lease (w_pub w) k → pub_log (w_pub w) !! k = Some l → i ∈ l →
     in_addr i ∉ closed (w_mgr w))
  ∧ (∀ id r, effective (w_mgr w) !! id = Some r → in_addr (er_provider r) ∉ closed (w_mgr w)).
Proof.
  intros Hp Hlog Hw Hb Hc He Hs. pose proof (steps_keep_inv _ _ _ (inv_start p m Hp Hlog Hw Hb Hc He) Hs) as Hi.
  split.
  - by apply leased_not_closed.
  - intros id r Hr Hcl. destruct (iv_owned _ Hi (in_addr (er_provider r))) as [_ Hns].
    + unfold out_of_service. rewrite !elem_of_app. auto.
    + apply Hns. by exists id, r.
Qed.

End World.
