(* ===== verification/Daemon.v ===== *)
(** * The daemon: provider manager and runtime together

    [internal/runtime/manager.go] implements the interface of
    [internal/provider/publication.go] ([Runtime.PublishProviders]), and
    [src/src/managed_runtime.go] puts the two managers together.  The runtime of
    [Runtime] is a [Publisher] that keeps the laws of [Lifecycle], so the theorems
    of [Lifecycle] hold of the daemon. *)

From S2P Require Import Prelude GoStd Provider Config Runtime ProviderManager Lifecycle.

Local Open Scope Z_scope.

(** ** The runtime as a publisher *)

(** The instances of each publication are kept next to the runtime, whose snapshots
    only hold their methods; publications and snapshots have the same numbers. *)
(* src/internal/runtime/manager.go Manager.PublishProviders *)
Record publisher := mkPublisher { rt : Runtime.Manager; rt_log : list (list instance) }.

Definition methods_of (l : list instance) : list (option Provider) := Some <$> (in_methods <$> l).

(** The mutex is free, and the new snapshot is in place. *)
Definition rt_begin (l : list instance) (p : publisher) : option (result publisher unit) :=
  if unlocked (rt p) then
    Some (match PublishProviders (methods_of l) (rt p) with
          | Ok m => Ok (mkPublisher m (rt_log p ++ [l]))
          | Err _ => Err tt
          end)
  else None.

(** The writer that was publishing has retired the old snapshot and unlocks. *)
Definition rt_return (p : publisher) : option (publisher * (Z * retirement)) :=
  match publishing (mu (rt p)) with
  | Some (g, prior) =>
    m ← finish (rt p);
    Some (mkPublisher m (rt_log p), (g, newRetirement (heap (rt p)) g prior))
  | None => None
  end.

(** Nobody else publishes, and the writer's own return is [rt_return]. *)
Definition rt_env (l : Runtime.label) (p : publisher) : option publisher :=
  match l, publishing (mu (rt p)) with
  | LPublish _ _, _ | LPublishProviders _, _ | LFinish, Some _ => None
  | _, _ => m ← Runtime.step (rt p) l; Some (mkPublisher m (rt_log p))
  end.

(** [Wait] returns when nothing is pending. *)
(* src/internal/runtime/manager.go retirement.Wait *)
Definition rt_waited (p : publisher) (r : retirement) : bool := (Pending (rt p) r =? 0)%nat.

Definition is_drained (m : Runtime.Manager) (k : nat) : Prop :=
  ∃ s, heap m !! k = Some s ∧ drained s = true.

Definition rt_covers (p : publisher) (q : nat) (r : retirement) : Prop :=
  (q < nextPtr (rt p))%nat ∧ (∀ k, k ∈ r_snapshots r → (k < q)%nat)
  ∧ ∀ k, (k < q)%nat → k ∈ r_snapshots r ∨ is_drained (rt p) k.

Definition rt_lease (p : publisher) (k : nat) : Prop := ∃ t, leases (rt p) !! t = Some k.

Record rt_ok (p : publisher) : Prop := {
  ok_inv : Runtime.inv (rt p);
  ok_length : length (rt_log p) = nextPtr (rt p);
  ok_heap : ∀ k, (k < nextPtr (rt p))%nat → ∃ s l,
    heap (rt p) !! k = Some s ∧ rt_log p !! k = Some l
    ∧ providers s = Registry.Freeze (Registry.NewRegistry (methods_of l));
  ok_current : ∀ k, current (rt p) = Some k → S k = nextPtr (rt p);
  ok_prior : ∀ g prior, publishing (mu (rt p)) = Some (g, prior) →
    (∀ k, k ∈ prior → (S k < nextPtr (rt p))%nat)
    ∧ ∀ k, (S k < nextPtr (rt p))%nat → k ∈ prior ∨ is_drained (rt p) k;
}.

#[export] Instance runtime_publisher : Publisher publisher retirement Runtime.label := {
  pub_ok := rt_ok; pub_log := rt_log; pub_lease := rt_lease; pub_begin := rt_begin;
  pub_return := rt_return; pub_env := rt_env; pub_waited := rt_waited; pub_covers := rt_covers;
}.

(** ** The laws *)

Lemma is_drained_mono m m' k : keeps_views m m' → is_drained m k → is_drained m' k.
Proof.
  intros Hv (s & Hs & Hd). destruct (Hv k s Hs) as (s' & Hs' & _ & _ & _ & Hd' & _).
  exists s'. auto.
Qed.

Lemma rt_waited_true p r :
  rt_waited p r = true ↔ ∀ k, k ∈ r_snapshots r → is_drained (rt p) k.
Proof.
  unfold rt_waited, Pending. rewrite Nat.eqb_eq. split.
  - intros Hn%nil_length_inv k Hk. destruct (heap (rt p) !! k) as [s|] eqn:Hs.
    + destruct (drained s) eqn:Hd; [by exists s|].
      assert (k ∈ @nil nat) as Hx; [|by apply not_elem_of_nil in Hx]. rewrite <-Hn.
      apply list_elem_of_filter. rewrite Hs. simpl. unfold isDrained. by rewrite Hd.
    + assert (k ∈ @nil nat) as Hx; [|by apply not_elem_of_nil in Hx]. rewrite <-Hn.
      apply list_elem_of_filter. by rewrite Hs.
  - intros Hall. set (f := filter _ _). assert (f = []) as ->; [|done].
    destruct f as [|k f'] eqn:Hf; [done|]. assert (k ∈ f) as Hk by (rewrite Hf; by left).
    apply list_elem_of_filter in Hk as [Hne Hin]. destruct (Hall k Hin) as (s & Hs & Hd).
    rewrite Hs in Hne. simpl in Hne. unfold isDrained in Hne. by rewrite Hd in Hne.
Qed.

Lemma rt_mono p p' :
  keeps_views (rt p) (rt p') → (nextPtr (rt p) ≤ nextPtr (rt p'))%nat → pub_mono p p'.
Proof.
  intros Hv Hn q r (Hq & Hb & Hc). split.
  - split_and!; [simpl in *; lia|done|]. intros k Hk. destruct (Hc k Hk) as [?|?]; [by left|right]. by eapply is_drained_mono.
  - simpl. rewrite !rt_waited_true. intros Hall k Hk. eapply is_drained_mono; eauto.
Qed.

(** Steps other than publications allocate nothing and publish nothing. *)
Definition publishes (l : Runtime.label) : bool :=
  match l with LPublish _ _ | LPublishProviders _ => true | _ => false end.

Lemma quiet_step m l m' : publishes l = false → Runtime.step m l = Some m' →
  nextPtr m' = nextPtr m
  ∧ (∀ k, current m' = Some k → current m = Some k)
  ∧ ∀ x, publishing (mu m') = Some x → publishing (mu m) = Some x.
Proof.
  intros Hp Hs. destruct l; try done; simpl in Hs.
  - unfold load_current in Hs. repeat case_match; simplify_eq; (split_and!; [done|simpl; congruence|done]).
  - unfold try_loaded in Hs. destruct (acquiring m !! t) as [p|]; [|done]. simpl in Hs.
    destruct (heap m !! p); [|done]. simpl in Hs. injection Hs as <-. by destruct (tryAcquire s).
  - unfold release_lease in Hs. destruct (leases m !! t) as [p|]; [|by simplify_eq].
    destruct (heap m !! p); [|done]. simpl in Hs. injection Hs as <-. by destruct (_ && _).
  - unfold Runtime.drain in Hs. case_decide; [|done]. destruct (heap m !! p); [|done]. by injection Hs as <-.
  - unfold retire_next in Hs. destruct (mu m) as [|[|] [|p ?] ?] eqn:Hmu; try done.
    destruct (heap m !! p); [|done]. simpl in Hs. by injection Hs as <-.
  - unfold writer_drain in Hs. destruct (mu m) as [|[p|] ? ?] eqn:Hmu; try done.
    destruct (heap m !! p); [|done]. simpl in Hs. by injection Hs as <-.
  - unfold finish in Hs. by repeat case_match; simplify_eq.
  - destruct (unlocked m); [|done]. injection Hs as <-. unfold close_manager. by case_match.
  - destruct (unlocked m); [|done]. unfold track in Hs.
    destruct (heap m !! p); [|done]. simpl in Hs. by case_match; simplify_eq.
Qed.

Lemma rt_ok_quiet p m l :
  rt_ok p → publishes l = false → Runtime.step (rt p) l = Some m → rt_ok (mkPublisher m (rt_log p)).
Proof.
  intros [Hi Hl Hh Hc Hp] Hq Hs. destruct (quiet_step _ _ _ Hq Hs) as (Hn & Hcur & Hpub).
  pose proof (step_keeps_views _ _ _ Hi Hs) as Hv. split; simpl; rewrite ?Hn; try done.
  - by eapply inv_step.
  - intros k Hk. destruct (Hh k Hk) as (s & l' & Hs' & Hl' & Hreg).
    destruct (Hv k s Hs') as (s' & ? & _ & _ & Hpr & _). exists s', l'. by rewrite Hpr.
  - intros k Hk. by apply Hc, Hcur.
  - intros g prior Hx. destruct (Hp g prior (Hpub _ Hx)) as [? Hp']. split; [done|].
    intros k Hk. destruct (Hp' k Hk) as [?|?]; [by left|right].
    by eapply is_drained_mono.
Qed.

Lemma PublishProviders_Ok l m m' : PublishProviders l m = Ok m' →
  ∃ s, (current m ≫= λ p, heap m !! p) = Some s ∧ publishLocked (Some (config s)) l m = Ok m'.
Proof.
  unfold PublishProviders. destruct (Runtime.closed m); [done|].
  destruct (current m ≫= _) as [s|]; [|done]. eauto.
Qed.

Lemma rt_begin_law p p' l : rt_ok p → rt_begin l p = Some (Ok p') →
  rt_ok p' ∧ rt_log p' = rt_log p ++ [l] ∧ pub_mono p p'.
Proof.
  intros [Hi Hl Hh Hc Hp] Hb. unfold rt_begin in Hb. destruct (unlocked (rt p)) eqn:Hu; [|done].
  destruct (PublishProviders _ _) as [m|e] eqn:Hpp; [|done]. injection Hb as <-.
  apply PublishProviders_Ok in Hpp as (s & _ & Hpl).
  pose proof (keeps_views_publish _ _ _ _ Hi Hpl) as Hv.
  assert (Hi' : Runtime.inv m).
  { eapply inv_publishLocked; [done| |exact Hpl]. unfold unlocked in Hu. by destruct (mu (rt p)). }
  unfold publishLocked in Hpl. apply bind_result_Ok in Hpl as ([] & _ & [= <-]).
  split_and!; [split; simpl in *|done|apply rt_mono; simpl; [done|lia]].
  - done.
  - rewrite length_app, Hl. simpl. lia.
  - intros k Hk. rewrite lookup_insert. case_decide as Heq.
    + subst k. eexists _, l. split; [done|]. split; [|done].
      rewrite lookup_app_r by lia. rewrite Hl, Nat.sub_diag. done.
    + destruct (Hh k ltac:(lia)) as (s' & l' & ? & ? & ?). exists s', l'. split_and!; try done.
      rewrite lookup_app_l; [done|lia].
  - by intros k [= <-].
  - intros g prior [= <- <-]. split.
    { intros k Hk%elem_of_elements. destruct (iv_live _ Hi k Hk) as [sk Hsk].
      pose proof (so_ptr _ _ _ (iv_sound _ Hi k sk Hsk)). lia. }
    intros k Hk. destruct (Hh k ltac:(lia)) as (s' & l' & Hs' & _). destruct (drained s') eqn:Hd.
    + right. exists s'. split; [|done]. simpl. rewrite lookup_insert_ne; [done|lia].
    + left. apply elem_of_elements. by apply (iv_sound _ Hi k s' Hs').
Qed.

Lemma rt_return_law p p' g r : rt_ok p → rt_return p = Some (p', (g, r)) →
  rt_ok p' ∧ rt_log p' = rt_log p ∧ pub_mono p p' ∧ rt_covers p' (length (rt_log p) - 1) r.
Proof.
  intros Hok Hr. unfold rt_return in Hr.
  destruct (publishing (mu (rt p))) as [[g' prior]|] eqn:Hpub; [|done].
  destruct (finish (rt p)) as [m|] eqn:Hf; [|done]. injection Hr as <- <- <-.
  assert (Hs : Runtime.step (rt p) LFinish = Some m) by exact Hf.
  pose proof (step_keeps_views _ _ _ (ok_inv _ Hok) Hs) as Hv.
  destruct (quiet_step _ LFinish _ eq_refl Hs) as (Hn & _).
  destruct (ok_prior _ Hok _ _ Hpub) as [Hb Hp].
  destruct (ok_heap _ Hok (nextPtr (rt p) - 1)) as (s0 & l0 & Hs0 & _).
  { destruct (mu (rt p)) as [|c td [[g0 pr]|]] eqn:Hmu; try done. injection Hpub as <- <-.
    destruct (iv_publishing _ (ok_inv _ Hok) g0 pr) as (q & ? & _); [by rewrite Hmu|lia]. }
  pose proof (so_ptr _ _ _ (iv_sound _ (ok_inv _ Hok) _ s0 Hs0)) as Hpos.
  split_and!; [by eapply (rt_ok_quiet p m LFinish)|done|apply rt_mono; simpl; [done|lia]|].
  rewrite (ok_length _ Hok). unfold rt_covers; simpl. rewrite Hn. split_and!; [lia|..].
  { intros k [_ Hk%Hb]%list_elem_of_filter. lia. }
  intros k Hk. destruct (Hp k ltac:(lia)) as [Hin|Hd]; [|right; by eapply is_drained_mono].
  destruct (decide (isDrained <$> heap (rt p) !! k = Some true)) as [Hd|Hd].
  - right. eapply is_drained_mono; [exact Hv|]. apply fmap_Some in Hd as (s & ? & ?). by exists s.
  - left. apply list_elem_of_filter. done.
Qed.

Lemma rt_env_step p p' l : rt_env l p = Some p' →
  ∃ m, publishes l = false ∧ Runtime.step (rt p) l = Some m ∧ p' = mkPublisher m (rt_log p).
Proof.
  unfold rt_env. intros He. destruct l; try done;
    try (destruct (publishing (mu (rt p))); [done|]);
    (match type of He with (?c ≫= _) = _ => destruct c as [m|] eqn:Hs; [|done] end);
    injection He as <-; by exists m.
Qed.

Lemma rt_env_law p p' l : rt_ok p → rt_env l p = Some p' →
  rt_ok p' ∧ rt_log p' = rt_log p ∧ pub_mono p p'.
Proof.
  intros Hok He.
  destruct (rt_env_step _ _ _ He) as (m & Hq & Hs & ->).
  destruct (quiet_step _ _ _ Hq Hs) as (Hn & _).
  split_and!; [by eapply rt_ok_quiet|done|]. apply rt_mono; simpl; [|lia].
  eapply step_keeps_views; [apply Hok|done].
Qed.

Lemma rt_wait_law p q r k : rt_ok p → rt_covers p q r → rt_waited p r = true → rt_lease p k →
  (q ≤ k)%nat.
Proof.
  intros Hok (_ & _ & Hc) Hw [t Ht]. destruct (decide (k < q)%nat) as [Hlt|]; [exfalso|lia].
  assert (is_drained (rt p) k) as (s & Hs & Hd).
  { destruct (Hc k Hlt) as [Hin|?]; [|done]. by apply (proj1 (rt_waited_true p r) Hw). }
  destruct (iv_sound _ (ok_inv _ Hok) k s Hs) as [Ha Hdr _ _ _ _ _ _].
  destruct (Hdr Hd) as [_ H0]. pose proof (held_pos _ _ _ Ht). lia.
Qed.

#[export] Instance runtime_publisher_laws : PublisherLaws publisher retirement Runtime.label.
Proof.
  split; simpl.
  - intros p p' l. apply rt_begin_law.
  - intros p p' g r. apply rt_return_law.
  - intros p p' e. apply rt_env_law.
  - intros p q r k. apply rt_wait_law.
Qed.

(** ** The daemon

    [runServer] starts a runtime without providers, and a provider manager over it
    with the compiled factories; every later publication is one of the provider
    manager's. *)

Section Daemon.

Context {Cfg : Type} (configFingerprint : Cfg → option string) (clock : nat → Time).

Notation world := (World (Cfg := Cfg) (P := publisher) (Ret := retirement)).

(* src/src/cli.go:445-465 handleRun *)
(* src/src/managed_runtime.go newProviderManagerWithAuth *)
Definition boot (config : Config) (factories : list (FactoryFuncs (Cfg := Cfg)))
    (options : ManagerOptions) : result world unit :=
  match Runtime.NewManager (Some config) [], ProviderManager.NewManager true None None options with
  | Ok r, Ok m =>
    Ok (start (mkPublisher r [[]])
          (foldl (λ m f, fst (RegisterFactory clock (Some f) m)) m factories))
  | _, _ => Err tt
  end.

Lemma rt_ok_new config r : Runtime.NewManager (Some config) [] = Ok r → rt_ok (mkPublisher r [[]]).
Proof.
  intros Hr. pose proof (inv_NewManager _ _ _ Hr) as Hi. simpl in Hr. injection Hr as <-.
  split; simpl; try done.
  - intros k Hk. assert (k = 0%nat) as -> by lia.
    exists (newSnapshotWithRegistries 1 config []), []. done.
  - intros k [= <-]. done.
Qed.

Lemma register_all_untouched (l : list (FactoryFuncs (Cfg := Cfg))) (m : ProviderManager.Manager (Cfg := Cfg)) :
  let m' := foldl (λ m f, fst (RegisterFactory clock (Some f) m)) m l in
  built m' = built m ∧ ProviderManager.closed m' = ProviderManager.closed m
  ∧ effective m' = effective m.
Proof.
  revert m; induction l as [|f l IH]; intros m; cbn [foldl]; [done|].
  destruct (IH (fst (RegisterFactory clock (Some f) m))) as (-> & -> & ->).
  unfold RegisterFactory. by repeat case_match.
Qed.

Lemma boot_inv config factories options w :
  boot config factories options = Ok w → Lifecycle.inv w ∧ w_drains w = [].
Proof.
  unfold boot. destruct (Runtime.NewManager (Some config) []) as [r|] eqn:Hr; [|done].
  destruct (ProviderManager.NewManager true None None options) as [m|] eqn:Hm; [|done]. intros [= <-].
  split; [|done]. destruct (register_all_untouched factories m) as (Hb & Hc & He).
  pose proof (wf_NewManager _ _ _ _ _ Hm) as Hw.
  assert (built m = [] ∧ ProviderManager.closed m = [] ∧ effective m = ∅) as (Hb0 & Hc0 & He0)
    by (unfold ProviderManager.NewManager in Hm; simpl in Hm; by injection Hm as <-).
  apply inv_start; [by apply (rt_ok_new config)|by intros l ->%list_elem_of_singleton| |..].
  - by apply wf_register_all.
  - by etrans; [exact Hb|].
  - by etrans; [exact Hc|].
  - by etrans; [exact He|].
Qed.

Lemma reachable_inv config factories options w0 ls w :
  boot config factories options = Ok w0 → Lifecycle.steps configFingerprint clock w0 ls = Some w →
  Lifecycle.inv w.
Proof. intros [Hi _]%boot_inv Hs. by eapply steps_keep_inv. Qed.

Lemma built_at (m : ProviderManager.Manager (Cfg := Cfg)) i : wf m → i ∈ built m → built m !! in_addr i = Some i.
Proof.
  intros Hw [n Hn]%list_elem_of_lookup. assert (Hn' : (in_addr <$> built m) !! n = Some (in_addr i)) by by rewrite list_lookup_fmap, Hn.
  rewrite (wf_built m Hw) in Hn'. apply lookup_seq in Hn' as [Heq _]. by rewrite Heq.
Qed.

(** C5. A request never meets a closed provider.  Whatever configurations are
    reconciled, providers replaced, removed and drained, and requests served in
    between: the snapshot leased to a request has its providers from the instances of
    one publication, and each of these is the instance that a factory built under its
    address and has not been closed. *)
Theorem requests_meet_open_providers config factories options w0 ls w t p s :
  boot config factories options = Ok w0 → Lifecycle.steps configFingerprint clock w0 ls = Some w →
  leases (rt (w_pub w)) !! t = Some p → heap (rt (w_pub w)) !! p = Some s →
  ∃ l, rt_log (w_pub w) !! p = Some l
    ∧ (∀ id provider, Registry.Get (providers s) id = Ok provider → ∃ i, i ∈ l ∧ in_methods i = provider ∧ instance_ID i = id)
    ∧ ∀ i, i ∈ l → built (w_mgr w) !! in_addr i = Some i ∧ in_addr i ∉ ProviderManager.closed (w_mgr w).
Proof.
  intros H0 Hs Ht Hp. pose proof (reachable_inv _ _ _ _ _ _ H0 Hs) as Hi.
  pose proof (Lifecycle.iv_pub _ Hi) as Hok. simpl in Hok.
  destruct (ok_heap _ Hok p) as (s' & l & Hs' & Hl & Hreg);
    [by apply (so_ptr _ _ _ (iv_sound _ (ok_inv _ Hok) p s Hp))|]. simplify_eq.
  exists l. split; [done|]. split.
  - intros id provider Hg. unfold Registry.Get in Hg. rewrite Hreg in Hg. simpl in Hg.
    destruct (Registry.providers _ !! id) as [q|] eqn:Hq; [|done]. injection Hg as <-.
    pose proof (Registry.wf_key _ (Registry.wf_NewRegistry _) _ _ Hq) as Hid.
    apply Registry.NewRegistry_from in Hq. unfold methods_of in Hq.
    apply list_elem_of_fmap in Hq as (q' & [= <-] & (i & -> & Hin)%list_elem_of_fmap). by exists i.
  - intros i Hin. split; [|apply (leased_not_closed clock w p l); [done|by exists t|done|done]].
    apply built_at; [apply Hi|by eapply (Lifecycle.iv_published _ Hi)].
Qed.

(** No instance is lost and none is closed twice.  Every instance a factory has
    built is in exactly one place: in service, held by the operation under way,
    waiting in a drain that is not finished, or closed, and then closed once. *)
Theorem instances_are_conserved config factories options w0 ls w a :
  boot config factories options = Ok w0 → Lifecycle.steps configFingerprint clock w0 ls = Some w →
  let elsewhere := mjoin (to_drain <$> w_drains w) ++ ProviderManager.closed (w_mgr w)
    ++ new_addrs (w_pos w) in
  NoDup elsewhere
  ∧ ((a < length (built (w_mgr w)))%nat ↔ in_service (w_mgr w) a ∨ a ∈ elsewhere)
  ∧ ¬ (in_service (w_mgr w) a ∧ a ∈ elsewhere).
Proof.
  intros H0 Hs elsewhere. pose proof (reachable_inv _ _ _ _ _ _ H0 Hs) as Hi.
  split; [apply Hi|]. split; [split|].
  - apply (Lifecycle.iv_covered _ Hi).
  - intros [Ha|Ha]; [by apply in_service_built; [apply Hi|]|]. by apply (Lifecycle.iv_owned _ Hi).
  - intros [Hs' Ha]. by destruct (Lifecycle.iv_owned _ Hi a Ha).
Qed.

(** C14. Retired providers do get closed.  Once no publication or release is in the
    middle of its steps, and the leases still held are on snapshots no older than
    the publication that retired the instances, the drain can go on, and it closes
    them, whether its caller is still waiting or has timed out. *)
Theorem retired_instances_get_closed config factories options w0 ls w n d :
  boot config factories options = Ok w0 → Lifecycle.steps configFingerprint clock w0 ls = Some w →
  w_drains w !! n = Some d → dn_stage d = DrainWaiting ∨ dn_stage d = DrainTimedOut →
  mu (rt (w_pub w)) = Unlocked → draining (rt (w_pub w)) = ∅ →
  (∀ t k, leases (rt (w_pub w)) !! t = Some k → (dn_index d ≤ k)%nat) →
  ∃ w', Lifecycle.step configFingerprint clock w (WDrainDone n) = Some w'
    ∧ ∀ i, i ∈ dn_retired d → in_addr i ∈ ProviderManager.closed (w_mgr w').
Proof.
  intros H0 Hs Hn Hst Hmu Hdr Hl. pose proof (reachable_inv _ _ _ _ _ _ H0 Hs) as Hi.
  pose proof (Lifecycle.iv_pub _ Hi) as Hok. simpl in Hok. pose proof (ok_inv _ Hok) as Hri.
  destruct (Lifecycle.iv_drains _ Hi d) as [(Hq & Hb & Hc) _]; [by eapply list_elem_of_lookup_2|].
  assert (Hw : rt_waited (w_pub w) (dn_retirement d) = true).
  { apply rt_waited_true. intros k Hk. specialize (Hb k Hk).
    destruct (ok_heap _ Hok k ltac:(lia)) as (s & _ & Hsk & _). exists s. split; [done|].
    destruct (drained s) eqn:Hd; [done|]. pose proof (iv_sound _ Hri k s Hsk) as [Ha _ Hwk Hse _ _ _ _].
    rewrite Hmu in Hwk, Hse. rewrite Hdr in Hwk. simpl in Hwk, Hse.
    assert (held k (leases (rt (w_pub w))) = 0%nat) as Hh.
    { apply map_size_empty_iff, map_empty. intros t. apply map_lookup_filter_None. right.
      intros q Hq' Heq. simpl in Heq. subst q. specialize (Hl t k Hq'). lia. }
    destruct (retired s) eqn:Hr.
    - destruct (Hwk eq_refl) as [?|[?|?]]; [lia|congruence|set_solver|done].
    - destruct (Hse eq_refl) as [Hcur|Hcur]; [|by apply not_elem_of_nil in Hcur].
      pose proof (ok_current _ Hok k Hcur). lia. }
  cbn [Lifecycle.step]. unfold drain_step. rewrite Hn. cbn [mbind option_bind].
  change (pub_waited (w_pub w) (dn_retirement d)) with (rt_waited (w_pub w) (dn_retirement d)).
  rewrite Hw. destruct Hst as [Hst|Hst]; rewrite Hst; eexists; (split; [reflexivity|]);
    intros i Hin; cbn [set_drain w_mgr]; unfold drain_done, publishDrained; cbn [closeProviders fst];
    (match goal with |- _ ∈ ProviderManager.closed (each_event _ ?ty ?g ?re ?pe ?l ?m1) =>
      pose proof (core_eq _ _ (core_each_event clock ty g re pe l m1)) as (_ & _ & _ & _ & _ & ->)
    end); simpl; apply elem_of_app; right; by apply list_elem_of_fmap_2.
Qed.

(** *** The configuration *)

Definition shows (config : Config) (p : publisher) : Prop :=
  ∀ k s, heap (rt p) !! k = Some s → Runtime.config s = Clone config.

Lemma shows_quiet config p m l :
  rt_ok p → shows config p → publishes l = false → Runtime.step (rt p) l = Some m →
  shows config (mkPublisher m (rt_log p)).
Proof.
  intros Hok Hsh Hq Hs k s' Hk. simpl in Hk. destruct (quiet_step _ _ _ Hq Hs) as (Hn & _).
  pose proof (inv_step _ _ _ (ok_inv _ Hok) Hs) as Hi'.
  pose proof (so_ptr _ _ _ (iv_sound _ Hi' k s' Hk)) as Hlt. rewrite Hn in Hlt.
  destruct (ok_heap _ Hok k Hlt) as (s & _ & Hsk & _).
  destruct (step_keeps_views _ _ _ (ok_inv _ Hok) Hs k s Hsk) as (s'' & Hs'' & _ & Hc & _).
  simplify_eq. rewrite Hc. by apply Hsh with k.
Qed.

Lemma shows_begin config p p' l : shows config p → rt_begin l p = Some (Ok p') → shows config p'.
Proof.
  intros Hsh Hb. unfold rt_begin in Hb. destruct (unlocked (rt p)); [|done].
  destruct (PublishProviders _ _) as [m|e] eqn:Hpp; [|done]. injection Hb as <-.
  apply PublishProviders_Ok in Hpp as (s & Hcur & Hpl).
  assert (Runtime.config s = Clone config) as Hcs.
  { destruct (current (rt p)) as [k|]; [|done]. by apply (Hsh k). }
  unfold publishLocked in Hpl. apply bind_result_Ok in Hpl as ([] & _ & [= <-]).
  intros k sk Hk. simpl in Hk. apply lookup_insert_Some in Hk as [[<- <-]|[_ Hk]]; [|by apply (Hsh k)].
  simpl. by rewrite Hcs, Clone_idemp.
Qed.

Lemma step_shows config w l w' :
  Lifecycle.inv w → shows config (w_pub w) → Lifecycle.step configFingerprint clock w l = Some w' →
  shows config (w_pub w').
Proof.
  intros Hi Hsh Hs. pose proof (Lifecycle.iv_pub _ Hi) as Hok. simpl in Hok.
  destruct l as [f|sample|ctx op| |sample|n pe|n pe|n|e]; cbn [Lifecycle.step] in Hs.
  - destruct (w_pos w); [|done..]. by injection Hs as <-.
  - destruct (w_pos w); [|done..]. by injection Hs as <-.
  - destruct (w_pos w); [|done..]. destruct (prepare _ _ _ _ _) as [m r].
    injection Hs as <-. by destruct r as [[]|].
  - destruct (w_pos w) as [|l k|]; [done| |done]. destruct (pub_begin l (w_pub w)) as [[p|e]|] eqn:Hb;
      [| |done]; injection Hs as <-; [|done]. by eapply shows_begin.
  - destruct (w_pos w) as [|l k|k]; [done..|].
    destruct (pub_return (w_pub w)) as [[p [g r]]|] eqn:Hr; [|done].
    destruct (complete _ _ _ _ _) as [m retired]. injection Hs as <-. simpl in Hr. unfold rt_return in Hr.
    destruct (publishing _) as [[g' prior]|]; [|done].
    destruct (finish (rt (w_pub w))) as [m'|] eqn:Hf; [|done]. injection Hr as <- _ _.
    by eapply (shows_quiet config (w_pub w) m' LFinish).
  - unfold drain_step in Hs. destruct (w_drains w !! n) as [d|]; [|done]. simpl in Hs.
    destruct (dn_stage d); by simplify_eq.
  - unfold drain_step in Hs. destruct (w_drains w !! n) as [d|]; [|done]. simpl in Hs.
    destruct (dn_stage d); by simplify_eq.
  - unfold drain_step in Hs. destruct (w_drains w !! n) as [d|]; [|done]. cbn [mbind option_bind] in Hs.
    destruct (dn_stage d); try done; (destruct (pub_waited _ _); [|done]); by injection Hs as <-.
  - destruct (pub_env e (w_pub w)) as [p|] eqn:He; [|done]. injection Hs as <-.
    simpl in He. destruct (rt_env_step _ _ _ He) as (m & Hq & Hm & ->). by eapply shows_quiet.
Qed.

(** The configuration that requests see is the one the daemon was started with.
    The provider manager republishes the current snapshot's configuration, and
    nothing else publishes, so whatever is reconciled afterwards, a change of the
    routing, of virtual models or of timeouts reaches no request before a restart. *)
Theorem configuration_is_frozen_at_boot config factories options w0 ls w p s :
  boot config factories options = Ok w0 → Lifecycle.steps configFingerprint clock w0 ls = Some w →
  heap (rt (w_pub w)) !! p = Some s → Runtime.config s = Clone config.
Proof.
  intros H0 Hs. destruct (boot_inv _ _ _ _ H0) as [Hi _].
  assert (Hsh : shows config (w_pub w0)).
  { unfold boot in H0. simpl in H0. injection H0 as <-.
    intros k s' Hk. simpl in Hk. by apply lookup_singleton_Some in Hk as [_ <-]. }
  clear H0. revert w0 Hi Hsh Hs; induction ls as [|l ls IH]; intros w0 Hi Hsh Hs; cbn [Lifecycle.steps] in Hs.
  { injection Hs as <-. apply Hsh. }
  destruct (Lifecycle.step _ _ w0 l) as [w1|] eqn:Hl; [|done].
  eapply (IH w1); [by eapply step_keeps_inv|by eapply step_shows|exact Hs].
Qed.

End Daemon.

(** ** An example

    Two providers are started; a request takes a lease; one provider's
    configuration changes, and its old instance waits for the request. *)

Module DaemonExample.

Definition factories : list (FactoryFuncs (Cfg := string)) :=
  [Example.factory "codex" "codex"; Example.factory "kilo" "kilo"].
Definition options : ManagerOptions := mkOptions 0 0.

Definition w0 : World (Cfg := string) (P := publisher) (Ret := retirement) :=
  match boot Example.clock blank factories options with
  | Ok w => w
  | Err _ => start (mkPublisher initial [[]]) Example.registered
  end.

Lemma booted : boot Example.clock blank factories options = Ok w0.
Proof. reflexivity. Qed.

Definition reconfigure : list (Lifecycle.label (Cfg := string) (Env := Runtime.label)) :=
  [WPrepare false (OpReconcile Example.both); WPublish; WEnv LRetire; WEnv LCloseDrained;
   WReturn Example.healthy; WEnv (LLoad 1); WEnv (LTry 1);
   WPrepare false (OpReconcile Example.again); WPublish; WEnv LRetire; WReturn Example.healthy;
   WDrainBegin 0 (λ _, 1); WDrainTimeout 0 1].

(** The request ends. *)
Definition finish_request : list (Lifecycle.label (Cfg := string) (Env := Runtime.label)) :=
  reconfigure ++ [WEnv (LRelease 1); WEnv (LDrain 1)].

Definition at_ ls := default w0 (Lifecycle.steps Example.fingerprint Example.clock w0 ls).

Lemma reconfigured :
  Lifecycle.steps Example.fingerprint Example.clock w0 reconfigure = Some (at_ reconfigure).
Proof. vm_compute. reflexivity. Qed.

Lemma finished_request :
  Lifecycle.steps Example.fingerprint Example.clock w0 finish_request = Some (at_ finish_request).
Proof. vm_compute. reflexivity. Qed.

(** The lease keeps the drain from going on. *)
Example drain_waits : Lifecycle.step Example.fingerprint Example.clock (at_ reconfigure) (WDrainDone 0) = None.
Proof. vm_compute. reflexivity. Qed.

End DaemonExample.

(** The lease on the snapshot whose provider has been replaced since. *)
Lemma requests_meet_open_providers_witness :
  ∃ (l : list instance) i, i ∈ l ∧ in_methods i = Example.methods "kilo" ∧ instance_ID i = "kilo"
    ∧ built (w_mgr (DaemonExample.at_ DaemonExample.reconfigure)) !! in_addr i = Some i
    ∧ in_addr i ∉ ProviderManager.closed (w_mgr (DaemonExample.at_ DaemonExample.reconfigure)).
Proof.
  destruct (heap (rt (w_pub (DaemonExample.at_ DaemonExample.reconfigure))) !! 1%nat) as [s|] eqn:Hs.
  - destruct (requests_meet_open_providers Example.fingerprint Example.clock blank DaemonExample.factories
      DaemonExample.options DaemonExample.w0 DaemonExample.reconfigure
      (DaemonExample.at_ DaemonExample.reconfigure) 1%nat 1%nat s
      DaemonExample.booted DaemonExample.reconfigured) as (l & _ & Hfrom & Hopen); [vm_compute; reflexivity|exact Hs|].
    assert (Hg : (λ s, Registry.Get (providers s) "kilo")
        <$> heap (rt (w_pub (DaemonExample.at_ DaemonExample.reconfigure))) !! 1%nat
      = Some (Ok (Example.methods "kilo"))) by (vm_compute; reflexivity).
    rewrite Hs in Hg. destruct (Hfrom "kilo" (Example.methods "kilo")) as (i & Hin & Hm & Hid); [simpl in Hg; by injection Hg|].
    exists l, i. destruct (Hopen i Hin) as [Hb Hc]. split; [exact Hin|]. split; [exact Hm|]. split; [exact Hid|]. split; [exact Hb|exact Hc].
  - assert (Hn : is_Some (heap (rt (w_pub (DaemonExample.at_ DaemonExample.reconfigure))) !! 1%nat))
      by (vm_compute; eauto).
    rewrite Hs in Hn. by destruct Hn.
Defined.

Lemma instances_are_conserved_witness :
  let w := DaemonExample.at_ DaemonExample.reconfigure in
  mjoin (to_drain <$> w_drains w) = [1%nat]
  ∧ (in_service (w_mgr w) 2 ∨ 2%nat ∈ mjoin (to_drain <$> w_drains w)
       ++ ProviderManager.closed (w_mgr w) ++ new_addrs (w_pos w)).
Proof.
  split; [vm_compute; reflexivity|].
  apply (instances_are_conserved Example.fingerprint Example.clock blank DaemonExample.factories
    DaemonExample.options DaemonExample.w0 DaemonExample.reconfigure _ 2%nat
    DaemonExample.booted DaemonExample.reconfigured).
  vm_compute. lia.
Defined.

Lemma retired_instances_get_closed_witness :
  ∃ w', Lifecycle.step Example.fingerprint Example.clock (DaemonExample.at_ DaemonExample.finish_request)
      (WDrainDone 0) = Some w' ∧ 1%nat ∈ ProviderManager.closed (w_mgr w').
Proof.
  assert (Hsome : (λ d, (dn_index d, dn_stage d, in_addr <$> dn_retired d))
      <$> w_drains (DaemonExample.at_ DaemonExample.finish_request) !! 0%nat
    = Some (2%nat, DrainTimedOut, [1%nat])) by (vm_compute; reflexivity).
  destruct (w_drains (DaemonExample.at_ DaemonExample.finish_request) !! 0%nat) as [d|] eqn:Hd;
    [|discriminate].
  simpl in Hsome. injection Hsome as Hi Hst Hr.
  destruct (retired_instances_get_closed Example.fingerprint Example.clock blank DaemonExample.factories
    DaemonExample.options DaemonExample.w0 DaemonExample.finish_request _ 0%nat d
    DaemonExample.booted DaemonExample.finished_request Hd) as (w' & Hw' & Hc).
  - right. exact Hst.
  - vm_compute. reflexivity.
  - vm_compute. reflexivity.
  - intros t k Ht. assert (leases (rt (w_pub (DaemonExample.at_ DaemonExample.finish_request))) = ∅) as He
      by (vm_compute; reflexivity). rewrite He in Ht. clear -Ht. rewrite lookup_empty in Ht. discriminate Ht.
  - exists w'. split; [exact Hw'|].
    assert (Hin : 1%nat ∈ in_addr <$> dn_retired d) by (rewrite Hr; left).
    apply list_elem_of_fmap in Hin as (i & Heq & Hin). rewrite Heq. exact (Hc i Hin).
Defined.

Lemma configuration_is_frozen_at_boot_witness :
  ∃ s, heap (rt (w_pub (DaemonExample.at_ DaemonExample.reconfigure))) !! 2%nat = Some s
    ∧ Runtime.config s = Clone blank.
Proof.
  assert (Hn : is_Some (heap (rt (w_pub (DaemonExample.at_ DaemonExample.reconfigure))) !! 2%nat))
    by (vm_compute; eauto).
  destruct (heap (rt (w_pub (DaemonExample.at_ DaemonExample.reconfigure))) !! 2%nat) as [s|] eqn:Hs;
    [|exfalso; by destruct Hn].
  exists s. split; [reflexivity|].
  exact (configuration_is_frozen_at_boot Example.fingerprint Example.clock blank DaemonExample.factories
    DaemonExample.options DaemonExample.w0 DaemonExample.reconfigure _ 2%nat s
    DaemonExample.booted DaemonExample.reconfigured Hs).
Defined.
