(* ===== verification/Mutations.v ===== *)
(** * Configuration mutations of the control API

    [internal/control/mutations.go]: the typed changes a client may ask for, each a
    function from the current configuration to a new one; and
    [src/src/mutation_runtime.go]: their application through the state manager,
    with the compensation that follows a failed reload of the providers.

    The global [configWriteMu] makes [applyManagedMutation] one step.  The
    reconciliation of the providers is an argument: its answer, or none when there
    is no reloader. *)

From S2P Require Import Prelude GoStd Config Provider Writers State.

Local Open Scope Z_scope.

(** ** The mutations *)

(* src/internal/control/mutations.go MutationKind *)
(* src/internal/control/mutations.go MutationProviderEnabled *)
Inductive MutationKind :=
| MutationProviderEnabled | MutationDefaultModel | MutationDefaultProvider
| MutationAllowedModels | MutationModelMapSet | MutationModelMapDelete
| MutationOther (kind : string).

(* src/internal/control/mutations.go MutationRequest *)
Record MutationRequest := mkRequest {
  mr_Kind : MutationKind; mr_ExpectedRevision : Z; mr_DryRun : bool; mr_Provider : string;
  mr_Enabled : option bool; mr_Model : string; mr_UpstreamModel : string;
  mr_AllowedModels : list string; mr_Value : string;
}.

Inductive error :=
| CurrentRequired | EnabledRequired | ValueRequired | UnknownDefaultProvider (value : string)
| ModelRequired | UnknownProvider (provider : string) | ShadowsVirtualModel (model : string)
| UnsupportedKind (kind : string).

(* src/internal/control/mutations.go knownProviderIDs *)
Definition knownProviderIDs : list string := [Copilot; Codex; Kilo].

Definition set_routing (f : Routing → Routing) (c : Config) : Config :=
  mkConfig (Port c) (ConfigVersion c) (EnablePprof c) (cfg_Logging c) (f (cfg_Routing c))
    (cfg_Providers c) (cfg_Timeouts c).
Definition set_providers (f : Providers → Providers) (c : Config) : Config :=
  mkConfig (Port c) (ConfigVersion c) (EnablePprof c) (cfg_Logging c) (cfg_Routing c)
    (f (cfg_Providers c)) (cfg_Timeouts c).

(** The three providers share the fields a mutation writes. *)
Definition update_provider (provider : string) (enabled : bool → bool)
    (allowed : slice string → slice string) (config : Config) : result Config error :=
  let provider := TrimSpace provider in
  if String.eqb provider Copilot then
    Ok (set_providers (λ p,
      let c := pr_Copilot p in
      mkProviders (mkCopilotProvider (enabled (cp_Enabled c)) (cp_Auth c) (cp_Accounts c)
        (cp_AccountCooldownSeconds c) (allowed (cp_AllowedModels c))) (pr_Codex p) (pr_Kilo p)) config)
  else if String.eqb provider Codex then
    Ok (set_providers (λ p,
      let x := pr_Codex p in
      mkProviders (pr_Copilot p) (mkCodexProvider (enabled (cx_Enabled x)) (cx_Auth x)
        (cx_Accounts x) (cx_AccountCooldownSeconds x) (allowed (cx_AllowedModels x))
        (cx_ChatGPTBaseURL x)) (pr_Kilo p)) config)
  else if String.eqb provider Kilo then
    Ok (set_providers (λ p,
      let k := pr_Kilo p in
      mkProviders (pr_Copilot p) (pr_Codex p) (mkKiloProvider (enabled (kp_Enabled k))
        (kp_AllowAnonymous k) (kp_APIKey k) (kp_APIKeyRef k) (kp_OrganizationID k)
        (kp_OrganizationIDRef k) (kp_BaseURL k) (allowed (kp_AllowedModels k)))) config)
  else Err (UnknownProvider provider).

(* src/internal/control/mutations.go setProviderEnabled *)
Definition setProviderEnabled (config : Config) (provider : string) (enabled : bool)
    : result Config error := update_provider provider (λ _, enabled) (λ a, a) config.

(** [seen] is the set of the trimmed names already kept. *)
(* src/internal/control/mutations.go cleanModelList *)
Fixpoint clean_loop (seen : gset string) (models : list string) : list string :=
  match models with
  | [] => []
  | model :: models =>
    let trimmed := TrimSpace model in
    if String.eqb trimmed "" then clean_loop seen models
    else if decide (trimmed ∈ seen) then clean_loop seen models
    else trimmed :: clean_loop ({[trimmed]} ∪ seen) models
  end.

(* src/internal/control/mutations.go cleanModelList *)
Definition cleanModelList (models : list string) : slice string :=
  match models with [] => None | _ => Some (sort_Strings (clean_loop ∅ models)) end.

(* src/internal/control/mutations.go setAllowedModels *)
Definition setAllowedModels (config : Config) (provider : string) (models : list string)
    : result Config error :=
  update_provider provider (λ e, e) (λ _, cleanModelList models) config.

Definition set_model_map (f : gmap string ModelMapEntry → gmap string ModelMapEntry) (r : Routing)
    : Routing :=
  mkRouting (DefaultModel r) (DefaultProvider r) (ShowUnavailableModels r) (f (ModelMap r))
    (ClaudeAliases r) (VirtualModels r) (ExposeInternalModels r).

(* src/internal/control/mutations.go setModelMapEntry *)
Definition setModelMapEntry (config : Config) (request : MutationRequest) : result Config error :=
  let key := TrimSpace (mr_Model request) in
  if String.eqb key "" then Err ModelRequired
  else
    let provider := TrimSpace (mr_Provider request) in
    if negb (bool_decide (provider ∈ knownProviderIDs)) then Err (UnknownProvider provider)
    else
      match VirtualModels (cfg_Routing config) !! key with
      | Some _ => Err (ShadowsVirtualModel key)
      | None =>
        Ok (set_routing (set_model_map
              (insert key (mkModelMapEntry provider (TrimSpace (mr_UpstreamModel request))))) config)
      end.

(* src/internal/control/mutations.go firstNonEmptyMutation *)
Fixpoint firstNonEmptyMutation (values : list string) : string :=
  match values with
  | [] => ""
  | value :: values =>
    if negb (String.eqb (TrimSpace value) "") then value else firstNonEmptyMutation values
  end.

(* src/internal/control/mutations.go ApplyMutation *)
Definition ApplyMutation (current : option Config) (request : MutationRequest)
    : result Config error :=
  match current with
  | None => Err CurrentRequired
  | Some current =>
    let next := Clone current in
    match mr_Kind request with
    | MutationProviderEnabled =>
      match mr_Enabled request with
      | None => Err EnabledRequired
      | Some enabled => setProviderEnabled next (mr_Provider request) enabled
      end
    | MutationDefaultModel =>
      let value := TrimSpace (firstNonEmptyMutation [mr_Value request; mr_Model request]) in
      if String.eqb value "" then Err ValueRequired
      else Ok (set_routing (λ r, mkRouting value (DefaultProvider r) (ShowUnavailableModels r)
             (ModelMap r) (ClaudeAliases r) (VirtualModels r) (ExposeInternalModels r)) next)
    | MutationDefaultProvider =>
      let value := TrimSpace (mr_Value request) in
      if negb (bool_decide (value ∈ knownProviderIDs)) then Err (UnknownDefaultProvider value)
      else Ok (set_routing (λ r, mkRouting (DefaultModel r) value (ShowUnavailableModels r)
             (ModelMap r) (ClaudeAliases r) (VirtualModels r) (ExposeInternalModels r)) next)
    | MutationAllowedModels => setAllowedModels next (mr_Provider request) (mr_AllowedModels request)
    | MutationModelMapSet => setModelMapEntry next request
    | MutationModelMapDelete =>
      let key := TrimSpace (mr_Model request) in
      if String.eqb key "" then Err ModelRequired
      else Ok (set_routing (set_model_map (delete key)) next)
    | MutationOther kind => Err (UnsupportedKind kind)
    end
  end.

(** ** Their application *)

(* src/src/mutation_runtime.go MutationResult *)
Record MutationResult := mkResult {
  re_DryRun : bool; re_Applied : bool; re_RuntimePublished : bool; re_CurrentRevision : Z;
  re_NextRevision : Z; re_Changed : bool; re_ChangedPaths : list string;
  re_RestartRequired : list string;
}.

(* src/src/mutation_runtime.go recoveredMutationError *)
Inductive failure :=
| NotActive | StateError (e : State.error) | MutationError (e : error)
| RestoreFailed (revision : Z) (e : State.error) | RecoveredMutation (revision : Z).

Section apply.
Context `{StateCodec}.

(** [reload] is [None] without a reloader, and otherwise whether the
    reconciliation succeeded. *)
(* src/src/mutation_runtime.go applyManagedMutation *)
Definition applyManagedMutation (stop1 stop2 : option stop_point) (now1 now2 : Time)
    (request : MutationRequest) (actor : string) (reload : option bool) (manager : option Manager)
    : option Manager * result MutationResult (MutationResult * failure) :=
  let zero := mkResult false false false 0 0 false [] [] in
  match manager with
  | None => (None, Err (zero, NotActive))
  | Some m =>
    let current := currentSnapshot m in
    if negb (mr_ExpectedRevision request =? Revision current) then
      (Some m, Err (zero, StateError (ConflictError (mr_ExpectedRevision request) (Revision current))))
    else
      match ApplyMutation (Some (Desired current)) request with
      | Err e => (Some m, Err (zero, MutationError e))
      | Ok next =>
        match Validate m (Some next) (Some next) with
        | Err e => (Some m, Err (zero, StateError e))
        | Ok preview =>
          let result dry applied published nextRevision :=
            mkResult dry applied published (p_CurrentRevision preview) nextRevision
              (p_Changed preview) (p_ChangedPaths preview) (p_RestartRequired preview) in
          if mr_DryRun request then (Some m, Ok (result true false false (p_NextRevision preview)))
          else
            match Apply stop1 now1 (Revision current) (Some next) (Some next) actor false m with
            | (m, Err e) => (Some m, Err (zero, StateError e))
            | (m, Ok applied) =>
              match reload with
              | None => (Some m, Ok (result false true false (Revision applied)))
              | Some true => (Some m, Ok (result false true true (Revision applied)))
              | Some false =>
                match Apply stop2 now2 (Revision applied) (Some (Desired current))
                        (Some (Effective current)) actor false m with
                | (m, Err e) =>
                  (Some m, Err (result false true false (Revision applied),
                                RestoreFailed (Revision applied) e))
                | (m, Ok restored) =>
                  (Some m, Err (mkResult false false false (Revision restored) (Revision restored)
                                  false [] [], RecoveredMutation (Revision applied)))
                end
              end
            end
        end
      end
  end.
End apply.

(** ** Facts *)

Lemma cloneVirtualModels_lookup m id vm :
  cloneVirtualModels m !! id = Some vm →
  ∃ vm0, m !! id = Some vm0 ∧ vm_Strategy vm = vm_Strategy vm0
    ∧ elems (vm_Targets vm) = elems (vm_Targets vm0).
Proof.
  unfold cloneVirtualModels. rewrite lookup_fmap. intros (vm0 & Hl & ->)%fmap_Some.
  exists vm0. split_and!; [done..|]. simpl. unfold cloneStrings. by destruct (vm_Targets vm0) as [[]|].
Qed.

Lemma cloneVirtualModels_none m id : cloneVirtualModels m !! id = None ↔ m !! id = None.
Proof. unfold cloneVirtualModels. rewrite lookup_fmap. by destruct (m !! id). Qed.

(** Validity only looks at the virtual models and at the keys of the model map. *)
Lemma valid_virtual_model_mono r r' known id vm vm' :
  valid_virtual_model r known id vm → vm_Strategy vm' = vm_Strategy vm →
  elems (vm_Targets vm') = elems (vm_Targets vm) →
  (∀ k, VirtualModels r !! k = None → VirtualModels r' !! k = None) →
  ModelMap r' !! id = None → valid_virtual_model r' known id vm'.
Proof.
  intros [] Hs Ht Hv Hm. split; rewrite ?Hs, ?Ht; try done.
  intros t Hin. destruct (vv_target t Hin) as (? & ? & ?). auto.
Qed.

Definition valid_routing (known : list string) (r : Routing) : Prop :=
  ∀ id vm, VirtualModels r !! id = Some vm → valid_virtual_model r known id vm.

Lemma valid_Clone known c : valid_routing known (cfg_Routing c) → valid_routing known (cfg_Routing (Clone c)).
Proof.
  intros Hv id vm Hl. simpl in Hl. apply cloneVirtualModels_lookup in Hl as (vm0 & Hl & Hs & Ht).
  pose proof (Hv id vm0 Hl) as H0. eapply valid_virtual_model_mono; [exact H0|done|done| |].
  - intros k Hk. by apply cloneVirtualModels_none.
  - apply H0.
Qed.

Lemma valid_set_routing known c f :
  valid_routing known (cfg_Routing c) →
  VirtualModels (f (cfg_Routing c)) = VirtualModels (cfg_Routing c) →
  (∀ id, is_Some (VirtualModels (cfg_Routing c) !! id) → ModelMap (cfg_Routing c) !! id = None →
     ModelMap (f (cfg_Routing c)) !! id = None) →
  valid_routing known (cfg_Routing (set_routing f c)).
Proof.
  intros Hv Hvm Hmm id vm Hl. simpl in *. rewrite Hvm in Hl. pose proof (Hv id vm Hl) as H0.
  eapply valid_virtual_model_mono; [exact H0|done|done|by rewrite Hvm|].
  apply Hmm; [by exists vm|apply H0].
Qed.

Lemma update_provider_routing p en al c c' :
  update_provider p en al c = Ok c' →
  cfg_Routing c' = cfg_Routing c ∧ raw_secrets c' = raw_secrets c ∧ cfg_Timeouts c' = cfg_Timeouts c.
Proof. unfold update_provider. intros Hc. by repeat case_match; simplify_eq. Qed.

(** ** Properties *)

(** A mutation keeps the routing valid.  When the virtual models of the current
    configuration pass the validation, so do those of every configuration a mutation
    produces; and no mutation touches a secret or a timeout. *)
Theorem mutation_keeps_routing_valid known current request next :
  ValidateVirtualModels (cfg_Routing current) known = Ok tt →
  ApplyMutation (Some current) request = Ok next →
  ValidateVirtualModels (cfg_Routing next) known = Ok tt
  ∧ raw_secrets next = raw_secrets (Clone current) ∧ cfg_Timeouts next = cfg_Timeouts current.
Proof.
  rewrite !ValidateVirtualModels_Ok. intros Hv%valid_Clone Ha. unfold ApplyMutation in Ha.
  destruct (mr_Kind request).
  - destruct (mr_Enabled request); [|done]. by apply update_provider_routing in Ha as (-> & -> & ->).
  - case_match; [done|]. injection Ha as <-. split; [|done]. by apply valid_set_routing.
  - case_match; [done|]. injection Ha as <-. split; [|done]. by apply valid_set_routing.
  - by apply update_provider_routing in Ha as (-> & -> & ->).
  - unfold setModelMapEntry in Ha. case_match; [done|]. case_match; [done|].
    destruct (VirtualModels (cfg_Routing (Clone current)) !! TrimSpace (mr_Model request)) eqn:Hl; [done|].
    injection Ha as <-. split; [|done]. apply valid_set_routing; [done|done|].
    intros id [vm Hid] Hn. unfold set_model_map. cbn [ModelMap]. rewrite lookup_insert_ne; [done|].
    intros <-. congruence.
  - case_match; [done|]. injection Ha as <-. split; [|done]. apply valid_set_routing; [done|done|].
    intros id _ Hn. unfold set_model_map. cbn [ModelMap]. apply lookup_delete_None. by right.
  - done.
Qed.

(** A failed reload is undone.  When the providers cannot be reconciled with a
    committed mutation, and the compensating write does not fail, the mutation is
    reported as recovered and the manager is left, two revisions later, with the
    digest of the configuration it had before. *)
Theorem failed_reload_is_undone `{StateCodec} now1 now2 request actor m next v :
  ApplyMutation (Some (Desired (currentSnapshot m))) request = Ok next →
  mr_ExpectedRevision request = Revision (snapshot m) → mr_DryRun request = false →
  closed m = false → (∀ c, marshalConfig c ≠ None) → (∀ md, marshalMetadata md ≠ None) →
  (∀ c, toMap c ≠ None) → is_ok (Validator (Clone next)) = true →
  Validator (Clone (Clone (Desired (snapshot m)))) = Ok v →
  is_ok (Validator (Clone (Clone (Effective (snapshot m))))) = true →
  configDigest v = Some (Digest (snapshot m)) →
  ∃ m' r, applyManagedMutation None None now1 now2 request actor (Some false) (Some m)
    = (Some m', Err (r, RecoveredMutation (wrap_u64 (Revision (snapshot m) + 1))))
  ∧ Digest (snapshot m') = Digest (snapshot m)
  ∧ Revision (snapshot m') = wrap_u64 (wrap_u64 (Revision (snapshot m) + 1) + 1)
  ∧ re_Applied r = false.
Proof.
  intros Hn Hrev Hdry Hcl Hmc Hmm Hmap Hvn Hvd Hve Hdig.
  destruct (Validator (Clone next)) as [w|] eqn:Hw; [|done].
  destruct (Validator (Clone (Clone (Effective (snapshot m))))) as [u|] eqn:Hu; [|done].
  destruct (Apply_succeeds now1 next next w w actor m Hcl Hmc Hmm Hmap Hw Hw)
    as ([preview Hpre] & m1 & H1 & _ & Hr1 & Hcl1).
  destruct (Apply_succeeds now2 (Clone (Desired (snapshot m))) (Clone (Effective (snapshot m)))
    v u actor m1 Hcl1 Hmc Hmm Hmap Hvd Hu) as (_ & m2 & H2 & Hd2 & Hr2 & _).
  unfold applyManagedMutation. rewrite Hn.
  unfold currentSnapshot. cbn [cloneSnapshot Revision Desired Effective].
  rewrite Hrev, Z.eqb_refl. cbn [negb]. unfold Validate. rewrite Hpre, Hdry, H1.
  cbn [cloneSnapshot Revision]. rewrite H2. rewrite <-Hr1.
  eexists m2, _. split; [reflexivity|]. split; [congruence|]. by rewrite Hr2, Hr1.
Qed.

(** ** A concrete mutation *)

Definition default_model_request : MutationRequest :=
  mkRequest MutationDefaultModel 3 false "" None "thiendu" "" [] "".

Lemma mutation_keeps_routing_valid_witness :
  ∃ next, ApplyMutation (Some (on_port 2)) default_model_request = Ok next
    ∧ ValidateVirtualModels (cfg_Routing next) [] = Ok tt.
Proof.
  destruct (ApplyMutation (Some (on_port 2)) default_model_request) as [next|e] eqn:Hn.
  - exists next. split; [reflexivity|].
    exact (proj1 (mutation_keeps_routing_valid [] (on_port 2) default_model_request next
      ltac:(vm_compute; reflexivity) Hn)).
  - exfalso. vm_compute in Hn. discriminate Hn.
Defined.

Lemma failed_reload_is_undone_witness :
  ∃ m' r, applyManagedMutation None None 200 300 default_model_request "ya" (Some false)
    (Some example_manager) = (Some m', Err (r, RecoveredMutation 4))
  ∧ Digest (snapshot m') = "aa".
Proof.
  destruct (ApplyMutation (Some (Desired (currentSnapshot example_manager))) default_model_request)
    as [next|e] eqn:Hn; [|exfalso; vm_compute in Hn; discriminate Hn].
  destruct (failed_reload_is_undone 200 300 default_model_request "ya" example_manager next
    (on_port 2) Hn) as (m' & r & Ha & Hd & _).
  - reflexivity.
  - reflexivity.
  - reflexivity.
  - discriminate.
  - discriminate.
  - discriminate.
  - reflexivity.
  - vm_compute. reflexivity.
  - reflexivity.
  - vm_compute. reflexivity.
  - exists m', r. split; [exact Ha|exact Hd].
Defined.
