(* ===== verification/OperationManager.v ===== *)
(** * The operation manager: worker goroutines over the durable store

    [internal/operation/manager.go].  [Run] starts a goroutine for an operation,
    [Cancel] and [Close] cancel its context, and the goroutine records how its
    worker ended.  None of these holds a lock across its whole body: each critical
    section (the store's, the manager's) is one function here, named after the
    code it comes from, and [step] lets any number of goroutines take theirs in
    any order, at any instant, with any write of the state file failing.  What a
    worker does is an argument: the reports it makes, the values it returns, or a
    panic.  A worker reports from its own goroutine.  *)

From S2P Require Import Prelude GoStd Operation.

(** ** Data *)

(** A context of [context.WithDeadline]: it is done once it was cancelled or its
    timer fired. *)
Record context := mkContext { deadline : Time; done : bool }.

(** The runner keeps the cancel function of a context, which is identified by the
    goroutine that [Run] makes it for. *)
(* src/internal/operation/manager.go runner *)
Record runner := mkRunner { cancel : nat }.

(** The manager, with the contexts it has made. *)
(* src/internal/operation/manager.go Manager *)
Record Manager := mkManager {
  store : Store;
  runners : gmap string runner;
  closing : bool;
  wg : Z;
  contexts : gmap nat context;
}.

(** How the call of a worker ends. *)
(* src/internal/operation/manager.go Worker *)
Inductive outcome := Returns (result : gmap string string) (failure : option Failure) | Panics.

Definition with_store (f : Store) (m : Manager) : Manager :=
  mkManager f (runners m) (closing m) (wg m) (contexts m).

Definition cancel_context (ctx : nat) (m : Manager) : Manager :=
  mkManager (store m) (runners m) (closing m) (wg m)
    (alter (λ c, mkContext (deadline c) true) ctx (contexts m)).

(** [ctx.Err() != nil]. *)
Definition ctx_done (ctx : nat) (m : Manager) : bool :=
  match contexts m !! ctx with Some c => done c | None => false end.

(** ** Operations *)

(* src/internal/operation/manager.go OpenManager *)
Definition OpenManager (o : Options) (file : load_result) (now_recover now_prune : Time)
    (fault : option persist_fault) : result Manager error :=
  let? store := Open o file now_recover now_prune fault in Ok (mkManager store ∅ false 0 ∅).

(** [Run] before it takes the manager's lock. *)
(* src/internal/operation/manager.go:58-67 Manager.Run *)
Definition Run_lookup (worker : bool) (id : string) (m : Manager) : result Record_ error :=
  if negb worker then Err WorkerRequired
  else
    let? record := Get id (store m) in
    if Terminal (r_State record) then Err (InvalidTransitionError id (r_State record) StateRunning)
    else Ok record.

(** Its critical section, which makes the context and registers the runner. *)
(* src/internal/operation/manager.go:69-81 Manager.Run *)
Definition Run_register (ctx : nat) (id : string) (record : Record_) (m : Manager)
    : result Manager error :=
  if closing m then Err ManagerClosing
  else
    match runners m !! id with
    | Some _ => Err (AlreadyRunning id)
    | None =>
      Ok (mkManager (store m) (<[id := mkRunner ctx]> (runners m)) (closing m) (wg m + 1)
            (<[ctx := mkContext (r_ExpiresAt record) false]> (contexts m)))
    end.

(** The transition to [StateRunning], with the progress and the result that were
    read before the registration. *)
(* src/internal/operation/manager.go:82-82 Manager.Run *)
Definition Run_start (now : Time) (fault : option persist_fault) (id : string) (record : Record_)
    (m : Manager) : Manager * result Record_ error :=
  let '(s, out) := Transition now fault id StateRunning (r_Progress record) (r_Result record) None
                     "started" (store m) in
  (with_store s m, out).

(** The second critical section of a refused start, then the cancellation. *)
(* src/internal/operation/manager.go:83-86 Manager.Run *)
Definition Run_undo (ctx : nat) (id : string) (m : Manager) : Manager :=
  cancel_context ctx
    (mkManager (store m) (delete id (runners m)) (closing m) (wg m) (contexts m)).

(** [wg.Done], the last thing a refused start and an ending goroutine do. *)
(* src/internal/operation/manager.go:87-87 Manager.Run *)
(* src/internal/operation/manager.go:95-95 Manager.execute *)
Definition wg_done (m : Manager) : Manager :=
  mkManager (store m) (runners m) (closing m) (wg m - 1) (contexts m).

(** What [execute] makes of the worker's end: a panic is recovered. *)
(* src/internal/operation/manager.go:103-114 Manager.execute *)
Definition worker_result (o : outcome) : gmap string string * option Failure :=
  match o with
  | Returns result failure => (result, failure)
  | Panics => (∅, Some (NewFailure "operation_panic" "The operation failed unexpectedly." true))
  end.

(** A transition that is about to be asked for. *)
Record settlement := mkSettlement {
  se_next : State; se_progress : Z; se_result : gmap string string;
  se_failure : option Failure; se_event : string;
}.

(** The choice of the final transition from the record as it was read. *)
(* src/internal/operation/manager.go:128-144 Manager.execute *)
Definition settle (ctx_err : bool) (now : Time) (current : Record_) (result : gmap string string)
    (failure : option Failure) : settlement :=
  if ctx_err then
    if negb (After (r_ExpiresAt current) now)
    then mkSettlement StateExpired (r_Progress current) ∅
           (Some (NewFailure "operation_expired" "The operation expired." true)) "expired"
    else mkSettlement StateFailed (r_Progress current) ∅
           (Some (NewFailure "operation_interrupted" "The operation was interrupted." true)) "failed"
  else
    match failure with
    | Some f => mkSettlement StateFailed (r_Progress current) ∅
                  (Some (NewFailure (f_Code f) (f_Message f) (f_Retryable f))) "failed"
    | None => mkSettlement StateSucceeded 100 result None "succeeded"
    end.

Definition apply_settlement (now : Time) (fault : option persist_fault) (id : string)
    (t : settlement) (m : Manager) : Manager * result Record_ error :=
  let '(s, out) := Transition now fault id (se_next t) (se_progress t) (se_result t) (se_failure t)
                     (se_event t) (store m) in
  (with_store s m, out).

(** The deferred function of [execute].  The cancel function is nil when the
    runner is missing, and calling it would panic. *)
(* src/internal/operation/manager.go:96-102 Manager.execute *)
Definition execute_leave (id : string) (m : Manager) : option Manager :=
  match runners m !! id with
  | None => None
  | Some running =>
    Some (cancel_context (cancel running)
            (mkManager (store m) (delete id (runners m)) (closing m) (wg m) (contexts m)))
  end.

(** [Cancel] in two halves: the store's operation, then the runner's context. *)
(* src/internal/operation/manager.go:147-151 Manager.Cancel *)
Definition Cancel_record (now : Time) (fault : option persist_fault) (id : string) (m : Manager)
    : Manager * result Record_ error :=
  let '(s, out) := Operation.Cancel now fault id (store m) in (with_store s m, out).

(* src/internal/operation/manager.go:152-157 Manager.Cancel *)
Definition Cancel_runner (id : string) (m : Manager) : Manager :=
  match runners m !! id with Some running => cancel_context (cancel running) m | None => m end.

(** The critical section of [Close]; [None] when the manager is closing already. *)
(* src/internal/operation/manager.go:162-171 Manager.Close *)
Definition Close_begin (m : Manager) : option Manager :=
  if closing m then None
  else
    Some (mkManager (store m) (runners m) true (wg m)
            (map_imap (λ ctx c,
               Some (if decide (ctx ∈ (λ kv, cancel kv.2) <$> map_to_list (runners m))
                     then mkContext (deadline c) true else c)) (contexts m))).

(** After the wait, or when the caller's context ends first. *)
(* src/internal/operation/manager.go:178-185 Manager.Close *)
Definition Close_store (m : Manager) : Manager := with_store (Operation.Close (store m)) m.

(* src/internal/operation/manager.go managerReporter.Progress *)
Definition reporter_Progress (now : Time) (fault : option persist_fault) (id : string)
    (progress : Z) (metadata : option (gmap string string)) (m : Manager)
    : Manager * result Record_ error :=
  let '(s, out) := UpdateProgress now fault id progress metadata (store m) in (with_store s m, out).

(** The transition of [WaitingForUser], with the record that was read before. *)
(* src/internal/operation/manager.go managerReporter.WaitingForUser *)
Definition reporter_WaitingForUser (now : Time) (fault : option persist_fault) (id : string)
    (record : Record_) (metadata : gmap string string) (m : Manager)
    : Manager * result Record_ error :=
  let '(s, out) := Transition now fault id StateWaitingForUser (r_Progress record) metadata None
                     "waiting_for_user" (store m) in
  (with_store s m, out).

(** ** Goroutines *)

(** Where a call of [Run], and then the goroutine it starts, stands. *)
Inductive phase :=
| Looked (record : Record_)
| Registered (record : Record_)
| Refused (e : error) | Undone (e : error) | RunReturned (e : error)
| Working | Reporting (record : Record_) (metadata : gmap string string)
| Returned (result : gmap string string) (failure : option Failure)
| Judging (result : gmap string string) (failure : option Failure)
| Fetched (current : Record_) (result : gmap string string) (failure : option Failure)
| Judged (t : settlement)
| Leaving | Departing | Finished | Crashed.

Record thread := mkThread { t_id : string; t_phase : phase }.

(** The first call of [Close]; the later ones return at once. *)
Inductive close_phase := CloseIdle | CloseWaiting | CloseReturned (waited : bool).

Record World := mkWorld {
  mgr : Manager;
  threads : gmap nat thread;
  cancelling : list string;
  closer : close_phase;
}.

Inductive event :=
| ERun (ctx : nat) (worker : bool) (id : string)
| ERegister (ctx : nat)
| EStart (ctx : nat) (now : Time) (fault : option persist_fault)
| EUndo (ctx : nat)
| EProgress (ctx : nat) (now : Time) (fault : option persist_fault) (progress : Z)
    (metadata : option (gmap string string))
| EWaiting (ctx : nat) (metadata : gmap string string)
| EWaitingForUser (ctx : nat) (now : Time) (fault : option persist_fault)
| EReturn (ctx : nat) (o : outcome)
| ECheck (ctx : nat)
| EGet (ctx : nat)
| EJudge (ctx : nat) (now : Time)
| ESettle (ctx : nat) (now : Time) (fault : option persist_fault)
| ELeave (ctx : nat)
| EDone (ctx : nat)
| ETimer (ctx : nat) (now : Time)
| ECancel (now : Time) (fault : option persist_fault) (id : string)
| ECancelRunner (id : string)
| EStore (o : op)
| EClose | EWaited | EGaveUp.

(** The store's operations that a client of the manager can call. *)
Definition client_op (o : op) : bool :=
  match o with OpCreate _ _ _ _ | OpSubscribe _ | OpUnsubscribe _ => true | _ => false end.

Section step.
Context (sha256_hex : string → string).

Definition set_mgr (m : Manager) (w : World) : World :=
  mkWorld m (threads w) (cancelling w) (closer w).

(** Goroutine [ctx] goes on from [m] in phase [p]. *)
Definition move (ctx : nat) (t : thread) (p : phase) (m : Manager) (w : World) : World :=
  mkWorld m (<[ctx := mkThread (t_id t) p]> (threads w)) (cancelling w) (closer w).

(** One critical section of goroutine [ctx]. *)
Definition advance (e : event) (ctx : nat) (t : thread) (w : World) : option World :=
  let m := mgr w in
  let id := t_id t in
  match e, t_phase t with
  | ERegister _, Looked record =>
    Some (match Run_register ctx id record m with
          | Ok m => move ctx t (Registered record) m w
          | Err e => move ctx t (RunReturned e) m w
          end)
  | EStart _ now fault, Registered record =>
    let '(m, out) := Run_start now fault id record m in
    Some (move ctx t (match out with Ok _ => Working | Err e => Refused e end) m w)
  | EUndo _, Refused e => Some (move ctx t (Undone e) (Run_undo ctx id m) w)
  | EDone _, Undone e => Some (move ctx t (RunReturned e) (wg_done m) w)
  | EProgress _ now fault progress metadata, Working =>
    Some (set_mgr (fst (reporter_Progress now fault id progress metadata m)) w)
  | EWaiting _ metadata, Working =>
    match Get id (store m) with
    | Err _ => Some w
    | Ok record => Some (move ctx t (Reporting record metadata) m w)
    end
  | EWaitingForUser _ now fault, Reporting record metadata =>
    Some (move ctx t Working (fst (reporter_WaitingForUser now fault id record metadata m)) w)
  | EReturn _ o, Working =>
    let '(result, failure) := worker_result o in Some (move ctx t (Returned result failure) m w)
  | ECheck _, Returned result failure =>
    Some (move ctx t (if closing m then Leaving else Judging result failure) m w)
  | EGet _, Judging result failure =>
    Some (move ctx t
      match Get id (store m) with
      | Err _ => Leaving
      | Ok current =>
        if Terminal (r_State current) then Leaving else Fetched current result failure
      end m w)
  | EJudge _ now, Fetched current result failure =>
    Some (move ctx t (Judged (settle (ctx_done ctx m) now current result failure)) m w)
  | ESettle _ now fault, Judged s =>
    Some (move ctx t Leaving (fst (apply_settlement now fault id s m)) w)
  | ELeave _, Leaving =>
    Some (match execute_leave id m with
          | Some m => move ctx t Departing m w
          | None => move ctx t Crashed m w
          end)
  | EDone _, Departing => Some (move ctx t Finished (wg_done m) w)
  | _, _ => None
  end.

Definition event_ctx (e : event) : nat :=
  match e with
  | ERun ctx _ _ | ERegister ctx | EStart ctx _ _ | EUndo ctx | EProgress ctx _ _ _ _
  | EWaiting ctx _ | EWaitingForUser ctx _ _ | EReturn ctx _ | ECheck ctx | EGet ctx
  | EJudge ctx _ | ESettle ctx _ _ | ELeave ctx | EDone ctx | ETimer ctx _ => ctx
  | _ => 0
  end.

Definition step (w : World) (e : event) : option World :=
  let m := mgr w in
  match e with
  | ERun ctx worker id =>
    match threads w !! ctx with
    | Some _ => None
    | None =>
      Some (match Run_lookup worker id m with
            | Ok record => move ctx (mkThread id (Looked record)) (Looked record) m w
            | Err e => move ctx (mkThread id (RunReturned e)) (RunReturned e) m w
            end)
    end
  | ETimer ctx now =>
    match contexts m !! ctx with
    | Some c => if After (deadline c) now then None else Some (set_mgr (cancel_context ctx m) w)
    | None => None
    end
  | ECancel now fault id =>
    let '(m, out) := Cancel_record now fault id m in
    Some (mkWorld m (threads w) (if is_ok out then id :: cancelling w else cancelling w) (closer w))
  | ECancelRunner id =>
    if decide (id ∈ cancelling w)
    then Some (mkWorld (Cancel_runner id m) (threads w) (list_difference (cancelling w) [id]) (closer w))
    else None
  | EStore o =>
    if client_op o then Some (set_mgr (with_store (Operation.step sha256_hex (store m) o) m) w) else None
  | EClose =>
    match Close_begin m with
    | None => Some w
    | Some m => Some (mkWorld m (threads w) (cancelling w) CloseWaiting)
    end
  | EWaited =>
    match closer w with
    | CloseWaiting =>
      if (wg m =? 0)%Z
      then Some (mkWorld (Close_store m) (threads w) (cancelling w) (CloseReturned true)) else None
    | _ => None
    end
  | EGaveUp =>
    match closer w with
    | CloseWaiting => Some (mkWorld (Close_store m) (threads w) (cancelling w) (CloseReturned false))
    | _ => None
    end
  | _ =>
    match threads w !! event_ctx e with
    | Some t => advance e (event_ctx e) t w
    | None => None
    end
  end.

Fixpoint steps (es : list event) (w : World) : option World :=
  match es with [] => Some w | e :: es => match step w e with Some w => steps es w | None => None end end.

(** New identifiers are 128 random bits: they are not in use, and no goroutine
    has looked an operation of that name up. *)
Definition fresh_event (w : World) (e : event) : Prop :=
  match e with
  | EStore (OpCreate _ _ newID _) =>
    operations (store (mgr w)) !! newID = None
    ∧ ∀ ctx t, threads w !! ctx = Some t → t_id t ≠ newID
  | _ => True
  end.

Fixpoint all_fresh (es : list event) (w : World) : Prop :=
  match es with
  | [] => True
  | e :: es => fresh_event w e ∧ match step w e with Some w => all_fresh es w | None => True end
  end.

End step.

(** ** What a step does to the store *)

Lemma Transition_closed now fault id next progress result failure type s :
  closed (fst (Transition now fault id next progress result failure type s)) = closed s.
Proof.
  unfold Transition, commit_record, persistLocked, persistSnapshot.
  destruct (closed s) eqn:?; [done|]. repeat (case_match; simplify_eq/=); try congruence; done.
Qed.

Lemma UpdateProgress_closed now fault id progress metadata s :
  closed (fst (UpdateProgress now fault id progress metadata s)) = closed s.
Proof.
  unfold UpdateProgress, commit_record, persistLocked, persistSnapshot.
  destruct (closed s) eqn:?; [done|]. repeat (case_match; simplify_eq/=); try congruence; done.
Qed.

Lemma Cancel_closed now fault id s : closed (fst (Operation.Cancel now fault id s)) = closed s.
Proof.
  unfold Operation.Cancel. destruct (Get id s); [|done]. case_match; [done|]. apply Transition_closed.
Qed.

Lemma client_op_closed h o s : client_op o = true → closed (Operation.step h s o) = closed s.
Proof.
  unfold Operation.step. destruct o as [t fault newID request| | | |buffer|id|]; try done; intros _; simpl.
  - unfold Create. destruct (validateCreate _ _); [|done]. destruct (closed s) eqn:?; [done|].
    destruct (pruneLocked _ s) as [s1 changed] eqn:Hp. pose proof (pr_closed _ _ _ (pruneLocked_spec _ _ _ _ Hp)).
    unfold nextEventLocked, persistLocked, persistSnapshot.
    repeat (case_match; simplify_eq/=); congruence.
  - unfold Subscribe. by destruct (closed s) eqn:?.
Qed.

Lemma Close_closed s : closed (Operation.Close s) = true.
Proof. unfold Operation.Close. by destruct (closed s) eqn:?. Qed.

Lemma Transition_store_effect now fault id next progress result failure type s :
  effect fault s (fst (Transition now fault id next progress result failure type s)).
Proof.
  pose proof (Transition_effect now fault id next progress result failure type s) as H.
  destruct (Transition _ _ _ _ _ _ _ _ s). apply H.
Qed.

Lemma UpdateProgress_store_effect now fault id progress metadata s :
  effect fault s (fst (UpdateProgress now fault id progress metadata s)).
Proof.
  pose proof (UpdateProgress_effect now fault id progress metadata s) as H.
  destruct (UpdateProgress _ _ _ _ _ s). apply H.
Qed.

Lemma Cancel_store_effect now fault id s : effect fault s (fst (Operation.Cancel now fault id s)).
Proof.
  unfold Operation.Cancel. destruct (Get id s); [|apply same_state_effect].
  case_match; [apply same_state_effect|apply Transition_store_effect].
Qed.

(** The record of an operation ends in one of the states of the code. *)
Definition known (s : State) : Prop := match s with StateOther _ => False | _ => True end.
Definition all_known (s : Store) : Prop :=
  ∀ id e, operations s !! id = Some e → known (r_State (en_record e)).

Lemma allowed_known from to : allowedTransition from to = true → known to.
Proof. unfold allowedTransition. destruct from, to; done. Qed.

Lemma known_effect fault s s' : effect fault s s' → all_known s → all_known s'.
Proof.
  intros He Hk id e Hid.
  destruct He as [(_ & Hm & _) _|Hc|s1 changed Hp (_ & Hm & _) _|s1 changed id' event e1 Hp _ Hs _ _ _ Hcm
    |id' event item e1 Hit _ Htr _ _ _ Hcm].
  - rewrite Hm in Hid. eauto.
  - rewrite Hc in Hid. unfold Close in Hid. destruct (closed s); eauto.
  - rewrite Hm in Hid. pose proof (pr_subset _ _ _ Hp) as Hsub. rewrite map_subseteq_spec in Hsub. eauto.
  - rewrite (cm_operations _ _ _ _ _ (proj1 Hcm)), lookup_insert in Hid. case_decide; simplify_eq.
    + by rewrite Hs.
    + pose proof (pr_subset _ _ _ Hp) as Hsub. rewrite map_subseteq_spec in Hsub. eauto.
  - rewrite (cm_operations _ _ _ _ _ (proj1 Hcm)), lookup_insert in Hid. case_decide; simplify_eq; [|eauto].
    destruct Htr as [-> |?]; [eauto|by eapply allowed_known].
Qed.

(** An operation that has ended, or was pruned since. *)
Definition settled (s : Store) (id : string) : Prop :=
  match operations s !! id with Some e => terminal_entry e = true | None => True end.

Lemma settled_effect fault s s' id :
  effect fault s s' → (operations s !! id = None → operations s' !! id = None) →
  settled s id → settled s' id.
Proof.
  unfold settled. intros He Hn Hs. destruct (operations s !! id) as [e|] eqn:Hid; [|by rewrite Hn].
  pose proof (record_effect _ _ _ _ _ He Hid) as Hr. rewrite Hs in Hr. by destruct Hr as [-> | ->].
Qed.

Lemma allowed_final from next :
  known from → Terminal from = false → next = StateExpired ∨ next = StateFailed ∨ next = StateSucceeded →
  allowedTransition from next = true.
Proof. unfold allowedTransition. destruct from; naive_solver. Qed.

(** The final transition of a goroutine ends the operation, unless somebody else
    has ended it or the write fails. *)
Lemma Transition_settles now id next progress result failure type s :
  all_known s → closed s = false →
  next = StateExpired ∨ next = StateFailed ∨ next = StateSucceeded →
  settled (fst (Transition now None id next progress result failure type s)) id.
Proof.
  intros Hk Hc Hn. unfold Transition, settled. rewrite Hc.
  destruct (operations s !! id) as [item|] eqn:Hid; [|simpl; by rewrite Hid].
  destruct (Terminal (r_State (en_record item))) eqn:Ht.
  - unfold allowedTransition. rewrite Ht. simpl. by rewrite Hid.
  - rewrite (allowed_final _ next (Hk _ _ Hid) Ht Hn). simpl negb. cbv iota.
    match goal with |- context [commit_record ?f ?i ?t ?n ?it ?r s] =>
      pose proof (commit_record_spec f i t n it r s) as Hcm; destruct (commit_record f i t n it r s)
        as [s' [r'|e]] eqn:Hcr end.
    + destruct Hcm as (event & [Ha _] & -> & _). simpl fst. rewrite (cm_operations _ _ _ _ _ Ha), lookup_insert_eq.
      unfold terminal_entry. simpl. naive_solver.
    + unfold commit_record, persistLocked in Hcr. simpl in Hcr. discriminate.
Qed.

Lemma settle_final b now current result failure :
  let t := settle b now current result failure in
  se_next t = StateExpired ∨ se_next t = StateFailed ∨ se_next t = StateSucceeded.
Proof. unfold settle. repeat case_match; simpl; auto. Qed.

(** ** The invariant of every interleaving *)

(** Between the registration of the runner and its removal. *)
Definition active (p : phase) : bool :=
  match p with
  | Looked _ | Undone _ | RunReturned _ | Departing | Finished | Crashed => false
  | _ => true
  end.

(** Between [wg.Add] and [wg.Done]. *)
Definition counted (p : phase) : bool :=
  active p || match p with Undone _ | Departing => true | _ => false end.

Definition waiting_on (w : gmap nat thread) : nat :=
  size (filter (λ kv : nat * thread, counted (t_phase kv.2) = true) w).

Lemma waiting_on_insert ctx t ts :
  waiting_on (<[ctx := t]> ts)
  = (if counted (t_phase t) then 1 else 0) + waiting_on (delete ctx ts).
Proof.
  unfold waiting_on. rewrite map_filter_insert. simpl. destruct (counted (t_phase t)); case_decide; try done.
  - rewrite <-insert_delete_eq, map_size_insert_None by apply lookup_delete_eq. by rewrite map_filter_delete.
Qed.

Lemma waiting_on_lookup ctx t ts :
  ts !! ctx = Some t →
  waiting_on ts = (if counted (t_phase t) then 1 else 0) + waiting_on (delete ctx ts).
Proof. intros Ht. by rewrite <-waiting_on_insert, insert_id. Qed.

Lemma waiting_on_zero ctx t ts :
  waiting_on ts = 0 → ts !! ctx = Some t → counted (t_phase t) = false.
Proof.
  intros Hz Ht. rewrite (waiting_on_lookup _ _ _ Ht) in Hz. by destruct (counted _).
Qed.

Record inv (w : World) : Prop := {
  v_runner : ∀ ctx t, threads w !! ctx = Some t → active (t_phase t) = true →
    runners (mgr w) !! t_id t = Some (mkRunner ctx);
  v_thread : ∀ id r, runners (mgr w) !! id = Some r →
    ∃ t, threads w !! cancel r = Some t ∧ t_id t = id ∧ active (t_phase t) = true;
  v_count : wg (mgr w) = Z.of_nat (waiting_on (threads w));
  v_crash : ∀ ctx t, threads w !! ctx = Some t → t_phase t ≠ Crashed;
  v_closing : closer w ≠ CloseIdle → closing (mgr w) = true;
  v_closed : closed (store (mgr w)) = true → closing (mgr w) = true;
  v_waited : closer w = CloseReturned true → waiting_on (threads w) = 0;
  v_final : ∀ waited, closer w = CloseReturned waited → closed (store (mgr w)) = true;
  v_known : all_known (store (mgr w));
  v_judged : ∀ ctx t s, threads w !! ctx = Some t → t_phase t = Judged s →
    se_next s = StateExpired ∨ se_next s = StateFailed ∨ se_next s = StateSucceeded;
}.

(** A step that changes the store and the contexts only. *)
Lemma inv_store w m cs fault :
  inv w → effect fault (store (mgr w)) (store m) → closed (store m) = closed (store (mgr w)) →
  runners m = runners (mgr w) → closing m = closing (mgr w) → wg m = wg (mgr w) →
  inv (mkWorld m (threads w) cs (closer w)).
Proof.
  intros [] He Hc Hr Hcl Hw. split; simpl; rewrite ?Hr, ?Hcl, ?Hw, ?Hc; try done.
  by eapply known_effect.
Qed.

(** A step of a goroutine that registers and removes nothing. *)
Lemma inv_move w ctx t p m fault :
  inv w → threads w !! ctx = Some t → active p = active (t_phase t) → counted p = counted (t_phase t) →
  p ≠ Crashed →
  (∀ s, p = Judged s → se_next s = StateExpired ∨ se_next s = StateFailed ∨ se_next s = StateSucceeded) →
  effect fault (store (mgr w)) (store m) → closed (store m) = closed (store (mgr w)) →
  runners m = runners (mgr w) → closing m = closing (mgr w) → wg m = wg (mgr w) →
  inv (move ctx t p m w).
Proof.
  intros Hi Ht Ha Hco Hcr Hj He Hc Hr Hcl Hw.
  assert (Hn : waiting_on (<[ctx := mkThread (t_id t) p]> (threads w)) = waiting_on (threads w)).
  { rewrite waiting_on_insert, (waiting_on_lookup _ _ _ Ht). simpl. by rewrite Hco. }
  destruct Hi as [R T C X G D W F K J].
  split; simpl; rewrite ?Hr, ?Hcl, ?Hw, ?Hc, ?Hn; try done.
  - intros k x. rewrite lookup_insert. case_decide as Hk; subst; [|by apply R].
    intros [= <-]; simpl. rewrite Ha. by apply R.
  - intros id r Hid. destruct (T _ _ Hid) as (x & Hx & Hxid & Hxa). rewrite lookup_insert.
    case_decide as Hk; [|eauto]. assert (x = t) as -> by congruence.
    eexists. split; [done|]. simpl. by rewrite Ha.
  - intros k x. rewrite lookup_insert. case_decide as Hk; [|by apply X]. by intros [= <-].
  - by eapply known_effect.
  - intros k x s. rewrite lookup_insert. case_decide as Hk; [|by apply J].
    intros [= <-]; simpl. apply Hj.
Qed.

Lemma active_counted p : active p = true → counted p = true.
Proof. unfold counted. by intros ->. Qed.

Lemma inv_register w ctx t record m :
  inv w → threads w !! ctx = Some t → t_phase t = Looked record →
  Run_register ctx (t_id t) record (mgr w) = Ok m → inv (move ctx t (Registered record) m w).
Proof.
  intros Hi Ht Hp. unfold Run_register. destruct (closing _) eqn:Hc; [done|].
  destruct (runners _ !! _) eqn:Hr; [done|]. intros [= <-].
  pose proof (waiting_on_lookup _ _ _ Ht) as Hn. rewrite Hp in Hn. simpl in Hn.
  destruct Hi as [R T C X G D W F K J]. split; simpl; try done.
  - intros k x. rewrite !lookup_insert. destruct (decide (ctx = k)) as [<-|Hk]; simpl.
    + intros [= <-]; simpl. by rewrite decide_True.
    + intros Hx Ha. pose proof (R _ _ Hx Ha) as Hrx. rewrite decide_False; [done|]. congruence.
  - intros id r. rewrite lookup_insert. case_decide as Hid.
    + intros [= <-]; simpl. rewrite lookup_insert_eq. by eexists.
    + intros Hid'. destruct (T _ _ Hid') as (x & Hx & Hxid & Hxa). exists x.
      rewrite lookup_insert_ne; [done|]. intros Heq. assert (x = t) as -> by congruence.
      by rewrite Hp in Hxa.
  - rewrite waiting_on_insert. simpl. rewrite C. lia.
  - intros k x. rewrite lookup_insert. case_decide; [|apply X]. by intros [= <-].
  - intros Hcl. by rewrite G in Hc.
  - intros Hcl. by rewrite D in Hc.
  - intros Hcl. rewrite G in Hc by congruence. done.
  - intros k x s. rewrite lookup_insert. case_decide; [|apply J]. by intros [= <-].
Qed.

(** A goroutine removes its runner. *)
Lemma inv_unregister w ctx t p m :
  inv w → threads w !! ctx = Some t → active (t_phase t) = true → active p = false →
  counted p = true → p ≠ Crashed → (∀ s, p ≠ Judged s) → store m = store (mgr w) →
  runners m = delete (t_id t) (runners (mgr w)) → closing m = closing (mgr w) → wg m = wg (mgr w) →
  inv (move ctx t p m w).
Proof.
  intros Hi Ht Ha Hpa Hpc Hcr Hj Hs Hr Hcl Hw.
  assert (Hn : waiting_on (<[ctx := mkThread (t_id t) p]> (threads w)) = waiting_on (threads w)).
  { rewrite waiting_on_insert, (waiting_on_lookup _ _ _ Ht). simpl. by rewrite Hpc, (active_counted _ Ha). }
  destruct Hi as [R T C X G D W F K J].
  split; simpl; rewrite ?Hr, ?Hcl, ?Hw, ?Hn, ?Hs; try done.
  - intros k x. rewrite lookup_insert. case_decide as Hk; [intros [= <-]; simpl; by rewrite Hpa|].
    intros Hx Hxa. rewrite lookup_delete. rewrite decide_False; [by apply R|].
    intros Heq. pose proof (R _ _ Hx Hxa) as H1. rewrite <-Heq, (R _ _ Ht Ha) in H1. congruence.
  - intros id r. rewrite lookup_delete. case_decide as Hid; [done|]. intros Hid'.
    destruct (T _ _ Hid') as (x & Hx & Hxid & Hxa). exists x. rewrite lookup_insert_ne; [done|].
    intros Heq. assert (x = t) by congruence. congruence.
  - intros k x. rewrite lookup_insert. case_decide; [|apply X]. by intros [= <-].
  - intros k x s. rewrite lookup_insert. case_decide; [|apply J]. intros [= <-]; simpl. intros ->. by destruct (Hj s).
Qed.

(** A goroutine, or a refused start, calls [wg.Done]. *)
Lemma inv_wg_done w ctx t p :
  inv w → threads w !! ctx = Some t → active (t_phase t) = false → counted (t_phase t) = true →
  counted p = false → p ≠ Crashed → inv (move ctx t p (wg_done (mgr w)) w).
Proof.
  intros Hi Ht Ha Hc Hp Hcr.
  assert (Hpa : active p = false) by (unfold counted in Hp; by destruct (active p)).
  pose proof (waiting_on_lookup _ _ _ Ht) as Hn. rewrite Hc in Hn.
  destruct Hi as [R T C X G D W F K J]. split; simpl; try done.
  - intros k x. rewrite lookup_insert. case_decide as Hk; [intros [= <-]; simpl; by rewrite Hpa|by apply R].
  - intros id r Hid. destruct (T _ _ Hid) as (x & Hx & Hxid & Hxa). exists x. rewrite lookup_insert_ne; [done|].
    intros Heq. congruence.
  - rewrite waiting_on_insert. simpl. rewrite Hp, C. lia.
  - intros k x. rewrite lookup_insert. case_decide; [|apply X]. by intros [= <-].
  - intros Hcl. specialize (W Hcl). lia.
  - intros k x s. rewrite lookup_insert. case_decide; [|apply J]. intros [= <-]; simpl. by intros ->.
Qed.

Section invariant.
Context (sha256_hex : string → string).

Lemma inv_advance e ctx t w w' :
  inv w → threads w !! ctx = Some t → advance e ctx t w = Some w' → inv w'.
Proof.
  intros Hi Ht Hs.
  pose proof (same_state_effect None (store (mgr w))) as Hsame.
  unfold advance in Hs. destruct e; try discriminate; destruct (t_phase t) eqn:Hp; try discriminate.
  - destruct (Run_register _ _ _ _) as [m|] eqn:Hr; injection Hs as <-; [by eapply inv_register|].
    by eapply inv_move; rewrite ?Hp.
  - unfold Run_start in Hs.
    pose proof (Transition_store_effect now fault (t_id t) StateRunning (r_Progress record)
      (r_Result record) None "started" (store (mgr w))) as He.
    pose proof (Transition_closed now fault (t_id t) StateRunning (r_Progress record)
      (r_Result record) None "started" (store (mgr w))) as Hc.
    destruct (Transition _ _ _ _ _ _ _ _ _) as [s out]. injection Hs as <-.
    eapply inv_move; rewrite ?Hp; try done; by destruct out.
  - injection Hs as <-. eapply inv_unregister; rewrite ?Hp; done.
  - injection Hs as <-. unfold reporter_Progress.
    pose proof (UpdateProgress_store_effect now fault (t_id t) progress metadata (store (mgr w))) as He.
    pose proof (UpdateProgress_closed now fault (t_id t) progress metadata (store (mgr w))) as Hc.
    destruct (UpdateProgress _ _ _ _ _ _) as [s out]. by eapply inv_store.
  - destruct (Get _ _); injection Hs as <-; [by eapply inv_move; rewrite ?Hp|done].
  - injection Hs as <-. unfold reporter_WaitingForUser.
    pose proof (Transition_store_effect now fault (t_id t) StateWaitingForUser (r_Progress record)
      metadata None "waiting_for_user" (store (mgr w))) as He.
    pose proof (Transition_closed now fault (t_id t) StateWaitingForUser (r_Progress record)
      metadata None "waiting_for_user" (store (mgr w))) as Hc.
    destruct (Transition _ _ _ _ _ _ _ _ _) as [s out]. by eapply inv_move; rewrite ?Hp.
  - destruct (worker_result o). injection Hs as <-. by eapply inv_move; rewrite ?Hp.
  - injection Hs as <-. eapply inv_move; rewrite ?Hp; try done; by destruct (closing _).
  - injection Hs as <-. eapply inv_move; rewrite ?Hp; try done; destruct (Get _ _); try done; by case_match.
  - injection Hs as <-. eapply inv_move; rewrite ?Hp; try done. intros s [= <-]. apply settle_final.
  - injection Hs as <-. unfold apply_settlement.
    match goal with |- context [Transition ?a ?b ?c ?d ?e ?f ?g ?h ?i] =>
      pose proof (Transition_store_effect a b c d e f g h i) as He;
      pose proof (Transition_closed a b c d e f g h i) as Hc end.
    destruct (Transition _ _ _ _ _ _ _ _ _) as [s out]. by eapply inv_move; rewrite ?Hp.
  - injection Hs as <-. unfold execute_leave.
    rewrite (v_runner _ Hi _ _ Ht) by (by rewrite Hp). eapply inv_unregister; rewrite ?Hp; done.
  - injection Hs as <-. eapply inv_wg_done; rewrite ?Hp; done.
  - injection Hs as <-. eapply inv_wg_done; rewrite ?Hp; done.
Qed.

Lemma inv_new w ctx t m :
  inv w → m = mgr w → threads w !! ctx = None → active (t_phase t) = false → counted (t_phase t) = false →
  t_phase t ≠ Crashed → inv (mkWorld m (<[ctx := t]> (threads w)) (cancelling w) (closer w)).
Proof.
  intros [R T C X G D W F K J] -> Hn Ha Hc Hx.
  assert (Hw : waiting_on (<[ctx := t]> (threads w)) = waiting_on (threads w)).
  { rewrite waiting_on_insert, Hc, delete_id; done. }
  split; simpl; rewrite ?Hw; try done.
  - intros k x. rewrite lookup_insert. case_decide; [|apply R]. intros [= <-]. by rewrite Ha.
  - intros id r Hid. destruct (T _ _ Hid) as (x & Hx' & ?). exists x. rewrite lookup_insert_ne; [done|].
    intros Heq. congruence.
  - intros k x. rewrite lookup_insert. case_decide; [|apply X]. by intros [= <-].
  - intros k x s. rewrite lookup_insert. case_decide; [|apply J]. intros [= <-] Hj. by rewrite Hj in Ha.
Qed.

Lemma inv_closing w m p :
  inv w → runners m = runners (mgr w) → wg m = wg (mgr w) → closing m = true →
  effect None (store (mgr w)) (store m) →
  match p with
  | CloseIdle => False
  | CloseWaiting => closed (store m) = closed (store (mgr w)) 
  | CloseReturned waited => closed (store m) = true ∧ (waited = true → waiting_on (threads w) = 0)
  end → inv (mkWorld m (threads w) (cancelling w) p).
Proof.
  intros [R T C X G D W F K J] Hr Hw Hcl He Hp.
  split; simpl; rewrite ?Hr, ?Hw, ?Hcl; try done.
  - destruct p as [| |[]]; try done. intros _. by apply Hp.
  - destruct p as [| |b]; try done. intros ? _. apply Hp.
  - by eapply known_effect.
Qed.

Lemma inv_event e w w' : fresh_event w e → inv w → step sha256_hex w e = Some w' → inv w'.
Proof.
  intros Hf Hi Hs.
  destruct e; cbn [step event_ctx] in Hs;
    try (destruct (threads w !! ctx) as [t|] eqn:Ht; [|done]; by refine (inv_advance _ _ _ _ _ Hi Ht Hs)).
  - destruct (threads w !! ctx) eqn:Ht; [done|].
    destruct (Run_lookup _ _ _); injection Hs as <-; by eapply inv_new.
  - destruct (contexts _ !! _); [|done]. destruct (After _ _); [done|]. injection Hs as <-.
    eapply inv_store; try done. apply (same_state_effect None).
  - unfold Cancel_record in Hs. pose proof (Cancel_store_effect now fault id (store (mgr w))).
    pose proof (Cancel_closed now fault id (store (mgr w))).
    destruct (Operation.Cancel _ _ _ _). injection Hs as <-. by eapply inv_store.
  - case_decide; [|done]. injection Hs as <-. unfold Cancel_runner.
    destruct (runners _ !! _); eapply inv_store; try done; apply (same_state_effect None).
  - destruct (client_op o) eqn:Hc; [|done]. injection Hs as <-.
    assert (He : effect (op_fault o) (store (mgr w)) (Operation.step sha256_hex (store (mgr w)) o)).
    { apply run_effect. destruct o; try done. apply Hf. }
    eapply inv_store; try done. by apply client_op_closed.
  - unfold Close_begin in Hs. destruct (closing _); injection Hs as <-; [done|].
    eapply inv_closing; try done. apply same_state_effect.
  - destruct (closer w) eqn:Hc; [done| |done]. destruct (Z.eqb_spec (wg (mgr w)) 0) as [Hz|]; [|done].
    injection Hs as <-. eapply inv_closing; simpl; try done.
    + apply (v_closing _ Hi). by rewrite Hc.
    + by apply EffClosed.
    + split; [apply Close_closed|]. intros _. rewrite (v_count _ Hi) in Hz. lia.
  - destruct (closer w) eqn:Hc; [done| |done].
    injection Hs as <-. eapply inv_closing; simpl; try done.
    + apply (v_closing _ Hi). by rewrite Hc.
    + by apply EffClosed.
    + split; [apply Close_closed|]. done.
Qed.

Lemma inv_events es w w' : all_fresh sha256_hex es w → inv w → steps sha256_hex es w = Some w' → inv w'.
Proof.
  revert w; induction es as [|e es IH]; intros w; simpl; [by intros _ ? [= <-]|].
  intros [Hf Hfs] Hi. destruct (step _ w e) as [w1|] eqn:He; [|done]. apply IH; [done|].
  by eapply inv_event.
Qed.

End invariant.

(** A manager that has just been opened. *)
Definition start (m : Manager) : World := mkWorld m ∅ [] CloseIdle.
Definition opened (m : Manager) : Prop :=
  runners m = ∅ ∧ closing m = false ∧ wg m = 0%Z ∧ closed (store m) = false ∧ all_known (store m).

Lemma inv_opened m : opened m → inv (start m).
Proof.
  intros (Hr & Hc & Hw & Hcl & Hk). split; simpl; rewrite ?Hr, ?Hw, ?Hcl; try done.
Qed.

(** ** How workers end *)

Lemma commit_absent fault id type now item r s k :
  operations s !! id = Some item → operations s !! k = None →
  operations (fst (commit_record fault id type now item r s)) !! k = None.
Proof.
  intros Hid Hk. pose proof (commit_record_spec fault id type now item r s) as Hc.
  destruct (commit_record _ _ _ _ _ _ s) as [s' [r'|e]]; simpl.
  - destruct Hc as (event & [Ha _] & _). rewrite (cm_operations _ _ _ _ _ Ha), lookup_insert_ne; [done|congruence].
  - destruct Hc as (_ & (_ & Hm & _) & _). by rewrite Hm.
Qed.

Lemma Transition_absent now fault id next progress result failure type s k :
  operations s !! k = None →
  operations (fst (Transition now fault id next progress result failure type s)) !! k = None.
Proof.
  intros Hk. unfold Transition. destruct (closed s); [done|].
  destruct (operations s !! id) as [item|] eqn:Hid; [|done]. case_match; [done|]. by apply commit_absent.
Qed.

Lemma UpdateProgress_absent now fault id progress metadata s k :
  operations s !! k = None → operations (fst (UpdateProgress now fault id progress metadata s)) !! k = None.
Proof.
  intros Hk. unfold UpdateProgress. destruct (closed s); [done|].
  destruct (operations s !! id) as [item|] eqn:Hid; [|done]. case_match; [done|]. by apply commit_absent.
Qed.

Lemma Cancel_absent now fault id s k :
  operations s !! k = None → operations (fst (Operation.Cancel now fault id s)) !! k = None.
Proof.
  intros Hk. unfold Operation.Cancel. destruct (Get id s); [|done]. case_match; [done|]. by apply Transition_absent.
Qed.

Lemma Create_absent h t fault newID request s k :
  operations s !! k = None → newID ≠ k → operations (fst (Create h t fault newID request s)) !! k = None.
Proof.
  intros Hk Hne. unfold Create. destruct (validateCreate _ _); [|done]. destruct (closed s); [done|].
  destruct (pruneLocked _ s) as [s1 changed] eqn:Hp.
  pose proof (pr_subset _ _ _ (pruneLocked_spec _ _ _ _ Hp)) as Hsub.
  assert (Hk1 : operations s1 !! k = None).
  { destruct (operations s1 !! k) eqn:H1; [|done]. rewrite map_subseteq_spec in Hsub.
    apply Hsub in H1. congruence. }
  unfold nextEventLocked, persistLocked, persistSnapshot.
  repeat (case_match; simplify_eq/=); try done; by rewrite lookup_insert_ne.
Qed.

(** A step does not bring back an operation a goroutine works on, and does not
    wake one that has ended. *)
Definition quiet (id : string) (s s' : Store) : Prop :=
  ∃ fault, effect fault s s' ∧ (operations s !! id = None → operations s' !! id = None).

Lemma quiet_refl id s : quiet id s s.
Proof. exists None. split; [apply same_state_effect|done]. Qed.

Lemma quiet_Transition now fault id next progress result failure type s k :
  quiet k s (fst (Transition now fault id next progress result failure type s)).
Proof. eexists. split; [apply Transition_store_effect|apply Transition_absent]. Qed.

Lemma quiet_UpdateProgress now fault id progress metadata s k :
  quiet k s (fst (UpdateProgress now fault id progress metadata s)).
Proof. eexists. split; [apply UpdateProgress_store_effect|apply UpdateProgress_absent]. Qed.

Lemma quiet_Cancel now fault id s k : quiet k s (fst (Operation.Cancel now fault id s)).
Proof. eexists. split; [apply Cancel_store_effect|apply Cancel_absent]. Qed.

Lemma quiet_Close s k : quiet k s (Operation.Close s).
Proof.
  exists None. split; [by apply EffClosed|]. unfold Operation.Close. by destruct (closed s).
Qed.

Lemma store_with_store s m : store (with_store s m) = s.
Proof. done. Qed.

Create HintDb quiet discriminated.
#[local] Hint Resolve quiet_refl quiet_Transition quiet_UpdateProgress quiet_Cancel quiet_Close : quiet.

Lemma quiet_settled id s s' : quiet id s s' → settled s id → settled s' id.
Proof. intros (fault & He & Hn). by eapply settled_effect. Qed.

Section endings.
Context (sha256_hex : string → string).

Lemma advance_quiet e ctx t w w' k :
  advance e ctx t w = Some w' → quiet k (store (mgr w)) (store (mgr w')).
Proof.
  intros Hs. unfold advance, Run_start, reporter_Progress, reporter_WaitingForUser, apply_settlement,
    Run_register, execute_leave in Hs.
  destruct e; try discriminate; destruct (t_phase t); try discriminate; simplify_eq/=; auto with quiet.
  - repeat case_match; simplify_eq/=; auto with quiet.
  - match type of Hs with context [Transition ?a ?b ?c ?d ?e ?f ?g ?h ?i] =>
      pose proof (quiet_Transition a b c d e f g h i k) end.
    destruct (Transition _ _ _ _ _ _ _ _ _). by simplify_eq/=.
  - pose proof (quiet_UpdateProgress now fault (t_id t) progress metadata (store (mgr w)) k).
    by destruct (UpdateProgress _ _ _ _ _ _).
  - repeat case_match; simplify_eq/=; auto with quiet.
  - match goal with |- context [Transition ?a ?b ?c ?d ?e ?f ?g ?h ?i] =>
      pose proof (quiet_Transition a b c d e f g h i k) end.
    by destruct (Transition _ _ _ _ _ _ _ _ _).
  - repeat case_match; simplify_eq/=; auto with quiet.
  - match goal with |- context [Transition ?a ?b ?c ?d ?e ?f ?g ?h ?i] =>
      pose proof (quiet_Transition a b c d e f g h i k) end.
    by destruct (Transition _ _ _ _ _ _ _ _ _).
  - repeat case_match; simplify_eq/=; auto with quiet.
Qed.

(** The event does not create an operation under this identifier. *)
Definition avoids (id : string) (e : event) : Prop :=
  match e with EStore (OpCreate _ _ newID _) => newID ≠ id | _ => True end.

Lemma fresh_avoids w e ctx t : fresh_event w e → threads w !! ctx = Some t → avoids (t_id t) e.
Proof. destruct e as [| | | | | | | | | | | | | | | | |[]| | |]; try done. intros [_ Hn] Ht. by apply not_eq_sym, (Hn ctx). Qed.

Lemma step_quiet e w w' k :
  fresh_event w e → avoids k e → step sha256_hex w e = Some w' → quiet k (store (mgr w)) (store (mgr w')).
Proof.
  intros Hf Hav Hs. destruct e as [| | | | | | | | | | | | | | | | |o| | |]; cbn [step event_ctx] in Hs;
    try (destruct (threads w !! _) as [t'|] eqn:Ht'; [|done]; by refine (advance_quiet _ _ _ _ _ _ Hs)).
  - destruct (threads w !! _); [done|]. destruct (Run_lookup _ _ _); simplify_eq/=; auto with quiet.
  - repeat case_match; simplify_eq/=; auto with quiet.
  - unfold Cancel_record in Hs. pose proof (quiet_Cancel now fault id (store (mgr w)) k).
    destruct (Operation.Cancel _ _ _ _). by simplify_eq/=.
  - unfold Cancel_runner in Hs. repeat case_match; simplify_eq/=; auto with quiet.
  - destruct (client_op o) eqn:Hc; [|done]. simplify_eq/=.
    destruct o as [t0 fault newID request| | | |buffer|id|]; try done.
    + destruct Hf as [Hfresh _]. exists fault. unfold Operation.step. simpl.
      pose proof (Create_effect sha256_hex t0 fault newID request _ Hfresh) as He.
      pose proof (Create_absent sha256_hex t0 fault newID request (store (mgr w)) k) as Ha.
      destruct (Create _ _ _ _ _ _) as [s out]. simpl in *. split; [apply He|].
      intros Hn. by apply Ha.
    + exists None. split; [apply (run_effect sha256_hex _ (OpSubscribe buffer)); done|].
      unfold Operation.step; simpl. unfold Subscribe. by destruct (closed _).
    + exists None. split; [apply (run_effect sha256_hex _ (OpUnsubscribe id)); done|done].
  - unfold Close_begin in Hs. repeat case_match; simplify_eq/=; auto with quiet.
  - repeat case_match; simplify_eq/=; auto with quiet.
  - repeat case_match; simplify_eq/=; auto with quiet.
Qed.

(** The worker's goroutine is on its way out. *)
Definition ended (p : phase) : bool :=
  match p with Leaving | Departing | Finished => true | _ => false end.

(** The write of the final transition does not fail. *)
Definition settle_ok (e : event) : Prop :=
  match e with ESettle _ _ fault => fault = None | _ => True end.

Definition settles (w : World) : Prop :=
  ∀ ctx t, threads w !! ctx = Some t → ended (t_phase t) = true →
    closing (mgr w) = true ∨ settled (store (mgr w)) (t_id t).

Lemma advance_ended e ctx t w w' :
  inv w → threads w !! ctx = Some t → advance e ctx t w = Some w' → settle_ok e →
  closing (mgr w') = closing (mgr w)
  ∧ ∃ t', threads w' = <[ctx := t']> (threads w) ∧ t_id t' = t_id t
  ∧ (ended (t_phase t') = true → ended (t_phase t) = true ∨ closing (mgr w') = true
     ∨ settled (store (mgr w')) (t_id t)).
Proof.
  intros Hi Ht Hs Hok. assert (Hsame : <[ctx := t]> (threads w) = threads w) by by apply insert_id.
  unfold advance, Run_start, reporter_Progress, reporter_WaitingForUser, apply_settlement, Run_register in Hs.
  destruct e; try discriminate; destruct (t_phase t) eqn:Hp; try discriminate.
  all: try (injection Hs as <-; split; [done|]; eexists; split; [done|]; split; [done|]; simpl; auto; fail).
  - repeat case_match; simplify_eq/=; (split; [done|]); eexists; (split; [done|]); done.
  - destruct (Transition _ _ _ _ _ _ _ _ _) as [s out]. injection Hs as <-. split; [done|].
    eexists; split; [done|]. split; [done|]. simpl. by destruct out.
  - destruct (UpdateProgress _ _ _ _ _ _). injection Hs as <-. split; [done|]. exists t. simpl.
    split_and!; [done..|]. by rewrite Hp.
  - destruct (Get _ _); injection Hs as <-; (split; [done|]).
    + eexists; split; [done|]. done.
    + exists t. split_and!; [done..|]. by rewrite Hp.
  - destruct (Transition _ _ _ _ _ _ _ _ _). injection Hs as <-. split; [done|].
    eexists; split; [done|]. done.
  - destruct (worker_result o). injection Hs as <-. split; [done|]. eexists; split; [done|]. done.
  - injection Hs as <-. split; [done|]. eexists; split; [done|]. split; [done|]. simpl.
    destruct (closing (mgr w)); auto.
  - injection Hs as <-. split; [done|]. eexists; split; [done|]. split; [done|]. simpl. intros He. right; right.
    unfold Get, settled in *. destruct (operations _ !! _) as [x|]; [|done].
    unfold terminal_entry. by destruct (Terminal _).
  - injection Hs as <-. simpl in Hok. subst fault. pose proof (v_judged _ Hi _ _ _ Ht Hp) as Hj.
    pose proof (Transition_settles now (t_id t) (se_next t0) (se_progress t0) (se_result t0) (se_failure t0)
      (se_event t0) (store (mgr w)) (v_known _ Hi)) as Hset.
    destruct (closing (mgr w)) eqn:Hcl.
    { destruct (Transition _ _ _ _ _ _ _ _ _). split; [done|]. eexists; split; [done|]. simpl. auto. }
    assert (closed (store (mgr w)) = false) as Hc.
    { destruct (closed _) eqn:Hc; [|done]. rewrite (v_closed _ Hi Hc) in Hcl. done. }
    specialize (Hset Hc Hj). destruct (Transition _ _ _ _ _ _ _ _ _). split; [done|].
    eexists; split; [done|]. split; [done|]. auto.
  - unfold execute_leave in Hs. rewrite (v_runner _ Hi _ _ Ht) in Hs by by rewrite Hp.
    injection Hs as <-. split; [done|]. eexists; split; [done|]. auto.
Qed.

Lemma settles_step e w w' :
  fresh_event w e → inv w → settle_ok e → step sha256_hex w e = Some w' → settles w → settles w'.
Proof.
  intros Hf Hi Hok Hs Hset.
  assert (Hkeep : (closing (mgr w) = true → closing (mgr w') = true) → ∀ k t, threads w !! k = Some t →
    ended (t_phase t) = true → closing (mgr w') = true ∨ settled (store (mgr w')) (t_id t)).
  { intros Hcl k t Hk He. destruct (Hset k t Hk He) as [|Hst]; [by left; auto|right].
    eapply quiet_settled; [eapply step_quiet; [done|by eapply fresh_avoids|done]|done]. }
  destruct e as [| | | | | | | | | | | | | | | | |o| | |]; cbn [step event_ctx] in Hs;
    try (destruct (threads w !! _) as [t'|] eqn:Ht'; [|done];
      destruct (advance_ended _ _ _ _ _ Hi Ht' Hs Hok) as (Hcl & t1 & Hths & Hid & Hend);
      rewrite Hcl in *; intros k t; rewrite Hths, lookup_insert; case_decide as Hk;
      [intros [= <-] He; rewrite Hid; rewrite Hcl; destruct (Hend He) as [He'|]; [|done];
       by eapply Hkeep
      |rewrite Hcl; apply Hkeep; done]).
  - destruct (threads w !! _); [done|]. injection Hs as <-. intros k t.
    destruct (Run_lookup _ _ _); simpl; rewrite lookup_insert; case_decide;
      first [by intros [= <-]|by apply Hkeep].
  - repeat case_match; simplify_eq/=. intros k t; by apply Hkeep.
  - unfold Cancel_record in Hs. destruct (Operation.Cancel _ _ _ _). simplify_eq/=. intros k t; by apply Hkeep.
  - unfold Cancel_runner in Hs. repeat case_match; simplify_eq/=; intros k t; by apply Hkeep.
  - repeat case_match; simplify_eq/=; intros k t; by apply Hkeep.
  - unfold Close_begin in Hs. repeat case_match; simplify_eq/=; intros k t; by apply Hkeep.
  - repeat case_match; simplify_eq/=; intros k t; by apply Hkeep.
  - repeat case_match; simplify_eq/=; intros k t; by apply Hkeep.
Qed.

Lemma settles_steps es w w' :
  all_fresh sha256_hex es w → inv w → Forall settle_ok es → steps sha256_hex es w = Some w' →
  settles w → settles w'.
Proof.
  revert w; induction es as [|e es IH]; intros w; simpl; [by intros _ _ _ [= <-]|].
  intros [Hf Hfs] Hi [Ho Hos]%Forall_cons. destruct (step _ w e) as [w1|] eqn:He; [|done].
  intros Hs Hset. eapply IH; eauto; [by eapply inv_event|by eapply settles_step].
Qed.

(** ** What a closed store refuses *)

Lemma advance_closed e ctx t w w' :
  closed (store (mgr w)) = true → advance e ctx t w = Some w' → store (mgr w') = store (mgr w).
Proof.
  intros Hc Hs.
  unfold advance, Run_start, reporter_Progress, reporter_WaitingForUser, apply_settlement,
    Run_register, execute_leave, Transition, UpdateProgress in Hs.
  rewrite ?Hc in Hs.
  destruct e; try discriminate; destruct (t_phase t); try discriminate; simplify_eq/=; try done;
    repeat case_match; simplify_eq/=; try done; by rewrite Hc.
Qed.

(** The records, the events and the file of a store. *)
Definition frozen (s s' : Store) : Prop := same_state s s' ∧ disk s' = disk s.

Lemma step_closed e w w' :
  closed (store (mgr w)) = true → step sha256_hex w e = Some w' → frozen (store (mgr w)) (store (mgr w')).
Proof.
  intros Hc Hs. destruct e as [| | | | | | | | | | | | | | | | |o| | |]; cbn [step event_ctx] in Hs;
    try (destruct (threads w !! _) as [t'|] eqn:Ht'; [|done];
      rewrite (advance_closed _ _ _ _ _ Hc Hs); done).
  - destruct (threads w !! _); [done|]. destruct (Run_lookup _ _ _); by simplify_eq/=.
  - repeat case_match; by simplify_eq/=.
  - unfold Cancel_record, Operation.Cancel, Transition in Hs. rewrite Hc in Hs.
    repeat (case_match; simplify_eq/=); done.
  - unfold Cancel_runner in Hs. repeat case_match; by simplify_eq/=.
  - destruct (client_op o) eqn:Ho; [|done]. simplify_eq/=. unfold Operation.step.
    destruct o as [t0 fault newID request| | | |buffer|id|]; try done; simpl.
    + unfold Create. rewrite Hc. by destruct (validateCreate _ _).
    + unfold Subscribe. by rewrite Hc.
  - unfold Close_begin in Hs. repeat case_match; by simplify_eq/=.
  - repeat case_match; simplify_eq/=. unfold Operation.Close. by rewrite Hc.
  - repeat case_match; simplify_eq/=. unfold Operation.Close. by rewrite Hc.
Qed.

Lemma steps_closed es w w' :
  closed (store (mgr w)) = true → steps sha256_hex es w = Some w' → frozen (store (mgr w)) (store (mgr w')).
Proof.
  revert w; induction es as [|e es IH]; intros w Hc; simpl; [by intros [= <-]|].
  destruct (step _ w e) as [w1|] eqn:He; [|done]. intros Hs.
  destruct (step_closed _ _ _ Hc He) as [Hst Hd].
  destruct (IH w1) as [Hst' Hd'].
  - destruct Hst as (_ & _ & _ & _ & Hcl). congruence.
  - done.
  - split; [by etrans|congruence].
Qed.

(** Goroutines are never forgotten, and neither is the end of [Close]. *)
Lemma step_keeps e w w' :
  step sha256_hex w e = Some w' →
  (∀ ctx t, threads w !! ctx = Some t → ∃ t', threads w' !! ctx = Some t' ∧ t_id t' = t_id t)
  ∧ (∀ b, closer w = CloseReturned b → closing (mgr w) = true → closer w' = CloseReturned b).
Proof.
  intros Hs.
  assert (Hmove : ∀ k t p m, threads w !! k = Some t → ∀ ctx x, threads w !! ctx = Some x →
    ∃ t', threads (move k t p m w) !! ctx = Some t' ∧ t_id t' = t_id x).
  { intros k t p m Hk ctx x Hx. simpl. rewrite lookup_insert. case_decide; [|eauto].
    subst. eexists. split; [done|]. simpl. congruence. }
  destruct e as [| | | | | | | | | | | | | | | | |o| | |]; cbn [step event_ctx] in Hs;
    try (destruct (threads w !! _) as [t'|] eqn:Ht'; [|done];
      unfold advance, Run_start, reporter_Progress, reporter_WaitingForUser, apply_settlement in Hs;
      destruct (t_phase t'); try discriminate; repeat case_match; injection Hs as <-;
      (split; [|done]); try (apply Hmove; done); simpl; eauto).
  - destruct (threads w !! _) eqn:Hn; [done|]. injection Hs as <-.
    split; [|by destruct (Run_lookup _ _ _)]. intros k x Hx. exists x.
    destruct (Run_lookup _ _ _); simpl; (rewrite lookup_insert_ne; [done|congruence]).
  - repeat case_match; simplify_eq/=. split; [eauto|done].
  - unfold Cancel_record in Hs. destruct (Operation.Cancel _ _ _ _). simplify_eq/=. split; [eauto|done].
  - repeat case_match; simplify_eq/=. split; [eauto|done].
  - repeat case_match; simplify_eq/=. split; [eauto|done].
  - unfold Close_begin in Hs. destruct (closing _); simplify_eq/=; (split; [eauto|done]).
  - destruct (closer w); [done| |done]. case_match; simplify_eq/=. split; [eauto|done].
  - destruct (closer w); [done| |done]. simplify_eq/=. split; [eauto|done].
Qed.

Lemma steps_closer es w w' b :
  all_fresh sha256_hex es w → inv w → steps sha256_hex es w = Some w' → closer w = CloseReturned b →
  closer w' = CloseReturned b.
Proof.
  revert w; induction es as [|e es IH]; intros w; simpl; [by intros _ _ [= <-]|].
  intros [Hf Hfs] Hi. destruct (step _ w e) as [w1|] eqn:He; [|done]. intros Hs Hc.
  apply (IH w1); [done|by eapply inv_event|done|]. eapply (proj2 (step_keeps _ _ _ He)); [done|].
  apply (v_closing _ Hi). by rewrite Hc.
Qed.
End endings.

(** ** Properties *)

Section properties.
Context (sha256_hex : string → string).

(** One worker per operation.  From an opened manager, however calls and
    goroutines interleave and whatever writes fail: two goroutines between the
    registration and the removal of their runner work on different operations; the
    deferred cancel function is never missing; and the wait group counts exactly
    the goroutines that have not called [Done], so it never becomes negative. *)
Theorem workers_are_exclusive m es w :
  opened m → all_fresh sha256_hex es (start m) → steps sha256_hex es (start m) = Some w →
  (∀ ctx ctx' t t', threads w !! ctx = Some t → threads w !! ctx' = Some t' →
     active (t_phase t) = true → active (t_phase t') = true → t_id t = t_id t' → ctx = ctx')
  ∧ (∀ ctx t, threads w !! ctx = Some t → t_phase t ≠ Crashed)
  ∧ wg (mgr w) = Z.of_nat (waiting_on (threads w)).
Proof.
  intros Ho Hf Hs. pose proof (inv_events _ _ _ _ Hf (inv_opened _ Ho) Hs) as Hi.
  split; [|split; [apply (v_crash _ Hi)|apply (v_count _ Hi)]].
  intros ctx ctx' t t' Ht Ht' Ha Ha' Hid.
  pose proof (v_runner _ Hi _ _ Ht Ha) as Hr. rewrite Hid, (v_runner _ Hi _ _ Ht' Ha') in Hr. congruence.
Qed.

(** C13. Every worker's end is recorded.  Once the goroutine of a worker is on its
    way out, however the worker ended (a result, a failure, a panic, a cancelled or
    expired context) and whatever other calls came in between, the operation has
    ended, or was pruned since; unless the manager is closing, which leaves the
    record to the recovery, or the write of the final transition failed. *)
Theorem finished_worker_settles m es w ctx t :
  opened m → all_fresh sha256_hex es (start m) → Forall settle_ok es →
  steps sha256_hex es (start m) = Some w →
  threads w !! ctx = Some t → ended (t_phase t) = true → closing (mgr w) = false →
  settled (store (mgr w)) (t_id t).
Proof.
  intros Ho Hf Hok Hs Ht He Hc.
  assert (Hset : settles w).
  { refine (settles_steps _ _ _ _ Hf (inv_opened _ Ho) Hok Hs _). intros k x. simpl. by rewrite lookup_empty. }
  destruct (Hset _ _ Ht He) as [Hcl|]; [congruence|done].
Qed.

(** A cancelled operation stays cancelled.  After [Cancel] has answered with
    the record, no worker, however late it ends, and no other call changes that
    record: it is as [Cancel] left it, or pruned (identifiers are not used twice). *)
Theorem cancelled_operation_stays_cancelled w now fault id m r es w' :
  Cancel_record now fault id (mgr w) = (m, Ok r) →
  all_fresh sha256_hex (ECancel now fault id :: es) w →
  steps sha256_hex (ECancel now fault id :: es) w = Some w' →
  Forall (avoids id) es →
  r_State r = StateCancelled
  ∧ match operations (store (mgr w')) !! id with Some e => en_record e = r | None => True end.
Proof.
  intros Hc [_ Hf] Hs Hav. simpl in Hs, Hf. rewrite Hc in Hs, Hf. simpl in Hs, Hf.
  set (w1 := mkWorld _ _ _ _) in Hs, Hf.
  assert (Hrec : ∃ e, operations (store m) !! id = Some e ∧ en_record e = r ∧ r_State r = StateCancelled).
  { unfold Cancel_record, Operation.Cancel, Transition, Get in Hc.
    destruct (operations (store (mgr w)) !! id) as [item|] eqn:Hi; [|done].
    destruct (negb _); [done|]. destruct (closed _); [done|]. destruct (negb _); [done|].
    match type of Hc with context [commit_record ?f ?i ?t ?n ?it ?r ?s0] =>
      pose proof (commit_record_spec f i t n it r s0) as Hcm end.
    destruct (commit_record _ _ _ _ _ _ _) as [s' [r'|e]]; [|by simplify_eq/=]. injection Hc as <- <-.
    destruct Hcm as (event & [Ha _] & Hr' & _). eexists. split.
    { simpl. rewrite (cm_operations _ _ _ _ _ Ha). apply lookup_insert_eq. }
    split; [done|by rewrite Hr']. }
  destruct Hrec as (e & He & Her & Hst). split; [done|].
  assert (Hgo : ∀ es w1, Forall (avoids id) es → all_fresh sha256_hex es w1 →
    steps sha256_hex es w1 = Some w' →
    match operations (store (mgr w1)) !! id with Some e' => e' = e | None => True end →
    match operations (store (mgr w')) !! id with Some e' => e' = e | None => True end).
  { clear -Hst Her. induction es as [|ev es IH]; intros w1 Hav; simpl; [by intros _ [= <-]|].
    intros [Hf Hfs] Hs Hm. destruct (step _ w1 ev) as [w2|] eqn:Hev; [|done].
    apply Forall_cons in Hav as [Hav Havs]. apply (IH w2); [done..|].
    pose proof (step_quiet _ _ _ _ _ Hf Hav Hev) as (fault & Hef & Habs).
    destruct (operations (store (mgr w1)) !! id) as [x|] eqn:Hx; [subst x|by rewrite Habs].
    pose proof (record_effect _ _ _ _ _ Hef Hx) as Hr. unfold terminal_entry in Hr.
    rewrite Her, Hst in Hr. simpl in Hr. by destruct Hr as [-> | ->]. }
  pose proof (Hgo es w1 Hav Hf Hs) as H. simpl in H.
  rewrite He in H. specialize (H eq_refl). destruct (operations (store (mgr w')) !! id); [by subst|done].
Qed.

(** [Close] is final.  Once it has returned, no call and no worker changes the
    records, the events or the state file any more; and when it returned because
    the wait was over, no worker is running, and none ever will be. *)
Theorem close_is_final m es w waited es' w' :
  opened m → all_fresh sha256_hex es (start m) → steps sha256_hex es (start m) = Some w →
  closer w = CloseReturned waited → all_fresh sha256_hex es' w → steps sha256_hex es' w = Some w' →
  frozen (store (mgr w)) (store (mgr w'))
  ∧ (waited = true → ∀ ctx t, threads w' !! ctx = Some t → counted (t_phase t) = false).
Proof.
  intros Ho Hf Hs Hc Hf' Hs'. pose proof (inv_events _ _ _ _ Hf (inv_opened _ Ho) Hs) as Hi.
  split; [eapply steps_closed; [by eapply (v_final _ Hi)|done]|].
  intros -> ctx t Ht. pose proof (inv_events _ _ _ _ Hf' Hi Hs') as Hi'.
  assert (Hc' : closer w' = CloseReturned true) by by eapply steps_closer.
  eapply waiting_on_zero; [by apply (v_waited _ Hi')|done].
Qed.

End properties.

(** ** A concrete manager *)

Definition created : Store := Operation.step id example_store
  (OpCreate (example_times 100) None "op_1" example_request).
Definition example_manager : Manager := mkManager created ∅ false 0 ∅.

Lemma example_opened : opened example_manager.
Proof.
  unfold opened. split; [done|]. split; [done|]. split; [done|]. split; [vm_compute; reflexivity|].
  eapply known_effect.
  - refine (proj1 (run_effect id example_store (OpCreate (example_times 100) None "op_1" example_request) _)).
    vm_compute. reflexivity.
  - intros k e. simpl. by rewrite lookup_empty.
Qed.

(** Goroutine 1 runs a worker; a second [Run] of the same operation is refused. *)
Definition example_started : list event :=
  [ERun 1 true "op_1"; ERegister 1; ERun 2 true "op_1"; EStart 1 200 None; ERegister 2;
   EProgress 1 210 None 40 None].
Definition example_settled : list event :=
  example_started ++ [EReturn 1 Panics; ECheck 1; EGet 1; EJudge 1 300; ESettle 1 300 None; ELeave 1].
Definition example_stuck : list event :=
  example_started ++ [EReturn 1 (Returns ∅ None); ECheck 1; EGet 1; EJudge 1 300;
    ESettle 1 300 (Some BeforeRename); ELeave 1; EDone 1; ERun 3 true "op_1"; ERegister 3; EStart 3 400 None].

Definition phase_of (w : World) (ctx : nat) : option phase := t_phase <$> threads w !! ctx.
Definition state_of (w : World) (id : string) : option State :=
  (r_State ∘ en_record) <$> operations (store (mgr w)) !! id.

(** The error of the final write is dropped: the operation stays running for ever,
    it cannot be run again, and only a restart or a cancellation ends it. *)
Example failed_final_write_leaves_it_running :
  ((λ w, (state_of w "op_1", phase_of w 3)) <$> steps id example_stuck (start example_manager))
  = Some (Some StateRunning, Some (Refused (InvalidTransitionError "op_1" StateRunning StateRunning))).
Proof. vm_compute. reflexivity. Qed.

Lemma workers_are_exclusive_witness :
  ∃ w, steps id example_started (start example_manager) = Some w ∧ wg (mgr w) = 1%Z
    ∧ phase_of w 2 = Some (RunReturned (AlreadyRunning "op_1"))
    ∧ wg (mgr w) = Z.of_nat (waiting_on (threads w)).
Proof.
  destruct (steps id example_started (start example_manager)) as [w|] eqn:Hw;
    [|exfalso; assert (Hc : is_Some (steps id example_started (start example_manager)))
        by (vm_compute; eexists; reflexivity); rewrite Hw in Hc; by destruct Hc].
  assert (Hp : ((λ w, (wg (mgr w), phase_of w 2)) <$> steps id example_started (start example_manager))
    = Some (1%Z, Some (RunReturned (AlreadyRunning "op_1")))) by (vm_compute; reflexivity).
  exists w. rewrite Hw in Hp. injection Hp as Hwg Hph. split; [reflexivity|]. split; [exact Hwg|].
  split; [exact Hph|].
  refine (proj2 (proj2 (workers_are_exclusive id example_manager example_started w example_opened _ Hw))).
  clear. vm_compute. tauto.
Defined.

Lemma finished_worker_settles_witness :
  ∃ w, steps id example_settled (start example_manager) = Some w ∧ phase_of w 1 = Some Departing
    ∧ settled (store (mgr w)) "op_1".
Proof.
  destruct (steps id example_settled (start example_manager)) as [w|] eqn:Hw;
    [|exfalso; assert (Hc : is_Some (steps id example_settled (start example_manager)))
        by (vm_compute; eexists; reflexivity); rewrite Hw in Hc; by destruct Hc].
  assert (Hp : ((λ w, (closing (mgr w), threads w !! 1)) <$> steps id example_settled (start example_manager))
    = Some (false, Some (mkThread "op_1" Departing))) by (vm_compute; reflexivity).
  exists w. rewrite Hw in Hp. injection Hp as Hcl Hth. split; [reflexivity|].
  split; [unfold phase_of; rewrite Hth; reflexivity|].
  refine (finished_worker_settles id example_manager example_settled w 1 (mkThread "op_1" Departing)
    example_opened _ _ Hw Hth eq_refl Hcl).
  - clear. vm_compute. tauto.
  - clear. repeat constructor.
Defined.

Lemma cancelled_operation_stays_cancelled_witness :
  ∃ w w' m r, steps id example_started (start example_manager) = Some w
    ∧ Cancel_record 250 None "op_1" (mgr w) = (m, Ok r) ∧ r_State r = StateCancelled
    ∧ steps id (ECancel 250 None "op_1" :: [EReturn 1 (Returns ∅ None); ECheck 1; EGet 1; ELeave 1]) w
      = Some w'.
Proof.
  destruct (steps id example_started (start example_manager)) as [w|] eqn:Hw;
    [|exfalso; assert (Hc : is_Some (steps id example_started (start example_manager)))
        by (vm_compute; eexists; reflexivity); rewrite Hw in Hc; by destruct Hc].
  set (es := [EReturn 1 (Returns ∅ None); ECheck 1; EGet 1; ELeave 1]).
  assert (Hp : ((λ w, (is_ok (snd (Cancel_record 250 None "op_1" (mgr w))),
      match steps id (ECancel 250 None "op_1" :: es) w with Some _ => true | None => false end))
      <$> steps id example_started (start example_manager)) = Some (true, true))
    by (vm_compute; reflexivity).
  assert (Hfr : from_option (all_fresh id (ECancel 250 None "op_1" :: es)) False
      (steps id example_started (start example_manager))) by (vm_compute; tauto).
  rewrite Hw in Hp, Hfr.
  assert (Hok : is_ok (snd (Cancel_record 250 None "op_1" (mgr w))) = true)
    by (injection Hp; intros _ H; exact H).
  assert (Hst : match steps id (ECancel 250 None "op_1" :: es) w with Some _ => true | None => false end = true)
    by (injection Hp; intros H _; exact H).
  change (all_fresh id (ECancel 250 None "op_1" :: es) w) in Hfr.
  destruct (Cancel_record 250 None "op_1" (mgr w)) as [m [r|e]] eqn:Hc; [|exfalso; clear -Hok; vm_compute in Hok; discriminate Hok].
  destruct (steps id (ECancel 250 None "op_1" :: es) w) as [w'|] eqn:Hw'; [|exfalso; clear -Hst; vm_compute in Hst; discriminate Hst].
  exists w, w', m, r. split; [reflexivity|]. split; [exact Hc|]. split; [|exact Hw'].
  refine (proj1 (cancelled_operation_stays_cancelled id w 250 None "op_1" m r es w' Hc Hfr Hw' _)).
  clear. repeat constructor.
Defined.

Lemma close_is_final_witness :
  ∃ w, steps id (example_settled ++ [EDone 1; EClose; EWaited]) (start example_manager) = Some w
    ∧ ∀ ctx t, threads w !! ctx = Some t → counted (t_phase t) = false.
Proof.
  set (es := example_settled ++ [EDone 1; EClose; EWaited]).
  destruct (steps id es (start example_manager)) as [w|] eqn:Hw;
    [|exfalso; assert (Hc : is_Some (steps id es (start example_manager)))
        by (vm_compute; eexists; reflexivity); rewrite Hw in Hc; by destruct Hc].
  assert (Hp : (closer <$> steps id es (start example_manager)) = Some (CloseReturned true))
    by (vm_compute; reflexivity).
  exists w. rewrite Hw in Hp. injection Hp as Hcl. split; [reflexivity|].
  refine (proj2 (close_is_final id example_manager es w true [] w example_opened _ Hw Hcl I eq_refl) eq_refl).
  clear. vm_compute. tauto.
Defined.
