(* ===== verification/GoJson.v ===== *)
(** * Decoding and encoding JSON as [encoding/json] does

    The values of JSON texts are those of [Writers].  A text that was read is its
    tree, with the members of an object in the order of the text, repeated keys
    included; what [json.Marshal] makes of a Go map has its keys sorted.  Decoding
    into a Go type follows the rules the program depends on: [null] leaves a
    target as it is (or makes it nil), members are matched to struct fields exactly
    or else up to case, later members overwrite earlier ones, and nested structs are
    decoded into what is there.  Where [json.Unmarshal] reports an error no caller
    in this program looks at the partly filled target, so the model drops it.

    Two simplifications: an array replaces what a repeated member left there, and
    only ASCII letters are folded. *)

From stdpp Require Import pretty.
From S2P Require Import Prelude GoStd Writers.

(** ** Decoders

    A decoder of [A] takes a value and the target as it is, and gives the new one
    or the error of [json.Unmarshal]. *)

Definition decoder (A : Type) : Type := json → A → option A.

Definition d_string : decoder string := λ v old,
  match v with JStr s => Some s | JNull => Some old | _ => None end.

Definition d_bool : decoder bool := λ v old,
  match v with JBool b => Some b | JNull => Some old | _ => None end.

(** [strconv.ParseInt] of the literal: a fraction or an exponent is refused. *)
Definition d_int : decoder Z := λ v old,
  match v with JNum n => Atoi n | JNull => Some old | _ => None end.

(** [json.RawMessage]: [None] is the empty message of a missing member. *)
Definition d_raw : decoder (option json) := λ v _, Some (Some v).

Definition d_list {A} (zero : A) (d : decoder A) : decoder (list A) := λ v _,
  match v with
  | JArr l => mapM (λ x, d x zero) l
  | JNull => Some []
  | _ => None
  end.

Definition d_pointer {A} (zero : A) (d : decoder A) : decoder (option A) := λ v old,
  match v with JNull => Some None | _ => Some <$> d v (default zero old) end.

(** A field of a struct: its name, and the decoder of its part of the target. *)
Definition field (S : Type) : Type := string * decoder S.

Definition fld {S A} (name : string) (get : S → A) (set : A → S → S) (d : decoder A) : field S :=
  (name, λ v s, (λ a, set a s) <$> d v (get s)).

Definition find_field {S} (fields : list (field S)) (key : string) : option (decoder S) :=
  match find_index (λ f : field S, if String.eqb f.1 key then Some f.2 else None) fields with
  | Some (_, d) => Some d
  | None => snd <$> find_index (λ f : field S, if EqualFold f.1 key then Some f.2 else None) fields
  end.

Definition d_member {S} (fields : list (field S)) (acc : option S) (kv : string * json) : option S :=
  acc ≫= λ s, match find_field fields kv.1 with Some d => d kv.2 s | None => Some s end.

Definition d_struct {S} (fields : list (field S)) : decoder S := λ v old,
  match v with
  | JObj l => foldl (d_member fields) (Some old) l
  | JNull => Some old
  | _ => None
  end.

(** [DisallowUnknownFields]: a member that no field takes is an error. *)
Definition d_strict {S} (fields : list (field S)) : decoder S := λ v old,
  match v with
  | JObj l => if forallb (λ kv, bool_decide (is_Some (find_field fields kv.1))) l then d_struct fields v old else None
  | _ => d_struct fields v old
  end.

(** [map[string]json.RawMessage]; [None] inside is the nil map that [null] leaves. *)
Definition raw_map (v : json) : option (option (gmap string json)) :=
  match v with
  | JObj l => Some (Some (foldl (λ m kv, <[kv.1 := kv.2]> m) ∅ l))
  | JNull => Some None
  | _ => None
  end.

Definition unmarshal {A} (zero : A) (d : decoder A) (v : json) : option A := d v zero.

(** ** Encoders *)

Definition sort_members (l : list (string * json)) : list (string * json) :=
  merge_sort (λ a b, String.le a.1 b.1) l.

(** A Go map with the given members, whose keys are distinct. *)
Definition obj (l : list (string * json)) : json := JObj (sort_members l).

Definition obj_of_map (m : gmap string json) : json := obj (map_to_list m).

(** A nil [json.RawMessage] is written as [null]. *)
Definition of_raw (r : option json) : json := default JNull r.

Definition of_int (n : Z) : json := JNum (pretty n).

(** [len(raw) > 0 && string(raw) != "null"]. *)
Definition raw_present (r : option json) : bool :=
  match r with None | Some JNull => false | Some _ => true end.

(** ** Lemmas *)

Lemma sort_members_perm l : sort_members l ≡ₚ l.
Proof. apply merge_sort_Permutation. Qed.

(** What was written as a map is read back as the same map. *)
Lemma raw_map_obj_of_map m : raw_map (obj_of_map m) = Some (Some m).
Proof.
  unfold raw_map, obj_of_map, obj. do 2 f_equal.
  assert (Hn : NoDup (sort_members (map_to_list m)).*1).
  { rewrite sort_members_perm. apply NoDup_fst_map_to_list. }
  apply map_eq. intros k. rewrite foldl_insert_lookup by done. rewrite lookup_empty.
  rewrite (list_to_map_proper _ (map_to_list m)) by (done || apply sort_members_perm).
  rewrite list_to_map_to_list. by destruct (m !! k).
Qed.

(** A decoder that stops at nothing but the members it knows. *)
Lemma d_struct_fold {S} (fields : list (field S)) l (old : S) :
  d_struct fields (JObj l) old = foldl (d_member fields) (Some old) l.
Proof. done. Qed.

Lemma d_member_None {S} (fields : list (field S)) l : foldl (d_member fields) None l = None.
Proof. induction l as [|kv l IH]; simpl; done. Qed.

Lemma find_field_elem {S} (fields : list (field S)) key d :
  find_field fields key = Some d →
  ∃ f, f ∈ fields ∧ f.2 = d ∧ (f.1 = key ∨ EqualFold f.1 key = true).
Proof.
  unfold find_field. intros Hfind.
  destruct (find_index (λ f : field S, if String.eqb f.1 key then Some f.2 else None) fields)
    as [[i d']|] eqn:Hi.
  - injection Hfind as ->. apply find_index_Some in Hi as (f & Hl & Hk & _). cbv beta in Hk.
    exists f. split; [by eapply list_elem_of_lookup_2|].
    destruct (String.eqb_spec f.1 key); [|done]. injection Hk as <-. auto.
  - apply fmap_Some in Hfind as ([i d'] & Hi' & ->). apply find_index_Some in Hi' as (f & Hl & Hk & _).
    cbv beta in Hk. exists f. split; [by eapply list_elem_of_lookup_2|].
    destruct (EqualFold f.1 key); [|done]. injection Hk as <-. auto.
Qed.
