(* ===== verification/Upstream.v ===== *)
(** * Calling an upstream service: circuit breaker and retries

    [CircuitBreaker], [isRetriableError] and [makeRequestWithRetry] of
    [src/src/proxy.go], which the three providers share.  The methods of the
    breaker hold its mutex, so each is one step; the instants they read are
    arguments. *)

From S2P Require Import Prelude GoStd.

Local Open Scope Z_scope.

(** ** The circuit breaker *)

(* src/src/proxy.go:31-33 circuitBreakerFailureThreshold *)
Definition circuitBreakerFailureThreshold : Z := 5.

(* src/src/proxy.go CircuitBreakerState *)
(* src/src/proxy.go CircuitClosed *)
Inductive CircuitBreakerState := CircuitClosed | CircuitOpen | CircuitHalfOpen.

#[global] Instance CircuitBreakerState_eq_dec : EqDecision CircuitBreakerState.
Proof. solve_decision. Defined.

(* src/src/proxy.go CircuitBreaker *)
Record CircuitBreaker := mkBreaker {
  failureCount : Z; lastFailureTime : Time; cb_state : CircuitBreakerState;
  timeout : Duration; probeInFlight : bool;
}.

(* src/src/proxy.go CircuitBreaker.canExecute *)
Definition canExecute (now : Time) (cb : CircuitBreaker) : CircuitBreaker * bool :=
  match cb_state cb with
  | CircuitClosed => (cb, true)
  | CircuitOpen =>
    if (timeout cb <? now - lastFailureTime cb)
    then (mkBreaker (failureCount cb) (lastFailureTime cb) CircuitHalfOpen (timeout cb) true, true)
    else (cb, false)
  | CircuitHalfOpen =>
    if probeInFlight cb then (cb, false)
    else (mkBreaker (failureCount cb) (lastFailureTime cb) CircuitHalfOpen (timeout cb) true, true)
  end.

(* src/src/proxy.go CircuitBreaker.onSuccess *)
Definition onSuccess (cb : CircuitBreaker) : CircuitBreaker :=
  mkBreaker 0 (lastFailureTime cb) CircuitClosed (timeout cb) false.

(* src/src/proxy.go CircuitBreaker.onFailure *)
Definition onFailure (now : Time) (cb : CircuitBreaker) : CircuitBreaker :=
  let count :=
    if bool_decide (cb_state cb = CircuitHalfOpen) then circuitBreakerFailureThreshold
    else wrap_i64 (failureCount cb + 1) in
  mkBreaker count now
    (if circuitBreakerFailureThreshold <=? count then CircuitOpen else cb_state cb)
    (timeout cb) false.

(** A breaker as its provider makes it. *)
Definition newBreaker (timeout : Duration) : CircuitBreaker :=
  mkBreaker 0 zeroTime CircuitClosed timeout false.

(** *** Histories: what the requests of a provider do to its breaker *)

Inductive op := OpCanExecute (now : Time) | OpSuccess | OpFailure (now : Time).

Definition step (cb : CircuitBreaker) (o : op) : CircuitBreaker :=
  match o with
  | OpCanExecute now => fst (canExecute now cb)
  | OpSuccess => onSuccess cb
  | OpFailure now => onFailure now cb
  end.

(** The requests a sequence of attempts at the instants [times] lets through. *)
Fixpoint admitted (cb : CircuitBreaker) (times : list Time) : nat :=
  match times with
  | [] => 0
  | now :: times =>
    let '(cb, ok) := canExecute now cb in ((if ok then 1 else 0) + admitted cb times)%nat
  end.

(** The abstract breaker: closed with the number of consecutive failures, open
    since an instant, or probing with or without a probe under way. *)
Inductive spec := SClosed (failures : Z) | SOpen (since : Time) | SProbing (busy : bool).

Definition spec_step (timeout : Duration) (s : spec) (o : op) : spec :=
  match o, s with
  | OpSuccess, _ => SClosed 0
  | OpFailure now, SClosed n => if 4 <=? n then SOpen now else SClosed (n + 1)
  | OpFailure now, _ => SOpen now
  | OpCanExecute now, SOpen since => if timeout <? now - since then SProbing true else s
  | OpCanExecute _, SProbing _ => SProbing true
  | OpCanExecute _, SClosed _ => s
  end.

Definition admits (timeout : Duration) (s : spec) (now : Time) : bool :=
  match s with
  | SClosed _ => true
  | SOpen since => timeout <? now - since
  | SProbing busy => negb busy
  end.

(** The counter of an open breaker keeps growing with late failures; nothing reads
    it there beyond the threshold. *)
Definition refines (cb : CircuitBreaker) (s : spec) : Prop :=
  match s with
  | SClosed n => cb_state cb = CircuitClosed ∧ failureCount cb = n ∧ 0 ≤ n < 5
  | SOpen since => cb_state cb = CircuitOpen ∧ lastFailureTime cb = since ∧ 5 ≤ failureCount cb
  | SProbing busy => cb_state cb = CircuitHalfOpen ∧ probeInFlight cb = busy ∧ 5 ≤ failureCount cb
  end.

Lemma refines_step cb s o :
  refines cb s → failureCount cb < 2 ^ 63 - 1 →
  refines (step cb o) (spec_step (timeout cb) s o)
  ∧ timeout (step cb o) = timeout cb
  ∧ failureCount (step cb o) ≤ Z.max 5 (failureCount cb + 1).
Proof.
  intros Hr Hb. destruct o as [now| |now].
  - destruct s as [n|since|busy], Hr as (Hs & Hf & Hn); simpl; unfold canExecute; rewrite Hs.
    + split_and!; simpl; auto; lia.
    + rewrite Hf. destruct (timeout cb <? now - since); simpl; split_and!; simpl; auto; lia.
    + destruct (probeInFlight cb) eqn:Hp; simpl; split_and!; simpl; auto; lia.
  - destruct s; destruct Hr as (_ & ? & ?); simpl; split_and!; simpl; auto; lia.
  - destruct s as [n|since|busy], Hr as (Hs & Hf & Hn); simpl;
      unfold onFailure, circuitBreakerFailureThreshold; rewrite Hs; simpl.
    + rewrite wrap_i64_small by lia. rewrite Hf. destruct (4 <=? n) eqn:H4; reflect_bools.
      * rewrite (proj2 (Z.leb_le 5 (n + 1))) by lia. simpl. split_and!; simpl; auto; lia.
      * rewrite (proj2 (Z.leb_gt 5 (n + 1))) by lia. simpl. split_and!; simpl; auto; lia.
    + rewrite wrap_i64_small by lia. rewrite (proj2 (Z.leb_le 5 (failureCount cb + 1))) by lia.
      simpl. split_and!; simpl; auto; lia.
    + split_and!; simpl; auto; lia.
Qed.

Lemma refines_admits cb s now :
  refines cb s → snd (canExecute now cb) = admits (timeout cb) s now.
Proof.
  destruct s as [n|since|busy]; intros (Hs & Hf & Hn); unfold canExecute; rewrite Hs; [done| |].
  - rewrite Hf. simpl. by destruct (timeout cb <? now - since).
  - rewrite Hf. by destruct busy.
Qed.

Lemma refines_steps ops cb s :
  refines cb s → 0 ≤ failureCount cb → Z.max 5 (failureCount cb) + Z.of_nat (length ops) < 2 ^ 63 - 1 →
  refines (foldl step cb ops) (foldl (spec_step (timeout cb)) s ops)
  ∧ timeout (foldl step cb ops) = timeout cb.
Proof.
  revert cb s; induction ops as [|o ops IH]; intros cb s Hr H0 Hb; simpl in *; [done|].
  destruct (refines_step cb s o Hr ltac:(lia)) as (Hr' & Ht & Hf).
  rewrite <-Ht. apply IH; [by rewrite Ht| |lia].
  destruct (spec_step (timeout cb) s o); destruct Hr' as (_ & ? & ?); simpl in *; lia.
Qed.

(** ** Retries *)

(* src/src/proxy.go:25-29 maxChatRetries *)
Definition maxChatRetries : nat := 3.

(* src/src/proxy.go isRetriableError *)
Definition isRetriableError (statusCode : Z) (err : bool) : bool :=
  if err then true else (500 <=? statusCode) || (statusCode =? StatusRequestTimeout).

(** What the n-th call of the client answers: a status, or an error. *)
Inductive answer := Status (code : Z) | CallFailed.
Inductive retry_error := BadRequest | CallError | ContextDone.

(** [do_] is what each attempt gets, [cancelled n] whether the context is over
    before the pause that follows the n-th attempt is; the result carries the
    number of calls made.  [rounds] is what is left of the loop. *)
(* src/src/proxy.go makeRequestWithRetry *)
Fixpoint retry_loop (rounds attempt : nat) (retryAllowed : bool) (do_ : nat → answer)
    (cancelled : nat → bool) : nat * result Z retry_error :=
  match rounds with
  | O => (0%nat, Err CallError)
  | S rounds =>
    let last := (attempt =? maxChatRetries)%nat in
    let again :=
      if cancelled attempt then (1%nat, Err ContextDone)
      else let '(n, r) := retry_loop rounds (S attempt) retryAllowed do_ cancelled in (S n, r) in
    match do_ attempt with
    | CallFailed => if negb retryAllowed || last then (1%nat, Err CallError) else again
    | Status code =>
      if negb (isRetriableError code false) || negb retryAllowed || last then (1%nat, Ok code)
      else again
    end
  end.

(** [request_ok]: [http.NewRequestWithContext] accepts the method and the URL. *)
(* src/src/proxy.go makeRequestWithRetry *)
Definition makeRequestWithRetry (method : string) (hasIdempotencyKey request_ok : bool)
    (do_ : nat → answer) (cancelled : nat → bool) : nat * result Z retry_error :=
  let safeMethod := String.eqb method "GET" || String.eqb method "HEAD" in
  if request_ok then retry_loop maxChatRetries 1 (safeMethod || hasIdempotencyKey) do_ cancelled
  else (0%nat, Err BadRequest).

(** An answer after which the loop goes on. *)
Definition transient (a : answer) : bool :=
  match a with CallFailed => true | Status code => isRetriableError code false end.

Definition settled_answer (a : answer) : result Z retry_error :=
  match a with CallFailed => Err CallError | Status code => Ok code end.

Lemma retry_loop_spec rounds attempt allowed do_ cancelled :
  (attempt + rounds = S maxChatRetries)%nat → (0 < rounds)%nat →
  let '(n, r) := retry_loop rounds attempt allowed do_ cancelled in
  (1 ≤ n ≤ rounds)%nat ∧ (allowed = false → n = 1%nat)
  ∧ (∀ k, (attempt ≤ k < attempt + n - 1)%nat → transient (do_ k) = true)
  ∧ (r = Err ContextDone ∧ cancelled (attempt + n - 1)%nat = true
       ∧ transient (do_ (attempt + n - 1)%nat) = true
     ∨ r = settled_answer (do_ (attempt + n - 1)%nat)
       ∧ (transient (do_ (attempt + n - 1)%nat) = false ∨ allowed = false ∨ n = rounds)).
Proof.
  unfold maxChatRetries. revert attempt; induction rounds as [|rounds IH]; intros attempt Hsum Hpos; [lia|].
  assert (Hone : (attempt + 1 - 1)%nat = attempt) by lia.
  cbn [retry_loop]. unfold maxChatRetries.
  assert (Hagain : allowed = true → (attempt =? 3)%nat = false → transient (do_ attempt) = true →
    let '(n, r) := if cancelled attempt then (1%nat, Err ContextDone)
      else let '(n, r) := retry_loop rounds (S attempt) allowed do_ cancelled in (S n, r) in
    (1 ≤ n ≤ S rounds)%nat ∧ (allowed = false → n = 1%nat)
    ∧ (∀ k, (attempt ≤ k < attempt + n - 1)%nat → transient (do_ k) = true)
    ∧ (r = Err ContextDone ∧ cancelled (attempt + n - 1)%nat = true
         ∧ transient (do_ (attempt + n - 1)%nat) = true
       ∨ r = settled_answer (do_ (attempt + n - 1)%nat)
         ∧ (transient (do_ (attempt + n - 1)%nat) = false ∨ allowed = false ∨ n = S rounds))).
  { intros -> Hlast Htr. apply Nat.eqb_neq in Hlast. destruct (cancelled attempt) eqn:Hc.
    - rewrite Hone. split_and!; [lia..|done|intros; lia|]. left. done.
    - specialize (IH (S attempt) ltac:(lia) ltac:(lia)).
      destruct (retry_loop rounds _ _ _ _) as [n r]. destruct IH as (Hn & _ & Hk & Hr).
      replace (attempt + S n - 1)%nat with (S attempt + n - 1)%nat by lia.
      split_and!; [lia..|done| |].
      + intros k Hkk. destruct (decide (k = attempt)) as [->|]; [done|]. apply Hk. lia.
      + destruct Hr as [Hr|[Hr Hd]]; [by left|right]. split; [done|].
        destruct Hd as [?|[?| ->]]; auto. }
  destruct (do_ attempt) as [code|] eqn:Hd.
  - destruct (isRetriableError code false) eqn:Hret; simpl.
    + destruct allowed; simpl.
      * destruct (attempt =? 3)%nat eqn:Hl; [|by apply Hagain].
        apply Nat.eqb_eq in Hl. rewrite Hone, Hd.
        split_and!; [lia..|done|intros; lia|]. right. split; [done|]. right. right. lia.
      * rewrite Hone, Hd. split_and!; [lia..|done|intros; lia|]. right. auto.
    + rewrite Hone, Hd. split_and!; [lia..|done|intros; lia|]. right. auto.
  - destruct allowed; simpl.
    + destruct (attempt =? 3)%nat eqn:Hl; [|by apply Hagain].
      apply Nat.eqb_eq in Hl. rewrite Hone, Hd.
      split_and!; [lia..|done|intros; lia|]. right. split; [done|]. right. right. lia.
    + rewrite Hone, Hd. split_and!; [lia..|done|intros; lia|]. right. auto.
Qed.

(** ** Properties *)

(** C25. The circuit breaker refines its specification.  After any history of
    requests, successes and failures, the breaker admits a request exactly when
    the abstract one does: it opens on the fifth failure in a row, rejects until
    its timeout has passed since the last failure, then admits one probe and
    nothing else until that probe reports. *)
Theorem breaker_refines_spec t ops now :
  Z.of_nat (length ops) < 2 ^ 63 - 10 →
  snd (canExecute now (foldl step (newBreaker t) ops))
  = admits t (foldl (spec_step t) (SClosed 0) ops) now.
Proof.
  intros Hb. destruct (refines_steps ops (newBreaker t) (SClosed 0)) as [Hr Ht];
    [split; [done|split; [done|simpl; lia]]|simpl; lia|simpl; lia|].
  simpl in Hr, Ht. rewrite (refines_admits _ _ _ Hr). by rewrite Ht.
Qed.

(** A probe that never reports closes the upstream for good.  Once a request
    has been admitted as the probe of a half-open breaker, and neither [onSuccess]
    nor [onFailure] follows, no later request is admitted, however long one waits. *)
Theorem silent_probe_blocks_forever cb now cb' times :
  cb_state cb ≠ CircuitClosed → canExecute now cb = (cb', true) → admitted cb' times = 0%nat.
Proof.
  intros Hs Hc.
  assert (cb_state cb' = CircuitHalfOpen ∧ probeInFlight cb' = true) as [Hs' Hp].
  { unfold canExecute in Hc. destruct (cb_state cb) eqn:Hst; [done| |].
    - destruct (_ <? _); simplify_eq; done.
    - destruct (probeInFlight cb); simplify_eq; done. }
  clear Hc Hs. induction times as [|t times IH]; simpl; [done|].
  assert (canExecute t cb' = (cb', false)) as ->; [|done].
  unfold canExecute. by rewrite Hs', Hp.
Qed.

(** Retries are bounded and only for safe requests.  At most three calls are
    made, and exactly one when the method is not safe and the request has no
    idempotency key; every call but the last got a transient answer; and the
    result is the last call's answer, or the context's end after a transient one. *)
Theorem retries_are_bounded method key do_ cancelled :
  let allowed := String.eqb method "GET" || String.eqb method "HEAD" || key in
  let '(n, r) := makeRequestWithRetry method key true do_ cancelled in
  (1 ≤ n ≤ 3)%nat ∧ (allowed = false → n = 1%nat)
  ∧ (∀ k, (1 ≤ k < n)%nat → transient (do_ k) = true)
  ∧ (r = Err ContextDone ∧ cancelled n = true ∧ transient (do_ n) = true
     ∨ r = settled_answer (do_ n) ∧ (transient (do_ n) = false ∨ allowed = false ∨ n = 3%nat)).
Proof.
  intros allowed. unfold makeRequestWithRetry. fold allowed.
  pose proof (retry_loop_spec 3 1 allowed do_ cancelled eq_refl ltac:(lia)) as H.
  unfold maxChatRetries. destruct (retry_loop 3 1 allowed do_ cancelled) as [n r].
  replace (1 + n - 1)%nat with n in H by lia. destruct H as (? & ? & Hk & ?).
  split_and!; try done; lia.
Qed.

Definition tripped : CircuitBreaker :=
  foldl step (newBreaker (30 * Second))
    [OpFailure 1; OpFailure 2; OpFailure 3; OpFailure 4; OpFailure 5].

Lemma breaker_refines_spec_witness :
  snd (canExecute (31 * Second) (foldl step (newBreaker (30 * Second))
    [OpFailure 1; OpFailure 2; OpFailure 3; OpFailure 4; OpFailure 5])) = true.
Proof.
  rewrite (breaker_refines_spec (30 * Second)); [vm_compute; reflexivity|vm_compute; reflexivity].
Defined.

Lemma silent_probe_blocks_forever_witness :
  admitted (fst (canExecute (31 * Second) tripped)) [32 * Second; 1000 * Hour] = 0%nat.
Proof.
  apply (silent_probe_blocks_forever tripped (31 * Second)); [vm_compute; discriminate|].
  vm_compute. reflexivity.
Defined.
