(* ===== verification/Responses.v ===== *)
(** * The Responses adapter

    [src/src/responses_adapter.go]: Chat Completions requests become Responses
    requests, and the answers, whole or as a stream of server-sent events, become
    Chat Completions again.  A body is the tree its text parses to; [parse] is the
    reader of [encoding/json], [marshal] its writer, [raw_text] the text a value has
    in the message it is part of, and [float_to_int] is [int64(f)] of the [float64]
    a literal denotes.  A map the code ranges over is visited in an order that is an
    argument. *)

From stdpp Require Import pretty.
From S2P Require Import Prelude GoStd Provider Routing Writers Failover GoJson.

Inductive error :=
| UnmarshalChatBody | UnmarshalResponsesBody | ParseMessages | ParseToolCalls
| ParseResponseFormat | JSONSchemaRequired | ParseJSONSchema | UnsupportedFormat (type : string)
| FieldNotSupported (key : string) | ParseCompleted | UpstreamFailure (event : string)
| ReadingSSE (e : goerror) | NoCompleted | NotFlusher.

#[local] Set Default Proof Using "Type".

Section adapter.
Context (parse : string → option json) (marshal : json → string).
Context (raw_text : json → string) (float_to_int : string → option Z).

(** [json.Unmarshal] of a raw message; the empty one is not JSON. *)
Definition decode_raw {A} (zero : A) (d : decoder A) (raw : option json) : option A :=
  raw ≫= unmarshal zero d.

(** ** Requests *)

Definition d_include_usage : decoder bool :=
  d_struct [fld "include_usage" id (λ b _, b) d_bool].

(* src/src/responses_adapter.go streamOptionsIncludeUsage *)
Definition streamOptionsIncludeUsage (raw : gmap string json) : bool :=
  match raw !! "stream_options" with
  | Some value => default false (unmarshal false d_include_usage value)
  | None => false
  end.

(** The loop's body: the map of one part; [None] is a nil map. *)
Definition normalize_part (part : option (gmap string json)) : json :=
  match part with
  | None => JNull
  | Some m =>
    obj_of_map
      match m !! "type" ≫= unmarshal "" d_string with
      | Some "text" => <["type" := JStr "input_text"]> m
      | Some "image_url" => <["type" := JStr "input_image"]> m
      | _ => m
      end
  end.

(* src/src/responses_adapter.go normalizeContentParts *)
Definition normalizeContentParts (content : option json) : option json :=
  match decode_raw "" d_string content with
  | Some _ => content
  | None =>
    match content with
    | Some (JArr l) =>
      match mapM raw_map l with
      | Some parts => Some (JArr (normalize_part <$> parts))
      | None => content
      end
    | _ => content
    end
  end.

Record chat_tool := mkTool {
  tl_Type : string; tl_Name : string; tl_Description : string;
  tl_Parameters : option json; tl_Strict : option bool;
}.

Definition d_chat_tool : decoder chat_tool :=
  d_struct [
    fld "type" tl_Type
      (λ x t, mkTool x (tl_Name t) (tl_Description t) (tl_Parameters t) (tl_Strict t)) d_string;
    fld "function" id (λ x _, x) (d_struct [
      fld "name" tl_Name
        (λ x t, mkTool (tl_Type t) x (tl_Description t) (tl_Parameters t) (tl_Strict t)) d_string;
      fld "description" tl_Description
        (λ x t, mkTool (tl_Type t) (tl_Name t) x (tl_Parameters t) (tl_Strict t)) d_string;
      fld "parameters" tl_Parameters
        (λ x t, mkTool (tl_Type t) (tl_Name t) (tl_Description t) x (tl_Strict t)) d_raw;
      fld "strict" tl_Strict
        (λ x t, mkTool (tl_Type t) (tl_Name t) (tl_Description t) (tl_Parameters t) x)
        (d_pointer false d_bool)])].

Definition zero_tool : chat_tool := mkTool "" "" "" None None.

Definition convert_tool (t : chat_tool) : option json :=
  if negb (String.eqb (tl_Type t) "") && negb (String.eqb (tl_Type t) "function") then None
  else Some (obj ([("type", JStr "function"); ("name", JStr (tl_Name t))]
    ++ (if String.eqb (tl_Description t) "" then [] else [("description", JStr (tl_Description t))])
    ++ match tl_Parameters t with Some p => [("parameters", p)] | None => [] end
    ++ match tl_Strict t with Some b => [("strict", JBool b)] | None => [] end)).

(* src/src/responses_adapter.go convertToolsForResponses *)
Definition convertToolsForResponses (raw : json) : json :=
  match unmarshal [] (d_list zero_tool d_chat_tool) raw with
  | None => raw
  | Some tools => JArr (omap convert_tool tools)
  end.

Record chat_message := mkMessage {
  ms_Role : string; ms_Content : option json; ms_ToolCalls : option json; ms_ToolCallID : string;
}.

Definition d_chat_message : decoder chat_message :=
  d_struct [
    fld "role" ms_Role (λ x m, mkMessage x (ms_Content m) (ms_ToolCalls m) (ms_ToolCallID m)) d_string;
    fld "content" ms_Content (λ x m, mkMessage (ms_Role m) x (ms_ToolCalls m) (ms_ToolCallID m)) d_raw;
    fld "tool_calls" ms_ToolCalls (λ x m, mkMessage (ms_Role m) (ms_Content m) x (ms_ToolCallID m)) d_raw;
    fld "tool_call_id" ms_ToolCallID (λ x m, mkMessage (ms_Role m) (ms_Content m) (ms_ToolCalls m) x)
      d_string].

Record tool_call := mkCall { tc_ID : string; tc_Name : string; tc_Arguments : string }.

Definition d_tool_call : decoder tool_call :=
  d_struct [
    fld "id" tc_ID (λ x c, mkCall x (tc_Name c) (tc_Arguments c)) d_string;
    fld "function" id (λ x _, x) (d_struct [
      fld "name" tc_Name (λ x c, mkCall (tc_ID c) x (tc_Arguments c)) d_string;
      fld "arguments" tc_Arguments (λ x c, mkCall (tc_ID c) (tc_Name c) x) d_string])].

Definition d_text_part : decoder string := d_struct [fld "text" id (λ x _, x) d_string].

(** What a system message adds to the instructions. *)
(* src/src/responses_adapter.go:114-129 extractMessages *)
Definition system_parts (content : option json) : list string :=
  match decode_raw "" d_string content with
  | Some text => [text]
  | None =>
    match decode_raw [] (d_list "" d_text_part) content with
    | Some parts => filter (λ text, text ≠ "") parts
    | None => []
    end
  end.

Definition call_item (c : tool_call) : json :=
  obj [("type", JStr "function_call"); ("call_id", JStr (tc_ID c)); ("name", JStr (tc_Name c));
       ("arguments", JStr (tc_Arguments c))].

Definition message_item (role : string) (content : option json) : json :=
  obj [("role", JStr role); ("content", of_raw (normalizeContentParts content))].

(** The case of one message: its instruction parts and its input items. *)
(* src/src/responses_adapter.go:113-178 extractMessages *)
Definition extract_message (m : chat_message) : result (list string * list json) error :=
  if String.eqb (ms_Role m) "system" then Ok (system_parts (ms_Content m), [])
  else if String.eqb (ms_Role m) "tool" then
    let output :=
      match decode_raw "" d_string (ms_Content m) with
      | Some text => text
      | None => match ms_Content m with Some v => raw_text v | None => "" end
      end in
    Ok ([], [obj [("type", JStr "function_call_output"); ("call_id", JStr (ms_ToolCallID m));
                  ("output", JStr output)]])
  else if String.eqb (ms_Role m) "assistant" && raw_present (ms_ToolCalls m) then
    let text :=
      if raw_present (ms_Content m) && negb (match ms_Content m with Some (JStr "") => true | _ => false end)
      then [message_item "assistant" (ms_Content m)] else [] in
    match decode_raw [] (d_list (mkCall "" "" "") d_tool_call) (ms_ToolCalls m) with
    | None => Err ParseToolCalls
    | Some calls => Ok ([], text ++ (call_item <$> calls))
    end
  else Ok ([], [message_item (ms_Role m) (ms_Content m)]).

Fixpoint extract_loop (l : list chat_message) (parts : list string) (items : list json)
    : result (list string * list json) error :=
  match l with
  | [] => Ok (parts, items)
  | m :: l =>
    let? '(p, i) := extract_message m in extract_loop l (parts ++ p) (items ++ i)
  end.

(* src/src/responses_adapter.go extractMessages *)
Definition extractMessages (value : json) : result (string * json) error :=
  match unmarshal [] (d_list (mkMessage "" None None "") d_chat_message) value with
  | None => Err ParseMessages
  | Some messages =>
    let? '(parts, items) := extract_loop messages [] [] in Ok (Join parts newline, JArr items)
  end.

Record response_format := mkFormat { rf_Type : string; rf_JSONSchema : option json }.

Definition d_response_format : decoder response_format :=
  d_struct [
    fld "type" rf_Type (λ x f, mkFormat x (rf_JSONSchema f)) d_string;
    fld "json_schema" rf_JSONSchema (λ x f, mkFormat (rf_Type f) x) d_raw].

(* src/src/responses_adapter.go responseFormatToResponsesText *)
Definition responseFormatToResponsesText (raw : json) : result json error :=
  match unmarshal (mkFormat "" None) d_response_format raw with
  | None => Err ParseResponseFormat
  | Some envelope =>
    let? format :=
      if String.eqb (rf_Type envelope) "json_schema" then
        if negb (raw_present (rf_JSONSchema envelope)) then Err JSONSchemaRequired
        else
          match rf_JSONSchema envelope ≫= raw_map with
          | Some (Some format) => Ok (<["type" := JStr "json_schema"]> format)
          | _ => Err ParseJSONSchema
          end
      else if String.eqb (rf_Type envelope) "json_object"
      then Ok {[ "type" := JStr "json_object" ]}
      else if String.eqb (rf_Type envelope) "text" || String.eqb (rf_Type envelope) ""
      then Ok {[ "type" := JStr "text" ]}
      else Err (UnsupportedFormat (rf_Type envelope)) in
    Ok (obj [("format", obj_of_map format)])
  end.

(* src/src/responses_adapter.go chatGPTCodexAllowedKeys *)
Definition chatGPTCodexAllowedKeys : list string :=
  ["model"; "input"; "instructions"; "tools"; "tool_choice"; "parallel_tool_calls"; "text";
   "reasoning"; "metadata"; "stream"; "store"; "temperature"; "top_p"; "user"].

(** Fields of a chat request that no Responses transport takes. *)
Definition unsupported_fields : list string :=
  ["n"; "stop"; "logprobs"; "top_logprobs"; "logit_bias"; "frequency_penalty"; "presence_penalty";
   "seed"; "function_call"; "functions"].

(** The map of a request body; the error of [json.Unmarshal], or a nil map, which is
    only read. *)
Definition body_map (body : string) (e : error) : result (gmap string json) error :=
  match parse body ≫= raw_map with Some m => Ok (default ∅ m) | None => Err e end.

Definition copied_keys : list string :=
  ["model"; "temperature"; "top_p"; "user"; "tool_choice"; "parallel_tool_calls"; "reasoning"; "metadata"].

Definition copy_key (raw : gmap string json) (out : gmap string json) (key : string) : gmap string json :=
  match raw !! key with Some value => <[key := value]> out | None => out end.

Definition with_default_instructions (out : gmap string json) : gmap string json :=
  match out !! "instructions" with Some _ => out | None => <["instructions" := JStr ""]> out end.

(* src/src/responses_adapter.go buildChatGPTCodexRequest *)
Definition buildChatGPTCodexRequest (chatBody : string) : result (json * bool) error :=
  let? raw := body_map chatBody UnmarshalChatBody in
  let includeUsage := streamOptionsIncludeUsage raw in
  let? out :=
    match raw !! "messages" with
    | None => Ok ∅
    | Some messages =>
      let? '(instructions, input) := extractMessages messages in
      Ok (<["input" := input]> {[ "instructions" := JStr instructions ]})
    end in
  let out := with_default_instructions out in
  let out := foldl (copy_key raw) out copied_keys in
  let out :=
    match raw !! "tools" with
    | Some tools => <["tools" := convertToolsForResponses tools]> out
    | None => out
    end in
  let? out :=
    match raw !! "response_format" with
    | Some format => let? text := responseFormatToResponsesText format in Ok (<["text" := text]> out)
    | None => Ok out
    end in
  match find_index (raw !!.) unsupported_fields with
  | Some (i, _) => Err (FieldNotSupported (default "" (unsupported_fields !! i)))
  | None =>
    Ok (obj_of_map (<["store" := JBool false]> (<["stream" := JBool true]> out)), includeUsage)
  end.

(** One iteration of the loop over the members of the chat request. *)
Definition platform_member (out : gmap string json) (kv : string * json) : result (gmap string json) error :=
  let '(key, value) := kv in
  if String.eqb key "messages" then
    let? '(instructions, input) := extractMessages value in
    Ok (<["input" := input]> (<["instructions" := JStr instructions]> out))
  else if String.eqb key "max_tokens" || String.eqb key "max_completion_tokens"
  then Ok (<["max_output_tokens" := value]> out)
  else if String.eqb key "stream_options" then Ok out
  else if String.eqb key "tools" then Ok (<["tools" := convertToolsForResponses value]> out)
  else if String.eqb key "response_format" then
    let? text := responseFormatToResponsesText value in Ok (<["text" := text]> out)
  else if decide (key ∈ unsupported_fields) then Err (FieldNotSupported key)
  else Ok (<[key := value]> out).

Fixpoint platform_loop (order : list (string * json)) (out : gmap string json)
    : result (gmap string json) error :=
  match order with
  | [] => Ok out
  | kv :: order => let? out := platform_member out kv in platform_loop order out
  end.

(** [visit] lists the members of a map in the order the range takes. *)
(* src/src/responses_adapter.go buildPlatformResponsesRequest *)
Definition buildPlatformResponsesRequest (visit : gmap string json → list (string * json))
    (chatBody : string) : result (json * bool) error :=
  let? raw := body_map chatBody UnmarshalChatBody in
  let includeUsage := streamOptionsIncludeUsage raw in
  let? out := platform_loop (visit raw) ∅ in
  Ok (obj_of_map (with_default_instructions out), includeUsage).

Definition wants_stream (raw : gmap string json) : bool :=
  match raw !! "stream" with
  | Some value => default false (unmarshal false d_bool value)
  | None => false
  end.

(* src/src/responses_adapter.go buildChatGPTNativeResponsesRequest *)
Definition buildChatGPTNativeResponsesRequest (visit : gmap string json → list (string * json))
    (body : string) : result (json * bool) error :=
  let? raw := body_map body UnmarshalResponsesBody in
  let clientWantsStream := wants_stream raw in
  match find_index (λ kv, if decide (kv.1 ∈ chatGPTCodexAllowedKeys) then None else Some kv.1) (visit raw) with
  | Some (_, key) => Err (FieldNotSupported key)
  | None =>
    let out :=
      match raw !! "input" ≫= unmarshal "" d_string with
      | Some text =>
        <["input" := JArr [JObj [("role", JStr "user"); ("content", JStr text)]]]> raw
      | None => raw
      end in
    Ok (obj_of_map (<["store" := JBool false]> (<["stream" := JBool true]> out)), clientWantsStream)
  end.

(** A nil map is written as [null]. *)
(* src/src/responses_adapter.go buildPlatformNativeResponsesRequest *)
Definition buildPlatformNativeResponsesRequest (body : string) : result (json * bool) error :=
  match parse body ≫= raw_map with
  | None => Err UnmarshalResponsesBody
  | Some None => Ok (JNull, false)
  | Some (Some raw) => Ok (obj_of_map (delete "stream_options" raw), wants_stream raw)
  end.

(* src/src/responses_adapter.go isStreamingRequest *)
Definition isStreamingRequest (body : string) : bool :=
  default false (parse body ≫= unmarshal false (d_struct [fld "stream" id (λ b _, b) d_bool])).

(** ** Whole answers *)

Record content_part := mkPart { cp_Type : string; cp_Text : string }.

(* src/src/responses_adapter.go responsesAPIOutput *)
Record responsesAPIOutput := mkOutput {
  ro_Type : string; ro_ID : string; ro_Role : string; ro_CallID : string; ro_Name : string;
  ro_Arguments : string; ro_Content : list content_part;
}.

Record api_usage := mkUsage { us_Input : Z; us_Output : Z; us_Total : Z }.
Record api_error := mkApiError { ae_Message : string; ae_Type : string; ae_Code : string }.

(* src/src/responses_adapter.go responsesAPIResult *)
Record responsesAPIResult := mkResult {
  rs_ID : string; rs_Object : string; rs_CreatedAt : Z; rs_Model : string;
  rs_Output : list responsesAPIOutput; rs_Usage : option api_usage; rs_Error : option api_error;
}.

(** [float64], kept as the integer it is truncated to. *)
Definition d_float : decoder Z := λ v old,
  match v with JNum n => float_to_int n | JNull => Some old | _ => None end.

Definition d_content_part : decoder content_part :=
  d_struct [fld "type" cp_Type (λ x p, mkPart x (cp_Text p)) d_string;
            fld "text" cp_Text (λ x p, mkPart (cp_Type p) x) d_string].

Definition d_output : decoder responsesAPIOutput :=
  d_struct [
    fld "type" ro_Type (λ x o, mkOutput x (ro_ID o) (ro_Role o) (ro_CallID o) (ro_Name o) (ro_Arguments o) (ro_Content o)) d_string;
    fld "id" ro_ID (λ x o, mkOutput (ro_Type o) x (ro_Role o) (ro_CallID o) (ro_Name o) (ro_Arguments o) (ro_Content o)) d_string;
    fld "role" ro_Role (λ x o, mkOutput (ro_Type o) (ro_ID o) x (ro_CallID o) (ro_Name o) (ro_Arguments o) (ro_Content o)) d_string;
    fld "call_id" ro_CallID (λ x o, mkOutput (ro_Type o) (ro_ID o) (ro_Role o) x (ro_Name o) (ro_Arguments o) (ro_Content o)) d_string;
    fld "name" ro_Name (λ x o, mkOutput (ro_Type o) (ro_ID o) (ro_Role o) (ro_CallID o) x (ro_Arguments o) (ro_Content o)) d_string;
    fld "arguments" ro_Arguments (λ x o, mkOutput (ro_Type o) (ro_ID o) (ro_Role o) (ro_CallID o) (ro_Name o) x (ro_Content o)) d_string;
    fld "content" ro_Content (λ x o, mkOutput (ro_Type o) (ro_ID o) (ro_Role o) (ro_CallID o) (ro_Name o) (ro_Arguments o) x)
      (d_list (mkPart "" "") d_content_part)].

Definition d_usage : decoder api_usage :=
  d_struct [
    fld "input_tokens" us_Input (λ x u, mkUsage x (us_Output u) (us_Total u)) d_int;
    fld "output_tokens" us_Output (λ x u, mkUsage (us_Input u) x (us_Total u)) d_int;
    fld "total_tokens" us_Total (λ x u, mkUsage (us_Input u) (us_Output u) x) d_int].

Definition d_error : decoder api_error :=
  d_struct [
    fld "message" ae_Message (λ x e, mkApiError x (ae_Type e) (ae_Code e)) d_string;
    fld "type" ae_Type (λ x e, mkApiError (ae_Message e) x (ae_Code e)) d_string;
    fld "code" ae_Code (λ x e, mkApiError (ae_Message e) (ae_Type e) x) d_string].

Definition zero_output : responsesAPIOutput := mkOutput "" "" "" "" "" "" [].
Definition zero_usage : api_usage := mkUsage 0 0 0.

Definition result_fields : list (field responsesAPIResult) := [
  fld "id" rs_ID (λ x r, mkResult x (rs_Object r) (rs_CreatedAt r) (rs_Model r) (rs_Output r) (rs_Usage r) (rs_Error r)) d_string;
  fld "object" rs_Object (λ x r, mkResult (rs_ID r) x (rs_CreatedAt r) (rs_Model r) (rs_Output r) (rs_Usage r) (rs_Error r)) d_string;
  fld "created_at" rs_CreatedAt (λ x r, mkResult (rs_ID r) (rs_Object r) x (rs_Model r) (rs_Output r) (rs_Usage r) (rs_Error r)) d_float;
  fld "model" rs_Model (λ x r, mkResult (rs_ID r) (rs_Object r) (rs_CreatedAt r) x (rs_Output r) (rs_Usage r) (rs_Error r)) d_string;
  fld "output" rs_Output (λ x r, mkResult (rs_ID r) (rs_Object r) (rs_CreatedAt r) (rs_Model r) x (rs_Usage r) (rs_Error r))
    (d_list zero_output d_output);
  fld "usage" rs_Usage (λ x r, mkResult (rs_ID r) (rs_Object r) (rs_CreatedAt r) (rs_Model r) (rs_Output r) x (rs_Error r))
    (d_pointer zero_usage d_usage);
  fld "error" rs_Error (λ x r, mkResult (rs_ID r) (rs_Object r) (rs_CreatedAt r) (rs_Model r) (rs_Output r) (rs_Usage r) x)
    (d_pointer (mkApiError "" "" "") d_error)].

Definition zero_result : responsesAPIResult := mkResult "" "" 0 "" [] None None.
Definition d_result : decoder responsesAPIResult := d_struct result_fields.

(** The text of one output item, and the tool call it is. *)
Definition item_text (item : responsesAPIOutput) : string :=
  if String.eqb (ro_Type item) "message" then
    foldr (λ p s, (if String.eqb (cp_Type p) "output_text" then cp_Text p else "") +:+ s) "" (ro_Content item)
  else "".

Definition item_call (item : responsesAPIOutput) : option json :=
  if String.eqb (ro_Type item) "function_call" then
    Some (obj [("id", JStr (ro_CallID item)); ("type", JStr "function");
      ("function", obj [("name", JStr (ro_Name item)); ("arguments", JStr (ro_Arguments item))])])
  else None.

Definition chat_usage (u : api_usage) : json :=
  obj [("prompt_tokens", of_int (us_Input u)); ("completion_tokens", of_int (us_Output u));
       ("total_tokens", of_int (us_Total u))].

Definition completion_text (response : responsesAPIResult) : string :=
  foldr (λ item s, item_text item +:+ s) "" (rs_Output response).

(** [body] is what the response's text parses to. *)
(* src/src/responses_adapter.go responsesToChatCompletion *)
Definition responsesToChatCompletion (body : option json) : result json error :=
  match decode_raw zero_result d_result body with
  | None => Err UnmarshalResponsesBody
  | Some response =>
    match rs_Error response with
    | Some e =>
      Ok (obj [("error", obj [("message", JStr (ae_Message e)); ("type", JStr (ae_Type e));
                              ("code", JStr (ae_Code e))])])
    | None =>
      let text := completion_text response in
      let toolCalls := omap item_call (rs_Output response) in
      let message := [("role", JStr "assistant"); ("content", JStr text)]
        ++ match toolCalls with [] => [] | _ => [("tool_calls", JArr toolCalls)] end in
      let finishReason := match toolCalls with [] => "stop" | _ => "tool_calls" end in
      Ok (obj ([("id", JStr (rs_ID response)); ("object", JStr "chat.completion");
        ("created", of_int (rs_CreatedAt response)); ("model", JStr (rs_Model response));
        ("choices", JArr [obj [("index", of_int 0); ("message", obj message);
                               ("finish_reason", JStr finishReason)]])]
        ++ match rs_Usage response with Some u => [("usage", chat_usage u)] | None => [] end))
    end
  end.

(** ** Streams

    [bufio.Scanner] over the body, with a buffer of at most four megabytes: the
    lines it delivers, and the error its [Err] reports afterwards. *)

Definition token_limit : Z := 4 * 1024 * 1024.

Definition drop_cr (line : string) : string := TrimSuffix line (str [13]).

Definition body_lines (body : string) : list string :=
  match reverse (Split body (ascii_of_nat 10)) with
  | "" :: l => drop_cr <$> reverse l
  | l => drop_cr <$> reverse l
  end.

Fixpoint within_limit (lines : list string) : list string * bool :=
  match lines with
  | [] => ([], true)
  | l :: lines =>
    if (token_limit <=? Z.of_nat (String.length l))%Z then ([], false)
    else let '(ls, ok) := within_limit lines in (l :: ls, ok)
  end.

(** What is left of a body, and the error its reader ends with. *)
Record upstream_body := mkBody { ub_text : string; ub_error : option goerror }.

Definition scan (b : upstream_body) : list string * option goerror :=
  match within_limit (body_lines (ub_text b)) with
  | (lines, true) => (lines, ub_error b)
  | (lines, false) => (lines, Some (mkError false false))
  end.

(** What is written to the client: an event with a JSON chunk, an event whose data
    are passed on, the end marker, a flush. *)
Inductive frame := FChunk (chunk : json) | FRaw (data : string) | FDone | FFlush.

Definition chunk_members (id model : string) (created : Z) (delta : json) (finishReason : option string)
    : list (string * json) :=
  [("id", JStr id); ("object", JStr "chat.completion.chunk"); ("created", of_int created);
   ("model", JStr model);
   ("choices", JArr [obj [("index", of_int 0); ("delta", delta);
      ("finish_reason", match finishReason with Some r => JStr r | None => JNull end)]])].

(* src/src/responses_adapter.go chatChunk *)
(* src/src/responses_adapter.go chatChunkDynamic *)
Definition chatChunk (id model : string) (created : Z) (delta : json) (finishReason : option string) : json :=
  obj (chunk_members id model created delta finishReason).

(* src/src/responses_adapter.go chatChunkFinish *)
Definition chatChunkFinish (id model : string) (created : Z) (finishReason : option string)
    (usage : option json) : json :=
  obj (chunk_members id model created (obj []) finishReason
       ++ match usage with Some u => [("usage", u)] | None => [] end).

(** The local variables of the loop. *)
Record stream := mkStream {
  sm_chatID : string; sm_model : string; sm_created : Z; sm_sentRole : bool; sm_eventType : string;
  sm_hadToolCalls : bool; sm_toolCallCount : Z; sm_indices : gmap string Z;
}.

Record created_event := mkCreated { ce_ID : string; ce_Model : string }.
Definition d_created : decoder created_event :=
  d_struct [fld "response" id (λ x _, x) (d_struct [
    fld "id" ce_ID (λ x e, mkCreated x (ce_Model e)) d_string;
    fld "model" ce_Model (λ x e, mkCreated (ce_ID e) x) d_string])].

Definition d_delta : decoder string := d_struct [fld "delta" id (λ x _, x) d_string].

Record stream_item := mkItem { it_ID : string; it_Type : string; it_CallID : string; it_Name : string }.
Definition d_item : decoder stream_item :=
  d_struct [fld "item" id (λ x _, x) (d_struct [
    fld "id" it_ID (λ x i, mkItem x (it_Type i) (it_CallID i) (it_Name i)) d_string;
    fld "type" it_Type (λ x i, mkItem (it_ID i) x (it_CallID i) (it_Name i)) d_string;
    fld "call_id" it_CallID (λ x i, mkItem (it_ID i) (it_Type i) x (it_Name i)) d_string;
    fld "name" it_Name (λ x i, mkItem (it_ID i) (it_Type i) (it_CallID i) x) d_string])].

Record arguments_delta := mkArgs { ad_Delta : string; ad_ItemID : string; ad_CallID : string }.
Definition d_arguments : decoder arguments_delta :=
  d_struct [
    fld "delta" ad_Delta (λ x a, mkArgs x (ad_ItemID a) (ad_CallID a)) d_string;
    fld "item_id" ad_ItemID (λ x a, mkArgs (ad_Delta a) x (ad_CallID a)) d_string;
    fld "call_id" ad_CallID (λ x a, mkArgs (ad_Delta a) (ad_ItemID a) x) d_string].

Definition d_completed_usage : decoder (option api_usage) :=
  d_struct [fld "response" id (λ x _, x)
    (d_struct [fld "usage" id (λ x _, x) (d_pointer zero_usage d_usage)])].

Definition set_created (e : created_event) (s : stream) : stream :=
  mkStream (if String.eqb (ce_ID e) "" then sm_chatID s else ce_ID e)
    (if String.eqb (ce_Model e) "" then sm_model s else ce_Model e)
    (sm_created s) (sm_sentRole s) (sm_eventType s) (sm_hadToolCalls s) (sm_toolCallCount s) (sm_indices s).

Definition sent_role (s : stream) : stream :=
  mkStream (sm_chatID s) (sm_model s) (sm_created s) true (sm_eventType s) (sm_hadToolCalls s)
    (sm_toolCallCount s) (sm_indices s).

Definition chunk_of (s : stream) (delta : json) : frame :=
  FChunk (chatChunk (sm_chatID s) (sm_model s) (sm_created s) delta None).

(* src/src/responses_adapter.go:524-537 streamResponsesAsChat *)
Definition text_delta (delta : string) (s : stream) : stream * list frame :=
  (sent_role s,
   (if sm_sentRole s then [] else [chunk_of s (obj [("role", JStr "assistant")]); FFlush])
   ++ [chunk_of s (obj [("content", JStr delta)]); FFlush]).

(* src/src/responses_adapter.go:538-575 streamResponsesAsChat *)
Definition item_added (i : stream_item) (s : stream) : stream * list frame :=
  let index := sm_toolCallCount s in
  let indices := if String.eqb (it_CallID i) "" then sm_indices s else <[it_CallID i := index]> (sm_indices s) in
  let indices := if String.eqb (it_ID i) "" then indices else <[it_ID i := index]> indices in
  let calls := JArr [obj [("index", of_int index); ("id", JStr (it_CallID i)); ("type", JStr "function");
    ("function", obj [("name", JStr (it_Name i)); ("arguments", JStr "")])]] in
  let delta := [("tool_calls", calls)]
    ++ (if sm_sentRole s then [] else [("role", JStr "assistant")]) in
  (mkStream (sm_chatID s) (sm_model s) (sm_created s) true (sm_eventType s) true (index + 1) indices,
   [chunk_of s (obj delta); FFlush]).

(* src/src/responses_adapter.go:576-600 streamResponsesAsChat *)
Definition arguments_added (a : arguments_delta) (s : stream) : list frame :=
  let key := if String.eqb (ad_ItemID a) "" then ad_CallID a else ad_ItemID a in
  match sm_indices s !! key with
  | None => []
  | Some index =>
    [chunk_of s (obj [("tool_calls", JArr [obj [("index", of_int index);
       ("function", obj [("arguments", JStr (ad_Delta a))])]])]); FFlush]
  end.

(* src/src/responses_adapter.go:601-626 streamResponsesAsChat *)
Definition completed (includeUsage : bool) (data : string) (s : stream) : list frame :=
  let usage :=
    if includeUsage
    then chat_usage <$> mjoin (parse data ≫= unmarshal None d_completed_usage) else None in
  [FChunk (chatChunkFinish (sm_chatID s) (sm_model s) (sm_created s)
     (Some (if sm_hadToolCalls s then "tool_calls" else "stop")) usage); FDone; FFlush].

(** The names of the events, as both loops test them. *)
Definition failure_events : list string := ["response.failed"; "response.incomplete"; "error"].

Definition set_event (type : string) (s : stream) : stream :=
  mkStream (sm_chatID s) (sm_model s) (sm_created s) (sm_sentRole s) type (sm_hadToolCalls s)
    (sm_toolCallCount s) (sm_indices s).

(** A line of the data of an event: the new variables, what is written, and the
    result when the function returns. *)
(* src/src/responses_adapter.go:508-632 streamResponsesAsChat *)
Definition stream_data (includeUsage : bool) (data : string) (s : stream)
    : stream * list frame * option (option error) :=
  let type := sm_eventType s in
  if String.eqb type "response.created" then
    (match parse data ≫= unmarshal (mkCreated "" "") d_created with
     | Some e => set_created e s
     | None => s
     end, [], None)
  else if String.eqb type "response.output_text.delta" then
    match parse data ≫= unmarshal "" d_delta with
    | Some delta => (text_delta delta s, None)
    | None => (s, [], None)
    end
  else if String.eqb type "response.output_item.added" then
    match parse data ≫= unmarshal (mkItem "" "" "" "") d_item with
    | Some i => if String.eqb (it_Type i) "function_call" then (item_added i s, None) else (s, [], None)
    | None => (s, [], None)
    end
  else if String.eqb type "response.function_call_arguments.delta" then
    match parse data ≫= unmarshal (mkArgs "" "" "") d_arguments with
    | Some a => (s, arguments_added a s, None)
    | None => (s, [], None)
    end
  else if String.eqb type "response.completed" then (s, completed includeUsage data s, Some None)
  else if decide (type ∈ failure_events)
  then (s, [FRaw data; FDone; FFlush], Some (Some (UpstreamFailure type)))
  else (s, [], None).

(* src/src/responses_adapter.go:498-507 streamResponsesAsChat *)
Definition stream_line (includeUsage : bool) (line : string) (s : stream)
    : stream * list frame * option (option error) :=
  if HasPrefix line "event: " then (set_event (TrimPrefix line "event: ") s, [], None)
  else if HasPrefix line "data: " then stream_data includeUsage (TrimPrefix line "data: ") s
  else (s, [], None).

Fixpoint stream_loop (includeUsage : bool) (lines : list string) (s : stream)
    : stream * list frame * option (option error) :=
  match lines with
  | [] => (s, [], None)
  | line :: lines =>
    match stream_line includeUsage line s with
    | (s, fs, Some out) => (s, fs, Some out)
    | (s, fs, None) =>
      let '(s, fs', out) := stream_loop includeUsage lines s in (s, fs ++ fs', out)
    end
  end.

Definition new_stream (chatID : string) (created : Z) : stream := mkStream chatID "" created false "" false 0 ∅.

(** The answer to a streaming client.  [flusher] says whether the writer can flush;
    [chatID] and [created] come from the clock. *)
(* src/src/responses_adapter.go streamResponsesAsChat *)
Definition streamResponsesAsChat (chatID : string) (created : Z) (includeUsage : bool)
    (b : upstream_body) : list frame * option error :=
  let '(lines, scanErr) := scan b in
  let '(s, fs, out) := stream_loop includeUsage lines (new_stream chatID created) in
  (fs, match out with
       | Some result => result
       | None => match scanErr with Some e => Some (ReadingSSE e) | None => Some NoCompleted end
       end).

(** ** Streams read to the end *)

(** [response] as the raw message of the completed event. *)
Definition d_completed : decoder (option json) := d_struct [fld "response" id (λ x _, x) d_raw].

(** Assigning to the nil map that [null] leaves panics. *)
(* src/src/responses_adapter.go mergeAccumulatedText *)
Definition mergeAccumulatedText (responseJSON : option json) (text : string) : go_outcome (option json) :=
  if String.eqb text "" then Returns responseJSON
  else
    match responseJSON ≫= raw_map with
    | None => Returns responseJSON
    | Some None => Panics
    | Some (Some envelope) =>
      let existing := match envelope !! "output" with Some (JArr l) => l | _ => [] end in
      match existing with
      | _ :: _ => Returns responseJSON
      | [] =>
        let synthesized := JArr [obj [("type", JStr "message"); ("role", JStr "assistant");
          ("content", JArr [obj [("type", JStr "output_text"); ("text", JStr text)]])]] in
        Returns (Some (obj_of_map (<["output" := synthesized]> envelope)))
      end
    end.

(** A line of the data of an event: the text so far, or the result. *)
(* src/src/responses_adapter.go:691-713 aggregateSSEToCompletion *)
Definition aggregate_data (type data text : string) : string + go_outcome (result (option json) error) :=
  if String.eqb type "response.output_text.delta" then
    inl (text +:+ default "" (parse data ≫= unmarshal "" d_delta))
  else if String.eqb type "response.completed" then
    inr match parse data ≫= unmarshal None d_completed with
        | None => Returns (Err ParseCompleted)
        | Some response =>
          match mergeAccumulatedText response text with
          | Returns r => Returns (Ok r)
          | Panics => Panics
          end
        end
  else if decide (type ∈ failure_events) then inr (Returns (Err (UpstreamFailure type)))
  else inl text.

Fixpoint aggregate_loop (lines : list string) (type text : string)
    : option (go_outcome (result (option json) error)) :=
  match lines with
  | [] => None
  | line :: lines =>
    if HasPrefix line "event: " then aggregate_loop lines (TrimPrefix line "event: ") text
    else if HasPrefix line "data: " then
      match aggregate_data type (TrimPrefix line "data: ") text with
      | inl text => aggregate_loop lines type text
      | inr out => Some out
      end
    else aggregate_loop lines type text
  end.

(* src/src/responses_adapter.go aggregateSSEToCompletion *)
Definition aggregateSSEToCompletion (b : upstream_body) : go_outcome (result (option json) error) :=
  let '(lines, scanErr) := scan b in
  match aggregate_loop lines "" "" with
  | Some out => out
  | None => Returns (Err match scanErr with Some e => ReadingSSE e | None => NoCompleted end)
  end.

(** ** Handlers *)

(* src/src/responses_adapter.go classifyUpstreamStatus *)
Definition classifyUpstreamStatus (status : Z) : ProviderErrorKind :=
  if (status =? StatusUnauthorized)%Z then ProviderErrorAuthRequired
  else if (status =? StatusForbidden)%Z then ProviderErrorEntitlement
  else if (status =? StatusTooManyRequests)%Z then ProviderErrorRateLimit
  else if (500 <=? status)%Z then ProviderErrorUnavailable
  else ProviderErrorInvalidRequest.

(** An upstream response; [r_headers] lists the header lines. *)
Record http_response := mkResponse {
  r_StatusCode : Z; r_ContentType : string; r_headers : list (string * string); r_body : upstream_body;
}.

Definition frame_actions (f : frame) : list action :=
  match f with
  | FChunk j => [AWrite ("data: " +:+ marshal j +:+ newline +:+ newline)]
  | FRaw data => [AWrite ("data: " +:+ data +:+ newline +:+ newline)]
  | FDone => [AWrite ("data: [DONE]" +:+ newline +:+ newline)]
  | FFlush => [AFlush]
  end.

Definition error_text (e : error) : string :=
  match e with
  | UnmarshalChatBody => "unmarshal chat body" | UnmarshalResponsesBody => "unmarshal Responses body"
  | ParseMessages => "parse messages" | ParseToolCalls => "parse assistant tool_calls"
  | ParseResponseFormat => "parse response_format"
  | JSONSchemaRequired => "response_format.json_schema is required"
  | ParseJSONSchema => "parse response_format.json_schema"
  | UnsupportedFormat _ => "unsupported response_format type"
  | FieldNotSupported key => "field " +:+ key +:+ " is not supported"
  | ParseCompleted => "parse response.completed"
  | UpstreamFailure event => "upstream SSE failure: " +:+ event
  | ReadingSSE _ => "reading Responses SSE" | NoCompleted => "no response.completed event in SSE stream"
  | NotFlusher => "ResponseWriter does not support Flusher"
  end.

(** The errors are of package [fmt]; only a read error is wrapped. *)
Definition plain (e : error) : perr :=
  mkPerr (error_text e) (match e with ReadingSSE g => g | _ => mkError false false end) None.

Definition is_sse (r : http_response) (upstreamSSE : bool) : bool :=
  Contains (r_ContentType r) "text/event-stream" || upstreamSSE.

(** An upstream error status is passed on, with the first bytes of its body. *)
(* src/src/responses_adapter.go:778-784 handleResponsesAPIResponse *)
Definition upstream_refused (r : http_response) : list action * option perr :=
  ([ASetHeader "Content-Type" "application/json"; AWriteHeader (r_StatusCode r);
    AWrite (str_take 4096 (ub_text (r_body r)))],
   Some (newProviderError (classifyUpstreamStatus (r_StatusCode r)) (r_StatusCode r) "upstream HTTP")).

(* src/src/responses_adapter.go:477-485 streamResponsesAsChat *)
Definition stream_headers : list action :=
  [ASetHeader "Content-Type" "text/event-stream"; ASetHeader "Cache-Control" "no-cache";
   ASetHeader "Connection" "keep-alive"; AWriteHeader StatusOK].

Definition json_answer (status : Z) (j : json) : list action :=
  [ASetHeader "Content-Type" "application/json"; AWriteHeader status; AWrite (marshal j)].

(** What the provider does with its writer, and its error; the errors of the
    client's writes are left out, and the writers of this program can flush. *)
(* src/src/responses_adapter.go handleResponsesAPIResponse *)
Definition handleResponsesAPIResponse (chatID : string) (created : Z) (r : http_response)
    (clientWantsStream upstreamSSE includeUsage : bool) : go_outcome (list action * option perr) :=
  if (400 <=? r_StatusCode r)%Z then Returns (upstream_refused r)
  else if is_sse r upstreamSSE then
    if negb clientWantsStream then
      match aggregateSSEToCompletion (r_body r) with
      | Panics => Panics
      | Returns (Err e) => Returns ([], Some (plain e))
      | Returns (Ok responseJSON) =>
        match responsesToChatCompletion responseJSON with
        | Err e => Returns ([], Some (plain e))
        | Ok chatBody => Returns (json_answer StatusOK chatBody, None)
        end
      end
    else
      let '(fs, err) := streamResponsesAsChat chatID created includeUsage (r_body r) in
      Returns (stream_headers ++ mjoin (frame_actions <$> fs), plain <$> err)
  else
    match ub_error (r_body r) with
    | Some e => Returns ([], Some (mkPerr "read error" e None))
    | None =>
      match responsesToChatCompletion (parse (ub_text (r_body r))) with
      | Err e => Returns ([], Some (plain e))
      | Ok chatBody => Returns (json_answer (r_StatusCode r) chatBody, None)
      end
    end.

(** [cuts] are the reads of a streamed body.  A body that is not streamed is one
    write, and a header has one value, as in [Writers]. *)
(* src/src/responses_adapter.go handleNativeResponsesAPIResponse *)
Definition handleNativeResponsesAPIResponse (cuts : list string) (r : http_response)
    (clientWantsStream upstreamSSE : bool) : go_outcome (list action * option perr) :=
  if (400 <=? r_StatusCode r)%Z then Returns (upstream_refused r)
  else if is_sse r upstreamSSE && negb clientWantsStream then
    match aggregateSSEToCompletion (r_body r) with
    | Panics => Panics
    | Returns (Err e) => Returns ([], Some (plain e))
    | Returns (Ok responseJSON) =>
      Returns ([ASetHeader "Content-Type" "application/json"; AWriteHeader StatusOK;
                AWrite match responseJSON with Some j => raw_text j | None => "" end], None)
    end
  else if is_sse r upstreamSSE then
    Returns ([ASetHeader "Content-Type" "text/event-stream"; ASetHeader "Cache-Control" "no-cache";
              AWriteHeader StatusOK] ++ mjoin ((λ c, [AWrite c; AFlush]) <$> cuts),
             (λ e, mkPerr "read error" e None) <$> ub_error (r_body r))
  else
    Returns (map (λ kv, ASetHeader kv.1 kv.2)
               (filter (λ kv, ToLower kv.1 ≠ "content-length") (r_headers r))
             ++ [AWriteHeader (r_StatusCode r)] ++ [AWrite (ub_text (r_body r))],
             (λ e, mkPerr "read error" e None) <$> ub_error (r_body r)).

(** ** The events of a stream

    Both loops see the same events: the type named last, and one line of data. *)

Fixpoint sse_events (lines : list string) (type : string) : list (string * string) :=
  match lines with
  | [] => []
  | line :: lines =>
    if HasPrefix line "event: " then sse_events lines (TrimPrefix line "event: ")
    else if HasPrefix line "data: " then (type, TrimPrefix line "data: ") :: sse_events lines type
    else sse_events lines type
  end.

Definition terminal (type : string) : bool :=
  String.eqb type "response.completed" || bool_decide (type ∈ failure_events).

(** The deltas before the first terminal event, and that event. *)
Fixpoint until_terminal (events : list (string * string)) : string * option (string * string) :=
  match events with
  | [] => ("", None)
  | (type, data) :: events =>
    if terminal type then ("", Some (type, data))
    else
      let '(text, last) := until_terminal events in
      ((if String.eqb type "response.output_text.delta"
        then default "" (parse data ≫= unmarshal "" d_delta) else "") +:+ text, last)
  end.

Definition upstream_text (b : upstream_body) : string :=
  (until_terminal (sse_events (fst (scan b)) "")).1.
Definition upstream_end (b : upstream_body) : option (string * string) :=
  (until_terminal (sse_events (fst (scan b)) "")).2.

Lemma not_failure : "response.completed" ∉ failure_events ∧ "response.output_text.delta" ∉ failure_events.
Proof. split; unlisted. Qed.

Lemma terminal_cases type :
  terminal type = true → type = "response.completed" ∨ type ∈ failure_events ∧ type ≠ "response.completed".
Proof.
  unfold terminal. intros [->%String.eqb_eq|H%bool_decide_eq_true]%orb_true_iff; [by left|].
  right. split; [done|]. intros ->. by apply not_failure in H.
Qed.

(** The aggregation, event by event. *)
Lemma aggregate_loop_events lines type text :
  aggregate_loop lines type text =
  match until_terminal (sse_events lines type) with
  | (t, Some (ty, data)) =>
    match aggregate_data ty data (text +:+ t) with inl _ => None | inr out => Some out end
  | (_, None) => None
  end.
Proof.
  revert type text; induction lines as [|line lines IH]; intros type text; simpl; [done|].
  destruct (HasPrefix line "event: "); [apply IH|].
  destruct (HasPrefix line "data: "); [|apply IH]. simpl.
  destruct (terminal type) eqn:Ht.
  - rewrite str_app_nil_r. apply terminal_cases in Ht as [-> |[Ht Hc]]; [done|].
    unfold aggregate_data. rewrite (proj2 (String.eqb_neq _ _) Hc).
    destruct (String.eqb_spec type "response.output_text.delta") as [-> |_]; [by apply not_failure in Ht|].
    by rewrite decide_True.
  - unfold terminal in Ht. apply orb_false_iff in Ht as [Hc Hf%bool_decide_eq_false].
    unfold aggregate_data at 1. rewrite Hc. rewrite decide_False by done.
    destruct (String.eqb_spec type "response.output_text.delta") as [-> |_]; rewrite IH.
    + destruct (until_terminal _) as [t [[ty d]|]]; [|done]. by rewrite str_app_assoc.
    + by destruct (until_terminal _) as [t [[ty d]|]].
Qed.

(** ** A client of the stream *)

Definition member (key : string) (j : json) : option json :=
  match j with JObj l => snd <$> head (filter (λ kv, kv.1 = key) l) | _ => None end.

Definition choice (j : json) : option json :=
  match member "choices" j with Some (JArr (c :: _)) => Some c | _ => None end.
Definition delta_of (j : json) : option json := choice j ≫= member "delta".
Definition finish_of (j : json) : option json := choice j ≫= member "finish_reason".

Definition text_member (key : string) (j : json) : string :=
  match member key j with Some (JStr s) => s | _ => "" end.

(** The text a client collects. *)
Definition frame_text (f : frame) : string :=
  match f with
  | FChunk j => match delta_of j with Some d => text_member "content" d | None => "" end
  | _ => ""
  end.
Definition frames_text (fs : list frame) : string := foldr (λ f s, frame_text f +:+ s) "" fs.

Inductive phase := Streaming | Finishing | Closed.

(** What it knows: whether the role has come, how many tool calls were announced. *)
Record client := mkClient { cl_role : bool; cl_calls : Z; cl_phase : phase }.

Definition announces (call : json) : bool := bool_decide (is_Some (member "id" call)).

(** The tool call of a delta: a new one takes the next index, a fragment belongs to
    one that was announced. *)
Definition accept_call (d : json) (calls : Z) : option Z :=
  match member "tool_calls" d with
  | None => Some calls
  | Some (JArr [call]) =>
    match member "index" call with
    | Some (JNum n) =>
      if announces call then (if String.eqb n (pretty calls) then Some (calls + 1)%Z else None)
      else if decide (n ∈ pretty <$> seqZ 0 calls) then Some calls else None
    | _ => None
    end
  | Some _ => None
  end.

(** One frame, or [None] when it breaks the protocol. *)
Definition accept (c : client) (f : frame) : option client :=
  match f with
  | FFlush => Some c
  | FDone => match cl_phase c with Finishing => Some (mkClient (cl_role c) (cl_calls c) Closed) | _ => None end
  | FRaw _ => match cl_phase c with Streaming => Some (mkClient (cl_role c) (cl_calls c) Finishing) | _ => None end
  | FChunk j =>
    match cl_phase c, delta_of j, finish_of j with
    | Streaming, Some d, Some JNull =>
      let role := bool_decide (is_Some (member "role" d)) in
      if Bool.eqb role (cl_role c) then None
      else (λ n, mkClient true n Streaming) <$> accept_call d (cl_calls c)
    | Streaming, Some (JObj []), Some (JStr r) =>
      if String.eqb r (if (0 <? cl_calls c)%Z then "tool_calls" else "stop")
      then Some (mkClient (cl_role c) (cl_calls c) Finishing) else None
    | _, _, _ => None
    end
  end.

Fixpoint accepts (c : client) (fs : list frame) : option client :=
  match fs with [] => Some c | f :: fs => accept c f ≫= λ c, accepts c fs end.

Lemma accepts_app c fs fs' : accepts c (fs ++ fs') = accepts c fs ≫= λ c, accepts c fs'.
Proof. revert c; induction fs as [|f fs IH]; intros c; simpl; [done|]. destruct (accept c f); simpl; auto. Qed.

Lemma frames_text_app fs fs' : frames_text (fs ++ fs') = frames_text fs +:+ frames_text fs'.
Proof. induction fs as [|f fs IH]; simpl; [done|]. by rewrite IH, str_app_assoc. Qed.

Lemma chunk_delta id model created d r : delta_of (chatChunk id model created d r) = Some d.
Proof. reflexivity. Qed.

Lemma chunk_finish id model created d r :
  finish_of (chatChunk id model created d r) = Some match r with Some r => JStr r | None => JNull end.
Proof. reflexivity. Qed.

Lemma finish_delta id model created r u :
  delta_of (chatChunkFinish id model created (Some r) u) = Some (JObj [])
  ∧ finish_of (chatChunkFinish id model created (Some r) u) = Some (JStr r).
Proof. by destruct u. Qed.

Lemma accept_chunk c s d :
  cl_phase c = Streaming →
  accept c (chunk_of s d)
  = (if Bool.eqb (bool_decide (is_Some (member "role" d))) (cl_role c) then None
     else (λ n, mkClient true n Streaming) <$> accept_call d (cl_calls c)).
Proof. intros Hp. unfold accept, chunk_of. rewrite Hp, chunk_delta, chunk_finish. by destruct d as [| | | | |[|]]. Qed.

Lemma frame_text_chunk s d : frame_text (chunk_of s d) = text_member "content" d.
Proof. unfold frame_text, chunk_of. by rewrite chunk_delta. Qed.

Lemma accept_finish c id model created r u :
  cl_phase c = Streaming →
  accept c (FChunk (chatChunkFinish id model created (Some r) u))
  = (if String.eqb r (if (0 <? cl_calls c)%Z then "tool_calls" else "stop")
     then Some (mkClient (cl_role c) (cl_calls c) Finishing) else None).
Proof.
  intros Hp. unfold accept. destruct (finish_delta id model created r u) as [-> ->]. by rewrite Hp.
Qed.

Lemma frame_text_finish id model created r u :
  frame_text (FChunk (chatChunkFinish id model created (Some r) u)) = "".
Proof. unfold frame_text. by destruct (finish_delta id model created r u) as [-> _]. Qed.

#[local] Arguments accept : simpl never.
#[local] Arguments frame_text : simpl never.
#[local] Arguments chunk_of : simpl never.

(** The client after the frames of a state of the loop. *)
Definition client_of (s : stream) : client := mkClient (sm_sentRole s) (sm_toolCallCount s) Streaming.

(** The variables of the loop. *)
Record stream_inv (s : stream) : Prop := {
  si_count : (0 ≤ sm_toolCallCount s)%Z;
  si_had : sm_hadToolCalls s = (0 <? sm_toolCallCount s)%Z;
  si_role : sm_hadToolCalls s = true → sm_sentRole s = true;
  si_indices : ∀ k i, sm_indices s !! k = Some i → (0 ≤ i < sm_toolCallCount s)%Z;
}.

(** One line of data keeps the client in step with the loop. *)
Lemma stream_data_spec includeUsage data s s' fs out :
  stream_inv s → stream_data includeUsage data s = (s', fs, out) →
  stream_inv s' ∧ sm_eventType s' = sm_eventType s
  ∧ match out with
    | None => accepts (client_of s) fs = Some (client_of s')
        ∧ terminal (sm_eventType s) = false
    | Some r => accepts (client_of s) fs = Some (mkClient (sm_sentRole s) (sm_toolCallCount s) Closed)
        ∧ terminal (sm_eventType s) = true
        ∧ (r = None ↔ sm_eventType s = "response.completed")
    end
  ∧ frames_text fs
    = (if String.eqb (sm_eventType s) "response.output_text.delta"
       then default "" (parse data ≫= unmarshal "" d_delta) else "").
Proof.
  intros Hi. unfold stream_data. set (type := sm_eventType s).
  assert (Hnone : ∀ s'' : stream, s'' = s → stream_inv s'' ∧ sm_eventType s'' = type).
  { by intros ? ->. }
  destruct (String.eqb_spec type "response.created") as [Ht|_].
  { intros [= <- <- <-]. rewrite Ht. split; [|split; [|split; [split|]]]; try done.
    - destruct (parse data ≫= _) as [e|]; [|done]. destruct Hi. by split.
    - by destruct (parse data ≫= _).
    - simpl. by destruct (parse data ≫= _). }
  destruct (String.eqb_spec type "response.output_text.delta") as [Ht|_].
  { destruct (parse data ≫= _) as [d|] eqn:Hd; intros [= <- <- <-].
    - rewrite Ht. split; [destruct Hi; by split|]. split; [done|]. split; [split; [|done]|].
      + unfold text_delta, client_of. destruct (sm_sentRole s) eqn:Hr; reflexivity.
      + unfold text_delta. destruct (sm_sentRole s); simpl; by rewrite ?str_app_nil_r.
    - rewrite Ht. by split_and!. }
  destruct (String.eqb_spec type "response.output_item.added") as [Ht|_].
  { destruct (parse data ≫= _) as [i|]; [destruct (String.eqb (it_Type i) "function_call")|];
      intros [= <- <- <-]; rewrite Ht; try by split_and!.
    split; [|split; [done|split; [split; [|done]|]]].
    - destruct Hi as [C H R I]. split; simpl; [lia|symmetry; apply Z.ltb_lt; lia|done|].
      intros k j. repeat case_match; rewrite ?lookup_insert; repeat case_decide; intros Hk; simplify_eq;
        try lia; apply I in Hk; lia.
    - unfold item_added, client_of. cbn [accepts]. rewrite accept_chunk by done.
      unfold accept_call. destruct (sm_sentRole s); simpl; rewrite String.eqb_refl; done.
    - unfold item_added. simpl. rewrite frame_text_chunk. by destruct (sm_sentRole s). }
  destruct (String.eqb_spec type "response.function_call_arguments.delta") as [Ht|_].
  { destruct (parse data ≫= _) as [a|]; intros [= <- <- <-]; rewrite Ht; [|by split_and!].
    split; [done|split; [done|]]. unfold arguments_added.
    set (key := if String.eqb (ad_ItemID a) "" then _ else _).
    destruct (sm_indices s !! key) as [i|] eqn:Hk; [|by split_and!].
    pose proof (si_indices _ Hi _ _ Hk) as Hb. split; [split; [|done]|done].
    assert (Hrole : sm_sentRole s = true).
    { apply (si_role _ Hi). rewrite (si_had _ Hi). apply Z.ltb_lt. lia. }
    unfold client_of. cbn [accepts]. rewrite accept_chunk by done. rewrite Hrole. unfold accept_call. simpl.
    rewrite decide_True; [done|]. apply list_elem_of_fmap. exists i. split; [done|]. apply elem_of_seqZ. lia. }
  destruct (String.eqb_spec type "response.completed") as [Ht|Hc].
  { intros [= <- <- <-]. rewrite Ht. split; [done|split; [done|split; [split; [|done]|]]].
    - unfold completed. cbn [accepts]. rewrite accept_finish by done.
      unfold client_of; cbn [cl_calls]. rewrite (si_had _ Hi), String.eqb_refl. done.
    - unfold completed. cbn [frames_text foldr]. by rewrite frame_text_finish. }
  case_decide as Hf.
  - intros [= <- <- <-]. fold type. split; [done|split; [done|split]].
    + split; [done|]. unfold terminal. rewrite (bool_decide_true _ Hf), orb_true_r. split; [done|]. by split.
    + done.
  - intros [= <- <- <-]. fold type. split; [done|split; [done|split]].
    + split; [done|]. unfold terminal. rewrite (bool_decide_false _ Hf), orb_false_r. by apply String.eqb_neq.
    + done.
Qed.

Lemma until_terminal_cons type data events :
  until_terminal ((type, data) :: events) =
  if terminal type then ("", Some (type, data))
  else
    ((if String.eqb type "response.output_text.delta"
      then default "" (parse data ≫= unmarshal "" d_delta) else "") +:+ (until_terminal events).1,
     (until_terminal events).2).
Proof. simpl. destruct (terminal type); [done|]. by destruct (until_terminal events). Qed.

Lemma terminal_no_text type : terminal type = true → String.eqb type "response.output_text.delta" = false.
Proof.
  intros [-> |[Hf _]]%terminal_cases; [done|]. apply String.eqb_neq. intros ->. by apply not_failure in Hf.
Qed.

Lemma until_terminal_terminal events type data :
  (until_terminal events).2 = Some (type, data) → terminal type = true.
Proof.
  induction events as [|[ty d] events IH]; [done|]. rewrite until_terminal_cons.
  destruct (terminal ty) eqn:Ht; [|done]. by intros [= <- <-].
Qed.

Lemma stream_loop_spec includeUsage lines s s' fs out :
  stream_inv s → stream_loop includeUsage lines s = (s', fs, out) →
  let events := sse_events lines (sm_eventType s) in
  frames_text fs = (until_terminal events).1
  ∧ match out with
    | None => (until_terminal events).2 = None ∧ accepts (client_of s) fs = Some (client_of s')
    | Some r => ∃ type data c, (until_terminal events).2 = Some (type, data)
        ∧ accepts (client_of s) fs = Some c ∧ cl_phase c = Closed
        ∧ (r = None ↔ type = "response.completed")
    end.
Proof.
  revert s s' fs out; induction lines as [|line lines IH]; intros s s' fs out Hi; cbn [stream_loop sse_events].
  { by intros [= <- <- <-]. }
  unfold stream_line. destruct (HasPrefix line "event: ") eqn:He.
  { assert (Hi' : stream_inv (set_event (TrimPrefix line "event: ") s)) by (destruct Hi; by split).
    destruct (stream_loop _ lines _) as [[s2 fs2] out2] eqn:Hl. intros [= <- <- <-].
    exact (IH _ _ _ _ Hi' Hl). }
  destruct (HasPrefix line "data: ").
  2:{ destruct (stream_loop _ lines s) as [[s2 fs2] out2] eqn:Hl. intros [= <- <- <-].
      exact (IH _ _ _ _ Hi Hl). }
  destruct (stream_data includeUsage _ s) as [[s1 fs1] out1] eqn:Hd.
  destruct (stream_data_spec _ _ _ _ _ _ Hi Hd) as (Hi1 & Hty & Hout & Htext).
  cbv zeta. rewrite until_terminal_cons. destruct out1 as [r|].
  - destruct Hout as (Hacc & Hterm & Hr). intros [= <- <- <-]. rewrite Hterm.
    split; [by rewrite Htext, (terminal_no_text _ Hterm)|].
    eexists _, _, _. split; [done|]. split; [done|]. by split.
  - destruct Hout as (Hacc & Hterm). rewrite Hterm.
    destruct (stream_loop _ lines s1) as [[s2 fs2] out2] eqn:Hl. intros [= <- <- <-].
    destruct (IH _ _ _ _ Hi1 Hl) as [Ht Ho]. rewrite Hty in Ht, Ho.
    split; [by rewrite frames_text_app, Htext, Ht|]. cbn [snd].
    rewrite accepts_app, Hacc. simpl. done.
Qed.

Lemma new_stream_inv chatID created : stream_inv (new_stream chatID created).
Proof. split; simpl; [lia|done|done|]. intros k i. by rewrite lookup_empty. Qed.

Lemma streamResponsesAsChat_spec chatID created includeUsage b fs err :
  streamResponsesAsChat chatID created includeUsage b = (fs, err) →
  frames_text fs = upstream_text b
  ∧ ∃ c, accepts (mkClient false 0 Streaming) fs = Some c
  ∧ match upstream_end b with
    | Some (type, _) => cl_phase c = Closed ∧ (err = None ↔ type = "response.completed")
    | None => cl_phase c = Streaming ∧ err ≠ None
    end.
Proof.
  unfold streamResponsesAsChat, upstream_text, upstream_end.
  destruct (scan b) as [lines scanErr]. cbn [fst].
  destruct (stream_loop _ lines _) as [[s fs'] out] eqn:Hl. intros [= <- <-].
  destruct (stream_loop_spec _ _ _ _ _ _ (new_stream_inv _ _) Hl) as [Ht Ho].
  change (sm_eventType (new_stream chatID created)) with "" in *.
  change (client_of (new_stream chatID created)) with (mkClient false 0 Streaming) in *.
  split; [done|]. destruct out as [r|].
  - destruct Ho as (type & data & c & -> & Ha & Hc & Hr). eauto.
  - destruct Ho as [-> Ha]. eexists; split; [done|]. split; [done|]. by destruct scanErr.
Qed.

(** ** The merged response *)

(** The fields of the struct but [output] leave the output alone. *)
Lemma other_field_keeps_output key d v r r' :
  key ≠ "output" → EqualFold "output" key = false →
  find_field result_fields key = Some d → d v r = Some r' → rs_Output r' = rs_Output r.
Proof.
  intros Hne Hf Hfind Hd.
  assert (Hfield : ∃ f, f ∈ result_fields ∧ f.1 ≠ "output" ∧ f.2 = d).
  { destruct (find_field_elem _ _ _ Hfind) as (f & Hin & Hfd & Hk). exists f. split; [done|].
    split; [|done]. intros Ho. rewrite Ho in Hk. destruct Hk; congruence. }
  destruct Hfield as (f & Hf' & Hno & <-). unfold result_fields in Hf'.
  repeat (apply elem_of_cons in Hf' as [-> |Hf']; [try (by destruct Hno);
    simpl in Hd; apply fmap_Some in Hd as (x & _ & ->); done|]).
  by apply not_elem_of_nil in Hf'.
Qed.

Lemma output_field v r : ∃ d, find_field result_fields "output" = Some d
  ∧ d v r = (λ x, mkResult (rs_ID r) (rs_Object r) (rs_CreatedAt r) (rs_Model r) x (rs_Usage r) (rs_Error r))
              <$> d_list zero_output d_output v (rs_Output r).
Proof. eexists. split; [reflexivity|]. done. Qed.

(** The output of a decoded response is that of its last member of this name. *)
Lemma decoded_output l r :
  (∀ kv, kv ∈ l → EqualFold "output" kv.1 = true → kv.1 = "output") →
  foldl (d_member result_fields) (Some zero_result) l = Some r →
  match foldl (λ (m : gmap string json) kv, <[kv.1 := kv.2]> m) ∅ l !! "output" with
  | Some x => d_list zero_output d_output x [] = Some (rs_Output r)
  | None => rs_Output r = []
  end.
Proof.
  revert r; induction l as [|[k v] l IH] using rev_ind; intros r Hk.
  { simpl. rewrite lookup_empty. by intros [= <-]. }
  rewrite !foldl_app. simpl. intros Hr. unfold d_member in Hr at 1.
  destruct (foldl (d_member result_fields) (Some zero_result) l) as [r0|] eqn:H0; [|done]. simpl in Hr.
  assert (IH0 := IH r0 ltac:(intros kv Hkv; apply Hk, elem_of_app; by left) eq_refl).
  rewrite lookup_insert. case_decide as Heq.
  - subst k. destruct (output_field v r0) as (d & Hd & Hdv). rewrite Hd, Hdv in Hr.
    apply fmap_Some in Hr as (x & Hx & ->). simpl. destruct v; done.
  - assert (Hout : rs_Output r = rs_Output r0).
    { destruct (find_field result_fields k) as [d|] eqn:Hd; [|by injection Hr as <-].
      destruct (EqualFold "output" k) eqn:Hf.
      - exfalso. apply Heq, (Hk (k, v)); [|done]. apply elem_of_app. right. by apply list_elem_of_singleton.
      - eapply other_field_keeps_output; [..|exact Hd|exact Hr]; [congruence|done]. }
    rewrite Hout. done.
Qed.

(** A response that carries no output: every member read as [output] has this very
    name and is [null] or empty. *)
Definition no_output (v : json) (env : gmap string json) : Prop :=
  raw_map v = Some (Some env)
  ∧ ∀ k x, env !! k = Some x → EqualFold "output" k = true → k = "output" ∧ (x = JNull ∨ x = JArr []).

Lemma foldl_insert_dom (l : list (string * json)) (m : gmap string json) kv :
  kv ∈ l → is_Some (foldl (λ m kv, <[kv.1 := kv.2]> m) m l !! kv.1).
Proof.
  revert m; induction l as [|kv' l IH] using rev_ind; intros m; [by intros ?%not_elem_of_nil|].
  rewrite foldl_app. simpl. rewrite lookup_insert. intros [Hl| ->%list_elem_of_singleton]%elem_of_app.
  - case_decide; [done|]. by apply IH.
  - by rewrite decide_True.
Qed.

(** The text of a whole answer; [None] for an error. *)
Definition answer_text (answer : json) : option string :=
  ((choice answer ≫= member "message") ≫= member "content") ≫= unmarshal "" d_string.

Lemma answer_text_completion body r answer :
  decode_raw zero_result d_result body = Some r → responsesToChatCompletion body = Ok answer →
  answer_text answer = match rs_Error r with Some _ => None | None => Some (completion_text r) end.
Proof.
  intros Hd. unfold responsesToChatCompletion. rewrite Hd. destruct (rs_Error r) as [e|]; [by intros [= <-]|].
  intros [= <-]. by destruct (rs_Usage r), (omap item_call (rs_Output r)).
Qed.

Lemma merged_text v env text body answer :
  no_output v env → mergeAccumulatedText (Some v) text = Returns body →
  responsesToChatCompletion body = Ok answer → ∀ t, answer_text answer = Some t → t = text.
Proof.
  intros [Hm Hno] Hmerge Hans t Ht. unfold mergeAccumulatedText in Hmerge.
  assert (Hdec : ∃ r, decode_raw zero_result d_result body = Some r).
  { unfold responsesToChatCompletion in Hans. destruct (decode_raw _ _ body); [eauto|done]. }
  destruct Hdec as [r Hr]. rewrite (answer_text_completion _ _ _ Hr Hans) in Ht.
  destruct (rs_Error r); [done|]. injection Ht as <-.
  destruct (String.eqb_spec text "") as [-> |Htext].
  - injection Hmerge as <-. destruct v as [| | | | |l]; try done. unfold raw_map in Hm. injection Hm as Hm.
    assert (Hkeys : ∀ kv, kv ∈ l → EqualFold "output" kv.1 = true → kv.1 = "output").
    { intros kv Hkv He. destruct (foldl_insert_dom l ∅ kv Hkv) as [x Hx]. rewrite Hm in Hx.
      by apply (Hno _ _ Hx). }
    pose proof (decoded_output l r Hkeys Hr) as Ho. rewrite Hm in Ho. unfold completion_text.
    destruct (env !! "output") as [x|] eqn:Hx.
    + destruct (Hno _ _ Hx eq_refl) as [_ [-> | ->]]; simpl in Ho; injection Ho as <-; done.
    + by rewrite Ho.
  - cbn [mbind option_bind] in Hmerge. rewrite Hm in Hmerge.
    assert (He : match env !! "output" with Some (JArr l) => l | _ => [] end = []).
    { destruct (env !! "output") as [x|] eqn:Hx; [|done].
      by destruct (Hno _ _ Hx eq_refl) as [_ [-> | ->]]. }
    rewrite He in Hmerge. injection Hmerge as <-.
    set (syn := JArr _) in Hr. set (m := <["output" := syn]> env) in Hr.
    assert (Hraw : raw_map (obj_of_map m) = Some (Some m)) by apply raw_map_obj_of_map.
    unfold obj_of_map, obj in Hraw, Hr. injection Hraw as Hraw.
    assert (Hkeys : ∀ kv, kv ∈ sort_members (map_to_list m) → EqualFold "output" kv.1 = true → kv.1 = "output").
    { intros kv Hkv Hf. rewrite sort_members_perm in Hkv. destruct kv as [k x]. apply elem_of_map_to_list in Hkv.
      unfold m in Hkv. rewrite lookup_insert in Hkv. case_decide; [done|]. by apply (Hno _ _ Hkv). }
    pose proof (decoded_output _ r Hkeys Hr) as Ho. rewrite Hraw in Ho. unfold m in Ho.
    rewrite lookup_insert_eq in Ho. unfold completion_text.
    assert (Hsyn : d_list zero_output d_output syn []
      = Some [mkOutput "message" "" "assistant" "" "" "" [mkPart "output_text" text]]) by reflexivity.
    rewrite Hsyn in Ho. injection Ho as <-. simpl. unfold item_text. simpl. by rewrite !str_app_nil_r.
Qed.

(** ** Properties *)

(** C16. A streamed answer is a well-formed chunk stream.  Whatever events upstream
    sends, a client that reads the frames accepts all of them: the role comes once
    and first, each announced tool call takes the next index and every fragment
    belongs to an announced one, the finish reason says whether there were tool
    calls, and nothing follows the end marker.  The stream is closed exactly when
    upstream sent a terminal event, the function succeeds exactly when that event was
    [response.completed], and the text the client collects is the text upstream
    sent before it. *)
Theorem chat_stream_is_well_formed chatID created includeUsage b fs err :
  streamResponsesAsChat chatID created includeUsage b = (fs, err) →
  ∃ c, accepts (mkClient false 0 Streaming) fs = Some c
  ∧ (cl_phase c = Closed ↔ is_Some (upstream_end b))
  ∧ (err = None ↔ ∃ data, upstream_end b = Some ("response.completed", data))
  ∧ frames_text fs = upstream_text b.
Proof.
  intros Hs. destruct (streamResponsesAsChat_spec _ _ _ _ _ _ Hs) as (Ht & c & Ha & He).
  exists c. split; [done|]. destruct (upstream_end b) as [[type data]|].
  - destruct He as [Hc He]. split; [split; [by eexists|done]|]. split; [|done]. rewrite He.
    split; [intros ->; by exists data|by intros [? [= ->]]].
  - destruct He as [Hc He]. split; [split; [by rewrite Hc|by intros []]|]. split; [|done].
    split; [done|]. by intros [].
Qed.

(** C15. Both paths give the same text.  When an upstream stream completes with a
    response that carries no output of its own, as the ChatGPT transport does, the
    text of the answer a non-streaming client gets is the text a streaming client
    collects from its chunks. *)
Theorem streamed_text_is_aggregated_text chatID created includeUsage b fs data v env body answer t :
  streamResponsesAsChat chatID created includeUsage b = (fs, None) →
  upstream_end b = Some ("response.completed", data) →
  parse data ≫= unmarshal None d_completed = Some (Some v) → no_output v env →
  aggregateSSEToCompletion b = Returns (Ok body) → responsesToChatCompletion body = Ok answer →
  answer_text answer = Some t → t = frames_text fs.
Proof.
  intros Hs He Hv Hno Hagg Hans Ht.
  destruct (streamResponsesAsChat_spec _ _ _ _ _ _ Hs) as (Htext & _). rewrite Htext.
  unfold aggregateSSEToCompletion in Hagg. destruct (scan b) as [lines scanErr] eqn:Hscan.
  rewrite aggregate_loop_events in Hagg. unfold upstream_end, upstream_text in *. rewrite Hscan in *. cbn [fst] in *.
  destruct (until_terminal _) as [text last]. cbn [fst snd] in *. rewrite He in Hagg.
  unfold aggregate_data in Hagg. simpl in Hagg. rewrite Hv in Hagg.
  destruct (mergeAccumulatedText (Some v) text) as [body'|] eqn:Hm; [|done]. injection Hagg as ->.
  exact (merged_text _ _ _ _ _ Hno Hm Hans _ Ht).
Qed.

(** *** Requests of the chat path *)

(** What the native transport expects of a request. *)
Definition native_request (m : gmap string json) : Prop :=
  ∀ k x, m !! k = Some x → k ∈ chatGPTCodexAllowedKeys ∧ (k = "input" → ∃ l, x = JArr l).

Lemma native_insert k x m :
  native_request m → k ∈ chatGPTCodexAllowedKeys → (k = "input" → ∃ l, x = JArr l) →
  native_request (<[k := x]> m).
Proof. intros Hm Hk Hx k' x'. rewrite lookup_insert. case_decide; [|apply Hm]. by intros [= <-]; subst. Qed.

Lemma native_copy raw keys m :
  (∀ k, k ∈ keys → k ∈ chatGPTCodexAllowedKeys ∧ k ≠ "input") →
  native_request m → native_request (foldl (copy_key raw) m keys).
Proof.
  revert m; induction keys as [|k keys IH]; intros m Hk Hm; simpl; [done|].
  apply IH; [intros k' ?; apply Hk; by right|]. unfold copy_key. destruct (raw !! k); [|done].
  destruct (Hk k) as [Ha Hi]; [by left|]. by apply native_insert.
Qed.

Lemma codex_request_native chatBody j u :
  buildChatGPTCodexRequest chatBody = Ok (j, u) →
  ∃ m, j = obj_of_map (<["store" := JBool false]> (<["stream" := JBool true]> m)) ∧ native_request m.
Proof.
  unfold buildChatGPTCodexRequest. intros Hb.
  apply bind_result_Ok in Hb as (raw & _ & Hb).
  apply bind_result_Ok in Hb as (out0 & H0 & Hb).
  apply bind_result_Ok in Hb as (out1 & H1 & Hb).
  destruct (find_index _ _) as [[i ?]|]; [done|]. injection Hb as <- _.
  exists out1. split; [done|].
  assert (N0 : native_request out0).
  { destruct (raw !! "messages") as [messages|]; [|by injection H0 as <-; intros k x; rewrite lookup_empty].
    apply bind_result_Ok in H0 as ([instructions input] & Hx & H0). injection H0 as <-.
    unfold extractMessages in Hx. destruct (unmarshal _ _ messages); [|done].
    apply bind_result_Ok in Hx as ([parts items] & _ & Hx). injection Hx as _ <-.
    apply native_insert; [|listed|by eexists]. apply native_insert; [|listed|done].
    intros k x. by rewrite lookup_empty. }
  assert (N1 : native_request (with_default_instructions out0)).
  { unfold with_default_instructions. destruct (out0 !! "instructions"); [done|].
    apply native_insert; [done|listed|done]. }
  assert (N2 : native_request (foldl (copy_key raw) (with_default_instructions out0) copied_keys)).
  { apply native_copy; [|done]. clear. intros k Hk. unfold copied_keys in Hk.
    repeat (apply elem_of_cons in Hk as [-> |Hk]; [split; [listed|done]|]). by apply not_elem_of_nil in Hk. }
  set (out2 := match raw !! "tools" with Some tools => _ | None => _ end) in *.
  assert (N3 : native_request out2).
  { unfold out2. destruct (raw !! "tools"); [|done]. apply native_insert; [done|listed|done]. }
  destruct (raw !! "response_format"); [|by injection H1 as <-].
  apply bind_result_Ok in H1 as (text & _ & H1). injection H1 as <-.
  apply native_insert; [done|listed|done].
Qed.

(** The chat path keeps the transport's contract.  Whatever chat request is
    accepted, the request built from it for the ChatGPT transport has only fields
    the transport takes, asks for a stream and for no storage; that is, the checks
    of the native path accept it and leave it unchanged. *)
Theorem codex_request_is_native visit chatBody j u body :
  buildChatGPTCodexRequest chatBody = Ok (j, u) → parse body = Some j →
  (∀ m, visit m ≡ₚ map_to_list m) →
  buildChatGPTNativeResponsesRequest visit body = Ok (j, true).
Proof.
  intros Hb Hp Hvisit. destruct (codex_request_native _ _ _ Hb) as (m & -> & Hm).
  set (m' := <["store" := JBool false]> (<["stream" := JBool true]> m)) in *.
  assert (Hm' : native_request m').
  { apply native_insert; [apply native_insert; [done|listed|done]|listed|done]. }
  assert (Hstore : m' !! "store" = Some (JBool false)) by (unfold m'; by rewrite lookup_insert_eq).
  assert (Hstream : m' !! "stream" = Some (JBool true)).
  { unfold m'. by rewrite lookup_insert_ne, lookup_insert_eq. }
  unfold buildChatGPTNativeResponsesRequest, body_map. rewrite Hp. cbn [mbind option_bind].
  rewrite raw_map_obj_of_map. cbn [bind_result default].
  assert (Hnone : find_index (λ kv : string * json,
      if decide (kv.1 ∈ chatGPTCodexAllowedKeys) then None else Some kv.1) (visit m') = None).
  { apply find_index_None. intros [k x] Hk. rewrite Hvisit in Hk. apply elem_of_map_to_list in Hk.
    destruct (Hm' _ _ Hk) as [Ha _]. simpl. by rewrite decide_True. }
  unfold default, id. rewrite Hnone.
  assert (Hinput : m' !! "input" ≫= unmarshal "" d_string = None).
  { destruct (m' !! "input") as [x|] eqn:Hx; [|done]. destruct (Hm' _ _ Hx) as [_ Hl].
    by destruct (Hl eq_refl) as [l ->]. }
  rewrite Hinput. rewrite (insert_id _ _ _ Hstream), (insert_id _ _ _ Hstore).
  unfold wants_stream. rewrite Hstream. done.
Qed.

(** *** Failures upstream *)

Lemma aggregation_of_failure b type data :
  upstream_end b = Some (type, data) → type ≠ "response.completed" →
  aggregateSSEToCompletion b = Returns (Err (UpstreamFailure type)).
Proof.
  intros He Hne. unfold aggregateSSEToCompletion, upstream_end in *. destruct (scan b) as [lines scanErr].
  rewrite aggregate_loop_events. cbn [fst] in He.
  destruct (until_terminal _) as [text last] eqn:Hu. cbn [snd] in He. subst last.
  assert (Ht : terminal type = true) by by eapply until_terminal_terminal; rewrite Hu.
  unfold aggregate_data. destruct (terminal_cases _ Ht) as [?|[Hf _]]; [done|].
  rewrite (terminal_no_text _ Ht). rewrite (proj2 (String.eqb_neq _ _) Hne). by rewrite decide_True.
Qed.

(** A failure upstream reaches a non-streaming client as an empty success.  When
    an upstream stream (which always starts with status 200) ends with a failure
    event, the adapter writes nothing for a client that does not stream, and returns
    an error; the failover loop then commits the implicit 200 of the attempt: the
    client gets status 200 with no answer, and no other target is tried. *)
Theorem upstream_failure_is_sent_as_success `{JSON} fuel e n requestedModel capability body attemptBody
    route attempted w d chatID created r upstreamSSE includeUsage type data :
  (r_StatusCode r < 400)%Z → is_sse r upstreamSSE = true →
  upstream_end (r_body r) = Some (type, data) → type ≠ "response.completed" →
  handleResponsesAPIResponse chatID created r false upstreamSSE includeUsage
    = Returns (behave e n (p_ID (res_Provider route)) attemptBody capability) →
  Selection route = Some d → body_for body requestedModel (ResolvedModel route) = Returns attemptBody →
  rw_headersSent (w_client w) = false → rw_broken (w_client w) = None →
  ∃ w' a, failover_loop (S fuel) e n requestedModel capability body route attempted w
    = Some (w', [a], Returns (Some (plain (UpstreamFailure type))))
    ∧ at_committed a = true ∧ rw_statusCode (w_client w') = StatusOK
    ∧ rw_body (w_client w') = rw_body (w_client w) +:+ rewriteModelJSON "" requestedModel.
Proof.
  intros Hs Hsse He Hne Hh Hsel Hbody Hh' Hbr. unfold handleResponsesAPIResponse in Hh.
  rewrite (proj2 (Z.leb_gt _ _) Hs), Hsse in Hh. cbn [negb] in Hh.
  rewrite (aggregation_of_failure _ _ _ He Hne) in Hh. injection Hh as Hh.
  by eapply silent_failure_is_sent_as_success.
Qed.

(** A response that is [null] makes the merge of a streamed text panic. *)
Lemma null_response_panics b data :
  upstream_end b = Some ("response.completed", data) → upstream_text b ≠ "" →
  parse data ≫= unmarshal None d_completed = Some (Some JNull) →
  aggregateSSEToCompletion b = Panics.
Proof.
  intros He Ht Hd. unfold aggregateSSEToCompletion, upstream_end, upstream_text in *.
  destruct (scan b) as [lines scanErr]. rewrite aggregate_loop_events. cbn [fst] in *.
  destruct (until_terminal _) as [text last]. cbn [fst snd] in *. rewrite He.
  unfold aggregate_data. simpl. rewrite Hd. unfold mergeAccumulatedText.
  by rewrite (proj2 (String.eqb_neq _ _) Ht).
Qed.

End adapter.

(** ** Concrete streams *)

Module Example.

(** A reader that knows a few texts. *)
Definition texts : list (string * json) :=
  [("{created}", JObj [("response", JObj [("id", JStr "resp_1"); ("model", JStr "gpt-5")])]);
   ("{hel}", JObj [("delta", JStr "hel")]);
   ("{lo}", JObj [("delta", JStr "lo")]);
   ("{item}", JObj [("item", JObj [("id", JStr "fc_1"); ("type", JStr "function_call");
      ("call_id", JStr "call_1"); ("name", JStr "f")])]);
   ("{args}", JObj [("item_id", JStr "fc_1"); ("delta", JStr "{}")]);
   ("{done}", JObj [("response", JObj [("id", JStr "resp_1"); ("output", JArr []);
      ("usage", JObj [("output_tokens", JNum "2")])])]);
   ("{null}", JObj [("response", JNull)]);
   ("{chat}", JObj [("model", JStr "gpt-5"); ("stream", JBool false);
      ("messages", JArr [JObj [("role", JStr "system"); ("content", JStr "be brief")];
                         JObj [("role", JStr "user"); ("content", JStr "hi")]])]);
   ("{native}", JObj [("input", JArr [JObj [("content", JStr "hi"); ("role", JStr "user")]]);
      ("instructions", JStr "be brief"); ("model", JStr "gpt-5"); ("store", JBool false);
      ("stream", JBool true)]);
   ("{limits}", JObj [("max_tokens", JNum "1"); ("max_completion_tokens", JNum "2")])].

Definition parse (s : string) : option json :=
  snd <$> find_index (λ kv : string * json, if String.eqb kv.1 s then Some kv.2 else None) texts.
Definition marshal (j : json) : string := "{}".
Definition raw_text (j : json) : string := "{}".

Definition event (type data : string) : string :=
  "event: " +:+ type +:+ newline +:+ "data: " +:+ data +:+ newline +:+ newline.

Definition upstream (events : list (string * string)) : upstream_body :=
  mkBody (foldr (λ e s, event e.1 e.2 +:+ s) "" events) None.

Definition hello : upstream_body := upstream
  [("response.created", "{created}"); ("response.output_text.delta", "{hel}");
   ("response.in_progress", "{}"); ("response.output_text.delta", "{lo}"); ("response.completed", "{done}")].

Definition calls : upstream_body := upstream
  [("response.created", "{created}"); ("response.output_item.added", "{item}");
   ("response.function_call_arguments.delta", "{args}"); ("response.completed", "{done}")].

Definition failing : upstream_body := upstream
  [("response.output_text.delta", "{hel}"); ("response.failed", "{}")].

Definition streamed (b : upstream_body) : list frame * option error :=
  streamResponsesAsChat parse "chatcmpl-1" 1700 true b.

(** Which of two limits is kept depends on the order of a map. *)
Example two_limits_race :
  fst <$> match buildPlatformResponsesRequest parse raw_text map_to_list "{limits}" with Ok x => Some x | Err _ => None end
  ≠ fst <$> match buildPlatformResponsesRequest parse raw_text (λ m, reverse (map_to_list m)) "{limits}"
            with Ok x => Some x | Err _ => None end.
Proof. vm_compute. discriminate. Qed.

Example null_response : aggregateSSEToCompletion parse (upstream
  [("response.output_text.delta", "{hel}"); ("response.completed", "{null}")]) = Panics.
Proof. apply (null_response_panics parse _ "{null}"); [reflexivity|vm_compute; discriminate|reflexivity]. Qed.

End Example.

Lemma chat_stream_is_well_formed_witness :
  ∃ c, accepts (mkClient false 0 Streaming) (fst (Example.streamed Example.calls)) = Some c
    ∧ cl_phase c = Closed ∧ cl_calls c = 1%Z.
Proof.
  destruct (chat_stream_is_well_formed Example.parse "chatcmpl-1" 1700 true Example.calls
    (fst (Example.streamed Example.calls)) (snd (Example.streamed Example.calls)))
    as (c & Hc & Hcl & _); [apply surjective_pairing|].
  assert (Hn : cl_calls <$> accepts (mkClient false 0 Streaming) (fst (Example.streamed Example.calls)) = Some 1%Z)
    by (vm_compute; reflexivity).
  exists c. rewrite Hc in Hn. injection Hn as Hn. split; [exact Hc|]. split; [|exact Hn].
  apply Hcl. vm_compute. eexists. reflexivity.
Defined.

Lemma streamed_text_is_aggregated_text_witness :
  ∃ body answer, aggregateSSEToCompletion Example.parse Example.hello = Returns (Ok body)
    ∧ responsesToChatCompletion Atoi body = Ok answer
    ∧ answer_text answer = Some "hello" ∧ "hello" = frames_text (fst (Example.streamed Example.hello)).
Proof.
  destruct (aggregateSSEToCompletion Example.parse Example.hello) as [[body|e]|] eqn:Ha;
    [|vm_compute in Ha; discriminate Ha|vm_compute in Ha; discriminate Ha].
  destruct (responsesToChatCompletion Atoi body) as [answer|e] eqn:Hr;
    [|vm_compute in Ha; injection Ha as <-; vm_compute in Hr; discriminate Hr].
  assert (Ht : answer_text answer = Some "hello").
  { vm_compute in Ha. injection Ha as <-. vm_compute in Hr. injection Hr as <-. vm_compute. reflexivity. }
  exists body, answer. split; [reflexivity|]. split; [exact Hr|]. split; [exact Ht|].
  refine (streamed_text_is_aggregated_text Example.parse Atoi "chatcmpl-1" 1700 true Example.hello
    (fst (Example.streamed Example.hello)) "{done}" _ _ body answer "hello" _ _ _ _ Ha Hr Ht).
  - vm_compute. reflexivity.
  - vm_compute. reflexivity.
  - vm_compute. reflexivity.
  - split; [reflexivity|]. intros k x. cbn [foldl fst snd]. rewrite !lookup_insert_Some, lookup_empty.
    intros [[<- <-]|[_ [[<- <-]|[_ [[<- <-]|[_ ?]]]]]]; [discriminate| |discriminate|discriminate].
    intros _. split; [reflexivity|right; reflexivity].
Defined.

Lemma codex_request_is_native_witness :
  ∃ j, buildChatGPTCodexRequest Example.parse Example.raw_text "{chat}" = Ok (j, false)
    ∧ buildChatGPTNativeResponsesRequest Example.parse map_to_list "{native}" = Ok (j, true).
Proof.
  eexists. split; [vm_compute; reflexivity|].
  refine (codex_request_is_native Example.parse Example.raw_text map_to_list "{chat}" _ false "{native}" _ _ _).
  - vm_compute. reflexivity.
  - vm_compute. reflexivity.
  - intros m. reflexivity.
Defined.

(** A provider that answers with a stream that fails. *)
Definition failing_response : http_response := mkResponse 200 "text/event-stream" [] Example.failing.
Definition failing_env : env :=
  mkEnv (λ _ _ _ _,
           match handleResponsesAPIResponse Example.parse Example.marshal Atoi "chatcmpl-1" 1700
                   failing_response false false false with
           | Returns x => x | Panics => ([], None) end)
    (λ _, 200%Z) (λ _, 300%Z) (λ _, None) (λ _, None) (λ _, example_clock 400) true.

Lemma upstream_failure_is_sent_as_success_witness :
  ∃ w' a, failover_loop 2 failing_env 1 "best" CapabilityChat "{m}" codex_route ∅ example_world
    = Some (w', [a], Returns (Some (plain (UpstreamFailure "response.failed"))))
    ∧ at_committed a = true ∧ rw_statusCode (w_client w') = StatusOK
    ∧ rw_body (w_client w') = rw_body (w_client example_world) +:+ rewriteModelJSON "" "best".
Proof.
  refine (upstream_failure_is_sent_as_success Example.parse Example.marshal Atoi 1 failing_env 1 "best"
    CapabilityChat "{m}" "{gpt-5}" codex_route ∅ example_world example_decision "chatcmpl-1" 1700
    failing_response false false "response.failed" "{}" _ _ _ _ _ _ _ _ _); try reflexivity.
  discriminate.
Defined.
