(* ===== verification/Transport.v ===== *)
(** * What the providers share: calling upstream and passing an answer on

    [streamResponse] and [copyHeaders] of [src/src/proxy.go]; a call through
    [makeRequestWithRetry] ([Upstream]) with the whole answer; the outcome reported to
    the breaker; and the signs of a limited account of
    [src/src/copilot_provider.go], which the Codex provider uses too. *)

From S2P Require Import Prelude GoStd Provider Config Availability Cooldown Routing Telemetry.
From S2P Require Import Writers Usage Failover GoJson Upstream Responses.

(** [cuts] are the reads of a stream; a body that is not streamed is copied. *)
(* src/src/proxy.go streamResponse *)
(* src/src/proxy.go copyHeaders *)
Definition streamResponse (cuts : list string) (r : http_response) : list action * option perr :=
  (map (λ kv, ASetHeader kv.1 kv.2) (r_headers r) ++ [AWriteHeader (r_StatusCode r)]
   ++ (if Contains (r_ContentType r) "text/event-stream"
       then mjoin ((λ c, [AWrite c; AFlush]) <$> cuts) else [AWrite (ub_text (r_body r))]),
   (λ e, mkPerr "read error" e None) <$> ub_error (r_body r)).

(** A call to an upstream service: [serve n] is the answer to the n-th request, [None]
    when the client gets none. *)
Record upstream := mkUpstream { serve : nat → option http_response; cancelled : nat → bool }.

Definition answer_of (u : upstream) (n : nat) : answer :=
  match serve u n with Some r => Status (r_StatusCode r) | None => CallFailed end.

(** The answer the retries end with: that of the last request made. *)
Definition send (method : string) (hasIdempotencyKey request_ok : bool) (u : upstream)
    : nat * result http_response retry_error :=
  let '(n, r) := makeRequestWithRetry method hasIdempotencyKey request_ok (answer_of u) (cancelled u) in
  (n, match r with
      | Err e => Err e
      | Ok _ => match serve u n with Some response => Ok response | None => Err CallError end
      end).

(** What the provider tells its breaker about an answer. *)
Definition report (now : Time) (status : Z) (cb : CircuitBreaker) : CircuitBreaker :=
  if (500 <=? status)%Z then onFailure now cb else onSuccess cb.

(** Whether the half-open probe of a breaker is under way. *)
Definition probing (cb : CircuitBreaker) : bool :=
  match cb_state cb with CircuitHalfOpen => probeInFlight cb | _ => false end.

Lemma report_ends_probe now status cb : probing (report now status cb) = false.
Proof.
  unfold probing, report, onFailure, onSuccess. destruct (500 <=? status)%Z; simpl; [|done].
  by repeat case_match.
Qed.

Lemma failure_ends_probe now cb : probing (onFailure now cb) = false.
Proof. unfold probing, onFailure. simpl. by repeat case_match. Qed.

(** ** The signs of a limited account *)

(** The first bytes of the body, which stays readable; none when reading them fails. *)
(* src/src/copilot_provider.go readAndResetResponseBody *)
Definition readAndResetResponseBody (r : http_response) : string :=
  let text := ub_text (r_body r) in
  if (4096 <? String.length text)%nat then str_take 4096 text
  else match ub_error (r_body r) with Some _ => "" | None => text end.

Inductive limit_reason := rate_limited | quota_exhausted.

(* src/src/copilot_provider.go isAccountLimitSignal *)
Definition isAccountLimitSignal (r : http_response) : option limit_reason :=
  if (r_StatusCode r =? StatusTooManyRequests)%Z then Some rate_limited
  else if (r_StatusCode r =? StatusForbidden)%Z then
    let preview := ToLower (readAndResetResponseBody r) in
    if Contains preview "rate limit" || Contains preview "exceeded" || Contains preview "quota"
    then Some quota_exhausted else None
  else None.

Inductive shift_reason := transient_upstream_error | model_unavailable.

(* src/src/copilot_provider.go shouldShiftToNextCopilotModel *)
Definition shouldShiftToNextCopilotModel (r : http_response) : option shift_reason :=
  let status := r_StatusCode r in
  if (status =? StatusRequestTimeout)%Z || (status =? StatusTooManyRequests)%Z || (500 <=? status)%Z
  then Some transient_upstream_error
  else if (status =? StatusBadRequest)%Z || (status =? StatusNotFound)%Z || (status =? StatusConflict)%Z then
    let preview := ToLower (readAndResetResponseBody r) in
    if Contains preview "model" &&
       (Contains preview "unsupported" || Contains preview "not available"
        || Contains preview "not found" || Contains preview "unavailable")
    then Some model_unavailable else None
  else None.

(** A limit signal is a 429 or a 403. *)
Lemma limit_signal_status r reason :
  isAccountLimitSignal r = Some reason → r_StatusCode r = 429%Z ∨ r_StatusCode r = 403%Z.
Proof.
  unfold isAccountLimitSignal, StatusTooManyRequests, StatusForbidden.
  destruct (Z.eqb_spec (r_StatusCode r) 429); [by left|].
  destruct (Z.eqb_spec (r_StatusCode r) 403); [by right|done].
Qed.
