(* ===== verification/AnthropicRequest.v ===== *)
(** * The Anthropic facade: requests

    [src/src/anthropic_types.go], [anthropic_translate.go] and
    [anthropic_options.go]: a Messages request becomes a native Responses request,
    or is refused.  Values and decoders are those of [GoJson]; [parse] reads a text,
    [raw_text] is the text a value has in the request, and [float_text] is the text
    a [float64] literal is written back as. *)

From S2P Require Import Prelude GoStd Writers GoJson Responses.

Definition anthropicRequestLimit : Z := 5 * 1024 * 1024.
Definition anthropicToolSchemaLimit : Z := 256 * 1024.

Inductive anthropic_error :=
| ParseRequest | UnsupportedField (field : string) | DecodeRequest | ModelRequired | MaxTokensNotPositive
| SystemForm | SystemBlockType (type : string) | NoMessages | MessageRole (role : string) | ContentForm
| ImageSource | ImageNotBase64 | ToolUseForm | ToolResultForm | ToolResultIsError | ToolResultText
| BlockType (type : string) | ToolForm | ParseToolChoice | ToolChoiceName | ToolChoiceType (type : string)
| UnsupportedEffort (effort : string) | ParseFormat | FormatSchema | FormatType (type : string)
| ThinkingType (type : string).

(** ** Base64

    [base64.StdEncoding.DecodeString] succeeds on groups of four characters of the
    alphabet, the last of which may end in padding; line ends are skipped. *)

Definition base64_char (c : ascii) : bool :=
  is_lower c || is_upper c || is_digit c || is_char "+" c || is_char "/" c.

Fixpoint without_line_ends (s : string) : string :=
  match s with
  | "" => ""
  | String c s =>
    if is_char (ascii_of_nat 10) c || is_char (ascii_of_nat 13) c then without_line_ends s
    else String c (without_line_ends s)
  end.

Fixpoint base64_groups (s : string) : bool :=
  match s with
  | "" => true
  | String a (String b (String c (String d s))) =>
    base64_char a && base64_char b
    && (if is_char "=" c then is_char "=" d && String.eqb s ""
        else base64_char c && (if is_char "=" d then String.eqb s "" else base64_char d && base64_groups s))
  | _ => false
  end.

Definition base64_valid (s : string) : bool := base64_groups (without_line_ends s).

Section translate.
Context (parse : string → option json) (raw_text : json → string) (float_text : string → option string).

(** ** The types *)

(* src/src/anthropic_types.go anthropicImage *)
Record anthropicImage := mkImage { im_Type : string; im_MediaType : string; im_Data : string }.

(* src/src/anthropic_types.go anthropicContentBlock *)
Record anthropicContentBlock := mkBlock {
  bl_Type : string; bl_Text : string; bl_ID : string; bl_Name : string; bl_Input : option json;
  bl_ToolUseID : string; bl_Content : option json; bl_IsError : bool; bl_Source : option anthropicImage;
}.

(* src/src/anthropic_types.go anthropicMessage *)
Record anthropicMessage := mkAMessage { am_Role : string; am_Content : option json }.

(* src/src/anthropic_types.go anthropicTool *)
Record anthropicTool := mkATool { at_Name : string; at_Description : string; at_InputSchema : option json }.

(* src/src/anthropic_types.go anthropicOutputConfig *)
(* src/src/anthropic_types.go anthropicThinking *)
Record anthropicOutputConfig := mkOutputConfig { oc_Effort : string; oc_Format : option json }.

(** A [float64] is kept as the text it is written back as. *)
(* src/src/anthropic_types.go anthropicMessageRequest *)
Record anthropicMessageRequest := mkRequest {
  rq_Model : string; rq_System : option json; rq_Messages : list anthropicMessage; rq_MaxTokens : Z;
  rq_Tools : list anthropicTool; rq_ToolChoice : option json; rq_OutputConfig : anthropicOutputConfig;
  rq_Thinking : string; rq_Metadata : option json; rq_Stream : bool;
  rq_Temperature : option string; rq_TopP : option string;
}.

(* src/src/anthropic_types.go anthropicTranslatedRequest *)
Record anthropicTranslatedRequest := mkTranslated { tr_Model : string; tr_Body : json; tr_Stream : bool }.

Definition d_float : decoder string := λ v old,
  match v with JNum n => float_text n | JNull => Some old | _ => None end.

Definition d_image : decoder anthropicImage :=
  d_struct [
    fld "type" im_Type (λ x i, mkImage x (im_MediaType i) (im_Data i)) d_string;
    fld "media_type" im_MediaType (λ x i, mkImage (im_Type i) x (im_Data i)) d_string;
    fld "data" im_Data (λ x i, mkImage (im_Type i) (im_MediaType i) x) d_string].

Definition d_block : decoder anthropicContentBlock :=
  d_struct [
    fld "type" bl_Type (λ x b, mkBlock x (bl_Text b) (bl_ID b) (bl_Name b) (bl_Input b) (bl_ToolUseID b) (bl_Content b) (bl_IsError b) (bl_Source b)) d_string;
    fld "text" bl_Text (λ x b, mkBlock (bl_Type b) x (bl_ID b) (bl_Name b) (bl_Input b) (bl_ToolUseID b) (bl_Content b) (bl_IsError b) (bl_Source b)) d_string;
    fld "id" bl_ID (λ x b, mkBlock (bl_Type b) (bl_Text b) x (bl_Name b) (bl_Input b) (bl_ToolUseID b) (bl_Content b) (bl_IsError b) (bl_Source b)) d_string;
    fld "name" bl_Name (λ x b, mkBlock (bl_Type b) (bl_Text b) (bl_ID b) x (bl_Input b) (bl_ToolUseID b) (bl_Content b) (bl_IsError b) (bl_Source b)) d_string;
    fld "input" bl_Input (λ x b, mkBlock (bl_Type b) (bl_Text b) (bl_ID b) (bl_Name b) x (bl_ToolUseID b) (bl_Content b) (bl_IsError b) (bl_Source b)) d_raw;
    fld "tool_use_id" bl_ToolUseID (λ x b, mkBlock (bl_Type b) (bl_Text b) (bl_ID b) (bl_Name b) (bl_Input b) x (bl_Content b) (bl_IsError b) (bl_Source b)) d_string;
    fld "content" bl_Content (λ x b, mkBlock (bl_Type b) (bl_Text b) (bl_ID b) (bl_Name b) (bl_Input b) (bl_ToolUseID b) x (bl_IsError b) (bl_Source b)) d_raw;
    fld "is_error" bl_IsError (λ x b, mkBlock (bl_Type b) (bl_Text b) (bl_ID b) (bl_Name b) (bl_Input b) (bl_ToolUseID b) (bl_Content b) x (bl_Source b)) d_bool;
    fld "source" bl_Source (λ x b, mkBlock (bl_Type b) (bl_Text b) (bl_ID b) (bl_Name b) (bl_Input b) (bl_ToolUseID b) (bl_Content b) (bl_IsError b) x)
      (d_pointer (mkImage "" "" "") d_image)].

Definition zero_block : anthropicContentBlock := mkBlock "" "" "" "" None "" None false None.

Definition d_message : decoder anthropicMessage :=
  d_struct [fld "role" am_Role (λ x m, mkAMessage x (am_Content m)) d_string;
            fld "content" am_Content (λ x m, mkAMessage (am_Role m) x) d_raw].

Definition d_tool : decoder anthropicTool :=
  d_struct [
    fld "name" at_Name (λ x t, mkATool x (at_Description t) (at_InputSchema t)) d_string;
    fld "description" at_Description (λ x t, mkATool (at_Name t) x (at_InputSchema t)) d_string;
    fld "input_schema" at_InputSchema (λ x t, mkATool (at_Name t) (at_Description t) x) d_raw].

Definition d_output_config : decoder anthropicOutputConfig :=
  d_struct [fld "effort" oc_Effort (λ x c, mkOutputConfig x (oc_Format c)) d_string;
            fld "format" oc_Format (λ x c, mkOutputConfig (oc_Effort c) x) d_raw].

Definition d_request : decoder anthropicMessageRequest :=
  d_struct [
    fld "model" rq_Model (λ x r, mkRequest x (rq_System r) (rq_Messages r) (rq_MaxTokens r) (rq_Tools r) (rq_ToolChoice r) (rq_OutputConfig r) (rq_Thinking r) (rq_Metadata r) (rq_Stream r) (rq_Temperature r) (rq_TopP r)) d_string;
    fld "system" rq_System (λ x r, mkRequest (rq_Model r) x (rq_Messages r) (rq_MaxTokens r) (rq_Tools r) (rq_ToolChoice r) (rq_OutputConfig r) (rq_Thinking r) (rq_Metadata r) (rq_Stream r) (rq_Temperature r) (rq_TopP r)) d_raw;
    fld "messages" rq_Messages (λ x r, mkRequest (rq_Model r) (rq_System r) x (rq_MaxTokens r) (rq_Tools r) (rq_ToolChoice r) (rq_OutputConfig r) (rq_Thinking r) (rq_Metadata r) (rq_Stream r) (rq_Temperature r) (rq_TopP r))
      (d_list (mkAMessage "" None) d_message);
    fld "max_tokens" rq_MaxTokens (λ x r, mkRequest (rq_Model r) (rq_System r) (rq_Messages r) x (rq_Tools r) (rq_ToolChoice r) (rq_OutputConfig r) (rq_Thinking r) (rq_Metadata r) (rq_Stream r) (rq_Temperature r) (rq_TopP r)) d_int;
    fld "tools" rq_Tools (λ x r, mkRequest (rq_Model r) (rq_System r) (rq_Messages r) (rq_MaxTokens r) x (rq_ToolChoice r) (rq_OutputConfig r) (rq_Thinking r) (rq_Metadata r) (rq_Stream r) (rq_Temperature r) (rq_TopP r))
      (d_list (mkATool "" "" None) d_tool);
    fld "tool_choice" rq_ToolChoice (λ x r, mkRequest (rq_Model r) (rq_System r) (rq_Messages r) (rq_MaxTokens r) (rq_Tools r) x (rq_OutputConfig r) (rq_Thinking r) (rq_Metadata r) (rq_Stream r) (rq_Temperature r) (rq_TopP r)) d_raw;
    fld "output_config" rq_OutputConfig (λ x r, mkRequest (rq_Model r) (rq_System r) (rq_Messages r) (rq_MaxTokens r) (rq_Tools r) (rq_ToolChoice r) x (rq_Thinking r) (rq_Metadata r) (rq_Stream r) (rq_Temperature r) (rq_TopP r)) d_output_config;
    fld "thinking" rq_Thinking (λ x r, mkRequest (rq_Model r) (rq_System r) (rq_Messages r) (rq_MaxTokens r) (rq_Tools r) (rq_ToolChoice r) (rq_OutputConfig r) x (rq_Metadata r) (rq_Stream r) (rq_Temperature r) (rq_TopP r))
      (d_struct [fld "type" id (λ x _, x) d_string]);
    fld "metadata" rq_Metadata (λ x r, mkRequest (rq_Model r) (rq_System r) (rq_Messages r) (rq_MaxTokens r) (rq_Tools r) (rq_ToolChoice r) (rq_OutputConfig r) (rq_Thinking r) x (rq_Stream r) (rq_Temperature r) (rq_TopP r)) d_raw;
    fld "stream" rq_Stream (λ x r, mkRequest (rq_Model r) (rq_System r) (rq_Messages r) (rq_MaxTokens r) (rq_Tools r) (rq_ToolChoice r) (rq_OutputConfig r) (rq_Thinking r) (rq_Metadata r) x (rq_Temperature r) (rq_TopP r)) d_bool;
    fld "temperature" rq_Temperature (λ x r, mkRequest (rq_Model r) (rq_System r) (rq_Messages r) (rq_MaxTokens r) (rq_Tools r) (rq_ToolChoice r) (rq_OutputConfig r) (rq_Thinking r) (rq_Metadata r) (rq_Stream r) x (rq_TopP r)) (d_pointer "0" d_float);
    fld "top_p" rq_TopP (λ x r, mkRequest (rq_Model r) (rq_System r) (rq_Messages r) (rq_MaxTokens r) (rq_Tools r) (rq_ToolChoice r) (rq_OutputConfig r) (rq_Thinking r) (rq_Metadata r) (rq_Stream r) (rq_Temperature r) x) (d_pointer "0" d_float)].

Definition zero_request : anthropicMessageRequest :=
  mkRequest "" None [] 0 [] None (mkOutputConfig "" None) "" None false None None.

(** ** The translation *)

(* src/src/anthropic_translate.go anthropicAllowedFields *)
Definition anthropicAllowedFields : list string :=
  ["max_tokens"; "messages"; "metadata"; "model"; "output_config"; "stream"; "system"; "temperature";
   "thinking"; "tool_choice"; "tools"; "top_p"].

(** The text blocks of a list, or the type of the first other block. *)
Fixpoint text_blocks (blocks : list anthropicContentBlock) : string + list string :=
  match blocks with
  | [] => inr []
  | b :: blocks =>
    if negb (String.eqb (bl_Type b) "text") then inl (bl_Type b)
    else match text_blocks blocks with inl t => inl t | inr parts => inr (bl_Text b :: parts) end
  end.

(* src/src/anthropic_translate.go translateAnthropicSystem *)
Definition translateAnthropicSystem (value : option json) : result string anthropic_error :=
  if negb (raw_present value) then Ok ""
  else
    match decode_raw "" d_string value with
    | Some text => Ok text
    | None =>
      match decode_raw [] (d_list zero_block d_block) value with
      | None => Err SystemForm
      | Some blocks =>
        match text_blocks blocks with
        | inl type => Err (SystemBlockType type)
        | inr parts => Ok (Join parts newline)
        end
      end
    end.

(* src/src/anthropic_translate.go decodeAnthropicContent *)
Definition decodeAnthropicContent (value : option json) : result (list anthropicContentBlock) anthropic_error :=
  match decode_raw "" d_string value with
  | Some text => Ok [mkBlock "text" text "" "" None "" None false None]
  | None =>
    match decode_raw [] (d_list zero_block d_block) value with
    | None => Err ContentForm
    | Some blocks => Ok blocks
    end
  end.

(* src/src/anthropic_translate.go anthropicTextContent *)
Definition anthropicTextContent (value : option json) : result string anthropic_error :=
  match decode_raw "" d_string value with
  | Some text => Ok text
  | None =>
    let? blocks := decodeAnthropicContent value in
    match text_blocks blocks with
    | inl _ => Err ToolResultText
    | inr parts => Ok (Join parts newline)
    end
  end.

Definition input_message (role : string) (part : list (string * json)) : json :=
  obj [("role", JStr role); ("content", JArr [obj part])].

(** A raw message that was decoded is valid JSON. *)
(* src/src/anthropic_translate.go translateAnthropicBlock *)
Definition translateAnthropicBlock (role : string) (block : anthropicContentBlock) : result json anthropic_error :=
  let type := bl_Type block in
  if String.eqb type "text"
  then Ok (input_message role [("type", JStr "input_text"); ("text", JStr (bl_Text block))])
  else if String.eqb type "image" then
    match bl_Source block with
    | None => Err ImageSource
    | Some i =>
      if negb (String.eqb (im_Type i) "base64") || String.eqb (im_MediaType i) "" || String.eqb (im_Data i) ""
      then Err ImageSource
      else if negb (base64_valid (im_Data i)) then Err ImageNotBase64
      else Ok (input_message role [("type", JStr "input_image");
             ("image_url", JStr ("data:" +:+ im_MediaType i +:+ ";base64," +:+ im_Data i))])
    end
  else if String.eqb type "tool_use" then
    match bl_Input block with
    | Some input =>
      if negb (String.eqb role "assistant") || String.eqb (bl_ID block) "" || String.eqb (bl_Name block) ""
      then Err ToolUseForm
      else Ok (obj [("type", JStr "function_call"); ("call_id", JStr (bl_ID block));
                    ("name", JStr (bl_Name block)); ("arguments", JStr (raw_text input))])
    | None => Err ToolUseForm
    end
  else if String.eqb type "tool_result" then
    if negb (String.eqb role "user") || String.eqb (bl_ToolUseID block) "" then Err ToolResultForm
    else if bl_IsError block then Err ToolResultIsError
    else
      let? output := anthropicTextContent (bl_Content block) in
      Ok (obj [("type", JStr "function_call_output"); ("call_id", JStr (bl_ToolUseID block));
               ("output", JStr output)])
  else Err (BlockType type).

Fixpoint translate_blocks (role : string) (blocks : list anthropicContentBlock)
    : result (list json) anthropic_error :=
  match blocks with
  | [] => Ok []
  | b :: blocks =>
    let? item := translateAnthropicBlock role b in
    let? items := translate_blocks role blocks in Ok (item :: items)
  end.

Fixpoint translate_messages (messages : list anthropicMessage) : result (list json) anthropic_error :=
  match messages with
  | [] => Ok []
  | m :: messages =>
    if negb (String.eqb (am_Role m) "user") && negb (String.eqb (am_Role m) "assistant")
    then Err (MessageRole (am_Role m))
    else
      let? blocks := decodeAnthropicContent (am_Content m) in
      let? items := translate_blocks (am_Role m) blocks in
      let? rest := translate_messages messages in Ok (items ++ rest)
  end.

(* src/src/anthropic_translate.go translateAnthropicMessages *)
Definition translateAnthropicMessages (messages : list anthropicMessage) : result json anthropic_error :=
  match messages with
  | [] => Err NoMessages
  | _ => let? items := translate_messages messages in Ok (JArr items)
  end.

Definition convert_atool (t : anthropicTool) : result json anthropic_error :=
  match at_InputSchema t with
  | Some schema =>
    if String.eqb (at_Name t) ""
       || (anthropicToolSchemaLimit <? Z.of_nat (String.length (raw_text schema)))%Z
    then Err ToolForm
    else Ok (obj ([("type", JStr "function"); ("name", JStr (at_Name t)); ("parameters", schema)]
      ++ (if String.eqb (at_Description t) "" then [] else [("description", JStr (at_Description t))])))
  | None => Err ToolForm
  end.

Fixpoint convert_tools (tools : list anthropicTool) : result (list json) anthropic_error :=
  match tools with
  | [] => Ok []
  | t :: tools => let? item := convert_atool t in let? items := convert_tools tools in Ok (item :: items)
  end.

(* src/src/anthropic_options.go translateAnthropicTools *)
Definition translateAnthropicTools (tools : list anthropicTool) : result json anthropic_error :=
  let? items := convert_tools tools in Ok (JArr items).

(* src/src/anthropic_options.go translateAnthropicToolChoice *)
Definition translateAnthropicToolChoice (value : json) : result json anthropic_error :=
  match unmarshal ("", "") (d_struct [fld "type" fst (λ x c, (x, c.2)) d_string;
                                      fld "name" snd (λ x c, (c.1, x)) d_string]) value with
  | None => Err ParseToolChoice
  | Some (type, name) =>
    if String.eqb type "auto" then Ok (JStr "auto")
    else if String.eqb type "any" then Ok (JStr "required")
    else if String.eqb type "none" then Ok (JStr "none")
    else if String.eqb type "tool" then
      if String.eqb name "" then Err ToolChoiceName
      else Ok (obj [("type", JStr "function"); ("name", JStr name)])
    else Err (ToolChoiceType type)
  end.

(* src/src/anthropic_options.go supportsAnthropicEffort *)
Definition supportsAnthropicEffort (model value : string) : bool :=
  if String.eqb value "low" || String.eqb value "medium" || String.eqb value "high" then true
  else if String.eqb value "xhigh" || String.eqb value "max" then HasPrefix (ToLower model) "codex/gpt-5"
  else false.

(* src/src/anthropic_options.go translateAnthropicOutputFormat *)
Definition translateAnthropicOutputFormat (value : json) : result json anthropic_error :=
  match unmarshal ("", None) (d_struct [fld "type" fst (λ x c, (x, c.2)) d_string;
                                        fld "schema" snd (λ x c, (c.1, x)) d_raw]) value with
  | None => Err ParseFormat
  | Some (type, schema) =>
    if String.eqb type "text" then Ok (JObj [("format", JObj [("type", JStr "text")])])
    else if String.eqb type "json_schema" then
      match schema with
      | None => Err FormatSchema
      | Some schema =>
        Ok (JObj [("format", JObj [("type", JStr "json_schema"); ("name", JStr "anthropic_output");
                                   ("schema", schema)])])
      end
    else Err (FormatType type)
  end.

(** Adds a member when there is one. *)
Definition add_member (key : string) (value : option json) (out : gmap string json) : gmap string json :=
  match value with Some v => <[key := v]> out | None => out end.

(** An optional part of the request and its translation. *)
Definition translate_part {A} (part : option A) (f : A → result json anthropic_error)
    : result (option json) anthropic_error :=
  match part with None => Ok None | Some a => let? j := f a in Ok (Some j) end.

Definition present (r : option json) : option json := if raw_present r then r else None.

(** [visit] lists the members of the body in the order a range takes; only the field
    an error names depends on it. *)
(* src/src/anthropic_translate.go translateAnthropicRequest *)
Definition translateAnthropicRequest (visit : gmap string json → list (string * json)) (body : string)
    (aliases : gmap string string) : result anthropicTranslatedRequest anthropic_error :=
  match parse body ≫= raw_map with
  | None => Err ParseRequest
  | Some raw =>
    match find_index (λ kv, if decide (kv.1 ∈ anthropicAllowedFields) then None else Some kv.1)
            (visit (default ∅ raw)) with
    | Some (_, field) => Err (UnsupportedField field)
    | None =>
      match parse body ≫= unmarshal zero_request d_request with
      | None => Err DecodeRequest
      | Some request =>
        if String.eqb (rq_Model request) "" then Err ModelRequired
        else if (rq_MaxTokens request <=? 0)%Z then Err MaxTokensNotPositive
        else
          let model := default (rq_Model request) (aliases !! rq_Model request) in
          let? instructions := translateAnthropicSystem (rq_System request) in
          let? input := translateAnthropicMessages (rq_Messages request) in
          let out : gmap string json :=
            <["stream" := JBool (rq_Stream request)]>
            (<["max_output_tokens" := of_int (rq_MaxTokens request)]>
            (<["input" := input]> (<["instructions" := JStr instructions]> {[ "model" := JStr model ]}))) in
          let out := add_member "temperature" (JNum <$> rq_Temperature request) out in
          let out := add_member "top_p" (JNum <$> rq_TopP request) out in
          let out := add_member "metadata" (present (rq_Metadata request)) out in
          let? tools := translate_part (match rq_Tools request with [] => None | l => Some l end)
                          translateAnthropicTools in
          let out := add_member "tools" tools out in
          let? choice := translate_part (present (rq_ToolChoice request)) translateAnthropicToolChoice in
          let out := add_member "tool_choice" choice out in
          let effort := oc_Effort (rq_OutputConfig request) in
          if negb (String.eqb effort "") && negb (supportsAnthropicEffort model effort)
          then Err (UnsupportedEffort effort)
          else
            let out := add_member "reasoning"
              (if String.eqb effort "" then None else Some (obj [("effort", JStr effort)])) out in
            let? format := translate_part (present (oc_Format (rq_OutputConfig request)))
                             translateAnthropicOutputFormat in
            let out := add_member "text" format out in
            if negb (String.eqb (rq_Thinking request) "") && negb (String.eqb (rq_Thinking request) "adaptive")
            then Err (ThinkingType (rq_Thinking request))
            else Ok (mkTranslated model (obj_of_map out) (rq_Stream request))
      end
    end
  end.

(** ** What an item says of a block *)

Inductive carries (role : string) (b : anthropicContentBlock) (item : json) : Prop :=
| CarriesText part : bl_Type b = "text" →
    member "role" item = Some (JStr role) → member "content" item = Some (JArr [part]) →
    member "text" part = Some (JStr (bl_Text b)) → carries role b item
| CarriesImage part i : bl_Type b = "image" → bl_Source b = Some i → base64_valid (im_Data i) = true →
    member "role" item = Some (JStr role) → member "content" item = Some (JArr [part]) →
    member "image_url" part = Some (JStr ("data:" +:+ im_MediaType i +:+ ";base64," +:+ im_Data i)) →
    carries role b item
| CarriesCall input : role = "assistant" → bl_Type b = "tool_use" → bl_Input b = Some input →
    bl_ID b ≠ "" → member "call_id" item = Some (JStr (bl_ID b)) →
    member "name" item = Some (JStr (bl_Name b)) → member "arguments" item = Some (JStr (raw_text input)) →
    carries role b item
| CarriesResult output : role = "user" → bl_Type b = "tool_result" → bl_ToolUseID b ≠ "" →
    bl_IsError b = false → anthropicTextContent (bl_Content b) = Ok output →
    member "call_id" item = Some (JStr (bl_ToolUseID b)) → member "output" item = Some (JStr output) →
    carries role b item.

Lemma translate_block_carries role b item :
  translateAnthropicBlock role b = Ok item → carries role b item.
Proof.
  unfold translateAnthropicBlock.
  destruct (String.eqb_spec (bl_Type b) "text") as [Ht|_].
  { intros [= <-]. by eapply CarriesText. }
  destruct (String.eqb_spec (bl_Type b) "image") as [Ht|_].
  { destruct (bl_Source b) as [i|] eqn:Hs; [|done]. destruct (_ || _ || _); [done|].
    destruct (base64_valid (im_Data i)) eqn:Hb; [|done]. intros [= <-]. by eapply CarriesImage. }
  destruct (String.eqb_spec (bl_Type b) "tool_use") as [Ht|_].
  { destruct (bl_Input b) as [input|] eqn:Hin; [|done].
    destruct (String.eqb_spec role "assistant"); [|done].
    destruct (String.eqb_spec (bl_ID b) ""); [done|].
    destruct (String.eqb (bl_Name b) ""); [done|]. intros [= <-]. by eapply CarriesCall. }
  destruct (String.eqb_spec (bl_Type b) "tool_result") as [Ht|_]; [|done].
  destruct (String.eqb_spec role "user"); [|done].
  destruct (String.eqb_spec (bl_ToolUseID b) ""); [done|]. destruct (bl_IsError b) eqn:He; [done|]. simpl.
  intros (output & Ho & [= <-])%bind_result_Ok. by eapply CarriesResult.
Qed.

Lemma translate_blocks_carry role blocks items :
  translate_blocks role blocks = Ok items → Forall2 (carries role) blocks items.
Proof.
  revert items; induction blocks as [|b blocks IH]; intros items; simpl; [intros [= <-]; constructor|].
  intros (item & Hb & Hr)%bind_result_Ok. apply bind_result_Ok in Hr as (rest & Hr & [= <-]).
  constructor; [by apply translate_block_carries|auto].
Qed.

(** The blocks of a conversation, each with its role. *)
Definition turn (m : anthropicMessage) (blocks : list anthropicContentBlock)
    : list (string * anthropicContentBlock) := (λ b, (am_Role m, b)) <$> blocks.

Lemma translate_messages_carry messages items :
  translate_messages messages = Ok items →
  ∃ turns, Forall2 (λ m blocks, decodeAnthropicContent (am_Content m) = Ok blocks) messages turns
    ∧ Forall2 (λ rb item, carries rb.1 rb.2 item) (mjoin (zip_with turn messages turns)) items.
Proof.
  revert items; induction messages as [|m messages IH]; intros items; simpl.
  { intros [= <-]. exists []. split; constructor. }
  destruct (_ && _); [done|]. intros (blocks & Hb & Hr)%bind_result_Ok.
  apply bind_result_Ok in Hr as (i1 & Hi & Hr). apply bind_result_Ok in Hr as (rest & Hrest & [= <-]).
  destruct (IH _ Hrest) as (turns & Ht & Hc). exists (blocks :: turns). split; [by constructor|]. simpl.
  apply Forall2_app; [|done]. unfold turn. apply Forall2_fmap_l.
  eapply Forall2_impl; [by apply translate_blocks_carry|done].
Qed.

Lemma add_member_ne key value (out : gmap string json) k :
  k ≠ key → add_member key value out !! k = out !! k.
Proof. intros Hne. destruct value; simpl; [by rewrite lookup_insert_ne|done]. Qed.

Lemma add_member_dom key value (out : gmap string json) (keys : list string) :
  key ∈ keys → (∀ k, is_Some (out !! k) → k ∈ keys) → ∀ k, is_Some (add_member key value out !! k) → k ∈ keys.
Proof.
  intros Hin Hout k. destruct value; simpl; [|apply Hout]. rewrite lookup_insert.
  case_decide; [by subst|apply Hout].
Qed.

(** What a translated request is made of. *)
Lemma translate_parts visit body aliases t :
  translateAnthropicRequest visit body aliases = Ok t →
  ∃ v request instructions items m,
    parse body = Some v ∧ unmarshal zero_request d_request v = Some request
    ∧ (0 < rq_MaxTokens request)%Z
    ∧ translateAnthropicSystem (rq_System request) = Ok instructions
    ∧ translate_messages (rq_Messages request) = Ok items
    ∧ t = mkTranslated (default (rq_Model request) (aliases !! rq_Model request)) (obj_of_map m) (rq_Stream request)
    ∧ m !! "model" = Some (JStr (tr_Model t)) ∧ m !! "instructions" = Some (JStr instructions)
    ∧ m !! "input" = Some (JArr items) ∧ m !! "max_output_tokens" = Some (of_int (rq_MaxTokens request))
    ∧ m !! "stream" = Some (JBool (rq_Stream request))
    ∧ ∀ k, is_Some (m !! k) → k ∈ "max_output_tokens" :: chatGPTCodexAllowedKeys.
Proof.
  unfold translateAnthropicRequest. destruct (parse body ≫= raw_map) as [raw|]; [|done].
  destruct (find_index _ _) as [[]|]; [done|].
  destruct (parse body) as [v|]; [|done]. simpl.
  destruct (unmarshal zero_request d_request v) as [request|] eqn:Hreq; [|done].
  destruct (String.eqb (rq_Model request) ""); [done|]. destruct (Z.leb_spec (rq_MaxTokens request) 0); [done|].
  intros Hr. apply bind_result_Ok in Hr as (instructions & Hins & Hr).
  apply bind_result_Ok in Hr as (input & Hin & Hr).
  assert (Hitems : ∃ items, translate_messages (rq_Messages request) = Ok items ∧ input = JArr items).
  { unfold translateAnthropicMessages in Hin. destruct (rq_Messages request); [done|].
    apply bind_result_Ok in Hin as (items & ? & [= <-]). eauto. }
  destruct Hitems as (items & Hitems & ->).
  apply bind_result_Ok in Hr as (tools & _ & Hr). apply bind_result_Ok in Hr as (choice & _ & Hr).
  cbv zeta in Hr.
  destruct (negb _ && negb (supportsAnthropicEffort _ _)); [done|].
  apply bind_result_Ok in Hr as (format & _ & Hr). destruct (_ && _); [done|]. injection Hr as <-.
  eexists v, request, instructions, items, _. split; [done|]. split; [done|]. split; [done|].
  split; [done|]. split; [done|]. split; [done|]. simpl tr_Model.
  split; [by rewrite !add_member_ne by done|]. split; [by rewrite !add_member_ne by done|].
  split; [by rewrite !add_member_ne by done|]. split; [by rewrite !add_member_ne by done|].
  split; [by rewrite !add_member_ne by done|].
  repeat (apply add_member_dom; [listed|]).
  intros k. rewrite !lookup_insert, lookup_singleton. repeat (case_decide; [subst; intros _; listed|]).
  by intros [].
Qed.

(** ** Properties *)

(** C18. The conversation is preserved.  When a request is translated, its content
    blocks become the input items one for one, in order: texts and images keep
    their role, tool calls and results their identifiers, and a tool call the text
    of its input; nothing is dropped.  The system prompt, the token limit and the
    stream flag are kept, and the model is replaced by its alias. *)
Theorem anthropic_conversation_is_preserved visit body aliases t :
  translateAnthropicRequest visit body aliases = Ok t →
  ∃ v request turns items m,
    parse body = Some v ∧ unmarshal zero_request d_request v = Some request
    ∧ Forall2 (λ msg blocks, decodeAnthropicContent (am_Content msg) = Ok blocks) (rq_Messages request) turns
    ∧ Forall2 (λ rb item, carries rb.1 rb.2 item) (mjoin (zip_with turn (rq_Messages request) turns)) items
    ∧ tr_Body t = obj_of_map m ∧ m !! "input" = Some (JArr items)
    ∧ m !! "max_output_tokens" = Some (of_int (rq_MaxTokens request)) ∧ (0 < rq_MaxTokens request)%Z
    ∧ (∃ s, translateAnthropicSystem (rq_System request) = Ok s ∧ m !! "instructions" = Some (JStr s))
    ∧ m !! "model" = Some (JStr (default (rq_Model request) (aliases !! rq_Model request)))
    ∧ m !! "stream" = Some (JBool (rq_Stream request)).
Proof.
  intros Ht. destruct (translate_parts _ _ _ _ Ht)
    as (v & request & s & items & m & Hv & Hreq & Hmax & Hs & Hitems & -> & Hmodel & Hins & Hin & Hm & Hst & _).
  destruct (translate_messages_carry _ _ Hitems) as (turns & Hturns & Hc).
  exists v, request, turns, items, m. simpl in *. split_and!; eauto.
Qed.

(** The ChatGPT transport refuses every translated request.  The translation
    always sets [max_output_tokens], which is not among the fields that the native
    path of the ChatGPT transport takes: whatever the client sent and whatever
    model it is routed to, the request is rejected before it is sent. *)
Theorem chatgpt_refuses_anthropic_requests visit visit' body aliases t m resolved upstreamBody :
  translateAnthropicRequest visit body aliases = Ok t →
  raw_map (tr_Body t) = Some (Some m) →
  (parse upstreamBody ≫= raw_map) = Some (Some (<["model" := JStr resolved]> m)) →
  (∀ m, visit' m ≡ₚ map_to_list m) →
  buildChatGPTNativeResponsesRequest parse visit' upstreamBody = Err (FieldNotSupported "max_output_tokens").
Proof.
  intros Ht Hm Hup Hvisit. destruct (translate_parts _ _ _ _ Ht)
    as (v & request & s & items & m' & _ & _ & _ & _ & _ & -> & _ & _ & _ & Hmax & _ & Hkeys).
  cbn [tr_Body] in Hm. rewrite raw_map_obj_of_map in Hm. injection Hm as ->.
  unfold buildChatGPTNativeResponsesRequest, body_map. rewrite Hup. cbn [bind_result default].
  set (out := <["model" := JStr resolved]> m) in *. unfold id.
  assert (Hin : ("max_output_tokens", of_int (rq_MaxTokens request)) ∈ visit' out).
  { rewrite Hvisit. apply elem_of_map_to_list. unfold out. by rewrite lookup_insert_ne. }
  destruct (find_index _ (visit' out)) as [[i key]|] eqn:Hfind.
  - apply find_index_Some in Hfind as ([k x] & Hl & Hk & _). cbn [fst] in Hk. case_decide as Ha; [done|].
    injection Hk as <-. do 2 f_equal. apply list_elem_of_lookup_2 in Hl. rewrite Hvisit in Hl.
    apply elem_of_map_to_list in Hl. unfold out in Hl. rewrite lookup_insert in Hl. case_decide as Hmk.
    + subst k. exfalso. apply Ha. listed.
    + specialize (Hkeys k ltac:(by eexists)). apply elem_of_cons in Hkeys as [-> |?]; done.
  - exfalso. rewrite find_index_None in Hfind. specialize (Hfind _ Hin). cbn [fst] in Hfind.
    case_decide as Ha; [|done]. revert Ha. unlisted.
Qed.

End translate.

(** ** A concrete request *)

Module ExampleRequest.

Definition blk (l : list (string * json)) : json := JObj l.

(** A question, a call of a tool, and its result. *)
Definition conversation : json := JObj [
  ("model", JStr "claude-sonnet"); ("max_tokens", JNum "64"); ("stream", JBool true);
  ("system", JArr [blk [("type", JStr "text"); ("text", JStr "be brief")]]);
  ("messages", JArr [
    JObj [("role", JStr "user"); ("content", JStr "weather?")];
    JObj [("role", JStr "assistant"); ("content", JArr [
      blk [("type", JStr "text"); ("text", JStr "let me look")];
      blk [("type", JStr "tool_use"); ("id", JStr "call_1"); ("name", JStr "weather"); ("input", JObj [])]])];
    JObj [("role", JStr "user"); ("content", JArr [
      blk [("type", JStr "tool_result"); ("tool_use_id", JStr "call_1"); ("content", JStr "sunny")]])]])].

Definition raw_text (j : json) : string := "{}".
Definition float_text (s : string) : option string := Some s.
Definition aliases : gmap string string := {[ "claude-sonnet" := "codex/gpt-5" ]}.
Definition parse (s : string) : option json := if String.eqb s "{conversation}" then Some conversation else None.

Definition translated : result anthropicTranslatedRequest anthropic_error :=
  translateAnthropicRequest parse raw_text float_text map_to_list "{conversation}" aliases.

(** A second reader that also knows the body as it is sent upstream. *)
Definition upstream_map : gmap string json :=
  match translated with
  | Ok t => match raw_map (tr_Body t) with Some (Some m) => m | _ => ∅ end
  | Err _ => ∅
  end.
Definition upstream_body : json := obj_of_map (<["model" := JStr "gpt-5"]> upstream_map).
Definition parse' (s : string) : option json := if String.eqb s "{upstream}" then Some upstream_body else parse s.

(** The model a translated request reports is the target of its alias. *)
Example alias_replaces_model :
  match translated with Ok t => tr_Model t | Err _ => "" end = "codex/gpt-5".
Proof. vm_compute. reflexivity. Qed.

End ExampleRequest.

Lemma anthropic_conversation_is_preserved_witness :
  ∃ t request turns items, ExampleRequest.translated = Ok t
    ∧ length (rq_Messages request) = 3 ∧ length items = 4
    ∧ Forall2 (λ rb item, carries ExampleRequest.raw_text rb.1 rb.2 item)
        (mjoin (zip_with turn (rq_Messages request) turns)) items.
Proof.
  destruct ExampleRequest.translated as [t|e] eqn:Ht; [|vm_compute in Ht; discriminate Ht].
  destruct (anthropic_conversation_is_preserved ExampleRequest.parse ExampleRequest.raw_text
    ExampleRequest.float_text map_to_list "{conversation}" ExampleRequest.aliases t Ht)
    as (v & request & turns & items & m & Hv & Hreq & Hturns & Hc & _ & _).
  exists t, request, turns, items. split; [reflexivity|].
  assert (Hr : length ∘ rq_Messages <$> unmarshal zero_request (d_request ExampleRequest.float_text)
      ExampleRequest.conversation = Some 3) by (vm_compute; reflexivity).
  assert (Hv' : v = ExampleRequest.conversation) by (vm_compute in Hv; injection Hv as <-; reflexivity).
  rewrite <-Hv', Hreq in Hr. injection Hr as Hr. split; [exact Hr|]. split; [|exact Hc].
  rewrite <-(Forall2_length _ _ _ Hc). clear Hc items.
  assert (Hblocks : mapM (λ msg, match decodeAnthropicContent (am_Content msg) with Ok b => Some b | Err _ => None end)
      (rq_Messages request) = Some turns).
  { clear -Hturns. induction Hturns as [|msg b l l' Hb Hl IH]; [reflexivity|].
    cbn [mapM]. rewrite Hb. cbn [mbind option_bind]. rewrite IH. reflexivity. }
  assert (Hlen : (λ r, (λ turns, length (mjoin (zip_with turn (rq_Messages r) turns))) <$>
      mapM (λ msg, match decodeAnthropicContent (am_Content msg) with Ok b => Some b | Err _ => None end)
        (rq_Messages r))
      <$> unmarshal zero_request (d_request ExampleRequest.float_text) ExampleRequest.conversation
    = Some (Some 4)) by (vm_compute; reflexivity).
  rewrite <-Hv', Hreq in Hlen. cbn [fmap option_fmap option_map] in Hlen. rewrite Hblocks in Hlen.
  injection Hlen as Hlen. exact Hlen.
Defined.

Lemma chatgpt_refuses_anthropic_requests_witness :
  buildChatGPTNativeResponsesRequest ExampleRequest.parse' map_to_list "{upstream}"
  = Err (FieldNotSupported "max_output_tokens").
Proof.
  destruct (translateAnthropicRequest ExampleRequest.parse' ExampleRequest.raw_text ExampleRequest.float_text
    map_to_list "{conversation}" ExampleRequest.aliases) as [t|e] eqn:Ht; [|vm_compute in Ht; discriminate Ht].
  refine (chatgpt_refuses_anthropic_requests ExampleRequest.parse' ExampleRequest.raw_text
    ExampleRequest.float_text map_to_list map_to_list "{conversation}" ExampleRequest.aliases t
    ExampleRequest.upstream_map "gpt-5" "{upstream}" Ht _ _ _).
  - vm_compute in Ht. injection Ht as <-. vm_compute. reflexivity.
  - exact (raw_map_obj_of_map _).
  - intros m. reflexivity.
Defined.
