(* ===== verification/AnthropicStream.v ===== *)
(** * The Anthropic facade: answers

    [src/src/anthropic_sse.go], [anthropic_sse_events.go], [anthropic_sse_finish.go],
    [anthropic_response.go] and [anthropic_error.go]: the answers of a Responses
    transport, streamed or whole, as Anthropic messages and events.

    The client is seen as the log of what is done with its writer: headers, the
    status, each event with its data, a JSON body, flushes.  Its connection may break
    after any number of writes. *)

From S2P Require Import Prelude GoStd Provider Routing Writers Failover GoJson Responses.

#[local] Set Default Proof Using "Type".

(** ** The client *)

Inductive out :=
| OHeader (key value : string) | ODelHeader (key : string) | OStatus (code : Z) | OEvent (type : string) (data : json)
| OBody (j : json) | OFlush.

(** [cw_left] is the number of writes that still succeed, when there is one. *)
Record client_writer := mkWriter { cw_log : list out; cw_left : option nat }.

Definition cw_note (o : list out) (w : client_writer) : client_writer := mkWriter (cw_log w ++ o) (cw_left w).

Definition cw_write (o : out) (w : client_writer) : client_writer * bool :=
  match cw_left w with
  | Some 0 => (w, false)
  | n => (mkWriter (cw_log w ++ [o]) (pred <$> n), true)
  end.

(** ** The stream *)

Definition anthropicSSEBufferLimit : Z := 4 * 1024 * 1024.

Inductive sse_error :=
| InvalidCreated | InvalidItemAdded | IncompleteCall | UnsupportedItem (type : string)
| InvalidTextDelta | UnknownTextItem | InvalidToolDelta | UnknownToolItem | InvalidItemDone | UnknownItemDone
| InvalidCompleted | UpstreamStream (type : string) | UnsupportedEvent (type : string)
| EventTooLarge | ClientWrite | EndedEarly.

(* src/src/anthropic_sse.go anthropicSSEWriter *)
Record anthropicSSEWriter := mkSSE {
  writer : client_writer;
  publicModel : string;
  status : Z;
  pending : string;
  messageID : string;
  indices : gmap string nat;
  active_blocks : gset nat;
  started : bool;
  ended : bool;
  hadToolUse : bool;
  sse_err : option sse_error;
}.

(* src/src/anthropic_sse.go newAnthropicSSEWriter *)
Definition newAnthropicSSEWriter (w : client_writer) (publicModel : string) : anthropicSSEWriter :=
  mkSSE w publicModel 0 "" "" ∅ ∅ false false false None.

Definition set_writer (w : client_writer) (s : anthropicSSEWriter) : anthropicSSEWriter :=
  mkSSE w (publicModel s) (status s) (pending s) (messageID s) (indices s) (active_blocks s) (started s)
    (ended s) (hadToolUse s) (sse_err s).
Definition set_pending (p : string) (s : anthropicSSEWriter) : anthropicSSEWriter :=
  mkSSE (writer s) (publicModel s) (status s) p (messageID s) (indices s) (active_blocks s) (started s)
    (ended s) (hadToolUse s) (sse_err s).
Definition set_err (e : sse_error) (s : anthropicSSEWriter) : anthropicSSEWriter :=
  mkSSE (writer s) (publicModel s) (status s) (pending s) (messageID s) (indices s) (active_blocks s)
    (started s) (ended s) (hadToolUse s) (Some e).
Definition set_messageID (id : string) (s : anthropicSSEWriter) : anthropicSSEWriter :=
  mkSSE (writer s) (publicModel s) (status s) (pending s) id (indices s) (active_blocks s) (started s)
    (ended s) (hadToolUse s) (sse_err s).
Definition set_indices (m : gmap string nat) (tool : bool) (s : anthropicSSEWriter) : anthropicSSEWriter :=
  mkSSE (writer s) (publicModel s) (status s) (pending s) (messageID s) m (active_blocks s) (started s)
    (ended s) (hadToolUse s || tool) (sse_err s).
Definition set_active (a : gset nat) (s : anthropicSSEWriter) : anthropicSSEWriter :=
  mkSSE (writer s) (publicModel s) (status s) (pending s) (messageID s) (indices s) a (started s)
    (ended s) (hadToolUse s) (sse_err s).
Definition set_started (s : anthropicSSEWriter) : anthropicSSEWriter :=
  mkSSE (writer s) (publicModel s) (status s) (pending s) (messageID s) (indices s) (active_blocks s) true
    (ended s) (hadToolUse s) (sse_err s).
Definition set_ended (s : anthropicSSEWriter) : anthropicSSEWriter :=
  mkSSE (writer s) (publicModel s) (status s) (pending s) (messageID s) (indices s) (active_blocks s)
    (started s) true (hadToolUse s) (sse_err s).

(** A step returns the stream and its error, as the methods do. *)
Definition step : Type := anthropicSSEWriter → anthropicSSEWriter * option sse_error.

Definition andThen (f g : step) : step := λ s,
  let '(s, e) := f s in match e with Some _ => (s, e) | None => g s end.
Definition fail (e : sse_error) : step := λ s, (s, Some e).
Definition skip : step := λ s, (s, None).
Definition update (f : anthropicSSEWriter → anthropicSSEWriter) : step := λ s, (f s, None).

(* src/src/anthropic_sse.go anthropicSSEWriter.WriteHeader *)
Definition sse_WriteHeader (code : Z) (s : anthropicSSEWriter) : anthropicSSEWriter :=
  if (status s =? 0)%Z
  then mkSSE (writer s) (publicModel s) code (pending s) (messageID s) (indices s) (active_blocks s)
         (started s) (ended s) (hadToolUse s) (sse_err s)
  else s.

(* src/src/anthropic_sse.go anthropicSSEWriter.StatusCode *)
Definition sse_StatusCode (s : anthropicSSEWriter) : Z := if (status s =? 0)%Z then StatusOK else status s.

(* src/src/anthropic_sse.go anthropicSSEWriter.Flush *)
Definition sse_Flush (s : anthropicSSEWriter) : anthropicSSEWriter :=
  if started s then set_writer (cw_note [OFlush] (writer s)) s else s.

(* src/src/anthropic_sse.go anthropicSSEWriter.emit *)
Definition emit (event : string) (body : json) : step := λ s,
  let '(w, ok) := cw_write (OEvent event body) (writer s) in
  let s := set_writer w s in
  if ok then (sse_Flush s, None) else (s, Some ClientWrite).

(* src/src/anthropic_sse.go anthropicSSEWriter.Finish *)
Definition Finish (s : anthropicSSEWriter) : option sse_error :=
  match sse_err s with Some e => Some e | None => if ended s then None else Some EndedEarly end.

(* src/src/anthropic_response.go anthropicUsage *)
Definition usage_json (input output : Z) : json :=
  JObj [("input_tokens", of_int input); ("output_tokens", of_int output)].

(** An empty text is left out, as every empty field of the struct. *)
(* src/src/anthropic_response.go anthropicResponseContent *)
Definition text_content (text : string) : json :=
  JObj (("type", JStr "text") :: if String.eqb text "" then [] else [("text", JStr text)]).

Definition omit (key s : string) : list (string * json) := if String.eqb s "" then [] else [(key, JStr s)].

Definition tool_content (id name : string) (input : json) : json :=
  JObj ([("type", JStr "tool_use")] ++ omit "id" id ++ omit "name" name ++ [("input", input)]).

(* src/src/anthropic_sse_events.go anthropicSSEWriter.startMessage *)
Definition startMessage : step := λ s,
  if started s then (s, None)
  else
    let s := set_started s in
    let s := set_writer (cw_note [OHeader "Content-Type" "text/event-stream"; OHeader "Cache-Control" "no-cache";
      OHeader "Connection" "keep-alive"; OHeader "X-Accel-Buffering" "no"; OStatus StatusOK] (writer s)) s in
    emit "message_start" (JObj [("type", JStr "message_start"); ("message", JObj [
      ("id", JStr (messageID s)); ("type", JStr "message"); ("role", JStr "assistant"); ("content", JArr []);
      ("model", JStr (publicModel s)); ("stop_reason", JNull); ("stop_sequence", JNull);
      ("usage", usage_json 0 0)])]) s.

Definition block_event (type : string) (index : nat) (rest : list (string * json)) : json :=
  JObj ([("type", JStr type); ("index", of_int (Z.of_nat index))] ++ rest).

(* src/src/anthropic_sse_finish.go anthropicSSEWriter.emitDelta *)
Definition emitDelta (index : nat) (kind delta : string) : step :=
  emit "content_block_delta" (block_event "content_block_delta" index
    [("delta", JObj ([("type", JStr kind)]
       ++ (if String.eqb kind "text_delta" then omit "text" delta else omit "partial_json" delta)))]).

(* src/src/anthropic_sse_finish.go anthropicSSEWriter.stopBlock *)
Definition stopBlock (index : nat) : step := λ s,
  if decide (index ∈ active_blocks s)
  then emit "content_block_stop" (block_event "content_block_stop" index [])
         (set_active (active_blocks s ∖ {[index]}) s)
  else (s, None).

(* src/src/anthropic_sse_finish.go anthropicSSEWriter.writeErrorEvent *)
Definition writeErrorEvent (message : string) (s : anthropicSSEWriter) : anthropicSSEWriter :=
  fst (emit "error" (JObj [("type", JStr "error");
    ("error", JObj [("type", JStr "api_error"); ("message", JStr message)])]) s).

Section events.
Context (parse : string → option json).

Definition decode {A} (zero : A) (d : decoder A) (data : string) : option A := parse data ≫= unmarshal zero d.

Definition d_response_id : decoder string :=
  d_struct [fld "response" id (λ x _, x) (d_struct [fld "id" id (λ x _, x) d_string])].

Definition d_text_delta : decoder (string * string) :=
  d_struct [fld "item_id" fst (λ x e, (x, e.2)) d_string; fld "delta" snd (λ x e, (e.1, x)) d_string].

Definition d_item_done : decoder (string * string) :=
  d_struct [fld "item" id (λ x _, x) (d_struct [fld "id" fst (λ x e, (x, e.2)) d_string;
                                                fld "call_id" snd (λ x e, (e.1, x)) d_string])].

Definition d_output_tokens : decoder (option Z) :=
  d_struct [fld "response" id (λ x _, x) (d_struct [fld "usage" id (λ x _, x)
    (d_pointer 0%Z (d_struct [fld "output_tokens" id (λ x _, x) d_int]))])].

(** The block a new item opens. *)
(* src/src/anthropic_sse_events.go:90-111 anthropicSSEWriter.startOutputItem *)
Definition open_block (i : stream_item) : step := λ s,
  let index := size (indices s) in
  let s := set_indices (<[it_ID i := index]> (indices s)) false s in
  let start (s : anthropicSSEWriter) (content : json) :=
    emit "content_block_start" (block_event "content_block_start" index [("content_block", content)])
      (set_active ({[index]} ∪ active_blocks s) s) in
  if String.eqb (it_Type i) "function_call" then
    if String.eqb (it_CallID i) "" || String.eqb (it_Name i) "" then (s, Some IncompleteCall)
    else start (set_indices (<[it_CallID i := index]> (indices s)) true s)
           (tool_content (it_CallID i) (it_Name i) (JObj []))
  else if negb (String.eqb (it_Type i) "message") then (s, Some (UnsupportedItem (it_Type i)))
  else start s (text_content "").

(* src/src/anthropic_sse_events.go anthropicSSEWriter.startOutputItem *)
Definition startOutputItem (data : string) : step :=
  match decode (mkItem "" "" "" "") d_item data with
  | None => fail InvalidItemAdded
  | Some i =>
    if String.eqb (it_ID i) "" then fail InvalidItemAdded
    else andThen startMessage (open_block i)
  end.

(* src/src/anthropic_sse_events.go anthropicSSEWriter.writeTextDelta *)
Definition writeTextDelta (data : string) : step := λ s,
  match decode ("", "") d_text_delta data with
  | None => (s, Some InvalidTextDelta)
  | Some (item, delta) =>
    match indices s !! item with
    | None => (s, Some UnknownTextItem)
    | Some index => emitDelta index "text_delta" delta s
    end
  end.

(* src/src/anthropic_sse_events.go anthropicSSEWriter.writeToolDelta *)
Definition writeToolDelta (data : string) : step := λ s,
  match decode (mkArgs "" "" "") d_arguments data with
  | None => (s, Some InvalidToolDelta)
  | Some a =>
    match indices s !! (if String.eqb (ad_ItemID a) "" then ad_CallID a else ad_ItemID a) with
    | None => (s, Some UnknownToolItem)
    | Some index => emitDelta index "input_json_delta" (ad_Delta a) s
    end
  end.

(* src/src/anthropic_sse_finish.go anthropicSSEWriter.stopOutputItem *)
Definition stopOutputItem (data : string) : step := λ s,
  match decode ("", "") d_item_done data with
  | None => (s, Some InvalidItemDone)
  | Some (id, callID) =>
    match indices s !! (if String.eqb id "" then callID else id) with
    | None => (s, Some UnknownItemDone)
    | Some index => stopBlock index s
    end
  end.

Fixpoint stop_blocks (l : list nat) : step :=
  match l with [] => skip | index :: l => andThen (stopBlock index) (stop_blocks l) end.

Definition sorted_indices (s : anthropicSSEWriter) : list nat := merge_sort le (elements (active_blocks s)).

(* src/src/anthropic_sse_finish.go:77-98 anthropicSSEWriter.completeMessage *)
Definition message_delta (usage : option Z) : step := λ s,
  emit "message_delta" (JObj [("type", JStr "message_delta");
    ("delta", JObj [("stop_reason", JStr (if hadToolUse s then "tool_use" else "end_turn"))]);
    ("usage", usage_json 0 (default 0%Z usage))]) s.

(* src/src/anthropic_sse_finish.go anthropicSSEWriter.completeMessage *)
Definition completeMessage (data : string) : step :=
  andThen startMessage (λ s,
    match decode None d_output_tokens data with
    | None => (s, Some InvalidCompleted)
    | Some usage =>
      andThen (stop_blocks (sorted_indices s))
        (andThen (message_delta usage)
        (andThen (update set_ended)
           (emit "message_stop" (JObj [("type", JStr "message_stop")])))) s
    end).

(** The lines of an event: the type named last, and the data joined. *)
(* src/src/anthropic_sse.go parseResponsesSSEEvent *)
Definition parseResponsesSSEEvent (raw : string) : string * string :=
  let '(type, data) := foldl (λ '(type, data) line,
      if HasPrefix line "event: " then (TrimPrefix line "event: ", data)
      else if HasPrefix line "data: " then (type, data ++ [TrimPrefix line "data: "])
      else (type, data)) ("", []) (Split raw (ascii_of_nat 10)) in
  (type, Join data newline).

(* src/src/anthropic_sse_events.go anthropicSSEWriter.handleEvent *)
Definition handleEvent (raw : string) : step := λ s,
  let '(type, data) := parseResponsesSSEEvent raw in
  if String.eqb type "response.created" then
    match decode "" d_response_id data with
    | None => (s, Some InvalidCreated)
    | Some id =>
      if String.eqb id "" then (s, Some InvalidCreated) else startMessage (set_messageID id s)
    end
  else if String.eqb type "response.output_item.added" then startOutputItem data s
  else if String.eqb type "response.output_text.delta" then writeTextDelta data s
  else if String.eqb type "response.function_call_arguments.delta" then writeToolDelta data s
  else if String.eqb type "response.output_item.done" then stopOutputItem data s
  else if String.eqb type "response.completed" then completeMessage data s
  else if String.eqb type "response.in_progress" || String.eqb type "response.queued" then (s, None)
  else if decide (type ∈ failure_events)
  then (writeErrorEvent "upstream request failed" s, Some (UpstreamStream type))
  else (writeErrorEvent "unsupported upstream stream capability" s, Some (UnsupportedEvent type)).

(** [bytes.ReplaceAll] of a carriage return before a line feed. *)
Fixpoint normalize (s : string) : string :=
  match s with
  | String c s' =>
    if is_char (ascii_of_nat 13) c && HasPrefix s' newline then normalize s' else String c (normalize s')
  | "" => ""
  end.

(** The first event of the pending bytes, and what follows its empty line. *)
Fixpoint cut_event (s : string) : option (string * string) :=
  match s with
  | String c s' =>
    match strip_prefix (newline +:+ newline) s with
    | Some rest => Some ("", rest)
    | None => match cut_event s' with Some (e, rest) => Some (String c e, rest) | None => None end
    end
  | "" => None
  end.

(** Every round consumes an event, so the length of the pending bytes bounds them. *)
(* src/src/anthropic_sse.go:47-59 anthropicSSEWriter.Write *)
Fixpoint write_loop (fuel : nat) (s : anthropicSSEWriter) : anthropicSSEWriter :=
  match fuel with
  | 0 => s
  | S fuel =>
    match cut_event (pending s) with
    | None => s
    | Some (event, rest) =>
      match handleEvent event (set_pending rest s) with
      | (s, Some e) => set_err e s
      | (s, None) => write_loop fuel s
      end
    end
  end.

(** The call fails exactly when the stream has an error afterwards. *)
(* src/src/anthropic_sse.go anthropicSSEWriter.Write *)
Definition sse_Write (data : string) (s : anthropicSSEWriter) : anthropicSSEWriter :=
  match sse_err s with
  | Some _ => s
  | None =>
    let s := set_pending (pending s +:+ normalize data) s in
    if (anthropicSSEBufferLimit <? Z.of_nat (String.length (pending s)))%Z then set_err EventTooLarge s
    else write_loop (String.length (pending s)) s
  end.

(** ** The events of the text

    A stream of events, handled one after the other until one fails. *)

Fixpoint events_of (fuel : nat) (s : string) : list string * string :=
  match fuel with
  | 0 => ([], s)
  | S fuel =>
    match cut_event s with
    | None => ([], s)
    | Some (e, rest) => let '(es, r) := events_of fuel rest in (e :: es, r)
    end
  end.

Definition all_events (s : string) : list string * string := events_of (String.length s) s.

(** [None] keeps the stream going; the pending bytes do not matter to an event. *)
Fixpoint handle_all (es : list string) (s : anthropicSSEWriter) : anthropicSSEWriter :=
  match es with
  | [] => s
  | e :: es =>
    match handleEvent e s with (s, Some x) => set_err x s | (s, None) => handle_all es s end
  end.

(** ** Chunks

    No step looks at the pending bytes or at the recorded error. *)

Definition frame (f : step) : Prop := ∀ s,
  (∀ p, f (set_pending p s) = (set_pending p (f s).1, (f s).2)) ∧ sse_err (f s).1 = sse_err s.

Lemma frame_andThen f g : frame f → frame g → frame (andThen f g).
Proof.
  intros Hf Hg s. unfold andThen. destruct (Hf s) as [Hp He]. split.
  - intros p. rewrite Hp. destruct (f s) as [s' [e|]]; simpl; [done|]. by rewrite (proj1 (Hg s')).
  - destruct (f s) as [s' [e|]]; simpl in *; [done|]. rewrite <-He. apply Hg.
Qed.

Lemma frame_emit type body : frame (emit type body).
Proof.
  intros s. unfold emit. simpl. split.
  - intros p. destruct (cw_write _ _) as [w ok]. destruct ok; [|done]. unfold sse_Flush. simpl.
    by destruct (started s).
  - destruct (cw_write _ _) as [w ok]. destruct ok; [|done]. unfold sse_Flush. simpl. by destruct (started s).
Qed.

Ltac frame_cases := intros []; unfold startMessage, stopBlock, open_block, writeErrorEvent, emitDelta, message_delta, emit,
  sse_Flush, cw_write, cw_note, update, fail, skip; simpl;
  (split; [intros p|]); repeat (case_match; simplify_eq/=); done.

Lemma frame_fail e : frame (fail e). Proof. frame_cases. Qed.
Lemma frame_skip : frame skip. Proof. frame_cases. Qed.
Lemma frame_ended : frame (update set_ended). Proof. frame_cases. Qed.
Lemma frame_startMessage : frame startMessage. Proof. frame_cases. Qed.
Lemma frame_stopBlock index : frame (stopBlock index). Proof. frame_cases. Qed.
Lemma frame_open_block i : frame (open_block i). Proof. frame_cases. Qed.

Lemma frame_stop_blocks l : frame (stop_blocks l).
Proof. induction l as [|i l IH]; [apply frame_skip|]. by apply frame_andThen; [apply frame_stopBlock|]. Qed.

(** A step that first reads a part of the stream. *)
Lemma frame_by {A} (part : anthropicSSEWriter → A) (f : A → step) (g : step) :
  (∀ s, g s = f (part s) s) → (∀ p s, part (set_pending p s) = part s) → (∀ a, frame (f a)) → frame g.
Proof.
  intros Hg Hp Hf s. rewrite Hg. split; [|apply Hf]. intros p. rewrite Hg, Hp. apply Hf.
Qed.

Lemma frame_completeMessage data : frame (completeMessage data).
Proof.
  apply frame_andThen; [apply frame_startMessage|].
  destruct (decode None d_output_tokens data) as [usage|]; [|apply frame_fail].
  apply (frame_by sorted_indices (λ l, andThen (stop_blocks l) _)) with (1 := λ s, eq_refl); [done|].
  intros l. apply frame_andThen; [apply frame_stop_blocks|]. apply frame_andThen.
  - frame_cases.
  - apply frame_andThen; [apply frame_ended|apply frame_emit].
Qed.

Lemma frame_indexed (key : string) e (f : nat → step) :
  (∀ i, frame (f i)) → frame (λ s, match indices s !! key with Some i => f i s | None => (s, Some e) end).
Proof.
  intros Hf. apply (frame_by (λ s, indices s !! key)
    (λ o, match o with Some i => f i | None => fail e end)); [intros s; by case_match|done|].
  intros [i|]; [apply Hf|apply frame_fail].
Qed.

Lemma frame_handleEvent raw : frame (handleEvent raw).
Proof.
  unfold handleEvent. destruct (parseResponsesSSEEvent raw) as [type data].
  destruct (String.eqb type "response.created").
  { destruct (decode "" d_response_id data) as [id|]; [|apply frame_fail].
    destruct (String.eqb id ""); [apply frame_fail|].
    intros s. destruct (frame_startMessage (set_messageID id s)) as [H1 H2]. split; [exact H1|exact H2]. }
  destruct (String.eqb type "response.output_item.added").
  { unfold startOutputItem. destruct (decode _ d_item data) as [i|]; [|apply frame_fail].
    destruct (String.eqb (it_ID i) ""); [apply frame_fail|].
    apply frame_andThen; [apply frame_startMessage|apply frame_open_block]. }
  destruct (String.eqb type "response.output_text.delta").
  { unfold writeTextDelta. destruct (decode _ d_text_delta data) as [[item delta]|]; [|apply frame_fail].
    apply frame_indexed. intros i. apply frame_emit. }
  destruct (String.eqb type "response.function_call_arguments.delta").
  { unfold writeToolDelta. destruct (decode _ d_arguments data) as [a|]; [|apply frame_fail].
    apply frame_indexed. intros i. apply frame_emit. }
  destruct (String.eqb type "response.output_item.done").
  { unfold stopOutputItem. destruct (decode _ d_item_done data) as [[id callID]|]; [|apply frame_fail].
    apply frame_indexed. intros i. apply frame_stopBlock. }
  destruct (String.eqb type "response.completed"); [apply frame_completeMessage|].
  destruct (_ || _); [apply frame_skip|]. case_decide; frame_cases.
Qed.

(** *** Cutting events *)

Lemma cut_event_spec s e rest :
  cut_event s = Some (e, rest) → s = e +:+ newline +:+ newline +:+ rest.
Proof.
  revert e rest; induction s as [|c s IH]; intros e rest; cbn [cut_event]; [done|].
  destruct (strip_prefix (newline +:+ newline) (String c s)) as [r|] eqn:Hp.
  - intros [= <- <-]. by apply strip_prefix_Some in Hp.
  - destruct (cut_event s) as [[e' r']|]; [|done]. intros [= <- <-].
    rewrite (IH _ _ eq_refl) at 1. done.
Qed.

Lemma cut_event_length s e rest : cut_event s = Some (e, rest) → String.length rest < String.length s.
Proof. intros ->%cut_event_spec. rewrite !str_length_app. simpl. lia. Qed.

Lemma strip_prefix_extend p s t r : strip_prefix p s = Some r → strip_prefix p (s +:+ t) = Some (r +:+ t).
Proof.
  intros ->%strip_prefix_Some. rewrite str_app_assoc. apply strip_prefix_app.
Qed.

Lemma separator_looks_at_two c d s :
  strip_prefix (newline +:+ newline) (String c (String d s))
  = if decide (newline +:+ newline = String c (String d EmptyString)) then Some s else None.
Proof.
  case_decide as H.
  - change (String c (String d s)) with (String c (String d EmptyString) +:+ s).
    rewrite <- H. apply strip_prefix_app.
  - destruct (strip_prefix _ _) as [r|] eqn:Hp; [|done]. exfalso. apply H.
    apply strip_prefix_Some in Hp.
    change (newline +:+ newline) with (String "010" (String "010" EmptyString)) in *.
    cbn [String.append] in Hp. congruence.
Qed.

(** What follows an event does not change where it ends. *)
Lemma cut_event_app s t e rest :
  cut_event s = Some (e, rest) → cut_event (s +:+ t) = Some (e, rest +:+ t).
Proof.
  revert e rest; induction s as [|c s IH]; intros e rest; [done|].
  change (String c s +:+ t) with (String c (s +:+ t)). cbn [cut_event].
  destruct (strip_prefix (newline +:+ newline) (String c s)) as [r|] eqn:Hp.
  - intros [= <- <-]. apply (strip_prefix_extend _ _ t) in Hp.
    change (String c s +:+ t) with (String c (s +:+ t)) in Hp. by rewrite Hp.
  - destruct (cut_event s) as [[e' r']|] eqn:Hc; [|done]. intros [= <- <-].
    rewrite (IH _ _ eq_refl).
    destruct (strip_prefix (newline +:+ newline) (String c (s +:+ t))) as [r|] eqn:Hp'; [|done].
    (* the separator would have to straddle the end of [s], which holds one already *)
    exfalso. destruct s as [|d s]; [done|].
    change (String d s +:+ t) with (String d (s +:+ t)) in Hp'.
    rewrite separator_looks_at_two in Hp, Hp'. by destruct (decide _).
Qed.

Lemma events_of_fuel n s : String.length s ≤ n → events_of n s = all_events s.
Proof.
  unfold all_events. revert s; induction n as [n IH] using lt_wf_ind; intros s Hn.
  destruct n as [|n].
  { by destruct s; simpl in Hn; [|lia]. }
  destruct s as [|c s]; [done|]. cbn [String.length events_of].
  destruct (cut_event (String c s)) as [[e rest]|] eqn:Hc; [|done].
  apply cut_event_length in Hc. cbn [String.length] in Hn, Hc.
  rewrite (IH n) by lia. destruct (decide (String.length s < n)) as [Hlt|Hge].
  - by rewrite (IH (String.length s)) by lia.
  - by replace (String.length s) with n by lia; rewrite (IH n) by lia.
Qed.

Lemma all_events_cut s e rest :
  cut_event s = Some (e, rest) →
  all_events s = (e :: (all_events rest).1, (all_events rest).2).
Proof.
  intros Hc. pose proof (cut_event_length _ _ _ Hc) as Hl. unfold all_events at 1.
  destruct (String.length s) as [|n] eqn:Hn; [lia|]. cbn [events_of]. rewrite Hc.
  rewrite events_of_fuel by lia. by destruct (all_events rest).
Qed.

Lemma all_events_none s : cut_event s = None → all_events s = ([], s).
Proof. unfold all_events. destruct (String.length s); simpl; [done|]. by intros ->. Qed.

Lemma all_events_app s t :
  all_events (s +:+ t)
  = ((all_events s).1 ++ (all_events ((all_events s).2 +:+ t)).1, (all_events ((all_events s).2 +:+ t)).2).
Proof.
  remember (String.length s) as n eqn:Hn. revert s Hn; induction n as [n IH] using lt_wf_ind; intros s ->.
  destruct (cut_event s) as [[e rest]|] eqn:Hc.
  - rewrite (all_events_cut _ _ _ Hc), (all_events_cut _ _ _ (cut_event_app _ t _ _ Hc)). cbn [fst snd].
    rewrite (IH (String.length rest)) with (s := rest); [done| |done]. by eapply cut_event_length.
  - rewrite (all_events_none _ Hc). cbn [fst snd app]. apply surjective_pairing.
Qed.

Lemma all_events_rest s : String.length (all_events s).2 ≤ String.length s.
Proof.
  remember (String.length s) as n eqn:Hn. revert s Hn; induction n as [n IH] using lt_wf_ind; intros s ->.
  destruct (cut_event s) as [[e rest]|] eqn:Hc.
  - rewrite (all_events_cut _ _ _ Hc). cbn [snd]. pose proof (cut_event_length _ _ _ Hc).
    pose proof (IH (String.length rest) ltac:(lia) rest eq_refl). lia.
  - by rewrite (all_events_none _ Hc).
Qed.

Lemma all_events_cut_none s : cut_event (all_events s).2 = None.
Proof.
  remember (String.length s) as n eqn:Hn. revert s Hn; induction n as [n IH] using lt_wf_ind; intros s ->.
  destruct (cut_event s) as [[e rest]|] eqn:Hc.
  - rewrite (all_events_cut _ _ _ Hc). cbn [snd]. pose proof (cut_event_length _ _ _ Hc).
    by apply (IH (String.length rest)).
  - by rewrite (all_events_none _ Hc).
Qed.

(** *** Writes *)

(** Equal but for the pending bytes of a stream that has failed. *)
Definition same_stream (s s' : anthropicSSEWriter) : Prop :=
  set_pending "" s = set_pending "" s' ∧ (sse_err s = None → pending s = pending s').

#[export] Instance same_stream_equiv : Equivalence same_stream.
Proof.
  split; [by intros s|..].
  - intros s s' [H1 H2]. split; [done|]. intros He. rewrite H2; [done|].
    apply (f_equal sse_err) in H1. simpl in H1. congruence.
  - intros s1 s2 s3 [H1 H2] [H3 H4]. split; [congruence|]. intros He. rewrite H2, H4; [done| |done].
    apply (f_equal sse_err) in H1. simpl in H1. congruence.
Qed.

Lemma handle_all_pending es p s : handle_all es (set_pending p s) = set_pending p (handle_all es s).
Proof.
  revert s; induction es as [|e es IH]; intros s; simpl; [done|].
  rewrite (proj1 (frame_handleEvent e s) p). destruct (handleEvent e s) as [s' [x|]]; simpl; [done|apply IH].
Qed.

Lemma handle_all_app es es' s :
  sse_err s = None →
  handle_all (es ++ es') s
  = match sse_err (handle_all es s) with Some _ => handle_all es s | None => handle_all es' (handle_all es s) end.
Proof.
  revert s; induction es as [|e es IH]; intros s Hs; simpl; [by rewrite Hs|].
  pose proof (proj2 (frame_handleEvent e s)) as He. destruct (handleEvent e s) as [s' [x|]]; simpl in *; [done|].
  apply IH. congruence.
Qed.

Lemma write_loop_events fuel s :
  String.length (pending s) ≤ fuel → sse_err s = None →
  same_stream (write_loop fuel s)
    (set_pending (all_events (pending s)).2 (handle_all (all_events (pending s)).1 s)).
Proof.
  revert s; induction fuel as [|fuel IH]; intros s Hl Hs; simpl.
  { destruct s as [w pm st p mid ind act sta en had er]. simpl in *. destruct p; simpl in Hl; [|lia]. done. }
  destruct (cut_event (pending s)) as [[e rest]|] eqn:Hc.
  - rewrite (all_events_cut _ _ _ Hc). cbn [fst snd handle_all].
    destruct (frame_handleEvent e s) as [Hp He]. rewrite Hp.
    destruct (handleEvent e s) as [s' [x|]] eqn:Hh; simpl in *.
    + by split.
    + pose proof (cut_event_length _ _ _ Hc).
      etrans; [apply IH; simpl; [lia|congruence]|]. simpl. rewrite handle_all_pending. by split.
  - rewrite (all_events_none _ Hc). cbn [fst snd handle_all]. by destruct s.
Qed.

Definition no_cr (s : string) : Prop := str_all (λ c, negb (is_char (ascii_of_nat 13) c)) s = true.

Lemma normalize_id s : no_cr s → normalize s = s.
Proof.
  unfold no_cr. induction s as [|c s IH]; simpl; [done|]. intros [Hc Hs]%andb_true_iff.
  apply negb_true_iff in Hc. rewrite Hc. simpl. by rewrite IH.
Qed.

Definition concat_str (l : list string) : string := foldr (λ a b, a +:+ b) "" l.

(** Any number of writes is the handling of the events of what was written. *)
Lemma writes_events chunks s :
  no_cr (concat_str chunks) → sse_err s = None →
  (Z.of_nat (String.length (pending s) + String.length (concat_str chunks)) ≤ anthropicSSEBufferLimit)%Z →
  cut_event (pending s) = None →
  same_stream (foldl (λ s c, sse_Write c s) s chunks)
    (set_pending (all_events (pending s +:+ concat_str chunks)).2
       (handle_all (all_events (pending s +:+ concat_str chunks)).1 s)).
Proof.
  revert s; induction chunks as [|c chunks IH]; intros s Hcr Hs Hl Hp; simpl in *.
  { rewrite str_app_nil_r, (all_events_none _ Hp). by destruct s. }
  unfold no_cr in Hcr. rewrite str_all_app in Hcr. apply andb_true_iff in Hcr as [Hc Hcs].
  rewrite str_length_app in Hl.
  assert (Hw : same_stream (sse_Write c s)
    (set_pending (all_events (pending s +:+ c)).2 (handle_all (all_events (pending s +:+ c)).1 s))).
  { unfold sse_Write. rewrite Hs, normalize_id by done. cbv zeta. cbn [pending set_pending].
    rewrite (proj2 (Z.ltb_ge _ _)) by (rewrite str_length_app; lia).
    etrans; [apply write_loop_events; done|]. cbn [pending set_pending].
    rewrite handle_all_pending. by split. }
  rewrite <-str_app_assoc, all_events_app. cbn [fst snd].
  rewrite handle_all_app by done.
  pose proof (all_events_rest (pending s +:+ c)) as Hrest. rewrite str_length_app in Hrest.
  pose proof (all_events_cut_none (pending s +:+ c)) as Hnone.
  destruct (all_events (pending s +:+ c)) as [es r]. cbn [fst snd] in *.
  destruct Hw as [H1 H2]. assert (Herr : sse_err (sse_Write c s) = sse_err (handle_all es s)).
  { apply (f_equal sse_err) in H1. exact H1. }
  destruct (sse_err (handle_all es s)) as [x|] eqn:Hx.
  - assert (Hstay : foldl (λ s c, sse_Write c s) (sse_Write c s) chunks = sse_Write c s).
    { clear -Herr. set (s1 := sse_Write c s) in *. clearbody s1. induction chunks as [|d ds IHd]; simpl; [done|].
      assert (Hd : sse_Write d s1 = s1) by (unfold sse_Write; by rewrite Herr). by rewrite Hd. }
    rewrite Hstay. split; [exact H1|]. rewrite Herr. done.
  - specialize (H2 Herr). simpl in H2.
    assert (Heq : sse_Write c s = set_pending r (handle_all es s)).
    { destruct (sse_Write c s), (handle_all es s). simpl in *. injection H1; intros; subst. done. }
    rewrite Heq. etrans; [apply IH; simpl; [done|done|lia|done]|]. simpl.
    rewrite handle_all_pending. by split.
Qed.

End events.
