(* ===== verification/AnthropicProtocol.v ===== *)
(** * The Anthropic facade: the stream a client reads

    Two readers of a streamed exchange, and the theorem that the stream of
    [AnthropicStream] takes one to the other.  The [dialogue] is what a Responses
    transport does: it adds items under fresh identifiers, sends pieces of the open
    ones, closes them and completes.  The [session] is what an Anthropic client
    accepts: one message start, blocks that are started once, filled while they are
    open and stopped, a message delta when none is open, and the stop. *)

From stdpp Require Import pretty.
From S2P Require Import Prelude GoStd Provider Routing Writers Failover GoJson Responses AnthropicStream.

#[local] Set Default Proof Using "Type".

(** A block of the answer, for either side. *)
Record block := mkBlock { b_tool : bool; b_open : bool; b_text : string }.

Definition close (b : block) : block := mkBlock (b_tool b) false (b_text b).
Definition extend (t : string) (b : block) : block := mkBlock (b_tool b) (b_open b) (b_text b +:+ t).

(** ** The client *)

Inductive phase := Waiting | Streaming | Ending | Ended | Failed.

#[export] Instance phase_eq_dec : EqDecision phase.
Proof. solve_decision. Defined.

(** Blocks go by the literal of their index. *)
Record session := mkSession { ss_phase : phase; ss_blocks : gmap string block }.

Definition waiting : session := mkSession Waiting ∅.

Definition text_of (key : string) (j : json) : option string :=
  match member key j with Some (JStr s) => Some s | _ => None end.
Definition index_of (j : json) : option string :=
  match member "index" j with Some (JNum n) => Some n | _ => None end.

Definition none_open (m : gmap string block) : bool :=
  forallb (λ kv, negb (b_open kv.2)) (map_to_list m).

(** The delta of a tool is a piece of its arguments, the delta of a text a text. *)
Definition delta_text (tool : bool) (j : json) : option string :=
  member "delta" j ≫= λ d,
  text_of "type" d ≫= λ kind,
  if String.eqb kind (if tool then "input_json_delta" else "text_delta")
  then Some (default "" (text_of (if tool then "partial_json" else "text") d)) else None.

Definition open_at (n : string) (c : session) : option block :=
  ss_blocks c !! n ≫= λ b, if b_open b then Some b else None.

Definition streaming (c : session) (k : option session) : option session :=
  if decide (ss_phase c = Streaming) then k else None.

Definition client_event (type : string) (j : json) (c : session) : option session :=
  if String.eqb type "message_start" then
    if decide (ss_phase c = Waiting) then Some (mkSession Streaming (ss_blocks c)) else None
  else if String.eqb type "content_block_start" then streaming c (
    index_of j ≫= λ n, (member "content_block" j ≫= text_of "type") ≫= λ kind,
    match ss_blocks c !! n with
    | Some _ => None
    | None => Some (mkSession Streaming (<[n := mkBlock (String.eqb kind "tool_use") true ""]> (ss_blocks c)))
    end)
  else if String.eqb type "content_block_delta" then streaming c (
    index_of j ≫= λ n, open_at n c ≫= λ b, delta_text (b_tool b) j ≫= λ t,
    Some (mkSession Streaming (<[n := extend t b]> (ss_blocks c))))
  else if String.eqb type "content_block_stop" then streaming c (
    index_of j ≫= λ n, open_at n c ≫= λ b, Some (mkSession Streaming (<[n := close b]> (ss_blocks c))))
  else if String.eqb type "message_delta" then streaming c (
    if none_open (ss_blocks c) then Some (mkSession Ending (ss_blocks c)) else None)
  else if String.eqb type "message_stop" then
    if decide (ss_phase c = Ending) then Some (mkSession Ended (ss_blocks c)) else None
  else if String.eqb type "error" then Some (mkSession Failed (ss_blocks c))
  else None.

(** An event names its type in its data too. *)
Definition client_step (o : out) (c : session) : option session :=
  match o with
  | OEvent type j => if decide (text_of "type" j = Some type) then client_event type j c else None
  | OBody _ => None
  | OHeader _ _ | ODelHeader _ | OStatus _ | OFlush => Some c
  end.

Definition reads (log : list out) : option session :=
  foldl (λ c o, c ≫= client_step o) (Some waiting) log.

(** ** The transport *)

Inductive upstream :=
| UCreated (id : string) | UAdded (i : stream_item) | UDelta (tool : bool) (key text : string)
| UDone (key : string) | UCompleted | UIdle.

(** Every identifier leads to the item it was announced with. *)
Record dialogue := mkDialogue { d_owner : gmap string string; d_items : gmap string block; d_done : bool }.

Definition silent : dialogue := mkDialogue ∅ ∅ false.

Definition keys_of (i : stream_item) : list string :=
  if String.eqb (it_Type i) "function_call" then [it_ID i; it_CallID i] else [it_ID i].

Definition announce (i : stream_item) (owner : gmap string string) : gmap string string :=
  foldl (λ m k, <[k := it_ID i]> m) owner (keys_of i).

Definition proper_item (i : stream_item) : bool :=
  negb (String.eqb (it_ID i) "")
  && (if String.eqb (it_Type i) "function_call"
      then negb (String.eqb (it_CallID i) "") && negb (String.eqb (it_Name i) "")
      else String.eqb (it_Type i) "message").

Definition open_item (key : string) (d : dialogue) : option (string * block) :=
  d_owner d !! key ≫= λ id, d_items d !! id ≫= λ b, if b_open b then Some (id, b) else None.

Definition upstream_step (u : upstream) (d : dialogue) : option dialogue :=
  if d_done d then None
  else match u with
  | UCreated id => if String.eqb id "" then None else Some d
  | UIdle => Some d
  | UAdded i =>
    if proper_item i && forallb (λ k, bool_decide (d_owner d !! k = None)) (keys_of i)
    then Some (mkDialogue (announce i (d_owner d))
                 (<[it_ID i := mkBlock (String.eqb (it_Type i) "function_call") true ""]> (d_items d)) false)
    else None
  | UDelta tool key text =>
    open_item key d ≫= λ '(id, b),
    if Bool.eqb tool (b_tool b)
    then Some (mkDialogue (d_owner d) (<[id := extend text b]> (d_items d)) false) else None
  | UDone key =>
    open_item key d ≫= λ '(id, b), Some (mkDialogue (d_owner d) (<[id := close b]> (d_items d)) false)
  | UCompleted => Some (mkDialogue (d_owner d) (close <$> d_items d) true)
  end.

Section protocol.
Context (parse : string → option json).

(** What a transport means by an event; [None] for what the facade refuses. *)
Definition upstream_of (raw : string) : option upstream :=
  let '(type, data) := parseResponsesSSEEvent raw in
  if String.eqb type "response.created" then UCreated <$> decode parse "" d_response_id data
  else if String.eqb type "response.output_item.added" then
    UAdded <$> decode parse (mkItem "" "" "" "") d_item data
  else if String.eqb type "response.output_text.delta" then
    (λ p, UDelta false p.1 p.2) <$> decode parse ("", "") d_text_delta data
  else if String.eqb type "response.function_call_arguments.delta" then
    (λ a, UDelta true (if String.eqb (ad_ItemID a) "" then ad_CallID a else ad_ItemID a) (ad_Delta a))
      <$> decode parse (mkArgs "" "" "") d_arguments data
  else if String.eqb type "response.output_item.done" then
    (λ p, UDone (if String.eqb p.1 "" then p.2 else p.1)) <$> decode parse ("", "") d_item_done data
  else if String.eqb type "response.completed" then
    (λ _, UCompleted) <$> decode parse None d_output_tokens data
  else if String.eqb type "response.in_progress" || String.eqb type "response.queued" then Some UIdle
  else None.

Definition upstream_run (events : list string) : option dialogue :=
  foldl (λ d e, d ≫= λ d, upstream_of e ≫= λ u, upstream_step u d) (Some silent) events.

(** ** The simulation *)

Definition lit (n : nat) : string := pretty (Z.of_nat n).

Lemma lit_inj n m : lit n = lit m → n = m.
Proof. intros H. apply (inj pretty) in H. lia. Qed.

Lemma reads_app log l : reads (log ++ l) = foldl (λ c o, c ≫= client_step o) (reads log) l.
Proof. unfold reads. by rewrite foldl_app. Qed.

Lemma reads_snoc log o : reads (log ++ [o]) = reads log ≫= client_step o.
Proof. unfold reads. by rewrite foldl_app. Qed.

Definition phase_of (d : dialogue) (s : anthropicSSEWriter) : phase :=
  if d_done d then Ended else if started s then Streaming else Waiting.

(** The blocks of both sides, joined by the indices of the stream. *)
Record joined (owner : gmap string string) (items blocks : gmap string block)
    (ix : gmap string nat) (act : gset nat) : Prop := {
  jn_owner k id : owner !! k = Some id →
    ∃ i b, ix !! k = Some i ∧ ix !! id = Some i ∧ owner !! id = Some id
      ∧ items !! id = Some b ∧ blocks !! lit i = Some b;
  jn_index k i : ix !! k = Some i → i < size ix ∧ is_Some (owner !! k);
  jn_inj id id' i : owner !! id = Some id → owner !! id' = Some id' →
    ix !! id = Some i → ix !! id' = Some i → id = id';
  jn_items id b : items !! id = Some b → owner !! id = Some id;
  jn_blocks n b : blocks !! n = Some b → ∃ id i, n = lit i ∧ ix !! id = Some i ∧ owner !! id = Some id;
  jn_active i : i ∈ act ↔ ∃ b, blocks !! lit i = Some b ∧ b_open b = true;
}.

Record tracks (d : dialogue) (c : session) (s : anthropicSSEWriter) : Prop := {
  tr_joined : joined (d_owner d) (d_items d) (ss_blocks c) (indices s) (active_blocks s);
  tr_phase : ss_phase c = phase_of d s;
  tr_started : started s = false → indices s = ∅ ∧ d_done d = false;
  tr_ended : ended s = d_done d;
}.

(** *** The joined blocks *)

Lemma joined_empty : joined ∅ ∅ ∅ ∅ ∅.
Proof.
  split; try by intros * []%lookup_empty_Some.
  intros i. split; [by intros ?%not_elem_of_empty|]. intros (b & Hb & _). by rewrite lookup_empty in Hb.
Qed.

(** An identifier of an item leads to the index of its block, and both sides can
    replace the block together. *)
Lemma joined_update owner items blocks ix act key id b :
  joined owner items blocks ix act → owner !! key = Some id → items !! id = Some b →
  ∃ i, ix !! key = Some i ∧ blocks !! lit i = Some b ∧ ∀ b',
    joined owner (<[id := b']> items) (<[lit i := b']> blocks) ix
      (if b_open b' then {[i]} ∪ act else act ∖ {[i]}).
Proof.
  intros J Hk Hb. destruct (jn_owner _ _ _ _ _ J _ _ Hk) as (i & b0 & Hi & Hid & Ho & Hb0 & Hbl).
  rewrite Hb in Hb0. injection Hb0 as <-. exists i. split; [done|]. split; [done|]. intros b'. split.
  - intros k' id' Hk'. destruct (jn_owner _ _ _ _ _ J _ _ Hk') as (i' & b1 & Hi' & Hid' & Ho' & Hb1 & Hbl').
    exists i', (if decide (id = id') then b' else b1). rewrite !lookup_insert.
    split; [done|]. split; [done|]. split; [done|]. split; [by case_decide|].
    destruct (decide (lit i = lit i')) as [He|He].
    + apply lit_inj in He as <-. by rewrite (jn_inj _ _ _ _ _ J _ _ _ Ho Ho' Hid Hid'), decide_True.
    + rewrite decide_False; [done|]. intros <-. congruence.
  - apply (jn_index _ _ _ _ _ J).
  - apply (jn_inj _ _ _ _ _ J).
  - intros id' b1. rewrite lookup_insert. case_decide; [by intros _; subst|]. apply (jn_items _ _ _ _ _ J).
  - intros n b1. rewrite lookup_insert. case_decide; [intros _; subst; eauto|]. apply (jn_blocks _ _ _ _ _ J).
  - intros j. rewrite lookup_insert. destruct (decide (lit i = lit j)) as [He|He].
    + apply lit_inj in He as <-. destruct (b_open b') eqn:Hop.
      * split; [by eauto|]. intros _. apply elem_of_union. left. by apply elem_of_singleton.
      * split; [by intros [_ []%not_elem_of_singleton]%elem_of_difference|].
        intros (b1 & [= <-] & Hc). congruence.
    + rewrite <-(jn_active _ _ _ _ _ J). assert (Hne : j ≠ i) by congruence. clear -Hne.
      destruct (b_open b'); rewrite ?elem_of_union, ?elem_of_difference, elem_of_singleton; naive_solver.
Qed.

Lemma size_insert_le (m : gmap string nat) k n : size m ≤ size (<[k := n]> m).
Proof. rewrite map_size_insert. destruct (m !! k); cbn; lia. Qed.

Definition index_all (n : nat) (keys : list string) (ix : gmap string nat) : gmap string nat :=
  foldl (λ m k, <[k := n]> m) ix keys.

Lemma foldl_insert_all {A} (keys : list string) (x : A) (m : gmap string A) k :
  foldl (λ m k, <[k := x]> m) m keys !! k = if decide (k ∈ keys) then Some x else m !! k.
Proof.
  revert m; induction keys as [|k' keys IH]; intros m; [done|]. cbn [foldl]. rewrite IH, lookup_insert.
  destruct (decide (k ∈ keys)); [rewrite decide_True; [done|by right]|].
  destruct (decide (k' = k)) as [-> |]; [rewrite decide_True; [done|by left]|].
  rewrite decide_False; [done|]. by intros [?|?]%elem_of_cons.
Qed.

Lemma index_all_size n keys ix : size ix ≤ size (index_all n keys ix).
Proof.
  unfold index_all. revert ix; induction keys as [|k keys IH]; intros ix; cbn [foldl]; [done|].
  etrans; [|apply IH]. apply size_insert_le.
Qed.

Lemma joined_add owner items blocks ix act id keys b :
  joined owner items blocks ix act → id ∈ keys → (∀ k, k ∈ keys → owner !! k = None) → b_open b = true →
  let n := size ix in
  blocks !! lit n = None ∧
  joined (foldl (λ m k, <[k := id]> m) owner keys) (<[id := b]> items) (<[lit n := b]> blocks)
    (index_all n keys ix) ({[n]} ∪ act).
Proof.
  intros J Hin Hfresh Hop n. assert (Hn : n = size ix) by done. clearbody n.
  assert (Hold : ∀ k i, ix !! k = Some i → i < n ∧ k ∉ keys).
  { intros k i Hk. destruct (jn_index _ _ _ _ _ J _ _ Hk) as [Hi [x Hx]]. split; [lia|].
    intros Hkk. by rewrite (Hfresh _ Hkk) in Hx. }
  assert (Hown : ∀ k x, owner !! k = Some x → k ∉ keys).
  { intros k x Hk Hkk. by rewrite (Hfresh _ Hkk) in Hk. }
  assert (Hnew : blocks !! lit n = None).
  { destruct (blocks !! lit n) as [b0|] eqn:Hb; [|done]. exfalso.
    destruct (jn_blocks _ _ _ _ _ J _ _ Hb) as (id0 & i & Hl & Hi & _). apply lit_inj in Hl as <-.
    destruct (Hold _ _ Hi). lia. }
  assert (Hsize : n < size (index_all n keys ix)).
  { destruct keys as [|k keys]; [by apply not_elem_of_nil in Hin|]. unfold index_all. cbn [foldl].
    eapply Nat.lt_le_trans; [|apply (index_all_size n keys)].
    rewrite map_size_insert. destruct (ix !! k) as [i|] eqn:Hk; [|cbn; lia].
    destruct (Hold _ _ Hk) as [_ []]. by left. }
  split; [done|]. split.
  - intros k id'. rewrite foldl_insert_all. unfold index_all. case_decide as Hk.
    + intros [= <-]. exists n, b. rewrite !foldl_insert_all, !decide_True, !lookup_insert_eq by done. done.
    + intros Hk'. destruct (jn_owner _ _ _ _ _ J _ _ Hk') as (i & b0 & Hi & Hid & Ho & Hb & Hbl).
      exists i, b0. rewrite !foldl_insert_all, !decide_False by eauto.
      rewrite lookup_insert_ne by (intros <-; by eapply Hown in Ho). rewrite lookup_insert_ne; [done|].
      intros He. apply lit_inj in He. apply Hold in Hi as [? _]. lia.
  - intros k i. unfold index_all at 1. rewrite !foldl_insert_all. case_decide as Hk.
    + intros [= <-]. by eauto.
    + intros Hi. destruct (jn_index _ _ _ _ _ J _ _ Hi). split; [|done]. lia.
  - intros x y i. unfold index_all. rewrite !foldl_insert_all. do 2 case_decide.
    + congruence.
    + intros _ _ [= <-] Hy. apply Hold in Hy as [? _]. lia.
    + intros _ _ Hx [= <-]. apply Hold in Hx as [? _]. lia.
    + apply (jn_inj _ _ _ _ _ J).
  - intros x b0. rewrite lookup_insert, foldl_insert_all. case_decide as He.
    + subst. intros _. by rewrite decide_True.
    + intros Hx%(jn_items _ _ _ _ _ J). rewrite decide_False by eauto. done.
  - intros m b0. rewrite lookup_insert. case_decide as He.
    + intros _. exists id, n. unfold index_all. rewrite !foldl_insert_all, !decide_True; done.
    + intros Hm. destruct (jn_blocks _ _ _ _ _ J _ _ Hm) as (x & i & -> & Hi & Ho).
      exists x, i. unfold index_all. rewrite !foldl_insert_all, !decide_False by eauto. done.
  - intros i. rewrite elem_of_union, elem_of_singleton, lookup_insert.
    destruct (decide (lit n = lit i)) as [He|He].
    + apply lit_inj in He as <-. split; [eauto|by left].
    + rewrite <-(jn_active _ _ _ _ _ J). split; [intros [-> |]|]; [done|done|by right].
Qed.

(** *** Steps

    Either the client is gone, or the step went through and what was written is a
    session in the given relation to the stream. *)

Definition broken (r : anthropicSSEWriter * option sse_error) : Prop :=
  r.2 = Some ClientWrite ∧ cw_left (writer r.1) = Some 0 ∧ is_Some (reads (cw_log (writer r.1))).

Definition goes (P : session → anthropicSSEWriter → Prop) (r : anthropicSSEWriter * option sse_error) : Prop :=
  broken r ∨ r.2 = None ∧ ∃ c, reads (cw_log (writer r.1)) = Some c ∧ P c r.1.

Lemma goes_andThen P Q f g s :
  goes P (f s) → (∀ c s', reads (cw_log (writer s')) = Some c → P c s' → goes Q (g s')) →
  goes Q (andThen f g s).
Proof.
  unfold goes, andThen. intros [(He & Hl & Hr)|(He & c & Hc & HP)] Hg; destruct (f s) as [s' e]; simpl in *; subst e.
  - left. by split.
  - by eapply Hg.
Qed.

Lemma goes_here (P : session → anthropicSSEWriter → Prop) c s :
  reads (cw_log (writer s)) = Some c → P c s → goes P (s, None).
Proof. intros Hc HP. right. split; [done|]. by exists c. Qed.

Lemma client_step_event type j c :
  text_of "type" j = Some type → client_step (OEvent type j) c = client_event type j c.
Proof. intros H. unfold client_step. by rewrite decide_True. Qed.

(** A relation that does not look at the writer. *)
Lemma goes_emit (P : session → anthropicSSEWriter → Prop) type j s c c' :
  reads (cw_log (writer s)) = Some c → text_of "type" j = Some type → client_event type j c = Some c' →
  (∀ w, P c' (set_writer w s)) → goes P (emit type j s).
Proof.
  intros Hc Ht Hs HP. rewrite <-(client_step_event _ _ _ Ht) in Hs. unfold emit, cw_write.
  destruct (cw_left (writer s)) as [[|n]|] eqn:Hl.
  - left. split; [done|]. split; [done|]. by exists c.
  - right. unfold sse_Flush. simpl. destruct (started s); simpl; (split; [done|]); exists c';
      rewrite !reads_snoc, Hc; cbn [mbind option_bind]; rewrite Hs; (split; [done|apply HP]).
  - right. unfold sse_Flush. simpl. destruct (started s); simpl; (split; [done|]); exists c';
      rewrite !reads_snoc, Hc; cbn [mbind option_bind]; rewrite Hs; (split; [done|apply HP]).
Qed.

Lemma index_block type n rest : index_of (block_event type n rest) = Some (lit n).
Proof. done. Qed.

Lemma streaming_client c k : ss_phase c = Streaming → streaming c k = k.
Proof. intros H. unfold streaming. by rewrite decide_True. Qed.

Lemma open_at_lit c n b : ss_blocks c !! n = Some b → b_open b = true → open_at n c = Some b.
Proof. intros Hb Ho. unfold open_at. rewrite Hb. simpl. by rewrite Ho. Qed.

(** The message is started, and nothing else changes. *)
Lemma goes_startMessage d c s :
  reads (cw_log (writer s)) = Some c → tracks d c s → d_done d = false →
  goes (λ c' s', tracks d c' s' ∧ started s' = true) (startMessage s).
Proof.
  intros Hc T Hd. unfold startMessage. destruct (started s) eqn:Hst.
  { apply (goes_here _ c); [done|]. by split. }
  destruct T as [J Hp Hs He].
  unfold phase_of in Hp. rewrite Hd, Hst in Hp.
  eapply (goes_emit _ _ _ _ c (mkSession Streaming (ss_blocks c))).
  - cbn -[reads app]. by rewrite reads_app, Hc.
  - done.
  - unfold client_event. simpl. by rewrite decide_True.
  - intros w. split; [|done]. split; [done| |done|done]. unfold phase_of. simpl. by rewrite Hd.
Qed.

(** *** What the client makes of each event *)

Lemma client_block_start c n content kind :
  ss_phase c = Streaming → text_of "type" content = Some kind → ss_blocks c !! lit n = None →
  client_event "content_block_start" (block_event "content_block_start" n [("content_block", content)]) c
  = Some (mkSession Streaming (<[lit n := mkBlock (String.eqb kind "tool_use") true ""]> (ss_blocks c))).
Proof.
  intros Hp Hk Hn. change (client_event _ _ c) with (streaming c (Some (lit n) ≫= λ n,
    text_of "type" content ≫= λ kind, match ss_blocks c !! n with Some _ => None
    | None => Some (mkSession Streaming (<[n := mkBlock (String.eqb kind "tool_use") true ""]> (ss_blocks c))) end)).
  rewrite streaming_client, Hk by done. cbn [mbind option_bind]. by rewrite Hn.
Qed.

Lemma client_delta c n b (tool : bool) t :
  ss_phase c = Streaming → ss_blocks c !! lit n = Some b → b_open b = true → b_tool b = tool →
  client_event "content_block_delta" (block_event "content_block_delta" n
    [("delta", JObj ([("type", JStr (if tool then "input_json_delta" else "text_delta"))]
       ++ omit (if tool then "partial_json" else "text") t))]) c
  = Some (mkSession Streaming (<[lit n := extend t b]> (ss_blocks c))).
Proof.
  intros Hp Hb Ho <-. change (client_event _ ?j c) with (streaming c (Some (lit n) ≫= λ n,
    open_at n c ≫= λ b, delta_text (b_tool b) j ≫= λ t,
    Some (mkSession Streaming (<[n := extend t b]> (ss_blocks c))))).
  rewrite streaming_client by done. cbn [mbind option_bind]. rewrite (open_at_lit _ _ _ Hb Ho).
  cbn [mbind option_bind]. unfold omit. destruct (String.eqb_spec t "") as [-> |]; by destruct (b_tool b).
Qed.

Lemma client_block_stop c n b :
  ss_phase c = Streaming → ss_blocks c !! lit n = Some b → b_open b = true →
  client_event "content_block_stop" (block_event "content_block_stop" n []) c
  = Some (mkSession Streaming (<[lit n := close b]> (ss_blocks c))).
Proof.
  intros Hp Hb Ho. change (client_event _ _ c) with (streaming c (Some (lit n) ≫= λ n,
    open_at n c ≫= λ b, Some (mkSession Streaming (<[n := close b]> (ss_blocks c))))).
  rewrite streaming_client by done. cbn [mbind option_bind]. by rewrite (open_at_lit _ _ _ Hb Ho).
Qed.

(** *** The steps of a dialogue *)

Lemma phase_streaming d c s :
  tracks d c s → d_done d = false → started s = true → ss_phase c = Streaming.
Proof. intros T Hd Hs. rewrite (tr_phase _ _ _ T). unfold phase_of. by rewrite Hd, Hs. Qed.

Lemma owner_started d c s k id :
  tracks d c s → d_owner d !! k = Some id → started s = true.
Proof.
  intros T Hk. destruct (started s) eqn:Hs; [done|]. destruct (tr_started _ _ _ T Hs) as [Hix _].
  destruct (jn_owner _ _ _ _ _ (tr_joined _ _ _ T) _ _ Hk) as (i & b & Hi & _).
  by rewrite Hix, lookup_empty in Hi.
Qed.

Lemma goes_open_block d c s i :
  reads (cw_log (writer s)) = Some c → tracks d c s → started s = true → d_done d = false →
  proper_item i = true → (∀ k, k ∈ keys_of i → d_owner d !! k = None) →
  goes (tracks (mkDialogue (announce i (d_owner d))
                 (<[it_ID i := mkBlock (String.eqb (it_Type i) "function_call") true ""]> (d_items d)) false))
    (open_block i s).
Proof.
  intros Hc T Hs Hd Hi Hf. assert (Hp := phase_streaming _ _ _ T Hd Hs). destruct T as [J _ _ He].
  unfold proper_item in Hi. apply andb_true_iff in Hi as [_ Hi].
  assert (Hin : it_ID i ∈ keys_of i) by (unfold keys_of; case_match; by left).
  destruct (joined_add _ _ _ _ _ (it_ID i) (keys_of i) (mkBlock (String.eqb (it_Type i) "function_call") true "")
    J Hin Hf eq_refl) as [Hn J'].
  unfold open_block. unfold announce, keys_of in *. destruct (String.eqb (it_Type i) "function_call").
  - apply andb_true_iff in Hi as [H1%negb_true_iff H2%negb_true_iff]. rewrite H1, H2. simpl orb. cbv iota beta zeta.
    eapply goes_emit; [exact Hc|done|by apply (client_block_start c _ _ "tool_use" Hp)|].
    intros w. split; [exact J'|unfold phase_of; simpl; by rewrite Hs|simpl; by rewrite Hs|simpl; congruence].
  - rewrite Hi. simpl negb. cbv iota beta zeta.
    eapply goes_emit; [exact Hc|done|by apply (client_block_start c _ _ "text" Hp)|].
    intros w. split; [exact J'|unfold phase_of; simpl; by rewrite Hs|simpl; by rewrite Hs|simpl; congruence].
Qed.

Lemma open_item_Some key d id b :
  open_item key d = Some (id, b) → d_owner d !! key = Some id ∧ d_items d !! id = Some b ∧ b_open b = true.
Proof.
  unfold open_item. destruct (d_owner d !! key) as [x|]; simpl; [|done].
  destruct (d_items d !! x) as [y|] eqn:Hy; simpl; [|done]. destruct (b_open y) eqn:Ho; [|done].
  by intros [= <- <-].
Qed.

(** A reference to an open item finds its open block. *)
Lemma open_item_block d c s key id b :
  tracks d c s → open_item key d = Some (id, b) → d_done d = false →
  started s = true ∧ ss_phase c = Streaming ∧ b_open b = true ∧
  ∃ n, indices s !! key = Some n ∧ ss_blocks c !! lit n = Some b ∧ n ∈ active_blocks s ∧
  ∀ b', joined (d_owner d) (<[id := b']> (d_items d)) (<[lit n := b']> (ss_blocks c)) (indices s)
      (if b_open b' then {[n]} ∪ active_blocks s else active_blocks s ∖ {[n]}).
Proof.
  intros T (Hk & Hi & Ho)%open_item_Some Hd. assert (Hs := owner_started _ _ _ _ _ T Hk).
  split; [done|]. split; [by eapply phase_streaming|]. split; [done|].
  destruct (joined_update _ _ _ _ _ _ _ _ (tr_joined _ _ _ T) Hk Hi) as (n & Hn & Hb & J).
  exists n. split; [done|]. split; [done|]. split; [|exact J].
  apply (jn_active _ _ _ _ _ (tr_joined _ _ _ T)). eauto.
Qed.

Lemma goes_delta d c s key id b tool t :
  reads (cw_log (writer s)) = Some c → tracks d c s → d_done d = false →
  open_item key d = Some (id, b) → b_tool b = tool →
  ∃ n, indices s !! key = Some n ∧
  goes (tracks (mkDialogue (d_owner d) (<[id := extend t b]> (d_items d)) false))
    (emitDelta n (if tool then "input_json_delta" else "text_delta") t s).
Proof.
  intros Hc T Hd Ho Ht. destruct (open_item_block _ _ _ _ _ _ T Ho Hd) as (Hs & Hp & Hop & n & Hn & Hb & Ha & J).
  exists n. split; [done|]. specialize (J (extend t b)). cbn [b_open extend] in J. rewrite Hop in J.
  replace ({[n]} ∪ active_blocks s) with (active_blocks s) in J by (symmetry; apply subseteq_union_1_L; by apply singleton_subseteq_l).
  eapply goes_emit with (c' := mkSession Streaming _); [exact Hc|done| |].
  - rewrite <-(client_delta c n b tool t Hp Hb Hop Ht). by destruct tool.
  - intros w. pose proof (tr_ended _ _ _ T).
    split; [exact J|unfold phase_of; simpl; by rewrite Hs|simpl; by rewrite Hs|simpl; congruence].
Qed.

Lemma goes_stop d c s key id b :
  reads (cw_log (writer s)) = Some c → tracks d c s → d_done d = false →
  open_item key d = Some (id, b) →
  ∃ n, indices s !! key = Some n ∧
  goes (λ c' s', tracks (mkDialogue (d_owner d) (<[id := close b]> (d_items d)) false) c' s'
          ∧ active_blocks s' = active_blocks s ∖ {[n]} ∧ started s' = true)
    (stopBlock n s).
Proof.
  intros Hc T Hd Ho. destruct (open_item_block _ _ _ _ _ _ T Ho Hd) as (Hs & Hp & Hop & n & Hn & Hb & Ha & J).
  exists n. split; [done|]. specialize (J (close b)). unfold stopBlock. rewrite decide_True by done.
  eapply goes_emit; [exact Hc|done|by apply client_block_stop|].
  intros w. split; [|done]. pose proof (tr_ended _ _ _ T).
  split; [exact J|unfold phase_of; simpl; by rewrite Hs|simpl; by rewrite Hs|simpl; congruence].
Qed.

Lemma goes_stop_blocks l d c s :
  reads (cw_log (writer s)) = Some c → tracks d c s → d_done d = false → started s = true →
  NoDup l → (∀ n, n ∈ l ↔ n ∈ active_blocks s) →
  goes (λ c' s', ∃ items, tracks (mkDialogue (d_owner d) items false) c' s'
          ∧ close <$> items = close <$> d_items d ∧ active_blocks s' = ∅ ∧ started s' = true)
    (stop_blocks l s).
Proof.
  revert d c s; induction l as [|n l IH]; intros d c s Hc T Hd Hs Hnd Hl; cbn [stop_blocks].
  { apply (goes_here _ c); [done|]. exists (d_items d). destruct d as [ow it dn]. simpl in Hd. subst dn.
    split; [done|]. split; [done|]. split; [|done]. apply set_eq. intros n. rewrite <-Hl.
    split; [by intros ?%not_elem_of_nil|by intros ?%not_elem_of_empty]. }
  apply NoDup_cons in Hnd as [Hn Hnd]. assert (J := tr_joined _ _ _ T).
  assert (Ha : n ∈ active_blocks s) by (apply Hl; by left).
  apply (jn_active _ _ _ _ _ J) in Ha as (b & Hb & Ho).
  destruct (jn_blocks _ _ _ _ _ J _ _ Hb) as (id & i & He & Hi & Hid). apply lit_inj in He as <-.
  destruct (jn_owner _ _ _ _ _ J _ _ Hid) as (i & b' & Hi' & _ & _ & Hit & Hb').
  rewrite Hi in Hi'. injection Hi' as <-. rewrite Hb in Hb'. injection Hb' as <-.
  assert (Hopen : open_item id d = Some (id, b)).
  { unfold open_item. rewrite Hid. cbn [mbind option_bind]. rewrite Hit. cbn [mbind option_bind]. by rewrite Ho. }
  destruct (goes_stop _ _ _ _ _ _ Hc T Hd Hopen) as (n' & Hn' & G). rewrite Hi in Hn'. injection Hn' as <-.
  eapply goes_andThen; [exact G|]. intros c' s' Hc' (T' & Ha' & Hs'). cbv beta.
  assert (Hl' : ∀ m, m ∈ l ↔ m ∈ active_blocks s').
  { intros m. rewrite Ha', elem_of_difference, elem_of_singleton, <-Hl, elem_of_cons.
    split; [intros Hm; split; [by right|by intros ->]|by intros [[-> |] ?]]. }
  destruct (IH _ _ _ Hc' T' eq_refl Hs' Hnd Hl') as [Hbr|(Hok & c2 & Hc2 & items & HT & Hcl & Hrest)]; [by left|].
  right. split; [done|]. exists c2. split; [done|]. exists items. split; [exact HT|]. split; [|done].
  rewrite Hcl. cbn [d_items]. rewrite fmap_insert. change (close (close b)) with (close b).
  apply insert_id. by rewrite lookup_fmap, Hit.
Qed.

(** When no block is active, both sides have closed every one of theirs. *)
Lemma all_stopped owner items blocks ix :
  joined owner items blocks ix ∅ →
  none_open blocks = true ∧ close <$> items = items.
Proof.
  intros J. assert (Hb : ∀ n b, blocks !! n = Some b → b_open b = false).
  { intros n b Hn. destruct (jn_blocks _ _ _ _ _ J _ _ Hn) as (id & i & -> & _).
    destruct (b_open b) eqn:Ho; [|done]. exfalso.
    assert (Hi : i ∈ (∅ : gset nat)) by (apply (jn_active _ _ _ _ _ J); eauto). by apply not_elem_of_empty in Hi. }
  split.
  - unfold none_open. apply forallb_forall. intros [n b] Hin%list_elem_of_In%elem_of_map_to_list. simpl.
    by rewrite (Hb _ _ Hin).
  - apply map_eq. intros id. rewrite lookup_fmap. destruct (items !! id) as [b|] eqn:Hi; [|done]. simpl. f_equal.
    destruct (jn_owner _ _ _ _ _ J _ _ (jn_items _ _ _ _ _ J _ _ Hi)) as (i & b' & _ & _ & _ & Hi' & Hbl).
    rewrite Hi in Hi'. injection Hi' as <-. apply Hb in Hbl. destruct b. simpl in Hbl. by subst.
Qed.

Lemma goes_complete d c s data usage :
  reads (cw_log (writer s)) = Some c → tracks d c s → d_done d = false →
  decode parse None d_output_tokens data = Some usage →
  goes (tracks (mkDialogue (d_owner d) (close <$> d_items d) true)) (completeMessage parse data s).
Proof.
  intros Hc T Hd Hu. eapply goes_andThen; [by eapply goes_startMessage|].
  intros c1 s1 Hc1 [T1 Hs1]. cbv beta. rewrite Hu.
  eapply goes_andThen.
  { eapply goes_stop_blocks; [exact Hc1|exact T1|done|done|..].
    - unfold sorted_indices. rewrite merge_sort_Permutation. apply NoDup_elements.
    - intros n. unfold sorted_indices. rewrite merge_sort_Permutation. apply elem_of_elements. }
  intros c2 s2 Hc2 (items & T2 & Hcl & Ha & Hs2). cbv beta. assert (J := tr_joined _ _ _ T2). rewrite Ha in J.
  cbn [d_owner d_items] in J. destruct (all_stopped _ _ _ _ J) as [Hall Hitems].
  assert (Hp : ss_phase c2 = Streaming) by by eapply phase_streaming.
  eapply (goes_andThen (λ c' s', ss_phase c' = Ending ∧ started s' = true ∧
    joined (d_owner d) (close <$> d_items d) (ss_blocks c') (indices s') (active_blocks s'))).
  { eapply goes_emit; [exact Hc2|done| |].
    - change (client_event _ _ c2) with (streaming c2 (
        if none_open (ss_blocks c2) then Some (mkSession Ending (ss_blocks c2)) else None)).
      rewrite streaming_client, Hall; done.
    - intros w. split; [done|]. split; [done|]. simpl. rewrite <-Hcl, Hitems, Ha. exact J. }
  intros c3 s3 Hc3 (Hp3 & Hs3 & J3).
  eapply (goes_andThen (λ c' s', ss_phase c' = Ending ∧ started s' = true ∧ ended s' = true ∧
    joined (d_owner d) (close <$> d_items d) (ss_blocks c') (indices s') (active_blocks s'))).
  { apply (goes_here _ c3); done. }
  intros c4 s4 Hc4 (Hp4 & Hs4 & He4 & J4).
  eapply goes_emit; [exact Hc4|done| |].
  - change (client_event _ _ c4) with (if decide (ss_phase c4 = Ending)
      then Some (mkSession Ended (ss_blocks c4)) else None). by rewrite decide_True.
  - intros w. split; [exact J4|done|simpl; by rewrite Hs4|done].
Qed.

(** *** Events *)

Lemma goes_event raw u d d' c s :
  reads (cw_log (writer s)) = Some c → tracks d c s →
  upstream_of raw = Some u → upstream_step u d = Some d' →
  goes (tracks d') (handleEvent parse raw s).
Proof.
  intros Hc T. unfold upstream_of, handleEvent, upstream_step.
  destruct (parseResponsesSSEEvent raw) as [type data].
  destruct (d_done d) eqn:Hd; [done|].
  destruct (String.eqb type "response.created").
  { destruct (decode parse "" d_response_id data) as [id|]; [|done]. intros [= <-].
    destruct (String.eqb id ""); [done|]. intros [= <-].
    assert (T' : tracks d c (set_messageID id s)) by (destruct T; by split).
    destruct (goes_startMessage d c (set_messageID id s) Hc T' Hd) as [Hb|(? & c' & ? & ? & _)]; [by left|].
    right. eauto. }
  destruct (String.eqb type "response.output_item.added").
  { unfold startOutputItem. destruct (decode parse _ d_item data) as [i|]; [|done]. intros [= <-].
    destruct (proper_item i) eqn:Hi; [|done]. simpl andb. case_match eqn:Hf; [|done]. intros [= <-].
    assert (Hid : String.eqb (it_ID i) "" = false).
    { unfold proper_item in Hi. by destruct (String.eqb (it_ID i) ""). }
    rewrite Hid. eapply goes_andThen; [by eapply goes_startMessage|].
    intros c1 s1 Hc1 [T1 Hs1]. eapply goes_open_block; [exact Hc1|done..|].
    intros k Hk. rewrite forallb_forall in Hf.
    by apply (bool_decide_eq_true_1 (d_owner d !! k = None)), Hf, list_elem_of_In. }
  destruct (String.eqb type "response.output_text.delta").
  { unfold writeTextDelta. destruct (decode parse _ d_text_delta data) as [[key t]|]; [|done]. intros [= <-].
    cbn [fst snd]. destruct (open_item key d) as [[id b]|] eqn:Ho; [|done]. cbn [mbind option_bind].
    destruct (b_tool b) eqn:Ht; [done|]. intros [= <-].
    destruct (goes_delta _ _ _ _ _ _ _ t Hc T Hd Ho Ht) as (n & -> & G). exact G. }
  destruct (String.eqb type "response.function_call_arguments.delta").
  { unfold writeToolDelta. destruct (decode parse _ d_arguments data) as [a|]; [|done]. intros [= <-].
    set (key := if String.eqb (ad_ItemID a) "" then _ else _).
    destruct (open_item key d) as [[id b]|] eqn:Ho; [|done]. cbn [mbind option_bind].
    destruct (b_tool b) eqn:Ht; [|done]. intros [= <-].
    destruct (goes_delta _ _ _ _ _ _ _ (ad_Delta a) Hc T Hd Ho Ht) as (n & -> & G). exact G. }
  destruct (String.eqb type "response.output_item.done").
  { unfold stopOutputItem. destruct (decode parse _ d_item_done data) as [[id0 call]|]; [|done]. intros [= <-].
    cbn [fst snd]. set (key := if String.eqb id0 "" then _ else _).
    destruct (open_item key d) as [[id b]|] eqn:Ho; [|done]. cbn [mbind option_bind]. intros [= <-].
    destruct (goes_stop _ _ _ _ _ _ Hc T Hd Ho) as (n & -> & [Hb|(? & c' & ? & ? & _)]); [by left|].
    right. eauto. }
  destruct (String.eqb type "response.completed").
  { destruct (decode parse _ d_output_tokens data) as [usage|] eqn:Hu; [|done]. intros [= <-] [= <-].
    by eapply goes_complete. }
  destruct (_ || _); [|done]. intros [= <-] [= <-]. by apply (goes_here _ c).
Qed.

Lemma tracks_silent w model : tracks silent waiting (newAnthropicSSEWriter w model).
Proof. split; [exact joined_empty|done..]. Qed.

(** A client that read the whole dialogue, or was gone before. *)
Definition told (d : dialogue) (s : anthropicSSEWriter) : Prop :=
  (sse_err s = Some ClientWrite ∧ cw_left (writer s) = Some 0 ∧ is_Some (reads (cw_log (writer s))))
  ∨ (sse_err s = None ∧ ∃ c, reads (cw_log (writer s)) = Some c ∧ tracks d c s).

Lemma upstream_run_None es : foldl (λ d e, d ≫= λ d, upstream_of e ≫= λ u, upstream_step u d) None es = None.
Proof. by induction es. Qed.

Lemma told_all es d d' c s :
  reads (cw_log (writer s)) = Some c → tracks d c s → sse_err s = None →
  foldl (λ d e, d ≫= λ d, upstream_of e ≫= λ u, upstream_step u d) (Some d) es = Some d' →
  told d' (handle_all parse es s).
Proof.
  revert d c s; induction es as [|e es IH]; intros d c s Hc T Hs; cbn [foldl handle_all].
  { intros [= <-]. right. eauto. }
  cbn [mbind option_bind]. destruct (upstream_of e) as [u|] eqn:Hu; cbn [mbind option_bind]; [|by rewrite upstream_run_None].
  destruct (upstream_step u d) as [d1|] eqn:Hd; [|by rewrite upstream_run_None]. intros Hrun.
  pose proof (proj2 (frame_handleEvent parse e s)) as He.
  destruct (goes_event _ _ _ _ _ _ Hc T Hu Hd) as [(Hx & Hl & Hr)|(Hx & c1 & Hc1 & T1)];
    destruct (handleEvent parse e s) as [s1 x]; simpl in *; subst x.
  - left. by split.
  - eapply IH; [exact Hc1|exact T1|congruence|exact Hrun].
Qed.

(** ** Properties *)

(** What a client was sent in pieces of any size. *)
Definition write_all (chunks : list string) (s : anthropicSSEWriter) : anthropicSSEWriter :=
  foldl (λ s c, sse_Write parse c s) s chunks.

Definition within_limit (s : string) : Prop := (Z.of_nat (String.length s) ≤ anthropicSSEBufferLimit)%Z.

(** The blocks the client collected are the items of the dialogue, each once, with
    its kind and its text. *)
Definition mirrors (d : dialogue) (c : session) : Prop := ∃ name : string → string,
  (∀ id b, d_items d !! id = Some b → ss_blocks c !! name id = Some b)
  ∧ (∀ n b, ss_blocks c !! n = Some b → ∃ id, n = name id ∧ d_items d !! id = Some b)
  ∧ (∀ id id', is_Some (d_items d !! id) → is_Some (d_items d !! id') → name id = name id' → id = id').

Lemma tracks_mirrors d c s : tracks d c s → mirrors d c.
Proof.
  intros [J _ _ _]. exists (λ id, lit (default 0 (indices s !! id))). split; [|split].
  - intros id b Hb. destruct (jn_owner _ _ _ _ _ J _ _ (jn_items _ _ _ _ _ J _ _ Hb)) as (i & b' & Hi & _ & _ & Hb' & Hbl).
    rewrite Hi. simpl. congruence.
  - intros n b Hb. destruct (jn_blocks _ _ _ _ _ J _ _ Hb) as (id & i & -> & Hi & Ho). exists id. rewrite Hi.
    split; [done|]. destruct (jn_owner _ _ _ _ _ J _ _ Ho) as (i' & b' & Hi' & _ & _ & Hb' & Hbl). congruence.
  - intros x y [bx Hx%(jn_items _ _ _ _ _ J)] [b Hy%(jn_items _ _ _ _ _ J)].
    destruct (jn_owner _ _ _ _ _ J _ _ Hx) as (i & ? & Hi & _).
    destruct (jn_owner _ _ _ _ _ J _ _ Hy) as (j & ? & Hj & _).
    rewrite Hi, Hj. simpl. intros <-%lit_inj. by eapply (jn_inj _ _ _ _ _ J).
Qed.

Lemma new_stream_writes chunks w model :
  no_cr (concat_str chunks) → within_limit (concat_str chunks) →
  let es := all_events (concat_str chunks) in
  same_stream (write_all chunks (newAnthropicSSEWriter w model))
    (set_pending es.2 (handle_all parse es.1 (newAnthropicSSEWriter w model))).
Proof. intros Hc Hl. by apply writes_events. Qed.

(** Chunk boundaries do not matter.  However a transport cuts its events into
    writes, the client is sent the same things and the stream ends up the same, as
    long as the text has no carriage return and fits the buffer. *)
Theorem anthropic_chunks_irrelevant chunks chunks' w model :
  concat_str chunks = concat_str chunks' → no_cr (concat_str chunks) → within_limit (concat_str chunks) →
  same_stream (write_all chunks (newAnthropicSSEWriter w model))
    (write_all chunks' (newAnthropicSSEWriter w model)).
Proof.
  intros He Hc Hl. etrans; [by apply new_stream_writes|]. rewrite He in Hc, Hl |- *.
  symmetry. by apply new_stream_writes.
Qed.

(** C17. A dialogue is told as a well-formed message.  When a Responses transport
    announces items under fresh identifiers, refers to open ones and completes last,
    the client accepts every event it is sent, in whatever pieces the text came: the
    message starts once, blocks start once and are filled while they are open, and
    after the last stop come the message delta and the message stop.  Its blocks are
    the items, each with its kind and all of its text.  The stream reports an end
    exactly when the dialogue completed; it fails only when the client is gone. *)
Theorem anthropic_stream_is_well_formed chunks w model d :
  cw_log w = [] → no_cr (concat_str chunks) → within_limit (concat_str chunks) →
  upstream_run (all_events (concat_str chunks)).1 = Some d →
  let s := write_all chunks (newAnthropicSSEWriter w model) in
  (sse_err s = Some ClientWrite ∧ cw_left (writer s) = Some 0 ∧ is_Some (reads (cw_log (writer s))))
  ∨ ∃ c, reads (cw_log (writer s)) = Some c ∧ mirrors d c
      ∧ (ss_phase c = Ended ↔ d_done d = true)
      ∧ Finish s = if d_done d then None else Some EndedEarly.
Proof.
  intros Hw Hc Hl Hrun s. destruct (new_stream_writes chunks w model Hc Hl) as [Hs _]. fold s in Hs.
  destruct (told_all _ _ d waiting (newAnthropicSSEWriter w model)
    ltac:(simpl; by rewrite Hw) (tracks_silent w model) eq_refl Hrun) as [(He & Hd & Hr)|(He & c & Hr & T)].
  all: assert (Hwr := f_equal writer Hs); assert (Hse := f_equal sse_err Hs); assert (Hen := f_equal ended Hs);
    cbn [writer sse_err ended set_pending] in Hwr, Hse, Hen; rewrite ?Hwr, ?Hse.
  { left. by split. }
  right. exists c. split; [done|]. split; [by eapply tracks_mirrors|]. split.
  - rewrite (tr_phase _ _ _ T). unfold phase_of. destruct (d_done d); [done|]. by case_match.
  - unfold Finish. rewrite Hse, He, Hen, (tr_ended _ _ _ T). done.
Qed.

End protocol.

(** ** Examples *)

Module ExampleProtocol.

Definition texts : list (string * json) := [
  ("created", JObj [("response", JObj [("id", JStr "resp_1")])]);
  ("message", JObj [("item", JObj [("id", JStr "msg_1"); ("type", JStr "message")])]);
  ("hel", JObj [("item_id", JStr "msg_1"); ("delta", JStr "hel")]);
  ("lo", JObj [("item_id", JStr "msg_1"); ("delta", JStr "lo")]);
  ("message done", JObj [("item", JObj [("id", JStr "msg_1")])]);
  ("call", JObj [("item", JObj [("id", JStr "fc_1"); ("type", JStr "function_call");
     ("call_id", JStr "call_1"); ("name", JStr "read")])]);
  ("arguments", JObj [("call_id", JStr "call_1"); ("delta", JStr "{}")]);
  ("second", JObj [("item", JObj [("id", JStr "msg_2"); ("type", JStr "message")])]);
  ("completed", JObj [("response", JObj [("usage", JObj [("output_tokens", JNum "3")])])])].

Definition parse (s : string) : option json := list_to_map (M := gmap string json) texts !! s.

Definition event (type data : string) : string :=
  "event: " +:+ type +:+ newline +:+ "data: " +:+ data +:+ newline +:+ newline.

Definition answer : list string := [
  event "response.created" "created"; event "response.output_item.added" "message";
  event "response.output_text.delta" "hel"; event "response.output_text.delta" "lo";
  event "response.output_item.added" "call"; event "response.output_item.done" "message done";
  event "response.function_call_arguments.delta" "arguments";
  event "response.output_item.added" "second"; event "response.completed" "completed"].

Definition client : client_writer := mkWriter [] None.

(** The same text in pieces of seven bytes. *)
Fixpoint pieces (fuel : nat) (s : string) : list string :=
  match fuel with
  | 0 => []
  | S fuel => String.substring 0 7 s :: pieces fuel (String.substring 7 (String.length s - 7) s)
  end.

Lemma anthropic_chunks_irrelevant_witness :
  same_stream (write_all parse answer (newAnthropicSSEWriter client "opus"))
    (write_all parse (pieces 100 (concat_str answer)) (newAnthropicSSEWriter client "opus")).
Proof.
  apply anthropic_chunks_irrelevant; [reflexivity|reflexivity|]. by apply Z.leb_le.
Defined.

Lemma anthropic_stream_is_well_formed_witness :
  ∃ d, upstream_run parse (all_events (concat_str answer)).1 = Some d ∧ d_done d = true ∧
  let s := write_all parse answer (newAnthropicSSEWriter client "opus") in
  (sse_err s = Some ClientWrite ∧ cw_left (writer s) = Some 0 ∧ is_Some (reads (cw_log (writer s))))
  ∨ ∃ c, reads (cw_log (writer s)) = Some c ∧ mirrors d c
      ∧ (ss_phase c = Ended ↔ d_done d = true) ∧ Finish s = if d_done d then None else Some EndedEarly.
Proof.
  destruct (upstream_run parse (all_events (concat_str answer)).1) as [d|] eqn:Hrun.
  2: { vm_compute in Hrun. discriminate Hrun. }
  exists d. split; [done|]. split.
  - vm_compute in Hrun. injection Hrun as <-. reflexivity.
  - apply anthropic_stream_is_well_formed; [reflexivity|reflexivity|by apply Z.leb_le|exact Hrun].
Defined.

(** A call takes two identifiers, so the index after its block is left out. *)
Example indices_skip_after_a_call :
  omap (λ o, match o with OEvent "content_block_start" j => index_of j | _ => None end)
    (cw_log (writer (write_all parse answer (newAnthropicSSEWriter client "opus"))))
  = ["0"; "1"; "3"].
Proof. reflexivity. Qed.

(** A carriage return and its line feed in two writes are not taken as one line end:
    the event is never found. *)
Example split_line_end :
  let cr := String (ascii_of_nat 13) "" in
  let start := "event: response.created" +:+ cr +:+ newline +:+ "data: created" +:+ cr +:+ newline in
  let whole := write_all parse [start +:+ cr +:+ newline] (newAnthropicSSEWriter client "opus") in
  let halves := write_all parse [start +:+ cr; newline] (newAnthropicSSEWriter client "opus") in
  started whole = true ∧ started halves = false ∧ sse_err halves = None.
Proof. by vm_compute. Qed.

(** Nothing stops a delta for a block that was stopped, and the client refuses it. *)
Example delta_after_stop :
  let s := write_all parse [event "response.output_item.added" "message";
    event "response.output_item.done" "message done"; event "response.output_text.delta" "lo"]
    (newAnthropicSSEWriter client "opus") in
  sse_err s = None ∧ reads (cw_log (writer s)) = None.
Proof. by vm_compute. Qed.

(** An event the facade has no name for ends the stream: the parts of an item are
    announced by such events. *)
Example content_part_is_refused :
  let s := write_all parse [event "response.output_item.added" "message";
    event "response.content_part.added" "message"] (newAnthropicSSEWriter client "opus") in
  sse_err s = Some (UnsupportedEvent "response.content_part.added").
Proof. reflexivity. Qed.

End ExampleProtocol.
