(* ===== verification/AnthropicHandler.v ===== *)
(** * The Anthropic facade: one request

    [src/src/anthropic_handler.go], [anthropic_response.go], [anthropic_error.go] and
    [anthropic_header_policy.go].  A request is routed once: the facade has no
    failover. *)

From S2P Require Import Prelude GoStd Provider Config Availability Cooldown Routing Telemetry.
From S2P Require Import Writers Usage Failover GoJson Responses Transport AnthropicRequest AnthropicStream AnthropicProtocol.

#[local] Set Default Proof Using "Type".

(** ** Headers *)

Inductive disposition := HeaderTranslated | HeaderConsumed | HeaderForwarded | HeaderRejected.

#[export] Instance disposition_eq_dec : EqDecision disposition.
Proof. solve_decision. Defined.

(* src/src/anthropic_header_policy.go classifyAnthropicHeader *)
Definition classifyAnthropicHeader (header : string) : disposition :=
  let normalized := ToLower (TrimSpace header) in
  if String.eqb normalized "idempotency-key" then HeaderForwarded
  else if decide (normalized ∈ ["authorization"; "x-api-key"; "content-type"; "accept"]) then HeaderConsumed
  else if HasPrefix normalized "anthropic-" || HasPrefix normalized "x-claude-code-" then HeaderConsumed
  else HeaderConsumed.

(** The headers of the request upstream. *)
(* src/src/anthropic_handler.go nativeResponsesRequest *)
Definition nativeResponsesRequest (headers : list (string * list string)) : list (string * list string) :=
  filter (λ h, classifyAnthropicHeader h.1 = HeaderForwarded) headers.

(** The value a header has after what was done with the writer. *)
Definition header_value (log : list out) (key : string) : string :=
  foldl (λ v o, match o with
    | OHeader k x => if String.eqb k key then x else v
    | ODelHeader k => if String.eqb k key then "" else v
    | _ => v end) "" log.

(** ** Whole answers *)

(* src/src/anthropic_handler.go anthropicCapture *)
Record anthropicCapture := mkCapture { ca_header : gmap string string; ca_status : Z; ca_body : string }.

(* src/src/anthropic_handler.go newAnthropicCapture *)
Definition newAnthropicCapture : anthropicCapture := mkCapture ∅ 0 "".

(* src/src/anthropic_handler.go anthropicCapture.WriteHeader *)
Definition ca_WriteHeader (status : Z) (c : anthropicCapture) : anthropicCapture :=
  if (ca_status c =? 0)%Z then mkCapture (ca_header c) status (ca_body c) else c.

(* src/src/anthropic_handler.go anthropicCapture.Write *)
Definition ca_Write (body : string) (c : anthropicCapture) : anthropicCapture :=
  mkCapture (ca_header c) (if (ca_status c =? 0)%Z then StatusOK else ca_status c) (ca_body c +:+ body).

(* src/src/anthropic_handler.go anthropicCapture.StatusCode *)
Definition ca_StatusCode (c : anthropicCapture) : Z :=
  if (ca_status c =? 0)%Z then StatusOK else ca_status c.

(** [Flush] does nothing. *)
(* src/src/anthropic_handler.go anthropicCapture.Flush *)
Definition capture_act (c : anthropicCapture) (x : action) : anthropicCapture :=
  match x with
  | ASetHeader k v => mkCapture (<[k := v]> (ca_header c)) (ca_status c) (ca_body c)
  | ADelHeader k => mkCapture (delete k (ca_header c)) (ca_status c) (ca_body c)
  | AWriteHeader code => ca_WriteHeader code c
  | AWrite data => ca_Write data c
  | AFlush => c
  end.

Definition header_get (key : string) (h : gmap string string) : string := default "" (h !! key).

(* src/src/anthropic_handler.go copyAnthropicSafeHeaders *)
Definition copyAnthropicSafeHeaders (source : gmap string string) (w : client_writer) : client_writer :=
  foldl (λ w key, let value := header_get key source in
    if String.eqb value "" then w else cw_note [OHeader key value] w)
    w ["Retry-After"; "Request-Id"; "X-Request-Id"].

Inductive message_error :=
| ParseResult | ResultError (type : string) | IncompleteFunctionCall | NoStableID | NoResultID.

(* src/src/anthropic_response.go anthropicMessageResponse *)
Definition message_json (id : string) (content : list json) (model stopReason : string) (usage : json) : json :=
  JObj [("id", JStr id); ("type", JStr "message"); ("role", JStr "assistant"); ("content", JArr content);
    ("model", JStr model); ("stop_reason", JStr stopReason); ("stop_sequence", JNull); ("usage", usage)].

Section whole.
Context (parse : string → option json) (float_to_int : string → option Z).

(** The content an item gives, and whether it is a tool use. *)
(* src/src/anthropic_response.go:46-69 responsesToAnthropicMessage *)
Definition item_content (item : responsesAPIOutput) : result (list json * bool) message_error :=
  if String.eqb (ro_Type item) "message" then
    Ok (omap (λ p, if String.eqb (cp_Type p) "output_text" then Some (text_content (cp_Text p)) else None)
          (ro_Content item), false)
  else if String.eqb (ro_Type item) "function_call" then
    match parse (ro_Arguments item) with
    | Some input =>
      if String.eqb (ro_Name item) "" || String.eqb (ro_Arguments item) "" then Err IncompleteFunctionCall
      else
        let id := if String.eqb (ro_CallID item) "" then ro_ID item else ro_CallID item in
        if String.eqb id "" then Err NoStableID
        else Ok ([tool_content id (ro_Name item) input], true)
    | None => Err IncompleteFunctionCall
    end
  else Ok ([], false).

Fixpoint items_content (items : list responsesAPIOutput) : result (list json * bool) message_error :=
  match items with
  | [] => Ok ([], false)
  | item :: items =>
    let? '(content, tool) := item_content item in
    let? '(rest, tools) := items_content items in
    Ok (content ++ rest, tool || tools)
  end.

(* src/src/anthropic_response.go responsesToAnthropicMessage *)
Definition responsesToAnthropicMessage (body publicModel : string) : result json message_error :=
  match decode_raw zero_result (d_result float_to_int) (parse body) with
  | None => Err ParseResult
  | Some response =>
    match rs_Error response with
    | Some e => Err (ResultError (ae_Type e))
    | None =>
      let? '(content, tool) := items_content (rs_Output response) in
      let content := match content with [] => [text_content ""] | _ => content end in
      if String.eqb (rs_ID response) "" then Err NoResultID
      else Ok (message_json (rs_ID response) content publicModel (if tool then "tool_use" else "end_turn")
        match rs_Usage response with
        | Some u => usage_json (us_Input u) (us_Output u)
        | None => usage_json 0 0
        end)
    end
  end.

End whole.

(** ** Errors *)

(* src/src/anthropic_error.go anthropicErrorDetails *)
Definition anthropicErrorDetails (kind : ProviderErrorKind) : string * string :=
  match kind with
  | ProviderErrorInvalidRequest | ProviderErrorUnsupported =>
    ("invalid_request_error", "request uses an unsupported capability")
  | ProviderErrorAuthRequired => ("authentication_error", "gateway authentication failed")
  | ProviderErrorEntitlement => ("permission_error", "upstream entitlement denied")
  | ProviderErrorRateLimit => ("rate_limit_error", "upstream rate limit reached")
  | ProviderErrorModelUnavailable | ProviderErrorUnavailable =>
    ("api_error", "no compatible upstream is available")
  | ProviderErrorTransport => ("api_error", "upstream request failed")
  end.

Definition error_json (type message : string) : json :=
  JObj [("type", JStr "error"); ("error", JObj [("type", JStr type); ("message", JStr message)])].

Definition error_body (err : option perr) : json :=
  match err ≫= pe_provider with
  | Some (kind, _) => let '(type, message) := anthropicErrorDetails kind in error_json type message
  | None => error_json "api_error" "request failed"
  end.

Definition put_body (j : json) (w : client_writer) : client_writer := fst (cw_write (OBody j) w).

(* src/src/anthropic_error.go writeAnthropicError *)
Definition writeAnthropicError (status : Z) (err : option perr) (w : client_writer) : client_writer :=
  let status := if (status <=? 0)%Z then StatusInternalServerError else status in
  put_body (error_body err) (cw_note [OHeader "Content-Type" "application/json"; OStatus status] w).

Definition answer_error (kind : ProviderErrorKind) (status : Z) (message : string) (w : client_writer)
    : client_writer :=
  writeAnthropicError status (Some (newProviderError kind status message)) w.

(* src/src/anthropic_handler.go writeAnthropicRouteError *)
Definition writeAnthropicRouteError (err : resolve_error) (w : client_writer) : client_writer :=
  match err with
  | NoActiveTarget _ =>
    answer_error ProviderErrorModelUnavailable StatusServiceUnavailable "no active target is available" w
  | _ => answer_error ProviderErrorInvalidRequest StatusBadRequest "model is unavailable for Responses" w
  end.

(** ** The handler *)

Record request := mkHTTP {
  h_Method : string; h_Path : string; h_Headers : list (string * list string); h_Body : option string;
}.

(** What a request meets: [ah_behave] is what the provider does with its writer, given
    the headers and the body of the native request. *)
Record anthropic_env := mkAEnv {
  ah_behave : string → list (string * list string) → string → list action * option perr;
  ah_begin : Time; ah_end : Time; ah_fault : option persist_fault; ah_recorder : bool;
}.

Section handler.
Context {Bytes : Type} `{StateCodec Bytes} `{JSON}.
Context (raw_text : json → string) (float_text : string → option string) (float_to_int : string → option Z).

Record anthropic_world := mkAWorld {
  aw_router : Router Bytes; aw_telemetry : Recorder; aw_client : client_writer;
}.

Definition aw_put (f : client_writer → client_writer) (w : anthropic_world) : anthropic_world :=
  mkAWorld (aw_router w) (aw_telemetry w) (f (aw_client w)).

(** The writers of a stream: the usage tee over the event translator. *)
Definition stream_act (st : usageSniffWriter * anthropicSSEWriter) (x : action)
    : usageSniffWriter * anthropicSSEWriter :=
  let '(u, s) := st in
  match x with
  | ASetHeader k v => (u, set_writer (cw_note [OHeader k v] (writer s)) s)
  | ADelHeader k => (u, set_writer (cw_note [ODelHeader k] (writer s)) s)
  | AWriteHeader code => (u, sse_WriteHeader code s)
  | AWrite data => (u_tee data u, sse_Write json_unmarshal data s)
  | AFlush => (u, sse_Flush s)
  end.

(** [RecordOutcome] is called for an umbrella route only. *)
Definition record (e : anthropic_env) (route : Result) (status : Z) (err : option perr) (retryAfter : Duration)
    (r : Router Bytes) : Router Bytes :=
  RecordOutcome (ah_end e) (ah_fault e) (Selection route) status (pe_go <$> err) retryAfter r.

(* src/src/anthropic_handler.go:50-73 anthropicHandler *)
Definition stream_request (e : anthropic_env) (model : string) (route : Result)
    (script : list action) (err : option perr) (handle : nat) (w : anthropic_world) : anthropic_world :=
  let '(u, s) := foldl stream_act (mkUsageWriter "" false, newAnthropicSSEWriter (aw_client w) model) script in
  let proxyErr := match err with
    | Some x => Some x
    | None => (λ _, mkPerr "stream" (mkError false false) None) <$> AnthropicStream.Finish s
    end in
  let status := sse_StatusCode s in
  let router := record e route status proxyErr
    (retryAfterDuration (header_value (cw_log (writer s)) "Retry-After")) (aw_router w) in
  let success := negb (bool_decide (is_Some proxyErr)) && (status <? StatusBadRequest)%Z in
  let telemetry := Telemetry.Finish (ah_end e) handle
    (mkOutcome success (classifyErrorCategory status proxyErr) success (Usage_of u)) (aw_telemetry w) in
  let client := if bool_decide (is_Some proxyErr) && negb (started s)
    then writeAnthropicError (providerErrorStatus proxyErr) proxyErr (writer s) else writer s in
  mkAWorld router telemetry client.

(* src/src/anthropic_handler.go:74-111 anthropicHandler *)
Definition whole_request (e : anthropic_env) (model : string) (route : Result)
    (script : list action) (err : option perr) (handle : nat) (w : anthropic_world) : anthropic_world :=
  let capture := foldl capture_act newAnthropicCapture script in
  let status := ca_StatusCode capture in
  let retryAfter := retryAfterDuration (header_get "Retry-After" (ca_header capture)) in
  let finish (outcome : Outcome) := Telemetry.Finish (ah_end e) handle outcome (aw_telemetry w) in
  match err with
  | Some _ =>
    mkAWorld (record e route (providerErrorStatus err) err retryAfter (aw_router w))
      (finish (mkOutcome false (classifyErrorCategory (providerErrorStatus err) err) false None))
      (writeAnthropicError (providerErrorStatus err) err
         (copyAnthropicSafeHeaders (ca_header capture) (aw_client w)))
  | None =>
    let router := record e route status None retryAfter (aw_router w) in
    if (StatusBadRequest <=? status)%Z then
      mkAWorld router (finish (mkOutcome false (classifyErrorCategory status None) false None))
        (answer_error (classifyUpstreamStatus status) status "upstream request failed"
           (copyAnthropicSafeHeaders (ca_header capture) (aw_client w)))
    else
      match responsesToAnthropicMessage json_unmarshal float_to_int (ca_body capture) model with
      | Err _ =>
        mkAWorld router (finish (mkOutcome false ErrorCategoryTransport false None))
          (answer_error ProviderErrorTransport StatusBadGateway "invalid result" (aw_client w))
      | Ok message =>
        mkAWorld router (finish (mkOutcome true ErrorCategoryNone true (sniffUsageJSON (ca_body capture))))
          (put_body message (cw_note [OHeader "Content-Type" "application/json"; OStatus StatusOK] (aw_client w)))
      end
  end.

(** [visit] is the order a range over the body's members takes.  A body that cannot
    be read, or is too large, is [None]. *)
(* src/src/anthropic_handler.go anthropicHandler *)
Definition anthropicHandler (e : anthropic_env) (c : clock) (visit : gmap string json → list (string * json))
    (aliases : gmap string string) (r : request) (w : anthropic_world) : go_outcome anthropic_world :=
  if negb (String.eqb (h_Method r) "POST") then
    Returns (aw_put (answer_error ProviderErrorInvalidRequest StatusMethodNotAllowed "method is not supported") w)
  else if String.eqb (h_Path r) "/v1/messages/count_tokens" then
    Returns (aw_put (answer_error ProviderErrorUnsupported StatusNotImplemented "token counting is not implemented") w)
  else match h_Body r with
  | None =>
    Returns (aw_put (answer_error ProviderErrorInvalidRequest StatusRequestEntityTooLarge "request body is too large") w)
  | Some body =>
    match translateAnthropicRequest json_unmarshal raw_text float_text visit body aliases with
    | Err _ => Returns (aw_put (answer_error ProviderErrorInvalidRequest StatusBadRequest "invalid request") w)
    | Ok translated =>
      let '(router, route) := Resolve c (tr_Model translated) CapabilityResponses (aw_router w) in
      let w := mkAWorld router (aw_telemetry w) (aw_client w) in
      match route with
      | Err err => Returns (aw_put (writeAnthropicRouteError err) w)
      | Ok route =>
        match PatchModel (default "" (json_marshal (tr_Body translated))) (ResolvedModel route) with
        | Panics => Panics
        | Returns nativeBody =>
          let '(telemetry, handle) := Telemetry.Begin (ah_recorder e) (ah_begin e) (p_ID (res_Provider route))
            (ResolvedModel route) (aw_telemetry w) in
          let w := mkAWorld (aw_router w) telemetry (aw_client w) in
          let '(script, err) := ah_behave e (p_ID (res_Provider route))
            (nativeResponsesRequest (h_Headers r)) nativeBody in
          Returns ((if tr_Stream translated then stream_request else whole_request)
                     e (tr_Model translated) route script err handle w)
        end
      end
    end
  end.

End handler.

(** ** Facts *)

Section facts.
Context {Bytes : Type} `{StateCodec Bytes} `{JSON}.
Context (raw_text : json → string) (float_text : string → option string) (float_to_int : string → option Z).

Implicit Types w : anthropic_world (Bytes := Bytes).

(** The bodies a client may get for an error: nothing of an upstream's answer. *)
Definition generic_errors : list json :=
  error_json "api_error" "request failed" :: (uncurry error_json ∘ anthropicErrorDetails <$>
    [ProviderErrorInvalidRequest; ProviderErrorAuthRequired; ProviderErrorEntitlement; ProviderErrorRateLimit;
     ProviderErrorUnsupported; ProviderErrorUnavailable; ProviderErrorTransport; ProviderErrorModelUnavailable]).

Lemma error_body_generic err : error_body err ∈ generic_errors.
Proof.
  unfold error_body. destruct (err ≫= pe_provider) as [[kind status]|]; [|by left].
  right. apply list_elem_of_fmap. exists kind. split; [by destruct kind|]. destruct kind; rewrite !elem_of_cons; tauto.
Qed.

Definition safe_headers : list string := ["Retry-After"; "Request-Id"; "X-Request-Id"].

(** One JSON answer, after safe headers only. *)
Definition answered (log log' : list out) : Prop := ∃ headers status j,
  log' = log ++ ((λ kv, OHeader kv.1 kv.2) <$> headers)
         ++ [OHeader "Content-Type" "application/json"; OStatus status; OBody j]
  ∧ (∀ kv, kv ∈ headers → kv.1 ∈ safe_headers)
  ∧ (j ∈ generic_errors ∨ status = StatusOK ∧ ∃ id content model stop usage, j = message_json id content model stop usage).

Lemma put_body_open j (w : client_writer) : cw_left w = None → cw_log (put_body j w) = cw_log w ++ [OBody j].
Proof. intros Hl. unfold put_body, cw_write. by rewrite Hl. Qed.

Lemma writeAnthropicError_log status err (w : client_writer) :
  cw_left w = None →
  cw_log (writeAnthropicError status err w)
  = cw_log w ++ [OHeader "Content-Type" "application/json";
                 OStatus (if (status <=? 0)%Z then StatusInternalServerError else status); OBody (error_body err)].
Proof. intros Hl. unfold writeAnthropicError. rewrite put_body_open by done. simpl. by rewrite <-(assoc_L (++)). Qed.

Lemma answered_error status err (w : client_writer) :
  cw_left w = None → answered (cw_log w) (cw_log (writeAnthropicError status err w)).
Proof.
  intros Hl. rewrite writeAnthropicError_log by done. exists [], (if (status <=? 0)%Z then StatusInternalServerError else status), (error_body err). split; [done|].
  split; [by intros kv ?%not_elem_of_nil|left; apply error_body_generic].
Qed.

(** The safe headers that are set, in the order they are copied. *)
Lemma copy_log source (w : client_writer) : ∃ headers,
  cw_log (copyAnthropicSafeHeaders source w) = cw_log w ++ ((λ kv, OHeader kv.1 kv.2) <$> headers)
  ∧ (∀ kv, kv ∈ headers → kv.1 ∈ safe_headers) ∧ cw_left (copyAnthropicSafeHeaders source w) = cw_left w.
Proof.
  unfold copyAnthropicSafeHeaders. fold safe_headers. generalize safe_headers as keys. intros keys.
  revert w; induction keys as [|key keys IH]; intros w; cbn [foldl].
  { exists []. rewrite app_nil_r. split; [done|]. split; [by intros kv ?%not_elem_of_nil|done]. }
  destruct (String.eqb (header_get key source) "").
  - destruct (IH w) as (headers & Hl & Hk & Hw). exists headers. split; [done|]. split; [|done].
    intros kv Hkv. right. by apply Hk.
  - destruct (IH (cw_note [OHeader key (header_get key source)] w)) as (headers & Hl & Hk & Hw).
    exists ((key, header_get key source) :: headers). rewrite Hl. simpl. rewrite <-(assoc_L (++)). split; [done|].
    split; [|done]. intros kv [-> |Hkv]%elem_of_cons; [by left|right; by apply Hk].
Qed.

Lemma answered_copied status err source (w : client_writer) :
  cw_left w = None →
  answered (cw_log w) (cw_log (writeAnthropicError status err (copyAnthropicSafeHeaders source w))).
Proof.
  intros Hl. destruct (copy_log source w) as (headers & Hlog & Hk & Hw).
  rewrite writeAnthropicError_log by congruence. rewrite Hlog.
  exists headers, (if (status <=? 0)%Z then StatusInternalServerError else status), (error_body err).
  split; [by rewrite <-(assoc_L (++))|]. split; [done|left; apply error_body_generic].
Qed.

Lemma answered_route_error err (w : client_writer) :
  cw_left w = None → answered (cw_log w) (cw_log (writeAnthropicRouteError err w)).
Proof. intros Hl. destruct err; by apply answered_error. Qed.

Lemma responsesToAnthropicMessage_json body model j :
  responsesToAnthropicMessage json_unmarshal float_to_int body model = Ok j →
  ∃ id content stop usage, j = message_json id content model stop usage.
Proof.
  unfold responsesToAnthropicMessage. destruct (decode_raw _ _ _) as [r|]; [|done].
  destruct (rs_Error r); [done|]. intros ([content tool] & _ & Hr)%bind_result_Ok. cbv zeta in Hr.
  destruct (String.eqb (rs_ID r) ""); [done|]. injection Hr as <-. eauto.
Qed.

Lemma whole_request_answered e model route script err handle w :
  cw_left (aw_client w) = None →
  answered (cw_log (aw_client w))
    (cw_log (aw_client (whole_request float_to_int e model route script err handle w))).
Proof.
  intros Hl. unfold whole_request. cbv zeta. destruct err as [x|]; [by apply answered_copied|].
  destruct (_ <=? _)%Z; [by apply answered_copied|].
  destruct (responsesToAnthropicMessage _ _ _ _) as [j|x] eqn:Hr; [|by apply answered_error].
  apply responsesToAnthropicMessage_json in Hr as (id & content & stop & usage & ->).
  simpl. rewrite put_body_open by done. simpl. rewrite <-(assoc_L (++)).
  eexists [], _, _. split; [done|]. split; [by intros kv ?%not_elem_of_nil|]. right. split; [done|].
  by eexists _, _, _, _, _.
Qed.

Lemma request_closes_its_handle recorder now now' p m outcome (t : Recorder) :
  all_closed t →
  all_closed (Telemetry.Finish now' (Telemetry.Begin recorder now p m t).2 outcome
    (Telemetry.Begin recorder now p m t).1).
Proof.
  intros Ht. pose proof (Begin_Finish_handles recorder now now' p m outcome t) as Hb.
  destruct (Telemetry.Begin recorder now p m t) as [t' h]. simpl. unfold all_closed. rewrite Hb.
  apply Forall_app. by repeat constructor.
Qed.

(** What is relied on of the encoder: the text of an object is not read as [null],
    nor is the empty text. *)
Definition marshal_laws : Prop :=
  json_unmarshal "" ≠ Some JNull ∧ ∀ l s, json_marshal (JObj l) = Some s → json_unmarshal s ≠ Some JNull.

Lemma PatchModel_returns l model :
  marshal_laws → ∃ body, PatchModel (default "" (json_marshal (JObj l))) model = Returns body.
Proof.
  intros [Hempty Hobj]. unfold PatchModel.
  assert (Hn : json_unmarshal (default "" (json_marshal (JObj l))) ≠ Some JNull).
  { destruct (json_marshal (JObj l)) as [s|] eqn:Hs; [by apply (Hobj l)|done]. }
  revert Hn. generalize (json_unmarshal (default "" (json_marshal (JObj l)))).
  intros [[]|] Hn; first [by destruct Hn|by eexists].
Qed.

(** *** A refused stream *)

Lemma stream_headers_act headers u s :
  foldl stream_act (u, s) (map (λ kv, ASetHeader kv.1 kv.2) headers)
  = (u, set_writer (cw_note ((λ kv, OHeader kv.1 kv.2) <$> headers) (writer s)) s).
Proof.
  revert s; induction headers as [|kv headers IH]; intros s; simpl.
  { unfold cw_note. rewrite app_nil_r. by destruct s as [[] ? ? ? ? ? ? ? ? ? ?]. }
  rewrite IH. simpl. unfold set_writer, cw_note. simpl. by rewrite <-(assoc_L (++)).
Qed.

Lemma capture_headers_act (headers : list (string * string)) c :
  ca_status (foldl capture_act c (map (λ kv, ASetHeader kv.1 kv.2) headers)) = ca_status c.
Proof. revert c; induction headers as [|kv headers IH]; intros c; simpl; [done|]. by rewrite IH. Qed.

Lemma write_incomplete data s :
  sse_err s = None → pending s = "" → cut_event (normalize data) = None →
  (Z.of_nat (String.length (normalize data)) ≤ anthropicSSEBufferLimit)%Z →
  sse_Write json_unmarshal data s = set_pending (normalize data) s.
Proof.
  intros He Hp Hc Hl. unfold sse_Write. rewrite He, Hp. change ("" +:+ normalize data) with (normalize data).
  cbv zeta. cbn [pending set_pending]. rewrite (proj2 (Z.ltb_ge _ _)) by done.
  destruct (String.length (normalize data)); simpl; [done|]. by rewrite Hc.
Qed.

(** An answer with an error status whose body is not a stream of events. *)
Definition rejection (r : http_response) : Prop :=
  (StatusBadRequest ≤ r_StatusCode r)%Z ∧ Contains (r_ContentType r) "text/event-stream" = false
  ∧ ub_error (r_body r) = None ∧ cut_event (normalize (ub_text (r_body r))) = None
  ∧ (Z.of_nat (String.length (normalize (ub_text (r_body r)))) ≤ anthropicSSEBufferLimit)%Z.

Lemma rejection_script cuts r :
  rejection r →
  streamResponse cuts r = (map (λ kv, ASetHeader kv.1 kv.2) (r_headers r)
    ++ [AWriteHeader (r_StatusCode r); AWrite (ub_text (r_body r))], None).
Proof. intros (_ & Hc & He & _). unfold streamResponse. by rewrite Hc, He. Qed.

(** *** The content of an answer *)

Definition content_of (j : json) : list json := match member "content" j with Some (JArr l) => l | _ => [] end.

Definition block_text (b : json) : string :=
  if decide (text_of "type" b = Some "text") then default "" (text_of "text" b) else "".

Definition message_text (j : json) : string := foldr (λ b s, block_text b +:+ s) "" (content_of j).

Definition tool_use (b : json) : option (string * json) :=
  if decide (text_of "type" b = Some "tool_use")
  then text_of "name" b ≫= λ name, member "input" b ≫= λ input, Some (name, input) else None.

Definition chat_call (j : json) : option (string * string) :=
  member "function" j ≫= λ f, text_of "name" f ≫= λ name, text_of "arguments" f ≫= λ arguments,
  Some (name, arguments).

Definition chat_calls (answer : json) : list (string * string) :=
  match (choice answer ≫= member "message") ≫= member "tool_calls" with
  | Some (JArr l) => omap chat_call l
  | _ => []
  end.

(** A call of the chat answer, and the tool use of the message. *)
Definition same_call (c : string * string) (u : string * json) : Prop :=
  c.1 = u.1 ∧ json_unmarshal c.2 = Some u.2.

Lemma block_text_content t : block_text (text_content t) = t ∧ tool_use (text_content t) = None.
Proof. unfold text_content. destruct (String.eqb_spec t "") as [-> |]; done. Qed.

Lemma block_text_tool id name input :
  name ≠ "" → block_text (tool_content id name input) = "" ∧ tool_use (tool_content id name input) = Some (name, input).
Proof.
  intros Hn. unfold tool_content, omit. apply String.eqb_neq in Hn. rewrite Hn. by destruct (String.eqb id "").
Qed.

Lemma parts_content parts :
  let l := omap (λ p, if String.eqb (cp_Type p) "output_text" then Some (text_content (cp_Text p)) else None) parts in
  foldr (λ b s, block_text b +:+ s) "" l
  = foldr (λ p s, (if String.eqb (cp_Type p) "output_text" then cp_Text p else "") +:+ s) "" parts
  ∧ omap tool_use l = [].
Proof.
  induction parts as [|p parts [IH1 IH2]]; [done|]. cbv zeta in *. csimpl.
  destruct (String.eqb (cp_Type p) "output_text"); [|done].
  destruct (block_text_content (cp_Text p)) as [Ht _]. csimpl. by rewrite Ht, IH1.
Qed.

Lemma texts_app l l' :
  foldr (λ b s, block_text b +:+ s) "" (l ++ l')
  = foldr (λ b s, block_text b +:+ s) "" l +:+ foldr (λ b s, block_text b +:+ s) "" l'.
Proof. induction l as [|b l IH]; simpl; [done|]. by rewrite IH, str_app_assoc. Qed.

Lemma item_content_same item content tool :
  item_content json_unmarshal item = Ok (content, tool) →
  foldr (λ b s, block_text b +:+ s) "" content = item_text item
  ∧ Forall2 same_call (omap chat_call (match item_call item with Some c => [c] | None => [] end)) (omap tool_use content)
  ∧ tool = bool_decide (is_Some (item_call item)).
Proof.
  unfold item_content, item_text, item_call. destruct (String.eqb_spec (ro_Type item) "message") as [Hm|Hm].
  { intros [= <- <-]. destruct (parts_content (ro_Content item)) as [H1 H2]. split; [exact H1|].
    rewrite Hm. simpl. by rewrite H2. }
  destruct (String.eqb (ro_Type item) "function_call"); [|by intros [= <- <-]].
  destruct (json_unmarshal (ro_Arguments item)) as [input|] eqn:Hp; [|done].
  destruct (String.eqb_spec (ro_Name item) "") as [|Hn]; [done|]. simpl.
  destruct (String.eqb (ro_Arguments item) ""); [done|].
  destruct (String.eqb (if String.eqb (ro_CallID item) "" then ro_ID item else ro_CallID item) ""); [done|].
  intros [= <- <-]. destruct (block_text_tool (if String.eqb (ro_CallID item) "" then ro_ID item else ro_CallID item)
    (ro_Name item) input Hn) as [Ht Hu].
  cbn [foldr omap list_omap]. rewrite Ht, Hu. split; [done|]. split; [by repeat constructor|done].
Qed.

Lemma items_content_same items content tool :
  items_content json_unmarshal items = Ok (content, tool) →
  foldr (λ b s, block_text b +:+ s) "" content = foldr (λ item s, item_text item +:+ s) "" items
  ∧ Forall2 same_call (omap chat_call (omap item_call items)) (omap tool_use content)
  ∧ tool = bool_decide (omap item_call items ≠ []).
Proof.
  revert content tool; induction items as [|item items IH]; intros content tool; simpl.
  { by intros [= <- <-]. }
  intros ([c1 t1] & H1 & Hr)%bind_result_Ok. apply bind_result_Ok in Hr as ([c2 t2] & H2 & [= <- <-]).
  apply item_content_same in H1 as (Ht1 & Hf1 & ->). apply IH in H2 as (Ht2 & Hf2 & ->).
  rewrite texts_app, omap_app, Ht1, Ht2. split; [done|].
  destruct (item_call item) as [c|]; simpl in *.
  - split; [|done]. destruct (chat_call c); exact (Forall2_app Hf1 Hf2).
  - split; [exact (Forall2_app Hf1 Hf2)|done].
Qed.

(** ** Properties *)

(** Both facades read an answer alike.  When an upstream answer can be given as
    an Anthropic message and as a chat completion, the text of both is the same, and
    the tool uses of the message are the tool calls of the completion, in their
    order, under their names and with the value of their arguments; the message
    stops for a tool use exactly when there is one. *)
Theorem anthropic_and_chat_agree body model j answer :
  responsesToAnthropicMessage json_unmarshal float_to_int body model = Ok j →
  responsesToChatCompletion float_to_int (json_unmarshal body) = Ok answer →
  answer_text answer = Some (message_text j)
  ∧ Forall2 same_call (chat_calls answer) (omap tool_use (content_of j))
  ∧ text_of "stop_reason" j = Some (if decide (chat_calls answer = []) then "end_turn" else "tool_use").
Proof.
  unfold responsesToAnthropicMessage. destruct (decode_raw _ _ (json_unmarshal body)) as [r|] eqn:Hd; [|done].
  destruct (rs_Error r) eqn:He; [done|]. intros ([content tool] & Hc & Hr)%bind_result_Ok Ha. cbv zeta in Hr.
  destruct (String.eqb (rs_ID r) ""); [done|]. injection Hr as <-.
  rewrite (answer_text_completion _ _ _ _ Hd Ha), He.
  apply items_content_same in Hc as (Ht & Hf & Htool).
  unfold message_text. change (content_of (message_json ?i ?c ?m ?s ?u)) with c.
  assert (Hcalls : chat_calls answer = omap chat_call (omap item_call (rs_Output r))).
  { unfold responsesToChatCompletion in Ha. rewrite Hd, He in Ha. injection Ha as <-.
    by destruct (rs_Usage r), (omap item_call (rs_Output r)). }
  rewrite Hcalls. split; [|split].
  - f_equal. unfold completion_text. rewrite <-Ht. by destruct content.
  - by destruct content.
  - change (text_of "stop_reason" (message_json ?i ?c ?m ?s ?u)) with (Some s). rewrite Htool.
    f_equal. clear. induction (rs_Output r) as [|item items IH]; [done|]. csimpl.
    destruct (item_call item) as [c|] eqn:Hc; [|done]. unfold item_call in Hc.
    destruct (String.eqb (ro_Type item) "function_call"); [|done]. by injection Hc as <-.
Qed.

(** C19. Every request that asks for a whole answer gets exactly one, whatever the
    provider does: a message with status 200 or one of nine fixed errors, after no
    header but the safe ones; and its telemetry is closed.  The handler does not
    panic, given that the encoder's texts are read back as what they are. *)
Theorem anthropic_answers_once e c visit aliases r w :
  marshal_laws → cw_left (aw_client w) = None → all_closed (aw_telemetry w) →
  (∀ body t, h_Body r = Some body →
     translateAnthropicRequest json_unmarshal raw_text float_text visit body aliases = Ok t → tr_Stream t = false) →
  ∃ w', anthropicHandler raw_text float_text float_to_int e c visit aliases r w = Returns w'
    ∧ answered (cw_log (aw_client w)) (cw_log (aw_client w')) ∧ all_closed (aw_telemetry w').
Proof.
  intros Hm Hl Ht Hs. unfold anthropicHandler.
  destruct (negb _); [eexists; split; [done|]; split; [by apply answered_error|done]|].
  destruct (String.eqb (h_Path r) _); [eexists; split; [done|]; split; [by apply answered_error|done]|].
  destruct (h_Body r) as [body|]; [|eexists; split; [done|]; split; [by apply answered_error|done]].
  destruct (translateAnthropicRequest _ _ _ _ _ _) as [t|x] eqn:Htr;
    [|eexists; split; [done|]; split; [by apply answered_error|done]].
  rewrite (Hs _ _ eq_refl Htr). apply translate_parts in Htr as (v & rq & ins & items & m & _ & _ & _ & _ & _ & -> & _).
  destruct (Resolve _ _ _ _) as [router [route|x]];
    [|eexists; split; [done|]; split; [by apply answered_route_error|done]].
  unfold obj_of_map, obj. cbn [tr_Body]. destruct (PatchModel_returns (sort_members (map_to_list m)) (ResolvedModel route) Hm) as [nb ->].
  cbn [aw_telemetry aw_client aw_router].
  pose proof (λ o, request_closes_its_handle (ah_recorder e) (ah_begin e) (ah_end e) (p_ID (res_Provider route))
    (ResolvedModel route) o (aw_telemetry w) Ht) as Hclose.
  destruct (Telemetry.Begin _ _ _ _ _) as [telemetry handle]. cbn [fst snd] in Hclose.
  destruct (ah_behave _ _ _ _) as [script err]. eexists. split; [done|]. split.
  - by apply (whole_request_answered e _ _ _ _ _ (mkAWorld router telemetry (aw_client w))).
  - unfold whole_request. cbv zeta. destruct err; [apply Hclose|]. destruct (_ <=? _)%Z; [apply Hclose|].
    destruct (responsesToAnthropicMessage _ _ _ _); apply Hclose.
Qed.

(** A stream refused upstream loses its reason.  When a provider passes on an
    answer with an error status, a client that asked for the whole answer gets that
    status and the kind of error it stands for; a client that asked for a stream
    gets 502 and "request failed", after every header of the upstream answer. *)
Theorem streamed_rejection_becomes_bad_gateway e model route cuts r handle w :
  rejection r → cw_left (aw_client w) = None →
  let '(script, err) := streamResponse cuts r in
  cw_log (aw_client (stream_request e model route script err handle w))
  = cw_log (aw_client w) ++ ((λ kv, OHeader kv.1 kv.2) <$> r_headers r)
    ++ [OHeader "Content-Type" "application/json"; OStatus StatusBadGateway; OBody (error_json "api_error" "request failed")]
  ∧ ∃ headers, cw_log (aw_client (whole_request float_to_int e model route script err handle w))
  = cw_log (aw_client w) ++ ((λ kv, OHeader kv.1 kv.2) <$> headers)
    ++ [OHeader "Content-Type" "application/json"; OStatus (r_StatusCode r);
        OBody (uncurry error_json (anthropicErrorDetails (classifyUpstreamStatus (r_StatusCode r))))].
Proof.
  intros Hr Hl. rewrite (rejection_script _ _ Hr). destruct Hr as (Hst & _ & _ & Hcut & Hlen).
  unfold StatusBadRequest in Hst. split.
  - unfold stream_request. rewrite foldl_app, stream_headers_act. cbn [foldl stream_act].
    rewrite write_incomplete by done. unfold sse_WriteHeader. simpl.
    rewrite writeAnthropicError_log by done. simpl. by rewrite <-(assoc_L (++)).
  - unfold whole_request. cbv zeta. rewrite foldl_app. cbn [foldl capture_act].
    set (cap := foldl _ _ _). assert (Hcap : ca_status cap = 0%Z) by apply capture_headers_act. clearbody cap.
    unfold ca_StatusCode, ca_WriteHeader. rewrite Hcap. simpl.
    rewrite (proj2 (Z.eqb_neq (r_StatusCode r) 0)) by lia.
    rewrite (proj2 (Z.eqb_neq (r_StatusCode r) 0)) by lia. unfold StatusBadRequest.
    rewrite (proj2 (Z.leb_le _ _)) by done. cbn [aw_client].
    match goal with |- context [answer_error _ _ _ (copyAnthropicSafeHeaders ?h _)] =>
      destruct (copy_log h (aw_client w)) as (headers & Hlog & _ & Hw) end.
    exists headers. unfold answer_error. rewrite writeAnthropicError_log by congruence. rewrite Hlog.
    rewrite (proj2 (Z.leb_gt _ _)) by lia. rewrite <-(assoc_L (++)). do 4 f_equal.
Qed.

End facts.

(** ** Examples *)

Module ExampleHandler.

Definition answer : json := JObj [
  ("id", JStr "resp_1");
  ("output", JArr [
    JObj [("type", JStr "message"); ("content", JArr [JObj [("type", JStr "output_text"); ("text", JStr "hello")]])];
    JObj [("type", JStr "function_call"); ("call_id", JStr "call_1"); ("name", JStr "read"); ("arguments", JStr "{}")]]);
  ("usage", JObj [("input_tokens", JNum "7"); ("output_tokens", JNum "3")])].

Definition ask : json := JObj [("model", JStr "codex/gpt-5"); ("max_tokens", JNum "64");
  ("messages", JArr [JObj [("role", JStr "user"); ("content", JStr "hi")]])].

Definition texts : gmap string json :=
  {[ "{answer}" := answer; "{}" := JObj []; "{ask}" := ask; "{native}" := JObj []; "created" := JObj [] ]}.

#[export] Instance demo_json : JSON := {
  json_unmarshal s := texts !! s;
  json_marshal j := Some "{native}";
  json_string_field _ _ := None;
  json_int_fields _ _ := None;
}.

Definition raw_text (j : json) : string := "{}".
Definition float_text (s : string) : option string := Some s.
Definition float_to_int (s : string) : option Z := Atoi s.

Definition codex : Provider :=
  mkProvider Codex [CapabilityChat; CapabilityResponses] (Ok (Some ["gpt-5"])) (mkHealth true true "" zeroTime)
    (Some (Some (["gpt-5"], 5%Z, false))) None.
Definition router : Router persistedCooldownState :=
  NewRouter (Registry.NewRegistry [Some codex]) example_routing.
Definition direct : Result := mkRoute codex "gpt-5" None.
Definition client : client_writer := mkWriter [] None.

Definition world0 : anthropic_world (Bytes := persistedCooldownState) :=
  mkAWorld router NewRecorder client.

(** The provider answers with [body] and this status. *)
Definition answering (status : Z) (body : string) : anthropic_env :=
  mkAEnv (λ _ _ _, ([AWriteHeader status; AWrite body], None)) 200 300 None true.

Definition post (body : string) : request := mkHTTP "POST" "/v1/messages" [] (Some body).

Definition run (e : anthropic_env) (body : string) : go_outcome anthropic_world :=
  anthropicHandler raw_text float_text float_to_int e (example_clock 100) map_to_list ∅ (post body) world0.

Lemma anthropic_and_chat_agree_witness :
  ∃ j answer, responsesToAnthropicMessage json_unmarshal float_to_int "{answer}" "opus" = Ok j
  ∧ answer_text answer = Some (message_text j)
  ∧ Forall2 same_call (chat_calls answer) (omap tool_use (content_of j))
  ∧ text_of "stop_reason" j = Some (if decide (chat_calls answer = []) then "end_turn" else "tool_use").
Proof.
  destruct (responsesToAnthropicMessage json_unmarshal float_to_int "{answer}" "opus") as [j|x] eqn:Hj.
  2: { vm_compute in Hj. discriminate Hj. }
  destruct (responsesToChatCompletion float_to_int (json_unmarshal "{answer}")) as [a|x] eqn:Ha.
  2: { vm_compute in Ha. discriminate Ha. }
  exists j, a. split; [done|]. exact (anthropic_and_chat_agree float_to_int _ _ _ _ Hj Ha).
Defined.

Lemma demo_laws : marshal_laws.
Proof. split; [done|]. intros l s [= <-]. done. Qed.

Lemma anthropic_answers_once_witness :
  ∃ w', run (answering 200 "{answer}") "{ask}" = Returns w'
    ∧ answered [] (cw_log (aw_client w')) ∧ all_closed (aw_telemetry w').
Proof.
  apply (anthropic_answers_once raw_text float_text float_to_int (answering 200 "{answer}") (example_clock 100)
    map_to_list ∅ (post "{ask}") world0 demo_laws).
  - reflexivity.
  - constructor.
  - intros body t [= <-] Ht. vm_compute in Ht. injection Ht as <-. reflexivity.
Defined.

(** What the client of the last request sees. *)
Example whole_answer_is_a_message :
  match run (answering 200 "{answer}") "{ask}" with
  | Returns w' => message_text <$> (last (cw_log (aw_client w')) ≫= λ o, match o with OBody j => Some j | _ => None end)
  | Panics => None
  end = Some "hello".
Proof. vm_compute. reflexivity. Qed.

Definition limited : http_response :=
  mkResponse StatusTooManyRequests "application/json" [("Retry-After", "30"); ("Set-Cookie", "upstream")]
    (mkBody "{limited}" None).

Lemma streamed_rejection_becomes_bad_gateway_witness :
  cw_log (aw_client (stream_request (answering 200 "") "opus" direct (streamResponse [] limited).1 None 0 world0))
  = [OHeader "Retry-After" "30"; OHeader "Set-Cookie" "upstream"; OHeader "Content-Type" "application/json";
     OStatus StatusBadGateway; OBody (error_json "api_error" "request failed")].
Proof.
  assert (Hr : rejection limited) by (repeat split; (reflexivity || by apply Z.leb_le)).
  exact (proj1 (streamed_rejection_becomes_bad_gateway float_to_int (answering 200 "") "opus" direct [] limited 0
    world0 Hr eq_refl)).
Defined.

(** A failure before the first event is told twice: as an event under an implicit 200,
    and as an error answer behind it. *)
Example early_failure_is_told_twice :
  cw_log (aw_client (stream_request (answering 200 "") "opus" direct
    [AWriteHeader 200; AWrite ("event: response.failed" +:+ newline +:+ "data: {}" +:+ newline +:+ newline)]
    None 0 world0))
  = [OEvent "error" (error_json "api_error" "upstream request failed");
     OHeader "Content-Type" "application/json"; OStatus StatusBadGateway; OBody (error_json "api_error" "request failed")].
Proof. vm_compute. reflexivity. Qed.

End ExampleHandler.
