(* ===== verification/Idempotency.v ===== *)
(** * Idempotency of the control API's mutations

    [internal/control/idempotency.go]: the store that makes concurrent duplicates
    of a request wait for the first one and replays its response.

    The handler itself runs outside the store's mutex, so a request is two steps at
    least, [begin] and then [complete] for the one that owns the key, or waiting
    for [ready]; other requests run in between.  An entry is a cell of [heap],
    named by the number of entries allocated before it; [ready] is closed exactly
    when the response is there, under the same mutex. *)

From S2P Require Import Prelude GoStd.

Local Open Scope Z_scope.
Notation ptr := nat (only parsing).

(** ** Requests *)

(* src/internal/control/idempotency.go storedResponse *)
Record storedResponse := mkResponse {
  status : Z; header : list (string * string); body : string;
}.

(** The response a handler leaves in its recorder. *)
(* src/internal/control/idempotency.go bufferedResponse *)
Record bufferedResponse := mkBuffered {
  bf_header : list (string * string); bf_status : Z; bf_body : string;
}.

(* src/internal/control/idempotency.go newBufferedResponse *)
Definition newBufferedResponse : bufferedResponse := mkBuffered [] 0 "".
(* src/internal/control/idempotency.go bufferedResponse.WriteHeader *)
Definition bf_WriteHeader (status : Z) (r : bufferedResponse) : bufferedResponse :=
  mkBuffered (bf_header r) (if bf_status r =? 0 then status else bf_status r) (bf_body r).
(* src/internal/control/idempotency.go bufferedResponse.Write *)
Definition bf_Write (payload : string) (r : bufferedResponse) : bufferedResponse :=
  mkBuffered (bf_header r) (if bf_status r =? 0 then StatusOK else bf_status r)
    (bf_body r +:+ payload).
(* src/internal/control/idempotency.go bufferedResponse.snapshot *)
Definition bf_snapshot (r : bufferedResponse) : storedResponse :=
  mkResponse (if bf_status r =? 0 then StatusOK else bf_status r) (bf_header r) (bf_body r).

Inductive refusal :=
| KeyRequired | KeyTooLong | BodyUnreadable | BodyTooLarge | KeyConflict | WaitCancelled.

(** The checks before [begin]: the key of the entry and the digest, or a refusal.
    [body] is [None] when it cannot be read. *)
(* src/internal/control/idempotency.go:60-86 idempotencyMiddleware *)
Definition precheck (sha256_hex : string → string) (subject method path rawKey : string)
    (body : option string) : result (string * string) refusal :=
  let key := TrimSpace rawKey in
  if String.eqb key "" then Err KeyRequired
  else if (200 <? Z.of_nat (String.length key)) then Err KeyTooLong
  else
    match body with
    | None => Err BodyUnreadable
    | Some body =>
      if (4 * 2 ^ 20 <? Z.of_nat (String.length body)) then Err BodyTooLarge
      else Ok (subject +:+ nul +:+ method +:+ nul +:+ path +:+ nul +:+ key,
               sha256_hex (method +:+ nul +:+ path +:+ nul +:+ body))
    end.

(** ** The store *)

(* src/internal/control/idempotency.go idempotencyEntry *)
Record idempotencyEntry := mkEntry {
  digest : string; createdAt : Time; response : option storedResponse;
}.

Definition ready (e : idempotencyEntry) : bool :=
  match response e with Some _ => true | None => false end.

(** A request inside the middleware, with its [entryKey] and [digest]: it owns the
    entry and runs the handler, or it waits, or it has answered. *)
Inductive request :=
| Owner (key digest : string) (p : ptr)
| Waiter (key digest : string) (p : ptr)
| Answered (key digest : string) (r : storedResponse)
| Refused (e : refusal).

(** [completed] is a trace for the statements below: the key, the digest and the
    response of every handler that has ended. *)
(* src/internal/control/idempotency.go IdempotencyStore *)
Record IdempotencyStore := mkStore {
  entries : gmap string ptr;
  maxEntries : Z;
  ttl : Duration;
  heap : gmap ptr idempotencyEntry;
  nextPtr : ptr;
  requests : gmap nat request;
  completed : list (string * string * storedResponse);
}.

(* src/internal/control/idempotency.go NewIdempotencyStore *)
Definition NewIdempotencyStore (maxEntries : Z) (ttl : Duration) : IdempotencyStore :=
  mkStore ∅ (if maxEntries <? 1 then 2048 else maxEntries) (if ttl <=? 0 then 24 * Hour else ttl)
    ∅ 0 ∅ [].

Definition set_entries (m : gmap string ptr) (s : IdempotencyStore) : IdempotencyStore :=
  mkStore m (maxEntries s) (ttl s) (heap s) (nextPtr s) (requests s) (completed s).
Definition set_request (t : nat) (r : request) (s : IdempotencyStore) : IdempotencyStore :=
  mkStore (entries s) (maxEntries s) (ttl s) (heap s) (nextPtr s) (<[t := r]> (requests s))
    (completed s).

(** A finished entry older than the time to live. *)
Definition expired (now : Time) (s : IdempotencyStore) (p : ptr) : bool :=
  match heap s !! p with
  | Some e => Before (createdAt e) (now - ttl s) && ready e
  | None => false
  end.

(* src/internal/control/idempotency.go IdempotencyStore.cleanupLocked *)
Definition cleanupLocked (now : Time) (s : IdempotencyStore) : IdempotencyStore :=
  set_entries (filter (λ kv, expired now s kv.2 = false) (entries s)) s.

(** The oldest finished entry; among entries of the same age Go's map order
    decides, here that of [map_to_list].  No key is empty, so the empty
    [oldestKey] is [None]. *)
(* src/internal/control/idempotency.go IdempotencyStore.evictOldestLocked *)
Definition oldest_ready (s : IdempotencyStore) : option (string * Time) :=
  foldl (λ best kv,
    match heap s !! kv.2 with
    | Some e =>
      if ready e then
        match best with
        | Some (_, oldest) =>
          if Before (createdAt e) oldest then Some (kv.1, createdAt e) else best
        | None => Some (kv.1, createdAt e)
        end
      else best
    | None => best
    end) None (map_to_list (entries s)).

(* src/internal/control/idempotency.go IdempotencyStore.evictOldestLocked *)
Definition evictOldestLocked (s : IdempotencyStore) : IdempotencyStore :=
  match oldest_ready s with
  | Some (key, _) => set_entries (delete key (entries s)) s
  | None => s
  end.

(** The instants are those of [cleanupLocked] and of the new entry. *)
(* src/internal/control/idempotency.go IdempotencyStore.begin *)
Definition begin (now1 now2 : Time) (t : nat) (key digest' : string) (s : IdempotencyStore)
    : IdempotencyStore :=
  let s := cleanupLocked now1 s in
  match entries s !! key with
  | Some p =>
    match heap s !! p with
    | Some e => set_request t (if String.eqb (digest e) digest' then Waiter key digest' p else Refused KeyConflict) s
    | None => s
    end
  | None =>
    let s := if maxEntries s <=? Z.of_nat (size (entries s)) then evictOldestLocked s else s in
    let p := nextPtr s in
    set_request t (Owner key digest' p)
      (mkStore (<[key := p]> (entries s)) (maxEntries s) (ttl s)
         (<[p := mkEntry digest' now2 None]> (heap s)) (S p) (requests s) (completed s))
  end.

(** An entry that is no longer the one of its key is left as it is. *)
(* src/internal/control/idempotency.go IdempotencyStore.complete *)
Definition complete (key : string) (p : ptr) (r : storedResponse) (s : IdempotencyStore)
    : IdempotencyStore :=
  match entries s !! key, heap s !! p with
  | Some q, Some e =>
    if decide (q = p) then
      mkStore (entries s) (maxEntries s) (ttl s)
        (<[p := mkEntry (digest e) (createdAt e) (Some r)]> (heap s)) (nextPtr s) (requests s)
        (completed s ++ [(key, digest e, r)])
    else s
  | _, _ => s
  end.

(** ** Steps *)

Inductive label :=
| LBegin (t : nat) (now1 now2 : Time) (key digest : string)  (** a request enters *)
| LComplete (t : nat) (r : storedResponse)   (** an owner's handler ends, panic included *)
| LWake (t : nat)                            (** a waiter finds [ready] closed *)
| LCancel (t : nat).                         (** or its context over *)

(* src/internal/control/idempotency.go:87-115 idempotencyMiddleware *)
Definition step (s : IdempotencyStore) (l : label) : option IdempotencyStore :=
  match l with
  | LBegin t now1 now2 key digest' =>
    match requests s !! t with
    | None => Some (begin now1 now2 t key digest' s)
    | Some _ => None
    end
  | LComplete t r =>
    match requests s !! t with
    | Some (Owner key d p) => Some (set_request t (Answered key d r) (complete key p r s))
    | _ => None
    end
  | LWake t =>
    match requests s !! t with
    | Some (Waiter key d p) =>
      e ← heap s !! p;
      r ← response e;
      Some (set_request t (Answered key d r) s)
    | _ => None
    end
  | LCancel t =>
    match requests s !! t with
    | Some (Waiter _ _ _) => Some (set_request t (Refused WaitCancelled) s)
    | _ => None
    end
  end.

Fixpoint steps (s : IdempotencyStore) (l : list label) : option IdempotencyStore :=
  match l with [] => Some s | x :: l => step s x ≫= λ s', steps s' l end.

(** An original, a duplicate, another payload under its key, and another key. *)
Definition demo_labels : list label :=
  [LBegin 0 0 0 "k" "a"; LBegin 1 1 1 "k" "a"; LBegin 2 2 2 "k" "b"; LBegin 3 3 3 "l" "a"].
Definition demo : IdempotencyStore :=
  default (NewIdempotencyStore 0 0) (steps (NewIdempotencyStore 0 0) demo_labels).

(** ** Invariant *)

Record inv (s : IdempotencyStore) : Prop := {
  (** a running handler's entry is the one of its key, and is not ready *)
  iv_owner : ∀ t key d p, requests s !! t = Some (Owner key d p) →
    entries s !! key = Some p ∧ ∃ e, heap s !! p = Some e ∧ digest e = d ∧ response e = None;
  (** an entry that is not ready has its handler running *)
  iv_running : ∀ p e, heap s !! p = Some e → response e = None →
    ∃ t key, requests s !! t = Some (Owner key (digest e) p);
  iv_unique : ∀ t t' key key' d d' p, requests s !! t = Some (Owner key d p) →
    requests s !! t' = Some (Owner key' d' p) → t = t';
  (** a waiter's entry is that of its key until the answer is there *)
  iv_waiter : ∀ t key d p, requests s !! t = Some (Waiter key d p) →
    ∃ e, heap s !! p = Some e ∧ digest e = d ∧
      match response e with
      | None => entries s !! key = Some p
      | Some r => (key, d, r) ∈ completed s
      end;
  iv_entries : ∀ key p, entries s !! key = Some p → is_Some (heap s !! p);
  iv_keys : ∀ key key' p, entries s !! key = Some p → entries s !! key' = Some p → key = key';
  iv_ptr : ∀ p, is_Some (heap s !! p) → (p < nextPtr s)%nat;
  iv_completed : ∀ key p e r, entries s !! key = Some p → heap s !! p = Some e →
    response e = Some r → (key, digest e, r) ∈ completed s;
  iv_answered : ∀ t key d r, requests s !! t = Some (Answered key d r) → (key, d, r) ∈ completed s;
}.

Lemma inv_NewIdempotencyStore m d : inv (NewIdempotencyStore m d).
Proof. split; simpl; intros *; rewrite ?lookup_empty; try done. Qed.

(** Removing finished entries. *)
Lemma inv_fewer s m :
  inv s → m ⊆ entries s →
  (∀ key p e, entries s !! key = Some p → heap s !! p = Some e → response e = None →
     m !! key = Some p) →
  inv (set_entries m s).
Proof.
  intros [] Hsub Hkeep. rewrite map_subseteq_spec in Hsub. split; simpl; try done; eauto.
  - intros t key d p Ht. destruct (iv_owner0 t key d p Ht) as (He & e & Hp & Hd & Hr).
    split; [eauto|by exists e].
  - intros t key d p Ht. destruct (iv_waiter0 t key d p Ht) as (e & Hp & Hd & He). exists e.
    do 2 (split; [done|]). destruct (response e) eqn:Hr; eauto.
Qed.

Lemma inv_cleanup now s : inv s → inv (cleanupLocked now s).
Proof.
  intros Hi. apply inv_fewer; [done|apply map_filter_subseteq|].
  intros key p e Hk Hp Hr. apply map_lookup_filter_Some. split; [done|]. simpl.
  unfold expired. rewrite Hp. unfold ready. rewrite Hr. apply andb_false_r.
Qed.

Lemma oldest_ready_Some s key at_ :
  oldest_ready s = Some (key, at_) →
  ∃ p e, entries s !! key = Some p ∧ heap s !! p = Some e ∧ ready e = true.
Proof.
  unfold oldest_ready. intros Ho.
  assert (Hall : ∀ kv, kv ∈ map_to_list (entries s) → entries s !! kv.1 = Some kv.2)
    by (intros [k p]; apply elem_of_map_to_list).
  assert (Hbest : ∀ k0 a0, @None (string * Time) = Some (k0, a0) →
    ∃ p e, entries s !! k0 = Some p ∧ heap s !! p = Some e ∧ ready e = true) by done.
  revert Ho Hall Hbest. generalize (@None (string * Time)).
  induction (map_to_list (entries s)) as [|[k p] l IH]; simpl; intros best Ho Hall Hbest;
    [by eapply Hbest|].
  eapply IH; [exact Ho|intros kv Hkv; apply Hall; by right|]. intros k0 a0 Hk0.
  destruct (heap s !! p) as [e|] eqn:Hp; [|by eapply Hbest].
  destruct (ready e) eqn:Hr; [|by eapply Hbest].
  pose proof (Hall (k, p) ltac:(by left)) as Hkp. simpl in Hkp.
  destruct best as [[kb ab]|]; [|injection Hk0 as <- <-; eauto].
  destruct (Before (createdAt e) ab); [injection Hk0 as <- <-; eauto|by eapply Hbest].
Qed.

Lemma inv_evict s : inv s → inv (evictOldestLocked s).
Proof.
  intros Hi. unfold evictOldestLocked. destruct (oldest_ready s) as [[key at_]|] eqn:Ho; [|done].
  apply oldest_ready_Some in Ho as (p & e & Hk & Hp & Hr).
  apply inv_fewer; [done|apply delete_subseteq|]. intros key' p' e' Hk' Hp' Hr'.
  rewrite lookup_delete_ne; [done|]. intros <-. simplify_eq. unfold ready in Hr. by rewrite Hr' in Hr.
Qed.

(** A fresh entry and its owner. *)
Lemma inv_own s t key d now :
  inv s → requests s !! t = None → entries s !! key = None →
  inv (set_request t (Owner key d (nextPtr s))
    (mkStore (<[key := nextPtr s]> (entries s)) (maxEntries s) (ttl s)
       (<[nextPtr s := mkEntry d now None]> (heap s)) (S (nextPtr s)) (requests s) (completed s))).
Proof.
  intros Hi Ht Hk. pose proof Hi as [].
  assert (Hlt : ∀ q e, heap s !! q = Some e → nextPtr s ≠ q).
  { intros q e Hq Heq. specialize (iv_ptr0 q ltac:(by exists e)). lia. }
  assert (Hent : ∀ k q, entries s !! k = Some q → key ≠ k ∧ nextPtr s ≠ q).
  { intros k q Hq. split; [congruence|]. destruct (iv_entries0 k q Hq). eauto. }
  assert (Hown : ∀ t' k d' q, requests s !! t' = Some (Owner k d' q) → nextPtr s ≠ q).
  { intros t' k d' q Hr. destruct (iv_owner0 t' k d' q Hr) as (He & _). by eapply Hent. }
  split; simpl.
  - intros t' k d' q Hq%lookup_insert_Some.
    destruct Hq as [[<- Heq]|[Hne Hr]]; [injection Heq as <- <- <-|].
    + rewrite !lookup_insert_eq. eauto.
    + destruct (iv_owner0 t' k d' q Hr) as (He & e & Hp & Hd & Hn).
      destruct (Hent k q He). rewrite !lookup_insert_ne by done. eauto.
  - intros q e Hq%lookup_insert_Some Hn. destruct Hq as [[<- <-]|[Hne Hp]].
    + exists t, key. apply lookup_insert_eq.
    + destruct (iv_running0 q e Hp Hn) as (t' & k & Hr). exists t', k.
      rewrite lookup_insert_ne; [done|congruence].
  - intros t1 t2 k1 k2 d1 d2 q H1%lookup_insert_Some H2%lookup_insert_Some.
    destruct H1 as [[<- [= <- <- <-]]|[_ H1]], H2 as [[<- Hq]|[_ H2]]; try done.
    + by destruct (Hown t2 k2 d2 _ H2).
    + injection Hq as <- <- <-. by destruct (Hown t1 k1 d1 _ H1).
    + by eapply iv_unique0.
  - intros t' k d' q Hq%lookup_insert_Some. destruct Hq as [[_ ?]|[_ Hr]]; [done|].
    destruct (iv_waiter0 t' k d' q Hr) as (e & Hp & Hd & He). exists e.
    rewrite lookup_insert_ne by eauto. do 2 (split; [done|]). destruct (response e); [done|].
    rewrite lookup_insert_ne; [done|congruence].
  - intros k q Hq%lookup_insert_Some. rewrite lookup_insert. case_decide; [eauto|].
    destruct Hq as [[_ ?]|[_ Hq]]; [done|eauto].
  - intros k1 k2 q H1%lookup_insert_Some H2%lookup_insert_Some.
    destruct H1 as [[<- <-]|[_ H1]], H2 as [[<- Hq]|[_ H2]]; try done.
    + by destruct (Hent k2 _ H2).
    + subst q. by destruct (Hent k1 _ H1).
    + by eapply iv_keys0.
  - intros q [e Hq%lookup_insert_Some]. destruct Hq as [[<- _]|[_ Hq]]; [lia|].
    specialize (iv_ptr0 q ltac:(by exists e)). lia.
  - intros k q e r Hq%lookup_insert_Some He%lookup_insert_Some Hr.
    destruct He as [[<- <-]|[Hne He]]; [done|]. destruct Hq as [[_ ?]|[_ Hq]]; [done|]. eauto.
  - intros t' k d' r Hq%lookup_insert_Some. destruct Hq as [[_ ?]|[_ Hr]]; [done|eauto].
Qed.

(** Requests that do not own an entry come and go freely. *)
Lemma inv_set_request s t r :
  inv s → (∀ key d p, requests s !! t ≠ Some (Owner key d p)) →
  match r with
  | Owner _ _ _ => False
  | Waiter key d p => entries s !! key = Some p ∧ ∃ e, heap s !! p = Some e ∧ digest e = d
  | Answered key d a => (key, d, a) ∈ completed s
  | Refused _ => True
  end → inv (set_request t r s).
Proof.
  intros Hi Hno Hr. pose proof Hi as []. split; simpl; try done.
  - intros t' key d p Hq%lookup_insert_Some. destruct Hq as [[_ ->]|[_ Hq]]; [done|eauto].
  - intros p e Hp Hn. destruct (iv_running0 p e Hp Hn) as (t' & key & Ht'). exists t', key.
    rewrite lookup_insert_ne; [done|]. intros <-. by eapply Hno.
  - intros t1 t2 k1 k2 d1 d2 p H1%lookup_insert_Some H2%lookup_insert_Some.
    destruct H1 as [[_ ->]|[_ H1]]; [done|]. destruct H2 as [[_ ->]|[_ H2]]; [done|]. eauto.
  - intros t' key d p Hq%lookup_insert_Some. destruct Hq as [[_ ->]|[_ Hq]]; [|eauto].
    destruct Hr as (He & e & Hp & Hd). exists e. do 2 (split; [done|]).
    destruct (response e) eqn:Hre; [|done]. subst d. eauto.
  - intros t' key d a Hq%lookup_insert_Some. destruct Hq as [[_ ->]|[_ Hq]]; [done|eauto].
Qed.

Lemma inv_begin now1 now2 t key d s : inv s → requests s !! t = None → inv (begin now1 now2 t key d s).
Proof.
  intros Hi Ht. unfold begin. pose proof (inv_cleanup now1 s Hi) as Hc.
  assert (Htc : requests (cleanupLocked now1 s) !! t = None) by done.
  set (s1 := cleanupLocked now1 s) in *. clearbody s1. clear s Hi Ht.
  destruct (entries s1 !! key) as [p|] eqn:Hk.
  - destruct (heap s1 !! p) as [e|] eqn:Hp; [|done].
    apply inv_set_request; [done|intros; congruence|].
    destruct (String.eqb (digest e) d) eqn:Hd; [apply String.eqb_eq in Hd; eauto|done].
  - set (s2 := if maxEntries s1 <=? Z.of_nat (size (entries s1)) then evictOldestLocked s1 else s1).
    assert (inv s2 ∧ requests s2 !! t = None ∧ entries s2 !! key = None) as (Hi2 & Ht2 & Hk2).
    { subst s2. case_match; [|done]. split; [by apply inv_evict|].
      unfold evictOldestLocked. destruct (oldest_ready s1) as [[k a]|]; [|done]. simpl.
      split; [done|]. rewrite lookup_delete. by case_decide. }
    by apply inv_own.
Qed.

Lemma inv_complete t key d p r s :
  inv s → requests s !! t = Some (Owner key d p) →
  inv (set_request t (Answered key d r) (complete key p r s)).
Proof.
  intros Hi Ht. pose proof Hi as []. destruct (iv_owner0 t key d p Ht) as (Hk & e & Hp & Hd & Hn).
  unfold complete. rewrite Hk, Hp, decide_True by done. rewrite Hd.
  split; simpl; try done.
  - intros t' k d' q Hq%lookup_insert_Some. destruct Hq as [[_ ?]|[Hne Hr]]; [done|].
    destruct (iv_owner0 t' k d' q Hr) as (He & e' & Hq & Hn'). split; [done|]. exists e'.
    rewrite lookup_insert_ne; [done|]. intros <-. destruct Hne. by eapply iv_unique0.
  - intros q e' Hq%lookup_insert_Some Hn'. destruct Hq as [[_ <-]|[Hne Hq]]; [done|].
    destruct (iv_running0 q e' Hq Hn') as (t' & k & Hr). exists t', k.
    rewrite lookup_insert_ne; [done|]. intros <-. congruence.
  - intros t1 t2 k1 k2 d1 d2 q H1%lookup_insert_Some H2%lookup_insert_Some.
    destruct H1 as [[_ ?]|[_ H1]]; [done|]. destruct H2 as [[_ ?]|[_ H2]]; [done|]. eauto.
  - intros t' k d' q Hq%lookup_insert_Some. destruct Hq as [[_ ?]|[Hne Hr]]; [done|].
    destruct (iv_waiter0 t' k d' q Hr) as (e' & Hq & Hd' & He). rewrite lookup_insert.
    case_decide as Heq; [|exists e'; do 2 (split; [done|])].
    + subst q. simplify_eq. rewrite Hn in He. exists (mkEntry (digest e) (createdAt e) (Some r)).
      do 2 (split; [done|]). simpl. rewrite (iv_keys0 k key p He Hk). apply elem_of_app. right. by left.
    + destruct (response e'); [|done]. apply elem_of_app. by left.
  - intros k q Hq. rewrite lookup_insert. case_decide; eauto.
  - intros q [e' Hq%lookup_insert_Some]. destruct Hq as [[<- _]|[_ Hq]]; apply iv_ptr0; eauto.
  - intros k q e' r' Hq He%lookup_insert_Some Hr. apply elem_of_app.
    destruct He as [[<- <-]|[Hne He]]; [|left; eauto]. simpl in *. injection Hr as <-. right.
    rewrite (iv_keys0 k key p Hq Hk). by left.
  - intros t' k d' r' Hq%lookup_insert_Some. apply elem_of_app.
    destruct Hq as [[_ [= <- <- <-]]|[_ Hr]]; [right; by left|left; eauto].
Qed.

Lemma step_inv s l s' : inv s → step s l = Some s' → inv s'.
Proof.
  intros Hi Hs. destruct l as [t n1 n2 key d|t r|t|t]; simpl in Hs;
    destruct (requests s !! t) as [[k d' p|k d' p|k d' a|x]|] eqn:Ht; try done.
  - injection Hs as <-. by apply inv_begin.
  - injection Hs as <-. by eapply inv_complete.
  - destruct (iv_waiter _ Hi t k d' p Ht) as (e & Hp & Hd & He). rewrite Hp in Hs. simpl in Hs.
    destruct (response e) as [r|] eqn:Hr; [|done]. simpl in Hs. injection Hs as <-.
    apply inv_set_request; [done|congruence|done].
  - injection Hs as <-. apply inv_set_request; [done|congruence|done].
Qed.

Lemma steps_inv s ls s' : inv s → steps s ls = Some s' → inv s'.
Proof.
  revert s; induction ls as [|l ls IH]; intros s Hi Hs; simpl in Hs; [by injection Hs as <-|].
  destruct (step s l) as [s1|] eqn:Hl; [|done]. simpl in Hs. eauto using step_inv.
Qed.

(** ** What the middleware promises *)

(** A mutation is not run twice at the same time: whatever requests have come, two
    whose handlers are running have different keys, hence differ in the subject,
    the method, the path or the [Idempotency-Key]. *)
Theorem one_handler_per_key m d ls s t t' key dg dg' p p' :
  steps (NewIdempotencyStore m d) ls = Some s →
  requests s !! t = Some (Owner key dg p) →
  requests s !! t' = Some (Owner key dg' p') →
  t = t'.
Proof.
  intros Hs Ht Ht'. pose proof (steps_inv _ _ _ (inv_NewIdempotencyStore m d) Hs) as Hi.
  destruct (iv_owner _ Hi _ _ _ _ Ht) as [Hk _], (iv_owner _ Hi _ _ _ _ Ht') as [Hk' _].
  simplify_eq. by eapply (iv_unique _ Hi).
Qed.

Lemma one_handler_per_key_witness :
  requests demo !! 0%nat = Some (Owner "k" "a" 0) ∧ requests demo !! 1%nat = Some (Waiter "k" "a" 0) ∧
  requests demo !! 2%nat = Some (Refused KeyConflict) ∧
  requests demo !! 3%nat = Some (Owner "l" "a" 1) ∧
  ∀ t dg p, requests demo !! t = Some (Owner "k" dg p) → 0%nat = t.
Proof.
  do 4 (split; [vm_compute; reflexivity|]). intros t dg p Ht.
  refine (one_handler_per_key 0 0 demo_labels demo 0%nat t "k" "a" dg 0%nat p _ _ Ht);
    vm_compute; reflexivity.
Defined.

(** C21. A duplicate gets the answer of its own original: a response was written by a
    handler that ran for the same subject, method, path, key and payload digest,
    even if the entry has since expired or been evicted and the key used again;
    and a waiting duplicate can always go on, at once when the handler has ended
    and otherwise as soon as the running handler of the same key and digest does. *)
Theorem duplicates_replay_the_original m d ls s :
  steps (NewIdempotencyStore m d) ls = Some s →
  (∀ t key dg r, requests s !! t = Some (Answered key dg r) → (key, dg, r) ∈ completed s) ∧
  (∀ t key dg p, requests s !! t = Some (Waiter key dg p) →
    (∃ r s', step s (LWake t) = Some s' ∧ requests s' !! t = Some (Answered key dg r)) ∨
    (∃ t', requests s !! t' = Some (Owner key dg p) ∧
       ∀ r, ∃ s' s'', step s (LComplete t' r) = Some s' ∧ step s' (LWake t) = Some s'' ∧
         requests s'' !! t = Some (Answered key dg r))).
Proof.
  intros Hs. pose proof (steps_inv _ _ _ (inv_NewIdempotencyStore m d) Hs) as Hi.
  split; [intros *; apply (iv_answered _ Hi)|]. intros t key dg p Ht.
  destruct (iv_waiter _ Hi _ _ _ _ Ht) as (e & Hp & Hd & He).
  destruct (response e) as [r|] eqn:Hr; [left|right].
  - exists r, (set_request t (Answered key dg r) s). cbn [step]. rewrite Ht, Hp. simpl. rewrite Hr.
    split; [done|]. apply lookup_insert_eq.
  - destruct (iv_running _ Hi p e Hp Hr) as (t' & key' & Ht'). rewrite Hd in Ht'.
    destruct (iv_owner _ Hi _ _ _ _ Ht') as [Hk' _]. pose proof (iv_keys _ Hi _ _ _ He Hk') as <-.
    exists t'. split; [done|]. intros r. do 2 eexists. cbn [step]. rewrite Ht'.
    split; [reflexivity|]. unfold complete. rewrite He, Hp, decide_True by done. simpl.
    rewrite lookup_insert_ne by congruence. rewrite Ht, lookup_insert_eq. simpl.
    split; [reflexivity|]. apply lookup_insert_eq.
Qed.

Lemma duplicates_replay_the_original_witness :
  (∃ r s', step demo (LWake 1) = Some s' ∧ requests s' !! 1%nat = Some (Answered "k" "a" r)) ∨
  (∃ t', requests demo !! t' = Some (Owner "k" "a" 0) ∧
     ∀ r, ∃ s' s'', step demo (LComplete t' r) = Some s' ∧ step s' (LWake 1) = Some s'' ∧
       requests s'' !! 1%nat = Some (Answered "k" "a" r)).
Proof.
  refine (proj2 (duplicates_replay_the_original 0 0 demo_labels demo _) 1%nat "k" "a" 0%nat _);
    vm_compute; reflexivity.
Defined.

(** Running handlers can take the store above its bound, and later requests, which
    evict one entry each, leave it there. *)
Example the_bound_is_not_restored : ∃ s,
  steps (NewIdempotencyStore 1 (24 * Hour))
    [LBegin 0 0 0 "a" "x"; LBegin 1 1 1 "b" "x"; LBegin 2 2 2 "c" "x";
     LComplete 0 (mkResponse 200 [] ""); LComplete 1 (mkResponse 200 [] "");
     LComplete 2 (mkResponse 200 [] ""); LBegin 3 3 3 "d" "x"] = Some s ∧
  maxEntries s = 1 ∧ size (entries s) = 3%nat.
Proof. eexists. split; [vm_compute; reflexivity|]. split; vm_compute; reflexivity. Qed.
