(* ===== verification/Secrets.v ===== *)
(** * The secret store

    [internal/secret] and its wiring in [src/src/secret_runtime.go]: the entries, the
    managed writes and their file, the precedence of credential sources.  Control
    clients get metadata and audit events; values go to the data plane only.  The
    file is replaced by a rename, so a failed write leaves it as it was. *)

From S2P Require Import Prelude GoStd.

#[local] Set Default Proof Using "Type".

(** ** Data *)

(* src/internal/secret/store.go SourceEnvironment *)
Definition SourceEnvironment : string := "environment".
(* src/internal/secret/store.go SourceManaged *)
Definition SourceManaged : string := "managed".
(* src/internal/secret/store.go SourceOfficialStore *)
Definition SourceOfficialStore : string := "official_store".
(* src/internal/secret/store.go SourceLegacyConfig *)
Definition SourceLegacyConfig : string := "legacy_config".

(* src/internal/secret/store.go SourceRank *)
Definition SourceRank (source : string) : Z :=
  if String.eqb source SourceEnvironment then 4
  else if String.eqb source SourceManaged then 3
  else if String.eqb source SourceOfficialStore then 2
  else if String.eqb source SourceLegacyConfig then 1
  else 0.

(* src/internal/secret/store.go entry *)
Record entry := mkEntry {
  en_value : string; en_source : string; en_readOnly : bool; en_version : Z; en_updatedAt : Time;
}.

(* src/internal/secret/store.go Metadata *)
Record Metadata := mkMetadata {
  md_ID : string; md_Source : string; md_Configured : bool; md_ReadOnly : bool; md_UpdatedAt : Time; md_Version : Z;
}.

(* src/internal/secret/store.go AuditEvent *)
Record AuditEvent := mkAudit {
  ae_Action : string; ae_SecretID : string; ae_Source : string; ae_Version : Z; ae_Actor : string; ae_Timestamp : Time;
}.

(* src/internal/secret/store.go persistedEntry *)
Record persistedEntry := mkPersisted { pe_ID : string; pe_Value : string; pe_Version : Z; pe_UpdatedAt : Time }.

(** The file as the system shows it, and what can go wrong with a write of it. *)
Record secret_file := mkFile { sf_bytes : string; sf_regular : bool; sf_mode : Z }.

Inductive write_error := CreateTemporary | ProtectTemporary | EncodeStore | SyncStore | CloseStore | ReplaceStore.

Inductive secret_error :=
| IDRequired | NotFound | ReadOnly (id source : string) | WriteFailed (e : write_error).

Inductive open_error :=
| PathRequired | CreateDirectory | StatStore | NotRegular | NotOwnerOnly | OpenStore | DecodeStore
| UnsupportedVersion (v : Z) | EmptyID | DuplicateID (id : string) | RegisterFailed.

(** The encoding of the file; its first component is the version. *)
Class SecretCodec := {
  encode_store : Z * list persistedEntry → string;
  decode_store : string → option (Z * list persistedEntry);
}.

Definition persistedStoreVersion : Z := 1.

Section store.
Context `{SecretCodec}.

(** A store without a file has no [persist] function. *)
(* src/internal/secret/store.go MemoryStore *)
Record MemoryStore := mkStore { entries : gmap string entry; persists : bool; file : option secret_file }.

(* src/internal/secret/store.go NewMemoryStore *)
Definition NewMemoryStore : MemoryStore := mkStore ∅ false None.

Definition blank (s : string) : bool := String.eqb (TrimSpace s) "".

(* src/internal/secret/store.go MemoryStore.RegisterReadOnly *)
Definition RegisterReadOnly (now : Time) (id value source : string) (s : MemoryStore) : result MemoryStore secret_error :=
  if blank id then Err IDRequired
  else Ok (mkStore (<[id := mkEntry value source true 0 now]> (entries s)) (persists s) (file s)).

(** ** The file *)

Definition pe_le (a b : persistedEntry) : Prop := String.le (pe_ID a) (pe_ID b).
#[local] Instance pe_le_dec : RelDecision pe_le.
Proof. intros a b. unfold pe_le. apply _. Defined.

Definition persisted_of (kv : string * entry) : option persistedEntry :=
  if en_readOnly kv.2 then None
  else Some (mkPersisted kv.1 (en_value kv.2) (en_version kv.2) (en_updatedAt kv.2)).

Definition managed_entries (m : gmap string entry) : list persistedEntry :=
  merge_sort pe_le (omap persisted_of (map_to_list m)).

(** Every failure comes before the rename. *)
(* src/internal/secret/file_store.go writePersistedEntries *)
Definition writePersistedEntries (fault : option write_error) (l : list persistedEntry) : result secret_file write_error :=
  match fault with
  | Some e => Err e
  | None => Ok (mkFile (encode_store (persistedStoreVersion, l)) true 384)
  end.

(* src/internal/secret/store.go MemoryStore.persistManagedLocked *)
Definition persistManagedLocked (fault : option write_error) (m : gmap string entry) (s : MemoryStore)
    : result (option secret_file) secret_error :=
  if negb (persists s) then Ok (file s)
  else match writePersistedEntries fault (managed_entries m) with
       | Ok f => Ok (Some f)
       | Err e => Err (WriteFailed e)
       end.

Fixpoint check_ids (seen : gset string) (l : list persistedEntry) : option open_error :=
  match l with
  | [] => None
  | e :: l =>
    if blank (pe_ID e) then Some EmptyID
    else if decide (pe_ID e ∈ seen) then Some (DuplicateID (pe_ID e))
    else check_ids ({[pe_ID e]} ∪ seen) l
  end.

Inductive file_view := Missing | StatFails | OpenFails (f : secret_file) | Found (f : secret_file).

(** [0o077] is 63. *)
(* src/internal/secret/file_store.go readPersistedEntries *)
Definition readPersistedEntries (v : file_view) : result (list persistedEntry) open_error :=
  match v with
  | Missing => Ok []
  | StatFails => Err StatStore
  | OpenFails f | Found f =>
    if negb (sf_regular f) then Err NotRegular
    else if negb (Z.land (sf_mode f) 63 =? 0)%Z then Err NotOwnerOnly
    else match v with
    | OpenFails _ => Err OpenStore
    | _ =>
      match decode_store (sf_bytes f) with
      | None => Err DecodeStore
      | Some (version, l) =>
        if negb (version =? persistedStoreVersion)%Z then Err (UnsupportedVersion version)
        else match check_ids ∅ l with Some e => Err e | None => Ok l end
      end
    end
  end.

Definition entry_of (p : persistedEntry) : entry :=
  mkEntry (pe_Value p) SourceManaged false (pe_Version p) (pe_UpdatedAt p).

Definition file_of (v : file_view) : option secret_file :=
  match v with OpenFails f | Found f => Some f | _ => None end.

(* src/internal/secret/file_store.go OpenFileStore *)
Definition OpenFileStore (path : string) (directory_fails : bool) (v : file_view) : result MemoryStore open_error :=
  if blank path then Err PathRequired
  else if directory_fails then Err CreateDirectory
  else
    let? l := readPersistedEntries v in
    Ok (mkStore (foldl (λ m p, <[pe_ID p := entry_of p]> m) ∅ l) true (file_of v)).

(** ** Operations

    Each returns the store, the audit events it emits after its critical section,
    and its result. *)

(* src/internal/secret/store.go MemoryStore.Set *)
Definition Set_ (now : Time) (fault : option write_error) (actor id value : string) (s : MemoryStore)
    : MemoryStore * list AuditEvent * result Metadata secret_error :=
  if blank id then (s, [], Err IDRequired)
  else
    let existing := entries s !! id in
    match existing with
    | Some e =>
      if en_readOnly e then (s, [], Err (ReadOnly id (en_source e)))
      else
        let version := wrap_u64 (en_version e + 1) in
        let next := <[id := mkEntry value SourceManaged false version now]> (entries s) in
        match persistManagedLocked fault next s with
        | Err x => (s, [], Err x)
        | Ok f => (mkStore next (persists s) f, [mkAudit "set" id SourceManaged version actor now],
                   Ok (mkMetadata id SourceManaged (negb (String.eqb value "")) false now version))
        end
    | None =>
      let next := <[id := mkEntry value SourceManaged false 1 now]> (entries s) in
      match persistManagedLocked fault next s with
      | Err x => (s, [], Err x)
      | Ok f => (mkStore next (persists s) f, [mkAudit "set" id SourceManaged 1 actor now],
                 Ok (mkMetadata id SourceManaged (negb (String.eqb value "")) false now 1))
      end
    end.

(** [now] is read for the event, after the critical section. *)
(* src/internal/secret/store.go MemoryStore.Delete *)
Definition Delete (now : Time) (fault : option write_error) (actor id : string) (s : MemoryStore)
    : MemoryStore * list AuditEvent * result () secret_error :=
  match entries s !! id with
  | None => (s, [], Err NotFound)
  | Some e =>
    if en_readOnly e then (s, [], Err (ReadOnly id (en_source e)))
    else
      let next := delete id (entries s) in
      match persistManagedLocked fault next s with
      | Err x => (s, [], Err x)
      | Ok f => (mkStore next (persists s) f, [mkAudit "delete" id SourceManaged (en_version e) actor now], Ok ())
      end
  end.

(** For the data plane only. *)
(* src/internal/secret/store.go MemoryStore.Resolve *)
Definition store_Resolve (id : string) (s : MemoryStore) : option (string * string) :=
  (λ e, (en_value e, en_source e)) <$> entries s !! id.

Definition metadata_of (id : string) (e : entry) : Metadata :=
  mkMetadata id (en_source e) (negb (String.eqb (en_value e) "")) (en_readOnly e) (en_updatedAt e) (en_version e).

(* src/internal/secret/store.go MemoryStore.Metadata *)
Definition store_Metadata (id : string) (s : MemoryStore) : option Metadata := metadata_of id <$> entries s !! id.

Definition md_le (a b : Metadata) : Prop := String.le (md_ID a) (md_ID b).
#[local] Instance md_le_dec : RelDecision md_le.
Proof. intros a b. unfold md_le. apply _. Defined.

(* src/internal/secret/store.go MemoryStore.List *)
Definition List_ (s : MemoryStore) : list Metadata :=
  merge_sort md_le ((λ kv, metadata_of kv.1 kv.2) <$> map_to_list (entries s)).

End store.

(** ** Precedence *)

(* src/internal/secret/resolver.go Candidate *)
Record Candidate := mkCandidate { ca_Value : string; ca_Source : string }.

Definition resolve_step (acc : option Candidate * Z) (c : Candidate) : option Candidate * Z :=
  let '(best, bestRank) := acc in
  if blank (ca_Value c) then acc
  else if (bestRank <? SourceRank (ca_Source c))%Z then (Some c, SourceRank (ca_Source c)) else acc.

(* src/internal/secret/resolver.go Resolve *)
Definition Resolve (candidates : list Candidate) : option Candidate :=
  fst (foldl resolve_step (None, (-1)%Z) candidates).

(* src/internal/secret/resolver.go CredentialPosture *)
Record CredentialPosture := mkPosture {
  po_Slot : string; po_Configured : bool; po_Source : string; po_Refreshable : bool; po_ReadOnly : bool;
}.

Section controller.
Context `{SecretCodec}.

(** [providers] gives a slot's read-only candidates at the time of the call. *)
(* src/internal/secret/resolver.go StoreController *)
Record StoreController := mkController { sc_store : MemoryStore; sc_providers : gmap string (list Candidate) }.

(* src/internal/secret/resolver.go StoreController.candidatesFor *)
Definition candidatesFor (slot : string) (c : StoreController) : list Candidate :=
  match store_Resolve slot (sc_store c) with
  | Some (managed, source) =>
    if String.eqb source SourceManaged then [mkCandidate managed SourceManaged] else []
  | None => []
  end ++ default [] (sc_providers c !! slot).

(* src/internal/secret/resolver.go StoreController.ResolveCredential *)
Definition ResolveCredential (slot : string) (c : StoreController) : option Candidate := Resolve (candidatesFor slot c).

(* src/internal/secret/resolver.go StoreController.Posture *)
Definition Posture (slot : string) (c : StoreController) : CredentialPosture :=
  match ResolveCredential slot c with
  | Some candidate =>
    mkPosture slot true (ca_Source candidate) false
      (String.eqb (ca_Source candidate) SourceEnvironment || String.eqb (ca_Source candidate) SourceOfficialStore)
  | None => mkPosture slot false "unconfigured" false false
  end.

(* src/internal/secret/resolver.go StoreController.SetManaged *)
(* src/internal/secret/resolver.go StoreController.Rotate *)
Definition SetManaged (now : Time) (fault : option write_error) (actor slot value : string) (c : StoreController)
    : StoreController * list AuditEvent * option secret_error :=
  let '(s, events, r) := Set_ now fault actor slot value (sc_store c) in
  (mkController s (sc_providers c), events, match r with Ok _ => None | Err e => Some e end).

(** ** The daemon's store *)

Definition register_if (now : Time) (slot : string) (value source : string) (s : MemoryStore)
    : result MemoryStore open_error :=
  if blank value then Ok s
  else map_err (λ _, RegisterFailed) (RegisterReadOnly now slot (TrimSpace value) source s).

(* src/src/secret_runtime.go registerEnvSecret *)
Definition registerEnvSecret (now : Time) (env : gmap string string) (slot envName : string) (s : MemoryStore)
    : result MemoryStore open_error :=
  register_if now slot (default "" (env !! envName)) SourceEnvironment s.

(** [config] holds the inline keys of Codex and Kilo; the path is the variable's or
    the one beside the configuration file. *)
(* src/src/secret_runtime.go newDaemonSecretStore *)
(* src/src/secret_runtime.go configuredSecretStorePath *)
Definition newDaemonSecretStore (now : Time) (env : gmap string string) (config_dir : result string open_error)
    (directory_fails : bool) (v : file_view) (config : option (string * string)) : result MemoryStore open_error :=
  let path := TrimSpace (default "" (env !! "YA_ROUTER_SECRETS_PATH")) in
  let? path := if String.eqb path "" then (let? d := config_dir in Ok (d +:+ "/secrets.json")) else Ok path in
  let? s := OpenFileStore path directory_fails v in
  let? s := registerEnvSecret now env "codex/api_key" "OPENAI_API_KEY" s in
  let? s := registerEnvSecret now env "kilo/api_key" "KILO_API_KEY" s in
  let? s := registerEnvSecret now env "kilo/organization_id" "KILO_ORG_ID" s in
  match config with
  | None => Ok s
  | Some (codex, kilo) =>
    let? s := register_if now "codex/api_key_legacy" codex SourceLegacyConfig s in
    register_if now "kilo/api_key_legacy" kilo SourceLegacyConfig s
  end.

End controller.

(** ** What a control client sees

    A client's calls, and what it gets back. *)

Section clients.
Context `{SecretCodec}.

Inductive control_op :=
| OpSet (now : Time) (fault : option write_error) (actor id value : string)
| OpDelete (now : Time) (fault : option write_error) (actor id : string)
| OpList
| OpMetadata (id : string).

Inductive reply :=
| RSet (r : result Metadata secret_error) | RDelete (r : result () secret_error)
| RList (l : list Metadata) | RMetadata (m : option Metadata).

Definition serve (op : control_op) (s : MemoryStore) : MemoryStore * list AuditEvent * reply :=
  match op with
  | OpSet now fault actor id value =>
    let '(s, events, r) := Set_ now fault actor id value s in (s, events, RSet r)
  | OpDelete now fault actor id => let '(s, events, r) := Delete now fault actor id s in (s, events, RDelete r)
  | OpList => (s, [], RList (List_ s))
  | OpMetadata id => (s, [], RMetadata (store_Metadata id s))
  end.

(** The audit log and the replies of a sequence of calls. *)
Fixpoint serve_all (ops : list control_op) (s : MemoryStore) : MemoryStore * list AuditEvent * list reply :=
  match ops with
  | [] => (s, [], [])
  | op :: ops =>
    let '(s, events, r) := serve op s in
    let '(s, events', rs) := serve_all ops s in
    (s, events ++ events', r :: rs)
  end.

(** All that may be known of a value is whether it is empty. *)
Definition mask (value : string) : string := if String.eqb value "" then "" else "*".

Definition redact (e : entry) : entry :=
  mkEntry (mask (en_value e)) (en_source e) (en_readOnly e) (en_version e) (en_updatedAt e).

Definition mask_op (op : control_op) : control_op :=
  match op with
  | OpSet now fault actor id value => OpSet now fault actor id (mask value)
  | _ => op
  end.

(** Stores that differ in their values only, and in what their files hold. *)
Definition indistinguishable (s s' : MemoryStore) : Prop :=
  persists s = persists s' ∧ redact <$> entries s = redact <$> entries s'.

#[export] Instance indistinguishable_equiv : Equivalence indistinguishable.
Proof.
  split; [done|by intros ?? []|]. intros s1 s2 s3 [H1 H2] [H3 H4]. split; congruence.
Qed.

Lemma mask_empty v : String.eqb (mask v) "" = String.eqb v "".
Proof. unfold mask. by destruct (String.eqb v ""). Qed.

Lemma metadata_redact id e : metadata_of id (redact e) = metadata_of id e.
Proof. unfold metadata_of, redact. simpl. by rewrite mask_empty. Qed.

Lemma List_redact s :
  List_ s = merge_sort md_le ((λ kv, metadata_of kv.1 kv.2) <$> map_to_list (redact <$> entries s)).
Proof.
  unfold List_. rewrite map_to_list_fmap, <-list_fmap_compose. f_equal. apply list_fmap_ext.
  intros i [id e] _. simpl. by rewrite metadata_redact.
Qed.

#[export] Instance List_proper : Proper (indistinguishable ==> eq) List_.
Proof. intros s s' [_ He]. by rewrite !List_redact, He. Qed.

(** The entries under an identifier are indistinguishable too. *)
Lemma indistinguishable_lookup s s' id :
  indistinguishable s s' → redact <$> entries s !! id = redact <$> entries s' !! id.
Proof. intros [_ He]. rewrite <-!lookup_fmap. by rewrite He. Qed.

#[export] Instance Metadata_proper id : Proper (indistinguishable ==> eq) (store_Metadata id).
Proof.
  intros s s' Hs%(indistinguishable_lookup _ _ id). unfold store_Metadata.
  destruct (entries s !! id) as [e|], (entries s' !! id) as [e'|]; try done. simpl in *.
  injection Hs as Hs1. f_equal. rewrite <-(metadata_redact _ e), <-(metadata_redact _ e'). unfold redact in *.
  congruence.
Qed.

(** Whether a write succeeds does not depend on what is written. *)
Lemma persist_indistinguishable fault m m' s s' :
  persists s = persists s' →
  match persistManagedLocked fault m s, persistManagedLocked fault m' s' with
  | Ok _, Ok _ => True | Err e, Err e' => e = e' | _, _ => False
  end.
Proof. intros Hp. unfold persistManagedLocked, writePersistedEntries. rewrite Hp. by destruct (persists s'), fault. Qed.

Lemma serve_indistinguishable op op' s s' :
  indistinguishable s s' → mask_op op = mask_op op' →
  let '(s1, events, r) := serve op s in let '(s1', events', r') := serve op' s' in
  indistinguishable s1 s1' ∧ events = events' ∧ r = r'.
Proof.
  intros Hs Hop. destruct op as [now fault actor id value|now fault actor id| |id], op' as [now' fault' actor' id' value'|now' fault' actor' id'| |id'];
    try discriminate Hop; try (injection Hop; intros; subst); cbn [serve].
  - unfold Set_. destruct (blank id'); [done|]. pose proof (indistinguishable_lookup _ _ id' Hs) as Hl.
    assert (Hv : String.eqb value "" = String.eqb value' "") by (rewrite <-(mask_empty value), <-(mask_empty value'); congruence).
    destruct Hs as [Hp He].
    destruct (entries s !! id') as [e|] eqn:Hi, (entries s' !! id') as [e'|] eqn:Hi'; try done; simpl in Hl.
    + injection Hl; intros Ht Hver Hr Hsrc Hm. rewrite Hr, Hsrc, Hver. destruct (en_readOnly e'); [done|].
      set (v := wrap_u64 _). set (m := <[id' := mkEntry value SourceManaged false v now']> (entries s)).
      set (m' := <[id' := mkEntry value' SourceManaged false v now']> (entries s')).
      pose proof (persist_indistinguishable fault' m m' s s' Hp) as Hpe.
      destruct (persistManagedLocked fault' m s), (persistManagedLocked fault' m' s'); try done; [|by subst].
      rewrite Hv. split; [|done]. split; [done|]. simpl. unfold m, m'. rewrite !fmap_insert, He. unfold redact. simpl. congruence.
    + set (m := <[id' := mkEntry value SourceManaged false 1 now']> (entries s)).
      set (m' := <[id' := mkEntry value' SourceManaged false 1 now']> (entries s')).
      pose proof (persist_indistinguishable fault' m m' s s' Hp) as Hpe.
      destruct (persistManagedLocked fault' m s), (persistManagedLocked fault' m' s'); try done; [|by subst].
      rewrite Hv. split; [|done]. split; [done|]. simpl. unfold m, m'. rewrite !fmap_insert, He. unfold redact. simpl. congruence.
  - unfold Delete. pose proof (indistinguishable_lookup _ _ id' Hs) as Hl. destruct Hs as [Hp He].
    destruct (entries s !! id') as [e|] eqn:Hi, (entries s' !! id') as [e'|] eqn:Hi'; try done; simpl in Hl.
    injection Hl; intros Ht Hver Hr Hsrc Hm. rewrite Hr, Hsrc, Hver. destruct (en_readOnly e'); [done|].
    pose proof (persist_indistinguishable fault' (delete id' (entries s)) (delete id' (entries s')) s s' Hp) as Hpe.
    destruct (persistManagedLocked fault' _ s), (persistManagedLocked fault' _ s'); try done; [|by subst].
    split; [|done]. split; [done|]. simpl. by rewrite !fmap_delete, He.
  - split; [done|]. split; [done|]. by rewrite Hs.
  - split; [done|]. split; [done|]. by rewrite Hs.
Qed.

End clients.

(** ** The file and the entries *)

Section file_facts.
Context `{SecretCodec}.

(** Identifiers are not blank, and what can be written is managed. *)
Definition wf (s : MemoryStore) : Prop := ∀ id e,
  entries s !! id = Some e → blank id = false ∧ (en_readOnly e = false → en_source e = SourceManaged).

Definition managed (m : gmap string entry) : gmap string entry := filter (λ kv, en_readOnly kv.2 = false) m.

(** The codec reads back what it wrote; the text of a value that is not valid UTF-8,
    for one, does not. *)
Definition encodable (m : gmap string entry) : Prop :=
  decode_store (encode_store (persistedStoreVersion, managed_entries m)) = Some (persistedStoreVersion, managed_entries m).

Lemma managed_entries_perm m : managed_entries m ≡ₚ omap persisted_of (map_to_list m).
Proof. apply merge_sort_Permutation. Qed.

Lemma elem_of_managed_entries m p :
  p ∈ managed_entries m ↔ ∃ e, m !! pe_ID p = Some e ∧ en_readOnly e = false
    ∧ p = mkPersisted (pe_ID p) (en_value e) (en_version e) (en_updatedAt e).
Proof.
  rewrite managed_entries_perm, list_elem_of_omap. split.
  - intros ([id e] & Hin%elem_of_map_to_list & Hp). unfold persisted_of in Hp. simpl in Hp.
    destruct (en_readOnly e) eqn:Hr; [done|]. injection Hp as <-. by exists e.
  - intros (e & He & Hr & Hp). exists (pe_ID p, e). split; [by apply elem_of_map_to_list|].
    unfold persisted_of. simpl. by rewrite Hr, Hp.
Qed.

Lemma NoDup_managed_entries m : NoDup (pe_ID <$> managed_entries m).
Proof.
  rewrite managed_entries_perm. assert (Hn : NoDup (map_to_list m).*1) by apply NoDup_fst_map_to_list.
  induction (map_to_list m) as [|[id e] l IH]; [constructor|]. csimpl in *. apply NoDup_cons in Hn as [Hid Hn].
  unfold persisted_of at 1. simpl. destruct (en_readOnly e); [by apply IH|]. csimpl.
  apply NoDup_cons. split; [|by apply IH]. intros (p & Hp & Hin)%list_elem_of_fmap. apply Hid.
  apply list_elem_of_omap in Hin as ([id' e'] & Hin & Hp'). unfold persisted_of in Hp'. simpl in Hp'.
  destruct (en_readOnly e'); [done|]. injection Hp' as <-. simpl in Hp. subst.
  apply list_elem_of_fmap. by exists (id', e').
Qed.

Lemma check_ids_None seen l :
  (∀ p, p ∈ l → blank (pe_ID p) = false ∧ pe_ID p ∉ seen) → NoDup (pe_ID <$> l) → check_ids seen l = None.
Proof.
  revert seen; induction l as [|p l IH]; intros seen Hp Hn; [done|]. csimpl in *. apply NoDup_cons in Hn as [Hi Hn].
  destruct (Hp p) as [Hb Hs]; [by left|]. rewrite Hb, decide_False by done. apply IH; [|done].
  intros q Hq. destruct (Hp q) as [Hqb Hqs]; [by right|]. split; [done|].
  intros [Heq%elem_of_singleton|?]%elem_of_union; [|done]. apply Hi, list_elem_of_fmap. by exists q.
Qed.

(** A managed entry is what is read of what is written of it. *)
Lemma entry_of_written (e : entry) p :
  en_readOnly e = false → en_source e = SourceManaged →
  p = mkPersisted (pe_ID p) (en_value e) (en_version e) (en_updatedAt e) → entry_of p = e.
Proof. intros Hr Hs ->. destruct e. simpl in *. by subst. Qed.

Lemma read_entries m (s : MemoryStore) :
  wf (mkStore m (persists s) (file s)) →
  foldl (λ m p, <[pe_ID p := entry_of p]> m) ∅ (managed_entries m) = managed m.
Proof.
  intros Hwf. apply map_eq. intros id.
  assert (Hfold : ∀ (l : list persistedEntry) (m0 : gmap string entry),
    foldl (λ m p, <[pe_ID p := entry_of p]> m) m0 l
    = foldl (λ m kv, <[kv.1 := kv.2]> m) m0 ((λ p, (pe_ID p, entry_of p)) <$> l)).
  { intros l. induction l as [|p l IH]; intros m0; csimpl; [done|]. apply IH. }
  assert (Hn : NoDup ((λ p, (pe_ID p, entry_of p)) <$> managed_entries m).*1).
  { rewrite <-list_fmap_compose. apply NoDup_managed_entries. }
  rewrite Hfold, foldl_insert_lookup, lookup_empty by done.
  unfold managed. destruct (list_to_map _ !! id) as [e|] eqn:He.
  - apply elem_of_list_to_map in He; [|done]. apply list_elem_of_fmap in He as (p & [= -> ->] & Hp).
    apply elem_of_managed_entries in Hp as (e & He & Hr & Hp). destruct (Hwf _ _ He) as [_ Hs].
    symmetry. apply map_lookup_filter_Some. rewrite (entry_of_written _ _ Hr (Hs Hr) Hp). done.
  - symmetry. apply map_lookup_filter_None. right. intros e Hm Hr. simpl in Hr.
    apply not_elem_of_list_to_map in He. apply He, list_elem_of_fmap.
    set (p := mkPersisted id (en_value e) (en_version e) (en_updatedAt e)). exists (id, entry_of p). split; [done|].
    apply list_elem_of_fmap. exists p. split; [done|]. apply elem_of_managed_entries. by exists e.
Qed.

(** What is read of a file that was written. *)
Lemma reopen m (s : MemoryStore) path f :
  wf (mkStore m (persists s) (file s)) → encodable m → blank path = false →
  writePersistedEntries None (managed_entries m) = Ok f →
  OpenFileStore path false (Found f) = Ok (mkStore (managed m) true (Some f)).
Proof.
  intros Hwf He Hp [= <-]. unfold OpenFileStore. rewrite Hp. cbn [readPersistedEntries sf_bytes sf_regular sf_mode].
  change (Z.land 384 63 =? 0)%Z with true. cbn [negb]. rewrite He, Z.eqb_refl. cbn [negb].
  rewrite check_ids_None.
  - cbn [bind_result]. by rewrite (read_entries m s Hwf).
  - intros p (e & Hm & _)%elem_of_managed_entries. split; [by apply (Hwf _ _ Hm)|apply not_elem_of_empty].
  - apply NoDup_managed_entries.
Qed.

Lemma wf_insert s id e :
  wf s → blank id = false → (en_readOnly e = false → en_source e = SourceManaged) →
  wf (mkStore (<[id := e]> (entries s)) (persists s) (file s)).
Proof.
  intros Hwf Hb He id' e'. simpl. rewrite lookup_insert. case_decide; [intros [= <-]; by subst|apply Hwf].
Qed.

Lemma wf_delete s id : wf s → wf (mkStore (delete id (entries s)) (persists s) (file s)).
Proof. intros Hwf id' e'. simpl. intros [_ Hl]%lookup_delete_Some. by apply Hwf. Qed.

(** The file of a store that has one is written whole by every change. *)
Lemma persist_Ok m s fault f :
  persists s = true → persistManagedLocked fault m s = Ok f →
  ∃ x, f = Some x ∧ writePersistedEntries None (managed_entries m) = Ok x.
Proof.
  intros Hp. unfold persistManagedLocked. rewrite Hp. simpl. destruct fault; [done|]. intros [= <-]. by eexists.
Qed.

(** A change of a well-formed store with a file. *)
Lemma changed_store s m f fault path :
  wf (mkStore m (persists s) (file s)) → persists s = true → encodable m → blank path = false →
  persistManagedLocked fault m s = Ok f →
  ∃ x, f = Some x ∧ OpenFileStore path false (Found x) = Ok (mkStore (managed m) true (Some x)).
Proof.
  intros Hwf Hp He Hb (x & -> & Hw)%persist_Ok; [|done]. exists x. split; [done|]. by eapply reopen.
Qed.

(** A mutating call. *)
Definition is_write (op : control_op) : bool := match op with OpSet _ _ _ _ _ | OpDelete _ _ _ _ => true | _ => false end.
Definition succeeded (r : reply) : bool :=
  match r with RSet (Ok _) | RDelete (Ok _) => true | _ => false end.

Lemma serve_wf op s : wf s → wf (serve op s).1.1.
Proof.
  intros Hwf. destruct op as [now fault actor id value|now fault actor id| |id]; cbn [serve]; [| |done|done].
  - unfold Set_. destruct (blank id) eqn:Hb; [done|]. destruct (entries s !! id) as [e|].
    + destruct (en_readOnly e); [done|]. destruct (persistManagedLocked _ _ _); [|done].
      by refine (wf_insert s id _ Hwf Hb _).
    + destruct (persistManagedLocked _ _ _); [|done]. by refine (wf_insert s id _ Hwf Hb _).
  - unfold Delete. destruct (entries s !! id) as [e|]; [|done]. destruct (en_readOnly e); [done|].
    destruct (persistManagedLocked _ _ _); [|done]. exact (wf_delete s id Hwf).
Qed.

Lemma serve_written op s path :
  wf s → persists s = true → is_write op = true → blank path = false →
  let '(s', events, r) := serve op s in
  encodable (entries s') →
  if succeeded r
  then length events = 1 ∧ persists s' = true ∧ ∃ f, file s' = Some f
       ∧ OpenFileStore path false (Found f) = Ok (mkStore (managed (entries s')) true (Some f))
  else s' = s ∧ events = [].
Proof.
  intros Hwf Hp Hop Hb. destruct op as [now fault actor id value|now fault actor id| |id]; try done; cbn [serve].
  - unfold Set_. destruct (blank id) eqn:Hid; [done|]. destruct (entries s !! id) as [e|].
    + destruct (en_readOnly e); [done|]. destruct (persistManagedLocked _ _ _) as [f|] eqn:Hf; [|done]. simpl. intros He.
      destruct (changed_store _ _ _ _ path (wf_insert s id (mkEntry _ SourceManaged false _ _) Hwf Hid (λ _, eq_refl)) Hp He Hb Hf)
        as (x & -> & Ho). by eauto.
    + destruct (persistManagedLocked _ _ _) as [f|] eqn:Hf; [|done]. simpl. intros He.
      destruct (changed_store _ _ _ _ path (wf_insert s id (mkEntry _ SourceManaged false _ _) Hwf Hid (λ _, eq_refl)) Hp He Hb Hf)
        as (x & -> & Ho). by eauto.
  - unfold Delete. destruct (entries s !! id) as [e|]; [|done]. destruct (en_readOnly e); [done|].
    destruct (persistManagedLocked _ _ _) as [f|] eqn:Hf; [|done]. simpl. intros He.
    destruct (changed_store _ _ _ _ path (wf_delete s id Hwf) Hp He Hb Hf) as (x & -> & Ho). by eauto.
Qed.

End file_facts.

(** ** The choice of a source *)

Definition outranks (c d : Candidate) : Prop := (SourceRank (ca_Source c) ≤ SourceRank (ca_Source d))%Z.

Lemma SourceRank_nonneg source : (0 ≤ SourceRank source)%Z.
Proof. unfold SourceRank. repeat case_match; lia. Qed.

(** The best candidate of a prefix: not blank, above all before it, not below any
    after it. *)
Definition best_of (cs : list Candidate) (c : Candidate) : Prop := ∃ pre post,
  cs = pre ++ c :: post ∧ blank (ca_Value c) = false
  ∧ (∀ d, d ∈ pre → blank (ca_Value d) = false → (SourceRank (ca_Source d) < SourceRank (ca_Source c))%Z)
  ∧ (∀ d, d ∈ post → blank (ca_Value d) = false → (SourceRank (ca_Source d) ≤ SourceRank (ca_Source c))%Z).

Lemma resolve_fold cs :
  match foldl resolve_step (None, (-1)%Z) cs with
  | (Some c, r) => r = SourceRank (ca_Source c) ∧ best_of cs c
  | (None, r) => r = (-1)%Z ∧ ∀ c, c ∈ cs → blank (ca_Value c) = true
  end.
Proof.
  induction cs as [|x cs IH] using rev_ind; simpl; [split; [done|by intros c ?%not_elem_of_nil]|].
  rewrite foldl_snoc. destruct (foldl resolve_step _ cs) as [[c|] r]; unfold resolve_step.
  - destruct IH as [-> (pre & post & -> & Hc & Hpre & Hpost)]. destruct (blank (ca_Value x)) eqn:Hx.
    { split; [done|]. exists pre, (post ++ [x]). split; [by rewrite <-(assoc_L (++))|]. split; [done|]. split; [done|].
      intros d [Hd| ->%list_elem_of_singleton]%elem_of_app Hb; [by apply Hpost|congruence]. }
    destruct (Z.ltb_spec (SourceRank (ca_Source c)) (SourceRank (ca_Source x))).
    + split; [done|]. exists (pre ++ c :: post), []. split; [done|]. split; [done|].
      split; [|by intros d ?%not_elem_of_nil].
      intros d [Hd|[-> |Hd]%elem_of_cons]%elem_of_app Hb; [|done|].
      * specialize (Hpre _ Hd Hb). lia.
      * specialize (Hpost _ Hd Hb). lia.
    + split; [done|]. exists pre, (post ++ [x]). split; [by rewrite <-(assoc_L (++))|]. split; [done|]. split; [done|].
      intros d [Hd| ->%list_elem_of_singleton]%elem_of_app Hb; [by apply Hpost|lia].
  - destruct IH as [-> Hall]. destruct (blank (ca_Value x)) eqn:Hx.
    { split; [done|]. intros c [Hc| ->%list_elem_of_singleton]%elem_of_app; [by apply Hall|done]. }
    rewrite (proj2 (Z.ltb_lt _ _)) by (pose proof (SourceRank_nonneg (ca_Source x)); lia).
    split; [done|]. exists cs, []. split; [done|]. split; [done|]. split; [|by intros d ?%not_elem_of_nil].
    intros d Hd Hb. rewrite Hall in Hb; done.
Qed.

(** ** Properties *)

Section properties.
Context `{SecretCodec}.

(** Values never reach control clients.  Two stores that differ in their values
    only, and two sequences of calls that differ in the values they set only (but
    not in which are empty), give the same replies and the same audit events,
    whatever the times, the failing writes and the identifiers: nothing a client can
    ask tells one value from another. *)
Theorem secrets_never_leave ops ops' s s' :
  indistinguishable s s' → mask_op <$> ops = mask_op <$> ops' →
  let '(_, events, replies) := serve_all ops s in
  let '(_, events', replies') := serve_all ops' s' in
  events = events' ∧ replies = replies'.
Proof.
  revert ops' s s'; induction ops as [|op ops IH]; intros [|op' ops'] s s' Hs Hops; try done.
  csimpl in Hops. injection Hops as Hop Hops. cbn [serve_all].
  pose proof (serve_indistinguishable op op' s s' Hs Hop) as Hserve.
  destruct (serve op s) as [[s1 e1] r1], (serve op' s') as [[s1' e1'] r1'].
  destruct Hserve as (Hs1 & -> & ->). specialize (IH ops' s1 s1' Hs1 Hops).
  destruct (serve_all ops s1) as [[s2 e2] r2], (serve_all ops' s1') as [[s2' e2'] r2'].
  by destruct IH as [-> ->].
Qed.

(** C24. An acknowledged write is on disk, a refused one nowhere.  After a managed
    write or deletion that succeeds, opening the file gives exactly the managed
    entries, each with its value and version, and one audit event was emitted; one
    that fails, at whatever point of the file's replacement, leaves the entries and
    the file as they were and emits none. *)
Theorem managed_secrets_survive_restart op s path :
  wf s → persists s = true → is_write op = true → blank path = false →
  let '(s', events, r) := serve op s in
  encodable (entries s') →
  if succeeded r
  then length events = 1 ∧ ∃ f, file s' = Some f
       ∧ OpenFileStore path false (Found f) = Ok (mkStore (managed (entries s')) true (Some f))
  else s' = s ∧ events = [].
Proof.
  intros Hwf Hp Hop Hb. pose proof (serve_written op s path Hwf Hp Hop Hb) as Hw.
  destruct (serve op s) as [[s' events] r]. intros He. specialize (Hw He). destruct (succeeded r); [|done].
  destruct Hw as (Hl & _ & Hf). by split.
Qed.

(** A variable of the environment erases the managed secret of its slot.  When a
    slot is registered from the environment over a managed entry, the next write of
    any other secret drops that entry from the file, so it is gone when the daemon
    starts without the variable. *)
Theorem environment_erases_managed_secret now now' fault actor id value source id' value' s s1 s2 events md path :
  wf s → persists s = true → id' ≠ id → blank path = false →
  RegisterReadOnly now id value source s = Ok s1 →
  Set_ now' fault actor id' value' s1 = (s2, events, Ok md) → encodable (entries s2) →
  ∃ f s3, file s2 = Some f ∧ OpenFileStore path false (Found f) = Ok s3 ∧ entries s3 !! id = None.
Proof.
  intros Hwf Hp Hne Hb Hr Hset He. unfold RegisterReadOnly in Hr. destruct (blank id) eqn:Hid; [done|].
  injection Hr as <-. set (e := mkEntry value source true 0 now) in *.
  set (s1 := mkStore (<[id := e]> (entries s)) (persists s) (file s)) in *.
  assert (Hwf1 : wf s1) by (apply wf_insert; done).
  pose proof (serve_written (OpSet now' fault actor id' value') s1 path Hwf1 Hp eq_refl Hb) as Hw.
  cbn [serve] in Hw. rewrite Hset in Hw. destruct (Hw He) as (_ & _ & f & Hf & Ho).
  exists f, (mkStore (managed (entries s2)) true (Some f)). split; [done|]. split; [done|].
  simpl. unfold managed. apply map_lookup_filter_None. right. intros x Hx Hro. simpl in Hro.
  assert (Hkeep : entries s2 !! id = Some e).
  { unfold Set_ in Hset. destruct (blank id'); [done|].
    destruct (entries s1 !! id') as [e'|]; [destruct (en_readOnly e'); [done|]|];
      (destruct (persistManagedLocked _ _ _); [|done]); injection Hset as <- <- <-; simpl;
      rewrite lookup_insert_ne by done; apply lookup_insert_eq. }
  rewrite Hkeep in Hx. injection Hx as <-. done.
Qed.

End properties.

(** The source of a credential.  The resolver answers with the first candidate
    of the highest rank that is not blank, and with none when all are blank; so a
    value of the environment is never shadowed, and a legacy value never shadows. *)
Theorem resolve_takes_the_highest_source cs :
  match Resolve cs with
  | Some c => best_of cs c
  | None => ∀ c, c ∈ cs → blank (ca_Value c) = true
  end.
Proof.
  unfold Resolve. pose proof (resolve_fold cs) as Hf. destruct (foldl _ _ cs) as [[c|] r]; simpl; by destruct Hf.
Qed.

(** ** Examples *)

Module ExampleSecrets.

(** An encoding that keeps the identifiers and values of short lists. *)
#[export] Instance demo_codec : SecretCodec := {
  encode_store x := match x.2 with
    | [] => "none" | [p] => "one " +:+ pe_ID p +:+ " " +:+ pe_Value p | _ => "many" end;
  decode_store t :=
    if String.eqb t "none" then Some (1%Z, [])
    else if String.eqb t "one kilo/api_key k" then Some (1%Z, [mkPersisted "kilo/api_key" "k" 1 20])
    else None;
}.

Definition empty : MemoryStore := mkStore ∅ true None.
Definition with_codex (value : string) : MemoryStore :=
  mkStore {[ "codex/api_key" := mkEntry value SourceManaged false 1 10 ]} true None.

Lemma secrets_never_leave_witness :
  let calls v := [OpList; OpSet 20 None "admin" "kilo/api_key" v; OpMetadata "kilo/api_key"; OpList] in
  let '(_, events, replies) := serve_all (calls "k") (with_codex "sk-1") in
  let '(_, events', replies') := serve_all (calls "other") (with_codex "sk-2") in
  events = events' ∧ replies = replies'.
Proof.
  apply (secrets_never_leave
    [OpList; OpSet 20 None "admin" "kilo/api_key" "k"; OpMetadata "kilo/api_key"; OpList]
    [OpList; OpSet 20 None "admin" "kilo/api_key" "other"; OpMetadata "kilo/api_key"; OpList]
    (with_codex "sk-1") (with_codex "sk-2")); [split|]; reflexivity.
Defined.

Lemma empty_wf : wf empty.
Proof. intros id e. simpl. by rewrite lookup_empty. Qed.

Lemma with_codex_wf v : wf (with_codex v).
Proof. intros id e. simpl. intros [<- <-]%lookup_singleton_Some. done. Qed.

Lemma managed_secrets_survive_restart_witness :
  let '(s', events, r) := serve (OpSet 20 None "admin" "kilo/api_key" "k") empty in
  length events = 1 ∧ ∃ f, file s' = Some f
    ∧ OpenFileStore "secrets.json" false (Found f) = Ok (mkStore (managed (entries s')) true (Some f)).
Proof.
  pose proof (managed_secrets_survive_restart (OpSet 20 None "admin" "kilo/api_key" "k") empty "secrets.json" empty_wf
    eq_refl eq_refl eq_refl) as Hw.
  destruct (serve (OpSet 20 None "admin" "kilo/api_key" "k") empty) as [[s' events] r] eqn:Hs.
  assert (He : encodable (entries s') ∧ succeeded r = true).
  { vm_compute in Hs. injection Hs as <- _ <-. split; vm_compute; reflexivity. }
  destruct He as [He Hr]. specialize (Hw He). rewrite Hr in Hw. exact Hw.
Defined.

Lemma environment_erases_managed_secret_witness :
  ∃ s1 s2 events md f s3,
    RegisterReadOnly 15 "codex/api_key" "sk-env" SourceEnvironment (with_codex "sk-1") = Ok s1
    ∧ Set_ 20 None "admin" "kilo/api_key" "k" s1 = (s2, events, Ok md)
    ∧ file s2 = Some f ∧ OpenFileStore "secrets.json" false (Found f) = Ok s3
    ∧ entries s3 !! "codex/api_key" = None.
Proof.
  destruct (RegisterReadOnly 15 "codex/api_key" "sk-env" SourceEnvironment (with_codex "sk-1")) as [s1|x] eqn:Hr.
  2: { vm_compute in Hr. discriminate Hr. }
  destruct (Set_ 20 None "admin" "kilo/api_key" "k" s1) as [[s2 events] [md|x]] eqn:Hs.
  2: { vm_compute in Hr. injection Hr as <-. vm_compute in Hs. discriminate Hs. }
  assert (He : encodable (entries s2)).
  { vm_compute in Hr. injection Hr as <-. vm_compute in Hs. injection Hs as <- _ _. vm_compute. reflexivity. }
  destruct (environment_erases_managed_secret 15 20 None "admin" "codex/api_key" "sk-env" SourceEnvironment
    "kilo/api_key" "k" (with_codex "sk-1") s1 s2 events md "secrets.json" (with_codex_wf "sk-1") eq_refl
    ltac:(discriminate) eq_refl Hr Hs He) as (f & s3 & Hf & Ho & Hn).
  exists s1, s2, events, md, f, s3. split; [reflexivity|]. split; [exact Hs|]. split; [exact Hf|]. split; [exact Ho|exact Hn].
Defined.

(** A secret that is deleted and set again starts at version 1. *)
Example version_starts_again :
  let s1 := (Delete 20 None "admin" "codex/api_key" (with_codex "sk-1")).1.1 in
  match (Set_ 30 None "admin" "codex/api_key" "sk-3" s1).2 with Ok md => md_Version md | Err _ => 0%Z end = 1%Z.
Proof. reflexivity. Qed.

(** A blank value counts as configured for the store and not for the resolver. *)
Example blank_value_is_half_configured :
  let s := with_codex " " in
  (md_Configured <$> store_Metadata "codex/api_key" s) = Some true
  ∧ po_Configured (Posture "codex/api_key" (mkController s ∅)) = false.
Proof. by vm_compute. Qed.

End ExampleSecrets.
