(* ===== verification/Control.v ===== *)
(** * The control API: who may do what

    [internal/control]: identities and roles ([identity.go]), client versions
    ([version.go]), the router and its middleware ([router.go], [request.go]), the
    audit trail ([audit.go]) and the secret resources ([secret_resources.go]) over
    the store of [Secrets].

    A request is decided on ([decide_request]) before any handler runs; the answers
    of idempotent handlers go through the store of [Idempotency], which only ever
    replays what a handler answered. *)

From S2P Require Import Prelude GoStd Writers Failover GoJson Secrets.

#[local] Set Default Proof Using "Type".

(** ** Roles and identities *)

(* src/internal/control/identity.go RoleViewer *)
Definition RoleViewer : string := "viewer".
(* src/internal/control/identity.go RoleOperator *)
Definition RoleOperator : string := "operator".
(* src/internal/control/identity.go RoleAdmin *)
Definition RoleAdmin : string := "admin".

(* src/internal/control/identity.go Role.valid *)
Definition role_valid (role : string) : bool :=
  String.eqb role RoleViewer || String.eqb role RoleOperator || String.eqb role RoleAdmin.

(* src/internal/control/identity.go roleRank *)
Definition roleRank (role : string) : Z :=
  if String.eqb role RoleViewer then 1
  else if String.eqb role RoleOperator then 2
  else if String.eqb role RoleAdmin then 3
  else 0.

(* src/internal/control/identity.go Role.permits *)
Definition permits (role required : string) : bool := (roleRank required <=? roleRank role)%Z.

(* src/internal/control/identity.go Identity *)
Record Identity := mkIdentity { id_Subject : string; id_Role : string; id_Source : string }.

(** What a peer certificate says; it counts when there is a verified chain. *)
Record certificate := mkCertificate { ct_URIs : list string; ct_Subject : string; ct_CommonName : string }.

(** A request as the middleware sees it.  [cr_Fresh] is the identifier it would be
    given; [cr_Body] is [None] when it cannot be read. *)
Record control_request := mkControlRequest {
  cr_Method : string; cr_Path : string; cr_Authorization : string; cr_APIKey : string;
  cr_RequestID : string; cr_ClientVersion : string; cr_Certificate : option certificate;
  cr_Fresh : string; cr_Body : option string;
}.

Definition authenticator : Type := control_request → option Identity.

(* src/internal/control/identity.go FixedAuthenticator *)
Definition FixedAuthenticator (identity : Identity) : authenticator := λ _,
  if negb (String.eqb (id_Subject identity) "") && role_valid (id_Role identity) then Some identity else None.

(* src/internal/control/identity.go bearerToken *)
Definition bearerToken (value : string) : string :=
  let value := TrimSpace value in
  if (String.length value <=? 7)%nat || negb (EqualFold (str_take 7 value) "Bearer ") then ""
  else TrimSpace (str_drop 7 value).

(* src/internal/control/identity.go constantTimeEqual *)
Definition constantTimeEqual (left right : string) : bool := String.eqb left right.

Definition rank_ge (a b : string) : Prop := (roleRank b ≤ roleRank a)%Z.
#[local] Instance rank_ge_dec : RelDecision rank_ge.
Proof. intros a b. unfold rank_ge. apply _. Defined.

(** The sort of the roles is not stable, and need not be: only the three valid roles
    are kept, and their ranks differ. *)
(* src/internal/control/identity.go NewTokenAuthenticator *)
Definition NewTokenAuthenticator (tokens : gmap string string) : list (string * Identity) :=
  omap (λ role,
    let token := TrimSpace (default "" (tokens !! role)) in
    if String.eqb token "" || negb (role_valid role) then None
    else Some (token, mkIdentity ("control-token:" +:+ role) role "control_bearer"))
    (merge_sort rank_ge (map_to_list tokens).*1).

(* src/internal/control/identity.go TokenAuthenticator.Authenticate *)
Definition TokenAuthenticator (tokens : list (string * Identity)) : authenticator := λ r,
  let token := bearerToken (cr_Authorization r) in
  if String.eqb token "" then None
  else snd <$> find_index (λ c, if constantTimeEqual token c.1 then Some c.2 else None) tokens.

(* src/internal/control/identity.go certificateSubjects *)
Definition certificateSubjects (c : certificate) : list string :=
  ct_URIs c
  ++ (if String.eqb (TrimSpace (ct_Subject c)) "" then [] else [TrimSpace (ct_Subject c)])
  ++ (if String.eqb (TrimSpace (ct_CommonName c)) "" then [] else [TrimSpace (ct_CommonName c)]).

(* src/internal/control/identity.go CertificateAuthenticator.Authenticate *)
Definition CertificateAuthenticator (subjectRoles : gmap string string) : authenticator := λ r,
  cr_Certificate r ≫= λ c,
  snd <$> find_index (λ subject,
    match subjectRoles !! subject with
    | Some role => if role_valid role then Some (mkIdentity subject role "mtls") else None
    | None => None
    end) (certificateSubjects c).

(* src/internal/control/identity.go ChainAuthenticator.Authenticate *)
Definition ChainAuthenticator (chain : list (option authenticator)) : authenticator := λ r,
  snd <$> find_index (λ a, a ≫= λ f : authenticator, f r) chain.

(** ** Versions *)

(* src/internal/control/version.go ClientCompatibility *)
Record ClientCompatibility := mkCompatibility {
  cc_Requested : string; cc_Minimum : string; cc_Maximum : string; cc_Current : string; cc_Compatible : bool;
}.

Fixpoint until_any (cs : list ascii) (s : string) : string :=
  match s with
  | String c s' => if existsb (Ascii.eqb c) cs then "" else String c (until_any cs s')
  | "" => ""
  end.

(* src/internal/control/version.go parseSemanticVersion *)
Definition parseSemanticVersion (value : string) : option (Z * Z * Z) :=
  let value := until_any ["+"; "-"]%char (TrimPrefix (TrimSpace value) "v") in
  let parts := Split value "." in
  if (length parts <? 2)%nat || (3 <? length parts)%nat then None
  else
    mapM (λ part, Atoi part ≫= λ v, if (v <? 0)%Z then None else Some v) parts ≫= λ l,
    match l with
    | [major; minor] => Some (major, minor, 0%Z)
    | [major; minor; patch] => Some (major, minor, patch)
    | _ => None
    end.

(* src/internal/control/version.go negotiateClientVersion *)
Definition negotiateClientVersion (value : string) : ClientCompatibility :=
  let requested := TrimSpace value in
  mkCompatibility requested "1.0.0" "1.1.x" "1.1.0"
    (String.eqb requested ""
     || match parseSemanticVersion requested with
        | Some (major, minor, _) => (major =? 1)%Z && ((minor =? 0)%Z || (minor =? 1)%Z)
        | None => false
        end).

(** ** Routes *)

(** What a route's handler does is told apart by [rt_handler]. *)
(* src/internal/control/router.go route *)
Record route := mkRoute {
  rt_method : string; rt_path : string; rt_prefix : bool; rt_requiredRole : string;
  rt_idempotent : bool; rt_allowUnsupported : bool; rt_handler : string;
}.

Definition meta_route : route := mkRoute "GET" "/control/v1/meta" false RoleViewer false true "meta".

(* src/internal/control/router.go NewAPI *)
Definition NewAPI : list route := [meta_route].

(* src/internal/control/router.go API.Handle *)
Definition Handle (method path requiredRole : string) (idempotent : bool) (handler : string) (api : list route) : list route :=
  api ++ [mkRoute (ToUpper (TrimSpace method)) path false requiredRole idempotent false handler].

(* src/internal/control/router.go API.HandlePrefix *)
Definition HandlePrefix (method path requiredRole : string) (idempotent : bool) (handler : string) (api : list route) : list route :=
  api ++ [mkRoute (ToUpper (TrimSpace method)) path true requiredRole idempotent false handler].

Definition matches (path : string) (r : route) : bool :=
  if rt_prefix r then HasPrefix path (rt_path r) && (String.length (rt_path r) <? String.length path)%nat
  else String.eqb path (rt_path r).

(** A later route replaces the best one so far only when it is better. *)
Definition better (candidate best : route) : bool :=
  (negb (rt_prefix candidate) && rt_prefix best)
  || (Bool.eqb (rt_prefix candidate) (rt_prefix best)
      && (String.length (rt_path best) <? String.length (rt_path candidate))%nat).

Definition match_step (method path : string) (acc : option route * bool) (candidate : route) : option route * bool :=
  let '(best, pathMatched) := acc in
  if negb (matches path candidate) then acc
  else if negb (String.eqb method (rt_method candidate)) then (best, true)
  else match best with
       | None => (Some candidate, true)
       | Some b => (if better candidate b then Some candidate else best, true)
       end.

(* src/internal/control/router.go API.matchRoute *)
Definition matchRoute (api : list route) (method path : string) : option route * bool :=
  foldl (match_step (ToUpper method) path) (None, false) api.

(** ** The middleware *)

Definition request_id_char (c : ascii) : bool :=
  is_upper c || is_lower c || is_digit c || existsb (Ascii.eqb c) ["."; "_"; ":"; "-"]%char.

Definition safeRequestID (s : string) : bool :=
  (8 <=? String.length s)%nat && (String.length s <=? 128)%nat && str_all request_id_char s.

(* src/internal/control/request.go requestIDMiddleware *)
Definition request_id (r : control_request) : string :=
  let id := TrimSpace (cr_RequestID r) in if safeRequestID id then id else cr_Fresh r.

(* src/internal/control/request.go suppliedCredential *)
Definition suppliedCredential (r : control_request) : string :=
  let token := bearerToken (cr_Authorization r) in
  if String.eqb token "" then TrimSpace (cr_APIKey r) else token.

Inductive decision :=
| Refuse (status : Z) (code message : string) (details : list (string * json))
| Dispatch (r : route) (identity : Identity) (c : ClientCompatibility).

Definition invalid_credential : Z * string * string :=
  (StatusUnauthorized, "invalid_control_credential", "The control-plane credential is missing or invalid.").

(* src/internal/control/router.go API.authenticationMiddleware *)
Definition authenticate (dataPlaneAPIKey : string) (auth : option authenticator) (r : control_request)
    : Identity + (Z * string * string) :=
  let dataKey := TrimSpace dataPlaneAPIKey in
  let credential := suppliedCredential r in
  if negb (String.eqb dataKey "") && negb (String.eqb credential "") && constantTimeEqual credential dataKey
  then inr (StatusUnauthorized, "data_plane_credential_rejected", "Data-plane credentials do not authorize control access.")
  else match auth with
  | None => inr (StatusUnauthorized, "control_authentication_required", "Control-plane authentication is required.")
  | Some a =>
    match a r with
    | Some identity =>
      if String.eqb (id_Subject identity) "" || negb (role_valid (id_Role identity))
      then inr invalid_credential else inl identity
    | None => inr invalid_credential
    end
  end.

(* src/internal/control/router.go API.serveAuthenticated *)
Definition serveAuthenticated (api : list route) (r : control_request) (identity : Identity) : decision :=
  match matchRoute api (cr_Method r) (cr_Path r) with
  | (None, true) => Refuse StatusMethodNotAllowed "method_not_allowed"
      "The HTTP method is not supported for this control resource." []
  | (None, false) => Refuse StatusNotFound "control_resource_not_found" "The control resource was not found." []
  | (Some candidate, _) =>
    let compatibility := negotiateClientVersion (cr_ClientVersion r) in
    if negb (cc_Compatible compatibility) && negb (rt_allowUnsupported candidate)
    then Refuse StatusUpgradeRequired "unsupported_client_version"
           "The client version is outside the supported compatibility window."
           [("maximum", JStr (cc_Maximum compatibility)); ("minimum", JStr (cc_Minimum compatibility))]
    else if negb (permits (id_Role identity) (rt_requiredRole candidate))
    then Refuse StatusForbidden "control_forbidden"
           "The authenticated identity does not have the required role."
           [("required_role", JStr (rt_requiredRole candidate))]
    else Dispatch candidate identity compatibility
  end.

(** The decision, and the identity the audit trail finds in the request. *)
Definition decide_request (api : list route) (dataPlaneAPIKey : string) (auth : option authenticator)
    (r : control_request) : decision * option Identity :=
  match authenticate dataPlaneAPIKey auth r with
  | inr (status, code, message) => (Refuse status code message [], None)
  | inl identity => (serveAuthenticated api r identity, Some identity)
  end.

(** ** The audit trail *)

(* src/internal/control/audit.go AuditEvent *)
Record ControlEvent := mkEvent {
  ev_Timestamp : Time; ev_Actor : string; ev_Role : string; ev_Action : string; ev_Target : string;
  ev_Result : string; ev_Status : Z; ev_RequestID : string;
}.

(* src/internal/control/audit.go MemoryAuditSink *)
Record MemoryAuditSink := mkSink { sink_limit : Z; sink_events : list ControlEvent }.

(* src/internal/control/audit.go NewMemoryAuditSink *)
Definition NewMemoryAuditSink (limit : Z) : MemoryAuditSink :=
  mkSink (if (limit <? 1)%Z then 1024%Z else limit) [].

(* src/internal/control/audit.go MemoryAuditSink.Record *)
Definition sink_Record (e : ControlEvent) (s : MemoryAuditSink) : MemoryAuditSink :=
  mkSink (sink_limit s)
    ((if (Z.of_nat (length (sink_events s)) =? sink_limit s)%Z then tail (sink_events s) else sink_events s) ++ [e]).

(** The store's audit events in the control trail. *)
(* src/src/secret_runtime.go secretAuditBridge.Record *)
Definition secret_event (e : AuditEvent) : ControlEvent :=
  mkEvent (ae_Timestamp e) (ae_Actor e) "" ("secret_" +:+ ae_Action e)
    (ae_SecretID e +:+ " (" +:+ ae_Source e +:+ ")") "applied" 0 "".

(** What a handler does with the recorder: the first status counts. *)
(* src/internal/control/audit.go statusRecorder.WriteHeader *)
(* src/internal/control/audit.go statusRecorder.Write *)
(* src/internal/control/audit.go statusRecorder.Flush *)
Definition recorder_act (status : Z) (x : action) : Z :=
  match x with
  | AWriteHeader code => if (status =? 0)%Z then code else status
  | AWrite _ | AFlush => if (status =? 0)%Z then StatusOK else status
  | ASetHeader _ _ | ADelHeader _ => status
  end.

Definition recorded_status (script : list action) : Z :=
  let status := foldl recorder_act 0%Z script in if (status =? 0)%Z then StatusOK else status.

(* src/internal/control/audit.go auditMiddleware *)
Definition audit_event (now : Time) (r : control_request) (identity : option Identity) (status : Z) : ControlEvent :=
  mkEvent now (match identity with Some i => id_Subject i | None => "" end)
    (match identity with Some i => id_Role i | None => "" end) (cr_Method r) (cr_Path r)
    (if (500 <=? status)%Z then "failed" else if (400 <=? status)%Z then "denied" else "success")
    status (request_id r).

Definition error_envelope (code message requestID : string) (retryable : bool) (details : list (string * json)) : json :=
  JObj [("error", JObj ([("code", JStr code); ("message", JStr message); ("retryable", JBool retryable);
    ("request_id", JStr requestID)] ++ match details with [] => [] | _ => [("details", JObj details)] end))].

Section serving.
Context `{JSON}.

(* src/internal/control/errors.go writeJSON *)
Definition writeJSON (status : Z) (j : json) : list action :=
  [ASetHeader "Content-Type" "application/json"; AWriteHeader status; AWrite (default "" (json_marshal j))].

(* src/internal/control/errors.go writeError *)
Definition writeError (r : control_request) (status : Z) (code message : string) (retryable : bool)
    (details : list (string * json)) : list action :=
  writeJSON status (error_envelope code message (request_id r) retryable details).

(** One request: the handler of a dispatched route answers with a script, or panics;
    then nothing is recorded. *)
(* src/internal/control/router.go API.Handler *)
Definition serve_request (api : list route) (dataPlaneAPIKey : string) (auth : option authenticator) (now : Time)
    (run : route → Identity → go_outcome (list action)) (r : control_request) (sink : MemoryAuditSink)
    : go_outcome (list action * MemoryAuditSink) :=
  let '(d, identity) := decide_request api dataPlaneAPIKey auth r in
  match d with
  | Refuse status code message details =>
    let script := writeError r status code message false details in
    Returns (script, sink_Record (audit_event now r identity (recorded_status script)) sink)
  | Dispatch candidate identity' _ =>
    match run candidate identity' with
    | Panics => Panics
    | Returns script => Returns (script, sink_Record (audit_event now r identity (recorded_status script)) sink)
    end
  end.

(** ** The secret resources *)

(* src/internal/control/secret_resources.go RegisterSecretRoutes *)
Definition RegisterSecretRoutes (api : list route) : list route :=
  Handle "DELETE" "/control/v1/secrets" RoleOperator true "deleteSecret"
    (Handle "PUT" "/control/v1/secrets" RoleOperator true "writeSecret"
       (Handle "GET" "/control/v1/secrets" RoleViewer false "listSecrets" api)).

Definition slot_char (c : ascii) : bool :=
  is_lower c || is_digit c || existsb (Ascii.eqb c) ["/"; "_"; "-"]%char.

(* src/internal/control/secret_resources.go validSecretSlot *)
Definition validSecretSlot (slot : string) : bool :=
  let slot := TrimSpace slot in
  negb (String.eqb slot "") && (String.length slot <=? 128)%nat && str_all slot_char slot.

(** [value] is a pointer: [None] when it is missing or [null]. *)
(* src/internal/control/secret_resources.go secretWriteRequest *)
Record secretWriteRequest := mkSecretWrite { sw_Slot : string; sw_Value : option string }.

Definition d_secret_write : decoder secretWriteRequest :=
  d_strict [fld "slot" sw_Slot (λ x w, mkSecretWrite x (sw_Value w)) d_string;
            fld "value" sw_Value (λ x w, mkSecretWrite (sw_Slot w) x) (d_pointer "" d_string)].

(* src/internal/control/secret_resources.go secretDeleteRequest *)
Definition d_secret_delete : decoder string := d_strict [fld "slot" id (λ x _, x) d_string].

Definition maxOperationRequestBody : Z := 64 * 1024.

Context (time_text : Time → string).

(** The text of the body is one JSON value that the target takes whole; [json_unmarshal]
    reads a text of exactly one value. *)
(* src/internal/control/operation_resources.go decodeStrictJSON *)
Definition decodeStrictJSON {A} (zero : A) (d : decoder A) (body : option string) : option A :=
  body ≫= λ payload,
  if (maxOperationRequestBody <? Z.of_nat (String.length payload))%Z then None
  else json_unmarshal payload ≫= unmarshal zero d.

Definition metadata_json (m : Metadata) : json :=
  JObj [("id", JStr (md_ID m)); ("source", JStr (md_Source m)); ("configured", JBool (md_Configured m));
    ("read_only", JBool (md_ReadOnly m)); ("updated_at", JStr (time_text (md_UpdatedAt m)));
    ("version", of_int (md_Version m))].

(* src/internal/control/secret_resources.go writeSecretError *)
Definition writeSecretError (r : control_request) (e : secret_error) : list action :=
  match e with
  | ReadOnly _ _ => writeError r StatusConflict "secret_read_only" "The secret is supplied by a read-only source." false []
  | NotFound => writeError r StatusNotFound "secret_not_found" "The secret was not found." false []
  | IDRequired | WriteFailed _ =>
    writeError r StatusServiceUnavailable "secret_write_failed" "The secret could not be updated." true []
  end.

Section secret_routes.
Context `{SecretCodec}.

(** What the handler asks of the store, or the answer to a bad request. *)
(* src/internal/control/secret_resources.go:49-55 writeSecret *)
(* src/internal/control/secret_resources.go:65-72 deleteSecret *)
Definition secret_call (now : Time) (fault : option write_error) (candidate : route) (identity : Identity)
    (r : control_request) : list action + control_op :=
  if String.eqb (rt_handler candidate) "writeSecret" then
    match decodeStrictJSON (mkSecretWrite "" None) d_secret_write (cr_Body r) with
    | Some (mkSecretWrite slot (Some value)) =>
      if blank value || negb (validSecretSlot slot)
      then inl (writeError r StatusBadRequest "invalid_secret_write" "The secret write request is invalid." false [])
      else inr (OpSet now fault (id_Subject identity) (TrimSpace slot) value)
    | _ => inl (writeError r StatusBadRequest "invalid_secret_write" "The secret write request is invalid." false [])
    end
  else if String.eqb (rt_handler candidate) "deleteSecret" then
    match decodeStrictJSON "" d_secret_delete (cr_Body r) with
    | Some slot =>
      if negb (validSecretSlot slot)
      then inl (writeError r StatusBadRequest "invalid_secret_delete" "The secret delete request is invalid." false [])
      else inr (OpDelete now fault (id_Subject identity) (TrimSpace slot))
    | None => inl (writeError r StatusBadRequest "invalid_secret_delete" "The secret delete request is invalid." false [])
    end
  else inr OpList.

Definition secret_reply (r : control_request) (reply : reply) : list action :=
  match reply with
  | RSet (Ok m) => writeJSON StatusOK (metadata_json m)
  | RDelete (Ok _) => [AWriteHeader StatusNoContent]
  | RSet (Err e) | RDelete (Err e) => writeSecretError r e
  | RList l => writeJSON StatusOK (JObj [("data", JArr (metadata_json <$> l))])
  | RMetadata _ => []
  end.

(* src/internal/control/secret_resources.go writeSecret *)
(* src/internal/control/secret_resources.go deleteSecret *)
Definition secret_handler (now : Time) (fault : option write_error) (candidate : route) (identity : Identity)
    (r : control_request) (s : MemoryStore) : MemoryStore * list AuditEvent * list action :=
  match secret_call now fault candidate identity r with
  | inl script => (s, [], script)
  | inr op => let '(s, events, reply) := serve op s in (s, events, secret_reply r reply)
  end.

(** A request to an API with the secret resources, [meta] answering the other route:
    the store, its audit events, the control trail and the answer. *)
Definition serve_secrets (dataPlaneAPIKey : string) (auth : option authenticator) (now : Time) (fault : option write_error)
    (meta : list action) (r : control_request) (s : MemoryStore) (sink : MemoryAuditSink)
    : MemoryStore * list AuditEvent * go_outcome (list action * MemoryAuditSink) :=
  let api := RegisterSecretRoutes NewAPI in
  let '(s', events) := match (decide_request api dataPlaneAPIKey auth r).1 with
    | Dispatch candidate identity _ =>
      if String.eqb (rt_handler candidate) "meta" then (s, [])
      else (secret_handler now fault candidate identity r s).1
    | Refuse _ _ _ _ => (s, [])
    end in
  (s', events, serve_request api dataPlaneAPIKey auth now (λ candidate identity,
     Returns (if String.eqb (rt_handler candidate) "meta" then meta
              else (secret_handler now fault candidate identity r s).2)) r sink).

End secret_routes.

End serving.

(** ** Facts *)

(** Routes compare by a rank: exact before prefix, then by length. *)
Definition route_rank (r : route) : Z * Z := (if rt_prefix r then 0 else 1, Z.of_nat (String.length (rt_path r)))%Z.

Lemma better_rank a b :
  better a b = true ↔ ((route_rank b).1 < (route_rank a).1 ∨ ((route_rank b).1 = (route_rank a).1 ∧ (route_rank b).2 < (route_rank a).2))%Z.
Proof.
  unfold better, route_rank. simpl. rewrite orb_true_iff, !andb_true_iff, negb_true_iff, eqb_true_iff, Nat.ltb_lt.
  destruct (rt_prefix a), (rt_prefix b); intuition (try discriminate; lia).
Qed.

(** The route of a request: above every matching route before it, and not below one
    after it. *)
Definition selected (api : list route) (method path : string) (c : route) : Prop := ∃ pre post,
  api = pre ++ c :: post ∧ matches path c = true ∧ rt_method c = ToUpper method
  ∧ (∀ d, d ∈ pre → matches path d = true → rt_method d = ToUpper method → better c d = true)
  ∧ (∀ d, d ∈ post → matches path d = true → rt_method d = ToUpper method → better d c = false).

Lemma selected_more api method path c d :
  selected api method path c →
  (matches path d = true → rt_method d = ToUpper method → better d c = false) → selected (api ++ [d]) method path c.
Proof.
  intros (pre & post & -> & Hm & He & Hpre & Hpost) Hd. exists pre, (post ++ [d]).
  split; [by rewrite <-(assoc_L (++))|]. do 3 (split; [done|]).
  intros x [Hx| ->%list_elem_of_singleton]%elem_of_app; [by apply Hpost|done].
Qed.

Lemma matchRoute_spec api method path :
  match matchRoute api method path with
  | (Some c, _) => selected api method path c
  | (None, pathMatched) => (∀ d, d ∈ api → matches path d = true → rt_method d ≠ ToUpper method)
      ∧ (pathMatched = true ↔ ∃ d, d ∈ api ∧ matches path d = true)
  end.
Proof.
  unfold matchRoute. induction api as [|x api IH] using rev_ind; simpl.
  { split; [by intros d ?%not_elem_of_nil|]. split; [done|by intros (d & ?%not_elem_of_nil & _)]. }
  rewrite foldl_snoc. destruct (foldl _ _ api) as [[c|] pm]; unfold match_step.
  - destruct (matches path x) eqn:Hx; simpl; [|apply selected_more; [done|congruence]].
    destruct (String.eqb_spec (ToUpper method) (rt_method x)) as [He|He]; simpl; [|apply selected_more; [done|congruence]].
    destruct (better x c) eqn:Hb; [|by apply selected_more].
    destruct IH as (pre & post & -> & Hm & Hmc & Hpre & Hpost). exists (pre ++ c :: post), [].
    split; [done|]. split; [done|]. split; [done|]. split; [|by intros d ?%not_elem_of_nil].
    apply better_rank in Hb.
    intros d [Hd|[-> |Hd]%elem_of_cons]%elem_of_app Hdm Hde; apply better_rank; [|done|].
    + pose proof (proj1 (better_rank _ _) (Hpre _ Hd Hdm Hde)). lia.
    + pose proof (Hpost _ Hd Hdm Hde) as Hn. apply not_true_iff_false in Hn. rewrite better_rank in Hn. lia.
  - destruct IH as [Hnone Hpm]. destruct (matches path x) eqn:Hx; simpl.
    + destruct (String.eqb_spec (ToUpper method) (rt_method x)) as [He|He]; simpl.
      * exists api, []. split; [done|]. split; [done|]. split; [done|]. split; [|by intros d ?%not_elem_of_nil].
        intros d Hd Hdm Hde. by destruct (Hnone _ Hd Hdm).
      * split.
        -- intros d [Hd| ->%list_elem_of_singleton]%elem_of_app Hdm; [by apply Hnone|congruence].
        -- split; [|done]. intros _. exists x. split; [apply elem_of_app; right; by apply list_elem_of_singleton|done].
    + split.
      * intros d [Hd| ->%list_elem_of_singleton]%elem_of_app Hdm; [by apply Hnone|congruence].
      * rewrite Hpm. split; intros (d & Hd & Hdm); exists d; (split; [|done]).
        -- apply elem_of_app. by left.
        -- apply elem_of_app in Hd as [Hd| ->%list_elem_of_singleton]; [done|congruence].
Qed.

(** What is selected is unique. *)
Lemma selected_unique api method path c c' :
  selected api method path c → selected api method path c' → c = c'.
Proof.
  intros (pre & post & He & Hm & Hme & Hpre & Hpost) (pre' & post' & He' & Hm' & Hme' & Hpre' & Hpost').
  rewrite He in He'. clear He. revert pre' He' Hpre'; induction pre as [|x pre IH]; intros [|y pre'] He' Hpre'; simpl in He'.
  - by injection He'.
  - injection He' as -> ->. assert (Hc : better c' y = true) by (apply Hpre'; [by left|done..]).
    assert (Hn : better c' y = false).
    { apply Hpost; [apply elem_of_app; right; by left|done..]. } congruence.
  - injection He' as -> He. subst post'. assert (Hc : better c c' = true) by (apply Hpre; [by left|done..]).
    assert (Hn : better c c' = false).
    { apply Hpost'; [apply elem_of_app; right; by left|done..]. } congruence.
  - injection He' as -> He.
    apply (IH (λ d Hd, Hpre d (list_elem_of_further _ _ _ Hd)) pre' He (λ d Hd, Hpre' d (list_elem_of_further _ _ _ Hd))).
Qed.

(** What lets an identity through to a route. *)
Record authorised (api : list route) (dataPlaneAPIKey : string) (auth : option authenticator) (r : control_request)
    (c : route) (identity : Identity) : Prop := {
  au_credential : suppliedCredential r = "" ∨ suppliedCredential r ≠ TrimSpace dataPlaneAPIKey;
  au_identity : ∃ a, auth = Some a ∧ a r = Some identity;
  au_subject : id_Subject identity ≠ "";
  au_valid : role_valid (id_Role identity) = true;
  au_route : selected api (cr_Method r) (cr_Path r) c;
  au_version : cc_Compatible (negotiateClientVersion (cr_ClientVersion r)) = true ∨ rt_allowUnsupported c = true;
  au_role : (roleRank (rt_requiredRole c) ≤ roleRank (id_Role identity))%Z;
}.

Lemma authenticate_inl key auth r identity :
  authenticate key auth r = inl identity ↔
  (suppliedCredential r = "" ∨ suppliedCredential r ≠ TrimSpace key)
  ∧ (∃ a, auth = Some a ∧ a r = Some identity) ∧ id_Subject identity ≠ "" ∧ role_valid (id_Role identity) = true.
Proof.
  unfold authenticate, constantTimeEqual.
  destruct (negb _ && negb _ && _) eqn:Hk.
  - apply andb_true_iff in Hk as [[_ H1%negb_true_iff]%andb_true_iff H2%String.eqb_eq].
    apply String.eqb_neq in H1. split; [done|]. intros ([?|?] & _); done.
  - assert (Hc : suppliedCredential r = "" ∨ suppliedCredential r ≠ TrimSpace key).
    { destruct (String.eqb_spec (suppliedCredential r) ""); [by left|right]. intros He.
      destruct (String.eqb_spec (TrimSpace key) ""); [congruence|]. simpl in Hk. by rewrite He, String.eqb_refl in Hk. }
    destruct auth as [a|].
    2:{ split; [done|]. by intros (_ & (a & ? & _) & _). }
    destruct (a r) as [i|] eqn:Hi.
    2:{ split; [done|]. intros (_ & (a' & [= <-] & Ha) & _). congruence. }
    destruct (String.eqb_spec (id_Subject i) "") as [He|He]; simpl.
    { split; [done|]. intros (_ & (a' & [= <-] & Ha) & Hs & _). congruence. }
    destruct (role_valid (id_Role i)) eqn:Hv; simpl.
    + split.
      { intros [= <-]. split; [done|]. split; [by exists a|]. done. }
      intros (_ & (a' & [= <-] & Ha) & _). congruence.
    + split; [done|]. intros (_ & (a' & [= <-] & Ha) & _ & Hv'). congruence.
Qed.

Lemma serveAuthenticated_Dispatch api r identity c i v :
  serveAuthenticated api r identity = Dispatch c i v ↔
  i = identity ∧ v = negotiateClientVersion (cr_ClientVersion r) ∧ selected api (cr_Method r) (cr_Path r) c
  ∧ (cc_Compatible v = true ∨ rt_allowUnsupported c = true)
  ∧ (roleRank (rt_requiredRole c) ≤ roleRank (id_Role identity))%Z.
Proof.
  unfold serveAuthenticated. pose proof (matchRoute_spec api (cr_Method r) (cr_Path r)) as Hm.
  destruct (matchRoute _ _ _) as [[c'|] pm].
  - set (v' := negotiateClientVersion _). destruct (negb _ && negb _) eqn:Hv.
    { split; [done|]. intros (-> & -> & Hc & Hv' & _). rewrite (selected_unique _ _ _ _ _ Hc Hm) in Hv'.
      apply andb_true_iff in Hv as [H1%negb_true_iff H2%negb_true_iff]. unfold v' in *. intuition congruence. }
    assert (Hv' : cc_Compatible v' = true ∨ rt_allowUnsupported c' = true).
    { destruct (cc_Compatible v'), (rt_allowUnsupported c'); try done; auto. }
    unfold permits. destruct (Z.leb_spec (roleRank (rt_requiredRole c')) (roleRank (id_Role identity))); simpl.
    + split; [by intros [= <- <- <-]|]. intros (-> & -> & Hc & _). by rewrite (selected_unique _ _ _ _ _ Hc Hm).
    + split; [done|]. intros (_ & _ & Hc & _ & Hr). rewrite (selected_unique _ _ _ _ _ Hc Hm) in Hr. lia.
  - split; [by destruct pm|]. intros (_ & _ & (pre & post & -> & Hmc & Hme & _) & _). destruct Hm as [Hnone _].
    exfalso. eapply Hnone; [|exact Hmc|exact Hme]. apply elem_of_app. right. by left.
Qed.

Lemma serveAuthenticated_Refuse api r identity status code message details :
  serveAuthenticated api r identity = Refuse status code message details → (400 ≤ status < 500)%Z.
Proof.
  unfold serveAuthenticated. destruct (matchRoute _ _ _) as [[c|] []]; try (intros [= <- _ _ _]; done).
  all: destruct (negb _ && negb _); [intros [= <- _ _ _]; done|].
  all: destruct (negb _); [intros [= <- _ _ _]; done|done].
Qed.

Lemma decide_Refuse api key auth r status code message details who :
  decide_request api key auth r = (Refuse status code message details, who) → (400 ≤ status < 500)%Z.
Proof.
  unfold decide_request, authenticate, invalid_credential. intros Hd.
  repeat case_match; simplify_eq; try done; by eapply serveAuthenticated_Refuse.
Qed.

Lemma dispatch_who api key auth r c identity v who :
  decide_request api key auth r = (Dispatch c identity v, who) → who = Some identity.
Proof.
  unfold decide_request. destruct (authenticate key auth r) as [i|[[? ?] ?]]; [|done].
  intros [= Hd <-]. by apply serveAuthenticated_Dispatch in Hd as [-> _].
Qed.

Lemma control_dispatch_iff api key auth r c identity v who :
  decide_request api key auth r = (Dispatch c identity v, who) ↔
  authorised api key auth r c identity ∧ v = negotiateClientVersion (cr_ClientVersion r) ∧ who = Some identity.
Proof.
  unfold decide_request. destruct (authenticate key auth r) as [i|[[status code] message]] eqn:Ha.
  - split.
    + intros [= Hd <-]. apply serveAuthenticated_Dispatch in Hd as (-> & -> & Hc & Hv & Hr).
      apply authenticate_inl in Ha as (? & ? & ? & ?). split; [by split|done].
    + intros ([? (a & Hau & Hi) ? ? ? ? ?] & -> & ->).
      apply authenticate_inl in Ha as (_ & (a' & Hau' & Hi') & _). assert (i = identity) as -> by congruence.
      f_equal. by apply serveAuthenticated_Dispatch.
  - split; [done|]. intros ([? ? ? ? ? ? ?] & _ & _).
    assert (Hin : authenticate key auth r = inl identity) by by apply authenticate_inl. congruence.
Qed.

Lemma control_dispatch_spec api key auth r c identity v who :
  decide_request api key auth r = (Dispatch c identity v, who) → authorised api key auth r c identity.
Proof. by intros [? _]%control_dispatch_iff. Qed.

(** ** Properties *)

(** C22. Who reaches a handler.  A request is dispatched exactly when its credential
    is not the data plane's, the authenticator vouches for a named identity with a
    valid role, there is a route for the path and method (the exact one before any
    prefix, and the longest prefix), the client's version is supported or the route
    does not mind, and the role is at least the one the route requires; and it is
    dispatched to that route as that identity. *)
Theorem control_dispatch_is_authorised api key auth r c identity v who :
  decide_request api key auth r = (Dispatch c identity v, who) ↔
  authorised api key auth r c identity ∧ v = negotiateClientVersion (cr_ClientVersion r) ∧ who = Some identity.
Proof. apply control_dispatch_iff. Qed.

Section properties.
Context `{JSON}.

(** Every control request leaves one entry in the trail, unless its handler
    panics: with the identity that was authenticated (none for a refused
    credential), its method and path, and the status the client got.  A refused
    request never reaches a handler, gets a 4xx status and is recorded as denied;
    and the trail never grows beyond its limit. *)
Theorem every_control_request_is_audited api key auth now run r sink :
  (1 ≤ sink_limit sink)%Z → (Z.of_nat (length (sink_events sink)) ≤ sink_limit sink)%Z →
  let '(d, who) := decide_request api key auth r in
  match serve_request api key auth now run r sink with
  | Panics => ∃ c identity v, d = Dispatch c identity v ∧ run c identity = Panics
  | Returns (script, sink') =>
    (∃ kept, sink_events sink' = kept ++ [audit_event now r who (recorded_status script)]
       ∧ kept `suffix_of` sink_events sink)
    ∧ sink_limit sink' = sink_limit sink ∧ (Z.of_nat (length (sink_events sink')) ≤ sink_limit sink')%Z
    ∧ match d with
      | Refuse status _ _ _ => recorded_status script = status ∧ (400 ≤ status < 500)%Z
          ∧ ev_Result (audit_event now r who (recorded_status script)) = "denied"
      | Dispatch c identity _ => run c identity = Returns script ∧ who = Some identity
      end
  end.
Proof.
  intros Hl Hb. unfold serve_request. destruct (decide_request api key auth r) as [d who] eqn:Hd.
  assert (Hrec : ∀ e, (∃ kept, sink_events (sink_Record e sink) = kept ++ [e] ∧ kept `suffix_of` sink_events sink)
    ∧ sink_limit (sink_Record e sink) = sink_limit sink
    ∧ (Z.of_nat (length (sink_events (sink_Record e sink))) ≤ sink_limit (sink_Record e sink))%Z).
  { intros e. unfold sink_Record. simpl. split; [|split; [done|]].
    - eexists. split; [done|]. destruct (_ =? _)%Z; [|done]. destruct (sink_events sink) as [|x l]; [done|]. by exists [x].
    - rewrite length_app. simpl. destruct (Z.eqb_spec (Z.of_nat (length (sink_events sink))) (sink_limit sink)); [|lia].
      destruct (sink_events sink); simpl in *; lia. }
  destruct d as [status code message details|c identity v].
  - apply decide_Refuse in Hd as Hs. destruct (Hrec (audit_event now r who (recorded_status
      (writeError r status code message false details)))) as (? & ? & ?). split; [done|]. do 2 (split; [done|]).
    assert (Hst : recorded_status (writeError r status code message false details) = status).
    { unfold recorded_status, writeError, writeJSON. simpl. rewrite (proj2 (Z.eqb_neq status 0)) by lia.
      by rewrite (proj2 (Z.eqb_neq status 0)) by lia. }
    rewrite Hst. split; [done|]. split; [done|]. simpl.
    rewrite (proj2 (Z.leb_gt _ _)), (proj2 (Z.leb_le _ _)) by lia. done.
  - destruct (run c identity) as [script|] eqn:Hr; [|by exists c, identity, v].
    destruct (Hrec (audit_event now r who (recorded_status script))) as (? & ? & ?). split; [done|].
    do 2 (split; [done|]). split; [done|]. by apply dispatch_who in Hd.
Qed.

End properties.

(** *** Tokens *)

#[local] Instance rank_ge_trans : Transitive rank_ge.
Proof. intros a b c. unfold rank_ge. lia. Qed.
#[local] Instance rank_ge_total : Total rank_ge.
Proof. intros a b. unfold rank_ge. lia. Qed.

Definition token_of (tokens : gmap string string) (role : string) : string := TrimSpace (default "" (tokens !! role)).

Lemma tokens_sorted tokens token l :
  token ≠ "" → StronglySorted rank_ge l →
  match find_index (λ c, if constantTimeEqual token c.1 then Some c.2 else None) (omap (λ role,
    let token := token_of tokens role in
    if String.eqb token "" || negb (role_valid role) then None
    else Some (token, mkIdentity ("control-token:" +:+ role) role "control_bearer")) l) with
  | Some (_, identity) => ∃ role, identity = mkIdentity ("control-token:" +:+ role) role "control_bearer"
      ∧ role ∈ l ∧ role_valid role = true ∧ token_of tokens role = token
      ∧ ∀ role', role' ∈ l → role_valid role' = true → token_of tokens role' = token → (roleRank role' ≤ roleRank role)%Z
  | None => ∀ role, role ∈ l → role_valid role = true → token_of tokens role ≠ token
  end.
Proof.
  intros Ht. induction 1 as [|role l Hs IH Hall]; [by intros role ?%not_elem_of_nil|]. csimpl.
  destruct (String.eqb_spec (token_of tokens role) "") as [He|He]; simpl.
  { destruct (find_index _ _) as [[i identity]|].
    - destruct IH as (x & Hx & Hin & Hv & Htx & Hbest). exists x. split; [done|]. split; [by right|]. split; [done|].
      split; [done|]. intros y [-> |Hy]%elem_of_cons; [congruence|by apply Hbest].
    - intros x [-> |Hx]%elem_of_cons; [congruence|by apply IH]. }
  destruct (role_valid role) eqn:Hv; simpl.
  2:{ destruct (find_index _ _) as [[i identity]|].
    - destruct IH as (x & Hx & Hin & Hvx & Htx & Hbest). exists x. split; [done|]. split; [by right|]. split; [done|].
      split; [done|]. intros y [-> |Hy]%elem_of_cons; [congruence|by apply Hbest].
    - intros x [-> |Hx]%elem_of_cons; [congruence|by apply IH]. }
  unfold constantTimeEqual at 1. destruct (String.eqb_spec token (token_of tokens role)) as [Heq|Heq]; simpl.
  - exists role. split; [done|]. split; [by left|]. split; [done|]. split; [done|].
    intros y [-> |Hy]%elem_of_cons; [done|]. intros _ _. rewrite Forall_forall in Hall. by apply Hall.
  - destruct (find_index _ _) as [[i identity]|]; simpl.
    + destruct IH as (x & Hx & Hin & Hvx & Htx & Hbest). exists x. split; [done|]. split; [by right|]. split; [done|].
      split; [done|]. intros y [-> |Hy]%elem_of_cons; [congruence|by apply Hbest].
    + intros x [-> |Hx]%elem_of_cons; [congruence|by apply IH].
Qed.

(** A control token stands for its role.  A request is authenticated by its
    bearer token exactly when a valid role was configured with that token, blanks
    around it aside, and then as the highest such role. *)
Theorem token_authenticates_its_role tokens r :
  match TokenAuthenticator (NewTokenAuthenticator tokens) r with
  | Some identity => ∃ role, identity = mkIdentity ("control-token:" +:+ role) role "control_bearer"
      ∧ bearerToken (cr_Authorization r) ≠ "" ∧ role_valid role = true
      ∧ token_of tokens role = bearerToken (cr_Authorization r)
      ∧ ∀ role', role_valid role' = true → token_of tokens role' = bearerToken (cr_Authorization r) →
          (roleRank role' ≤ roleRank role)%Z
  | None => bearerToken (cr_Authorization r) = ""
      ∨ ∀ role, role_valid role = true → token_of tokens role ≠ bearerToken (cr_Authorization r)
  end.
Proof.
  unfold TokenAuthenticator. destruct (String.eqb_spec (bearerToken (cr_Authorization r)) "") as [He|He]; [by left|].
  set (token := bearerToken _) in *. unfold NewTokenAuthenticator.
  assert (Hin : ∀ role, token_of tokens role = token → role ∈ merge_sort rank_ge (map_to_list tokens).*1).
  { intros role Hr. rewrite merge_sort_Permutation. apply list_elem_of_fmap.
    unfold token_of in Hr. destruct (tokens !! role) as [v|] eqn:Hv.
    - exists (role, v). split; [done|]. by apply elem_of_map_to_list.
    - exfalso. apply He. by rewrite <-Hr. }
  pose proof (tokens_sorted tokens token _ He (StronglySorted_merge_sort rank_ge (map_to_list tokens).*1)) as Hs.
  unfold token_of in Hs at 1. destruct (find_index _ _) as [[i identity]|]; simpl.
  - destruct Hs as (role & -> & _ & Hv & Ht & Hbest). exists role. do 4 (split; [done|]).
    intros role' Hv' Ht'. by apply Hbest; [apply Hin|..].
  - right. intros role Hv Ht. by apply (Hs role); [apply Hin|..].
Qed.

(** *** The secret resources *)

Section secrets.
Context `{JSON} `{SecretCodec} (time_text : Time → string).

Lemma serve_changes op s :
  (serve op s).1.1 ≠ s → ∃ e, (serve op s).1.2 = [e] ∧
  match op with
  | OpSet _ _ actor _ _ | OpDelete _ _ actor _ => ae_Actor e = actor
  | _ => False
  end.
Proof.
  destruct op as [now fault actor id value|now fault actor id| |id]; cbn [serve]; [| |done|done].
  - unfold Set_. destruct (blank id); [done|]. destruct (entries s !! id) as [e|].
    + destruct (en_readOnly e); [done|]. destruct (persistManagedLocked _ _ _); [|done]. intros _. by eexists.
    + destruct (persistManagedLocked _ _ _); [|done]. intros _. by eexists.
  - unfold Delete. destruct (entries s !! id) as [e|]; [|done]. destruct (en_readOnly e); [done|].
    destruct (persistManagedLocked _ _ _); [|done]. intros _. by eexists.
Qed.

Lemma secret_call_actor now fault c identity r op :
  secret_call now fault c identity r = inr op →
  match op with
  | OpSet _ _ actor _ _ => actor = id_Subject identity ∧ rt_handler c = "writeSecret"
  | OpDelete _ _ actor _ => actor = id_Subject identity ∧ rt_handler c = "deleteSecret"
  | _ => True
  end.
Proof.
  unfold secret_call. destruct (String.eqb_spec (rt_handler c) "writeSecret").
  - destruct (decodeStrictJSON _ _ _) as [[slot [value|]]|]; try done. destruct (_ || _); [done|]. by intros [= <-].
  - destruct (String.eqb_spec (rt_handler c) "deleteSecret"); [|by intros [= <-]].
    destruct (decodeStrictJSON _ _ _) as [slot|]; [|done]. destruct (negb _); [done|]. by intros [= <-].
Qed.

(** Two requests that differ in the secret they write: their bodies are the same JSON
    but for the string under [value], and neither string is blank. *)
Definition differ_in_value (kv kv' : string * json) : Prop :=
  kv = kv' ∨ ∃ v v', kv = ("value", JStr v) ∧ kv' = ("value", JStr v') ∧ blank v = false ∧ blank v' = false.

Definition small (body : string) : Prop := (Z.of_nat (String.length body) ≤ maxOperationRequestBody)%Z.

Definition same_body_but_value (body body' : option string) : Prop :=
  body = body' ∨ ∃ b b' l l', body = Some b ∧ body' = Some b' ∧ small b ∧ small b'
    ∧ json_unmarshal b = Some (JObj l) ∧ json_unmarshal b' = Some (JObj l') ∧ Forall2 differ_in_value l l'.

Definition with_body (body : option string) (r : control_request) : control_request :=
  mkControlRequest (cr_Method r) (cr_Path r) (cr_Authorization r) (cr_APIKey r) (cr_RequestID r) (cr_ClientVersion r)
    (cr_Certificate r) (cr_Fresh r) body.

Definition same_but_value (r r' : control_request) : Prop :=
  r' = with_body (cr_Body r') r ∧ same_body_but_value (cr_Body r) (cr_Body r').

(** The write that is decoded, up to its value. *)
Definition same_write (w w' : secretWriteRequest) : Prop :=
  sw_Slot w = sw_Slot w' ∧
  (sw_Value w = sw_Value w' ∨ ∃ v v', sw_Value w = Some v ∧ sw_Value w' = Some v' ∧ blank v = false ∧ blank v' = false).

Definition same_result {A} (R : A → A → Prop) (a a' : option A) : Prop :=
  match a, a' with Some a, Some a' => R a a' | None, None => True | _, _ => False end.

Definition write_fields : list (field secretWriteRequest) :=
  [fld "slot" sw_Slot (λ x w, mkSecretWrite x (sw_Value w)) d_string;
   fld "value" sw_Value (λ x w, mkSecretWrite (sw_Slot w) x) (d_pointer "" d_string)].

Lemma d_member_write a a' kv kv' :
  same_result same_write a a' → differ_in_value kv kv' → same_result same_write (d_member write_fields a kv) (d_member write_fields a' kv').
Proof.
  intros Ha Hkv. destruct a as [w|], a' as [w'|]; try done. destruct Ha as [Hslot Hvalue]. cbn [d_member mbind option_bind].
  destruct Hkv as [<-|(v & v' & -> & -> & Hv & Hv')].
  2:{ vm_compute find_field. split; [exact Hslot|]. right. by exists v, v'. }
  destruct kv as [k x]. destruct (find_field write_fields (k, x).1) as [d|] eqn:Hd; [|by split].
  apply find_field_elem in Hd as (f & Hf & <- & _). unfold write_fields in Hf. rewrite !elem_of_cons, elem_of_nil in Hf.
  destruct Hf as [->|[->|[]]]; cbn [fld snd fst].
  - destruct x; cbn; try done; by split.
  - destruct x; cbn; try done; by (split; [|left]).
Qed.

Lemma decode_write l l' :
  Forall2 differ_in_value l l' →
  same_result same_write (unmarshal (mkSecretWrite "" None) d_secret_write (JObj l))
    (unmarshal (mkSecretWrite "" None) d_secret_write (JObj l')).
Proof.
  intros Hl. unfold unmarshal, d_secret_write, d_strict. fold write_fields.
  assert (Hk : forallb (λ kv, bool_decide (is_Some (find_field write_fields kv.1))) l
    = forallb (λ kv, bool_decide (is_Some (find_field write_fields kv.1))) l').
  { induction Hl as [|kv kv' l l' Hkv Hl IH]; [done|]. cbn [forallb]. rewrite IH. f_equal.
    by destruct Hkv as [<-|(v & v' & -> & -> & _)]. }
  rewrite Hk. destruct (forallb _ l'); [|done]. rewrite !d_struct_fold. clear Hk.
  assert (Hacc : same_result same_write (Some (mkSecretWrite "" None)) (Some (mkSecretWrite "" None))) by (split; [done|by left]).
  revert Hacc. generalize (Some (mkSecretWrite "" None)) at 1 3. generalize (Some (mkSecretWrite "" None)).
  induction Hl as [|kv kv' l l' Hkv Hl IH]; intros a' a Ha; cbn [foldl]; [done|]. apply IH. by apply d_member_write.
Qed.

Lemma decode_delete l l' :
  Forall2 differ_in_value l l' → unmarshal "" d_secret_delete (JObj l) = unmarshal "" d_secret_delete (JObj l').
Proof.
  intros Hl. unfold unmarshal, d_secret_delete, d_strict. set (fields := [_]).
  assert (Hk : l = l' ∨ forallb (λ kv, bool_decide (is_Some (find_field fields kv.1))) l = false
    ∧ forallb (λ kv, bool_decide (is_Some (find_field fields kv.1))) l' = false).
  { induction Hl as [|kv kv' l l' Hkv Hl IH]; [by left|]. cbn [forallb]. destruct Hkv as [<-|(v & v' & -> & -> & _)]; [|by right].
    destruct IH as [->|[-> ->]]; [by left|right]. by rewrite andb_false_r. }
  destruct Hk as [-> |[-> ->]]; done.
Qed.

Lemma mask_not_blank v : blank v = false → mask v = "*".
Proof. unfold mask. destruct (String.eqb_spec v "") as [->|]; [by vm_compute|done]. Qed.

Lemma decode_small {A} (zero : A) (d : decoder A) b : small b → decodeStrictJSON zero d (Some b) = json_unmarshal b ≫= unmarshal zero d.
Proof.
  unfold small, decodeStrictJSON. intros Hb. cbn [mbind option_bind].
  destruct (Z.ltb_spec maxOperationRequestBody (Z.of_nat (String.length b))); [lia|done].
Qed.

(** What the handler asks of the store for two such requests is the same up to the value. *)
Lemma secret_call_same now fault c identity r r' :
  same_but_value r r' →
  match secret_call now fault c identity r, secret_call now fault c identity r' with
  | inl script, inl script' => script = script'
  | inr op, inr op' => mask_op op = mask_op op'
  | _, _ => False
  end.
Proof.
  intros [Er [Hb|(b & b' & l & l' & Hb & Hb' & Hsm & Hsm' & Hu & Hu' & Hl)]].
  { assert (r' = r) as -> by (rewrite Er, <-Hb; by destruct r). by destruct (secret_call now fault c identity r). }
  assert (Hw : ∀ status code message retry details,
    writeError r' status code message retry details = writeError r status code message retry details) by (intros; by rewrite Er).
  unfold secret_call. rewrite Hb, Hb', !Hw, !decode_small, Hu, Hu' by done. clear Er.
  cbn [mbind option_bind]. rewrite (decode_delete l l' Hl). pose proof (decode_write l l' Hl) as Hd.
  destruct (String.eqb (rt_handler c) "writeSecret").
  - destruct (unmarshal _ d_secret_write (JObj l)) as [[slot value]|], (unmarshal _ d_secret_write (JObj l')) as [[slot' value']|]; try done.
    destruct Hd as [Hslot Hv]. cbn [sw_Slot sw_Value] in Hslot, Hv. subst slot'.
    destruct Hv as [<-|(v & v' & -> & -> & Hv & Hv')].
    + destruct value as [v|]; [|done]. by destruct (blank v || _).
    + rewrite Hv, Hv'. cbn [orb]. destruct (negb _); [done|]. simpl. by rewrite !mask_not_blank.
  - destruct (String.eqb (rt_handler c) "deleteSecret"); [|done].
    destruct (unmarshal _ d_secret_delete (JObj l')) as [slot|]; [|done]. by destruct (negb _).
Qed.

Lemma secret_handler_indistinguishable now fault c identity r r' s s' :
  indistinguishable s s' → same_but_value r r' →
  let '(s1, events, script) := secret_handler time_text now fault c identity r s in
  let '(s1', events', script') := secret_handler time_text now fault c identity r' s' in
  indistinguishable s1 s1' ∧ events = events' ∧ script = script'.
Proof.
  intros Hs Hr. pose proof (secret_call_same now fault c identity r r' Hr) as Hcall. unfold secret_handler.
  destruct (secret_call now fault c identity r) as [script|op], (secret_call now fault c identity r') as [script'|op']; try done.
  pose proof (serve_indistinguishable op op' s s' Hs Hcall) as Hserve.
  destruct (serve op s) as [[s1 e1] r1], (serve op' s') as [[s1' e1'] r1']. destruct Hserve as (? & -> & ->).
  split; [done|]. split; [done|]. by rewrite (proj1 Hr).
Qed.

(** Who sends a request, and where it goes, does not depend on its body. *)
Lemma decide_request_same api key auth r r' :
  same_but_value r r' → (∀ a, auth = Some a → a r = a r') → decide_request api key auth r' = decide_request api key auth r.
Proof.
  intros [Hr _] Hauth. unfold decide_request.
  assert (authenticate key auth r' = authenticate key auth r) as ->.
  { unfold authenticate. assert (suppliedCredential r' = suppliedCredential r) as -> by by rewrite Hr.
    destruct (_ && _); [done|]. destruct auth as [a|]; [|done]. by rewrite (Hauth a). }
  destruct (authenticate key auth r) as [identity|[[status code] message]]; [|done]. f_equal. by rewrite Hr.
Qed.

Lemma selected_elem api method path c : selected api method path c → c ∈ api.
Proof. intros (pre & post & -> & _). apply elem_of_app. right. by left. Qed.

(** C23. The secret resources keep the secrets.  Whatever the request, its answer,
    the control trail and the store's audit events are the same for any two stores
    that differ in their values only, and for any two requests that differ only in
    the value they write; and a request changes the store only if it was dispatched,
    to the writing or the deleting route, as an identity of operator rank at least,
    and then the one audit event names that identity. *)
Theorem secret_resources_keep_secrets key auth now fault meta r r' s s' sink :
  indistinguishable s s' → same_but_value r r' → (∀ a, auth = Some a → a r = a r') →
  let '(s1, events, out) := serve_secrets time_text key auth now fault meta r s sink in
  let '(s1', events', out') := serve_secrets time_text key auth now fault meta r' s' sink in
  indistinguishable s1 s1' ∧ events = events' ∧ out = out'
  ∧ (s1 ≠ s → ∃ c identity e, authorised (RegisterSecretRoutes NewAPI) key auth r c identity
       ∧ rt_handler c ∈ ["writeSecret"; "deleteSecret"] ∧ (2 ≤ roleRank (id_Role identity))%Z
       ∧ events = [e] ∧ ae_Actor e = id_Subject identity).
Proof.
  intros Hs Hr Hauth. unfold serve_secrets, serve_request.
  rewrite (decide_request_same (RegisterSecretRoutes NewAPI) key auth r r' Hr Hauth).
  assert (Hev : ∀ who status, audit_event now r' who status = audit_event now r who status) by (intros; by rewrite (proj1 Hr)).
  assert (Hw : ∀ status code message retry details,
    writeError r' status code message retry details = writeError r status code message retry details) by (intros; by rewrite (proj1 Hr)).
  destruct (decide_request (RegisterSecretRoutes NewAPI) key auth r) as [d who] eqn:Hd. cbn [fst].
  destruct d as [status code message details|c identity v]; [by rewrite Hev, Hw|].
  destruct (String.eqb_spec (rt_handler c) "meta") as [Hmeta|Hmeta]; [by rewrite Hev|].
  pose proof (secret_handler_indistinguishable now fault c identity r r' s s' Hs Hr) as Hh.
  destruct (secret_handler time_text now fault c identity r s) as [[s1 e1] script] eqn:Hrun.
  destruct (secret_handler time_text now fault c identity r' s') as [[s1' e1'] script'].
  destruct Hh as (Hs1 & -> & ->). cbn [fst snd]. rewrite Hev. do 3 (split; [done|]). intros Hne.
  unfold secret_handler in Hrun. destruct (secret_call now fault c identity r) as [x|op] eqn:Hcall.
  { injection Hrun as <- _ _. done. }
  destruct (serve op s) as [[s2 e2] rep] eqn:Hserve. injection Hrun as <- <- _.
  destruct (serve_changes op s) as (e & He & Ha); [by rewrite Hserve|]. rewrite Hserve in He. simpl in He.
  apply secret_call_actor in Hcall.
  assert (Hroute : rt_handler c ∈ ["writeSecret"; "deleteSecret"] ∧ ae_Actor e = id_Subject identity).
  { rewrite !elem_of_cons. destruct op; try done; destruct Hcall as [Hc Hra]; split; (auto || congruence). }
  apply control_dispatch_spec in Hd as Hau. exists c, identity, e. destruct Hroute as [Hh Hactor].
  split; [done|]. split; [done|]. split; [|done].
  assert (Hrole := au_role _ _ _ _ _ _ Hau). assert (Hin := selected_elem _ _ _ _ (au_route _ _ _ _ _ _ Hau)).
  etrans; [|exact Hrole]. unfold RegisterSecretRoutes, Handle, NewAPI in Hin. rewrite !elem_of_app, !elem_of_cons in Hin.
  rewrite !elem_of_cons in Hh.
  destruct Hin as [[[[-> |[]%not_elem_of_nil]|[-> |[]%not_elem_of_nil]]|[-> |[]%not_elem_of_nil]]|[-> |[]%not_elem_of_nil]]; try done.
  simpl in Hh. destruct Hh as [?|[?|[]%not_elem_of_nil]]; done.
Qed.

End secrets.

(** ** Examples *)

Module ExampleControl.
Import ExampleSecrets.

(** A JSON library that knows one body. *)
#[export] Instance write_json : JSON := {
  json_unmarshal s :=
    if String.eqb s "{write}" then Some (JObj [("slot", JStr "kilo/api_key"); ("value", JStr "k")])
    else if String.eqb s "{write other}" then Some (JObj [("slot", JStr "kilo/api_key"); ("value", JStr "other")]) else None;
  json_marshal j := Some "{}";
  json_string_field _ _ := None;
  json_int_fields _ _ := None;
}.

Definition tokens : gmap string string := {[ RoleViewer := "view"; RoleOperator := " operate " ]}.
Definition auth : option authenticator := Some (TokenAuthenticator (NewTokenAuthenticator tokens)).
Definition api : list route := RegisterSecretRoutes NewAPI.

Definition put (authorization version : string) : control_request :=
  mkControlRequest "put" "/control/v1/secrets" authorization "" "request-1" version None "req_1" (Some "{write}").

Definition sink0 : MemoryAuditSink := NewMemoryAuditSink 2.

Definition verdict (r : control_request) : string + string :=
  match (decide_request api "data" auth r).1 with
  | Refuse _ code _ _ => inr code
  | Dispatch c identity _ => inl (rt_handler c +:+ " by " +:+ id_Subject identity)
  end.

Example decisions :
  verdict (put "bearer operate" "v1.1.3") = inl "writeSecret by control-token:operator"
  ∧ verdict (put "Bearer view" "") = inr "control_forbidden"
  ∧ verdict (put "Bearer data" "") = inr "data_plane_credential_rejected"
  ∧ verdict (put "Bearer operate" "2.0.0") = inr "unsupported_client_version"
  ∧ verdict (put "" "") = inr "invalid_control_credential".
Proof. vm_compute. repeat split. Qed.

Lemma every_control_request_is_audited_witness :
  let '(d, who) := decide_request api "data" auth (put "Bearer view" "") in
  match serve_request api "data" auth 5 (λ _ _, Returns [AWriteHeader StatusOK]) (put "Bearer view" "") sink0 with
  | Panics => ∃ c identity v, d = Dispatch c identity v ∧ Returns [AWriteHeader StatusOK] = Panics
  | Returns (script, sink') =>
    (∃ kept, sink_events sink' = kept ++ [audit_event 5 (put "Bearer view" "") who (recorded_status script)]
       ∧ kept `suffix_of` sink_events sink0)
    ∧ sink_limit sink' = sink_limit sink0 ∧ (Z.of_nat (length (sink_events sink')) ≤ sink_limit sink')%Z
    ∧ match d with
      | Refuse status _ _ _ => recorded_status script = status ∧ (400 ≤ status < 500)%Z
          ∧ ev_Result (audit_event 5 (put "Bearer view" "") who (recorded_status script)) = "denied"
      | Dispatch c identity _ => Returns [AWriteHeader StatusOK] = Returns script ∧ who = Some identity
      end
  end.
Proof.
  apply (every_control_request_is_audited api "data" auth 5 (λ _ _, Returns [AWriteHeader StatusOK])); simpl; lia.
Defined.

Definition time_text (t : Time) : string := "now".

(** Two writes of different keys to stores with different keys. *)
Definition other_write : control_request := with_body (Some "{write other}") (put "Bearer operate" "").

Lemma writes_look_alike : same_but_value (put "Bearer operate" "") other_write.
Proof.
  split; [reflexivity|]. right. eexists "{write}", "{write other}", _, _.
  repeat (split; [first [reflexivity|vm_compute; discriminate]|]). constructor; [by left|].
  constructor; [|constructor]. right. by exists "k", "other".
Qed.

Lemma secret_resources_keep_secrets_witness :
  let r := put "Bearer operate" "" in
  let '(s1, events, out) := serve_secrets time_text "data" auth 5 None [] r (with_codex "sk-1") sink0 in
  let '(s1', events', out') := serve_secrets time_text "data" auth 5 None [] other_write (with_codex "sk-2") sink0 in
  indistinguishable s1 s1' ∧ events = events' ∧ out = out'
  ∧ (s1 ≠ with_codex "sk-1" → ∃ c identity e, authorised (RegisterSecretRoutes NewAPI) "data" auth r c identity
       ∧ rt_handler c ∈ ["writeSecret"; "deleteSecret"] ∧ (2 ≤ roleRank (id_Role identity))%Z
       ∧ events = [e] ∧ ae_Actor e = id_Subject identity).
Proof.
  apply (secret_resources_keep_secrets time_text "data" auth 5 None [] (put "Bearer operate" "") other_write
    (with_codex "sk-1") (with_codex "sk-2") sink0); [split; reflexivity|exact writes_look_alike|].
  intros a Ha. injection Ha as <-. reflexivity.
Defined.

(** The write goes through. *)
Example operator_writes :
  length (ae_Actor <$> (serve_secrets time_text "data" auth 5 None [] (put "Bearer operate" "") (with_codex "sk-1") sink0).1.2) = 1.
Proof. vm_compute. reflexivity. Qed.

(** A handler that panics leaves nothing in the trail. *)
Example panic_leaves_no_trail :
  serve_request api "data" auth 5 (λ _ _, Panics) (put "Bearer operate" "") sink0 = Panics.
Proof. vm_compute. reflexivity. Qed.

End ExampleControl.
