(* ===== verification/Pool.v ===== *)
(** * The worker pool and the coalescing of requests

    Two concurrent structures of [src/src/proxy.go]: Module [WorkerPool], a fixed
    number of goroutines that take jobs from a bounded queue, and callers of
    [SubmitContext] that wait for room; Module [Coalescing], callers with the same
    key that share one run of a function.

    Each is a transition system: an event is one atomic action of one goroutine.
    What a mutex protects is one event; a channel operation is one event; between two
    events of a goroutine the others run. *)

From S2P Require Import Prelude GoStd.

Module WorkerPool.

(** A job is named by a number.  [accepted], [started] and [completed] are traces for
    the statements: the jobs that entered the queue, that a worker took from it and
    that ended, in this order.  A job that panics ends the process, and with it the
    model. *)
Notation job := nat (only parsing).

(** Where a worker of [start] stands: at its [select]; with a job taken from the
    queue, about to announce the room; inside the job; returned. *)
(* src/src/proxy.go:158-178 WorkerPool.start *)
Inductive worker := Idle | Took (j : job) | Running (j : job) | Exited.

(** Where a caller of [SubmitContext] stands: at the lock; at the second [select];
    returned. *)
Inductive caller := Trying (j : job) | Waiting (j : job) | Returned (j : job) (ok : bool).

#[export] Instance worker_eq_dec : EqDecision worker.
Proof. solve_decision. Defined.
#[export] Instance caller_eq_dec : EqDecision caller.
Proof. solve_decision. Defined.

(** [spaceAvailable] holds a token or not; [quit] is closed or not. *)
(* src/src/proxy.go WorkerPool *)
Record t := mk {
  workers : list worker;
  jobQueue : list job;
  capacity : nat;
  spaceAvailable : bool;
  quit : bool;
  stopped : bool;
  callers : list caller;
  accepted : list job;
  started : list job;
  completed : list job;
}.

(* src/src/proxy.go NewWorkerPool *)
Definition NewWorkerPool (numCPU : nat) (n : Z) : t :=
  let n := if (n <=? 0)%Z then numCPU * 2 else Z.to_nat n in
  mk (replicate n Idle) [] (n * 2) false false false [] [] [] [].

Definition set_worker (w : nat) (x : worker) (p : t) : t :=
  mk (<[w := x]> (workers p)) (jobQueue p) (capacity p) (spaceAvailable p) (quit p) (stopped p)
    (callers p) (accepted p) (started p) (completed p).
Definition set_caller (c : nat) (x : caller) (p : t) : t :=
  mk (workers p) (jobQueue p) (capacity p) (spaceAvailable p) (quit p) (stopped p)
    (<[c := x]> (callers p)) (accepted p) (started p) (completed p).
Definition set_space (b : bool) (p : t) : t :=
  mk (workers p) (jobQueue p) (capacity p) b (quit p) (stopped p)
    (callers p) (accepted p) (started p) (completed p).
Definition add_caller (x : caller) (p : t) : t :=
  mk (workers p) (jobQueue p) (capacity p) (spaceAvailable p) (quit p) (stopped p)
    (callers p ++ [x]) (accepted p) (started p) (completed p).
Definition enqueue (j : job) (p : t) : t :=
  mk (workers p) (jobQueue p ++ [j]) (capacity p) (spaceAvailable p) (quit p) (stopped p)
    (callers p) (accepted p ++ [j]) (started p) (completed p).
Definition dequeue (j : job) (q : list job) (p : t) : t :=
  mk (workers p) q (capacity p) (spaceAvailable p) (quit p) (stopped p)
    (callers p) (accepted p) (started p ++ [j]) (completed p).
Definition complete (j : job) (p : t) : t :=
  mk (workers p) (jobQueue p) (capacity p) (spaceAvailable p) (quit p) (stopped p)
    (callers p) (accepted p) (started p) (completed p ++ [j]).

(** ** The events *)

(** The worker's [select]: a job, when there is one; [quit], when it is closed.
    Both may be ready, and then either is chosen. *)
(* src/src/proxy.go:164-165 WorkerPool.start *)
Definition receive (w : nat) (p : t) : option t :=
  match workers p !! w, jobQueue p with
  | Some Idle, j :: q => Some (set_worker w (Took j) (dequeue j q p))
  | _, _ => None
  end.

(* src/src/proxy.go:166-169 WorkerPool.start *)
Definition announce (w : nat) (p : t) : option t :=
  match workers p !! w with
  | Some (Took j) => Some (set_worker w (Running j) (set_space true p))
  | _ => None
  end.

(* src/src/proxy.go:170-172 WorkerPool.start *)
Definition finish (w : nat) (p : t) : option t :=
  match workers p !! w with
  | Some (Running j) => Some (set_worker w Idle (complete j p))
  | _ => None
  end.

(* src/src/proxy.go:173-174 WorkerPool.start *)
Definition exit (w : nat) (p : t) : option t :=
  match workers p !! w with
  | Some Idle => if quit p then Some (set_worker w Exited p) else None
  | _ => None
  end.

(** A call of [SubmitContext]; a nil job is refused before the lock. *)
(* src/src/proxy.go:181-190 WorkerPool.SubmitContext *)
Definition submit (j : option job) (p : t) : t :=
  match j with
  | None => p
  | Some j => add_caller (Trying j) p
  end.

(** The critical section under [stateMu]. *)
(* src/src/proxy.go:192-203 WorkerPool.SubmitContext *)
Definition try_enqueue (c : nat) (p : t) : option t :=
  match callers p !! c with
  | Some (Trying j) =>
    Some (if stopped p then set_caller c (Returned j false) p
          else if decide (length (jobQueue p) < capacity p)
          then set_caller c (Returned j true) (enqueue j p)
          else set_caller c (Waiting j) p)
  | _ => None
  end.

(** The three cases of the second [select]; [cancelled] is a context that is done. *)
(* src/src/proxy.go:204-206 WorkerPool.SubmitContext *)
Definition cancelled (c : nat) (p : t) : option t :=
  match callers p !! c with
  | Some (Waiting j) => Some (set_caller c (Returned j false) p)
  | _ => None
  end.
(* src/src/proxy.go:207-208 WorkerPool.SubmitContext *)
Definition see_quit (c : nat) (p : t) : option t :=
  match callers p !! c with
  | Some (Waiting j) => if quit p then Some (set_caller c (Returned j false) p) else None
  | _ => None
  end.
(* src/src/proxy.go:209-209 WorkerPool.SubmitContext *)
Definition wake (c : nat) (p : t) : option t :=
  match callers p !! c with
  | Some (Waiting j) =>
    if spaceAvailable p then Some (set_caller c (Trying j) (set_space false p)) else None
  | _ => None
  end.

(** The function under [stopOnce]; [Stop] then waits until [stop_returns]. *)
(* src/src/proxy.go:218-223 WorkerPool.Stop *)
Definition stop (p : t) : option t :=
  if stopped p then None
  else Some (mk (workers p) (jobQueue p) (capacity p) (spaceAvailable p) true true
               (callers p) (accepted p) (started p) (completed p)).
(* src/src/proxy.go:224-224 WorkerPool.Stop *)
Definition stop_returns (p : t) : Prop := stopped p = true ∧ ∀ x, x ∈ workers p → x = Exited.

Inductive event :=
| EReceive (w : nat) | EAnnounce (w : nat) | EFinish (w : nat) | EExit (w : nat)
| ETry (c : nat) | ESeeQuit (c : nat) | EWake (c : nat)
| ECancelled (c : nat) | EStop | ESubmit (j : option job).

Definition step (e : event) (p : t) : option t :=
  match e with
  | EReceive w => receive w p
  | EAnnounce w => announce w p
  | EFinish w => finish w p
  | EExit w => exit w p
  | ETry c => try_enqueue c p
  | ESeeQuit c => see_quit c p
  | EWake c => wake c p
  | ECancelled c => cancelled c p
  | EStop => stop p
  | ESubmit j => Some (submit j p)
  end.

Fixpoint run (l : list event) (p : t) : option t :=
  match l with
  | [] => Some p
  | e :: l => match step e p with Some p => run l p | None => None end
  end.

(** What the pool does by itself, once its jobs return: everything but new calls,
    cancellations and [Stop]. *)
Definition internal (e : event) : bool :=
  match e with ECancelled _ | EStop | ESubmit _ => false | _ => true end.

(** Nothing is left to do without a new call. *)
Definition settled (p : t) : Prop := ∀ e, internal e = true → step e p = None.

(** ** Invariant *)

(** The jobs a worker holds, and the job whose caller was told it was accepted. *)
Definition held_by (x : worker) : list job :=
  match x with Took j | Running j => [j] | _ => [] end.
Definition told (x : caller) : list job :=
  match x with Returned j true => [j] | _ => [] end.
Definition held (p : t) : list job := workers p ≫= held_by.
Definition answered (p : t) : list job := callers p ≫= told.

Definition is_waiting (x : caller) : bool := match x with Waiting _ => true | _ => false end.
Definition is_trying (x : caller) : bool := match x with Trying _ => true | _ => false end.
Definition is_took (x : worker) : bool := match x with Took _ => true | _ => false end.

(** Somebody will look at the queue again, or is told that there is room. *)
Definition awake (p : t) : Prop :=
  stopped p = true ∨ spaceAvailable p = true ∨ jobQueue p ≠ []
  ∨ (∃ w x, workers p !! w = Some x ∧ is_took x = true)
  ∨ (∃ c x, callers p !! c = Some x ∧ is_trying x = true).

Record inv (p : t) : Prop := {
  inv_order : accepted p = started p ++ jobQueue p;
  inv_started : started p ≡ₚ held p ++ completed p;
  inv_bound : length (jobQueue p) ≤ capacity p;
  inv_answers : answered p ≡ₚ accepted p;
  inv_quit : quit p = stopped p;
  inv_exited : ∀ w, workers p !! w = Some Exited → stopped p = true;
  inv_some : 0 < capacity p ∧ 0 < length (workers p);
  inv_awake : ∀ c x, callers p !! c = Some x → is_waiting x = true → awake p;
}.

Lemma pool_new_inv numCPU n : 0 < numCPU → inv (NewWorkerPool numCPU n).
Proof.
  intros Hcpu. unfold NewWorkerPool. set (k := if (n <=? 0)%Z then _ else _).
  assert (0 < k) as Hk by (subst k; destruct (Z.leb_spec n 0); lia).
  constructor; simpl; try done; try lia.
  - unfold held. simpl. clear. by induction k.
  - intros w Hw. apply lookup_replicate in Hw as [? _]. done.
  - rewrite length_replicate. lia.
Qed.

(** Replacing one element of a list exchanges what it contributes. *)
Lemma bind_insert {A B} (f : A → list B) (l : list A) i x y :
  l !! i = Some x → ((<[i := y]> l) ≫= f) ++ f x ≡ₚ (l ≫= f) ++ f y.
Proof.
  intros Hi. rewrite insert_take_drop by eauto using lookup_lt_Some.
  rewrite <- (take_drop_middle l i x Hi) at 3.
  rewrite !bind_app, !bind_cons. solve_Permutation.
Qed.

Lemma sum_insert {A} (f : A → nat) (l : list A) i x y :
  l !! i = Some x → sum_list_with f (<[i := y]> l) + f x = sum_list_with f l + f y.
Proof.
  intros Hi. rewrite insert_take_drop by eauto using lookup_lt_Some.
  rewrite <- (take_drop_middle l i x Hi) at 3.
  rewrite !sum_list_with_app. simpl. lia.
Qed.

(** The exchange made by the update of a worker, or of a caller, in the goal. *)
Ltac exchange He :=
  unfold held, answered; simpl;
  match goal with
  | H : ?l !! ?i = Some ?x |- context [(<[?i := ?y]> ?l) ≫= ?f] =>
    pose proof (bind_insert f l i x y H) as He; simpl in He;
    rewrite ?app_nil_r in He
  end.

Lemma insert_other {A} (f : A → bool) (l : list A) i x y :
  l !! i = Some x → f x = false → (∃ k z, l !! k = Some z ∧ f z = true) →
  ∃ k z, <[i := y]> l !! k = Some z ∧ f z = true.
Proof.
  intros Hi Hx (k & z & Hk & Hz). exists k, z. split; [|done].
  rewrite list_lookup_insert_ne; [done|]. intros ->. congruence.
Qed.

Lemma insert_here {A} (f : A → bool) (l : list A) i x y :
  l !! i = Some x → f y = true → ∃ k z, <[i := y]> l !! k = Some z ∧ f z = true.
Proof.
  intros Hi Hy. exists i, y. split; [|done].
  by rewrite list_lookup_insert_eq by eauto using lookup_lt_Some.
Qed.

(** A worker's or a caller's move that wakes nobody up keeps somebody awake. *)
Lemma awake_caller p c x y :
  callers p !! c = Some x → is_trying x = false → awake p → awake (set_caller c y p).
Proof.
  intros Hc Hx [?|[?|[?|[?|?]]]]; unfold awake; simpl; auto.
  do 4 right. by eapply insert_other.
Qed.

Lemma waiting_insert p c y k x :
  is_waiting y = false → callers (set_caller c y p) !! k = Some x → is_waiting x = true →
  callers p !! k = Some x.
Proof. simpl. intros Hy [[-> ]|[]]%list_lookup_insert_Some Hx; [naive_solver congruence|done]. Qed.

Lemma receive_inv w p p' : receive w p = Some p' → inv p → inv p'.
Proof.
  unfold receive. intros Hstep []. peel. constructor; simpl; try done.
  - rewrite inv_order0, <- app_assoc. done.
  - exchange He. rewrite He, inv_started0. unfold held. solve_Permutation.
  - simpl in *. lia.
  - intros v [[_ ?]|[]]%list_lookup_insert_Some; [naive_solver|eauto].
  - by rewrite length_insert.
  - intros. do 3 right. left. by eapply insert_here.
Qed.

Lemma announce_inv w p p' : announce w p = Some p' → inv p → inv p'.
Proof.
  unfold announce. intros Hstep []. peel. constructor; simpl; try done.
  - exchange He. apply Permutation_app_inv_r in He. by rewrite He.
  - intros v [[_ ?]|[]]%list_lookup_insert_Some; [naive_solver|eauto].
  - by rewrite length_insert.
  - intros. right. by left.
Qed.

Lemma awake_worker p w x y :
  workers p !! w = Some x → is_took x = false → awake p → awake (set_worker w y p).
Proof.
  intros Hc Hx [?|[?|[?|[?|?]]]]; unfold awake; simpl; auto.
  do 3 right. left. by eapply insert_other.
Qed.

Lemma finish_inv w p p' : finish w p = Some p' → inv p → inv p'.
Proof.
  unfold finish. intros Hstep []. peel. constructor; simpl; try done.
  - exchange He. rewrite inv_started0. unfold held. rewrite <- He. solve_Permutation.
  - intros v [[_ ?]|[]]%list_lookup_insert_Some; [naive_solver|eauto].
  - by rewrite length_insert.
  - intros c x Hc Hx. apply (awake_worker (complete j p) w (Running j)); [done..|]. by eapply inv_awake0.
Qed.

Lemma exit_inv w p p' : exit w p = Some p' → inv p → inv p'.
Proof.
  unfold exit. intros Hstep []. peel. constructor; simpl; try done.
  - exchange He. by rewrite He.
  - intros. congruence.
  - by rewrite length_insert.
  - intros. left. simpl. congruence.
Qed.

Lemma submit_inv j p : inv p → inv (submit j p).
Proof.
  intros I. destruct j as [j|]; [|done]. destruct I. constructor; simpl; try done.
  - unfold answered. simpl. rewrite bind_app. simpl. by rewrite app_nil_r.
  - intros c x Hc Hx. do 4 right. exists (length (callers p)), (Trying j). split; [|done].
    simpl. by rewrite lookup_app_r, Nat.sub_diag by done.
Qed.

Lemma try_inv c p p' : try_enqueue c p = Some p' → inv p → inv p'.
Proof.
  unfold try_enqueue. intros Hstep I. pose proof I as []. peel.
  - constructor; simpl; try done; try congruence.
    + exchange He. by rewrite He.
    + intros. by left.
  - constructor; simpl; try done; try congruence.
    + by rewrite inv_order0, app_assoc.
    + rewrite length_app. simpl. lia.
    + exchange He. rewrite He. f_equiv. done.
    + intros w Hw. by apply inv_exited0 in Hw.
    + intros. do 2 right. left. simpl. by destruct (jobQueue p).
  - constructor; simpl; try done; try congruence.
    + exchange He. by rewrite He.
    + intros w Hw; by apply inv_exited0 in Hw.
    + intros. do 2 right. left. simpl. intros E. apply (f_equal length) in E. simpl in E. lia.
Qed.

Lemma cancelled_inv c p p' : cancelled c p = Some p' → inv p → inv p'.
Proof.
  unfold cancelled. intros Hstep I. pose proof I as []. peel. constructor; simpl; try done.
  - exchange He. by rewrite He.
  - intros k x Hk Hx. eapply awake_caller; [done|done|].
    eapply inv_awake0, Hx. by eapply waiting_insert; [|apply Hk|].
Qed.

Lemma see_quit_inv c p p' : see_quit c p = Some p' → inv p → inv p'.
Proof.
  unfold see_quit. intros Hstep I. pose proof I as []. peel. constructor; simpl; try done; try congruence.
  - exchange He. by rewrite He.
  - intros. left. simpl. congruence.
Qed.

Lemma wake_inv c p p' : wake c p = Some p' → inv p → inv p'.
Proof.
  unfold wake. intros Hstep I. pose proof I as []. peel. constructor; simpl; try done.
  - exchange He. by rewrite He.
  - intros. do 4 right. by eapply insert_here.
Qed.

Lemma stop_inv p p' : stop p = Some p' → inv p → inv p'.
Proof.
  unfold stop. intros Hstep I. pose proof I as []. peel. constructor; simpl; try done.
  intros. by left.
Qed.

Lemma pool_step_inv e p p' : step e p = Some p' → inv p → inv p'.
Proof.
  destruct e; simpl.
  - apply receive_inv.
  - apply announce_inv.
  - apply finish_inv.
  - apply exit_inv.
  - apply try_inv.
  - apply see_quit_inv.
  - apply wake_inv.
  - apply cancelled_inv.
  - apply stop_inv.
  - intros. simplify_eq. by apply submit_inv.
Qed.

Lemma pool_run_inv l p p' : run l p = Some p' → inv p → inv p'.
Proof.
  revert p. induction l as [|e l IH]; simpl; intros p Hr I; [by simplify_eq|].
  case_match; [|done]. by eapply IH, pool_step_inv.
Qed.

(** In every interleaving of workers and callers, jobs leave the queue in the
    order in which they were accepted, and each accepted job is at one place: in the
    queue, with one worker, or completed.  The callers that were told [true] are
    the owners of exactly these jobs, and the queue never exceeds its bound. *)
Theorem accepted_jobs_run_once_in_order numCPU n l p (Hcpu : 0 < numCPU)
    (Hrun : run l (NewWorkerPool numCPU n) = Some p) :
  accepted p = started p ++ jobQueue p ∧
  started p ≡ₚ held p ++ completed p ∧
  answered p ≡ₚ accepted p ∧
  length (jobQueue p) ≤ capacity p.
Proof. destruct (pool_run_inv _ _ _ Hrun (pool_new_inv _ _ Hcpu)). done. Qed.

(** Once [Stop] has begun, no job is accepted, whatever the callers do. *)
Lemma step_stopped e p p' :
  step e p = Some p' → stopped p = true → stopped p' = true ∧ accepted p' = accepted p.
Proof.
  destruct e; simpl; unfold receive, announce, finish, exit, try_enqueue, see_quit, wake,
    cancelled, stop, submit; intros; peel; try done; by destruct j; simplify_eq/=.
Qed.

Theorem nothing_accepted_after_stop l p p' (Hrun : run l p = Some p')
    (Hstop : stopped p = true) : accepted p' = accepted p.
Proof.
  revert p Hrun Hstop. induction l as [|e l IH]; simpl; intros p Hr Hs; [by simplify_eq|].
  destruct (step e p) as [q|] eqn:E; [|done].
  destruct (step_stopped _ _ _ E Hs) as [Hq <-]. by apply IH.
Qed.

(** When [Stop] returns, no job is running, and none will run. *)
Theorem stopped_pool_is_quiet l p p' (Hstop : stop_returns p) (Hrun : run l p = Some p') :
  held p = [] ∧ started p' = started p.
Proof.
  assert (∀ p, stop_returns p → held p = []) as Hheld.
  { intros q [_ Hq]. unfold held. induction (workers q) as [|x ws IH]; [done|]. simpl.
    rewrite (Hq x) by left. simpl. apply IH. intros. apply Hq. by right. }
  split; [by apply Hheld|].
  revert p Hstop Hrun. induction l as [|e l IH]; simpl; intros p [Hs Hq] Hr; [by simplify_eq|].
  destruct (step e p) as [q|] eqn:E; [|done].
  assert (workers q = workers p ∧ started q = started p) as [Hw <-].
  { assert (∀ w, ∀ x, workers p !! w = Some x → x = Exited) as Hex.
    { intros. eapply Hq, list_elem_of_lookup_2. done. }
    destruct e; simpl in E; unfold receive, announce, finish, exit, try_enqueue, see_quit, wake,
      cancelled, stop, submit in E; peel; try done;
      try (exfalso; by match goal with H : workers p !! _ = Some _ |- _ => apply Hex in H end);
      by destruct j; simplify_eq/=. }
  apply IH; [|done]. split; [by eapply step_stopped|]. by rewrite Hw.
Qed.

(** ** Every call returns *)

(** A token is spent by every retry of a caller, and minted by every job taken from
    the queue; so the pool's own moves come to an end. *)
Definition worker_weight (x : worker) : nat :=
  match x with Idle => 1 | Took _ => 5 | Running _ => 2 | Exited => 0 end.
Definition caller_weight (x : caller) : nat :=
  match x with Trying _ => 6 | Waiting _ => 5 | Returned _ _ => 0 end.
Definition weight (p : t) : nat :=
  sum_list_with worker_weight (workers p) + sum_list_with caller_weight (callers p)
  + 5 * length (jobQueue p) + (if spaceAvailable p then 2 else 0).

Ltac weigh :=
  unfold weight; simpl; rewrite ?length_app; simpl;
  repeat match goal with
  | H : ?l !! ?i = Some ?x |- context [sum_list_with ?f (<[?i := ?y]> ?l)] =>
    let E := fresh in pose proof (sum_insert f l i x y H) as E; simpl in E; revert E;
    generalize (sum_list_with f (<[i := y]> l)); intros
  end.

Lemma internal_step_descends e p p' :
  internal e = true → step e p = Some p' → weight p' < weight p.
Proof.
  destruct e; simpl; try done; unfold receive, announce, finish, exit, try_enqueue, see_quit, wake;
    intros _ Hs; peel; weigh; repeat case_match; simplify_eq/=;
    repeat match goal with H : jobQueue p = _ |- _ => rewrite H; simpl; clear H end; lia.
Qed.

Lemma internal_run_descends l p p' :
  Forall (λ e, internal e = true) l → run l p = Some p' → weight p' + length l <= weight p.
Proof.
  intros Hl. revert p. induction Hl as [|e l He _ IH]; simpl; intros p Hr; [simplify_eq; lia|].
  destruct (step e p) as [q|] eqn:E; [|done].
  apply internal_step_descends in E; [|done]. apply IH in Hr. lia.
Qed.

(** In a settled pool every worker is back and every call has returned. *)
Lemma settled_workers p w x :
  inv p → settled p → workers p !! w = Some x →
  x = (if stopped p then Exited else Idle).
Proof.
  intros I Hs Hw. pose proof (inv_quit _ I) as Hq. pose proof (inv_exited _ I w) as He.
  pose proof (Hs (EAnnounce w) eq_refl) as H1. pose proof (Hs (EFinish w) eq_refl) as H2.
  pose proof (Hs (EExit w) eq_refl) as H3. simpl in *.
  unfold announce, finish, exit in *. rewrite Hw in *. rewrite Hq in *.
  destruct x, (stopped p); try done. by discriminate He.
Qed.

Lemma settled_queue p : inv p → settled p → stopped p = false → jobQueue p = [].
Proof.
  intros I Hs Hstop. destruct (jobQueue p) as [|j q] eqn:Hj; [done|exfalso].
  destruct (inv_some _ I) as [_ Hlen].
  destruct (lookup_lt_is_Some_2 (workers p) 0 Hlen) as [x Hx].
  pose proof (settled_workers _ _ _ I Hs Hx) as ->. rewrite Hstop in Hx.
  pose proof (Hs (EReceive 0) eq_refl) as Hr. simpl in Hr. unfold receive in Hr.
  by rewrite Hx, Hj in Hr.
Qed.

Lemma settled_callers p c x :
  inv p → settled p → callers p !! c = Some x → ∃ j ok, x = Returned j ok.
Proof.
  intros I Hs Hc. pose proof (Hs (ETry c) eq_refl) as Htry. simpl in Htry.
  unfold try_enqueue in Htry. rewrite Hc in Htry. destruct x as [j|j|j ok]; [done| |eauto].
  exfalso. pose proof (Hs (ESeeQuit c) eq_refl) as Hq. pose proof (Hs (EWake c) eq_refl) as Hk.
  simpl in *. unfold see_quit, wake in *. rewrite Hc in *. rewrite (inv_quit _ I) in Hq.
  destruct (inv_awake _ I c _ Hc eq_refl) as [E|[E|[E|[(w & x & Hw & Hx)|(d & x & Hd & Hx)]]]].
  - by rewrite E in Hq.
  - by rewrite E in Hk.
  - apply E. apply settled_queue; [done..|]. by destruct (stopped p).
  - pose proof (settled_workers _ _ _ I Hs Hw) as ->. by destruct (stopped p).
  - pose proof (Hs (ETry d) eq_refl) as Hd'. simpl in Hd'. unfold try_enqueue in Hd'.
    rewrite Hd in Hd'. by destruct x.
Qed.

Lemma settled_held p : inv p → settled p → held p = [].
Proof.
  intros I Hs. pose proof (settled_workers p) as Hw. unfold held.
  assert (∀ x, x ∈ workers p → held_by x = []) as He.
  { intros x [w Hx]%list_elem_of_lookup_1. rewrite (Hw w x) by done. by destruct (stopped p). }
  clear Hw. induction (workers p) as [|x ws IH]; [done|]. simpl.
  rewrite (He x) by left. simpl. apply IH. intros. apply He. by right.
Qed.

(** Whatever its state, a pool whose jobs return comes to rest: its own moves
    are finitely many ([weight] bounds them), and once none is possible every call
    of [SubmitContext] has returned.  A pool that was not stopped has then completed
    every job it accepted; in a stopped one every worker has left, so [Stop]
    returns. *)
Theorem pool_settles numCPU n l p (Hcpu : 0 < numCPU)
    (Hrun : run l (NewWorkerPool numCPU n) = Some p) :
  (∀ l' p', Forall (λ e, internal e = true) l' → run l' p = Some p' → length l' ≤ weight p) ∧
  (settled p →
   (∀ c x, callers p !! c = Some x → ∃ j ok, x = Returned j ok) ∧
   (stopped p = false → completed p ≡ₚ accepted p) ∧
   (stopped p = true → stop_returns p)).
Proof.
  pose proof (pool_run_inv _ _ _ Hrun (pool_new_inv _ _ Hcpu)) as I. split.
  { intros l' p' Hl Hr. pose proof (internal_run_descends _ _ _ Hl Hr). lia. }
  intros Hs. split_and!.
  - intros c x. by apply settled_callers.
  - intros Hstop. rewrite (inv_order _ I), (inv_started _ I), (settled_held _ I Hs).
    rewrite (settled_queue _ I Hs Hstop). by rewrite app_nil_r.
  - intros Hstop. split; [done|]. intros x [w Hx]%list_elem_of_lookup_1.
    rewrite (settled_workers _ _ _ I Hs Hx). by rewrite Hstop.
Qed.

(** ** Runs *)

(** One worker, a queue of two: four calls; the last one waits for room. *)
Definition script : list event :=
  [ESubmit (Some 7); ESubmit (Some 8); ESubmit (Some 9); ETry 0; ETry 1; ETry 2;
   EReceive 0; EAnnounce 0; EWake 2; ETry 2; EFinish 0;
   EReceive 0; EAnnounce 0; EFinish 0; EReceive 0; EAnnounce 0; EFinish 0].

Example script_runs_in_order :
  completed <$> run script (NewWorkerPool 1 1) = Some [7; 8; 9].
Proof. reflexivity. Qed.

Lemma accepted_jobs_run_once_in_order_witness :
  ∃ p, run script (NewWorkerPool 4 1) = Some p ∧ accepted p = started p ++ jobQueue p.
Proof.
  eexists. split; [vm_compute; reflexivity|].
  refine (proj1 (accepted_jobs_run_once_in_order 4 1 script _ _ _)); [lia|].
  vm_compute. reflexivity.
Defined.

(** [Stop] while two accepted jobs wait: the worker may choose [quit] at once, and
    then neither job ever runs, though both callers were told [true]. *)
Definition drop_script : list event :=
  [ESubmit (Some 7); ESubmit (Some 8); ETry 0; ETry 1; EStop; EExit 0].

Example stop_drops_accepted_jobs :
  ∃ p, run drop_script (NewWorkerPool 1 1) = Some p ∧ accepted p = [7; 8] ∧ completed p = []
       ∧ stop_returns p.
Proof.
  eexists. split; [vm_compute; reflexivity|]. do 2 (split; [reflexivity|]).
  split; [reflexivity|]. simpl. intros x Hx%list_elem_of_singleton. done.
Qed.

Lemma pool_settles_witness :
  ∃ p, run script (NewWorkerPool 4 1) = Some p ∧ completed p ≡ₚ accepted p.
Proof.
  eexists. split; [vm_compute; reflexivity|].
  refine (proj1 (proj2 (proj2 (pool_settles 4 1 script _ _ _) _)) _);
    [lia|vm_compute; reflexivity| |reflexivity].
  intros [w|w|w|w|c|c|c|c| |j]; try done; intros _; simpl;
    unfold receive, announce, finish, exit, try_enqueue, see_quit, wake; simpl;
    first [by destruct w as [|[|w]]|by destruct c as [|[|[|[|c]]]]].
Defined.

End WorkerPool.

Module Coalescing.

(** The key of a request: what is hashed does not separate the method, the address
    and the body, so requests with the same concatenation share an entry. *)
(* src/src/proxy.go CoalescingCache.getRequestKey *)
Definition getRequestKey (sha256_hex : string → string) (method url body : string) : string :=
  sha256_hex (method +:+ url +:+ body).

Section cache.
Context {R : Type}.

(** An entry is a cell, named by the number of entries made before it; it keeps its
    key.  [done] is closed exactly when the result is there. *)
(* src/src/proxy.go coalescingEntry *)
Record coalescingEntry := mkEntry { e_key : string; e_result : option R }.

(** Where a call of [CoalesceRequest] stands: at the first lock; at [<-entry.done];
    inside [fn]; after [close], before the second lock; returned; unwound by a panic
    of [fn], which the HTTP server recovers in the goroutine of the request. *)
Inductive call :=
| Entering (key : string) | Waits (key : string) (e : nat) | Runs (key : string) (e : nat)
| Closed (key : string) (e : nat) (r : R) | Answered (key : string) (e : nat) (r : R)
| Unwound (key : string) (e : nat).

(* src/src/proxy.go CoalescingCache *)
Record t := mk {
  requests : gmap string nat; entries : list coalescingEntry; calls : list call;
}.

(* src/src/proxy.go NewCoalescingCache *)
Definition NewCoalescingCache : t := mk ∅ [] [].

Definition set_call (c : nat) (x : call) (s : t) : t :=
  mk (requests s) (entries s) (<[c := x]> (calls s)).

(** The first critical section. *)
(* src/src/proxy.go:252-260 CoalescingCache.CoalesceRequest *)
Definition enter (c : nat) (s : t) : option t :=
  match calls s !! c with
  | Some (Entering key) =>
    Some match requests s !! key with
         | Some e => set_call c (Waits key e) s
         | None =>
           let e := length (entries s) in
           set_call c (Runs key e)
             (mk (<[key := e]> (requests s)) (entries s ++ [mkEntry key None]) (calls s))
         end
  | _ => None
  end.

(* src/src/proxy.go:262-263 CoalescingCache.CoalesceRequest *)
Definition returns (c : nat) (r : R) (s : t) : option t :=
  match calls s !! c with
  | Some (Runs key e) =>
    Some (set_call c (Closed key e r)
            (mk (requests s) (<[e := mkEntry key (Some r)]> (entries s)) (calls s)))
  | _ => None
  end.

(** A panic of [fn]: nothing after the call runs. *)
Definition panics (c : nat) (s : t) : option t :=
  match calls s !! c with
  | Some (Runs key e) => Some (set_call c (Unwound key e) s)
  | _ => None
  end.

(** The second critical section. *)
(* src/src/proxy.go:265-268 CoalescingCache.CoalesceRequest *)
Definition remove (c : nat) (s : t) : option t :=
  match calls s !! c with
  | Some (Closed key e r) =>
    Some (set_call c (Answered key e r) (mk (delete key (requests s)) (entries s) (calls s)))
  | _ => None
  end.

(* src/src/proxy.go:255-256 CoalescingCache.CoalesceRequest *)
Definition observe (c : nat) (s : t) : option t :=
  match calls s !! c with
  | Some (Waits key e) =>
    match entries s !! e with
    | Some (mkEntry _ (Some r)) => Some (set_call c (Answered key e r) s)
    | _ => None
    end
  | _ => None
  end.

Inductive event :=
| ECall (key : string) | EEnter (c : nat) | EReturns (c : nat) (r : R) | EPanics (c : nat)
| ERemove (c : nat) | EObserve (c : nat).

Definition step (ev : event) (s : t) : option t :=
  match ev with
  | ECall key => Some (mk (requests s) (entries s) (calls s ++ [Entering key]))
  | EEnter c => enter c s
  | EReturns c r => returns c r s
  | EPanics c => panics c s
  | ERemove c => remove c s
  | EObserve c => observe c s
  end.

Fixpoint run (l : list event) (s : t) : option t :=
  match l with
  | [] => Some s
  | ev :: l => match step ev s with Some s => run l s | None => None end
  end.

(** The key and the entry whose owner a call is. *)
Definition owns (x : call) : option (string * nat) :=
  match x with
  | Runs key e | Closed key e _ | Unwound key e => Some (key, e)
  | _ => None
  end.

(** What a call knows about its entry. *)
Definition sees (s : t) (x : call) : Prop :=
  match x with
  | Entering _ => True
  | Waits key e => ∃ r, entries s !! e = Some (mkEntry key r)
  | Runs key e | Unwound key e => entries s !! e = Some (mkEntry key None)
  | Closed key e r | Answered key e r => entries s !! e = Some (mkEntry key (Some r))
  end.

(** Not yet closed: its function runs, or panicked. *)
Definition open_ (x : call) : Prop :=
  match x with Runs _ _ | Unwound _ _ => True | _ => False end.

Record inv (s : t) : Prop := {
  inv_sees : ∀ c x, calls s !! c = Some x → sees s x;
  inv_owner : ∀ c x key e, calls s !! c = Some x → owns x = Some (key, e) →
    requests s !! key = Some e;
  inv_unique : ∀ c d x y o, calls s !! c = Some x → calls s !! d = Some y →
    owns x = Some o → owns y = Some o → c = d;
  inv_listed : ∀ key e, requests s !! key = Some e → ∃ r, entries s !! e = Some (mkEntry key r);
  inv_open : ∀ key e, entries s !! e = Some (mkEntry key None) →
    ∃ c x, calls s !! c = Some x ∧ owns x = Some (key, e) ∧ open_ x;
}.

Lemma coalescing_new_inv : inv NewCoalescingCache.
Proof. constructor; simpl; intros; simplify_map_eq; done. Qed.

Lemma calls_set c y s d z :
  calls (set_call c y s) !! d = Some z → (d = c ∧ z = y) ∨ (d ≠ c ∧ calls s !! d = Some z).
Proof. simpl. intros [(-> & -> & _)|[]]%list_lookup_insert_Some; auto. Qed.

(** A call that learns something changes no other call's knowledge. *)
Lemma set_call_inv c x y s :
  calls s !! c = Some x → owns y = owns x → sees s y → (open_ x → open_ y) →
  inv s → inv (set_call c y s).
Proof.
  intros Hc Ho Hs Hopen []. constructor; simpl; try done.
  - intros d z [[-> ->]|[_ Hd]]%calls_set; [done|]. by apply inv_sees0 in Hd.
  - intros d z key e [[-> ->]|[_ Hd]]%calls_set Hz; [|by eauto].
    rewrite Ho in Hz. eauto.
  - intros d d' z z' o [[-> ->]|[Hn Hd]]%calls_set [[-> ->]|[Hn' Hd']]%calls_set Hz Hz';
      rewrite ?Ho in *; eauto.
  - intros key e (d & z & Hd & Hz & Hz')%inv_open0. destruct (decide (d = c)) as [->|Hn].
    + simplify_eq. exists c, y. rewrite Ho. split_and!; auto.
      apply list_lookup_insert_eq. by eapply lookup_lt_Some.
    + exists d, z. split_and!; try done. by rewrite list_lookup_insert_ne.
Qed.

Lemma sees_grow s x extra m l :
  sees s x → sees (mk m (entries s ++ extra) l) x.
Proof.
  destruct x; simpl; try done; [intros [r H]; exists r|intros H..]; by apply lookup_app_l_Some.
Qed.

Lemma enter_inv c s s' : enter c s = Some s' → inv s → inv s'.
Proof.
  unfold enter. intros Hstep I. peel.
  { eapply set_call_inv; try done. simpl. by eapply inv_listed. }
  rename H into Hc, H0 into Hnone. destruct I. constructor; simpl.
  - intros d x [[-> ->]|[_ Hd]]%calls_set; simpl.
    + by rewrite lookup_app_r, Nat.sub_diag by done.
    + by eapply sees_grow, inv_sees0.
  - intros d x k e [[-> ->]|[_ Hd]]%calls_set Hx; simplify_map_eq; [done|].
    pose proof (inv_owner0 _ _ _ _ Hd Hx) as Hk. rewrite lookup_insert_ne; [done|congruence].
  - intros d d' x x' [k e] [[-> ->]|[Hn Hd]]%calls_set [[-> ->]|[Hn' Hd']]%calls_set Hx Hx';
      simplify_eq/=; try done; [apply inv_owner0 with (2 := Hx') in Hd'; congruence
      |apply inv_owner0 with (2 := Hx) in Hd; congruence|by eauto].
  - intros k e [[-> <-]|[_ Hk]]%lookup_insert_Some.
    + exists None. by rewrite lookup_app_r, Nat.sub_diag by done.
    + destruct (inv_listed0 _ _ Hk) as [r Hr]. exists r. by apply lookup_app_l_Some.
  - intros k e [Hk|[Hge Hk]]%lookup_app_Some.
    + destruct (inv_open0 _ _ Hk) as (d & x & Hd & Hx & Hx'). exists d, x. split_and!; try done.
      simpl. rewrite list_lookup_insert_ne; [done|]. intros ->. by simplify_eq.
    + apply list_lookup_singleton_Some in Hk as [? ?]. simplify_eq.
      replace e with (length (entries s)) by lia. exists c, (Runs k (length (entries s))).
      split_and!; [|done|done]. simpl. apply list_lookup_insert_eq. by eapply lookup_lt_Some.
Qed.

Lemma returns_inv c r s s' : returns c r s = Some s' → inv s → inv s'.
Proof.
  unfold returns. intros Hstep I. peel. rename H into Hc. pose proof I as [].
  pose proof (inv_sees0 _ _ Hc) as He. simpl in He. constructor; simpl.
  - assert (<[e:=mkEntry key (Some r)]> (entries s) !! e = Some (mkEntry key (Some r))) as Hnew.
    { apply list_lookup_insert_eq. by eapply lookup_lt_Some. }
    intros d x [[-> ->]|[Hn Hd]]%calls_set; [done|].
    pose proof (inv_sees0 _ _ Hd) as Hx.
    assert (∀ k, x = Runs k e ∨ x = Unwound k e → False) as Hown.
    { intros k Hk. apply Hn. assert (key = k) as -> by (destruct Hk as [-> | ->]; simpl in Hx; congruence).
      eapply inv_unique0; [done..| |done]. by destruct Hk as [-> | ->]. }
    destruct x as [|k f|k f|k f r'|k f r'|k f]; simpl in *; try done;
      (destruct (decide (f = e)) as [->|Hf]; [|by rewrite list_lookup_insert_ne]).
    + exists (Some r). destruct Hx as [? Hx]. congruence.
    + exfalso. eauto.
    + congruence.
    + congruence.
    + exfalso. eauto.
  - intros d x k f [[-> ->]|[_ Hd]]%calls_set Hx; simplify_eq/=; [|by eauto].
    by eapply (inv_owner0 _ _ _ _ Hc).
  - intros d d' x x' o [[-> ->]|[Hn Hd]]%calls_set [[-> ->]|[Hn' Hd']]%calls_set Hx Hx';
      simpl in *; eauto.
  - intros k f Hk. destruct (inv_listed0 _ _ Hk) as [r' Hr'].
    destruct (decide (f = e)) as [->|Hf].
    + exists (Some r). rewrite list_lookup_insert_eq by (by eapply lookup_lt_Some). congruence.
    + exists r'. by rewrite list_lookup_insert_ne.
  - intros k f Hk. destruct (decide (f = e)) as [->|Hf].
    { rewrite list_lookup_insert_eq in Hk by (by eapply lookup_lt_Some). done. }
    rewrite list_lookup_insert_ne in Hk by done.
    destruct (inv_open0 _ _ Hk) as (d & x & Hd & Hx & Hx'). exists d, x. split_and!; try done.
    simpl. rewrite list_lookup_insert_ne; [done|]. intros ->. simplify_eq. by simplify_eq/=.
Qed.

Lemma remove_inv c s s' : remove c s = Some s' → inv s → inv s'.
Proof.
  unfold remove. intros Hstep I. peel. rename H into Hc. pose proof I as [].
  pose proof (inv_sees0 _ _ Hc) as He. simpl in He. constructor; simpl.
  - intros d x [[-> ->]|[_ Hd]]%calls_set; [done|by apply inv_sees0 in Hd].
  - intros d x k f [[-> ->]|[Hn Hd]]%calls_set Hx; [done|].
    rewrite lookup_delete_ne; [by eauto|]. intros <-. apply Hn.
    pose proof (inv_owner0 _ _ _ _ Hd Hx) as Hk.
    rewrite (inv_owner0 _ _ key e Hc eq_refl) in Hk. simplify_eq.
    by eapply inv_unique0.
  - intros d d' x x' o [[-> ->]|[Hn Hd]]%calls_set [[-> ->]|[Hn' Hd']]%calls_set Hx Hx';
      simpl in *; eauto; done.
  - intros k f [_ Hk]%lookup_delete_Some. eauto.
  - intros k f Hk. destruct (inv_open0 _ _ Hk) as (d & x & Hd & Hx & Hx').
    exists d, x. split_and!; try done.
    simpl. rewrite list_lookup_insert_ne; [done|]. intros ->. by simplify_eq.
Qed.

Lemma call_inv key s : inv s → inv (mk (requests s) (entries s) (calls s ++ [Entering key])).
Proof.
  intros [].
  assert (∀ c x, (calls s ++ [Entering key]) !! c = Some x →
    calls s !! c = Some x ∨ x = Entering key) as Hold.
  { intros c x [?|[_ [? <-]%list_lookup_singleton_Some]]%lookup_app_Some; auto. }
  constructor; simpl; try done.
  - intros c x [Hc| ->]%Hold; [by apply inv_sees0 in Hc|done].
  - intros c x k e [Hc| ->]%Hold Hx; [by eauto|done].
  - intros c d x y o [Hc| ->]%Hold [Hd| ->]%Hold Hx Hy; [by eauto|done..].
  - intros k e (c & x & Hc & Hx)%inv_open0. exists c, x. split; [|done].
    by apply lookup_app_l_Some.
Qed.

Lemma coalescing_step_inv ev s s' : step ev s = Some s' → inv s → inv s'.
Proof.
  destruct ev as [key|c|c r|c|c|c]; simpl.
  - intros. simplify_eq. by apply call_inv.
  - apply enter_inv.
  - apply returns_inv.
  - unfold panics. intros Hs I. peel. eapply set_call_inv; try done. simpl.
    match goal with H : calls s !! c = _ |- _ => by apply (inv_sees _ I) in H end.
  - apply remove_inv.
  - unfold observe. intros Hs I. peel. eapply set_call_inv; try done. simpl.
    match goal with H : calls s !! c = _ |- _ => apply (inv_sees _ I) in H as [? ?] end.
    congruence.
Qed.

Lemma coalescing_run_inv l s s' : run l s = Some s' → inv s → inv s'.
Proof.
  revert s. induction l as [|ev l IH]; simpl; intros s Hr I; [by simplify_eq|].
  case_match; [|done]. by eapply IH, coalescing_step_inv.
Qed.

(** In every interleaving at most one call per key is between its entry into the
    map and its removal, so at most one upstream request per key is in flight; and
    the calls that share an entry return the same value, what its one run of [fn]
    returned for their common key. *)
Theorem coalesced_callers_share_one_run l s (Hrun : run l NewCoalescingCache = Some s) :
  (∀ c d x y key e f, calls s !! c = Some x → calls s !! d = Some y →
     owns x = Some (key, e) → owns y = Some (key, f) → c = d) ∧
  (∀ c d k k' e r r', calls s !! c = Some (Answered k e r) → calls s !! d = Some (Answered k' e r') →
     k = k' ∧ r = r') ∧
  (∀ c k e r, calls s !! c = Some (Answered k e r) → entries s !! e = Some (mkEntry k (Some r))).
Proof.
  pose proof (coalescing_run_inv _ _ _ Hrun coalescing_new_inv) as []. split_and!.
  - intros c d x y key e f Hc Hd Hx Hy.
    pose proof (inv_owner0 _ _ _ _ Hc Hx). pose proof (inv_owner0 _ _ _ _ Hd Hy).
    simplify_eq. by eapply inv_unique0.
  - intros c d k k' e r r' Hc Hd. apply inv_sees0 in Hc, Hd. simpl in *. by simplify_eq.
  - intros c k e r Hc. by apply inv_sees0 in Hc.
Qed.

(** When no call can move, every call has returned, unless a run panicked. *)
Definition internal (ev : event) : bool :=
  match ev with ECall _ | EPanics _ => false | _ => true end.
Definition settled (s : t) : Prop := ∀ ev, internal ev = true → step ev s = None.

Theorem coalesced_calls_all_return l s (Hr : inhabited R)
    (Hrun : run l NewCoalescingCache = Some s) (Hs : settled s)
    (Hcalm : ∀ c key e, calls s !! c ≠ Some (Unwound key e)) :
  ∀ c x, calls s !! c = Some x → ∃ key e r, x = Answered key e r.
Proof.
  destruct Hr as [r]. pose proof (coalescing_run_inv _ _ _ Hrun coalescing_new_inv) as []. intros c x Hc.
  pose proof (Hs (EEnter c) eq_refl) as H1. pose proof (Hs (EReturns c r) eq_refl) as H2.
  pose proof (Hs (ERemove c) eq_refl) as H3. pose proof (Hs (EObserve c) eq_refl) as H4.
  simpl in *. unfold enter, returns, remove, observe in *. rewrite Hc in *.
  destruct x as [k|k e|k e|k e r'|k e r'|k e]; try done; [| |by destruct (Hcalm c k e)].
  - pose proof (inv_sees0 _ _ Hc) as [[r'|] He]; simpl in He; rewrite He in H4; [done|].
    destruct (inv_open0 _ _ He) as (d & y & Hd & Hy & Hy').
    destruct y; try done; [|by edestruct Hcalm].
    pose proof (Hs (EReturns d r) eq_refl) as H5. simpl in H5. unfold returns in H5.
    by rewrite Hd in H5.
  - eauto.
Qed.

(** A run that panicked keeps its key: from then on no call for that key that is
    not yet answered ever returns. *)
Definition blocked (key : string) (e c : nat) (s : t) : Prop :=
  calls s !! c = Some (Unwound key e).

Lemma step_blocked key e c ev s s' :
  step ev s = Some s' → blocked key e c s → blocked key e c s'.
Proof.
  unfold blocked. destruct ev as [k|d|d r|d|d|d]; simpl; intros Hstep Hc.
  { simplify_eq/=. by apply lookup_app_l_Some. }
  all: unfold enter, returns, panics, remove, observe in Hstep;
    destruct (decide (d = c)) as [->|Hn]; [by rewrite Hc in Hstep|]; peel;
    by rewrite list_lookup_insert_ne.
Qed.

Definition stuck (key : string) (e d : nat) (s : t) : Prop :=
  calls s !! d = Some (Entering key) ∨ calls s !! d = Some (Waits key e).

Lemma step_stuck key e c d ev s s' :
  inv s → step ev s = Some s' → blocked key e c s → stuck key e d s → stuck key e d s'.
Proof.
  intros I Hstep Hc Hd. unfold blocked, stuck in *.
  pose proof (inv_owner _ I _ _ _ _ Hc eq_refl) as Hk.
  pose proof (inv_sees _ I _ _ Hc) as He. simpl in He.
  assert (d < length (calls s)) as Hlen by (destruct Hd; by eapply lookup_lt_Some).
  destruct ev as [k|i|i r|i|i|i]; simpl in Hstep.
  { simplify_eq/=. rewrite lookup_app_l by done. done. }
  all: unfold enter, returns, panics, remove, observe in Hstep;
    destruct (decide (i = d)) as [->|Hn];
    [|peel; by rewrite list_lookup_insert_ne];
    destruct Hd as [Hd|Hd]; rewrite Hd in Hstep; try done.
  - rewrite Hk in Hstep. simplify_eq/=. right. by apply list_lookup_insert_eq.
  - by rewrite He in Hstep.
Qed.

Theorem panicked_key_blocks_its_callers l0 l s s' key e c d (Hrun0 : run l0 NewCoalescingCache = Some s)
    (Hrun : run l s = Some s') (Hc : blocked key e c s) (Hd : stuck key e d s) : stuck key e d s'.
Proof.
  pose proof (coalescing_run_inv _ _ _ Hrun0 coalescing_new_inv) as I. clear Hrun0. revert s I Hrun Hc Hd.
  induction l as [|ev l IH]; simpl; intros s I Hr Hc Hd; [by simplify_eq|].
  destruct (step ev s) as [q|] eqn:E; [|done].
  eapply IH; [by eapply coalescing_step_inv|done|by eapply step_blocked|by eapply step_stuck].
Qed.
End cache.

(** Three calls for one key: the second joins the run, the third comes after it. *)
Definition script : list (event (R := nat)) :=
  [ECall "k"; ECall "k"; ECall "k"; EEnter 0; EEnter 1; EReturns 0 5; EObserve 1; ERemove 0;
   EEnter 2; EReturns 2 6; ERemove 2].

Lemma coalesced_callers_share_one_run_witness :
  ∃ s, run script NewCoalescingCache = Some s ∧
       calls s = [Answered "k" 0 5; Answered "k" 0 5; Answered "k" 1 6] ∧
       entries s !! 0 = Some (mkEntry "k" (Some 5)).
Proof.
  eexists. split; [vm_compute; reflexivity|]. split; [reflexivity|].
  refine (proj2 (proj2 (coalesced_callers_share_one_run script _ _)) 1 _ _ _ _);
    [vm_compute; reflexivity|reflexivity].
Defined.

(** A panic, and a call for the same key that will wait for ever. *)
Example panicked_key_blocks :
  ∃ s, run [ECall "k"; EEnter 0; EPanics 0; ECall "k"; EEnter 1] (NewCoalescingCache (R := nat)) = Some s
       ∧ ∀ l s', run l s = Some s' → stuck "k" 0 1 s'.
Proof.
  eexists. split; [vm_compute; reflexivity|]. intros l s' Hl.
  eapply (panicked_key_blocks_its_callers
    [ECall "k"; EEnter 0; EPanics 0; ECall "k"; EEnter 1] l _ s' "k" 0 0 1);
    [vm_compute; reflexivity|exact Hl|reflexivity|by right].
Qed.

Example different_requests_share_a_key sha :
  getRequestKey sha "GET" "https://host/models" "" = getRequestKey sha "GET" "https://host/" "models".
Proof. reflexivity. Qed.
End Coalescing.
