(* ===== verification/Accounts.v ===== *)
(** * Pools of accounts: which account serves a request, and rotation

    The Copilot and the Codex provider ([src/src/copilot_provider.go],
    [codex_provider.go]) keep a list of accounts and a cursor.  A request uses the
    account under the cursor; when the upstream service says that this account is
    limited, the account is marked and the cursor moves to the next one that is not
    in cooldown.  The two providers have the same code for it, over their own
    account type; [Account] is what that code reads and writes. *)

From S2P Require Import Prelude GoStd Config.

Class Account (A : Type) := {
  LastLimitedAt : A → Z;
  set_LastLimitedAt : Z → A → A;
}.

Class AccountLaws (A : Type) `{Account A} := {
  limited_set now a : LastLimitedAt (set_LastLimitedAt now a) = now;
}.

#[export] Instance copilot_account : Account CopilotAccount := {|
  LastLimitedAt := cpa_LastLimitedAt;
  set_LastLimitedAt now a := mkCopilotAccount (cpa_ID a) (cpa_Label a) (cpa_Auth a) now;
|}.
#[export] Instance codex_account : Account CodexAccount := {|
  LastLimitedAt := cxa_LastLimitedAt;
  set_LastLimitedAt now a := mkCodexAccount (cxa_ID a) (cxa_Label a) (cxa_Auth a) now;
|}.
#[export] Instance copilot_account_laws : AccountLaws CopilotAccount.
Proof. done. Qed.
#[export] Instance codex_account_laws : AccountLaws CodexAccount.
Proof. done. Qed.

(* src/src/copilot_provider.go CopilotProvider.cooldownSeconds *)
(* src/src/codex_provider.go CodexProvider.codexCooldownSeconds *)
Definition cooldownSeconds (configured : Z) : Z := if (0 <? configured)%Z then configured else 300.

Section pool.
Context {A : Type} `{Account A}.

(** The zero value of [LastLimitedAt] means never. *)
(* src/src/copilot_provider.go CopilotProvider.isAccountInCooldown *)
(* src/src/codex_provider.go CodexProvider.isCodexAccountInCooldown *)
Definition inCooldown (now seconds : Z) (a : A) : bool :=
  if (LastLimitedAt a =? 0)%Z then false else (now - LastLimitedAt a <? seconds)%Z.

(** [clock i] is [time.Now().Unix()] at the check of the i-th account. *)
(* src/src/copilot_provider.go CopilotProvider.firstHealthyAccount *)
(* src/src/codex_provider.go CodexProvider.firstHealthyCodexAccount *)
Definition firstHealthy (clock : nat → Z) (seconds : Z) (accounts : list A) : nat :=
  default 0 (List.find
    (λ i, match accounts !! i with Some a => negb (inCooldown (clock i) seconds a) | None => false end)
    (seq 0 (length accounts))).

(** The places the loop of [advance] visits, in its order. *)
Definition cyclic (start size : nat) : list nat := (λ i, (start + i) mod size) <$> seq 0 size.

(** The failed account is marked; the result is the pool, the cursor and whether it
    moved.  The caller holds the provider's mutex. *)
(* src/src/copilot_provider.go CopilotProvider.advanceAccountFrom *)
(* src/src/codex_provider.go CodexProvider.advanceCodexAccountFrom *)
Definition advanceFrom (now : Z) (clock : nat → Z) (seconds : Z) (failedIndex : Z) (cursor : nat)
    (accounts : list A) : list A * nat * bool :=
  if (failedIndex <? 0)%Z || (Z.of_nat (length accounts) <=? failedIndex)%Z
  then (accounts, cursor, false)
  else
    let failed := Z.to_nat failedIndex in
    let accounts := alter (set_LastLimitedAt now) failed accounts in
    if length accounts <=? 1 then (accounts, cursor, false)
    else
      let size := length accounts in
      let start := if decide (cursor = failed) then (failed + 1) mod size else cursor in
      match List.find
        (λ i, negb (bool_decide (i = failed)) &&
              match accounts !! i with Some a => negb (inCooldown (clock i) seconds a) | None => false end)
        (cyclic start size) with
      | Some next => (accounts, next, true)
      | None => (accounts, cursor, false)
      end.

(* src/src/copilot_provider.go CopilotProvider.advanceAccount *)
(* src/src/codex_provider.go CodexProvider.advanceCodexAccount *)
Definition advance (now : Z) (clock : nat → Z) (seconds : Z) (cursor : nat) (accounts : list A)
    : list A * nat * bool :=
  advanceFrom now clock seconds (Z.of_nat cursor) cursor accounts.

(** ** What the rotation does *)

Lemma elem_of_cyclic start size i : i ∈ cyclic start size ↔ i < size.
Proof.
  unfold cyclic. rewrite list_elem_of_fmap. split.
  - intros (k & -> & Hk%elem_of_seq). apply Nat.mod_upper_bound. lia.
  - intros Hi. exists ((i + (size - start mod size)) mod size). split.
    + rewrite Nat.Div0.add_mod_idemp_r.
      rewrite (Nat.div_mod_eq start size) at 1.
      pose proof (Nat.mod_upper_bound start size ltac:(lia)).
      replace (size * (start / size) + start mod size + (i + (size - start mod size)))
        with (i + (start / size + 1) * size) by nia.
      rewrite Nat.Div0.mod_add, Nat.mod_small; lia.
    + apply elem_of_seq. pose proof (Nat.mod_upper_bound (i + (size - start mod size)) size). lia.
Qed.

Lemma find_Some_elem {B} (f : B → bool) l x : List.find f l = Some x → x ∈ l ∧ f x = true.
Proof. intros [Hin Hf]%find_some. split; [by apply list_elem_of_In|done]. Qed.

Lemma find_None_elem {B} (f : B → bool) l x : List.find f l = None → x ∈ l → f x = false.
Proof. intros Hf Hin. by apply (find_none _ _ Hf), list_elem_of_In. Qed.

(** The accounts after the call: the failed one is marked, the others are the same. *)
Definition marked (now : Z) (failed : nat) (accounts : list A) : list A :=
  alter (set_LastLimitedAt now) failed accounts.

Lemma advanceFrom_spec now clock seconds failed cursor accounts :
  failed < length accounts →
  let '(accounts', cursor', moved) := advanceFrom now clock seconds (Z.of_nat failed) cursor accounts in
  accounts' = marked now failed accounts ∧
  (if moved then
     cursor' < length accounts ∧ cursor' ≠ failed ∧
     (∃ a, accounts !! cursor' = Some a ∧ inCooldown (clock cursor') seconds a = false)
   else
     cursor' = cursor ∧
     ∀ i a, i ≠ failed → accounts !! i = Some a → inCooldown (clock i) seconds a = true).
Proof.
  intros Hf. unfold advanceFrom.
  destruct (Z.ltb_spec (Z.of_nat failed) 0); [lia|].
  destruct (Z.leb_spec (Z.of_nat (length accounts)) (Z.of_nat failed)); [lia|]. simpl.
  rewrite Nat2Z.id. fold (marked now failed accounts).
  assert (length (marked now failed accounts) = length accounts) as Hlen by apply length_alter.
  assert (∀ i, i ≠ failed → marked now failed accounts !! i = accounts !! i) as Hother.
  { intros i Hi. by apply list_lookup_alter_ne. }
  rewrite Hlen. destruct (Nat.leb_spec (length accounts) 1) as [Hone|Hmany].
  { split_and!; [done..|]. intros i a Hi Ha. apply lookup_lt_Some in Ha. lia. }
  set (start := if decide (cursor = failed) then _ else _).
  destruct (List.find _ _) as [next|] eqn:Hfind.
  - apply find_Some_elem in Hfind as [Hin Hok]. apply elem_of_cyclic in Hin.
    apply andb_true_iff in Hok as [Hne Hok]. apply negb_true_iff, bool_decide_eq_false in Hne.
    split; [done|]. split; [done|]. split; [done|]. rewrite Hother in Hok by done.
    destruct (accounts !! next) as [a|] eqn:Ha; [|done]. exists a. split; [done|].
    by apply negb_true_iff.
  - split; [done|]. split; [done|]. intros i a Hi Ha.
    pose proof (find_None_elem _ _ i Hfind) as Hn. rewrite elem_of_cyclic in Hn.
    specialize (Hn (lookup_lt_Some _ _ _ Ha)). rewrite bool_decide_eq_false_2 in Hn by done.
    rewrite Hother, Ha in Hn by done. simpl in Hn. by apply negb_false_iff.
Qed.

(** [advance] looks at the places after the failed one, and takes the first healthy
    one: the place it takes is the first of the cyclic order. *)
Lemma firstHealthy_spec clock seconds accounts :
  (∃ a, accounts !! firstHealthy clock seconds accounts = Some a
        ∧ inCooldown (clock (firstHealthy clock seconds accounts)) seconds a = false)
  ∨ (firstHealthy clock seconds accounts = 0
     ∧ ∀ i a, accounts !! i = Some a → inCooldown (clock i) seconds a = true).
Proof.
  unfold firstHealthy. destruct (List.find _ _) as [i|] eqn:Hf; simpl.
  - left. apply find_Some_elem in Hf as [_ Hok]. destruct (accounts !! i) as [a|]; [|done].
    exists a. split; [done|]. by apply negb_true_iff.
  - right. split; [done|]. intros i a Ha. pose proof (find_None_elem _ _ i Hf) as Hn.
    rewrite elem_of_seq in Hn. apply lookup_lt_Some in Ha as Hlt.
    specialize (Hn ltac:(lia)). rewrite Ha in Hn. by apply negb_false_iff.
Qed.

(** ** Rotation inside a window of time

    [resting] accounts stay in cooldown from [lo] to [hi]. *)
Definition resting (lo hi seconds : Z) (accounts : list A) (i : nat) : Prop :=
  ∃ a, accounts !! i = Some a ∧ ∀ t, (lo ≤ t ≤ hi)%Z → inCooldown t seconds a = true.

Lemma inCooldown_marked `{!AccountLaws A} lo hi seconds now a t :
  (0 < lo)%Z → (hi - lo < seconds)%Z → (lo ≤ now ≤ hi)%Z → (lo ≤ t ≤ hi)%Z →
  inCooldown t seconds (set_LastLimitedAt now a) = true.
Proof.
  intros. unfold inCooldown. rewrite limited_set.
  destruct (Z.eqb_spec now 0); [lia|]. apply Z.ltb_lt. lia.
Qed.

Lemma advance_rests `{!AccountLaws A} lo hi now clock seconds failed cursor accounts accounts' cursor' moved :
  (0 < lo)%Z → (hi - lo < seconds)%Z → (lo ≤ now ≤ hi)%Z → (∀ i, (lo ≤ clock i ≤ hi)%Z) →
  failed < length accounts →
  advanceFrom now clock seconds (Z.of_nat failed) cursor accounts = (accounts', cursor', moved) →
  length accounts' = length accounts ∧
  (∀ i, resting lo hi seconds accounts i → resting lo hi seconds accounts' i) ∧
  resting lo hi seconds accounts' failed ∧
  (moved = true → cursor' < length accounts' ∧ ¬ resting lo hi seconds accounts' cursor').
Proof.
  intros Hlo Hw Hnow Hclock Hf Hadv.
  pose proof (advanceFrom_spec now clock seconds failed cursor accounts Hf) as Hspec.
  rewrite Hadv in Hspec. destruct Hspec as [-> Hmoved].
  assert (length (marked now failed accounts) = length accounts) as Hlen by apply length_alter.
  split; [done|]. split_and!.
  - intros i (a & Ha & Ht). destruct (decide (i = failed)) as [->|Hi].
    + exists (set_LastLimitedAt now a). unfold marked. rewrite list_lookup_alter_eq, Ha. split; [done|].
      intros t. by apply inCooldown_marked.
    + exists a. unfold marked. by rewrite list_lookup_alter_ne.
  - destruct (lookup_lt_is_Some_2 accounts failed Hf) as [a Ha].
    exists (set_LastLimitedAt now a). unfold marked. rewrite list_lookup_alter_eq, Ha. split; [done|].
    intros t. by apply inCooldown_marked.
  - intros ->. destruct Hmoved as (Hlt & Hne & a & Ha & Hc). rewrite Hlen. split; [done|].
    intros (b & Hb & Ht). unfold marked in Hb. rewrite list_lookup_alter_ne in Hb by done.
    simplify_eq. by rewrite Ht in Hc.
Qed.

(** Resting is a matter of the marks alone. *)
Lemma resting_marks lo hi seconds accounts accounts' i :
  LastLimitedAt <$> accounts' = LastLimitedAt <$> accounts →
  resting lo hi seconds accounts i → resting lo hi seconds accounts' i.
Proof.
  intros Hm (a & Ha & Ht).
  assert ((LastLimitedAt <$> accounts') !! i = Some (LastLimitedAt a)) as Hi.
  { by rewrite Hm, list_lookup_fmap, Ha. }
  rewrite list_lookup_fmap in Hi. destruct (accounts' !! i) as [b|] eqn:Hb; [|done].
  exists b. split; [done|]. intros t Hr. specialize (Ht t Hr). unfold inCooldown in *. simpl in Hi.
  injection Hi as ->. exact Ht.
Qed.

End pool.
