(* ===== verification/Jwt.v ===== *)
(** * Reading the claims of a token

    [decodeJWTPayload], [extractAccountIDFromJWT] and [extractJWTExpiry] of
    [src/src/codex_auth.go], with the decoder of [encoding/base64] they use: the
    URL alphabet, with padding, not strict.  The JSON parser is a parameter. *)

From S2P Require Import Prelude GoStd Writers GoJson.

Local Open Scope N_scope.

(** ** [base64.URLEncoding] *)

(** The value of a character of the URL alphabet. *)
Definition b64_value (c : ascii) : option N :=
  let n := N_of_ascii c in
  if (65 <=? n) && (n <=? 90) then Some (n - 65)
  else if (97 <=? n) && (n <=? 122) then Some (n - 71)
  else if (48 <=? n) && (n <=? 57) then Some (n + 4)
  else if n =? 45 then Some 62
  else if n =? 95 then Some 63
  else None.

Definition pad : ascii := "=".
Definition is_pad (c : ascii) : bool := Ascii.eqb c pad.

(** One, two or three bytes out of two, three or four characters; the bits left over
    are not looked at. *)
Definition quantum1 (a b : N) : list ascii := [ascii_of_N (a * 4 + b / 16)].
Definition quantum2 (a b c : N) : list ascii := quantum1 a b ++ [ascii_of_N ((b mod 16) * 16 + c / 4)].
Definition quantum3 (a b c d : N) : list ascii := quantum2 a b c ++ [ascii_of_N ((c mod 4) * 64 + d)].

(** Padding ends the text: nothing may follow it. *)
Fixpoint b64_quanta (l : list ascii) : option (list ascii) :=
  match l with
  | [] => Some []
  | a :: b :: c :: d :: l =>
    match b64_value a, b64_value b with
    | Some a, Some b =>
      if is_pad c then (if is_pad d && bool_decide (l = []) then Some (quantum1 a b) else None)
      else
        match b64_value c with
        | None => None
        | Some c =>
          if is_pad d then (if decide (l = []) then Some (quantum2 a b c) else None)
          else
            match b64_value d, b64_quanta l with
            | Some d, Some rest => Some (quantum3 a b c d ++ rest)
            | _, _ => None
            end
        end
    | _, _ => None
    end
  | _ => None
  end.

(** Line ends are skipped wherever they are. *)
Definition line_end (c : ascii) : bool := Ascii.eqb c "010" || Ascii.eqb c "013".

Definition b64_DecodeString (s : string) : option string :=
  String.string_of_list_ascii <$>
  b64_quanta (filter (λ c, line_end c = false) (String.list_ascii_of_string s)).

(** ** The payload *)

(** [strings.SplitN(token, ".", 3)] has three parts when [Split] has at least three. *)
(* src/src/codex_auth.go decodeJWTPayload *)
Definition decodeJWTPayload (token : string) : option string :=
  match Split token "." with
  | _ :: payload :: _ :: _ =>
    if String.eqb payload "" then None
    else
      let remainder := (String.length payload mod 4)%nat in
      b64_DecodeString (payload +:+
        String.string_of_list_ascii (replicate (if decide (remainder = 0%nat) then 0 else 4 - remainder) pad))
  | _ => None
  end.

Section claims.
Context (parse : string → option json).

Record claims := mkClaims { cl_AccountID : string; cl_Auth : option string }.

(* src/src/codex_auth.go extractAccountIDFromJWT *)
Definition auth_fields : list (field string) :=
  [fld "chatgpt_account_id" (λ s, s) (λ a _, a) d_string].
(* src/src/codex_auth.go extractAccountIDFromJWT *)
Definition claims_fields : list (field claims) :=
  [fld "chatgpt_account_id" cl_AccountID (λ a c, mkClaims a (cl_Auth c)) d_string;
   fld "https://api.openai.com/auth" cl_Auth (λ a c, mkClaims (cl_AccountID c) a)
     (d_pointer "" (d_struct auth_fields))].

(* src/src/codex_auth.go extractAccountIDFromJWT *)
Definition extractAccountIDFromJWT (token : string) : string :=
  match (decodeJWTPayload token ≫= parse) ≫= unmarshal (mkClaims "" None) (d_struct claims_fields) with
  | None => ""
  | Some c =>
    if negb (String.eqb (cl_AccountID c) "") then cl_AccountID c else default "" (cl_Auth c)
  end.

(* src/src/codex_auth.go extractJWTExpiry *)
Definition extractJWTExpiry (token : string) : Z :=
  default 0%Z
    ((decodeJWTPayload token ≫= parse) ≫=
     unmarshal 0%Z (d_struct [fld "exp" (λ e : Z, e) (λ e _, e) d_int])).
End claims.

(** ** What a token's issuer writes

    The unpadded encoding of RFC 7515, to state what the decoder reads back. *)

Definition b64_symbol (n : N) : ascii :=
  if n <? 26 then ascii_of_N (n + 65)
  else if n <? 52 then ascii_of_N (n + 71)
  else if n <? 62 then ascii_of_N (n - 4)
  else if n =? 62 then "-" else "_".

Fixpoint b64_encode (l : list ascii) : list ascii :=
  match l with
  | [] => []
  | [x] =>
    let x := N_of_ascii x in
    [b64_symbol (x / 4); b64_symbol ((x mod 4) * 16)]
  | [x; y] =>
    let '(x, y) := (N_of_ascii x, N_of_ascii y) in
    [b64_symbol (x / 4); b64_symbol ((x mod 4) * 16 + y / 16); b64_symbol ((y mod 16) * 4)]
  | x :: y :: z :: l =>
    let '(x, y, z) := (N_of_ascii x, N_of_ascii y, N_of_ascii z) in
    b64_symbol (x / 4) :: b64_symbol ((x mod 4) * 16 + y / 16)
    :: b64_symbol ((y mod 16) * 4 + z / 64) :: b64_symbol (z mod 64) :: b64_encode l
  end.

Definition RawURLEncode (s : string) : string :=
  String.string_of_list_ascii (b64_encode (String.list_ascii_of_string s)).

(** A symbol: its value, and that it is none of the characters treated specially. *)
Lemma b64_symbol_value n :
  n < 64 → b64_value (b64_symbol n) = Some n ∧ is_pad (b64_symbol n) = false
           ∧ line_end (b64_symbol n) = false ∧ Ascii.eqb (b64_symbol n) "." = false.
Proof.
  intros Hn.
  assert (Forall (λ n, b64_value (b64_symbol n) = Some n ∧ is_pad (b64_symbol n) = false
           ∧ line_end (b64_symbol n) = false ∧ Ascii.eqb (b64_symbol n) "." = false)
    (N.of_nat <$> seq 0 64)) as Hall.
  { vm_compute. repeat constructor. }
  rewrite Forall_forall in Hall. apply Hall. apply list_elem_of_fmap.
  exists (N.to_nat n). split; [lia|]. apply elem_of_seq. lia.
Qed.

(** ** Reading back what was written *)

Ltac nlia := zify; Z.to_euclidean_division_equations; lia.

Lemma length_string_of l : String.length (String.string_of_list_ascii l) = length l.
Proof. induction l; simpl; auto. Qed.

(** Induction on a list by groups of three. *)
Lemma list_ind3 {A} (P : list A → Prop) :
  P [] → (∀ x, P [x]) → (∀ x y, P [x; y]) → (∀ x y z l, P l → P (x :: y :: z :: l)) → ∀ l, P l.
Proof.
  intros H0 H1 H2 H3. fix IH 1. intros [|x [|y [|z l]]]; [done..|]. apply H3, IH.
Qed.

Ltac bytes :=
  repeat match goal with |- context [N_of_ascii ?c] =>
    match goal with
    | H : N_of_ascii c < 256 |- _ => fail 1
    | _ => pose proof (N_ascii_bounded c)
    end end.

Lemma encode_symbols l : Forall (λ c, ∃ n, n < 64 ∧ c = b64_symbol n) (b64_encode l).
Proof.
  induction l as [|x|x y|x y z l IH] using list_ind3; simpl; [done|..];
    bytes; repeat constructor; try apply IH; eexists; (split; [|reflexivity]); nlia.
Qed.

Definition padding (n : nat) : nat := match (n mod 3)%nat with 1%nat => 2 | 2%nat => 1 | _ => 0 end.

Lemma padding_3 n : padding (S (S (S n))) = padding n.
Proof. unfold padding. replace (S (S (S n))) with (n + 1 * 3)%nat by lia. by rewrite Nat.Div0.mod_add. Qed.

Ltac symbol n :=
  let H := fresh in let E := fresh in let F := fresh in
  assert (n < 64) as H by nlia;
  destruct (b64_symbol_value n H) as (E & F & _ & _); rewrite ?E, ?F; clear H E F.

Lemma byte_is n c : n = N_of_ascii c → ascii_of_N n = c.
Proof. intros ->. apply ascii_N_embedding. Qed.

Lemma quanta_encode l :
  b64_quanta (b64_encode l ++ replicate (padding (length l)) pad) = Some l.
Proof.
  induction l as [|x|x y|x y z l IH] using list_ind3.
  - done.
  - simpl. bytes. symbol (N_of_ascii x / 4). symbol ((N_of_ascii x mod 4) * 16). simpl.
    unfold quantum1. do 2 f_equal. apply byte_is. nlia.
  - simpl. bytes. symbol (N_of_ascii x / 4). symbol ((N_of_ascii x mod 4) * 16 + N_of_ascii y / 16).
    symbol ((N_of_ascii y mod 16) * 4). simpl. unfold quantum2, quantum1. simpl. do 2 f_equal.
    + apply byte_is. nlia.
    + f_equal. apply byte_is. nlia.
  - cbn [length]. rewrite padding_3. simpl. bytes.
    symbol (N_of_ascii x / 4). symbol ((N_of_ascii x mod 4) * 16 + N_of_ascii y / 16).
    symbol ((N_of_ascii y mod 16) * 4 + N_of_ascii z / 64). symbol (N_of_ascii z mod 64).
    rewrite IH. unfold quantum3, quantum2, quantum1. simpl. do 2 f_equal; [|f_equal; [|f_equal]].
    + apply byte_is. nlia.
    + apply byte_is. nlia.
    + apply byte_is. nlia.
Qed.

Lemma encode_length l :
  (length (b64_encode l) mod 4)%nat = match (length l mod 3)%nat with 0%nat => 0%nat | 1%nat => 2%nat | _ => 3%nat end.
Proof.
  induction l as [|x|x y|x y z l IH] using list_ind3; [done..|]. cbn [b64_encode length].
  replace (S (S (S (S (length (b64_encode l)))))) with (length (b64_encode l) + 1 * 4)%nat by lia.
  replace (S (S (S (length l)))) with (length l + 1 * 3)%nat by lia.
  by rewrite !Nat.Div0.mod_add.
Qed.

Definition no_sep (sep : ascii) (s : string) : Prop := str_all (λ c, negb (Ascii.eqb c sep)) s = true.

Lemma Split_app sep s t : no_sep sep s → Split (s +:+ String sep t) sep = s :: Split t sep.
Proof.
  unfold no_sep. induction s as [|c s IH].
  - intros _. cbn. by rewrite Ascii.eqb_refl.
  - cbn. intros [Hc Hs]%andb_true_iff. apply negb_true_iff in Hc. rewrite Hc.
    specialize (IH Hs). cbn in IH. by rewrite IH.
Qed.

Lemma symbols_no_sep l :
  Forall (λ c, ∃ n, n < 64 ∧ c = b64_symbol n) l → no_sep "." (String.string_of_list_ascii l).
Proof.
  unfold no_sep. induction 1 as [|c l (n & Hn & ->) _ IH]; [done|]. cbn.
  destruct (b64_symbol_value n Hn) as (_ & _ & _ & ->). done.
Qed.

Lemma symbols_no_line_end l k :
  Forall (λ c, ∃ n, n < 64 ∧ c = b64_symbol n) l →
  filter (λ c, line_end c = false) (l ++ replicate k pad) = l ++ replicate k pad.
Proof.
  induction 1 as [|c l (n & Hn & ->) _ IH]; cbn [app].
  - induction k as [|k IHk]; [done|]. cbn [replicate]. rewrite filter_cons, decide_True by done. by rewrite IHk.
  - rewrite filter_cons, decide_True by (by destruct (b64_symbol_value n Hn) as (_ & _ & -> & _)).
    by rewrite IH.
Qed.

(** The payload of a token is read back: whatever bytes an issuer writes between
    the dots of a token, in the unpadded URL encoding, [decodeJWTPayload] gives these
    bytes, for every header and signature. *)
Theorem jwt_payload_is_read header payload signature
    (Hheader : no_sep "." header) (Hpayload : payload ≠ "") :
  decodeJWTPayload (header +:+ "." +:+ RawURLEncode payload +:+ "." +:+ signature) = Some payload.
Proof.
  unfold decodeJWTPayload, RawURLEncode.
  set (l := String.list_ascii_of_string payload).
  assert (String.string_of_list_ascii l = payload) as Hl by apply String.string_of_list_ascii_of_string.
  change ("." +:+ ?x) with (String "." x).
  rewrite Split_app by done.
  change ("." +:+ signature) with (String "." signature).
  rewrite Split_app by apply symbols_no_sep, encode_symbols.
  destruct (Split signature ".") as [|p ps] eqn:Hs.
  { destruct signature; simpl in Hs; [done|]. by repeat case_match. }
  destruct (String.eqb_spec (String.string_of_list_ascii (b64_encode l)) "") as [He|_].
  { destruct l as [|? [|? [|? ?]]]; [by subst|done..]. }
  rewrite length_string_of, encode_length.
  unfold b64_DecodeString.
  rewrite list_ascii_app, !String.list_ascii_of_string_of_list_ascii.
  rewrite symbols_no_line_end by apply encode_symbols.
  transitivity (String.string_of_list_ascii <$> Some l); [|by rewrite <- Hl].
  f_equal. rewrite <- (quanta_encode l). do 3 f_equal. unfold padding.
  pose proof (Nat.mod_upper_bound (length l) 3 ltac:(lia)).
  by destruct (length l mod 3)%nat as [|[|[|?]]]; [..|lia].
Qed.

Lemma jwt_payload_is_read_witness : decodeJWTPayload "eyJh.e30.sig.more" = Some "{}".
Proof.
  refine (jwt_payload_is_read "eyJh" "{}" "sig.more" _ _); [reflexivity|discriminate].
Defined.

Example bad_payloads :
  decodeJWTPayload "a.b" = None ∧ decodeJWTPayload "a..c" = None ∧ decodeJWTPayload "a.!!!!.c" = None
  ∧ decodeJWTPayload "a.e.c" = None ∧ decodeJWTPayload "a.e3==.c" = Some "{".
Proof. repeat split; reflexivity. Qed.

(** The top-level claim wins over the nested one; an expiry that is not an integer
    literal is no expiry. *)
Example claims_of_a_token :
  let parse (s : string) :=
    if String.eqb s "{1}" then Some (JObj [("https://api.openai.com/auth", JObj [("chatgpt_account_id", JStr "nested")]); ("exp", JNum "17")])
    else if String.eqb s "{2}" then Some (JObj [("chatgpt_account_id", JStr "top"); ("exp", JNum "1.7e9")])
    else None in
  extractAccountIDFromJWT parse ("h." +:+ RawURLEncode "{1}" +:+ ".s") = "nested"
  ∧ extractJWTExpiry parse ("h." +:+ RawURLEncode "{1}" +:+ ".s") = 17%Z
  ∧ extractAccountIDFromJWT parse ("h." +:+ RawURLEncode "{2}" +:+ ".s") = "top"
  ∧ extractJWTExpiry parse ("h." +:+ RawURLEncode "{2}" +:+ ".s") = 0%Z.
Proof. vm_compute. repeat split; reflexivity. Qed.
