(* ===== verification/Credentials.v ===== *)
(** * Obtaining and refreshing upstream credentials

    [src/src/codex_auth.go], [codex_device_flow.go] (Module [Codex]) and
    [src/src/auth.go], [copilot_device_flow.go] (Module [Copilot]): the token
    refreshes, the device-code flows, the import of the official Codex store and the
    redaction of the errors of an authorisation server.

    What a server answers to the n-th request of a loop, and whether the context is
    over before it, are functions of n; pauses are left out.  The outcome of a
    refresh carries the number of requests made. *)

From S2P Require Import Prelude GoStd Config Writers GoJson Jwt.

(** ** What an authorisation server's error may show *)

Definition reason_char (c : ascii) : bool :=
  is_lower c || is_upper c || is_digit c
  || Ascii.eqb c "_" || Ascii.eqb c "-" || Ascii.eqb c ".".

(* src/src/codex_auth.go sanitizeReasonCode *)
Definition sanitizeReasonCode (value : string) : string :=
  let value := TrimSpace value in
  if String.eqb value "" || (64 <? String.length value)%nat then "upstream_error"
  else if str_all reason_char value then value else "upstream_error".

(** The value a Go map keeps of repeated members is the last one. *)
Definition last_member (key : string) (l : list (string * string)) : string :=
  foldl (λ acc kv, if String.eqb kv.1 key then kv.2 else acc) "" l.

Definition first_nonempty (l : list string) : string :=
  default "" (List.find (λ s, negb (String.eqb s "")) l).

(** A missing member is nil, which has no reason. *)
(* src/src/codex_auth.go authErrorReason *)
Fixpoint authErrorReason (value : json) : string :=
  match value with
  | JStr s => sanitizeReasonCode s
  | JObj l =>
    let reasons :=
      (fix members (l : list (string * json)) : list (string * string) :=
        match l with [] => [] | (k, x) :: l => (k, authErrorReason x) :: members l end) l in
    first_nonempty ((λ key, last_member key reasons) <$> ["code"; "type"; "error"])
  | _ => ""
  end.

Definition member (key : string) (l : list (string * json)) : json :=
  foldl (λ acc kv, if String.eqb kv.1 key then kv.2 else acc) JNull l.

(* src/src/codex_auth.go redactAuthError *)
Definition redactAuthError (parse : string → option json) (body : string) : string :=
  match parse body with
  | Some (JObj l) =>
    first_nonempty [authErrorReason (member "error" l); authErrorReason (member "code" l);
                    "upstream_authentication_rejected"]
  | _ => "upstream_authentication_rejected"
  end.

(** What may be shown: a short code, or a constant. *)
Definition shown (s : string) : Prop := str_all reason_char s = true ∧ (String.length s ≤ 64)%nat.

Lemma shown_sanitized s : shown (sanitizeReasonCode s) ∧ sanitizeReasonCode s ≠ "".
Proof.
  unfold sanitizeReasonCode, shown. destruct (String.eqb_spec (TrimSpace s) "") as [|Hne]; simpl.
  { split; [|done]. split; [reflexivity|simpl; lia]. }
  destruct (Nat.ltb_spec 64 (String.length (TrimSpace s))); simpl.
  { split; [|done]. split; [reflexivity|simpl; lia]. }
  destruct (str_all reason_char (TrimSpace s)) eqn:E; [by split|].
  split; [|done]. split; [reflexivity|simpl; lia].
Qed.

Lemma shown_first_nonempty l : Forall (λ s, s = "" ∨ shown s) l → first_nonempty l = "" ∨ shown (first_nonempty l).
Proof.
  unfold first_nonempty. induction 1 as [|s l Hs _ IH]; simpl; [by left|].
  destruct (String.eqb_spec s ""); simpl; [done|]. destruct Hs; [done|by right].
Qed.

Lemma shown_last_member key l :
  Forall (λ kv : string * string, kv.2 = "" ∨ shown kv.2) l → last_member key l = "" ∨ shown (last_member key l).
Proof.
  intros Hl. unfold last_member.
  assert (∀ acc, acc = "" ∨ shown acc →
    let r := foldl (λ acc (kv : string * string), if String.eqb kv.1 key then kv.2 else acc) acc l in
    r = "" ∨ shown r) as Hgen; [|apply Hgen; by left].
  induction Hl as [|[k x] l Hx _ IH]; simpl; intros acc Hacc; [done|].
  apply IH. by case_match.
Qed.

(** Induction on trees of values, with the members of an object. *)
Lemma json_members_ind (P : json → Prop) :
  (∀ v, (∀ l, v ≠ JObj l) → P v) → (∀ l, Forall (λ kv, P kv.2) l → P (JObj l)) → ∀ v, P v.
Proof.
  intros Hleaf Hobj. fix IH 1. intros [|b|n|s|l|l]; try (apply Hleaf; discriminate).
  apply Hobj. induction l as [|[k x] l IHl]; constructor; [apply IH|apply IHl].
Qed.

Lemma shown_reason v : authErrorReason v = "" ∨ shown (authErrorReason v).
Proof.
  induction v as [v Hv|l Hl] using json_members_ind.
  - destruct v; simpl; try (by left). + right. apply shown_sanitized. + by destruct (Hv l).
  - cbn [authErrorReason fmap list_fmap]. match goal with |- context [last_member "code" ?r] => set (reasons := r) end.
    assert (Forall (λ kv : string * string, kv.2 = "" ∨ shown kv.2) reasons) as Hr.
    { subst reasons. induction Hl as [|[k x] l Hx _ IH]; constructor; [exact Hx|exact IH]. }
    apply shown_first_nonempty. do 3 (constructor; [by apply shown_last_member|]). constructor.
Qed.

(** Whatever an authorisation server answers, the text the program shows of it is a
    code of at most 64 letters, digits, dots, dashes and underscores: no token, no
    address and no free text of the answer reaches a log or a client. *)
Theorem auth_errors_are_redacted parse body : shown (redactAuthError parse body).
Proof.
  assert (shown "upstream_authentication_rejected") as Hc by (split; [reflexivity|simpl; lia]).
  unfold redactAuthError. destruct (parse body) as [[| | | | |l]|]; try exact Hc.
  set (l' := [authErrorReason (member "error" l); authErrorReason (member "code" l);
    "upstream_authentication_rejected"]).
  assert (Forall (λ s, s = "" ∨ shown s) l') as Hl.
  { constructor; [apply shown_reason|]. constructor; [apply shown_reason|]. constructor; [by right|constructor]. }
  destruct (shown_first_nonempty l' Hl) as [He|]; [|done].
  exfalso. unfold first_nonempty, l' in He. simpl in He.
  destruct (String.eqb_spec (authErrorReason (member "error" l)) ""); simpl in He; [|done].
  destruct (String.eqb_spec (authErrorReason (member "code" l)) ""); simpl in He; done.
Qed.

(** ** Requests of an authorisation flow *)

(** What one request gets: no response, a response whose body cannot be read, or a
    status and a body. *)
Inductive http_answer := NoResponse | Unreadable (status : Z) | Answered (status : Z) (body : string).

(* src/src/auth.go:24-25 maxRefreshRetries *)
Definition maxRefreshRetries : nat := 3.

Inductive refresh_error :=
| NoRefreshToken | RequestFailed | BodyUnreadable | Rejected (status : Z) (reason : string)
| Undecodable | Incomplete | SaveFailed | AttemptsExceeded.

(** The leading integer of a text, as [Sscanf] with [%d] reads it. *)
Fixpoint leading_digits (s : string) : string :=
  match s with
  | String c s' => if is_digit c then String c (leading_digits s') else ""
  | "" => ""
  end.
(* src/src/codex_auth.go parseInt *)
Definition parseInt (value : string) : option Z :=
  let value := TrimSpace value in
  let '(sign, rest) :=
    match value with
    | String "-" rest => ((-1)%Z, rest) | String "+" rest => (1%Z, rest) | _ => (1%Z, value)
    end in
  match Atoi (leading_digits rest) with
  | Some n => if (sign * n =? wrap_i64 (sign * n))%Z then Some (sign * n)%Z else None
  | None => None
  end.

Module Codex.
Section codex.
Context (parse : string → option json).

(* src/src/codex_auth.go isChatGPTMode *)
Definition isChatGPTMode (mode : string) : bool :=
  bool_decide (mode ∈ ["chatgpt"; "device_code"; "chatgpt_device_auth"]).
(* src/src/codex_auth.go isAPIKeyMode *)
Definition isAPIKeyMode (mode : string) : bool := String.eqb mode "api_key".

Definition with_tokens (access refresh : string) (expires : Z) (account : string) (auth : CodexAuthState)
    : CodexAuthState :=
  mkCodexAuth (xa_Mode auth) (xa_APIKey auth) (xa_APIKeyRef auth) access (xa_AccessTokenRef auth)
    refresh (xa_RefreshTokenRef auth) expires account.
Definition with_mode (mode : string) (auth : CodexAuthState) : CodexAuthState :=
  mkCodexAuth mode (xa_APIKey auth) (xa_APIKeyRef auth) (xa_AccessToken auth) (xa_AccessTokenRef auth)
    (xa_RefreshToken auth) (xa_RefreshTokenRef auth) (xa_ExpiresAt auth) (xa_AccountID auth).
Definition emptyAuth : CodexAuthState := mkCodexAuth "" "" None "" None "" None 0 "".

(** *** The answers of the token endpoint *)

(* src/src/codex_auth.go:59-64 codexRefreshResp *)
(* src/src/codex_auth.go:52-57 codexOAuthTokenResp *)
Record tokens := mkTokens {
  t_IDToken : string; t_AccessToken : string; t_RefreshToken : string; t_ExpiresIn : Z;
}.

Definition tokens_fields : list (field tokens) :=
  [fld "id_token" t_IDToken (λ a t, mkTokens a (t_AccessToken t) (t_RefreshToken t) (t_ExpiresIn t)) d_string;
   fld "access_token" t_AccessToken (λ a t, mkTokens (t_IDToken t) a (t_RefreshToken t) (t_ExpiresIn t)) d_string;
   fld "refresh_token" t_RefreshToken (λ a t, mkTokens (t_IDToken t) (t_AccessToken t) a (t_ExpiresIn t)) d_string;
   fld "expires_in" t_ExpiresIn (λ a t, mkTokens (t_IDToken t) (t_AccessToken t) (t_RefreshToken t) a) d_int].

Definition decode_tokens (body : string) : option tokens :=
  parse body ≫= unmarshal (mkTokens "" "" "" 0) (d_struct tokens_fields).

(** *** Refresh *)

(** The state after a refresh whose answer is [t], before [save]. *)
(* src/src/codex_auth.go:291-307 codexRefreshToken *)
Definition refreshed_auth (now : Z) (t : tokens) (auth : CodexAuthState) : CodexAuthState :=
  let refresh :=
    if String.eqb (t_RefreshToken t) "" then xa_RefreshToken auth else t_RefreshToken t in
  let account :=
    if String.eqb (t_IDToken t) "" then xa_AccountID auth
    else extractAccountIDFromJWT parse (t_IDToken t) in
  let account :=
    if String.eqb account "" then extractAccountIDFromJWT parse (t_AccessToken t) else account in
  let expires :=
    if (0 <? t_ExpiresIn t)%Z then wrap_i64 (now + t_ExpiresIn t)
    else extractJWTExpiry parse (t_AccessToken t) in
  with_tokens (t_AccessToken t) refresh expires account auth.

(** [answers n] is what the n-th request gets, [saved] whether the callback succeeds;
    the result has the number of requests. *)
(* src/src/codex_auth.go codexRefreshToken *)
Fixpoint refresh_loop (rounds attempt : nat) (answers : nat → http_answer) (now : Z) (saved : bool)
    (auth : CodexAuthState) : CodexAuthState * result unit refresh_error * nat :=
  match rounds with
  | O => (auth, Err AttemptsExceeded, 0)
  | S rounds =>
    let last := bool_decide (attempt = maxRefreshRetries) in
    let again :=
      let '(r, n) := refresh_loop rounds (S attempt) answers now saved auth in (r, S n) in
    match answers attempt with
    | NoResponse => if last then (auth, Err RequestFailed, 1) else again
    | Unreadable _ => (auth, Err BodyUnreadable, 1)
    | Answered status body =>
      if negb (status =? StatusOK)%Z then
        let retryable := (status =? StatusTooManyRequests)%Z || (500 <=? status)%Z in
        if negb retryable || last then (auth, Err (Rejected status (redactAuthError parse body)), 1)
        else again
      else
        match decode_tokens body with
        | None => (auth, Err Undecodable, 1)
        | Some t =>
          if String.eqb (t_AccessToken t) "" then (auth, Err Incomplete, 1)
          else (refreshed_auth now t auth, if saved then Ok tt else Err SaveFailed, 1)
        end
    end
  end.
(* src/src/codex_auth.go codexRefreshToken *)
Definition codexRefreshToken (answers : nat → http_answer) (now : Z) (saved : bool)
    (auth : CodexAuthState) : CodexAuthState * result unit refresh_error * nat :=
  if String.eqb (xa_RefreshToken auth) "" then (auth, Err NoRefreshToken, 0)
  else refresh_loop maxRefreshRetries 1 answers now saved auth.

(** *** Import of the official store *)

Inductive import_error := Unlocatable | ReadError | ParseError.

(** The file: absent, unreadable, or its content. *)
Inductive official_file := Missing | Unopened | Content (data : string).

Record official := mkOfficial { o_APIKey : option string; o_Tokens : option (string * string * string * Z * option string) }.

Definition official_tokens_fields : list (field (string * string * string * Z * option string)) :=
  [fld "id_token" (λ '(i, a, r, e, c), i) (λ i '(_, a, r, e, c), (i, a, r, e, c)) d_string;
   fld "access_token" (λ '(i, a, r, e, c), a) (λ a '(i, _, r, e, c), (i, a, r, e, c)) d_string;
   fld "refresh_token" (λ '(i, a, r, e, c), r) (λ r '(i, a, _, e, c), (i, a, r, e, c)) d_string;
   fld "expires_at" (λ '(i, a, r, e, c), e) (λ e '(i, a, r, _, c), (i, a, r, e, c)) d_int;
   fld "account_id" (λ '(i, a, r, e, c), c) (λ c '(i, a, r, e, _), (i, a, r, e, c)) (d_pointer "" d_string)].

(** [last_refresh] is decoded and not used. *)
(* src/src/codex_auth.go:362-376 officialCodexAuthJSON *)
Definition official_fields : list (field (official * option string)) :=
  [fld "OPENAI_API_KEY" (λ s, o_APIKey s.1) (λ k s, (mkOfficial k (o_Tokens s.1), s.2)) (d_pointer "" d_string);
   fld "tokens" (λ s, o_Tokens s.1) (λ t s, (mkOfficial (o_APIKey s.1) t, s.2))
     (d_pointer ("", "", "", 0%Z, None) (d_struct official_tokens_fields));
   fld "last_refresh" (λ s, s.2) (λ r s, (s.1, r)) (d_pointer "" d_string)].

(* src/src/codex_auth.go loadOfficialCodexAuth *)
Definition loadOfficialCodexAuth (file : official_file) : result (option CodexAuthState) import_error :=
  match file with
  | Missing => Ok None
  | Unopened => Err ReadError
  | Content data =>
    match parse data ≫= unmarshal (mkOfficial None None, None) (d_struct official_fields) with
    | None => Err ParseError
    | Some (document, _) =>
      let key := default "" (o_APIKey document) in
      if negb (String.eqb (TrimSpace key) "")
      then Ok (Some (mkCodexAuth "api_key" key None "" None "" None 0 ""))
      else
        match o_Tokens document with
        | None => Ok None
        | Some (id, access, refresh, expires, account) =>
          if String.eqb access "" then Ok None
          else
            let expires := if (expires =? 0)%Z then extractJWTExpiry parse access else expires in
            let account := TrimSpace (default "" account) in
            let account :=
              if String.eqb account "" && negb (String.eqb id "") then extractAccountIDFromJWT parse id
              else account in
            let account :=
              if String.eqb account "" then extractAccountIDFromJWT parse access else account in
            Ok (Some (mkCodexAuth "chatgpt" "" None access None refresh None expires account))
        end
    end
  end.

(* src/src/codex_auth.go:27-29 codexCredentialSourceEnv *)
Inductive key_source := FromEnv | FromOfficialStore | FromConfig.

Definition blank (s : string) : bool := String.eqb (TrimSpace s) "".

(** [env] is the value of [OPENAI_API_KEY]; no key is [Ok None]. *)
(* src/src/codex_auth.go resolveCodexAPIKey *)
Definition resolveCodexAPIKey (env : string) (auth : option CodexAuthState) (file : official_file)
    : result (option (string * key_source)) import_error :=
  if negb (blank env) then Ok (Some (TrimSpace env, FromEnv))
  else
    let own := from_option xa_APIKey "" auth in
    if negb (blank own) then Ok (Some (own, FromConfig))
    else
      match loadOfficialCodexAuth file with
      | Err e => Err e
      | Ok o =>
        let key := from_option xa_APIKey "" o in
        Ok (if blank key then None else Some (key, FromOfficialStore))
      end.

Definition chatgpt_of (source : key_source) (auth : option CodexAuthState)
    : option (string * string * Z * string * key_source) :=
  match auth with
  | Some a =>
    if String.eqb (xa_AccessToken a) "" then None
    else Some (xa_AccessToken a, xa_RefreshToken a, xa_ExpiresAt a, xa_AccountID a, source)
  | None => None
  end.

(* src/src/codex_auth.go resolveCodexChatGPTAuth *)
Definition resolveCodexChatGPTAuth (auth : option CodexAuthState) (file : official_file)
    : result (option (string * string * Z * string * key_source)) import_error :=
  match loadOfficialCodexAuth file with
  | Err e => Err e
  | Ok o =>
    Ok (match chatgpt_of FromOfficialStore o with
        | Some resolved => Some resolved
        | None => chatgpt_of FromConfig auth
        end)
  end.

(* src/src/codex_auth.go applyResolvedCodexChatGPTAuth *)
Definition applyResolvedCodexChatGPTAuth (destination : CodexAuthState)
    (resolved : option (string * string * Z * string * key_source)) : CodexAuthState :=
  match resolved with
  | None => destination
  | Some (access, refresh, expires, account, _) => with_tokens access refresh expires account destination
  end.

(* src/src/codex_auth.go clearPersistedChatGPTSecrets *)
Definition clearPersistedChatGPTSecrets (auth : CodexAuthState) : CodexAuthState := with_tokens "" "" 0 "" auth.
(** *** The device-code flow *)

Inductive flow_error :=
| DeviceRequestFailed | DeviceStatus (status : Z) | DeviceUndecodable | DeviceIncomplete
| NotReported | FlowCancelled | PollFailed | PollStatus (status : Z) | PollUndecodable
| PollIncomplete | FlowTimedOut | ExchangeFailed | ExchangeStatus (status : Z) | ExchangeUndecodable
| ExchangeIncomplete.

(* src/src/codex_auth.go:39-44 codexUserCodeResp *)
Definition user_code_fields : list (field (string * string * string)) :=
  [fld "device_auth_id" (λ '(d, u, i), d) (λ d '(_, u, i), (d, u, i)) d_string;
   fld "user_code" (λ '(d, u, i), u) (λ u '(d, _, i), (d, u, i)) d_string;
   fld "interval" (λ '(d, u, i), i) (λ i '(d, u, _), (d, u, i)) d_string].
(* src/src/codex_auth.go:46-50 codexDeviceTokenResp *)
Definition device_token_fields : list (field (string * string)) :=
  [fld "authorization_code" fst (λ c t, (c, t.2)) d_string;
   fld "code_verifier" snd (λ v t, (t.1, v)) d_string].

(** The interval before each poll but the first; [cancelled n] is a context that is done
    during the pause before the n-th request (from 0). *)
(* src/src/codex_device_flow.go pollCodexDeviceTokenContext *)
Fixpoint poll_loop (rounds attempt : nat) (answers : nat → http_answer) (cancelled : nat → bool)
    : result (string * string) flow_error * nat :=
  match rounds with
  | O => (Err FlowTimedOut, 0)
  | S rounds =>
    if negb (attempt =? 0)%nat && cancelled attempt then (Err FlowCancelled, 0)
    else
      let refused status :=
        if (status =? StatusForbidden)%Z || (status =? StatusNotFound)%Z
        then let '(r, n) := poll_loop rounds (S attempt) answers cancelled in (r, S n)
        else (Err (PollStatus status), 1) in
      match answers attempt with
      | NoResponse => (Err PollFailed, 1)
      | Unreadable status => if (status =? StatusOK)%Z then (Err PollUndecodable, 1) else refused status
      | Answered status body =>
        if negb (status =? StatusOK)%Z then refused status
        else
          match parse body ≫= unmarshal ("", "") (d_struct device_token_fields) with
          | None => (Err PollUndecodable, 1)
          | Some (code, verifier) =>
            if String.eqb code "" || String.eqb verifier "" then (Err PollIncomplete, 1)
            else (Ok (code, verifier), 1)
          end
      end
  end.
Definition pollCodexDeviceTokenContext := poll_loop 180 0.

(* src/src/codex_device_flow.go exchangeCodexAuthCodeContext *)
Definition exchangeCodexAuthCodeContext (answer : http_answer) : result tokens flow_error :=
  match answer with
  | NoResponse => Err ExchangeFailed
  | Unreadable status => Err (if (status =? StatusOK)%Z then ExchangeUndecodable else ExchangeStatus status)
  | Answered status body =>
    if negb (status =? StatusOK)%Z then Err (ExchangeStatus status)
    else match decode_tokens body with Some t => Ok t | None => Err ExchangeUndecodable end
  end.

(* src/src/codex_device_flow.go codexDeviceCredentials *)
Record codexDeviceCredentials := mkDevice {
  dc_AccessToken : string; dc_RefreshToken : string; dc_ExpiresAt : Z; dc_AccountID : string;
}.

(** [reported] is whether the callback [waiting] succeeds. *)
(* src/src/codex_device_flow.go runCodexDeviceFlow *)
Definition runCodexDeviceFlow (device : http_answer) (reported : bool) (polls : nat → http_answer)
    (cancelled : nat → bool) (exchange : string → string → http_answer) (now : Z)
    : result codexDeviceCredentials flow_error :=
  match device with
  | NoResponse => Err DeviceRequestFailed
  | Unreadable status => Err (if (status =? StatusOK)%Z then DeviceUndecodable else DeviceStatus status)
  | Answered status body =>
    if negb (status =? StatusOK)%Z then Err (DeviceStatus status)
    else
      match parse body ≫= unmarshal ("", "", "") (d_struct user_code_fields) with
      | None => Err DeviceUndecodable
      | Some (device, user, interval) =>
        if String.eqb device "" || String.eqb user "" then Err DeviceIncomplete
        else if negb reported then Err NotReported
        else
          let? code := fst (pollCodexDeviceTokenContext polls cancelled) in
          let? t := exchangeCodexAuthCodeContext (exchange code.1 code.2) in
          if String.eqb (t_AccessToken t) "" || String.eqb (t_RefreshToken t) "" then Err ExchangeIncomplete
          else
            let account := extractAccountIDFromJWT parse (t_IDToken t) in
            let account :=
              if String.eqb account "" then extractAccountIDFromJWT parse (t_AccessToken t) else account in
            let expires :=
              if (0 <? t_ExpiresIn t)%Z then wrap_i64 (now + t_ExpiresIn t)
              else extractJWTExpiry parse (t_AccessToken t) in
            Ok (mkDevice (t_AccessToken t) (t_RefreshToken t) expires account)
      end
  end.

(** *** What they promise *)

(** The answers after which the refresh asks again. *)
Definition refresh_retries (a : http_answer) : bool :=
  match a with
  | NoResponse => true
  | Answered status _ => (status =? StatusTooManyRequests)%Z || (500 <=? status)%Z
  | Unreadable _ => false
  end.

Definition refresh_promise (answers : nat → http_answer) (attempt rounds : nat) (auth : CodexAuthState)
    (auth' : CodexAuthState) (r : result unit refresh_error) (n : nat) : Prop :=
  (1 ≤ n ≤ rounds) ∧
  (∀ k, attempt ≤ k < attempt + n - 1 → refresh_retries (answers k) = true) ∧
  match r with
  | Ok _ | Err SaveFailed =>
    xa_AccessToken auth' ≠ "" ∧ (xa_RefreshToken auth ≠ "" → xa_RefreshToken auth' ≠ "")
    ∧ xa_Mode auth' = xa_Mode auth ∧ xa_APIKey auth' = xa_APIKey auth
  | Err AttemptsExceeded => False
  | Err _ => auth' = auth
  end.

Lemma refreshed_auth_usable now t auth :
  t_AccessToken t ≠ "" → xa_AccessToken (refreshed_auth now t auth) ≠ "" ∧
  (xa_RefreshToken auth ≠ "" → xa_RefreshToken (refreshed_auth now t auth) ≠ "") ∧
  xa_Mode (refreshed_auth now t auth) = xa_Mode auth ∧ xa_APIKey (refreshed_auth now t auth) = xa_APIKey auth.
Proof.
  intros Ht. unfold refreshed_auth, with_tokens. simpl. split_and!; try done.
  intros Hr. destruct (String.eqb_spec (t_RefreshToken t) ""); done.
Qed.

Lemma refresh_loop_spec rounds attempt answers now saved auth :
  attempt + rounds = S maxRefreshRetries → 0 < rounds →
  let '(auth', r, n) := refresh_loop rounds attempt answers now saved auth in
  refresh_promise answers attempt rounds auth auth' r n.
Proof.
  unfold maxRefreshRetries. revert attempt. induction rounds as [|rounds IH]; intros attempt Hsum Hpos; [lia|].
  assert (∀ (P : refresh_retries (answers attempt) = true), attempt ≠ 3 →
    let '(auth', r, n) := refresh_loop rounds (S attempt) answers now saved auth in
    refresh_promise answers attempt (S rounds) auth auth' r (S n)) as Hagain.
  { intros HP Hlast. specialize (IH (S attempt) ltac:(lia) ltac:(lia)).
    destruct (refresh_loop _ _ _ _ _ _) as [[auth' r] n]. destruct IH as (Hn & Hk & Hr).
    split; [lia|]. split; [|exact Hr]. intros k Hk'. destruct (decide (k = attempt)) as [->|]; [done|].
    apply Hk. lia. }
  assert (∀ auth' r, match r with
    | Ok _ | Err SaveFailed => xa_AccessToken auth' ≠ "" ∧ (xa_RefreshToken auth ≠ "" → xa_RefreshToken auth' ≠ "")
        ∧ xa_Mode auth' = xa_Mode auth ∧ xa_APIKey auth' = xa_APIKey auth
    | Err AttemptsExceeded => False | Err _ => auth' = auth end →
    refresh_promise answers attempt (S rounds) auth auth' r 1) as Hstop.
  { intros auth' r Hr. split; [lia|]. split; [intros; lia|done]. }
  simpl. unfold maxRefreshRetries in *. fold (refresh_loop).
  destruct (answers attempt) as [|status|status body] eqn:Ha; [| by apply Hstop|].
  - case_bool_decide; [by apply Hstop|]. specialize (Hagain eq_refl ltac:(done)).
    by destruct (refresh_loop _ _ _ _ _ _) as [[auth' r] n].
  - destruct (status =? StatusOK)%Z; simpl.
    + destruct (decode_tokens body) as [t|]; [|by apply Hstop].
      destruct (String.eqb_spec (t_AccessToken t) ""); [by apply Hstop|]. apply Hstop.
      destruct saved; by apply refreshed_auth_usable.
    + destruct ((status =? StatusTooManyRequests)%Z || (500 <=? status)%Z) eqn:Hretry; simpl; [|by apply Hstop].
      case_bool_decide; [by apply Hstop|]. specialize (Hagain Hretry ltac:(done)).
      by destruct (refresh_loop _ _ _ _ _ _) as [[auth' r] n].
Qed.

Lemma refresh_promised answers now saved auth auth' r n :
  codexRefreshToken answers now saved auth = (auth', r, n) →
  n ≤ 3 ∧
  (∀ k, 1 ≤ k < n → refresh_retries (answers k) = true) ∧
  match r with
  | Ok _ | Err SaveFailed =>
    xa_AccessToken auth' ≠ "" ∧ xa_RefreshToken auth' ≠ "" ∧ xa_Mode auth' = xa_Mode auth
  | Err _ => auth' = auth
  end.
Proof.
  unfold codexRefreshToken. intros Hr. destruct (String.eqb_spec (xa_RefreshToken auth) "").
  { simplify_eq. split_and!; [lia|intros; lia|done]. }
  pose proof (refresh_loop_spec maxRefreshRetries 1 answers now saved auth ltac:(done) ltac:(unfold maxRefreshRetries; lia)) as Hs.
  rewrite Hr in Hs. destruct Hs as (Hn & Hk & Ho). unfold maxRefreshRetries in Hn.
  split_and!; [lia|intros k Hk'; apply Hk; lia|].
  destruct r as [|[]]; try done; naive_solver.
Qed.

Lemma saved_loop rounds attempt answers now auth auth' n :
  refresh_loop rounds attempt answers now true auth ≠ (auth', Err SaveFailed, n).
Proof.
  revert attempt auth' n. induction rounds as [|rounds IH]; intros attempt auth' n; simpl; [done|].
  pose proof (λ a k, IH (S attempt) a k) as Hagain.
  destruct (refresh_loop rounds _ _ _ _ _) as [[a r] k].
  assert (∀ x : _ * _ * nat, x = (a, r, S k) → x ≠ (auth', Err SaveFailed, n)) as Hstep.
  { intros ? -> [=]; subst. by eapply Hagain. }
  repeat case_match; try (by intros [=]); by apply Hstep.
Qed.

Lemma saved_refresh answers now auth auth' n :
  codexRefreshToken answers now true auth ≠ (auth', Err SaveFailed, n).
Proof. unfold codexRefreshToken. case_match; [done|]. apply saved_loop. Qed.

(** A refresh sends at most three requests, and a second or third one only after
    a network failure, a 429 or a 5xx.  When it succeeds the account holds a new
    access token and still has a refresh token; when it fails before the save, the
    account is what it was. *)
Theorem refresh_is_bounded_and_atomic answers now saved auth auth' r n
    (Hr : codexRefreshToken answers now saved auth = (auth', r, n)) :
  n ≤ 3 ∧
  (∀ k, 1 ≤ k < n → refresh_retries (answers k) = true) ∧
  match r with
  | Ok _ | Err SaveFailed =>
    xa_AccessToken auth' ≠ "" ∧ xa_RefreshToken auth' ≠ "" ∧ xa_Mode auth' = xa_Mode auth
  | Err _ => auth' = auth
  end.
Proof. by apply refresh_promised in Hr. Qed.

(** A device flow polls at most 180 times, and only while the user has not answered. *)
Lemma poll_loop_bounded rounds attempt answers cancelled :
  snd (poll_loop rounds attempt answers cancelled) ≤ rounds.
Proof.
  revert attempt. induction rounds as [|rounds IH]; intros attempt; simpl; [done|].
  specialize (IH (S attempt)). destruct (poll_loop rounds (S attempt) answers cancelled) as [r n].
  simpl in IH. repeat case_match; simpl; lia.
Qed.

(** The credentials of a completed flow can be used and refreshed. *)
Theorem device_flow_is_complete device reported polls cancelled exchange now c
    (Hrun : runCodexDeviceFlow device reported polls cancelled exchange now = Ok c) :
  dc_AccessToken c ≠ "" ∧ dc_RefreshToken c ≠ "" ∧ reported = true.
Proof.
  unfold runCodexDeviceFlow in Hrun. peel_in Hrun. inv_ok. peel_in Hrun.
  match goal with H : String.eqb (t_AccessToken _) "" || _ = false |- _ =>
    apply orb_false_iff in H as [Ha%String.eqb_neq Hb%String.eqb_neq] end.
  simpl. split_and!; try done. by destruct reported.
Qed.
End codex.
End Codex.

Module Copilot.
Section copilot.
Context (parse : string → option json).

(* src/src/auth.go:35-39 tokenResponse *)
Definition token_fields : list (field (string * string * string)) :=
  [fld "access_token" (λ '(a, e, d), a) (λ a '(_, e, d), (a, e, d)) d_string;
   fld "error" (λ '(a, e, d), e) (λ e '(a, _, d), (a, e, d)) d_string;
   fld "error_description" (λ '(a, e, d), d) (λ d '(a, e, _), (a, e, d)) d_string].

(* src/src/auth.go:41-48 copilotTokenResponse *)
Record copilot_token := mkToken { ct_Token : string; ct_ExpiresAt : Z; ct_RefreshIn : Z; ct_API : string }.
Definition copilot_token_fields : list (field copilot_token) :=
  [fld "token" ct_Token (λ a t, mkToken a (ct_ExpiresAt t) (ct_RefreshIn t) (ct_API t)) d_string;
   fld "expires_at" ct_ExpiresAt (λ a t, mkToken (ct_Token t) a (ct_RefreshIn t) (ct_API t)) d_int;
   fld "refresh_in" ct_RefreshIn (λ a t, mkToken (ct_Token t) (ct_ExpiresAt t) a (ct_API t)) d_int;
   fld "endpoints" ct_API (λ a t, mkToken (ct_Token t) (ct_ExpiresAt t) (ct_RefreshIn t) a)
     (d_struct [fld "api" (λ a : string, a) (λ a _, a) d_string])].

(* src/src/auth.go:27-33 deviceCodeResponse *)
Record device_code := mkDeviceCode {
  d_DeviceCode : string; d_UserCode : string; d_VerificationURI : string; d_ExpiresIn : Z; d_Interval : Z;
}.
Definition device_fields : list (field device_code) :=
  [fld "device_code" d_DeviceCode (λ a d, mkDeviceCode a (d_UserCode d) (d_VerificationURI d) (d_ExpiresIn d) (d_Interval d)) d_string;
   fld "user_code" d_UserCode (λ a d, mkDeviceCode (d_DeviceCode d) a (d_VerificationURI d) (d_ExpiresIn d) (d_Interval d)) d_string;
   fld "verification_uri" d_VerificationURI (λ a d, mkDeviceCode (d_DeviceCode d) (d_UserCode d) a (d_ExpiresIn d) (d_Interval d)) d_string;
   fld "expires_in" d_ExpiresIn (λ a d, mkDeviceCode (d_DeviceCode d) (d_UserCode d) (d_VerificationURI d) a (d_Interval d)) d_int;
   fld "interval" d_Interval (λ a d, mkDeviceCode (d_DeviceCode d) (d_UserCode d) (d_VerificationURI d) (d_ExpiresIn d) a) d_int].

Definition decode_device (body : string) : option device_code :=
  parse body ≫= unmarshal (mkDeviceCode "" "" "" 0 0) (d_struct device_fields).
Definition decode_poll (body : string) : option (string * string * string) :=
  parse body ≫= unmarshal ("", "", "") (d_struct token_fields).

Inductive flow_error :=
| DeviceRequestFailed | DeviceStatus (status : Z) | DeviceUndecodable | DeviceIncomplete | NotReported
| FlowCancelled | PollUndecodable | Denied (reason : string) | FlowTimedOut
| TokenRequestFailed | TokenStatus (status : Z) | TokenUndecodable | TokenIncomplete
| NoGitHubToken | AttemptsExceeded | SaveFailed.

(** The exchange of the GitHub token, of the daemon ([strict]) and of the command
    line. *)
(* src/src/auth.go getCopilotToken *)
(* src/src/copilot_device_flow.go getCopilotTokenContext *)
Definition getCopilotToken (strict : bool) (answer : http_answer) : result copilot_token flow_error :=
  match answer with
  | NoResponse => Err TokenRequestFailed
  | Unreadable status => Err (if (status =? StatusOK)%Z then TokenUndecodable else TokenStatus status)
  | Answered status body =>
    if negb (status =? StatusOK)%Z then Err (TokenStatus status)
    else
      match parse body ≫= unmarshal (mkToken "" 0 0 "") (d_struct copilot_token_fields) with
      | None => Err TokenUndecodable
      | Some t => if strict && String.eqb (ct_Token t) "" then Err TokenIncomplete else Ok t
      end
  end.

Definition with_token (t : copilot_token) (auth : CopilotAuthState) : CopilotAuthState :=
  mkCopilotAuth (ca_Mode auth) (ca_GitHubToken auth) (ca_GitHubTokenRef auth) (ct_Token t)
    (ca_CopilotTokenRef auth) (ct_ExpiresAt t) (ct_RefreshIn t).
Definition with_github (token : string) (auth : CopilotAuthState) : CopilotAuthState :=
  mkCopilotAuth (ca_Mode auth) token (ca_GitHubTokenRef auth) (ca_CopilotToken auth)
    (ca_CopilotTokenRef auth) (ca_ExpiresAt auth) (ca_RefreshIn auth).

(* src/src/auth.go copilotRefreshToken *)
Fixpoint refresh_loop (rounds attempt : nat) (answers : nat → http_answer) (saved : bool)
    (auth : CopilotAuthState) : CopilotAuthState * result unit flow_error * nat :=
  match rounds with
  | O => (auth, Err AttemptsExceeded, 0)
  | S rounds =>
    match getCopilotToken false (answers attempt) with
    | Err e =>
      if bool_decide (attempt = maxRefreshRetries) then (auth, Err e, 1)
      else let '(r, n) := refresh_loop rounds (S attempt) answers saved auth in (r, S n)
    | Ok t => (with_token t auth, if saved then Ok tt else Err SaveFailed, 1)
    end
  end.
(* src/src/auth.go copilotRefreshToken *)
Definition copilotRefreshToken (answers : nat → http_answer) (saved : bool) (auth : CopilotAuthState)
    : CopilotAuthState * result unit flow_error * nat :=
  if String.eqb (ca_GitHubToken auth) "" then (auth, Err NoGitHubToken, 0)
  else refresh_loop maxRefreshRetries 1 answers saved auth.

(** The poll of the command line: what cannot be decoded is an empty answer. *)
(* src/src/auth.go pollForGitHubToken *)
Fixpoint cli_poll (rounds attempt : nat) (answers : nat → http_answer) : result string flow_error :=
  match rounds with
  | O => Err FlowTimedOut
  | S rounds =>
    let again := cli_poll rounds (S attempt) answers in
    match answers attempt with
    | NoResponse => again
    | Unreadable _ => again
    | Answered _ body =>
      let '(access, error, _) := default ("", "", "") (decode_poll body) in
      if negb (String.eqb error "")
      then (if String.eqb error "authorization_pending" then again else Err (Denied (sanitizeReasonCode error)))
      else if negb (String.eqb access "") then Ok access else again
    end
  end.
Definition pollForGitHubToken := cli_poll 120 0.

(* src/src/copilot_device_flow.go pollForGitHubTokenContext *)
Fixpoint poll_loop (rounds attempt : nat) (answers : nat → http_answer) (cancelled : nat → bool)
    : result string flow_error * nat :=
  match rounds with
  | O => (Err FlowTimedOut, 0)
  | S rounds =>
    if negb (attempt =? 0)%nat && cancelled attempt then (Err FlowCancelled, 0)
    else
      let again := let '(r, n) := poll_loop rounds (S attempt) answers cancelled in (r, S n) in
      match answers attempt with
      | NoResponse => if cancelled attempt then (Err FlowCancelled, 1) else again
      | Unreadable _ => (Err PollUndecodable, 1)
      | Answered _ body =>
        match decode_poll body with
        | None => (Err PollUndecodable, 1)
        | Some (access, error, _) =>
          if String.eqb error "authorization_pending" then again
          else if negb (String.eqb error "") then (Err (Denied (sanitizeReasonCode error)), 1)
          else if negb (String.eqb access "") then (Ok access, 1)
          else again
        end
      end
  end.
Definition pollForGitHubTokenContext := poll_loop 120 0.

(* src/src/copilot_device_flow.go runCopilotDeviceFlow *)
Definition runCopilotDeviceFlow (device : http_answer) (reported : bool) (polls : nat → http_answer)
    (cancelled : nat → bool) (exchange : string → http_answer) : result (string * copilot_token) flow_error :=
  match device with
  | NoResponse => Err DeviceRequestFailed
  | Unreadable status => Err (if (status =? StatusOK)%Z then DeviceUndecodable else DeviceStatus status)
  | Answered status body =>
    if negb (status =? StatusOK)%Z then Err (DeviceStatus status)
    else
      match decode_device body with
      | None => Err DeviceUndecodable
      | Some d =>
        if String.eqb (d_DeviceCode d) "" || String.eqb (d_UserCode d) "" || String.eqb (d_VerificationURI d) ""
        then Err DeviceIncomplete
        else if negb reported then Err NotReported
        else
          let? github := fst (pollForGitHubTokenContext polls cancelled) in
          let? token := getCopilotToken true (exchange github) in
          Ok (github, token)
      end
  end.

(** The command line's flow, for [auth copilot]; the GitHub token is kept even when its
    exchange fails. *)
(* src/src/auth.go copilotAuthenticate *)
Definition copilotAuthenticate (now : Z) (device : http_answer) (polls : nat → http_answer)
    (exchange : string → http_answer) (saved : bool) (auth : CopilotAuthState)
    : CopilotAuthState * result unit flow_error :=
  if negb (String.eqb (ca_CopilotToken auth) "") && (now + 60 <? ca_ExpiresAt auth)%Z then (auth, Ok tt)
  else
    match device with
    | NoResponse => (auth, Err DeviceRequestFailed)
    | Unreadable _ => (auth, Err DeviceUndecodable)
    | Answered _ body =>
      match decode_device body with
      | None => (auth, Err DeviceUndecodable)
      | Some d =>
        match pollForGitHubToken polls with
        | Err e => (auth, Err e)
        | Ok github =>
          let auth := with_github github auth in
          match getCopilotToken false (exchange github) with
          | Err e => (auth, Err e)
          | Ok t => (with_token t auth, if saved then Ok tt else Err SaveFailed)
          end
        end
      end
    end.

(** A refresh asks at most three times, whatever fails, and a failed one leaves the
    account as it was. *)
Theorem copilot_refresh_is_bounded answers saved auth auth' r n
    (Hr : copilotRefreshToken answers saved auth = (auth', r, n)) :
  n ≤ 3 ∧
  (∀ k, 1 ≤ k < n → ∃ e, getCopilotToken false (answers k) = Err e) ∧
  match r with
  | Ok _ | Err SaveFailed => ∃ t, getCopilotToken false (answers n) = Ok t ∧ auth' = with_token t auth
  | Err _ => auth' = auth
  end.
Proof.
  unfold copilotRefreshToken in Hr. destruct (String.eqb_spec (ca_GitHubToken auth) "").
  { simplify_eq. split_and!; [lia|intros; lia|done]. }
  unfold maxRefreshRetries in Hr. cbn [refresh_loop] in Hr. unfold maxRefreshRetries in Hr.
  assert (∀ a e, getCopilotToken false a = Err e → e ≠ SaveFailed) as Hne.
  { intros a e. unfold getCopilotToken. repeat case_match; intros; simplify_eq; done. }
  destruct (getCopilotToken false (answers 1)) as [t1|e1] eqn:E1; simpl in Hr.
  { simplify_eq. split_and!; [lia|intros; lia|]. destruct saved; eauto. }
  destruct (getCopilotToken false (answers 2)) as [t2|e2] eqn:E2; simpl in Hr.
  { simplify_eq. split_and!; [lia| |destruct saved; eauto].
    intros k Hk. assert (k = 1) as -> by lia. eauto. }
  assert (∀ k, 1 ≤ k < 3 → ∃ e, getCopilotToken false (answers k) = Err e) as Hk.
  { intros k Hk. assert (k = 1 ∨ k = 2) as [-> | ->] by lia; eauto. }
  destruct (getCopilotToken false (answers 3)) as [t3|e3] eqn:E3; simpl in Hr; simplify_eq.
  - split_and!; [lia|done|]. destruct saved; eauto.
  - split_and!; [lia|done|]. specialize (Hne _ _ E3). by destruct e3.
Qed.

Lemma poll_token rounds attempt polls cancelled g :
  fst (poll_loop rounds attempt polls cancelled) = Ok g → g ≠ "".
Proof.
  revert attempt. induction rounds as [|rounds IH]; intros attempt; simpl; [done|].
  specialize (IH (S attempt)). destruct (poll_loop rounds (S attempt) polls cancelled) as [r n].
  simpl in IH. repeat case_match; simpl; intros; simplify_eq/=; auto;
    match goal with H : negb (String.eqb ?g "") = true |- ?g ≠ "" =>
      by apply negb_true_iff, String.eqb_neq in H end.
Qed.

Lemma pollForGitHubTokenContext_token polls cancelled g :
  fst (pollForGitHubTokenContext polls cancelled) = Ok g → g ≠ "".
Proof. apply poll_token. Qed.

#[local] Opaque pollForGitHubTokenContext.

(** The daemon's flow ends with a token of each kind that can be used. *)
Theorem copilot_flow_is_complete device reported polls cancelled exchange github t
    (Hrun : runCopilotDeviceFlow device reported polls cancelled exchange = Ok (github, t)) :
  github ≠ "" ∧ ct_Token t ≠ "" ∧ reported = true.
Proof.
  unfold runCopilotDeviceFlow in Hrun.
  destruct device as [| |status body]; [done..|].
  destruct (negb (status =? StatusOK)%Z); [done|].
  destruct (decode_device body) as [d|]; [|done].
  destruct (_ || _ || _); [done|]. destruct reported; [|done]. cbn [negb] in Hrun.
  destruct (fst (pollForGitHubTokenContext polls cancelled)) as [g|e] eqn:Hpoll; [|done].
  apply pollForGitHubTokenContext_token in Hpoll. cbn [bind_result] in Hrun.
  destruct (getCopilotToken true (exchange g)) as [t'|e] eqn:Ht; [|done]. cbn [bind_result] in Hrun.
  simplify_eq. split_and!; [done| |done]. unfold getCopilotToken in Ht. peel_in Ht; simplify_eq/=; try done;
    by apply String.eqb_neq.
Qed.
End copilot.

(** The command line takes an answer without a token for a refreshed one: the refresh
    succeeds, and what is saved has no token. *)
Example empty_answer_erases_the_token :
  let parse (s : string) := if String.eqb s "{}" then Some (JObj []) else None in
  let auth := mkCopilotAuth "device_code" "gh" None "tok" None 100 0 in
  copilotRefreshToken parse (λ _, Answered 200 "{}") true auth
  = (mkCopilotAuth "device_code" "gh" None "" None 0 0, Ok tt, 1).
Proof. reflexivity. Qed.

(** The server's request to poll less often ends the flow. *)
Example slow_down_ends_the_flow :
  let parse (s : string) := if String.eqb s "slow" then Some (JObj [("error", JStr "slow_down")]) else None in
  pollForGitHubTokenContext parse (λ _, Answered 200 "slow") (λ _, false) = (Err (Denied "slow_down"), 1).
Proof. reflexivity. Qed.
End Copilot.

Module ExampleCredentials.

Definition parse (s : string) : option json :=
  if String.eqb s "tokens" then Some (JObj [("access_token", JStr "new"); ("expires_in", JNum "3600")])
  else if String.eqb s "denied" then Some (JObj [("error", JObj [("code", JStr "invalid grant!"); ("type", JStr "x")])])
  else None.

Definition old : CodexAuthState := mkCodexAuth "chatgpt" "" None "old" None "refresh" None 5 "acct".

(** A 503, then the tokens: two requests, and the refresh token is kept. *)
Definition two_answers (n : nat) : http_answer :=
  if (n =? 1)%nat then Answered 503 "busy" else Answered 200 "tokens".

Lemma refresh_is_bounded_and_atomic_witness :
  Codex.codexRefreshToken parse two_answers 1000 true old
  = (mkCodexAuth "chatgpt" "" None "new" None "refresh" None 4600 "acct", Ok tt, 2)
  ∧ xa_RefreshToken (mkCodexAuth "chatgpt" "" None "new" None "refresh" None 4600 "acct") ≠ "".
Proof.
  split; [vm_compute; reflexivity|].
  refine (proj1 (proj2 (proj2 (proj2 (Codex.refresh_is_bounded_and_atomic parse two_answers 1000 true old _ (Ok tt) 2 _)))));
    vm_compute; reflexivity.
Defined.

Example denied_refresh :
  Codex.codexRefreshToken parse (λ _, Answered 400 "denied") 1000 true old
  = (old, Err (Rejected 400 "upstream_error"), 1).
Proof. vm_compute. reflexivity. Qed.
End ExampleCredentials.
