(* ===== verification/Kilo.v ===== *)
(** * The Kilo provider

    [src/src/kilo_provider.go]: an OpenAI-compatible gateway that may be used without a
    key, for the models its catalog marks as free.

    Parameters: [url_Parse] and [url_String] are those of [net/url]; [price_is_zero]
    says whether [strconv.ParseFloat] reads a text as zero; [parse] is the JSON parser.
    Header names are those of the source, before Go's canonical form. *)

From S2P Require Import Prelude GoStd Provider Config Availability Cooldown Routing Catalog Telemetry.
From S2P Require Import Writers Usage Failover GoJson Upstream Responses Transport.

(* src/src/kilo_provider.go:21-27 kiloAutoFreeModel *)
Definition kiloAutoFreeModel : string := "kilo-auto/free".
(* src/src/kilo_provider.go:21-27 defaultKiloGatewayBaseURL *)
Definition defaultKiloGatewayBaseURL : string := "https://api.kilo.ai/api/gateway".

Record URL := mkURL {
  u_Scheme : string; u_Host : string; u_Hostname : string; u_User : bool; u_RawQuery : string;
  u_Fragment : string; u_Path : string;
}.

Inductive base_error := InvalidURL | NotBare | NotHTTPS.

(** The strings of the source, for [fmt.Errorf]. *)
Definition base_error_text (e : base_error) : string :=
  match e with
  | InvalidURL => "invalid Kilo Gateway base URL"
  | NotBare => "Kilo Gateway base URL must not contain credentials, query, or fragment"
  | NotHTTPS => "Kilo Gateway base URL must use HTTPS unless it is loopback"
  end.

(* src/src/kilo_provider.go isLoopbackHostname *)
Definition isLoopbackHostname (host : string) : bool :=
  bool_decide (ToLower (TrimSpace host) ∈ ["localhost"; "127.0.0.1"; "::1"]).

(* src/src/kilo_provider.go isAnonymousKiloModel *)
Definition isAnonymousKiloModel (model : string) : bool :=
  let model := ToLower (TrimSpace model) in
  String.eqb model kiloAutoFreeModel || String.eqb model "openrouter/free"
  || HasPrefix (str_rev model) (str_rev ":free").

(* src/src/kilo_provider.go kiloErrorKind *)
Definition kiloErrorKind (status : Z) : ProviderErrorKind :=
  if (status =? StatusBadRequest)%Z then ProviderErrorInvalidRequest
  else if (status =? StatusUnauthorized)%Z then ProviderErrorAuthRequired
  else if (status =? StatusPaymentRequired)%Z || (status =? StatusForbidden)%Z then ProviderErrorEntitlement
  else if (status =? StatusTooManyRequests)%Z then ProviderErrorRateLimit
  else if (500 <=? status)%Z then ProviderErrorUnavailable
  else ProviderErrorTransport.

(** ** The catalog's answer *)

(* src/src/kilo_provider.go:153-169 kiloModel *)
Record kiloModel := mkKiloModel {
  km_ID : string; km_Object : string; km_Created : Z; km_OwnedBy : string; km_Name : string;
  km_IsFree : bool; km_IsFreeAlt : bool; km_Pricing : string * string;
}.
Definition zeroKiloModel : kiloModel := mkKiloModel "" "" 0 "" "" false false ("", "").

Definition pricing_fields : list (field (string * string)) :=
  [fld "prompt" fst (λ a p, (a, p.2)) d_string; fld "completion" snd (λ a p, (p.1, a)) d_string].

Definition model_fields : list (field kiloModel) :=
  [fld "id" km_ID (λ a m, mkKiloModel a (km_Object m) (km_Created m) (km_OwnedBy m) (km_Name m) (km_IsFree m) (km_IsFreeAlt m) (km_Pricing m)) d_string;
   fld "object" km_Object (λ a m, mkKiloModel (km_ID m) a (km_Created m) (km_OwnedBy m) (km_Name m) (km_IsFree m) (km_IsFreeAlt m) (km_Pricing m)) d_string;
   fld "created" km_Created (λ a m, mkKiloModel (km_ID m) (km_Object m) a (km_OwnedBy m) (km_Name m) (km_IsFree m) (km_IsFreeAlt m) (km_Pricing m)) d_int;
   fld "owned_by" km_OwnedBy (λ a m, mkKiloModel (km_ID m) (km_Object m) (km_Created m) a (km_Name m) (km_IsFree m) (km_IsFreeAlt m) (km_Pricing m)) d_string;
   fld "name" km_Name (λ a m, mkKiloModel (km_ID m) (km_Object m) (km_Created m) (km_OwnedBy m) a (km_IsFree m) (km_IsFreeAlt m) (km_Pricing m)) d_string;
   fld "isFree" km_IsFree (λ a m, mkKiloModel (km_ID m) (km_Object m) (km_Created m) (km_OwnedBy m) (km_Name m) a (km_IsFreeAlt m) (km_Pricing m)) d_bool;
   fld "is_free" km_IsFreeAlt (λ a m, mkKiloModel (km_ID m) (km_Object m) (km_Created m) (km_OwnedBy m) (km_Name m) (km_IsFree m) a (km_Pricing m)) d_bool;
   fld "pricing" km_Pricing (λ a m, mkKiloModel (km_ID m) (km_Object m) (km_Created m) (km_OwnedBy m) (km_Name m) (km_IsFree m) (km_IsFreeAlt m) a) (d_struct pricing_fields)].

(* src/src/kilo_provider.go filterDiscoveredModels *)
Definition filterDiscoveredModels (modelList : ModelList) (allowedModels : list string) : ModelList :=
  if decide (allowedModels = []) then modelList
  else mkModelList "list"
         (filter (λ m, Models.isModelAllowedWithPrefix (m_ID m) allowedModels = true) (ml_Data modelList)).

Section kilo.
Context (url_Parse : string → option URL) (url_String : URL → string) (price_is_zero : string → bool)
  (parse : string → option json).

(** What the provider reads: its configuration, the environment, and the credentials
    of the secret store, when it has one. *)
Record kilo_env := mkEnvironment {
  k_cfg : KiloProvider; getenv : string → string; resolve : option (string → option string);
}.

(** The breaker, the catalog's cache and the names of the models known to be free. *)
(* src/src/kilo_provider.go:29-42 KiloProvider *)
Record kilo_state := mkKilo { ks_breaker : CircuitBreaker; ks_cache : ModelCache.t; ks_free : gset string }.

(* src/src/kilo_provider.go NewKiloProviderWithAuth *)
(* src/src/kilo_provider.go NewKiloProvider *)
Definition NewKiloProvider (breakerSeconds : Z) : kilo_state :=
  mkKilo (newBreaker (wrap_i64 (breakerSeconds * Second))) (ModelCache.NewModelCache ModelCache.defaultModelCacheTTL)
    {[kiloAutoFreeModel]}.

Definition from_store (env : kilo_env) (slot : string) : option string := resolve env ≫= λ r, r slot.

(* src/src/kilo_provider.go KiloProvider.apiKey *)
Definition apiKey (env : kilo_env) : string :=
  match from_store env "kilo/api_key" with
  | Some value => value
  | None =>
    let key := TrimSpace (getenv env "KILO_API_KEY") in
    if negb (String.eqb key "") then key else TrimSpace (kp_APIKey (k_cfg env))
  end.

(* src/src/kilo_provider.go KiloProvider.organizationID *)
Definition organizationID (env : kilo_env) : string :=
  match from_store env "kilo/organization_id" with
  | Some value => value
  | None =>
    let id := TrimSpace (getenv env "KILO_ORG_ID") in
    if negb (String.eqb id "") then id else TrimSpace (kp_OrganizationID (k_cfg env))
  end.

Definition trim_slashes (path : string) : string :=
  str_rev (trim_left_with ["/"] (String.length path) (str_rev path)).

(* src/src/kilo_provider.go KiloProvider.baseURL *)
Definition baseURL (env : kilo_env) : result string base_error :=
  let raw := TrimSpace (getenv env "KILO_GATEWAY_BASE_URL") in
  let raw := if String.eqb raw "" then TrimSpace (kp_BaseURL (k_cfg env)) else raw in
  let raw := if String.eqb raw "" then defaultKiloGatewayBaseURL else raw in
  match url_Parse raw with
  | None => Err InvalidURL
  | Some parsed =>
    if String.eqb (u_Host parsed) ""
       || (negb (String.eqb (u_Scheme parsed) "https") && negb (String.eqb (u_Scheme parsed) "http"))
    then Err InvalidURL
    else if u_User parsed || negb (String.eqb (u_RawQuery parsed) "") || negb (String.eqb (u_Fragment parsed) "")
    then Err NotBare
    else if String.eqb (u_Scheme parsed) "http" && negb (isLoopbackHostname (u_Hostname parsed))
    then Err NotHTTPS
    else Ok (url_String (mkURL (u_Scheme parsed) (u_Host parsed) (u_Hostname parsed) (u_User parsed)
               (u_RawQuery parsed) (u_Fragment parsed) (trim_slashes (u_Path parsed))))
  end.

(* src/src/kilo_provider.go KiloProvider.EnsureAuthenticated *)
Definition EnsureAuthenticated (env : kilo_env) : option perr :=
  match baseURL env with
  | Err e => Some (newProviderError ProviderErrorInvalidRequest StatusInternalServerError (base_error_text e))
  | Ok _ =>
    if negb (String.eqb (apiKey env) "") || kp_AllowAnonymous (k_cfg env) then None
    else Some (newProviderError ProviderErrorAuthRequired StatusUnauthorized
                 "no Kilo API key configured and anonymous access is disabled")
  end.

(* src/src/kilo_provider.go KiloProvider.Health *)
Definition kilo_Health (env : kilo_env) : Provider.Health :=
  let keyed := negb (String.eqb (apiKey env) "") || kp_AllowAnonymous (k_cfg env) in
  match baseURL env with
  | Err e => mkHealth false false (base_error_text e) zeroTime
  | Ok _ => mkHealth keyed false "" zeroTime
  end.

(** [header.Set] in the order of the source; [client] is the [Header.Get] of the
    client's request. *)
(* src/src/kilo_provider.go KiloProvider.setHeaders *)
Definition setHeaders (version : string) (env : kilo_env) (client : option (string → string))
    : gmap string string :=
  let h : gmap string string :=
    {["Accept" := "application/json, text/event-stream"]} in
  let h := <["Content-Type" := "application/json"]> h in
  let h := <["User-Agent" := "ya-router/" +:+ version]> h in
  let h := <["HTTP-Referer" := "https://github.com/duvu/ya-router"]> h in
  let h := <["X-Title" := "ya-router"]> h in
  let h := <["X-KiloCode-EditorName" := "ya-router " +:+ version]> h in
  let h := if String.eqb (apiKey env) "" then h else <["Authorization" := "Bearer " +:+ apiKey env]> h in
  let org := organizationID env in
  let h := if String.eqb org "" then h else <["X-KiloCode-OrganizationId" := org]> h in
  match client with
  | None => h
  | Some get =>
    let h := foldl (λ h name,
      let value := TrimSpace (get name) in if String.eqb value "" then h else <[name := value]> h)
      h ["Idempotency-Key"; "X-KiloCode-Mode"; "X-KiloCode-TaskId"; "X-KiloCode-Parent-TaskId"] in
    if String.eqb org "" then h
    else
      let h := <["X-KiloCode-OrganizationId" := org]> h in
      let project := TrimSpace (get "X-KiloCode-ProjectId") in
      if String.eqb project "" then h else <["X-KiloCode-ProjectId" := project]> h
  end.

(** ** Models *)

(* src/src/kilo_provider.go isFreeKiloCatalogModel *)
Definition isFreeKiloCatalogModel (m : kiloModel) : bool :=
  km_IsFree m || km_IsFreeAlt m || isAnonymousKiloModel (km_ID m)
  || (price_is_zero (fst (km_Pricing m)) && price_is_zero (snd (km_Pricing m))).

(** One entry of the catalog; the state is the models, the names seen and the free names. *)
(* src/src/kilo_provider.go:210-231 KiloProvider.fetchModels *)
Definition add_model (key : string) (clock : string → Z) (st : list Model * gset string * gset string)
    (item : kiloModel) : list Model * gset string * gset string :=
  let '(models, seen, free) := st in
  let id := TrimSpace (km_ID item) in
  let item := mkKiloModel id (km_Object item) (km_Created item) (km_OwnedBy item) (km_Name item)
                (km_IsFree item) (km_IsFreeAlt item) (km_Pricing item) in
  let is_free := isFreeKiloCatalogModel item in
  if String.eqb id "" || (String.eqb key "" && negb is_free) then st
  else
    let free := if is_free then {[ToLower id]} ∪ free else free in
    let object := if String.eqb (km_Object item) "" then "model" else km_Object item in
    let created := if (km_Created item =? 0)%Z then clock id else km_Created item in
    (models ++ [mkModel id object created "kilo" (km_Name item) "" "" false "" false []],
     {[id]} ∪ seen, free).

(** The list and the free names that a catalog with the given entries leads to. *)
(* src/src/kilo_provider.go:206-248 KiloProvider.fetchModels *)
Definition catalog_of (env : kilo_env) (clock : string → Z) (items : list kiloModel)
    : ModelList * gset string :=
  let key := apiKey env in
  let '(models, seen, free) := foldl (add_model key clock) ([], ∅, {[kiloAutoFreeModel]}) items in
  let models :=
    if String.eqb key "" && kp_AllowAnonymous (k_cfg env) && negb (bool_decide (kiloAutoFreeModel ∈ seen))
    then models ++ [mkModel kiloAutoFreeModel "model" (clock kiloAutoFreeModel) "kilo" "Kilo Auto Free" "" "" false "" false []]
    else models in
  let modelList := mkModelList "list" models in
  let allowed := elems (kp_AllowedModels (k_cfg env)) in
  (if String.eqb key "" then filterDiscoveredModels modelList allowed
   else Models.filterAllowedModels clock modelList allowed, free).

(** The fetch: [answer] is what the client gets, [None] when there is no answer.  The
    body is read up to 16 MiB. *)
(* src/src/kilo_provider.go KiloProvider.fetchModels *)
Definition fetchModels (env : kilo_env) (clock : string → Z) (answer : option http_response)
    : result (ModelList * gset string) perr :=
  match baseURL env with
  | Err e => Err (mkPerr (base_error_text e) (mkError false false) None)
  | Ok _ =>
    match answer with
    | None => Err (newProviderError ProviderErrorTransport StatusBadGateway "Kilo model discovery failed")
    | Some response =>
      let status := r_StatusCode response in
      if (status <? 200)%Z || (300 <=? status)%Z
      then Err (newProviderError (kiloErrorKind status) status "Kilo model discovery returned HTTP")
      else
        match ub_error (r_body response) with
        | Some _ => Err (newProviderError ProviderErrorTransport StatusBadGateway "read Kilo model catalog")
        | None =>
          match parse (str_take (16 * 1024 * 1024) (ub_text (r_body response)))
                  ≫= unmarshal [] (d_struct [fld "data" (λ l : list kiloModel, l) (λ l _, l)
                                               (d_list zeroKiloModel (d_struct model_fields))]) with
          | None => Err (newProviderError ProviderErrorTransport StatusBadGateway "decode Kilo model catalog")
          | Some items => Ok (catalog_of env clock items)
          end
        end
    end
  end.

(** A call that no other overlaps; the instants are those of the cache. *)
(* src/src/kilo_provider.go KiloProvider.ListModels *)
(* src/src/kilo_provider.go KiloProvider.replaceFreeModels *)
Definition kilo_ListModels (env : kilo_env) (t1 t2 t3 : Time) (clock : string → Z)
    (answer : option http_response) (s : kilo_state) : kilo_state * result ModelList perr :=
  match EnsureAuthenticated env with
  | Some e => (s, Err e)
  | None =>
    let fetched := fetchModels env clock answer in
    let '(cache, r) := ModelCache.GetOrFetch t1 t2 t3
      (match fetched with Ok (ml, _) => Ok ml | Err e => Err e end) (ks_cache s) in
    let free :=
      match ModelCache.Get t1 (ks_cache s), ModelCache.Get t2 (ks_cache s), fetched with
      | None, None, Ok (_, free) => free
      | _, _, _ => ks_free s
      end in
    (mkKilo (ks_breaker s) cache free, r)
  end.

(* src/src/kilo_provider.go KiloProvider.InvalidateModelCache *)
Definition kilo_Invalidate (s : kilo_state) : kilo_state :=
  mkKilo (ks_breaker s) (ModelCache.Invalidate (ks_cache s)) {[kiloAutoFreeModel]}.

(* src/src/kilo_provider.go KiloProvider.allowsAnonymousModel *)
Definition allowsAnonymousModel (s : kilo_state) (model : string) : bool :=
  isAnonymousKiloModel model || bool_decide (ToLower (TrimSpace model) ∈ ks_free s).

(** ** Requests *)

(** The request sent upstream. *)
Record kilo_call := mkCall { c_url : string; c_headers : gmap string string; c_body : string }.

(** What the provider does with its writer, and its error; the request sent, if any.
    [t_admit] is the instant of the breaker's check, [t_end] that of the report. *)
(* src/src/kilo_provider.go KiloProvider.ProxyRequest *)
Definition ProxyRequest `{JSON} (version : string) (env : kilo_env) (t_admit t_end : Time)
    (client : string → string) (u : upstream) (cuts : list string) (body capability : string)
    (s : kilo_state) : kilo_state * option kilo_call * (list action * option perr) :=
  let refuse s kind status message := (s, None, ([], Some (newProviderError kind status message))) in
  match EnsureAuthenticated env with
  | Some e => (s, None, ([], Some e))
  | None =>
    if negb (String.eqb capability CapabilityChat) && negb (String.eqb capability CapabilityResponses)
    then refuse s ProviderErrorUnsupported StatusBadRequest "unsupported Kilo capability"
    else
      let model := ExtractModel body in
      if String.eqb model "" then refuse s ProviderErrorInvalidRequest StatusBadRequest "Kilo request requires a model"
      else if String.eqb (apiKey env) "" && negb (allowsAnonymousModel s model)
      then refuse s ProviderErrorAuthRequired StatusUnauthorized
             "Kilo model requires KILO_API_KEY; anonymous mode is limited to free model IDs"
      else
        let '(cb, admitted) := canExecute t_admit (ks_breaker s) in
        let s := mkKilo cb (ks_cache s) (ks_free s) in
        if negb admitted
        then refuse s ProviderErrorUnavailable StatusServiceUnavailable "Kilo circuit breaker is open"
        else
          match baseURL env with
          | Err e => (s, None, ([], Some (mkPerr (base_error_text e) (mkError false false) None)))
          | Ok base =>
            let path := if String.eqb capability CapabilityResponses then "/responses" else "/chat/completions" in
            let headers := setHeaders version env (Some client) in
            let call := mkCall (base +:+ path) headers body in
            match snd (send "POST" (bool_decide (is_Some (headers !! "Idempotency-Key"))) true u) with
            | Err _ =>
              (mkKilo (onFailure t_end cb) (ks_cache s) (ks_free s), Some call,
               ([], Some (newProviderError ProviderErrorTransport StatusBadGateway "Kilo upstream request failed")))
            | Ok response =>
              (mkKilo (report t_end (r_StatusCode response) cb) (ks_cache s) (ks_free s), Some call,
               streamResponse cuts response)
            end
          end
  end.

(** ** Headers *)

Definition client_headers : list string :=
  ["Idempotency-Key"; "X-KiloCode-Mode"; "X-KiloCode-TaskId"; "X-KiloCode-Parent-TaskId"].

Lemma copied_headers_other (get : string → string) names (h : gmap string string) key :
  key ∉ names →
  foldl (λ h name, let value := TrimSpace (get name) in if String.eqb value "" then h else <[name := value]> h) h names
    !! key = h !! key.
Proof.
  revert h. induction names as [|name names IH]; [done|]. intros h. csimpl.
  rewrite not_elem_of_cons. intros [Hne Hin]. rewrite IH by done.
  destruct (String.eqb _ ""); [done|]. by rewrite lookup_insert_ne.
Qed.

Lemma setHeaders_authorization version env client :
  setHeaders version env client !! "Authorization"
  = if String.eqb (apiKey env) "" then None else Some ("Bearer " +:+ apiKey env).
Proof.
  unfold setHeaders. cbv zeta. fold client_headers.
  destruct client as [get|].
  - destruct (String.eqb (organizationID env) ""), (String.eqb (apiKey env) "");
      try destruct (String.eqb (TrimSpace (get "X-KiloCode-ProjectId")) "");
      rewrite ?lookup_insert_ne, ?copied_headers_other by (done || unlisted);
      rewrite ?lookup_insert_ne by done; try apply lookup_insert_eq; reflexivity.
  - destruct (String.eqb (organizationID env) ""), (String.eqb (apiKey env) "");
      rewrite ?lookup_insert_ne by done; try apply lookup_insert_eq; reflexivity.
Qed.

(** Credentials and organisation are the server's: whatever headers the client
    sends, the upstream request carries the server's key or none, the server's
    organisation or none, and a project only within the server's organisation. *)
Theorem kilo_identity_is_server_owned version env client :
  let h := setHeaders version env client in
  h !! "Authorization" = (if String.eqb (apiKey env) "" then None else Some ("Bearer " +:+ apiKey env)) ∧
  h !! "X-KiloCode-OrganizationId" = (if String.eqb (organizationID env) "" then None else Some (organizationID env)) ∧
  (String.eqb (organizationID env) "" = true → h !! "X-KiloCode-ProjectId" = None).
Proof.
  assert (∀ (h : gmap string string) k, k ∉ client_headers →
    (∀ get, foldl (λ h name, let value := TrimSpace (get name) in
       if String.eqb value "" then h else <[name := value]> h) h client_headers !! k = h !! k)) as Hother
    by (intros; by apply copied_headers_other).
  cbv zeta. unfold setHeaders. cbv zeta. fold client_headers.
  destruct client as [get|].
  - destruct (String.eqb (organizationID env) "") eqn:Eorg, (String.eqb (apiKey env) "") eqn:Ekey;
      try destruct (String.eqb (TrimSpace (get "X-KiloCode-ProjectId")) "");
      split_and!; try done; intros; rewrite ?lookup_insert_ne, ?Hother by (done || unlisted);
      rewrite ?lookup_insert_ne by done; try apply lookup_insert_eq; try reflexivity.
  - destruct (String.eqb (organizationID env) "") eqn:Eorg, (String.eqb (apiKey env) "") eqn:Ekey;
      split_and!; try done; intros; rewrite ?lookup_insert_ne by done; try apply lookup_insert_eq; try reflexivity.
Qed.

(** ** Requests *)

Lemma canExecute_refused now cb cb' : canExecute now cb = (cb', false) → cb' = cb.
Proof. unfold canExecute. repeat case_match; by intros [= <-]. Qed.

Lemma EnsureAuthenticated_None env : EnsureAuthenticated env = None → ∃ base, baseURL env = Ok base.
Proof. unfold EnsureAuthenticated. destruct (baseURL env); [eauto|done]. Qed.

(** Without a key, the only requests sent are for models that are free by their
    name or by the catalog, and they carry no authorization. *)
Theorem kilo_anonymous_requests_are_free `{JSON} version env t_admit t_end client u cuts body capability s s' call out
    (Hkey : apiKey env = "")
    (Hrun : ProxyRequest version env t_admit t_end client u cuts body capability s = (s', Some call, out)) :
  allowsAnonymousModel s (ExtractModel body) = true ∧ c_headers call !! "Authorization" = None
  ∧ c_body call = body.
Proof.
  unfold ProxyRequest in Hrun. destruct (EnsureAuthenticated env); [done|].
  destruct (_ && _); [done|]. destruct (String.eqb (ExtractModel body) ""); [done|].
  rewrite Hkey in Hrun. cbn [negb andb orb String.eqb] in Hrun.
  destruct (allowsAnonymousModel s (ExtractModel body)); [|done]. split; [done|]. cbn [negb andb orb String.eqb] in Hrun.
  destruct (canExecute _ _) as [cb []]; [|done]. cbn [negb andb orb String.eqb] in Hrun. destruct (baseURL env) as [base|]; [|done].
  destruct (snd (send _ _ _ u)); simplify_eq; cbn [c_headers c_body]; (split; [|done]);
    by rewrite setHeaders_authorization, Hkey.
Qed.

(** The provider gives back what it takes from its breaker: a request that is
    admitted reports its outcome on every path, so no probe is left under way; a
    request that is not admitted leaves the breaker alone. *)
Theorem kilo_gives_back_its_probe `{JSON} version env t_admit t_end client u cuts body capability s s' call out
    (Hrun : ProxyRequest version env t_admit t_end client u cuts body capability s = (s', call, out)) :
  match call with
  | Some _ => probing (ks_breaker s') = false
  | None => ks_breaker s' = ks_breaker s
  end.
Proof.
  unfold ProxyRequest in Hrun. destruct (EnsureAuthenticated env) eqn:Hauth; [by simplify_eq|].
  apply EnsureAuthenticated_None in Hauth as [base Hbase].
  destruct (_ && _); [by simplify_eq|]. destruct (String.eqb (ExtractModel body) ""); [by simplify_eq|].
  destruct (_ && _); [by simplify_eq|].
  destruct (canExecute t_admit (ks_breaker s)) as [cb [|]] eqn:Hcan; simpl in Hrun.
  - rewrite Hbase in Hrun. destruct (snd (send _ _ _ u)); simplify_eq; simpl.
    + apply report_ends_probe.
    + apply failure_ends_probe.
  - simplify_eq. simpl. by eapply canExecute_refused.
Qed.

(** ** The free models *)

Definition accepted_all (s : kilo_state) (l : list Model) : Prop :=
  ∀ m, m ∈ l → allowsAnonymousModel s (m_ID m) = true.

(** What is cached was listed anonymously. *)
Definition free_inv (s : kilo_state) : Prop :=
  ∀ ml, ModelCache.data (ks_cache s) = Some ml → accepted_all s (ml_Data ml).

Definition free_listed (models : list Model) (free : gset string) : Prop :=
  ∀ m, m ∈ models → isAnonymousKiloModel (m_ID m) = true ∨ ToLower (TrimSpace (m_ID m)) ∈ free.

Lemma add_model_free clock st item :
  free_listed st.1.1 st.2 → free_listed (add_model "" clock st item).1.1 (add_model "" clock st item).2.
Proof.
  destruct st as [[models seen] free]. unfold add_model. simpl. intros Hl.
  destruct (isFreeKiloCatalogModel _); [|by rewrite orb_true_r].
  destruct (String.eqb _ ""); simpl; [done|]. intros m [Hm|Hm%list_elem_of_singleton]%elem_of_app.
  - destruct (Hl m Hm); [by left|right; set_solver].
  - right. subst m. simpl. rewrite TrimSpace_idemp. set_solver.
Qed.

Lemma catalog_of_free env clock items ml free :
  apiKey env = "" → catalog_of env clock items = (ml, free) → free_listed (ml_Data ml) free.
Proof.
  intros Hkey. unfold catalog_of. rewrite Hkey.
  assert (∀ st, free_listed st.1.1 st.2 →
    free_listed (foldl (add_model "" clock) st items).1.1 (foldl (add_model "" clock) st items).2) as Hfold.
  { induction items as [|item items IH]; [done|]. intros st Hst. by apply IH, add_model_free. }
  assert (free_listed [] ({[kiloAutoFreeModel]} : gset string)) as Hnil by (intros m Hm%not_elem_of_nil; done).
  specialize (Hfold ([], ∅, {[kiloAutoFreeModel]}) Hnil).
  destruct (foldl _ _ items) as [[models seen] free']. simpl in *.
  match goal with |- context [mkModelList "list" ?m] => set (models' := m) end. intros [= <- <-].
  assert (free_listed models' free') as Hm.
  { subst models'. case_match; [|done]. intros m [Hm|Hm%list_elem_of_singleton]%elem_of_app; [by apply Hfold|].
    left. by subst m. }
  unfold filterDiscoveredModels. case_decide; [done|]. simpl.
  intros m [_ Hin]%list_elem_of_filter. by apply Hm.
Qed.

Lemma fetchModels_free env clock answer ml free :
  apiKey env = "" → fetchModels env clock answer = Ok (ml, free) → free_listed (ml_Data ml) free.
Proof.
  intros Hkey. unfold fetchModels. repeat case_match; try done. intros [= Hc]. by eapply catalog_of_free.
Qed.

Lemma free_listed_accepted s models :
  free_listed models (ks_free s) → accepted_all s models.
Proof.
  intros Hl m Hm. unfold allowsAnonymousModel. destruct (Hl m Hm) as [->|Hin]; [done|].
  rewrite bool_decide_eq_true_2 by done. apply orb_true_r.
Qed.

(** Without a key, every model that [ListModels] lists can be requested: the
    provider accepts its name.  This holds from the start, and is kept by listing, by
    refreshing and by requests. *)
Theorem listed_free_models_are_accepted env t1 t2 t3 clock answer s s' ml
    (Hkey : apiKey env = "") (Hinv : free_inv s)
    (Hlist : kilo_ListModels env t1 t2 t3 clock answer s = (s', Ok ml)) :
  accepted_all s' (ml_Data ml) ∧ free_inv s' ∧ free_inv (kilo_Invalidate s').
Proof.
  assert (free_inv (kilo_Invalidate s')) as Hinvalid by (intros ? [=]).
  assert (∀ t ml, ModelCache.Get t (ks_cache s) = Some ml → ModelCache.data (ks_cache s) = Some ml) as Hget.
  { intros t l. unfold ModelCache.Get. by repeat case_match; intros; simplify_eq. }
  unfold kilo_ListModels in Hlist. destruct (EnsureAuthenticated env); [done|].
  unfold ModelCache.GetOrFetch in Hlist.
  destruct (ModelCache.Get t1 (ks_cache s)) as [l1|] eqn:E1.
  { simplify_eq. apply Hget in E1. split_and!; [by apply Hinv|by intros l ?%Hinv|done]. }
  destruct (ModelCache.Get t2 (ks_cache s)) as [l2|] eqn:E2.
  { simplify_eq. apply Hget in E2. split_and!; [by apply Hinv|by intros l ?%Hinv|done]. }
  destruct (fetchModels env clock answer) as [[l free]|] eqn:Ef; [|done]. simplify_eq.
  apply fetchModels_free in Ef; [|done].
  split_and!; [by apply free_listed_accepted| |done].
  intros l' [= <-]. by apply free_listed_accepted.
Qed.

End kilo.

Module ExampleKilo.

(** A parser of the few addresses used here. *)
Definition url_Parse (s : string) : option URL :=
  if HasPrefix s "https://" then Some (mkURL "https" "host" "host" false "" "" "/api/")
  else if HasPrefix s "http://10." then Some (mkURL "http" "10.0.0.1" "10.0.0.1" false "" "" "")
  else if HasPrefix s "http://" then Some (mkURL "http" "localhost:1" "localhost" false "" "" "")
  else None.
Definition url_String (u : URL) : string := u_Scheme u +:+ "://" +:+ u_Host u +:+ u_Path u.
Definition price_is_zero (s : string) : bool := String.eqb s "0" || String.eqb s "0.0".
Definition parse (s : string) : option json :=
  if String.eqb s "catalog" then
    Some (JObj [("data", JArr [
      JObj [("id", JStr " Nova/Mini "); ("pricing", JObj [("prompt", JStr "0"); ("completion", JStr "0.0")])];
      JObj [("id", JStr "nova/max"); ("pricing", JObj [("prompt", JStr "0.1"); ("completion", JStr "1")])];
      JObj [("id", JStr "other:free")]])])
  else None.

#[local] Instance body_json : JSON := {|
  json_unmarshal := parse;
  json_marshal _ := None;
  json_string_field body _ := Some body;
  json_int_fields _ _ := None;
|}.

Definition env (key base : string) : kilo_env :=
  mkEnvironment (mkKiloProvider true true key None "org" None base None) (λ _, "") None.

Definition catalog : http_response := mkResponse 200 "application/json" [] (mkBody "catalog" None).
Definition new : kilo_state := NewKiloProvider 30.

Definition listed : kilo_state * result ModelList perr :=
  kilo_ListModels url_Parse url_String price_is_zero parse (env "" "https://x") 5%Z 5%Z 6%Z (λ _, 7%Z)
    (Some catalog) new.

Example anonymous_catalog :
  match snd listed with
  | Ok ml => m_ID <$> ml_Data ml = ["Nova/Mini"; "other:free"; kiloAutoFreeModel]
  | Err _ => False
  end.
Proof. vm_compute. reflexivity. Qed.

Lemma new_free_inv : free_inv new.
Proof. by intros ml [=]. Defined.

Lemma listed_free_models_are_accepted_witness :
  ∃ ml, snd listed = Ok ml ∧ accepted_all (fst listed) (ml_Data ml).
Proof.
  destruct listed as [s [ml|e]] eqn:E; [|vm_compute in E; discriminate E].
  exists ml. split; [reflexivity|].
  refine (proj1 (listed_free_models_are_accepted url_Parse url_String price_is_zero parse (env "" "https://x")
    5%Z 5%Z 6%Z (λ _, 7%Z) (Some catalog) new s ml _ new_free_inv E)). reflexivity.
Defined.

(** A request of a client that sends its own authorization. *)
Definition client (name : string) : string :=
  if String.eqb name "Authorization" then "Bearer stolen"
  else if String.eqb name "X-KiloCode-OrganizationId" then "theirs" else "".
Definition answering (status : Z) : upstream :=
  mkUpstream (λ _, Some (mkResponse status "application/json" [] (mkBody "{}" None))) (λ _, false).
Definition request (model : string) (s : kilo_state) :=
  ProxyRequest url_Parse url_String "1" (env "" "https://x") 10%Z 11%Z client (answering 503) []
    model CapabilityChat s.

Lemma kilo_anonymous_requests_are_free_witness :
  match request "nova/mini" (fst listed) with
  | (_, Some call, _) => c_headers call !! "Authorization" = None
  | _ => False
  end.
Proof.
  destruct (request "nova/mini" (fst listed)) as [[s' [call|]] out] eqn:E; [|vm_compute in E; discriminate E].
  refine (proj1 (proj2 (kilo_anonymous_requests_are_free url_Parse url_String "1" (env "" "https://x") 10%Z 11%Z
    client (answering 503) [] "nova/mini" CapabilityChat (fst listed) s' call out _ E))). reflexivity.
Defined.

Lemma kilo_gives_back_its_probe_witness :
  match request "nova/mini" (fst listed) with
  | (s', Some _, _) => probing (ks_breaker s') = false
  | _ => False
  end.
Proof.
  destruct (request "nova/mini" (fst listed)) as [[s' [call|]] out] eqn:E; [|vm_compute in E; discriminate E].
  exact (kilo_gives_back_its_probe url_Parse url_String "1" (env "" "https://x") 10%Z 11%Z
    client (answering 503) [] "nova/mini" CapabilityChat (fst listed) s' (Some call) out E).
Defined.

(** A paid model is refused before anything is sent. *)
Example paid_model_is_refused :
  request "nova/max" (fst listed)
  = (fst listed, None, ([], Some (newProviderError ProviderErrorAuthRequired 401
      "Kilo model requires KILO_API_KEY; anonymous mode is limited to free model IDs"))).
Proof. vm_compute. reflexivity. Qed.

(** The address must be HTTPS, or on this host. *)
Example base_addresses :
  baseURL url_Parse url_String (env "" "https://x") = Ok "https://host/api"
  ∧ baseURL url_Parse url_String (env "" "http://localhost:1") = Ok "http://localhost:1"
  ∧ baseURL url_Parse url_String (env "" "http://10.0.0.1") = Err NotHTTPS.
Proof. repeat split; reflexivity. Qed.

(** A fetch publishes the free names first and caches the list last.  An invalidation
    in between resets the names, and then the list is cached: until it expires, models
    are listed that a request for them is refused. *)
Definition raced (s : kilo_state) : kilo_state :=
  match snd listed with
  | Ok ml =>
    let s := mkKilo (ks_breaker s) (ks_cache s) (ks_free (fst listed)) in
    let s := kilo_Invalidate s in
    mkKilo (ks_breaker s) (ModelCache.Set_ 6%Z ml (ks_cache s)) (ks_free s)
  | Err _ => s
  end.

Example invalidation_during_a_fetch :
  match ModelCache.Get 7%Z (ks_cache (raced new)) with
  | Some ml => (λ m, (m_ID m, allowsAnonymousModel (raced new) (m_ID m))) <$> ml_Data ml
               = [("Nova/Mini", false); ("other:free", true); (kiloAutoFreeModel, true)]
  | None => False
  end.
Proof. vm_compute. reflexivity. Qed.
End ExampleKilo.
