(* ===== verification/CodexBackend.v ===== *)
(** * The Codex provider

    [src/src/codex_provider.go]: accounts with ChatGPT or API-key credentials, the
    refresh of tokens, the rotation over accounts and the request loop, over
    [Accounts], [Credentials], [Transport] and [Responses].

    One request is followed; [world n] is what its n-th round over the accounts meets
    (instants, the configuration file, the answers of the authorisation server and of
    the service).  A method that holds the provider's mutex is one function. *)

From S2P Require Import Prelude GoStd Provider Config Availability Cooldown Routing Catalog Telemetry.
From S2P Require Import Writers Usage Failover GoJson Upstream Responses Transport Accounts Jwt Credentials.

(* src/src/codex_provider.go:22-25 defaultChatGPTBaseURL *)
Definition defaultChatGPTBaseURL : string := "https://chatgpt.com/backend-api/codex/".
(* src/src/codex_provider.go:22-25 defaultPlatformBaseURL *)
Definition defaultPlatformBaseURL : string := "https://api.openai.com/v1".

(** ** State and environment *)

(** The configured accounts, the account outside a pool, the cursor, the breaker and
    the cache of the model list. *)
(* src/src/codex_provider.go:27-37 CodexProvider *)
Record codex_state := mkCodexState {
  xs_cfg : CodexProvider; xs_cursor : nat; xs_breaker : CircuitBreaker; xs_cache : ModelCache.t;
}.

Definition accounts (s : codex_state) : list CodexAccount := elems (cx_Accounts (xs_cfg s)).

Definition with_cfg (cfg : CodexProvider) (s : codex_state) : codex_state :=
  mkCodexState cfg (xs_cursor s) (xs_breaker s) (xs_cache s).
Definition with_cursor (cursor : nat) (s : codex_state) : codex_state :=
  mkCodexState (xs_cfg s) cursor (xs_breaker s) (xs_cache s).
Definition with_breaker (cb : CircuitBreaker) (s : codex_state) : codex_state :=
  mkCodexState (xs_cfg s) (xs_cursor s) cb (xs_cache s).
Definition with_accounts (l : list CodexAccount) (s : codex_state) : codex_state :=
  let c := xs_cfg s in
  with_cfg (mkCodexProvider (cx_Enabled c) (cx_Auth c) ((λ _, l) <$> cx_Accounts c) (cx_AccountCooldownSeconds c)
              (cx_AllowedModels c) (cx_ChatGPTBaseURL c)) s.
Definition with_legacy (auth : CodexAuthState) (s : codex_state) : codex_state :=
  let c := xs_cfg s in
  with_cfg (mkCodexProvider (cx_Enabled c) auth (cx_Accounts c) (cx_AccountCooldownSeconds c)
              (cx_AllowedModels c) (cx_ChatGPTBaseURL c)) s.
Definition set_account_auth (auth : CodexAuthState) (a : CodexAccount) : CodexAccount :=
  mkCodexAccount (cxa_ID a) (cxa_Label a) auth (cxa_LastLimitedAt a).

(** What does not change during a request: the credentials of the secret store, the
    environment variable [OPENAI_API_KEY] and the official store's file. *)
Record codex_env := mkCodexEnv {
  xe_resolve : option (string → option string); xe_key : string; xe_official : Codex.official_file;
}.
Definition from_store (env : codex_env) (slot : string) : option string := xe_resolve env ≫= λ r, r slot.

Section codex.
Context (parse : string → option json) (marshal : json → string)
  (raw_text : json → string) (float_to_int : string → option Z)
  (visit : gmap string json → list (string * json)).


(* src/src/codex_provider_factory.go NewCodexProviderWithAuth *)
Definition NewCodexProvider (clock : nat → Z) (breakerSeconds : Z) (cfg : CodexProvider) : codex_state :=
  mkCodexState cfg
    (firstHealthy clock (cooldownSeconds (cx_AccountCooldownSeconds cfg)) (elems (cx_Accounts cfg)))
    (newBreaker (wrap_i64 (breakerSeconds * Second))) (ModelCache.NewModelCache ModelCache.defaultModelCacheTTL).

(* src/src/codex_provider.go CodexProvider.chatGPTBaseURL *)
Definition chatGPTBaseURL (cfg : CodexProvider) : string :=
  let base := TrimSpace (cx_ChatGPTBaseURL cfg) in
  let base := if String.eqb base "" then defaultChatGPTBaseURL else base in
  if HasPrefix (str_rev base) "/" then base else base +:+ "/".

(** The cursor is reset when it is out of range. *)
(* src/src/codex_provider.go CodexProvider.activeAccount *)
Definition fix_cursor (s : codex_state) : codex_state :=
  if decide (accounts s = []) then s
  else if decide (xs_cursor s < length (accounts s)) then s else with_cursor 0 s.
Definition activeAccount (s : codex_state) : option CodexAccount := accounts s !! xs_cursor s.

(* src/src/codex_provider.go CodexProvider.authState *)
Definition authState (s : codex_state) : CodexAuthState :=
  match activeAccount s with Some a => cxa_Auth a | None => cx_Auth (xs_cfg s) end.

(** Writing through the pointer [authState] returns. *)
Definition set_auth (auth : CodexAuthState) (s : codex_state) : codex_state :=
  match activeAccount s with
  | Some _ => with_accounts (alter (set_account_auth auth) (xs_cursor s) (accounts s)) s
  | None => with_legacy auth s
  end.

(** The authentication state of the account of an index, or the one outside a pool. *)
Definition auth_at (index : nat) (s : codex_state) : CodexAuthState :=
  match accounts s !! index with Some a => cxa_Auth a | None => cx_Auth (xs_cfg s) end.
Definition set_auth_at (index : nat) (auth : CodexAuthState) (s : codex_state) : codex_state :=
  match accounts s !! index with
  | Some _ => with_accounts (alter (set_account_auth auth) index (accounts s)) s
  | None => with_legacy auth s
  end.

(** [cr_auth] is not in the code: the state the credential was read from. *)
(* src/src/codex_provider.go codexCredential *)
Record codexCredential := mkCredential {
  cr_index : nat; cr_token : string; cr_accountID : string; cr_chatgpt : bool; cr_auth : CodexAuthState;
}.

(* src/src/codex_provider.go CodexProvider.credentialAtLocked *)
(* src/src/codex_provider.go CodexProvider.selectedCredential *)
Definition credentialAt (env : codex_env) (index : nat) (s : codex_state) : codexCredential :=
  let auth := auth_at index s in
  if Codex.isAPIKeyMode (xa_Mode auth) then
    match from_store env "codex/api_key" with
    | Some value => mkCredential index value "" false auth
    | None =>
      match Codex.resolveCodexAPIKey parse (xe_key env) (Some auth) (xe_official env) with
      | Ok (Some (key, _)) => mkCredential index key "" false auth
      | _ => mkCredential index "" "" false auth
      end
    end
  else
    match from_store env "codex/access_token" with
    | Some value => mkCredential index value (xa_AccountID auth) true auth
    | None => mkCredential index (xa_AccessToken auth) (xa_AccountID auth) true auth
    end.

(** [fresh] is what [loadConfig] gives. *)
(* src/src/codex_provider.go CodexProvider.reloadTokenFromDisk *)
Definition reloadTokenFromDisk (fresh : option CodexProvider) (s : codex_state) : codex_state :=
  match fresh with
  | None => s
  | Some fresh =>
    match activeAccount s with
    | Some current =>
      match List.find (λ c, String.eqb (cxa_Label c) (cxa_Label current)
                            && negb (String.eqb (xa_AccessToken (cxa_Auth c)) "")) (elems (cx_Accounts fresh)) with
      | Some candidate => set_auth (cxa_Auth candidate) s
      | None => s
      end
    | None => if String.eqb (xa_AccessToken (cx_Auth fresh)) "" then s else with_legacy (cx_Auth fresh) s
    end
  end.

(* src/src/codex_provider.go CodexProvider.reloadFromOfficialStore *)
Definition reloadFromOfficialStore (env : codex_env) (s : codex_state) : codex_state :=
  let auth := authState s in
  if negb (String.eqb (xa_AccessToken auth) "") then s
  else
    match Codex.loadOfficialCodexAuth parse (xe_official env) with
    | Ok (Some o) =>
      if String.eqb (xa_AccessToken o) "" then s
      else set_auth (Codex.with_mode "chatgpt"
             (Codex.with_tokens (xa_AccessToken o) (xa_RefreshToken o) (xa_ExpiresAt o) (xa_AccountID o) auth)) s
    | _ => s
    end.

Definition auth_required (message : string) : perr :=
  newProviderError ProviderErrorAuthRequired StatusUnauthorized message.

(** What one round over the accounts meets. *)
Record round := mkRound {
  rd_now : Z;                         (* [time.Now().Unix()] of [EnsureAuthenticated] *)
  rd_fresh : option CodexProvider;    (* the configuration file *)
  rd_refresh : nat → http_answer;     (* the proactive refresh *)
  rd_saved : bool;
  rd_admit : Time; rd_report : Time;  (* the breaker's clock *)
  rd_upstream : nat → upstream;       (* the two requests *)
  rd_forced : nat → http_answer;      (* the refresh after a 401 *)
  rd_forced_now : Z; rd_forced_saved : bool;
  rd_mark : Z; rd_clock : nat → Z;    (* the rotation *)
  rd_cuts : list string; rd_chatID : string; rd_created : Z;
}.

(** The token of the account is loaded when it is missing, and completed from its own
    claims. *)
(* src/src/codex_provider.go:268-282 CodexProvider.EnsureAuthenticated *)
Definition load_token (env : codex_env) (w : round) (s : codex_state) : codex_state * option perr :=
  let s := if String.eqb (xa_AccessToken (authState s)) "" then reloadTokenFromDisk (rd_fresh w) s else s in
  let s := if String.eqb (xa_AccessToken (authState s)) "" && (length (accounts s) <=? 1)%nat
           then reloadFromOfficialStore env s else s in
  let auth := authState s in
  if String.eqb (xa_AccessToken auth) "" then (s, Some (auth_required "no Codex token; run 'auth codex'"))
  else
    let account := if String.eqb (xa_AccountID auth) "" then extractAccountIDFromJWT parse (xa_AccessToken auth)
                   else xa_AccountID auth in
    let expires := if (xa_ExpiresAt auth =? 0)%Z then extractJWTExpiry parse (xa_AccessToken auth)
                   else xa_ExpiresAt auth in
    (set_auth (Codex.with_tokens (xa_AccessToken auth) (xa_RefreshToken auth) expires account auth) s, None).

(* src/src/codex_provider.go CodexProvider.EnsureAuthenticated *)
Definition EnsureAuthenticated (env : codex_env) (w : round) (s : codex_state) : codex_state * option perr :=
  let s := fix_cursor s in
  if Codex.isAPIKeyMode (xa_Mode (authState s)) then
    if negb (String.eqb (cr_token (credentialAt env (xs_cursor s) s)) "") then (s, None)
    else (s, Some (auth_required "no Codex API key configured"))
  else
    match from_store env "codex/access_token" with
    | Some value =>
      let expiresAt := extractJWTExpiry parse value in
      if (0 <? expiresAt)%Z && (expiresAt - rd_now w <=? 300)%Z
      then (s, Some (auth_required "Codex authentication requires reconnection"))
      else (s, None)
    | None =>
      let '(s, e) := load_token env w s in
      match e with
      | Some e => (s, Some e)
      | None =>
        let auth := authState s in
        if (0 <? xa_ExpiresAt auth)%Z && (xa_ExpiresAt auth - rd_now w <=? 300)%Z then
          let '(auth, r, _) := Codex.codexRefreshToken parse (rd_refresh w) (rd_now w) (rd_saved w) auth in
          let s := set_auth auth s in
          match r with
          | Ok _ => (s, None)
          | Err _ =>
            if (xa_ExpiresAt auth <=? rd_now w)%Z
            then (s, Some (auth_required "Codex token expired and refresh failed")) else (s, None)
          end
        else (s, None)
      end
    end.

Inductive forced_error := InvalidIndex | NoKeyRefresh | RefreshError (e : refresh_error).

(* src/src/codex_provider.go CodexProvider.forceRefreshAccount *)
Definition forceRefreshAccount (w : round) (index : nat) (s : codex_state) : codex_state * option forced_error :=
  if negb (bool_decide (accounts s = [])) && (length (accounts s) <=? index)%nat then (s, Some InvalidIndex)
  else
    let auth := auth_at index s in
    if Codex.isAPIKeyMode (xa_Mode auth) then (s, Some NoKeyRefresh)
    else
      let '(auth, r, _) := Codex.codexRefreshToken parse (rd_forced w) (rd_forced_now w) (rd_forced_saved w) auth in
      (set_auth_at index auth s, match r with Ok _ => None | Err e => Some (RefreshError e) end).

(* src/src/codex_provider.go CodexProvider.Capabilities *)
Definition Capabilities (s : codex_state) : list string :=
  if Codex.isAPIKeyMode (xa_Mode (authState (fix_cursor s)))
  then [CapabilityChat; CapabilityResponses; CapabilityEmbeddings] else [CapabilityChat; CapabilityResponses].

(* src/src/codex_provider.go CodexProvider.Health *)
Definition codex_Health (env : codex_env) (now : Z) (s : codex_state) : Provider.Health :=
  let auth := authState (fix_cursor s) in
  if Codex.isAPIKeyMode (xa_Mode auth) then
    mkHealth match Codex.resolveCodexAPIKey parse (xe_key env) (Some auth) (xe_official env) with
             | Ok (Some _) => true | _ => false end false "" zeroTime
  else
    mkHealth (negb (String.eqb (xa_AccessToken auth) "")
              && (if (0 <? xa_ExpiresAt auth)%Z then (now <? xa_ExpiresAt auth)%Z else true))
      (negb (String.eqb (xa_RefreshToken auth) "")) "" zeroTime.

(** ** Requests *)

(** A request sent upstream: its address, its credential, and the headers' kind
    ([setChatGPTHeaders] or [setPlatformHeaders]). *)
(* src/src/codex_provider.go setChatGPTHeaders *)
(* src/src/codex_provider.go setPlatformHeaders *)
Record codex_call := mkCodexCall {
  xc_url : string; xc_token : string; xc_account : string; xc_chatgpt : bool; xc_index : nat;
  xc_auth : CodexAuthState;
}.

(** The body of the upstream request, whether the client wants a stream, and whether it
    wants the usage in it. *)
(* src/src/codex_provider.go:424-445 CodexProvider.ProxyRequest *)
Definition build_request (chatgpt native : bool) (body : string) : result (string * bool * bool) error :=
  match chatgpt, native with
  | true, true =>
    let? '(j, stream) := buildChatGPTNativeResponsesRequest parse visit body in Ok (marshal j, stream, false)
  | true, false =>
    let? '(j, usage) := buildChatGPTCodexRequest parse raw_text body in
    Ok (marshal j, isStreamingRequest parse body, usage)
  | false, true =>
    let? '(j, stream) := buildPlatformNativeResponsesRequest parse body in Ok (marshal j, stream, false)
  | false, false =>
    let? '(j, usage) := buildPlatformResponsesRequest parse raw_text visit body in
    Ok (marshal j, isStreamingRequest parse body, usage)
  end.

(** The calls made so far, in order, and how a part of the loop ended. *)
Inductive sent (A : Type) := Done (s : codex_state) (calls : list codex_call) (out : A)
                           | Failed (s : codex_state) (calls : list codex_call) (e : perr).
Arguments Done {_}.
Arguments Failed {_}.

(** The loop over [authAttempt]: a 401 of the ChatGPT service refreshes the token and
    asks a second time.  The requests carry no Idempotency-Key. *)
(* src/src/codex_provider.go:452-489 CodexProvider.ProxyRequest *)
Fixpoint auth_loop (rounds attempt : nat) (env : codex_env) (w : round) (url : string)
    (c : codexCredential) (calls : list codex_call) (s : codex_state) : sent (option http_response) :=
  match rounds with
  | O => Done s calls None
  | S rounds =>
    let call := mkCodexCall url (cr_token c) (cr_accountID c) (cr_chatgpt c) (cr_index c) (cr_auth c) in
    let calls := calls ++ [call] in
    match snd (send "POST" false true (rd_upstream w attempt)) with
    | Err _ =>
      Failed (with_breaker (onFailure (rd_report w) (xs_breaker s)) s) calls
        (newProviderError ProviderErrorTransport StatusBadGateway "Codex upstream request failed")
    | Ok response =>
      if (r_StatusCode response =? StatusUnauthorized)%Z && cr_chatgpt c && (attempt =? 0)%nat then
        let '(s, e) := forceRefreshAccount w (cr_index c) s in
        match e with
        | Some _ => Failed s calls (auth_required "Codex authentication expired")
        | None =>
          let refreshed := credentialAt env (cr_index c) s in
          auth_loop rounds (S attempt) env w url
            (mkCredential (cr_index c) (cr_token refreshed) (cr_accountID refreshed) (cr_chatgpt c)
               (cr_auth refreshed)) calls s
        end
      else Done s calls (Some response)
    end
  end.

(** Embeddings, with an API key only. *)
(* src/src/codex_provider.go CodexProvider.proxyClassic *)
Definition proxyClassic (w : round) (c : codexCredential) (s : codex_state)
    : codex_state * list codex_call * (list action * option perr) :=
  let calls := [mkCodexCall (defaultPlatformBaseURL +:+ "/embeddings") (cr_token c) "" false (cr_index c) (cr_auth c)] in
  match snd (send "POST" false true (rd_upstream w 0)) with
  | Err _ =>
    (with_breaker (onFailure (rd_report w) (xs_breaker s)) s, calls,
     ([], Some (newProviderError ProviderErrorTransport StatusBadGateway "Platform upstream request failed")))
  | Ok response =>
    (with_breaker (report (rd_report w) (r_StatusCode response) (xs_breaker s)) s, calls,
     streamResponse (rd_cuts w) response)
  end.

(** How one round over the accounts ends: with an answer for the client, or with the
    next account. *)
Inductive round_end := Answer (out : go_outcome (list action * option perr)) | NextAccount.

Definition failing (e : perr) : round_end := Answer (Returns ([], Some e)).

(* src/src/codex_provider.go:405-511 CodexProvider.ProxyRequest *)
Definition account_round (env : codex_env) (maxAccountAttempts : nat) (w : round) (body capability : string)
    (s : codex_state) : codex_state * list codex_call * round_end :=
  let '(s, e) := EnsureAuthenticated env w s in
  match e with
  | Some e => (s, [], failing e)
  | None =>
    let '(cb, admitted) := canExecute (rd_admit w) (xs_breaker s) in
    let s := with_breaker cb s in
    if negb admitted
    then (s, [], failing (newProviderError ProviderErrorUnavailable StatusServiceUnavailable
                            "Codex circuit breaker is open"))
    else
      let c := credentialAt env (xs_cursor s) s in
      if String.eqb (cr_token c) "" then (s, [], failing (auth_required "Codex credential is empty"))
      else if String.eqb capability CapabilityEmbeddings then
        if cr_chatgpt c
        then (s, [], failing (newProviderError ProviderErrorUnsupported StatusBadRequest
                                "embeddings require OpenAI Platform API-key mode"))
        else let '(s, calls, out) := proxyClassic w c s in (s, calls, Answer (Returns out))
      else if negb (String.eqb capability CapabilityChat) && negb (String.eqb capability CapabilityResponses)
      then (s, [], failing (newProviderError ProviderErrorUnsupported StatusBadRequest "unsupported Codex capability"))
      else
        let native := String.eqb capability CapabilityResponses in
        let url := if cr_chatgpt c then chatGPTBaseURL (xs_cfg s) +:+ "responses"
                   else defaultPlatformBaseURL +:+ "/responses" in
        match build_request (cr_chatgpt c) native body with
        | Err e => (s, [], failing (newProviderError ProviderErrorInvalidRequest StatusBadRequest "build upstream request"))
        | Ok (_, clientWantsStream, includeUsage) =>
          match auth_loop 2 0 env w url c [] s with
          | Failed s calls e => (s, calls, failing e)
          | Done s calls None =>
            (s, calls, failing (newProviderError ProviderErrorTransport StatusBadGateway "Codex returned no response"))
          | Done s calls (Some response) =>
            let '(s, advanced) :=
              match isAccountLimitSignal response with
              | Some _ =>
                if (1 <? maxAccountAttempts)%nat then
                  let '(l, cursor, advanced) :=
                    advanceFrom (rd_mark w) (rd_clock w) (cooldownSeconds (cx_AccountCooldownSeconds (xs_cfg s)))
                      (Z.of_nat (cr_index c)) (xs_cursor s) (accounts s) in
                  (with_cursor cursor (with_accounts l s), advanced)
                else (s, false)
              | None => (s, false)
              end in
            if advanced then (s, calls, NextAccount)
            else
              let s := with_breaker (report (rd_report w) (r_StatusCode response) (xs_breaker s)) s in
              (s, calls, Answer
                (if native then handleNativeResponsesAPIResponse parse raw_text (rd_cuts w) response clientWantsStream (cr_chatgpt c)
                 else handleResponsesAPIResponse parse marshal float_to_int (rd_chatID w) (rd_created w)
                        response clientWantsStream (cr_chatgpt c) includeUsage))
          end
        end
  end.

Fixpoint rounds_loop (rounds n : nat) (env : codex_env) (maxAccountAttempts : nat) (world : nat → round)
    (body capability : string) (s : codex_state)
    : codex_state * list (list codex_call) * go_outcome (list action * option perr) :=
  match rounds with
  | O => (s, [], Returns ([], Some (newProviderError ProviderErrorRateLimit StatusTooManyRequests
                                      "all Codex accounts are rate limited")))
  | S rounds =>
    let '(s, calls, e) := account_round env maxAccountAttempts (world n) body capability s in
    match e with
    | Answer out => (s, [calls], out)
    | NextAccount =>
      let '(s, calls', out) := rounds_loop rounds (S n) env maxAccountAttempts world body capability s in
      (s, calls :: calls', out)
    end
  end.

(** The requests sent are listed round by round. *)
(* src/src/codex_provider.go CodexProvider.ProxyRequest *)
Definition ProxyRequest (env : codex_env) (world : nat → round) (body capability : string) (s : codex_state)
    : codex_state * list (list codex_call) * go_outcome (list action * option perr) :=
  let maxAccountAttempts := Nat.max 1 (length (accounts s)) in
  rounds_loop maxAccountAttempts 0 env maxAccountAttempts world body capability s.

(** ** What the steps of a request keep *)

(** Nothing but credentials changes: the address, the marks, the cursor. *)
Record same_pool (s s' : codex_state) : Prop := {
  sp_url : cx_ChatGPTBaseURL (xs_cfg s') = cx_ChatGPTBaseURL (xs_cfg s);
  sp_seconds : cx_AccountCooldownSeconds (xs_cfg s') = cx_AccountCooldownSeconds (xs_cfg s);
  sp_marks : LastLimitedAt <$> accounts s' = LastLimitedAt <$> accounts s;
  sp_cursor : xs_cursor s' = xs_cursor s;
}.

#[export] Instance same_pool_preorder : PreOrder same_pool.
Proof.
  split; [by intros s; constructor|].
  intros s1 s2 s3 [] []. constructor; congruence.
Qed.

Lemma same_pool_length s s' : same_pool s s' → length (accounts s') = length (accounts s).
Proof. intros [_ _ Hm _]. apply (f_equal length) in Hm. by rewrite !length_fmap in Hm. Qed.

Lemma accounts_with_accounts l s : accounts s ≠ [] → accounts (with_accounts l s) = l.
Proof. unfold accounts, with_accounts. simpl. by destruct (cx_Accounts (xs_cfg s)). Qed.

Lemma same_pool_breaker cb s : same_pool s (with_breaker cb s).
Proof. by constructor. Qed.
Lemma same_pool_legacy auth s : same_pool s (with_legacy auth s).
Proof. by constructor. Qed.

Lemma same_pool_set_auth_at index auth s : same_pool s (set_auth_at index auth s).
Proof.
  unfold set_auth_at. destruct (accounts s !! index) as [a|] eqn:Ha; [|apply same_pool_legacy].
  constructor; try done. rewrite accounts_with_accounts by (by intros E; rewrite E in Ha).
  apply list_eq. intros i. rewrite !list_lookup_fmap.
  destruct (decide (i = index)) as [->|Hi]; [|by rewrite list_lookup_alter_ne].
  rewrite list_lookup_alter_eq. by destruct (accounts s !! index).
Qed.
Lemma same_pool_set_auth auth s : same_pool s (set_auth auth s).
Proof. apply same_pool_set_auth_at. Qed.

Lemma same_pool_reload fresh s : same_pool s (reloadTokenFromDisk fresh s).
Proof.
  unfold reloadTokenFromDisk. repeat case_match; try done; try apply same_pool_set_auth; apply same_pool_legacy.
Qed.
Lemma same_pool_official env s : same_pool s (reloadFromOfficialStore env s).
Proof. unfold reloadFromOfficialStore. repeat case_match; try done; apply same_pool_set_auth. Qed.

Lemma same_pool_load env w s s' e : load_token env w s = (s', e) → same_pool s s'.
Proof.
  unfold load_token. set (s1 := if String.eqb (xa_AccessToken (authState s)) "" then reloadTokenFromDisk (rd_fresh w) s else s).
  assert (same_pool s s1) as H1 by (subst s1; case_match; [apply same_pool_reload|done]).
  set (s2 := if String.eqb (xa_AccessToken (authState s1)) "" && _ then reloadFromOfficialStore env s1 else s1).
  assert (same_pool s s2) as H2.
  { etrans; [exact H1|]. subst s2. case_match; [apply same_pool_official|done]. }
  case_match; intros [= <- <-]; [done|]. etrans; [exact H2|apply same_pool_set_auth].
Qed.

Lemma same_pool_ensure env w s s' e : EnsureAuthenticated env w s = (s', e) → same_pool (fix_cursor s) s'.
Proof.
  unfold EnsureAuthenticated. case_match; [by case_match; intros [= <- <-]|].
  case_match; [by case_match; intros [= <- <-]|].
  destruct (load_token _ _ _) as [s1 [e1|]] eqn:Hl; apply same_pool_load in Hl; [by intros [= <- <-]|].
  case_match; [|by intros [= <- <-]].
  destruct (Codex.codexRefreshToken _ _ _ _ _) as [[auth r] n].
  assert (same_pool (fix_cursor s) (set_auth auth s1)) as Hs by (etrans; [exact Hl|apply same_pool_set_auth]).
  repeat case_match; by intros [= <- <-].
Qed.

Lemma same_pool_force w index s s' e : forceRefreshAccount w index s = (s', e) → same_pool s s'.
Proof.
  unfold forceRefreshAccount. repeat case_match; intros; simplify_eq; try done; apply same_pool_set_auth_at.
Qed.

(** ** Credentials *)

(** A call that respects the two domains: a ChatGPT token goes to the ChatGPT service
    only, an API key to the Platform only, and each is what its source says. *)
Definition in_domain (env : codex_env) (base : string) (call : codex_call) : Prop :=
  let auth := xc_auth call in
  if xc_chatgpt call then
    Codex.isAPIKeyMode (xa_Mode auth) = false
    ∧ xc_token call = default (xa_AccessToken auth) (from_store env "codex/access_token")
    ∧ xc_url call = base +:+ "responses"
  else
    Codex.isAPIKeyMode (xa_Mode auth) = true
    ∧ (Some (xc_token call) = from_store env "codex/api_key"
       ∨ ∃ source, Codex.resolveCodexAPIKey parse (xe_key env) (Some auth) (xe_official env) = Ok (Some (xc_token call, source)))
    ∧ (xc_url call = defaultPlatformBaseURL +:+ "/responses" ∨ xc_url call = defaultPlatformBaseURL +:+ "/embeddings").

(** A credential as [credentialAt] makes it, with a token. *)
Definition good_credential (env : codex_env) (c : codexCredential) : Prop :=
  if cr_chatgpt c then
    Codex.isAPIKeyMode (xa_Mode (cr_auth c)) = false
    ∧ cr_token c = default (xa_AccessToken (cr_auth c)) (from_store env "codex/access_token")
  else
    Codex.isAPIKeyMode (xa_Mode (cr_auth c)) = true
    ∧ (Some (cr_token c) = from_store env "codex/api_key"
       ∨ ∃ source, Codex.resolveCodexAPIKey parse (xe_key env) (Some (cr_auth c)) (xe_official env) = Ok (Some (cr_token c, source))).

Lemma credentialAt_index env index s : cr_index (credentialAt env index s) = index.
Proof. unfold credentialAt. by repeat case_match. Qed.

Lemma credentialAt_chatgpt env index s :
  cr_chatgpt (credentialAt env index s) = negb (Codex.isAPIKeyMode (xa_Mode (auth_at index s))).
Proof. unfold credentialAt. by repeat case_match. Qed.

Lemma credentialAt_good env index s :
  cr_chatgpt (credentialAt env index s) = true ∨ cr_token (credentialAt env index s) ≠ "" →
  good_credential env (credentialAt env index s).
Proof.
  unfold good_credential, credentialAt. set (auth := auth_at index s).
  destruct (Codex.isAPIKeyMode (xa_Mode auth)) eqn:Hmode.
  - destruct (from_store env "codex/api_key") as [v|] eqn:Hv; simpl; [intros _; eauto|].
    destruct (Codex.resolveCodexAPIKey _ _ _ _) as [[[key source]|]|] eqn:Hk; simpl; [intros _|intros []; done..].
    split; [done|]. right. by exists source.
  - destruct (from_store env "codex/access_token") as [v|] eqn:Hv; simpl; by rewrite ?Hv.
Qed.

(** A forced refresh that succeeds leaves the account in its ChatGPT mode. *)
Lemma force_keeps_mode w index s s' :
  forceRefreshAccount w index s = (s', None) →
  Codex.isAPIKeyMode (xa_Mode (auth_at index s')) = false.
Proof.
  unfold forceRefreshAccount. destruct (_ && _) eqn:Hidx; [done|].
  destruct (Codex.isAPIKeyMode (xa_Mode (auth_at index s))) eqn:Hmode; [done|].
  destruct (Codex.codexRefreshToken _ _ _ _ _) as [[auth [[]|e]] n] eqn:Hr; [|done]. intros [= <-].
  assert (xa_Mode auth = xa_Mode (auth_at index s)) as Hm.
  { by destruct (Codex.refresh_promised _ _ _ _ _ _ _ _ Hr) as (_ & _ & _ & _ & ->). }
  unfold set_auth_at, auth_at in *. destruct (accounts s !! index) as [a|] eqn:Ha.
  - rewrite accounts_with_accounts by (by intros E; rewrite E in Ha).
    rewrite list_lookup_alter_eq, Ha. simpl. by rewrite Hm.
  - replace (accounts (with_legacy auth s)) with (accounts s) by done. rewrite Ha. simpl. by rewrite Hm.
Qed.

(** ** One round, and the loop *)

Definition url_for (base : string) (chatgpt : bool) : string :=
  if chatgpt then base +:+ "responses" else defaultPlatformBaseURL +:+ "/responses".

(** The calls a part of the loop adds: of one account, each in its domain. *)
Definition added (env : codex_env) (base : string) (index bound : nat) (calls calls' : list codex_call) : Prop :=
  ∃ new, calls' = calls ++ new ∧ length new ≤ bound ∧
         Forall (λ call, xc_index call = index ∧ in_domain env base call) new.

Lemma added_nil env base index bound calls : added env base index bound calls calls.
Proof. exists []. rewrite app_nil_r. split_and!; [done|simpl; lia|constructor]. Qed.

Lemma added_cons env base index bound calls calls' call :
  xc_index call = index → in_domain env base call →
  added env base index bound (calls ++ [call]) calls' → added env base index (S bound) calls calls'.
Proof.
  intros Hi Hd (new & -> & Hlen & Hnew). exists (call :: new). rewrite <- app_assoc.
  split_and!; [done|simpl; lia|by constructor].
Qed.

Lemma call_in_domain env base c :
  good_credential env c →
  in_domain env base (mkCodexCall (url_for base (cr_chatgpt c)) (cr_token c) (cr_accountID c) (cr_chatgpt c)
                        (cr_index c) (cr_auth c)).
Proof.
  unfold good_credential, in_domain, url_for. simpl. destruct (cr_chatgpt c); [naive_solver|].
  intros (H1 & H2). split_and!; [done|done|by left].
Qed.

Definition auth_outcome (env : codex_env) (base : string) (index bound : nat) (calls : list codex_call)
    (s : codex_state) (r : sent (option http_response)) : Prop :=
  match r with
  | Done s' calls' _ | Failed s' calls' _ => same_pool s s' ∧ added env base index bound calls calls'
  end.

Lemma auth_loop_spec rounds attempt env w base c calls s :
  good_credential env c →
  auth_outcome env base (cr_index c) rounds calls s
    (auth_loop rounds attempt env w (url_for base (cr_chatgpt c)) c calls s).
Proof.
  revert attempt c calls s. induction rounds as [|rounds IH]; intros attempt c calls s Hgood; simpl.
  { split; [done|apply added_nil]. }
  pose proof (call_in_domain env base c Hgood) as Hcall.
  set (call := mkCodexCall _ _ _ _ _ _) in *.
  assert (added env base (cr_index c) (S rounds) calls (calls ++ [call])) as Hadd.
  { apply (added_cons _ _ _ _ _ _ call); [done|done|apply added_nil]. }
  destruct (snd (send _ _ _ _)) as [response|e]; [|by split; [apply same_pool_breaker|]].
  destruct (_ && _ && _) eqn:H401; [|by split].
  apply andb_true_iff in H401 as [[_ Hchat]%andb_true_iff _].
  destruct (forceRefreshAccount w (cr_index c) s) as [s1 [e|]] eqn:Hforce.
  { split; [by eapply same_pool_force|done]. }
  set (refreshed := credentialAt env (cr_index c) s1).
  set (c' := mkCredential _ _ _ _ _).
  assert (cr_chatgpt refreshed = true) as Hr.
  { subst refreshed. rewrite credentialAt_chatgpt. by rewrite (force_keeps_mode _ _ _ _ Hforce). }
  assert (good_credential env c') as Hgood'.
  { pose proof (credentialAt_good env (cr_index c) s1 (or_introl Hr)) as Hg. fold refreshed in Hg.
    unfold good_credential in *. subst c'. simpl. rewrite Hr in Hg. by rewrite Hchat. }
  specialize (IH (S attempt) c' (calls ++ [call]) s1 Hgood'). change (cr_chatgpt c') with (cr_chatgpt c) in IH.
  change (cr_index c') with (cr_index c) in IH. apply same_pool_force in Hforce.
  destruct (auth_loop _ _ _ _ _ c' _ _) as [s' calls' out|s' calls' e]; destruct IH as [Hs Hn];
    (split; [by etrans|]); by apply (added_cons _ _ _ _ _ _ call).
Qed.

(** The pool after a round that goes on: the round's account is marked, the cursor has
    moved. *)
Definition round_pool (w : round) (s s' : codex_state) (e : round_end) : Prop :=
  match e with
  | Answer _ => True
  | NextAccount => ∃ s1 l cursor, same_pool (fix_cursor s) s1 ∧
      advanceFrom (rd_mark w) (rd_clock w) (cooldownSeconds (cx_AccountCooldownSeconds (xs_cfg s1)))
        (Z.of_nat (xs_cursor s1)) (xs_cursor s1) (accounts s1) = (l, cursor, true) ∧
      s' = with_cursor cursor (with_accounts l s1)
  end.

Lemma fix_cursor_accounts s : accounts (fix_cursor s) = accounts s.
Proof. unfold fix_cursor. by repeat case_decide. Qed.
Lemma fix_cursor_cfg s : xs_cfg (fix_cursor s) = xs_cfg s.
Proof. unfold fix_cursor. by repeat case_decide. Qed.
Lemma fix_cursor_in_range s : xs_cursor s < length (accounts s) → fix_cursor s = s.
Proof. intros. unfold fix_cursor. repeat case_decide; done || lia. Qed.

Lemma chatGPTBaseURL_same cfg cfg' :
  cx_ChatGPTBaseURL cfg' = cx_ChatGPTBaseURL cfg → chatGPTBaseURL cfg' = chatGPTBaseURL cfg.
Proof. unfold chatGPTBaseURL. by intros ->. Qed.

(** What a round sends, from the account under the cursor. *)
Definition round_calls (env : codex_env) (s : codex_state) (calls : list codex_call) : Prop :=
  length calls ≤ 2 ∧
  Forall (λ call, xc_index call = xs_cursor (fix_cursor s) ∧
                  in_domain env (chatGPTBaseURL (xs_cfg s)) call) calls.

Lemma round_calls_nil env s : round_calls env s [].
Proof. split; [simpl; lia|constructor]. Qed.

Lemma account_round_spec env m w body capability s s' calls e :
  account_round env m w body capability s = (s', calls, e) →
  round_calls env s calls ∧ round_pool w s s' e.
Proof.
  unfold account_round. destruct (EnsureAuthenticated env w s) as [s1 [e1|]] eqn:Hens.
  { intros [= <- <- <-]. split; [apply round_calls_nil|done]. }
  apply same_pool_ensure in Hens.
  destruct (canExecute _ _) as [cb []]; cbn [negb]; [|intros [= <- <- <-]; split; [apply round_calls_nil|done]].
  set (s2 := with_breaker cb s1). assert (same_pool (fix_cursor s) s2) as Hs2 by (etrans; [exact Hens|done]).
  change (xs_cursor s1) with (xs_cursor s2). set (c := credentialAt env (xs_cursor s2) s2).
  assert (cr_index c = xs_cursor s2) as Hi by apply credentialAt_index.
  destruct (String.eqb_spec (cr_token c) "") as [_|Htok]; [intros [= <- <- <-]; split; [apply round_calls_nil|done]|].
  pose proof (credentialAt_good env (xs_cursor s2) s2 (or_intror Htok)) as Hgood. fold c in Hgood.
  assert (chatGPTBaseURL (xs_cfg s2) = chatGPTBaseURL (xs_cfg s)) as Hbase.
  { apply chatGPTBaseURL_same. by rewrite (sp_url _ _ Hs2), fix_cursor_cfg. }
  case_match.
  { destruct (cr_chatgpt c) eqn:Hchat; [intros [= <- <- <-]; split; [apply round_calls_nil|done]|].
    destruct (proxyClassic w c s2) as [[s3 calls3] out] eqn:Hp. intros [= <- <- <-]. split; [|done].
    unfold proxyClassic in Hp. assert (calls3 = [mkCodexCall (defaultPlatformBaseURL +:+ "/embeddings")
      (cr_token c) "" false (cr_index c) (cr_auth c)]) as -> by (by case_match; simplify_eq).
    split; [simpl; lia|]. constructor; [|constructor]. simpl. rewrite Hi, (sp_cursor _ _ Hs2). split; [done|].
    unfold good_credential in Hgood. rewrite Hchat in Hgood. destruct Hgood as [H1 H2].
    split_and!; [done|done|by right]. }
  case_match; [intros [= <- <- <-]; split; [apply round_calls_nil|done]|].
  destruct (build_request _ _ _) as [[[b wants] usage]|]; [|intros [= <- <- <-]; split; [apply round_calls_nil|done]].
  pose proof (auth_loop_spec 2 0 env w (chatGPTBaseURL (xs_cfg s2)) c [] s2 Hgood) as Hloop.
  change (if cr_chatgpt c then _ else _) with (url_for (chatGPTBaseURL (xs_cfg s2)) (cr_chatgpt c)).
  assert (∀ calls', added env (chatGPTBaseURL (xs_cfg s2)) (cr_index c) 2 [] calls' → round_calls env s calls') as Hadd.
  { intros calls' (new & -> & Hlen & Hnew). split; [done|]. rewrite Hbase, Hi, (sp_cursor _ _ Hs2) in Hnew. exact Hnew. }
  destruct (auth_loop _ _ _ _ _ _ _ _) as [s3 calls3 [response|]|s3 calls3 e3]; destruct Hloop as [Hs3 Hn];
    [|intros [= <- <- <-]; by split; [apply Hadd|]..].
  assert (same_pool (fix_cursor s) s3) as Hs03 by (by etrans).
  destruct (isAccountLimitSignal response) as [reason|]; [|intros [= <- <- <-]; by split; [apply Hadd|]].
  destruct (1 <? m); [|intros [= <- <- <-]; by split; [apply Hadd|]].
  destruct (advanceFrom _ _ _ _ _ _) as [[l cursor] []] eqn:Hadv; intros [= <- <- <-];
    (split; [by apply Hadd|]); [|done].
  rewrite Hi, <- (sp_cursor _ _ Hs3) in Hadv. by exists s3, l, cursor.
Qed.

Lemma advanceFrom_moved now clock seconds failed cursor (l l' : list CodexAccount) cursor' :
  advanceFrom now clock seconds (Z.of_nat failed) cursor l = (l', cursor', true) → failed < length l.
Proof.
  unfold advanceFrom. destruct (Z.leb_spec (Z.of_nat (length l)) (Z.of_nat failed)); [|lia].
  rewrite orb_true_r. by intros.
Qed.

(** The rounds of a request: which account each one used, and what it sent. *)
Definition rounds_calls (env : codex_env) (s : codex_state) (used : list nat)
    (calls : list (list codex_call)) : Prop :=
  Forall2 (λ index cs, length cs ≤ 2 ∧
             Forall (λ call, xc_index call = index ∧ in_domain env (chatGPTBaseURL (xs_cfg s)) call) cs) used calls.

(** The pool and the cursor after a round that goes on. *)
Lemma next_round w s s' :
  round_pool w s s' NextAccount →
  chatGPTBaseURL (xs_cfg s') = chatGPTBaseURL (xs_cfg s)
  ∧ cooldownSeconds (cx_AccountCooldownSeconds (xs_cfg s')) = cooldownSeconds (cx_AccountCooldownSeconds (xs_cfg s))
  ∧ ∃ l, LastLimitedAt <$> l = LastLimitedAt <$> accounts s
         ∧ advanceFrom (rd_mark w) (rd_clock w) (cooldownSeconds (cx_AccountCooldownSeconds (xs_cfg s)))
             (Z.of_nat (xs_cursor (fix_cursor s))) (xs_cursor (fix_cursor s)) l = (accounts s', xs_cursor s', true).
Proof.
  intros (s1 & l & cursor & Hs1 & Hadv & ->). destruct Hs1 as [Hurl Hsec Hmarks Hcur].
  rewrite fix_cursor_cfg in Hurl, Hsec. rewrite fix_cursor_accounts in Hmarks.
  pose proof (advanceFrom_moved _ _ _ _ _ _ _ _ Hadv) as Hlt.
  assert (accounts s1 ≠ []) as Hne by (intros E; rewrite E in Hlt; simpl in Hlt; lia).
  split; [by apply chatGPTBaseURL_same|]. split; [by rewrite <- Hsec|].
  exists (accounts s1). split; [done|]. rewrite <- Hcur, <- Hsec.
  change (accounts (with_cursor cursor (with_accounts l s1))) with (accounts (with_accounts l s1)).
  rewrite accounts_with_accounts by done. exact Hadv.
Qed.

(** In a window of time shorter than the cooldown, an account that has been marked is
    not used again. *)
Lemma rounds_loop_spec env m world body capability lo hi rounds n s s' calls out :
  (0 < lo)%Z → (hi - lo < cooldownSeconds (cx_AccountCooldownSeconds (xs_cfg s)))%Z →
  (∀ k, n ≤ k < n + rounds → (lo ≤ rd_mark (world k) ≤ hi)%Z ∧ ∀ i, (lo ≤ rd_clock (world k) i ≤ hi)%Z) →
  rounds_loop rounds n env m world body capability s = (s', calls, out) →
  ∃ used, rounds_calls env s used calls ∧ NoDup used ∧
    (∀ first rest, used = first :: rest → first = xs_cursor (fix_cursor s) ∧
       ∀ i, i ∈ rest → ¬ resting lo hi (cooldownSeconds (cx_AccountCooldownSeconds (xs_cfg s))) (accounts s) i).
Proof.
  intros Hlo. revert n s s' calls out. induction rounds as [|rounds IH]; intros n s s' calls out Hwin Hworld; simpl.
  { intros [= <- <- <-]. exists []. split_and!; [constructor|constructor|done]. }
  destruct (account_round _ _ _ _ _ _) as [[s1 calls1] [answer|]] eqn:Hround;
    apply account_round_spec in Hround as [[Hlen Hcalls] Hpool].
  { intros [= <- <- <-]. exists [xs_cursor (fix_cursor s)].
    split_and!; [by constructor; [split|constructor]|apply NoDup_singleton|].
    intros first rest [= <- <-]. split; [done|]. by intros i ?%elem_of_nil. }
  destruct (next_round _ _ _ Hpool) as (Hbase & Hsec & l & Hmarks & Hadv).
  destruct (Hworld n ltac:(lia)) as [Hmark Hclock].
  set (seconds := cooldownSeconds (cx_AccountCooldownSeconds (xs_cfg s))) in *.
  destruct (advance_rests lo hi _ _ _ _ _ _ _ _ _ Hlo Hwin Hmark Hclock (advanceFrom_moved _ _ _ _ _ _ _ _ Hadv) Hadv)
    as (_ & Hkeep & Hfailed & Hmoved).
  destruct (Hmoved eq_refl) as [Hcur Hfresh].
  assert (fix_cursor s1 = s1) as Hfix by (by apply fix_cursor_in_range).
  destruct (rounds_loop rounds (S n) _ _ _ _ _ s1) as [[s2 calls2] out2] eqn:Hrest. intros [= <- <- <-].
  destruct (IH (S n) s1 s2 calls2 out2) as (used & Hused & Hnodup & Htail); [by rewrite Hsec| |done|].
  { intros k Hk. apply Hworld. lia. }
  rewrite Hsec in Htail. fold seconds in Htail. unfold rounds_calls in Hused. rewrite Hbase in Hused.
  assert (∀ i, i ∈ used → ¬ resting lo hi seconds (accounts s1) i) as Hnot.
  { destruct used as [|first rest]; [by intros i ?%elem_of_nil|]. destruct (Htail first rest eq_refl) as [-> Hr].
    intros i [->|Hi]%elem_of_cons; [by rewrite Hfix|by apply Hr]. }
  exists (xs_cursor (fix_cursor s) :: used). split_and!.
  - by constructor.
  - constructor; [|done]. intros Hin. by apply (Hnot _ Hin).
  - intros first rest [= <- <-]. split; [done|]. intros i Hi Hrest'. apply (Hnot i Hi), Hkeep.
    by apply (resting_marks _ _ _ (accounts s)).
Qed.

Lemma rounds_loop_domain env m world body capability rounds n s s' calls out :
  rounds_loop rounds n env m world body capability s = (s', calls, out) →
  length calls ≤ rounds ∧
  Forall (λ cs, length cs ≤ 2 ∧ Forall (in_domain env (chatGPTBaseURL (xs_cfg s))) cs) calls.
Proof.
  revert n s s' calls out. induction rounds as [|rounds IH]; intros n s s' calls out; simpl.
  { intros [= <- <- <-]. split; [simpl; lia|constructor]. }
  destruct (account_round _ _ _ _ _ _) as [[s1 calls1] e] eqn:Hround.
  apply account_round_spec in Hround as [[Hlen Hcalls] Hpool].
  assert (length calls1 ≤ 2 ∧ Forall (in_domain env (chatGPTBaseURL (xs_cfg s))) calls1) as Hfirst.
  { split; [done|]. eapply Forall_impl; [exact Hcalls|]. naive_solver. }
  destruct e as [answer|]; [intros [= <- <- <-]; split; [simpl; lia|by constructor]|].
  destruct (next_round _ _ _ Hpool) as (Hbase & _).
  destruct (rounds_loop rounds (S n) _ _ _ _ _ s1) as [[s2 calls2] out2] eqn:Hrest. intros [= <- <- <-].
  destruct (IH _ _ _ _ _ Hrest) as [Hn Hdomain]. rewrite Hbase in Hdomain.
  split; [simpl; lia|by constructor].
Qed.

(** C26. A request asks the upstream services at most twice per account, and no more
    rounds than there are accounts; a ChatGPT token (of the account, or of the secret
    store) is sent to the configured ChatGPT service only, an API key to the OpenAI
    Platform only: the two kinds of credentials never cross. *)
Theorem codex_credentials_stay_in_their_domain env world body capability s :
  let '(_, calls, _) := ProxyRequest env world body capability s in
  length calls ≤ Nat.max 1 (length (accounts s)) ∧
  Forall (λ cs, length cs ≤ 2 ∧ Forall (in_domain env (chatGPTBaseURL (xs_cfg s))) cs) calls.
Proof.
  unfold ProxyRequest. destruct (rounds_loop _ _ _ _ _ _ _ s) as [[s' calls] out] eqn:H.
  by eapply rounds_loop_domain.
Qed.

(** When a request lasts less than the cooldown of an account, each round uses an
    account that no earlier round used, so an account that reported a limit is not asked
    again for that request; the first account is the one under the cursor. *)
Theorem codex_tries_each_account_once env world body capability lo hi s s' calls out
    (Hpositive : (0 < lo)%Z)
    (Hwindow : (hi - lo < cooldownSeconds (cx_AccountCooldownSeconds (xs_cfg s)))%Z)
    (Hclock : ∀ k, (lo ≤ rd_mark (world k) ≤ hi)%Z ∧ ∀ i, (lo ≤ rd_clock (world k) i ≤ hi)%Z)
    (Hrun : ProxyRequest env world body capability s = (s', calls, out)) :
  ∃ used, NoDup used ∧ (∀ first, head used = Some first → first = xs_cursor (fix_cursor s)) ∧
    Forall2 (λ index cs, Forall (λ call, xc_index call = index) cs) used calls.
Proof.
  unfold ProxyRequest in Hrun.
  destruct (rounds_loop_spec _ _ _ _ _ lo hi _ _ _ _ _ _ Hpositive Hwindow (λ k _, Hclock k) Hrun)
    as (used & Hcalls & Hnodup & Hfirst).
  exists used. split_and!; [done| |].
  - intros first Hhead. destruct used as [|x rest]; [done|]. injection Hhead as <-. by destruct (Hfirst x rest).
  - eapply Forall2_impl; [exact Hcalls|]. intros index cs [_ Hcs]. eapply Forall_impl; [exact Hcs|]. naive_solver.
Qed.

(** ** Models *)

(* src/src/codex_provider.go codexKnownModels *)
Definition codexKnownModels : list string :=
  ["gpt-5.4-mini"; "gpt-5.3-codex"; "gpt-5.4"; "gpt-5.2-codex"; "gpt-5.1-codex-max"; "gpt-5.1-codex"; "gpt-5.2";
   "gpt-5.1"; "gpt-5-codex"; "gpt-5"; "gpt-oss-120b"; "gpt-oss-20b"; "gpt-5.1-codex-mini"; "gpt-5-codex-mini"].

(** The name an entry of the model map adds, if it is meant for Codex. *)
Definition mapped_name (x : string * ModelMapEntry) : option string :=
  let '(bareModel, prefixProvider, hasPrefix) := StripModelPrefix (fst x) in
  if negb (String.eqb (mm_Provider (snd x)) Codex) && (negb hasPrefix || negb (String.eqb prefixProvider Codex))
  then None else Some bareModel.

(** [mapped] are the entries of the model map in the order of the iteration. *)
(* src/src/codex_provider.go CodexProvider.knownModelList *)
Definition known_names (mapped : list (string * ModelMapEntry)) : list string :=
  foldl (λ names x, match mapped_name x with
                    | Some name => if bool_decide (name ∈ names) then names else names ++ [name]
                    | None => names
                    end) codexKnownModels mapped.
(* src/src/codex_provider.go CodexProvider.knownModelList *)
(* src/src/codex_provider.go CodexProvider.fetchModels *)
Definition knownModelList (now : Z) (mapped : list (string * ModelMapEntry)) : ModelList :=
  mkModelList "list" ((λ id, plain_model id "model" now "openai") <$> known_names mapped).

(* src/src/codex_provider.go CodexProvider.ListModels *)
Definition codex_ListModels (env : codex_env) (w : round) (t1 t2 t3 : Time) (now : Z)
    (mapped : list (string * ModelMapEntry)) (s : codex_state) : codex_state * result ModelList perr :=
  let '(s, e) := EnsureAuthenticated env w s in
  match e with
  | Some e => (s, Err e)
  | None =>
    let '(cache, r) := ModelCache.GetOrFetch t1 t2 t3 (Ok (knownModelList now mapped)) (xs_cache s) in
    (mkCodexState (xs_cfg s) (xs_cursor s) (xs_breaker s) cache, r)
  end.

(* src/src/codex_provider.go CodexProvider.InvalidateModelCache *)
Definition codex_Invalidate (s : codex_state) : codex_state :=
  mkCodexState (xs_cfg s) (xs_cursor s) (xs_breaker s) (ModelCache.Invalidate (xs_cache s)).

(** The list names every known model and every mapped one, once each, whatever the
    order of the iteration over the map. *)
Theorem codex_list_is_complete mapped :
  NoDup (known_names mapped) ∧
  ∀ id, id ∈ known_names mapped ↔ id ∈ codexKnownModels ∨ ∃ x, x ∈ mapped ∧ mapped_name x = Some id.
Proof.
  unfold known_names. assert (NoDup codexKnownModels) as Hbase by (apply (bool_decide_unpack _); vm_compute; exact I).
  generalize dependent codexKnownModels. induction mapped as [|x mapped IH]; intros base Hbase; simpl.
  { split; [done|]. intros id. split; [by left|]. intros [?|(x & Hx%elem_of_nil & _)]; done. }
  destruct (mapped_name x) as [name|] eqn:Hname.
  - destruct (bool_decide (name ∈ base)) eqn:Hin; reflect_bools.
    + destruct (IH base Hbase) as [H1 H2]. split; [done|]. intros id. rewrite H2.
      split; [intros [?|(y & ? & ?)]; [by left|right; exists y; by rewrite elem_of_cons; eauto]|].
      intros [?|(y & [->|?]%elem_of_cons & ?)]; [by left|left; congruence|right; by exists y].
    + destruct (IH (base ++ [name])) as [H1 H2]; [by apply NoDup_app_snoc|]. split; [done|]. intros id. rewrite H2.
      rewrite elem_of_app, list_elem_of_singleton.
      split; [intros [[?| ->]|(y & ? & ?)]; [by left|right; exists x; by rewrite elem_of_cons; eauto
        |right; exists y; by rewrite elem_of_cons; eauto]|].
      intros [?|(y & [->|?]%elem_of_cons & ?)]; [by left; left|left; right; congruence|right; by exists y].
  - destruct (IH base Hbase) as [H1 H2]. split; [done|]. intros id. rewrite H2.
    split; [intros [?|(y & ? & ?)]; [by left|right; exists y; by rewrite elem_of_cons; eauto]|].
    intros [?|(y & [->|?]%elem_of_cons & ?)]; [by left|congruence|right; by exists y].
Qed.

(** ** Health and admission *)

Lemma auth_at_set index auth s : auth_at index (set_auth_at index auth s) = auth.
Proof.
  unfold auth_at, set_auth_at. destruct (accounts s !! index) as [a|] eqn:Ha.
  - rewrite accounts_with_accounts by (by intros E; rewrite E in Ha). by rewrite list_lookup_alter_eq, Ha.
  - change (accounts (with_legacy auth s)) with (accounts s). by rewrite Ha.
Qed.
Lemma authState_set auth s : authState (set_auth auth s) = auth.
Proof.
  pose proof (auth_at_set (xs_cursor s) auth s) as H. rewrite <- H at 2.
  unfold authState, activeAccount, auth_at. change (set_auth auth s) with (set_auth_at (xs_cursor s) auth s).
  by rewrite (sp_cursor _ _ (same_pool_set_auth_at (xs_cursor s) auth s)).
Qed.

(** An account with a token of its own and a known expiry that [Health] reports as
    authenticated is accepted by [EnsureAuthenticated] at the same instant, even when
    the proactive refresh fails. *)
Theorem healthy_codex_account_is_accepted env w s
    (Hstore : from_store env "codex/access_token" = None)
    (Hmode : Codex.isAPIKeyMode (xa_Mode (authState (fix_cursor s))) = false)
    (Hexpiry : (0 < xa_ExpiresAt (authState (fix_cursor s)))%Z)
    (Hsaved : rd_saved w = true)
    (Hhealth : Authenticated (codex_Health env (rd_now w) s) = true) :
  snd (EnsureAuthenticated env w s) = None.
Proof.
  unfold codex_Health in Hhealth. rewrite Hmode in Hhealth. cbn [Authenticated] in Hhealth.
  rewrite (proj2 (Z.ltb_lt _ _) Hexpiry) in Hhealth. apply andb_true_iff in Hhealth as [Htok Hlive].
  apply negb_true_iff in Htok. apply Z.ltb_lt in Hlive.
  unfold EnsureAuthenticated. rewrite Hmode, Hstore.
  unfold load_token. rewrite !Htok. cbn [andb]. rewrite !Htok.
  set (s0 := fix_cursor s) in *. rewrite (proj2 (Z.eqb_neq _ _)) by lia.
  set (auth := Codex.with_tokens _ _ _ _ _). rewrite authState_set.
  assert (xa_ExpiresAt auth = xa_ExpiresAt (authState s0)) as Hexp by done. rewrite Hexp.
  destruct (_ && _); [|done].
  destruct (Codex.codexRefreshToken _ _ _ _ _) as [[auth' [u|e]] n] eqn:Hr; [done|].
  pose proof (Codex.refresh_promised _ _ _ _ _ _ _ _ Hr) as (_ & _ & Hout).
  rewrite Hsaved in Hr. assert (e ≠ SaveFailed) as Hne by (intros ->; by apply Codex.saved_refresh in Hr).
  assert (auth' = auth) as -> by (by destruct e).
  rewrite Hexp, (proj2 (Z.leb_gt _ _)) by lia. done.
Qed.

(** A token that only the secret store holds lets every request through, and leaves the
    account unauthenticated for [Health], on which routing relies. *)
Theorem stored_token_is_unhealthy env w now s value
    (Hstore : from_store env "codex/access_token" = Some value)
    (Hlive : (extractJWTExpiry parse value = 0 ∨ rd_now w + 300 < extractJWTExpiry parse value)%Z)
    (Hmode : Codex.isAPIKeyMode (xa_Mode (authState (fix_cursor s))) = false)
    (Hempty : xa_AccessToken (authState (fix_cursor s)) = "") :
  snd (EnsureAuthenticated env w s) = None ∧ Authenticated (codex_Health env now s) = false.
Proof.
  unfold EnsureAuthenticated, codex_Health. rewrite Hmode, Hstore, Hempty. split; [|done].
  destruct (_ && _) eqn:H; reflect_bools; [lia|done].
Qed.

End codex.

Module ExampleCodex.

Definition parse : string → option json := Responses.Example.parse.
Definition marshal : json → string := Responses.Example.marshal.
Definition raw_text : json → string := Responses.Example.raw_text.

Definition visit (m : gmap string json) : list (string * json) := map_to_list m.

(** Accounts whose tokens expire at 10000. *)
Definition tokens (token : string) : CodexAuthState :=
  mkCodexAuth "chatgpt" "" None token None "refresh" None 10000 "acct".
Definition pool (limited_b : Z) : CodexProvider :=
  mkCodexProvider true (tokens "") (Some [mkCodexAccount "1" "a" (tokens "token-a") 0;
                                          mkCodexAccount "2" "b" (tokens "token-b") limited_b]) 0 None "".
Definition env : codex_env := mkCodexEnv None "" Codex.Missing.

Definition answer (status : Z) : upstream :=
  mkUpstream (λ _, Some (mkResponse status "application/json" [] (mkBody "{limits}" None))) (λ _, false).

(** Requests around the instant 1000; account a gets [first], account b [second]. *)
Definition world (first second : Z) (n : nat) : round :=
  mkRound 1000 None (λ _, NoResponse) true 9000 9000
    (λ attempt, answer (if (n =? 0)%nat then first else second))
    (λ _, NoResponse) 1000 true 1000 (λ _, 1000%Z) [] "id" 1000.

Definition start (limited_b : Z) (cb : CircuitBreaker) : codex_state :=
  mkCodexState (pool limited_b) 0 cb (ModelCache.NewModelCache ModelCache.defaultModelCacheTTL).

Definition request (w : nat → round) (s : codex_state) :=
  ProxyRequest parse marshal raw_text (λ _, None) visit env w "{chat}" CapabilityChat s.

(** The first account is limited: the request goes on with the second, marks the first
    and keeps the second for the requests to come. *)
Example the_second_account_serves :
  let '(s, calls, _) := request (world 429 200) (start 0 (newBreaker 60)) in
  ((λ c, (xc_url c, xc_token c)) <$> mjoin calls, LastLimitedAt <$> accounts s, xs_cursor s)
  = ([("https://chatgpt.com/backend-api/codex/responses", "token-a");
      ("https://chatgpt.com/backend-api/codex/responses", "token-b")], [1000; 0]%Z, 1).
Proof. vm_compute. reflexivity. Qed.

(** A 401 asks for new tokens, and ends the request when there are none. *)
Example no_new_tokens :
  let '(_, calls, out) := request (world 401 200) (start 0 (newBreaker 60)) in
  (length (mjoin calls), out) = (1, Returns ([], Some (auth_required "Codex authentication expired"))).
Proof. vm_compute. reflexivity. Qed.

(** A breaker that opened and lets one probe through: the probe meets a limited account,
    the second round takes the probe of the first for another request's, and the probe
    stays under way for good, so that every later request is refused. *)
Definition opened : CircuitBreaker := mkBreaker 5 0 CircuitOpen 60 false.

Example limited_probe_is_never_given_back :
  let '(s, calls, out) := request (world 429 200) (start 0 opened) in
  (length (mjoin calls), probing (xs_breaker s), out)
  = (1, true, Returns ([], Some (newProviderError ProviderErrorUnavailable StatusServiceUnavailable
                                   "Codex circuit breaker is open"))).
Proof. vm_compute. reflexivity. Qed.

Lemma codex_tries_each_account_once_witness :
  ∃ s calls out used, request (world 429 429) (start 0 (newBreaker 60)) = (s, calls, out) ∧ NoDup used
    ∧ length calls = 2 ∧ Forall2 (λ index cs, Forall (λ call, xc_index call = index) cs) used calls.
Proof.
  destruct (request (world 429 429) (start 0 (newBreaker 60))) as [[s calls] out] eqn:E.
  assert (length calls = 2) as Hlen by (apply (f_equal (λ x, length x.1.2)) in E; simpl in E; etransitivity; [symmetry; exact E|vm_compute; reflexivity]).
  destruct (codex_tries_each_account_once parse marshal raw_text (λ _, None) visit env (world 429 429) "{chat}"
    CapabilityChat 900 1100 (start 0 (newBreaker 60)) s calls out) as (used & Hnodup & _ & Hcalls);
    [reflexivity|reflexivity|intros k; split; [split; discriminate|intros i; split; discriminate]|exact E|].
  exists s, calls, out, used. split; [reflexivity|]. split; [exact Hnodup|]. split; [exact Hlen|exact Hcalls].
Defined.

(** Two minutes before the expiry the refresh fails, and the account is used. *)
Lemma healthy_codex_account_is_accepted_witness :
  snd (EnsureAuthenticated parse env
         (mkRound 9880 None (λ _, NoResponse) true 0 0 (λ _, answer 200) (λ _, NoResponse) 0 true 0 (λ _, 0%Z) [] "" 0)
         (start 0 opened)) = None.
Proof.
  refine (healthy_codex_account_is_accepted parse env _ _ _ _ _ _ _); vm_compute; reflexivity.
Defined.

Lemma stored_token_is_unhealthy_witness :
  let env := mkCodexEnv (Some (λ slot, if String.eqb slot "codex/access_token" then Some "token" else None)) "" Codex.Missing in
  let s := mkCodexState (mkCodexProvider true (mkCodexAuth "chatgpt" "" None "" None "" None 0 "") None 0 None "") 0 opened
             (ModelCache.NewModelCache ModelCache.defaultModelCacheTTL) in
  snd (EnsureAuthenticated parse env (world 200 200 0) s) = None ∧ Authenticated (codex_Health parse env 1000 s) = false.
Proof.
  refine (stored_token_is_unhealthy parse _ _ 1000 _ "token" _ _ _ _); [reflexivity|left; vm_compute; reflexivity|reflexivity|reflexivity].
Defined.

End ExampleCodex.
