(* ===== verification/CopilotBackend.v ===== *)
(** * The Copilot provider

    [src/src/copilot_provider.go], [copilot_provider_auth.go], [copilot_provider_factory.go]
    and [embeddings.go]: the credential of the account under the cursor, the model list,
    requests, embeddings and the health report, over [Accounts], [Catalog] and
    [Transport].  The requests for free models are in [CopilotFree].

    A method that holds the provider's mutex is one function.  [activeAccount] indexes
    the pool with the cursor and panics when it is out of range: what reads it answers
    with a [go_outcome], and [cursor_ok] excludes the panic. *)

From S2P Require Import Prelude GoStd Provider Config Availability Cooldown Routing Catalog Telemetry.
From S2P Require Import Writers Usage Failover GoJson Upstream Responses Transport Accounts.

Definition go_bind {A B} (c : go_outcome A) (k : A → go_outcome B) : go_outcome B :=
  match c with Returns a => k a | Panics => Panics end.
Notation "'let!' x ':=' c 'in' k" := (go_bind c (λ x, k)) (at level 200, x pattern, c at level 100, k at level 200).

Definition copilotAPIBase : string := "https://api.githubcopilot.com".

(* src/src/copilot_provider.go CopilotProvider *)
Record copilot_state := mkCopilotState {
  ps_cfg : CopilotProvider; ps_cursor : nat; ps_breaker : CircuitBreaker; ps_cache : ModelCache.t;
  ps_free_cursor : Z;
}.

Definition pool (s : copilot_state) : list CopilotAccount := elems (cp_Accounts (ps_cfg s)).

Definition with_breaker (cb : CircuitBreaker) (s : copilot_state) : copilot_state :=
  mkCopilotState (ps_cfg s) (ps_cursor s) cb (ps_cache s) (ps_free_cursor s).
Definition with_cache (c : ModelCache.t) (s : copilot_state) : copilot_state :=
  mkCopilotState (ps_cfg s) (ps_cursor s) (ps_breaker s) c (ps_free_cursor s).
Definition with_pool (l : list CopilotAccount) (cursor : nat) (s : copilot_state) : copilot_state :=
  let c := ps_cfg s in
  mkCopilotState
    (mkCopilotProvider (cp_Enabled c) (cp_Auth c) ((λ _, l) <$> cp_Accounts c) (cp_AccountCooldownSeconds c)
       (cp_AllowedModels c)) cursor (ps_breaker s) (ps_cache s) (ps_free_cursor s).

(** [p.auth.ResolveCredential], when there is a controller. *)
Definition copilot_store : Type := option (string → option string).
Definition stored_token (store : copilot_store) : option string := store ≫= λ r, r "copilot/token".

(* src/src/copilot_provider_factory.go NewCopilotProviderWithAuth *)
Definition NewCopilotProvider (clock : nat → Z) (breakerSeconds : Z) (cfg : CopilotProvider) : copilot_state :=
  mkCopilotState cfg (firstHealthy clock (cooldownSeconds (cp_AccountCooldownSeconds cfg)) (elems (cp_Accounts cfg)))
    (newBreaker (wrap_i64 (breakerSeconds * Second))) (ModelCache.NewModelCache ModelCache.defaultModelCacheTTL) 0.

(* src/src/copilot_provider.go CopilotProvider.activeAccount *)
Definition activeAccount (s : copilot_state) : go_outcome (option CopilotAccount) :=
  match pool s with
  | [] => Returns None
  | _ => match pool s !! ps_cursor s with Some a => Returns (Some a) | None => Panics end
  end.

(* src/src/copilot_provider.go CopilotProvider.authState *)
Definition authState (s : copilot_state) : go_outcome CopilotAuthState :=
  let! account := activeAccount s in
  Returns match account with Some a => cpa_Auth a | None => cp_Auth (ps_cfg s) end.

(** The margin before the expiry within which a token is refused. *)
Definition refresh_threshold (auth : CopilotAuthState) : Z :=
  if (0 <? ca_RefreshIn auth)%Z then Z.max 300 (ca_RefreshIn auth / 5) else 300.

(* src/src/copilot_provider_auth.go CopilotProvider.EnsureAuthenticated *)
Definition EnsureAuthenticated (store : copilot_store) (now : Z) (s : copilot_state)
    : go_outcome (option perr) :=
  let refused message := Returns (Some (newProviderError ProviderErrorAuthRequired StatusUnauthorized message)) in
  let! auth := authState s in
  let token := default (ca_CopilotToken auth) (stored_token store) in
  if String.eqb token "" then refused "Copilot authentication is required"
  else if (0 <? ca_ExpiresAt auth)%Z && (ca_ExpiresAt auth - now <=? refresh_threshold auth)%Z
  then refused "Copilot authentication requires reconnection"
  else Returns None.

(* src/src/copilot_provider.go CopilotProvider.credentialSnapshot *)
Definition credentialSnapshot (store : copilot_store) (s : copilot_state) : go_outcome (nat * string) :=
  match stored_token store with
  | Some value => Returns (ps_cursor s, value)
  | None => let! auth := authState s in Returns (ps_cursor s, ca_CopilotToken auth)
  end.

(* src/src/copilot_provider.go CopilotProvider.Health *)
Definition copilot_Health (now : Z) (s : copilot_state) : go_outcome Provider.Health :=
  let! auth := authState s in
  Returns (mkHealth (negb (String.eqb (ca_CopilotToken auth) "") && (now <? ca_ExpiresAt auth)%Z)
    (negb (String.eqb (ca_GitHubToken auth) "")) "" ((ca_ExpiresAt auth + unixToInternal) * Second)%Z).

(* src/src/copilot_provider.go CopilotProvider.Capabilities *)
Definition copilot_Capabilities : list string := [CapabilityChat; CapabilityEmbeddings].

(** ** Models *)

Section models.
Context (parse : string → option json).

(* src/internal/api/types.go Model *)
Definition model_fields : list (field Model) :=
  let set id object created owned name vendor version picker category preview endpoints :=
    mkModel id object created owned name vendor version picker category preview endpoints in
  [fld "id" m_ID (λ x '(mkModel _ b c d e f g h i j k), set x b c d e f g h i j k) d_string;
   fld "object" m_Object (λ x '(mkModel a _ c d e f g h i j k), set a x c d e f g h i j k) d_string;
   fld "created" m_Created (λ x '(mkModel a b _ d e f g h i j k), set a b x d e f g h i j k) d_int;
   fld "owned_by" m_OwnedBy (λ x '(mkModel a b c _ e f g h i j k), set a b c x e f g h i j k) d_string;
   fld "name" m_Name (λ x '(mkModel a b c d _ f g h i j k), set a b c d x f g h i j k) d_string;
   fld "vendor" m_Vendor (λ x '(mkModel a b c d e _ g h i j k), set a b c d e x g h i j k) d_string;
   fld "version" m_Version (λ x '(mkModel a b c d e f _ h i j k), set a b c d e f x h i j k) d_string;
   fld "model_picker_enabled" m_PickerEnabled (λ x '(mkModel a b c d e f g _ i j k), set a b c d e f g x i j k) d_bool;
   fld "model_picker_category" m_PickerCategory (λ x '(mkModel a b c d e f g h _ j k), set a b c d e f g h x j k) d_string;
   fld "preview" m_Preview (λ x '(mkModel a b c d e f g h i _ k), set a b c d e f g h i x k) d_bool;
   fld "supported_endpoints" m_SupportedEndpoints (λ x '(mkModel a b c d e f g h i j _), set a b c d e f g h i j x)
     (d_list "" d_string)].
Definition zeroModel : Model := plain_model "" "" 0 "".

(* src/internal/api/types.go ModelList *)
Definition list_fields : list (field ModelList) :=
  [fld "object" ml_Object (λ o l, mkModelList o (ml_Data l)) d_string;
   fld "data" ml_Data (λ d l, mkModelList (ml_Object l) d) (d_list zeroModel (d_struct model_fields))].

Inductive fetch_error := CallFailed | BadStatus (status : Z) | BadBody.

(** [answer] is what the client gets; the decoder reads the first value of the body,
    which is [parse]'s. *)
(* src/src/copilot_provider.go CopilotProvider.fetchModelsRaw *)
Definition fetchModelsRaw (store : copilot_store) (answer : option http_response) (s : copilot_state)
    : go_outcome (result ModelList fetch_error) :=
  let! (_, token) := credentialSnapshot store s in
  Returns
    (if String.eqb token "" then Ok (mkModelList "list" [])
     else
       match answer with
       | None => Err CallFailed
       | Some response =>
         if negb (r_StatusCode response =? 200)%Z then Err (BadStatus (r_StatusCode response))
         else
           match parse (ub_text (r_body response)) ≫= unmarshal (mkModelList "" []) (d_struct list_fields) with
           | Some ml => Ok ml
           | None => Err BadBody
           end
       end).

Inductive list_error := Unauthenticated (e : perr) | Fetching (e : fetch_error).

(** A call that no other overlaps: the fetch runs once, through the coalescing cache of
    [Pool], under the cache's own lock. *)
(* src/src/copilot_provider.go CopilotProvider.listRawModels *)
Definition listRawModels (store : copilot_store) (now : Z) (t1 t2 t3 : Time) (answer : option http_response)
    (s : copilot_state) : go_outcome (copilot_state * result ModelList list_error) :=
  let! e := EnsureAuthenticated store now s in
  match e with
  | Some e => Returns (s, Err (Unauthenticated e))
  | None =>
    let! fetched := fetchModelsRaw store answer s in
    let '(cache, r) := ModelCache.GetOrFetch t1 t2 t3 fetched (ps_cache s) in
    Returns (with_cache cache s, match r with Ok ml => Ok ml | Err e => Err (Fetching e) end)
  end.

(** The first model of each name. *)
Fixpoint dedup (seen : gset string) (models : list Model) : list Model :=
  match models with
  | [] => []
  | m :: models =>
    if decide (m_ID m ∈ seen) then dedup seen models else m :: dedup ({[m_ID m]} ∪ seen) models
  end.

(* src/src/copilot_provider.go CopilotProvider.ListModels *)
Definition copilot_ListModels (store : copilot_store) (now : Z) (t1 t2 t3 : Time) (answer : option http_response)
    (s : copilot_state) : go_outcome (copilot_state * result ModelList list_error) :=
  let! (s, r) := listRawModels store now t1 t2 t3 answer s in
  Returns (s, match r with Ok raw => Ok (mkModelList (ml_Object raw) (dedup ∅ (ml_Data raw))) | Err e => Err e end).

(* src/src/copilot_provider.go CopilotProvider.InvalidateModelCache *)
Definition copilot_Invalidate (s : copilot_state) : copilot_state :=
  with_cache (ModelCache.Invalidate (ps_cache s)) s.

End models.

(** ** Embeddings *)

(** The value of a member; decoded members have distinct names. *)
Definition member (key : string) (l : list (string * json)) : option json :=
  snd <$> find_index (λ kv : string * json, if String.eqb kv.1 key then Some kv.2 else None) l.

(* src/src/embeddings.go normalizeEmbeddingsRequestBody *)
Definition normalizeEmbeddingsRequestBody `{JSON} (body : string) : string * string :=
  let trimmed := TrimSpace body in
  if String.eqb trimmed "" then (body, "")
  else
    match json_unmarshal trimmed with
    | Some (JObj l) =>
      let model := match member "model" l with Some (JStr m) => m | _ => "" end in
      let l := match member "input" l with Some (JStr v) => set_member "input" (JArr [JStr v]) l | _ => l end in
      (default body (json_marshal (JObj l)), model)
    | Some JNull => (default body (json_marshal JNull), "")
    | _ => (body, "")
    end.

(** Assigning to the nil map that [null] leaves panics. *)
(* src/src/embeddings.go ensureEmbeddingsResponseCompat *)
Definition ensureEmbeddingsResponseCompat `{JSON} (body model : string) : go_outcome string :=
  let trimmed := TrimSpace body in
  if String.eqb trimmed "" then Returns body
  else
    match json_unmarshal trimmed with
    | Some (JObj l) =>
      let l := match member "object" l with None => set_member "object" (JStr "list") l | Some _ => l end in
      let l := match member "model" l with
               | None => if String.eqb model "" then l else set_member "model" (JStr model) l
               | Some _ => l
               end in
      Returns (default body (json_marshal (JObj l)))
    | Some JNull => Panics
    | _ => Returns body
    end.

(** ** Requests *)

(** A request sent upstream, with the credential and the intent its headers carry. *)
(* src/src/copilot_provider.go CopilotProvider.setCopilotHeaders *)
Record copilot_call := mkCopilotCall {
  pc_method : string; pc_url : string; pc_token : string; pc_intent : string; pc_body : string;
}.

(** What a request meets: the instants, the upstream service, and the error the client
    library reports when a call fails. *)
Record copilot_world := mkCopilotWorld {
  pw_now : Z; pw_admit : Time; pw_report : Time; pw_upstream : upstream; pw_call_error : perr;
}.

Record executed := mkExecuted { ex_response : http_response; ex_model : string; ex_index : nat }.

(** The error names the account that served the call, or [None] before one is chosen. *)
(* src/src/copilot_provider.go CopilotProvider.executeProxyRequest *)
Definition executeProxyRequest `{JSON} (store : copilot_store) (w : copilot_world) (method body capability : string)
    (s : copilot_state) : go_outcome (copilot_state * option copilot_call * result executed (perr * option nat)) :=
  let! e := EnsureAuthenticated store (pw_now w) s in
  match e with
  | Some e => Returns (s, None, Err (mkPerr ("copilot auth: " +:+ pe_message e) (pe_go e) (pe_provider e), None))
  | None =>
    let '(cb, admitted) := canExecute (pw_admit w) (ps_breaker s) in
    let s := with_breaker cb s in
    if negb admitted then Returns (s, None, Err (mkPerr "copilot circuit breaker is open" (mkError false false) None, None))
    else
      let! (accountIndex, token) := credentialSnapshot store s in
      let isEmbed := String.eqb capability CapabilityEmbeddings in
      let '(body, embedModel) := if isEmbed then normalizeEmbeddingsRequestBody body else (body, "") in
      let call := mkCopilotCall method (copilotAPIBase +:+ (if isEmbed then "/embeddings" else "/chat/completions"))
                    token (if isEmbed then "embeddings" else "conversation-edits") body in
      match snd (send method false true (pw_upstream w)) with
      | Err _ => Returns (with_breaker (onFailure (pw_report w) (ps_breaker s)) s, Some call,
                          Err (pw_call_error w, Some accountIndex))
      | Ok response =>
        Returns (with_breaker (report (pw_report w) (r_StatusCode response) (ps_breaker s)) s, Some call,
                 Ok (mkExecuted response embedModel accountIndex))
      end
  end.

Definition decimal (n : nat) : string := stdpp.pretty.pretty (N.of_nat n).

(* src/src/copilot_provider.go writeCopilotEmbeddingsResponse *)
Definition writeCopilotEmbeddingsResponse `{JSON} (r : http_response) (embedModel : string)
    : go_outcome (list action * option perr) :=
  match ub_error (r_body r) with
  | Some e => Returns ([], Some (mkPerr "read error" e None))
  | None =>
    let text := ub_text (r_body r) in
    let! body := (if (200 <=? r_StatusCode r)%Z && (r_StatusCode r <? 300)%Z
                  then ensureEmbeddingsResponseCompat text embedModel else Returns text) in
    Returns
      (map (λ kv, ASetHeader kv.1 kv.2)
         (List.filter (λ kv, negb (String.eqb (ToLower kv.1) "content-length")) (r_headers r))
       ++ [ASetHeader "Access-Control-Allow-Origin" "*"; ASetHeader "Access-Control-Allow-Headers" "*";
           ASetHeader "Content-Length" (decimal (String.length body));
           AWriteHeader (r_StatusCode r); AWrite body], None)
  end.

(* src/src/copilot_provider.go CopilotProvider.writeProxyResponse *)
Definition writeProxyResponse `{JSON} (cuts : list string) (r : http_response) (capability embedModel : string)
    : go_outcome (list action * option perr) :=
  if String.eqb capability CapabilityEmbeddings && negb (String.eqb (r_ContentType r) "text/event-stream")
  then writeCopilotEmbeddingsResponse r embedModel else Returns (streamResponse cuts r).

(** What the provider does with its writer, and its error; a panic while the answer is
    written leaves the state as the call left it. *)
(* src/src/copilot_provider.go CopilotProvider.ProxyRequest *)
Definition copilot_ProxyRequest `{JSON} (store : copilot_store) (w : copilot_world) (cuts : list string)
    (method body capability : string) (s : copilot_state)
    : go_outcome (copilot_state * option copilot_call * go_outcome (list action * option perr)) :=
  let! (s, call, r) := executeProxyRequest store w method body capability s in
  Returns (s, call,
    match r with
    | Err (e, _) => Returns ([], Some e)
    | Ok x => writeProxyResponse cuts (ex_response x) capability (ex_model x)
    end).

(** ** The cursor *)

Definition cursor_ok (s : copilot_state) : Prop := pool s = [] ∨ ps_cursor s < length (pool s).

Lemma activeAccount_returns s : cursor_ok s → ∃ a, activeAccount s = Returns a.
Proof.
  unfold activeAccount. intros [->|Hlt]; [by eexists|]. destruct (pool s) as [|x l] eqn:E; [by eexists|].
  destruct (lookup_lt_is_Some_2 _ _ Hlt) as [a ->]. by eexists.
Qed.

Lemma authState_returns s : cursor_ok s → ∃ auth, authState s = Returns auth.
Proof. intros [a Ha]%activeAccount_returns. unfold authState. rewrite Ha. by eexists. Qed.

Lemma new_cursor_ok clock seconds cfg : cursor_ok (NewCopilotProvider clock seconds cfg).
Proof.
  unfold cursor_ok, NewCopilotProvider, pool. cbn [ps_cfg ps_cursor].
  set (l := elems (cp_Accounts cfg)). set (d := cooldownSeconds _).
  destruct (firstHealthy_spec clock d l) as [(a & Ha & _)|[-> _]]; [right; by eapply lookup_lt_Some|].
  destruct l; [by left|right; simpl; lia].
Qed.

(** ** Requests: credential, breaker, pool *)

(** The credential of the account under the cursor, or the store's. *)
Definition current_token (store : copilot_store) (s : copilot_state) : string :=
  match stored_token store with
  | Some value => value
  | None => match authState s with Returns auth => ca_CopilotToken auth | Panics => "" end
  end.

Lemma credentialSnapshot_token store s i token :
  credentialSnapshot store s = Returns (i, token) → i = ps_cursor s ∧ token = current_token store s.
Proof.
  unfold credentialSnapshot, current_token. destruct (stored_token store); [by intros [= <- <-]|].
  destruct (authState s); simpl; [|done]. by intros [= <- <-].
Qed.

Lemma ensure_returns store now s : cursor_ok s → ∃ e, EnsureAuthenticated store now s = Returns e.
Proof.
  intros [auth Ha]%authState_returns. unfold EnsureAuthenticated. rewrite Ha. simpl.
  repeat case_match; by eexists.
Qed.

Lemma snapshot_returns store s : cursor_ok s → ∃ x, credentialSnapshot store s = Returns x.
Proof.
  intros [auth Ha]%authState_returns. unfold credentialSnapshot. rewrite Ha. destruct (stored_token store); by eexists.
Qed.

(** Serving a request, with a cursor inside the pool: it does not panic, and leaves
    configuration, cursor and catalog alone; a request that is sent carries the
    credential of the account under the cursor (or the secret store's) to the Copilot
    service, and its outcome is told to the breaker, so no probe stays under way; a
    request that is not sent leaves the breaker as it was and ends with an error. *)
Theorem copilot_request_is_accounted_for `{JSON} store w method body capability s
    (Hcursor : cursor_ok s) :
  ∃ s' call r, executeProxyRequest store w method body capability s = Returns (s', call, r) ∧
    ps_cfg s' = ps_cfg s ∧ ps_cursor s' = ps_cursor s ∧ ps_cache s' = ps_cache s ∧
    match call with
    | Some call =>
      pc_token call = current_token store s ∧ HasPrefix (pc_url call) copilotAPIBase = true
      ∧ probing (ps_breaker s') = false
      ∧ match r with Ok x => ex_index x = ps_cursor s | Err (_, i) => i = Some (ps_cursor s) end
    | None => ps_breaker s' = ps_breaker s ∧ ∃ e, r = Err (e, None)
    end.
Proof.
  unfold executeProxyRequest. destruct (ensure_returns store (pw_now w) s Hcursor) as [[e|] ->]; cbn [go_bind].
  { eexists _, _, _. split; [done|]. split_and!; try done. by eexists. }
  destruct (canExecute (pw_admit w) (ps_breaker s)) as [cb [|]] eqn:Hcan; cbn [negb].
  - destruct (snapshot_returns store (with_breaker cb s)) as [[i token] Hs]; [by destruct Hcursor; [left|right]|].
    rewrite Hs. cbn [go_bind].
    apply credentialSnapshot_token in Hs as [-> ->].
    destruct (if String.eqb capability CapabilityEmbeddings then _ else _) as [body' model].
    destruct (snd (send _ _ _ _)) as [response|]; eexists _, _, _; (split; [reflexivity|]);
      (split_and!; try done; simpl); try (by destruct (String.eqb capability CapabilityEmbeddings));
      first [apply report_ends_probe|apply failure_ends_probe|done].
  - assert (cb = ps_breaker s) as -> by (unfold canExecute in Hcan; repeat case_match; by simplify_eq).
    eexists _, _, _. split; [done|]. split_and!; try done. by eexists.
Qed.

(** ** The model list *)

Lemma dedup_spec seen models :
  NoDup (m_ID <$> dedup seen models) ∧
  (∀ m, m ∈ dedup seen models → m ∈ models ∧ m_ID m ∉ seen) ∧
  (∀ m, m ∈ models → m_ID m ∉ seen → ∃ m', m' ∈ dedup seen models ∧ m_ID m' = m_ID m).
Proof.
  revert seen. induction models as [|x models IH]; intros seen; simpl.
  { split_and!; [constructor|by intros m ?%elem_of_nil|by intros m ?%elem_of_nil]. }
  destruct (decide (m_ID x ∈ seen)) as [Hin|Hout].
  - destruct (IH seen) as (H1 & H2 & H3). split_and!; [done| |].
    + intros m Hm. destruct (H2 m Hm) as [? ?]. split; [by right|done].
    + intros m [->|Hm]%elem_of_cons Hs; [done|]. by apply H3.
  - destruct (IH ({[m_ID x]} ∪ seen)) as (H1 & H2 & H3). split_and!.
    + simpl. constructor; [|done]. intros (m & Hid & Hm)%list_elem_of_fmap. apply H2 in Hm as [_ Hn]. set_solver.
    + intros m [->|Hm]%elem_of_cons; [split; [by left|done]|]. destruct (H2 m Hm). split; [by right|set_solver].
    + intros m [->|Hm]%elem_of_cons Hs; [exists x; split; [by left|done]|].
      destruct (decide (m_ID m = m_ID x)) as [E|E]; [exists x; split; [by left|done]|].
      destruct (H3 m Hm ltac:(set_solver)) as (m' & ? & ?). exists m'. split; [by right|done].
Qed.

(** Every name upstream gives is listed once, with the first of its entries. *)
Lemma copilot_list_names (models : list Model) :
  NoDup (m_ID <$> dedup ∅ models) ∧ ∀ id, id ∈ (m_ID <$> dedup ∅ models) ↔ id ∈ (m_ID <$> models).
Proof.
  destruct (dedup_spec ∅ models) as (H1 & H2 & H3). split; [done|]. intros id. rewrite !list_elem_of_fmap.
  split; intros (m & -> & Hm).
  - destruct (H2 m Hm). by exists m.
  - destruct (H3 m Hm ltac:(set_solver)) as (m' & ? & E). exists m'. by rewrite E.
Qed.

(** ** Embeddings *)

Lemma member_set key key' v l :
  member key (set_member key' v l) = if decide (key = key') then Some v else member key l.
Proof.
  unfold member. induction l as [|[k x] l IH]; simpl.
  - destruct (decide (key = key')) as [->|Hne]; [by rewrite String.eqb_refl|].
    destruct (String.eqb_spec key' key); [by subst|done].
  - destruct (String.eqb_spec k key') as [->|Hk]; simpl.
    + destruct (decide (key = key')) as [->|Hne]; [by rewrite String.eqb_refl|].
      destruct (String.eqb_spec key' key); [by subst|done].
    + destruct (String.eqb_spec k key) as [->|Hk']; simpl.
      * by destruct (decide (key = key')).
      * destruct (find_index _ (set_member key' v l)) as [[? ?]|], (find_index _ l) as [[? ?]|]; simpl in *; done.
Qed.

(** What the provider makes of the members of a request and of an answer. *)
Definition embedding_request (l : list (string * json)) : list (string * json) :=
  match member "input" l with Some (JStr v) => set_member "input" (JArr [JStr v]) l | _ => l end.
Definition embedding_answer (model : string) (l : list (string * json)) : list (string * json) :=
  let l := match member "object" l with None => set_member "object" (JStr "list") l | Some _ => l end in
  match member "model" l with
  | None => if String.eqb model "" then l else set_member "model" (JStr model) l
  | Some _ => l
  end.

(** Embeddings through a service that only takes lists: a single text becomes a list
    of one text and every other member is sent as it came; the answer's members are
    passed on, and what an OpenAI client expects is added where it is missing: the
    object, and the model the request named. *)
Theorem embeddings_are_compatible `{JSON} request answer l l'
    (Hreq : json_unmarshal (TrimSpace request) = Some (JObj l)) (Htext : TrimSpace request ≠ "")
    (Hans : json_unmarshal (TrimSpace answer) = Some (JObj l')) (Htext' : TrimSpace answer ≠ "") :
  let '(sent, model) := normalizeEmbeddingsRequestBody request in
  sent = default request (json_marshal (JObj (embedding_request l))) ∧
  member "input" (embedding_request l) =
    match member "input" l with Some (JStr v) => Some (JArr [JStr v]) | other => other end ∧
  (∀ key, key ≠ "input" → member key (embedding_request l) = member key l) ∧
  ensureEmbeddingsResponseCompat answer model
    = Returns (default answer (json_marshal (JObj (embedding_answer model l')))) ∧
  (∀ key v, member key l' = Some v → member key (embedding_answer model l') = Some v) ∧
  is_Some (member "object" (embedding_answer model l')) ∧
  (member "model" l' = None → ∀ m, member "model" l = Some (JStr m) → m ≠ "" →
     member "model" (embedding_answer model l') = Some (JStr m)).
Proof.
  unfold normalizeEmbeddingsRequestBody. rewrite (proj2 (String.eqb_neq _ _) Htext), Hreq.
  set (model := match member "model" l with Some (JStr m) => m | _ => "" end).
  assert (∀ key, member key (embedding_answer model l')
    = match member key l' with
      | Some v => Some v
      | None => if decide (key = "model") then (if String.eqb model "" then None else Some (JStr model))
                else if decide (key = "object") then Some (JStr "list") else None
      end) as Hanswer.
  { intros key. unfold embedding_answer.
    destruct (member "object" l') as [o|] eqn:Ho; rewrite ?(member_set "model" "object"); simpl;
      destruct (member "model" l') as [m|] eqn:Hm; try destruct (String.eqb model "");
      rewrite ?member_set; repeat case_decide; subst; rewrite ?Hm, ?Ho; try done;
      by destruct (member key l'). }
  split_and!.
  - done.
  - unfold embedding_request. destruct (member "input" l) as [[]|] eqn:Hi; rewrite ?member_set; simpl; by rewrite ?Hi.
  - intros key Hkey. unfold embedding_request. destruct (member "input" l) as [[]|]; rewrite ?member_set; simpl;
      by rewrite ?decide_False by done.
  - unfold ensureEmbeddingsResponseCompat. by rewrite (proj2 (String.eqb_neq _ _) Htext'), Hans.
  - intros key v Hv. by rewrite Hanswer, Hv.
  - rewrite Hanswer. destruct (member "object" l'); by eexists.
  - intros Hm m Hl Hne. rewrite Hanswer, Hm. simpl. subst model. rewrite Hl.
    by rewrite (proj2 (String.eqb_neq _ _) Hne).
Qed.

(** ** Health and admission *)

(** An account that [Health] reports as authenticated is accepted while its expiry is
    further away than the margin; an account that is accepted, with a token and an expiry
    of its own and no token in the secret store, is authenticated for [Health]. *)
Theorem copilot_health_agrees_with_admission now s auth
    (Hauth : authState s = Returns auth) (Hexpiry : (0 < ca_ExpiresAt auth)%Z)
    (Hmargin : (refresh_threshold auth < ca_ExpiresAt auth - now)%Z ∨ (ca_ExpiresAt auth <= now)%Z) :
  EnsureAuthenticated None now s = Returns None ↔
  Authenticated <$> (match copilot_Health now s with Returns h => Some h | Panics => None end) = Some true.
Proof.
  unfold EnsureAuthenticated, copilot_Health. rewrite Hauth. cbn [go_bind stored_token mbind option_bind default].
  simpl. destruct (String.eqb (ca_CopilotToken auth) ""); simpl; [done|].
  rewrite (proj2 (Z.ltb_lt _ _) Hexpiry). simpl.
  assert (300 <= refresh_threshold auth)%Z by (unfold refresh_threshold; case_match; lia).
  destruct (Z.leb_spec (ca_ExpiresAt auth - now) (refresh_threshold auth)), (Z.ltb_spec now (ca_ExpiresAt auth));
    split; intros; simplify_eq; try done; lia.
Qed.

(** The expiry in the configuration decides even for a token of the secret store: once it
    has passed, a new token in the store does not help. *)
Theorem stored_token_needs_configured_expiry store now s auth
    (Hauth : authState s = Returns auth) (Hexpiry : (0 < ca_ExpiresAt auth <= now)%Z) :
  ∃ e, EnsureAuthenticated store now s = Returns (Some e).
Proof.
  unfold EnsureAuthenticated. rewrite Hauth. simpl. destruct (String.eqb _ ""); [by eexists|].
  assert (300 <= refresh_threshold auth)%Z by (unfold refresh_threshold; case_match; lia).
  rewrite (proj2 (Z.ltb_lt _ _)), (proj2 (Z.leb_le _ _)) by lia. by eexists.
Qed.

(** With a token in the secret store alone, requests are served and the account is
    unauthenticated for [Health]. *)
Theorem stored_copilot_token_is_unhealthy store now s auth value
    (Hauth : authState s = Returns auth) (Hnone : ca_CopilotToken auth = "" ∧ ca_ExpiresAt auth = 0%Z)
    (Hstore : stored_token store = Some value) (Hvalue : value ≠ "") :
  EnsureAuthenticated store now s = Returns None ∧
  Authenticated <$> (match copilot_Health now s with Returns h => Some h | Panics => None end) = Some false.
Proof.
  destruct Hnone as [Htok Hexp]. unfold EnsureAuthenticated, copilot_Health. rewrite Hauth, Hstore. simpl.
  rewrite Htok, Hexp. simpl. by rewrite (proj2 (String.eqb_neq _ _) Hvalue).
Qed.

Module ExampleCopilot.

(** A reader of three texts; objects are written as the names of their members. *)
#[local] Instance names_json : JSON := {|
  json_unmarshal s :=
    if String.eqb s "{in}" then Some (JObj [("input", JStr "hello"); ("model", JStr "small")])
    else if String.eqb s "{out}" then Some (JObj [("data", JArr [])])
    else if String.eqb s "null" then Some JNull else None;
  json_marshal j := match j with JObj l => Some (Join (fst <$> l) ",") | _ => Some "null" end;
  json_string_field _ _ := None;
  json_int_fields _ _ := None;
|}.

Definition auth (token : string) (expires : Z) : CopilotAuthState := mkCopilotAuth "device_code" "gho" None token None expires 1500.
Definition account (token : string) (expires : Z) : copilot_state :=
  NewCopilotProvider (λ _, 1000%Z) 30 (mkCopilotProvider true (auth token expires) None 0 None).

Definition world (status : Z) (body : string) : copilot_world :=
  mkCopilotWorld 1000 9 9 (mkUpstream (λ _, Some (mkResponse status "application/json" [] (mkBody body None))) (λ _, false))
    (mkPerr "call failed" (mkError false false) None).

Lemma copilot_request_is_accounted_for_witness :
  cursor_ok (account "token" 9000) ∧
  ∃ s' call x, executeProxyRequest None (world 503 "busy") "POST" "{in}" CapabilityEmbeddings (account "token" 9000)
    = Returns (s', Some call, Ok x) ∧ pc_token call = "token" ∧ pc_body call = "input,model" ∧ probing (ps_breaker s') = false.
Proof.
  assert (cursor_ok (account "token" 9000)) as H by (left; reflexivity).
  split; [exact H|].
  destruct (copilot_request_is_accounted_for None (world 503 "busy") "POST" "{in}" CapabilityEmbeddings
    (account "token" 9000) H) as (s' & call & r & E & _ & _ & _ & Hcall).
  destruct call as [call|]; [|vm_compute in E; discriminate E].
  destruct r as [x|[e i]]; [|vm_compute in E; discriminate E].
  destruct Hcall as (Htok & _ & Hprobe & _).
  exists s', call, x. split; [exact E|]. split; [exact Htok|]. split; [|exact Hprobe].
  vm_compute in E. injection E as _ <- _. reflexivity.
Defined.

Lemma embeddings_are_compatible_witness :
  fst (normalizeEmbeddingsRequestBody " {in}") = "input,model"
  ∧ ensureEmbeddingsResponseCompat "{out}" (snd (normalizeEmbeddingsRequestBody " {in}")) = Returns "data,object,model".
Proof.
  pose proof (embeddings_are_compatible " {in}" "{out}" [("input", JStr "hello"); ("model", JStr "small")]
    [("data", JArr [])] eq_refl ltac:(vm_compute; discriminate) eq_refl ltac:(vm_compute; discriminate)) as H.
  destruct (normalizeEmbeddingsRequestBody " {in}") as [sent model] eqn:E.
  destruct H as (-> & _ & _ & H & _). split; [vm_compute; reflexivity|].
  apply (f_equal snd) in E. vm_compute in E. subst model. etransitivity; [exact H|vm_compute; reflexivity].
Defined.

(** A successful embeddings answer whose body is [null] panics. *)
Example null_embeddings_panic :
  match copilot_ProxyRequest None (world 200 "null") [] "POST" "{in}" CapabilityEmbeddings (account "token" 9000) with
  | Returns (_, _, out) => out = Panics
  | Panics => False
  end.
Proof. vm_compute. reflexivity. Qed.

Lemma copilot_health_agrees_with_admission_witness :
  EnsureAuthenticated None 1000 (account "token" 9000) = Returns None.
Proof.
  refine (proj2 (copilot_health_agrees_with_admission 1000 (account "token" 9000) (auth "token" 9000) _ _ _) _).
  1,2,4: vm_compute; reflexivity.
  left. vm_compute. reflexivity.
Defined.

Definition store : copilot_store := Some (λ _, Some "new token").

Lemma stored_token_needs_configured_expiry_witness :
  ∃ e, EnsureAuthenticated store 9500 (account "token" 9000) = Returns (Some e).
Proof.
  refine (stored_token_needs_configured_expiry store 9500 (account "token" 9000) (auth "token" 9000) _ _); [vm_compute; reflexivity|].
  split; [reflexivity|vm_compute; discriminate].
Defined.

Lemma stored_copilot_token_is_unhealthy_witness :
  EnsureAuthenticated store 1000 (account "" 0) = Returns None ∧
  Authenticated <$> (match copilot_Health 1000 (account "" 0) with Returns h => Some h | Panics => None end) = Some false.
Proof.
  refine (stored_copilot_token_is_unhealthy store 1000 (account "" 0) (auth "" 0) "new token" _ _ _ _);
    [vm_compute; reflexivity|split; reflexivity|reflexivity|discriminate].
Defined.

End ExampleCopilot.
