(* ===== verification/CopilotFree.v ===== *)
(** * The free models of Copilot

    [src/src/copilot_free_catalog.go]: the catalog read from two pages of the public
    documentation (their tables, the names of the models, the snapshot and its file), the
    choice of the models of the account, and the free-model part of
    [copilot_provider.go].  Nothing in the daemon calls [ProxyFreeChatRequest]; the
    constructor of the provider loads the snapshot's file.

    The five regular expressions are written as functions on bytes.  [ToLower] is that of
    [GoStd], on ASCII, so that positions in a page and in its lower-case copy agree.
    [UnescapeString] of [html] and the encoding of the snapshot are parameters. *)

From S2P Require Import Prelude GoStd Provider Config Availability Cooldown Routing Catalog Telemetry.
From S2P Require Import Writers Usage Failover GoJson Upstream Responses Transport Accounts CopilotBackend.

(** ** Texts *)

(** The text around the first [sep]. *)
Fixpoint cut (sep : ascii) (s : string) : option (string * string) :=
  match s with
  | EmptyString => None
  | String c s =>
    if Ascii.eqb c sep then Some ("", s) else (λ '(before, after), (String c before, after)) <$> cut sep s
  end.

(** The text before the first place where [close] matches, and what follows the match. *)
Fixpoint until (close : string → option string) (s : string) : option (string * string) :=
  match close s with
  | Some after => Some ("", after)
  | None =>
    match s with
    | EmptyString => None
    | String c s => (λ '(before, after), (String c before, after)) <$> until close s
    end
  end.

(** A prefix in lower case, matched without regard to case. *)
Fixpoint strip_fold (p s : string) : option string :=
  match p, s with
  | EmptyString, _ => Some s
  | String d p, String c s => if Ascii.eqb d (lower_ascii c) then strip_fold p s else None
  | String _ _, EmptyString => None
  end.

(** The contents of the elements that [open] and [close] delimit, in order. *)
Fixpoint elements_of (fuel : nat) (open close : string → option string) (s : string) : list string :=
  match fuel, s with
  | S fuel, String _ rest =>
    match (open s ≫= cut ">") ≫= λ '(_, content), until close content with
    | Some (inner, after) => inner :: elements_of fuel open close after
    | None => elements_of fuel open close rest
    end
  | _, _ => []
  end.

(* src/src/copilot_free_catalog.go htmlTableRowRE *)
Definition htmlTableRows (s : string) : list string :=
  elements_of (String.length s) (strip_fold "<tr") (strip_fold "</tr>") s.

Definition either (p q : string) (s : string) : option string :=
  match strip_fold p s with Some rest => Some rest | None => strip_fold q s end.

(* src/src/copilot_free_catalog.go htmlTableCellRE *)
Definition htmlTableCells (s : string) : list string :=
  elements_of (String.length s) (either "<th" "<td") (either "</th>" "</td>") s.

(** Every bracketed text becomes a blank; [empty] says whether the brackets may be empty. *)
Fixpoint blank_between (fuel : nat) (opening closing : ascii) (empty : bool) (s : string) : string :=
  match fuel, s with
  | S fuel, String c rest =>
    match (if Ascii.eqb c opening then cut closing rest else None) with
    | Some (inner, after) =>
      if String.eqb inner "" && negb empty then String c (blank_between fuel opening closing empty rest)
      else String " " (blank_between fuel opening closing empty after)
    | None => String c (blank_between fuel opening closing empty rest)
    end
  | _, _ => ""
  end.

(* src/src/copilot_free_catalog.go htmlTagRE *)
Definition blank_tags (s : string) : string := blank_between (String.length s) "<" ">" false s.
(* src/src/copilot_free_catalog.go parenTextRE *)
Definition blank_parens (s : string) : string := blank_between (String.length s) "(" ")" true s.

(** Every run of other bytes than lower-case letters and digits becomes a blank. *)
(* src/src/copilot_free_catalog.go nonWordRE *)
Fixpoint blank_non_words (in_run : bool) (s : string) : string :=
  match s with
  | EmptyString => ""
  | String c s =>
    if is_lower c || is_digit c then String c (blank_non_words false s)
    else if in_run then blank_non_words true s else String " " (blank_non_words true s)
  end.

(** [strings.Fields]; [word] is the field being read, last byte first. *)
Fixpoint fields_from (fuel : nat) (word s : string) : list string :=
  let flush := if String.eqb word "" then [] else [str_rev word] in
  match fuel with
  | O => flush
  | S fuel =>
    match strip_rune space_runes s with
    | Some rest => flush ++ fields_from fuel "" rest
    | None => match s with EmptyString => flush | String c s => fields_from fuel (String c word) s end
    end
  end.
Definition Fields (s : string) : list string := fields_from (S (String.length s)) "" s.

(** [strings.Index]. *)
Fixpoint Index (s sub : string) : option nat :=
  if HasPrefix s sub then Some 0
  else match s with EmptyString => None | String _ s => S <$> Index s sub end.

(* src/src/copilot_free_catalog.go isAllDigits *)
Definition isAllDigits (s : string) : bool := negb (String.eqb s "") && str_all is_digit s.

(** The tokens without the numbers they end with. *)
(* src/src/copilot_free_catalog.go trimTrailingVersionTokens *)
Definition drop_numbers (tokens : list string) : list string :=
  reverse ((fix go l := match l with t :: l' => if isAllDigits t then go l' else l | [] => [] end) (reverse tokens)).
(* src/src/copilot_free_catalog.go trimTrailingVersionTokens *)
Definition trimTrailingVersionTokens (name : string) : string := Join (drop_numbers (Fields name)) " ".

(** The first of each non-empty text. *)
Fixpoint unique_from (seen : gset string) (items : list string) : list string :=
  match items with
  | [] => []
  | item :: items =>
    if String.eqb item "" || bool_decide (item ∈ seen) then unique_from seen items
    else item :: unique_from ({[item]} ∪ seen) items
  end.
(* src/src/copilot_free_catalog.go uniqueNormalized *)
Definition uniqueNormalized (items : list string) : list string := unique_from ∅ items.
(* src/src/copilot_free_catalog.go sortUniqueStrings *)
Definition sortUniqueStrings (items : list string) : list string := sort_Strings (uniqueNormalized items).

Fixpoint intersect_from (allowed seen : gset string) (items : list string) : list string :=
  match items with
  | [] => []
  | item :: items =>
    if bool_decide (item ∈ allowed) && negb (bool_decide (item ∈ seen))
    then item :: intersect_from allowed ({[item]} ∪ seen) items else intersect_from allowed seen items
  end.
(* src/src/copilot_free_catalog.go intersectNormalizedModelNames *)
Definition intersectNormalizedModelNames (l r : list string) : list string :=
  intersect_from (list_to_set r) ∅ l.

(** ** Pages *)

Inductive page_error :=
| SectionNotFound | TableNotFound | TableEndNotFound | NoRows | EmptyTable | ColumnNotFound.

Section catalog.
Context (UnescapeString : string → string).

(* src/src/copilot_free_catalog.go htmlTableCell *)
Record htmlTableCell := mkCell { cell_Raw : string; cell_Text : string }.

(* src/src/copilot_free_catalog.go stripHTML *)
Definition stripHTML (s : string) : string := UnescapeString (blank_tags s).
(* src/src/copilot_free_catalog.go normalizeCellText *)
Definition normalizeCellText (s : string) : string := Join (Fields (UnescapeString s)) " ".
(* src/src/copilot_free_catalog.go normalizeModelName *)
Definition normalizeModelName (s : string) : string :=
  Join (Fields (blank_non_words false (blank_parens (ToLower (UnescapeString s))))) " ".

(* src/src/copilot_free_catalog.go cellHasIncludedMarker *)
Definition cellHasIncludedMarker (raw : string) : bool :=
  let rawLower := ToLower raw in
  let quote := str [34] in
  Contains rawLower ("aria-label=" +:+ quote +:+ "included" +:+ quote)
  || Contains rawLower "aria-label='included'".

(* src/src/copilot_free_catalog.go extractTableForSection *)
Definition extractTableForSection (pageHTML sectionID : string) : result string page_error :=
  let needle := "id=" +:+ str [34] +:+ ToLower sectionID +:+ str [34] in
  let htmlLower := ToLower pageHTML in
  match Index htmlLower needle with
  | None => Err SectionNotFound
  | Some sectionStart =>
    match Index (str_drop sectionStart htmlLower) "<table" with
    | None => Err TableNotFound
    | Some tableStartRel =>
      let tableStart := sectionStart + tableStartRel in
      match Index (str_drop tableStart htmlLower) "</table>" with
      | None => Err TableEndNotFound
      | Some tableEndRel =>
        let tableEnd := tableStart + tableEndRel + String.length "</table>" in
        Ok (str_take (tableEnd - tableStart) (str_drop tableStart pageHTML))
      end
    end
  end.

(* src/src/copilot_free_catalog.go parseSectionTable *)
Definition parseSectionTable (pageHTML sectionID : string) : result (list (list htmlTableCell)) page_error :=
  match extractTableForSection pageHTML sectionID with
  | Err e => Err e
  | Ok tableHTML =>
    let row_of content := (λ raw, mkCell raw (normalizeCellText (stripHTML raw))) <$> htmlTableCells content in
    let rows := List.filter (λ row, negb (bool_decide (length row = 0))) (row_of <$> htmlTableRows tableHTML) in
    match rows with [] => Err NoRows | _ => Ok rows end
  end.

(** The names of the rows whose cell of a column is accepted. *)
Definition column_names (col : nat) (accepts : htmlTableCell → bool) (rows : list (list htmlTableCell)) : list string :=
  omap (λ row,
    match row !! 0, row !! col with
    | Some first, Some cell =>
      let modelName := normalizeModelName (cell_Text first) in
      if String.eqb modelName "" then None else if accepts cell then Some modelName else None
    | _, _ => None
    end) rows.

Definition table_column (header : string → bool) (accepts : htmlTableCell → bool)
    (table : result (list (list htmlTableCell)) page_error) : result (list string) page_error :=
  match table with
  | Err e => Err e
  | Ok [] => Err EmptyTable
  | Ok (titles :: rows) =>
    match find_index (λ cell, if header (normalizeModelName (cell_Text cell)) then Some tt else None) titles with
    | None => Err ColumnNotFound
    | Some (col, _) => Ok (uniqueNormalized (column_names col accepts rows))
    end
  end.

(* src/src/copilot_free_catalog.go parseCopilotPlanFreeModels *)
Definition parseCopilotPlanFreeModels (pageHTML : string) : result (list string) page_error :=
  table_column (λ title, String.eqb title "copilot free") (λ cell, cellHasIncludedMarker (cell_Raw cell))
    (parseSectionTable pageHTML "supported-ai-models-per-copilot-plan").

(* src/src/copilot_free_catalog.go parseZeroPremiumModels *)
Definition parseZeroPremiumModels (pageHTML : string) : result (list string) page_error :=
  table_column (λ title, Contains title "paid plans") (λ cell, String.eqb (normalizeCellText (cell_Text cell)) "0")
    (parseSectionTable pageHTML "model-multipliers").

(** ** The models of the account *)

(* src/src/copilot_free_catalog.go modelCandidateKeys *)
Definition modelCandidateKeys (m : Model) : list string :=
  uniqueNormalized (mjoin ((λ candidate,
    if String.eqb candidate "" then [] else [candidate; trimTrailingVersionTokens candidate])
    <$> [normalizeModelName (m_Name m); normalizeModelName (m_ID m); normalizeModelName (m_Version m)])).

(* src/src/copilot_free_catalog.go scoreModelCandidate *)
Definition scoreModelCandidate (target : string) (m : Model) : Z :=
  let score := foldl (λ score candidate,
    if String.eqb candidate target then Z.max score 100
    else if HasPrefix candidate (target +:+ " ") then Z.max score 80 else score) (-1)%Z (modelCandidateKeys m) in
  if (score <? 0)%Z then score
  else (score + (if m_PickerEnabled m then 20 else 0) + (if m_Preview m then 0 else 5))%Z.

(** The unused model with the best score for a name, the first of several. *)
(* src/src/copilot_free_catalog.go:330-346 resolveEffectiveCopilotFreeModels *)
Definition best_model (target : string) (used : gset string) (models : list Model) : option Model * Z :=
  foldl (λ '(best, bestScore) m,
    if decide (m_ID m ∈ used) then (best, bestScore)
    else let score := scoreModelCandidate target m in
         if (bestScore <? score)%Z then (Some m, score) else (best, bestScore)) (None, (-1)%Z) models.

Fixpoint resolve_from (used : gset string) (docEligible : list string) (models : list Model) : list Model :=
  match docEligible with
  | [] => []
  | target :: docEligible =>
    match best_model target used models with
    | (Some m, _) => m :: resolve_from ({[m_ID m]} ∪ used) docEligible models
    | (None, _) => resolve_from used docEligible models
    end
  end.

(* src/src/copilot_free_catalog.go resolveEffectiveCopilotFreeModels *)
Definition resolveEffectiveCopilotFreeModels (docEligible : list string) (upstream : ModelList) : list Model :=
  resolve_from ∅ docEligible (ml_Data upstream).

(** ** The catalog and its file *)

(* src/src/copilot_free_catalog.go copilotFreeCatalogSnapshot *)
Record snapshot := mkSnapshot {
  sn_SourceURLs : list string; sn_FetchedAt : Time; sn_FreePlanModels : list string;
  sn_ZeroPremiumModels : list string; sn_EligibleModels : list string;
}.

Context (encode : snapshot → string) (decode : string → option snapshot).

(** The snapshot in memory, and the file: [None] when its path is unknown, otherwise the
    content it has, if any. *)
(* src/src/copilot_free_catalog.go CopilotFreeCatalog *)
Record free_catalog := mkFreeCatalog {
  fc_snapshot : option snapshot; fc_ttl : Duration; fc_file : option (option string);
}.

(* src/src/copilot_free_catalog.go CopilotFreeCatalog.loadCache *)
Definition loadCache (c : free_catalog) : free_catalog :=
  match fc_file c with
  | Some (Some body) =>
    match decode body with
    | Some sn => mkFreeCatalog (Some sn) (fc_ttl c) (fc_file c)
    | None => c
    end
  | _ => c
  end.

(* src/src/copilot_free_catalog.go defaultFreeCatalogTTL *)
Definition defaultFreeCatalogTTL : Duration := (6 * Hour)%Z.

(* src/src/copilot_free_catalog.go NewCopilotFreeCatalog *)
Definition NewCopilotFreeCatalog (ttl : Duration) (file : option (option string)) : free_catalog :=
  loadCache (mkFreeCatalog None (if (ttl <=? 0)%Z then defaultFreeCatalogTTL else ttl) file).

(* src/src/copilot_free_catalog.go CopilotFreeCatalog.isFresh *)
Definition isFresh (now : Time) (c : free_catalog) : bool :=
  match fc_snapshot c with Some sn => (now - sn_FetchedAt sn <? fc_ttl c)%Z | None => false end.

(** A page: no answer, or a status with a body, which may end in an error. *)
Inductive page_answer := NoPage | Page (status : Z) (body : option string).

Inductive fetch_failure := PageUnavailable | PageStatus (status : Z).

(* src/src/copilot_free_catalog.go CopilotFreeCatalog.fetchURL *)
Definition fetchURL (a : page_answer) : result string fetch_failure :=
  match a with
  | NoPage => Err PageUnavailable
  | Page status body =>
    if negb (status =? StatusOK)%Z then Err (PageStatus status)
    else match body with Some text => Ok text | None => Err PageUnavailable end
  end.

Inductive refresh_failure := FetchSupported (e : fetch_failure) | FetchBilling (e : fetch_failure)
                           | ParsePlans (e : page_error) | ParseMultipliers (e : page_error).

(** What a refresh meets: the two pages, the instant, and whether the file is written. *)
Record refresh_world := mkRefreshWorld {
  rw_supported : page_answer; rw_billing : page_answer; rw_now : Time; rw_written : bool;
}.

(* src/src/copilot_free_catalog.go CopilotFreeCatalog.saveCache *)
Definition saveCache (written : bool) (c : free_catalog) : free_catalog :=
  match fc_file c, fc_snapshot c with
  | Some _, Some sn => if written then mkFreeCatalog (fc_snapshot c) (fc_ttl c) (Some (Some (encode sn))) else c
  | _, _ => c
  end.

Definition sources : list string :=
  ["https://docs.github.com/en/copilot/reference/ai-models/supported-models";
   "https://docs.github.com/en/copilot/concepts/billing/copilot-requests"].

(* src/src/copilot_free_catalog.go CopilotFreeCatalog.refreshLocked *)
Definition refreshLocked (w : refresh_world) (c : free_catalog) : free_catalog * option refresh_failure :=
  match fetchURL (rw_supported w) with
  | Err e => (c, Some (FetchSupported e))
  | Ok supportedHTML =>
    match fetchURL (rw_billing w) with
    | Err e => (c, Some (FetchBilling e))
    | Ok billingHTML =>
      match parseCopilotPlanFreeModels supportedHTML with
      | Err e => (c, Some (ParsePlans e))
      | Ok free =>
        match parseZeroPremiumModels billingHTML with
        | Err e => (c, Some (ParseMultipliers e))
        | Ok zero =>
          let sn := mkSnapshot sources (rw_now w) free zero (intersectNormalizedModelNames free zero) in
          (saveCache (rw_written w) (mkFreeCatalog (Some sn) (fc_ttl c) (fc_file c)), None)
        end
      end
    end
  end.

(** [t1] and [t2] are the instants of the two checks; no other call overlaps. *)
(* src/src/copilot_free_catalog.go CopilotFreeCatalog.snapshotForUse *)
(* src/src/copilot_free_catalog.go cloneCatalogSnapshot *)
Definition snapshotForUse (t1 t2 : Time) (w : refresh_world) (c : free_catalog)
    : free_catalog * result snapshot refresh_failure :=
  match (if isFresh t1 c then fc_snapshot c else if isFresh t2 c then fc_snapshot c else None) with
  | Some sn => (c, Ok sn)
  | None =>
    let '(c', e) := refreshLocked w c in
    match e, fc_snapshot c' with
    | _, Some sn => (c', Ok sn)
    | Some e, None => (c', Err e)
    | None, None => (c', Err (FetchSupported PageUnavailable))
    end
  end.

(* src/src/copilot_free_catalog.go CopilotFreeCatalog.EligibleModels *)
Definition EligibleModels (t1 t2 : Time) (w : refresh_world) (c : free_catalog)
    : free_catalog * result (list string) refresh_failure :=
  let '(c, r) := snapshotForUse t1 t2 w c in
  (c, match r with Ok sn => Ok (sn_EligibleModels sn) | Err e => Err e end).

(** ** Names *)

Lemma unique_from_spec seen items :
  NoDup (unique_from seen items) ∧ ∀ x, x ∈ unique_from seen items ↔ x ∈ items ∧ x ≠ "" ∧ x ∉ seen.
Proof.
  revert seen. induction items as [|item items IH]; intros seen; simpl.
  { split; [constructor|]. intros x. rewrite elem_of_nil. naive_solver. }
  destruct (String.eqb_spec item "") as [->|Hne]; simpl.
  { destruct (IH seen) as [H1 H2]. split; [done|]. intros x. rewrite H2, elem_of_cons. naive_solver. }
  destruct (bool_decide (item ∈ seen)) eqn:Hin; reflect_bools.
  - destruct (IH seen) as [H1 H2]. split; [done|]. intros x. rewrite H2, elem_of_cons. naive_solver.
  - destruct (IH ({[item]} ∪ seen)) as [H1 H2]. split.
    + constructor; [|done]. rewrite H2. set_solver.
    + intros x. rewrite !elem_of_cons, H2. destruct (decide (x = item)) as [->|]; set_solver.
Qed.

Lemma intersect_spec l r :
  NoDup (intersectNormalizedModelNames l r) ∧
  ∀ x, x ∈ intersectNormalizedModelNames l r ↔ x ∈ l ∧ x ∈ r.
Proof.
  unfold intersectNormalizedModelNames.
  assert (∀ seen, NoDup (intersect_from (list_to_set r) seen l) ∧
    ∀ x, x ∈ intersect_from (list_to_set r) seen l ↔ x ∈ l ∧ x ∈ r ∧ x ∉ seen) as Hgen.
  { induction l as [|item l IH]; intros seen; simpl.
    { split; [constructor|]. intros x. rewrite elem_of_nil. naive_solver. }
    destruct (bool_decide (item ∈ (list_to_set r : gset string))) eqn:Hr, (bool_decide (item ∈ seen)) eqn:Hs;
      reflect_bools; simpl.
    all: destruct (IH seen) as [H1 H2]; destruct (IH ({[item]} ∪ seen)) as [H3 H4].
    1,3,4: split; [done|]; intros x; rewrite H2, elem_of_cons; destruct (decide (x = item)) as [->|]; set_solver.
    split; [constructor; [rewrite H4; set_solver|done]|].
    intros x. rewrite !elem_of_cons, H4. destruct (decide (x = item)) as [->|]; set_solver. }
  destruct (Hgen ∅) as [H1 H2]. split; [done|]. intros x. rewrite H2. set_solver.
Qed.

(** ** The choice of models *)

Lemma best_model_spec target used models :
  match best_model target used models with
  | (Some m, score) => m ∈ models ∧ m_ID m ∉ used ∧ scoreModelCandidate target m = score ∧ (0 <= score)%Z
      ∧ ∀ m', m' ∈ models → m_ID m' ∉ used → (scoreModelCandidate target m' <= score)%Z
  | (None, score) => score = (-1)%Z ∧ ∀ m', m' ∈ models → m_ID m' ∉ used → (scoreModelCandidate target m' < 0)%Z
  end.
Proof.
  unfold best_model.
  induction models as [|x models IH] using rev_ind; [by split; [|intros m' ?%elem_of_nil]|].
  rewrite foldl_app. cbn [foldl].
  destruct (foldl _ _ models) as [[b|] score]; destruct (decide (m_ID x ∈ used)) as [Hin|Hout].
  - destruct IH as (Hb & Hused & Hscore & Hpos & Hmax).
    split_and!; [set_solver|done|done|done|].
    intros m' [?| ->%list_elem_of_singleton]%elem_of_app; [by apply Hmax|done].
  - destruct IH as (Hb & Hused & Hscore & Hpos & Hmax).
    destruct (Z.ltb_spec score (scoreModelCandidate target x)); (split_and!; [set_solver|done|done|lia|]);
      intros m' [Hm| ->%list_elem_of_singleton]%elem_of_app Hu; try lia; specialize (Hmax m' Hm Hu); lia.
  - destruct IH as [-> IH]. split; [done|].
    intros m' [?| ->%list_elem_of_singleton]%elem_of_app; [by apply IH|done].
  - destruct IH as [-> IH].
    destruct (Z.ltb_spec (-1) (scoreModelCandidate target x)).
    + split_and!; [set_solver|done|done|lia|].
      intros m' [Hm| ->%list_elem_of_singleton]%elem_of_app Hu; [|lia]. specialize (IH m' Hm Hu). lia.
    + split; [done|]. intros m' [Hm| ->%list_elem_of_singleton]%elem_of_app Hu; [by apply IH|lia].
Qed.

Lemma resolve_from_spec used docs models :
  NoDup (m_ID <$> resolve_from used docs models) ∧
  length (resolve_from used docs models) ≤ length docs ∧
  (∀ m, m ∈ resolve_from used docs models → m ∈ models ∧ m_ID m ∉ used
        ∧ ∃ target, target ∈ docs ∧ (0 <= scoreModelCandidate target m)%Z) ∧
  (∀ target m, target ∈ docs → m ∈ models → m_ID m ∉ used → (0 <= scoreModelCandidate target m)%Z →
     ∃ m', m' ∈ resolve_from used docs models ∧
           (m_ID m' = m_ID m ∨ (scoreModelCandidate target m <= scoreModelCandidate target m')%Z)).
Proof.
  revert used. induction docs as [|target docs IH]; intros used; simpl.
  { split_and!; [constructor|lia|by intros m ?%elem_of_nil|by intros t m ?%elem_of_nil]. }
  pose proof (best_model_spec target used models) as Hbest.
  destruct (best_model target used models) as [[m|] score].
  - destruct Hbest as (Hm & Hused & Hscore & Hpos & Hmax).
    destruct (IH ({[m_ID m]} ∪ used)) as (H1 & H2 & H3 & H4). split_and!.
    + simpl. constructor; [|done]. intros (x & Hid & Hx)%list_elem_of_fmap. apply H3 in Hx as (_ & Hx & _). set_solver.
    + simpl. lia.
    + intros x [->|Hx]%elem_of_cons.
      * split_and!; [done|done|]. exists target. split; [by left|lia].
      * apply H3 in Hx as (? & ? & t & ? & ?). split_and!; [done|set_solver|]. exists t. split; [by right|done].
    + intros t x [->|Ht]%elem_of_cons Hx Hxu Hxs.
      * exists m. split; [by left|]. right. rewrite Hscore. by apply Hmax.
      * destruct (decide (m_ID x = m_ID m)) as [E|E]; [exists m; split; [by left|by left]|].
        destruct (H4 t x Ht Hx ltac:(set_solver) Hxs) as (m' & ? & ?). exists m'. split; [by right|done].
  - destruct Hbest as [_ Hnone]. destruct (IH used) as (H1 & H2 & H3 & H4). split_and!; [done|lia| |].
    + intros x Hx. apply H3 in Hx as (? & ? & t & ? & ?). split_and!; [done|done|]. exists t. split; [by right|done].
    + intros t x [->|Ht]%elem_of_cons Hx Hxu Hxs; [specialize (Hnone x Hx Hxu); lia|]. by apply (H4 t x).
Qed.

(** The free models of the account: distinct models of the upstream list, at most one
    for each name of the documentation, each with a name that fits one of these; and a
    name that fits an upstream model is represented, by that model or by one that fits it
    as well. *)
Theorem free_models_are_matched docs (ml : ModelList) :
  let models := resolveEffectiveCopilotFreeModels docs ml in
  NoDup (m_ID <$> models) ∧ length models ≤ length docs ∧
  (∀ m, m ∈ models → m ∈ ml_Data ml ∧ ∃ target, target ∈ docs ∧ (0 <= scoreModelCandidate target m)%Z) ∧
  (∀ target m, target ∈ docs → m ∈ ml_Data ml → (0 <= scoreModelCandidate target m)%Z →
     ∃ m', m' ∈ models ∧ (m_ID m' = m_ID m ∨ (scoreModelCandidate target m <= scoreModelCandidate target m')%Z)).
Proof.
  destruct (resolve_from_spec ∅ docs (ml_Data ml)) as (H1 & H2 & H3 & H4). split_and!; [done|done| |].
  - intros m Hm. destruct (H3 m Hm) as (? & _ & ?). done.
  - intros target m Ht Hm. apply H4; [done|done|]. set_solver.
Qed.

(** ** The catalog *)

Lemma refresh_keeps w c c' e :
  refreshLocked w c = (c', e) →
  fc_ttl c' = fc_ttl c ∧
  match e with
  | Some _ => c' = c
  | None => ∃ sn, fc_snapshot c' = Some sn ∧ sn_FetchedAt sn = rw_now w
      ∧ (∀ x, x ∈ sn_EligibleModels sn ↔ x ∈ sn_FreePlanModels sn ∧ x ∈ sn_ZeroPremiumModels sn)
      ∧ (fc_file c' = fc_file c ∨ fc_file c' = Some (Some (encode sn)))
      ∧ (rw_written w = true → is_Some (fc_file c) → fc_file c' = Some (Some (encode sn)))
  end.
Proof.
  unfold refreshLocked. repeat (case_match; [|by intros [= <- <-]]).
  intros [= <- <-]. unfold saveCache. simpl.
  match goal with |- context [mkSnapshot ?a ?b ?c ?d ?e] => set (sn := mkSnapshot a b c d e) end.
  destruct (fc_file c) as [content|] eqn:Hf, (rw_written w); simpl; rewrite ?Hf;
    (split; [done|]); exists sn; (split_and!; [done|done|apply intersect_spec|by auto|]); intros; try done;
    match goal with H : is_Some None |- _ => by destruct H end.
Qed.

(** Once a catalog has been read, [EligibleModels] always answers: from the snapshot
    while it is fresh, otherwise from the pages, and from the old snapshot, which stays, when they
    cannot be read.  A snapshot that was written to the file is there after a restart, and
    its models are those of both pages. *)
Theorem free_catalog_outlives_failures t1 t2 w c sn
    (Hsnapshot : fc_snapshot c = Some sn) :
  let '(c', r) := snapshotForUse t1 t2 w c in
  ∃ sn', r = Ok sn' ∧ fc_snapshot c' = Some sn' ∧
    (sn' = sn ∧ c' = c
     ∨ isFresh t1 c = false ∧ sn_FetchedAt sn' = rw_now w
       ∧ (∀ x, x ∈ sn_EligibleModels sn' ↔ x ∈ sn_FreePlanModels sn' ∧ x ∈ sn_ZeroPremiumModels sn')
       ∧ (rw_written w = true → is_Some (fc_file c) → decode (encode sn') = Some sn' →
          fc_snapshot (NewCopilotFreeCatalog (fc_ttl c) (fc_file c')) = Some sn')).
Proof.
  unfold snapshotForUse.
  destruct (isFresh t1 c) eqn:Hfresh; [rewrite Hsnapshot; exists sn; by auto|].
  destruct (isFresh t2 c) eqn:Hfresh2; [rewrite Hsnapshot; exists sn; by auto|].
  destruct (refreshLocked w c) as [c' [e|]] eqn:Hr; apply refresh_keeps in Hr as [Httl Hr].
  - subst c'. rewrite Hsnapshot. exists sn. by auto.
  - destruct Hr as (sn' & Hsn & Hnow & Helig & _ & Hfile). rewrite Hsn. exists sn'. split_and!; [done|done|].
    right. split_and!; [done|done|done|]. intros Hw Hf Hd. unfold NewCopilotFreeCatalog, loadCache. simpl.
    by rewrite (Hfile Hw Hf), Hd.
Qed.

(** ** Requests for a free model *)

Context (parse : string → option json) `{JSON}.

Record free_state := mkFreeState { fs_provider : copilot_state; fs_catalog : free_catalog }.

(** What one round over the accounts meets: the refresh of the catalog, the list of
    models, the calls one by one, and the rotation. *)
Record free_round := mkFreeRound {
  fr_t1 : Time; fr_t2 : Time; fr_refresh : refresh_world;
  fr_now : Z; fr_l1 : Time; fr_l2 : Time; fr_l3 : Time; fr_models : option http_response;
  fr_call : nat → copilot_world; fr_cuts : nat → list string;
  fr_mark : Z; fr_clock : nat → Z;
}.

Definition plain_error (message : string) : perr := mkPerr message (mkError false false) None.

(* src/src/copilot_provider.go CopilotProvider.resolveFreeChatModels *)
Definition resolveFreeChatModels (store : copilot_store) (w : free_round) (s : free_state)
    : go_outcome (free_state * result (list Model) perr) :=
  let '(catalog, docEligible) := EligibleModels (fr_t1 w) (fr_t2 w) (fr_refresh w) (fs_catalog s) in
  let s := mkFreeState (fs_provider s) catalog in
  match docEligible with
  | Err _ => Returns (s, Err (plain_error "copilot free catalog unavailable"))
  | Ok docEligible =>
    let! (p, rawModels) := listRawModels parse store (fr_now w) (fr_l1 w) (fr_l2 w) (fr_l3 w) (fr_models w) (fs_provider s) in
    let s := mkFreeState p (fs_catalog s) in
    Returns (s,
      match rawModels with
      | Err (Unauthenticated e) => Err e
      | Err (Fetching _) => Err (plain_error "copilot /models")
      | Ok ml =>
        match resolveEffectiveCopilotFreeModels docEligible ml with
        | [] => Err (plain_error "no eligible copilot free chat models available")
        | effective => Ok effective
        end
      end)
  end.

Definition with_free_cursor (n : Z) (s : copilot_state) : copilot_state :=
  mkCopilotState (ps_cfg s) (ps_cursor s) (ps_breaker s) (ps_cache s) n.

(** The counter is a [uint64]; a negative start is out of the slice's bounds. *)
(* src/src/copilot_provider.go CopilotProvider.nextFreeChatAttemptOrder *)
Definition nextFreeChatAttemptOrder (models : list Model) (s : copilot_state)
    : go_outcome (copilot_state * list Model) :=
  if length models <=? 1 then Returns (s, models)
  else
    let start := Z.rem (wrap_i64 (ps_free_cursor s)) (Z.of_nat (length models)) in
    let s := with_free_cursor (wrap_u64 (ps_free_cursor s + 1)) s in
    if (start <? 0)%Z then Panics
    else Returns (s, drop (Z.to_nat start) models ++ take (Z.to_nat start) models).

Inductive free_end :=
| FreeAnswer (out : go_outcome (list action * option perr))
| FreeLimited (r : http_response) (index : nat)
| FreeNothing.

(** The loop over the models of one account; [n] counts the calls. *)
(* src/src/copilot_provider.go:317-352 CopilotProvider.ProxyFreeChatRequest *)
Fixpoint free_loop (store : copilot_store) (w : free_round) (method body : string) (n : nat)
    (attempts : list Model) (s : copilot_state) : go_outcome (copilot_state * list copilot_call * free_end) :=
  match attempts with
  | [] => Returns (s, [], FreeNothing)
  | model :: rest =>
    let last := bool_decide (rest = []) in
    let continue s call :=
      let! (s, calls, e) := free_loop store w method body (S n) rest s in
      Returns (s, option_list call ++ calls, e) in
    match PatchModel body (m_ID model) with
    | Panics => Returns (s, [], FreeAnswer Panics)
    | Returns patchedBody =>
      let! (s, call, r) := executeProxyRequest store (fr_call w n) method patchedBody CapabilityChat s in
      let stop e := Returns (s, option_list call, e) in
      match r with
      | Err (e, _) => if last then stop (FreeAnswer (Returns ([], Some e))) else continue s call
      | Ok x =>
        let response := ex_response x in
        match isAccountLimitSignal response with
        | Some _ => if last then stop (FreeLimited response (ex_index x)) else continue s call
        | None =>
          match shouldShiftToNextCopilotModel response with
          | Some _ =>
            if last then stop (FreeAnswer (writeProxyResponse (fr_cuts w n) response CapabilityChat (ex_model x)))
            else continue s call
          | None => stop (FreeAnswer (writeProxyResponse (fr_cuts w n) response CapabilityChat (ex_model x)))
          end
        end
      end
    end
  end.

(* src/src/copilot_provider.go CopilotProvider.ProxyFreeChatRequest *)
Fixpoint free_rounds (rounds n : nat) (store : copilot_store) (world : nat → free_round) (method body : string)
    (s : free_state) : go_outcome (free_state * list (list copilot_call) * go_outcome (list action * option perr)) :=
  match rounds with
  | O => Returns (s, [], Returns ([], Some (plain_error "copilot free-model failover exhausted")))
  | S rounds =>
    let w := world n in
    let! (s, models) := resolveFreeChatModels store w s in
    match models with
    | Err e => Returns (s, [], Returns ([], Some e))
    | Ok models =>
      let! (p, attempts) := nextFreeChatAttemptOrder models (fs_provider s) in
      let! (p, calls, e) := free_loop store w method body 0 attempts p in
      let again p :=
        let! (s, calls', out) := free_rounds rounds (S n) store world method body (mkFreeState p (fs_catalog s)) in
        Returns (s, calls :: calls', out) in
      match e with
      | FreeAnswer out => Returns (mkFreeState p (fs_catalog s), [calls], out)
      | FreeNothing => again p
      | FreeLimited response index =>
        let '(l, cursor, advanced) :=
          advanceFrom (fr_mark w) (fr_clock w) (cooldownSeconds (cp_AccountCooldownSeconds (ps_cfg p)))
            (Z.of_nat index) (ps_cursor p) (pool p) in
        let p := with_pool l cursor p in
        if advanced then again p
        else Returns (mkFreeState p (fs_catalog s), [calls],
                      writeProxyResponse (fr_cuts w (length attempts - 1)) response CapabilityChat "")
      end
    end
  end.

(* src/src/copilot_provider.go CopilotProvider.ProxyFreeChatRequest *)
Definition ProxyFreeChatRequest (store : copilot_store) (world : nat → free_round) (method body : string)
    (s : free_state) : go_outcome (free_state * list (list copilot_call) * go_outcome (list action * option perr)) :=
  free_rounds (Nat.max 1 (length (pool (fs_provider s)))) 0 store world method body s.

(** ** Requests *)

(** The order of a request's attempts is the list of models turned by the counter,
    which the request advances by one, so each model comes first equally often; there is no
    panic while the counter is below 2^63. *)
Theorem free_attempts_take_turns models s
    (Hcursor : (0 <= ps_free_cursor s < 2 ^ 63)%Z) :
  ∃ s' order, nextFreeChatAttemptOrder models s = Returns (s', order) ∧ order ≡ₚ models ∧
    (1 < length models → ps_free_cursor s' = (ps_free_cursor s + 1)%Z ∧
       head order = models !! Z.to_nat (ps_free_cursor s mod Z.of_nat (length models))).
Proof.
  unfold nextFreeChatAttemptOrder. destruct (Nat.leb_spec (length models) 1) as [Hone|Hmany].
  { eexists _, _. split; [done|]. split; [done|]. lia. }
  rewrite wrap_i64_small by lia. rewrite Z.rem_mod_nonneg by lia.
  pose proof (Z.mod_pos_bound (ps_free_cursor s) (Z.of_nat (length models)) ltac:(lia)) as Hmod.
  destruct (Z.ltb_spec (ps_free_cursor s mod Z.of_nat (length models)) 0); [lia|].
  eexists _, _. split; [reflexivity|]. set (k := Z.to_nat _). split.
  { rewrite Permutation_app_comm. by rewrite take_drop. }
  intros _. split; [simpl; apply wrap_u64_small; lia|].
  assert (k < length models) as Hk by lia. destruct (lookup_lt_is_Some_2 models k Hk) as [m Hm].
  by rewrite Hm, (drop_S _ _ _ Hm).
Qed.

(** A round's calls: one per model, in the order of the attempts, with the model's name
    in the body. *)
Lemma free_loop_calls store w method body n attempts s s' calls e :
  free_loop store w method body n attempts s = Returns (s', calls, e) →
  length calls ≤ length attempts ∧
  Forall (λ call, ∃ m, m ∈ attempts ∧ PatchModel body (m_ID m) = Returns (pc_body call)) calls.
Proof.
  revert n s s' calls e. induction attempts as [|model rest IH]; intros n s s' calls e; cbn [free_loop].
  { intros [= <- <- <-]. split; [simpl; lia|constructor]. }
  destruct (PatchModel body (m_ID model)) as [patched|] eqn:Hpatch; [|intros [= <- <- <-]; split; [simpl; lia|constructor]].
  destruct (executeProxyRequest _ _ _ _ _ s) as [[[s1 call] r]|] eqn:Hex; cbn [go_bind]; [|done].
  assert (Forall (λ call, ∃ m, m ∈ model :: rest ∧ PatchModel body (m_ID m) = Returns (pc_body call)) (option_list call)) as Hcall.
  { destruct call as [call|]; [|constructor]. constructor; [|constructor]. exists model. split; [by left|].
    rewrite Hpatch. f_equal. unfold executeProxyRequest in Hex.
    destruct (EnsureAuthenticated _ _ s) as [[?|]|]; cbn [go_bind] in Hex; [by simplify_eq| |done].
    destruct (canExecute _ _) as [cb []]; cbn [negb] in Hex; [|by simplify_eq].
    destruct (credentialSnapshot _ _) as [[i token]|]; cbn [go_bind] in Hex; [|done].
    change (String.eqb CapabilityChat CapabilityEmbeddings) with false in Hex. cbv iota zeta beta in Hex.
    destruct (snd (send _ _ _ _)); by simplify_eq. }
  assert (length (option_list call) ≤ 1) as Hlen by (destruct call; simpl; lia).
  assert (∀ s0 s' calls e, (let! (s, calls, e) := free_loop store w method body (S n) rest s0 in
    Returns (s, option_list call ++ calls, e)) = Returns (s', calls, e) →
    length calls ≤ length (model :: rest) ∧
    Forall (λ call, ∃ m, m ∈ model :: rest ∧ PatchModel body (m_ID m) = Returns (pc_body call)) calls) as Hrest.
  { intros s0 s2 calls2 e2. destruct (free_loop _ _ _ _ (S n) rest s0) as [[[s3 calls3] e3]|] eqn:Hl; [|done].
    intros [= <- <- <-]. apply IH in Hl as [H1 H2]. rewrite length_app. split; [simpl; lia|].
    apply Forall_app. split; [done|]. eapply Forall_impl; [exact H2|]. intros c (m & ? & ?). exists m.
    split; [by right|done]. }
  assert (length (option_list call) ≤ length (model :: rest)) by (simpl; lia).
  destruct r as [x|[err i]]; [destruct (isAccountLimitSignal _); [|destruct (shouldShiftToNextCopilotModel _)]|];
    try destruct (bool_decide _); (apply Hrest || (intros [= <- <- <-]; by split)).
Qed.
End catalog.

Module ExampleFree.

Definition unescape (s : string) : string := s.
Definition quote : string := str [34].

Definition plans : string :=
  "<h2 id=" +:+ quote +:+ "Supported-AI-models-per-Copilot-plan" +:+ quote +:+ ">Plans</h2><TABLE class=x><thead><tr><th>Model</th>"
  +:+ "<th scope=col>Copilot <b>Free</b></th><th>Pro</th></tr></thead>"
  +:+ "<tr><th>GPT-4.1</th><td><svg aria-label=" +:+ quote +:+ "Included" +:+ quote +:+ "></td><td></td></tr>"
  +:+ "<tr><td>Opus 4 (preview)</td><td>no</td><td aria-label='included'></td></tr>"
  +:+ "<tr><td>o3-mini (old)</td><td><i aria-label='included'></i></td></tr></TABLE>".

Definition multipliers : string :=
  "<h2 id=" +:+ quote +:+ "model-multipliers" +:+ quote +:+ "><table><tr><td>Model</td><td>Multiplier for paid plans</td></tr>"
  +:+ "<tr><td>GPT 4.1</td><td> 0 </td></tr><tr><td>o3-mini</td><td>0.33</td></tr></table>".

Example plans_are_read :
  (parseCopilotPlanFreeModels unescape plans, parseZeroPremiumModels unescape multipliers)
  = (Ok ["gpt 4 1"; "o3 mini"], Ok ["gpt 4 1"]).
Proof. vm_compute. reflexivity. Qed.

Example page_without_section : parseCopilotPlanFreeModels unescape multipliers = Err SectionNotFound.
Proof. vm_compute. reflexivity. Qed.

Definition upstream_models : ModelList :=
  mkModelList "list" [mkModel "gpt-4.1-2025-04-14" "" 0 "" "GPT 4.1" "" "" false "" false [];
                      mkModel "gpt-4.1" "" 0 "" "GPT 4.1" "" "" true "" false [];
                      mkModel "o3" "" 0 "" "o3" "" "" true "" true []].

(** Among the models that fit, the one the picker shows is preferred. *)
Example picker_model_is_preferred :
  m_ID <$> resolveEffectiveCopilotFreeModels unescape ["gpt 4 1"; "o3 mini"] upstream_models = ["gpt-4.1"].
Proof. vm_compute. reflexivity. Qed.

Definition encode (sn : snapshot) : string := Join (sn_EligibleModels sn) ",".
Definition decode (s : string) : option snapshot := Some (mkSnapshot [] 0 [] [] (Split s ",")).

Definition snap : snapshot := mkSnapshot [] 100 ["a"] ["a"] ["a"].
Definition known : free_catalog := mkFreeCatalog (Some snap) 50 (Some None).

Definition refreshed : refresh_world := mkRefreshWorld (Page 200 (Some plans)) (Page 200 (Some multipliers)) 500 true.

Example stale_catalog_is_refreshed :
  snd (EligibleModels unescape encode 400 400 refreshed known) = Ok ["gpt 4 1"]
  ∧ snd (EligibleModels unescape encode 400 400 (mkRefreshWorld (Page 503 None) NoPage 500 true) known) = Ok ["a"].
Proof. split; vm_compute; reflexivity. Qed.

Lemma free_catalog_outlives_failures_witness :
  ∃ c' sn', snapshotForUse unescape encode 400 400 refreshed known = (c', Ok sn')
    ∧ fc_snapshot c' = Some sn' ∧ sn_FetchedAt sn' = 500%Z.
Proof.
  pose proof (free_catalog_outlives_failures unescape encode decode 400 400 refreshed known snap eq_refl) as H.
  destruct (snapshotForUse unescape encode 400 400 refreshed known) as [c' r] eqn:E.
  destruct H as (sn' & -> & H1 & [[-> ->]|(_ & H2 & _)]).
  - apply (f_equal (λ x, fc_snapshot x.1)) in E. vm_compute in E. discriminate E.
  - exists c', sn'. split; [reflexivity|]. split; [exact H1|exact H2].
Defined.

Definition provider : copilot_state := NewCopilotProvider (λ _, 0%Z) 30 (mkCopilotProvider true (mkCopilotAuth "" "" None "" None 0 0) None 0 None).

Lemma free_attempts_take_turns_witness :
  ∃ s' order, nextFreeChatAttemptOrder (ml_Data upstream_models) (with_free_cursor 7 provider) = Returns (s', order)
    ∧ order ≡ₚ ml_Data upstream_models ∧ head order = ml_Data upstream_models !! 1.
Proof.
  destruct (free_attempts_take_turns (ml_Data upstream_models) (with_free_cursor 7 provider)) as (s' & order & H1 & H2 & H3).
  { split; [discriminate|reflexivity]. }
  exists s', order. split; [exact H1|]. split; [exact H2|].
  destruct H3 as [_ H3]; [simpl; lia|]. exact H3.
Defined.

End ExampleFree.
