(* ===== verification/ManagedRuntime.v ===== *)
(** * The providers of the daemon, built from its configuration

    [src/src/managed_runtime.go]: the compiled factories, the desired providers of a
    configuration with their fingerprints, the manager of the daemon, the handlers that
    hold a lease on a snapshot, and the health resources.  It puts the provider manager
    ([ProviderManager]) on top of the three providers ([CopilotBackend], [CodexBackend],
    [Kilo]): the configuration a factory gets is the whole [Config]. *)

From S2P Require Import Prelude GoStd Provider Config Availability Routing ProviderManager Upstream Accounts.
From S2P Require Import Writers GoJson Failover Kilo CodexBackend CopilotBackend.

Section managed.
(** [sha_json] is the digest of the JSON text of a fingerprint's input; the two parsers
    are those of the addresses of [Kilo]; [clock] is the manager's. *)
(** What the fingerprint of a provider is made of. *)
(* src/src/managed_runtime.go:160-163 desiredProviders *)
(* src/src/managed_runtime.go:170-174 desiredProviders *)
(* src/src/managed_runtime.go:181-184 desiredProviders *)
Inductive fingerprint_input :=
| FCopilot (p : CopilotProvider) (t : Timeouts)
| FCodex (p : CodexProvider) (t : Timeouts) (m : gmap string ModelMapEntry)
| FKilo (p : KiloProvider) (t : Timeouts).

Context (sha_json : fingerprint_input → string).

(* src/src/managed_runtime.go runtimeConfigFingerprint *)
Definition runtimeConfigFingerprint (x : fingerprint_input) : string := sha_json x.

Definition account_states {A} (id label : A → string) (accounts : list A) : list AccountState :=
  match accounts with
  | [] => [mkAccount "default" "Default" true 0]
  | _ => imap (λ index a, mkAccount (id a) (label a) true (Z.of_nat index)) accounts
  end.

(* src/src/managed_runtime.go copilotAccountState *)
Definition copilotAccountState (c : Config) : list AccountState :=
  account_states cpa_ID cpa_Label (elems (cp_Accounts (pr_Copilot (cfg_Providers c)))).
(* src/src/managed_runtime.go codexAccountState *)
Definition codexAccountState (c : Config) : list AccountState :=
  account_states cxa_ID cxa_Label (elems (cx_Accounts (pr_Codex (cfg_Providers c)))).

(* src/src/managed_runtime.go:156-165 desiredProviders *)
Definition copilot_spec (c : Config) : DesiredProvider (Cfg := Config) :=
  let p := pr_Copilot (cfg_Providers c) in
  mkDesired Copilot (cp_Enabled p) (Clone c) (runtimeConfigFingerprint (FCopilot p (cfg_Timeouts c))) (copilotAccountState c).
(* src/src/managed_runtime.go:166-176 desiredProviders *)
Definition codex_spec (c : Config) : DesiredProvider (Cfg := Config) :=
  let p := pr_Codex (cfg_Providers c) in
  mkDesired Codex (cx_Enabled p) (Clone c)
    (runtimeConfigFingerprint (FCodex p (cfg_Timeouts c) (ModelMap (cfg_Routing c)))) (codexAccountState c).
(* src/src/managed_runtime.go:177-186 desiredProviders *)
Definition kilo_spec (c : Config) : DesiredProvider (Cfg := Config) :=
  let p := pr_Kilo (cfg_Providers c) in
  mkDesired Provider.Kilo (kp_Enabled p) (Clone c) (runtimeConfigFingerprint (FKilo p (cfg_Timeouts c)))
    [mkAccount "default" "Default" true 0].

(* src/src/managed_runtime.go desiredProviders *)
Definition desiredProviders (c : Config) : list (DesiredProvider (Cfg := Config)) :=
  [copilot_spec c; codex_spec c; kilo_spec c].

(** ** Factories *)

Context (url_Parse : string → option URL) (url_String : URL → string)
  (getenv : string → string) (store : option (string → option string)) (now : nat → Z).

(** The answers of a new instance.  Its listing, its health and its catalog change with
    time and with the network; [answers] is what they are when the manager asks. *)
Context (answers : string → nat → result (option (list string)) string * Provider.Health).

Definition new_instance (id : string) (n : nat) (capabilities allowed : list string) : Provider :=
  mkProvider id capabilities (fst (answers id n)) (snd (answers id n)) (Some None) (Some allowed).

(** The instants [NewCodexProvider] reads are those of the pool's check. *)
Definition codex_of (c : Config) : codex_state :=
  NewCodexProvider now (Config.CircuitBreaker (cfg_Timeouts c)) (pr_Codex (cfg_Providers c)).
Definition kilo_env_of (c : Config) : kilo_env := mkEnvironment (pr_Kilo (cfg_Providers c)) getenv store.

(* src/src/managed_runtime.go validateRuntimeConfig *)
Definition validateRuntimeConfig (c : Config) : bool := true.

(** The names of the providers are constants that are not blank. *)
(* src/src/managed_runtime.go validateBuiltProvider *)
Definition validateBuiltProvider (i : instance) : bool := negb (bool_decide (p_Capabilities (in_methods i) = [])).

Definition field_ (name : string) (type : Descriptor.ConfigValueType) (secret : bool) : Descriptor.ConfigField :=
  Descriptor.mkField name type false secret.

(* src/src/managed_runtime.go:58-80 compiledProviderFactoriesWithAuth *)
Definition copilot_factory : FactoryFuncs (Cfg := Config) :=
  mkFactory (Descriptor.mk Copilot "GitHub Copilot" [CapabilityChat; CapabilityEmbeddings]
      [Descriptor.AuthDeviceCode; Descriptor.AuthManualTokenRecovery] true
      [field_ "allowed_models" Descriptor.ConfigStrings false;
       field_ "account_cooldown_seconds" Descriptor.ConfigInteger false] 1)
    (Some validateRuntimeConfig)
    (Some (λ n c, Built (new_instance Copilot n copilot_Capabilities
                           (elems (cp_AllowedModels (pr_Copilot (cfg_Providers c))))) None))
    (Some validateBuiltProvider).

(* src/src/managed_runtime.go:81-105 compiledProviderFactoriesWithAuth *)
Definition codex_factory : FactoryFuncs (Cfg := Config) :=
  mkFactory (Descriptor.mk Codex "OpenAI Codex" [CapabilityChat; CapabilityResponses; CapabilityEmbeddings]
      [Descriptor.AuthDeviceCode; Descriptor.AuthAPIKey] true
      [field_ "api_key" Descriptor.ConfigString true; field_ "allowed_models" Descriptor.ConfigStrings false;
       field_ "account_cooldown_seconds" Descriptor.ConfigInteger false;
       field_ "chatgpt_base_url" Descriptor.ConfigString false] 1)
    (Some validateRuntimeConfig)
    (Some (λ n c, Built (new_instance Codex n (Capabilities (codex_of (Clone c)))
                           (elems (cx_AllowedModels (pr_Codex (cfg_Providers c))))) None))
    (Some validateBuiltProvider).

(* src/src/managed_runtime.go:106-132 compiledProviderFactoriesWithAuth *)
Definition kilo_factory : FactoryFuncs (Cfg := Config) :=
  mkFactory (Descriptor.mk Provider.Kilo "Kilo Gateway" [CapabilityChat; CapabilityResponses]
      [Descriptor.AuthAnonymous; Descriptor.AuthAPIKey] false
      [field_ "allow_anonymous" Descriptor.ConfigBoolean false; field_ "api_key" Descriptor.ConfigString true;
       field_ "organization_id" Descriptor.ConfigString true; field_ "base_url" Descriptor.ConfigString false;
       field_ "allowed_models" Descriptor.ConfigStrings false] 1)
    (Some validateRuntimeConfig)
    (Some (λ n c,
       match baseURL url_Parse url_String (kilo_env_of (Clone c)) with
       | Err _ => BuildFailed
       | Ok _ => Built (new_instance Provider.Kilo n [CapabilityChat; CapabilityResponses]
                          (elems (kp_AllowedModels (pr_Kilo (cfg_Providers c))))) None
       end))
    (Some validateBuiltProvider).

(* src/src/managed_runtime.go compiledProviderFactoriesWithAuth *)
Definition compiledProviderFactories : list (FactoryFuncs (Cfg := Config)) :=
  [copilot_factory; codex_factory; kilo_factory].

(** ** The manager of the daemon *)

Context (configFingerprint : Config → option string) (clock : nat → Time).

(* src/src/managed_runtime.go providerDrainTimeout *)
Definition providerDrainTimeout (c : Config) : Duration :=
  let seconds := ProxyContext (cfg_Timeouts c) in
  wrap_i64 ((if (seconds <=? 0)%Z then 30 else seconds) * Second).

Fixpoint register_all (l : list (FactoryFuncs (Cfg := Config))) (m : Manager (Cfg := Config))
    : Manager * result unit error :=
  match l with
  | [] => (m, Ok tt)
  | f :: l =>
    match RegisterFactory clock (Some f) m with
    | (m, Ok _) => register_all l m
    | (m, Err e) => (m, Err e)
    end
  end.

(** [publish] is the snapshot manager, [sample] what the instances' [Health] answers. *)
(* src/src/managed_runtime.go newProviderManagerWithAuth *)
(* src/src/managed_runtime.go newProviderManager *)
Definition newProviderManager (publish : list instance → option Z) (sample : nat → Provider.Health) (c : Config)
    : result (Manager (Cfg := Config)) error :=
  let? m := NewManager true (Some ∅) (Some (EventBus.NewEventBus 256)) (mkOptions (providerDrainTimeout c) (5 * Second)) in
  let '(m, r) := register_all compiledProviderFactories m in
  let? _ := r in
  let '(m, r) := run configFingerprint clock false (OpReconcile (desiredProviders c)) publish sample m in
  let? _ := r in Ok m.

(** ** Handlers *)

(** A handler that serves from a leased snapshot; the deferred [Release] runs however
    it ends. *)
(* src/src/managed_runtime.go managedProxyHandler *)
(* src/src/managed_runtime.go managedAnthropicHandler *)
(* src/src/managed_runtime.go managedModelsHandler *)
Definition managed_handler {S A} (acquire : option S) (unavailable : A) (serve : S → go_outcome A)
    : go_outcome A * bool :=
  match acquire with
  | None => (Returns unavailable, false)
  | Some snapshot => (serve snapshot, true)
  end.

Definition status_document (status : string) (more : list (string * json)) : json :=
  obj (("status", JStr status) :: more).

Definition of_status (s : ProviderStatus) : json :=
  obj [("id", JStr (Descriptor.d_ID (st_Descriptor s))); ("name", JStr (Descriptor.d_Name (st_Descriptor s)));
       ("authenticated", JBool (Authenticated (HealthRegistry.hr_Health (st_Health s))));
       ("can_refresh", JBool (CanRefresh (HealthRegistry.hr_Health (st_Health s))));
       ("capabilities", JArr (JStr <$> st_EffectiveCapabilities s))].

Definition is_authenticated (s : ProviderStatus) : bool := Authenticated (HealthRegistry.hr_Health (st_Health s)).

(* src/src/managed_runtime.go writeManagedReadiness *)
Definition writeManagedReadiness (statuses : list ProviderStatus) : Z * json :=
  match statuses with
  | [] => (StatusServiceUnavailable, status_document "not_ready" [("reason", JStr "no providers registered")])
  | _ =>
    let ready := length (List.filter is_authenticated statuses) in
    let counts := [("ready_providers", of_int (Z.of_nat ready)); ("total_providers", of_int (Z.of_nat (length statuses)))] in
    if (ready =? 0)%nat then (StatusServiceUnavailable, status_document "not_ready" counts)
    else (StatusOK, status_document "ready" counts)
  end.

(* src/src/managed_runtime.go writeManagedProviderHealth *)
Definition writeManagedProviderHealth (statuses : list ProviderStatus) : Z * json :=
  (StatusOK, status_document "ok" [("providers", JArr (of_status <$> statuses))]).

(** The umbrella document of the current snapshot, [None] when no snapshot can be leased;
    [readiness] and [metrics] are those of [Routing] as JSON. *)
(* src/src/managed_runtime.go writeManagedUmbrellaDiagnostics *)
Definition writeManagedUmbrellaDiagnostics (umbrella : option (json * json)) : Z * json :=
  match umbrella with
  | None => (StatusServiceUnavailable, status_document "unavailable" [])
  | Some (readiness, metrics) =>
    (StatusOK, status_document "ok" [("virtual_models", readiness); ("metrics", metrics)])
  end.

Definition TrimSuffix_slash (path : string) : string :=
  if HasPrefix (str_rev path) "/" then str_rev (str_drop 1 (str_rev path)) else path.

(* src/src/managed_runtime.go managedHealthHandler *)
Definition managedHealthHandler (unix : Z) (umbrella : option (json * json)) (sample : nat → Provider.Health)
    (urlPath : string) (m : Manager (Cfg := Config)) : Manager (Cfg := Config) * (Z * json) :=
  let path := TrimSuffix_slash urlPath in
  if String.eqb path "/health"
  then (m, (StatusOK, status_document "ok" [("service", JStr "ya-router"); ("timestamp", of_int unix)]))
  else if String.eqb path "/health/umbrella" then (m, writeManagedUmbrellaDiagnostics umbrella)
  else
    let m := RefreshHealth clock sample m in
    let enabled := List.filter st_Enabled (ProviderManager.List m) in
    (m, if String.eqb path "/health/ready" then writeManagedReadiness enabled
        else if String.eqb path "/health/providers" then writeManagedProviderHealth enabled
        else (StatusOK, status_document "ok" [])).

(** ** Registration *)

Lemma register_fresh (f : FactoryFuncs (Cfg := Config)) m :
  Descriptor.ValidateDescriptor (ff_ProviderDescriptor f) = Ok tt → factories m !! factory_ID f = None →
  ∃ m', RegisterFactory clock (Some f) m = (m', Ok tt) ∧ factories m' = <[factory_ID f := f]> (factories m)
    ∧ factoryOrder m' = factoryOrder m ++ [factory_ID f] ∧ desired m' = desired m ∧ effective m' = effective m.
Proof. intros Hd Hf. unfold RegisterFactory. rewrite Hd, Hf. by eexists. Qed.

(** The table of the registered factories. *)
Definition compiled_table : gmap string (FactoryFuncs (Cfg := Config)) :=
  <[Provider.Kilo := kilo_factory]> (<[Codex := codex_factory]> {[Copilot := copilot_factory]}).

Lemma compiled_registered m :
  factories m = ∅ → factoryOrder m = [] →
  ∃ m', register_all compiledProviderFactories m = (m', Ok tt) ∧ factories m' = compiled_table
    ∧ factoryOrder m' = [Copilot; Codex; Provider.Kilo] ∧ desired m' = desired m ∧ effective m' = effective m.
Proof.
  intros Hf Ho. unfold compiledProviderFactories.
  destruct (register_fresh copilot_factory m) as (m1 & H1 & F1 & O1 & D1 & E1); [done|by rewrite Hf|].
  destruct (register_fresh codex_factory m1) as (m2 & H2 & F2 & O2 & D2 & E2); [done|by rewrite F1, Hf|].
  destruct (register_fresh kilo_factory m2) as (m3 & H3 & F3 & O3 & D3 & E3); [done|by rewrite F2, F1, Hf|].
  exists m3. cbn [register_all]. rewrite H1, H2, H3. split; [done|].
  rewrite F3, F2, F1, Hf, O3, O2, O1, Ho, D3, D2, D1, E3, E2, E1. done.
Qed.

(** ** Construction *)

Lemma build_succeeds (f : FactoryFuncs (Cfg := Config)) c m p close :
  ValidateConfig f c = true → Build f (length (built m)) c = Built p close → p_ID p = factory_ID f →
  (∀ cap, cap ∈ p_Capabilities p → cap ∈ Descriptor.d_Capabilities (ff_ProviderDescriptor f)) →
  ValidateProvider f (mkInstance (length (built m)) p close) = true →
  ∃ m' i, build clock f c m = (m', Ok i) ∧ ProviderManager.same_tables m m'.
Proof.
  intros Hv Hb Hid Hcaps Hp. unfold build. rewrite Hv. simpl. rewrite Hb.
  unfold instance_ID. simpl. rewrite Hid, String.eqb_refl. simpl.
  rewrite (proj2 (Descriptor.validateCapabilities_Ok _ _) Hcaps), Hp. eexists _, _. by split.
Qed.

Lemma copilot_builds c m : ∃ m' i, build clock copilot_factory c m = (m', Ok i) ∧ ProviderManager.same_tables m m'.
Proof. eapply build_succeeds; [done|done|done|done|done]. Qed.

Lemma codex_builds c m : ∃ m' i, build clock codex_factory c m = (m', Ok i) ∧ ProviderManager.same_tables m m'.
Proof.
  eapply build_succeeds; [done|done|done| |].
  - cbn [p_Capabilities new_instance]. unfold Capabilities. intros cap. case_match; set_solver.
  - unfold ValidateProvider, codex_factory. cbn [ff_ValidateFunc]. unfold validateBuiltProvider. simpl.
    unfold Capabilities. by case_match.
Qed.

Definition kilo_ok (c : Config) : bool := is_ok (baseURL url_Parse url_String (kilo_env_of (Clone c))).

Lemma kilo_builds c m :
  if kilo_ok c then ∃ m' i, build clock kilo_factory c m = (m', Ok i) ∧ ProviderManager.same_tables m m'
  else ∃ m', build clock kilo_factory c m = (m', Err (ConstructFailed Provider.Kilo)) ∧ ProviderManager.same_tables m m'.
Proof.
  unfold kilo_ok. destruct (baseURL _ _ _) as [base|e] eqn:Hb; simpl.
  - eapply build_succeeds; [done|unfold Build, kilo_factory; cbn [ff_BuildFunc]; by rewrite Hb|done|done|done].
  - unfold build. change (ValidateConfig kilo_factory c) with true. cbn [negb].
    unfold Build, kilo_factory. cbn [ff_BuildFunc]. rewrite Hb. by eexists.
Qed.

(** ** The desired providers *)

(** Accounts that the manager accepts. *)
Definition accounts_ok (accounts : list AccountState) : Prop :=
  (∀ a, a ∈ accounts → ac_ID a ≠ "" ∧ (0 <= ac_Priority a)%Z) ∧ NoDup (ac_ID <$> accounts).

Lemma validateAccounts_Ok id accounts : validateAccounts id accounts = Ok tt ↔ accounts_ok accounts.
Proof.
  unfold validateAccounts, accounts_ok. rewrite scan_unique_Ok.
  assert (∀ a, (if String.eqb (ac_ID a) "" then Some (AccountIDRequired id)
    else if (ac_Priority a <? 0)%Z then Some (AccountPriorityNegative id (ac_ID a)) else None) = None
    ↔ ac_ID a ≠ "" ∧ (0 <= ac_Priority a)%Z) as Hpre.
  { intros a. destruct (String.eqb_spec (ac_ID a) "") as [E|E]; [split; [done|intros []; done]|].
    destruct (Z.ltb_spec (ac_Priority a) 0); split; intros; try done; lia. }
  split; intros [Hall Hnd]; (split; [|done]); intros a Ha.
  - by apply Hpre, (Hall a Ha).
  - split_and!; [by apply Hpre, Hall|done|set_solver].
Qed.

(** The accounts of a pool pass exactly when their identifiers are distinct and not
    empty. *)
Lemma account_states_ok {A} (id label : A → string) (l : list A) :
  accounts_ok (account_states id label l) ↔ "" ∉ (id <$> l) ∧ NoDup (id <$> l).
Proof.
  unfold account_states. destruct l as [|x l].
  { split; [intros _; split; [apply not_elem_of_nil|constructor]|]. intros _. unfold accounts_ok. split.
    - intros a Ha. apply list_elem_of_singleton in Ha as ->. split; [done|simpl; lia].
    - apply NoDup_singleton. }
  generalize (x :: l). clear x l. intros l.
  set (states := imap (λ index a, mkAccount (id a) (label a) true (Z.of_nat index)) l).
  assert (ac_ID <$> states = id <$> l) as Hids.
  { subst states. apply list_eq. intros i. rewrite list_lookup_fmap, list_lookup_imap, list_lookup_fmap.
    by destruct (l !! i). }
  unfold accounts_ok. rewrite Hids. split; intros [H1 H2]; (split; [|done]).
  - rewrite <- Hids, list_elem_of_fmap. intros (a & E & Ha). by destruct (H1 a Ha) as [[] _].
  - intros a Ha. split.
    + intros E. apply H1. rewrite <- Hids, list_elem_of_fmap. by exists a.
    + apply list_elem_of_lookup in Ha as [i Hi]. subst states. rewrite list_lookup_imap in Hi.
      destruct (l !! i); simplify_eq/=. lia.
Qed.

Definition pool_ids_ok (c : Config) : Prop :=
  ("" ∉ (cpa_ID <$> elems (cp_Accounts (pr_Copilot (cfg_Providers c))))
   ∧ NoDup (cpa_ID <$> elems (cp_Accounts (pr_Copilot (cfg_Providers c)))))
  ∧ ("" ∉ (cxa_ID <$> elems (cx_Accounts (pr_Codex (cfg_Providers c))))
     ∧ NoDup (cxa_ID <$> elems (cx_Accounts (pr_Codex (cfg_Providers c))))).

(** What the manager is asked for, by identifier. *)
Definition requested_of (c : Config) : gmap string (DesiredProvider (Cfg := Config)) :=
  list_to_map ((λ spec, (dp_ID spec, spec)) <$> reverse (desiredProviders c)).

Lemma pool_ids_accepted c :
  pool_ids_ok c ↔ validateAccounts Copilot (copilotAccountState c) = Ok tt ∧ validateAccounts Codex (codexAccountState c) = Ok tt.
Proof.
  unfold pool_ids_ok. rewrite !validateAccounts_Ok. unfold copilotAccountState, codexAccountState.
  by rewrite !account_states_ok.
Qed.

Lemma collect_desired c :
  match collect ∅ (desiredProviders c) with
  | Ok requested => pool_ids_ok c ∧ requested = requested_of c
  | Err _ => ¬ pool_ids_ok c
  end.
Proof.
  pose proof (pool_ids_accepted c) as Hids. unfold desiredProviders, copilot_spec, codex_spec, kilo_spec. cbn [collect dp_ID dp_Accounts].
  change (String.eqb Copilot "") with false. change (String.eqb Codex "") with false.
  change (String.eqb Provider.Kilo "") with false. cbv iota. rewrite lookup_empty. cbv iota.
  destruct (validateAccounts Copilot (copilotAccountState c)) as [[]|e]; [|cbn [bind_result]; intros [HA HB]%Hids; congruence]. cbn [bind_result].
  rewrite lookup_insert_ne, lookup_empty by done. cbv iota.
  destruct (validateAccounts Codex (codexAccountState c)) as [[]|e]; [|cbn [bind_result]; intros [HA HB]%Hids; congruence]. cbn [bind_result].
  rewrite !lookup_insert_ne, lookup_empty by done. cbv iota. split; [by apply Hids|done].
Qed.

Lemma requested_lookup c id :
  requested_of c !! id = (if decide (id = Provider.Kilo) then Some (kilo_spec c)
                          else if decide (id = Codex) then Some (codex_spec c)
                          else if decide (id = Copilot) then Some (copilot_spec c) else None).
Proof.
  unfold requested_of, desiredProviders. rewrite reverse_cons, reverse_cons, reverse_singleton.
  cbn [app fmap list_fmap list_to_map foldr fst snd uncurry]. unfold copilot_spec at 1, codex_spec at 1, kilo_spec at 1.
  cbn [dp_ID]. rewrite !lookup_insert, lookup_empty. repeat case_decide; congruence || done.
Qed.

Lemma build_loop_step requested order p (m : Manager (Cfg := Config)) id spec f :
  effective m = ∅ → requested !! id = Some spec → factories m !! id = Some f →
  (dp_Enabled spec = true → ∃ m' i, build clock f (dp_Config spec) m = (m', Ok i) ∧ ProviderManager.same_tables m m') →
  ∃ p' m', build_loop configFingerprint clock requested (id :: order) p m = build_loop configFingerprint clock requested order p' m'
    ∧ ProviderManager.same_tables m m'.
Proof.
  intros He Hr Hf Hb. cbn [build_loop]. rewrite Hr, Hf. destruct (dp_Enabled spec); simpl; [|by eexists _, _].
  assert (reusable configFingerprint spec m = None) as ->.
  { unfold reusable. rewrite He, lookup_empty. by repeat case_match. }
  destruct Hb as (m' & i & -> & Hs); [done|]. by eexists _, _.
Qed.

(** The daemon can build its providers from a configuration exactly when the accounts
    of each pool have distinct, non-empty identifiers and the Kilo provider, if enabled,
    has a usable base address: nothing else that an operator can write makes the
    construction of the providers fail. *)
Theorem daemon_builds_its_providers publish sample c (Hpublish : ∀ l, publish l ≠ None) :
  is_ok (newProviderManager publish sample c) = true ↔
  pool_ids_ok c ∧ (kp_Enabled (pr_Kilo (cfg_Providers c)) = true → kilo_ok c = true).
Proof.
  unfold newProviderManager, NewManager. cbn [negb bind_result default].
  match goal with |- context [register_all _ ?m] => destruct (compiled_registered m) as (m1 & -> & F1 & O1 & D1 & E1); [done|done|] end.
  cbn [bind_result]. unfold run, prepare, prepareReconcile. pose proof (collect_desired c) as Hc.
  destruct (collect ∅ (desiredProviders c)) as [requested|e]; [|cbn; split; [done|by intros [? _]]].
  destruct Hc as [Hids ->].
  assert (filter (λ kv, factories m1 !! kv.1 = None) (map_to_list (requested_of c)) = []) as ->.
  { apply elem_of_nil_inv. intros [id spec] [Hn Hin]%list_elem_of_filter. apply elem_of_map_to_list in Hin.
    rewrite requested_lookup in Hin. simpl in Hn. rewrite F1 in Hn. unfold compiled_table in Hn.
    repeat case_decide; subst; try done; simplify_map_eq. }
  rewrite O1.
  set (p0 := mkPlan ∅ [] ∅ false). simpl in E1.
  destruct (build_loop_step (requested_of c) [Codex; Provider.Kilo] p0 m1 Copilot (copilot_spec c) copilot_factory) as (p2 & m2 & -> & S2).
  { exact E1. } { by rewrite requested_lookup. } { by rewrite F1. } { intros _. apply copilot_builds. }
  destruct (build_loop_step (requested_of c) [Provider.Kilo] p2 m2 Codex (codex_spec c) codex_factory) as (p3 & m3 & -> & S3).
  { destruct S2 as (_ & _ & _ & ->). exact E1. } { by rewrite requested_lookup. }
  { destruct S2 as (-> & _). by rewrite F1. } { intros _. apply codex_builds. }
  assert (ProviderManager.same_tables m1 m3) as S13 by (by eapply same_tables_trans).
  destruct S13 as (HF & _ & _ & HE). rewrite F1 in HF. rewrite E1 in HE.
  pose proof (kilo_builds (Clone c) m3) as Hk.
  assert (kilo_ok (Clone c) = kilo_ok c) as Hkc by done. rewrite Hkc in Hk.
  destruct (kp_Enabled (pr_Kilo (cfg_Providers c)) && negb (kilo_ok c)) eqn:Hbad.
  - apply andb_true_iff in Hbad as [Hen Hko%negb_true_iff]. rewrite Hko in Hk. destruct Hk as (m4 & Hb4 & _).
    assert (build_loop configFingerprint clock (requested_of c) [Provider.Kilo] p3 m3
      = (publish_event clock EventBus.EventReconcileFailed Provider.Kilo 0 "build_or_validation_failed" 0
           (fst (closeProviders (pl_built p3) m4)), Err (ConstructFailed Provider.Kilo))) as ->.
    { cbn [build_loop]. rewrite requested_lookup, HF. rewrite decide_True by done.
      replace (compiled_table !! Provider.Kilo) with (Some kilo_factory) by done.
      unfold kilo_spec at 1. cbn [dp_Enabled]. rewrite Hen. cbn [negb].
      assert (∀ spec, reusable configFingerprint spec m3 = None) as Hre.
      { intros spec. unfold reusable. rewrite HE, lookup_empty. by repeat case_match. }
      rewrite Hre. unfold kilo_spec at 1. cbn [dp_Config]. by rewrite Hb4. }
    cbn. split; [done|]. intros [_ H]. by rewrite H in Hko.
  - destruct (build_loop_step (requested_of c) [] p3 m3 Provider.Kilo (kilo_spec c) kilo_factory) as (p4 & m4 & -> & S4).
    { exact HE. } { by rewrite requested_lookup. } { by rewrite HF. }
    { intros Hen. unfold kilo_spec in Hen. cbn [dp_Enabled] in Hen. rewrite Hen in Hbad. destruct (kilo_ok c); [exact Hk|done]. }
    cbn [build_loop]. split.
    + intros _. split; [done|]. intros Hen. rewrite Hen in Hbad. by destruct (kilo_ok c).
    + intros _. destruct (negb (pl_changed p4)); [done|].
      destruct (publish _) as [g|] eqn:Hp; [|by destruct (Hpublish _ Hp)].
      by destruct (complete _ _ _ _ _).
Qed.

(** ** Changes that concern no provider *)

(** The manager runs what a configuration asks for. *)
Record settled_on (c : Config) (m : Manager (Cfg := Config)) : Prop := {
  se_factories : factories m = compiled_table;
  se_order : factoryOrder m = [Copilot; Codex; Provider.Kilo];
  se_desired : ∀ spec, spec ∈ desiredProviders c → desired m !! dp_ID spec = Some (desired_record configFingerprint spec);
  se_effective : ∀ spec, spec ∈ desiredProviders c → is_Some (effective m !! dp_ID spec) ↔ dp_Enabled spec = true;
}.

(** The parts of a configuration that its providers are made from. *)
Definition provider_part (c : Config) := (cfg_Providers c, cfg_Timeouts c, ModelMap (cfg_Routing c)).

Lemma build_loop_keeps requested order p (m : Manager (Cfg := Config)) id spec spec0 f :
  requested !! id = Some spec → factories m !! id = Some f → id = dp_ID spec →
  desired m !! id = Some (desired_record configFingerprint spec0) →
  dp_Enabled spec0 = dp_Enabled spec → dp_ConfigFingerprint spec0 = dp_ConfigFingerprint spec →
  dp_ConfigFingerprint spec ≠ "" → (is_Some (effective m !! id) ↔ dp_Enabled spec = true) →
  ∃ p', build_loop configFingerprint clock requested (id :: order) p m = build_loop configFingerprint clock requested order p' m
    ∧ pl_changed p' = pl_changed p.
Proof.
  intros Hr Hf -> Hd Hen Hfp Hne Heff. cbn [build_loop]. rewrite Hr, Hf.
  destruct (dp_Enabled spec) eqn:He; cbn [negb].
  - destruct Heff as [_ [r Hr']]; [done|].
    assert (reusable configFingerprint spec m = Some r) as ->; [|by eexists].
    unfold reusable, desiredFingerprint. rewrite (proj2 (String.eqb_neq _ _) Hne), Hd, Hr'.
    unfold desired_record, desiredFingerprint. cbn [dr_enabled dr_fingerprint].
    rewrite Hen, Hfp, (proj2 (String.eqb_neq _ _) Hne). simpl. by rewrite String.eqb_refl.
  - eexists. split; [done|]. cbn [pl_changed].
    rewrite bool_decide_eq_false_2; [apply orb_false_r|]. intros H. by apply Heff in H.
Qed.

(** C27. A change of the configuration that leaves providers, timeouts and the model map
    alone keeps every provider instance: the reconciliation that follows it builds,
    publishes and retires nothing. *)
Theorem unrelated_changes_keep_the_providers c c' m
    (Hsettled : settled_on c m) (Hsame : provider_part c' = provider_part c)
    (Hids : pool_ids_ok c) (Hdigest : ∀ x, sha_json x ≠ "") :
  ∃ m' report, prepareReconcile configFingerprint clock false (desiredProviders c') m = (m', Ok (ProviderManager.Done report))
    ∧ effective m' = effective m ∧ built m' = built m ∧ closed m' = closed m ∧ settled_on c' m'.
Proof.
  destruct Hsettled as [Hf Ho Hd He]. injection Hsame as Hp Ht Hm.
  assert (pool_ids_ok c') as Hids' by (unfold pool_ids_ok in *; by rewrite Hp).
  unfold prepareReconcile. pose proof (collect_desired c') as Hc.
  destruct (collect ∅ (desiredProviders c')) as [requested|e]; [|done]. destruct Hc as [_ ->].
  assert (filter (λ kv, factories m !! kv.1 = None) (map_to_list (requested_of c')) = []) as ->.
  { apply elem_of_nil_inv. intros [id spec] [Hn Hin]%list_elem_of_filter. apply elem_of_map_to_list in Hin.
    rewrite requested_lookup in Hin. simpl in Hn. rewrite Hf in Hn. unfold compiled_table in Hn.
    repeat case_decide; subst; try done; simplify_map_eq. }
  rewrite Ho. set (p0 := mkPlan ∅ [] ∅ false).
  assert (copilot_spec c ∈ desiredProviders c) as I1 by (unfold desiredProviders; set_solver).
  assert (codex_spec c ∈ desiredProviders c) as I2 by (unfold desiredProviders; set_solver).
  assert (kilo_spec c ∈ desiredProviders c) as I3 by (unfold desiredProviders; set_solver).
  pose proof (Hd _ I1) as D1. pose proof (Hd _ I2) as D2. pose proof (Hd _ I3) as D3.
  pose proof (He _ I1) as E1. pose proof (He _ I2) as E2. pose proof (He _ I3) as E3.
  destruct (build_loop_keeps (requested_of c') [Codex; Provider.Kilo] p0 m Copilot (copilot_spec c') (copilot_spec c) copilot_factory)
    as (p1 & -> & C1); [by rewrite requested_lookup|by rewrite Hf|done|exact D1| | |apply Hdigest| |].
  1-3: unfold copilot_spec in *; cbn [dp_Enabled dp_ConfigFingerprint dp_ID] in *; by rewrite ?Hp, ?Ht.
  destruct (build_loop_keeps (requested_of c') [Provider.Kilo] p1 m Codex (codex_spec c') (codex_spec c) codex_factory)
    as (p2 & -> & C2); [by rewrite requested_lookup|by rewrite Hf|done|exact D2| | |apply Hdigest| |].
  1-3: unfold codex_spec in *; cbn [dp_Enabled dp_ConfigFingerprint dp_ID] in *; by rewrite ?Hp, ?Ht, ?Hm.
  destruct (build_loop_keeps (requested_of c') [] p2 m Provider.Kilo (kilo_spec c') (kilo_spec c) kilo_factory)
    as (p3 & -> & C3); [by rewrite requested_lookup|by rewrite Hf|done|exact D3| | |apply Hdigest| |].
  1-3: unfold kilo_spec in *; cbn [dp_Enabled dp_ConfigFingerprint dp_ID] in *; by rewrite ?Hp, ?Ht.
  cbn [build_loop]. assert (pl_changed p3 = false) as -> by (rewrite C3, C2, C1; done). cbn [negb].
  unfold completedDrainReport. cbv zeta. eexists _, _. split; [reflexivity|]. split_and!; try done.
  assert (∀ spec, spec ∈ desiredProviders c' → requested_of c' !! dp_ID spec = Some spec) as Hreq.
  { intros spec Hin. rewrite requested_lookup. unfold desiredProviders in Hin.
    repeat (apply elem_of_cons in Hin as [->|Hin]; [done|]). by apply elem_of_nil in Hin. }
  constructor; [done|done| |].
  - intros spec Hin. cbn [desired set_desired tick]. rewrite lookup_fmap, (Hreq spec Hin). done.
  - intros spec Hin. cbn [effective set_desired tick]. unfold desiredProviders in Hin.
    repeat (apply elem_of_cons in Hin as [->|Hin]); try (by apply elem_of_nil in Hin);
      unfold copilot_spec, codex_spec, kilo_spec in *; cbn [dp_Enabled dp_ID] in *; by rewrite Hp.
Qed.

End managed.

Module ExampleManaged.

Definition sha (x : fingerprint_input) : string :=
  match x with FCopilot _ _ => "1" | FCodex _ _ _ => "2" | FKilo _ _ => "3" end.
Definition url_Parse (s : string) : option URL :=
  if HasPrefix s "https://" then Some (mkURL "https" "host" "host" false "" "" "") else None.
Definition answers (id : string) (n : nat) : result (option (list string)) string * Provider.Health :=
  (Ok None, mkHealth true false "" zeroTime).

(** Copilot and Codex are enabled, Codex with two accounts; Kilo's address is unusable. *)
Definition auth : CodexAuthState := mkCodexAuth "chatgpt" "" None "token" None "" None 0 "".
Definition config (model : string) (kilo : bool) (second : string) : Config :=
  mkConfig 8080 1 false (mkLogging "" 0 0) (mkRouting model "" false ∅ ∅ ∅ false)
    (mkProviders
      (mkCopilotProvider true (mkCopilotAuth "" "" None "token" None 0 0) None 0 None)
      (mkCodexProvider true auth (Some [mkCodexAccount "a" "A" auth 0; mkCodexAccount second "B" auth 0]) 0 None "")
      (mkKiloProvider kilo false "" None "" None "ftp://host" None))
    (mkTimeouts 0 0 0 0 30 60 0 0 0 0).

Notation build_daemon := (newProviderManager sha url_Parse u_Scheme (λ _, "") None (λ _, 0%Z) answers
  (λ _, None) (λ n, Z.of_nat n) (λ _, Some 1%Z) (λ _, mkHealth true false "" zeroTime)).

Example unusable_address_is_refused : is_ok (build_daemon (config "m" true "b")) = false.
Proof. vm_compute. reflexivity. Qed.
Example equal_accounts_are_refused : is_ok (build_daemon (config "m" false "a")) = false.
Proof. vm_compute. reflexivity. Qed.

Lemma daemon_builds_its_providers_witness : is_ok (build_daemon (config "m" false "b")) = true.
Proof.
  refine (proj2 (daemon_builds_its_providers sha url_Parse u_Scheme (λ _, "") None (λ _, 0%Z) answers
    (λ _, None) (λ n, Z.of_nat n) (λ _, Some 1%Z) (λ _, mkHealth true false "" zeroTime) (config "m" false "b") _) _).
  - discriminate.
  - split; [|intros H; discriminate H].
    split; (split; [apply (bool_decide_unpack _); vm_compute; exact I|apply (bool_decide_unpack _); vm_compute; exact I]).
Defined.

Notation table := (compiled_table url_Parse u_Scheme (λ _, "") None (λ _, 0%Z) answers).

Definition running : Manager (Cfg := Config) :=
  let i id n := mkEffective (mkInstance n (new_instance answers id n [CapabilityChat] []) None) 1 in
  mkManager table [Copilot; Codex; Provider.Kilo]
    (desired_record (λ _, None) <$> requested_of sha (config "m" false "b"))
    {[Copilot := i Copilot 0; Codex := i Codex 1]} ∅ (EventBus.NewEventBus 4) (mkOptions 0 0) 0 [] [].

Lemma running_settled : settled_on sha url_Parse u_Scheme (λ _, "") None (λ _, 0%Z) answers (λ _, None) (config "m" false "b") running.
Proof.
  constructor; [reflexivity|reflexivity| |].
  - intros spec Hin. unfold desiredProviders in Hin.
    repeat (apply elem_of_cons in Hin as [->|Hin]; [reflexivity|]). by apply elem_of_nil in Hin.
  - intros spec Hin. unfold desiredProviders in Hin.
    repeat (apply elem_of_cons in Hin as [->|Hin]); [split; [reflexivity|by eexists]..| |by apply elem_of_nil in Hin].
    split; [intros [? H]; discriminate H|intros H; discriminate H].
Defined.

(** Another default model: nothing is built or closed. *)
Lemma unrelated_changes_keep_the_providers_witness :
  ∃ m' report, prepareReconcile (λ _, None) (λ n, Z.of_nat n) false (desiredProviders sha (config "other" false "b")) running
    = (m', Ok (ProviderManager.Done report)) ∧ effective m' = effective running.
Proof.
  destruct (unrelated_changes_keep_the_providers sha url_Parse u_Scheme (λ _, "") None (λ _, 0%Z) answers
    (λ _, None) (λ n, Z.of_nat n) (config "m" false "b") (config "other" false "b") running running_settled)
    as (m' & report & H1 & H2 & _).
  - reflexivity.
  - split; (split; [apply (bool_decide_unpack _); vm_compute; exact I|apply (bool_decide_unpack _); vm_compute; exact I]).
  - intros []; discriminate.
  - exists m', report. split; [exact H1|exact H2].
Defined.

(** Readiness asks for one authenticated provider. *)
Example one_ready_provider :
  let status b := mkStatus (Descriptor.mk "x" "X" [] [] false [] 1) true [] []
    (HealthRegistry.mkRecord "x" HealthRegistry.StateReady (mkHealth b false "" zeroTime) 1 zeroTime) 1 in
  (fst (writeManagedReadiness [status false; status true]), fst (writeManagedReadiness [status false]),
   fst (writeManagedReadiness [])) = (200, 503, 503)%Z.
Proof. vm_compute. reflexivity. Qed.

End ExampleManaged.
