(* ===== verification/AuthSession.v ===== *)
(** * Authentication sessions of the control plane

    [src/src/auth_session_runtime.go]: the worker of an authentication operation.  It runs
    a device flow ([Credentials]) or looks for a stored key, writes the credentials to the
    secret store ([Secrets]), changes the configuration with a compare-and-swap
    ([State.Apply]), reconciles the providers ([ManagedRuntime.desiredProviders]) and puts
    the configuration back when they cannot be. *)

From S2P Require Import Prelude GoStd Provider Config State Operation ProviderManager Writers GoJson.
From S2P Require Import Failover Accounts CopilotBackend Secrets Jwt Credentials ManagedRuntime.

(** ** The changes of the configuration *)

Definition set_parts (f : Providers → Providers) (c : Config) : Config :=
  mkConfig (Port c) (ConfigVersion c) (EnablePprof c) (cfg_Logging c) (cfg_Routing c) (f (cfg_Providers c)) (cfg_Timeouts c).

(* src/src/auth_session_runtime.go:121-123 applyCodexDeviceAuthSession *)
(* src/src/auth_session_runtime.go applyCodexAPIKeyAuthSession *)
Definition enable_codex (mode : string) : Config → Config := set_parts (λ p,
  let c := pr_Codex p in let a := cx_Auth c in
  mkProviders (pr_Copilot p)
    (mkCodexProvider true
       (mkCodexAuth mode (xa_APIKey a) (xa_APIKeyRef a) (xa_AccessToken a) (xa_AccessTokenRef a) (xa_RefreshToken a)
          (xa_RefreshTokenRef a) (xa_ExpiresAt a) (xa_AccountID a))
       (cx_Accounts c) (cx_AccountCooldownSeconds c) (cx_AllowedModels c) (cx_ChatGPTBaseURL c))
    (pr_Kilo p)).

(* src/src/auth_session_runtime.go applyCopilotDeviceAuthSession *)
Definition enable_copilot : Config → Config := set_parts (λ p,
  let c := pr_Copilot p in let a := cp_Auth c in
  mkProviders
    (mkCopilotProvider true
       (mkCopilotAuth "device_code" (ca_GitHubToken a) (ca_GitHubTokenRef a) (ca_CopilotToken a) (ca_CopilotTokenRef a)
          (ca_ExpiresAt a) (ca_RefreshIn a))
       (cp_Accounts c) (cp_AccountCooldownSeconds c) (cp_AllowedModels c))
    (pr_Codex p) (pr_Kilo p)).

(* src/src/auth_session_runtime.go applyKiloAuthSession *)
Definition enable_kilo (method : string) : Config → Config := set_parts (λ p,
  let k := pr_Kilo p in
  mkProviders (pr_Copilot p) (pr_Codex p)
    (mkKiloProvider true (String.eqb method "anonymous") (kp_APIKey k) (kp_APIKeyRef k) (kp_OrganizationID k)
       (kp_OrganizationIDRef k) (kp_BaseURL k) (kp_AllowedModels k))).

Section session.
Context `{StateCodec} `{SecretCodec} (sha_json : fingerprint_input → string) (parse : string → option json).

Inductive session_error :=
| NotActive | ApplyFailed (e : State.error) | RestoreFailed (e : State.error) | ReconcileFailed.

(** The instants and the points where the two writes of the state stop. *)
Record apply_world := mkApplyWorld {
  aw_stop1 : option stop_point; aw_now1 : Time; aw_stop2 : option stop_point; aw_now2 : Time;
}.

(** [manager] is [None] when no state is active, [reconcile] is [None] without a reloader;
    the four sessions have the same text and differ in the change. *)
(* src/src/auth_session_runtime.go applyCodexDeviceAuthSession *)
Definition apply_session (change : Config → Config) (w : apply_world) (actor : string)
    (reconcile : option (list (DesiredProvider (Cfg := Config)) → bool)) (manager : option State.Manager)
    : option State.Manager * option session_error :=
  match manager with
  | None => (None, Some NotActive)
  | Some m =>
    let snapshot := currentSnapshot m in
    let next := change (Clone (Desired snapshot)) in
    match Apply (aw_stop1 w) (aw_now1 w) (Revision snapshot) (Some next) (Some next) actor false m with
    | (m, Err e) => (Some m, Some (ApplyFailed e))
    | (m, Ok applied) =>
      match reconcile with
      | None => (Some m, None)
      | Some reconcile =>
        if reconcile (desiredProviders sha_json (Effective applied)) then (Some m, None)
        else
          match Apply (aw_stop2 w) (aw_now2 w) (Revision applied) (Some (Desired snapshot))
                  (Some (Effective snapshot)) actor false m with
          | (m, Err e) => (Some m, Some (RestoreFailed e))
          | (m, Ok _) => (Some m, Some ReconcileFailed)
          end
      end
    end
  end.

(** ** The worker *)

Record session_state := mkSession {
  ss_manager : option State.Manager; ss_secrets : option MemoryStore; ss_audit : list AuditEvent;
}.

(** What a session meets: the two device flows, the reporter's answers, the writes of the
    secret store and of the state. *)
Record session_world := mkSessionWorld {
  sw_device : http_answer; sw_reported : bool; sw_polls : nat → http_answer; sw_cancelled : nat → bool;
  sw_copilot_exchange : string → http_answer; sw_codex_exchange : string → string → http_answer; sw_unix : Z;
  sw_now1 : Time; sw_fault1 : option write_error; sw_now2 : Time; sw_fault2 : option write_error;
  sw_progress : bool; sw_apply : apply_world;
  sw_reconcile : option (list (DesiredProvider (Cfg := Config)) → bool);
}.

(* src/src/auth_session_runtime.go authSessionRunner.hasCredential *)
Definition hasCredential (slot : string) (s : session_state) : bool :=
  let stored :=
    match ss_secrets s ≫= store_Resolve slot with
    | Some (value, _) => negb (String.eqb (TrimSpace value) "") | None => false end in
  stored ||
  match ss_manager s with
  | None => false
  | Some m =>
    let config := Effective (currentSnapshot m) in
    if String.eqb slot "codex/api_key"
    then negb (String.eqb (TrimSpace (xa_APIKey (cx_Auth (pr_Codex (cfg_Providers config))))) "")
    else negb (String.eqb (TrimSpace (kp_APIKey (pr_Kilo (cfg_Providers config)))) "")
  end.

(** The result of the worker: a document or a failure. *)
Definition session_result : Type := result (gmap string string) Failure.

Definition finish (change : Config → Config) (w : session_world) (owner providerID method : string)
    (s : session_state) : session_state * session_result :=
  let '(manager, e) := apply_session change (sw_apply w) owner (sw_reconcile w) (ss_manager s) in
  (mkSession manager (ss_secrets s) (ss_audit s),
   match e with
   | Some _ => Err (NewFailure "provider_reconcile_failed" "The provider configuration could not be published." true)
   | None => Ok {["provider_id" := providerID; "auth_method" := method; "runtime_published" := "true"]}
   end).

(** Two secrets, one after the other; the first stays when the second cannot be written. *)
(* src/src/auth_session_runtime.go:40-51 authSessionRunner.run *)
Definition store_two (w : session_world) (owner name slot1 value1 slot2 value2 : string) (s : session_state)
    : session_state * option Failure :=
  match ss_secrets s with
  | None => (s, Some (NewFailure "secret_store_unavailable" "The credential store is unavailable." true))
  | Some secrets =>
    let failed := Some (NewFailure "credential_store_failed" ("The " +:+ name +:+ " credentials could not be stored.") true) in
    match Set_ (sw_now1 w) (sw_fault1 w) owner slot1 value1 secrets with
    | (secrets, events, Err _) => (mkSession (ss_manager s) (Some secrets) (ss_audit s ++ events), failed)
    | (secrets, events, Ok _) =>
      match Set_ (sw_now2 w) (sw_fault2 w) owner slot2 value2 secrets with
      | (secrets, events', r) =>
        (mkSession (ss_manager s) (Some secrets) (ss_audit s ++ events ++ events'),
         match r with Ok _ => None | Err _ => failed end)
      end
    end
  end.

(* src/src/auth_session_runtime.go:33-56 authSessionRunner.run *)
Definition run_copilot (w : session_world) (owner method : string) (s : session_state) : session_state * session_result :=
  match Copilot.runCopilotDeviceFlow parse (sw_device w) (sw_reported w) (sw_polls w) (sw_cancelled w) (sw_copilot_exchange w) with
  | Err _ => (s, Err (NewFailure "device_auth_failed" "The Copilot device authentication did not complete." true))
  | Ok (github, token) =>
    match store_two w owner "Copilot" "copilot/github_token" github "copilot/token" (Copilot.ct_Token token) s with
    | (s, Some failure) => (s, Err failure)
    | (s, None) => finish enable_copilot w owner Provider.Copilot method s
    end
  end.

(* src/src/auth_session_runtime.go:57-80 authSessionRunner.run *)
Definition run_codex_device (w : session_world) (owner method : string) (s : session_state) : session_state * session_result :=
  match Codex.runCodexDeviceFlow parse (sw_device w) (sw_reported w) (sw_polls w) (sw_cancelled w) (sw_codex_exchange w) (sw_unix w) with
  | Err _ => (s, Err (NewFailure "device_auth_failed" "The Codex device authentication did not complete." true))
  | Ok credentials =>
    match store_two w owner "Codex" "codex/access_token" (Codex.dc_AccessToken credentials)
            "codex/refresh_token" (Codex.dc_RefreshToken credentials) s with
    | (s, Some failure) => (s, Err failure)
    | (s, None) => finish (enable_codex "chatgpt") w owner Provider.Codex method s
    end
  end.

(* src/src/auth_session_runtime.go:81-91 authSessionRunner.run *)
Definition run_codex_key (w : session_world) (owner method : string) (s : session_state) : session_state * session_result :=
  if negb (hasCredential "codex/api_key" s)
  then (s, Err (NewFailure "credential_required" 
      "Set an OpenAI API key through the write-only secret route before starting this session." false))
  else finish (enable_codex "api_key") w owner Provider.Codex method s.

(* src/src/auth_session_runtime.go:96-113 authSessionRunner.run *)
Definition run_kilo (w : session_world) (owner method : string) (s : session_state) : session_state * session_result :=
  if negb (String.eqb method "anonymous") && negb (String.eqb method "api_key")
  then (s, Err (NewFailure "unsupported_auth_method" "The authentication method is not supported." false))
  else if negb (sw_progress w)
  then (s, Err (NewFailure "operation_progress_failed" "The authentication operation could not be updated." true))
  else if String.eqb method "api_key" && negb (hasCredential "kilo/api_key" s)
  then (s, Err (NewFailure "credential_required" 
      "Set a Kilo API key through the write-only secret route before starting this session." false))
  else finish (enable_kilo method) w owner Provider.Kilo method s.

(* src/src/auth_session_runtime.go authSessionRunner.run *)
Definition run_session (w : session_world) (record : Record_) (s : session_state) : session_state * session_result :=
  let value key := TrimSpace (default "" (r_Metadata record !! key)) in
  let providerID := value "provider_id" in
  let method := value "auth_method" in
  let owner := r_Owner record in
  if String.eqb providerID Provider.Copilot && String.eqb method "device_code" then run_copilot w owner method s
  else if String.eqb providerID Provider.Codex && String.eqb method "device_code" then run_codex_device w owner method s
  else if String.eqb providerID Provider.Codex && String.eqb method "api_key" then run_codex_key w owner method s
  else if negb (String.eqb providerID Provider.Kilo)
  then (s, Err (NewFailure "auth_session_not_implemented" "This provider authentication workflow is not available yet." false))
  else run_kilo w owner method s.

(** ** What a session answers *)

Definition session_codes : list string :=
  ["device_auth_failed"; "secret_store_unavailable"; "credential_store_failed"; "credential_required";
   "auth_session_not_implemented"; "unsupported_auth_method"; "operation_progress_failed"; "provider_reconcile_failed"].

(** A result that tells how the session ended and nothing else. *)
Definition says_nothing (providerID method : string) (r : session_result) : Prop :=
  match r with
  | Ok doc => doc = {["provider_id" := providerID; "auth_method" := method; "runtime_published" := "true"]}
  | Err f => f_Code f ∈ session_codes ∧ f_Message f = "The operation failed."
  end.

Lemma finish_says change w owner providerID method s :
  says_nothing providerID method (snd (finish change w owner providerID method s)).
Proof.
  unfold finish. destruct (apply_session _ _ _ _ _) as [m [e|]]; [|done]. simpl.
  split; [apply (bool_decide_unpack _); vm_compute; exact I|done].
Qed.

Lemma failure_says providerID method code message retryable :
  TrimSpace code ∈ session_codes → safe_ident (TrimSpace code) = true → failureMessage (TrimSpace code) = "The operation failed." →
  says_nothing providerID method (Err (NewFailure code message retryable)).
Proof. intros H1 H2 H3. unfold says_nothing, NewFailure. rewrite H2. by split. Qed.

Ltac known_failure := apply failure_says; [apply (bool_decide_unpack _); vm_compute; exact I|reflexivity|reflexivity].

Lemma store_two_says providerID method w owner name slot1 value1 slot2 value2 s s' f :
  store_two w owner name slot1 value1 slot2 value2 s = (s', Some f) → says_nothing providerID method (Err f).
Proof.
  unfold store_two. destruct (ss_secrets s) as [secrets|]; [|intros [= <- <-]; known_failure].
  destruct (Set_ _ _ _ _ _ _) as [[secrets1 events1] [md|e]]; [|intros [= <- <-]; known_failure].
  destruct (Set_ _ _ _ _ _ secrets1) as [[secrets2 events2] [md2|e]]; [done|]. intros [= <- <-]. known_failure.
Qed.

(** The result of a session, which the control API shows to every reader of
    operations, has the provider and the method of its own request or one of eight codes
    with a fixed text: no credential, and no error of an upstream service, reaches it. *)
Theorem session_results_carry_no_credential w record s :
  let value key := TrimSpace (default "" (r_Metadata record !! key)) in
  says_nothing (value "provider_id") (value "auth_method") (snd (run_session w record s)).
Proof.
  cbv zeta. unfold run_session. set (p := TrimSpace (default "" (r_Metadata record !! "provider_id"))).
  set (method := TrimSpace (default "" (r_Metadata record !! "auth_method"))).
  destruct (String.eqb p Provider.Copilot && String.eqb method "device_code") eqn:H1.
  { apply andb_true_iff in H1 as [->%String.eqb_eq _]. unfold run_copilot.
    destruct (Copilot.runCopilotDeviceFlow _ _ _ _ _ _) as [[github token]|e]; [|known_failure].
    destruct (store_two _ _ _ _ _ _ _ s) as [s1 [f|]] eqn:Hs; [by eapply store_two_says|apply finish_says]. }
  destruct (String.eqb p Provider.Codex && String.eqb method "device_code") eqn:H2.
  { apply andb_true_iff in H2 as [->%String.eqb_eq _]. unfold run_codex_device.
    destruct (Codex.runCodexDeviceFlow _ _ _ _ _ _ _) as [credentials|e]; [|known_failure].
    destruct (store_two _ _ _ _ _ _ _ s) as [s1 [f|]] eqn:Hs; [by eapply store_two_says|apply finish_says]. }
  destruct (String.eqb p Provider.Codex && String.eqb method "api_key") eqn:H3.
  { apply andb_true_iff in H3 as [->%String.eqb_eq _]. unfold run_codex_key.
    destruct (negb _); [known_failure|apply finish_says]. }
  destruct (String.eqb_spec p Provider.Kilo) as [->|Hp]; cbn [negb]; [|known_failure].
  clear H1 H2 H3. unfold run_kilo.
  destruct (negb (String.eqb method "anonymous") && _); [known_failure|]. destruct (negb (sw_progress w)); [known_failure|].
  destruct (String.eqb method "api_key" && _); [known_failure|apply finish_says].
Qed.

(** ** What a session leaves *)

(** The configuration that a session writes. *)
Definition session_config (change : Config → Config) (m : State.Manager) : Config :=
  change (Clone (Desired (currentSnapshot m))).

Lemma apply_session_Ok change w actor reconcile m manager' :
  apply_session change w actor reconcile (Some m) = (manager', None) →
  ∃ m' applied, manager' = Some m' ∧
    Apply (aw_stop1 w) (aw_now1 w) (Revision (currentSnapshot m)) (Some (session_config change m))
      (Some (session_config change m)) actor false m = (m', Ok applied) ∧
    match reconcile with Some f => f (desiredProviders sha_json (Effective applied)) = true | None => True end.
Proof.
  unfold apply_session, session_config.
  destruct (Apply _ _ _ _ _ _ _ m) as [m1 [applied|e]] eqn:Ha; [|done].
  destruct reconcile as [f|]; [|by intros [= <-]; exists m1, applied].
  destruct (f _) eqn:Hf; [by intros [= <-]; exists m1, applied|].
  by destruct (Apply _ _ _ _ _ _ _ m1) as [m2 [s2|e2]].
Qed.

(** A session that cannot publish its configuration takes it back: when the providers
    refuse the new configuration and the second write is not stopped, the session fails,
    and the state has the digest of the configuration from before, two revisions later. *)
Theorem refused_session_is_undone (change : Config → Config) w actor (reconcile : list (DesiredProvider (Cfg := Config)) → bool) m v
    (Hstops : aw_stop1 w = None ∧ aw_stop2 w = None)
    (Hrefused : ∀ l, reconcile l = false) (Hopen : State.closed m = false)
    (Hmc : ∀ c, marshalConfig c ≠ None) (Hmm : ∀ md, marshalMetadata md ≠ None) (Hmap : ∀ c, toMap c ≠ None)
    (Hnext : is_ok (Validator (Clone (session_config change m))) = true)
    (Hdesired : Validator (Clone (Clone (Desired (snapshot m)))) = Ok v)
    (Heffective : is_ok (Validator (Clone (Clone (Effective (snapshot m))))) = true)
    (Hdigest : configDigest v = Some (Digest (snapshot m))) :
  ∃ m', apply_session change w actor (Some reconcile) (Some m) = (Some m', Some ReconcileFailed) ∧
    Digest (snapshot m') = Digest (snapshot m) ∧
    Revision (snapshot m') = wrap_u64 (wrap_u64 (Revision (snapshot m) + 1) + 1).
Proof.
  destruct Hstops as [Hs1 Hs2]. unfold apply_session. rewrite Hs1, Hs2.
  fold (session_config change m).
  destruct (Validator (Clone (session_config change m))) as [w1|] eqn:Hw; [|done].
  destruct (Validator (Clone (Clone (Effective (snapshot m))))) as [u|] eqn:Hu; [|done].
  destruct (Apply_succeeds (aw_now1 w) (session_config change m) (session_config change m) w1 w1 actor m Hopen Hmc Hmm Hmap Hw Hw)
    as (_ & m1 & H1 & _ & Hr1 & Hcl1).
  destruct (Apply_succeeds (aw_now2 w) (Clone (Desired (snapshot m))) (Clone (Effective (snapshot m)))
    v u actor m1 Hcl1 Hmc Hmm Hmap Hdesired Hu) as (_ & m2 & H2 & Hd2 & Hr2 & _).
  change (Revision (currentSnapshot m)) with (Revision (snapshot m)). rewrite H1, Hrefused.
  change (Revision (cloneSnapshot (snapshot m1))) with (Revision (snapshot m1)).
  change (Desired (currentSnapshot m)) with (Clone (Desired (snapshot m))).
  change (Effective (currentSnapshot m)) with (Clone (Effective (snapshot m))). rewrite H2.
  exists m2. split; [done|]. split; [congruence|]. by rewrite Hr2, Hr1.
Qed.

(** A completed device session leaves usable credentials of both kinds in the secret
    store, under the names the provider looks for, and publishes a configuration in which
    the provider is enabled. *)
Theorem copilot_session_stores_credentials w owner method s s' doc
    (Hrun : run_copilot w owner method s = (s', Ok doc)) :
  ∃ secrets secrets1 secrets2 github token ev1 ev2 md1 md2,
    ss_secrets s = Some secrets ∧ ss_secrets s' = Some secrets2 ∧ github ≠ "" ∧ token ≠ "" ∧
    Set_ (sw_now1 w) (sw_fault1 w) owner "copilot/github_token" github secrets = (secrets1, ev1, Ok md1) ∧
    Set_ (sw_now2 w) (sw_fault2 w) owner "copilot/token" token secrets1 = (secrets2, ev2, Ok md2) ∧
    ss_audit s' = ss_audit s ++ ev1 ++ ev2 ∧
    ∃ m m' applied, ss_manager s = Some m ∧ ss_manager s' = Some m' ∧
      Apply (aw_stop1 (sw_apply w)) (aw_now1 (sw_apply w)) (Revision (currentSnapshot m))
        (Some (session_config enable_copilot m)) (Some (session_config enable_copilot m)) owner false m = (m', Ok applied) ∧
      match sw_reconcile w with Some f => f (desiredProviders sha_json (Effective applied)) = true | None => True end.
Proof.
  unfold run_copilot in Hrun.
  destruct (Copilot.runCopilotDeviceFlow _ _ _ _ _ _) as [[github token]|e] eqn:Hflow; [|done].
  apply Copilot.copilot_flow_is_complete in Hflow as (Hg & Ht & _).
  unfold store_two in Hrun. destruct (ss_secrets s) as [secrets|]; [|done].
  destruct (Set_ _ _ _ _ github secrets) as [[secrets1 ev1] [md1|e1]] eqn:H1; [|done].
  destruct (Set_ _ _ _ _ (Copilot.ct_Token token) secrets1) as [[secrets2 ev2] [md2|e2]] eqn:H2; [|done].
  unfold finish in Hrun. cbn [ss_manager ss_secrets ss_audit] in Hrun.
  destruct (ss_manager s) as [m|]; [|done].
  destruct (apply_session enable_copilot (sw_apply w) owner (sw_reconcile w) (Some m)) as [manager' [e|]] eqn:Ha; [done|].
  injection Hrun as <- <-. apply apply_session_Ok in Ha as (m' & applied & -> & Happly & Hrec).
  exists secrets, secrets1, secrets2, github, (Copilot.ct_Token token), ev1, ev2, md1, md2. split_and!; try done.
  by exists m, m', applied.
Qed.

End session.

(** ** What a completed session means for the provider *)

Lemma enabled_pool c :
  let pr c := pr_Copilot (cfg_Providers c) in
  elems (cp_Accounts (pr (Clone (enable_copilot (Clone c)))))
  = (λ a, mkCopilotAccount (cpa_ID a) (cpa_Label a) (cloneCopilotAuth (cpa_Auth a)) (cpa_LastLimitedAt a))
    <$> elems (cp_Accounts (pr c)).
Proof.
  cbn [Clone enable_copilot set_parts cfg_Providers pr_Copilot cp_Accounts]. rewrite cloneCopilotAccounts_idemp.
  destruct (cp_Accounts _) as [[|x l]|]; done.
Qed.

Lemma cooldown_same clock seconds (l : list CopilotAccount) (f : CopilotAccount → CopilotAccount) :
  (∀ a, LastLimitedAt (f a) = LastLimitedAt a) →
  firstHealthy clock seconds (f <$> l) = firstHealthy clock seconds l.
Proof.
  intros Hf. unfold firstHealthy. rewrite length_fmap. f_equal.
  assert (∀ i, match (f <$> l) !! i with Some a => negb (inCooldown (clock i) seconds a) | None => false end
    = match l !! i with Some a => negb (inCooldown (clock i) seconds a) | None => false end) as Hsame.
  { intros i. rewrite list_lookup_fmap. destruct (l !! i) as [a|]; [|done]. cbn. unfold inCooldown. by rewrite Hf. }
  induction (seq 0 (length l)) as [|i places IH]; [done|]. cbn [List.find]. by rewrite Hsame, IH.
Qed.

(** A device session does not revive an account whose expiry has passed: the provider
    built from the configuration that the session publishes refuses every request, whatever
    token the session has stored, because the session leaves the old expiry in place. *)
Theorem copilot_session_keeps_the_expiry c clock seconds now auth value
    (Hactive : authState (NewCopilotProvider clock seconds (pr_Copilot (cfg_Providers c))) = Returns auth)
    (Hexpired : (0 < ca_ExpiresAt auth <= now)%Z) :
  ∃ e, CopilotBackend.EnsureAuthenticated (Some (λ _, Some value)) now
         (NewCopilotProvider clock seconds (pr_Copilot (cfg_Providers (Clone (enable_copilot (Clone c)))))) = Returns (Some e).
Proof.
  set (s := NewCopilotProvider clock seconds (pr_Copilot (cfg_Providers c))) in *.
  set (s' := NewCopilotProvider clock seconds (pr_Copilot (cfg_Providers (Clone (enable_copilot (Clone c)))))).
  assert (∃ auth', authState s' = Returns auth' ∧ ca_ExpiresAt auth' = ca_ExpiresAt auth) as (auth' & Hauth & Hexp).
  { set (f := λ a, mkCopilotAccount (cpa_ID a) (cpa_Label a) (cloneCopilotAuth (cpa_Auth a)) (cpa_LastLimitedAt a)).
    assert (pool s' = f <$> pool s) as Hpool by apply enabled_pool.
    assert (ps_cursor s' = ps_cursor s) as Hcur.
    { transitivity (firstHealthy clock (cooldownSeconds (cp_AccountCooldownSeconds (pr_Copilot (cfg_Providers c))))
        (f <$> pool s)); [by rewrite <- Hpool|]. apply (cooldown_same clock _ (pool s) f). done. }
    unfold authState, activeAccount in *. rewrite Hpool, Hcur.
    destruct (pool s) as [|x l] eqn:E; [injection Hactive as <-; by eexists|].
    rewrite fmap_cons. rewrite <- (fmap_cons f x l). rewrite list_lookup_fmap.
    destruct ((x :: l) !! ps_cursor s) as [a|]; cbn in *; [|done]. injection Hactive as <-. by eexists. }
  eapply stored_token_needs_configured_expiry; [exact Hauth|]. by rewrite Hexp.
Qed.

Module ExampleSession.
Import ExampleSecrets.

Definition sha (x : fingerprint_input) : string := "digest".
Definition writes : apply_world := mkApplyWorld None 200 None 300.

Lemma refused_session_is_undone_witness :
  ∃ m', apply_session sha (enable_kilo "anonymous") writes "ya" (Some (λ _, false)) (Some example_manager)
    = (Some m', Some ReconcileFailed) ∧ Digest (snapshot m') = "aa".
Proof.
  destruct (refused_session_is_undone sha (enable_kilo "anonymous") writes "ya" (λ _, false) example_manager (on_port 2))
    as (m' & Ha & Hd & _).
  - split; reflexivity.
  - reflexivity.
  - reflexivity.
  - discriminate.
  - discriminate.
  - discriminate.
  - vm_compute. reflexivity.
  - reflexivity.
  - vm_compute. reflexivity.
  - vm_compute. reflexivity.
  - exists m'. split; [exact Ha|exact Hd].
Defined.

(** The three answers of a device flow. *)
Definition parse (s : string) : option json :=
  if String.eqb s "device" then
    Some (JObj [("device_code", JStr "d"); ("user_code", JStr "u"); ("verification_uri", JStr "https://host")])
  else if String.eqb s "granted" then Some (JObj [("access_token", JStr "gho")])
  else if String.eqb s "token" then Some (JObj [("token", JStr "cop"); ("expires_at", JNum "5000")]) else None.

Definition world : session_world :=
  mkSessionWorld (Answered 200 "device") true (λ _, Answered 200 "granted") (λ _, false) (λ _, Answered 200 "token")
    (λ _ _, NoResponse) 1000 10 None 11 None true writes (Some (λ _, true)).

Definition before : session_state := mkSession (Some example_manager) (Some empty) [].

Lemma copilot_session_stores_credentials_witness :
  ∃ secrets github token, run_copilot sha parse world "admin" "device_code" before
      = (mkSession (ss_manager (fst (run_copilot sha parse world "admin" "device_code" before))) (Some secrets)
           (ss_audit (fst (run_copilot sha parse world "admin" "device_code" before))),
         Ok {["provider_id" := "copilot"; "auth_method" := "device_code"; "runtime_published" := "true"]})
    ∧ github ≠ "" ∧ token ≠ "".
Proof.
  destruct (run_copilot sha parse world "admin" "device_code" before) as [s' [doc|f]] eqn:E;
    [|apply (f_equal (λ x, is_ok x.2)) in E; vm_compute in E; discriminate E].
  destruct (copilot_session_stores_credentials sha parse world "admin" "device_code" before s' doc E)
    as (_ & _ & secrets2 & github & token & _ & _ & _ & _ & _ & Hs & Hg & Ht & _).
  exists secrets2, github, token. split; [|split; [exact Hg|exact Ht]].
  destruct s' as [manager secrets audit]. simpl in Hs. subst secrets. simpl.
  apply (f_equal snd) in E. vm_compute in E. injection E as <-. reflexivity.
Defined.

(** The configuration of an account signed in with the command line, two hours after. *)
Definition expired : Config :=
  mkConfig 8080 1 false (mkLogging "" 0 0) (mkRouting "" "" false ∅ ∅ ∅ false)
    (mkProviders (mkCopilotProvider true (mkCopilotAuth "device_code" "gho" None "old" None 9000 1500) None 0 None)
       (mkCodexProvider false (mkCodexAuth "" "" None "" None "" None 0 "") None 0 None "")
       (mkKiloProvider false false "" None "" None "" None))
    (mkTimeouts 0 0 0 0 0 0 0 0 0 0).

Lemma copilot_session_keeps_the_expiry_witness :
  ∃ e, CopilotBackend.EnsureAuthenticated (Some (λ _, Some "new")) 16200
         (NewCopilotProvider (λ _, 0%Z) 30 (pr_Copilot (cfg_Providers (Clone (enable_copilot (Clone expired)))))) = Returns (Some e).
Proof.
  refine (copilot_session_keeps_the_expiry expired (λ _, 0%Z) 30 16200
    (mkCopilotAuth "device_code" "gho" None "old" None 9000 1500) "new" _ _); [reflexivity|].
  split; [reflexivity|vm_compute; discriminate].
Defined.

(** A second secret that cannot be written leaves the first one behind. *)
Example half_a_session :
  let w := mkSessionWorld (Answered 200 "device") true (λ _, Answered 200 "granted") (λ _, false) (λ _, Answered 200 "token")
    (λ _ _, NoResponse) 1000 10 None 11 (Some SyncStore) true writes (Some (λ _, true)) in
  let '(s, r) := run_copilot sha parse w "admin" "device_code" before in
  ((λ secrets, elements (dom (entries secrets))) <$> ss_secrets s, f_Code <$> match r with Err f => Some f | Ok _ => None end)
  = (Some ["copilot/github_token"], Some "credential_store_failed").
Proof. vm_compute. reflexivity. Qed.

End ExampleSession.
