(* ===== verification/OperationResources.v ===== *)
(** * The operation resources of the control API

    [internal/control/operation_resources.go]: the handlers of
    [/control/v1/operations] and [/control/v1/auth-sessions] over the manager of
    [OperationManager], and the stream of operation events.

    A handler calls the manager more than once without a lock around the calls, so
    it is given the manager as each call finds it: [createOperation] makes one call,
    [cancelOperation] two, and the page of events one for the events and one per
    event.  The stream is a step relation ([stream_step]) with the store's commits
    and publications as steps of their own: the store publishes an event after it
    has released its lock, so publications can overtake each other. *)

From stdpp Require Import pretty.
From S2P Require Import Prelude GoStd Writers Failover GoJson Control Operation OperationManager.

#[local] Set Default Proof Using "Type".

(** ** Requests *)

(** The request with the headers and the query parameter these handlers read. *)
Record operation_request := mkOperationRequest {
  or_request : control_request; or_IdempotencyKey : string; or_LastEventID : string; or_After : string;
}.

(* src/internal/control/operation_resources.go operationCreateRequest *)
Record operationCreateRequest := mkOperationCreate {
  oc_Kind : string; oc_Target : string; oc_Cancelable : option bool; oc_ExpiresInSeconds : Z; oc_RecoveryPolicy : string;
}.

Definition d_operation_create : decoder operationCreateRequest :=
  d_strict [
    fld "kind" oc_Kind (λ x c, mkOperationCreate x (oc_Target c) (oc_Cancelable c) (oc_ExpiresInSeconds c) (oc_RecoveryPolicy c)) d_string;
    fld "target" oc_Target (λ x c, mkOperationCreate (oc_Kind c) x (oc_Cancelable c) (oc_ExpiresInSeconds c) (oc_RecoveryPolicy c)) d_string;
    fld "cancelable" oc_Cancelable (λ x c, mkOperationCreate (oc_Kind c) (oc_Target c) x (oc_ExpiresInSeconds c) (oc_RecoveryPolicy c)) (d_pointer false d_bool);
    fld "expires_in_seconds" oc_ExpiresInSeconds (λ x c, mkOperationCreate (oc_Kind c) (oc_Target c) (oc_Cancelable c) x (oc_RecoveryPolicy c)) d_int;
    fld "recovery_policy" oc_RecoveryPolicy (λ x c, mkOperationCreate (oc_Kind c) (oc_Target c) (oc_Cancelable c) (oc_ExpiresInSeconds c) x) d_string].

(* src/internal/control/operation_resources.go authSessionCreateRequest *)
Record authSessionCreateRequest := mkSessionCreate {
  sc_ProviderID : string; sc_AccountID : string; sc_Method : string; sc_ExpiresInSeconds : Z;
}.

Definition d_session_create : decoder authSessionCreateRequest :=
  d_strict [
    fld "provider_id" sc_ProviderID (λ x c, mkSessionCreate x (sc_AccountID c) (sc_Method c) (sc_ExpiresInSeconds c)) d_string;
    fld "account_id" sc_AccountID (λ x c, mkSessionCreate (sc_ProviderID c) x (sc_Method c) (sc_ExpiresInSeconds c)) d_string;
    fld "method" sc_Method (λ x c, mkSessionCreate (sc_ProviderID c) (sc_AccountID c) x (sc_ExpiresInSeconds c)) d_string;
    fld "expires_in_seconds" sc_ExpiresInSeconds (λ x c, mkSessionCreate (sc_ProviderID c) (sc_AccountID c) (sc_Method c) x) d_int].

(* src/internal/control/operation_resources.go allowedOperationKinds *)
Definition allowedOperationKinds : list string := ["config_apply"; "config_validate"; "credential_verify"; "model_refresh"].

(* src/internal/control/operation_resources.go allowedAuthMethods *)
Definition allowedAuthMethods (provider : string) : option (list string) :=
  if String.eqb provider "copilot" then Some ["device_code"; "manual_token_recovery"]
  else if String.eqb provider "codex" then Some ["device_code"; "api_key"; "manual_token_recovery"]
  else if String.eqb provider "kilo" then Some ["anonymous"; "api_key"]
  else None.

Definition operations_path : string := "/control/v1/operations".
Definition sessions_path : string := "/control/v1/auth-sessions".

(* src/internal/control/operation_resources.go RegisterOperationRoutes *)
Definition RegisterOperationRoutes (api : list route) : list route :=
  HandlePrefix "DELETE" (sessions_path +:+ "/") RoleOperator false "cancelAuthSession"
  (HandlePrefix "GET" (sessions_path +:+ "/") RoleViewer false "getAuthSession"
  (Handle "POST" sessions_path RoleOperator false "createAuthSession"
  (HandlePrefix "DELETE" (operations_path +:+ "/") RoleOperator false "cancelOperation"
  (HandlePrefix "GET" (operations_path +:+ "/") RoleViewer false "getOperation"
  (Handle "GET" (operations_path +:+ "/events/stream") RoleViewer false "streamOperationEvents"
  (Handle "GET" (operations_path +:+ "/events") RoleViewer false "listOperationEvents"
  (Handle "POST" operations_path RoleOperator false "createOperation" api))))))).

(** ** Small parts *)

(** A duration in nanoseconds; [None] is the refused expiry. *)
(* src/internal/control/operation_resources.go operationExpiry *)
Definition operationExpiry (m : Manager) (now : Time) (seconds : Z) : option Time :=
  let ttl := DefaultTTL (options (store m)) in
  if (seconds =? 0)%Z then Some (now + ttl)%Z
  else if (seconds <? 30)%Z || (3600 <? seconds)%Z then None
  else Some (now + seconds * Second)%Z.

(* src/internal/control/operation_resources.go resourceID *)
Definition resourceID (path prefix : string) : option string :=
  let id := TrimPrefix path prefix in
  if String.eqb id path || String.eqb id "" || Contains id "/" || (128 <? String.length id)%nat then None
  else Some id.

(** The identity of the context: [None] when there is none. *)
(* src/internal/control/operation_resources.go mayAccessOperation *)
Definition mayAccessOperation (identity : option Identity) (record : Record_) : bool :=
  match identity with
  | Some i => String.eqb (id_Role i) RoleAdmin || String.eqb (id_Subject i) (r_Owner record)
  | None => false
  end.

(* src/internal/control/operation_resources.go operationEventVisible *)
Definition operationEventVisible (identity : option Identity) (s : Store) (e : Event) : bool :=
  match Get (e_OperationID e) s with
  | Ok record => mayAccessOperation identity record
  | Err _ => false
  end.

Definition is_admin (identity : option Identity) : bool :=
  match identity with Some i => String.eqb (id_Role i) RoleAdmin | None => false end.

(** The events are judged one after another; [at_ i] is the store when the [i]-th
    is looked up. *)
(* src/internal/control/operation_resources.go visibleOperationEvents *)
Fixpoint visibleOperationEvents (identity : option Identity) (at_ : nat → Store) (l : list Event) : list Event :=
  match l with
  | [] => []
  | e :: l =>
    (if is_admin identity || operationEventVisible identity (at_ 0) e then [e] else [])
    ++ visibleOperationEvents identity (λ i, at_ (S i)) l
  end.

(** [strconv.ParseUint] in base ten: no sign. *)
Definition ParseUint (s : string) : option Z :=
  if String.eqb s "" then None
  else digits 0 s ≫= λ n, if (n <=? maxUint64)%Z then Some n else None.

(* src/internal/control/operation_resources.go operationEventCursor *)
Definition operationEventCursor (r : operation_request) : option Z :=
  let value := TrimSpace (or_LastEventID r) in
  let value := if String.eqb value "" then TrimSpace (or_After r) else value in
  if String.eqb value "" then Some 0%Z else ParseUint value.

(* src/internal/control/operation_resources.go lastOperationSequence *)
Definition lastOperationSequence (after : Z) (l : list Event) : Z :=
  match last l with Some e => e_Sequence e | None => after end.

Definition contains_any (cs : list ascii) (s : string) : bool :=
  negb (str_all (λ c, negb (existsb (Ascii.eqb c) cs)) s).

Definition control_whitespace : list ascii := ["009"; "010"; "013"]%char.

Definition state_text (s : State) : string :=
  match s with
  | StatePending => "pending" | StateRunning => "running" | StateWaitingForUser => "waiting_for_user"
  | StateSucceeded => "succeeded" | StateFailed => "failed" | StateCancelled => "cancelled"
  | StateExpired => "expired" | StateOther s => s
  end.

(** ** Answers *)

Definition omit_empty (name s : string) : list (string * json) := if String.eqb s "" then [] else [(name, JStr s)].

Definition string_map_json (name : string) (m : gmap string string) : list (string * json) :=
  if decide (m = ∅) then [] else [(name, obj_of_map (JStr <$> m))].

Section resources.
Context `{JSON} (time_text : Time → string) (sha256_hex : string → string).

(* src/internal/operation/types.go Record *)
Definition record_json (r : Record_) : json :=
  JObj ([("id", JStr (r_ID r)); ("kind", JStr (r_Kind r))] ++ omit_empty "target" (r_Target r)
    ++ [("owner", JStr (r_Owner r)); ("state", JStr (state_text (r_State r))); ("progress", of_int (r_Progress r));
        ("cancelable", JBool (r_Cancelable r)); ("recovery_policy", JStr (r_RecoveryPolicy r));
        ("created_at", JStr (time_text (r_CreatedAt r))); ("updated_at", JStr (time_text (r_UpdatedAt r)));
        ("expires_at", JStr (time_text (r_ExpiresAt r))); ("sequence", of_int (r_Sequence r))]
    ++ (match r_Failure r with
        | Some f => [("failure", JObj [("code", JStr (f_Code f)); ("message", JStr (f_Message f)); ("retryable", JBool (f_Retryable f))])]
        | None => [] end)
    ++ string_map_json "metadata" (r_Metadata r) ++ string_map_json "result" (r_Result r)).

(* src/internal/operation/types.go Event *)
Definition event_json (e : Event) : json :=
  JObj [("sequence", of_int (e_Sequence e)); ("operation_id", JStr (e_OperationID e)); ("type", JStr (e_Type e));
        ("state", JStr (state_text (e_State e))); ("timestamp", JStr (time_text (e_Timestamp e)))].

(* src/internal/control/operation_resources.go operationEventPage *)
(* src/internal/control/operation_resources.go nonNilOperationEvents *)
Definition operationEventPage (l : list Event) (nextAfter : Z) : json :=
  JObj [("data", JArr (event_json <$> l)); ("next_after", of_int nextAfter)].

(** An error whose text is not the answer of the store is a failed write, whatever
    the store found wrong with the request. *)
(* src/internal/control/operation_resources.go writeOperationError *)
Definition writeOperationError (r : control_request) (e : Operation.error) : list action :=
  match e with
  | NotFoundError _ => writeError r StatusNotFound "operation_not_found" "The operation was not found." false []
  | IdempotencyConflictError => writeError r StatusConflict "operation_idempotency_conflict"
      "The idempotency key was already used with a different request." false []
  | InvalidTransitionError _ _ _ => writeError r StatusConflict "operation_state_conflict"
      "The operation cannot be changed from its current state." false []
  | CapacityError => writeError r StatusServiceUnavailable "operation_capacity_exhausted"
      "The operation store is at capacity." true []
  | NotCancelable _ => writeError r StatusConflict "operation_not_cancelable" "The operation is not cancelable." false []
  | _ => writeError r StatusServiceUnavailable "operation_persistence_failed"
      "The operation state could not be persisted." true []
  end.

Definition bad_request (r : operation_request) (code message : string) : list action :=
  writeError (or_request r) StatusBadRequest code message false [].

Definition unavailable (r : operation_request) : list action :=
  writeError (or_request r) StatusServiceUnavailable "operation_manager_unavailable"
    "The operation manager is unavailable." true [].

Definition subject (identity : option Identity) : string :=
  match identity with Some i => id_Subject i | None => "" end.

Definition invalid_expiry (code : string) (r : operation_request) : list action :=
  bad_request r code "Expiry must be between 30 and 3600 seconds.".

(* src/internal/control/operation_resources.go digestPayload *)
Definition digestPayload (payload : json) : string := sha256_hex (default "" (json_marshal payload)).

(** ** Creation

    The part of a handler before the store is asked: the answer to a refused
    request, or what the store is asked for. *)

Definition canonical_operation (i : operationCreateRequest) : json :=
  JObj ([("kind", JStr (oc_Kind i))] ++ omit_empty "target" (oc_Target i)
    ++ (match oc_Cancelable i with Some b => [("cancelable", JBool b)] | None => [] end)
    ++ (if (oc_ExpiresInSeconds i =? 0)%Z then [] else [("expires_in_seconds", of_int (oc_ExpiresInSeconds i))])
    ++ omit_empty "recovery_policy" (oc_RecoveryPolicy i)).

(* src/internal/control/operation_resources.go:124-169 createOperation *)
Definition operation_request_of (m : Manager) (now : Time) (identity : option Identity) (r : operation_request)
    : list action + CreateRequest :=
  match decodeStrictJSON (mkOperationCreate "" "" None 0 "") d_operation_create (cr_Body (or_request r)) with
  | None => inl (bad_request r "invalid_operation_request" "The operation request is invalid.")
  | Some input =>
    let kind := TrimSpace (oc_Kind input) in
    if negb (bool_decide (kind ∈ allowedOperationKinds))
    then inl (bad_request r "unsupported_operation_kind" "The operation kind is not supported.")
    else
      let target := TrimSpace (oc_Target input) in
      if (256 <? String.length target)%nat || contains_any control_whitespace target
      then inl (bad_request r "invalid_operation_target" "The operation target is invalid.")
      else
        let key := TrimSpace (or_IdempotencyKey r) in
        if String.eqb key "" then inl (bad_request r "idempotency_key_required" "Idempotency-Key is required for operation creation.")
        else match operationExpiry m now (oc_ExpiresInSeconds input) with
        | None => inl (invalid_expiry "invalid_operation_expiry" r)
        | Some expiresAt =>
          let input := mkOperationCreate kind target (oc_Cancelable input) (oc_ExpiresInSeconds input) (oc_RecoveryPolicy input) in
          inr (mkCreate kind (TrimSpace target) (subject identity) (default true (oc_Cancelable input)) expiresAt
                 (oc_RecoveryPolicy input) ∅ key (digestPayload (canonical_operation input)))
        end
  end.

Definition canonical_session (i : authSessionCreateRequest) : json :=
  JObj ([("provider_id", JStr (sc_ProviderID i))] ++ omit_empty "account_id" (sc_AccountID i)
    ++ [("method", JStr (sc_Method i))]
    ++ (if (sc_ExpiresInSeconds i =? 0)%Z then [] else [("expires_in_seconds", of_int (sc_ExpiresInSeconds i))])).

(* src/internal/control/operation_resources.go:182-225 createAuthSession *)
Definition session_request_of (m : Manager) (now : Time) (identity : option Identity) (r : operation_request)
    : list action + CreateRequest :=
  match decodeStrictJSON (mkSessionCreate "" "" "" 0) d_session_create (cr_Body (or_request r)) with
  | None => inl (bad_request r "invalid_auth_session_request" "The auth-session request is invalid or contains an unsupported secret field.")
  | Some input =>
    let account := TrimSpace (sc_AccountID input) in
    let method := TrimSpace (sc_Method input) in
    if negb (match allowedAuthMethods (sc_ProviderID input) with Some methods => bool_decide (method ∈ methods) | None => false end)
    then inl (bad_request r "unsupported_auth_method" "The authentication method is not supported for the provider.")
    else
      let key := TrimSpace (or_IdempotencyKey r) in
      if String.eqb key "" then inl (bad_request r "idempotency_key_required" "Idempotency-Key is required for auth-session creation.")
      else match operationExpiry m now (sc_ExpiresInSeconds input) with
      | None => inl (invalid_expiry "invalid_auth_session_expiry" r)
      | Some expiresAt =>
        let target := sc_ProviderID input +:+ (if String.eqb account "" then "" else "/" +:+ account) in
        inr (mkCreate "auth_session" target (subject identity) true expiresAt RecoveryExpire
               (<["provider_id" := sc_ProviderID input]> (<["account_id" := account]> {["auth_method" := method]}))
               key (digestPayload (canonical_session (mkSessionCreate (sc_ProviderID input) account method (sc_ExpiresInSeconds input)))))
      end
  end.

(** One call of the store's [Create], as it is when the request gets there. *)
Record creation := mkCreation { cn_now : Time; cn_times : create_times; cn_fault : option persist_fault; cn_newID : string }.

Definition manager_Create (c : creation) (q : CreateRequest) (m : Manager) : Manager * result (Record_ * bool) Operation.error :=
  let '(s, out) := Create sha256_hex (cn_times c) (cn_fault c) (cn_newID c) q (store m) in (with_store s m, out).

Definition created_status (created : bool) : Z := if created then 202%Z else StatusOK.

(* src/internal/control/operation_resources.go createOperation *)
Definition createOperation (c : creation) (identity : option Identity) (r : operation_request) (m : option Manager)
    : option Manager * list action :=
  match m with
  | None => (None, unavailable r)
  | Some m =>
    match operation_request_of m (cn_now c) identity r with
    | inl script => (Some m, script)
    | inr q =>
      let '(m, out) := manager_Create c q m in
      (Some m, match out with
               | Err e => writeOperationError (or_request r) e
               | Ok (record, created) => writeJSON (created_status created) (record_json record)
               end)
    end
  end.

(** The starter runs the session's worker; it answers whether it could. *)
(* src/internal/control/operation_resources.go createAuthSession *)
Definition createAuthSession (c : creation) (starter : option (Record_ → Manager → Manager * bool))
    (identity : option Identity) (r : operation_request) (m : option Manager) : option Manager * list action :=
  match m with
  | None => (None, unavailable r)
  | Some m =>
    match session_request_of m (cn_now c) identity r with
    | inl script => (Some m, script)
    | inr q =>
      let '(m, out) := manager_Create c q m in
      match out with
      | Err e => (Some m, writeOperationError (or_request r) e)
      | Ok (record, created) =>
        let '(m, started) := match starter with
          | Some start => if created : bool then start record m else (m, true)
          | None => (m, true) end in
        (Some m, if negb started
                 then writeError (or_request r) StatusServiceUnavailable "auth_session_start_failed"
                        "The authentication session could not be started." true []
                 else writeJSON (created_status created) (record_json record))
      end
    end
  end.

(** ** Reading and cancelling *)

(** The record of a resource the identity may use, or the answer to any other. *)
(* src/internal/control/operation_resources.go:246-264 getOperation *)
(* src/internal/control/operation_resources.go:268-286 cancelOperation *)
Definition find_operation (verb : string) (identity : option Identity) (r : control_request) (prefix : string)
    (requireAuthSession : bool) (m : Manager) : list action + Record_ :=
  match resourceID (cr_Path r) prefix with
  | None => inl (writeError r StatusNotFound "operation_not_found" "The operation was not found." false [])
  | Some id =>
    match Get id (store m) with
    | Err e => inl (writeOperationError r e)
    | Ok record =>
      if requireAuthSession && negb (String.eqb (r_Kind record) "auth_session")
      then inl (writeError r StatusNotFound "auth_session_not_found" "The auth session was not found." false [])
      else if negb (mayAccessOperation identity record)
      then inl (writeError r StatusForbidden "operation_forbidden"
             ("The authenticated identity cannot " +:+ verb +:+ " this operation.") false [])
      else inr record
    end
  end.

(* src/internal/control/operation_resources.go getOperation *)
Definition getOperation (identity : option Identity) (r : control_request) (prefix : string)
    (requireAuthSession : bool) (m : Manager) : list action :=
  match find_operation "access" identity r prefix requireAuthSession m with
  | inl script => script
  | inr record => writeJSON StatusOK (record_json record)
  end.

(** [Cancel] of the manager: its two halves one after the other. *)
(* src/internal/operation/manager.go Manager.Cancel *)
Definition manager_Cancel (now : Time) (fault : option persist_fault) (id : string) (m : Manager)
    : Manager * result Record_ Operation.error :=
  match Cancel_record now fault id m with
  | (m, Err e) => (m, Err e)
  | (m, Ok record) => (Cancel_runner id m, Ok record)
  end.

(** [m0] is the manager when the record is read, [m] when it is cancelled. *)
(* src/internal/control/operation_resources.go cancelOperation *)
Definition cancelOperation (now : Time) (fault : option persist_fault) (identity : option Identity)
    (r : control_request) (prefix : string) (requireAuthSession : bool) (m0 m : Manager) : Manager * list action :=
  match find_operation "cancel" identity r prefix requireAuthSession m0 with
  | inl script => (m, script)
  | inr _ =>
    let '(m, out) := manager_Cancel now fault (TrimPrefix (cr_Path r) prefix) m in
    (m, match out with
        | Err e => writeOperationError r e
        | Ok cancelled => writeJSON StatusOK (record_json cancelled)
        end)
  end.

(** ** Events *)

(** The page: the events as the store [s] has them, the lookups at [at_]. *)
(* src/internal/control/operation_resources.go:299-308 serveOperationEvents *)
Definition event_page (identity : option Identity) (r : operation_request) (s : Store) (at_ : nat → Store) : list action :=
  match operationEventCursor r with
  | None => bad_request r "invalid_operation_event_cursor" "The operation event cursor must be an unsigned integer."
  | Some after =>
    let l := visibleOperationEvents identity at_ (Events after s) in
    writeJSON StatusOK (operationEventPage l (lastOperationSequence after l))
  end.

(* src/internal/control/operation_resources.go writeOperationSSE *)
Definition writeOperationSSE (e : Event) : option string :=
  (λ payload, "id: " +:+ pretty (e_Sequence e) +:+ newline +:+ "event: " +:+ e_Type e +:+ newline +:+ "data: " +:+ payload +:+ newline +:+ newline)
  <$> json_marshal (event_json e).

End resources.

(** ** The stream of events

    Judging is the filter of the replay, one lookup at a time; [sm_hidden] keeps, for
    the theorems, the events the identity was not allowed to see when their turn
    came. *)

Inductive phase :=
| Subscribed
| Judging (left kept : list Event)
| Replaying (todo : list Event)
| Live
| Ended.

Record stream := mkStream {
  sm_identity : option Identity; sm_after : Z; sm_channel : channel; sm_sub : option Z;
  sm_phase : phase; sm_out : list Event; sm_hidden : list Event;
}.

(** The store, the events its commits have not published yet, and the stream. *)
Record world := mkWorld { w_store : Store; w_pending : list Event; w_stream : stream }.

(** The handler up to its subscription. *)
(* src/internal/control/operation_resources.go:309-319 serveOperationEvents *)
Definition open_stream (identity : option Identity) (after : Z) (s : Store) : Store * stream :=
  let '(s, sub) := Subscribe 32 s in
  (s, mkStream identity after (mkChannel [] 32 (bool_decide (sub = None))) sub Subscribed [] []).

Definition set_phase (p : phase) (st : stream) : stream :=
  mkStream (sm_identity st) (sm_after st) (sm_channel st) (sm_sub st) p (sm_out st) (sm_hidden st).
Definition set_channel (ch : channel) (st : stream) : stream :=
  mkStream (sm_identity st) (sm_after st) ch (sm_sub st) (sm_phase st) (sm_out st) (sm_hidden st).
Definition hide (e : Event) (st : stream) : stream :=
  mkStream (sm_identity st) (sm_after st) (sm_channel st) (sm_sub st) (sm_phase st) (sm_out st) (sm_hidden st ++ [e]).
Definition wrote (e : Event) (st : stream) : stream :=
  mkStream (sm_identity st) (e_Sequence e) (sm_channel st) (sm_sub st) (sm_phase st) (sm_out st ++ [e]) (sm_hidden st).

Definition visible (st : stream) (s : Store) (e : Event) : bool :=
  is_admin (sm_identity st) || operationEventVisible (sm_identity st) s e.

(** The deferred cancellation of the subscription. *)
Definition end_stream (w : world) : world :=
  mkWorld (match sm_sub (w_stream w) with Some id => Unsubscribe id (w_store w) | None => w_store w end)
    (w_pending w) (set_phase Ended (w_stream w)).

Definition with_stream (st : stream) (w : world) : world := mkWorld (w_store w) (w_pending w) st.

(** A commit of the store without its publication, and the event it has recorded. *)
(* src/internal/operation/store.go:99-166 Store.Create *)
(* src/internal/operation/store.go:199-241 Store.Transition *)
Definition commit (sha256_hex : string → string) (o : op) (s : Store) : Store * option Event :=
  let s' := Operation.step sha256_hex s o in
  (s', if (nextSequence s' =? nextSequence s)%Z then None else last (events s')).

Inductive stream_event :=
| EvCommit (o : op) | EvPublish (i : nat) | EvClose
| EvEvents | EvJudge | EvWrite (ok : bool) | EvReceive (ok : bool) | EvKeepalive (ok : bool) | EvGone.

Definition offer_open (e : Event) (ch : channel) : channel := if ch_closed ch then ch else offer e ch.

(* src/internal/control/operation_resources.go:320-358 serveOperationEvents *)
Definition stream_step (sha256_hex : string → string) (ev : stream_event) (w : world) : option world :=
  let st := w_stream w in
  match ev, sm_phase st with
  | EvCommit OpClose, _ => None
  | EvCommit o, _ =>
    let '(s, e) := commit sha256_hex o (w_store w) in
    Some (mkWorld s (w_pending w ++ option_list e) st)
  | EvPublish i, _ =>
    (λ e, mkWorld (w_store w) (delete i (w_pending w)) (set_channel (offer_open e (sm_channel st)) st)) <$> w_pending w !! i
  | EvClose, _ =>
    Some (mkWorld (Close (w_store w)) (w_pending w)
            (set_channel (mkChannel (ch_buffer (sm_channel st)) (ch_capacity (sm_channel st)) true) st))
  | EvEvents, Subscribed => Some (with_stream (set_phase (Judging (Events (sm_after st) (w_store w)) []) st) w)
  | EvJudge, Judging [] kept => Some (with_stream (set_phase (Replaying kept) st) w)
  | EvJudge, Judging (e :: l) kept =>
    Some (with_stream (if visible st (w_store w) e then set_phase (Judging l (kept ++ [e])) st
                       else hide e (set_phase (Judging l kept) st)) w)
  | EvWrite _, Replaying [] => Some (with_stream (set_phase Live st) w)
  | EvWrite ok, Replaying (e :: l) =>
    if (e_Sequence e <=? sm_after st)%Z then Some (with_stream (set_phase (Replaying l) st) w)
    else if negb ok then Some (end_stream w)
    else Some (with_stream (wrote e (set_phase (Replaying l) st)) w)
  | EvReceive ok, Live =>
    match ch_buffer (sm_channel st) with
    | [] => if ch_closed (sm_channel st) then Some (end_stream w) else None
    | e :: l =>
      let st := set_channel (mkChannel l (ch_capacity (sm_channel st)) (ch_closed (sm_channel st))) st in
      if (e_Sequence e <=? sm_after st)%Z then Some (with_stream st w)
      else if negb (operationEventVisible (sm_identity st) (w_store w) e) then Some (with_stream (hide e st) w)
      else if negb ok then Some (end_stream (with_stream st w))
      else Some (with_stream (wrote e st) w)
    end
  | EvKeepalive ok, Live => Some (if ok : bool then w else end_stream w)
  | EvGone, Live => Some (end_stream w)
  | _, _ => None
  end.

Fixpoint stream_run (sha256_hex : string → string) (l : list stream_event) (w : world) : option world :=
  match l with
  | [] => Some w
  | ev :: l => stream_step sha256_hex ev w ≫= stream_run sha256_hex l
  end.

(** ** What a stream misses *)

Definition before (a b : Event) : Prop := (e_Sequence a < e_Sequence b)%Z.

Definition queue (w : world) : list Event := ch_buffer (sm_channel (w_stream w)) ++ w_pending w.

Definition todo (st : stream) : list Event :=
  match sm_phase st with Judging l kept => kept ++ l | Replaying l => l | _ => [] end.

Definition accounted (st : stream) (e : Event) : Prop := e ∈ sm_out st ∨ e ∈ sm_hidden st.

(** The stream has read the history, and has not ended. *)
Definition reading (st : stream) : Prop :=
  match sm_phase st with Judging _ _ | Replaying _ | Live => True | _ => False end.

Definition unread (st : stream) : Prop :=
  match sm_phase st with Subscribed | Judging _ _ => True | _ => False end.

(** What the stream is known to have in hand, at any point of a run. *)
Record in_hand (cursor : Z) (w : world) : Prop := {
  ih_store : Operation.inv (w_store w);
  ih_queue : StronglySorted before (queue w);
  ih_next : Forall (λ e, e_Sequence e ≤ nextSequence (w_store w))%Z (queue w ++ todo (w_stream w));
  ih_todo : StronglySorted before (todo (w_stream w));
  ih_later : Forall (λ e, sm_after (w_stream w) < e_Sequence e)%Z (todo (w_stream w));
  ih_out : StronglySorted before (sm_out (w_stream w));
  ih_range : Forall (λ e, cursor < e_Sequence e ≤ sm_after (w_stream w))%Z (sm_out (w_stream w));
  ih_cursor : (cursor ≤ sm_after (w_stream w))%Z;
  ih_bound : sm_after (w_stream w) = cursor ∨ (sm_after (w_stream w) ≤ nextSequence (w_store w))%Z;
  ih_unread : unread (w_stream w) → sm_after (w_stream w) = cursor;
  ih_ahead : reading (w_stream w) → ∀ x, x ∈ queue w →
    accounted (w_stream w) x ∨ x ∈ todo (w_stream w) ∨ (e_Sequence x ≤ cursor)%Z
    ∨ ((sm_after (w_stream w) < e_Sequence x)%Z ∧ Forall (λ t, before t x) (todo (w_stream w)));
  ih_seen : reading (w_stream w) → ∀ x, x ∈ events (w_store w) → (cursor < e_Sequence x)%Z →
    accounted (w_stream w) x ∨ x ∈ todo (w_stream w) ∨ x ∈ queue w;
}.

(** What a run must respect: identifiers are fresh and sequence numbers do not wrap;
    publications come in the order of the commits, into a buffer with room; and the
    events on their way are still in the history when the stream reads it. *)
Definition calm_step (ev : stream_event) (w : world) : Prop :=
  let ch := sm_channel (w_stream w) in
  match ev with
  | EvCommit o => fresh_op (w_store w) o ∧ (nextSequence (w_store w) + 1 < 2 ^ 64)%Z
  | EvPublish i => i = 0 ∧ ch_closed ch = false ∧ length (ch_buffer ch) < ch_capacity ch
  | EvEvents => ∀ x, x ∈ queue w → x ∈ events (w_store w)
  | _ => True
  end.

Fixpoint calm (sha256_hex : string → string) (l : list stream_event) (w : world) : Prop :=
  match l with
  | [] => True
  | ev :: l => calm_step ev w ∧ match stream_step sha256_hex ev w with Some w => calm sha256_hex l w | None => True end
  end.

Lemma last_elem_of {A} (l : list A) x : last l = Some x → x ∈ l.
Proof. rewrite last_Some. intros [l' ->]. rewrite elem_of_app. right. by left. Qed.

Lemma last_of_drop {A} n (l : list A) x y : last (drop n (l ++ [x])) = Some y → y = x.
Proof.
  revert n. induction l as [|z l IH]; intros [|n]; simpl; [congruence|by destruct n| |apply IH].
  change (z :: l ++ [x]) with ((z :: l) ++ [x]). rewrite last_snoc. congruence.
Qed.

(** A commit, as the stream sees it. *)
Record recorded (s s' : Store) (ev : option Event) : Prop := {
  rc_next : (nextSequence s ≤ nextSequence s')%Z;
  rc_events : ∀ x, x ∈ events s' → x ∈ events s ∨ ev = Some x;
  rc_new : ∀ e, ev = Some e → e_Sequence e = (nextSequence s + 1)%Z ∧ nextSequence s' = (nextSequence s + 1)%Z;
}.

Definition new_event (s s' : Store) : option Event :=
  if (nextSequence s' =? nextSequence s)%Z then None else last (events s').

Lemma recorded_same s s' : events s' = events s → nextSequence s' = nextSequence s → recorded s s' (new_event s s').
Proof. intros He Hn. unfold new_event. rewrite Hn, Z.eqb_refl. split; [lia| |done]. rewrite He. by left. Qed.

Lemma recorded_advanced s s1 s' id event e :
  (0 ≤ nextSequence s)%Z → (nextSequence s + 1 < 2 ^ 64)%Z →
  events s1 = events s → nextSequence s1 = nextSequence s → advanced id event e s1 s' → recorded s s' (new_event s s').
Proof.
  intros H0 Hb Hev Hn [_ _ _ Aev As Ae _]. rewrite Hn in As, Ae. rewrite Hev in Aev.
  rewrite wrap_u64_small in As, Ae by lia. unfold new_event. rewrite As, Aev. unfold take_last.
  rewrite (proj2 (Z.eqb_neq (nextSequence s + 1) (nextSequence s))) by lia. split; [lia| |].
  - intros x Hx. rewrite Aev in Hx. assert (x ∈ events s ∨ x = event) as [?| ->].
    { apply elem_of_take_last in Hx. apply elem_of_app in Hx as [?|?%list_elem_of_singleton]; auto. }
    { by left. }
    unfold take_last in Hx.
    destruct (last (drop (length (events s ++ [event]) - MaxEvents (options s1)) (events s ++ [event]))) as [y|] eqn:El.
    + apply last_of_drop in El as ->. by right.
    + apply last_None in El. rewrite El in Hx. by apply elem_of_nil in Hx.
  - intros x ->%last_of_drop. by split.
Qed.

Lemma commit_spec h o s s' ev :
  Operation.inv s → (nextSequence s + 1 < 2 ^ 64)%Z → fresh_op s o → commit h o s = (s', ev) →
  Operation.inv s' ∧ recorded s s' ev.
Proof.
  intros Hi Hb Hf. destruct (run_effect h s o Hf) as [He _]. unfold commit, Operation.step. intros [= <- <-].
  split; [by eapply Operation.inv_effect|]. pose proof (i_sequence _ Hi) as H0.
  destruct He as [(_ & _ & ? & ? & _) _|Hc|s1 changed Hp (_ & _ & Hev & Hn & _) _
    |s1 changed id event e Hp _ _ _ _ _ [A _]|id event item e _ _ _ _ _ _ [A _]].
  - by apply recorded_same.
  - apply recorded_same; rewrite Hc; unfold Close; by destruct (closed s).
  - apply recorded_same; [rewrite Hev|rewrite Hn]; apply Hp.
  - by eapply (recorded_advanced s s1); [..|apply Hp|apply Hp|].
  - by eapply recorded_advanced.
Qed.

Ltac stream_simpl := cbn [w_store w_pending w_stream with_stream set_phase set_channel hide wrote
  sm_identity sm_after sm_channel sm_sub sm_phase sm_out sm_hidden ch_buffer ch_capacity ch_closed] in *.

Lemma in_hand_commit cursor h o w s' ev :
  in_hand cursor w → fresh_op (w_store w) o → (nextSequence (w_store w) + 1 < 2 ^ 64)%Z →
  commit h o (w_store w) = (s', ev) → in_hand cursor (mkWorld s' (w_pending w ++ option_list ev) (w_stream w)).
Proof.
  intros J Hf Hb Hc. destruct (commit_spec _ _ _ _ _ (ih_store _ _ J) Hb Hf Hc) as [Hi [Rn Re Rv]].
  pose proof (ih_next _ _ J) as Hn. rewrite Forall_app in Hn. destruct Hn as [Hq Ht].
  assert (Hqueue : queue (mkWorld s' (w_pending w ++ option_list ev) (w_stream w)) = queue w ++ option_list ev).
  { unfold queue. stream_simpl. by rewrite app_assoc. }
  assert (Hnew : ∀ x, x ∈ option_list ev → e_Sequence x = (nextSequence (w_store w) + 1)%Z ∧ nextSequence s' = (nextSequence (w_store w) + 1)%Z).
  { destruct ev as [e|]; [|by intros x ?%elem_of_nil]. intros x ->%list_elem_of_singleton. by apply Rv. }
  rewrite Forall_forall in Hq, Ht.
  split; rewrite ?Hqueue; stream_simpl; try apply J; try done.
  - apply StronglySorted_app_2; [|apply J|destruct ev; repeat constructor].
    intros x1 x2 H1%Hq H2%Hnew. unfold before. lia.
  - rewrite !Forall_app, !Forall_forall. split_and!; intros x Hx; [apply Hq in Hx|apply Hnew in Hx|apply Ht in Hx]; lia.
  - destruct (ih_bound _ _ J); [by left|right; lia].
  - intros Hr x [Hx|Hx]%elem_of_app; [by apply J|]. right; right. apply Hnew in Hx as [Hx _].
    destruct (Z.le_gt_cases (e_Sequence x) cursor) as [?|Hc']; [by left|right].
    split; [destruct (ih_bound _ _ J); lia|]. apply Forall_forall. intros t Hin%Ht. unfold before. lia.
  - intros Hr x [Hx| ->]%Re Hcur; rewrite elem_of_app.
    + destruct (ih_seen _ _ J Hr x Hx Hcur) as [?|[?|?]]; auto.
    + right; right; right. by left.
Qed.

(** Steps that leave the queue, the history and what the stream has in hand. *)
Lemma in_hand_eq cursor w w' :
  in_hand cursor w → Operation.inv (w_store w') → nextSequence (w_store w') = nextSequence (w_store w) →
  events (w_store w') = events (w_store w) → queue w' = queue w → todo (w_stream w') = todo (w_stream w) →
  sm_after (w_stream w') = sm_after (w_stream w) → sm_out (w_stream w') = sm_out (w_stream w) →
  sm_hidden (w_stream w') = sm_hidden (w_stream w) →
  (reading (w_stream w') → reading (w_stream w)) → (unread (w_stream w') → unread (w_stream w)) →
  in_hand cursor w'.
Proof.
  intros J Hi En Ee Eq Et Ea Eo Eh Hr Hu.
  split; rewrite ?En, ?Ee, ?Eq, ?Et, ?Ea, ?Eo; try apply J; try done; unfold accounted; rewrite ?Eo, ?Eh.
  - intros ?. by apply J, Hu.
  - intros ?. by apply J, Hr.
  - intros ?. by apply J, Hr.
Qed.

Lemma inv_Close s : Operation.inv s → Operation.inv (Close s).
Proof. intros Hi. unfold Close. destruct (closed s); [done|]. by destruct Hi. Qed.

Lemma in_hand_end cursor pre w w' :
  in_hand cursor w → queue w = pre ++ queue w' → w_store w' = w_store w →
  sm_after (w_stream w') = sm_after (w_stream w) → sm_out (w_stream w') = sm_out (w_stream w) →
  in_hand cursor (end_stream w').
Proof.
  intros J Hq Es Ea Eo. pose proof (ih_queue _ _ J) as Hs. rewrite Hq in Hs. apply StronglySorted_app_1_r in Hs.
  pose proof (ih_next _ _ J) as Hn. rewrite Hq, <-app_assoc in Hn. apply Forall_app in Hn as [_ Hn].
  apply Forall_app in Hn as [Hn _].
  assert (Eq : queue (end_stream w') = queue w') by done.
  assert (En : nextSequence (w_store (end_stream w')) = nextSequence (w_store w)).
  { unfold end_stream. stream_simpl. rewrite Es. by destruct (sm_sub (w_stream w')). }
  split; rewrite ?Eq, ?En; try done; unfold end_stream, todo; stream_simpl; rewrite ?Ea, ?Eo; try apply J; try by constructor.
  - rewrite Es. destruct (sm_sub (w_stream w')); [|by apply J]. eapply inv_same_state; [|apply J]. done.
  - by rewrite app_nil_r.
Qed.

Lemma in_hand_publish cursor w e l :
  in_hand cursor w → w_pending w = e :: l → ch_closed (sm_channel (w_stream w)) = false →
  length (ch_buffer (sm_channel (w_stream w))) < ch_capacity (sm_channel (w_stream w)) →
  in_hand cursor (mkWorld (w_store w) l (set_channel (offer_open e (sm_channel (w_stream w))) (w_stream w))).
Proof.
  intros J Hp Hc Hroom. apply (in_hand_eq cursor w); try done; [apply J|].
  unfold queue, offer_open, offer. stream_simpl. rewrite Hc, Hp, (proj2 (Nat.ltb_lt _ _) Hroom). stream_simpl.
  by rewrite <-app_assoc.
Qed.

Lemma Events_sorted after s : Operation.inv s → StronglySorted before (Events after s).
Proof.
  intros Hi. unfold Events. pose proof (i_sorted _ Hi) as Hs. induction Hs as [|e l Hs IH He]; [constructor|].
  rewrite filter_cons. case_decide; [|done]. constructor; [done|].
  apply Forall_forall. intros x [_ Hx]%list_elem_of_filter. rewrite Forall_forall in He. by apply He.
Qed.

Lemma in_hand_read cursor w :
  in_hand cursor w → sm_phase (w_stream w) = Subscribed → (∀ x, x ∈ queue w → x ∈ events (w_store w)) →
  in_hand cursor (with_stream (set_phase (Judging (Events (sm_after (w_stream w)) (w_store w)) []) (w_stream w)) w).
Proof.
  intros J Hp Hhist. assert (Hun : unread (w_stream w)) by (unfold unread; by rewrite Hp).
  pose proof (ih_unread _ _ J Hun) as Hcur.
  assert (Hin : ∀ x, x ∈ Events (sm_after (w_stream w)) (w_store w) ↔ (cursor < e_Sequence x)%Z ∧ x ∈ events (w_store w)).
  { intros x. unfold Events. rewrite list_elem_of_filter, Hcur. done. }
  pose proof (ih_next _ _ J) as Hn. apply Forall_app in Hn as [Hn _].
  split; unfold todo, queue, reading, unread, accounted in *; stream_simpl; try apply J; try done.
  - apply Forall_app; split; [done|]. apply Forall_forall. intros x [_ Hx]%Hin.
    pose proof (i_events _ (ih_store _ _ J)) as He. rewrite Forall_forall in He. by apply He.
  - by apply Events_sorted, J.
  - apply Forall_forall. intros x [? _]%Hin. lia.
  - intros _ x Hx%Hhist. destruct (Z.le_gt_cases (e_Sequence x) cursor); [by auto|].
    right; left. rewrite app_nil_l. apply Hin. split; [lia|done].
  - intros _ x Hx Hlt. right; left. rewrite app_nil_l. by apply Hin.
Qed.

(** An event of the replay the identity may not see. *)
Lemma in_hand_hide cursor w e l kept :
  in_hand cursor w → sm_phase (w_stream w) = Judging (e :: l) kept →
  in_hand cursor (with_stream (hide e (set_phase (Judging l kept) (w_stream w))) w).
Proof.
  intros J Hp. assert (Hr : reading (w_stream w)) by (unfold reading; by rewrite Hp).
  assert (Hun : unread (w_stream w)) by (unfold unread; by rewrite Hp).
  pose proof (ih_next _ _ J) as Hn. pose proof (ih_todo _ _ J) as Hs. pose proof (ih_later _ _ J) as Hl.
  pose proof (ih_ahead _ _ J Hr) as Ha. pose proof (ih_seen _ _ J Hr) as Hseen.
  assert (Htodo : todo (w_stream w) = kept ++ e :: l) by (unfold todo; by rewrite Hp). rewrite Htodo in *.
  rewrite StronglySorted_app in Hs. destruct Hs as (H12 & H1 & H2). inversion H2 as [|? ? H2' _]; subst.
  split; unfold todo, queue, reading, unread, accounted in *; stream_simpl; try apply J; try done.
  - rewrite !Forall_app, !Forall_cons in *. naive_solver.
  - apply StronglySorted_app_2; [|done..]. intros x1 x2 ? ?. apply H12; [done|by right].
  - rewrite !Forall_app, !Forall_cons in *. naive_solver.
  - intros _. by apply J.
  - intros _ x Hx. specialize (Ha x Hx). rewrite !elem_of_app, !Forall_app, !elem_of_cons, !Forall_cons, elem_of_nil in *. naive_solver.
  - intros _ x Hx Hc. specialize (Hseen x Hx Hc). rewrite !elem_of_app, !elem_of_cons, elem_of_nil in *. naive_solver.
Qed.

Lemma ordered_cons (x : Event) l : StronglySorted before (x :: l) ↔ Forall (before x) l ∧ StronglySorted before l.
Proof. split; [inversion 1; subst; done|intros [? ?]; by constructor]. Qed.

(** The stream writes the next event of the replay. *)
Lemma in_hand_write cursor w e l :
  in_hand cursor w → sm_phase (w_stream w) = Replaying (e :: l) →
  in_hand cursor (with_stream (wrote e (set_phase (Replaying l) (w_stream w))) w).
Proof.
  intros J Hp. assert (Hr : reading (w_stream w)) by (unfold reading; by rewrite Hp).
  pose proof (ih_next _ _ J) as Hn. pose proof (ih_todo _ _ J) as Hs. pose proof (ih_later _ _ J) as Hl.
  pose proof (ih_ahead _ _ J Hr) as Ha. pose proof (ih_seen _ _ J Hr) as Hseen.
  pose proof (ih_range _ _ J) as Hrange. pose proof (ih_cursor _ _ J) as Hcur.
  assert (Htodo : todo (w_stream w) = e :: l) by (unfold todo; by rewrite Hp). rewrite Htodo in *.
  apply ordered_cons in Hs as [He Hs]. apply Forall_cons in Hl as [Hle Hl].
  split; unfold todo, queue, reading, unread, accounted in *; stream_simpl; try apply J; try done.
  - rewrite !Forall_app, !Forall_cons in *. naive_solver.
  - apply StronglySorted_snoc; [apply J|]. eapply Forall_impl; [exact Hrange|]. unfold before. intros x ?. simpl in *. lia.
  - apply Forall_app; split; [|repeat constructor; lia]. eapply Forall_impl; [exact Hrange|]. intros x ?. simpl in *. lia.
  - lia.
  - right. rewrite Forall_app, Forall_cons in Hn. naive_solver.
  - intros _ x Hx. specialize (Ha x Hx). rewrite !elem_of_app, !elem_of_cons, !Forall_cons, elem_of_nil in *. unfold before in *.
    destruct Ha as [[?|?]|[[->|?]|[?|(? & ? & ?)]]]; auto 8.
  - intros _ x Hx Hc. specialize (Hseen x Hx Hc). rewrite !elem_of_app, !elem_of_cons, elem_of_nil in *. naive_solver.
Qed.

Lemma live_todo st : sm_phase st = Live → todo st = [].
Proof. unfold todo. by intros ->. Qed.

Definition popped (l : list Event) (st : stream) : stream :=
  set_channel (mkChannel l (ch_capacity (sm_channel st)) (ch_closed (sm_channel st))) st.

Lemma popped_queue e l w :
  ch_buffer (sm_channel (w_stream w)) = e :: l → queue w = e :: queue (with_stream (popped l (w_stream w)) w).
Proof. unfold queue. stream_simpl. by intros ->. Qed.

(** The live stream passes over an event it has accounted for, or hides one. *)
Lemma in_hand_pass cursor w e l st :
  in_hand cursor w → sm_phase (w_stream w) = Live → ch_buffer (sm_channel (w_stream w)) = e :: l →
  (st = popped l (w_stream w) ∧ (e_Sequence e ≤ sm_after (w_stream w))%Z ∨ st = hide e (popped l (w_stream w))) →
  in_hand cursor (with_stream st w).
Proof.
  intros J Hp Hb Hst. assert (Hr : reading (w_stream w)) by (unfold reading; by rewrite Hp).
  pose proof (popped_queue _ _ _ Hb) as Hq. pose proof (live_todo _ Hp) as Ht.
  pose proof (ih_next _ _ J) as Hn. pose proof (ih_queue _ _ J) as Hs.
  pose proof (ih_ahead _ _ J Hr) as Ha. pose proof (ih_seen _ _ J Hr) as Hseen. rewrite Hq, Ht in *.
  set (rest := queue (with_stream (popped l (w_stream w)) w)) in *.
  apply ordered_cons in Hs as [_ Hs]. apply Forall_app in Hn as [[_ Hn]%Forall_cons _].
  assert (He : accounted st e ∨ (e_Sequence e ≤ cursor)%Z).
  { destruct Hst as [[-> Hle]| ->]; unfold accounted; stream_simpl; [|left; right; rewrite elem_of_app; right; by left].
    destruct (Ha e) as [?|[?%elem_of_nil|[?|[? _]]]]; [by left|by left|done|by right|lia]. }
  assert (Hkeep : ∀ x, accounted (w_stream w) x → accounted st x).
  { destruct Hst as [[-> _]| ->]; unfold accounted; stream_simpl; [done|]. intros x. rewrite elem_of_app. tauto. }
  assert (sm_after st = sm_after (w_stream w) ∧ sm_out st = sm_out (w_stream w) ∧ todo st = []
    ∧ queue (with_stream st w) = rest ∧ unread st = False) as (Ea & Eo & Et & Eq & Eu).
  { destruct Hst as [[-> _]| ->]; unfold todo, unread, popped; stream_simpl; by rewrite Hp. }
  split; unfold with_stream in *; stream_simpl; rewrite ?Ea, ?Eo, ?Et, ?Eq, ?Eu; try apply J; try done.
  - by rewrite app_nil_r.
  - by constructor.
  - intros _ x Hx. destruct (Ha x) as [?|[?|[?|[? _]]]]; [by right|auto..].
  - intros _ x Hx Hc. destruct (Hseen x Hx Hc) as [?|[?|[->|?]%elem_of_cons]]; auto. destruct He as [?|?]; [auto|lia].
Qed.

(** The live stream writes an event. *)
Lemma in_hand_receive cursor w e l :
  in_hand cursor w → sm_phase (w_stream w) = Live → ch_buffer (sm_channel (w_stream w)) = e :: l →
  (sm_after (w_stream w) < e_Sequence e)%Z → in_hand cursor (with_stream (wrote e (popped l (w_stream w))) w).
Proof.
  intros J Hp Hb Hlt. assert (Hr : reading (w_stream w)) by (unfold reading; by rewrite Hp).
  pose proof (popped_queue _ _ _ Hb) as Hq. pose proof (live_todo _ Hp) as Ht.
  pose proof (ih_next _ _ J) as Hn. pose proof (ih_queue _ _ J) as Hs. pose proof (ih_range _ _ J) as Hrange.
  pose proof (ih_ahead _ _ J Hr) as Ha. pose proof (ih_seen _ _ J Hr) as Hseen. pose proof (ih_cursor _ _ J) as Hcur.
  rewrite Hq, Ht in *. set (rest := queue (with_stream (popped l (w_stream w)) w)) in *.
  apply ordered_cons in Hs as [He Hs]. apply Forall_app in Hn as [[Hne Hn]%Forall_cons _].
  set (st := wrote e (popped l (w_stream w))).
  assert (todo st = [] ∧ queue (with_stream st w) = rest ∧ unread st = False) as (Et & Eq & Eu).
  { unfold st, todo, unread, popped; stream_simpl; by rewrite Hp. }
  assert (sm_after st = e_Sequence e ∧ sm_out st = sm_out (w_stream w) ++ [e] ∧ sm_hidden st = sm_hidden (w_stream w)) as (Ea & Eo & Eh) by done.
  clearbody st.
  split; unfold with_stream, accounted in *; stream_simpl; rewrite ?Ea, ?Eo, ?Eh, ?Et, ?Eq, ?Eu; try apply J; try done.
  - by rewrite app_nil_r.
  - by constructor.
  - apply StronglySorted_snoc; [apply J|]. eapply Forall_impl; [exact Hrange|]. unfold before. intros x ?. simpl in *. lia.
  - apply Forall_app; split; [|repeat constructor; lia]. eapply Forall_impl; [exact Hrange|]. intros x ?. simpl in *. lia.
  - lia.
  - by right.
  - intros _ x Hx. rewrite Forall_forall in He. specialize (He x Hx). unfold before in He.
    rewrite !elem_of_app. destruct (Ha x) as [[?|?]|[?|[?|[? _]]]]; [by right|auto 8 ..].
  - intros _ x Hx Hc. rewrite !elem_of_app. destruct (Hseen x Hx Hc) as [[?|?]|[?|[->|?]%elem_of_cons]]; auto.
    left; left; right; by left.
Qed.

Lemma in_hand_receives cursor ok w w' :
  in_hand cursor w → sm_phase (w_stream w) = Live →
  (match ch_buffer (sm_channel (w_stream w)) with
   | [] => if ch_closed (sm_channel (w_stream w)) then Some (end_stream w) else None
   | e :: l =>
     let st := popped l (w_stream w) in
     if (e_Sequence e <=? sm_after st)%Z then Some (with_stream st w)
     else if negb (operationEventVisible (sm_identity st) (w_store w) e) then Some (with_stream (hide e st) w)
     else if negb ok then Some (end_stream (with_stream st w))
     else Some (with_stream (wrote e st) w)
   end) = Some w' → in_hand cursor w'.
Proof.
  intros J Hp. destruct (ch_buffer (sm_channel (w_stream w))) as [|e l] eqn:Hb.
  { destruct (ch_closed _); [intros [= <-]|done]. by apply (in_hand_end _ [] w w). }
  cbv zeta. destruct (Z.leb_spec (e_Sequence e) (sm_after (popped l (w_stream w)))) as [Hle|Hlt].
  { intros [= <-]. eapply in_hand_pass; eauto. }
  destruct (negb (operationEventVisible _ _ _)); [intros [= <-]; eapply in_hand_pass; eauto|].
  destruct ok; cbn [negb]; intros [= <-]; [by eapply in_hand_receive|].
  apply (in_hand_end cursor [e] w (with_stream (popped l (w_stream w)) w)); try done. by apply popped_queue.
Qed.

Lemma in_hand_step cursor h ev w w' :
  in_hand cursor w → calm_step ev w → stream_step h ev w = Some w' → in_hand cursor w'.
Proof.
  intros J Hcalm. destruct ev as [o|i| | | |ok|ok|ok|]; cbn [stream_step].
  - intros Hstep. destruct Hcalm as [Hf Hb].
    assert (match commit h o (w_store w) with (s, e) => Some (mkWorld s (w_pending w ++ option_list e) (w_stream w)) end = Some w') as H'
      by by destruct o.
    destruct (commit h o (w_store w)) as [s' e] eqn:Hc. injection H' as <-. by eapply in_hand_commit.
  - destruct Hcalm as (-> & Hc & Hroom). destruct (w_pending w) as [|e l] eqn:Hp; [done|]. intros [= <-].
    by apply in_hand_publish.
  - intros [= <-]. apply (in_hand_eq cursor w); try done; [apply inv_Close, J|stream_simpl; unfold Close; by destruct (closed _)..].
  - destruct (sm_phase (w_stream w)) eqn:Hp; try done. intros [= <-]. by apply in_hand_read.
  - destruct (sm_phase (w_stream w)) as [|[|e l] kept| | |] eqn:Hp; try done; intros [= <-].
    + apply (in_hand_eq cursor w); try done; [apply J|unfold todo; stream_simpl; by rewrite Hp, app_nil_r|unfold reading; by rewrite Hp].
    + case_match; [|by apply in_hand_hide].
      apply (in_hand_eq cursor w); try done; [apply J|unfold todo; stream_simpl; by rewrite Hp, <-app_assoc
        |unfold reading; by rewrite Hp|unfold unread; by rewrite Hp].
  - destruct (sm_phase (w_stream w)) as [| |[|e l]| |] eqn:Hp; try done.
    + intros [= <-]. apply (in_hand_eq cursor w); try done; [apply J|unfold todo; stream_simpl; by rewrite Hp|unfold reading; by rewrite Hp].
    + pose proof (ih_later _ _ J) as Hl. unfold todo in Hl. rewrite Hp in Hl. apply Forall_cons in Hl as [Hl _].
      rewrite (proj2 (Z.leb_gt _ _) Hl). destruct ok; intros [= <-]; [by apply in_hand_write|].
      by apply (in_hand_end _ [] w w).
  - destruct (sm_phase (w_stream w)) eqn:Hp; try done. by apply in_hand_receives.
  - destruct (sm_phase (w_stream w)) eqn:Hp; try done. destruct ok; intros [= <-]; [done|].
    by apply (in_hand_end _ [] w w).
  - destruct (sm_phase (w_stream w)) eqn:Hp; try done. intros [= <-]. by apply (in_hand_end _ [] w w).
Qed.

Lemma in_hand_run cursor h l w w' :
  in_hand cursor w → calm h l w → stream_run h l w = Some w' → in_hand cursor w'.
Proof.
  revert w. induction l as [|ev l IH]; intros w J; cbn [calm stream_run]; [by intros _ [= <-]|].
  intros [Hc Hrest]. destruct (stream_step h ev w) as [w1|] eqn:Hs; [|done]. simpl.
  apply IH; [by eapply in_hand_step|done].
Qed.

(** A stream that starts on an open store, while the events [pending] have been
    committed and not published. *)
Definition start_stream (identity : option Identity) (after : Z) (s : Store) (pending : list Event) : world :=
  let '(s, st) := open_stream identity after s in mkWorld s pending st.

Lemma in_hand_start identity after s pending :
  Operation.inv s → StronglySorted before pending → Forall (λ e, e_Sequence e ≤ nextSequence s)%Z pending →
  in_hand after (start_stream identity after s pending).
Proof.
  intros Hi Hs Hn. unfold start_stream, open_stream, Subscribe.
  assert (∀ s' sub b, Operation.inv s' → nextSequence s' = nextSequence s →
    in_hand after (mkWorld s' pending (mkStream identity after (mkChannel [] 32 b) sub Subscribed [] []))) as H.
  { intros s' sub b Hi' Hn'. split; unfold queue, todo, reading; stream_simpl; rewrite ?Hn', ?app_nil_r, ?app_nil_l; try done; try by constructor. }
  destruct (closed s) eqn:Hc; [by apply H|]. apply H; [|done]. apply (inv_same_state s); [|done]. by unfold same_state; rewrite Hc.
Qed.

(** *** What may be seen

    Said without the handlers' own checks: the operation of the event is there, and the
    identity is an administrator or its owner. *)

Definition administrator (identity : option Identity) : Prop := ∃ i, identity = Some i ∧ id_Role i = RoleAdmin.

Definition owned (identity : option Identity) (record : Record_) : Prop :=
  ∃ i, identity = Some i ∧ id_Subject i = r_Owner record.

Definition may_see (identity : option Identity) (s : Store) (e : Event) : Prop :=
  ∃ en, operations s !! e_OperationID e = Some en ∧ (administrator identity ∨ owned identity (en_record en)).

Lemma is_admin_iff identity : is_admin identity = true ↔ administrator identity.
Proof.
  unfold is_admin, administrator. destruct identity as [i|]; [|split; [done|by intros (? & ? & _)]].
  rewrite String.eqb_eq. split; [by exists i|by intros (? & [= <-] & ?)].
Qed.

Lemma mayAccess_iff identity record :
  mayAccessOperation identity record = true ↔ administrator identity ∨ owned identity record.
Proof.
  unfold mayAccessOperation, administrator, owned. destruct identity as [i|]; [|split; [done|naive_solver]].
  rewrite orb_true_iff, !String.eqb_eq. naive_solver.
Qed.

Lemma visible_iff identity s e : operationEventVisible identity s e = true ↔ may_see identity s e.
Proof.
  unfold operationEventVisible, may_see, Get. destruct (operations s !! e_OperationID e) as [en|]; [|naive_solver].
  rewrite mayAccess_iff. naive_solver.
Qed.

(** The states a run goes through. *)
Definition moment (h : string → string) (l : list stream_event) (w w1 : world) : Prop :=
  ∃ l1 l2, l = l1 ++ l2 ∧ stream_run h l1 w = Some w1.

Lemma moment_here h l w : moment h l w w.
Proof. by exists [], l. Qed.

Lemma moment_later h ev l w w1 w2 : stream_step h ev w = Some w1 → moment h l w1 w2 → moment h (ev :: l) w w2.
Proof. intros Hs (l1 & l2 & -> & Hr). exists (ev :: l1), l2. split; [done|]. cbn [stream_run]. by rewrite Hs. Qed.

(** What the stream has let through, written or not yet. *)
Definition passed (st : stream) : list Event :=
  sm_out st ++ match sm_phase st with Judging _ kept => kept | Replaying l => l | _ => [] end.

Section judged.
Context (h : string → string) (identity : option Identity) (P Q : Event → Prop).

(** [P] holds of what may be seen at some moment, [Q] of what may not. *)
Definition judges (w : world) : Prop :=
  ∀ e, (administrator identity ∨ may_see identity (w_store w) e → P e) ∧ (¬ may_see identity (w_store w) e → Q e).

Definition judged (w : world) : Prop :=
  sm_identity (w_stream w) = identity ∧ (∀ e, e ∈ passed (w_stream w) → P e) ∧ (∀ e, e ∈ sm_hidden (w_stream w) → Q e).

Lemma judged_step ev w w' : judges w → judged w → stream_step h ev w = Some w' → judged w'.
Proof.
  intros Hj (Hi & Hp & Hq). unfold judged, passed in *.
  assert (Hkeep : ∀ w1, sm_identity (w_stream w1) = sm_identity (w_stream w) → sm_out (w_stream w1) = sm_out (w_stream w) →
    sm_phase (w_stream w1) = sm_phase (w_stream w) ∨ sm_phase (w_stream w1) = Ended →
    sm_hidden (w_stream w1) = sm_hidden (w_stream w) → Some w1 = Some w' →
    sm_identity (w_stream w') = identity ∧ (∀ e, e ∈ sm_out (w_stream w') ++
      match sm_phase (w_stream w') with Judging _ kept => kept | Replaying l => l | _ => [] end → P e)
    ∧ (∀ e, e ∈ sm_hidden (w_stream w') → Q e)).
  { intros w1 Ei Eo Ep Eh [= <-]. rewrite Ei, Eo, Eh. split_and!; [done| |done]. intros e He. apply Hp.
    destruct Ep as [E|E]; rewrite E in He; [done|]. revert He. rewrite !elem_of_app, elem_of_nil. tauto. }
  destruct ev as [o|i| | | |ok|ok|ok|]; cbn [stream_step].
  - intros Hs. assert (Hs' : Some (mkWorld (commit h o (w_store w)).1 (w_pending w ++ option_list (commit h o (w_store w)).2) (w_stream w)) = Some w').
    { destruct (commit h o (w_store w)). by destruct o. }
    eapply Hkeep; [| | | |exact Hs']; auto.
  - destruct (w_pending w !! i) as [e|]; [|done]. simpl. eapply Hkeep; auto.
  - eapply Hkeep; auto.
  - destruct (sm_phase (w_stream w)) eqn:E; try done. intros [= <-]. stream_simpl. split_and!; [done|exact Hp|done].
  - destruct (sm_phase (w_stream w)) as [|[|e l] kept| | |] eqn:E; try done; intros [= <-]; [by stream_simpl|].
    unfold visible. rewrite Hi. destruct (is_admin identity || operationEventVisible identity (w_store w) e) eqn:Hv; stream_simpl.
    + split_and!; [done| |done]. intros x. rewrite !elem_of_app, elem_of_cons, elem_of_nil. intros [Hx|[Hx|[->|[]]]].
      * apply Hp. rewrite elem_of_app. by left.
      * apply Hp. rewrite elem_of_app. by right.
      * apply Hj. apply orb_true_iff in Hv as [?%is_admin_iff|?%visible_iff]; [by left|by right].
    + split_and!; [done|exact Hp|]. intros x [Hx| ->%list_elem_of_singleton]%elem_of_app; [by apply Hq|].
      apply Hj. intros Hs%visible_iff. rewrite Hs, orb_true_r in Hv. done.
  - destruct (sm_phase (w_stream w)) as [| |[|e l]| |] eqn:E; try done; [intros [= <-]; by stream_simpl|].
    assert (Hl : ∀ x, x ∈ sm_out (w_stream w) ++ l → P x).
    { intros x Hx. apply Hp. revert Hx. rewrite !elem_of_app, elem_of_cons. tauto. }
    destruct (_ <=? _)%Z; [intros [= <-]; by stream_simpl|]. destruct ok; cbn [negb]; intros [= <-].
    + stream_simpl. split_and!; [done| |done]. intros x. rewrite <-app_assoc. exact (Hp x).
    + unfold end_stream. stream_simpl. split_and!; [done| |done]. intros x Hx. apply Hl. revert Hx. rewrite !elem_of_app, elem_of_nil. tauto.
  - destruct (sm_phase (w_stream w)) eqn:E; try done.
    destruct (ch_buffer (sm_channel (w_stream w))) as [|e l].
    { destruct (ch_closed _); [|done]. eapply Hkeep; auto. }
    stream_simpl. destruct (_ <=? _)%Z; [eapply Hkeep; auto|]. rewrite Hi.
    destruct (operationEventVisible identity (w_store w) e) eqn:Hv; cbn [negb].
    + destruct ok; cbn [negb]; [|eapply Hkeep; auto]. intros [= <-]. stream_simpl. rewrite E. split_and!; [done| |done].
      intros x. rewrite !elem_of_app, elem_of_cons, !elem_of_nil. intros [[Hx|[->|[]]]|[]].
      * apply Hp. rewrite elem_of_app. by left.
      * apply Hj. right. by apply visible_iff.
    + intros [= <-]. stream_simpl. rewrite E. split_and!; [done|exact Hp|].
      intros x [Hx| ->%list_elem_of_singleton]%elem_of_app; [by apply Hq|].
      apply Hj. intros Hs%visible_iff. congruence.
  - destruct (sm_phase (w_stream w)) eqn:E; try done. destruct ok; eapply Hkeep; auto.
  - destruct (sm_phase (w_stream w)) eqn:E; try done. eapply Hkeep; auto.
Qed.

Lemma judged_run l w w' :
  (∀ w1, moment h l w w1 → judges w1) → judged w → stream_run h l w = Some w' → judged w'.
Proof.
  revert w. induction l as [|ev l IH]; intros w Hm Hw; cbn [stream_run]; [by intros [= <-]|].
  destruct (stream_step h ev w) as [w1|] eqn:Hs; [|done]. simpl. apply IH.
  - intros w2 Hw2. apply Hm. by eapply moment_later.
  - eapply judged_step; [apply Hm, moment_here|done..].
Qed.

End judged.

Lemma stream_judges h identity after s pending l w :
  stream_run h l (start_stream identity after s pending) = Some w →
  (∀ e, e ∈ sm_out (w_stream w) → administrator identity ∨
    ∃ w1, moment h l (start_stream identity after s pending) w1 ∧ may_see identity (w_store w1) e) ∧
  (∀ e, e ∈ sm_hidden (w_stream w) →
    ∃ w1, moment h l (start_stream identity after s pending) w1 ∧ ¬ may_see identity (w_store w1) e).
Proof.
  intros Hrun. set (w0 := start_stream identity after s pending) in *.
  destruct (judged_run h identity (λ e, administrator identity ∨ ∃ w1, moment h l w0 w1 ∧ may_see identity (w_store w1) e)
    (λ e, ∃ w1, moment h l w0 w1 ∧ ¬ may_see identity (w_store w1) e) l w0 w) as (_ & Hp & Hq); [| |done|].
  - intros w1 Hm e. split; [intros [?|?]; [by left|right; by exists w1]|intros ?; by exists w1].
  - subst w0. unfold start_stream, open_stream. destruct (Subscribe 32 s) as [s' sub]. unfold judged, passed. stream_simpl.
    split_and!; [done|by intros e ?%elem_of_nil..].
  - split; [|exact Hq]. intros e He. apply Hp. unfold passed. rewrite elem_of_app. by left.
Qed.

(** C28. The event stream, while commits, publications and other requests interleave
    with it: what it has written is in strictly increasing order of sequence numbers,
    all after the client's cursor; and once it has read the history, every later event
    of the history has been written, was hidden, or is still on its way.  An event is
    only written to an administrator or when at some moment the identity could see it,
    and only hidden when at some moment it could not.  This needs publications in the
    order of their commits and a reader that keeps up with the buffer of 32 events. *)
Theorem event_stream_misses_nothing h identity after s pending l w
    (Hinv : Operation.inv s) (Hpending : StronglySorted before pending)
    (Hnext : Forall (λ e, e_Sequence e ≤ nextSequence s)%Z pending)
    (Hcalm : calm h l (start_stream identity after s pending))
    (Hrun : stream_run h l (start_stream identity after s pending) = Some w) :
  StronglySorted before (sm_out (w_stream w)) ∧
  Forall (λ e, after < e_Sequence e)%Z (sm_out (w_stream w)) ∧
  (reading (w_stream w) → ∀ e, e ∈ events (w_store w) → (after < e_Sequence e)%Z →
    e ∈ sm_out (w_stream w) ∨ e ∈ sm_hidden (w_stream w) ∨ e ∈ todo (w_stream w) ∨ e ∈ queue w) ∧
  (∀ e, e ∈ sm_out (w_stream w) → administrator identity ∨
    ∃ w1, moment h l (start_stream identity after s pending) w1 ∧ may_see identity (w_store w1) e) ∧
  (∀ e, e ∈ sm_hidden (w_stream w) →
    ∃ w1, moment h l (start_stream identity after s pending) w1 ∧ ¬ may_see identity (w_store w1) e).
Proof.
  pose proof (in_hand_run _ _ _ _ _ (in_hand_start identity after s pending Hinv Hpending Hnext) Hcalm Hrun) as J.
  destruct (stream_judges h identity after s pending l w Hrun) as [Hp Hq]. split_and!; [apply J| | |done|done].
  - eapply Forall_impl; [apply J|]. simpl. lia.
  - intros Hr e He Ha. pose proof (ih_seen _ _ J Hr e He Ha) as [[?|?]|[?|?]]; auto.
Qed.

(** ** Who sees what *)

Lemma visible_events_once identity s l :
  is_admin identity = false →
  visibleOperationEvents identity (λ _, s) l = filter (λ e, operationEventVisible identity s e = true) l.
Proof.
  intros Ha. induction l as [|e l IH]; [done|]. cbn [visibleOperationEvents]. rewrite Ha, filter_cons. cbn [orb].
  rewrite IH. destruct (operationEventVisible identity s e) eqn:Hv; case_decide; naive_solver.
Qed.

(** The events of the identity's own operations. *)
Definition own_event (identity : option Identity) (s : Store) (e : Event) : Prop :=
  ∃ en, operations s !! e_OperationID e = Some en ∧ owned identity (en_record en).

#[local] Instance owned_dec identity record : Decision (owned identity record).
Proof.
  destruct identity as [i|]; [|right; by intros (? & ? & _)].
  destruct (decide (id_Subject i = r_Owner record)) as [E|E]; [left; by exists i|right; by intros (? & [= <-] & ?)].
Defined.

#[local] Instance own_event_dec identity s e : Decision (own_event identity s e).
Proof.
  unfold own_event. destruct (operations s !! e_OperationID e) as [en|]; [|right; naive_solver].
  destruct (decide (owned identity (en_record en))); [left|right]; naive_solver.
Defined.

Lemma access_is_owned identity record : ¬ administrator identity → mayAccessOperation identity record = true ↔ owned identity record.
Proof. rewrite mayAccess_iff. tauto. Qed.

Lemma visible_is_own identity s e : ¬ administrator identity → operationEventVisible identity s e = true ↔ own_event identity s e.
Proof. rewrite visible_iff. unfold may_see, own_event. naive_solver. Qed.

(** Two stores that agree on the identity's own operations: the same identifiers, of
    the same kinds and owned by it or not, with the same records and events where it
    owns them. *)
Record same_view (identity : option Identity) (s s' : Store) : Prop := {
  sv_records : ∀ id, match operations s !! id, operations s' !! id with
    | Some e, Some e' =>
      r_Kind (en_record e) = r_Kind (en_record e')
      ∧ (owned identity (en_record e) ↔ owned identity (en_record e'))
      ∧ (owned identity (en_record e) → en_record e = en_record e')
    | None, None => True
    | _, _ => False
    end;
  sv_events : filter (own_event identity s) (events s) = filter (own_event identity s') (events s');
}.

Lemma find_operation_view verb identity r prefix b m m' :
  ¬ administrator identity → same_view identity (store m) (store m') →
  ∀ {J : JSON}, find_operation verb identity r prefix b m = find_operation verb identity r prefix b m'.
Proof.
  intros Hna [Hr _] J. unfold find_operation. destruct (resourceID _ _) as [id|]; [|done]. specialize (Hr id). unfold Get.
  destruct (operations (store m) !! id) as [e|], (operations (store m') !! id) as [e'|]; try done.
  destruct Hr as (-> & Hiff & Heq). destruct (_ && _); [done|].
  rewrite <-!(access_is_owned identity) in Hiff by done. rewrite <-(access_is_owned identity) in Heq by done.
  destruct (mayAccessOperation identity (en_record e)) eqn:Ha.
  - rewrite (proj1 Hiff eq_refl). simpl. by rewrite Heq.
  - destruct (mayAccessOperation identity (en_record e')); [by discriminate (proj2 Hiff eq_refl)|done].
Qed.

Lemma find_operation_found `{JSON} verb identity r prefix b m record :
  find_operation verb identity r prefix b m = inr record →
  resourceID (cr_Path r) prefix = Some (TrimPrefix (cr_Path r) prefix) ∧
  Get (TrimPrefix (cr_Path r) prefix) (store m) = Ok record ∧ mayAccessOperation identity record = true.
Proof.
  unfold find_operation. destruct (resourceID (cr_Path r) prefix) as [id|] eqn:Hid; [|done].
  assert (id = TrimPrefix (cr_Path r) prefix) as ->.
  { unfold resourceID in Hid. destruct (_ || _); [done|]. by injection Hid. }
  destruct (Get _ (store m)) as [x|] eqn:Hg; [|done]. destruct (_ && _); [done|].
  destruct (mayAccessOperation identity x) eqn:Ha; [|done]. by intros [= <-].
Qed.

Lemma commit_record_other fault id type now item record s k :
  k ≠ id → operations (fst (commit_record fault id type now item record s)) !! k = operations s !! k.
Proof.
  intros Hk. pose proof (commit_record_spec fault id type now item record s) as Hc.
  destruct (commit_record _ _ _ _ _ _ s) as [s' [r|e]]; simpl.
  - destruct Hc as (event & [A _] & _). by rewrite (cm_operations _ _ _ _ _ A), lookup_insert_ne.
  - destruct Hc as (_ & (_ & -> & _) & _). done.
Qed.

Lemma manager_Cancel_other now fault id m k :
  k ≠ id → operations (store (fst (manager_Cancel now fault id m))) !! k = operations (store m) !! k.
Proof.
  intros Hk. unfold manager_Cancel, Cancel_record, Operation.Cancel, Transition, with_store.
  destruct (Get id (store m)) as [item|]; [|done]. destruct (negb (r_Cancelable item)); [done|].
  destruct (closed (store m)); [done|]. destruct (operations (store m) !! id) as [e|]; [|done].
  destruct (negb _); [done|].
  match goal with |- context [commit_record ?a ?b ?c ?d ?e ?f ?s] =>
    pose proof (commit_record_other a b c d e f s k Hk) as Ho; destruct (commit_record a b c d e f s) as [s' [r|err]] end;
    simpl in *; [|done]. unfold Cancel_runner. case_match; done.
Qed.

(** C29. What an operator or viewer can read of the operations of others: nothing but
    that an identifier exists and its kind.  In two stores that agree on the identity's
    own operations, those whose owner is its subject, a record and the page of events
    are answered alike; and a request to cancel leaves every record alone but the one
    it names, and that one too unless the identity owns it. *)
Theorem operations_are_private `{JSON} time_text identity now fault (r : operation_request) prefix b m m' m0
    (Hrole : ¬ administrator identity) (Hview : same_view identity (store m) (store m')) :
  getOperation time_text identity (or_request r) prefix b m = getOperation time_text identity (or_request r) prefix b m' ∧
  event_page time_text identity r (store m) (λ _, store m) = event_page time_text identity r (store m') (λ _, store m') ∧
  let id := TrimPrefix (cr_Path (or_request r)) prefix in
  let m1 := fst (cancelOperation time_text now fault identity (or_request r) prefix b m0 m) in
  (∀ k, k ≠ id → operations (store m1) !! k = operations (store m) !! k) ∧
  (m1 ≠ m → ∃ record, Get id (store m0) = Ok record ∧ owned identity record).
Proof.
  cbv zeta. split_and!.
  - unfold getOperation. by rewrite (find_operation_view "access" identity _ prefix b m m' Hrole Hview).
  - unfold event_page. destruct (operationEventCursor r) as [after|]; [|done].
    assert (Hadm : is_admin identity = false).
    { destruct (is_admin identity) eqn:E; [|done]. by apply is_admin_iff in E. }
    rewrite !visible_events_once by done. unfold Events.
    assert (∀ s, filter (λ e, operationEventVisible identity s e = true) (filter (λ e, (after < e_Sequence e)%Z) (events s))
      = filter (λ e, (after < e_Sequence e)%Z) (filter (own_event identity s) (events s))) as Hcomm.
    { intros s. rewrite !list_filter_filter. apply list_filter_iff. intros e. rewrite visible_is_own by done. tauto. }
    by rewrite !Hcomm, (sv_events _ _ _ Hview).
  - intros k Hk. unfold cancelOperation. destruct (find_operation _ _ _ _ _ m0); [done|].
    pose proof (manager_Cancel_other now fault _ m k Hk) as Ho. by destruct (manager_Cancel _ _ _ m).
  - unfold cancelOperation. destruct (find_operation "cancel" _ _ _ _ m0) as [script|record] eqn:Hf; [done|].
    intros _. apply find_operation_found in Hf as (_ & Hg & Ha).
    exists record. split; [done|]. by apply access_is_owned.
Qed.

(** ** Sessions that do not start *)

Lemma Create_new h t fault newID q s s' record :
  Create h t fault newID q s = (s', Ok (record, true)) →
  closed s = false ∧ validateCreate q (now_validate t) = Ok tt ∧ options s' = options s ∧ closed s' = false
  ∧ operations s' !! newID = Some (mkEntry record (hashIdempotency h (q_Owner q) (q_IdempotencyKey q)) (q_RequestDigest q))
  ∧ r_State record = StatePending.
Proof.
  unfold Create. destruct (validateCreate q (now_validate t)) as [[]|]; [|done].
  destruct (closed s) eqn:Hc; [done|]. destruct (pruneLocked _ s) as [s1 changed] eqn:Hp.
  apply pruneLocked_spec in Hp as [Ho _ _ Hc1 _ _ _ _].
  destruct (if String.eqb _ "" then None else _) as [existing|].
  - destruct (negb _); [done|]. destruct changed; [|by intros [=]].
    destruct (persistLocked fault s1) as [s2 []]; by intros [=].
  - destruct (_ <=? _); [done|]. unfold persistLocked, persistSnapshot, publish, set_entry, appendEventLocked, with_state, with_disk.
    destruct fault as [[]|]; cbn; intros [=]; subst; cbn. split_and!; try done; [congruence|]. by rewrite lookup_insert_eq.
Qed.

Definition with_expiry (t : Time) (q : CreateRequest) : CreateRequest :=
  mkCreate (q_Kind q) (q_Target q) (q_Owner q) (q_Cancelable q) t (q_RecoveryPolicy q) (q_Metadata q)
    (q_IdempotencyKey q) (q_RequestDigest q).

(** The same request later asks for the same, with a later expiry. *)
Lemma session_request_later `{JSON} h m m' now now' identity r q :
  options (store m') = options (store m) → session_request_of h m now identity r = inr q →
  session_request_of h m' now' identity r = inr (with_expiry (q_ExpiresAt q - now + now')%Z q).
Proof.
  intros Ho. unfold session_request_of. destruct (decodeStrictJSON _ _ _) as [input|]; [|done].
  destruct (negb _); [done|]. destruct (String.eqb (TrimSpace _) ""); [done|].
  unfold operationExpiry. rewrite Ho. destruct (_ =? 0)%Z; [|destruct (_ || _); [done|]];
    intros [= <-]; do 2 f_equal; unfold with_expiry; cbn; f_equal; lia.
Qed.

Lemma validate_later q t t' expiry :
  validateCreate q t = Ok tt → After expiry t' = true → validateCreate (with_expiry expiry q) t' = Ok tt.
Proof.
  unfold validateCreate, with_expiry. cbn. intros Hv Ha. rewrite Ha.
  destruct (negb (safe_ident _)); [done|]. destruct (_ || _); [done|]. destruct (512 <? _)%Z; [done|].
  destruct (negb (After (q_ExpiresAt q) t)); [done|]. cbn [negb]. done.
Qed.

(** The store behind a created operation, once the start has failed. *)
Lemma created_entry h t fault newID q s s1 s2 record now :
  Create h t fault newID q s = (s1, Ok (record, true)) → Operation.inv s → (nextSequence s + 1 < 2 ^ 64)%Z →
  operations s !! newID = None → same_state s1 s2 →
  Operation.inv s2 ∧ closed s2 = false ∧ options s2 = options s ∧
  operations (fst (pruneLocked now s2)) !! newID
  = Some (mkEntry record (hashIdempotency h (q_Owner q) (q_IdempotencyKey q)) (q_RequestDigest q)).
Proof.
  intros Hc Hi Hb Hfresh Hss. pose proof (Create_effect h t fault newID q s Hfresh) as He. rewrite Hc in He.
  destruct (Create_new _ _ _ _ _ _ _ _ Hc) as (_ & _ & Ho & Hcl & Hentry & Hst).
  pose proof Hss as (So & Sm & _ & _ & Sc). split_and!; [|congruence|congruence|].
  - eapply inv_same_state; [exact Hss|]. eapply Operation.inv_effect; [exact Hi|done|apply He].
  - destruct (pruneLocked now s2) as [s3 changed] eqn:Hp. apply pruneLocked_spec in Hp.
    apply (pr_live _ _ _ Hp); [by rewrite Sm|]. unfold terminal_entry. simpl. by rewrite Hst.
Qed.

(** A session whose worker cannot be started stays behind, pending, under its
    idempotency key.  The client is told that it may try again, but the same request
    gets the pending record with 200 and never starts a worker, whatever the starter
    would do now. *)
Theorem unstarted_session_is_never_started `{JSON} time_text h c c' start start' identity r m m1 m2 q record
    (Hrequest : session_request_of h m (cn_now c) identity r = inr q)
    (Hcreate : manager_Create h c q m = (m1, Ok (record, true)))
    (Hstart : start record m1 = (m2, false)) (Hkept : same_state (store m1) (store m2))
    (Hinv : Operation.inv (store m)) (Hfresh : operations (store m) !! cn_newID c = None)
    (Hseq : (nextSequence (store m) + 1 < 2 ^ 64)%Z) (Hfault : cn_fault c' = None)
    (Hhash : hashIdempotency h (q_Owner q) (q_IdempotencyKey q) ≠ "")
    (Hlater : After (q_ExpiresAt q - cn_now c + cn_now c')%Z (now_validate (cn_times c')) = true) :
  createAuthSession time_text h c (Some start) identity r (Some m)
  = (Some m2, writeError (or_request r) StatusServiceUnavailable "auth_session_start_failed"
                "The authentication session could not be started." true []) ∧
  ∃ m3, createAuthSession time_text h c' (Some start') identity r (Some m2)
        = (Some m3, writeJSON StatusOK (record_json time_text record)) ∧
    operations (store m3) ⊆ operations (store m2) ∧ runners m3 = runners m2.
Proof.
  unfold manager_Create in Hcreate.
  destruct (Create h (cn_times c) (cn_fault c) (cn_newID c) q (store m)) as [s1 out] eqn:Hc.
  injection Hcreate as <- ->. cbn [store with_store] in Hkept.
  destruct (Create_new _ _ _ _ _ _ _ _ Hc) as (_ & Hvalid & _).
  destruct (created_entry _ _ _ _ _ _ _ _ _ (now_create_prune (cn_times c')) Hc Hinv Hseq Hfresh Hkept) as (Hi2 & Hcl2 & Ho2 & Hentry).
  split.
  - unfold createAuthSession, manager_Create. by rewrite Hrequest, Hc, Hstart.
  - unfold createAuthSession, manager_Create.
    rewrite (session_request_later h m m2 _ _ _ _ _ Ho2 Hrequest), Hfault.
    set (q' := with_expiry _ q).
    pose proof (create_is_idempotent h (cn_times c') (cn_newID c') q' (store m2) (cn_newID c)
      (mkEntry record (hashIdempotency h (q_Owner q) (q_IdempotencyKey q)) (q_RequestDigest q)) Hi2 Hcl2
      (validate_later _ _ _ _ Hvalid Hlater) eq_refl Hhash Hentry) as Hidem.
    destruct (Create h (cn_times c') None (cn_newID c') q' (store m2)) as [s3 out3].
    cbn [en_requestDigest q' q_RequestDigest with_expiry] in Hidem. rewrite String.eqb_refl in Hidem.
    destruct Hidem as (-> & Hsub & _). by eexists.
Qed.

Module ExampleOperations.

#[local] Instance bodies : JSON := {
  json_unmarshal s :=
    if String.eqb s "{session}" then Some (JObj [("provider_id", JStr "kilo"); ("method", JStr "anonymous")])
    else if String.eqb s "{operation}" then Some (JObj [("kind", JStr "model_refresh"); ("recovery_policy", JStr "retry")])
    else None;
  json_marshal j := Some "{}";
  json_string_field _ _ := None;
  json_int_fields _ _ := None;
}.

Definition owner : option Identity := Some (mkIdentity "owner" RoleOperator "").

Definition post (path body : string) : operation_request :=
  mkOperationRequest (mkControlRequest "POST" path "" "" "request-1" "" None "req_1" (Some body)) "key-1" "" "".

Definition hash (s : string) : string := "h" +:+ s.

Definition progress (n : Z) : stream_event := EvCommit (OpProgress 300 None "op_1" n None).

(** A commit while the history is being read: its event is written once. *)
Definition busy : list stream_event :=
  [progress 20; EvEvents; progress 30; EvJudge; EvPublish 0; EvJudge; EvJudge; EvJudge; EvPublish 0;
   EvWrite true; EvWrite true; EvWrite true; EvWrite true; EvReceive true; EvReceive true].

Definition watching : world := start_stream owner 0 example_after [].

Definition sequences (w : option world) : option (list Z) := (λ w, e_Sequence <$> sm_out (w_stream w)) <$> w.

Example busy_stream : sequences (stream_run id busy watching) = Some [1; 2; 3; 4]%Z.
Proof. vm_compute. reflexivity. Qed.

#[local] Instance Event_eq_dec : EqDecision Event.
Proof. solve_decision. Defined.

Lemma calm_busy : calm id busy watching.
Proof.
  split; [split; [exact I|vm_compute; reflexivity]|].
  split; [refine (proj1 (Forall_forall _ _) _); apply (bool_decide_unpack _); vm_compute; exact I|].
  split; [split; [exact I|vm_compute; reflexivity]|].
  vm_compute. repeat split; lia.
Qed.

Lemma event_stream_misses_nothing_witness :
  ∃ w, stream_run id busy watching = Some w ∧ StronglySorted before (sm_out (w_stream w)).
Proof.
  destruct (stream_run id busy watching) as [w|] eqn:E; [|vm_compute in E; discriminate].
  exists w. split; [reflexivity|].
  exact (proj1 (event_stream_misses_nothing id owner 0 example_after [] busy w inv_example_after
    (SSorted_nil _) (List.Forall_nil _) calm_busy E)).
Defined.

(** When a publication overtakes an earlier one, the stream passes over the later. *)
Definition overtaken : list stream_event :=
  [EvEvents; EvJudge; EvJudge; EvJudge; EvWrite true; EvWrite true; EvWrite true;
   progress 20; progress 30; EvPublish 1; EvPublish 0; EvReceive true; EvReceive true].

Example overtaken_event_is_lost :
  sequences (stream_run id overtaken watching) = Some [1; 2; 4]%Z
  ∧ (λ w, e_Sequence <$> events (w_store w)) <$> stream_run id overtaken watching = Some [1; 2; 3; 4]%Z
  ∧ (λ w, length (queue w)) <$> stream_run id overtaken watching = Some 0.
Proof. vm_compute. repeat split. Qed.

(** Two operations of two owners; the other's has moved on in the second store. *)
Definition record (id who : string) (n : Z) : entry :=
  mkEntry (mkRecord id "model_refresh" "" who StateRunning n true RecoveryFail 1 1 9000 1 None ∅ ∅) "" "".
Definition two (n : Z) (l : list Event) : Store :=
  mkStore example_options (<["op_1" := record "op_1" "owner" 5]> (<["op_2" := record "op_2" "other" n]> ∅)) l 9 ∅ 0 false None.
Definition others_events : list Event := [mkEvent 1 "op_2" "progress" StateRunning 5].

Lemma two_look_alike : same_view owner (two 1 []) (two 50 others_events).
Proof.
  split; [|vm_compute; reflexivity]. intros id. simpl. rewrite !lookup_insert.
  destruct (decide ("op_1" = id)); [by repeat split|]. destruct (decide ("op_2" = id)); [|by rewrite lookup_empty].
  split; [reflexivity|]. split; [by split|]. intros (i & [= <-] & Hi). discriminate Hi.
Qed.

Definition managed (s : Store) : Manager := mkManager s ∅ false 0 ∅.
Definition own : operation_request := post "/control/v1/operations/op_1" "".

Lemma no_administrator : ¬ administrator owner.
Proof. intros (i & [= <-] & Hi). discriminate Hi. Qed.

Lemma operations_are_private_witness :
  event_page (λ _, "") owner own (two 1 []) (λ _, two 1 [])
  = event_page (λ _, "") owner own (two 50 others_events) (λ _, two 50 others_events).
Proof.
  exact (proj1 (proj2 (operations_are_private (λ _, "") owner 300 None own "/control/v1/operations/" false
    (managed (two 1 [])) (managed (two 50 others_events)) (managed (two 1 [])) no_administrator two_look_alike))).
Defined.

Example own_operation_is_cancelled :
  let out := cancelOperation (λ _, "") 300 None owner (or_request own) "/control/v1/operations/" false
    (managed (two 1 [])) (managed (two 1 [])) in
  recorded_status out.2 = 200%Z ∧ (r_State ∘ en_record <$> operations (store out.1) !! "op_1") = Some StateCancelled.
Proof. vm_compute. split; reflexivity. Qed.

(** ** A start that fails *)

Definition create_at (t : Time) (id : string) : creation := mkCreation t (example_times t) None id.
Definition session : operation_request := post "/control/v1/auth-sessions" "{session}".
Definition empty : Manager := managed example_store.
Definition refuse (r : Record_) (m : Manager) : Manager * bool := (m, false).
Definition accept (r : Record_) (m : Manager) : Manager * bool := (managed example_store, true).

Lemma unstarted_session_is_never_started_witness :
  ∃ m2 m3 script, createAuthSession (λ _, "") hash (create_at 100 "op_1") (Some refuse) owner session (Some empty) = (Some m2, script)
    ∧ recorded_status script = 503%Z
    ∧ (createAuthSession (λ _, "") hash (create_at 200 "op_2") (Some accept) owner session (Some m2)).1 = Some m3
    ∧ runners m3 = runners m2.
Proof.
  destruct (session_request_of hash empty 100 owner session) as [script|q] eqn:Hq; [vm_compute in Hq; discriminate|].
  destruct (manager_Create hash (create_at 100 "op_1") q empty) as [m1 [[record []]|e]] eqn:Hc;
    [|vm_compute in Hq; injection Hq as <-; vm_compute in Hc; discriminate..].
  assert (q_ExpiresAt q = 1000%Z ∧ hashIdempotency hash (q_Owner q) (q_IdempotencyKey q) ≠ "") as [He Hh].
  { clear Hc. vm_compute in Hq. injection Hq as <-. split; [reflexivity|vm_compute; discriminate]. }
  destruct (unstarted_session_is_never_started (λ _, "") hash (create_at 100 "op_1") (create_at 200 "op_2") refuse accept
    owner session empty m1 m1 q record Hq Hc eq_refl (reflexivity _) inv_example_store eq_refl eq_refl eq_refl Hh) as [H1 (m3 & H2 & _ & H3)].
  { rewrite He. vm_compute. reflexivity. }
  eexists _, m3, _. split; [exact H1|]. split; [vm_compute; reflexivity|]. rewrite H2. split; [reflexivity|exact H3].
Defined.

(** A policy the store does not know is answered as a failed write. *)
Example bad_policy_is_unavailable :
  recorded_status (createOperation (λ _, "") hash (create_at 100 "op_1") owner
    (post "/control/v1/operations" "{operation}") (Some empty)).2 = 503%Z.
Proof. vm_compute. reflexivity. Qed.

End ExampleOperations.
