(* ===== verification/Security.v ===== *)
(** * The doors of the daemon

    [security.go]: the address the data plane listens on and the check in front of
    its handlers; [internal/control/transport.go] and [internal/control/server.go]:
    the listeners of the control plane, what they may be configured to and how they
    are opened and closed; [server.go]: the health resources without a manager.

    Sockets and files are their outcomes: each step that the operating system can
    refuse takes whether it did.  Addresses are read by [net.ParseIP] and
    [net.SplitHostPort] as Go reads them. *)

From S2P Require Import Prelude GoStd Provider Writers Failover GoJson.

#[local] Set Default Proof Using "Type".

(** ** Addresses *)

Fixpoint trim_left_set (cs : list ascii) (s : string) : string :=
  match s with
  | String c s' => if existsb (Ascii.eqb c) cs then trim_left_set cs s' else s
  | "" => ""
  end.

(** [strings.Trim] of a set of ASCII characters. *)
Definition Trim (cs : list ascii) (s : string) : string := str_rev (trim_left_set cs (str_rev (trim_left_set cs s))).

Definition brackets : list ascii := ["["; "]"]%char.

Definition octet (s : string) : option Z :=
  if negb (1 <=? String.length s)%nat || (3 <? String.length s)%nat then None
  else if (1 <? String.length s)%nat && HasPrefix s "0" then None
  else digits 0 s ≫= λ n, if (n <=? 255)%Z then Some n else None.

Definition parseIPv4 (s : string) : option (list Z) :=
  mapM octet (Split s ".") ≫= λ l, if (length l =? 4)%nat then Some l else None.

Definition hex_digit (c : ascii) : option Z :=
  if is_digit c then Some (Z.of_nat (nat_of_ascii c) - 48)%Z
  else if in_range 97 102 c then Some (Z.of_nat (nat_of_ascii c) - 87)%Z
  else if in_range 65 70 c then Some (Z.of_nat (nat_of_ascii c) - 55)%Z
  else None.

Fixpoint hex_digits (acc : Z) (s : string) : option Z :=
  match s with
  | "" => Some acc
  | String c s' => hex_digit c ≫= λ d, hex_digits (16 * acc + d) s'
  end.

(** One field of sixteen bits, as its two bytes. *)
Definition hextet (s : string) : option (list Z) :=
  if String.eqb s "" || (4 <? String.length s)%nat then None
  else (λ n, [n / 256; n mod 256]%Z) <$> hex_digits 0 s.

(** The fields between colons; the last may be an IPv4 address. *)
Definition hextets (s : string) : option (list Z) :=
  if String.eqb s "" then Some []
  else
    let fields := Split s ":" in
    let final := default "" (last fields) in
    mjoin <$> (if Contains final "." then
                  mapM hextet (take (length fields - 1) fields) ≫= λ l, parseIPv4 final ≫= λ v4, Some (l ++ [v4])
                else mapM hextet fields).

(** The text before the first [sep], and the text after it. *)
Fixpoint cut (sep s : string) : option (string * string) :=
  match strip_prefix sep s with
  | Some rest => Some ("", rest)
  | None => match s with
            | String c s' => (λ '(a, b), (String c a, b)) <$> cut sep s'
            | "" => None
            end
  end.

(** [::] stands for at least one field of zeros; an IPv4 address ends the text. *)
Definition parseIPv6 (s : string) : option (list Z) :=
  match cut "::" s with
  | None => hextets s ≫= λ l, if (length l =? 16)%nat then Some l else None
  | Some (head, rest) =>
    if Contains head "." then None
    else hextets head ≫= λ l, hextets rest ≫= λ r,
      if (length l + length r <? 16)%nat then Some (l ++ replicate (16 - length l - length r) 0%Z ++ r) else None
  end.

Definition mapped_prefix : list Z := (replicate 10 0 ++ [255; 255])%Z.

(** [net.ParseIP]: sixteen bytes.  A zone is refused. *)
Fixpoint ParseIP_at (whole s : string) : option (list Z) :=
  match s with
  | "" => None
  | String c s' =>
    if Ascii.eqb c "." then app mapped_prefix <$> parseIPv4 whole
    else if Ascii.eqb c ":" then (if Contains whole "%" then None else parseIPv6 whole)
    else if Ascii.eqb c "%" then None
    else ParseIP_at whole s'
  end.
Definition ParseIP (s : string) : option (list Z) := ParseIP_at s s.

(** [IP.IsLoopback]: 127.0.0.0/8, also when mapped, and ::1. *)
Definition IsLoopback (ip : list Z) : bool :=
  if bool_decide (take 12 ip = mapped_prefix) then bool_decide (ip !! 12 = Some 127%Z)
  else bool_decide (ip = (replicate 15 0 ++ [1])%Z).

Example addresses :
  IsLoopback <$> ParseIP "127.3.2.1" = Some true ∧ IsLoopback <$> ParseIP "::1" = Some true
  ∧ IsLoopback <$> ParseIP "::ffff:127.0.0.1" = Some true ∧ IsLoopback <$> ParseIP "0.0.0.0" = Some false
  ∧ IsLoopback <$> ParseIP "::" = Some false ∧ IsLoopback <$> ParseIP "fe80::1:2" = Some false
  ∧ ParseIP "127.1" = None ∧ ParseIP "127.0.0.01" = None ∧ ParseIP "localhost" = None
  ∧ ParseIP "1:2:3:4:5:6:7::8" = None ∧ ParseIP "::1%lo" = None ∧ ParseIP ":::1" = None.
Proof. vm_compute. repeat split. Qed.

(** [net.JoinHostPort]. *)
Definition JoinHostPort (host port : string) : string :=
  if Contains host ":" || Contains host "%" then "[" +:+ host +:+ "]:" +:+ port else host +:+ ":" +:+ port.

(** The text before and after the last [c]. *)
Fixpoint cut_last (c : ascii) (s : string) : option (string * string) :=
  match s with
  | "" => None
  | String d s' =>
    match cut_last c s' with
    | Some (a, b) => Some (String d a, b)
    | None => if Ascii.eqb c d then Some ("", s') else None
    end
  end.

(** [net.SplitHostPort]: a bracketed host, or one without colons and brackets. *)
Definition SplitHostPort (s : string) : option (string * string) :=
  match s with
  | String "[" s' =>
    match cut "]" s' with
    | Some (host, String ":" port) =>
      if Contains port ":" || Contains host "[" || Contains port "[" || Contains port "]" then None else Some (host, port)
    | _ => None
    end
  | _ =>
    match cut_last ":" s with
    | Some (host, port) =>
      if Contains host ":" || Contains s "[" || Contains s "]" then None else Some (host, port)
    | None => None
    end
  end.

Example host_ports :
  SplitHostPort "[::1]:8443" = Some ("::1", "8443") ∧ SplitHostPort "host:1" = Some ("host", "1")
  ∧ SplitHostPort ":80" = Some ("", "80") ∧ SplitHostPort "::1:80" = None ∧ SplitHostPort "[::1]" = None
  ∧ SplitHostPort "host" = None ∧ JoinHostPort "::1" "80" = "[::1]:80".
Proof. vm_compute. repeat split. Qed.

(** ** The data plane *)

(** The environment variables of [security.go], as they are set. *)
Record inbound_env := mkInbound { ie_ListenAddress : string; ie_APIKey : string; ie_CORSOrigins : string }.

Definition is_loopback_name (host : string) : bool :=
  match ParseIP host with
  | Some ip => IsLoopback ip
  | None => EqualFold host "localhost"
  end.

(* src/src/security.go configuredListenAddress *)
Definition configuredListenAddress (env : inbound_env) (port : string) : option string :=
  let host := TrimSpace (ie_ListenAddress env) in
  let host := if String.eqb host "" then "127.0.0.1" else host in
  let hostForCheck := Trim brackets host in
  if negb (is_loopback_name hostForCheck) && String.eqb (TrimSpace (ie_APIKey env)) "" then None
  else Some (JoinHostPort hostForCheck port).

(** What the check reads of a request. *)
Record inbound_request := mkInboundRequest {
  in_Method : string; in_Path : string; in_Origin : string; in_XAPIKey : string; in_Authorization : string;
}.

(** The credential of a request, trimmed; [""] when there is none. *)
(* src/src/security.go:73-79 validInboundCredential *)
Definition supplied_credential (r : inbound_request) : string :=
  let supplied := TrimSpace (in_XAPIKey r) in
  if negb (String.eqb supplied "") then supplied
  else
    let authorization := TrimSpace (in_Authorization r) in
    if (String.length "Bearer " <? String.length authorization)%nat
       && EqualFold (str_take 7 authorization) "Bearer "
    then TrimSpace (str_drop 7 authorization) else "".

(* src/src/security.go validInboundCredential *)
Definition validInboundCredential (r : inbound_request) (expected : string) : bool :=
  let supplied := supplied_credential r in
  if negb (String.length supplied =? String.length expected)%nat then false
  else String.eqb supplied expected.

(** The origins of the variable: its non-empty parts. *)
(* src/src/security.go:41-46 secureHandler *)
Definition allowedOrigins (env : inbound_env) : list string :=
  List.filter (λ s, negb (String.eqb s "")) (TrimSpace <$> Split (ie_CORSOrigins env) ",").

Inductive verdict := Serve | NoContent | DenyOpenAI (e : perr) | DenyAnthropic (e : perr).

Definition unauthorized : perr :=
  newProviderError ProviderErrorAuthRequired StatusUnauthorized "invalid or missing proxy credential".

(** The headers it sets, and what becomes of the request. *)
(* src/src/security.go secureHandler *)
Definition secureHandler (env : inbound_env) (r : inbound_request) : list action * verdict :=
  let apiKey := TrimSpace (ie_APIKey env) in
  let cors :=
    if negb (String.eqb (in_Origin r) "") && bool_decide (in_Origin r ∈ allowedOrigins env)
    then [ASetHeader "Access-Control-Allow-Origin" (in_Origin r); ASetHeader "Vary" "Origin";
          ASetHeader "Access-Control-Allow-Headers" "Authorization, Content-Type, X-API-Key";
          ASetHeader "Access-Control-Allow-Methods" "GET, POST, OPTIONS"]
    else [] in
  (cors,
   if String.eqb (in_Method r) "OPTIONS" then NoContent
   else if HasPrefix (in_Path r) "/health" then Serve
   else if negb (String.eqb apiKey "") && negb (validInboundCredential r apiKey)
   then (if HasPrefix (in_Path r) "/v1/messages" then DenyAnthropic unauthorized else DenyOpenAI unauthorized)
   else Serve).

Lemma validInboundCredential_spec r expected :
  validInboundCredential r expected = true ↔ supplied_credential r = expected.
Proof.
  unfold validInboundCredential. cbv zeta.
  destruct (Nat.eqb_spec (String.length (supplied_credential r)) (String.length expected)) as [_|Hl]; simpl.
  - apply String.eqb_eq.
  - split; [done|]. intros E. destruct Hl. by rewrite E.
Qed.

(** C31. The data plane serves a request exactly when it is not a preflight and it is
    for a path under [/health], or there is no key, or it carries the key; and when the
    daemon accepts to listen on an address that is not a loopback one, there is a key,
    so that outside [/health] only requests that carry it are served. *)
Theorem exposed_daemon_serves_the_key env port address r
    (Hlisten : configuredListenAddress env port = Some address) :
  ((secureHandler env r).2 = Serve ↔
     in_Method r ≠ "OPTIONS" ∧
     (HasPrefix (in_Path r) "/health" = true ∨ TrimSpace (ie_APIKey env) = ""
      ∨ supplied_credential r = TrimSpace (ie_APIKey env))) ∧
  (is_loopback_name (Trim brackets (TrimSpace (ie_ListenAddress env))) = false →
   TrimSpace (ie_ListenAddress env) ≠ "" →
   (secureHandler env r).2 = Serve → HasPrefix (in_Path r) "/health" = false →
   supplied_credential r = TrimSpace (ie_APIKey env) ∧ supplied_credential r ≠ "").
Proof.
  assert ((secureHandler env r).2 = Serve ↔
     in_Method r ≠ "OPTIONS" ∧
     (HasPrefix (in_Path r) "/health" = true ∨ TrimSpace (ie_APIKey env) = ""
      ∨ supplied_credential r = TrimSpace (ie_APIKey env))) as Hserve.
  { unfold secureHandler. cbn [snd]. pose proof (validInboundCredential_spec r (TrimSpace (ie_APIKey env))) as Hv.
    destruct (String.eqb_spec (in_Method r) "OPTIONS"); [naive_solver|].
    destruct (HasPrefix (in_Path r) "/health"); [naive_solver|].
    destruct (String.eqb_spec (TrimSpace (ie_APIKey env)) ""); [naive_solver|].
    destruct (validInboundCredential r _); simpl; [naive_solver|].
    split; [by destruct (HasPrefix _ _)|]. intros [_ [?|[?|E]]]; [done..|]. by apply Hv in E. }
  split; [done|]. intros Hloop Hset Hs Hpath.
  unfold configuredListenAddress in Hlisten. apply String.eqb_neq in Hset. rewrite Hset, Hloop in Hlisten.
  destruct (String.eqb_spec (TrimSpace (ie_APIKey env)) "") as [|Hkey]; [done|].
  apply Hserve in Hs as [_ [?|[?|E]]]; [congruence..|]. split; congruence.
Qed.

(** ** The control plane's listeners *)

(* src/internal/control/transport.go ListenerConfig *)
Record ListenerConfig := mkListener {
  lc_UnixSocket : string; lc_UnixMode : Z; lc_UnixGroup : string; lc_RemoteAddress : string;
  lc_TLSCertFile : string; lc_TLSKeyFile : string; lc_ClientCAFile : string;
  lc_RemoteIdentityConfigured : bool; lc_RequireMTLS : bool;
}.

Inductive listener_error :=
| NoListener | InvalidRemoteAddress | PortRequired | InvalidPort | TLSRequired | IdentityRequired | MTLSRequired
| LocalHandlerRequired | RemoteHandlerRequired | AlreadyStarted | SocketRefused (step : nat) | TLSFailed | ListenFailed.

(* src/internal/control/transport.go isLoopbackHost *)
Definition isLoopbackHost (host : string) : bool :=
  let host := Trim brackets (TrimSpace host) in
  if EqualFold host "localhost" then true
  else match ParseIP host with Some ip => IsLoopback ip | None => false end.

(* src/internal/control/transport.go ListenerConfig.Validate *)
Definition Validate (c : ListenerConfig) : result unit listener_error :=
  if String.eqb (TrimSpace (lc_UnixSocket c)) "" && String.eqb (TrimSpace (lc_RemoteAddress c)) "" then Err NoListener
  else if String.eqb (lc_RemoteAddress c) "" then Ok tt
  else match SplitHostPort (lc_RemoteAddress c) with
  | None => Err InvalidRemoteAddress
  | Some (host, port) =>
    if String.eqb port "" then Err PortRequired
    else if bool_decide (Atoi port = None) then Err InvalidPort
    else if String.eqb (TrimSpace (lc_TLSCertFile c)) "" || String.eqb (TrimSpace (lc_TLSKeyFile c)) "" then Err TLSRequired
    else if negb (lc_RemoteIdentityConfigured c) then Err IdentityRequired
    else if negb (isLoopbackHost host) && (negb (lc_RequireMTLS c) || String.eqb (TrimSpace (lc_ClientCAFile c)) "")
    then Err MTLSRequired
    else Ok tt
  end.

Inductive client_auth := NoClientCert | VerifyIfGiven | RequireAndVerify.

(** How the remote listener treats client certificates, when its files can be read. *)
(* src/internal/control/transport.go ListenerConfig.tlsConfig *)
Definition tlsConfig (keyPair ca : bool) (c : ListenerConfig) : option client_auth :=
  if negb keyPair then None
  else if String.eqb (lc_ClientCAFile c) "" then Some NoClientCert
  else if negb ca then None
  else Some (if lc_RequireMTLS c then RequireAndVerify else VerifyIfGiven).

(** What is at the path of the control socket. *)
Inductive socket_file := NoFile | OtherFile | LiveSocket | StaleSocket | OwnSocket.

(** What the operating system lets the start do. *)
Record start_env := mkStartEnv {
  st_mkdir : bool; st_lstat : bool; st_remove : bool; st_listen_unix : bool; st_chmod : bool; st_chown : bool;
  st_keyPair : bool; st_ca : bool; st_listen_tcp : bool;
}.

(* src/internal/control/server.go Service *)
Record Service := mkService {
  sv_config : ListenerConfig; sv_started : bool; sv_unix : bool; sv_remote : option client_auth; sv_file : socket_file;
}.

(* src/internal/control/server.go NewService *)
Definition NewService (c : ListenerConfig) (localHandler remoteHandler : bool) (file : socket_file) : result Service listener_error :=
  let? _ := Validate c in
  let c := mkListener (lc_UnixSocket c) (if (lc_UnixMode c =? 0)%Z then 384%Z else lc_UnixMode c) (lc_UnixGroup c)
    (lc_RemoteAddress c) (lc_TLSCertFile c) (lc_TLSKeyFile c) (lc_ClientCAFile c) (lc_RemoteIdentityConfigured c) (lc_RequireMTLS c) in
  if negb (String.eqb (lc_UnixSocket c) "") && negb localHandler then Err LocalHandlerRequired
  else if negb (String.eqb (lc_RemoteAddress c) "") && negb remoteHandler then Err RemoteHandlerRequired
  else Ok (mkService c false false None file).

(** A socket nobody answers on is removed; anything else at the path is left. *)
(* src/internal/control/transport.go prepareUnixSocket *)
Definition prepareUnixSocket (e : start_env) (file : socket_file) : result socket_file listener_error :=
  if negb (st_mkdir e) then Err (SocketRefused 0)
  else match file with
  | NoFile => Ok NoFile
  | _ =>
    if negb (st_lstat e) then Err (SocketRefused 1)
    else match file with
    | OtherFile => Err (SocketRefused 2)
    | LiveSocket => Err (SocketRefused 3)
    | _ => if st_remove e then Ok NoFile else Err (SocketRefused 4)
    end
  end.

Definition with_unix (b : bool) (file : socket_file) (s : Service) : Service :=
  mkService (sv_config s) (sv_started s) b (sv_remote s) file.

(** The local listener. *)
(* src/internal/control/server.go:80-101 Service.Start *)
Definition start_unix (e : start_env) (s : Service) : Service * result unit listener_error :=
  match prepareUnixSocket e (sv_file s) with
  | Err x => (s, Err x)
  | Ok file =>
    if negb (st_listen_unix e) then (with_unix (sv_unix s) file s, Err ListenFailed)
    else if negb (st_chmod e) then (with_unix (sv_unix s) NoFile s, Err (SocketRefused 5))
    else if negb (String.eqb (TrimSpace (lc_UnixGroup (sv_config s))) "") && negb (st_chown e)
    then (with_unix (sv_unix s) NoFile s, Err (SocketRefused 6))
    else (with_unix true OwnSocket s, Ok tt)
  end.

(* src/internal/control/server.go Service.closeStartedLocked *)
Definition closeStartedLocked (s : Service) : Service :=
  mkService (sv_config s) (sv_started s) false None
    (if String.eqb (lc_UnixSocket (sv_config s)) "" then sv_file s else NoFile).

(* src/internal/control/server.go Service.Start *)
Definition Start (e : start_env) (s : Service) : Service * result unit listener_error :=
  if sv_started s then (s, Err AlreadyStarted)
  else
    let '(s, r) := if String.eqb (lc_UnixSocket (sv_config s)) "" then (s, Ok tt) else start_unix e s in
    match r with
    | Err x => (s, Err x)
    | Ok _ =>
      if String.eqb (lc_RemoteAddress (sv_config s)) ""
      then (mkService (sv_config s) true (sv_unix s) (sv_remote s) (sv_file s), Ok tt)
      else match tlsConfig (st_keyPair e) (st_ca e) (sv_config s) with
      | None => (closeStartedLocked s, Err TLSFailed)
      | Some auth =>
        if negb (st_listen_tcp e) then (closeStartedLocked s, Err ListenFailed)
        else (mkService (sv_config s) true (sv_unix s) (Some auth) (sv_file s), Ok tt)
      end
    end.

(** The listeners are closed, and the socket removed if the system lets it. *)
(* src/internal/control/server.go Service.Shutdown *)
Definition Shutdown (remove : bool) (s : Service) : Service :=
  mkService (sv_config s) (sv_started s) false None
    (if String.eqb (lc_UnixSocket (sv_config s)) "" || negb remove then sv_file s else NoFile).

(** A service that has not been started has no listener. *)
Definition idle (s : Service) : Prop := sv_started s = false ∧ sv_unix s = false ∧ sv_remote s = None.

Lemma Validate_remote c :
  Validate c = Ok tt → lc_RemoteAddress c ≠ "" →
  ∃ host port, SplitHostPort (lc_RemoteAddress c) = Some (host, port) ∧ lc_RemoteIdentityConfigured c = true ∧
    TrimSpace (lc_TLSCertFile c) ≠ "" ∧ TrimSpace (lc_TLSKeyFile c) ≠ "" ∧
    (isLoopbackHost host = true ∨ lc_RequireMTLS c = true ∧ TrimSpace (lc_ClientCAFile c) ≠ "").
Proof.
  unfold Validate. intros Hv Hr. apply String.eqb_neq in Hr. rewrite Hr in Hv.
  destruct (_ && _); [done|]. destruct (SplitHostPort _) as [[host port]|]; [|done]. exists host, port.
  destruct (String.eqb port ""); [done|]. destruct (bool_decide _); [done|].
  destruct (String.eqb_spec (TrimSpace (lc_TLSCertFile c)) ""), (String.eqb_spec (TrimSpace (lc_TLSKeyFile c)) ""); try done.
  destruct (lc_RemoteIdentityConfigured c); [|done]. simpl in Hv.
  destruct (isLoopbackHost host); [by split_and!; auto|].
  destruct (lc_RequireMTLS c), (String.eqb_spec (TrimSpace (lc_ClientCAFile c)) ""); try done. by split_and!; auto.
Qed.

Lemma start_unix_spec e s s' r :
  idle s → start_unix e s = (s', r) →
  sv_config s' = sv_config s ∧ sv_started s' = false ∧ sv_remote s' = None ∧ sv_unix s' = is_ok r ∧
  (sv_file s = OtherFile ∨ sv_file s = LiveSocket → is_ok r = false ∧ sv_file s' = sv_file s).
Proof.
  intros (Hs & Hu & Hr). unfold start_unix, prepareUnixSocket, with_unix.
  destruct (st_mkdir e), (sv_file s) eqn:Hf, (st_lstat e), (st_remove e), (st_listen_unix e), (st_chmod e),
    (negb (String.eqb _ "") && negb (st_chown e)); simpl; intros [= <- <-]; simpl; rewrite ?Hs, ?Hu, ?Hr, ?Hf;
    split_and!; try done; intros [?|?]; done.
Qed.

(** What the remote listener asks of a client that is not on this host. *)
Lemma tlsConfig_remote c keyPair ca auth host port :
  Validate c = Ok tt → tlsConfig keyPair ca c = Some auth → SplitHostPort (lc_RemoteAddress c) = Some (host, port) →
  lc_RemoteAddress c ≠ "" → isLoopbackHost host = false → auth = RequireAndVerify.
Proof.
  intros Hv Ht Hs Hr Hl. destruct (Validate_remote c Hv Hr) as (h & p & Hs' & _ & _ & _ & Hor).
  rewrite Hs in Hs'. injection Hs' as <- <-. destruct Hor as [|[Hm Hca]]; [congruence|].
  unfold tlsConfig in Ht. rewrite Hm in Ht. destruct keyPair; [|done]. simpl in Ht.
  destruct (String.eqb_spec (lc_ClientCAFile c) "") as [E|_]; [by rewrite E in Hca|].
  destruct ca; simpl in Ht; by simplify_eq.
Qed.

Definition all_open (s : Service) : Prop :=
  sv_unix s = negb (String.eqb (lc_UnixSocket (sv_config s)) "") ∧
  (sv_remote s = None ↔ lc_RemoteAddress (sv_config s) = "") ∧
  (∀ host port, SplitHostPort (lc_RemoteAddress (sv_config s)) = Some (host, port) →
     lc_RemoteAddress (sv_config s) ≠ "" → isLoopbackHost host = false → sv_remote s = Some RequireAndVerify).

Lemma Start_spec e s s' r :
  idle s → Validate (sv_config s) = Ok tt → Start e s = (s', r) →
  (if is_ok r then all_open s' else idle s') ∧
  (lc_UnixSocket (sv_config s) ≠ "" → sv_file s = OtherFile ∨ sv_file s = LiveSocket → is_ok r = false ∧ sv_file s' = sv_file s).
Proof.
  intros Hidle Hv. unfold Start. pose proof Hidle as (Hs & Hu & Hr). rewrite Hs.
  set (first := if String.eqb (lc_UnixSocket (sv_config s)) "" then (s, Ok tt) else start_unix e s).
  assert (∃ s1 r1, first = (s1, r1) ∧ sv_config s1 = sv_config s ∧ sv_started s1 = false ∧ sv_remote s1 = None ∧
    (sv_unix s1 = is_ok r1 && negb (String.eqb (lc_UnixSocket (sv_config s)) "")) ∧
    (lc_UnixSocket (sv_config s) ≠ "" → sv_file s = OtherFile ∨ sv_file s = LiveSocket → is_ok r1 = false ∧ sv_file s1 = sv_file s))
    as (s1 & r1 & -> & Hc & Hs1 & Hr1 & Hu1 & Hfile).
  { unfold first. destruct (String.eqb_spec (lc_UnixSocket (sv_config s)) "") as [E|E].
    - by exists s, (Ok tt).
    - destruct (start_unix e s) as [s1 r1] eqn:H. destruct (start_unix_spec _ _ _ _ Hidle H) as (? & ? & ? & ? & ?).
      exists s1, r1. rewrite andb_true_r. auto 10. }
  destruct r1 as [[]|x]; cbn [is_ok] in *.
  2:{ intros [= <- <-]. by split. }
  assert (∀ P : Prop, (lc_UnixSocket (sv_config s) ≠ "" → sv_file s = OtherFile ∨ sv_file s = LiveSocket → P)) as Hno
    by (intros P H1 H2; by destruct (Hfile H1 H2)).
  rewrite Hc. destruct (String.eqb_spec (lc_RemoteAddress (sv_config s)) "") as [E|E].
  { intros [= <- <-]. split; [|apply Hno]. unfold all_open. simpl. rewrite Hu1, Hr1. split_and!; [done| |done]. by split. }
  destruct (tlsConfig _ _ _) as [auth|] eqn:Ht.
  2:{ intros [= <- <-]. split; [|apply Hno]. by unfold idle, closeStartedLocked. }
  destruct (st_listen_tcp e); intros [= <- <-]; (split; [|apply Hno]).
  - unfold all_open. simpl. split_and!; [done|by split|]. intros host port Hsp Hne Hl. f_equal. by eapply tlsConfig_remote.
  - by unfold idle, closeStartedLocked.
Qed.

Lemma NewService_spec c localHandler remoteHandler file s :
  NewService c localHandler remoteHandler file = Ok s →
  idle s ∧ Validate (sv_config s) = Ok tt ∧ sv_file s = file ∧
  lc_UnixSocket (sv_config s) = lc_UnixSocket c ∧ lc_RemoteAddress (sv_config s) = lc_RemoteAddress c.
Proof.
  unfold NewService. destruct (Validate c) as [[]|] eqn:Hv; [|done]. cbn [bind_result].
  destruct (_ && _); [done|]. destruct (_ && _); [done|]. intros [= <-]. split_and!; try done.
Qed.

(** Starting the control plane is all or nothing: it opens every listener that is
    configured, or, if anything fails, none; it never removes a file that is not a
    socket nor one that another process serves; and a listener it opens on an address
    that is not a loopback one requires and verifies client certificates. *)
Theorem control_start_is_all_or_nothing c localHandler remoteHandler file e s s' r
    (Hnew : NewService c localHandler remoteHandler file = Ok s) (Hstart : Start e s = (s', r)) :
  (if is_ok r then all_open s' else idle s') ∧
  (lc_UnixSocket c ≠ "" → file = OtherFile ∨ file = LiveSocket → is_ok r = false ∧ sv_file s' = file).
Proof.
  destruct (NewService_spec _ _ _ _ _ Hnew) as (Hi & Hv & <- & <- & _). by eapply Start_spec.
Qed.

(** ** Health without a manager *)

(** One provider as these handlers read it. *)
Record provider_view := mkProviderView {
  pv_ID : string; pv_Name : string; pv_Authenticated : bool; pv_CanRefresh : bool; pv_Capabilities : list string;
}.

Definition health_document (status : string) (more : list (string * json)) : json := obj (("status", JStr status) :: more).

(** [None] is the nil registry. *)
(* src/src/server.go writeReadiness *)
Definition writeReadiness (registry : option (list provider_view)) : Z * json :=
  match registry with
  | None | Some [] => (StatusServiceUnavailable, health_document "not_ready" [("reason", JStr "no providers registered")])
  | Some providers =>
    let ready := length (List.filter pv_Authenticated providers) in
    let counts := [("ready_providers", of_int (Z.of_nat ready)); ("total_providers", of_int (Z.of_nat (length providers)))] in
    if (ready =? 0)%nat then (StatusServiceUnavailable, health_document "not_ready" counts)
    else (StatusOK, health_document "ready" counts)
  end.

(* src/src/server.go writeProviderHealth *)
Definition writeProviderHealth (registry : option (list provider_view)) : Z * json :=
  (StatusOK, health_document "ok" [("providers", JArr ((λ p,
    obj [("id", JStr (pv_ID p)); ("name", JStr (pv_Name p)); ("authenticated", JBool (pv_Authenticated p));
         ("can_refresh", JBool (pv_CanRefresh p)); ("capabilities", JArr (JStr <$> pv_Capabilities p))])
    <$> default [] registry))]).

Definition trim_slash (path : string) : string :=
  if HasPrefix (str_rev path) "/" then str_rev (str_drop 1 (str_rev path)) else path.

(* src/src/server.go healthHandler *)
Definition healthHandler (unix : Z) (registry : option (list provider_view)) (urlPath : string) : Z * json :=
  let path := trim_slash urlPath in
  if String.eqb path "/health/ready" then writeReadiness registry
  else if String.eqb path "/health/providers" then writeProviderHealth registry
  else (StatusOK, health_document "ok" [("service", JStr "ya-router"); ("timestamp", of_int unix)]).

(** Ready means one authenticated provider, whatever the others say. *)
Lemma ready_means_authenticated registry unix :
  (healthHandler unix registry "/health/ready/").1 = StatusOK ↔
  ∃ p, p ∈ default [] registry ∧ pv_Authenticated p = true.
Proof.
  change (healthHandler unix registry "/health/ready/") with (writeReadiness registry). unfold writeReadiness.
  destruct registry as [[|p l]|]; simpl default.
  - split; [done|]. intros (? & ?%elem_of_nil & _); done.
  - destruct (List.filter pv_Authenticated (p :: l)) as [|q rest] eqn:Hf; cbn [length Nat.eqb].
    + split; [done|]. intros (x & Hx%list_elem_of_In & Ha).
      assert (In x (List.filter pv_Authenticated (p :: l))) as Hin by by apply filter_In. by rewrite Hf in Hin.
    + split; [intros _|done]. exists q. assert (In q (List.filter pv_Authenticated (p :: l))) as Hin by (rewrite Hf; by left).
      apply filter_In in Hin as [Hin ?]. split; [by apply list_elem_of_In|done].
  - split; [done|]. intros (? & ?%elem_of_nil & _); done.
Qed.

(** ** Examples *)

Module ExampleSecurity.

Definition exposed : inbound_env := mkInbound "0.0.0.0" " sk-key " "https://a.example, ,https://b.example".
Definition chat (key authorization : string) : inbound_request :=
  mkInboundRequest "POST" "/v1/chat/completions" "https://b.example" key authorization.

Example exposed_decisions :
  (secureHandler exposed (chat "" "bearer sk-key")).2 = Serve
  ∧ (secureHandler exposed (chat "sk-key" "")).2 = Serve
  ∧ (secureHandler exposed (chat "" "sk-key")).2 = DenyOpenAI unauthorized
  ∧ (secureHandler exposed (chat "wrong" "Bearer sk-key")).2 = DenyOpenAI unauthorized
  ∧ length (secureHandler exposed (chat "" "")).1 = 4
  ∧ configuredListenAddress exposed "7071" = Some "0.0.0.0:7071"
  ∧ configuredListenAddress (mkInbound "[::1]" "" "") "7071" = Some "[::1]:7071"
  ∧ configuredListenAddress (mkInbound "0.0.0.0" " " "") "7071" = None.
Proof. vm_compute. repeat split. Qed.

Lemma exposed_daemon_serves_the_key_witness :
  supplied_credential (chat "sk-key" "") = "sk-key" ∧ supplied_credential (chat "sk-key" "") ≠ "".
Proof.
  apply (proj2 (exposed_daemon_serves_the_key exposed "7071" "0.0.0.0:7071" (chat "sk-key" "") eq_refl));
    [vm_compute; reflexivity|vm_compute; discriminate|vm_compute; reflexivity|vm_compute; reflexivity].
Defined.

Definition remote : ListenerConfig :=
  mkListener "/run/ya.sock" 0 "" "10.0.0.1:8443" "c.pem" "k.pem" "ca.pem" true true.
Definition works : start_env := mkStartEnv true true true true true true true true true.
Definition no_port : start_env := mkStartEnv true true true true true true true true false.

Lemma control_start_is_all_or_nothing_witness :
  ∃ s s' r, NewService remote true true StaleSocket = Ok s ∧ Start works s = (s', r) ∧ (if is_ok r then all_open s' else idle s').
Proof.
  destruct (NewService remote true true StaleSocket) as [s|e] eqn:Hn; [|vm_compute in Hn; discriminate].
  destruct (Start works s) as [s' r] eqn:Hs. exists s, s', r. split; [reflexivity|]. split; [exact Hs|].
  exact (proj1 (control_start_is_all_or_nothing remote true true StaleSocket works s s' r Hn Hs)).
Defined.

Example starts :
  (λ s, (sv_unix (Start works s).1, sv_remote (Start works s).1)) <$> (match NewService remote true true NoFile with Ok s => Some s | _ => None end)
  = Some (true, Some RequireAndVerify)
  ∧ (λ s, (sv_unix (Start no_port s).1, sv_file (Start no_port s).1)) <$> (match NewService remote true true NoFile with Ok s => Some s | _ => None end)
  = Some (false, NoFile)
  ∧ NewService (mkListener "" 0 "" "10.0.0.1:8443" "c.pem" "k.pem" "ca.pem" true false) true true NoFile = Err MTLSRequired.
Proof. vm_compute. repeat split. Qed.

End ExampleSecurity.
