(* ===== verification/WebSocket.v ===== *)
(** * The control WebSocket: connections and the state hub

    [internal/control/ws_protocol.go], [ws_server.go], [ws_state_handler.go] and
    [ws_state_hub.go].  A connection is written to by several goroutines: its reader,
    the goroutine of a chat, and the hub's broadcasts; [Send] numbers a message under
    a lock and queues it after the lock is released, so these are two steps of
    [step], and any goroutines may take theirs in any order.  The socket is what the
    writer has put into it ([wc_written]) and whether it can be written to. *)

From S2P Require Import Prelude GoStd Writers Failover GoJson Control.

#[local] Set Default Proof Using "Type".

(** ** The protocol *)

(* src/internal/control/ws_protocol.go WSProtocolVersion *)
Definition WSProtocolVersion : Z := 1.

(* src/internal/control/ws_protocol.go WSTypeChatStart *)
Definition WSTypeChatStart : string := "chat.start".
(* src/internal/control/ws_protocol.go WSTypeChatCancel *)
Definition WSTypeChatCancel : string := "chat.cancel".
(* src/internal/control/ws_protocol.go WSTypeSnapshotRequest *)
Definition WSTypeSnapshotRequest : string := "snapshot.request".
(* src/internal/control/ws_protocol.go WSTypePing *)
Definition WSTypePing : string := "ping".
(* src/internal/control/ws_protocol.go WSTypeHello *)
Definition WSTypeHello : string := "hello".
(* src/internal/control/ws_protocol.go WSTypeSnapshot *)
Definition WSTypeSnapshot : string := "snapshot".
(* src/internal/control/ws_protocol.go WSTypeStateUpdated *)
Definition WSTypeStateUpdated : string := "state.updated".
(* src/internal/control/ws_protocol.go WSTypeChatRoute *)
Definition WSTypeChatRoute : string := "chat.route".
(* src/internal/control/ws_protocol.go WSTypeChatDelta *)
Definition WSTypeChatDelta : string := "chat.delta".
(* src/internal/control/ws_protocol.go WSTypeChatDone *)
Definition WSTypeChatDone : string := "chat.done".
(* src/internal/control/ws_protocol.go WSTypeChatError *)
Definition WSTypeChatError : string := "chat.error".
(* src/internal/control/ws_protocol.go WSTypePong *)
Definition WSTypePong : string := "pong".

(** The payload is [None] when it is left out. *)
(* src/internal/control/ws_protocol.go WSEnvelope *)
Record WSEnvelope := mkEnvelope {
  we_Type : string; we_RequestID : string; we_Sequence : Z; we_Payload : option json;
}.

(* src/internal/control/ws_protocol.go WSHelloPayload *)
Definition WSHelloPayload (serviceVersion : string) (revision : Z) : json :=
  JObj [("protocol_version", of_int WSProtocolVersion); ("service_version", JStr serviceVersion);
        ("config_revision", of_int revision)].

(* src/internal/control/ws_protocol.go WSChatErrorPayload *)
Definition WSChatErrorPayload (category message : string) : json :=
  JObj [("category", JStr category); ("message", JStr message)].

(* src/internal/control/ws_protocol.go WSProtocolErrorPayload *)
Definition WSProtocolErrorPayload (code message : string) : json := JObj [("code", JStr code); ("message", JStr message)].

(** [Messages] is the raw text's tree, [None] when the member is missing. *)
(* src/internal/control/ws_protocol.go WSChatStartPayload *)
Record WSChatStartPayload := mkChatStart { cs_Model : string; cs_Messages : option json }.

Definition d_chat_start : decoder WSChatStartPayload :=
  d_struct [fld "model" cs_Model (λ x c, mkChatStart x (cs_Messages c)) d_string;
            fld "messages" cs_Messages (λ x c, mkChatStart (cs_Model c) x) d_raw].

Definition d_uint64 : decoder Z := λ v old,
  match v with
  | JNum n => if String.eqb n "" then None else digits 0 n ≫= λ k, if (k <=? maxUint64)%Z then Some k else None
  | JNull => Some old
  | _ => None
  end.

Definition d_envelope : decoder WSEnvelope :=
  d_struct [fld "type" we_Type (λ x e, mkEnvelope x (we_RequestID e) (we_Sequence e) (we_Payload e)) d_string;
            fld "request_id" we_RequestID (λ x e, mkEnvelope (we_Type e) x (we_Sequence e) (we_Payload e)) d_string;
            fld "sequence" we_Sequence (λ x e, mkEnvelope (we_Type e) (we_RequestID e) x (we_Payload e)) d_uint64;
            fld "payload" we_Payload (λ x e, mkEnvelope (we_Type e) (we_RequestID e) (we_Sequence e) x) d_raw].

(** ** Connections *)

Definition wsOutboundQueueSize : nat := 256.

(** The connection, with what goes on around it: the messages that have a number and
    are not queued yet, the frames in the socket, the chat goroutines that run, and
    the chats whose context has been cancelled.  A chat is known by a number; the
    cancel function the connection keeps is that of the chat [wc_chatCancel]. *)
(* src/internal/control/ws_server.go WSConn *)
Record WSConn := mkConn {
  wc_seq : Z; wc_outbound : list WSEnvelope; wc_closed : bool; wc_chatCancel : option nat;
  wc_assigned : list WSEnvelope; wc_written : list WSEnvelope; wc_chats : gset nat; wc_canceled : gset nat;
}.

(* src/internal/control/ws_server.go newWSConn *)
Definition newWSConn : WSConn := mkConn 0 [] false None [] [] ∅ ∅.

Definition with_queue (assigned outbound : list WSEnvelope) (c : WSConn) : WSConn :=
  mkConn (wc_seq c) outbound (wc_closed c) (wc_chatCancel c) assigned (wc_written c) (wc_chats c) (wc_canceled c).

(* src/internal/control/ws_server.go WSConn.Close *)
Definition close_conn (c : WSConn) : WSConn :=
  mkConn (wc_seq c) (wc_outbound c) true (wc_chatCancel c) (wc_assigned c) (wc_written c) (wc_chats c) (wc_canceled c).

(** The first half of [Send]: the number. *)
(* src/internal/control/ws_server.go:155-159 WSConn.Send *)
Definition send_assign (messageType requestID : string) (payload : option json) (c : WSConn) : WSConn :=
  let sequence := wrap_u64 (wc_seq c + 1) in
  mkConn sequence (wc_outbound c) (wc_closed c) (wc_chatCancel c)
    (wc_assigned c ++ [mkEnvelope messageType requestID sequence payload]) (wc_written c) (wc_chats c) (wc_canceled c).

(** The second half, for the [i]-th message that has a number: when there is room and
    the connection is closed the [select] may pick either case. *)
(* src/internal/control/ws_server.go:160-167 WSConn.Send *)
Definition send_enqueue (i : nat) (pick : bool) (c : WSConn) : option WSConn :=
  (λ envelope,
    let assigned := delete i (wc_assigned c) in
    if (length (wc_outbound c) <? wsOutboundQueueSize)%nat
    then if wc_closed c && pick then with_queue assigned (wc_outbound c) c
         else with_queue assigned (wc_outbound c ++ [envelope]) c
    else let c' := with_queue assigned (wc_outbound c) c in
         if wc_closed c then c' else close_conn c')
  <$> wc_assigned c !! i.

(** Both halves at once, as a goroutine that sends alone sees them. *)
(* src/internal/control/ws_server.go WSConn.Send *)
Definition Send (messageType requestID : string) (payload : option json) (c : WSConn) : WSConn :=
  let c := send_assign messageType requestID payload c in
  default c (send_enqueue (length (wc_assigned c) - 1) true c).

Inductive write_result := Written | Unencodable | WriteFailed.

(** The writer takes the oldest message.  A closed socket cannot be written to. *)
(* src/internal/control/ws_server.go:307-312 WSConn.writeLoop *)
(* src/internal/control/ws_server.go WSConn.writeEnvelope *)
Definition write_one (r : write_result) (c : WSConn) : option WSConn :=
  match wc_outbound c with
  | [] => None
  | e :: rest =>
    let c := with_queue (wc_assigned c) rest c in
    match r with
    | Written => if wc_closed c then None
                 else Some (mkConn (wc_seq c) rest (wc_closed c) (wc_chatCancel c) (wc_assigned c) (wc_written c ++ [e])
                              (wc_chats c) (wc_canceled c))
    | Unencodable => Some c
    | WriteFailed => Some (close_conn c)
    end
  end.

Definition with_chat (chat : option nat) (chats canceled : gset nat) (c : WSConn) : WSConn :=
  mkConn (wc_seq c) (wc_outbound c) (wc_closed c) chat (wc_assigned c) (wc_written c) chats canceled.

(** The lock's first critical section: [None] when a chat is registered. *)
(* src/internal/control/ws_server.go:270-279 WSConn.startChat *)
Definition start_chat (k : nat) (c : WSConn) : option WSConn :=
  match wc_chatCancel c with
  | Some _ => None
  | None => Some (with_chat (Some k) ({[k]} ∪ wc_chats c) (wc_canceled c) c)
  end.

Definition cancel_registered (c : WSConn) : gset nat :=
  match wc_chatCancel c with Some j => {[j]} ∪ wc_canceled c | None => wc_canceled c end.

(** The deferred end of a chat's goroutine: it calls whatever cancel function is
    registered then. *)
(* src/internal/control/ws_server.go:281-291 WSConn.startChat *)
Definition end_chat (k : nat) (c : WSConn) : option WSConn :=
  if bool_decide (k ∈ wc_chats c)
  then Some (with_chat None (wc_chats c ∖ {[k]}) (cancel_registered c) c) else None.

(* src/internal/control/ws_server.go WSConn.cancelChat *)
Definition cancel_chat (c : WSConn) : WSConn := with_chat None (wc_chats c) (cancel_registered c) c.

(** ** Messages from the client *)

Inductive ws_action :=
| ASend (messageType requestID : string) (payload : option json)
| ASnapshot
| AStartChat (requestID : string) (payload : WSChatStartPayload)
| ACancelChat.

Section protocol.
Context `{JSON}.

(** What the reader does with one frame; binary frames are passed over. *)
(* src/internal/control/ws_server.go:228-262 WSConn.readLoop *)
Definition read_message (text : bool) (data : string) : list ws_action :=
  if negb text then []
  else match json_unmarshal data ≫= unmarshal (mkEnvelope "" "" 0 None) d_envelope with
  | None => [ASend WSTypeChatError "" (Some (WSProtocolErrorPayload "malformed_message" "message is not valid JSON"))]
  | Some envelope =>
    let type := we_Type envelope in
    let id := we_RequestID envelope in
    if String.eqb type WSTypePing then [ASend WSTypePong id None]
    else if String.eqb type WSTypeSnapshotRequest then [ASnapshot]
    else if String.eqb type WSTypeChatStart then
      match we_Payload envelope ≫= unmarshal (mkChatStart "" None) d_chat_start with
      | None => [ASend WSTypeChatError id (Some (WSChatErrorPayload "invalid_request" "chat.start payload is malformed"))]
      | Some payload => [AStartChat id payload]
      end
    else if String.eqb type WSTypeChatCancel then [ACancelChat]
    else [ASend WSTypeChatError id (Some (WSProtocolErrorPayload "unknown_message_type" "unsupported message type"))]
  end.
End protocol.

(** The answer to a chat that finds another one registered. *)
Definition chat_in_progress (requestID : string) : ws_action :=
  ASend WSTypeChatError requestID
    (Some (WSProtocolErrorPayload "chat_already_in_progress" "a chat is already in progress on this connection")).

(** [Reader]: [None] when there is none, [Some None] when it fails. *)
(* src/internal/control/ws_state_handler.go StateAwareWSHandler.HandleSnapshotRequest *)
Definition HandleSnapshotRequest (reader : option (option json)) (c : WSConn) : WSConn :=
  Send WSTypeSnapshot "" (Some (default (JObj []) (default None reader))) c.

(** Without a chat handler a chat is refused. *)
(* src/internal/control/ws_state_handler.go StateAwareWSHandler.HandleChatStart *)
(* src/internal/control/ws_server.go NoopWSHandler.HandleChatStart *)
Definition HandleChatStart (chat : option (WSConn → WSConn)) (requestID : string) (c : WSConn) : WSConn :=
  match chat with
  | Some handle => handle c
  | None => Send WSTypeChatError requestID (Some (WSChatErrorPayload "unsupported_capability" "chat is not yet available")) c
  end.

(** The start of a connection, after its registration with the hub. *)
(* src/internal/control/ws_server.go:206-207 WSConn.serve *)
Definition greet (serviceVersion : string) (revision : Z) (reader : option (option json)) (c : WSConn) : WSConn :=
  HandleSnapshotRequest reader (Send WSTypeHello "" (Some (WSHelloPayload serviceVersion revision)) c).

(** ** Runs of a connection *)

Inductive event :=
| EvAssign (messageType requestID : string) (payload : option json)
| EvEnqueue (i : nat) (pick : bool)
| EvWrite (r : write_result)
| EvClose
| EvStart (k : nat)
| EvEnd (k : nat)
| EvCancel.

Definition step (e : event) (c : WSConn) : option WSConn :=
  match e with
  | EvAssign messageType requestID payload => Some (send_assign messageType requestID payload c)
  | EvEnqueue i pick => send_enqueue i pick c
  | EvWrite r => write_one r c
  | EvClose => Some (close_conn c)
  | EvStart k => start_chat k c
  | EvEnd k => end_chat k c
  | EvCancel => Some (cancel_chat c)
  end.

Fixpoint run (l : list event) (c : WSConn) : option WSConn :=
  match l with [] => Some c | e :: l => step e c ≫= run l end.

(** ** The numbers of the frames *)

Definition frames (c : WSConn) : list WSEnvelope := wc_written c ++ wc_outbound c ++ wc_assigned c.
Definition numbers (c : WSConn) : list Z := we_Sequence <$> frames c.

(** Every payload can be encoded. *)
Definition encodable (e : event) : Prop := match e with EvWrite Unencodable => False | _ => True end.
(** Messages are queued in the order of their numbers. *)
Definition in_turn (e : event) : Prop := match e with EvEnqueue i _ => i = 0 | _ => True end.

(** What a step does to the frames: a new one, or one fewer at most. *)
Inductive numbered (e : event) (c c' : WSConn) : Prop :=
| NumNew : wc_seq c' = wrap_u64 (wc_seq c + 1) → numbers c' = numbers c ++ [wc_seq c'] →
    wc_closed c' = wc_closed c → length (wc_outbound c') = length (wc_outbound c) → numbered e c c'
| NumKept : wc_seq c' = wc_seq c → numbers c' ⊆+ numbers c →
    (wc_closed c' = false → wc_closed c = false) →
    (encodable e → wc_closed c' = false → numbers c' ≡ₚ numbers c) →
    (in_turn e → numbers c' `sublist_of` numbers c) →
    (length (wc_outbound c') ≤ length (wc_outbound c) ∨ length (wc_outbound c') ≤ wsOutboundQueueSize) → numbered e c c'.

Lemma numbered_same e c c' :
  frames c' = frames c → wc_seq c' = wc_seq c → (wc_closed c' = false → wc_closed c = false) →
  length (wc_outbound c') ≤ length (wc_outbound c) → numbered e c c'.
Proof. intros Hf ? ? ?. unfold numbers in *. apply NumKept; unfold numbers; rewrite ?Hf; auto. Qed.

Lemma enqueue_numbered i pick c c' : send_enqueue i pick c = Some c' → numbered (EvEnqueue i pick) c c'.
Proof.
  unfold send_enqueue. intros (x & Hx & ->)%fmap_Some. apply take_drop_middle in Hx as Hmid.
  set (l1 := take i (wc_assigned c)) in *. set (l2 := drop (S i) (wc_assigned c)) in *.
  assert (delete i (wc_assigned c) = l1 ++ l2) as -> by apply delete_take_drop.
  assert (i = 0 → l1 = []) as Hfirst by (unfold l1; by intros ->).
  assert (Hdrop : ∀ b, numbers (mkConn (wc_seq c) (wc_outbound c) b (wc_chatCancel c) (l1 ++ l2) (wc_written c) (wc_chats c) (wc_canceled c))
    `sublist_of` numbers c).
  { intros b. unfold numbers, frames. simpl. rewrite <-Hmid, !fmap_app, fmap_cons. do 3 (apply sublist_app; [done|]). by constructor. }
  assert (Hperm : wc_written c ++ (wc_outbound c ++ [x]) ++ l1 ++ l2 ≡ₚ frames c).
  { unfold frames. rewrite <-Hmid, <-(Permutation_middle l1 l2 x), <-!app_assoc. done. }
  destruct (Nat.ltb_spec (length (wc_outbound c)) wsOutboundQueueSize) as [Hroom|Hfull].
  - destruct (wc_closed c && pick) eqn:Hb.
    + apply andb_true_iff in Hb as [Hb _]. apply NumKept; try done; simpl; try (by rewrite Hb); [apply sublist_submseteq, Hdrop|intros _; apply Hdrop|by left].
    + apply NumKept; try done; unfold numbers; simpl.
      * apply Permutation_submseteq. by rewrite <-Hperm.
      * intros _ _. by rewrite <-Hperm.
      * intros Hi%Hfirst. unfold frames. simpl. rewrite <-Hmid, Hi. simpl. by rewrite <-!app_assoc.
      * right. rewrite length_app. simpl. lia.
  - destruct (wc_closed c) eqn:Hc; apply NumKept; try done; simpl; try (by rewrite Hc);
      [apply sublist_submseteq, Hdrop|intros _; apply Hdrop|by left|apply sublist_submseteq, Hdrop|intros _; apply Hdrop|by left].
Qed.

Lemma write_numbered r c c' : write_one r c = Some c' → numbered (EvWrite r) c c'.
Proof.
  unfold write_one. destruct (wc_outbound c) as [|e rest] eqn:Ho; [done|].
  assert (Hdrop : ∀ b, numbers (mkConn (wc_seq c) rest b (wc_chatCancel c) (wc_assigned c) (wc_written c) (wc_chats c) (wc_canceled c))
    `sublist_of` numbers c).
  { intros b. unfold numbers, frames. simpl. rewrite Ho, !fmap_app, fmap_cons. apply sublist_app; [done|]. by constructor. }
  destruct r; cbn [with_queue wc_closed]; [destruct (wc_closed c) eqn:Hc; [done|]|..]; intros [= <-].
  - apply numbered_same; simpl; try done; [|rewrite Ho; simpl; lia]. unfold frames. simpl. rewrite Ho. by rewrite <-app_assoc.
  - apply NumKept; try done; simpl; [apply sublist_submseteq, Hdrop|intros _; apply Hdrop|rewrite Ho; simpl; lia].
  - apply NumKept; try done; simpl; [apply sublist_submseteq, Hdrop|intros _; apply Hdrop|rewrite Ho; simpl; lia].
Qed.

Lemma step_numbered e c c' : step e c = Some c' → numbered e c c'.
Proof.
  destruct e as [type id payload|i pick|r| |k|k|]; simpl.
  - intros [= <-]. apply NumNew; try done. unfold numbers, frames. simpl. rewrite !fmap_app. simpl. by rewrite <-!app_assoc.
  - apply enqueue_numbered.
  - apply write_numbered.
  - intros [= <-]. by apply numbered_same.
  - unfold start_chat. destruct (wc_chatCancel c); [done|]. intros [= <-]. by apply numbered_same.
  - unfold end_chat. case_bool_decide; [|done]. intros [= <-]. by apply numbered_same.
  - intros [= <-]. by apply numbered_same.
Qed.

Record numbering (l : list event) (c : WSConn) : Prop := {
  nb_seq : (0 ≤ wc_seq c)%Z;
  nb_range : Forall (λ n, 0 < n ≤ wc_seq c)%Z (numbers c);
  nb_once : NoDup (numbers c);
  nb_room : length (wc_outbound c) ≤ wsOutboundQueueSize;
  nb_all : Forall encodable l → wc_closed c = false → numbers c ≡ₚ seqZ 1 (wc_seq c);
  nb_order : Forall in_turn l → StronglySorted Z.lt (numbers c);
}.

Lemma StronglySorted_sublist {A} (R : relation A) l l' : l `sublist_of` l' → StronglySorted R l' → StronglySorted R l.
Proof.
  induction 1 as [|x l l' Hs IH|x l l' Hs IH]; [done|inversion 1; subst..].
  - constructor; [by apply IH|]. rewrite Forall_forall in *. intros y Hy. eapply elem_of_submseteq in Hy; [|by apply sublist_submseteq]. auto.
  - by apply IH.
Qed.

Lemma numbering_step l e c c' :
  numbering l c → (wc_seq c + 1 < 2 ^ 64)%Z → step e c = Some c' →
  numbering (l ++ [e]) c' ∧ (wc_seq c' ≤ wc_seq c + 1)%Z.
Proof.
  intros [H0 Hr Hn Hroom Ha Ho] Hb Hs. destruct (step_numbered _ _ _ Hs) as [Hseq Hnum Hcl Hlen|Hseq Hsub Hcl Hperm Hlist Hlen].
  - rewrite wrap_u64_small in Hseq by lia. rewrite Hseq in *. split; [|lia]. rewrite Forall_forall in Hr.
    split; rewrite ?Hseq, ?Hnum, ?Hlen, ?Forall_app; try lia.
    + split; [apply Forall_forall; intros n Hin%Hr; lia|repeat constructor; lia].
    + apply NoDup_app_snoc; [intros Hin%Hr; lia|done].
    + intros [? _] Hc. rewrite (Ha ltac:(done) ltac:(congruence)), seqZ_app by lia.
      assert (seqZ (1 + wc_seq c) 1 = [wc_seq c + 1]%Z) as -> by (unfold seqZ; simpl; f_equal; lia). done.
    + intros [? _]. apply StronglySorted_snoc; [by apply Ho|]. apply Forall_forall. intros n Hin%Hr. lia.
  - rewrite Hseq. split; [|lia]. split; rewrite ?Hseq, ?Forall_app, ?Forall_cons.
    + done.
    + rewrite Forall_forall in *. intros n Hin. apply Hr. by eapply elem_of_submseteq.
    + apply submseteq_Permutation in Hsub as [k Hk]. rewrite Hk in Hn. by apply NoDup_app in Hn as [? _].
    + lia.
    + intros [? [? _]] Hc. rewrite Hperm by done. by apply Ha; auto.
    + intros [? [? _]]. eapply StronglySorted_sublist; [by apply Hlist|by apply Ho].
Qed.

Lemma numbering_run l l0 c c' :
  numbering l0 c → (wc_seq c + Z.of_nat (length l) < 2 ^ 64)%Z → run l c = Some c' → numbering (l0 ++ l) c'.
Proof.
  revert l0 c. induction l as [|e l IH]; intros l0 c N Hb; simpl.
  { intros [= <-]. by rewrite app_nil_r. }
  destruct (step e c) as [c1|] eqn:Hs; [|done]. simpl in *. intros Hr.
  destruct (numbering_step _ _ _ _ N ltac:(lia) Hs) as [N1 Hle].
  replace (l0 ++ e :: l) with ((l0 ++ [e]) ++ l) by by rewrite <-app_assoc.
  eapply IH; [done|lia|done].
Qed.

Lemma numbering_new : numbering [] newWSConn.
Proof. split; unfold numbers, frames; simpl; try done; try by constructor. unfold wsOutboundQueueSize. lia. Qed.

(** The frames of a connection, whatever goroutines send and in whatever order
    their halves run: every frame written, queued or about to be queued has its own
    number; the queue never exceeds 256 frames; while the connection is open none is
    lost; and when messages are queued in the order of their numbers, as when one
    goroutine sends, the client gets 1, 2, 3, ... in this order. *)
Theorem ws_frames_are_numbered_once l c
    (Hrun : run l newWSConn = Some c) (Hbound : (Z.of_nat (length l) < 2 ^ 64)%Z) :
  NoDup (numbers c) ∧ length (wc_outbound c) ≤ wsOutboundQueueSize ∧
  (Forall encodable l → wc_closed c = false → numbers c ≡ₚ seqZ 1 (wc_seq c)) ∧
  (Forall in_turn l → StronglySorted Z.lt (we_Sequence <$> wc_written c)) ∧
  (Forall in_turn l → Forall encodable l → wc_closed c = false → numbers c = seqZ 1 (wc_seq c)).
Proof.
  pose proof (numbering_run l [] _ _ numbering_new Hbound Hrun) as [H0 _ Hn Hroom Ha Ho]. simpl in Ha, Ho.
  split_and!; [done..| |].
  - intros Hl%Ho. unfold numbers, frames in Hl. rewrite fmap_app in Hl. by apply StronglySorted_app_1_l in Hl.
  - intros Ht He Hc. eapply StronglySorted_unique; [|by apply Ho| |by apply Ha].
    + intros x y ? ?. lia.
    + clear. generalize 1%Z. intros start. unfold seqZ. generalize (Z.to_nat (wc_seq c)). intros n.
      revert start. induction n as [|n IH]; intros start; [constructor|]. simpl. constructor.
      * rewrite <-fmap_S_seq, <-list_fmap_compose.
        replace ((λ i : nat, (Z.of_nat i + start)%Z) ∘ S <$> seq 0 n) with ((λ i : nat, (Z.of_nat i + (start + 1))%Z) <$> seq 0 n); [apply IH|].
        apply list_fmap_ext. intros i x _. simpl. lia.
      * apply Forall_forall. intros x (i & -> & Hi%elem_of_seq)%list_elem_of_fmap. lia.
Qed.

(** ** Chats *)

Lemma send_keeps_chats i pick c c' :
  send_enqueue i pick c = Some c' →
  wc_chats c' = wc_chats c ∧ wc_chatCancel c' = wc_chatCancel c ∧ wc_canceled c' = wc_canceled c.
Proof. unfold send_enqueue. intros (x & _ & ->)%fmap_Some. by destruct (_ <? _)%nat, (wc_closed c), pick. Qed.

Lemma write_keeps_chats r c c' :
  write_one r c = Some c' →
  wc_chats c' = wc_chats c ∧ wc_chatCancel c' = wc_chatCancel c ∧ wc_canceled c' = wc_canceled c.
Proof. unfold write_one. destruct (wc_outbound c); [done|]. cbn [with_queue wc_closed]. destruct r, (wc_closed c); intros [=]; by subst. Qed.

Definition no_cancel (e : event) : Prop := match e with EvCancel => False | _ => True end.

(** Chat numbers are not used twice. *)
Definition fresh_chat (c : WSConn) (e : event) : Prop :=
  match e with EvStart k => k ∉ wc_chats c ∧ k ∉ wc_canceled c | _ => True end.

Fixpoint all_fresh (l : list event) (c : WSConn) : Prop :=
  match l with [] => True | e :: l => fresh_chat c e ∧ match step e c with Some c => all_fresh l c | None => True end end.

(** The chats that run are those registered, and none of them is cancelled. *)
Definition one_chat (c : WSConn) : Prop :=
  wc_chats c = match wc_chatCancel c with Some k => {[k]} | None => ∅ end ∧ wc_chats c ## wc_canceled c.

Lemma one_chat_step e c c' :
  one_chat c → no_cancel e → fresh_chat c e → step e c = Some c' → one_chat c'.
Proof.
  intros [Hc Hd]. unfold one_chat. destruct e as [| | | |k|k|]; simpl; intros Hno Hf.
  - by intros [= <-].
  - intros (-> & -> & ->)%send_keeps_chats. done.
  - intros (-> & -> & ->)%write_keeps_chats. done.
  - by intros [= <-].
  - unfold start_chat. destruct (wc_chatCancel c); [done|]. intros [= <-]. destruct Hf. split; simpl; set_solver.
  - unfold end_chat, cancel_registered. case_bool_decide as Hk; [|done]. intros [= <-]. simpl.
    destruct (wc_chatCancel c) as [j|]; simpl; [|split; set_solver]. rewrite Hc in Hk. apply elem_of_singleton in Hk as ->. split; set_solver.
  - done.
Qed.

(** As long as the client does not cancel, a connection runs one chat at a time:
    the chat that runs is the registered one, and the end of a chat does not cancel
    the context of another. *)
Theorem uncancelled_chats_run_one_at_a_time l c
    (Hrun : run l newWSConn = Some c) (Hfresh : all_fresh l newWSConn) (Hno : Forall no_cancel l) : one_chat c.
Proof.
  assert (∀ c0, one_chat c0 → all_fresh l c0 → run l c0 = Some c → one_chat c) as H.
  { clear Hrun Hfresh. induction Hno as [|e l He _ IH]; intros c0 H0; simpl; [by intros _ [= <-]|].
    intros [Hf Hrest]. destruct (step e c0) as [c1|] eqn:Hs; [|done]. simpl. apply IH; [by eapply one_chat_step|done]. }
  by apply (H newWSConn).
Qed.

(** ** The state hub *)

(** The connections of the process, those the hub knows, and the fingerprint of its
    last broadcast.  The sends of a broadcast, and of the other goroutines, are taken
    whole here. *)
(* src/internal/control/ws_state_hub.go StateHub *)
Record StateHub := mkHub { hb_conns : gmap nat WSConn; hb_registered : gset nat; hb_fingerprint : string }.

(* src/internal/control/ws_state_hub.go NewStateHub *)
Definition NewStateHub : StateHub := mkHub ∅ ∅ "".

(* src/internal/control/ws_state_hub.go StateHub.register *)
Definition register (k : nat) (h : StateHub) : StateHub := mkHub (hb_conns h) ({[k]} ∪ hb_registered h) (hb_fingerprint h).

(* src/internal/control/ws_state_hub.go StateHub.unregister *)
Definition unregister (k : nat) (h : StateHub) : StateHub := mkHub (hb_conns h) (hb_registered h ∖ {[k]}) (hb_fingerprint h).

Definition with_conn (k : nat) (c : WSConn) (h : StateHub) : StateHub :=
  mkHub (<[k := c]> (hb_conns h)) (hb_registered h) (hb_fingerprint h).

Section hub.
(** The hexadecimal SHA-256 of a state's encoding; [None] when it cannot be encoded. *)
Context (digest : json → option string).

Definition send_state (payload : json) (c : WSConn) : WSConn := Send WSTypeStateUpdated "" (Some payload) c.

(** [reader] as in [HandleSnapshotRequest]. *)
(* src/internal/control/ws_state_hub.go StateHub.BroadcastNow *)
(* src/internal/control/ws_state_hub.go StateHub.snapshot *)
Definition BroadcastNow (reader : option (option json)) (h : StateHub) : StateHub :=
  match reader with
  | None | Some None => h
  | Some (Some payload) =>
    match digest payload with
    | None => h
    | Some fingerprint =>
      if String.eqb fingerprint (hb_fingerprint h) then h
      else mkHub (map_imap (λ k c, Some (if bool_decide (k ∈ hb_registered h) then send_state payload c else c)) (hb_conns h))
             (hb_registered h) fingerprint
    end
  end.

(** A connection: registered before its greeting. *)
(* src/internal/control/ws_server.go RegisterWSRoute *)
Definition connect (k : nat) (serviceVersion : string) (revision : Z) (reader : option (option json)) (h : StateHub) : StateHub :=
  with_conn k (greet serviceVersion revision reader newWSConn) (register k h).

Inductive hub_event :=
| HConnect (k : nat) (serviceVersion : string) (revision : Z) (reader : option (option json))
| HBroadcast (reader : option (option json))
| HSend (k : nat) (messageType requestID : string) (payload : option json)
| HWrite (k : nat) (r : write_result)
| HClose (k : nat)
| HLeave (k : nat).

Definition hub_step (e : hub_event) (h : StateHub) : StateHub :=
  match e with
  | HConnect k version revision reader => connect k version revision reader h
  | HBroadcast reader => BroadcastNow reader h
  | HSend k type id payload => match hb_conns h !! k with Some c => with_conn k (Send type id payload c) h | None => h end
  | HWrite k r =>
    match hb_conns h !! k ≫= write_one r with Some c => with_conn k c h | None => h end
  | HClose k => match hb_conns h !! k with Some c => with_conn k (close_conn c) h | None => h end
  | HLeave k => unregister k h
  end.

Definition hub_run (l : list hub_event) (h : StateHub) : StateHub := foldl (λ h e, hub_step e h) h l.

Definition state_payload (e : WSEnvelope) : option json :=
  if String.eqb (we_Type e) WSTypeSnapshot || String.eqb (we_Type e) WSTypeStateUpdated then we_Payload e else None.

(** The state the client has, or will have once its queue is written. *)
Definition last_state (c : WSConn) : option json := last (omap state_payload (wc_written c ++ wc_outbound c)).

(** Every open connection shows the state of the last broadcast. *)
Definition up_to_date (h : StateHub) : Prop := ∀ k c, hb_conns h !! k = Some c →
  wc_assigned c = [] ∧
  (k ∈ hb_registered h → wc_closed c = false → last_state c ≫= digest = Some (hb_fingerprint h)).

(** Messages of chats and of the protocol carry no state; a new connection reads the
    state that was broadcast last, and its frames can be encoded. *)
Definition settled_event (h : StateHub) (e : hub_event) : Prop :=
  match e with
  | HConnect _ _ _ reader => digest (default (JObj []) (default None reader)) = Some (hb_fingerprint h)
  | HSend _ type _ _ => type ≠ WSTypeSnapshot ∧ type ≠ WSTypeStateUpdated
  | HWrite _ Unencodable => False
  | _ => True
  end.

Fixpoint settled (l : list hub_event) (h : StateHub) : Prop :=
  match l with [] => True | e :: l => settled_event h e ∧ settled l (hub_step e h) end.

(** A whole [Send]: queued, dropped after the end, or the end. *)
Lemma Send_spec type id payload c :
  wc_assigned c = [] →
  wc_assigned (Send type id payload c) = [] ∧ wc_written (Send type id payload c) = wc_written c ∧
  (wc_closed (Send type id payload c) = false →
     wc_closed c = false ∧
     ∃ n, wc_outbound (Send type id payload c) = wc_outbound c ++ [mkEnvelope type id n payload]).
Proof.
  intros Ha. unfold Send, send_assign. rewrite Ha. cbn [app wc_assigned length Nat.sub].
  unfold send_enqueue. cbn [wc_assigned lookup list_lookup fmap option_fmap option_map default wc_outbound wc_closed].
  destruct (length (wc_outbound c) <? wsOutboundQueueSize)%nat, (wc_closed c) eqn:Hc; cbn; rewrite ?Hc; split_and!; try done.
  intros _. split; [done|]. by eexists.
Qed.

Lemma last_state_snoc c c' e :
  wc_written c' = wc_written c → wc_outbound c' = wc_outbound c ++ [e] →
  last_state c' = match state_payload e with Some p => Some p | None => last_state c end.
Proof.
  intros Hw Ho. unfold last_state. rewrite Hw, Ho, (assoc_L (++)), omap_app. simpl.
  destruct (state_payload e); [by rewrite last_snoc|by rewrite app_nil_r].
Qed.

Lemma write_last_state r c c' :
  r ≠ Unencodable → write_one r c = Some c' → wc_assigned c' = wc_assigned c ∧
  (wc_closed c' = false → wc_closed c = false ∧ last_state c' = last_state c).
Proof.
  unfold write_one. destruct (wc_outbound c) as [|e rest] eqn:Ho; [done|].
  destruct r; cbn [with_queue wc_closed]; [|done|]; intros _.
  - destruct (wc_closed c) eqn:Hc; [done|]. intros [= <-]. split; [done|]. intros _. split; [done|].
    unfold last_state. cbn. rewrite Ho, <-app_assoc. done.
  - intros [= <-]. by split.
Qed.

Lemma greet_state version revision reader :
  wc_assigned (greet version revision reader newWSConn) = [] ∧
  last_state (greet version revision reader newWSConn) = Some (default (JObj []) (default None reader)).
Proof. split; reflexivity. Qed.

Lemma broadcast_up_to_date reader h : up_to_date h → up_to_date (BroadcastNow reader h).
Proof.
  intros H. unfold BroadcastNow. destruct reader as [[payload|]|]; [|done..].
  destruct (digest payload) as [f|] eqn:Hd; [|done]. destruct (String.eqb f _); [done|].
  intros k c. cbn [hb_conns hb_registered hb_fingerprint]. rewrite map_lookup_imap.
  destruct (hb_conns h !! k) as [c0|] eqn:Hk; [|done]. simpl. intros [= <-]. destruct (H k c0 Hk) as [Ha Hs].
  case_bool_decide as Hr; [|by split].
  destruct (Send_spec WSTypeStateUpdated "" (Some payload) c0 Ha) as (Ha' & Hw & Ho).
  split; [done|]. intros _ Hc. destruct (Ho Hc) as (_ & n & Hout).
  unfold send_state in *. by rewrite (last_state_snoc _ _ _ Hw Hout).
Qed.

(** Whatever was shown before, a broadcast of another state reaches every open
    connection that it does not end. *)
Lemma broadcast_reaches_all payload f h :
  (∀ k c, hb_conns h !! k = Some c → wc_assigned c = []) → digest payload = Some f → f ≠ hb_fingerprint h →
  up_to_date (BroadcastNow (Some (Some payload)) h).
Proof.
  intros H Hd Hf k c. unfold BroadcastNow. rewrite Hd, (proj2 (String.eqb_neq _ _) Hf).
  cbn [hb_conns hb_registered hb_fingerprint]. rewrite map_lookup_imap.
  destruct (hb_conns h !! k) as [c0|] eqn:Hk; [|done]. simpl. intros [= <-]. pose proof (H k c0 Hk) as Ha.
  case_bool_decide as Hr; [|by split].
  destruct (Send_spec WSTypeStateUpdated "" (Some payload) c0 Ha) as (Ha' & Hw & Ho).
  split; [done|]. intros _ Hc. destruct (Ho Hc) as (_ & n & Hout).
  unfold send_state in *. by rewrite (last_state_snoc _ _ _ Hw Hout).
Qed.

Lemma up_to_date_conn k c c' h :
  up_to_date h → hb_conns h !! k = Some c → wc_assigned c' = [] →
  (wc_closed c' = false → wc_closed c = false ∧ last_state c' = last_state c) → up_to_date (with_conn k c' h).
Proof.
  intros H Hk Ha Hs k' x. unfold with_conn. cbn [hb_conns hb_registered hb_fingerprint].
  intros [[<- <-]|[_ Hx]]%lookup_insert_Some; [|by apply H]. split; [done|]. intros Hr Hc.
  destruct (Hs Hc) as [Hc0 ->]. by apply (H k c Hk).
Qed.

Lemma hub_step_up_to_date e h : up_to_date h → settled_event h e → up_to_date (hub_step e h).
Proof.
  intros H Hs. destruct e as [k version revision reader|reader|k type id payload|k r|k|k]; cbn [hub_step settled_event] in *.
  - intros k' c. unfold connect, with_conn, register. cbn [hb_conns hb_registered hb_fingerprint].
    intros [[<- <-]|[Hne Hk]]%lookup_insert_Some.
    + destruct (greet_state version revision reader) as [Ha ->]. split; [done|]. intros _ _. simpl. by rewrite Hs.
    + destruct (H k' c Hk) as [Ha Hst]. split; [done|]. intros Hr. apply Hst. set_solver.
  - by apply broadcast_up_to_date.
  - destruct (hb_conns h !! k) as [c|] eqn:Hk; [|done]. destruct (H k c Hk) as [Ha _].
    destruct (Send_spec type id payload c Ha) as (Ha' & Hw & Ho). eapply up_to_date_conn; [done|exact Hk|done|].
    intros Hc. destruct (Ho Hc) as (Hc0 & n & Hout). split; [done|]. rewrite (last_state_snoc _ _ _ Hw Hout).
    destruct Hs as [Ht1 Ht2]. unfold state_payload. cbn [we_Type].
    by rewrite (proj2 (String.eqb_neq _ _) Ht1), (proj2 (String.eqb_neq _ _) Ht2).
  - destruct (hb_conns h !! k) as [c|] eqn:Hk; [|done]. simpl.
    destruct (write_one r c) as [c'|] eqn:Hw; [|done]. destruct (H k c Hk) as [Ha _].
    apply write_last_state in Hw as [Ha' Hst]; [|by destruct r]. eapply up_to_date_conn; [done|exact Hk|congruence|done].
  - destruct (hb_conns h !! k) as [c|] eqn:Hk; [|done]. destruct (H k c Hk) as [Ha _].
    by eapply up_to_date_conn.
  - intros k' c Hk. destruct (H k' c Hk) as [Ha Hst]. split; [done|]. intros Hr. apply Hst. cbn in Hr. set_solver.
Qed.

(** From the first broadcast of a changed state on, every open connection shows the
    state that was broadcast last, whatever it is sent in between, provided that a new
    connection's snapshot is that state too; a connection that cannot take a broadcast
    is closed, and no other waits for it. *)
Theorem clients_show_the_last_broadcast payload f l h
    (Hwhole : ∀ k c, hb_conns h !! k = Some c → wc_assigned c = [])
    (Hdigest : digest payload = Some f) (Hchanged : f ≠ hb_fingerprint h)
    (Hsettled : settled l (BroadcastNow (Some (Some payload)) h)) :
  let h' := hub_run l (BroadcastNow (Some (Some payload)) h) in
  ∀ k c, k ∈ hb_registered h' → hb_conns h' !! k = Some c → wc_closed c = false →
    last_state c ≫= digest = Some (hb_fingerprint h').
Proof.
  cbv zeta. pose proof (broadcast_reaches_all _ _ _ Hwhole Hdigest Hchanged) as H.
  revert H Hsettled. generalize (BroadcastNow (Some (Some payload)) h). clear. induction l as [|e l IH]; intros h H Hs; simpl in *.
  - intros k c Hr Hk Hc. by apply (H k c Hk).
  - destruct Hs as [He Hs]. apply IH; [by apply hub_step_up_to_date|done].
Qed.

End hub.

(** ** Examples *)

Module ExampleWebSocket.

Definition num (l : list WSEnvelope) : list (string * Z) := (λ e, (we_Type e, we_Sequence e)) <$> l.

Definition two_senders : list event :=
  [EvAssign "chat.delta" "r" None; EvAssign "state.updated" "" None; EvEnqueue 1 true; EvEnqueue 0 true;
   EvWrite Written; EvWrite Written].

(** Two goroutines that send at once: the client gets frame 2 before frame 1. *)
Example frames_overtake :
  (λ c, num (wc_written c)) <$> run two_senders newWSConn = Some [("state.updated", 2%Z); ("chat.delta", 1%Z)].
Proof. vm_compute. reflexivity. Qed.

Lemma ws_frames_are_numbered_once_witness :
  ∃ c, run two_senders newWSConn = Some c ∧ NoDup (numbers c).
Proof.
  destruct (run two_senders newWSConn) as [c|] eqn:E; [|vm_compute in E; discriminate].
  exists c. split; [reflexivity|]. exact (proj1 (ws_frames_are_numbered_once two_senders c E eq_refl)).
Defined.

Definition two_chats : list event := [EvStart 1; EvEnd 1; EvStart 2].

Lemma uncancelled_chats_run_one_at_a_time_witness : ∃ c, run two_chats newWSConn = Some c ∧ one_chat c.
Proof.
  destruct (run two_chats newWSConn) as [c|] eqn:E; [|vm_compute in E; discriminate].
  exists c. split; [reflexivity|]. apply (uncancelled_chats_run_one_at_a_time two_chats c E).
  - split; [split; apply not_elem_of_empty|]. split; [exact I|]. split; [|exact I].
    split; apply (bool_decide_unpack _); vm_compute; exact I.
  - repeat constructor.
Defined.

(** After a cancellation two chats run at once, and the end of the first cancels the
    second. *)
Example ended_chat_cancels_its_successor :
  (λ c, (elements (wc_chats c), elements (wc_canceled c))) <$> run [EvStart 1; EvCancel; EvStart 2] newWSConn = Some ([2; 1], [1])
  ∧ (λ c, (elements (wc_chats c), bool_decide (2 ∈ wc_canceled c))) <$> run [EvStart 1; EvCancel; EvStart 2; EvEnd 1] newWSConn
  = Some ([2], true).
Proof. vm_compute. split; reflexivity. Qed.

Definition hash (j : json) : option string := match j with JStr s => Some s | _ => None end.
Definition shown (k : nat) (h : StateHub) : option json := hb_conns h !! k ≫= last_state.

Definition calm_run : list hub_event :=
  [HConnect 2 "1" 7 (Some (Some (JStr "s1"))); HSend 1 "chat.delta" "r" None; HWrite 1 Written; HBroadcast (Some (Some (JStr "s2")))].
Definition first_client : StateHub := connect 1 "1" 7 None NewStateHub.

Definition calm_hub : StateHub := hub_run hash calm_run (BroadcastNow hash (Some (Some (JStr "s1"))) first_client).

Lemma clients_show_the_last_broadcast_witness :
  ∃ c, hb_conns calm_hub !! 2 = Some c ∧ last_state c ≫= hash = Some (hb_fingerprint calm_hub).
Proof.
  destruct (hb_conns calm_hub !! 2) as [c|] eqn:Hc; [|vm_compute in Hc; discriminate].
  exists c. split; [reflexivity|].
  refine (clients_show_the_last_broadcast hash (JStr "s1") "s1" calm_run first_client _ _ _ _ 2 c _ Hc _).
  - intros k c' Hk. unfold first_client, connect, with_conn in Hk. cbn [hb_conns] in Hk.
    apply lookup_insert_Some in Hk as [[_ <-]|[_ Hk]]; [reflexivity|]. cbn in Hk. by rewrite lookup_empty in Hk.
  - reflexivity.
  - discriminate.
  - split; [reflexivity|]. split; [split; discriminate|]. repeat split.
  - apply (bool_decide_unpack _). vm_compute. exact I.
  - revert Hc. vm_compute. intros [= <-]. reflexivity.
Defined.

(** A client that connects between two broadcasts of one state keeps the state of its
    snapshot: the second broadcast finds the fingerprint unchanged. *)
Example client_keeps_a_stale_state :
  let h := hub_run hash [HBroadcast (Some (Some (JStr "ready"))); HConnect 1 "1" 7 (Some (Some (JStr "cooling")));
    HBroadcast (Some (Some (JStr "ready")))] NewStateHub in
  shown 1 h = Some (JStr "cooling") ∧ hb_fingerprint h = "ready".
Proof. vm_compute. split; reflexivity. Qed.

(** A broadcast between the registration and the greeting comes before the hello. *)
Example broadcast_precedes_hello :
  num (wc_outbound (greet "1" 7 None (Send WSTypeStateUpdated "" None newWSConn)))
  = [("state.updated", 1%Z); ("hello", 2%Z); ("snapshot", 3%Z)].
Proof. vm_compute. reflexivity. Qed.

Example unknown_message `{JSON} data :
  json_unmarshal data = Some (JObj [("type", JStr "chat.stop"); ("request_id", JStr "r1")]) →
  read_message true data = [ASend "chat.error" "r1" (Some (WSProtocolErrorPayload "unknown_message_type" "unsupported message type"))].
Proof. unfold read_message. by intros ->. Qed.

End ExampleWebSocket.
