(* ===== verification/WSChat.v ===== *)
(** * Chats over the control WebSocket

    [src/ws_chat_handler.go], [ws_chat_writer.go] and [ws_chat_context.go]: one
    [chat.start] becomes one streaming chat completion, whose answer is read back
    from the bytes an HTTP client would get.  What the dispatch does is an argument:
    the routes it tells the observer and its writes, in order, and its error. *)

From S2P Require Import Prelude GoStd Telemetry Writers Failover GoJson Responses Control WebSocket.

#[local] Set Default Proof Using "Type".

(** ** The writer *)

(** The texts of the choices of a chunk. *)
Definition d_choice_text (part : string) : decoder string := d_struct [fld part id (λ x _, x) (d_struct [fld "content" id (λ x _, x) d_string])].
Definition d_texts (part : string) : decoder (list string) :=
  d_struct [fld "choices" id (λ x _, x) (d_list "" (d_choice_text part))].

(** [wt_deltas] is what [onDelta] has been called with. *)
(* src/src/ws_chat_writer.go wsChatWriter *)
Record wsChatWriter := mkChatWriter {
  wt_header : gmap string string; wt_status : Z; wt_pending : string; wt_sawStream : bool;
  wt_nonStream : string; wt_deltas : list string;
}.

(* src/src/ws_chat_writer.go newWSChatWriter *)
Definition newWSChatWriter : wsChatWriter := mkChatWriter ∅ 0 "" false "" [].

Definition not_empty (s : string) : bool := negb (String.eqb s "").

(** The text up to each line feed, and what is behind the last one. *)
Fixpoint split_lines (s : string) : list string * string :=
  match s with
  | "" => ([], "")
  | String c s' =>
    let '(lines, rest) := split_lines s' in
    if Ascii.eqb c "010" then ("" :: lines, rest)
    else match lines with
         | [] => ([], String c rest)
         | l :: lines => (String c l :: lines, rest)
         end
  end.

Fixpoint trim_cr_left (s : string) : string :=
  match s with String c s' => if Ascii.eqb c "013" then trim_cr_left s' else s | "" => "" end.

(** [bytes.TrimRight] of carriage returns. *)
Definition trim_cr (s : string) : string := str_rev (trim_cr_left (str_rev s)).

Section writer.
Context `{JSON}.

(* src/src/ws_chat_writer.go wsChatWriter.handleSSELine *)
Definition handleSSELine (line : string) : list string :=
  let trimmed := TrimPrefix line "data: " in
  if String.eqb trimmed line || String.eqb trimmed "" || String.eqb trimmed "[DONE]" then []
  else match json_unmarshal trimmed ≫= unmarshal [] (d_texts "delta") with
       | Some texts => List.filter not_empty texts
       | None => []
       end.

(* src/src/ws_chat_writer.go wsChatWriter.drainSSELines *)
Definition drainSSELines (pending : string) : string * list string :=
  let '(lines, rest) := split_lines pending in (rest, mjoin ((λ line, handleSSELine (trim_cr line)) <$> lines)).

Definition set_status (code : Z) (w : wsChatWriter) : wsChatWriter :=
  if (wt_status w =? 0)%Z
  then mkChatWriter (wt_header w) code (wt_pending w) (wt_sawStream w) (wt_nonStream w) (wt_deltas w) else w.

Definition is_event_stream (w : wsChatWriter) : bool :=
  Contains (default "" (wt_header w !! "Content-Type")) "text/event-stream".

(* src/src/ws_chat_writer.go wsChatWriter.Write *)
Definition chat_Write (data : string) (w : wsChatWriter) : wsChatWriter :=
  let w := set_status StatusOK w in
  if is_event_stream w
  then let '(rest, texts) := drainSSELines (wt_pending w +:+ data) in
       mkChatWriter (wt_header w) (wt_status w) rest true (wt_nonStream w) (wt_deltas w ++ texts)
  else mkChatWriter (wt_header w) (wt_status w) (wt_pending w) (wt_sawStream w) (wt_nonStream w +:+ data) (wt_deltas w).

(* src/src/ws_chat_writer.go wsChatWriter.WriteHeader *)
(* src/src/ws_chat_writer.go wsChatWriter.Header *)
(* src/src/ws_chat_writer.go wsChatWriter.Flush *)
Definition chat_act (a : Writers.action) (w : wsChatWriter) : wsChatWriter :=
  match a with
  | ASetHeader k v => mkChatWriter (<[k := v]> (wt_header w)) (wt_status w) (wt_pending w) (wt_sawStream w) (wt_nonStream w) (wt_deltas w)
  | ADelHeader k => mkChatWriter (delete k (wt_header w)) (wt_status w) (wt_pending w) (wt_sawStream w) (wt_nonStream w) (wt_deltas w)
  | AWriteHeader code => set_status code w
  | AWrite data => chat_Write data w
  | AFlush => w
  end.

(* src/src/ws_chat_writer.go wsChatWriter.StatusCode *)
Definition StatusCode (w : wsChatWriter) : Z := if (wt_status w =? 0)%Z then StatusOK else wt_status w.

(** The text of an answer that was not a stream. *)
(* src/src/ws_chat_writer.go wsChatWriter.Finish *)
Definition Finish (w : wsChatWriter) : list string :=
  if wt_sawStream w || String.eqb (wt_nonStream w) "" then []
  else match json_unmarshal (wt_nonStream w) ≫= unmarshal [] (d_texts "message") with
       | Some (text :: _) => if not_empty text then [text] else []
       | _ => []
       end.

(** ** The handler *)

(* src/src/ws_chat_handler.go buildWSChatRequestBody *)
Definition buildWSChatRequestBody (payload : WSChatStartPayload) : option string :=
  match cs_Messages payload with
  | None => None
  | Some messages =>
    json_marshal (JObj ([("messages", messages)]
      ++ (if String.eqb (TrimSpace (cs_Model payload)) "" then [] else [("model", JStr (cs_Model payload))])
      ++ [("stream", JBool true)]))
  end.

(* src/src/ws_chat_handler.go chatErrorCategoryMessage *)
Definition chatErrorCategoryMessage (category : ErrorCategory) : string :=
  match category with
  | ErrorCategoryModelUnavailable => "no active target is available for this model"
  | ErrorCategoryAuthRequired => "the selected provider requires authentication"
  | ErrorCategoryRateLimited => "the selected provider is rate-limited"
  | ErrorCategoryProviderUnavailable => "the selected provider is temporarily unavailable"
  | ErrorCategoryTimeout => "the request timed out"
  | ErrorCategoryEntitlementDenied => "the selected provider denied this request"
  | ErrorCategoryUnsupported => "this capability is not supported by the selected provider"
  | ErrorCategoryInvalidRequest => "the chat request was invalid"
  | _ => "chat request failed"
  end.

Definition category_text (category : ErrorCategory) : string :=
  match category with
  | ErrorCategoryNone => "" | ErrorCategoryInvalidRequest => "invalid_request" | ErrorCategoryAuthRequired => "auth_required"
  | ErrorCategoryEntitlementDenied => "entitlement_denied" | ErrorCategoryRateLimited => "rate_limited"
  | ErrorCategoryUnsupported => "unsupported_capability" | ErrorCategoryProviderUnavailable => "provider_unavailable"
  | ErrorCategoryTransport => "transport_error" | ErrorCategoryModelUnavailable => "model_unavailable"
  | ErrorCategoryTimeout => "timeout" | ErrorCategoryCanceled => "canceled"
  end.

(* src/src/ws_chat_handler.go mustMarshalChatRoute *)
(* src/internal/control/ws_protocol.go WSChatRoutePayload *)
Definition chat_route (provider resolvedModel : string) : string * json :=
  (WSTypeChatRoute, JObj [("provider", JStr provider); ("resolved_model", JStr resolvedModel)]).
(* src/src/ws_chat_handler.go mustMarshalChatDelta *)
(* src/internal/control/ws_protocol.go WSChatDeltaPayload *)
Definition chat_delta (text : string) : string * json := (WSTypeChatDelta, JObj [("text", JStr text)]).
(* src/src/ws_chat_handler.go mustMarshalChatDone *)
(* src/internal/control/ws_protocol.go WSChatDonePayload *)
Definition chat_done (reason : string) : string * json :=
  (WSTypeChatDone, JObj (if String.eqb reason "" then [] else [("finish_reason", JStr reason)])).
(* src/src/ws_chat_handler.go mustMarshalChatError *)
Definition chat_error (category message : string) : string * json := (WSTypeChatError, WSChatErrorPayload category message).

(** What the dispatch does that the chat sees: it tells the observer a route
    ([withRouteObserver]), or acts on the writer. *)
(* src/src/ws_chat_context.go routeObserverFunc *)
Inductive dispatch_act := DRoute (provider resolvedModel : string) | DAct (a : Writers.action).

(** The messages of a dispatch, and the writer after it. *)
Fixpoint follow (l : list dispatch_act) (w : wsChatWriter) : list (string * json) * wsChatWriter :=
  match l with
  | [] => ([], w)
  | DRoute provider model :: l =>
    let '(sent, w) := follow l w in (chat_route provider model :: sent, w)
  | DAct a :: l =>
    let w' := chat_act a w in
    let new := drop (length (wt_deltas w)) (wt_deltas w') in
    let '(sent, w) := follow l w' in ((chat_delta <$> new) ++ sent, w)
  end.

(** [lease] says whether the runtime gave one; [dispatch] gets the request's body;
    [canceled] is [ctx.Err() != nil] after it.  The messages go to [conn.Send] one by
    one, with the request's identifier. *)
(* src/src/ws_chat_handler.go wsChatHandler.HandleChatStart *)
Definition chat_messages (lease : bool) (dispatch : string → list dispatch_act * option perr) (canceled : bool)
    (payload : WSChatStartPayload) : list (string * json) :=
  if negb lease then [chat_error "provider_unavailable" "the daemon is shutting down"]
  else match buildWSChatRequestBody payload with
  | None => [chat_error "invalid_request" "chat.start payload is malformed"]
  | Some body =>
    let '(acts, proxyErr) := dispatch body in
    let '(sent, w) := follow acts newWSChatWriter in
    sent ++ (chat_delta <$> Finish w)
    ++ [if canceled then chat_error "canceled" "chat was canceled"
        else if bool_decide (is_Some proxyErr) || (StatusBadRequest <=? StatusCode w)%Z
        then let category := classifyErrorCategory (StatusCode w) proxyErr in
             chat_error (category_text category) (chatErrorCategoryMessage category)
        else chat_done "stop"]
  end.

(* src/src/ws_chat_handler.go wsChatHandler.HandleChatStart *)
Definition HandleChatStart (requestID : string) (messages : list (string * json)) (c : WSConn) : WSConn :=
  foldl (λ c m, Send m.1 requestID (Some m.2) c) c messages.

(** ** One end *)

Definition terminal (m : string * json) : bool := String.eqb m.1 WSTypeChatDone || String.eqb m.1 WSTypeChatError.

Lemma follow_not_terminal l w : Forall (λ m, terminal m = false) (follow l w).1.
Proof.
  revert w; induction l as [|[provider model|a] l IH]; intros w; cbn [follow]; [constructor|..].
  - specialize (IH w). destruct (follow l w). by constructor.
  - specialize (IH (chat_act a w)). destruct (follow l _). apply Forall_app. split; [|done].
    apply Forall_forall. intros m (t & -> & _)%list_elem_of_fmap. done.
Qed.

(** However a chat goes, the client is told routes and pieces of text and then,
    last and once, how it ended: a [chat.done], or a [chat.error] whose two texts are
    taken from a fixed list and never from an upstream answer. *)
Theorem every_chat_ends_once lease dispatch canceled payload :
  ∃ told final, chat_messages lease dispatch canceled payload = told ++ [final]
    ∧ Forall (λ m, terminal m = false) told ∧ terminal final = true ∧
    (final = chat_done "stop" ∨
     final ∈ [chat_error "provider_unavailable" "the daemon is shutting down";
              chat_error "invalid_request" "chat.start payload is malformed";
              chat_error "canceled" "chat was canceled"] ∨
     ∃ category, final = chat_error (category_text category) (chatErrorCategoryMessage category)).
Proof.
  unfold chat_messages. destruct lease; cbn [negb].
  2:{ exists [], (chat_error "provider_unavailable" "the daemon is shutting down"). split_and!; try done. right; left. by left. }
  destruct (buildWSChatRequestBody payload) as [body|].
  2:{ exists [], (chat_error "invalid_request" "chat.start payload is malformed"). split_and!; try done. right; left. by right; left. }
  destruct (dispatch body) as [acts proxyErr]. pose proof (follow_not_terminal acts newWSChatWriter) as Hf.
  destruct (follow acts newWSChatWriter) as [sent w]. rewrite (assoc_L (++)). eexists _, _. split; [done|]. split.
  - apply Forall_app. split; [done|]. apply Forall_forall. by intros m (t & -> & _)%list_elem_of_fmap.
  - destruct canceled; [split; [done|]; right; left; by do 2 right; left|].
    destruct (_ || _); [split; [done|]; right; right; by eexists|]. split; [done|by left].
Qed.

(** ** Pieces *)

Lemma split_lines_app s t :
  split_lines (s +:+ t)
  = ((split_lines s).1 ++ (split_lines ((split_lines s).2 +:+ t)).1, (split_lines ((split_lines s).2 +:+ t)).2).
Proof.
  induction s as [|c s IH]; simpl; [by destruct (split_lines t)|]. rewrite IH.
  destruct (split_lines s) as [lines rest]. cbn [fst snd].
  destruct (Ascii.eqb c "010") eqn:Hc; [done|]. destruct lines as [|l lines]; cbn [app fst snd].
  - cbn [String.append split_lines]. destruct (split_lines (rest +:+ t)) as [lines' rest'].
    rewrite Hc. by destruct lines'.
  - done.
Qed.

Lemma bind_join_app {A} (l l' : list (list A)) : mjoin (l ++ l') = mjoin l ++ mjoin l'.
Proof. induction l as [|x l IH]; simpl; [done|]. by rewrite IH, (assoc_L (++)). Qed.

(** A stream's bytes give the same deltas in whatever pieces they come. *)
Lemma chat_Write_app s t w :
  is_event_stream w = true → chat_Write t (chat_Write s w) = chat_Write (s +:+ t) w.
Proof.
  intros He. assert (Hset : ∀ code w', is_event_stream w' = true → is_event_stream (set_status code w') = true)
    by (intros code w' ?; unfold set_status; by destruct (wt_status w' =? 0)%Z).
  unfold chat_Write. rewrite (Hset _ _ He). unfold drainSSELines.
  replace (wt_pending (set_status StatusOK w)) with (wt_pending w) by (unfold set_status; by destruct (_ =? _)%Z).
  rewrite <-!str_app_assoc. rewrite (split_lines_app (wt_pending w +:+ s) t).
  destruct (split_lines (wt_pending w +:+ s)) as [lines rest] eqn:Hl. cbn [fst snd].
  assert (∀ d p b n, set_status StatusOK (mkChatWriter (wt_header (set_status StatusOK w)) (wt_status (set_status StatusOK w)) p b n d)
    = mkChatWriter (wt_header (set_status StatusOK w)) (wt_status (set_status StatusOK w)) p b n d) as Hid.
  { intros. unfold set_status. destruct (wt_status w =? 0)%Z eqn:Hz; simpl; [done|]. by rewrite Hz. }
  cbv zeta beta. cbn [wt_header wt_status wt_pending wt_sawStream wt_nonStream wt_deltas]. rewrite Hid.
  cbn [wt_header wt_status wt_pending wt_sawStream wt_nonStream wt_deltas].
  match goal with |- context [is_event_stream ?x] => assert (is_event_stream x = true) as -> end.
  { specialize (Hset StatusOK w He). exact Hset. }
  destruct (split_lines (rest +:+ t)) as [lines' rest'] eqn:Hr. cbn [fst snd].
  by rewrite fmap_app, bind_join_app, (assoc_L (++)).
Qed.

Definition texts (l : list string) : string := foldr String.append "" l.

Lemma told_app l l' : texts (l ++ l') = texts l +:+ texts l'.
Proof. induction l as [|x l IH]; simpl; [done|]. by rewrite IH, str_app_assoc. Qed.

(** The writer of a stream, once its headers are set. *)
Definition stream_writer : wsChatWriter := foldl (λ w a, chat_act a w) newWSChatWriter stream_headers.

Lemma pieces_together pieces w :
  is_event_stream w = true → pieces ≠ [] →
  foldl (λ w a, chat_act a w) w (AWrite <$> pieces) = chat_Write (texts pieces) w.
Proof.
  revert w. induction pieces as [|p pieces IH]; intros w He Hne; [done|]. simpl.
  destruct pieces as [|q pieces]; [by rewrite str_app_nil_r|]. rewrite IH; [by rewrite chat_Write_app| |done].
  unfold chat_Write. replace (is_event_stream (set_status StatusOK w)) with true
    by (unfold set_status; by destruct (_ =? _)%Z).
  destruct (drainSSELines _). unfold set_status. by destruct (_ =? _)%Z.
Qed.

(** ** The stream of the Responses adapter *)

(** The bytes of the frames. *)
Definition frame_bytes (f : frame) : string :=
  match f with
  | FChunk j => "data: " +:+ default "" (json_marshal j) +:+ newline +:+ newline
  | FRaw data => "data: " +:+ data +:+ newline +:+ newline
  | FDone => "data: [DONE]" +:+ newline +:+ newline
  | FFlush => ""
  end.

(** The text of a chunk: on one line, and read back as the chunk. *)
Definition well_encoded (f : frame) : Prop :=
  match f with
  | FChunk j => ∃ s, json_marshal j = Some s ∧ json_unmarshal s = Some j ∧ s ≠ "" ∧ s ≠ "[DONE]"
      ∧ str_all (λ c, negb (Ascii.eqb c "010" || Ascii.eqb c "013")) s = true
  | _ => True
  end.

(** A chunk of which the writer reads the text a client of the stream collects. *)
Definition readable (f : frame) : Prop :=
  match f with
  | FChunk j => unmarshal [] (d_texts "delta") j = Some [frame_text f]
  | FRaw _ => False
  | _ => True
  end.

Lemma trim_cr_id s : str_all (λ c, negb (Ascii.eqb c "010" || Ascii.eqb c "013")) s = true → trim_cr s = s.
Proof.
  intros Hs. unfold trim_cr. rewrite <-(str_rev_involutive s) at 2. f_equal.
  assert (Hr : str_all (λ c, negb (Ascii.eqb c "010" || Ascii.eqb c "013")) (str_rev s) = true).
  { clear -Hs. induction s as [|c s IH]; [done|]. simpl in Hs. apply andb_true_iff in Hs as [Hc Hs].
    change (String c s) with (String c "" +:+ s). rewrite str_rev_app, str_all_app, (IH Hs). simpl. by rewrite Hc. }
  destruct (str_rev s) as [|c r]; [done|]. simpl in *. apply andb_true_iff in Hr as [Hr _].
  apply negb_true_iff, orb_false_iff in Hr as [_ Hr]. by rewrite Hr.
Qed.

Lemma split_lines_line s rest :
  str_all (λ c, negb (Ascii.eqb c "010" || Ascii.eqb c "013")) s = true →
  split_lines (s +:+ newline +:+ rest) = (s :: (split_lines rest).1, (split_lines rest).2).
Proof.
  induction s as [|c s IH].
  - intros _. simpl. by destruct (split_lines rest).
  - cbn [String.append split_lines str_all]. intros [Hc Hs]%andb_true_iff. rewrite (IH Hs). apply negb_true_iff, orb_false_iff in Hc as [Hc _]. by rewrite Hc.
Qed.

(** One line of data, and the blank line behind it. *)
Lemma data_line s rest :
  str_all (λ c, negb (Ascii.eqb c "010" || Ascii.eqb c "013")) s = true →
  drainSSELines ("data: " +:+ s +:+ newline +:+ newline +:+ rest)
  = ((drainSSELines rest).1, handleSSELine ("data: " +:+ s) ++ (drainSSELines rest).2).
Proof.
  intros Hs. assert (Hd : str_all (λ c, negb (Ascii.eqb c "010" || Ascii.eqb c "013")) ("data: " +:+ s) = true) by by rewrite str_all_app, Hs.
  unfold drainSSELines. change newline with ("" +:+ newline) at 2.
  rewrite <-(str_app_assoc "data: " s), (split_lines_line _ _ Hd), !str_app_assoc, (split_lines_line "" rest) by done.
  destruct (split_lines rest) as [lines r]. cbn [fst snd]. rewrite !fmap_cons. cbn [mjoin list_join].
  by rewrite (trim_cr_id _ Hd).
Qed.

Lemma TrimPrefix_app p s : TrimPrefix (p +:+ s) p = s.
Proof. unfold TrimPrefix. by rewrite strip_prefix_app. Qed.

Lemma handle_data s :
  handleSSELine ("data: " +:+ s)
  = if String.eqb s "" || String.eqb s "[DONE]" then []
    else match json_unmarshal s ≫= unmarshal [] (d_texts "delta") with Some l => List.filter not_empty l | None => [] end.
Proof.
  unfold handleSSELine. rewrite TrimPrefix_app.
  destruct (String.eqb_spec s ("data: " +:+ s)) as [E|_]; [|done].
  apply (f_equal String.length) in E. rewrite str_length_app in E. simpl in E. lia.
Qed.

(** A frame's bytes give its text, whatever follows. *)
Lemma frame_is_read f rest :
  readable f → well_encoded f →
  ∃ l, drainSSELines (frame_bytes f +:+ rest) = ((drainSSELines rest).1, l ++ (drainSSELines rest).2) ∧ texts l = frame_text f.
Proof.
  destruct f as [j|data| |]; cbn [readable well_encoded frame_bytes]; intros Hr Hw; [|done|..].
  - destruct Hw as (s & Hm & Hu & Hne & Hnd & Hs). rewrite Hm. cbn [default from_option id].
    rewrite !str_app_assoc, data_line, handle_data by done.
    rewrite (proj2 (String.eqb_neq _ _) Hne), (proj2 (String.eqb_neq _ _) Hnd), Hu. cbn [orb mbind option_bind].
    rewrite Hr. eexists. split; [done|]. cbn [List.filter]. unfold not_empty.
    destruct (String.eqb_spec (frame_text (FChunk j)) "") as [->|_]; [done|]. simpl. by rewrite str_app_nil_r.
  - rewrite !str_app_assoc. exists []. split; [|done]. change ("data: [DONE]" +:+ newline +:+ newline +:+ rest) with
      ("data: " +:+ "[DONE]" +:+ newline +:+ newline +:+ rest).
    by rewrite data_line, handle_data.
  - exists []. split; [|done]. cbn [String.append app]. by destruct (drainSSELines rest).
Qed.

Lemma frames_are_read fs :
  Forall readable fs → Forall well_encoded fs →
  (drainSSELines (texts (frame_bytes <$> fs))).1 = "" ∧ texts (drainSSELines (texts (frame_bytes <$> fs))).2 = frames_text fs.
Proof.
  induction fs as [|f fs IH]; [done|]. intros [Hr Hrs]%Forall_cons [Hw Hws]%Forall_cons.
  destruct (IH Hrs Hws) as [H1 H2]. cbn [fmap list_fmap texts foldr frames_text].
  destruct (frame_is_read f (texts (frame_bytes <$> fs)) Hr Hw) as (l & Hl & Ht).
  change (foldr String.append "" (frame_bytes <$> fs)) with (texts (frame_bytes <$> fs)). rewrite Hl. cbn [fst snd].
  split; [done|]. by rewrite told_app, Ht, H2.
Qed.

(** *** The adapter's frames *)

Definition finish_json (r : option string) : json := match r with Some r => JStr r | None => JNull end.

(** The members of a chunk in the order of the encoder. *)
Definition chunk_tree (id model : string) (created : Z) (delta : json) (r : option string) (u : list (string * json)) : json :=
  JObj ([("choices", JArr [JObj [("delta", delta); ("finish_reason", finish_json r); ("index", of_int 0)]]);
         ("created", of_int created); ("id", JStr id); ("model", JStr model); ("object", JStr "chat.completion.chunk")] ++ u).

Lemma chunk_trees id model created d r u :
  chatChunk id model created d r = chunk_tree id model created d r [] ∧
  chatChunkFinish id model created r u
  = chunk_tree id model created (JObj []) r (match u with Some u => [("usage", u)] | None => [] end).
Proof. split; [reflexivity|]. by destruct u. Qed.

(** What any decoder makes of the delta of a chunk. *)
Lemma chunk_choice (D : decoder string) id' model created d r u :
  u = [] ∨ (∃ x, u = [("usage", x)]) →
  d_struct [fld "choices" id (λ x _, x) (d_list "" (d_struct [fld "delta" id (λ x _, x) D]))] (chunk_tree id' model created d r u) []
  = (λ t, [t]) <$> D d "".
Proof. intros [->|[x ->]]; destruct (D d "") eqn:E; cbn; by rewrite E. Qed.

Lemma finish_readable id model created r u : readable (FChunk (chatChunkFinish id model created (Some r) u)).
Proof.
  unfold readable, unmarshal. rewrite frame_text_finish. destruct (chunk_trees id model created JNull (Some r) u) as [_ ->].
  unfold d_texts, d_choice_text. rewrite chunk_choice; [done|]. destruct u; [right; by eexists|by left].
Qed.

Lemma chunk_readable s d :
  unmarshal "" (d_struct [fld "content" id (λ x _, x) d_string]) d = Some (text_member "content" d) → readable (chunk_of s d).
Proof.
  intros Hd. unfold readable, chunk_of. change (frame_text (FChunk _)) with (frame_text (chunk_of s d)). rewrite frame_text_chunk.
  unfold unmarshal in *. destruct (chunk_trees (sm_chatID s) (sm_model s) (sm_created s) d None None) as [-> _].
  unfold d_texts, d_choice_text. rewrite chunk_choice; [|by left]. by rewrite Hd.
Qed.

Lemma data_readable parse includeUsage data s s' fs out :
  stream_data parse includeUsage data s = (s', fs, out) → (∀ e, out ≠ Some (Some e)) → Forall readable fs.
Proof.
  unfold stream_data. set (type := sm_eventType s). intros Hrun Hout. revert Hrun.
  destruct (String.eqb type "response.created"); [intros [= _ <- _]; constructor|].
  destruct (String.eqb type "response.output_text.delta").
  { destruct (_ ≫= _) as [delta|]; intros [= _ <- _]; [|constructor].
    destruct (sm_sentRole s); repeat constructor; by apply chunk_readable. }
  destruct (String.eqb type "response.output_item.added").
  { destruct (_ ≫= _) as [i|]; [destruct (String.eqb (it_Type i) "function_call")|]; intros [= _ <- _]; [|constructor..].
    repeat constructor. apply chunk_readable. by destruct (sm_sentRole s). }
  destruct (String.eqb type "response.function_call_arguments.delta").
  { destruct (_ ≫= _) as [a|]; intros [= _ <- _]; [|constructor]. unfold arguments_added.
    destruct (_ !! _); [|constructor]. by repeat constructor. }
  destruct (String.eqb type "response.completed").
  { intros [= _ <- _]. unfold completed. repeat constructor. apply finish_readable. }
  case_decide; [|intros [= _ <- _]; constructor]. intros [= _ _ <-]. by destruct (Hout (UpstreamFailure type)).
Qed.

Lemma loop_readable parse includeUsage lines s s' fs out :
  stream_loop parse includeUsage lines s = (s', fs, out) → (∀ e, out ≠ Some (Some e)) → Forall readable fs.
Proof.
  revert s s' fs out. induction lines as [|line lines IH]; intros s s' fs out; cbn [stream_loop].
  { intros [= _ <- _] _. constructor. }
  destruct (stream_line parse includeUsage line s) as [[s1 fs1] out1] eqn:Hline.
  assert ((∀ e, out1 ≠ Some (Some e)) → Forall readable fs1) as H1.
  { unfold stream_line in Hline. destruct (HasPrefix line "event: "); [injection Hline as _ <- _; constructor|].
    destruct (HasPrefix line "data: "); [by eapply data_readable|]. injection Hline as _ <- _. constructor. }
  destruct out1 as [o|]; [by intros [= _ <- <-]|].
  destruct (stream_loop parse includeUsage lines s1) as [[s2 fs2] out2] eqn:Hl. intros [= _ <- <-] Hout.
  apply Forall_app. split; [by apply H1|]. by eapply IH.
Qed.

(** C32. What a chat client reads of a streamed answer is what upstream said: when the
    adapter's stream ends well, the pieces of text that the chat sends are, put
    together, the text of the upstream stream, in whatever writes the bytes arrive. *)
Theorem chat_reads_what_upstream_streams parse chatID created includeUsage b fs pieces
    (Hstream : streamResponsesAsChat parse chatID created includeUsage b = (fs, None))
    (Hencoded : Forall well_encoded fs) (Hpieces : texts pieces = texts (frame_bytes <$> fs)) :
  let w := foldl (λ w a, chat_act a w) stream_writer (AWrite <$> pieces) in
  texts (wt_deltas w ++ Finish w) = upstream_text parse b ∧ wt_pending w = "" ∧ StatusCode w = StatusOK.
Proof.
  destruct (streamResponsesAsChat_spec _ _ _ _ _ _ _ Hstream) as [Htext _].
  assert (Forall readable fs) as Hread.
  { unfold streamResponsesAsChat in Hstream. destruct (scan b) as [lines scanErr].
    destruct (stream_loop _ _ lines _) as [[s fs'] out] eqn:Hl. injection Hstream as -> Hout.
    eapply loop_readable; [exact Hl|]. intros e ->. done. }
  destruct (frames_are_read fs Hread Hencoded) as [H1 H2]. rewrite Htext in H2.
  assert (is_event_stream stream_writer = true) as He by (vm_compute; reflexivity).
  cbv zeta. destruct pieces as [|p pieces].
  - simpl in Hpieces. rewrite <-Hpieces in H2. simpl in H2. rewrite <-H2. by split_and!.
  - rewrite pieces_together, Hpieces by done. unfold chat_Write.
    replace (set_status StatusOK stream_writer) with stream_writer by done. rewrite He.
    change (wt_pending stream_writer) with "". cbn [String.append].
    destruct (drainSSELines (texts (frame_bytes <$> fs))) as [rest l]. cbn [fst snd] in *.
    unfold Finish. cbn [wt_sawStream orb wt_deltas wt_pending]. rewrite app_nil_r. by split_and!.
Qed.

End writer.

(** ** Examples *)

Module ExampleChat.
#[local] Instance texts_json : JSON := {
  json_unmarshal s := if String.eqb s "{hello}" then Some (JObj [("choices", JArr [JObj [("delta", JObj [("content", JStr "hello")])]])]) else None;
  json_marshal j := Some "{hello}";
  json_string_field _ _ := None;
  json_int_fields _ _ := None;
}.

Definition line_end : string := newline.
Definition streamed (data : string) : wsChatWriter := chat_Write data stream_writer.

(** The last line counts only with its line feed. *)
Example unfinished_line_is_lost :
  wt_deltas (streamed ("data: {hello}" +:+ line_end +:+ "data: {hello}")) = ["hello"]
  ∧ Finish (streamed ("data: {hello}" +:+ line_end +:+ "data: {hello}")) = [].
Proof. vm_compute. split; reflexivity. Qed.

Example cut_lines :
  wt_deltas (chat_Write ("lo}" +:+ str [13; 10]) (streamed "data: {hel")) = ["hello"].
Proof. vm_compute. reflexivity. Qed.

Definition one_chat_run : list (string * json) :=
  chat_messages true (λ _, ([DRoute "codex" "gpt"; DAct (ASetHeader "Content-Type" "text/event-stream");
    DAct (AWrite ("data: {hello}" +:+ line_end)); DRoute "kilo" "free"], None)) false (mkChatStart "" (Some (JArr []))).

Example chat_of_two_routes :
  fst <$> one_chat_run = ["chat.route"; "chat.delta"; "chat.route"; "chat.done"].
Proof. vm_compute. reflexivity. Qed.

(** *** A stream read through the chat *)

(** A text for each tree, good enough to tell the trees of one stream apart. *)
Fixpoint shown (j : json) : string :=
  match j with
  | JNull => "null"
  | JBool b => if b then "true" else "false"
  | JNum n => n
  | JStr t => "'" +:+ t +:+ "'"
  | JArr l => "[" +:+ foldr (λ j acc, shown j +:+ "," +:+ acc) "]" l
  | JObj l => "{" +:+ foldr (λ kv acc, kv.1 +:+ ":" +:+ shown kv.2 +:+ "," +:+ acc) "}" l
  end.

Definition hello_frames : list frame := fst (Responses.Example.streamed Responses.Example.hello).
Definition hello_trees : list json := omap (λ f, match f with FChunk j => Some j | _ => None end) hello_frames.

Definition shown_json : JSON := {|
  json_unmarshal s := find (λ j, String.eqb (shown j) s) hello_trees;
  json_marshal j := Some (shown j);
  json_string_field _ _ := None;
  json_int_fields _ _ := None;
|}.

(** The bytes of the stream, cut in two in the middle of a line. *)
Definition hello_pieces : list string :=
  let bytes := texts (@frame_bytes shown_json <$> hello_frames) in
  [String.substring 0 300 bytes; String.substring 300 (String.length bytes - 300) bytes].

Lemma chat_reads_what_upstream_streams_witness :
  let w := foldl (λ w a, @chat_act shown_json a w) stream_writer (AWrite <$> hello_pieces) in
  texts (wt_deltas w ++ @Finish shown_json w) = upstream_text Responses.Example.parse Responses.Example.hello
  ∧ upstream_text Responses.Example.parse Responses.Example.hello = "hello" ∧ length (wt_deltas w) = 2.
Proof.
  split; [|vm_compute; split; reflexivity].
  apply (@chat_reads_what_upstream_streams shown_json Responses.Example.parse "chatcmpl-1" 1700 true
    Responses.Example.hello hello_frames hello_pieces).
  - vm_compute. reflexivity.
  - repeat constructor; try exact I; (eexists; split; [reflexivity|]; split; [vm_compute; reflexivity|]; split; [vm_compute; discriminate|]; split; [vm_compute; discriminate|vm_compute; reflexivity]).
  - vm_compute. reflexivity.
Defined.

End ExampleChat.
