(* ===== verification/ReadModel.v ===== *)
(** * The read model of the control API

    [src/control_read_model.go]: what the control API and the WebSocket tell about
    providers, accounts, model catalogs, the configuration, operations, routing and
    the daemon's state.  The components it reads are arguments ([None] where the code
    finds nil or, for [lease], where the runtime gives none); a lease is given by the
    router and the registry of its snapshot, whose cooldowns and metrics a read of the
    availability brings up to date. *)

From S2P Require Import Prelude GoStd Provider Config Availability Cooldown Routing Telemetry Operation OperationManager ProviderManager Catalog Secrets Writers Failover GoJson Control Credentials State.

#[local] Set Default Proof Using "Type".

(** ** Resources *)

(* src/internal/control/read_resources.go CredentialMetadata *)
Record CredentialMetadata := mkCredential { cm_Configured : bool; cm_Source : string; cm_Refreshable : bool }.

(* src/internal/control/read_resources.go ProviderResource *)
Record ProviderResource := mkProviderResource {
  pv_Descriptor : Descriptor.t; pv_Enabled : bool; pv_EffectiveCapabilities : list string;
  pv_Health : HealthRegistry.HealthRecord; pv_Generation : Z;
}.

(* src/internal/control/read_resources.go AccountResource *)
Record AccountResource := mkAccountResource {
  av_ProviderID : string; av_ID : string; av_Label : string; av_Enabled : bool; av_Priority : Z;
  av_Credential : CredentialMetadata;
}.

(* src/internal/control/read_resources.go ModelResource *)
Record ModelResource := mkModelResource {
  mv_ID : string; mv_UpstreamID : string; mv_ProviderID : string; mv_Available : bool; mv_OwnedBy : string;
  mv_Endpoints : list string;
}.

(* src/internal/control/read_resources.go ProviderCatalog *)
Record ProviderCatalog := mkProviderCatalog {
  pc_ProviderID : string; pc_Enabled : bool; pc_Available : bool; pc_Models : list ModelResource; pc_FetchedAt : Time;
  pc_LastAttemptAt : Time; pc_AgeSeconds : Z; pc_Stale : bool; pc_LastRefreshError : string;
}.

(* src/internal/control/read_resources.go ConfigResource *)
Record ConfigResource := mkConfigResource {
  cv_Revision : Z; cv_Digest : string; cv_EffectiveDigest : string; cv_RestartRequired : list string;
  cv_Desired : Config; cv_Effective : Config;
}.

Inductive read_error :=
| ProviderManagerUnavailable | RuntimeUnavailable | RuntimeClosed | ConfigurationUnavailable | OperationManagerUnavailable.

(** ** Catalogs

    A record per provider, under a lock of their own; a missing record reads as the
    zero one.  The copies that [cloneControlModels] makes keep callers apart, so lists
    of models are values. *)

(* src/src/control_read_model.go controlCatalogRecord *)
Record controlCatalogRecord := mkCatalogRecord {
  rc_models : list ModelResource; rc_fetchedAt : Time; rc_lastAttemptAt : Time; rc_lastError : string;
}.

Definition no_record : controlCatalogRecord := mkCatalogRecord [] zeroTime zeroTime "".

(* src/src/control_read_model.go controlCatalogStore *)
Definition controlCatalogStore : Type := gmap string controlCatalogRecord.

Definition catalog_record (id : string) (store : controlCatalogStore) : controlCatalogRecord := default no_record ((store : gmap string controlCatalogRecord) !! id).

(* src/src/control_read_model.go controlCatalogStore.store *)
Definition catalog_store (now : Time) (id : string) (models : list ModelResource) (store : controlCatalogStore)
    : controlCatalogStore :=
  <[id := mkCatalogRecord models now now ""]> store.

(* src/src/control_read_model.go controlCatalogStore.markError *)
Definition catalog_markError (now : Time) (id : string) (store : controlCatalogStore) : controlCatalogStore :=
  let record := catalog_record id store in
  <[id := mkCatalogRecord (rc_models record) (rc_fetchedAt record) now "catalog_refresh_failed"]> store.

Definition set_Available (available : bool) (m : ModelResource) : ModelResource :=
  mkModelResource (mv_ID m) (mv_UpstreamID m) (mv_ProviderID m) available (mv_OwnedBy m) (mv_Endpoints m).

(** Whole seconds; the float the code truncates differs only in the last nanoseconds
    of spans of months. *)
Definition seconds_of (d : Duration) : Z := Z.quot d Second.

Definition status_available (status : ProviderStatus) : bool :=
  st_Enabled status && negb (bool_decide (HealthRegistry.hr_State (st_Health status) = HealthRegistry.StateError))
  && negb (bool_decide (HealthRegistry.hr_State (st_Health status) = HealthRegistry.StateDisabled)).

(** [now] is read only for a record that has been fetched. *)
(* src/src/control_read_model.go controlCatalogStore.resource *)
(* src/src/control_read_model.go cloneControlModels *)
Definition catalog_resource (now : Time) (status : ProviderStatus) (store : controlCatalogStore) : ProviderCatalog :=
  let id := Descriptor.d_ID (st_Descriptor status) in
  let record := catalog_record id store in
  let available := status_available status in
  let age := if IsZero (rc_fetchedAt record) then 0%Z else Z.max 0 (seconds_of (now - rc_fetchedAt record)) in
  mkProviderCatalog id (st_Enabled status) available (set_Available available <$> rc_models record)
    (rc_fetchedAt record) (rc_lastAttemptAt record) age
    (negb (String.eqb (rc_lastError record) "")
     || (negb (IsZero (rc_fetchedAt record)) && (seconds_of ModelCache.defaultModelCacheTTL <? age)%Z))
    (rc_lastError record).

Definition model_resource (id : string) (m : Model) : ModelResource :=
  mkModelResource (AddModelPrefix id (m_ID m)) (m_ID m) id true (ProviderOwnedBy id) (m_SupportedEndpoints m).

(** One provider of the list: what [ListModels] answers ([Err] for an error, [Ok None]
    for a nil list), and the instants of the update and of the report. *)
Record listing := mkListing { li_answer : result (option ModelList) unit; li_updated : Time; li_reported : Time }.

Definition listed_models (id : string) (l : option ModelList) : list ModelResource :=
  match l with Some l => model_resource id <$> ml_Data l | None => [] end.

(* src/src/control_read_model.go:236-265 controlReadModel.Models *)
Definition refresh_catalog (registered : bool) (l : listing) (status : ProviderStatus) (store : controlCatalogStore)
    : controlCatalogStore :=
  let id := Descriptor.d_ID (st_Descriptor status) in
  if st_Enabled status && registered
  then match li_answer l with
       | Err _ => catalog_markError (li_updated l) id store
       | Ok models => catalog_store (li_updated l) id (listed_models id models) store
       end
  else store.

(** [active] are the identifiers of the snapshot's registry; with [refresh] the
    caches are invalidated before [answers] are asked for. *)
Fixpoint catalogs_loop (active : list string) (answers : string → listing) (statuses : list ProviderStatus)
    (store : controlCatalogStore) : controlCatalogStore * list ProviderCatalog :=
  match statuses with
  | [] => (store, [])
  | status :: statuses =>
    let id := Descriptor.d_ID (st_Descriptor status) in
    let store := refresh_catalog (bool_decide (id ∈ active)) (answers id) status store in
    let catalog := catalog_resource (li_reported (answers id)) status store in
    let '(store, catalogs) := catalogs_loop active answers statuses store in
    (store, catalog :: catalogs)
  end.

(* src/src/control_read_model.go controlReadModel.Models *)
Definition Models (statuses : option (list ProviderStatus)) (lease : option Registry.t) (refresh : bool)
    (answers : bool → string → listing) (store : controlCatalogStore)
    : controlCatalogStore * result (list ProviderCatalog) read_error :=
  match statuses, lease with
  | None, _ => (store, Err RuntimeUnavailable)
  | _, None => (store, Err RuntimeClosed)
  | Some statuses, Some registry =>
    let active := omap (fmap p_ID) (Registry.All registry) in
    let '(store, catalogs) := catalogs_loop active (answers refresh) statuses store in (store, Ok catalogs)
  end.

(** ** Credentials *)

(* src/src/config_persistence.go sameAccount *)
Definition sameAccount (sourceID sourceLabel candidateID candidateLabel : string) : bool :=
  if negb (String.eqb sourceID "") && negb (String.eqb candidateID "") then String.eqb sourceID candidateID
  else negb (String.eqb sourceLabel "") && String.eqb sourceLabel candidateLabel.

(* src/src/control_read_model.go storedCredentialMetadata *)
Definition storedCredentialMetadata (store : option MemoryStore) (slot : string) : option CredentialMetadata :=
  store ≫= λ s, store_Metadata slot s ≫= λ md,
  if md_Configured md then Some (mkCredential true (md_Source md) false) else None.

(* src/src/control_read_model.go secretSource *)
Definition secretSource (reference : option SecretReference) : string :=
  match reference with
  | None => "unconfigured"
  | Some r => if String.eqb (TrimSpace (sr_Source r)) "" then "secret_store" else "secret_store:" +:+ TrimSpace (sr_Source r)
  end.

(* src/src/control_read_model.go credentialSource *)
Definition credentialSource (configured : bool) (references : list (option SecretReference)) : string :=
  match find_index id references with
  | Some (_, r) => secretSource (Some r)
  | None => if configured then "legacy_config" else "unconfigured"
  end.

Definition filled (s : string) : bool := negb (String.eqb s "").
Definition present (r : option SecretReference) : bool := bool_decide (is_Some r).

Definition with_refreshable (refreshable : bool) (c : CredentialMetadata) : CredentialMetadata :=
  mkCredential (cm_Configured c) (cm_Source c) refreshable.

Definition stored_with_refresh (store : option MemoryStore) (slot refresh : string) : option CredentialMetadata :=
  with_refreshable (bool_decide (is_Some (storedCredentialMetadata store refresh))) <$> storedCredentialMetadata store slot.

(** The credential an account of the configuration has of its own. *)
Definition copilot_auth (config : Config) (accountID label : string) : CopilotAuthState :=
  let p := pr_Copilot (cfg_Providers config) in
  match find (λ a, sameAccount accountID label (cpa_ID a) (cpa_Label a)) (elems (cp_Accounts p)) with
  | Some a => cpa_Auth a
  | None => cp_Auth p
  end.

Definition codex_auth (config : Config) (accountID label : string) : CodexAuthState :=
  let p := pr_Codex (cfg_Providers config) in
  match find (λ a, sameAccount accountID label (cxa_ID a) (cxa_Label a)) (elems (cx_Accounts p)) with
  | Some a => cxa_Auth a
  | None => cx_Auth p
  end.

Definition configured_copilot (auth : CopilotAuthState) : CredentialMetadata :=
  let configured := filled (ca_GitHubToken auth) || filled (ca_CopilotToken auth)
    || present (ca_GitHubTokenRef auth) || present (ca_CopilotTokenRef auth) in
  mkCredential configured (credentialSource configured [ca_GitHubTokenRef auth; ca_CopilotTokenRef auth])
    (filled (ca_GitHubToken auth) || present (ca_GitHubTokenRef auth)).

(** [env] is whether the environment variable of the key is not blank. *)
Definition configured_codex (env : bool) (auth : CodexAuthState) : CredentialMetadata :=
  let configured := filled (xa_APIKey auth) || filled (xa_AccessToken auth) || filled (xa_RefreshToken auth)
    || present (xa_APIKeyRef auth) || present (xa_AccessTokenRef auth) || present (xa_RefreshTokenRef auth) || env in
  let source := credentialSource configured [xa_APIKeyRef auth; xa_AccessTokenRef auth; xa_RefreshTokenRef auth] in
  let source := if String.eqb source "legacy_config" && negb (filled (xa_APIKey auth)) && negb (filled (xa_AccessToken auth))
                   && negb (filled (xa_RefreshToken auth)) && env then "environment" else source in
  mkCredential configured source (filled (xa_RefreshToken auth) || present (xa_RefreshTokenRef auth)).

Definition configured_kilo (env : bool) (k : KiloProvider) : CredentialMetadata :=
  let configured := kp_AllowAnonymous k || filled (kp_APIKey k) || present (kp_APIKeyRef k) || env in
  let source :=
    if present (kp_APIKeyRef k) then secretSource (kp_APIKeyRef k)
    else if filled (kp_APIKey k) then "legacy_config"
    else if env then "environment"
    else if negb (kp_AllowAnonymous k) then "unconfigured" else "anonymous" in
  mkCredential configured source false.

(* src/src/control_read_model.go credentialMetadata *)
Definition credentialMetadata (env : string → bool) (config : Config) (providerID accountID label : string)
    (store : option MemoryStore) : CredentialMetadata :=
  if String.eqb providerID Copilot then
    let auth := copilot_auth config accountID label in
    default (configured_copilot auth) (stored_with_refresh store "copilot/token" "copilot/github_token")
  else if String.eqb providerID Codex then
    let auth := codex_auth config accountID label in
    default (configured_codex (env "OPENAI_API_KEY") auth)
      (if Codex.isAPIKeyMode (xa_Mode auth) then storedCredentialMetadata store "codex/api_key"
       else stored_with_refresh store "codex/access_token" "codex/refresh_token")
  else if String.eqb providerID Kilo then
    default (configured_kilo (env "KILO_API_KEY") (pr_Kilo (cfg_Providers config))) (storedCredentialMetadata store "kilo/api_key")
  else mkCredential false "unconfigured" false.

(** ** Providers, accounts, configuration, operations *)

Definition hide_error (h : HealthRegistry.HealthRecord) : HealthRegistry.HealthRecord :=
  let health := HealthRegistry.hr_Health h in
  HealthRegistry.mkRecord (HealthRegistry.hr_ProviderID h) (HealthRegistry.hr_State h)
    (mkHealth (Authenticated health) (CanRefresh health) (if filled (LastError health) then "provider_error" else "")
       (LastRefreshAt health))
    (HealthRegistry.hr_Generation h) (HealthRegistry.hr_UpdatedAt h).

(* src/src/control_read_model.go controlReadModel.Providers *)
Definition read_Providers (statuses : option (list ProviderStatus)) : result (list ProviderResource) read_error :=
  match statuses with
  | None => Err ProviderManagerUnavailable
  | Some statuses =>
    Ok ((λ s, mkProviderResource (st_Descriptor s) (st_Enabled s) (st_EffectiveCapabilities s) (hide_error (st_Health s))
           (st_Generation s)) <$> statuses)
  end.

(** [configuration] is the snapshot of the managed state, when there is one. *)
(* src/src/control_read_model.go controlReadModel.desiredConfig *)
Definition desiredConfig (configuration : option State.Snapshot) : result Config read_error :=
  match configuration with
  | None => Err ConfigurationUnavailable
  | Some s => Ok (Clone (Desired s))
  end.

(* src/src/control_read_model.go controlReadModel.Accounts *)
Definition read_Accounts (env : string → bool) (statuses : option (list ProviderStatus)) (configuration : option State.Snapshot)
    (secrets : option MemoryStore) : result (list AccountResource) read_error :=
  match statuses with
  | None => Err ProviderManagerUnavailable
  | Some statuses =>
    let? config := desiredConfig configuration in
    Ok (statuses ≫= λ s,
      let id := Descriptor.d_ID (st_Descriptor s) in
      (λ a, mkAccountResource id (ac_ID a) (ac_Label a) (ac_Enabled a) (ac_Priority a)
              (credentialMetadata env config id (ac_ID a) (ac_Label a) secrets)) <$> st_Accounts s)
  end.

(* src/src/control_read_model.go controlReadModel.Configuration *)
Definition read_Configuration (configuration : option State.Snapshot) : result ConfigResource read_error :=
  match configuration with
  | None => Err ConfigurationUnavailable
  | Some s => Ok (mkConfigResource (Revision s) (Digest s) (EffectiveDigest s) (State.RestartRequired s)
                    (Redact (Desired s)) (Redact (Effective s)))
  end.

(** The identity of the context; without one it is the zero identity. *)
(* src/src/control_read_model.go controlReadModel.Operations *)
Definition read_Operations (identity : option Identity) (operations : option OperationManager.Manager)
    : result (list Record_) read_error :=
  match operations with
  | None => Err OperationManagerUnavailable
  | Some m =>
    let identity := default (mkIdentity "" "" "") identity in
    Ok (List.filter (λ r, String.eqb (id_Role identity) RoleAdmin || String.eqb (id_Subject identity) (r_Owner r))
          (Operation.List_ (OperationManager.store m)))
  end.

(** The events the provider manager has kept, after a number. *)
(* src/src/control_read_model.go controlReadModel.Events *)
Definition read_Events (bus : option EventBus.t) (after : Z) : list EventBus.LifecycleEvent :=
  match bus with None => [] | Some bus => EventBus.History bus after end.

(** ** The state of the daemon *)

(* src/internal/control/ws_state.go ProviderStateView *)
Record ProviderStateView := mkStateView { sv_Provider : string; sv_State : ProviderDisplayState }.
(* src/internal/control/ws_state.go RoutingTargetView *)
Record RoutingTargetView := mkTargetView { tv_Target : string; tv_Routable : bool; tv_Reason : Reason }.
(* src/internal/control/ws_state.go RoutingStateView *)
Record RoutingStateView := mkRoutingView { rv_VirtualModel : string; rv_SelectedTarget : string; rv_Targets : list RoutingTargetView }.
(* src/internal/control/ws_state.go UsageView *)
Record UsageView := mkUsageView { uv_InputTokens : Z; uv_OutputTokens : Z; uv_TotalTokens : Z; uv_Unavailable : bool }.
(* src/internal/control/ws_state.go TargetCountersView *)
Record TargetCountersView := mkCountersView {
  kv_Provider : string; kv_Model : string; kv_Requests : Z; kv_Successes : Z; kv_Errors : Z; kv_InFlight : Z; kv_Messages : Z;
  kv_LastLatencyMillis : Z; kv_LastErrorCategory : ErrorCategory; kv_Usage : UsageView;
}.
(* src/internal/control/ws_state.go WSStatePayload *)
Record WSStatePayload := mkStatePayload {
  sp_ConfigRevision : Z; sp_Providers : list ProviderStateView; sp_Routing : list RoutingStateView;
  sp_Counters : list TargetCountersView;
}.

Definition counters_view (t : TargetSnapshot) : TargetCountersView :=
  let s := ts_State t in
  mkCountersView (ts_Provider t) (ts_Model t) (requests s) (successes s) (errors s) (inFlight s) (messages s)
    (Z.quot (lastLatency s) 1000000) (lastErrorCategory s)
    (mkUsageView (inputTokens s) (outputTokens s) (totalTokens s) (0 <? unavailableUsageCount s)%Z).

Definition in_flight_by_provider (counters : list TargetSnapshot) : gmap string Z :=
  foldl (λ m t, <[ts_Provider t := wrap_i64 (default 0%Z (m !! ts_Provider t) + inFlight (ts_State t))]> m) ∅ counters.

Definition routing_view (r : VirtualModelReadiness) : RoutingStateView :=
  mkRoutingView (vr_VirtualModel r) (vr_SelectedTarget r)
    ((λ t, mkTargetView (rd_Target t) (rd_Routable t) (rd_Reason t)) <$> vr_Targets r).

(** The providers with a cooled target, from their prefixes. *)
Definition cooled_by_view (v : RoutingStateView) : list string :=
  omap (λ t, if decide (tv_Reason t = ReasonCooldown)
             then match StripModelPrefix (tv_Target t) with (_, providerID, true) => Some providerID | _ => None end
             else None) (rv_Targets v).

Definition provider_state (cooled : list string) (flights : gmap string Z) (s : ProviderStatus) : ProviderStateView :=
  let id := Descriptor.d_ID (st_Descriptor s) in
  let h := st_Health s in
  mkStateView id
    (DeriveProviderState (st_Enabled s) (Authenticated (HealthRegistry.hr_Health h))
       (bool_decide (HealthRegistry.hr_State h = HealthRegistry.StateError)) (bool_decide (id ∈ cooled))
       (default 0%Z (flights !! id))).

Section routing.
Context {Bytes : Type} `{Cooldown.StateCodec Bytes}.

(** Without a lease the state has no routing, and nothing counts as cooled.  [router]
    is the one of the leased snapshot; it is returned with what the read of the
    cooldowns did to it. *)
(* src/src/control_read_model.go controlReadModel.State *)
Definition read_State (configuration : option State.Snapshot) (statuses : option (list ProviderStatus)) (recorder : Recorder)
    (runtime : bool) (lease : option (Router Bytes)) (c : clock) : option (Router Bytes) * result WSStatePayload read_error :=
  match statuses with
  | Some statuses =>
    if negb runtime then (lease, Err RuntimeUnavailable)
    else
      let counters := Telemetry.Snapshot recorder in
      let '(lease, views) :=
        match lease with
        | None => (None, [])
        | Some router =>
          let '(router, snapshot) := AvailabilitySnapshot c router in
          (Some router, routing_view <$> VirtualModelReadinessFor CapabilityChat (Some snapshot) router)
        end in
      (lease, Ok (mkStatePayload (from_option Revision 0%Z configuration)
        (provider_state (views ≫= cooled_by_view) (in_flight_by_provider counters) <$> statuses)
        views (counters_view <$> counters)))
  | None => (lease, Err RuntimeUnavailable)
  end.

(* src/internal/control/routing_resources.go RoutingStatusResource *)
Record RoutingStatusResource := mkRoutingStatus {
  rs_PublicID : string; rs_ConfigRevision : Z; rs_Generation : Z; rs_Capabilities : list VirtualModelReadiness;
  rs_Counters : list Counter;
}.

(* src/src/control_read_model.go controlReadModel.RoutingStatus *)
Definition read_RoutingStatus (configuration : option State.Snapshot) (runtime : bool) (lease : option (Router Bytes)) (c : clock)
    (publicID : string) : option (Router Bytes) * result (option RoutingStatusResource) read_error :=
  if negb runtime then (lease, Err RuntimeUnavailable)
  else match lease with
  | None => (None, Err RuntimeClosed)
  | Some router =>
    let '(router, snapshot) := AvailabilitySnapshot c router in
    let capabilities := [CapabilityChat; CapabilityResponses; CapabilityEmbeddings] ≫= λ capability,
      List.filter (λ r, String.eqb (vr_VirtualModel r) publicID) (VirtualModelReadinessFor capability (Some snapshot) router) in
    (Some router,
     Ok (match capabilities with
         | [] => None
         | _ => Some (mkRoutingStatus publicID (from_option Revision 0%Z configuration) (s_generation snapshot) capabilities
                        (Metrics_Snapshot (metrics router)))
         end))
  end.

End routing.

(** ** Catalogs keep the last good list *)

(** The two critical sections that change the store, from any number of callers. *)
Inductive catalog_op := CatalogOk (now : Time) (id : string) (models : list ModelResource) | CatalogFailed (now : Time) (id : string).

Definition catalog_step (store : controlCatalogStore) (o : catalog_op) : controlCatalogStore :=
  match o with
  | CatalogOk now id models => catalog_store now id models store
  | CatalogFailed now id => catalog_markError now id store
  end.

Definition op_id (o : catalog_op) : string := match o with CatalogOk _ id _ | CatalogFailed _ id => id end.
Definition op_now (o : catalog_op) : Time := match o with CatalogOk now _ _ | CatalogFailed now _ => now end.
Definition op_good (o : catalog_op) : option (Time * list ModelResource) :=
  match o with CatalogOk now _ models => Some (now, models) | CatalogFailed _ _ => None end.

(** What happened to one provider, and the last good list among it. *)
Definition history_of (id : string) (l : list catalog_op) : list catalog_op := filter (λ o, op_id o = id) l.
Definition last_good (l : list catalog_op) : option (Time * list ModelResource) := last (omap op_good l).
Definition last_failed (l : list catalog_op) : bool :=
  match last l with Some (CatalogFailed _ _) => true | _ => false end.

Lemma record_eq id r (store : gmap string controlCatalogRecord) : catalog_record id (<[id := r]> store) = r.
Proof. unfold catalog_record. by rewrite lookup_insert_eq. Qed.

Lemma record_ne id id' r (store : gmap string controlCatalogRecord) :
  id' ≠ id → catalog_record id (<[id' := r]> store) = catalog_record id store.
Proof. intros Hne. unfold catalog_record. by rewrite lookup_insert_ne. Qed.

Lemma catalog_record_history id l :
  catalog_record id (foldl catalog_step ∅ l)
  = mkCatalogRecord (default [] (snd <$> last_good (history_of id l))) (default zeroTime (fst <$> last_good (history_of id l)))
      (default zeroTime (op_now <$> last (history_of id l)))
      (if last_failed (history_of id l) then "catalog_refresh_failed" else "").
Proof.
  induction l as [|o l IH] using rev_ind; [done|]. rewrite foldl_snoc. unfold history_of in *. rewrite filter_app, filter_cons, filter_nil.
  destruct (decide (op_id o = id)) as [<-|Hne].
  - unfold last_good, last_failed in *. rewrite omap_app, last_snoc.
    destruct o as [now id models|now id]; cbn [op_id op_good op_now catalog_step omap list_omap] in *.
    + rewrite last_snoc. unfold catalog_store. by rewrite record_eq.
    + rewrite app_nil_r. unfold catalog_markError. by rewrite record_eq, IH.
  - rewrite app_nil_r, <-IH. destruct o as [now id' models|now id']; cbn [op_id catalog_step] in *;
      unfold catalog_markError, catalog_store; by rewrite record_ne.
Qed.

(** Whatever callers refresh the catalogs, in whatever order their updates come, the
    catalog of a provider lists the models of the last successful refresh, with its
    instant, marked available only while the provider is enabled, healthy and not
    disabled; it names an error exactly when the last refresh failed, and is stale then
    or when the list is older than ten minutes. *)
Theorem catalogs_keep_the_last_good_list l now status :
  let id := Descriptor.d_ID (st_Descriptor status) in
  let h := history_of id l in
  let r := catalog_resource now status (foldl catalog_step ∅ l) in
  pc_Models r = set_Available (status_available status) <$> default [] (snd <$> last_good h)
  ∧ pc_FetchedAt r = default zeroTime (fst <$> last_good h)
  ∧ (pc_LastRefreshError r ≠ "" ↔ last_failed h = true)
  ∧ (pc_Stale r = true ↔ last_failed h = true
      ∨ ∃ fetched models, last_good h = Some (fetched, models) ∧ fetched ≠ zeroTime
          ∧ (seconds_of ModelCache.defaultModelCacheTTL < seconds_of (now - fetched))%Z).
Proof.
  cbv zeta. unfold catalog_resource. rewrite catalog_record_history.
  cbn [pc_Models pc_FetchedAt pc_LastRefreshError pc_Stale rc_models rc_fetchedAt rc_lastAttemptAt rc_lastError].
  split_and!; [done|done|by destruct (last_failed _)|]. rewrite orb_true_iff, andb_true_iff, !negb_true_iff.
  set (h := history_of _ l). assert (0 ≤ seconds_of ModelCache.defaultModelCacheTTL)%Z as Httl by (vm_compute; discriminate).
  set (ttl := seconds_of ModelCache.defaultModelCacheTTL) in *. clearbody ttl.
  destruct (last_failed h); [split; [by left|by left]|]. rewrite String.eqb_refl.
  destruct (last_good h) as [[fetched models]|]; simpl.
  - unfold IsZero, zeroTime. destruct (Z.eqb_spec fetched 0) as [->|Hz].
    + split; [naive_solver|]. intros [?|(? & ? & ? & ? & _)]; naive_solver.
    + rewrite Z.ltb_lt. split; [intros [?|[_ H]]; [done|]|intros [?|(? & ? & [= <- <-] & _ & H)]; [done|]]; right.
      * eexists _, _. split_and!; [done..|]. lia.
      * split; [done|]. lia.
  - split; [naive_solver|]. intros [?|(? & ? & ? & _)]; done.
Qed.

(** ** Nothing read tells a secret *)

Definition map_entry (f : string → string) (e : entry) : entry :=
  mkEntry (f (en_value e)) (en_source e) (en_readOnly e) (en_version e) (en_updatedAt e).
Definition map_values (f : string → string) (s : MemoryStore) : MemoryStore :=
  mkStore (map_entry f <$> entries s) (persists s) (file s).
Definition map_configuration (f : string → string) (s : State.Snapshot) : State.Snapshot :=
  State.mkSnapshot (State.SchemaVersion s) (Revision s) (Digest s) (EffectiveDigest s) (State.UpdatedAt s) (Actor s)
    (map_secrets f (Desired s)) (map_secrets f (Effective s)) (State.RestartRequired s).

(** A change of secrets that tells only empty ones from others. *)
Definition hides (f : string → string) : Prop := ∀ s, filled (f s) = filled s.

Lemma stored_map f store slot : hides f → storedCredentialMetadata (map_values f <$> store) slot = storedCredentialMetadata store slot.
Proof.
  intros Hf. unfold storedCredentialMetadata. destruct store as [s|]; [|done]. simpl. unfold store_Metadata. simpl.
  rewrite lookup_fmap. destruct (entries s !! slot) as [e|]; [|done]. simpl. unfold metadata_of; simpl.
  specialize (Hf (en_value e)). unfold filled in Hf. by rewrite Hf.
Qed.

Lemma refreshed_map f store slot slot' : hides f →
  stored_with_refresh (map_values f <$> store) slot slot' = stored_with_refresh store slot slot'.
Proof. intros Hf. unfold stored_with_refresh. by rewrite !stored_map. Qed.

Lemma find_map {A} (p : A → bool) (g : A → A) l : (∀ x, p (g x) = p x) → find p (g <$> l) = g <$> find p l.
Proof. intros Hg. induction l as [|x l IH]; [done|]. simpl. rewrite Hg. by destruct (p x). Qed.

Lemma copilot_auth_map f config id label :
  copilot_auth (map_secrets f config) id label = map_copilot_secrets f (copilot_auth config id label).
Proof.
  unfold copilot_auth. cbn [map_secrets cfg_Providers pr_Copilot cp_Accounts cp_Auth].
  replace (elems (fmap (M:=list) (map_copilot_account f) <$> cp_Accounts (pr_Copilot (cfg_Providers config))))
    with (map_copilot_account f <$> elems (cp_Accounts (pr_Copilot (cfg_Providers config))))
    by (by destruct (cp_Accounts (pr_Copilot (cfg_Providers config)))).
  rewrite find_map by done. by destruct (find _ _).
Qed.

Lemma codex_auth_map f config id label :
  codex_auth (map_secrets f config) id label = map_codex_secrets f (codex_auth config id label).
Proof.
  unfold codex_auth. cbn [map_secrets cfg_Providers pr_Codex cx_Accounts cx_Auth].
  replace (elems (fmap (M:=list) (map_codex_account f) <$> cx_Accounts (pr_Codex (cfg_Providers config))))
    with (map_codex_account f <$> elems (cx_Accounts (pr_Codex (cfg_Providers config))))
    by (by destruct (cx_Accounts (pr_Codex (cfg_Providers config)))).
  rewrite find_map by done. by destruct (find _ _).
Qed.

Lemma configured_map f env : hides f →
  (∀ a, configured_copilot (map_copilot_secrets f a) = configured_copilot a) ∧
  (∀ a, configured_codex env (map_codex_secrets f a) = configured_codex env a) ∧
  (∀ config, configured_kilo env (pr_Kilo (cfg_Providers (map_secrets f config))) = configured_kilo env (pr_Kilo (cfg_Providers config))).
Proof.
  intros Hf. split_and!; intros a; unfold configured_copilot, configured_codex, configured_kilo;
    cbn [map_copilot_secrets map_codex_secrets map_secrets cfg_Providers pr_Kilo ca_GitHubToken ca_CopilotToken ca_GitHubTokenRef
      ca_CopilotTokenRef xa_APIKey xa_AccessToken xa_RefreshToken xa_APIKeyRef xa_AccessTokenRef xa_RefreshTokenRef
      kp_APIKey kp_APIKeyRef kp_AllowAnonymous]; by rewrite !Hf.
Qed.

Lemma credentialMetadata_map f env config store providerID accountID label : hides f →
  credentialMetadata env (map_secrets f config) providerID accountID label (map_values f <$> store)
  = credentialMetadata env config providerID accountID label store.
Proof.
  intros Hf. unfold credentialMetadata.
  destruct (configured_map f (env "OPENAI_API_KEY") Hf) as (Hc & Hx & _), (configured_map f (env "KILO_API_KEY") Hf) as (_ & _ & Hk).
  rewrite copilot_auth_map, codex_auth_map, !refreshed_map, !stored_map, Hc, Hx, Hk by done. done.
Qed.

Lemma clone_accounts f :
  (∀ l, cloneCopilotAccounts (fmap (M:=list) (map_copilot_account f) <$> l) = fmap (M:=list) (map_copilot_account f) <$> cloneCopilotAccounts l) ∧
  (∀ l, cloneCodexAccounts (fmap (M:=list) (map_codex_account f) <$> l) = fmap (M:=list) (map_codex_account f) <$> cloneCodexAccounts l).
Proof.
  split; intros [[|a l]|]; try done; simpl; do 2 f_equal; try done; rewrite <-!list_fmap_compose; by apply list_fmap_ext.
Qed.

Lemma Clone_map_secrets f c : Clone (map_secrets f c) = map_secrets f (Clone c).
Proof.
  unfold Clone, map_secrets. cbn [cfg_Providers pr_Copilot pr_Codex cp_Accounts cx_Accounts].
  destruct (clone_accounts f) as [Hc Hx]. by rewrite Hc, Hx.
Qed.

(** What the control API tells of accounts, of the configuration and of providers
    depends on no secret: replacing every secret of the configuration and every stored
    value by others, empty ones by empty ones, changes no answer; and of an upstream
    error only that there was one is told. *)
Theorem read_resources_keep_secrets f env statuses configuration secrets
    (Hf : hides f) :
  read_Accounts env statuses (map_configuration f <$> configuration) (map_values f <$> secrets)
    = read_Accounts env statuses configuration secrets
  ∧ read_Configuration (map_configuration f <$> configuration) = read_Configuration configuration
  ∧ ∀ l, read_Providers statuses = Ok l → Forall (λ p, LastError (HealthRegistry.hr_Health (pv_Health p)) ∈ ["";"provider_error"]) l.
Proof.
  split_and!.
  - unfold read_Accounts. destruct statuses as [statuses|]; [|done]. destruct configuration as [s|]; [|done]. simpl. f_equal.
    apply list_bind_ext; [|done]. intros st. apply list_fmap_ext. intros _ a _. f_equal.
    rewrite Clone_map_secrets. by apply credentialMetadata_map.
  - destruct configuration as [s|]; [|done]. simpl. unfold map_configuration. simpl. by rewrite !Redact_map_secrets.
  - unfold read_Providers. destruct statuses as [statuses|]; [|done]. intros l [= <-]. apply Forall_forall.
    intros p (s & -> & _)%list_elem_of_fmap. simpl. destruct (filled _); [right|]; by left.
Qed.

(** ** The state agrees with itself *)

(** The requests in flight of a provider, added up from the payload's counters as the
    code adds them. *)
Definition flights_of (id : string) (counters : list TargetCountersView) : Z :=
  foldl (λ n k, if String.eqb (kv_Provider k) id then wrap_i64 (n + kv_InFlight k) else n) 0%Z counters.

Lemma in_flight_views id l : default 0%Z (in_flight_by_provider l !! id) = flights_of id (counters_view <$> l).
Proof.
  unfold in_flight_by_provider, flights_of. induction l as [|t l IH] using rev_ind; [done|].
  rewrite fmap_app, !foldl_app. cbn [foldl fmap list_fmap counters_view kv_Provider kv_InFlight]. rewrite <-IH.
  destruct (String.eqb_spec (ts_Provider t) id) as [<-|Hne]; [by rewrite lookup_insert_eq|by rewrite lookup_insert_ne].
Qed.

Lemma cooled_iff id v :
  id ∈ cooled_by_view v ↔ ∃ t bare, t ∈ rv_Targets v ∧ tv_Reason t = ReasonCooldown ∧ StripModelPrefix (tv_Target t) = (bare, id, true).
Proof.
  unfold cooled_by_view. rewrite list_elem_of_omap. split.
  - intros (t & Ht & Hx). case_decide; [|done]. destruct (StripModelPrefix (tv_Target t)) as [[bare i] []] eqn:E; [|done].
    injection Hx as ->. naive_solver.
  - intros (t & bare & Ht & Hr & E). exists t. split; [done|]. by rewrite decide_True, E.
Qed.

Lemma first_routable (l : list TargetReadiness) :
  snd <$> find_index (λ t, if rd_Routable t then Some (rd_Target t) else None) l
  = tv_Target <$> find tv_Routable ((λ t, mkTargetView (rd_Target t) (rd_Routable t) (rd_Reason t)) <$> l).
Proof.
  induction l as [|t l IH]; [done|]. cbn [find_index fmap list_fmap find tv_Routable]. destruct (rd_Routable t); [done|].
  rewrite <-IH. by destruct (find_index _ l) as [[]|].
Qed.

(** A state told to a client agrees with itself: a provider shown in cooldown has a
    target that the same payload shows cooled; one shown serving or ready has none, and
    is serving exactly when the payload's counters show a request in flight; and every
    virtual model has selected its first routable target, or none when there is none. *)
Theorem state_payload_is_consistent `{Cooldown.StateCodec Bytes} configuration statuses recorder runtime
    (lease lease' : option (Router Bytes)) c p
    (Hread : read_State configuration statuses recorder runtime lease c = (lease', Ok p)) :
  (∀ v, v ∈ sp_Providers p →
     let cooled := ∃ r t bare, r ∈ sp_Routing p ∧ t ∈ rv_Targets r ∧ tv_Reason t = ReasonCooldown
                     ∧ StripModelPrefix (tv_Target t) = (bare, sv_Provider v, true) in
     let busy := (0 < flights_of (sv_Provider v) (sp_Counters p))%Z in
     (sv_State v = StateCooldown → cooled) ∧ (sv_State v = StateServing → ¬ cooled ∧ busy)
     ∧ (sv_State v = StateReady → ¬ cooled ∧ ¬ busy))
  ∧ (∀ r, r ∈ sp_Routing p → rv_SelectedTarget r = default "" (tv_Target <$> find tv_Routable (rv_Targets r))).
Proof.
  unfold read_State in Hread. destruct statuses as [statuses|]; [|done]. destruct runtime; [|done]. simpl in Hread.
  assert (∃ views, p = mkStatePayload (from_option Revision 0%Z configuration)
      (provider_state (views ≫= cooled_by_view) (in_flight_by_provider (Telemetry.Snapshot recorder)) <$> statuses) views
      (counters_view <$> Telemetry.Snapshot recorder)
    ∧ ∀ r, r ∈ views → rv_SelectedTarget r = default "" (tv_Target <$> find tv_Routable (rv_Targets r))) as (views & -> & Hviews).
  { destruct lease as [router|]; [|injection Hread as _ <-; exists []; split; [done|]; by intros r ?%elem_of_nil].
    destruct (AvailabilitySnapshot c router) as [router' snapshot]. injection Hread as _ <-. eexists. split; [done|].
    intros r (x & -> & Hx)%list_elem_of_fmap. unfold VirtualModelReadinessFor in Hx.
    apply list_elem_of_omap in Hx as (id & _ & Hx). apply fmap_Some in Hx as (vm & _ & ->).
    unfold routing_view, readiness_of. cbn [rv_SelectedTarget rv_Targets vr_SelectedTarget vr_Targets]. by rewrite first_routable. }
  cbn [sp_Providers sp_Routing sp_Counters]. split; [|done]. intros v (s & -> & _)%list_elem_of_fmap. cbv zeta.
  set (id := Descriptor.d_ID (st_Descriptor s)). unfold provider_state. fold id. cbn [sv_State sv_Provider]. rewrite in_flight_views.
  assert (id ∈ (views ≫= cooled_by_view) ↔ ∃ r t bare, r ∈ views ∧ t ∈ rv_Targets r ∧ tv_Reason t = ReasonCooldown
    ∧ StripModelPrefix (tv_Target t) = (bare, id, true)) as Hcool.
  { rewrite list_elem_of_bind. setoid_rewrite cooled_iff. naive_solver. }
  unfold DeriveProviderState. destruct (negb _); [done|]. destruct (bool_decide _); [done|]. destruct (negb _); [done|].
  case_bool_decide as Hd; [by split_and!; try done; intros _; apply Hcool|].
  destruct (Z.ltb_spec 0 (flights_of id (counters_view <$> Telemetry.Snapshot recorder))); split_and!; try done; intros _;
    (split; [by intros ?%Hcool|lia]).
Qed.

Lemma filter_one_id {A} (g : string → option A) (key : A → string) (Hkey : ∀ id x, g id = Some x → key x = id) ids id :
  NoDup ids → List.filter (λ x, String.eqb (key x) id) (omap g ids) = if decide (id ∈ ids) then option_list (g id) else [].
Proof.
  induction ids as [|i ids IH]; intros Hn.
  - rewrite decide_False; [done|apply not_elem_of_nil].
  - apply NoDup_cons in Hn as [Hi Hn]. specialize (IH Hn). cbn [omap list_omap].
    assert (List.filter (λ x, String.eqb (key x) id) (option_list (g i) ++ omap g ids)
      = (if decide (i = id) then option_list (g id) else []) ++ List.filter (λ x, String.eqb (key x) id) (omap g ids)) as E.
    { destruct (decide (i = id)) as [->|Hne].
      - destruct (g id) as [x|] eqn:Eg; [|done]. simpl. by rewrite (Hkey _ _ Eg), String.eqb_refl.
      - destruct (g i) as [x|] eqn:Eg; [|done]. simpl. rewrite (Hkey _ _ Eg). by rewrite (proj2 (String.eqb_neq _ _) Hne). }
    replace (match g i with Some y => y :: omap g ids | None => omap g ids end) with (option_list (g i) ++ omap g ids) by by destruct (g i).
    rewrite E, IH. destruct (decide (i = id)) as [->|Hne].
    + rewrite decide_False by done. rewrite decide_True by (by left). by rewrite app_nil_r.
    + simpl. destruct (decide (id ∈ ids)); [rewrite decide_True by (by right); done|].
      rewrite decide_False; [done|]. rewrite elem_of_cons. naive_solver.
Qed.

(** The routing status is there exactly for the virtual models of the leased
    snapshot's configuration; then it holds one readiness report for each of the three
    capabilities, in their order, all made from one view of the providers. *)
Theorem routing_status_reports_the_model `{Cooldown.StateCodec Bytes} configuration (router : Router Bytes) c publicID :
  let '(router', snapshot) := AvailabilitySnapshot c router in
  read_RoutingStatus configuration true (Some router) c publicID
  = (Some router', Ok ((λ vm, mkRoutingStatus publicID (from_option Revision 0%Z configuration) (s_generation snapshot)
      ((λ capability, readiness_of (Some snapshot) capability publicID vm) <$> [CapabilityChat; CapabilityResponses; CapabilityEmbeddings])
      (Metrics_Snapshot (metrics router'))) <$> VirtualModels (routing router) !! publicID)).
Proof.
  assert (Hsame : routing (AvailabilitySnapshot c router).1 = routing router).
  { unfold AvailabilitySnapshot, buildAvailabilitySnapshot.
    destruct (provider_views c router (registered_providers (registry router))) as [r' views] eqn:Hv.
    apply provider_views_spec in Hv as ((_ & Hr & _) & _ & _). exact Hr. }
  unfold read_RoutingStatus. cbn [negb]. destruct (AvailabilitySnapshot c router) as [router' snapshot]. cbn [fst] in Hsame.
  assert (∀ capability, List.filter (λ r, String.eqb (vr_VirtualModel r) publicID) (VirtualModelReadinessFor capability (Some snapshot) router')
    = option_list (readiness_of (Some snapshot) capability publicID <$> VirtualModels (routing router) !! publicID)) as Hone.
  { intros capability. unfold VirtualModelReadinessFor, VirtualModelIDs. rewrite Hsame.
    rewrite filter_one_id.
    - case_decide as Hin; [done|]. rewrite elem_of_sort_Strings, elem_of_elements, not_elem_of_dom in Hin. by rewrite Hin.
    - intros id x Hx. apply fmap_Some in Hx as (vm & _ & ->). done.
    - apply NoDup_sort_Strings, NoDup_elements. }
  cbn [mbind list_bind]. rewrite !Hone. by destruct (VirtualModels (routing router) !! publicID).
Qed.

(** ** Examples *)

Module ExampleReads.

Definition pool (id : string) : list AccountState := [mkAccount "a" "first" true 0; mkAccount "b" "second" true 1].
Definition status (id : string) (state : HealthRegistry.State) : ProviderStatus :=
  mkStatus (ff_ProviderDescriptor (ProviderManager.Example.factory id id)) true [CapabilityChat] (pool id)
    (HealthRegistry.mkRecord id state (mkHealth true true "dial tcp 10.0.0.7: refused" zeroTime) 3 50) 3.
Definition statuses : list ProviderStatus := [status "codex" HealthRegistry.StateReady; status "kilo" HealthRegistry.StateReady].

(** A list that the cache fetched nine minutes ago is told as fetched now. *)
Example cached_list_looks_fresh :
  let fetched := mkModelList "list" [plain_model "gpt-5" "model" 0 "openai"] in
  let cache := ModelCache.Set_ 1000 fetched (ModelCache.NewModelCache 0) in
  let now := (1000 + 9 * Minute)%Z in
  let answer := snd (ModelCache.GetOrFetch now now now (Err tt) cache) in
  let catalog := catalog_resource now (status "codex" HealthRegistry.StateReady)
    (refresh_catalog true (mkListing (match answer with Ok l => Ok (Some l) | Err e => Err e end) now now)
       (status "codex" HealthRegistry.StateReady) ∅) in
  pc_FetchedAt catalog = now ∧ pc_AgeSeconds catalog = 0%Z ∧ mv_ID <$> pc_Models catalog = ["codex/gpt-5"].
Proof. vm_compute. split_and!; reflexivity. Qed.

Definition config (token : string) : Config := map_secrets (λ s, token) (Clone (on_port 2)).
Definition configuration (token : string) : State.Snapshot := State.mkSnapshot 1 3 "aa" "aa" 0 "ya" (config token) (config token) [].
Definition stored (token : string) : MemoryStore :=
  mkStore {["codex/access_token" := mkEntry token SourceManaged false 1 0]} true None.

(** One managed secret is told as the credential of every account of its provider. *)
Example one_secret_covers_every_account :
  match read_Accounts (λ _, false) (Some [status "codex" HealthRegistry.StateReady]) (Some (configuration "")) (Some (stored "t")) with
  | Ok l => (λ a, (av_ID a, cm_Configured (av_Credential a))) <$> l = [("a", true); ("b", true)]
  | Err _ => False
  end.
Proof. vm_compute. reflexivity. Qed.

Definition masked (s : string) : string := if filled s then "other" else "".

Lemma read_resources_keep_secrets_witness :
  read_Accounts (λ _, false) (Some statuses) (map_configuration masked <$> Some (configuration "tok")) (map_values masked <$> Some (stored "tok"))
  = read_Accounts (λ _, false) (Some statuses) (Some (configuration "tok")) (Some (stored "tok"))
  ∧ masked "tok" ≠ "tok".
Proof.
  split; [|discriminate].
  apply (read_resources_keep_secrets masked (λ _, false) (Some statuses) (Some (configuration "tok")) (Some (stored "tok"))).
  intros [|c s]; reflexivity.
Defined.

(** A request in flight. *)
Definition recorder : Recorder := foldl Telemetry.step NewRecorder [OpBegin true 1 "kilo" "free"].

Definition read_of (recorder : Recorder) : option WSStatePayload :=
  match snd (read_State (Some (configuration "")) (Some statuses) recorder true (Some example_router) (example_clock 100)) with
  | Ok p => Some p | Err _ => None end.

Lemma state_payload_is_consistent_witness :
  ∃ p v, read_of recorder = Some p ∧ v ∈ sp_Providers p ∧ sv_State v = StateServing
    ∧ (0 < flights_of (sv_Provider v) (sp_Counters p))%Z.
Proof.
  unfold read_of.
  destruct (read_State (Some (configuration "")) (Some statuses) recorder true (Some example_router) (example_clock 100)) as [lease [p|e]] eqn:E;
    [|vm_compute in E; discriminate].
  pose proof (state_payload_is_consistent (Some (configuration "")) (Some statuses) recorder true (Some example_router) lease
    (example_clock 100) p E) as [H _].
  assert (Hp : p = match read_of recorder with Some p => p | None => p end) by (unfold read_of; rewrite E; reflexivity).
  exists p, (mkStateView "kilo" StateServing). split; [reflexivity|].
  assert (Hin : mkStateView "kilo" StateServing ∈ sp_Providers p) by (rewrite Hp; vm_compute; right; left).
  split; [exact Hin|]. split; [reflexivity|]. exact (proj2 (proj1 (proj2 (H _ Hin)) eq_refl)).
Defined.

End ExampleReads.
