(* ===== verification/ReadResources.v ===== *)
(** * The read, routing and mutation resources of the control API

    [internal/control/read_resources.go], [routing_resources.go] and
    [mutation_resources.go], over an interface for what they read ([ReadModel]) and for
    what they change ([MutationExecutor]), which [src/mutation_runtime.go] implements
    through [Mutations].

    The stream of lifecycle events is a step relation: the bus of [Provider.EventBus]
    goes on publishing, and its other subscribers come and go, between the steps of the
    handler. *)

From stdpp Require Import pretty.
From S2P Require Import Prelude GoStd Provider Config Routing Operation Writers Failover GoJson Control OperationResources State Mutations ReadModel.

#[local] Set Default Proof Using "Type".

(** ** Interfaces *)

(** What a handler asks the read model for; an error is only looked at for being one. *)
(* src/internal/control/read_resources.go ReadModel *)
Record ReadModel := mkReadModel {
  m_Providers : option (list ProviderResource);
  m_Accounts : option (list AccountResource);
  m_Models : bool → option (list ProviderCatalog);
  m_Configuration : option ConfigResource;
  m_Operations : option (list Record_);
  m_Events : Z → list EventBus.LifecycleEvent;
}.

(** A result to be written, or a status, a code, the error's text and the details of the
    result, when it has any. *)
(* src/internal/control/mutation_resources.go MutationExecutor *)
Definition MutationExecutor : Type :=
  MutationRequest → string → result json (Z * string * string * list (string * json)).

(** ** Requests *)

Record read_request := mkReadRequest { rq_request : control_request; rq_LastEventID : string; rq_after : string; rq_refresh : string }.

(** [strconv.ParseBool], with its error read as false. *)
Definition ParseBool (s : string) : bool := bool_decide (s ∈ ["1"; "t"; "T"; "TRUE"; "true"; "True"]).

(* src/internal/control/read_resources.go queryBool *)
Definition queryBool (value : string) : bool :=
  let value := TrimSpace value in
  ParseBool value || String.eqb value "1" || EqualFold value "yes" || EqualFold value "on".

(* src/internal/control/read_resources.go eventCursor *)
Definition eventCursor (r : read_request) : option Z :=
  let value := TrimSpace (rq_LastEventID r) in
  let value := if String.eqb value "" then TrimSpace (rq_after r) else value in
  if String.eqb value "" then Some 0%Z else ParseUint value.

(* src/internal/control/read_resources.go lastSequence *)
Definition lastSequence (after : Z) (l : list EventBus.LifecycleEvent) : Z :=
  match last l with Some e => EventBus.ev_Sequence e | None => after end.

(* src/internal/control/read_resources.go RegisterReadRoutes *)
Definition RegisterReadRoutes (api : list route) : list route :=
  Handle "GET" "/control/v1/events/stream" RoleViewer false "streamEvents"
  (Handle "GET" "/control/v1/events" RoleViewer false "listEvents"
  (Handle "GET" "/control/v1/operations" RoleViewer false "listOperations"
  (Handle "GET" "/control/v1/config" RoleViewer false "readConfiguration"
  (Handle "GET" "/control/v1/models" RoleViewer false "listModels"
  (Handle "GET" "/control/v1/accounts" RoleViewer false "listAccounts"
  (Handle "GET" "/control/v1/providers" RoleViewer false "listProviders" api)))))).

(* src/internal/control/routing_resources.go:22-26 RegisterRoutingStatusRoutes *)
Definition RegisterRoutingStatusRoutes (api : list route) : list route :=
  Handle "GET" "/control/v1/routing/thiendu" RoleViewer false "readRoutingStatus" api.

(* src/internal/control/mutation_resources.go:20-24 RegisterMutationRoutes *)
Definition RegisterMutationRoutes (api : list route) : list route :=
  Handle "POST" "/control/v1/config/mutations" RoleOperator true "applyMutation" api.

(** ** Texts *)

(* src/internal/provider/events.go EventType *)
Definition event_type_text (t : EventBus.EventType) : string :=
  match t with
  | EventBus.EventFactoryRegistered => "factory_registered" | EventBus.EventFactoryUnregistered => "factory_unregistered"
  | EventBus.EventConstructing => "constructing" | EventBus.EventValidating => "validating"
  | EventBus.EventPublished => "published" | EventBus.EventRemoved => "removed" | EventBus.EventReconcileFailed => "reconcile_failed"
  | EventBus.EventDrainStarted => "drain_started" | EventBus.EventDrainTimedOut => "drain_timed_out"
  | EventBus.EventDrained => "drained"
  end.

Definition omit_zero (name : string) (n : Z) : list (string * json) := if (n =? 0)%Z then [] else [(name, of_int n)].

Section texts.
Context (time_text : Time → string).

(* src/internal/provider/events.go LifecycleEvent *)
Definition lifecycle_json (e : EventBus.LifecycleEvent) : json :=
  JObj ([("sequence", of_int (EventBus.ev_Sequence e)); ("type", JStr (event_type_text (EventBus.ev_Type e)))]
    ++ omit_empty "provider_id" (EventBus.ev_ProviderID e) ++ omit_zero "generation" (EventBus.ev_Generation e)
    ++ omit_empty "reason" (EventBus.ev_Reason e) ++ omit_zero "pending_snapshots" (EventBus.ev_PendingSnapshots e)
    ++ [("timestamp", JStr (time_text (EventBus.ev_Timestamp e)))]).

(* src/internal/control/read_resources.go EventPage *)
Definition EventPage (l : list EventBus.LifecycleEvent) (nextAfter : Z) : json :=
  JObj [("data", JArr (lifecycle_json <$> l)); ("next_after", of_int nextAfter)].

(* src/internal/control/read_resources.go AccountResource *)
Definition account_json (a : AccountResource) : json :=
  let c := av_Credential a in
  JObj ([("provider_id", JStr (av_ProviderID a)); ("id", JStr (av_ID a))] ++ omit_empty "label" (av_Label a)
    ++ [("enabled", JBool (av_Enabled a)); ("priority", of_int (av_Priority a));
        ("credential", JObj [("configured", JBool (cm_Configured c)); ("source", JStr (cm_Source c)); ("refreshable", JBool (cm_Refreshable c))])]).

(* src/internal/control/read_resources.go ModelResource *)
Definition model_json (m : ModelResource) : json :=
  JObj ([("id", JStr (mv_ID m)); ("upstream_id", JStr (mv_UpstreamID m)); ("provider_id", JStr (mv_ProviderID m));
         ("available", JBool (mv_Available m))] ++ omit_empty "owned_by" (mv_OwnedBy m)
    ++ match mv_Endpoints m with [] => [] | l => [("supported_endpoints", JArr (JStr <$> l))] end).

(* src/internal/control/read_resources.go ProviderCatalog *)
Definition catalog_json (c : ProviderCatalog) : json :=
  JObj ([("provider_id", JStr (pc_ProviderID c)); ("enabled", JBool (pc_Enabled c)); ("available", JBool (pc_Available c));
         ("models", JArr (model_json <$> pc_Models c)); ("fetched_at", JStr (time_text (pc_FetchedAt c)));
         ("last_attempt_at", JStr (time_text (pc_LastAttemptAt c)))]
    ++ omit_zero "age_seconds" (pc_AgeSeconds c) ++ [("stale", JBool (pc_Stale c))] ++ omit_empty "last_refresh_error" (pc_LastRefreshError c)).

End texts.

(** ** Handlers

    [provider_json], [config_json] and [routing_json] are the trees of the resources
    whose nil slices and maps the model does not tell from empty ones. *)

Section handlers.
Context `{JSON} (time_text : Time → string) (provider_json : ProviderResource → json) (config_json : ConfigResource → json)
  {Routed : Type} (routing_json : Routed → json).

Definition read_failed (r : read_request) (code message : string) : list action :=
  writeError (rq_request r) StatusServiceUnavailable code message true [].

Definition answer_read {A} (r : read_request) (code message : string) (encode : A → json) (read : option A) : list action :=
  match read with Some a => writeJSON StatusOK (encode a) | None => read_failed r code message end.

Definition data {A} (encode : A → json) (l : list A) : json := JObj [("data", JArr (encode <$> l))].

(** The handlers of the read routes but the stream's. *)
(* src/internal/control/read_resources.go RegisterReadRoutes *)
(* src/internal/control/read_resources.go nonNilProviders *)
(* src/internal/control/read_resources.go nonNilAccounts *)
(* src/internal/control/read_resources.go nonNilEvents *)
(* src/internal/control/read_resources.go ModelCatalogResponse *)
Definition read_handler (model : ReadModel) (handler : string) (r : read_request) : option (list action) :=
  if String.eqb handler "listProviders" then
    Some (answer_read r "provider_read_failed" "Provider state is temporarily unavailable." (data provider_json) (m_Providers model))
  else if String.eqb handler "listAccounts" then
    Some (answer_read r "account_read_failed" "Account state is temporarily unavailable." (data account_json) (m_Accounts model))
  else if String.eqb handler "listModels" then
    Some (answer_read r "model_catalog_read_failed" "Model catalog state is temporarily unavailable."
            (λ l, JObj [("catalogs", JArr (catalog_json time_text <$> l))]) (m_Models model (queryBool (rq_refresh r))))
  else if String.eqb handler "readConfiguration" then
    Some (answer_read r "config_read_failed" "Configuration state is temporarily unavailable." config_json (m_Configuration model))
  else if String.eqb handler "listOperations" then
    Some (answer_read r "operation_read_failed" "Operation state is temporarily unavailable." (data (record_json time_text)) (m_Operations model))
  else if String.eqb handler "listEvents" then
    Some (match eventCursor r with
          | None => writeError (rq_request r) StatusBadRequest "invalid_event_cursor" "The event cursor must be an unsigned integer." false []
          | Some after => let l := m_Events model after in writeJSON StatusOK (EventPage time_text l (lastSequence after l))
          end)
  else None.

(** [Err] is the error of the reader. *)
(* src/internal/control/routing_resources.go RegisterRoutingStatusRoutes *)
Definition routing_handler (status : result (option Routed) unit) (r : control_request) : list action :=
  match status with
  | Err _ => writeError r StatusServiceUnavailable "routing_status_unavailable" "The routing status is temporarily unavailable." true []
  | Ok None => writeError r StatusNotFound "routing_status_not_found" "The requested routing status was not found." false []
  | Ok (Some resource) => writeJSON StatusOK (routing_json resource)
  end.

(* src/internal/control/read_resources.go writeSSEEvent *)
Definition writeSSEEvent (e : EventBus.LifecycleEvent) : option string :=
  (λ payload, "id: " +:+ pretty (EventBus.ev_Sequence e) +:+ newline +:+ "event: " +:+ event_type_text (EventBus.ev_Type e)
     +:+ newline +:+ "data: " +:+ payload +:+ newline +:+ newline)
  <$> json_marshal (lifecycle_json time_text e).

(** *** Mutations *)

Definition d_uint : decoder Z := λ v old, match v with JNum n => ParseUint n | JNull => Some old | _ => None end.

Definition kind_of (s : string) : MutationKind :=
  if String.eqb s "provider_enabled" then MutationProviderEnabled
  else if String.eqb s "default_model" then MutationDefaultModel
  else if String.eqb s "default_provider" then MutationDefaultProvider
  else if String.eqb s "allowed_models" then MutationAllowedModels
  else if String.eqb s "model_map_set" then MutationModelMapSet
  else if String.eqb s "model_map_delete" then MutationModelMapDelete
  else MutationOther s.

Definition d_kind : decoder MutationKind := λ v old, match v with JStr s => Some (kind_of s) | JNull => Some old | _ => None end.

(* src/internal/control/mutations.go MutationRequest *)
Definition d_mutation : decoder MutationRequest :=
  d_struct [
    fld "kind" mr_Kind (λ x m, mkRequest x (mr_ExpectedRevision m) (mr_DryRun m) (mr_Provider m) (mr_Enabled m) (mr_Model m) (mr_UpstreamModel m) (mr_AllowedModels m) (mr_Value m)) d_kind;
    fld "expected_revision" mr_ExpectedRevision (λ x m, mkRequest (mr_Kind m) x (mr_DryRun m) (mr_Provider m) (mr_Enabled m) (mr_Model m) (mr_UpstreamModel m) (mr_AllowedModels m) (mr_Value m)) d_uint;
    fld "dry_run" mr_DryRun (λ x m, mkRequest (mr_Kind m) (mr_ExpectedRevision m) x (mr_Provider m) (mr_Enabled m) (mr_Model m) (mr_UpstreamModel m) (mr_AllowedModels m) (mr_Value m)) d_bool;
    fld "provider" mr_Provider (λ x m, mkRequest (mr_Kind m) (mr_ExpectedRevision m) (mr_DryRun m) x (mr_Enabled m) (mr_Model m) (mr_UpstreamModel m) (mr_AllowedModels m) (mr_Value m)) d_string;
    fld "enabled" mr_Enabled (λ x m, mkRequest (mr_Kind m) (mr_ExpectedRevision m) (mr_DryRun m) (mr_Provider m) x (mr_Model m) (mr_UpstreamModel m) (mr_AllowedModels m) (mr_Value m)) (d_pointer false d_bool);
    fld "model" mr_Model (λ x m, mkRequest (mr_Kind m) (mr_ExpectedRevision m) (mr_DryRun m) (mr_Provider m) (mr_Enabled m) x (mr_UpstreamModel m) (mr_AllowedModels m) (mr_Value m)) d_string;
    fld "upstream_model" mr_UpstreamModel (λ x m, mkRequest (mr_Kind m) (mr_ExpectedRevision m) (mr_DryRun m) (mr_Provider m) (mr_Enabled m) (mr_Model m) x (mr_AllowedModels m) (mr_Value m)) d_string;
    fld "allowed_models" mr_AllowedModels (λ x m, mkRequest (mr_Kind m) (mr_ExpectedRevision m) (mr_DryRun m) (mr_Provider m) (mr_Enabled m) (mr_Model m) (mr_UpstreamModel m) x (mr_Value m)) (d_list "" d_string);
    fld "value" mr_Value (λ x m, mkRequest (mr_Kind m) (mr_ExpectedRevision m) (mr_DryRun m) (mr_Provider m) (mr_Enabled m) (mr_Model m) (mr_UpstreamModel m) (mr_AllowedModels m) x) d_string].

Definition no_mutation : MutationRequest := mkRequest (MutationOther "") 0 false "" None "" "" [] "".

(** [first_value] is [json.Decoder.Decode] of a body cut at a megabyte: the first value
    of the text, whatever follows it. *)
(* src/internal/control/mutation_resources.go RegisterMutationRoutes *)
Definition mutation_handler (first_value : string → option json) (executor : MutationExecutor) (identity : option Identity)
    (r : control_request) : list action :=
  match (cr_Body r ≫= first_value) ≫= unmarshal no_mutation d_mutation with
  | None => writeError r StatusBadRequest "invalid_mutation_request" "The mutation request body is invalid." false []
  | Some mutation =>
    match executor mutation (subject identity) with
    | Err (status, code, text, details) => writeError r status code text (status =? StatusConflict)%Z details
    | Ok result => writeJSON StatusOK result
    end
  end.

End handlers.

(* src/src/mutation_runtime.go mutationHTTPStatus *)
Definition mutationHTTPStatus (e : Mutations.failure) : Z * string :=
  match e with
  | StateError (ConflictError _ _) => (409%Z, "revision_conflict")
  | RecoveredMutation _ => (503%Z, "runtime_reconcile_failed")
  | _ => (400%Z, "invalid_mutation")
  end.

(* src/src/mutation_runtime.go MutationResult.ErrorDetails *)
Definition ErrorDetails (r : MutationResult) : list (string * json) :=
  [("current_revision", of_int (re_CurrentRevision r)); ("runtime_published", JBool (re_RuntimePublished r))].

Definition result_json (r : MutationResult) : json :=
  JObj ([("dry_run", JBool (re_DryRun r)); ("applied", JBool (re_Applied r)); ("runtime_published", JBool (re_RuntimePublished r));
         ("current_revision", of_int (re_CurrentRevision r)); ("next_revision", of_int (re_NextRevision r)); ("changed", JBool (re_Changed r))]
    ++ match re_ChangedPaths r with [] => [] | l => [("changed_paths", JArr (JStr <$> l))] end
    ++ match re_RestartRequired r with [] => [] | l => [("restart_required", JArr (JStr <$> l))] end).

(** [error_text] is the text of an error; [attempt] applies a mutation for an actor. *)
(* src/src/mutation_runtime.go mutationExecutor.Execute *)
Definition mutation_outcome (error_text : Mutations.failure → string) (out : result MutationResult (MutationResult * Mutations.failure))
    : result json (Z * string * string * list (string * json)) :=
  match out with
  | Ok r => Ok (result_json r)
  | Err (r, e) =>
    let '(status, code) := mutationHTTPStatus e in
    Err (status, code, error_text e, match e with RecoveredMutation _ => ErrorDetails r | _ => [] end)
  end.

(** ** The stream of lifecycle events *)

Inductive lifecycle_phase :=
| ReadingHistory
| ReplayingHistory (left : list EventBus.LifecycleEvent)
| Following
| Finished.

(** The handler: its cursor, its subscription, how far it is, and what it has written. *)
Record lifecycle_stream := mkLifecycle {
  ls_after : Z; ls_id : Z; ls_phase : lifecycle_phase; ls_out : list EventBus.LifecycleEvent;
}.

(** The bus, every event it has published, for the theorems, and the stream. *)
Record lifecycle_world := mkLifecycleWorld {
  lw_bus : EventBus.t; lw_log : list EventBus.LifecycleEvent; lw_stream : lifecycle_stream;
}.

(** The handler up to its subscription; the headers have been sent. *)
(* src/internal/control/read_resources.go:168-177 serveEventStream *)
(* src/src/control_read_model.go controlReadModel.SubscribeEvents *)
Definition open_lifecycle (after : Z) (bus : EventBus.t) (log : list EventBus.LifecycleEvent) : lifecycle_world :=
  let '(bus, id) := EventBus.Subscribe 32 bus in mkLifecycleWorld bus log (mkLifecycle after id ReadingHistory []).

Inductive lifecycle_event :=
| LcBus (o : EventBus.op)   (** a publication, or another subscriber *)
| LcHistory                 (** the handler reads the history *)
| LcReplay (ok : bool)      (** and writes its next event; [ok] is false when the write fails *)
| LcReceive (ok : bool)     (** it takes an event from its channel *)
| LcKeepalive (ok : bool)
| LcGone.                   (** the client has left *)

Definition at_phase (p : lifecycle_phase) (s : lifecycle_stream) : lifecycle_stream :=
  mkLifecycle (ls_after s) (ls_id s) p (ls_out s).

(** The deferred cancellation. *)
Definition finish_stream (w : lifecycle_world) : lifecycle_world :=
  mkLifecycleWorld (EventBus.Cancel (ls_id (lw_stream w)) (lw_bus w)) (lw_log w) (at_phase Finished (lw_stream w)).

Definition with_lifecycle (s : lifecycle_stream) (w : lifecycle_world) : lifecycle_world := mkLifecycleWorld (lw_bus w) (lw_log w) s.

(** An event in hand: passed over, written, or the end of the stream. *)
Definition take_event (ok : bool) (next : lifecycle_phase) (e : EventBus.LifecycleEvent) (w : lifecycle_world) : lifecycle_world :=
  let s := lw_stream w in
  if (EventBus.ev_Sequence e <=? ls_after s)%Z then with_lifecycle (at_phase next s) w
  else if negb ok then finish_stream w
  else with_lifecycle (mkLifecycle (EventBus.ev_Sequence e) (ls_id s) next (ls_out s ++ [e])) w.

(** [None] is a step the handler cannot make. *)
(* src/internal/control/read_resources.go:178-213 serveEventStream *)
Definition lifecycle_step (ev : lifecycle_event) (w : lifecycle_world) : option lifecycle_world :=
  let s := lw_stream w in
  match ev with
  | LcBus o => Some (mkLifecycleWorld (EventBus.step (lw_bus w) o) (EventBus.log_step (lw_log w) o) s)
  | LcHistory => match ls_phase s with
                 | ReadingHistory => Some (with_lifecycle (at_phase (ReplayingHistory (EventBus.History (lw_bus w) (ls_after s))) s) w)
                 | _ => None
                 end
  | LcReplay ok => match ls_phase s with
                   | ReplayingHistory [] => Some (with_lifecycle (at_phase Following s) w)
                   | ReplayingHistory (e :: l) => Some (take_event ok (ReplayingHistory l) e w)
                   | _ => None
                   end
  | LcReceive ok => match ls_phase s with
                    | Following =>
                      match EventBus.subscribers (lw_bus w) !! ls_id s with
                      | Some (EventBus.mkChannel (e :: _) _) =>
                        Some (take_event ok Following e (mkLifecycleWorld (EventBus.Receive (ls_id s) (lw_bus w)) (lw_log w) s))
                      | _ => None
                      end
                    | _ => None
                    end
  | LcKeepalive ok => match ls_phase s with Following => Some (if ok : bool then w else finish_stream w) | _ => None end
  | LcGone => match ls_phase s with Following => Some (finish_stream w) | _ => None end
  end.

Fixpoint lifecycle_run (l : list lifecycle_event) (w : lifecycle_world) : option lifecycle_world :=
  match l with [] => Some w | ev :: l => lifecycle_step ev w ≫= lifecycle_run l end.

(** What the theorem asks of the steps: the buffer has room for a publication, the
    number of the next event does not wrap, no other subscriber gets the stream's
    number, and the history still reaches back to the cursor when it is read. *)
Definition roomy_step (ev : lifecycle_event) (w : lifecycle_world) : Prop :=
  let id := ls_id (lw_stream w) in
  match ev with
  | LcBus (EventBus.OpPublish _ _) =>
    (Z.of_nat (length (lw_log w)) + 1 < 2 ^ 64)%Z ∧
    ∀ ch, EventBus.subscribers (lw_bus w) !! id = Some ch → length (EventBus.ch_buffer ch) < EventBus.ch_capacity ch
  | LcBus (EventBus.OpSubscribe _) => wrap_u64 (EventBus.nextSubID (lw_bus w) + 1) ≠ id
  | LcBus (EventBus.OpCancel i) | LcBus (EventBus.OpReceive i) => i ≠ id
  | LcHistory => (Z.of_nat (length (lw_log w)) - Z.of_nat (EventBus.historyLimit (lw_bus w)) ≤ ls_after (lw_stream w))%Z
  | _ => True
  end.

Fixpoint roomy (l : list lifecycle_event) (w : lifecycle_world) : Prop :=
  match l with
  | [] => True
  | ev :: l => roomy_step ev w ∧ match lifecycle_step ev w with Some w => roomy l w | None => True end
  end.

(** ** Pages and streams tell the log *)

(** The bus holds the end of a log that is numbered from one. *)
Record tells (bus : EventBus.t) (log : list EventBus.LifecycleEvent) : Prop := {
  tl_numbers : EventBus.ev_Sequence <$> log = seqZ 1 (Z.of_nat (length log));
  tl_next : EventBus.nextSequence bus = Z.of_nat (length log);
  tl_history : EventBus.history bus = take_last (EventBus.historyLimit bus) log;
  tl_limit : EventBus.historyLimit bus ≠ 0;
}.

Lemma filter_none {A} (P : A → Prop) `{∀ x, Decision (P x)} (l : list A) : (∀ x, x ∈ l → ¬ P x) → filter P l = [].
Proof.
  induction l as [|x l IH]; intros Hl; [done|]. rewrite filter_cons_False by (apply Hl; by left).
  apply IH. intros y Hy. apply Hl. by right.
Qed.

Lemma tells_at bus log i e : tells bus log → log !! i = Some e → EventBus.ev_Sequence e = (Z.of_nat i + 1)%Z.
Proof.
  intros [Hn _ _ _] Hi. assert (H : (EventBus.ev_Sequence <$> log) !! i = Some (EventBus.ev_Sequence e)) by by rewrite list_lookup_fmap, Hi.
  rewrite Hn in H. apply lookup_seqZ in H as [H _]. lia.
Qed.

Lemma tells_same bus bus' log :
  tells bus log → EventBus.nextSequence bus' = EventBus.nextSequence bus → EventBus.history bus' = EventBus.history bus →
  EventBus.historyLimit bus' = EventBus.historyLimit bus → tells bus' log.
Proof. intros [H1 H2 H3 H4] E1 E2 E3. split; [done|by rewrite E1|by rewrite E2, E3|by rewrite E3]. Qed.

Lemma tells_step bus log o :
  tells bus log → (Z.of_nat (length log) + 1 < 2 ^ 64)%Z → tells (EventBus.step bus o) (EventBus.log_step log o).
Proof.
  intros Ht Hb. destruct o as [now event| | |]; try (by eapply tells_same). destruct Ht as [H1 H2 H3 H4].
  assert (Hw : wrap_u64 (Z.of_nat (length log) + 1) = (Z.of_nat (length log) + 1)%Z) by (apply wrap_u64_small; lia).
  split; cbn [EventBus.step EventBus.Publish fst EventBus.log_step EventBus.nextSequence EventBus.history EventBus.historyLimit].
  - rewrite fmap_app, H1, length_app, Nat2Z.inj_add, seqZ_app by lia. f_equal. simpl. by rewrite Hw, Z.add_comm.
  - rewrite H2, Hw, length_app. simpl. lia.
  - rewrite H2. rewrite <-(EventBus.take_last_snoc _ _ log _ H4 H3). unfold take_last at 1.
    destruct (Nat.ltb_spec 0 (length (EventBus.history bus ++ [EventBus.stamp (wrap_u64 (Z.of_nat (length log) + 1)) now event]) - EventBus.historyLimit bus)) as [|Hle]; [done|].
    by rewrite (proj1 (Nat.le_0_r _) Hle).
  - done.
Qed.

Lemma tells_history bus log after :
  tells bus log → (0 ≤ after)%Z → (Z.of_nat (length log) - Z.of_nat (EventBus.historyLimit bus) ≤ after)%Z →
  EventBus.History bus after = drop (Z.to_nat after) log.
Proof.
  intros Ht H0 Hr. unfold EventBus.History. rewrite (tl_history _ _ Ht). unfold take_last.
  rewrite <-(take_drop (Z.to_nat after) log) at 2. rewrite skipn_app.
  assert (length (take (Z.to_nat after) log) = Z.to_nat after ∨ drop (Z.to_nat after) log = []) as Hlen.
  { destruct (Nat.le_gt_cases (Z.to_nat after) (length log)); [left; rewrite length_take; lia|right; apply drop_ge; lia]. }
  rewrite filter_app. replace (filter _ (drop _ (take _ _))) with (@nil EventBus.LifecycleEvent).
  2:{ symmetry. apply filter_none. intros e He. apply list_elem_of_lookup in He as [i He]. rewrite lookup_drop in He.
      apply lookup_take_Some in He as [He Hlt]. apply (tells_at _ _ _ _ Ht) in He. lia. }
  rewrite app_nil_l.
  rewrite filter_all.
  2:{ intros e He. apply list_elem_of_lookup in He as [i He]. rewrite !lookup_drop in He. apply (tells_at _ _ _ _ Ht) in He. lia. }
  destruct Hlen as [Hlen| ->]; [|by rewrite drop_nil]. rewrite Hlen. by replace (_ - _ - _) with 0 by lia.
Qed.

(** *** Where the stream is *)

Definition left_of (p : lifecycle_phase) : list EventBus.LifecycleEvent :=
  match p with ReplayingHistory l => l | _ => [] end.

(** The stream's channel holds the log from [b] on. *)
Definition channel_from (w : lifecycle_world) (b : nat) : Prop :=
  b ≤ length (lw_log w) ∧ ∃ ch, EventBus.subscribers (lw_bus w) !! ls_id (lw_stream w) = Some ch
    ∧ EventBus.ch_buffer ch = drop b (lw_log w).

(** What has been written, then, is the log from the cursor to [ls_after], and [r] is
    how far the replay will get. *)
Definition placed (cur : nat) (w : lifecycle_world) : Prop :=
  let s := lw_stream w in
  match ls_phase s with
  | ReadingHistory => ls_out s = [] ∧ ls_after s = Z.of_nat cur ∧ ∃ b, channel_from w b
  | Finished => ∃ r, cur ≤ r ≤ length (lw_log w) ∧ ls_out s = drop cur (take r (lw_log w))
  | p => ∃ b r, channel_from w b ∧ b ≤ r ∧ cur ≤ r ≤ length (lw_log w)
           ∧ ls_out s ++ left_of p = drop cur (take r (lw_log w)) ∧ ls_after s = Z.of_nat (cur + length (ls_out s))
  end.

Record on_track (cur : nat) (w : lifecycle_world) : Prop := {
  ot_tells : tells (lw_bus w) (lw_log w);
  ot_cursor : cur ≤ length (lw_log w);
  ot_placed : placed cur w;
}.

Ltac world_simpl := cbn [lw_bus lw_log lw_stream with_lifecycle at_phase ls_after ls_id ls_phase ls_out left_of
  EventBus.subscribers EventBus.nextSequence EventBus.history EventBus.historyLimit] in *.

(** A log that has grown at its end. *)
Lemma placed_grows cur w w' l :
  placed cur w → cur ≤ length (lw_log w) → lw_log w' = lw_log w ++ l → lw_stream w' = lw_stream w →
  (∀ b, channel_from w b → channel_from w' b) → placed cur w'.
Proof.
  unfold placed. intros Hp Hcur Hl -> Hch.
  assert (Ht : ∀ r, r ≤ length (lw_log w) → take r (lw_log w') = take r (lw_log w)) by (intros r Hr; by rewrite Hl, take_app_le).
  assert (Hlen : length (lw_log w) ≤ length (lw_log w')) by (rewrite Hl, length_app; lia).
  destruct (ls_phase (lw_stream w)).
  - destruct Hp as (? & ? & b & ?). eauto.
  - destruct Hp as (b & r & ? & ? & [? ?] & ? & ?). exists b, r. rewrite Ht by done. split_and!; auto; lia.
  - destruct Hp as (b & r & ? & ? & [? ?] & ? & ?). exists b, r. rewrite Ht by done. split_and!; auto; lia.
  - destruct Hp as (r & [? ?] & ?). exists r. rewrite Ht by done. split_and!; auto; lia.
Qed.

Lemma channel_bus w o b :
  tells (lw_bus w) (lw_log w) → roomy_step (LcBus o) w → channel_from w b →
  channel_from (mkLifecycleWorld (EventBus.step (lw_bus w) o) (EventBus.log_step (lw_log w) o) (lw_stream w)) b.
Proof.
  intros Ht Hroom (Hb & ch & Hl & Hbuf). unfold channel_from. destruct o as [now event|buffer|i|i]; cbn [roomy_step] in Hroom; world_simpl;
    cbn [EventBus.step EventBus.log_step EventBus.Publish EventBus.Subscribe EventBus.Cancel EventBus.Receive fst EventBus.subscribers].
  - destruct Hroom as [_ Hroom]. specialize (Hroom ch Hl). split; [rewrite length_app; lia|].
    rewrite lookup_fmap, Hl. eexists. split; [done|]. unfold EventBus.offer. rewrite (proj2 (Nat.ltb_lt _ _) Hroom).
    cbn [EventBus.ch_buffer]. by rewrite Hbuf, drop_app_le, (tl_next _ _ Ht).
  - split; [done|]. exists ch. by rewrite lookup_insert_ne.
  - split; [done|]. exists ch. by rewrite lookup_delete_ne.
  - split; [done|]. exists ch. by rewrite lookup_alter_ne.
Qed.

Lemma on_track_bus cur w o :
  on_track cur w → roomy_step (LcBus o) w → (∀ now e, o = EventBus.OpPublish now e → (Z.of_nat (length (lw_log w)) + 1 < 2 ^ 64)%Z) →
  on_track cur (mkLifecycleWorld (EventBus.step (lw_bus w) o) (EventBus.log_step (lw_log w) o) (lw_stream w)).
Proof.
  intros [Ht Hcur Hp] Hroom Hb.
  assert (Hgrow : ∃ l, EventBus.log_step (lw_log w) o = lw_log w ++ l) by (destruct o; eexists; [done|symmetry; apply app_nil_r..]).
  destruct Hgrow as [l Hl]. split; world_simpl.
  - destruct o; [by apply tells_step; eauto|by eapply tells_same..].
  - rewrite Hl, length_app. lia.
  - eapply placed_grows; [exact Hp|done|exact Hl|done|]. intros b. by apply channel_bus.
Qed.

Lemma placed_finish cur w r :
  cur ≤ r ≤ length (lw_log w) → ls_out (lw_stream w) = drop cur (take r (lw_log w)) → placed cur (finish_stream w).
Proof. intros Hr Ho. exists r. by split. Qed.

Lemma on_track_finish cur w r :
  tells (lw_bus w) (lw_log w) → cur ≤ r ≤ length (lw_log w) → ls_out (lw_stream w) = drop cur (take r (lw_log w)) →
  on_track cur (finish_stream w).
Proof.
  intros Ht Hr Ho. split; [by eapply tells_same|simpl; lia|]. by eapply placed_finish.
Qed.

(** What has been written, when some is left to write. *)
Lemma written_part cur r (log out l : list EventBus.LifecycleEvent) :
  cur ≤ r ≤ length log → out ++ l = drop cur (take r log) → out = drop cur (take (cur + length out) log) ∧ cur + length out ≤ r.
Proof.
  intros Hr Ho. assert (Hlen : length out + length l = r - cur).
  { apply (f_equal length) in Ho. rewrite length_app, length_drop, length_take in Ho. lia. }
  split; [|lia]. apply (f_equal (take (length out))) in Ho. rewrite take_app_length in Ho. rewrite Ho at 1.
  rewrite take_drop_commute, take_take. by replace ((cur + length out) `min` r) with (cur + length out) by lia.
Qed.

Lemma on_track_step cur ev w w' :
  on_track cur w → roomy_step ev w → lifecycle_step ev w = Some w' → on_track cur w'.
Proof.
  intros J Hroom. pose proof J as [Ht Hcur Hp]. destruct ev as [o| |ok|ok|ok|]; cbn [lifecycle_step].
  - intros [= <-]. apply on_track_bus; [done..|]. intros now e ->. apply Hroom.
  - destruct (ls_phase (lw_stream w)) eqn:Hph; try done. intros [= <-]. unfold placed in Hp. rewrite Hph in Hp.
    destruct Hp as (Ho & Ha & b & Hb). split; [done..|]. unfold placed. world_simpl.
    exists b, (length (lw_log w)). rewrite Ho, Ha, firstn_all, app_nil_l. cbn [roomy_step] in Hroom. rewrite Ha in Hroom.
    split_and!; [done|apply Hb|done..| |simpl; lia]. rewrite (tells_history _ _ _ Ht) by lia. by rewrite Nat2Z.id.
  - destruct (ls_phase (lw_stream w)) as [|[|e l]| |] eqn:Hph; try done; unfold placed in Hp; rewrite Hph in Hp;
      destruct Hp as (b & r & Hb & Hbr & Hr & Ho & Ha); intros [= <-].
    + split; [done..|]. exists b, r. exact (conj Hb (conj Hbr (conj Hr (conj Ho Ha)))).
    + world_simpl. destruct (written_part _ _ _ _ _ Hr Ho) as [Hout Hle].
      assert (He : lw_log w !! (cur + length (ls_out (lw_stream w))) = Some e).
      { assert (H : (ls_out (lw_stream w) ++ e :: l) !! length (ls_out (lw_stream w)) = Some e) by by rewrite list_lookup_middle.
        rewrite Ho, lookup_drop in H. by apply lookup_take_Some in H as [H _]. }
      apply (tells_at _ _ _ _ Ht) in He. unfold take_event. rewrite (proj2 (Z.leb_gt _ _)) by lia.
      destruct ok; cbn [negb]; [|by apply (on_track_finish _ _ (cur + length (ls_out (lw_stream w)))); [done|lia|]].
      split; [done..|]. exists b, r. world_simpl. split_and!; [exact Hb|lia|lia|lia|by rewrite <-app_assoc|]. rewrite length_app. simpl. lia.
  - destruct (ls_phase (lw_stream w)) eqn:Hph; try done. unfold placed in Hp. rewrite Hph in Hp.
    destruct Hp as (b & r & (Hb & ch & Hl & Hbuf) & Hbr & Hr & Ho & Ha). rewrite Hl. world_simpl. rewrite app_nil_r in Ho.
    destruct ch as [[|e buf] cap]; [done|]. intros [= <-]. cbn [EventBus.ch_buffer] in Hbuf.
    assert (He : lw_log w !! b = Some e) by (rewrite <-(Nat.add_0_r b), <-lookup_drop, <-Hbuf; done).
    assert (Hlt : b < length (lw_log w)) by (by eapply lookup_lt_Some).
    assert (Hlen : cur + length (ls_out (lw_stream w)) = r) by (rewrite Ho, length_drop, length_take; lia).
    pose proof (tells_at _ _ _ _ Ht He) as Hseq.
    set (w1 := mkLifecycleWorld (EventBus.Receive (ls_id (lw_stream w)) (lw_bus w)) (lw_log w) (lw_stream w)).
    assert (J1 : tells (lw_bus w1) (lw_log w1)) by by eapply tells_same.
    assert (Hch : ∀ s, ls_id s = ls_id (lw_stream w) → channel_from (with_lifecycle s w1) (S b)).
    { intros s Hs. split; [done|]. world_simpl. rewrite Hs. eexists. cbn [w1 lw_bus EventBus.Receive EventBus.subscribers].
      rewrite lookup_alter_eq, Hl. split; [done|]. cbn [EventBus.ch_buffer tail]. erewrite drop_S in Hbuf by done. by injection Hbuf. }
    unfold take_event. cbn [w1 lw_stream]. fold w1. destruct (Z.leb_spec (EventBus.ev_Sequence e) (ls_after (lw_stream w))) as [Hle|Hgt].
    + split; [done..|]. exists (S b), r. split; [by apply Hch|]. world_simpl. rewrite app_nil_r. destruct Hr. split_and!; [lia|done|done|done|done].
    + assert (b = r) as -> by lia. destruct ok; cbn [negb].
      * split; [done..|]. exists (S r), (S r). split; [by apply Hch|]. world_simpl. rewrite app_nil_r, length_app. simpl.
        split_and!; [lia|lia|lia| |lia]. erewrite take_S_r by done. rewrite Ho, drop_app_le; [done|]. rewrite length_take. lia.
      * by apply (on_track_finish _ _ r).
  - destruct (ls_phase (lw_stream w)) eqn:Hph; try done. destruct ok; intros [= <-]; [done|]. unfold placed in Hp. rewrite Hph in Hp.
    destruct Hp as (b & r & ? & ? & ? & Ho & ?). cbn [left_of] in Ho. rewrite app_nil_r in Ho. by apply (on_track_finish _ _ r).
  - destruct (ls_phase (lw_stream w)) eqn:Hph; try done. intros [= <-]. unfold placed in Hp. rewrite Hph in Hp.
    destruct Hp as (b & r & ? & ? & ? & Ho & ?). cbn [left_of] in Ho. rewrite app_nil_r in Ho. by apply (on_track_finish _ _ r).
Qed.

Lemma on_track_run cur l w w' :
  on_track cur w → roomy l w → lifecycle_run l w = Some w' → on_track cur w'.
Proof.
  revert w. induction l as [|ev l IH]; intros w J; cbn [roomy lifecycle_run]; [by intros _ [= <-]|].
  intros [Hs Hrest]. destruct (lifecycle_step ev w) as [w1|] eqn:Hstep; [|done]. simpl.
  apply IH; [by eapply on_track_step|done].
Qed.

Lemma log_step_length log o : length log ≤ length (EventBus.log_step log o) ∧ length (EventBus.log_step log o) ≤ S (length log).
Proof. destruct o; cbn [EventBus.log_step]; rewrite ?length_app; simpl; lia. Qed.

(** A bus that has been used tells its log. *)
Lemma tells_run limit ops :
  (Z.of_nat (length (foldl EventBus.log_step [] ops)) < 2 ^ 64)%Z →
  tells (foldl EventBus.step (EventBus.NewEventBus limit) ops) (foldl EventBus.log_step [] ops).
Proof.
  induction ops as [|o ops IH] using rev_ind; intros Hb.
  - split; try done. simpl. destruct (Z.leb_spec limit 0); lia.
  - rewrite !foldl_snoc in *. destruct (log_step_length (foldl EventBus.log_step [] ops) o) as [H1 H2].
    destruct o as [now event|buffer|i|i]; try (eapply tells_same; [apply IH; simpl in Hb; lia|done..]).
    apply tells_step; [apply IH; lia|]. cbn [EventBus.log_step] in Hb. rewrite length_app in Hb. simpl in Hb. lia.
Qed.

(** C38. The stream of lifecycle events, opened on any bus with a cursor that the bus has
    reached, while events are published and other subscribers come and go between its
    steps: what it has written is, in order and without a gap, the log of events behind
    the cursor, and all of it once the stream follows with nothing left in its channel.
    This needs a reader that keeps up with the buffer of 32 events, and a history that
    still reaches back to the cursor when it is read. *)
Theorem lifecycle_stream_has_no_gaps limit ops after l w
    (Hlog : (Z.of_nat (length (foldl EventBus.log_step [] ops)) < 2 ^ 64)%Z)
    (Hcursor : (0 ≤ after ≤ Z.of_nat (length (foldl EventBus.log_step [] ops)))%Z)
    (Hroomy : roomy l (open_lifecycle after (foldl EventBus.step (EventBus.NewEventBus limit) ops) (foldl EventBus.log_step [] ops)))
    (Hrun : lifecycle_run l (open_lifecycle after (foldl EventBus.step (EventBus.NewEventBus limit) ops) (foldl EventBus.log_step [] ops)) = Some w) :
  ∃ rest, drop (Z.to_nat after) (lw_log w) = ls_out (lw_stream w) ++ rest ∧
    (ls_phase (lw_stream w) = Following →
     (EventBus.ch_buffer <$> EventBus.subscribers (lw_bus w) !! ls_id (lw_stream w)) = Some [] → rest = []).
Proof.
  pose proof (tells_run limit ops Hlog) as Ht. revert Ht Hcursor Hroomy Hrun.
  generalize (foldl EventBus.step (EventBus.NewEventBus limit) ops) (foldl EventBus.log_step [] ops). intros bus log Ht Hcursor Hroomy Hrun.
  assert (on_track (Z.to_nat after) (open_lifecycle after bus log)) as J.
  { split; cbn; [by eapply tells_same|lia|]. split_and!; [done|lia|]. exists (length log). split; [done|].
    eexists. cbn. rewrite lookup_insert_eq. split; [done|]. cbn. symmetry. by apply drop_ge. }
  destruct (on_track_run _ _ _ _ J Hroomy Hrun) as [_ Hcur Hp]. unfold placed in Hp.
  assert (Hwritten : ∀ r, Z.to_nat after ≤ r ≤ length (lw_log w) →
    drop (Z.to_nat after) (lw_log w) = drop (Z.to_nat after) (take r (lw_log w)) ++ drop r (lw_log w)).
  { intros r Hr. rewrite <-(take_drop r (lw_log w)) at 1. rewrite drop_app_le; [done|]. rewrite length_take. lia. }
  destruct (ls_phase (lw_stream w)) as [|left| |] eqn:Hph.
  - destruct Hp as (-> & _). eexists. by split.
  - destruct Hp as (b & r & _ & _ & Hr & Ho & _). exists (left ++ drop r (lw_log w)). split; [|done].
    rewrite (Hwritten r Hr), <-Ho. cbn [left_of]. by rewrite (assoc_L (++)).
  - destruct Hp as (b & r & (_ & ch & Hl & Hbuf) & Hb & Hr & Ho & _). cbn [left_of] in Ho. rewrite app_nil_r in Ho.
    exists (drop r (lw_log w)). split; [by rewrite (Hwritten r Hr), <-Ho|]. rewrite Hl. intros _ [= He]. rewrite Hbuf in He.
    apply drop_ge. apply (f_equal length) in He. rewrite length_drop in He. simpl in He. lia.
  - destruct Hp as (r & Hr & Ho). exists (drop r (lw_log w)). split; [by rewrite (Hwritten r Hr), <-Ho|done].
Qed.

(** Polling misses nothing either: the page behind a cursor, and the page behind the
    [next_after] that came with it, at any later time, are together the log behind the
    cursor, as long as the history reaches back to the cursor of each request. *)
Theorem event_pages_resume limit ops more after
    (Hlog : (Z.of_nat (length (foldl EventBus.log_step [] (ops ++ more))) < 2 ^ 64)%Z)
    (Hcursor : (0 ≤ after ≤ Z.of_nat (length (foldl EventBus.log_step [] ops)))%Z) :
  let bus := foldl EventBus.step (EventBus.NewEventBus limit) ops in
  let bus' := foldl EventBus.step bus more in
  let page := EventBus.History bus after in
  let next := lastSequence after page in
  (Z.of_nat (length (foldl EventBus.log_step [] ops)) - Z.of_nat (EventBus.historyLimit bus) ≤ after)%Z →
  (Z.of_nat (length (foldl EventBus.log_step [] (ops ++ more))) - Z.of_nat (EventBus.historyLimit bus') ≤ next)%Z →
  page ++ EventBus.History bus' next = drop (Z.to_nat after) (foldl EventBus.log_step [] (ops ++ more)).
Proof.
  cbv zeta. intros H1 H2. pose proof (tells_run limit (ops ++ more) Hlog) as Ht'. rewrite !foldl_app in *.
  assert (Hlen : ∀ log, ∃ k, foldl EventBus.log_step log more = log ++ k).
  { clear. induction more as [|o more IH]; intros log; [exists []; by rewrite app_nil_r|]. simpl.
    destruct (IH (EventBus.log_step log o)) as [k ->]. destruct o; cbn [EventBus.log_step]; [|by exists k..].
    eexists. by rewrite <-(assoc_L (++)). }
  destruct (Hlen (foldl EventBus.log_step [] ops)) as [k Hk]. rewrite Hk in *. rewrite length_app in *.
  assert (Ht : tells (foldl EventBus.step (EventBus.NewEventBus limit) ops) (foldl EventBus.log_step [] ops)) by (apply tells_run; lia).
  set (log := foldl EventBus.log_step [] ops) in *. set (bus := foldl EventBus.step (EventBus.NewEventBus limit) ops) in *.
  rewrite (tells_history bus log after) in * by (done || lia).
  assert (Hnext : lastSequence after (drop (Z.to_nat after) log) = Z.of_nat (length log)).
  { unfold lastSequence. destruct (last (drop (Z.to_nat after) log)) as [e|] eqn:He.
    - rewrite last_lookup, lookup_drop, length_drop in He. apply (tells_at _ _ _ _ Ht) in He as Hs. apply lookup_lt_Some in He. lia.
    - apply last_None in He. apply (f_equal length) in He. rewrite length_drop in He. simpl in He. lia. }
  rewrite Hnext in *. rewrite (tells_history _ _ _ Ht') by (rewrite ?length_app; lia). rewrite Nat2Z.id.
  rewrite (drop_app_le log k (Z.to_nat after)) by lia. by rewrite drop_app_length.
Qed.

(** ** Examples *)

Module ExampleEvents.

Definition published (n : nat) : list EventBus.op :=
  replicate n (EventBus.OpPublish 5 (EventBus.mkEvent 0 EventBus.EventPublished "kilo" 1 "" 0 0)).
Definition used (n : nat) : EventBus.t := foldl EventBus.step (EventBus.NewEventBus 0) (published n).
Definition log_of (n : nat) : list EventBus.LifecycleEvent := foldl EventBus.log_step [] (published n).
Definition publish : lifecycle_event := LcBus (EventBus.OpPublish 6 (EventBus.mkEvent 0 EventBus.EventDrained "kilo" 2 "" 0 0)).

(** Three events before the stream, two while it replays. *)
Definition busy_bus : list lifecycle_event :=
  [publish; LcHistory; LcReplay true; publish; LcReplay true; LcReplay true; LcReplay true; LcReceive true; LcReceive true].
Definition opened : lifecycle_world := open_lifecycle 1 (used 3) (log_of 3).

Lemma lifecycle_stream_has_no_gaps_witness :
  ∃ w, lifecycle_run busy_bus opened = Some w ∧ drop 1 (lw_log w) = ls_out (lw_stream w)
    ∧ EventBus.ev_Sequence <$> ls_out (lw_stream w) = [2; 3; 4; 5]%Z.
Proof.
  destruct (lifecycle_run busy_bus opened) as [w|] eqn:E; [|vm_compute in E; discriminate].
  exists w. split; [reflexivity|].
  assert (Hphase : ls_phase (lw_stream w) = Following ∧ EventBus.ch_buffer <$> EventBus.subscribers (lw_bus w) !! ls_id (lw_stream w) = Some []
    ∧ EventBus.ev_Sequence <$> ls_out (lw_stream w) = [2; 3; 4; 5]%Z)
    by (revert E; vm_compute; intros [= <-]; split; [reflexivity|split; reflexivity]).
  destruct (lifecycle_stream_has_no_gaps 0 (published 3) 1 busy_bus w) as (rest & Hrest & Hall).
  - vm_compute. reflexivity.
  - split; vm_compute; discriminate.
  - vm_compute. repeat match goal with
      | |- True => exact I
      | |- _ ∧ _ => split
      | |- _ = _ → False => discriminate
      | |- _ = _ => reflexivity
      | |- ∀ ch, Some _ = Some ch → _ => intros ? [= <-]; repeat constructor
      end.
  - exact E.
  - split; [|exact (proj2 (proj2 Hphase))]. rewrite (Hall (proj1 Hphase) (proj1 (proj2 Hphase))), app_nil_r in Hrest. exact Hrest.
Defined.

Lemma event_pages_resume_witness :
  EventBus.History (used 3) 1 ++ EventBus.History (foldl EventBus.step (used 3) (published 2)) 3 = drop 1 (log_of 5)
  ∧ length (drop 1 (log_of 5)) = 4.
Proof.
  split; [|vm_compute; reflexivity].
  apply (event_pages_resume 0 (published 3) (published 2) 1); vm_compute; try reflexivity; try discriminate. split; discriminate.
Defined.

(** The numbers start again with the daemon: a client that comes back with the cursor of
    the daemon before is told nothing until the new one has published as many events. *)
Example old_cursor_hears_nothing :
  let w := lifecycle_run [LcHistory; LcReplay true; publish; LcReceive true; publish; LcReceive true] (open_lifecycle 500 (used 3) (log_of 3)) in
  (λ w, (length (lw_log w), length (ls_out (lw_stream w)))) <$> w = Some (5, 0).
Proof. vm_compute. reflexivity. Qed.

(** A mutation that was written, could not be published and could not be undone is
    answered as an invalid request. *)
Example half_done_mutation_is_invalid text r :
  mutation_outcome text (Err (r, RestoreFailed 7 (ConflictError 7 8))) = Err (400%Z, "invalid_mutation", text (RestoreFailed 7 (ConflictError 7 8)), []).
Proof. reflexivity. Qed.

End ExampleEvents.
