(* ===== verification/Client.v ===== *)
(** * The client of the control API

    [internal/client/client.go] and [resources.go]: the profile of a connection, one
    request with its headers, the reading of error envelopes, and the retries.  What the
    transport does with a request is an argument.

    The retries of a mutation carry one idempotency key; [mutation_runs_once] is about
    that key at the daemon, over the steps of [Idempotency]. *)

From stdpp Require Import pretty.
From S2P Require Import Prelude GoStd Writers GoJson Idempotency.

#[local] Set Default Proof Using "Type".

(** ** The profile *)

(* src/internal/client/client.go Profile *)
Record Profile := mkProfile {
  pf_Name : string; pf_Transport : string; pf_Socket : string; pf_Address : string; pf_Token : string;
  pf_CACertFile : string; pf_ClientCertFile : string; pf_ClientKeyFile : string; pf_ServerName : string;
  pf_TimeoutSeconds : Z; pf_MaxRetries : Z;
}.

(* src/internal/client/client.go TransportUnix *)
Definition TransportUnix : string := "unix".
(* src/internal/client/client.go TransportHTTPS *)
Definition TransportHTTPS : string := "https".
(* src/internal/client/client.go DefaultTimeout *)
Definition DefaultTimeout : Duration := (30 * Second)%Z.
(* src/internal/client/client.go DefaultMaxRetries *)
Definition DefaultMaxRetries : Z := 2.
(* src/internal/client/client.go ClientVersion *)
(* src/internal/control/version.go CurrentClientVersion *)
Definition ClientVersion : string := "1.1.0".

Inductive new_error :=
| SocketRequired | AddressRequired | UnsupportedTransport (transport : string)
| ReadCACertificate | NoValidCertificates | CertificateAndKey | LoadClientCertificate.

(** What the files say: whether a file can be read, whether it holds certificates, and
    whether a pair of files is a certificate with its key. *)
Record tls_files := mkTLSFiles { tf_readable : string → bool; tf_pem : string → bool; tf_pair : string → string → bool }.

(** The verification name, the file of the roots and the client's pair. *)
Record tls_config := mkTLS { tc_ServerName : string; tc_RootCAs : option string; tc_Certificate : option (string * string) }.

(* src/internal/client/client.go buildTLSConfig *)
Definition buildTLSConfig (files : tls_files) (profile : Profile) : result tls_config new_error :=
  let ca := TrimSpace (pf_CACertFile profile) in
  let? roots :=
    if String.eqb ca "" then Ok None
    else if negb (tf_readable files ca) then Err ReadCACertificate
    else if negb (tf_pem files ca) then Err NoValidCertificates
    else Ok (Some ca) in
  let certFile := TrimSpace (pf_ClientCertFile profile) in
  let keyFile := TrimSpace (pf_ClientKeyFile profile) in
  if negb (Bool.eqb (String.eqb certFile "") (String.eqb keyFile "")) then Err CertificateAndKey
  else if String.eqb certFile "" then Ok (mkTLS (TrimSpace (pf_ServerName profile)) roots None)
  else if negb (tf_pair files certFile keyFile) then Err LoadClientCertificate
  else Ok (mkTLS (TrimSpace (pf_ServerName profile)) roots (Some (certFile, keyFile))).

Inductive dialed := DialUnix (socket : string) | DialTLS (config : tls_config).

(* src/internal/client/client.go Client *)
Record Client := mkClient {
  cl_profile : Profile; cl_baseURL : string; cl_dial : dialed; cl_maxRetries : Z; cl_timeout : Duration;
}.

Definition with_transport (transport : string) (p : Profile) : Profile :=
  mkProfile (pf_Name p) transport (pf_Socket p) (pf_Address p) (pf_Token p) (pf_CACertFile p) (pf_ClientCertFile p)
    (pf_ClientKeyFile p) (pf_ServerName p) (pf_TimeoutSeconds p) (pf_MaxRetries p).

(* src/internal/client/client.go New *)
Definition New (files : tls_files) (profile : Profile) : result Client new_error :=
  let profile := if String.eqb (pf_Transport profile) "" then with_transport TransportUnix profile else profile in
  let timeout := if (0 <? pf_TimeoutSeconds profile)%Z then wrap_i64 (pf_TimeoutSeconds profile * Second) else DefaultTimeout in
  let maxRetries := if (0 <? pf_MaxRetries profile)%Z then pf_MaxRetries profile else DefaultMaxRetries in
  if String.eqb (pf_Transport profile) TransportUnix then
    let socket := TrimSpace (pf_Socket profile) in
    if String.eqb socket "" then Err SocketRequired
    else Ok (mkClient profile "http://ya-router-control" (DialUnix socket) maxRetries timeout)
  else if String.eqb (pf_Transport profile) TransportHTTPS then
    let address := TrimSpace (pf_Address profile) in
    if String.eqb address "" then Err AddressRequired
    else
      let? config := buildTLSConfig files profile in
      Ok (mkClient profile ("https://" +:+ address) (DialTLS config) maxRetries timeout)
  else Err (UnsupportedTransport (pf_Transport profile)).

(** ** One request *)

(** [None] is the request without a body. *)
Record http_request := mkHTTP { hq_Method : string; hq_URL : string; hq_Headers : list (string * string); hq_Body : option string }.

(** What becomes of a request: it cannot be built, it fails, its answer cannot be read,
    or it is answered. *)
Inductive http_outcome := BuildFails | DoFails | ReadFails | Answers (status : Z) (payload : string).

(* src/internal/client/client.go APIError *)
Record APIError := mkAPIError {
  ap_Status : Z; ap_Code : string; ap_Message : string; ap_Retryable : bool; ap_RequestID : string; ap_Details : option json;
}.

(* src/internal/client/client.go transportError *)
Inductive client_error :=
| EncodeError | KeyError | BuildError | transportError | APIFailed (e : APIError) | DecodeError | ContextDone
| CompatibilityError (minimum maximum : string) | IDRequired.

(* src/internal/client/client.go shouldRetry *)
Definition shouldRetry (e : client_error) : bool :=
  match e with
  | transportError => true
  | APIFailed e => ap_Retryable e && (500 <=? ap_Status e)%Z
  | _ => false
  end.

(** A negative wait is over at once; the shift is the one of [int64]. *)
(* src/internal/client/client.go backoff *)
Definition backoff (attempt : Z) : Duration :=
  let d := wrap_i64 (Z.shiftl 100000000 (attempt - 1)) in
  if (2 * Second <? d)%Z then (2 * Second)%Z else d.

Definition error_body : Type := string * string * bool * string * option json.
Definition no_body : error_body := ("", "", false, "", None).

(** [details] keeps the tree of the object. *)
Definition d_object : decoder (option json) := λ v old, match v with JObj _ => Some (Some v) | JNull => Some None | _ => None end.

(* src/internal/control/errors.go ErrorEnvelope *)
Definition d_envelope : decoder error_body :=
  d_struct [fld "error" id (λ x _, x) (d_struct [
    fld "code" (λ b : error_body, b.1.1.1.1) (λ x b, (x, b.1.1.1.2, b.1.1.2, b.1.2, b.2)) d_string;
    fld "message" (λ b : error_body, b.1.1.1.2) (λ x b, (b.1.1.1.1, x, b.1.1.2, b.1.2, b.2)) d_string;
    fld "retryable" (λ b : error_body, b.1.1.2) (λ x b, (b.1.1.1.1, b.1.1.1.2, x, b.1.2, b.2)) d_bool;
    fld "request_id" (λ b : error_body, b.1.2) (λ x b, (b.1.1.1.1, b.1.1.1.2, b.1.1.2, x, b.2)) d_string;
    fld "details" (λ b : error_body, b.2) (λ x b, (b.1.1.1.1, b.1.1.1.2, b.1.1.2, b.1.2, x)) d_object])].

(** An answer is read up to eight megabytes. *)
Definition limited (payload : string) : string :=
  if (Z.of_nat (String.length payload) <=? 8 * 2 ^ 20)%Z then payload else str_take (Z.to_nat (8 * 2 ^ 20)) payload.

Section client.
Context `{JSON}.

(* src/internal/client/client.go decodeAPIError *)
Definition decodeAPIError (status : Z) (payload : string) : APIError :=
  match json_unmarshal payload ≫= unmarshal no_body d_envelope with
  | Some (code, message, retryable, requestID, details) =>
    if String.eqb code "" then mkAPIError status "control_error" "" false "" None
    else mkAPIError status code message retryable requestID details
  | None => mkAPIError status "control_error" "" false "" None
  end.

(* src/internal/client/client.go:239-258 Client.doOnce *)
Definition build_request (c : Client) (method path : string) (encoded : option string) (idempotencyKey : string) : http_request :=
  let token := TrimSpace (pf_Token (cl_profile c)) in
  mkHTTP method (cl_baseURL c +:+ path)
    ([("Accept", "application/json"); ("X-YA-Client-Version", ClientVersion)]
     ++ (match encoded with Some _ => [("Content-Type", "application/json")] | None => [] end)
     ++ (if String.eqb idempotencyKey "" then [] else [("Idempotency-Key", idempotencyKey)])
     ++ (if String.eqb token "" then [] else [("Authorization", "Bearer " +:+ token)]))
    encoded.

(** [out] decodes into the target; without one the answer is not looked at. *)
(* src/internal/client/client.go Client.doOnce *)
Definition read_answer {A} (out : option (string → option A)) (outcome : http_outcome) : result (option A) client_error :=
  match outcome with
  | BuildFails => Err BuildError
  | DoFails | ReadFails => Err transportError
  | Answers status payload =>
    let payload := limited payload in
    if (400 <=? status)%Z then Err (APIFailed (decodeAPIError status payload))
    else match out with
         | None => Ok None
         | Some decode =>
           if String.eqb payload "" then Ok None
           else match decode payload with Some a => Ok (Some a) | None => Err DecodeError end
         end
  end.

(** The attempts from the [attempt]-th on, with what was sent and how long was waited
    before each; [done_at] says whether the context ends before a wait does. *)
(* src/internal/client/client.go:216-236 Client.doJSON *)
Fixpoint attempts_loop {A} (http : nat → http_outcome) (done_at : nat → bool) (out : option (string → option A))
    (request : http_request) (remaining attempt : nat) (last : result (option A) client_error)
    : list (Duration * http_request) * result (option A) client_error :=
  match remaining with
  | O => ([], last)
  | S remaining =>
    if (0 <? attempt)%nat && done_at attempt then ([], Err ContextDone)
    else
      let wait := if (0 <? attempt)%nat then backoff (Z.of_nat attempt) else 0%Z in
      let r := read_answer out (http attempt) in
      let '(sent, r) :=
        match r with
        | Err e => if shouldRetry e then attempts_loop http done_at out request remaining (S attempt) r else ([], r)
        | Ok _ => ([], r)
        end in
      ((wait, request) :: sent, r)
  end.

(** [body] is [Some None] when it cannot be encoded; [key] is the fresh key. *)
(* src/internal/client/client.go Client.doJSON *)
(* src/internal/client/client.go newIdempotencyKey *)
Definition doJSON {A} (c : Client) (method path : string) (body : option (option string)) (key : option string)
    (http : nat → http_outcome) (done_at : nat → bool) (out : option (string → option A))
    : list (Duration * http_request) * result (option A) client_error :=
  match body with
  | Some None => ([], Err EncodeError)
  | _ =>
    let encoded := mjoin body in
    match (if String.eqb method "GET" then Some "" else key) with
    | None => ([], Err KeyError)
    | Some key =>
      attempts_loop http done_at out (build_request c method path encoded key) (Z.to_nat (wrap_i64 (cl_maxRetries c + 1))) 0 (Ok None)
    end
  end.

End client.

(** ** Resources *)

(** The method and the path of each call; [escape] is [url.PathEscape]. *)
Inductive call :=
| CMeta | CProviders | CAccounts | CModels (refresh : bool) | CConfiguration | CRoutingStatus | COperations
| COperation (id : string) | CCreateAuthSession | CCancelAuthSession (id : string) | CApplyMutation | CSecrets
| CSetSecret | CDeleteSecret | CEvents (after : Z).

(* src/internal/client/resources.go:34-179 Client *)
Definition call_target (escape : string → string) (c : call) : result (string * string) client_error :=
  let at_ method path := Ok (method, "/control/v1/" +:+ path) in
  match c with
  | CMeta => at_ "GET" "meta"
  | CProviders => at_ "GET" "providers"
  | CAccounts => at_ "GET" "accounts"
  | CModels refresh => at_ "GET" (if refresh then "models?refresh=true" else "models")
  | CConfiguration => at_ "GET" "config"
  | CRoutingStatus => at_ "GET" "routing/thiendu"
  | COperations => at_ "GET" "operations"
  | COperation id => if String.eqb id "" then Err IDRequired else at_ "GET" ("operations/" +:+ escape id)
  | CCreateAuthSession => at_ "POST" "auth-sessions"
  | CCancelAuthSession id => if String.eqb id "" then Err IDRequired else at_ "DELETE" ("auth-sessions/" +:+ escape id)
  | CApplyMutation => at_ "POST" "config/mutations"
  | CSecrets => at_ "GET" "secrets"
  | CSetSecret => at_ "PUT" "secrets"
  | CDeleteSecret => at_ "DELETE" "secrets"
  | CEvents after => at_ "GET" ("events?after=" +:+ pretty after)
  end.

(** The client compatibility of the answer: the window and the verdict. *)
(* src/internal/client/resources.go Client.CheckCompatible *)
Definition CheckCompatible (meta : result (string * string * bool) client_error) : option client_error :=
  match meta with
  | Err e => Some e
  | Ok (minimum, maximum, compatible) => if compatible : bool then None else Some (CompatibilityError minimum maximum)
  end.

(** ** Retries *)

Section retries.
Context `{JSON} {A : Type}.

Lemma attempts_spec http done_at (out : option (string → option A)) request remaining attempt last sent r :
  attempts_loop http done_at out request remaining attempt last = (sent, r) →
  Forall (λ x, x.2 = request) sent ∧ length sent ≤ remaining ∧
  (∀ i, S i < length sent → ∃ e, read_answer out (http (attempt + i)) = Err e ∧ shouldRetry e = true) ∧
  (sent = [] → r = last ∧ remaining = 0 ∨ r = Err ContextDone ∧ 0 < attempt ∧ done_at attempt = true) ∧
  (sent ≠ [] → r = read_answer out (http (attempt + (length sent - 1))) ∨
     r = Err ContextDone ∧ done_at (attempt + length sent) = true).
Proof.
  revert attempt last sent r. induction remaining as [|remaining IH]; intros attempt last sent r; cbn [attempts_loop].
  { intros [= <- <-]. split_and!; [constructor|simpl; lia|simpl; lia|by left|done]. }
  destruct ((0 <? attempt) && done_at attempt) eqn:Hdone.
  { intros [= <- <-]. apply andb_true_iff in Hdone as [H0%Nat.ltb_lt Hd]. split_and!; [constructor|simpl; lia|simpl; lia|by right|done]. }
  destruct (read_answer out (http attempt)) as [a|e] eqn:Hr; [|destruct (shouldRetry e) eqn:Hs].
  - intros [= <- <-]. split_and!; [by constructor|simpl; lia|simpl; lia|done|]. intros _. left. simpl. by rewrite Nat.add_0_r, Hr.
  - destruct (attempts_loop http done_at out request remaining (S attempt) (Err e)) as [sent' r'] eqn:Hl. intros [= <- <-].
    apply IH in Hl as (Hf & Hlen & Hall & Hnil & Hne). split_and!; [by constructor|simpl; lia| |done|].
    + intros [|i] Hi; [exists e; by rewrite Nat.add_0_r|]. simpl in Hi. replace (attempt + S i) with (S attempt + i) by lia. apply Hall. lia.
    + intros _. destruct sent' as [|x sent'].
      * simpl. rewrite Nat.add_0_r. destruct (Hnil eq_refl) as [[-> _]|(-> & _ & Hd)]; [left; by rewrite Hr|right].
        by replace (attempt + 1) with (S attempt) by lia.
      * destruct (Hne ltac:(done)) as [->|[-> Hd]]; [left|right]; simpl in *.
        -- f_equal. f_equal. lia.
        -- split; [done|]. rewrite <-Hd. f_equal. lia.
  - intros [= <- <-]. split_and!; [by constructor|simpl; lia|simpl; lia|done|]. intros _. left. simpl. by rewrite Nat.add_0_r, Hr.
Qed.

(** However often a call is sent, it is the same request each time, with the same
    idempotency key; it is sent at most once more than the allowed retries, again only
    after a failure of the transport or an error of the daemon that is both retryable
    and 5xx, and its result is that of the last one sent, unless the context ended. *)
Theorem client_retries (c : Client) method path body key http done_at (out : option (string → option A)) sent r
    (Hrun : doJSON c method path body key http done_at out = (sent, r)) :
  (∃ request, Forall (λ x, x.2 = request) sent) ∧
  length sent ≤ Z.to_nat (wrap_i64 (cl_maxRetries c + 1)) ∧
  (∀ i, S i < length sent → ∃ e, read_answer out (http i) = Err e ∧ shouldRetry e = true) ∧
  (sent ≠ [] → r = read_answer out (http (length sent - 1)) ∨ r = Err ContextDone ∧ done_at (length sent) = true).
Proof.
  unfold doJSON in Hrun. assert (Hempty : ∀ e, ([], Err e) = (sent, r) → sent = []) by congruence.
  assert (Hnone : sent = [] → (∃ request, Forall (λ x, x.2 = request) sent) ∧ length sent ≤ Z.to_nat (wrap_i64 (cl_maxRetries c + 1)) ∧
    (∀ i, S i < length sent → ∃ e, read_answer out (http i) = Err e ∧ shouldRetry e = true) ∧
    (sent ≠ [] → r = read_answer out (http (length sent - 1)) ∨ r = Err ContextDone ∧ done_at (length sent) = true)).
  { intros ->. split_and!; [exists (mkHTTP "" "" [] None); constructor|simpl; lia|simpl; lia|done]. }
  assert (Hloop : ∀ request, attempts_loop http done_at out request (Z.to_nat (wrap_i64 (cl_maxRetries c + 1))) 0 (Ok None) = (sent, r) →
    (∃ request, Forall (λ x, x.2 = request) sent) ∧ length sent ≤ Z.to_nat (wrap_i64 (cl_maxRetries c + 1)) ∧
    (∀ i, S i < length sent → ∃ e, read_answer out (http i) = Err e ∧ shouldRetry e = true) ∧
    (sent ≠ [] → r = read_answer out (http (length sent - 1)) ∨ r = Err ContextDone ∧ done_at (length sent) = true)).
  { intros request (Hf & Hlen & Hall & _ & Hne)%attempts_spec. split_and!; [by exists request|done|exact Hall|exact Hne]. }
  destruct body as [[encoded|]|]; [|by apply Hnone, (Hempty EncodeError)|];
    (destruct (String.eqb method "GET"); [by eapply Hloop|destruct key; [by eapply Hloop|by apply Hnone, (Hempty KeyError)]]).
Qed.

End retries.

Lemma backoff_small attempt :
  (1 ≤ attempt ≤ 37)%Z → (0 < 100000000 * 2 ^ (attempt - 1))%Z ∧
  backoff attempt = if (2 * Second <? 100000000 * 2 ^ (attempt - 1))%Z then (2 * Second)%Z else (100000000 * 2 ^ (attempt - 1))%Z.
Proof.
  intros Ha. unfold backoff. rewrite Z.shiftl_mul_pow2 by lia.
  assert (1 ≤ 2 ^ (attempt - 1) ≤ 2 ^ 36)%Z as [H1 H2] by (split; [apply (Z.pow_le_mono_r 2 0)|apply Z.pow_le_mono_r]; lia).
  change (2 ^ 36)%Z with 68719476736%Z in H2. split; [lia|]. by rewrite wrap_i64_small by lia.
Qed.

(** The wait before a retry: a tenth of a second, doubled with each attempt and never
    more than two seconds, for the first thirty-seven; the shift of the thirty-eighth
    overflows, and the client does not wait. *)
Theorem backoff_closed_form attempt (Hattempt : (1 ≤ attempt ≤ 37)%Z) :
  backoff attempt = Z.min (100000000 * 2 ^ (attempt - 1)) (2 * Second) ∧ (0 < backoff attempt ≤ 2 * Second)%Z
  ∧ (backoff 38 < 0)%Z.
Proof.
  destruct (backoff_small _ Hattempt) as [H0 ->]. unfold Second. split_and!; [..|vm_compute; done]; case_match; rewrite ?Z.ltb_lt, ?Z.ltb_ge in *; lia.
Qed.

(** ** One key at the daemon *)

(** While the store does not forget the key: its entry has not expired when another
    request cleans up, and there is room for new entries. *)
Definition kept_step (key : string) (s : IdempotencyStore) (l : label) : Prop :=
  match l with
  | LBegin _ now _ _ _ =>
    match entries s !! key with Some p => expired now s p = false | None => True end ∧ (Z.of_nat (size (entries s)) < maxEntries s)%Z
  | _ => True
  end.

Fixpoint kept (key : string) (s : IdempotencyStore) (ls : list label) : Prop :=
  match ls with
  | [] => True
  | l :: ls => kept_step key s l ∧ match step s l with Some s => kept key s ls | None => True end
  end.

(** The answers of the handlers that ran under a key. *)
Definition runs (key : string) (s : IdempotencyStore) : list (string * string * storedResponse) :=
  filter (λ c, c.1.1 = key) (completed s).

Definition unused (key : string) (s : IdempotencyStore) : Prop := entries s !! key = None ∧ runs key s = [].

(** Under the key nothing has run, or one handler is running, or one has ended and its
    answer is kept. *)
Definition at_most_one (key : string) (s : IdempotencyStore) : Prop :=
  unused key s ∨ ∃ p e, entries s !! key = Some p ∧ heap s !! p = Some e ∧
    match response e with None => runs key s = [] | Some r => runs key s = [(key, digest e, r)] end.

Lemma cleanup_keeps now key s :
  inv s → (∀ p, entries s !! key = Some p → expired now s p = false) → entries (cleanupLocked now s) !! key = entries s !! key.
Proof.
  intros Hi Hk. unfold cleanupLocked. simpl. destruct (entries s !! key) as [p|] eqn:He.
  - apply map_lookup_filter_Some. split; [done|]. by apply Hk.
  - apply map_lookup_filter_None. by left.
Qed.

Lemma at_most_one_step key s l s' :
  inv s → at_most_one key s → kept_step key s l → step s l = Some s' → at_most_one key s'.
Proof.
  intros Hi Hone Hkept Hs. destruct l as [t now1 now2 k d|t r|t|t]; simpl in Hs;
    destruct (requests s !! t) as [[k' d' p'|k' d' p'|k' d' a|x]|] eqn:Ht; try done.
  - injection Hs as <-. destruct Hkept as [Hk0 Hroom].
    assert (Hk : ∀ p, entries s !! key = Some p → expired now1 s p = false) by (intros p Hp; by rewrite Hp in Hk0).
    pose proof (cleanup_keeps now1 key s Hi Hk) as Hkeep. pose proof (inv_cleanup now1 s Hi) as Hi1.
    assert (Hsize : size (entries (cleanupLocked now1 s)) ≤ size (entries s)) by (apply map_subseteq_size, map_filter_subseteq).
    assert (Hone1 : at_most_one key (cleanupLocked now1 s)).
    { unfold at_most_one, unused, runs in *. rewrite Hkeep. exact Hone. }
    unfold begin. destruct (entries (cleanupLocked now1 s) !! k) as [p|] eqn:Hek.
    + by destruct (heap (cleanupLocked now1 s) !! p).
    + rewrite (proj2 (Z.leb_gt _ _)) by (change (maxEntries (cleanupLocked now1 s)) with (maxEntries s); lia).
      destruct (decide (k = key)) as [->|Hne].
      * right. exists (nextPtr (cleanupLocked now1 s)), (mkEntry d now2 None). simpl. rewrite !lookup_insert_eq. split_and!; try done.
        destruct Hone1 as [[_ Hr]|(p & e & He & _)]; [exact Hr|congruence].
      * destruct Hone1 as [[He Hr]|(p & e & He & Hp & Hr)].
        -- left. split; [|exact Hr]. simpl. by rewrite lookup_insert_ne.
        -- right. exists p, e. simpl. rewrite !lookup_insert_ne; [done| |done]. intros Heq.
           pose proof (iv_ptr _ Hi1 p ltac:(eauto)). simpl in *. lia.
  - injection Hs as <-. destruct (iv_owner _ Hi _ _ _ _ Ht) as (Hek & e & Hp & Hd & Hn). unfold complete. rewrite Hek, Hp, decide_True by done.
    destruct (decide (k' = key)) as [->|Hne].
    + right. exists p', (mkEntry (digest e) (createdAt e) (Some r)). simpl. rewrite lookup_insert_eq. split_and!; try done.
      unfold runs; simpl. rewrite filter_app, filter_cons_True by done.
      destruct Hone as [[He _]|(p & e' & He & Hp' & Hr)]; [congruence|]. simplify_eq. rewrite Hn in Hr. unfold runs in Hr. by rewrite Hr.
    + assert (Hruns : runs key (set_request t (Answered k' d' r) (mkStore (entries s) (maxEntries s) (ttl s)
        (<[p':=mkEntry (digest e) (createdAt e) (Some r)]> (heap s)) (nextPtr s) (requests s) (completed s ++ [(k', digest e, r)]))) = runs key s).
      { unfold runs; simpl. rewrite filter_app, filter_cons_False by done. by rewrite filter_nil, app_nil_r. }
      destruct Hone as [[He Hr]|(p & e' & He & Hp' & Hr)]; [left; by rewrite <-Hruns in Hr|right]. exists p, e'. simpl.
      rewrite lookup_insert_ne; [by rewrite Hruns|]. intros ->. apply Hne. by eapply (iv_keys _ Hi).
  - destruct (iv_waiter _ Hi _ _ _ _ Ht) as (e & Hp & _). rewrite Hp in Hs. simpl in Hs. destruct (response e); [|done]. by injection Hs as <-.
  - by injection Hs as <-.
Qed.

(** Under a key that is kept, at most one handler runs, and every request that is
    answered has the answer of that one. *)
Lemma key_runs_once m d ls0 s key ls s' :
  steps (NewIdempotencyStore m d) ls0 = Some s → unused key s → kept key s ls → steps s ls = Some s' →
  length (runs key s') ≤ 1 ∧
  (∀ t dg p, requests s' !! t = Some (Owner key dg p) → runs key s' = []) ∧
  (∀ t dg r, requests s' !! t = Some (Answered key dg r) → runs key s' = [(key, dg, r)]).
Proof.
  intros Hstart Hunused Hkept Hrun.
  assert (Hi : inv s) by (eapply steps_inv; [apply inv_NewIdempotencyStore|done]).
  assert (inv s' ∧ at_most_one key s') as [Hi' Hone].
  { clear Hstart. assert (Hone : at_most_one key s) by by left. clear Hunused. revert s Hi Hone Hkept Hrun.
    induction ls as [|l ls IH]; intros s Hi Hone; simpl; [by intros _ [= <-]|]. intros [Hk Hks].
    destruct (step s l) as [s1|] eqn:Hs; [|done]. simpl. apply IH; [by eapply step_inv|by eapply at_most_one_step|done]. }
  assert (Hin : ∀ dg r, (key, dg, r) ∈ completed s' → runs key s' = [(key, dg, r)]).
  { intros dg r Hc. assert (Hc' : (key, dg, r) ∈ runs key s') by (by apply list_elem_of_filter).
    destruct Hone as [[_ Hr]|(p & e & _ & _ & Hr)]; [rewrite Hr in Hc'; by apply elem_of_nil in Hc'|].
    destruct (response e); rewrite Hr in *; [by apply list_elem_of_singleton in Hc' as ->|by apply elem_of_nil in Hc']. }
  split_and!.
  - destruct Hone as [[_ ->]|(p & e & _ & _ & Hr)]; [simpl; lia|]. destruct (response e); rewrite Hr; simpl; lia.
  - intros t dg p Ht. destruct (iv_owner _ Hi' _ _ _ _ Ht) as (He & e & Hp & _ & Hn).
    destruct Hone as [[He' _]|(p' & e' & He' & Hp' & Hr)]; [congruence|]. simplify_eq. by rewrite Hn in Hr.
  - intros t dg r Ht. by apply Hin, (iv_answered _ Hi' t).
Qed.

(** How a request of the client gets to the daemon: [url_path] is the path of a URL as
    the server reads it, [subject] whom the daemon takes the client for. *)
Definition header_value (name : string) (l : list (string * string)) : string :=
  match find_index (λ h, if String.eqb h.1 name then Some h.2 else None) l with Some (_, v) => v | None => "" end.

Definition entered (sha256_hex url_path : string → string) (subject : string) (q : http_request) : result (string * string) refusal :=
  precheck sha256_hex subject (hq_Method q) (url_path (hq_URL q)) (header_value "Idempotency-Key" (hq_Headers q))
    (Some (default "" (hq_Body q))).

Definition entry_key (url_path : string → string) (subject : string) (c : Client) (method path rawKey : string) : string :=
  subject +:+ nul +:+ method +:+ nul +:+ url_path (cl_baseURL c +:+ path) +:+ nul +:+ TrimSpace rawKey.

Definition entry_digest (sha256_hex url_path : string → string) (c : Client) (method path : string) (encoded : option string) : string :=
  sha256_hex (method +:+ nul +:+ url_path (cl_baseURL c +:+ path) +:+ nul +:+ default "" encoded).

(** What a mutation may have as its key and its body. *)
Definition admissible (rawKey : string) (encoded : option string) : Prop :=
  TrimSpace rawKey ≠ "" ∧ (Z.of_nat (String.length (TrimSpace rawKey)) ≤ 200)%Z
  ∧ (Z.of_nat (String.length (default "" encoded)) ≤ 4 * 2 ^ 20)%Z.

Lemma build_request_enters sha256_hex url_path subject c method path rawKey encoded :
  admissible rawKey encoded →
  entered sha256_hex url_path subject (build_request c method path encoded rawKey)
  = Ok (entry_key url_path subject c method path rawKey, entry_digest sha256_hex url_path c method path encoded).
Proof.
  intros (Hne & Hlen & Hbody).
  assert (Hkey : header_value "Idempotency-Key" (hq_Headers (build_request c method path encoded rawKey)) = rawKey).
  { unfold build_request. cbn [hq_Headers].
    destruct (String.eqb_spec rawKey "") as [->|Hraw]; [by destruct Hne|]. by destruct encoded. }
  unfold entered, precheck. rewrite Hkey. cbn [hq_Method hq_URL hq_Body build_request].
  apply String.eqb_neq in Hne. rewrite Hne, (proj2 (Z.ltb_ge _ _) Hlen), (proj2 (Z.ltb_ge _ _) Hbody). done.
Qed.

Lemma doJSON_requests `{JSON} {A} (c : Client) method path body rawKey http done_at (out : option (string → option A)) sent r :
  doJSON c method path body (Some rawKey) http done_at out = (sent, r) → method ≠ "GET" →
  Forall (λ x, x.2 = build_request c method path (mjoin body) rawKey) sent.
Proof.
  unfold doJSON. intros Hrun Hm. apply String.eqb_neq in Hm. rewrite Hm in Hrun.
  assert (Hloop : attempts_loop http done_at out (build_request c method path (mjoin body) rawKey) (Z.to_nat (wrap_i64 (cl_maxRetries c + 1))) 0 (Ok None) = (sent, r) →
    Forall (λ x, x.2 = build_request c method path (mjoin body) rawKey) sent) by (intros (Hf & _)%attempts_spec; done).
  destruct body as [[encoded|]|]; [by apply Hloop| |by apply Hloop].
  assert (sent = []) as -> by congruence. constructor.
Qed.

(** C37. A mutation is applied at most once, however often one call of the client sends
    it and whatever becomes of its requests and answers: all its requests enter the
    daemon under one key with one digest, and as long as the daemon keeps the entry of
    that key (it has not expired when another request cleans up, and the store is not
    full) at most one handler runs under it, and every request that is answered has the
    answer of that one.  So a retry after an error that the daemon calls retryable, but
    has answered, is answered with the same error. *)
Theorem mutation_runs_once `{JSON} {A} (c : Client) method path body rawKey http done_at (out : option (string → option A)) sent r
    sha256_hex url_path subject m d ls0 s ls s' (key := entry_key url_path subject c method path rawKey)
    (Hcall : doJSON c method path body (Some rawKey) http done_at out = (sent, r)) (Hmethod : method ≠ "GET")
    (Hadmissible : admissible rawKey (mjoin body))
    (Hstart : steps (NewIdempotencyStore m d) ls0 = Some s) (Hunused : unused key s)
    (Hkept : kept key s ls) (Hrun : steps s ls = Some s') :
  (∀ x, x ∈ sent → entered sha256_hex url_path subject x.2
     = Ok (key, entry_digest sha256_hex url_path c method path (mjoin body))) ∧
  length (runs key s') ≤ 1 ∧
  (∀ t dg p, requests s' !! t = Some (Owner key dg p) → runs key s' = []) ∧
  (∀ t dg r, requests s' !! t = Some (Answered key dg r) → runs key s' = [(key, dg, r)]).
Proof.
  split; [|by apply (key_runs_once m d ls0 s key ls s')].
  intros x Hx. pose proof (doJSON_requests _ _ _ _ _ _ _ _ _ _ Hcall Hmethod) as Hall.
  rewrite Forall_forall in Hall. rewrite (Hall x Hx). by apply build_request_enters.
Qed.

(** ** Examples *)

Module ExampleClient.

#[local] Instance envelopes : JSON := {
  json_unmarshal s :=
    if String.eqb s "{busy}" then Some (JObj [("error", JObj [("code", JStr "runtime_reconcile_failed"); ("retryable", JBool true)])])
    else None;
  json_marshal j := None;
  json_string_field _ _ := None;
  json_int_fields _ _ := None;
}.

Definition files : tls_files := mkTLSFiles (λ _, true) (λ _, true) (λ _ _, true).
Definition profile (retries : Z) : Profile := mkProfile "local" "" "/run/ya.sock" "" "tok" "" "" "" "" 0 retries.
Definition client (retries : Z) : Client :=
  match New files (profile retries) with Ok c => c | Err _ => mkClient (profile retries) "" (DialUnix "") 0 0 end.

(** A mutation is sent again after a retryable error, although the comment on
    [ApplyMutation] says that it never is. *)
Definition busy_then_done (i : nat) : http_outcome := match i with 0 => Answers 503 "{busy}" | 1 => DoFails | _ => Answers 200 "{}" end.
Definition mutation_call : list (Duration * http_request) * result (option string) client_error :=
  doJSON (client 0) "POST" "/control/v1/config/mutations" (Some (Some "{}")) (Some "ya-1") busy_then_done (λ _, false) (Some Some).

Lemma client_retries_witness :
  length mutation_call.1 = 3 ∧ fst <$> mutation_call.1 = [0; 100000000; 200000000]%Z ∧ ∃ request, Forall (λ x, x.2 = request) mutation_call.1.
Proof.
  split; [vm_compute; reflexivity|]. split; [vm_compute; reflexivity|].
  exact (proj1 (client_retries (client 0) "POST" "/control/v1/config/mutations" (Some (Some "{}")) (Some "ya-1") busy_then_done (λ _, false)
    (Some Some) mutation_call.1 mutation_call.2 (surjective_pairing _))).
Defined.

Lemma backoff_closed_form_witness : backoff 3 = 400000000%Z.
Proof. refine (proj1 (backoff_closed_form 3 _)). split; discriminate. Defined.

(** With as many retries as an [int] can hold nothing is sent, and the call succeeds. *)
Example no_attempt_is_a_success :
  doJSON (A := string) (client maxInt64) "GET" "/control/v1/meta" None None (λ _, DoFails) (λ _, false) None = ([], Ok None).
Proof. vm_compute. reflexivity. Qed.

(** The client's second request comes while the handler of its first still runs, and the
    third after it has failed. *)
Definition busy : storedResponse := mkResponse 503 [] "{busy}".
(** The three requests of [mutation_call], under the key they enter with. *)
Definition sha (s : string) : string := "d".
Definition url_path (url : string) : string := TrimPrefix url "http://ya-router-control".
Definition daemon_key : string := entry_key url_path "op" (client 0) "POST" "/control/v1/config/mutations" "ya-1".
Definition three_attempts : list label :=
  [LBegin 0 10 10 daemon_key "d"; LBegin 1 20 20 daemon_key "d"; LComplete 0 busy; LWake 1; LBegin 2 30 30 daemon_key "d"; LWake 2].

Lemma mutation_runs_once_witness :
  ∃ s', steps (NewIdempotencyStore 0 0) three_attempts = Some s' ∧ requests s' !! 2 = Some (Answered daemon_key "d" busy)
    ∧ runs daemon_key s' = [(daemon_key, "d", busy)] ∧ (∀ x, x ∈ mutation_call.1 → entered sha url_path "op" x.2 = Ok (daemon_key, "d")).
Proof.
  destruct (steps (NewIdempotencyStore 0 0) three_attempts) as [s'|] eqn:E; [|vm_compute in E; discriminate].
  exists s'. split; [reflexivity|].
  assert (Ht : requests s' !! 2 = Some (Answered daemon_key "d" busy)) by (revert E; vm_compute; intros [= <-]; reflexivity).
  split; [exact Ht|].
  destruct (mutation_runs_once (client 0) "POST" "/control/v1/config/mutations" (Some (Some "{}")) "ya-1" busy_then_done (λ _, false)
    (Some Some) mutation_call.1 mutation_call.2 sha url_path "op" 0 0 [] (NewIdempotencyStore 0 0) three_attempts s') as (H1 & _ & _ & H4).
  - exact (surjective_pairing _).
  - discriminate.
  - split; [vm_compute; discriminate|]. split; vm_compute; discriminate.
  - reflexivity.
  - split; reflexivity.
  - vm_compute. repeat match goal with
      | |- True => exact I
      | |- _ ∧ _ => split
      | |- _ = _ => reflexivity
      end.
  - exact E.
  - split; [exact (H4 2 "d" busy Ht)|exact H1].
Defined.

End ExampleClient.
