(* ===== verification/WSClient.v ===== *)
(** * The WebSocket client

    [internal/client/ws_client.go]: the connection with its reader, its writer and the
    loop that reconnects, while other goroutines send.  [send] takes the queue of the
    connection under a lock and puts the message into it after the lock is released, so
    these are two steps, and the end of a connection, which closes its queue before it
    forgets it, comes in between or not.  Everything any goroutine does is a step
    ([client_step]), in any order. *)

From S2P Require Import Prelude GoStd Writers GoJson WebSocket Client.

#[local] Set Default Proof Using "Type".

(** ** Events *)

(** The payloads are the trees that decode into the types of the protocol, those of
    [WSEventChatDone] and [WSEventChatError] as far as they do. *)
(* src/internal/client/ws_client.go WSEvent *)
(* src/internal/client/ws_client.go WSEventType *)
Inductive WSEvent :=
| WSEventConnected
| WSEventDisconnected (failed : bool)
| WSEventNonRetryable
| WSEventSnapshot (requestID : string) (state : json)
| WSEventStateUpdated (requestID : string) (state : json)
| WSEventChatRoute (requestID : string) (route : json)
| WSEventChatDelta (requestID : string) (delta : json)
| WSEventChatDone (requestID : string) (done_ : option json)
| WSEventChatError (requestID : string) (chatErr : option json).

(* src/internal/client/ws_client.go wsClientOutboundQueueSize *)
Definition wsClientOutboundQueueSize : nat := 32.
Definition wsClientEventsSize : nat := 64.

(* src/internal/client/ws_client.go wsClientReconnectBaseDelay *)
Definition wsClientReconnectBaseDelay : Duration := 500000000.
(* src/internal/client/ws_client.go wsClientReconnectMaxDelay *)
Definition wsClientReconnectMaxDelay : Duration := (10 * Second)%Z.

Fixpoint delay_loop (n : nat) (delay : Duration) : Duration :=
  match n with
  | O => delay
  | S n => if (delay <? wsClientReconnectMaxDelay)%Z then delay_loop n (delay * 2)%Z else delay
  end.

(* src/internal/client/ws_client.go backoffDelay *)
Definition backoffDelay (attempt : nat) : Duration :=
  let delay := delay_loop (attempt - 1) wsClientReconnectBaseDelay in
  if (wsClientReconnectMaxDelay <? delay)%Z then wsClientReconnectMaxDelay else delay.

(** ** Frames

    [ok] says whether a payload decodes into the type its message has. *)

Section frames.
Context (ok : string → json → bool).

(** A message without a payload leaves the target as it is.  The end of a chat is passed
    on whatever its payload: what of it does not decode is left out by its reader. *)
(* src/internal/client/ws_client.go unmarshalWS *)
Definition payload_of (e : WSEnvelope) : option json :=
  match we_Payload e with
  | None => Some (JObj [])
  | Some p => if ok (we_Type e) p then Some p else None
  end.

(* src/internal/client/ws_client.go WSClient.dispatch *)
Definition dispatch (e : WSEnvelope) : list WSEvent :=
  let kept := Some (default (JObj []) (we_Payload e)) in
  let with_payload event := match payload_of e with Some p => [event (we_RequestID e) p] | None => [] end in
  if String.eqb (we_Type e) WSTypeSnapshot then with_payload WSEventSnapshot
  else if String.eqb (we_Type e) WSTypeStateUpdated then with_payload WSEventStateUpdated
  else if String.eqb (we_Type e) WSTypeChatRoute then with_payload WSEventChatRoute
  else if String.eqb (we_Type e) WSTypeChatDelta then with_payload WSEventChatDelta
  else if String.eqb (we_Type e) WSTypeChatDone then [WSEventChatDone (we_RequestID e) kept]
  else if String.eqb (we_Type e) WSTypeChatError then [WSEventChatError (we_RequestID e) kept]
  else [].

Definition ends_chat (e : WSEnvelope) : bool := String.eqb (we_Type e) WSTypeChatDone || String.eqb (we_Type e) WSTypeChatError.

(** [version] is the number of a hello's payload, when it decodes. *)
Inductive frame_result := Shown (events : list WSEvent) | Incompatible.

(** A frame that does not decode, [None], is passed over, and the next is still first. *)
(* src/internal/client/ws_client.go:273-288 WSClient.readLoop *)
Definition read_frame (version : option json → option Z) (first : bool) (frame : option WSEnvelope) : bool * frame_result :=
  match frame with
  | None => (first, Shown [])
  | Some e =>
    if first && String.eqb (we_Type e) WSTypeHello
    then match version (we_Payload e) with
         | Some v => if (v =? WSProtocolVersion)%Z then (false, Shown [WSEventConnected]) else (false, Incompatible)
         | None => (false, Shown [WSEventConnected])
         end
    else (false, Shown (dispatch e))
  end.

End frames.

(** ** The client *)

(** A queue of a connection, and whether its writer still goes on; a send into a closed
    one panics. *)
Record outbound := mkOutbound { ob_queue : list WSEnvelope; ob_closed : bool; ob_writing : bool }.

(** Where the loop of the client is. *)
Inductive loop_phase :=
| Idle                                  (** [Connect] has not been called *)
| LoopTop
| Dialing
| Reading (connection : nat) (first : bool)
| Ending (connection : nat) (failed : bool)    (** the queue is closed and still known *)
| Forgotten (failed : bool)             (** the connection is over *)
| Marking                               (** the chat is still to be given up *)
| Waiting (delay : Duration)
| Stopped.

(** [wq_queues] are the queues of all connections, by their number, and [wq_outbound]
    that of the current one; [wq_pending] are the sends that have taken a queue and not
    used it yet.  [wq_events] is the channel of events and [wq_read] what the application
    has taken out of it. *)
(* src/internal/client/ws_client.go WSClient *)
Record WSClient := mkWSClient {
  wq_closed : bool; wq_outbound : option nat; wq_active : string; wq_queues : list outbound; wq_events : list WSEvent;
  wq_phase : loop_phase; wq_attempt : nat; wq_pending : list (nat * WSEnvelope); wq_panicked : bool;
  wq_read : list WSEvent;
}.

(* src/internal/client/ws_client.go NewWSClient *)
Definition NewWSClient (profile : Profile) : result WSClient new_error :=
  let transport := if String.eqb (pf_Transport profile) "" then TransportUnix else pf_Transport profile in
  if negb (String.eqb transport TransportUnix) then Err (UnsupportedTransport transport)
  else if String.eqb (TrimSpace (pf_Socket profile)) "" then Err SocketRequired
  else Ok (mkWSClient false None "" [] [] Idle 0 [] false []).

Definition set_phase (p : loop_phase) (c : WSClient) : WSClient :=
  mkWSClient (wq_closed c) (wq_outbound c) (wq_active c) (wq_queues c) (wq_events c) p (wq_attempt c) (wq_pending c)
    (wq_panicked c) (wq_read c).
Definition set_queues (q : list outbound) (c : WSClient) : WSClient :=
  mkWSClient (wq_closed c) (wq_outbound c) (wq_active c) q (wq_events c) (wq_phase c) (wq_attempt c) (wq_pending c)
    (wq_panicked c) (wq_read c).
Definition set_outbound (o : option nat) (c : WSClient) : WSClient :=
  mkWSClient (wq_closed c) o (wq_active c) (wq_queues c) (wq_events c) (wq_phase c) (wq_attempt c) (wq_pending c)
    (wq_panicked c) (wq_read c).
Definition set_pending (l : list (nat * WSEnvelope)) (panicked : bool) (c : WSClient) : WSClient :=
  mkWSClient (wq_closed c) (wq_outbound c) (wq_active c) (wq_queues c) (wq_events c) (wq_phase c) (wq_attempt c) l
    panicked (wq_read c).
Definition set_active (id : string) (c : WSClient) : WSClient :=
  mkWSClient (wq_closed c) (wq_outbound c) id (wq_queues c) (wq_events c) (wq_phase c) (wq_attempt c) (wq_pending c)
    (wq_panicked c) (wq_read c).

(** An event that finds the channel full is dropped. *)
(* src/internal/client/ws_client.go WSClient.emit *)
Definition emit (e : WSEvent) (c : WSClient) : WSClient :=
  mkWSClient (wq_closed c) (wq_outbound c) (wq_active c) (wq_queues c)
    (if (length (wq_events c) <? wsClientEventsSize)%nat then wq_events c ++ [e] else wq_events c)
    (wq_phase c) (wq_attempt c) (wq_pending c) (wq_panicked c) (wq_read c).

(* src/internal/client/ws_client.go WSClient.clearActiveChat *)
Definition clearActiveChat (requestID : string) (c : WSClient) : WSClient :=
  set_active (if String.eqb (wq_active c) requestID then "" else wq_active c) c.

Definition interrupted : json := WSChatErrorPayload "interrupted" "connection lost before this chat completed".

(* src/internal/client/ws_client.go WSClient.markActiveChatInterrupted *)
Definition markActiveChatInterrupted (c : WSClient) : WSClient :=
  let requestID := wq_active c in
  let c := set_active "" c in
  if String.eqb requestID "" then c else emit (WSEventChatError requestID (Some interrupted)) c.

(** The first half of [send]: the queue of the connection, or none. *)
(* src/internal/client/ws_client.go:156-163 WSClient.send *)
Definition send_take (e : WSEnvelope) (c : WSClient) : WSClient :=
  match wq_outbound c with
  | Some k => if wq_closed c then c else set_pending (wq_pending c ++ [(k, e)]) (wq_panicked c) c
  | None => c
  end.

(** The second half, for the [i]-th send: a full queue refuses, a closed one panics. *)
(* src/internal/client/ws_client.go:164-170 WSClient.send *)
Definition send_put (i : nat) (c : WSClient) : option WSClient :=
  '(k, e) ← wq_pending c !! i;
  q ← wq_queues c !! k;
  let rest := delete i (wq_pending c) in
  Some (if ob_closed q then set_pending rest true c
        else if (length (ob_queue q) <? wsClientOutboundQueueSize)%nat
        then set_queues (<[k := mkOutbound (ob_queue q ++ [e]) (ob_closed q) (ob_writing q)]> (wq_queues c)) (set_pending rest (wq_panicked c) c)
        else set_pending rest (wq_panicked c) c).

(* src/internal/client/ws_client.go WSClient.RequestSnapshot *)
Definition RequestSnapshot : WSClient → WSClient := send_take (mkEnvelope WSTypeSnapshotRequest "" 0 None).
(* src/internal/client/ws_client.go WSClient.CancelChat *)
Definition CancelChat : WSClient → WSClient := send_take (mkEnvelope WSTypeChatCancel "" 0 None).
(** The chat is active before the message is sent, and whether it is sent or not. *)
(* src/internal/client/ws_client.go WSClient.StartChat *)
Definition StartChat (requestID : string) (c : WSClient) : WSClient := set_active requestID c.
Definition chat_start (requestID : string) (payload : option json) : WSEnvelope := mkEnvelope WSTypeChatStart requestID 0 payload.

Section client.
Context (ok : string → json → bool) (version : option json → option Z).

Definition close_queue (q : outbound) : outbound := mkOutbound (ob_queue q) true (ob_writing q).

Inductive client_event :=
| UConnect | UStart (requestID : string) | UTake (e : WSEnvelope) | UPut (i : nat) | UClose | UEvent
| LTop | LDial (dialed : bool)
| LRead (frame : option WSEnvelope) | LReadFails
| LWrite (written : bool)      (** the writer sends its oldest message *)
| LForget | LDisconnected | LMark | LAgain | LContextDone.

(** One frame: its chat, if it ends one, and its events. *)
Definition show (e : option WSEnvelope) (events : list WSEvent) (c : WSClient) : WSClient :=
  let c := match e with Some e => if ends_chat e then clearActiveChat (we_RequestID e) c else c | None => c end in
  foldl (λ c event, emit event c) c events.

(* src/internal/client/ws_client.go WSClient.Connect *)
(* src/internal/client/ws_client.go WSClient.Close *)
(* src/internal/client/ws_client.go WSClient.run *)
(* src/internal/client/ws_client.go WSClient.connectOnce *)
(* src/internal/client/ws_client.go WSClient.writeLoop *)
(* src/internal/client/ws_client.go WSClient.readLoop *)
Definition client_step (ev : client_event) (c : WSClient) : option WSClient :=
  match ev, wq_phase c with
  | UConnect, Idle => Some (set_phase LoopTop c)
  | UStart id, _ => Some (StartChat id c)
  | UTake e, _ => Some (send_take e c)
  | UPut i, _ => send_put i c
  | UClose, _ => Some (mkWSClient true (wq_outbound c) (wq_active c) (wq_queues c) (wq_events c) (wq_phase c) (wq_attempt c)
                         (wq_pending c) (wq_panicked c) (wq_read c))
  | UEvent, _ => match wq_events c with
                 | [] => None
                 | e :: l => Some (mkWSClient (wq_closed c) (wq_outbound c) (wq_active c) (wq_queues c) l (wq_phase c) (wq_attempt c)
                                     (wq_pending c) (wq_panicked c) (wq_read c ++ [e]))
                 end
  | LTop, LoopTop => Some (set_phase (if wq_closed c then Stopped else Dialing) c)
  | LDial dialed, Dialing =>
    if negb dialed then Some (set_phase (Forgotten true) c)
    else if wq_closed c then Some (set_phase (Forgotten false) c)
    else let k := length (wq_queues c) in
         Some (set_phase (Reading k true) (set_outbound (Some k) (set_queues (wq_queues c ++ [mkOutbound [] false true]) c)))
  | LRead frame, Reading k first =>
    let '(first', r) := read_frame ok version first frame in
    match r with
    | Shown events => Some (set_phase (Reading k first') (show frame events c))
    | Incompatible => Some (set_phase (Ending k false) (set_queues (alter close_queue k (wq_queues c)) c))
    end
  | LReadFails, Reading k _ => Some (set_phase (Ending k true) (set_queues (alter close_queue k (wq_queues c)) c))
  | LWrite written, _ =>
    k ← wq_outbound c; q ← wq_queues c !! k;
    match ob_queue q with
    | [] => None
    | _ :: l => if ob_writing q then Some (set_queues (<[k := mkOutbound l (ob_closed q) written]> (wq_queues c)) c) else None
    end
  | LForget, Ending k failed =>
    q ← wq_queues c !! k;
    match ob_queue q, ob_writing q with
    | _ :: _, true => None
    | _, _ => Some (set_phase (if failed then Forgotten true else Stopped)
                ((if failed then id else emit WSEventNonRetryable) (set_outbound None c)))
    end
  | LDisconnected, Forgotten failed => Some (set_phase Marking (emit (WSEventDisconnected failed) c))
  | LMark, Marking =>
    let c := markActiveChatInterrupted c in
    let attempt := S (wq_attempt c) in
    Some (mkWSClient (wq_closed c) (wq_outbound c) (wq_active c) (wq_queues c) (wq_events c) (Waiting (backoffDelay attempt)) attempt
            (wq_pending c) (wq_panicked c) (wq_read c))
  | LAgain, Waiting _ => Some (set_phase LoopTop c)
  | LContextDone, (LoopTop | Waiting _) => Some (set_phase Stopped c)
  | _, _ => None
  end.

Fixpoint client_run (l : list client_event) (c : WSClient) : option WSClient :=
  match l with [] => Some c | ev :: l => client_step ev c ≫= client_run l end.

End client.

(** ** The delay *)

Lemma delay_loop_spec n d :
  (0 < d)%Z → delay_loop n d = d ∧ (wsClientReconnectMaxDelay ≤ d)%Z ∨
  Z.min wsClientReconnectMaxDelay (delay_loop n d) = Z.min wsClientReconnectMaxDelay (d * 2 ^ Z.of_nat n).
Proof.
  revert d. induction n as [|n IH]; intros d Hd; [right; simpl; f_equal; lia|]. cbn [delay_loop].
  destruct (Z.ltb_spec d wsClientReconnectMaxDelay) as [Hlt|Hge]; [right|by left].
  assert (1 ≤ 2 ^ Z.of_nat n)%Z by (apply (Z.pow_le_mono_r 2 0); lia).
  rewrite Nat2Z.inj_succ, Z.pow_succ_r by lia.
  destruct (IH (d * 2)%Z ltac:(lia)) as [[-> Hle]| ->]; [|f_equal; lia].
  rewrite !Z.min_l; nia.
Qed.

(** The wait before the next connection: half a second, doubled with every one that
    was lost before, and ten seconds from the sixth on, however many there were. *)
Theorem reconnect_delay_closed_form attempt :
  backoffDelay (S attempt) = Z.min wsClientReconnectMaxDelay (wsClientReconnectBaseDelay * 2 ^ Z.of_nat attempt).
Proof.
  unfold backoffDelay. replace (S attempt - 1) with attempt by lia.
  destruct (delay_loop_spec attempt wsClientReconnectBaseDelay ltac:(done)) as [[_ H]|<-]; [vm_compute in H; done|].
  destruct (Z.ltb_spec wsClientReconnectMaxDelay (delay_loop attempt wsClientReconnectBaseDelay)); lia.
Qed.

(** ** What the application receives *)

(** The events it has taken out of the channel and those that wait for it there. *)
Definition received (c : WSClient) : list WSEvent := wq_read c ++ wq_events c.

Definition has_room (c : WSClient) : bool := (length (wq_events c) <? wsClientEventsSize)%nat.

Lemma received_emit e c : received (emit e c) = received c ++ (if has_room c then [e] else []).
Proof. unfold received, emit, has_room. simpl. destruct (_ <? _)%nat; [by rewrite app_assoc|by rewrite app_nil_r]. Qed.

(** ** Chats are told their end *)

Lemma marked_received c : received (markActiveChatInterrupted c) = received c ++
  (if String.eqb (wq_active c) "" then []
   else if has_room c then [WSEventChatError (wq_active c) (Some interrupted)] else []).
Proof.
  unfold markActiveChatInterrupted. simpl. destruct (String.eqb (wq_active c) ""); [by rewrite app_nil_r|].
  by rewrite received_emit.
Qed.

(** The chats that have been started in a run and that the daemon has not ended in it; one
    that a lost connection has ended is not open any more. *)
Definition open_step (open : gset string) (ev : client_event) : gset string :=
  match ev with
  | UStart id => {[id]} ∪ open
  | LRead (Some e) => if decide (we_Type e = WSTypeChatDone ∨ we_Type e = WSTypeChatError) then open ∖ {[we_RequestID e]} else open
  | LMark => ∅
  | _ => open
  end.

Definition open_chats (l : list client_event) : gset string := foldl open_step ∅ l.

(** A chat is started only when none is open, and has a name. *)
Fixpoint one_at_a_time (l : list client_event) (open : gset string) : Prop :=
  match l with
  | [] => True
  | ev :: l => match ev with UStart id => open = ∅ ∧ id ≠ "" | _ => True end ∧ one_at_a_time l (open_step open ev)
  end.

Lemma emits l c : wq_active (foldl (λ c e, emit e c) c l) = wq_active c ∧ wq_phase (foldl (λ c e, emit e c) c l) = wq_phase c.
Proof. revert c. induction l as [|e l IH]; intros c; [done|]. simpl. by destruct (IH (emit e c)) as (-> & ->). Qed.

(** The active chat is the open one. *)
Definition tracks (open : gset string) (c : WSClient) : Prop := open = if String.eqb (wq_active c) "" then ∅ else {[wq_active c]}.

Lemma ends_chat_iff e : ends_chat e = true ↔ we_Type e = WSTypeChatDone ∨ we_Type e = WSTypeChatError.
Proof. unfold ends_chat. by rewrite orb_true_iff, !String.eqb_eq. Qed.

Lemma tracks_frame open frame c events : tracks open c →
  tracks (open_step open (LRead frame)) (show frame events c).
Proof.
  unfold tracks, show. intros ->. destruct (emits events (match frame with Some e => if ends_chat e then clearActiveChat (we_RequestID e) c else c | None => c end)) as [-> _].
  destruct frame as [e|]; [|done]. cbn [open_step]. pose proof (ends_chat_iff e) as He.
  destruct (decide _) as [Hd|Hd]; destruct (ends_chat e); [|by pose proof (proj2 He Hd)|by destruct Hd; apply He|done].
  simpl. destruct (String.eqb_spec (wq_active c) (we_RequestID e)) as [->|Hne]; simpl.
  - destruct (String.eqb (we_RequestID e) ""); set_solver.
  - destruct (String.eqb (wq_active c) ""); set_solver.
Qed.

Lemma emits_received l c : ∃ l', l' `sublist_of` l ∧ received (foldl (λ c e, emit e c) c l) = received c ++ l'.
Proof.
  revert c. induction l as [|e l IH]; intros c; [by exists []; rewrite app_nil_r|]. simpl.
  destruct (IH (emit e c)) as (l' & Hl' & ->). rewrite received_emit. destruct (has_room c).
  - exists (e :: l'). split; [by apply sublist_skip|]. by rewrite <-app_assoc.
  - exists l'. split; [by apply sublist_cons|]. by rewrite app_nil_r.
Qed.

Section theorems.
Context (ok : string → json → bool) (version : option json → option Z).

Notation cstep := (client_step ok version).
Notation crun := (client_run ok version).

(** The steps that neither start nor end a chat. *)
Definition quiet (ev : client_event) : Prop := match ev with UStart _ | LRead (Some _) | LMark => False | _ => True end.

(** What a step does to the active chat and to what the application receives. *)
Inductive effect (ev : client_event) (c c' : WSClient) : Prop :=
| EffNothing : quiet ev → received c' = received c → wq_active c' = wq_active c →
    (wq_phase c = Stopped → wq_phase c' = Stopped) → effect ev c c'
| EffStart id : ev = UStart id → c' = StartChat id c → effect ev c c'
| EffFrame k first first' frame events : ev = LRead frame → wq_phase c = Reading k first →
    read_frame ok version first frame = (first', Shown events) → c' = set_phase (Reading k first') (show frame events c) → effect ev c c'
| EffIncompatible k first first' frame : ev = LRead frame → read_frame ok version first frame = (first', Incompatible) →
    wq_phase c = Reading k first → received c' = received c → wq_active c' = wq_active c → effect ev c c'
| EffTold e : quiet ev → received c' = received (emit e c) → wq_active c' = wq_active c → wq_phase c ≠ Stopped →
    (e = WSEventNonRetryable → wq_phase c' = Stopped) → effect ev c c'
| EffMark : ev = LMark → wq_phase c = Marking → received c' = received (markActiveChatInterrupted c) →
    wq_active c' = "" → effect ev c c'.

Lemma step_effect ev c c' : cstep ev c = Some c' → effect ev c c'.
Proof.
  assert (Hsame : ∀ ev c', quiet ev → received c' = received c → wq_active c' = wq_active c →
      wq_phase c' = wq_phase c → effect ev c c') by (intros ? ? ? ? ? E; apply EffNothing; try done; by rewrite E).
  destruct ev as [|id|e|i| | | |dialed|frame| |written| | | | |]; cbn [client_step].
  - destruct (wq_phase c) eqn:Hp; try done. intros [= <-]. by apply EffNothing; [..|rewrite Hp].
  - intros [= <-]. by eapply EffStart.
  - intros [= <-]. unfold send_take. destruct (wq_outbound c); [destruct (wq_closed c)|]; by apply Hsame.
  - unfold send_put. destruct (wq_pending c !! i) as [[k e]|]; [|done]. simpl. destruct (wq_queues c !! k) as [q|]; [|done]. simpl.
    intros [= <-]. destruct (ob_closed q); [|destruct (_ <? _)]; by apply Hsame.
  - intros [= <-]. by apply Hsame.
  - destruct (wq_events c) eqn:He; [done|]. intros [= <-]. apply Hsame; try done. unfold received. simpl. by rewrite He, <-app_assoc.
  - destruct (wq_phase c) eqn:Hp; try done. intros [= <-]. by apply EffNothing; [..|rewrite Hp].
  - destruct (wq_phase c) eqn:Hp; try done. destruct dialed; cbn [negb]; [destruct (wq_closed c)|]; intros [= <-];
      by apply EffNothing; [..|rewrite Hp].
  - destruct (wq_phase c) eqn:Hp; try done. destruct (read_frame ok version first frame) as [first' [events|]] eqn:Hf; intros [= <-].
    + by eapply EffFrame.
    + by eapply EffIncompatible.
  - destruct (wq_phase c) eqn:Hp; try done. intros [= <-]. by apply EffNothing; [..|rewrite Hp].
  - destruct (wq_outbound c) as [k|]; [|done]. simpl. destruct (wq_queues c !! k) as [q|]; [|done]. simpl.
    destruct (ob_queue q); [done|]. destruct (ob_writing q); [|done]. intros [= <-]. by apply Hsame.
  - destruct (wq_phase c) eqn:Hp; try done. destruct (wq_queues c !! connection) as [q|]; [|done]. simpl.
    destruct (ob_queue q), (ob_writing q); try done; intros [= <-]; destruct failed;
      first [by apply EffNothing; [..|rewrite Hp]|by apply (EffTold _ _ _ WSEventNonRetryable); [..|rewrite Hp|]].
  - destruct (wq_phase c) eqn:Hp; try done. intros [= <-]. by apply (EffTold _ _ _ (WSEventDisconnected failed)); [..|rewrite Hp|].
  - destruct (wq_phase c) eqn:Hp; try done. intros [= <-]. apply EffMark; try done. unfold markActiveChatInterrupted. by destruct (String.eqb _ _).
  - destruct (wq_phase c) eqn:Hp; try done. intros [= <-]. by apply EffNothing; [..|rewrite Hp].
  - destruct (wq_phase c) eqn:Hp; try done; intros [= <-]; by apply EffNothing; [..|rewrite Hp].
Qed.

(** Only a hello tells that the daemon is incompatible, and it ends no chat. *)
Lemma incompatible_is_a_hello first frame first' : read_frame ok version first frame = (first', Incompatible) →
  ∃ e, frame = Some e ∧ we_Type e = WSTypeHello.
Proof.
  unfold read_frame. destruct frame as [e|]; [|done]. destruct first; [|done]. cbn [andb].
  destruct (String.eqb_spec (we_Type e) WSTypeHello) as [Ht|]; [|done]. by exists e.
Qed.

Lemma quiet_open ev open : quiet ev → open_step open ev = open.
Proof. by destruct ev as [| | | | | | | |[e|]| | | | | | |]. Qed.

Lemma tracks_step ev open c c' :
  tracks open c → match ev with UStart id => open = ∅ ∧ id ≠ "" | _ => True end → cstep ev c = Some c' →
  tracks (open_step open ev) c'.
Proof.
  intros Ht Hstart [Hq _ Ha _|id Hr ->|k first first' frame events Hr _ _ ->|k first first' frame Hr Hf _ _ Ha|e Hq _ Ha _ _|Hm _ _ Ha]%step_effect.
  1, 5: rewrite quiet_open by done; unfold tracks; rewrite Ha; exact Ht.
  - subst ev. destruct Hstart as [-> Hid]. unfold tracks, StartChat. simpl. rewrite (proj2 (String.eqb_neq _ _) Hid). set_solver.
  - subst ev. by apply (tracks_frame open frame c events) in Ht.
  - subst ev. apply incompatible_is_a_hello in Hf as (e & -> & He). cbn [open_step]. rewrite decide_False by (rewrite He; by intros [|]).
    unfold tracks. rewrite Ha. exact Ht.
  - subst ev. unfold tracks. by rewrite Ha.
Qed.

Lemma tracks_run l open c c' : tracks open c → one_at_a_time l open → crun l c = Some c' → tracks (foldl open_step open l) c'.
Proof.
  revert open c. induction l as [|ev l IH]; intros open c Ht; cbn [client_run one_at_a_time foldl]; [by intros _ [= <-]|].
  intros [Hev Hl] Hrun. destruct (cstep ev c) as [c1|] eqn:Hs; [|done]. simpl in Hrun. eapply IH; [|done..].
  by eapply tracks_step.
Qed.

(** C39. A chat whose connection is lost is told so.  As long as a chat is started only
    when no other is open, whenever a connection is given up, but not for good, the
    application receives one interruption for every chat that has been started and not
    been ended by the daemon or an earlier loss, and for no other, and no chat is active
    then; only when the channel of events is full, which a reader empties, is the
    interruption lost. *)
Theorem lost_chats_are_interrupted profile c0 l c
    (Hnew : NewWSClient profile = Ok c0) (Hone : one_at_a_time l ∅) (Hrun : crun l c0 = Some c)
    (Hphase : wq_phase c = Marking) :
  ∃ c', cstep LMark c = Some c' ∧ wq_active c' = "" ∧
    received c' = received c ++
      (if (length (wq_events c) <? wsClientEventsSize)%nat
       then (λ r, WSEventChatError r (Some interrupted)) <$> elements (open_chats l) else []).
Proof.
  assert (Ht : tracks (open_chats l) c).
  { apply (tracks_run l ∅ c0); [|done..]. unfold NewWSClient in Hnew.
    destruct (negb _); [done|]. destruct (String.eqb _ _); [done|]. by injection Hnew as <-. }
  unfold tracks in Ht. cbn [client_step]. rewrite Hphase. eexists. split; [done|]. split.
  - change (wq_active (markActiveChatInterrupted c) = ""). unfold markActiveChatInterrupted. by destruct (String.eqb (wq_active c) "").
  - transitivity (received (markActiveChatInterrupted c)); [done|]. rewrite marked_received, Ht. f_equal. unfold has_room.
    destruct (String.eqb (wq_active c) ""); [rewrite elements_empty|rewrite elements_singleton]; by destruct (_ <? _)%nat.
Qed.

(** ** A daemon of another version *)

Lemma dispatch_is_retryable e : WSEventNonRetryable ∉ dispatch ok e.
Proof. unfold dispatch. repeat case_match; set_solver. Qed.

Lemma read_frame_retryable first frame first' events :
  read_frame ok version first frame = (first', Shown events) → WSEventNonRetryable ∉ events.
Proof.
  unfold read_frame. destruct frame as [e|]; [|intros [= _ <-]; set_solver]. destruct (first && _).
  - destruct (version (we_Payload e)) as [v|]; [destruct (v =? WSProtocolVersion)%Z|]; intros [= _ <-]; set_solver.
  - intros [= _ <-]. apply dispatch_is_retryable.
Qed.

Definition left_alone (c : WSClient) : Prop := WSEventNonRetryable ∈ received c → wq_phase c = Stopped.

Lemma left_alone_step ev c c' : left_alone c → cstep ev c = Some c' →
  left_alone c' ∧ (wq_phase c = Stopped → wq_phase c' = Stopped ∧ received c' = received c).
Proof.
  unfold left_alone. intros Hl [_ Ht _ Hp|id _ ->|k first first' frame events _ Hp Hf ->|k first first' frame _ _ Hp Ht _|e _ Ht _ Hp Hstop|_ Hp Ht _]%step_effect.
  - rewrite Ht. split; [intros Hin; by apply Hp, Hl|auto].
  - done.
  - rewrite Hp. split; [|done]. unfold show. set (c1 := match frame with Some e => _ | None => c end).
    assert (received c1 = received c) as Ht1 by (unfold c1; destruct frame as [e|]; [by destruct (ends_chat e)|done]).
    destruct (emits_received events c1) as (l' & Hl' & Hr). intros Hin. change (WSEventNonRetryable ∈ received (foldl (λ c e, emit e c) c1 events)) in Hin.
    rewrite Hr, Ht1, elem_of_app in Hin. destruct Hin as [Hin|Hin].
    + apply Hl in Hin. congruence.
    + apply (elem_of_sublist _ _ _) with (2 := Hl') in Hin. by apply (read_frame_retryable first frame first' events) in Hin.
  - rewrite Ht, Hp. split; [|done]. intros Hin. apply Hl in Hin. congruence.
  - split; [|done]. rewrite Ht, received_emit, elem_of_app. intros [Hin|Hin]; [by destruct (Hp (Hl Hin))|].
    destruct (has_room c); [apply list_elem_of_singleton in Hin; by apply Hstop|set_solver].
  - split; [|congruence]. intros Hin. rewrite Ht, marked_received in Hin. exfalso. apply elem_of_app in Hin as [Hin|Hin].
    + apply Hl in Hin. congruence.
    + repeat case_match; set_solver.
Qed.

(** A daemon that speaks another version of the protocol is told as such once and
    left alone: from then on the client is stopped, dials no more and tells nothing
    more, whatever is done with it. *)
Theorem incompatible_daemon_is_left profile c0 l c l' c'
    (Hnew : NewWSClient profile = Ok c0) (Hrun : crun l c0 = Some c) (Htold : WSEventNonRetryable ∈ received c)
    (Hrun' : crun l' c = Some c') : wq_phase c' = Stopped ∧ received c' = received c ∧ Forall (λ ev, ∀ b, ev ≠ LDial b) l'.
Proof.
  assert (Hl : left_alone c).
  { assert (Hl : left_alone c0).
    { unfold NewWSClient in Hnew. destruct (negb _); [done|]. destruct (String.eqb _ _); [done|]. injection Hnew as <-. unfold left_alone. simpl. set_solver. }
    clear Hnew Htold Hrun'. revert c0 Hl Hrun. induction l as [|ev l IH]; intros c0 Hl; simpl; [by intros [= <-]|].
    destruct (cstep ev c0) as [c1|] eqn:Hs; [|done]. simpl. apply IH. by apply (left_alone_step _ _ _ Hl) in Hs as [? _]. }
  pose proof (Hl Htold) as Hp. clear Hrun Hnew Htold. revert c Hl Hp Hrun'. induction l' as [|ev l' IH]; intros c Hl Hp; cbn [client_run].
  { intros [= <-]. by split_and!. }
  destruct (cstep ev c) as [c1|] eqn:Hs; [|done]. simpl. intros Hrun'. pose proof Hs as Hs'.
  apply (left_alone_step _ _ _ Hl) in Hs as [Hl1 Hst]. destruct (Hst Hp) as [Hp1 Ht1].
  destruct (IH c1 Hl1 Hp1 Hrun') as (? & Ht & Hd). split_and!; [done|congruence|]. constructor; [|done].
  intros b ->. cbn [client_step] in Hs'. by rewrite Hp in Hs'.
Qed.

End theorems.

(** ** What the client shows *)

Definition shown_state (e : WSEvent) : option json :=
  match e with WSEventSnapshot _ p | WSEventStateUpdated _ p => Some p | _ => None end.

Definition is_state (e : WSEnvelope) : bool := String.eqb (we_Type e) WSTypeSnapshot || String.eqb (we_Type e) WSTypeStateUpdated.

Section shown.
Context (ok : string → json → bool) (version : option json → option Z).

(** A state that the client can read. *)
Definition readable_state (e : WSEnvelope) : Prop :=
  is_state e = true → ∃ p, we_Payload e = Some p ∧ ok (we_Type e) p = true.

Lemma dispatched_state e : readable_state e → omap shown_state (dispatch ok e) = option_list (state_payload e).
Proof.
  unfold readable_state, is_state, dispatch, state_payload, payload_of. intros Hr.
  destruct (String.eqb_spec (we_Type e) WSTypeSnapshot) as [E|_].
  { destruct (Hr eq_refl) as (p & -> & ->). done. }
  destruct (String.eqb_spec (we_Type e) WSTypeStateUpdated) as [E|_].
  { destruct (Hr eq_refl) as (p & -> & ->). done. }
  repeat case_match; done.
Qed.

(** The frames a run reads, and that it finds room in the channel for each of them. *)
Definition frames_read (l : list client_event) : list (option WSEnvelope) :=
  omap (λ ev, match ev with LRead frame => Some frame | _ => None end) l.

Definition is_read (ev : client_event) : bool := match ev with LRead _ => true | _ => false end.

Fixpoint roomy (l : list client_event) (c : WSClient) : Prop :=
  match l with
  | [] => True
  | ev :: l => match ev with LRead _ => (length (wq_events c) < wsClientEventsSize)%nat | _ => True end
               ∧ match client_step ok version ev c with Some c => roomy l c | None => True end
  end.

(** While a connection is read nothing else is told. *)
Lemma reading_step k first ev c c' :
  wq_phase c = Reading k first → ev ≠ LReadFails → is_read ev = false →
  client_step ok version ev c = Some c' → wq_phase c' = Reading k first ∧ received c' = received c.
Proof.
  intros Hp Hne Hev. destruct ev; cbn [client_step]; rewrite ?Hp; try done.
  - intros [= <-]. by rewrite <-Hp.
  - intros [= <-]. unfold send_take. by destruct (wq_outbound c); [destruct (wq_closed c)|].
  - unfold send_put. destruct (wq_pending c !! i) as [[k' e]|]; [|done]. simpl. destruct (wq_queues c !! k') as [q|]; [|done]. simpl.
    intros [= <-]. destruct (ob_closed q); [|destruct (_ <? _)]; done.
  - intros [= <-]. done.
  - destruct (wq_events c) as [|e l] eqn:He; [done|]. intros [= <-]. split; [done|]. unfold received. simpl. by rewrite He, <-app_assoc.
  - destruct (wq_outbound c) as [k'|]; [|done]. simpl. destruct (wq_queues c !! k') as [q|]; [|done]. simpl.
    destruct (ob_queue q); [done|]. destruct (ob_writing q); [|done]. by intros [= <-].
Qed.

Lemma dispatch_short e : (length (dispatch ok e) ≤ 1)%nat.
Proof. unfold dispatch. cbv zeta. repeat case_match; simpl; lia. Qed.

Lemma read_step k e c :
  wq_phase c = Reading k false → (length (wq_events c) < wsClientEventsSize)%nat →
  ∃ c', client_step ok version (LRead (Some e)) c = Some c' ∧ wq_phase c' = Reading k false ∧ received c' = received c ++ dispatch ok e.
Proof.
  intros Hp Hroom. cbn [client_step]. rewrite Hp. cbn [read_frame andb]. eexists. split; [done|]. split; [done|].
  change (received (show (Some e) (dispatch ok e) c) = received c ++ dispatch ok e). unfold show.
  set (c1 := if ends_chat e then _ else c).
  assert (received c1 = received c ∧ has_room c1 = true) as [Ht1 Hr1].
  { apply Nat.ltb_lt in Hroom. unfold c1. by destruct (ends_chat e). }
  pose proof (dispatch_short e) as Hs. destruct (dispatch ok e) as [|ev [|ev' l]]; simpl in *; [by rewrite app_nil_r| |lia].
  by rewrite received_emit, Hr1, Ht1.
Qed.

(** Whatever else is done with the client meanwhile. *)
Lemma read_rest k rest l c c' :
  wq_phase c = Reading k false → frames_read l = Some <$> rest → LReadFails ∉ l → roomy l c →
  client_run ok version l c = Some c' → received c' = received c ++ (rest ≫= dispatch ok).
Proof.
  revert rest c. induction l as [|ev l IH]; intros rest c Hp Hl Hf; cbn [roomy client_run].
  { intros _ [= <-]. destruct rest; [|done]. by rewrite app_nil_r. }
  intros [Hroom Hrest] Hrun. apply not_elem_of_cons in Hf as [Hne Hf].
  destruct (client_step ok version ev c) as [c1|] eqn:Hs; [|done]. simpl in Hrun.
  destruct (is_read ev) eqn:Hev; [destruct ev; try done|].
  - destruct rest as [|e rest]; [done|]. unfold frames_read in Hl. simpl in Hl. injection Hl as -> Hl.
    destruct (read_step k e c Hp Hroom) as (c2 & Hs2 & Hp2 & Hr2). assert (c2 = c1) as -> by congruence.
    rewrite (IH rest c1 Hp2 Hl Hf Hrest Hrun), Hr2, <-app_assoc. done.
  - destruct (reading_step k false ev c c1 Hp (not_eq_sym Hne) Hev Hs) as [Hp1 <-].
    apply (IH rest c1 Hp1); try done. revert Hl. unfold frames_read. simpl. by destruct ev.
Qed.

Lemma read_hello k hello rest l c c' :
  wq_phase c = Reading k true → we_Type hello = WSTypeHello → version (we_Payload hello) = Some WSProtocolVersion →
  frames_read l = Some <$> hello :: rest → LReadFails ∉ l → roomy l c →
  client_run ok version l c = Some c' → received c' = received c ++ WSEventConnected :: (rest ≫= dispatch ok).
Proof.
  intros Hp Ht Hv. revert c Hp. induction l as [|ev l IH]; intros c Hp Hl Hf; cbn [roomy client_run]; [done|].
  intros [Hroom Hrest] Hrun. apply not_elem_of_cons in Hf as [Hne Hf].
  destruct (client_step ok version ev c) as [c1|] eqn:Hs; [|done]. simpl in Hrun.
  destruct (is_read ev) eqn:Hev; [destruct ev; try done|].
  - unfold frames_read in Hl. simpl in Hl. injection Hl as -> Hl.
    assert (received c1 = received c ++ [WSEventConnected] ∧ wq_phase c1 = Reading k false) as [Hr1 Hp1].
    { cbn [client_step] in Hs. rewrite Hp in Hs. cbn [read_frame andb] in Hs. rewrite Ht, String.eqb_refl, Hv, Z.eqb_refl in Hs.
      injection Hs as <-. split; [|done]. unfold show, ends_chat. rewrite Ht. simpl.
      apply Nat.ltb_lt in Hroom. pose proof (received_emit WSEventConnected c) as He. unfold has_room in He. rewrite Hroom in He. exact He. }
    rewrite (read_rest k rest l c1 c' Hp1 Hl Hf Hrest Hrun), Hr1, <-app_assoc. done.
  - destruct (reading_step k true ev c c1 Hp (not_eq_sym Hne) Hev Hs) as [Hp1 <-].
    apply (IH c1 Hp1); try done. revert Hl. unfold frames_read. simpl. by destruct ev.
Qed.

(** C40. Client and daemon together: a client that reads everything the daemon has written
    to its connection, after a hello of its own version, receives that it is connected and
    then events of which the last state is the last one the daemon has sent it
    ([clients_show_the_last_broadcast] says which one that is), whatever the application
    does meanwhile, as long as it takes its events out of the channel before that is full. *)
Theorem client_shows_the_state_of_the_daemon (conn : WSConn) hello rest k l c c'
    (Hwritten : wc_written conn = hello :: rest) (Hall : wc_outbound conn = [])
    (Hhello : we_Type hello = WSTypeHello) (Hversion : version (we_Payload hello) = Some WSProtocolVersion)
    (Hread : Forall readable_state rest) (Hphase : wq_phase c = Reading k true)
    (Hframes : frames_read l = Some <$> wc_written conn) (Hlives : LReadFails ∉ l) (Hroom : roomy l c)
    (Hrun : client_run ok version l c = Some c') :
  ∃ shown, received c' = received c ++ WSEventConnected :: shown ∧ last (omap shown_state shown) = last_state conn.
Proof.
  rewrite Hwritten in Hframes. exists (rest ≫= dispatch ok). split; [by eapply read_hello|].
  unfold last_state. rewrite Hall, app_nil_r, Hwritten. cbn [omap list_omap]. unfold state_payload at 1. rewrite Hhello. cbn.
  f_equal. clear -Hread. induction Hread as [|e rest He Hread IH]; [done|]. cbn [mbind list_bind]. rewrite omap_app, IH, dispatched_state by done.
  simpl. by destruct (state_payload e).
Qed.

End shown.

(** ** Examples *)

Module ExampleWSClient.

Definition all_ok (type : string) (p : json) : bool := true.
Definition version_of (p : option json) : option Z :=
  match p with Some (JObj (("protocol_version", JNum n) :: _)) => Atoi n | _ => None end.
Definition profile : Profile := mkProfile "local" "" "/run/ya.sock" "" "" "" "" "" "" 0 0.
Definition new_client : WSClient := match NewWSClient profile with Ok c => c | Err _ => mkWSClient true None "" [] [] Stopped 0 [] false [] end.
Definition run_client : list client_event → WSClient → option WSClient := client_run all_ok version_of.

Definition connect : list client_event := [UConnect; LTop; LDial true].
Definition hello (v : Z) : client_event := LRead (Some (mkEnvelope "hello" "" 1 (Some (JObj [("protocol_version", of_int v)])))).

(** A message that is put into the queue of a connection that has just ended. *)
Example send_panics :
  wq_panicked <$> run_client (connect ++ [hello 1; UTake (chat_start "r1" None); LReadFails; UPut 0]) new_client = Some true.
Proof. vm_compute. reflexivity. Qed.

(** A second chat is refused by the daemon, and the client forgets the first, which
    still runs: when the connection is lost nobody is told that it has ended. *)
Definition refused_second : list client_event :=
  connect ++ [hello 1; UStart "r1"; UTake (chat_start "r1" None); UStart "r2"; UTake (chat_start "r2" None);
    LRead (Some (mkEnvelope "chat.error" "r2" 2 None)); LReadFails; LForget; LDisconnected; LMark].

Example refused_chat_hides_the_first :
  (λ c, (elements (open_chats (take 9 refused_second)), drop 1 (received c))) <$> run_client refused_second new_client
  = Some (["r1"], [WSEventChatError "r2" (Some (JObj [])); WSEventDisconnected true]).
Proof. vm_compute. reflexivity. Qed.

(** The delays of one lost connection an hour apart grow all the same: the count of
    attempts is never set back. *)
Definition lost : list client_event := [LTop; LDial true; hello 1; LReadFails; LForget; LDisconnected; LMark; LAgain].

Example delays_only_grow :
  (λ c, backoffDelay (S (wq_attempt c))) <$> run_client (UConnect :: mjoin (replicate 5 lost)) new_client = Some (10 * Second)%Z.
Proof. vm_compute. reflexivity. Qed.

Definition one_chat : list client_event :=
  connect ++ [hello 1; UStart "r1"; UTake (chat_start "r1" None); UPut 0; LWrite true; LReadFails; LForget; LDisconnected].

Lemma lost_chats_are_interrupted_witness :
  ∃ c c', run_client one_chat new_client = Some c ∧ client_step all_ok version_of LMark c = Some c'
    ∧ received c' = received c ++ [WSEventChatError "r1" (Some interrupted)].
Proof.
  destruct (run_client one_chat new_client) as [c|] eqn:E; [|vm_compute in E; discriminate].
  assert (Hp : wq_phase c = Marking ∧ elements (open_chats one_chat) = ["r1"] ∧ (length (wq_events c) <? wsClientEventsSize)%nat = true)
    by (revert E; vm_compute; intros [= <-]; repeat split; reflexivity).
  destruct (lost_chats_are_interrupted all_ok version_of profile new_client one_chat c eq_refl) as (c' & Hc & _ & Ht);
    [|exact E|exact (proj1 Hp)|].
  - vm_compute. repeat match goal with |- True => exact I | |- _ ∧ _ => split | |- _ = _ => reflexivity | |- _ → False => discriminate end.
  - destruct Hp as (_ & Ho & Hr). rewrite Hr, Ho in Ht. exists c, c'. split; [reflexivity|]. split; [exact Hc|exact Ht].
Defined.

(** A connection that is given up for good tells a chat that waits for it nothing. *)
Example incompatible_daemon_leaves_the_chat :
  (λ c, (wq_phase c, received c, wq_active c)) <$> run_client (connect ++ [UStart "r1"; hello 2; LForget]) new_client
  = Some (Stopped, [WSEventNonRetryable], "r1").
Proof. vm_compute. reflexivity. Qed.

(** Nobody reads: the sixty-fifth event is lost, and the interruption with it. *)
Example full_channel_loses_the_interruption :
  (λ c, (length (received c), wq_active c)) <$>
    run_client (connect ++ [hello 1; UStart "r1"] ++ replicate 70 (LRead (Some (mkEnvelope "state.updated" "" 1 (Some JNull))))
      ++ [LReadFails; LForget; LDisconnected; LMark]) new_client
  = Some (64, "").
Proof. vm_compute. reflexivity. Qed.

Definition wrong_version : list client_event := connect ++ [hello 2; LForget].

Lemma incompatible_daemon_is_left_witness :
  ∃ c, run_client wrong_version new_client = Some c ∧ WSEventNonRetryable ∈ received c ∧
    ∀ c', run_client [UClose] c = Some c' → wq_phase c' = Stopped ∧ received c' = received c.
Proof.
  destruct (run_client wrong_version new_client) as [c|] eqn:E; [|vm_compute in E; discriminate].
  assert (Ht : WSEventNonRetryable ∈ received c) by (revert E; vm_compute; intros [= <-]; left).
  exists c. split; [reflexivity|]. split; [exact Ht|]. intros c' Hc'.
  destruct (incompatible_daemon_is_left all_ok version_of profile new_client wrong_version c [UClose] c' eq_refl E Ht Hc') as (H1 & H2 & _).
  split; [exact H1|exact H2].
Defined.

(** The frames of a daemon that greets, then broadcasts. *)
Definition daemon : WSConn :=
  match WebSocket.run [EvWrite Written; EvWrite Written; EvWrite Written]
    (Send WSTypeStateUpdated "" (Some (JStr "cooling")) (greet "1" 7 (Some (Some (JStr "ready"))) newWSConn)) with
  | Some c => c | None => newWSConn end.
Definition reading_client : WSClient := match run_client connect new_client with Some c => c | None => new_client end.

Definition greeting : WSEnvelope := mkEnvelope "hello" "" 1 (Some (WSHelloPayload "1" 7)).
Definition states : list WSEnvelope :=
  [mkEnvelope "snapshot" "" 2 (Some (JStr "ready")); mkEnvelope "state.updated" "" 3 (Some (JStr "cooling"))].

(** The application reads its events while the frames come. *)
Definition following : list client_event := LRead ∘ Some <$> [greeting] ++ states.
Definition interleaved : list client_event := match following with f :: l => f :: UEvent :: UTake (chat_start "r1" None) :: l | [] => [] end.

Lemma client_shows_the_state_of_the_daemon_witness :
  ∃ c' shown, run_client interleaved reading_client = Some c' ∧
    received c' = WSEventConnected :: shown ∧ last (omap shown_state shown) = Some (JStr "cooling") ∧ wq_read c' = [WSEventConnected].
Proof.
  destruct (run_client interleaved reading_client) as [c'|] eqn:E; [|vm_compute in E; discriminate].
  destruct (client_shows_the_state_of_the_daemon all_ok version_of daemon greeting states 0 interleaved reading_client c') as (shown & H2 & H3).
  1-4: vm_compute; reflexivity.
  - repeat constructor; intros _; eexists; split; reflexivity.
  - vm_compute. reflexivity.
  - vm_compute. reflexivity.
  - vm_compute. intros Hin. repeat (inversion Hin as [|? ? ? Hin']; subst; clear Hin; rename Hin' into Hin).
  - vm_compute. repeat match goal with |- True => exact I | |- _ ∧ _ => split | |- (_ <= _)%nat => lia end.
  - exact E.
  - exists c', shown. split; [reflexivity|]. split; [exact H2|]. split; [rewrite H3; vm_compute; reflexivity|].
    revert E. vm_compute. by intros [= <-].
Defined.

(** When a broadcast comes before the hello, the client takes no notice of the hello: it
    is never connected, and a daemon of another version is not found out. *)
Example late_hello_is_ignored :
  received <$> run_client (connect ++ [LRead (Some (mkEnvelope "state.updated" "" 1 (Some JNull))); hello 2]) new_client
  = Some [WSEventStateUpdated "" JNull].
Proof. vm_compute. reflexivity. Qed.

End ExampleWSClient.
