(* ===== verification/ConfigFiles.v ===== *)
(** * Where the configuration is, and who writes it

    [src/src/config.go]: the path of the configuration file and its loading;
    [config_migration.go]: the merge with the example file; [config_persistence.go] and
    [revisioned_state.go]: the writes of the running daemon and of the commands, through
    [State].

    The operating system is what it answers for each path ([file_system], [file]).
    [probe], [decode_config] and [decode_legacy] are [json.Unmarshal] into the three
    types of [loadConfigFromPath]; the first one is used whether it fails or not. *)

From S2P Require Import Prelude GoStd Config Provider Defaults State CodexBackend Security ReadModel.

#[local] Set Default Proof Using "Type".

(** ** [path/filepath] on Unix *)

(** The elements of a path, without [.] and with [..] resolved; [stack] is reversed. *)
Fixpoint clean_parts (rooted : bool) (stack parts : list string) : list string :=
  match parts with
  | [] => rev stack
  | p :: parts =>
    if String.eqb p "" || String.eqb p "." then clean_parts rooted stack parts
    else if String.eqb p ".." then
      clean_parts rooted
        (match stack with
         | top :: rest => if String.eqb top ".." then p :: stack else rest
         | [] => if rooted then [] else [p]
         end) parts
    else clean_parts rooted (p :: stack) parts
  end.

Definition path_Clean (s : string) : string :=
  let rooted := HasPrefix s "/" in
  let body := Join (clean_parts rooted [] (Split s "/")) "/" in
  if rooted then "/" +:+ body else if String.eqb body "" then "." else body.

Definition path_Join (a b : string) : string :=
  if String.eqb a "" then (if String.eqb b "" then "" else path_Clean b) else path_Clean (a +:+ "/" +:+ b).

Definition path_Dir (s : string) : string :=
  match cut_last "/" s with Some (dir, _) => path_Clean (dir +:+ "/") | None => path_Clean "" end.

Example paths :
  path_Clean "/a//b/./../c/" = "/a/c" ∧ path_Clean "../../a" = "../../a" ∧ path_Clean "/.." = "/"
  ∧ path_Clean "" = "." ∧ path_Join "/home/u" ".config/ya-router" = "/home/u/.config/ya-router"
  ∧ path_Dir "/etc/ya/config.json" = "/etc/ya" ∧ path_Dir "config.json" = "." ∧ path_Dir "/x" = "/"
  ∧ path_Join (path_Dir "config.json") "control.sock" = "control.sock".
Proof. vm_compute. repeat split. Qed.

(** ** The path of the file *)

(** An error of the system; wrapping it with [%w] keeps the two tests. *)
Record os_error := mkOsError { oe_Permission : bool; oe_text : string }.

Definition wrap_os (text : string) (e : os_error) : os_error := mkOsError (oe_Permission e) (text +:+ ": " +:+ oe_text e).

(** What the system answers for a path; [fs_Stat] of an existing path says whether it
    is a regular file. *)
Record file_system := mkFS {
  fs_MkdirAll : string → option os_error;
  fs_CreateTemp : string → option os_error;
  fs_CloseTemp : string → option os_error;
  fs_RemoveTemp : string → option os_error;
  fs_Stat : string → result (option bool) os_error;
  fs_Open : string → option os_error;
}.

(* src/src/config.go verifyConfigDirectoryWritable *)
Definition verifyConfigDirectoryWritable (fs : file_system) (dir : string) : option os_error :=
  match fs_CreateTemp fs dir with
  | Some e => Some (wrap_os "test config directory writeability" e)
  | None => match fs_CloseTemp fs dir with Some e => Some e | None => fs_RemoveTemp fs dir end
  end.

(* src/src/config.go validateConfigPathCandidate *)
Definition validateConfigPathCandidate (fs : file_system) (configPath : string) : option os_error :=
  match fs_MkdirAll fs (path_Dir configPath) with
  | Some e => Some (wrap_os "create config directory" e)
  | None =>
    match verifyConfigDirectoryWritable fs (path_Dir configPath) with
    | Some e => Some e
    | None =>
      match fs_Stat fs configPath with
      | Err e => Some (wrap_os "read config path" e)
      | Ok (Some true) => wrap_os "open config path" <$> fs_Open fs configPath
      | Ok _ => None
      end
    end
  end.

(* src/src/config.go isPermissionError *)
Definition isPermissionError (e : os_error) : bool :=
  oe_Permission e || Contains (ToLower (oe_text e)) "permission denied".

(* src/src/config.go configDirName *)
Definition configDirName : string := ".local/share/github-copilot-svcs".
Definition configDirFallbackName : string := ".config/ya-router".
Definition configFileName : string := "config.json".

Inductive path_error :=
| InvalidPathEnv (e : os_error) | InvalidDirEnv (e : os_error) | NoUser | Unusable (e : os_error)
| NeitherUsable (preferred fallback : os_error).

Definition preferredPath (home : string) : string := path_Join (path_Join home configDirName) configFileName.
Definition fallbackPath (home : string) : string := path_Join (path_Join home configDirFallbackName) configFileName.

(* src/src/config.go resolveDefaultConfigPath *)
Definition resolveDefaultConfigPath (fs : file_system) (home : string) : result string path_error :=
  match validateConfigPathCandidate fs (preferredPath home) with
  | None => Ok (preferredPath home)
  | Some preferredErr =>
    if negb (isPermissionError preferredErr) then Err (Unusable preferredErr)
    else match validateConfigPathCandidate fs (fallbackPath home) with
         | Some fallbackErr => Err (NeitherUsable preferredErr fallbackErr)
         | None => Ok (fallbackPath home)
         end
  end.

(** [configPathOverride], the two variables and the home directory of the user. *)
Record path_env := mkPathEnv {
  pe_override : string; pe_ConfigPath : string; pe_ConfigDir : string; pe_home : option string;
}.

(* src/src/config.go getConfigPath *)
Definition getConfigPath (env : path_env) (fs : file_system) : result string path_error :=
  if negb (String.eqb (pe_override env) "") then Ok (pe_override env)
  else
    let customPath := TrimSpace (pe_ConfigPath env) in
    if negb (String.eqb customPath "") then
      match validateConfigPathCandidate fs customPath with
      | Some e => Err (InvalidPathEnv e)
      | None => Ok customPath
      end
    else
      let customDir := TrimSpace (pe_ConfigDir env) in
      if negb (String.eqb customDir "") then
        let path := path_Join customDir configFileName in
        match validateConfigPathCandidate fs path with
        | Some e => Err (InvalidDirEnv e)
        | None => Ok path
        end
      else match pe_home env with
      | None => Err NoUser
      | Some home => resolveDefaultConfigPath fs home
      end.

(** ** Loading *)

Class ConfigText := {
  probe : string → Z * option bool;
  decode_config : string → option (Config * bool);
  decode_legacy : string → option legacyV0Config;
  account_digest : string → string;
}.

Inductive file := Missing | OpenDenied | OpenFails | ReadFails | Text (raw : string).

Inductive load_error := DeniedConfig | UnopenedConfig | UnreadConfig | InvalidConfig.

Section load.
Context `{ConfigText}.

Definition set_ExposeInternalModels (b : bool) (c : Config) : Config :=
  let r := cfg_Routing c in
  Defaults.set_routing (mkRouting (DefaultModel r) (DefaultProvider r) (ShowUnavailableModels r) (ModelMap r)
    (ClaudeAliases r) (VirtualModels r) b) c.

(* src/src/config.go loadConfigFromPath *)
Definition loadConfigFromPath (f : file) : result Config load_error :=
  match f with
  | Missing => Ok defaultConfig
  | OpenDenied => Err DeniedConfig
  | OpenFails => Err UnopenedConfig
  | ReadFails => Err UnreadConfig
  | Text raw =>
    let '(version, expose) := probe raw in
    if (1 <=? version)%Z then
      match decode_config raw with
      | None => Err InvalidConfig
      | Some (cfg, vm_nil) =>
        let cfg := applyConfigDefaults account_digest vm_nil cfg in
        Ok (match expose with None => set_ExposeInternalModels true cfg | Some _ => cfg end)
      end
    else
      match decode_legacy raw with
      | None => Err InvalidConfig
      | Some legacy => Ok (migrateV0ToV1 account_digest legacy)
      end
  end.

(** The example file of the working directory; it is looked for before it is opened,
    so that a file that cannot be seen counts as missing. *)
(* src/src/config_migration.go loadDefaultConfigFromExample *)
Definition loadDefaultConfigFromExample (f : file) : result Config load_error :=
  match f with
  | Missing => Ok defaultConfig
  | OpenDenied | OpenFails => Err UnopenedConfig
  | ReadFails => Err UnreadConfig
  | Text raw =>
    if (1 <=? (probe raw).1)%Z then
      match decode_config raw with
      | None => Err InvalidConfig
      | Some (cfg, vm_nil) => Ok (applyConfigDefaults account_digest vm_nil cfg)
      end
    else
      match decode_legacy raw with
      | None => Err InvalidConfig
      | Some legacy => Ok (migrateV0ToV1 account_digest legacy)
      end
  end.
End load.

(** ** The merge with the example *)

(* src/src/config.go ConfigMigrationMode *)
Definition ConfigMigrationNone : string := "none".
(* src/src/config.go ConfigMigrationMerge *)
Definition ConfigMigrationMerge : string := "merge".
Definition ConfigMigrationOverride : string := "override".

(* src/src/config_migration.go mergeTimeouts *)
Definition mergeTimeouts (dst src : Timeouts) : Timeouts :=
  mkTimeouts (or_default (HTTPClient dst) (HTTPClient src)) (or_default (ServerRead dst) (ServerRead src))
    (or_default (ServerWrite dst) (ServerWrite src)) (or_default (ServerIdle dst) (ServerIdle src))
    (or_default (ProxyContext dst) (ProxyContext src)) (or_default (CircuitBreaker dst) (CircuitBreaker src))
    (or_default (KeepAlive dst) (KeepAlive src)) (or_default (TLSHandshake dst) (TLSHandshake src))
    (or_default (DialTimeout dst) (DialTimeout src)) (or_default (IdleConnTimeout dst) (IdleConnTimeout src)).

Definition or_slice {A} (s d : slice A) : slice A := match s with Some l => Some l | None => d end.

(** The allowed models of Copilot and Kilo. *)
Definition set_allowed (copilot kilo : slice string) (p : Providers) : Providers :=
  let c := pr_Copilot p in let k := pr_Kilo p in
  mkProviders
    (mkCopilotProvider (cp_Enabled c) (cp_Auth c) (cp_Accounts c) (cp_AccountCooldownSeconds c) copilot)
    (pr_Codex p)
    (mkKiloProvider (kp_Enabled k) (kp_AllowAnonymous k) (kp_APIKey k) (kp_APIKeyRef k) (kp_OrganizationID k)
      (kp_OrganizationIDRef k) (kp_BaseURL k) kilo).

Definition merge_allowed (p d : Providers) : Providers :=
  set_allowed (or_slice (cp_AllowedModels (pr_Copilot p)) (cp_AllowedModels (pr_Copilot d)))
    (or_slice (kp_AllowedModels (pr_Kilo p)) (kp_AllowedModels (pr_Kilo d))) p.

(* src/src/config_migration.go mergeConfigs *)
Definition mergeConfigs (existing defaults : Config) (mode : string) : Config :=
  if String.eqb mode ConfigMigrationOverride then defaults
  else if String.eqb mode ConfigMigrationMerge then
    let r := cfg_Routing existing in
    let dr := cfg_Routing defaults in
    mkConfig (or_default (Port existing) (Port defaults)) (ConfigVersion existing) (EnablePprof existing)
      (cfg_Logging existing)
      (mkRouting (or_string (DefaultModel r) (DefaultModel dr)) (or_string (DefaultProvider r) (DefaultProvider dr))
        (ShowUnavailableModels r) (ModelMap r) (ClaudeAliases r) (VirtualModels r) (ExposeInternalModels r))
      (merge_allowed (cfg_Providers existing) (cfg_Providers defaults))
      (mergeTimeouts (cfg_Timeouts existing) (cfg_Timeouts defaults))
  else existing.

(** The map with the known models of Codex, and whether one was missing. *)
(* src/src/config_migration.go ensureCodexModelMap *)
Definition ensureCodexModelMap (models : gmap string ModelMapEntry) : gmap string ModelMapEntry * bool :=
  foldl (λ '(models, added) id,
    match models !! id with
    | Some _ => (models, added)
    | None => (<[id := mkModelMapEntry Codex ""]> models, true)
    end) (models, false) codexKnownModels.

(** ** Saving *)

(** The managed state of the process, or the files when there is none. *)
Inductive config_state := Managed (m : Manager) | Unmanaged (d : Disk).

Inductive config_error :=
| PathFailed (e : path_error) | LoadConfigFailed (e : load_error) | StateFailed (e : State.error)
| InvalidAccountIndex (i : Z) | AccountGone (id : string) | AlreadyActive.

(** What a write meets: where it stops, when, and whether the lock is free. *)
Record save_world := mkSaveWorld { sw_stop : option stop_point; sw_now : Time; sw_lockFree : bool }.

Section save.
Context `{StateCodec} `{ConfigText}.

(* src/src/revisioned_state.go openConfigState *)
Definition openConfigState (path actor : string) (lockFree : bool) (now : Time) (d : Disk) : result Manager State.error :=
  State.Open (mkOptions path (Some defaultConfig) actor) lockFree None now d.

(** [fault] is what keeps the file from being read. *)
(* src/src/config.go loadConfig *)
Definition loadConfig (path : result string path_error) (fault : option load_error) (s : config_state)
    : result Config config_error :=
  match s with
  | Managed m => Ok (Clone (Desired (currentSnapshot m)))
  | Unmanaged d =>
    let? _ := map_err PathFailed path in
    match fault with
    | Some e => Err (LoadConfigFailed e)
    | None => map_err LoadConfigFailed (loadConfigFromPath match d_config d with Some raw => Text raw | None => Missing end)
    end
  end.

Definition of_apply (r : Manager * result Snapshot State.error) : Manager * result unit config_error :=
  (r.1, map_err StateFailed (let? _ := r.2 in Ok tt)).

(* src/src/config_persistence.go saveConfigLocked *)
(* src/src/config_persistence.go saveConfig *)
Definition saveConfig (path : result string path_error) (w : save_world) (cfg : Config) (s : config_state)
    : config_state * result unit config_error :=
  match s with
  | Managed m =>
    let '(m, r) := of_apply (State.Apply (sw_stop w) (sw_now w) (Revision (currentSnapshot m)) (Some cfg) (Some cfg)
                               "runtime" false m) in
    (Managed m, r)
  | Unmanaged d =>
    match path with
    | Err e => (s, Err (PathFailed e))
    | Ok path =>
      match openConfigState path "ya" (sw_lockFree w) (sw_now w) d with
      | Err e => (s, Err (StateFailed e))
      | Ok m =>
        let '(m, r) := of_apply (State.Apply (sw_stop w) (sw_now w) (Revision (currentSnapshot m)) (Some cfg) (Some cfg)
                                   "ya" false m) in
        (Unmanaged (disk (State.Close m)), r)
      end
    end
  end.

(** [present]: there is something at the path; [example]: the example file. *)
(* src/src/config_migration.go migrateConfig *)
Definition migrateConfig (path : result string path_error) (fault : option load_error) (example : file) (present : bool)
    (w : save_world) (mode : string) (s : config_state) : config_state * result unit config_error :=
  if String.eqb mode ConfigMigrationNone then (s, Ok tt)
  else match loadConfig path fault s with
  | Err e => (s, Err e)
  | Ok existing =>
    match loadDefaultConfigFromExample example, path with
    | Err e, _ => (s, Err (LoadConfigFailed e))
    | Ok _, Err e => (s, Err (PathFailed e))
    | Ok defaults, Ok _ =>
      if negb present then (s, Ok tt) else saveConfig path w (mergeConfigs existing defaults mode) s
    end
  end.

(** ** What the providers write while they run *)

Fixpoint update_first {A} (p : A → bool) (f : A → A) (l : list A) : option (list A) :=
  match l with
  | [] => None
  | x :: l => if p x then Some (f x :: l) else cons x <$> update_first p f l
  end.

Definition set_copilot (f : CopilotProvider → CopilotProvider) (c : Config) : Config :=
  let p := cfg_Providers c in Defaults.set_providers (mkProviders (f (pr_Copilot p)) (pr_Codex p) (pr_Kilo p)) c.
Definition set_codex (f : CodexProvider → CodexProvider) (c : Config) : Config :=
  let p := cfg_Providers c in Defaults.set_providers (mkProviders (pr_Copilot p) (f (pr_Codex p)) (pr_Kilo p)) c.

Definition copilot_auth (auth : CopilotAuthState) (accounts : slice CopilotAccount) (p : CopilotProvider) : CopilotProvider :=
  mkCopilotProvider (cp_Enabled p) auth accounts (cp_AccountCooldownSeconds p) (cp_AllowedModels p).
Definition codex_auth (auth : CodexAuthState) (accounts : slice CodexAccount) (p : CodexProvider) : CodexProvider :=
  mkCodexProvider (cx_Enabled p) auth accounts (cx_AccountCooldownSeconds p) (cx_AllowedModels p) (cx_ChatGPTBaseURL p).

Definition take_copilot (src a : CopilotAccount) : CopilotAccount :=
  mkCopilotAccount (cpa_ID a) (cpa_Label a) (cpa_Auth src) (cpa_LastLimitedAt src).
Definition take_codex (src a : CodexAccount) : CodexAccount :=
  mkCodexAccount (cxa_ID a) (cxa_Label a) (cxa_Auth src) (cxa_LastLimitedAt src).

(** The latest configuration with the account of the source. *)
(* src/src/config_persistence.go persistCopilotRuntimeAccount *)
Definition with_copilot_account (source : CopilotProvider) (i : Z) (latest : Config) : result Config config_error :=
  match elems (cp_Accounts source) with
  | [] => Ok (set_copilot (λ p, copilot_auth (cp_Auth source) (cp_Accounts p) p) latest)
  | accounts =>
    match (if (i <? 0)%Z then None else accounts !! Z.to_nat i) with
    | None => Err (InvalidAccountIndex i)
    | Some src =>
      match update_first (λ a, sameAccount (cpa_ID src) (cpa_Label src) (cpa_ID a) (cpa_Label a)) (take_copilot src)
              (elems (cp_Accounts (pr_Copilot (cfg_Providers latest)))) with
      | Some l => Ok (set_copilot (λ p, copilot_auth (cp_Auth p) (Some l) p) latest)
      | None => Err (AccountGone (cpa_ID src))
      end
    end
  end.

(* src/src/config_persistence.go persistCodexRuntimeAccount *)
Definition with_codex_account (source : CodexProvider) (i : Z) (latest : Config) : result Config config_error :=
  match elems (cx_Accounts source) with
  | [] => Ok (set_codex (λ p, codex_auth (cx_Auth source) (cx_Accounts p) p) latest)
  | accounts =>
    match (if (i <? 0)%Z then None else accounts !! Z.to_nat i) with
    | None => Err (InvalidAccountIndex i)
    | Some src =>
      match update_first (λ a, sameAccount (cxa_ID src) (cxa_Label src) (cxa_ID a) (cxa_Label a)) (take_codex src)
              (elems (cx_Accounts (pr_Codex (cfg_Providers latest)))) with
      | Some l => Ok (set_codex (λ p, codex_auth (cx_Auth p) (Some l) p) latest)
      | None => Err (AccountGone (cxa_ID src))
      end
    end
  end.

Definition persist_runtime (update : Config → result Config config_error) (path : result string path_error)
    (fault : option load_error) (w : save_world) (s : config_state) : config_state * result unit config_error :=
  match (let? latest := loadConfig path fault s in update latest) with
  | Err e => (s, Err e)
  | Ok latest => saveConfig path w latest s
  end.

(* src/src/config_persistence.go persistCopilotRuntimeAccount *)
Definition persistCopilotRuntimeAccount (source : Config) (i : Z) :=
  persist_runtime (with_copilot_account (pr_Copilot (cfg_Providers source)) i).

(* src/src/config_persistence.go persistCodexRuntimeAccount *)
Definition persistCodexRuntimeAccount (source : Config) (i : Z) :=
  persist_runtime (with_codex_account (pr_Codex (cfg_Providers source)) i).

(** ** One managed state per process

    Managers are numbered in the order in which they are opened. *)

Record active_state := mkActive { as_active : option nat; as_open : list nat; as_next : nat }.

Inductive acquire_error := AcquirePath (e : path_error) | AcquireOpen (e : State.error) | AcquireActive.

(** [opened] is what opening the files gives. *)
(* src/src/revisioned_state.go acquireManagedConfigState *)
Definition acquireManagedConfigState (path : result string path_error) (opened : result unit State.error) (s : active_state)
    : active_state * result nat acquire_error :=
  match path, opened with
  | Err e, _ => (s, Err (AcquirePath e))
  | Ok _, Err e => (s, Err (AcquireOpen e))
  | Ok _, Ok _ =>
    let id := as_next s in
    match as_active s with
    | Some _ => (mkActive (as_active s) (as_open s) (S id), Err AcquireActive)
    | None => (mkActive (Some id) (id :: as_open s) (S id), Ok id)
    end
  end.

(** The function it returns for the manager [id]. *)
(* src/src/revisioned_state.go:52-61 acquireManagedConfigState *)
Definition releaseManagedConfigState (id : nat) (s : active_state) : active_state :=
  mkActive (if bool_decide (as_active s = Some id) then None else as_active s)
    (List.filter (λ x, negb (x =? id)%nat) (as_open s)) (as_next s).
End save.

(** ** Facts *)

Lemma usable_or_not fs p : validateConfigPathCandidate fs p = None ∨ ∃ e, validateConfigPathCandidate fs p = Some e.
Proof. destruct (validateConfigPathCandidate fs p); eauto. Qed.

(** Which file is used.  A path from the environment is used as it is set, or the
    start fails: there is no other choice behind it.  Without one it is the file of the
    preferred directory, and the one of the fallback directory exactly when the
    preferred one is refused for its permissions and the fallback is usable.  Apart from
    the override of the tests, a path that is returned has been found usable. *)
Theorem config_path_is_settled env fs p :
  pe_override env = "" →
  (getConfigPath env fs = Ok p ↔
    validateConfigPathCandidate fs p = None ∧
    (if String.eqb (TrimSpace (pe_ConfigPath env)) "" then
       if String.eqb (TrimSpace (pe_ConfigDir env)) "" then
         ∃ home, pe_home env = Some home ∧
           (p = preferredPath home ∨
            p = fallbackPath home ∧ ∃ e, validateConfigPathCandidate fs (preferredPath home) = Some e
                                          ∧ isPermissionError e = true)
       else p = path_Join (TrimSpace (pe_ConfigDir env)) configFileName
     else p = TrimSpace (pe_ConfigPath env))).
Proof.
  intros Ho. unfold getConfigPath, resolveDefaultConfigPath. rewrite Ho. cbn [String.eqb negb].
  destruct (String.eqb (TrimSpace (pe_ConfigPath env)) "") eqn:Hp; cbn [negb].
  2:{ destruct (validateConfigPathCandidate fs (TrimSpace (pe_ConfigPath env))) eqn:Hv; naive_solver. }
  destruct (String.eqb (TrimSpace (pe_ConfigDir env)) "") eqn:Hd; cbn [negb].
  2:{ destruct (validateConfigPathCandidate fs (path_Join _ _)) eqn:Hv; naive_solver. }
  destruct (pe_home env) as [home|]; [|naive_solver].
  destruct (validateConfigPathCandidate fs (preferredPath home)) as [e|] eqn:Hv.
  - destruct (isPermissionError e) eqn:Hperm; cbn [negb].
    + destruct (validateConfigPathCandidate fs (fallbackPath home)) as [e'|] eqn:Hv'; [naive_solver|].
      split; [naive_solver|]. intros (Hp' & h & [= <-] & [-> |[-> _]]); congruence.
    + split; [done|]. intros (Hp' & h & [= <-] & [-> |(-> & e' & He' & ?)]); congruence.
  - split; [naive_solver|]. intros (Hp' & h & [= <-] & [-> |(-> & e' & He' & ?)]); congruence.
Qed.

Section load_facts.
Context `{ConfigText}.

(** What a file shows of models a client does not ask for: a file that says nothing
    about it, or an old one, keeps showing them; a new installation does not. *)
Theorem existing_files_keep_their_models f c :
  loadConfigFromPath f = Ok c →
  match f with
  | Text raw =>
    if (1 <=? (probe raw).1)%Z then
      ∃ decoded vm_nil, decode_config raw = Some (decoded, vm_nil) ∧
        ExposeInternalModels (cfg_Routing c) =
          match (probe raw).2 with Some _ => ExposeInternalModels (cfg_Routing decoded) | None => true end
    else ExposeInternalModels (cfg_Routing c) = true
  | _ => ExposeInternalModels (cfg_Routing c) = false
  end.
Proof.
  unfold loadConfigFromPath. destruct f as [| | | |raw]; [by intros [= <-]|done..|].
  destruct (probe raw) as [version expose]. cbn [fst snd].
  destruct (1 <=? version)%Z.
  - destruct (decode_config raw) as [[decoded vm_nil]|]; [|done]. intros [= <-]. exists decoded, vm_nil.
    split; [done|]. by destruct expose.
  - destruct (decode_legacy raw); [|done]. by intros [= <-].
Qed.
End load_facts.

Lemma or_default_l x d : x ≠ 0%Z → or_default x d = x.
Proof. intros Hx. unfold or_default. by rewrite (proj2 (Z.eqb_neq x 0) Hx). Qed.

Lemma or_string_l s d : s ≠ "" → or_string s d = s.
Proof. intros Hs. unfold or_string. by rewrite (proj2 (String.eqb_neq s "") Hs). Qed.

Lemma or_string_nonempty s d : d ≠ "" → or_string s d ≠ "".
Proof. intros Hd. unfold or_string. destruct (String.eqb_spec s ""); done. Qed.

(** A configuration none of whose defaulted fields is missing. *)
Record filled (c : Config) : Prop := {
  fi_port : Port c ≠ 0%Z;
  fi_model : DefaultModel (cfg_Routing c) ≠ "";
  fi_provider : DefaultProvider (cfg_Routing c) ≠ "";
  fi_timeouts : Forall (λ x, x ≠ 0%Z)
    (let t := cfg_Timeouts c in [HTTPClient t; ServerRead t; ServerWrite t; ServerIdle t; ProxyContext t;
      CircuitBreaker t; KeepAlive t; TLSHandshake t; DialTimeout t; IdleConnTimeout t]);
}.

Lemma defaults_fill sha vm_nil c : filled (applyConfigDefaults sha vm_nil c).
Proof.
  split; unfold applyConfigDefaults; simpl.
  - by apply or_default_nonzero.
  - by apply or_string_nonempty.
  - by apply or_string_nonempty.
  - repeat (apply Forall_cons; split; [by apply or_default_nonzero|]). done.
Qed.

Lemma mergeTimeouts_filled t d :
  Forall (λ x, x ≠ 0%Z) [HTTPClient t; ServerRead t; ServerWrite t; ServerIdle t; ProxyContext t;
    CircuitBreaker t; KeepAlive t; TLSHandshake t; DialTimeout t; IdleConnTimeout t] →
  mergeTimeouts t d = t.
Proof.
  rewrite !Forall_cons. intros (?&?&?&?&?&?&?&?&?&?&_). unfold mergeTimeouts.
  rewrite !or_default_l by done. by destruct t.
Qed.

Lemma merge_filled c d :
  filled c →
  mergeConfigs c d ConfigMigrationMerge
  = Defaults.set_providers (merge_allowed (cfg_Providers c) (cfg_Providers d)) c.
Proof.
  intros [Hp Hm Hpr Ht]. unfold mergeConfigs. cbn [String.eqb ConfigMigrationOverride ConfigMigrationMerge Ascii.eqb Bool.eqb].
  rewrite or_default_l, !or_string_l by done. rewrite (mergeTimeouts_filled _ _ Ht).
  by destruct c as [? ? ? ? [] ? ?].
Qed.

Lemma or_slice_again {A} (s d : slice A) : or_slice (or_slice s d) d = or_slice s d.
Proof. by destruct s, d. Qed.

Section merge_facts.
Context `{ConfigText}.

Lemma loaded_filled f c : loadConfigFromPath f = Ok c → filled c.
Proof.
  unfold loadConfigFromPath. destruct f as [| | | |raw]; [|done..|].
  - intros [= <-]. split; [done..|]. by repeat (apply Forall_cons; split; [done|]).
  - destruct (probe raw) as [version expose]. destruct (1 <=? version)%Z.
    + destruct (decode_config raw) as [[decoded vm_nil]|]; [|done].
      destruct (defaults_fill account_digest vm_nil decoded) as [H1 H2 H3 H4].
      destruct expose; intros [= <-]; split; assumption.
    + destruct (decode_legacy raw) as [v0|]; [|done]. intros [= <-]. split; simpl.
      * by apply or_default_nonzero.
      * by apply or_string_nonempty.
      * done.
      * repeat (apply Forall_cons; split; [by apply or_default_nonzero|]). done.
Qed.

(** The merge at the start of the daemon.  A configuration that was read from a
    file has had its defaults filled in, so that of all the fields the merge looks at
    it takes from the example only the allowed models of Copilot and of Kilo, and those
    only where the file has none; doing it again changes nothing. *)
Theorem merge_takes_only_allowed_models f c d :
  loadConfigFromPath f = Ok c →
  let merged := mergeConfigs c d ConfigMigrationMerge in
  merged = Defaults.set_providers (merge_allowed (cfg_Providers c) (cfg_Providers d)) c ∧
  mergeConfigs merged d ConfigMigrationMerge = merged ∧
  (∀ mode, mode ≠ ConfigMigrationMerge → mode ≠ ConfigMigrationOverride → mergeConfigs c d mode = c).
Proof.
  intros Hf%loaded_filled. rewrite (merge_filled _ _ Hf). cbv zeta. split; [done|]. split.
  - rewrite merge_filled by (destruct Hf; by split). unfold Defaults.set_providers, merge_allowed, set_allowed. simpl.
    by rewrite !or_slice_again.
  - intros mode H1%String.eqb_neq H2%String.eqb_neq. unfold mergeConfigs. by rewrite H1, H2.
Qed.
End merge_facts.

(** The model map keeps its entries and gets the missing models of Codex. *)
Lemma ensureCodexModelMap_spec models id :
  (ensureCodexModelMap models).1 !! id =
    (match models !! id with
     | Some e => Some e
     | None => if bool_decide (id ∈ codexKnownModels) then Some (mkModelMapEntry Codex "") else None
     end) ∧
  ((ensureCodexModelMap models).2 = false ↔ ∀ x, x ∈ codexKnownModels → is_Some (models !! x)).
Proof.
  unfold ensureCodexModelMap. set (f := λ '(models, added) (id : string), _).
  assert (∀ l (m : gmap string ModelMapEntry) (b : bool),
    (foldl f (m, b) l).1 !! id = (match m !! id with Some e => Some e
       | None => if bool_decide (id ∈ l) then Some (mkModelMapEntry Codex "") else None end) ∧
    ((foldl f (m, b) l).2 = false ↔ b = false ∧ ∀ x, x ∈ l → is_Some (m !! x))) as Hgen.
  { intros l. induction l as [|y l IH]; intros m b; simpl.
    - split; [by destruct (m !! id)|]. set_solver.
    - destruct (m !! y) as [e|] eqn:Hy.
      + destruct (IH m b) as [-> ->]. split.
        * destruct (m !! id) eqn:Hid; [done|]. rewrite !bool_decide_decide.
          destruct (decide (id ∈ l)), (decide (id ∈ y :: l)); set_solver.
        * set_solver.
      + destruct (IH (<[y := mkModelMapEntry Codex ""]> m) true) as [-> ->]. split.
        * destruct (decide (id = y)) as [->|Hne].
          { rewrite lookup_insert_eq, Hy. by rewrite bool_decide_true by set_solver. }
          rewrite lookup_insert_ne by done. destruct (m !! id) eqn:Hid; [done|]. rewrite !bool_decide_decide.
          destruct (decide (id ∈ l)), (decide (id ∈ y :: l)); set_solver.
        * split; [naive_solver|]. intros [_ Hall]. destruct (Hall y) as [e He]; [set_solver|congruence]. }
  destruct (Hgen codexKnownModels models false) as [-> ->]. split; [done|]. naive_solver.
Qed.

Section save_facts.
Context `{StateCodec} `{ConfigText}.

(** A save that succeeds has committed, changed or not, and what was in the file is the
    last known good configuration from then on. *)
Lemma Apply_commits stop now r desired effective actor m m' s :
  State.Apply stop now r (Some desired) (Some effective) actor false m = (m', Ok s) →
  Desired (snapshot m') = Clone desired ∧ Effective (snapshot m') = Clone (Clone effective) ∧
  Revision (snapshot m') = wrap_u64 (Revision (snapshot m) + 1) ∧
  (∀ raw, d_config (disk m) = Some raw → d_configBackup (disk m') = Some raw) ∧
  ∃ text, marshalConfig (Clone desired) = Some text ∧ d_config (disk m') = Some text.
Proof.
  unfold State.Apply. destruct (closed m); [done|]. destruct (negb _); [done|].
  destruct (previewLockedWithoutLock _ _ _) as [preview|]; [|done]. rewrite andb_false_r.
  destruct (configDigest _); [|done]. unfold commit.
  destruct (persist _ _ _) as [d [e|]] eqn:Hp; [done|]. intros [= <- _]. simpl.
  apply persist_written in Hp. inversion Hp as [| |? ? text meta Htext _ Hcfg _ Hback]; subst. simpl in *.
  split_and!; [done..| |by exists text]. intros raw Hraw. by rewrite Hback, Hraw.
Qed.

Lemma update_first_Some {A} (p : A → bool) (f : A → A) (l l' : list A) :
  update_first p f l = Some l' →
  ∃ k x, l !! k = Some x ∧ p x = true ∧ (∀ j y, (j < k)%nat → l !! j = Some y → p y = false) ∧ l' = <[k := f x]> l.
Proof.
  revert l'; induction l as [|x l IH]; intros l'; simpl; [done|].
  destruct (p x) eqn:Hp.
  - intros [= <-]. exists 0%nat, x. split_and!; [done..| |done]. intros j y ?. lia.
  - destruct (update_first p f l) as [l1|]; [|done]. intros [= <-].
    destruct (IH l1 eq_refl) as (k & y & Hk & Hy & Hb & ->). exists (S k), y. split_and!; [done..| |done].
    intros [|j] z Hj; simpl; [by intros [= <-]|]. apply Hb. lia.
Qed.

Lemma of_apply_Ok (r : Manager * result Snapshot State.error) m' :
  of_apply r = (m', Ok tt) → ∃ s, r = (m', Ok s).
Proof. destruct r as [m [s|e]]; unfold of_apply; simpl; [intros [= <-]; eauto|done]. Qed.

(** What a provider writes while it runs.  The token and the cooldown of an account
    go into the latest configuration at the first account of the same identity (or
    label), next to its own identity and label; everything else is what that
    configuration says, not what the provider was started with.  The write advances the
    revision, and the configuration it replaces becomes the last known good one. *)
Theorem runtime_write_changes_one_account source i path fault w m s' :
  persistCopilotRuntimeAccount source i path fault w (Managed m) = (s', Ok tt) →
  elems (cp_Accounts (pr_Copilot (cfg_Providers source))) ≠ [] →
  let latest := Clone (Desired (snapshot m)) in
  let accounts := elems (cp_Accounts (pr_Copilot (cfg_Providers latest))) in
  ∃ m' src a k, s' = Managed m' ∧
    elems (cp_Accounts (pr_Copilot (cfg_Providers source))) !! Z.to_nat i = Some src ∧ accounts !! k = Some a ∧
    sameAccount (cpa_ID src) (cpa_Label src) (cpa_ID a) (cpa_Label a) = true ∧
    (∀ j b, (j < k)%nat → accounts !! j = Some b → sameAccount (cpa_ID src) (cpa_Label src) (cpa_ID b) (cpa_Label b) = false) ∧
    Desired (snapshot m') = Clone (set_copilot (λ p, copilot_auth (cp_Auth p)
      (Some (<[k := mkCopilotAccount (cpa_ID a) (cpa_Label a) (cpa_Auth src) (cpa_LastLimitedAt src)]> accounts)) p) latest) ∧
    Revision (snapshot m') = wrap_u64 (Revision (snapshot m) + 1) ∧
    (∀ raw, d_config (disk m) = Some raw → d_configBackup (disk m') = Some raw).
Proof.
  intros Hp Hne. cbv zeta. unfold persistCopilotRuntimeAccount, persist_runtime, loadConfig in Hp.
  cbn [bind_result currentSnapshot cloneSnapshot Desired] in Hp. unfold with_copilot_account in Hp.
  destruct (elems (cp_Accounts (pr_Copilot (cfg_Providers source)))) as [|s0 sl] eqn:Hs; [done|].
  destruct (if (i <? 0)%Z then None else (s0 :: sl) !! Z.to_nat i) as [src|] eqn:Hi; [|done].
  assert ((s0 :: sl) !! Z.to_nat i = Some src) as Hsrc by (destruct (i <? 0)%Z; done).
  rewrite Clone_idemp in Hp.
  destruct (update_first _ _ _) as [l|] eqn:Hu; [|done]. cbn [saveConfig] in Hp.
  destruct (of_apply _) as [m' r] eqn:Ha in Hp. injection Hp as <- ->.
  apply of_apply_Ok in Ha as [s Ha]. apply Apply_commits in Ha as (Hd & _ & Hr & Hb & _).
  apply update_first_Some in Hu as (k & a & Hk & Hsame & Hfirst & ->).
  exists m', src, a, k. by split_and!.
Qed.

(** The same for Codex. *)
Theorem codex_runtime_write_changes_one_account source i path fault w m s' :
  persistCodexRuntimeAccount source i path fault w (Managed m) = (s', Ok tt) →
  elems (cx_Accounts (pr_Codex (cfg_Providers source))) ≠ [] →
  let latest := Clone (Desired (snapshot m)) in
  let accounts := elems (cx_Accounts (pr_Codex (cfg_Providers latest))) in
  ∃ m' src a k, s' = Managed m' ∧
    elems (cx_Accounts (pr_Codex (cfg_Providers source))) !! Z.to_nat i = Some src ∧ accounts !! k = Some a ∧
    sameAccount (cxa_ID src) (cxa_Label src) (cxa_ID a) (cxa_Label a) = true ∧
    (∀ j b, (j < k)%nat → accounts !! j = Some b → sameAccount (cxa_ID src) (cxa_Label src) (cxa_ID b) (cxa_Label b) = false) ∧
    Desired (snapshot m') = Clone (set_codex (λ p, codex_auth (cx_Auth p)
      (Some (<[k := mkCodexAccount (cxa_ID a) (cxa_Label a) (cxa_Auth src) (cxa_LastLimitedAt src)]> accounts)) p) latest) ∧
    Revision (snapshot m') = wrap_u64 (Revision (snapshot m) + 1) ∧
    (∀ raw, d_config (disk m) = Some raw → d_configBackup (disk m') = Some raw).
Proof.
  intros Hp Hne. cbv zeta. unfold persistCodexRuntimeAccount, persist_runtime, loadConfig in Hp.
  cbn [bind_result currentSnapshot cloneSnapshot Desired] in Hp. unfold with_codex_account in Hp.
  destruct (elems (cx_Accounts (pr_Codex (cfg_Providers source)))) as [|s0 sl] eqn:Hs; [done|].
  destruct (if (i <? 0)%Z then None else (s0 :: sl) !! Z.to_nat i) as [src|] eqn:Hi; [|done].
  assert ((s0 :: sl) !! Z.to_nat i = Some src) as Hsrc by (destruct (i <? 0)%Z; done).
  rewrite Clone_idemp in Hp.
  destruct (update_first _ _ _) as [l|] eqn:Hu; [|done]. cbn [saveConfig] in Hp.
  destruct (of_apply _) as [m' r] eqn:Ha in Hp. injection Hp as <- ->.
  apply of_apply_Ok in Ha as [s Ha]. apply Apply_commits in Ha as (Hd & _ & Hr & Hb & _).
  apply update_first_Some in Hu as (k & a & Hk & Hsame & Hfirst & ->).
  exists m', src, a, k. by split_and!.
Qed.

(** The migration at a start of the daemon commits a revision whether it changes
    anything or not, and with it moves the last known good configuration. *)
Theorem every_start_commits path fault example w m s' :
  migrateConfig path fault example true w ConfigMigrationMerge (Managed m) = (s', Ok tt) →
  ∃ m', s' = Managed m' ∧ Revision (snapshot m') = wrap_u64 (Revision (snapshot m) + 1) ∧
    ∀ raw, d_config (disk m) = Some raw → d_configBackup (disk m') = Some raw.
Proof.
  unfold migrateConfig. cbn [String.eqb ConfigMigrationMerge ConfigMigrationNone Ascii.eqb Bool.eqb loadConfig].
  destruct (loadDefaultConfigFromExample example) as [d|], path as [p|]; [|done..]. cbn [negb saveConfig].
  destruct (of_apply _) as [m' r] eqn:Ha. intros [= <- ->].
  apply of_apply_Ok in Ha as [s Ha]. apply Apply_commits in Ha as (_ & _ & Hr & Hb & _). by exists m'.
Qed.

(** While a daemon holds the files, a command of another process changes none of them. *)
Lemma locked_files_refuse_commands path stop now cfg d :
  ∃ e, saveConfig path (mkSaveWorld stop now false) cfg (Unmanaged d) = (Unmanaged d, Err e).
Proof.
  unfold saveConfig, openConfigState, State.Open. destruct path as [p|e]; [|by eexists]. simpl.
  destruct (String.eqb (TrimSpace p) ""); by eexists.
Qed.
End save_facts.

Inductive active_op := Acquire (path : result string path_error) (opened : result unit State.error) | Release (id : nat).

Definition active_step (s : active_state) (o : active_op) : active_state :=
  match o with
  | Acquire path opened => (acquireManagedConfigState path opened s).1
  | Release id => releaseManagedConfigState id s
  end.

(** The managers that are open are the active one: an attempt that comes second closes
    what it opened, and a release that comes late, or twice, harms nobody. *)
Theorem the_open_state_is_the_active_one ops :
  let s := foldl active_step (mkActive None [] 0) ops in as_open s = option_list (as_active s).
Proof.
  cbv zeta. set (s0 := mkActive None [] 0). assert (as_open s0 = option_list (as_active s0)) as Hs by done.
  clearbody s0. revert s0 Hs. induction ops as [|o ops IH]; intros s Hs; simpl; [done|]. apply IH. clear IH.
  destruct o as [path opened|id]; simpl.
  - unfold acquireManagedConfigState. destruct path, opened; try done. destruct (as_active s) eqn:Ha; simpl; [done|].
    by rewrite Hs.
  - rewrite Hs. destruct (as_active s) as [a|]; simpl; [|done].
    destruct (decide (a = id)) as [->|Hne].
    + by rewrite bool_decide_true, Nat.eqb_refl.
    + rewrite bool_decide_false by naive_solver. by rewrite (proj2 (Nat.eqb_neq a id) Hne).
Qed.

Module ExampleFiles.

(** A home whose preferred directory is not ours. *)
Definition denied : os_error := mkOsError true "open: permission denied".
Definition fs : file_system := mkFS (λ d, if Contains d ".local" then Some denied else None)
  (λ _, None) (λ _, None) (λ _, None) (λ _, Ok None) (λ _, None).
Definition env : path_env := mkPathEnv "" "" " " (Some "/home/u").

Lemma config_path_is_settled_witness :
  getConfigPath env fs = Ok "/home/u/.config/ya-router/config.json" ∧
  ∃ home, pe_home env = Some home ∧ ("/home/u/.config/ya-router/config.json" = preferredPath home
    ∨ "/home/u/.config/ya-router/config.json" = fallbackPath home
      ∧ ∃ e, validateConfigPathCandidate fs (preferredPath home) = Some e ∧ isPermissionError e = true).
Proof.
  assert (getConfigPath env fs = Ok "/home/u/.config/ya-router/config.json") as E by (vm_compute; reflexivity).
  split; [exact E|]. exact (proj2 (proj1 (config_path_is_settled env fs _ eq_refl) E)).
Defined.

(** A file with one setting: the port. *)
#[local] Instance text : ConfigText := {
  probe raw := (if String.eqb raw "old" then 0%Z else 1%Z, None);
  decode_config raw := Some (on_port (Z.of_nat (String.length raw)), true);
  decode_legacy raw := Some (mkLegacy 0 "" "" 0 0 None "" false (mkTimeouts 0 0 0 0 0 0 0 0 0 0));
  account_digest s := s;
}.

Definition example_file : Config :=
  Defaults.set_providers (set_allowed (Some ["gpt-4o"]) None (cfg_Providers (on_port 9))) (on_port 9).

Definition loaded : Config :=
  match loadConfigFromPath (Text "aaa") with Ok c => c | Err _ => on_port 0 end.

Lemma loads : loadConfigFromPath (Text "aaa") = Ok loaded.
Proof. reflexivity. Qed.

Lemma existing_files_keep_their_models_witness :
  loadConfigFromPath (Text "aaa") = Ok loaded ∧ ExposeInternalModels (cfg_Routing loaded) = true.
Proof.
  split; [reflexivity|]. destruct (existing_files_keep_their_models (Text "aaa") loaded loads) as (d & v & _ & E). exact E.
Defined.

(** Port 3 stays, port 9 of the example is not looked at. *)
Lemma merge_takes_only_allowed_models_witness :
  let merged := mergeConfigs loaded example_file ConfigMigrationMerge in
  Port merged = 3%Z ∧ cp_AllowedModels (pr_Copilot (cfg_Providers merged)) = Some ["gpt-4o"]
  ∧ mergeConfigs merged example_file ConfigMigrationMerge = merged.
Proof.
  split; [vm_compute; reflexivity|]. split; [vm_compute; reflexivity|].
  exact (proj1 (proj2 (merge_takes_only_allowed_models (Text "aaa") loaded example_file loads))).
Defined.

Definition account (id label token : string) (limited : Z) : CopilotAccount :=
  mkCopilotAccount id label (mkCopilotAuth "device_code" "" None token None 0 0) limited.
Definition pool (port : Z) (accounts : list CopilotAccount) : Config :=
  set_copilot (copilot_auth emptyCopilotAuth (Some accounts)) (on_port port).

(** A provider that was started with two accounts, and a later configuration with them
    in the other order and on another port. *)
Definition started : Config := pool 2 [account "a1" "work" "new" 77; account "a2" "home" "" 0].
Definition later : Manager :=
  mkManager (mkOptions "config.json" None "ya-routerd")
    (mkSnapshot 1 3 "aa" "aa" 100 "ya" (pool 2 [account "a2" "home" "h" 5; account "a1" "office" "old" 0]) (on_port 2) [])
    false example_disk.
Definition w : save_world := mkSaveWorld None 200 true.
Definition written : config_state := (persistCopilotRuntimeAccount started 0 (Ok "config.json") None w (Managed later)).1.

Lemma runtime_write_changes_one_account_witness :
  ∃ m', written = Managed m' ∧ Revision (snapshot m') = 4%Z ∧
    elems (cp_Accounts (pr_Copilot (cfg_Providers (Desired (snapshot m')))))
    = [account "a2" "home" "h" 5; account "a1" "office" "new" 77].
Proof.
  destruct (runtime_write_changes_one_account started 0 (Ok "config.json") None w later written)
    as (m' & src & a & k & E & _ & _ & _ & _ & _ & Hr & _).
  - vm_compute. reflexivity.
  - discriminate.
  - exists m'. split; [exact E|]. split; [rewrite Hr; vm_compute; reflexivity|].
    unfold written in E. vm_compute in E. injection E as <-. vm_compute. reflexivity.
Defined.

Definition codex_pool (accounts : list CodexAccount) : Config :=
  set_codex (codex_auth emptyCodexAuth (Some accounts)) (on_port 2).
Definition codex_account (id : string) (limited : Z) : CodexAccount := mkCodexAccount id "" emptyCodexAuth limited.
Definition later_codex : Manager :=
  mkManager (mkOptions "config.json" None "ya-routerd")
    (mkSnapshot 1 3 "aa" "aa" 100 "ya" (codex_pool [codex_account "c1" 0]) (on_port 2) []) false example_disk.

Lemma codex_runtime_write_changes_one_account_witness :
  ∃ m', (persistCodexRuntimeAccount (codex_pool [codex_account "c1" 8]) 0 (Ok "") None w (Managed later_codex)).1 = Managed m'
    ∧ Revision (snapshot m') = 4%Z.
Proof.
  destruct (codex_runtime_write_changes_one_account (codex_pool [codex_account "c1" 8]) 0 (Ok "") None w later_codex
    (persistCodexRuntimeAccount (codex_pool [codex_account "c1" 8]) 0 (Ok "") None w (Managed later_codex)).1)
    as (m' & src & a & k & E & _ & _ & _ & _ & _ & Hr & _).
  - vm_compute. reflexivity.
  - discriminate.
  - exists m'. split; [exact E|]. rewrite Hr. vm_compute. reflexivity.
Defined.

Definition daemon_start (m : Manager) : config_state :=
  (migrateConfig (Ok "config.json") None Missing true w ConfigMigrationMerge (Managed m)).1.

Lemma every_start_commits_witness :
  ∃ m', daemon_start example_applied = Managed m' ∧ Revision (snapshot m') = 5%Z.
Proof.
  destruct (every_start_commits (Ok "config.json") None Missing w example_applied (daemon_start example_applied))
    as (m' & E & Hr & _).
  - vm_compute. reflexivity.
  - exists m'. split; [exact E|]. rewrite Hr. vm_compute. reflexivity.
Defined.

(** The port is changed from 2 to 5 and the daemon restarted: the rollback, which would
    have given 2 before the restart, gives 5. *)
Lemma restart_forgets_the_last_known_good :
  match State.load (options example_applied) None 300 (disk example_applied) with
  | Ok restarted =>
    match daemon_start restarted with
    | Managed m =>
      Port (Desired (snapshot m)) = 5%Z ∧
      Port (Desired (snapshot (State.Rollback None 400 (Revision (snapshot m)) "ya" m).1)) = 5%Z ∧
      Port (Desired (snapshot (State.Rollback None 400 (Revision (snapshot restarted)) "ya" restarted).1)) = 2%Z
    | Unmanaged _ => False
    end
  | Err _ => False
  end.
Proof. vm_compute. repeat split. Qed.

(** An account that was renamed, and had no identity when the provider was started,
    cannot be written back: its new token is lost. *)
Lemma renamed_account_is_gone :
  with_copilot_account (pr_Copilot (cfg_Providers (pool 2 [account "" "work" "new" 0]))) 0
    (pool 2 [account "a1" "office" "old" 0]) = Err (AccountGone "").
Proof. vm_compute. reflexivity. Qed.
End ExampleFiles.
