(* ===== verification/ControlRuntime.v ===== *)
(** * The control plane of the daemon, put together

    [src/src/control_runtime.go]: the listener the environment asks for, with its tokens
    and certificate subjects; what is opened, in which order, and what is closed again;
    who may come in ([Control], [Security]); and the life of the two servers.

    [getenv] is [os.Getenv]; what the system answers to a step is an argument. *)

From S2P Require Import Prelude GoStd Config Security Control ConfigFiles.

#[local] Set Default Proof Using "Type".

(* src/src/control_runtime.go controlSocketEnv *)
Definition controlSocketEnv : string := "YA_ROUTER_CONTROL_SOCKET".
Definition controlSocketModeEnv : string := "YA_ROUTER_CONTROL_SOCKET_MODE".
Definition controlSocketGroupEnv : string := "YA_ROUTER_CONTROL_SOCKET_GROUP".
Definition controlRemoteAddressEnv : string := "YA_ROUTER_CONTROL_LISTEN_ADDRESS".
Definition controlTLSCertEnv : string := "YA_ROUTER_CONTROL_TLS_CERT".
Definition controlTLSKeyEnv : string := "YA_ROUTER_CONTROL_TLS_KEY".
Definition controlClientCAEnv : string := "YA_ROUTER_CONTROL_CLIENT_CA".
Definition controlRequireMTLSEnv : string := "YA_ROUTER_CONTROL_REQUIRE_MTLS".
Definition controlViewerTokenEnv : string := "YA_ROUTER_CONTROL_VIEWER_TOKEN".
Definition controlOperatorTokenEnv : string := "YA_ROUTER_CONTROL_OPERATOR_TOKEN".
Definition controlAdminTokenEnv : string := "YA_ROUTER_CONTROL_ADMIN_TOKEN".
Definition controlViewerSubjectsEnv : string := "YA_ROUTER_CONTROL_VIEWER_SUBJECTS".
Definition controlOperatorSubjectsEnv : string := "YA_ROUTER_CONTROL_OPERATOR_SUBJECTS".
Definition controlAdminSubjectsEnv : string := "YA_ROUTER_CONTROL_ADMIN_SUBJECTS".
Definition operationStatePathEnv : string := "YA_ROUTER_OPERATIONS_PATH".
Definition inboundAPIKeyEnv : string := "YA_ROUTER_API_KEY".

(** ** Reading values *)

(** [strconv.ParseBool]. *)
Definition ParseBool (s : string) : option bool :=
  if bool_decide (s ∈ ["1"; "t"; "T"; "true"; "TRUE"; "True"]) then Some true
  else if bool_decide (s ∈ ["0"; "f"; "F"; "false"; "FALSE"; "False"]) then Some false
  else None.

(* src/src/control_runtime.go parseOptionalBool *)
Definition parseOptionalBool (value : string) : option bool :=
  if String.eqb (TrimSpace value) "" then Some false else ParseBool (TrimSpace value).

Fixpoint octal_digits (acc : Z) (s : string) : option Z :=
  match s with
  | "" => Some acc
  | String c s => if in_range 48 55 c then octal_digits (8 * acc + (Z.of_nat (nat_of_ascii c) - 48)) s else None
  end.

(** [strconv.ParseUint] of base 8 into 32 bits. *)
Definition ParseOctal (s : string) : option Z :=
  if String.eqb s "" then None
  else octal_digits 0 s ≫= λ n, if (n <? 2 ^ 32)%Z then Some n else None.

(** A number of seconds as a duration, in the 64 bits of one. *)
(* src/src/control_runtime.go durationSeconds *)
Definition durationSeconds (value fallback : Z) : Z :=
  wrap_i64 ((if (value <=? 0)%Z then fallback else value) * Second).

(* src/src/control_runtime.go isLoopbackControlHost *)
Definition isLoopbackControlHost (host : string) : bool :=
  let host := Trim brackets (TrimSpace host) in
  if EqualFold host "localhost" then true
  else match ParseIP host with Some ip => IsLoopback ip | None => false end.

Fixpoint byte_difference (difference : N) (s t : string) : N :=
  match s, t with
  | String a s', String b t' => byte_difference (N.lor difference (N.lxor (N_of_ascii a) (N_of_ascii b))) s' t'
  | _, _ => difference
  end.

(* src/src/control_runtime.go constantTimeStringEqual *)
Definition constantTimeStringEqual (s t : string) : bool :=
  if negb (String.length s =? String.length t)%nat then false else (byte_difference 0 s t =? 0)%N.

(* src/src/control_runtime.go controlSocketNextTo *)
Definition controlSocketNextTo (configPath : string) : string := path_Join (path_Dir configPath) "control.sock".

(* src/src/control_runtime.go addSubjectRoles *)
Definition addSubjectRoles (destination : gmap string string) (role values : string) : gmap string string :=
  foldl (λ m value, if String.eqb (TrimSpace value) "" then m else <[TrimSpace value := role]> m) destination
    (Split values ",").

(** ** The listener *)

Inductive control_error :=
| NoConfigPath (e : path_error) | TokenIsDataKey | InvalidBoolean | InvalidMode | BadListener (e : listener_error)
| SubjectsRequired | OperationsDirectory | OperationsFailed | SecretsFailed | ServiceFailed (e : listener_error).

Section listener.
Context (getenv : string → string).

Definition env_trim (name : string) : string := TrimSpace (getenv name).

(** The socket: the one of the variable, none, or the default one. *)
(* src/src/control_runtime.go:219-224 configuredControlListener *)
Definition configured_socket (configPath : string) : string :=
  let socket := env_trim controlSocketEnv in
  if String.eqb socket "" then controlSocketNextTo configPath
  else if EqualFold socket "off" || EqualFold socket "disabled" then "" else socket.

(* src/src/control_runtime.go:226-235 configuredControlListener *)
Definition configured_tokens : gmap string string :=
  filter (λ x, x.2 ≠ "") (list_to_map
    [(RoleViewer, env_trim controlViewerTokenEnv); (RoleOperator, env_trim controlOperatorTokenEnv);
     (RoleAdmin, env_trim controlAdminTokenEnv)]).

(* src/src/control_runtime.go:242-245 configuredControlListener *)
Definition configured_subjects : gmap string string :=
  addSubjectRoles
    (addSubjectRoles (addSubjectRoles ∅ RoleViewer (getenv controlViewerSubjectsEnv))
       RoleOperator (getenv controlOperatorSubjectsEnv))
    RoleAdmin (getenv controlAdminSubjectsEnv).

(* src/src/control_runtime.go:247-256 configuredControlListener *)
Definition configured_mtls : option bool :=
  match parseOptionalBool (getenv controlRequireMTLSEnv) with
  | None => None
  | Some required =>
    let remoteAddress := env_trim controlRemoteAddressEnv in
    Some (if String.eqb remoteAddress "" then required
          else match SplitHostPort remoteAddress with
               | Some (host, _) => if isLoopbackControlHost host then required else true
               | None => required
               end)
  end.

(* src/src/control_runtime.go:257-264 configuredControlListener *)
Definition configured_mode : option Z :=
  let raw := env_trim controlSocketModeEnv in
  if String.eqb raw "" then Some 384%Z else ParseOctal raw.

Definition token_is_data_key : bool :=
  let dataKey := env_trim inboundAPIKeyEnv in
  negb (String.eqb dataKey "")
  && existsb (λ token, constantTimeStringEqual dataKey token) (map_to_list configured_tokens).*2.

(** The listener, the tokens of the roles and the roles of the subjects. *)
(* src/src/control_runtime.go configuredControlListener *)
Definition configuredControlListener (path : result string path_error)
    : result (ListenerConfig * gmap string string * gmap string string) control_error :=
  match path with
  | Err e => Err (NoConfigPath e)
  | Ok configPath =>
    if token_is_data_key then Err TokenIsDataKey
    else match configured_mtls, configured_mode with
    | None, _ => Err InvalidBoolean
    | Some _, None => Err InvalidMode
    | Some requireMTLS, Some mode =>
      let tokens := configured_tokens in
      let subjects := configured_subjects in
      let listener := mkListener (configured_socket configPath) mode (env_trim controlSocketGroupEnv)
        (env_trim controlRemoteAddressEnv) (env_trim controlTLSCertEnv) (env_trim controlTLSKeyEnv)
        (env_trim controlClientCAEnv)
        (negb (size tokens =? 0)%nat || negb (size subjects =? 0)%nat) requireMTLS in
      let? _ := map_err BadListener (Validate listener) in
      if requireMTLS && (size subjects =? 0)%nat then Err SubjectsRequired
      else Ok (listener, tokens, subjects)
    end
  end.

(** The read, write and idle timeouts of the listener. *)
(* src/src/control_runtime.go:279-281 configuredControlListener *)
Definition configured_timeouts (t : Timeouts) : Z * Z * Z :=
  (durationSeconds (ServerRead t) 30, durationSeconds (ServerWrite t) 300, durationSeconds (ServerIdle t) 120).

(** [mkdir] says whether the directory of the variable can be made. *)
(* src/src/control_runtime.go configuredOperationStatePath *)
Definition configuredOperationStatePath (mkdir : bool) (path : result string path_error) : result string control_error :=
  let custom := env_trim operationStatePathEnv in
  if negb (String.eqb custom "") then (if mkdir then Ok custom else Err OperationsDirectory)
  else match path with
       | Err e => Err (NoConfigPath e)
       | Ok configPath => Ok (path_Join (path_Dir configPath) "operations.json")
       end.
End listener.

(** ** Who comes in *)

(* src/src/control_runtime.go:85-90 newManagedControlRuntimeWithSecretStore *)
Definition deploymentMode (c : ListenerConfig) : string :=
  if String.eqb (lc_UnixSocket c) "" then "remote"
  else if negb (String.eqb (lc_RemoteAddress c) "") then "local+remote" else "local".

(* src/src/control_runtime.go:152-152 newManagedControlRuntimeWithSecretStore *)
Definition localIdentity : Identity := mkIdentity "local:unix-socket" RoleAdmin "unix_socket".

(** The authenticators of the remote listener. *)
(* src/src/control_runtime.go:156-164 newManagedControlRuntimeWithSecretStore *)
Definition remote_chain (c : ListenerConfig) (tokens subjects : gmap string string) : list (option authenticator) :=
  (if (size subjects =? 0)%nat then [] else [Some (CertificateAuthenticator subjects)])
  ++ (if (size tokens =? 0)%nat || lc_RequireMTLS c then [] else [Some (TokenAuthenticator (NewTokenAuthenticator tokens))]).

(** What the construction has opened. *)
Record opened := mkOpened { op_operations : bool; op_polling : bool }.

Record runtime_world := mkRuntimeWorld {
  rw_mkdir : bool; rw_operations : bool; rw_givenSecrets : bool; rw_secrets : bool; rw_socket : socket_file;
}.

Record managedControlRuntime := mkControlRuntime {
  mc_service : Service; mc_mode : string; mc_remote : option (list (option authenticator));
}.

(** Opening the operations and the secrets can fail; the store may be given.  A failure
    after the operations were opened closes them. *)
(* src/src/control_runtime.go newManagedControlRuntimeWithSecretStore *)
Definition newManagedControlRuntimeWithSecretStore (getenv : string → string) (path : result string path_error) (w : runtime_world)
    : opened * result managedControlRuntime control_error :=
  match configuredControlListener getenv path with
  | Err e => (mkOpened false false, Err e)
  | Ok (listener, tokens, subjects) =>
    match configuredOperationStatePath getenv (rw_mkdir w) path with
    | Err e => (mkOpened false false, Err e)
    | Ok _ =>
      if negb (rw_operations w) then (mkOpened false false, Err OperationsFailed)
      else if negb (rw_givenSecrets w) && negb (rw_secrets w) then (mkOpened false false, Err SecretsFailed)
      else
        let remote := if String.eqb (lc_RemoteAddress listener) "" then None else Some (remote_chain listener tokens subjects) in
        match NewService listener true (bool_decide (is_Some remote)) (rw_socket w) with
        | Err e => (mkOpened false true, Err (ServiceFailed e))
        | Ok service => (mkOpened true true, Ok (mkControlRuntime service (deploymentMode listener) remote))
        end
    end
  end.

(** ** The life of the servers *)

Inductive server_action :=
| StartControl | StartData | ShutdownData | ShutdownControl | CloseOperations | StopPolling.

(** What ends the wait. *)
Inductive ending := Signal | DataServer (failed : bool) | ControlServer (failed : bool).

Inductive serve_error :=
| ControlRuntimeRequired | StartControlFailed | DataServerFailed | ControlServerFailed
| ShutdownDataFailed | ShutdownControlFailed | CloseOperationsFailed.

Record serve_world := mkServeWorld {
  sv_start : bool; sv_ending : ending; sv_data : bool; sv_control : bool; sv_operations : bool;
}.

Definition or_else (e : option serve_error) (ok : bool) (f : serve_error) : option serve_error :=
  match e with Some e => Some e | None => if ok then None else Some f end.

(** [operations]: the runtime has an operation manager. *)
(* src/src/control_runtime.go serveManagedServers *)
Definition serveManagedServers (runtime operations : bool) (w : serve_world) : list server_action * option serve_error :=
  if negb runtime then ([], Some ControlRuntimeRequired)
  else if negb (sv_start w) then
    (StartControl :: (if operations then [CloseOperations] else []) ++ [StopPolling], Some StartControlFailed)
  else
    let result := match sv_ending w with
      | Signal => None
      | DataServer failed => if failed then Some DataServerFailed else None
      | ControlServer failed => if failed then Some ControlServerFailed else None
      end in
    let result := or_else result (sv_data w) ShutdownDataFailed in
    let result := or_else result (sv_control w) ShutdownControlFailed in
    let result := if operations then or_else result (sv_operations w) CloseOperationsFailed else result in
    ([StartControl; StartData; ShutdownData; ShutdownControl] ++ (if operations then [CloseOperations] else []) ++ [StopPolling],
     result).

(** ** Facts *)

Lemma byte_difference_0 acc s t :
  String.length s = String.length t → byte_difference acc s t = 0%N ↔ acc = 0%N ∧ s = t.
Proof.
  revert acc t; induction s as [|a s IH]; intros acc [|b t]; simpl; [naive_solver|done|done|].
  intros [= Hl]. rewrite IH by done. rewrite N.lor_eq_0_iff, N.lxor_eq_0_iff. split.
  - intros [[-> E] ->]. split; [done|]. f_equal. rewrite <-(ascii_N_embedding a), <-(ascii_N_embedding b). by f_equal.
  - by intros [-> [= -> ->]].
Qed.

(** The comparison whose time does not depend on the contents is equality. *)
Lemma constantTimeStringEqual_spec s t : constantTimeStringEqual s t = String.eqb s t.
Proof.
  unfold constantTimeStringEqual. destruct (Nat.eqb_spec (String.length s) (String.length t)) as [Hl|Hl]; simpl.
  - destruct (String.eqb_spec s t) as [->|Hne].
    + by apply N.eqb_eq, byte_difference_0.
    + apply N.eqb_neq. by intros [_ ?]%byte_difference_0.
  - symmetry. apply String.eqb_neq. by intros ->.
Qed.

(** The subjects a variable lists. *)
Definition listed_subjects (values : string) : list string :=
  List.filter (λ s, negb (String.eqb s "")) (TrimSpace <$> Split values ",").

Lemma addSubjectRoles_lookup m role values subject :
  addSubjectRoles m role values !! subject =
    if bool_decide (subject ∈ listed_subjects values) then Some role else m !! subject.
Proof.
  unfold addSubjectRoles, listed_subjects. generalize (Split values ",") as l. intros l. revert m.
  induction l as [|v l IH]; intros m; simpl; [done|]. rewrite IH.
  destruct (String.eqb_spec (TrimSpace v) "") as [E|E]; simpl; [done|]. rewrite !bool_decide_decide.
  destruct (decide (subject ∈ List.filter _ _)) as [Hin|Hin], (decide (subject ∈ TrimSpace v :: _)) as [Hin'|Hin'];
    try done; [set_solver| |].
  - apply elem_of_cons in Hin' as [->|]; [|done]. by rewrite lookup_insert_eq.
  - rewrite lookup_insert_ne; [done|]. intros <-. apply Hin'. by left.
Qed.

Section listener_facts.
Context (getenv : string → string).

(** A subject listed more than once has the highest of its roles. *)
Lemma configured_subjects_lookup subject :
  configured_subjects getenv !! subject =
    if bool_decide (subject ∈ listed_subjects (getenv controlAdminSubjectsEnv)) then Some RoleAdmin
    else if bool_decide (subject ∈ listed_subjects (getenv controlOperatorSubjectsEnv)) then Some RoleOperator
    else if bool_decide (subject ∈ listed_subjects (getenv controlViewerSubjectsEnv)) then Some RoleViewer
    else None.
Proof. unfold configured_subjects. by rewrite !addSubjectRoles_lookup. Qed.

Lemma configured_tokens_differ role token :
  token_is_data_key getenv = false → configured_tokens getenv !! role = Some token →
  token ≠ "" ∧ (env_trim getenv inboundAPIKeyEnv ≠ "" → token ≠ env_trim getenv inboundAPIKeyEnv)
  ∧ trimmed token.
Proof.
  intros Hk Ht. assert (token ∈ (map_to_list (configured_tokens getenv)).*2) as Hin.
  { apply list_elem_of_fmap. exists (role, token). split; [done|]. by apply elem_of_map_to_list. }
  pose proof Ht as Ht'. unfold configured_tokens in Ht. apply map_lookup_filter_Some in Ht as [Ht Hne]. simpl in Hne.
  split; [done|]. split.
  - intros Hd ->. unfold token_is_data_key in Hk. rewrite (proj2 (String.eqb_neq _ _) Hd) in Hk. simpl in Hk.
    apply not_true_iff_false in Hk. apply Hk. apply existsb_exists. eexists. split; [by apply list_elem_of_In|].
    rewrite constantTimeStringEqual_spec. apply String.eqb_refl.
  - apply elem_of_list_to_map_2 in Ht. rewrite !elem_of_cons in Ht.
    clear Hk Ht' Hne.
    destruct Ht as [E|[E|[E|Ht]]].
    1-3: apply (f_equal snd) in E; cbn [snd] in E; rewrite E.
    1-3: unfold env_trim.
    1-3: apply TrimSpace_trimmed.
    destruct (not_elem_of_nil _ Ht).
Qed.

Lemma Ok_equal {A E} (a b : A) : Ok (E := E) a = Ok b → a = b.
Proof. by injection 1. Qed.

(** What is known of a listener the environment gives. *)
Record sound_listener (c : ListenerConfig) (tokens subjects : gmap string string) : Prop := {
  sl_valid : Validate c = Ok tt;
  sl_identity : lc_RemoteIdentityConfigured c = negb (size tokens =? 0)%nat || negb (size subjects =? 0)%nat;
  sl_mtls : lc_RequireMTLS c = true → size subjects ≠ 0%nat;
  sl_tokens : ∀ role token, tokens !! role = Some token →
    token ≠ "" ∧ (env_trim getenv inboundAPIKeyEnv ≠ "" → token ≠ env_trim getenv inboundAPIKeyEnv) ∧ trimmed token;
  sl_subjects : subjects = configured_subjects getenv;
}.

Lemma configured_listener_is_sound path c tokens subjects :
  configuredControlListener getenv path = Ok (c, tokens, subjects) → sound_listener c tokens subjects.
Proof.
  unfold configuredControlListener. destruct path as [p|]; [|done].
  destruct (token_is_data_key getenv) eqn:Hk; [done|].
  destruct (configured_mtls getenv) as [mtls|]; [|done]. destruct (configured_mode getenv) as [mode|]; [|done].
  destruct (Validate _) as [[]|] eqn:Hv; [|done]. cbn [map_err bind_result].
  destruct (mtls && _) eqn:Hm; [done|]. intros E%Ok_equal.
  apply pair_equal_spec in E as [E <-]. apply pair_equal_spec in E as [<- <-].
  split; [exact Hv|reflexivity| |intros role token; by apply configured_tokens_differ|reflexivity].
  cbn [lc_RequireMTLS]. intros ->. by apply Nat.eqb_neq in Hm.
Qed.

Lemma chain_identity c tokens subjects r identity :
  ChainAuthenticator (remote_chain c tokens subjects) r = Some identity →
  (CertificateAuthenticator subjects r = Some identity) ∨
  lc_RequireMTLS c = false ∧ TokenAuthenticator (NewTokenAuthenticator tokens) r = Some identity.
Proof.
  unfold ChainAuthenticator. destruct (find_index _ _) as [[i x]|] eqn:Hf; [|done]. cbn [fmap option_fmap option_map snd].
  intros [= <-]. apply find_index_Some in Hf as (a & Ha & Hr & _). apply list_elem_of_lookup_2 in Ha.
  unfold remote_chain in Ha. apply elem_of_app in Ha as [Ha|Ha].
  - destruct (size subjects =? 0)%nat; [by apply not_elem_of_nil in Ha|]. apply list_elem_of_singleton in Ha as ->. by left.
  - destruct (size tokens =? 0)%nat; [by apply not_elem_of_nil in Ha|].
    destruct (lc_RequireMTLS c); [by apply not_elem_of_nil in Ha|]. apply list_elem_of_singleton in Ha as ->. by right.
Qed.

Lemma certificate_identity subjects r identity :
  CertificateAuthenticator subjects r = Some identity →
  ∃ cert role, cr_Certificate r = Some cert ∧ id_Subject identity ∈ certificateSubjects cert
    ∧ subjects !! id_Subject identity = Some role ∧ identity = mkIdentity (id_Subject identity) role "mtls".
Proof.
  unfold CertificateAuthenticator. destruct (cr_Certificate r) as [cert|]; [|done]. cbn [mbind option_bind].
  destruct (find_index _ _) as [[i x]|] eqn:Hf; [|done]. cbn [fmap option_fmap option_map snd]. intros [= <-].
  apply find_index_Some in Hf as (s & Hs & Hr & _). apply list_elem_of_lookup_2 in Hs.
  destruct (subjects !! s) as [role|] eqn:Hl; [|done]. destruct (role_valid role); [|done]. injection Hr as <-.
  by exists cert, role.
Qed.

(** C33. Who can use the control plane from another host.  Whatever the environment says,
    a listener that is accepted and has an address names a certificate and a key file,
    and off the loopback addresses a file of authorities that clients are checked
    against, and asks for an identity: the request
    shows a verified certificate with a subject the environment lists, and then has the
    highest role it lists for it, or, on a loopback address that does not require
    certificates, it shows the token of a role.  The key of the data plane is never such
    a token. *)
Theorem remote_control_is_identified path c tokens subjects :
  configuredControlListener getenv path = Ok (c, tokens, subjects) → lc_RemoteAddress c ≠ "" →
  let chain := remote_chain c tokens subjects in
  chain ≠ [] ∧ TrimSpace (lc_TLSCertFile c) ≠ "" ∧ TrimSpace (lc_TLSKeyFile c) ≠ "" ∧
  (∀ host port, SplitHostPort (lc_RemoteAddress c) = Some (host, port) → isLoopbackHost host = false →
     lc_RequireMTLS c = true ∧ TrimSpace (lc_ClientCAFile c) ≠ "") ∧
  (∀ r identity, ChainAuthenticator chain r = Some identity →
     (∃ cert, cr_Certificate r = Some cert ∧ id_Subject identity ∈ certificateSubjects cert ∧
        configured_subjects getenv !! id_Subject identity = Some (id_Role identity)) ∨
     (lc_RequireMTLS c = false ∧ id_Source identity = "control_bearer" ∧
      tokens !! id_Role identity = Some (bearerToken (cr_Authorization r)))) ∧
  (∀ r, cr_Certificate r = None → bearerToken (cr_Authorization r) = env_trim getenv inboundAPIKeyEnv →
     ChainAuthenticator chain r = None).
Proof.
  intros Hc%configured_listener_is_sound Haddr. destruct Hc as [Hv Hid Hm Ht ->]. cbv zeta.
  destruct (Validate_remote c Hv Haddr) as (host & port & Hsp & Hidc & Hcert & Hkey & Hor).
  assert (∀ r identity, TokenAuthenticator (NewTokenAuthenticator tokens) r = Some identity →
    id_Source identity = "control_bearer" ∧ bearerToken (cr_Authorization r) ≠ "" ∧
    tokens !! id_Role identity = Some (bearerToken (cr_Authorization r))) as Htoken.
  { intros r identity Hr. pose proof (token_authenticates_its_role tokens r) as Hs. rewrite Hr in Hs.
    destruct Hs as (role & -> & Hne & _ & Hrole & _). split; [done|]. split; [done|]. cbn [id_Role].
    unfold token_of in Hrole. destruct (tokens !! role) as [t|] eqn:Hl; cbn [default from_option] in Hrole.
    2:{ destruct Hne. rewrite <-Hrole. reflexivity. }
    destruct (Ht _ _ Hl) as (_ & _ & Htr).
    change (id t) with t in Hrole. rewrite (TrimSpace_id _ Htr) in Hrole. by rewrite Hrole. }
  split; [|split; [done|split; [done|split; [|split]]]].
  - unfold remote_chain. rewrite Hid in Hidc. destruct (size (configured_subjects getenv) =? 0)%nat eqn:Hs0; [|done].
    destruct (size tokens =? 0)%nat; [done|]. destruct (lc_RequireMTLS c); [|done].
    apply Nat.eqb_eq in Hs0. by destruct (Hm eq_refl).
  - intros h p Hsp' Hl. rewrite Hsp in Hsp'. injection Hsp' as <- <-. destruct Hor as [|[? ?]]; [congruence|done].
  - intros r identity [Hr|[Hreq Hr]]%chain_identity.
    + left. apply certificate_identity in Hr as (cert & role & Hcr & Hin & Hl & E). exists cert.
      split; [done|]. split; [done|]. by rewrite E at 2.
    + right. destruct (Htoken _ _ Hr) as (? & _ & ?). done.
  - intros r Hnone Hb. destruct (ChainAuthenticator _ r) as [identity|] eqn:Hr; [|done]. exfalso.
    apply chain_identity in Hr as [Hr|[_ Hr]].
    + apply certificate_identity in Hr as (cert & role & Hcert' & _). congruence.
    + destruct (Htoken _ _ Hr) as (_ & Hne & Hl). destruct (Ht _ _ Hl) as (_ & Hd & _). rewrite Hb in *. by apply Hd.
Qed.

(** The control plane comes up whole.  Once the environment gives a listener and the
    operations and secrets can be opened, nothing is left to fail: the service exists,
    not yet started, with a local and, when there is an address, a remote handler.  In
    every other case nothing that was opened is left open. *)
Theorem control_plane_comes_up_whole path w :
  match newManagedControlRuntimeWithSecretStore getenv path w with
  | (o, Ok runtime) => o = mkOpened true true ∧ idle (mc_service runtime) ∧ Validate (sv_config (mc_service runtime)) = Ok tt ∧
      (is_Some (mc_remote runtime) ↔ lc_RemoteAddress (sv_config (mc_service runtime)) ≠ "") ∧
      (mc_mode runtime = "local" ∨ is_Some (mc_remote runtime))
  | (o, Err e) => o = mkOpened false false ∧
      ((∃ e', configuredControlListener getenv path = Err e') ∨
       (∃ e', configuredOperationStatePath getenv (rw_mkdir w) path = Err e') ∨
       rw_operations w = false ∨ rw_givenSecrets w = false ∧ rw_secrets w = false)
  end.
Proof.
  unfold newManagedControlRuntimeWithSecretStore.
  destruct (configuredControlListener getenv path) as [[[c tokens] subjects]|e] eqn:Hc; [|split; [done|eauto]].
  destruct (configuredOperationStatePath getenv (rw_mkdir w) path) as [p|e]; [|split; [done|eauto]].
  destruct (rw_operations w); [|split; [done|auto]]. cbn [negb].
  destruct (rw_givenSecrets w) eqn:Hg, (rw_secrets w) eqn:Hs; cbn [negb andb]; try (split; [done|auto]; fail).
  all: apply configured_listener_is_sound in Hc as [Hv _ _ _ _].
  all: destruct (NewService c true _ (rw_socket w)) as [service|e] eqn:Hn.
  all: try (destruct (NewService_spec _ _ _ _ _ Hn) as (Hi & Hv' & _ & Hsock & Haddr); split; [done|]; split; [done|];
    split; [done|]; cbn [mc_remote mc_service mc_mode]; rewrite Haddr; unfold deploymentMode).
  all: try (exfalso; revert Hn; unfold NewService; rewrite Hv; cbn [bind_result lc_UnixSocket lc_RemoteAddress];
    rewrite andb_false_r; destruct (String.eqb (lc_RemoteAddress c) ""); done).
  all: destruct (String.eqb_spec (lc_RemoteAddress c) "") as [E|E]; cbn [negb];
    (split; [split; [by intros []|by intros; eauto]|]); [|by right; eauto].
  all: left; destruct (String.eqb_spec (lc_UnixSocket c) "") as [Hu|]; [|done].
  all: unfold Validate in Hv; by rewrite E, Hu in Hv.
Qed.
End listener_facts.

#[global] Instance server_action_eq_dec : EqDecision server_action.
Proof. solve_decision. Defined.

Definition ending_failed (e : ending) : bool :=
  match e with Signal => false | DataServer failed | ControlServer failed => failed end.

(** Once the control service runs, whatever ends the wait and whatever fails on the way
    down, both servers and the operations are shut down, each once and in that order;
    the result is the first failure, and there is none exactly when nothing failed. *)
Theorem servers_go_down_together operations w :
  let '(actions, e) := serveManagedServers true operations w in
  last actions = Some StopPolling ∧ NoDup actions ∧
  (CloseOperations ∈ actions ↔ operations = true) ∧
  (if sv_start w then take 4 actions = [StartControl; StartData; ShutdownData; ShutdownControl]
   else StartData ∉ actions ∧ e = Some StartControlFailed) ∧
  (e = None ↔ sv_start w && negb (ending_failed (sv_ending w)) && sv_data w && sv_control w
              && (negb operations || sv_operations w) = true).
Proof.
  assert (∀ l : list server_action, bool_decide (NoDup l) = true → NoDup l) as Hnd by (intros l; apply bool_decide_eq_true).
  destruct w as [start ending data control ops]. unfold serveManagedServers. cbn [negb sv_start sv_ending sv_data sv_control sv_operations].
  destruct start, operations; cbn [negb app];
    (split; [done|split; [apply Hnd; reflexivity|split]]);
    try (split; [done|intros _; listed]); try (split; [intros H; contradict H; unlisted|done]).
  - split; [done|]. destruct ending as [|[]|[]], data, control, ops; done.
  - split; [done|]. destruct ending as [|[]|[]], data, control, ops; done.
  - split; [split; [unlisted|done]|done].
  - split; [split; [unlisted|done]|done].
Qed.

Module ExampleControl.

Definition variables : gmap string string :=
  {[controlRemoteAddressEnv := "0.0.0.0:8443"; controlTLSCertEnv := "cert.pem"; controlTLSKeyEnv := "key.pem";
    controlClientCAEnv := "ca.pem"; controlAdminSubjectsEnv := "ops, ci"; controlViewerSubjectsEnv := "ci,desk";
    controlViewerTokenEnv := " v "; inboundAPIKeyEnv := "data"]}.
Definition getenv (name : string) : string := default "" (variables !! name).

Definition result_of : ListenerConfig * gmap string string * gmap string string :=
  match configuredControlListener getenv (Ok "/etc/ya/config.json") with
  | Ok x => x
  | Err _ => (mkListener "" 0 "" "" "" "" "" false false, ∅, ∅)
  end.

(** On every address, with certificates: the token of the viewers is not asked for. *)
Lemma remote_control_is_identified_witness :
  configuredControlListener getenv (Ok "/etc/ya/config.json") = Ok result_of
  ∧ lc_UnixSocket result_of.1.1 = "/etc/ya/control.sock" ∧ lc_RequireMTLS result_of.1.1 = true
  ∧ length (remote_chain result_of.1.1 result_of.1.2 result_of.2) = 1%nat
  ∧ result_of.2 !! "ci" = Some RoleAdmin
  ∧ remote_chain result_of.1.1 result_of.1.2 result_of.2 ≠ [] ∧ TrimSpace (lc_TLSCertFile result_of.1.1) ≠ "".
Proof.
  assert (configuredControlListener getenv (Ok "/etc/ya/config.json") = Ok result_of) as E by (vm_compute; reflexivity).
  split; [exact E|]. split; [vm_compute; reflexivity|]. split; [vm_compute; reflexivity|].
  split; [vm_compute; reflexivity|]. split; [vm_compute; reflexivity|].
  destruct (remote_control_is_identified getenv (Ok "/etc/ya/config.json") result_of.1.1 result_of.1.2 result_of.2) as (H1 & H2 & _).
  - vm_compute. reflexivity.
  - vm_compute. discriminate.
  - split; [exact H1|exact H2].
Defined.

Lemma accepted_and_refused_variables :
  let with_ name value := λ n : string, if String.eqb n name then value else getenv n in
  let outcome g := configuredControlListener g (Ok "/etc/ya/config.json") in
  match outcome (with_ controlViewerTokenEnv "data") with Err TokenIsDataKey => True | _ => False end
  ∧ match outcome (with_ controlSocketModeEnv "0o660") with Err InvalidMode => True | _ => False end
  ∧ match outcome (with_ controlRequireMTLSEnv "yes") with Err InvalidBoolean => True | _ => False end
  ∧ match outcome (with_ controlClientCAEnv "") with Err (BadListener MTLSRequired) => True | _ => False end
  ∧ match outcome (with_ controlSocketEnv "Off") with Ok (c, _, _) => lc_UnixSocket c = "" | _ => False end.
Proof. vm_compute. repeat split. Qed.

(** Ten thousand million seconds are negative nanoseconds, which a server reads as no
    limit at all. *)
Lemma long_timeouts_overflow : (durationSeconds 10000000000 30 < 0)%Z ∧ durationSeconds 0 30 = (30 * Second)%Z.
Proof. vm_compute. done. Qed.
End ExampleControl.
