(* ===== verification/Flags.v ===== *)
(** * Command-line flags

    The [flag] package as the commands use it: a set of flags, each of one of four
    kinds, and [FlagSet.Parse] with [ContinueOnError].  A flag may be given as [-name],
    [--name], [-name=value] or, unless it is boolean, [-name value]; [--] and the first
    argument that is not a flag end the flags. *)

From S2P Require Import Prelude GoStd Security ControlRuntime.

#[local] Set Default Proof Using "Type".

(** ** Numbers *)

Definition digit_of (base : Z) (c : ascii) : option Z :=
  let c := lower_ascii c in
  let d := if is_digit c then Some (Z.of_nat (nat_of_ascii c) - 48)%Z
           else if is_lower c then Some (Z.of_nat (nat_of_ascii c) - 87)%Z else None in
  d ≫= λ d, if (d <? base)%Z then Some d else None.

(** [underscores]: they are skipped, as in base 0. *)
Fixpoint digits_of (base : Z) (underscores : bool) (acc : Z) (s : string) : option Z :=
  match s with
  | "" => Some acc
  | String c s =>
    if underscores && Ascii.eqb c "_" then digits_of base underscores acc s
    else digit_of base c ≫= λ d, digits_of base underscores (base * acc + d) s
  end.

(** What stands before a character: a digit, an underscore, or something else. *)
Inductive before := BStart | BDigit | BUnderscore | BOther.

Fixpoint underscores_ok (hex : bool) (b : before) (s : string) : bool :=
  match s with
  | "" => match b with BUnderscore => false | _ => true end
  | String c s =>
    if is_digit c || (hex && in_range 97 102 (lower_ascii c)) then underscores_ok hex BDigit s
    else if Ascii.eqb c "_" then match b with BDigit => underscores_ok hex BUnderscore s | _ => false end
    else match b with BUnderscore => false | _ => underscores_ok hex BOther s end
  end.

(** The base a prefix announces, and what follows it; ["0"] alone announces 8. *)
Definition base_prefix (s : string) : Z * string :=
  match s with
  | String "0" (String c (String _ _ as rest)) =>
    let l := lower_ascii c in
    if Ascii.eqb l "b" then (2, rest)%Z else if Ascii.eqb l "o" then (8, rest)%Z
    else if Ascii.eqb l "x" then (16, rest)%Z else (8, str_drop 1 s)%Z
  | String "0" rest => (8, rest)%Z
  | _ => (10, s)%Z
  end.

Definition underscoreOK (s : string) : bool :=
  match s with
  | String "0" (String c rest) =>
    let l := lower_ascii c in
    if Ascii.eqb l "b" || Ascii.eqb l "o" || Ascii.eqb l "x" then underscores_ok (Ascii.eqb l "x") BDigit rest
    else underscores_ok false BStart s
  | _ => underscores_ok false BStart s
  end.

Definition ParseUint_0 (s : string) : option Z :=
  if String.eqb s "" then None
  else
    let '(base, rest) := base_prefix s in
    digits_of base true 0 rest ≫= λ n,
      if (n <=? maxUint64)%Z && (negb (Contains s "_") || underscoreOK s) then Some n else None.

(** [strconv.ParseInt] of base 0 into 64 bits. *)
Definition ParseInt_0 (s : string) : option Z :=
  let '(neg, body) := match s with
    | String "-" rest => (true, rest)
    | String "+" rest => (false, rest)
    | _ => (false, s)
    end in
  ParseUint_0 body ≫= λ n,
    if neg then (if (n <=? 2 ^ 63)%Z then Some (- n)%Z else None)
    else (if (n <? 2 ^ 63)%Z then Some n else None).

(** [strconv.ParseUint] of base 10 into 64 bits. *)
Definition ParseUint_10 (s : string) : option Z :=
  if String.eqb s "" then None
  else digits_of 10 false 0 s ≫= λ n, if (n <=? maxUint64)%Z then Some n else None.

Example numbers :
  ParseInt_0 "30" = Some 30%Z ∧ ParseInt_0 "-0x1F" = Some (-31)%Z ∧ ParseInt_0 "017" = Some 15%Z
  ∧ ParseInt_0 "1_000" = Some 1000%Z ∧ ParseInt_0 "1__0" = None ∧ ParseInt_0 "_1" = None ∧ ParseInt_0 "08" = None
  ∧ ParseInt_0 "0" = Some 0%Z ∧ ParseInt_0 "9223372036854775808" = None ∧ ParseInt_0 "0x" = None ∧ ParseInt_0 "" = None
  ∧ ParseUint_10 "18446744073709551615" = Some maxUint64 ∧ ParseUint_10 "18446744073709551616" = None
  ∧ ParseUint_10 "1_0" = None ∧ ParseUint_10 "-1" = None.
Proof. vm_compute. repeat split. Qed.

(** ** Flags *)

Inductive flag_kind := BoolFlag | StringFlag | IntFlag | UintFlag.
Inductive flag_value := VBool (b : bool) | VString (s : string) | VInt (z : Z).

Inductive flag_error :=
| BadSyntax (arg : string) | HelpWanted | Undefined (name : string) | NeedsArgument (name : string)
| InvalidValue (name value : string).

(** [UintFlag] is the flag of [client_cli.go]: blanks around the number do not count. *)
(* src/src/client_cli.go uint64Flag.Set *)
Definition Set_flag (kind : flag_kind) (value : string) : option flag_value :=
  match kind with
  | BoolFlag => VBool <$> ParseBool value
  | StringFlag => Some (VString value)
  | IntFlag => VInt <$> ParseInt_0 value
  | UintFlag => VInt <$> ParseUint_10 (TrimSpace value)
  end.

Notation formal := (gmap string flag_kind) (only parsing).
Notation actual := (gmap string flag_value) (only parsing).

(** The name of an argument that is a flag: [None] when the flags end before it, and
    [Some None] when they end with it. *)
Definition flag_name (arg : string) : option (option string) :=
  match arg with
  | String "-" (String "-" "") => Some None
  | String "-" (String "-" name) => Some (Some name)
  | String "-" (String c name) => Some (Some (String c name))
  | _ => None
  end.

(** [name=value], the name not empty. *)
Definition split_value (name : string) : string * option string :=
  match name with
  | String c rest => match cut "=" rest with Some (a, b) => (String c a, Some b) | None => (name, None) end
  | "" => ("", None)
  end.

Definition set_flag (kind : flag_kind) (name value : string) (set : actual) : result actual flag_error :=
  match Set_flag kind value with Some v => Ok (<[name := v]> set) | None => Err (InvalidValue name value) end.

(** The flags that were set, and the arguments after them. *)
Fixpoint Parse (flags : formal) (set : actual) (args : list string) : result (actual * list string) flag_error :=
  match args with
  | [] => Ok (set, [])
  | arg :: rest =>
    match flag_name arg with
    | None => Ok (set, args)
    | Some None => Ok (set, rest)
    | Some (Some name) =>
      if HasPrefix name "-" || HasPrefix name "=" then Err (BadSyntax arg)
      else
        let '(name, value) := split_value name in
        match flags !! name with
        | None => if String.eqb name "help" || String.eqb name "h" then Err HelpWanted else Err (Undefined name)
        | Some BoolFlag =>
          let? set := set_flag BoolFlag name (default "true" value) set in Parse flags set rest
        | Some kind =>
          match value, rest with
          | Some value, _ => let? set := set_flag kind name value set in Parse flags set rest
          | None, value :: rest => let? set := set_flag kind name value set in Parse flags set rest
          | None, [] => Err (NeedsArgument name)
          end
        end
    end
  end.

Definition get_string (set : actual) (name fallback : string) : string :=
  match set !! name with Some (VString s) => s | _ => fallback end.
Definition get_bool (set : actual) (name : string) : bool :=
  match set !! name with Some (VBool b) => b | _ => false end.
Definition get_int (set : actual) (name : string) : Z :=
  match set !! name with Some (VInt z) => z | _ => 0 end.

(** A flag that is set is one of the set's, with a value of its kind. *)
Definition kind_of (v : flag_value) (kind : flag_kind) : Prop :=
  match v, kind with
  | VBool _, BoolFlag | VString _, StringFlag | VInt _, IntFlag => True
  | VInt z, UintFlag => (0 ≤ z ≤ maxUint64)%Z
  | _, _ => False
  end.

Definition well_typed (flags : formal) (set : actual) : Prop :=
  ∀ name v, set !! name = Some v → ∃ kind, flags !! name = Some kind ∧ kind_of v kind.

Lemma digits_of_nonneg base u acc s n :
  (0 < base)%Z → (0 ≤ acc)%Z → digits_of base u acc s = Some n → (0 ≤ n)%Z.
Proof.
  intros Hb. revert acc; induction s as [|c s IH]; intros acc Hacc; simpl; [intros [= <-]; lia|].
  destruct (u && _); [by apply IH|]. unfold digit_of. destruct (is_digit _) eqn:Hd.
  - cbn [mbind option_bind]. destruct (_ <? base)%Z; [|done]. cbn [mbind option_bind]. apply IH.
    unfold is_digit, in_range in Hd. apply andb_true_iff in Hd as [Hd _]. apply Nat.leb_le in Hd. lia.
  - destruct (is_lower _) eqn:Hl; [|done]. cbn [mbind option_bind]. destruct (_ <? base)%Z; [|done].
    cbn [mbind option_bind]. apply IH. unfold is_lower, in_range in Hl. apply andb_true_iff in Hl as [Hl _].
    apply Nat.leb_le in Hl. lia.
Qed.

Lemma set_flag_well_typed flags kind name value set set' :
  flags !! name = Some kind → well_typed flags set → set_flag kind name value set = Ok set' → well_typed flags set'.
Proof.
  intros Hk Hset. unfold set_flag. destruct (Set_flag kind value) as [v|] eqn:Hv; [|done]. intros [= <-] n v' Hl.
  apply lookup_insert_Some in Hl as [[<- <-]|[_ Hl]]; [|by apply Hset]. exists kind. split; [done|].
  destruct kind; simpl in Hv.
  - destruct (ParseBool value); [|done]. by injection Hv as <-.
  - by injection Hv as <-.
  - destruct (ParseInt_0 value); [|done]. by injection Hv as <-.
  - unfold ParseUint_10 in Hv. destruct (String.eqb _ _); [done|].
    destruct (digits_of _ _ _ _) as [n0|] eqn:Hd; [|done]. cbn [mbind option_bind] in Hv.
    destruct (Z.leb_spec n0 maxUint64); [|done]. injection Hv as <-. simpl.
    split; [|done]. by eapply (digits_of_nonneg 10 false 0).
Qed.

Lemma Parse_well_typed flags set args set' rest :
  well_typed flags set → Parse flags set args = Ok (set', rest) →
  well_typed flags set' ∧ (∃ used, args = used ++ rest) ∧ (∀ name, is_Some (set !! name) → is_Some (set' !! name)).
Proof.
  revert set. induction args as [args IH] using (well_founded_induction (Wf_nat.well_founded_ltof _ length)).
  intros set Hset. destruct args as [|arg args]; [intros [= <- <-]; split_and!; [done|by exists []|done]|].
  assert (∀ kind name value set1 args1, flags !! name = Some kind → set_flag kind name value set = Ok set1 →
    length args1 < length (arg :: args) → (∃ used, arg :: args = used ++ args1) →
    Parse flags set1 args1 = Ok (set', rest) →
    well_typed flags set' ∧ (∃ used, arg :: args = used ++ rest) ∧ (∀ name, is_Some (set !! name) → is_Some (set' !! name))) as Hstep.
  { intros kind name value set1 args1 Hk Hs Hlen [used ->] Hp.
    destruct (IH args1 Hlen set1 (set_flag_well_typed _ _ _ _ _ _ Hk Hset Hs) Hp) as (Hw & [used' ->] & Hmono).
    split_and!; [done|exists (used ++ used'); by rewrite app_assoc|].
    intros n Hn. apply Hmono. unfold set_flag in Hs. destruct (Set_flag kind value); [|done]. injection Hs as <-.
    rewrite lookup_insert_is_Some'. by right. }
  cbn [Parse]. destruct (flag_name arg) as [[name|]|].
  2:{ intros [= <- <-]. split_and!; [done|by exists [arg]|done]. }
  2:{ intros [= <- <-]. split_and!; [done|by exists []|done]. }
  destruct (_ || _); [done|]. destruct (split_value name) as [n value].
  assert (length args < length (arg :: args)) as Hlen by (simpl; lia).
  destruct (flags !! n) as [kind|] eqn:Hk; [|destruct (_ || _); done].
  assert (∀ v, (let? set := set_flag kind n v set in Parse flags set args) = Ok (set', rest) →
    well_typed flags set' ∧ (∃ used, arg :: args = used ++ rest) ∧ (∀ name, is_Some (set !! name) → is_Some (set' !! name))) as Hone.
  { intros v. destruct (set_flag kind n v set) as [set1|] eqn:Hs; [|done]. cbn [bind_result].
    apply (Hstep kind n v set1 args); [done..|by exists [arg]]. }
  assert (∀ v args1, args = v :: args1 → (let? set := set_flag kind n v set in Parse flags set args1) = Ok (set', rest) →
    well_typed flags set' ∧ (∃ used, arg :: args = used ++ rest) ∧ (∀ name, is_Some (set !! name) → is_Some (set' !! name))) as Htwo.
  { intros v args1 ->. destruct (set_flag kind n v set) as [set1|] eqn:Hs; [|done]. cbn [bind_result].
    apply (Hstep kind n v set1 args1); [done..|simpl; lia|by exists [arg; v]]. }
  destruct kind; [apply Hone|..]; (destruct value as [v|]; [apply Hone|]); (destruct args as [|v args1]; [done|]); by apply Htwo.
Qed.

(** Of a command line that is accepted, every flag that was set is one of the command's,
    with a value of its kind; what is left over is the end of the line. *)
Theorem flags_are_well_typed flags args set rest :
  Parse flags ∅ args = Ok (set, rest) → well_typed flags set ∧ ∃ used, args = used ++ rest.
Proof.
  intros H. destruct (Parse_well_typed flags ∅ args set rest) as (? & ? & _); [|done..].
  intros name v Hl. by rewrite lookup_empty in Hl.
Qed.

Module ExampleFlags.
Definition flags : gmap string flag_kind :=
  {["json" := BoolFlag; "timeout" := IntFlag; "after" := UintFlag; "id" := StringFlag]}.

Lemma flags_are_well_typed_witness :
  Parse flags ∅ ["--json"; "-timeout=0x10"; "--id"; "-op"; "--"; "--json=no"]
  = Ok ({["json" := VBool true; "timeout" := VInt 16; "id" := VString "-op"]}, ["--json=no"])
  ∧ ∃ used, ["--json"; "-timeout=0x10"; "--id"; "-op"; "--"; "--json=no"] = used ++ ["--json=no"].
Proof.
  assert (Parse flags ∅ ["--json"; "-timeout=0x10"; "--id"; "-op"; "--"; "--json=no"]
    = Ok ({["json" := VBool true; "timeout" := VInt 16; "id" := VString "-op"]}, ["--json=no"])) as E by (vm_compute; reflexivity).
  split; [exact E|]. exact (proj2 (flags_are_well_typed _ _ _ _ E)).
Defined.

(** A flag that lacks its argument takes the next flag for it. *)
Lemma flags_are_taken_as_arguments :
  Parse flags ∅ ["--id"; "--json"] = Ok ({["id" := VString "--json"]}, [])
  ∧ Parse flags ∅ ["--after"; "-1"] = Err (InvalidValue "after" "-1")
  ∧ Parse flags ∅ ["---id"] = Err (BadSyntax "---id") ∧ Parse flags ∅ ["-h"] = Err HelpWanted
  ∧ Parse flags ∅ ["x"; "--json"] = Ok (∅, ["x"; "--json"]).
Proof. vm_compute. repeat split. Qed.
End ExampleFlags.
