(* ===== verification/Cli.v ===== *)
(** * The commands of the service

    [src/src/cli.go] and [main.go]: [ya-router auth], [refresh], [status], [config] and
    [models], what they read and write of the configuration ([ConfigFiles]), the flows
    they run ([Credentials]), and the choice of a command by its arguments ([Flags]).

    What a server answers, the instants, and how a write of the files ends are
    arguments; what a command prints while it works is left out. *)

From stdpp Require Import pretty.
From S2P Require Import Prelude GoStd Config Provider Defaults State Writers GoJson Accounts Jwt Credentials ConfigFiles ControlRuntime Flags.

#[local] Set Default Proof Using "Type".

(** ** The account a command is about *)

(** The accounts, the index of the one meant, and whether it was added under a label.
    Without a label it is the first one, made up if there is none. *)
(* src/src/cli.go resolveOrCreateCopilotAccount *)
(* src/src/cli.go resolveOrCreateCodexAccount *)
Definition resolve_account {A} (label_of : A → string) (new : string → A) (accounts : list A) (label : string)
    : list A * nat * bool :=
  if String.eqb label "" then
    match accounts with [] => ([new "primary"], 0, false) | _ => (accounts, 0, false) end
  else
    match find_index (λ a, if String.eqb (label_of a) label then Some tt else None) accounts with
    | Some (i, _) => (accounts, i, false)
    | None => (accounts ++ [new label], length accounts, true)
    end.

Lemma resolve_account_spec {A} (label_of : A → string) (new : string → A) accounts label accounts' i added :
  (∀ l, label_of (new l) = l) →
  resolve_account label_of new accounts label = (accounts', i, added) →
  (∃ a, accounts' !! i = Some a ∧ (label ≠ "" → label_of a = label) ∧ (a = new (label_of a) ∨ accounts !! i = Some a)) ∧
  (∀ j, j ≠ i → accounts' !! j = accounts !! j) ∧
  (added = true ↔ label ≠ "" ∧ ∀ a, a ∈ accounts → label_of a ≠ label).
Proof.
  intros Hnew. unfold resolve_account. destruct (String.eqb_spec label "") as [->|Hl].
  - destruct accounts as [|a l]; intros [= <- <- <-].
    + split; [exists (new "primary"); rewrite Hnew; by split_and!; [..|left]|]. split; [intros [|j] ?; done|]. naive_solver.
    + split; [exists a; naive_solver|]. split; [done|]. naive_solver.
  - destruct (find_index _ _) as [[k []]|] eqn:Hf; intros [= <- <- <-].
    + apply find_index_Some in Hf as (a & Ha & Hla & _). destruct (String.eqb_spec (label_of a) label) as [<-|]; [|done].
      split; [exists a; auto|]. split; [done|]. split; [done|]. intros [_ Hno].
      by destruct (Hno a (list_elem_of_lookup_2 _ _ _ Ha)).
    + assert (∀ a, a ∈ accounts → (if String.eqb (label_of a) label then Some tt else None) = None) as Hf' by (by apply find_index_None). split; [|split].
      * exists (new label). rewrite list_lookup_middle by done. rewrite Hnew. by split_and!; [..|left].
      * intros j Hj. destruct (decide (j < length accounts)) as [?|?].
        -- by rewrite lookup_app_l.
        -- rewrite lookup_app_r by lia. rewrite (lookup_ge_None_2 accounts) by lia.
           by rewrite (lookup_ge_None_2 [_]) by (simpl; lia).
      * split; [|done]. intros _. split; [done|]. intros a Ha E. specialize (Hf' a Ha). by rewrite E, String.eqb_refl in Hf'.
Qed.

(** ** Authentication commands *)

Inductive flow_result (A E : Type) := Unchanged | Obtained (a : A) | Refused (e : E).
Arguments Unchanged {_ _}. Arguments Obtained {_ _}. Arguments Refused {_ _}.

Inductive cli_error :=
| LoadFailed (e : config_error) | AddFailed (e : config_error) | CopilotRefused (e : Copilot.flow_error)
| CodexRefused (e : Codex.flow_error) | SaveRefused (e : config_error)
| NothingRefreshed | NoCopilotToken | CopilotRefreshFailed (e : Copilot.flow_error) | ImportFailed (e : Codex.import_error)
| NoAPIKey | NotRefreshable | CodexRefreshFailed (e : refresh_error) | KiloListFailed.

Section cli.
Context `{StateCodec} `{ConfigText}.
Context (parse : string → option json).
Context (path : result string path_error) (fault : option load_error).

Definition enable_copilot (c : Config) : Config :=
  set_copilot (λ p, mkCopilotProvider true (cp_Auth p) (cp_Accounts p) (cp_AccountCooldownSeconds p) (cp_AllowedModels p)) c.
Definition enable_codex (c : Config) : Config :=
  set_codex (λ p, mkCodexProvider true (cx_Auth p) (cx_Accounts p) (cx_AccountCooldownSeconds p) (cx_AllowedModels p)
                    (cx_ChatGPTBaseURL p)) c.

Definition with_copilot_accounts (l : list CopilotAccount) : Config → Config :=
  set_copilot (λ p, copilot_auth (cp_Auth p) (Some l) p).
Definition with_codex_accounts (l : list CodexAccount) : Config → Config :=
  set_codex (λ p, codex_auth (cx_Auth p) (Some l) p).

Definition new_copilot_account (label : string) : CopilotAccount :=
  mkCopilotAccount (stableAccountID account_digest "copilot" label) label emptyCopilotAuth 0.
Definition new_codex_account (label : string) : CodexAccount :=
  mkCodexAccount (stableAccountID account_digest "codex" label) label emptyCodexAuth 0.

Definition set_copilot_auth (auth : CopilotAuthState) (a : CopilotAccount) : CopilotAccount :=
  mkCopilotAccount (cpa_ID a) (cpa_Label a) auth (cpa_LastLimitedAt a).
Definition set_codex_auth (auth : CodexAuthState) (a : CodexAccount) : CodexAccount :=
  mkCodexAccount (cxa_ID a) (cxa_Label a) auth (cxa_LastLimitedAt a).

(** What the four commands with accounts share: the provider is enabled, an account with
    a new label is written at once, the flow runs on the account's credentials, and what
    it obtained is written.  [w1] and [w2] are the two writes. *)
Definition auth_command {A B E} (enable : Config → Config) (accounts_of : Config → list A)
    (with_accounts : list A → Config → Config) (label_of : A → string) (new : string → A)
    (auth_of : A → B) (set_auth : B → A → A) (finish : Config → Config) (refused : E → cli_error)
    (flow : B → flow_result B E) (label : string) (w1 w2 : save_world) (s : config_state)
    : config_state * result unit cli_error :=
  match loadConfig path fault s with
  | Err e => (s, Err (LoadFailed e))
  | Ok cfg =>
    let cfg := enable cfg in
    let '(accounts, i, added) := resolve_account label_of new (accounts_of cfg) label in
    let cfg := with_accounts accounts cfg in
    let '(s, r) := if added then saveConfig path w1 cfg s else (s, Ok tt) in
    match r, accounts !! i with
    | Err e, _ => (s, Err (AddFailed e))
    | Ok _, None => (s, Ok tt)
    | Ok _, Some a =>
      match flow (auth_of a) with
      | Unchanged => (s, Ok tt)
      | Refused e => (s, Err (refused e))
      | Obtained auth =>
        let '(s, r) := saveConfig path w2 (finish (with_accounts (<[i := set_auth auth a]> accounts) cfg)) s in
        (s, map_err SaveRefused r)
      end
    end
  end.

(** A token that is still good is left alone, and nothing is written. *)
Definition copilot_flow (now : Z) (device : http_answer) (polls : nat → http_answer) (exchange : string → http_answer)
    (auth : CopilotAuthState) : flow_result CopilotAuthState Copilot.flow_error :=
  if negb (String.eqb (ca_CopilotToken auth) "") && (now + 60 <? ca_ExpiresAt auth)%Z then Unchanged
  else match Copilot.copilotAuthenticate parse now device polls exchange true auth with
       | (auth, Ok _) => Obtained auth
       | (_, Err e) => Refused e
       end.

Definition copilot_command := auth_command enable_copilot
  (λ c, elems (cp_Accounts (pr_Copilot (cfg_Providers c)))) with_copilot_accounts cpa_Label new_copilot_account
  cpa_Auth set_copilot_auth id CopilotRefused.

(* src/src/cli.go handleAuthCopilot *)
(* src/src/cli.go resolveOrCreateCopilotAccount *)
Definition handleAuthCopilot now device polls exchange := copilot_command (copilot_flow now device polls exchange).

(** The polls before the deadline: [rounds] of them. *)
(* src/src/codex_auth.go:122-139 codexAuthenticate *)
(* src/src/codex_auth.go pollCodexDeviceToken *)
Fixpoint codex_cli_poll (rounds attempt : nat) (answers : nat → http_answer) : result (string * string) Codex.flow_error :=
  match rounds with
  | O => Ok ("", "")
  | S rounds =>
    let refused status :=
      if (status =? StatusForbidden)%Z || (status =? StatusNotFound)%Z then codex_cli_poll rounds (S attempt) answers
      else Err (Codex.PollStatus status) in
    match answers attempt with
    | NoResponse => Err Codex.PollFailed
    | Unreadable status => if (status =? StatusOK)%Z then Err Codex.PollUndecodable else refused status
    | Answered status body =>
      if negb (status =? StatusOK)%Z then refused status
      else match parse body ≫= unmarshal ("", "") (d_struct Codex.device_token_fields) with
           | None => Err Codex.PollUndecodable
           | Some token => Ok token
           end
    end
  end.

(** On an account without a token, as [handleAuthCodex] calls it; [later] is the instant
    after the exchange. *)
(* src/src/codex_auth.go codexAuthenticate *)
(* src/src/codex_auth.go exchangeCodexAuthCode *)
Definition codexAuthenticate (device : http_answer) (rounds : nat) (polls : nat → http_answer)
    (exchange : string → string → http_answer) (later : Z) (auth : CodexAuthState) : result CodexAuthState Codex.flow_error :=
  match device with
  | NoResponse => Err Codex.DeviceRequestFailed
  | Unreadable status => Err (if (status =? StatusOK)%Z then Codex.DeviceUndecodable else Codex.DeviceStatus status)
  | Answered status body =>
    if negb (status =? StatusOK)%Z then Err (Codex.DeviceStatus status)
    else
      match parse body ≫= unmarshal ("", "", "") (d_struct Codex.user_code_fields) with
      | None => Err Codex.DeviceUndecodable
      | Some (device, user, _) =>
        if String.eqb device "" || String.eqb user "" then Err Codex.DeviceIncomplete
        else
          let? code := codex_cli_poll rounds 0 polls in
          if String.eqb code.1 "" || String.eqb code.2 "" then Err Codex.FlowTimedOut
          else
            let? t := Codex.exchangeCodexAuthCodeContext parse (exchange code.1 code.2) in
            if String.eqb (Codex.t_AccessToken t) "" || String.eqb (Codex.t_RefreshToken t) ""
            then Err Codex.ExchangeIncomplete
            else
              let account := extractAccountIDFromJWT parse (Codex.t_IDToken t) in
              let account :=
                if String.eqb account "" then extractAccountIDFromJWT parse (Codex.t_AccessToken t) else account in
              let expires :=
                if (0 <? Codex.t_ExpiresIn t)%Z then wrap_i64 (later + Codex.t_ExpiresIn t)
                else extractJWTExpiry parse (Codex.t_AccessToken t) in
              Ok (Codex.with_mode "chatgpt"
                    (Codex.with_tokens (Codex.t_AccessToken t) (Codex.t_RefreshToken t) expires account auth))
      end
  end.

Definition clear_shared (c : Config) : Config :=
  set_codex (λ p, codex_auth (Codex.clearPersistedChatGPTSecrets (cx_Auth p)) (cx_Accounts p) p) c.

Definition codex_command finish := auth_command enable_codex
  (λ c, elems (cx_Accounts (pr_Codex (cfg_Providers c)))) with_codex_accounts cxa_Label new_codex_account
  cxa_Auth set_codex_auth finish CodexRefused.

(** The flow starts from empty credentials, whatever the account has. *)
(* src/src/cli.go handleAuthCodex *)
(* src/src/cli.go resolveOrCreateCodexAccount *)
Definition handleAuthCodex device rounds polls exchange later :=
  codex_command clear_shared (λ _,
    match codexAuthenticate device rounds polls exchange later (Codex.with_mode "chatgpt" emptyCodexAuth) with
    | Ok auth => Obtained auth
    | Err e => Refused e
    end).

(* src/src/cli.go handleAuthCodexAPIKey *)
Definition handleAuthCodexAPIKey (apiKey : string) :=
  codex_command id (λ auth, Obtained
    (mkCodexAuth "api_key" apiKey (xa_APIKeyRef auth) "" (xa_AccessTokenRef auth) "" (xa_RefreshTokenRef auth) 0 "")).

(* src/src/cli.go handleAuthCodexManualToken *)
Definition handleAuthCodexManualToken (now : Z) (token : string) :=
  codex_command clear_shared (λ auth, Obtained
    (let expires := extractJWTExpiry parse token in
     Codex.with_mode "chatgpt" (Codex.with_tokens token "" (if (expires =? 0)%Z then wrap_i64 (now + 3600) else expires)
       (extractAccountIDFromJWT parse token) auth))).

Definition set_kilo (f : KiloProvider → KiloProvider) (c : Config) : Config :=
  let p := cfg_Providers c in Defaults.set_providers (mkProviders (pr_Copilot p) (pr_Codex p) (f (pr_Kilo p))) c.

Definition kilo_command (key : option string) (w : save_world) (s : config_state) : config_state * result unit cli_error :=
  match loadConfig path fault s with
  | Err e => (s, Err (LoadFailed e))
  | Ok cfg =>
    let '(s, r) := saveConfig path w (set_kilo (λ k, mkKiloProvider true true (default (kp_APIKey k) key) (kp_APIKeyRef k)
      (kp_OrganizationID k) (kp_OrganizationIDRef k) (kp_BaseURL k) (kp_AllowedModels k)) cfg) s in
    (s, map_err SaveRefused r)
  end.

(* src/src/cli.go handleAuthKiloAnonymous *)
Definition handleAuthKiloAnonymous := kilo_command None.
(* src/src/cli.go handleAuthKiloAPIKey *)
Definition handleAuthKiloAPIKey (apiKey : string) := kilo_command (Some apiKey).
End cli.

(** ** What an authentication command leaves *)

(** The file holds [c]. *)
Definition holds `{StateCodec} (s : config_state) (c : Config) : Prop :=
  ∃ d text, s = Unmanaged d ∧ marshalConfig (Clone c) = Some text ∧ d_config d = Some text.

Section auth_facts.
Context `{StateCodec} `{ConfigText}.
Context (parse : string → option json) (path : result string path_error) (fault : option load_error).

Lemma saved_holds w c d s' : saveConfig path w c (Unmanaged d) = (s', Ok tt) → holds s' c.
Proof.
  unfold saveConfig. destruct path as [p|]; [|done]. destruct (openConfigState _ _ _ _ _) as [m|]; [|done].
  destruct (of_apply _) as [m' r] eqn:Ha. intros [= <- ->]. apply of_apply_Ok in Ha as [s Ha].
  apply Apply_commits in Ha as (_ & _ & _ & _ & text & Ht & Hd). by exists (disk m'), text.
Qed.

Lemma saved_unmanaged w c d s' r : saveConfig path w c (Unmanaged d) = (s', r) → ∃ d', s' = Unmanaged d'.
Proof.
  unfold saveConfig. destruct path as [p|]; [|intros [= <- _]; eauto].
  destruct (openConfigState _ _ _ _ _) as [m|]; [|intros [= <- _]; eauto].
  destruct (of_apply _) as [m' r']. intros [= <- _]. eauto.
Qed.

(** How a command with an account ends. *)
Lemma auth_command_ends {A B E} enable accounts_of with_accounts (label_of : A → string) new auth_of set_auth finish
    (refused : E → cli_error) (flow : B → flow_result B E) label w1 w2 d s' r :
  (∀ l, label_of (new l) = l) →
  auth_command path fault enable accounts_of with_accounts label_of new auth_of set_auth finish refused flow label w1 w2
    (Unmanaged d) = (s', r) →
  (∃ e, r = Err (LoadFailed e) ∧ s' = Unmanaged d) ∨ (∃ e, r = Err (AddFailed e)) ∨
  ∃ cfg accounts i a added d1,
    loadConfig path fault (Unmanaged d) = Ok cfg ∧
    resolve_account label_of new (accounts_of (enable cfg)) label = (accounts, i, added) ∧ accounts !! i = Some a ∧
    (if added then holds (Unmanaged d1) (with_accounts accounts (enable cfg)) else d1 = d) ∧
    match flow (auth_of a) with
    | Unchanged => s' = Unmanaged d1 ∧ r = Ok tt
    | Refused e => s' = Unmanaged d1 ∧ r = Err (refused e)
    | Obtained auth =>
      (r = Ok tt → holds s' (finish (with_accounts (<[i := set_auth auth a]> accounts) (with_accounts accounts (enable cfg)))))
      ∧ ∃ r0, r = map_err SaveRefused r0
    end.
Proof.
  intros Hnew. unfold auth_command. destruct (loadConfig path fault (Unmanaged d)) as [cfg|e]; [|intros [= <- <-]; left; eauto].
  destruct (resolve_account _ _ _ _) as [[accounts i] added] eqn:Hr.
  destruct (resolve_account_spec _ _ _ _ _ _ _ Hnew Hr) as [(a & Ha & _) _]. rewrite Ha.
  destruct (if added then _ else _) as [s1 r1] eqn:Hs1.
  destruct r1 as [[]|e]; [|intros [= <- <-]; right; left; eauto].
  assert (∃ d1, s1 = Unmanaged d1 ∧ (if added then holds (Unmanaged d1) (with_accounts accounts (enable cfg)) else d1 = d))
    as (d1 & -> & Hd1).
  { destruct added; [|injection Hs1 as <-; by exists d]. destruct (saved_unmanaged _ _ _ _ _ Hs1) as [d1 ->].
    exists d1. split; [done|]. by eapply saved_holds. }
  intros Hf. right; right. exists cfg, accounts, i, a, added, d1. do 4 (split; [done|]).
  destruct (flow (auth_of a)) as [|auth|e]; [by injection Hf as <- <-| |by injection Hf as <- <-].
  destruct (saveConfig path w2 _ (Unmanaged d1)) as [s2 r2] eqn:Hs2. injection Hf as <- <-. split.
  - destruct r2 as [[]|]; [|done]. intros _. by eapply saved_holds.
  - by exists r2.
Qed.

Lemma with_copilot_accounts_twice l l' c : with_copilot_accounts l' (with_copilot_accounts l c) = with_copilot_accounts l' c.
Proof. done. Qed.
Lemma with_codex_accounts_twice l l' c : with_codex_accounts l' (with_codex_accounts l c) = with_codex_accounts l' c.
Proof. done. Qed.

(** What [auth copilot] does when it reports success: of the configuration it read,
    it changes the credentials of the one account that is meant, and enables the
    provider; or the token of that account is still good, and the file is as it was,
    even if the provider is not enabled in it. *)
Theorem copilot_authentication_touches_one_account now device polls exchange label w1 w2 d s' :
  handleAuthCopilot parse path fault now device polls exchange label w1 w2 (Unmanaged d) = (s', Ok tt) →
  ∃ cfg accounts i a,
    loadConfig path fault (Unmanaged d) = Ok cfg ∧ accounts !! i = Some a ∧ (label ≠ "" → cpa_Label a = label) ∧
    (∀ j, j ≠ i → accounts !! j = elems (cp_Accounts (pr_Copilot (cfg_Providers cfg))) !! j) ∧
    match copilot_flow parse now device polls exchange (cpa_Auth a) with
    | Unchanged => s' = Unmanaged d
    | Obtained auth =>
      holds s' (with_copilot_accounts (<[i := set_copilot_auth auth a]> accounts) (enable_copilot cfg))
    | Refused _ => False
    end.
Proof.
  intros Hc. apply auth_command_ends in Hc as [(e & [=] & _)|[(e & [=])|Hc]]; [|done].
  destruct Hc as (cfg & accounts & i & a & added & d1 & Hl & Hr & Ha & Hd1 & Hf).
  destruct (resolve_account_spec cpa_Label new_copilot_account _ _ _ _ _ (λ _, eq_refl) Hr) as [(a' & Ha' & Hla & Hnew) [Hother Hadd]].
  rewrite Ha in Ha'. injection Ha' as <-. exists cfg, accounts, i, a. do 4 (split; [done|]).
  destruct (copilot_flow _ _ _ _ _ _) as [|auth|e] eqn:Hflow; [| |by destruct Hf].
  - destruct Hf as [-> _]. destruct added; [exfalso|by rewrite Hd1].
    destruct Hnew as [Enew|Hold].
    + rewrite Enew in Hflow. unfold copilot_flow, new_copilot_account in Hflow. cbn [cpa_Auth emptyCopilotAuth ca_CopilotToken String.eqb negb andb] in Hflow.
      by destruct (Copilot.copilotAuthenticate _ _ _ _ _ _ _) as [? []].
    + destruct (proj1 Hadd eq_refl) as [Hne Hno]. apply (Hno a); [|by apply Hla]. by eapply list_elem_of_lookup_2.
  - destruct Hf as [Hf _]. by apply Hf.
Qed.

(** A flow that is refused leaves the file alone, unless the label is new: then the
    provider is enabled, and has an account without credentials. *)
Theorem refused_authentication_may_enable now device polls exchange label w1 w2 d s' e :
  handleAuthCopilot parse path fault now device polls exchange label w1 w2 (Unmanaged d) = (s', Err (CopilotRefused e)) →
  ∃ cfg, loadConfig path fault (Unmanaged d) = Ok cfg ∧
    let accounts := elems (cp_Accounts (pr_Copilot (cfg_Providers cfg))) in
    if bool_decide (label = "" ∨ label ∈ cpa_Label <$> accounts) then s' = Unmanaged d
    else holds s' (with_copilot_accounts (accounts ++ [new_copilot_account label]) (enable_copilot cfg)).
Proof.
  intros Hc. apply auth_command_ends in Hc as [(e' & [=] & _)|[(e' & [=])|Hc]]; [|done].
  destruct Hc as (cfg & accounts & i & a & added & d1 & Hl & Hr & Ha & Hd1 & Hf).
  destruct (resolve_account_spec cpa_Label new_copilot_account _ _ _ _ _ (λ _, eq_refl) Hr) as (_ & _ & Hadd).
  exists cfg. split; [done|]. assert (s' = Unmanaged d1) as ->.
  { destruct (copilot_flow _ _ _ _ _ _); [by destruct Hf|by destruct Hf as (_ & [[]|] & ?)|by destruct Hf]. }
  cbv zeta. destruct added.
  - destruct (proj1 Hadd eq_refl) as [Hne Hno]. rewrite bool_decide_false.
    2:{ intros [?|(x & Ex & Hx)%list_elem_of_fmap]; [done|]. by destruct (Hno x Hx). }
    unfold resolve_account in Hr. rewrite (proj2 (String.eqb_neq label "") Hne) in Hr.
    destruct (find_index _ _) as [[]|]; [done|]. by injection Hr as <- <-.
  - rewrite bool_decide_true; [by rewrite Hd1|].
    destruct (decide (label = "")) as [|Hne]; [by left|]. right.
    unfold resolve_account in Hr. rewrite (proj2 (String.eqb_neq label "") Hne) in Hr.
    destruct (find_index _ _) as [[k []]|] eqn:Hfi; [|done].
    apply find_index_Some in Hfi as (x & Hx & Hxl & _). apply list_elem_of_fmap. exists x.
    split; [by destruct (String.eqb_spec (cpa_Label x) label)|by eapply list_elem_of_lookup_2].
Qed.
End auth_facts.

(** ** Refreshing *)

Section refresh.
Context `{StateCodec} `{ConfigText}.
Context (parse : string → option json) (path : result string path_error) (fault : option load_error).

Definition copilot_accounts (c : Config) : list CopilotAccount := elems (cp_Accounts (pr_Copilot (cfg_Providers c))).
Definition codex_accounts (c : Config) : list CodexAccount := elems (cx_Accounts (pr_Codex (cfg_Providers c))).

(** [worlds i]: what the server answers for the i-th account, and how its write ends.
    Every refreshed account is written at once, and stays refreshed in memory when the
    write fails. *)
(* src/src/cli.go refreshCopilot *)
Fixpoint refresh_copilot_accounts (worlds : nat → (nat → http_answer) * save_world) (todo : list nat)
    (cfg : Config) (s : config_state) (refreshed : nat) : Config * config_state * nat :=
  match todo with
  | [] => (cfg, s, refreshed)
  | i :: todo =>
    match copilot_accounts cfg !! i with
    | None => (cfg, s, refreshed)
    | Some a =>
      if String.eqb (ca_CopilotToken (cpa_Auth a)) "" then refresh_copilot_accounts worlds todo cfg s refreshed
      else match Copilot.copilotRefreshToken parse (worlds i).1 true (cpa_Auth a) with
      | (_, Err _, _) => refresh_copilot_accounts worlds todo cfg s refreshed
      | (auth, Ok _, _) =>
        let cfg := with_copilot_accounts (<[i := set_copilot_auth auth a]> (copilot_accounts cfg)) cfg in
        let '(s, r) := saveConfig path (worlds i).2 cfg s in
        refresh_copilot_accounts worlds todo cfg s (if is_ok r then S refreshed else refreshed)
      end
    end
  end.

(* src/src/cli.go refreshCopilot *)
Definition refreshCopilot (worlds : nat → (nat → http_answer) * save_world) (cfg : Config) (s : config_state)
    : Config * config_state * result unit cli_error :=
  let n := length (copilot_accounts cfg) in
  if (0 <? n)%nat then
    let '(cfg, s, refreshed) := refresh_copilot_accounts worlds (seq 0 n) cfg s 0 in
    (cfg, s, if (refreshed =? 0)%nat then Err NothingRefreshed else Ok tt)
  else
    let auth := cp_Auth (pr_Copilot (cfg_Providers cfg)) in
    if String.eqb (ca_CopilotToken auth) "" then (cfg, s, Err NoCopilotToken)
    else match Copilot.copilotRefreshToken parse (worlds 0).1 true auth with
    | (_, Err e, _) => (cfg, s, Err (CopilotRefreshFailed e))
    | (auth, Ok _, _) =>
      let cfg := set_copilot (λ p, copilot_auth auth (cp_Accounts p) p) cfg in
      let '(s, r) := saveConfig path (worlds 0).2 cfg s in
      (cfg, s, if is_ok r then Ok tt else Err (CopilotRefreshFailed Copilot.SaveFailed))
    end.

(** One account of Codex: its credentials, and whether it counts as refreshed. *)
(* src/src/cli.go:632-655 refreshCodex *)
Definition refresh_codex_account (answers : nat → http_answer) (now : Z) (auth : CodexAuthState) : CodexAuthState * bool :=
  if Codex.isAPIKeyMode (xa_Mode auth) then (auth, true)
  else if String.eqb (xa_AccessToken auth) "" || String.eqb (xa_RefreshToken auth) "" then (auth, false)
  else match Codex.codexRefreshToken parse answers now true auth with
       | (auth, Ok _, _) => (auth, true)
       | (auth, Err _, _) => (auth, false)
       end.

(** All the accounts are written once, whether any was refreshed or not. *)
(* src/src/cli.go refreshCodex *)
Definition refreshCodex (env : string) (official : Codex.official_file) (answers : nat → nat → http_answer) (now : Z)
    (w : save_world) (cfg : Config) (s : config_state) : config_state * result unit cli_error :=
  match codex_accounts cfg with
  | (_ :: _) as accounts =>
    let outcomes := imap (λ i a, refresh_codex_account (answers i) now (cxa_Auth a)) accounts in
    let cfg := with_codex_accounts (zip_with (λ o a, set_codex_auth o.1 a) outcomes accounts) cfg in
    let '(s, r) := saveConfig path w cfg s in
    (s, match r with
        | Err e => Err (SaveRefused e)
        | Ok _ => if existsb snd outcomes then Ok tt else Err NothingRefreshed
        end)
  | [] =>
    let auth := cx_Auth (pr_Codex (cfg_Providers cfg)) in
    if Codex.isAPIKeyMode (xa_Mode auth) then
      (s, match Codex.resolveCodexAPIKey parse env (Some auth) official with
          | Err e => Err (ImportFailed e)
          | Ok None => Err NoAPIKey
          | Ok (Some (key, _)) => if String.eqb key "" then Err NoAPIKey else Ok tt
          end)
    else
      match (if String.eqb (xa_AccessToken auth) "" then
               match Codex.resolveCodexChatGPTAuth parse (Some auth) official with
               | Err e => Err (ImportFailed e)
               | Ok resolved => Ok (Codex.applyResolvedCodexChatGPTAuth auth resolved)
               end
             else Ok auth)
      with
      | Err e => (s, Err e)
      | Ok auth =>
        if String.eqb (xa_AccessToken auth) "" || String.eqb (xa_RefreshToken auth) "" then (s, Err NotRefreshable)
        else match Codex.codexRefreshToken parse (answers 0) now true auth with
        | (_, Err e, _) => (s, Err (CodexRefreshFailed e))
        | (auth, Ok _, _) =>
          let '(s, r) := saveConfig path w (set_codex (λ p, codex_auth auth (cx_Accounts p) p) cfg) s in
          (s, map_err SaveRefused r)
        end
      end
  end.

(** [listed]: the Kilo provider lists its models. *)
(* src/src/cli.go handleRefresh *)
Definition handleRefresh (filter : string) (worlds : nat → (nat → http_answer) * save_world) (env : string)
    (official : Codex.official_file) (answers : nat → nat → http_answer) (now : Z) (w : save_world) (listed : bool)
    (s : config_state) : config_state * result unit cli_error :=
  match loadConfig path fault s with
  | Err e => (s, Err (LoadFailed e))
  | Ok cfg =>
    let '(cfg, s, r) :=
      if String.eqb filter "" || String.eqb filter Copilot then refreshCopilot worlds cfg s else (cfg, s, Ok tt) in
    match r with
    | Err e => (s, Err e)
    | Ok _ =>
      let '(s, r) :=
        if (String.eqb filter "" || String.eqb filter Codex) && cx_Enabled (pr_Codex (cfg_Providers cfg))
        then refreshCodex env official answers now w cfg s else (s, Ok tt) in
      match r with
      | Err e => (s, Err e)
      | Ok _ =>
        (s, if String.eqb filter Kilo && kp_Enabled (pr_Kilo (cfg_Providers cfg)) && negb listed
            then Err KiloListFailed else Ok tt)
      end
    end
  end.

(** What a refresh of the pool may change of an account: its short-lived token. *)
Definition refreshed_of (a b : CopilotAccount) : Prop :=
  cpa_ID b = cpa_ID a ∧ cpa_Label b = cpa_Label a ∧ cpa_LastLimitedAt b = cpa_LastLimitedAt a ∧
  ca_Mode (cpa_Auth b) = ca_Mode (cpa_Auth a) ∧ ca_GitHubToken (cpa_Auth b) = ca_GitHubToken (cpa_Auth a) ∧
  (ca_CopilotToken (cpa_Auth a) = "" ∨ ca_GitHubToken (cpa_Auth a) = "" → b = a).

Lemma refreshed_of_refl a : refreshed_of a a.
Proof. by split_and!. Qed.

Lemma refreshed_of_trans a b c : refreshed_of a b → refreshed_of b c → refreshed_of a c.
Proof.
  intros (?&?&?&?&?&H6) (?&?&?&?&?&H6'). split_and!; try congruence. intros Hor.
  pose proof (H6 Hor) as ->. by apply H6'.
Qed.

Lemma copilotRefreshToken_shape answers auth auth' n u :
  Copilot.copilotRefreshToken parse answers true auth = (auth', Ok u, n) →
  ca_GitHubToken auth ≠ "" ∧ ∃ t, auth' = Copilot.with_token t auth.
Proof.
  intros Hr. unfold Copilot.copilotRefreshToken in Hr. destruct (String.eqb_spec (ca_GitHubToken auth) ""); [done|].
  split; [done|]. revert Hr. generalize 1. generalize maxRefreshRetries. intros rounds. revert n.
  induction rounds as [|rounds IH]; intros n k; [done|]. cbn [Copilot.refresh_loop].
  destruct (Copilot.getCopilotToken parse false (answers k)) as [t|e]; [intros [= <- _]; by exists t|].
  destruct (bool_decide _); [done|]. destruct (Copilot.refresh_loop parse rounds (S k) answers true auth) as [[x y] z] eqn:Hl.
  intros [= -> -> _]. by eapply IH.
Qed.

Lemma copilot_accounts_set l c : copilot_accounts (with_copilot_accounts l c) = l.
Proof. done. Qed.

(** Refreshing the pool keeps every account in its place, with its identity and its
    GitHub token, and leaves the accounts that cannot be refreshed as they are; and only
    what was refreshed and written is counted. *)
Theorem refresh_keeps_the_pool worlds todo cfg s refreshed cfg' s' refreshed' :
  refresh_copilot_accounts worlds todo cfg s refreshed = (cfg', s', refreshed') →
  Forall2 refreshed_of (copilot_accounts cfg) (copilot_accounts cfg') ∧
  (∀ i, i ∉ todo → copilot_accounts cfg' !! i = copilot_accounts cfg !! i) ∧
  (refreshed ≤ refreshed' ≤ refreshed + length todo)%nat ∧
  (refreshed' ≠ refreshed → ∃ i a, i ∈ todo ∧ copilot_accounts cfg !! i = Some a ∧ ca_GitHubToken (cpa_Auth a) ≠ "").
Proof.
  revert cfg s refreshed. induction todo as [|k todo IH]; intros cfg s refreshed.
  { cbn [refresh_copilot_accounts length]. intros [= <- <- <-]. split; [|split; [done|split; [lia|done]]].
    apply Forall2_same_length_lookup. split; [done|]. intros i x y Hx Hy. rewrite Hx in Hy. injection Hy as <-.
    apply refreshed_of_refl. }
  cbn [refresh_copilot_accounts length].
  destruct (copilot_accounts cfg !! k) as [a|] eqn:Ha.
  2:{ intros [= <- <- <-]. split; [|split; [done|split; [lia|done]]].
      apply Forall2_same_length_lookup. split; [done|]. intros i x y Hx Hy. rewrite Hx in Hy. injection Hy as <-.
      apply refreshed_of_refl. }
  assert (∀ r, refresh_copilot_accounts worlds todo cfg s refreshed = r → r = (cfg', s', refreshed') →
    Forall2 refreshed_of (copilot_accounts cfg) (copilot_accounts cfg') ∧
    (∀ i, i ∉ k :: todo → copilot_accounts cfg' !! i = copilot_accounts cfg !! i) ∧
    (refreshed ≤ refreshed' ≤ refreshed + S (length todo))%nat ∧
    (refreshed' ≠ refreshed → ∃ i a, i ∈ k :: todo ∧ copilot_accounts cfg !! i = Some a ∧ ca_GitHubToken (cpa_Auth a) ≠ "")) as Hskip.
  { intros r Hr ->. destruct (IH _ _ _ Hr) as (H1 & H2 & H3 & H4). split; [done|]. split; [set_solver|]. split; [lia|].
    intros Hne. destruct (H4 Hne) as (i & x & ? & ?). exists i, x. set_solver. }
  destruct (String.eqb_spec (ca_CopilotToken (cpa_Auth a)) ""); [by apply Hskip|].
  destruct (Copilot.copilotRefreshToken _ _ _ _) as [[auth [u|e]] n0] eqn:Hf; [|by apply Hskip]. clear Hskip.
  apply copilotRefreshToken_shape in Hf as (Hgit & t & ->).
  destruct (saveConfig _ _ _ _) as [s1 r1] eqn:Hs. intros Hr. destruct (IH _ _ _ Hr) as (H1 & H2 & H3 & H4).
  rewrite copilot_accounts_set in *. set (b := set_copilot_auth _ a) in *.
  assert (refreshed_of a b) as Hab by (split_and!; try done; by intros []).
  assert (∀ i x, copilot_accounts cfg !! i = Some x → ∃ y, <[k:=b]> (copilot_accounts cfg) !! i = Some y ∧ refreshed_of x y) as Hstep.
  { intros i x Hx. destruct (decide (i = k)) as [->|Hne].
    - exists b. rewrite list_lookup_insert_eq by (by eapply lookup_lt_Some). rewrite Ha in Hx. by injection Hx as <-.
    - exists x. rewrite list_lookup_insert_ne by done. split; [done|]. apply refreshed_of_refl. }
  apply Forall2_same_length_lookup in H1 as [Hlen H1]. rewrite length_insert in Hlen.
  split; [|split; [|split]].
  - apply Forall2_same_length_lookup. split; [done|]. intros i x z Hx Hz. destruct (Hstep i x Hx) as (y & Hy & Hxy).
    specialize (H1 i y z Hy Hz). by eapply refreshed_of_trans.
  - intros i Hi. rewrite H2 by set_solver. rewrite list_lookup_insert_ne; [done|]. set_solver.
  - destruct (is_ok r1); lia.
  - intros Hne. exists k, a. split; [by left|]. done.
Qed.
End refresh.

(** ** What the commands show

    A line of output is a text; [program] is [os.Args[0]], [import_text] the text of an
    error of the official store. *)

Section status.
Context (parse : string → option json) (program : string) (import_text : Codex.import_error → string).

Definition flag_text (b : bool) : string := if b then "true" else "false".
Definition source_text (s : Codex.key_source) : string :=
  match s with
  | Codex.FromEnv => "OPENAI_API_KEY environment variable"
  | Codex.FromOfficialStore => "official Codex auth store"
  | Codex.FromConfig => "ya-router config"
  end.

(** Minutes and seconds. *)
Definition minutes_text (remaining : Z) : string :=
  pretty (remaining ÷ 60)%Z +:+ "m " +:+ pretty (Z.rem remaining 60) +:+ "s".

(** The remaining seconds of a cooldown, in the pool's own words. *)
Definition status_cooldown (now limited seconds : Z) : option Z :=
  if (0 <? limited)%Z && (now - limited <? seconds)%Z then Some (seconds - (now - limited))%Z else None.

Inductive line_status :=
| CoolingDown (remaining : Z) | NotAuthenticated | Authenticated (remaining : Z) | ExpiryUnavailable | TokenExpired
| KeyConfigured (configured : bool) (source : string).

(* src/src/cli.go printCopilotAccountLine *)
Definition copilot_account_status (now seconds : Z) (a : CopilotAccount) : line_status :=
  match status_cooldown now (cpa_LastLimitedAt a) seconds with
  | Some remaining => CoolingDown remaining
  | None =>
    if String.eqb (ca_CopilotToken (cpa_Auth a)) "" then NotAuthenticated
    else let remaining := wrap_i64 (ca_ExpiresAt (cpa_Auth a) - now) in
         if (0 <? remaining)%Z then Authenticated remaining else TokenExpired
  end.

(* src/src/cli.go printCodexAccountLine *)
Definition codex_account_status (env : string) (official : Codex.official_file) (now seconds : Z) (a : CodexAccount) : line_status :=
  match status_cooldown now (cxa_LastLimitedAt a) seconds with
  | Some remaining => CoolingDown remaining
  | None =>
    let auth := cxa_Auth a in
    if Codex.isAPIKeyMode (xa_Mode auth) then
      match Codex.resolveCodexAPIKey parse env (Some auth) official with
      | Ok (Some (key, source)) => KeyConfigured (negb (String.eqb key "")) (source_text source)
      | _ => KeyConfigured false ""
      end
    else if String.eqb (xa_AccessToken auth) "" then NotAuthenticated
    else if (xa_ExpiresAt auth =? 0)%Z then ExpiryUnavailable
    else let remaining := wrap_i64 (xa_ExpiresAt auth - now) in
         if (0 <? remaining)%Z then Authenticated remaining else TokenExpired
  end.

(* src/src/cli.go printCopilotAccountLine *)
(* src/src/cli.go printCodexAccountLine *)
Definition status_text (s : line_status) : string :=
  match s with
  | CoolingDown remaining => "in cooldown (" +:+ pretty remaining +:+ "s remaining)"
  | NotAuthenticated => "not authenticated"
  | Authenticated remaining => "authenticated (expires in " +:+ minutes_text remaining +:+ ")"
  | ExpiryUnavailable => "authenticated (expiry unavailable)"
  | TokenExpired => "token expired"
  | KeyConfigured configured source => "api_key configured=" +:+ flag_text configured +:+ " source=" +:+ source
  end.

Definition account_line (index : nat) (label : string) (s : line_status) : string :=
  let label := if String.eqb label "" then "account-" +:+ pretty index else label in
  "  [" +:+ pretty index +:+ "] " +:+ label +:+ ": " +:+ status_text s.

(* src/src/cli.go printCopilotAuthLines *)
Definition copilot_auth_lines (now : Z) (auth : CopilotAuthState) : list string :=
  if String.eqb (ca_CopilotToken auth) ""
  then ["  Auth: not authenticated — run '" +:+ program +:+ " auth copilot'"]
  else
    let remaining := wrap_i64 (ca_ExpiresAt auth - now) in
    [if (0 <? remaining)%Z then "  Auth: authenticated (expires in " +:+ minutes_text remaining +:+ ")"
     else "  Auth: token expired (" +:+ pretty (- remaining)%Z +:+ "s ago)";
     "  Has GitHub token: " +:+ flag_text (negb (String.eqb (ca_GitHubToken auth) ""))].

Definition pool_line (n : nat) (seconds : Z) : string :=
  "  Account pool: " +:+ pretty n +:+ " accounts (cooldown: " +:+ pretty seconds +:+ "s)".

(* src/src/cli.go printCopilotStatus *)
Definition copilot_status (now : Z) (p : CopilotProvider) : list string :=
  let accounts := elems (cp_Accounts p) in
  ["Provider: GitHub Copilot"]
  ++ (if (2 <=? length accounts)%nat
      then pool_line (length accounts) (cp_AccountCooldownSeconds p)
           :: imap (λ i a, account_line i (cpa_Label a) (copilot_account_status now (cp_AccountCooldownSeconds p) a)) accounts
      else copilot_auth_lines now match accounts with [a] => cpa_Auth a | _ => cp_Auth p end)
  ++ [""].

(** Without a token of its own the account may be signed in in the official store. *)
(* src/src/cli.go printCodexAuthLines *)
Definition codex_auth_lines (env : string) (official : Codex.official_file) (now : Z) (auth : CodexAuthState) : list string :=
  if Codex.isAPIKeyMode (xa_Mode auth) then
    match Codex.resolveCodexAPIKey parse env (Some auth) official with
    | Err e => ["  Auth: credential lookup failed: " +:+ import_text e]
    | Ok found =>
      ["  Auth: API key configured=" +:+ flag_text match found with Some (key, _) => negb (String.eqb key "") | None => false end;
       "  Credential source: " +:+ match found with Some (_, source) => source_text source | None => "" end]
    end ++ ["  Backend: api.openai.com/v1"; "  Mode: " +:+ xa_Mode auth]
  else
    let own := (xa_AccessToken auth, xa_RefreshToken auth, xa_ExpiresAt auth, xa_AccountID auth, Codex.FromConfig) in
    let '(failure, (access, refresh, expires, account, source)) :=
      if String.eqb (xa_AccessToken auth) "" then
        match Codex.resolveCodexChatGPTAuth parse (Some auth) official with
        | Err e => (["  Auth: credential lookup failed: " +:+ import_text e], own)
        | Ok (Some imported) => ([], imported)
        | Ok None => ([], own)
        end
      else ([], own) in
    failure
    ++ (if String.eqb access "" then ["  Auth: not authenticated — run '" +:+ program +:+ " auth codex'"]
        else
          let remaining := wrap_i64 (expires - now) in
          [if (expires =? 0)%Z then "  Auth: token available (expiry unavailable)"
           else if (0 <? remaining)%Z then "  Auth: authenticated (expires in " +:+ minutes_text remaining +:+ ")"
           else "  Auth: token expired (" +:+ pretty (- remaining)%Z +:+ "s ago)";
           "  Refreshable: " +:+ flag_text (negb (String.eqb refresh ""));
           "  Has account metadata: " +:+ flag_text (negb (String.eqb account ""));
           "  Credential source: " +:+ source_text source])
    ++ ["  Mode: " +:+ xa_Mode auth; "  Backend: https://chatgpt.com/backend-api/codex/"].

(* src/src/cli.go printCodexStatus *)
Definition codex_status (env : string) (official : Codex.official_file) (now : Z) (p : CodexProvider) : list string :=
  let accounts := elems (cx_Accounts p) in
  ["Provider: OpenAI Codex"]
  ++ (if (2 <=? length accounts)%nat
      then pool_line (length accounts) (cx_AccountCooldownSeconds p)
           :: imap (λ i a, account_line i (cxa_Label a)
                (codex_account_status env official now (cx_AccountCooldownSeconds p) a)) accounts
      else codex_auth_lines env official now match accounts with [a] => cxa_Auth a | _ => cx_Auth p end)
  ++ [""].

(** [ready], [source] and [backend] are what the provider says of itself. *)
(* src/src/cli.go printKiloStatus *)
Definition kilo_status (ready : bool) (source : string) (backend : option string) (p : KiloProvider) : list string :=
  ["Provider: Kilo Gateway"; "  Ready: " +:+ flag_text ready; "  Credential source: " +:+ source;
   "  Anonymous free models: " +:+ flag_text (kp_AllowAnonymous p);
   "  Backend: " +:+ default "invalid configuration" backend; ""].

(* src/src/cli.go handleStatus *)
Definition status_lines (path env : string) (official : Codex.official_file) (now : Z) (ready : bool) (source : string)
    (backend : option string) (cfg : Config) : list string :=
  let p := cfg_Providers cfg in
  ["Configuration: " +:+ path; "Port: " +:+ pretty (Port cfg); ""]
  ++ (if cp_Enabled (pr_Copilot p) then copilot_status now (pr_Copilot p) else [])
  ++ (if cx_Enabled (pr_Codex p) then codex_status env official now (pr_Codex p) else [])
  ++ (if kp_Enabled (pr_Kilo p) then kilo_status ready source backend (pr_Kilo p) else []).

(* src/src/cli.go handleConfig *)
Definition config_lines (path listen : string) (cfg : Config) : list string :=
  let p := cfg_Providers cfg in
  ["Configuration file: " +:+ path; "Config version: " +:+ pretty (ConfigVersion cfg); "Port: " +:+ pretty (Port cfg);
   "Listen address: " +:+ listen; "Default model: " +:+ DefaultModel (cfg_Routing cfg);
   "Default provider: " +:+ DefaultProvider (cfg_Routing cfg);
   "Copilot enabled: " +:+ flag_text (cp_Enabled (pr_Copilot p));
   "Codex enabled: " +:+ flag_text (cx_Enabled (pr_Codex p));
   "Kilo enabled: " +:+ flag_text (kp_Enabled (pr_Kilo p))].

(** The status of an account of a pool and the choice of the provider agree: the line
    says that the account cools down exactly when the provider passes over it, and the
    remaining time is positive and within the configured one. *)
Theorem status_agrees_with_the_pool now seconds (a : CopilotAccount) :
  (0 < seconds)%Z → (0 ≤ cpa_LastLimitedAt a ≤ now)%Z →
  match copilot_account_status now seconds a with
  | CoolingDown remaining =>
      inCooldown now (cooldownSeconds seconds) a = true ∧ (0 < remaining ≤ seconds)%Z
      ∧ inCooldown (now + remaining) (cooldownSeconds seconds) a = false
      ∧ ∀ t, (now ≤ t < now + remaining)%Z → inCooldown t (cooldownSeconds seconds) a = true
  | _ => inCooldown now (cooldownSeconds seconds) a = false
  end.
Proof.
  intros Hs Hl. unfold copilot_account_status, status_cooldown, inCooldown, cooldownSeconds.
  rewrite (proj2 (Z.ltb_lt 0 seconds) Hs). cbn [LastLimitedAt copilot_account].
  destruct (Z.ltb_spec 0 (cpa_LastLimitedAt a)) as [Hpos|Hz]; cbn [andb].
  - rewrite (proj2 (Z.eqb_neq _ 0)) by lia. destruct (Z.ltb_spec (now - cpa_LastLimitedAt a) seconds) as [Hc|Hc].
    + split; [done|]. split; [lia|]. split; [apply Z.ltb_ge; lia|]. intros t Ht. apply Z.ltb_lt. lia.
    + destruct (String.eqb _ _); [done|]. by destruct (0 <? wrap_i64 _)%Z.
  - rewrite (proj2 (Z.eqb_eq _ 0)) by lia. destruct (String.eqb _ _); [done|]. by destruct (0 <? wrap_i64 _)%Z.
Qed.
End status.

(** ** The choice of a command *)

(** A secret read from the standard input: [value] is the first line, or what there was
    of it. *)
(* src/src/main.go readSecretFromStdin *)
Definition readSecretFromStdin (value : string) : option string :=
  if String.eqb (TrimSpace value) "" then None else Some (TrimSpace value).

Inductive secret_kind := CodexKey | CodexToken | KiloKey.

(** What a command line asks for. *)
Inductive command :=
| Usage | DaemonUsage | ShowVersion (name : string)
| AuthCopilot (account : string) | AuthCodex (account : string) | AuthKilo
| AuthWithSecret (kind : secret_kind) (account : string)
| AuthUnsupported
| RunDaemon (migration : string) | MigrateConfig (mode : string)
| ListModels (provider : string) (refresh : bool) | ShowConfig | ShowStatus | RefreshTokens (provider : string).

Definition auth_flags : gmap string flag_kind :=
  {["mode" := StringFlag; "api-key-stdin" := BoolFlag; "token-stdin" := BoolFlag; "account" := StringFlag]}.

Definition flags_of (flags : gmap string flag_kind) (args : list string) : option (gmap string flag_value) :=
  match Parse flags ∅ args with Ok (set, _) => Some set | Err _ => None end.

Definition authCommand (commandArgs : list string) : option command :=
  let '(provider, commandArgs) := match commandArgs with
    | p :: rest => if HasPrefix p "-" then ("copilot", commandArgs) else (p, rest)
    | [] => ("copilot", [])
    end in
  match flags_of auth_flags commandArgs with
  | None => None
  | Some set =>
    let key := get_bool set "api-key-stdin" in
    let token := get_bool set "token-stdin" in
    let account := get_string set "account" "" in
    if key && token then None
    else Some (
      if String.eqb provider "codex" then
        if key then AuthWithSecret CodexKey account
        else if token then AuthWithSecret CodexToken account else AuthCodex account
      else if String.eqb provider "copilot" then AuthCopilot account
      else if String.eqb provider "kilo" then
        if token then AuthUnsupported else if key then AuthWithSecret KiloKey account else AuthKilo
      else AuthUnsupported)
  end.

(** The command of the arguments after the program's name; [None] is an exit with code
    2 before anything is done. *)
(* src/src/main.go Execute *)
Definition Execute (args : list string) : option command :=
  match args with
  | [] => Some Usage
  | verb :: rest =>
    if bool_decide (verb ∈ ["help"; "--help"; "-h"]) then Some Usage
    else if String.eqb verb "auth" then authCommand rest
    else if bool_decide (verb ∈ ["run"; "start"]) then
      flags_of {["config-migrate" := StringFlag]} rest ≫= λ set,
        let mode := get_string set "config-migrate" "merge" in
        if bool_decide (mode ∈ [ConfigMigrationNone; ConfigMigrationMerge; ConfigMigrationOverride])
        then Some (RunDaemon mode) else None
    else if String.eqb verb "migrate-config" then
      flags_of {["mode" := StringFlag]} rest ≫= λ set,
        let mode := get_string set "mode" "merge" in
        if bool_decide (mode ∈ [ConfigMigrationMerge; ConfigMigrationOverride]) then Some (MigrateConfig mode) else None
    else if String.eqb verb "models" then
      flags_of {["provider" := StringFlag; "refresh" := BoolFlag]} rest ≫= λ set,
        Some (ListModels (get_string set "provider" "") (get_bool set "refresh"))
    else if String.eqb verb "config" then Some ShowConfig
    else if String.eqb verb "status" then Some ShowStatus
    else if String.eqb verb "refresh" then
      flags_of {["provider" := StringFlag]} rest ≫= λ set, Some (RefreshTokens (get_string set "provider" ""))
    else if String.eqb verb "version" then Some (ShowVersion "ya-router")
    else None
  end.

(* src/src/main.go ExecuteDaemon *)
Definition ExecuteDaemon (args : list string) : option command :=
  match args with
  | [] => Execute ["run"]
  | verb :: rest =>
    if bool_decide (verb ∈ ["run"; "start"]) then Execute args
    else if String.eqb verb "version" then Some (ShowVersion "ya-routerd")
    else if bool_decide (verb ∈ ["help"; "--help"; "-h"]) then Some DaemonUsage
    else if HasPrefix verb "-" then Execute ("run" :: args)
    else None
  end.

(** The code a command exits with; [None] is the one that was not understood. *)
(* src/src/main.go Execute *)
Definition exit_code (c : option command) (ok : bool) : Z :=
  match c with
  | None => 2
  | Some (Usage | DaemonUsage | ShowVersion _) => 0
  | Some AuthUnsupported => 1
  | Some _ => if ok then 0 else 1
  end.

Lemma Execute_run rest :
  Execute ("run" :: rest) = (flags_of {["config-migrate" := StringFlag]} rest ≫= λ set,
    let mode := get_string set "config-migrate" "merge" in
    if bool_decide (mode ∈ [ConfigMigrationNone; ConfigMigrationMerge; ConfigMigrationOverride])
    then Some (RunDaemon mode) else None).
Proof. done. Qed.

Lemma Execute_start rest : Execute ("start" :: rest) = Execute ("run" :: rest).
Proof. done. Qed.

(** The service binary can only serve: no command line makes it read or change
    credentials, or show the configuration; and it serves under one of the three
    migrations, the merge when none is named. *)
Theorem service_binary_only_serves args c :
  ExecuteDaemon args = Some c →
  c = DaemonUsage ∨ c = ShowVersion "ya-routerd" ∨
  ∃ mode, c = RunDaemon mode ∧ mode ∈ [ConfigMigrationNone; ConfigMigrationMerge; ConfigMigrationOverride] ∧
    (args = [] → mode = ConfigMigrationMerge).
Proof.
  assert (∀ rest, Execute ("run" :: rest) = Some c → ∃ mode, c = RunDaemon mode ∧
    mode ∈ [ConfigMigrationNone; ConfigMigrationMerge; ConfigMigrationOverride]) as Hrun.
  { intros rest. rewrite Execute_run. destruct (flags_of _ _) as [set|]; [|done]. cbn [mbind option_bind]. cbv zeta.
    destruct (bool_decide _) eqn:Hb; [|done]. apply bool_decide_eq_true in Hb. intros [= <-]. by eexists. }
  unfold ExecuteDaemon. destruct args as [|verb rest].
  { intros E. right; right. vm_compute in E. injection E as <-. exists ConfigMigrationMerge. split; [done|].
    split; [by right; left|done]. }
  destruct (bool_decide (verb ∈ ["run"; "start"])) eqn:Hv.
  - apply bool_decide_eq_true in Hv. intros E. right; right.
    assert (Execute ("run" :: rest) = Some c) as E'.
    { rewrite !elem_of_cons in Hv. destruct Hv as [->|[->|Hv]]; [done|by rewrite Execute_start in E|]. by apply not_elem_of_nil in Hv. }
    destruct (Hrun _ E') as (mode & -> & Hm). by exists mode.
  - destruct (String.eqb verb "version"); [intros [= <-]; auto|].
    destruct (bool_decide (verb ∈ ["help"; "--help"; "-h"])); [intros [= <-]; auto|].
    destruct (HasPrefix verb "-"); [|done]. intros E.
    right; right. destruct (Hrun _ E) as (mode & -> & Hm). by exists mode.
Qed.

Module ExampleCli.

Definition parse (s : string) : option json :=
  if String.eqb s "device" then Some (JObj [("device_code", JStr "d"); ("user_code", JStr "u"); ("interval", JNum "5")])
  else if String.eqb s "poll" then Some (JObj [("access_token", JStr "gh")])
  else if String.eqb s "token" then Some (JObj [("token", JStr "short"); ("expires_at", JNum "9000")])
  else None.

(** A disabled provider with two accounts, one of which has a token until 5000. *)
Definition good : CopilotAuthState := mkCopilotAuth "device_code" "gh" None "good" None 5000 0.
Definition stored : Config :=
  set_copilot (λ p, mkCopilotProvider false (cp_Auth p)
    (Some [mkCopilotAccount "a1" "work" good 0; mkCopilotAccount "a2" "home" emptyCopilotAuth 0]) 300 None) (on_port 2).
#[local] Instance text : ConfigText := {
  probe _ := (1%Z, Some true); decode_config _ := Some (stored, true); decode_legacy _ := None; account_digest s := s;
}.

Definition d : Disk := mkDisk (Some "aa") None None None.
Definition w (now : Z) : save_world := mkSaveWorld None now true.
Definition run (device : http_answer) (label : string) : config_state * result unit cli_error :=
  handleAuthCopilot parse (Ok "config.json") None 1000 device (λ _, Answered 200 "poll") (λ _, Answered 200 "token")
    label (w 1000) (w 1001) (Unmanaged d).

(** The second account signs in. *)
Lemma copilot_authentication_touches_one_account_witness :
  ∃ s', run (Answered 200 "device") "home" = (s', Ok tt) ∧ s' ≠ Unmanaged d ∧
  ∃ cfg (accounts : list CopilotAccount) (i : nat) a, loadConfig (Ok "config.json") None (Unmanaged d) = Ok cfg ∧ accounts !! i = Some a ∧ cpa_Label a = "home".
Proof.
  eexists. split; [vm_compute; reflexivity|]. split; [discriminate|].
  destruct (copilot_authentication_touches_one_account parse (Ok "config.json") None 1000 (Answered 200 "device")
    (λ _, Answered 200 "poll") (λ _, Answered 200 "token") "home" (w 1000) (w 1001) d
    (run (Answered 200 "device") "home").1) as (cfg & accounts & i & a & Hl & Ha & Hla & _).
  - vm_compute. reflexivity.
  - exists cfg, accounts, i, a. split; [exact Hl|]. split; [exact Ha|]. apply Hla. discriminate.
Defined.

Lemma refused_authentication_may_enable_witness :
  ∃ cfg, loadConfig (Ok "config.json") None (Unmanaged d) = Ok cfg ∧
    holds (run NoResponse "new").1 (with_copilot_accounts
      (elems (cp_Accounts (pr_Copilot (cfg_Providers cfg))) ++ [new_copilot_account "new"]) (enable_copilot cfg)).
Proof.
  destruct (refused_authentication_may_enable parse (Ok "config.json") None 1000 NoResponse
    (λ _, Answered 200 "poll") (λ _, Answered 200 "token") "new" (w 1000) (w 1001) d (run NoResponse "new").1
    Copilot.DeviceRequestFailed) as (cfg & Hl & Hh).
  - vm_compute. reflexivity.
  - exists cfg. split; [exact Hl|]. injection Hl as <-. vm_compute in Hh. vm_compute. exact Hh.
Defined.

(** Signing in again before the token has expired reports success; the provider was not
    enabled and still is not. *)
Lemma reported_success_leaves_it_disabled :
  run NoResponse "work" = (Unmanaged d, Ok tt)
  ∧ cp_Enabled (pr_Copilot (cfg_Providers match loadConfig (Ok "config.json") None (Unmanaged d) with
                                          | Ok c => c | Err _ => enable_copilot stored end)) = false.
Proof. vm_compute. split; reflexivity. Qed.

Definition answers (i : nat) : (nat → http_answer) * save_world := (λ _, Answered 200 "token", w 1000).

Lemma refresh_keeps_the_pool_witness :
  ∃ cfg' s', refresh_copilot_accounts parse (Ok "config.json") answers [0; 1]%nat stored (Unmanaged d) 0 = (cfg', s', 1%nat)
    ∧ Forall2 refreshed_of (copilot_accounts stored) (copilot_accounts cfg')
    ∧ ((λ a, ca_CopilotToken (cpa_Auth a)) <$> copilot_accounts cfg') = ["short"; ""].
Proof.
  destruct (refresh_copilot_accounts parse (Ok "config.json") answers [0; 1]%nat stored (Unmanaged d) 0)
    as [[cfg' s'] n] eqn:E.
  assert (n = 1%nat) as -> by (vm_compute in E; congruence).
  exists cfg', s'. split; [reflexivity|]. split.
  - exact (proj1 (refresh_keeps_the_pool parse (Ok "config.json") answers [0; 1]%nat stored (Unmanaged d) 0 cfg' s' 1 E)).
  - vm_compute in E. injection E as <- <-. vm_compute. reflexivity.
Defined.

(** With Codex only, a refresh of everything fails before Codex is looked at. *)
Definition codex_only : Config :=
  enable_codex (set_codex (codex_auth (mkCodexAuth "chatgpt" "" None "old" None "refresh" None 5 "") None) (on_port 2)).
Definition only_text : ConfigText :=
  {| probe _ := (1%Z, Some true); decode_config _ := Some (codex_only, true); decode_legacy _ := None; account_digest s := s |}.
Definition refresh_only (filter : string) : config_state * result unit cli_error :=
  handleRefresh (H0 := only_text) (λ _, Some (JObj [("access_token", JStr "new"); ("expires_in", JNum "9")])) (Ok "c") None
    filter answers "" Codex.Missing (λ _ _, Answered 200 "") 1000 (w 1000) true (Unmanaged d).
Lemma refresh_without_copilot_never_reaches_codex :
  refresh_only "" = (Unmanaged d, Err NoCopilotToken) ∧ (refresh_only "codex").2 = Ok tt.
Proof. vm_compute. split; reflexivity. Qed.

Lemma status_agrees_with_the_pool_witness :
  copilot_account_status 1100 300 (mkCopilotAccount "a1" "work" good 1000) = CoolingDown 200
  ∧ inCooldown 1100 (cooldownSeconds 300) (mkCopilotAccount "a1" "work" good 1000) = true.
Proof.
  split; [reflexivity|].
  exact (proj1 (status_agrees_with_the_pool 1100 300 (mkCopilotAccount "a1" "work" good 1000) eq_refl
    ltac:(split; cbn [cpa_LastLimitedAt]; discriminate))).
Defined.

Lemma status_of_a_pool :
  copilot_status "ya-router" 1100 (mkCopilotProvider true emptyCopilotAuth
    (Some [mkCopilotAccount "a1" "work" good 1000; mkCopilotAccount "a2" "" good 0]) 300 None)
  = ["Provider: GitHub Copilot"; "  Account pool: 2 accounts (cooldown: 300s)";
     "  [0] work: in cooldown (200s remaining)"; "  [1] account-1: authenticated (expires in 65m 0s)"; ""].
Proof. vm_compute. reflexivity. Qed.

Lemma service_binary_only_serves_witness :
  ExecuteDaemon ["-config-migrate=none"] = Some (RunDaemon "none") ∧ ExecuteDaemon ["auth"] = None ∧
  ∃ mode, RunDaemon "none" = RunDaemon mode ∧ mode ∈ [ConfigMigrationNone; ConfigMigrationMerge; ConfigMigrationOverride].
Proof.
  assert (ExecuteDaemon ["-config-migrate=none"] = Some (RunDaemon "none")) as E by (vm_compute; reflexivity).
  split; [exact E|]. split; [vm_compute; reflexivity|].
  destruct (service_binary_only_serves _ _ E) as [[=]|[[=]|(mode & Em & Hm & _)]]. exists mode. split; [exact Em|exact Hm].
Defined.

Lemma command_lines :
  Execute ["auth"; "codex"; "--api-key-stdin"; "--account"; "work"] = Some (AuthWithSecret CodexKey "work")
  ∧ Execute ["auth"; "--account=home"] = Some (AuthCopilot "home") ∧ Execute ["auth"; "kilo"; "-token-stdin"] = Some AuthUnsupported
  ∧ Execute ["auth"; "-api-key-stdin"; "-token-stdin"] = None ∧ Execute ["run"; "--config-migrate"; "all"] = None
  ∧ Execute ["migrate-config"; "--mode=none"] = None ∧ Execute [] = Some Usage ∧ ExecuteDaemon ["status"] = None.
Proof. vm_compute. repeat split. Qed.
End ExampleCli.
