(* ===== verification/ClientCli.v ===== *)
(** * The scriptable control client

    [src/src/client_cli.go], [client_mutations.go], [client_secrets.go] and
    [client_auth.go]: what a command line of [ya] asks the daemon for, where it finds the
    daemon, and the code it exits with.  The requests go through [Client] to the
    resources of the daemon; a mutation is what [Mutations.ApplyMutation] reads.

    The tables it prints are left out. *)

From S2P Require Import Prelude GoStd Config Provider Writers GoJson Mutations Security Control ConfigFiles ControlRuntime Flags Cli Client.

#[local] Set Default Proof Using "Type".

(* src/src/client_cli.go clientExitOK *)
Definition clientExitOK : Z := 0.
Definition clientExitRuntimeFailure : Z := 1.
Definition clientExitUsage : Z := 2.
Definition clientExitConnection : Z := 3.
Definition clientExitAuth : Z := 4.
Definition clientExitForbidden : Z := 5.
Definition clientExitNotFound : Z := 6.
Definition clientExitIncompatible : Z := 7.
Definition clientExitConflict : Z := 8.
Definition clientExitServer : Z := 9.

(** ** The endpoint *)

(* src/src/client_cli.go clientSocketEnv *)
Definition clientSocketEnv : string := "YA_ROUTER_CONTROL_SOCKET".
Definition clientAddressEnv : string := "YA_ROUTER_CONTROL_ADDRESS".
Definition clientTokenEnv : string := "YA_ROUTER_CONTROL_TOKEN".
Definition clientCACertEnv : string := "YA_ROUTER_CONTROL_CA_CERT".
Definition clientCertEnv : string := "YA_ROUTER_CONTROL_CLIENT_CERT".
Definition clientKeyEnv : string := "YA_ROUTER_CONTROL_CLIENT_KEY".
Definition clientServerName : string := "YA_ROUTER_CONTROL_SERVER_NAME".

(* src/src/client_cli.go firstNonEmpty *)
Fixpoint firstNonEmpty (values : list string) : string :=
  match values with
  | [] => ""
  | value :: values => if String.eqb (TrimSpace value) "" then firstNonEmpty values else TrimSpace value
  end.

(* src/src/client_cli.go clientCommonFlags *)
Record clientCommonFlags := mkCommon {
  cf_json : bool; cf_socket : string; cf_address : string; cf_timeout : Z; cf_refresh : bool; cf_after : Z; cf_id : string;
}.

(* src/src/client_cli.go defaultControlSocketPath *)
Definition defaultControlSocketPath (path : result string path_error) : result string path_error :=
  match path with Err e => Err e | Ok configPath => Ok (controlSocketNextTo configPath) end.

(** [None]: no endpoint. *)
(* src/src/client_cli.go resolveClientProfile *)
Definition resolveClientProfile (getenv : string → string) (path : result string path_error) (common : clientCommonFlags)
    : option Profile :=
  let socket := firstNonEmpty [cf_socket common; getenv clientSocketEnv] in
  let address := firstNonEmpty [cf_address common; getenv clientAddressEnv] in
  let profile transport socket address :=
    mkProfile "" transport socket address (env_trim getenv clientTokenEnv) (env_trim getenv clientCACertEnv)
      (env_trim getenv clientCertEnv) (env_trim getenv clientKeyEnv) (env_trim getenv clientServerName) (cf_timeout common) 0 in
  if negb (String.eqb address "") then Some (profile TransportHTTPS "" address)
  else if negb (String.eqb socket "") then Some (profile TransportUnix socket "")
  else match defaultControlSocketPath path with
       | Err _ => None
       | Ok socket => Some (profile TransportUnix socket "")
       end.

(* src/src/client_cli.go clientRequestTimeout *)
Definition clientRequestTimeout (p : Profile) : Duration :=
  if (0 <? pf_TimeoutSeconds p)%Z then wrap_i64 (wrap_i64 (pf_TimeoutSeconds p + 5) * Second) else (DefaultTimeout + 5 * Second)%Z.

(** ** The commands *)

Inductive client_call :=
| Read (c : call) | Mutate (request : MutationRequest)
| StartAuth (provider account method : string) (expires : Z) | CancelAuth (id : string)
| SetSecret (slot : string) | DeleteSecret (slot : string).

(** What a command line comes to: an answer of the program itself, a usage error, the
    dashboard, or a call. *)
Inductive client_plan := Answer | UsageError | Dashboard (p : option Profile) | Call (json : bool) (p : Profile) (c : client_call).

Definition common_flags (extra : gmap string flag_kind) : gmap string flag_kind :=
  {["json" := BoolFlag; "socket" := StringFlag; "address" := StringFlag; "timeout" := IntFlag]} ∪ extra.

(* src/src/client_cli.go registerClientFlags *)
Definition common_of (set : gmap string flag_value) : clientCommonFlags :=
  mkCommon (get_bool set "json") (get_string set "socket" "") (get_string set "address" "") (get_int set "timeout")
    (get_bool set "refresh") (get_int set "after") (get_string set "id" "").

(* src/src/client_cli.go dispatchClientRead *)
Definition dispatchClientRead (command : string) (common : clientCommonFlags) : option call :=
  if String.eqb command "meta" then Some CMeta
  else if String.eqb command "providers" then Some CProviders
  else if String.eqb command "accounts" then Some CAccounts
  else if String.eqb command "models" then Some (CModels (cf_refresh common))
  else if String.eqb command "config" then Some CConfiguration
  else if String.eqb command "routing" then Some CRoutingStatus
  else if String.eqb command "operations" then Some COperations
  else if String.eqb command "operation" then
    (if String.eqb (TrimSpace (cf_id common)) "" then None else Some (COperation (cf_id common)))
  else if String.eqb command "events" then Some (CEvents (cf_after common))
  else if String.eqb command "secrets" then Some CSecrets
  else None.

(* src/src/client_mutations.go splitCommaList *)
Definition splitCommaList (value : string) : list string :=
  if String.eqb (TrimSpace value) "" then []
  else List.filter (λ s, negb (String.eqb s "")) (TrimSpace <$> Split value ",").

Definition mutation_commands : list string :=
  ["provider-enable"; "provider-disable"; "default-model"; "default-provider"; "allowed-models"; "model-map-set"; "model-map-delete"].

Definition is_blank (s : string) : bool := String.eqb (TrimSpace s) "".

(** [None] is an argument that is missing. *)
(* src/src/client_mutations.go buildMutationRequest *)
Definition buildMutationRequest (command : string) (revision : Z) (dryRun : bool)
    (provider model upstream value models : string) : option MutationRequest :=
  let request kind provider enabled model upstream allowed value :=
    Some (mkRequest kind revision dryRun provider enabled model upstream allowed value) in
  if bool_decide (command ∈ ["provider-enable"; "provider-disable"]) then
    if is_blank provider then None
    else request MutationProviderEnabled provider (Some (String.eqb command "provider-enable")) "" "" [] ""
  else if String.eqb command "default-model" then
    if is_blank model then None else request MutationDefaultModel "" None model "" [] ""
  else if String.eqb command "default-provider" then
    if is_blank value then None else request MutationDefaultProvider "" None "" "" [] value
  else if String.eqb command "allowed-models" then
    if is_blank provider then None
    else request MutationAllowedModels provider None "" "" (splitCommaList models) ""
  else if String.eqb command "model-map-set" then
    if is_blank model || is_blank provider then None
    else request MutationModelMapSet provider None model upstream [] ""
  else if String.eqb command "model-map-delete" then
    if is_blank model then None else request MutationModelMapDelete "" None model "" [] ""
  else None.

Section plans.
Context (getenv : string → string) (path : result string path_error) (files : tls_files).

(** The profile has to make a client. *)
(* src/src/client_cli.go:152-162 runClientReadCommand *)
(* src/src/client_mutations.go:68-78 runClientMutationCommand *)
Definition call_with (common : clientCommonFlags) (c : option client_call) : client_plan :=
  match c, resolveClientProfile getenv path common with
  | Some c, Some profile =>
    match New files profile with
    | Ok _ => Call (cf_json common) profile c
    | Err _ => UsageError
    end
  | _, _ => UsageError
  end.

(** The flags of [runClientReadCommand] for each command. *)
(* src/src/client_cli.go runClientReadCommand *)
Definition runClientReadCommand (command : string) (args : list string) : client_plan :=
  let extra : gmap string flag_kind :=
    if String.eqb command "models" then {["refresh" := BoolFlag]}
    else if String.eqb command "events" then {["after" := UintFlag]}
    else if String.eqb command "operation" then {["id" := StringFlag]} else ∅ in
  match flags_of (common_flags extra) args with
  | None => UsageError
  | Some set => call_with (common_of set) (Read <$> dispatchClientRead command (common_of set))
  end.

Definition mutation_flags : gmap string flag_kind :=
  common_flags {["revision" := UintFlag; "dry-run" := BoolFlag; "provider" := StringFlag; "model" := StringFlag;
    "upstream-model" := StringFlag; "value" := StringFlag; "models" := StringFlag]}.

(* src/src/client_mutations.go runClientMutationCommand *)
Definition runClientMutationCommand (command : string) (args : list string) : client_plan :=
  match flags_of mutation_flags args with
  | None => UsageError
  | Some set =>
    if bool_decide (set !! "revision" = None) then UsageError
    else call_with (common_of set) (Mutate <$> buildMutationRequest command (get_int set "revision") (get_bool set "dry-run")
           (get_string set "provider" "") (get_string set "model" "") (get_string set "upstream-model" "")
           (get_string set "value" "") (get_string set "models" ""))
  end.

Definition whole_line (flags : gmap string flag_kind) (args : list string) : option (gmap string flag_value) :=
  match Parse flags ∅ args with Ok (set, []) => Some set | _ => None end.

(* src/src/client_auth.go runClientAuthCommand *)
Definition runClientAuthCommand (command : string) (args : list string) : client_plan :=
  match whole_line (common_flags {["provider" := StringFlag; "method" := StringFlag; "account" := StringFlag;
                      "id" := StringFlag; "expires-in" := IntFlag]}) args with
  | None => UsageError
  | Some set =>
    let get name := get_string set name "" in
    call_with (common_of set)
      (if String.eqb command "auth-start" then
         (if is_blank (get "provider") || is_blank (get "method") then None
          else Some (StartAuth (get "provider") (get "account") (get "method") (get_int set "expires-in")))
       else if is_blank (get "id") then None else Some (CancelAuth (get "id")))
  end.

(* src/src/client_secrets.go runClientSecretCommand *)
Definition runClientSecretCommand (command : string) (args : list string) : client_plan :=
  match whole_line (common_flags {["slot" := StringFlag; "stdin" := BoolFlag]}) args with
  | None => UsageError
  | Some set =>
    let slot := get_string set "slot" "" in
    let stdin := get_bool set "stdin" in
    if is_blank slot then UsageError
    else call_with (common_of set)
      (if String.eqb command "secret-delete" then (if stdin then None else Some (DeleteSecret slot))
       else if stdin then Some (SetSecret slot) else None)
  end.

(* src/src/client_dashboard.go runClientDashboardCommand *)
(* src/src/client_dashboard.go runClientDashboard *)
Definition runClientDashboardCommand (args : list string) : client_plan :=
  match flags_of (common_flags ∅) args with
  | None => UsageError
  | Some set =>
    if get_bool set "json" then UsageError
    else match resolveClientProfile getenv path (common_of set) with
         | None => UsageError
         | Some profile => match New files profile with Ok _ => Dashboard (Some profile) | Err _ => UsageError end
         end
  end.

(** The arguments after the name of the program. *)
(* src/src/client_cli.go runClientCLI *)
(* src/src/main.go ExecuteClient *)
Definition runClientCLI (args : list string) : client_plan :=
  match args with
  | [] => runClientDashboardCommand []
  | command :: rest =>
    if bool_decide (command ∈ ["help"; "--help"; "-h"; "version"]) then Answer
    else if String.eqb command "dashboard" then runClientDashboardCommand rest
    else if bool_decide (command ∈ ["meta"; "providers"; "accounts"; "models"; "config"; "routing"; "operations"; "operation";
                                    "events"; "secrets"]) then runClientReadCommand command rest
    else if bool_decide (command ∈ mutation_commands) then runClientMutationCommand command rest
    else if bool_decide (command ∈ ["auth-start"; "auth-cancel"]) then runClientAuthCommand command rest
    else if bool_decide (command ∈ ["secret-set"; "secret-delete"]) then runClientSecretCommand command rest
    else UsageError
  end.
End plans.

(** ** The exit code *)

(* src/src/client_cli.go reportClientError *)
Definition reportClientError (e : client_error) : Z :=
  match e with
  | APIFailed e =>
    let status := ap_Status e in
    if (status =? 401)%Z then clientExitAuth
    else if (status =? 403)%Z then clientExitForbidden
    else if (status =? 404)%Z then clientExitNotFound
    else if (status =? 409)%Z then clientExitConflict
    else if (status =? 426)%Z then clientExitIncompatible
    else if (500 <=? status)%Z then clientExitServer
    else clientExitRuntimeFailure
  | _ => clientExitConnection
  end.

(** [secret] is what is read from the standard input, for the one command that does. *)
Definition client_exit {A} (plan : client_plan) (secret : option string) (answer : result (option A) client_error) : Z :=
  match plan with
  | Answer => clientExitOK
  | UsageError => clientExitUsage
  | Dashboard _ => clientExitOK
  | Call _ _ c =>
    match c, secret with
    | SetSecret _, None => clientExitUsage
    | _, _ => match answer with Ok _ => clientExitOK | Err e => reportClientError e end
    end
  end.

(** ** Facts *)

(** The client and the daemon meet.  Without options, and with one environment for
    both, the client calls the socket the daemon listens on, at the variable's path or
    next to the configuration file; but a variable that turns the daemon's socket off is
    a path for the client. *)
Theorem client_finds_the_daemon getenv (configPath : string) :
  TrimSpace (getenv clientAddressEnv) = "" →
  ∃ profile, resolveClientProfile getenv (Ok configPath) (mkCommon false "" "" 0 false 0 "") = Some profile ∧
    pf_Transport profile = TransportUnix ∧
    (if EqualFold (env_trim getenv controlSocketEnv) "off" || EqualFold (env_trim getenv controlSocketEnv) "disabled"
     then configured_socket getenv configPath = "" ∧ pf_Socket profile = env_trim getenv controlSocketEnv
     else pf_Socket profile = configured_socket getenv configPath).
Proof.
  intros Ha. unfold resolveClientProfile. cbn [cf_address cf_socket firstNonEmpty]. rewrite Ha.
  change (TrimSpace "") with "". cbn [String.eqb negb]. change clientSocketEnv with controlSocketEnv.
  change (TrimSpace (getenv controlSocketEnv)) with (env_trim getenv controlSocketEnv). unfold configured_socket.
  destruct (String.eqb_spec (env_trim getenv controlSocketEnv) "") as [E|E]; cbn [negb].
  - rewrite E. eexists. split; [reflexivity|]. by split.
  - rewrite (proj2 (String.eqb_neq _ _) E). cbn [negb]. eexists. split; [reflexivity|]. split; [done|].
    cbn [pf_Socket]. by destruct (EqualFold _ "off" || EqualFold _ "disabled").
Qed.

(** What the provider with an identifier has in a configuration. *)
Definition provider_enabled (id : string) (c : Config) : option bool :=
  let p := cfg_Providers c in
  if String.eqb id Copilot then Some (cp_Enabled (pr_Copilot p))
  else if String.eqb id Codex then Some (cx_Enabled (pr_Codex p))
  else if String.eqb id Kilo then Some (kp_Enabled (pr_Kilo p)) else None.
Definition provider_allowed (id : string) (c : Config) : option (slice string) :=
  let p := cfg_Providers c in
  if String.eqb id Copilot then Some (cp_AllowedModels (pr_Copilot p))
  else if String.eqb id Codex then Some (cx_AllowedModels (pr_Codex p))
  else if String.eqb id Kilo then Some (kp_AllowedModels (pr_Kilo p)) else None.

(** What a command promises of the configuration after it. *)
Definition meant (command provider model upstream value models : string) (next : Config) : Prop :=
  if bool_decide (command ∈ ["provider-enable"; "provider-disable"]) then
    provider_enabled (TrimSpace provider) next = Some (String.eqb command "provider-enable")
  else if String.eqb command "default-model" then DefaultModel (cfg_Routing next) = TrimSpace model
  else if String.eqb command "default-provider" then DefaultProvider (cfg_Routing next) = TrimSpace value
  else if String.eqb command "allowed-models" then
    provider_allowed (TrimSpace provider) next = Some (cleanModelList (splitCommaList models))
  else if String.eqb command "model-map-set" then
    ModelMap (cfg_Routing next) !! TrimSpace model = Some (mkModelMapEntry (TrimSpace provider) (TrimSpace upstream))
  else ModelMap (cfg_Routing next) !! TrimSpace model = None.

Lemma update_provider_spec provider enabled allowed c :
  match update_provider provider enabled allowed c with
  | Ok next => (∃ b, provider_enabled (TrimSpace provider) c = Some b ∧ provider_enabled (TrimSpace provider) next = Some (enabled b)) ∧
      (∃ l, provider_allowed (TrimSpace provider) c = Some l ∧ provider_allowed (TrimSpace provider) next = Some (allowed l)) ∧
      ∀ id, id ≠ TrimSpace provider → provider_enabled id next = provider_enabled id c ∧ provider_allowed id next = provider_allowed id c
  | Err e => e = UnknownProvider (TrimSpace provider) ∧ TrimSpace provider ∉ knownProviderIDs
  end.
Proof.
  unfold update_provider, provider_enabled, provider_allowed. generalize (TrimSpace provider) as p. intros p.
  destruct (String.eqb_spec p Copilot) as [->|H1]; [|destruct (String.eqb_spec p Codex) as [->|H2]; [|destruct (String.eqb_spec p Kilo) as [->|H3]]].
  4:{ split; [done|]. unfold knownProviderIDs. rewrite !elem_of_cons. intros [|[|[|Hin]]]; [done..|]. by apply not_elem_of_nil in Hin. }
  all: split; [cbn; eauto|]; split; [cbn; eauto|]; intros id Hid; destruct (String.eqb_spec id Copilot), (String.eqb_spec id Codex), (String.eqb_spec id Kilo);
    try done; congruence.
Qed.

Lemma blank_false s : is_blank s = false → TrimSpace s ≠ "".
Proof. unfold is_blank. intros H. by apply String.eqb_neq. Qed.

(** A command of the client means what it says to the daemon.  A request that could
    be built names the revision it was given; the daemon refuses it only for what it
    knows and the client does not (the providers, the umbrella models), never for
    something missing; and a configuration it leads to is what the command promises. *)
Theorem client_mutations_are_understood command revision dryRun provider model upstream value models request current :
  buildMutationRequest command revision dryRun provider model upstream value models = Some request →
  mr_ExpectedRevision request = revision ∧ mr_DryRun request = dryRun ∧
  match ApplyMutation (Some current) request with
  | Ok next => meant command provider model upstream value models next
  | Err e => (∃ p, e = UnknownProvider p ∧ p ∉ knownProviderIDs) ∨ (∃ p, e = UnknownDefaultProvider p ∧ p ∉ knownProviderIDs)
             ∨ ∃ m, e = ShadowsVirtualModel m
  end.
Proof.
  unfold buildMutationRequest, meant. cbv zeta.
  destruct (bool_decide (command ∈ ["provider-enable"; "provider-disable"])).
  { destruct (is_blank provider); [done|]. intros [= <-]. split; [done|]. split; [done|].
    cbn [ApplyMutation mr_Kind mr_Enabled mr_Provider]. unfold setProviderEnabled.
    pose proof (update_provider_spec provider (λ _, String.eqb command "provider-enable") (λ a, a) (Clone current)) as Hs.
    destruct (update_provider _ _ _ _) as [next|e]; [|left; eauto]. destruct Hs as ((b & _ & ->) & _). done. }
  destruct (String.eqb command "default-model").
  { destruct (is_blank model) eqn:Hb; [done|]. intros [= <-]. split; [done|]. split; [done|].
    cbn [ApplyMutation mr_Kind mr_Value mr_Model firstNonEmptyMutation].
    change (TrimSpace "") with "". cbn [String.eqb negb]. unfold is_blank in Hb. rewrite Hb. cbn [negb]. by rewrite Hb. }
  destruct (String.eqb command "default-provider").
  { destruct (is_blank value); [done|]. intros [= <-]. split; [done|]. split; [done|].
    cbn [ApplyMutation mr_Kind mr_Value].
    destruct (bool_decide (TrimSpace value ∈ knownProviderIDs)) eqn:Hk; cbn [negb]; [done|]. right; left.
    apply bool_decide_eq_false in Hk. eauto. }
  destruct (String.eqb command "allowed-models").
  { destruct (is_blank provider); [done|]. intros [= <-]. split; [done|]. split; [done|].
    cbn [ApplyMutation mr_Kind mr_Provider mr_AllowedModels]. unfold setAllowedModels.
    pose proof (update_provider_spec provider (λ e, e) (λ _, cleanModelList (splitCommaList models)) (Clone current)) as Hs.
    destruct (update_provider _ _ _ _) as [next|e]; [|left; eauto]. destruct Hs as (_ & (l & _ & ->) & _). done. }
  destruct (String.eqb command "model-map-set").
  { destruct (is_blank model) eqn:Hb; [done|]. destruct (is_blank provider); [done|]. intros [= <-]. split; [done|]. split; [done|].
    cbn [ApplyMutation mr_Kind]. unfold setModelMapEntry. cbn [mr_Model mr_Provider mr_UpstreamModel].
    unfold is_blank in Hb. rewrite Hb.
    destruct (bool_decide (TrimSpace provider ∈ knownProviderIDs)) eqn:Hk; cbn [negb].
    - destruct (VirtualModels _ !! _); [right; right; eauto|]. cbn. apply lookup_insert_eq.
    - left. apply bool_decide_eq_false in Hk. eauto. }
  destruct (String.eqb command "model-map-delete"); [|done].
  destruct (is_blank model) eqn:Hb; [done|]. intros [= <-]. split; [done|]. split; [done|].
  cbn [ApplyMutation mr_Kind mr_Model]. unfold is_blank in Hb. rewrite Hb. cbn. apply lookup_delete_eq.
Qed.

Lemma call_with_Call getenv path files common c json p c' :
  call_with getenv path files common c = Call json p c' →
  c = Some c' ∧ resolveClientProfile getenv path common = Some p ∧ json = cf_json common ∧ is_ok (New files p) = true.
Proof.
  unfold call_with. destruct c as [c|]; [|done]. destruct (resolveClientProfile _ _ _) as [profile|]; [|done].
  destruct (New files profile) eqn:Hn; [|done]. intros [= <- <- <-]. by rewrite Hn.
Qed.

Lemma built_revision command revision dryRun provider model upstream value models request :
  buildMutationRequest command revision dryRun provider model upstream value models = Some request →
  mr_ExpectedRevision request = revision.
Proof.
  unfold buildMutationRequest. cbv zeta. repeat (destruct (bool_decide _) || destruct (String.eqb command _)); try done;
    repeat destruct (is_blank _); try done; by intros [= <-].
Qed.

(** Only the commands that change the configuration ask for a change, and each of them
    names the revision the operator gave, a number of 64 bits. *)
Theorem every_mutation_names_its_revision getenv path files args json p r :
  runClientCLI getenv path files args = Call json p (Mutate r) →
  ∃ command rest set left, args = command :: rest ∧ command ∈ mutation_commands ∧
    Parse mutation_flags ∅ rest = Ok (set, left) ∧ set !! "revision" = Some (VInt (mr_ExpectedRevision r)) ∧
    (0 ≤ mr_ExpectedRevision r ≤ maxUint64)%Z.
Proof.
  intros H. assert (∀ common c, call_with getenv path files common c = Call json p (Mutate r) → c = Some (Mutate r)) as Hcall
    by (intros common c (? & _)%call_with_Call; done).
  assert (∀ args, runClientDashboardCommand getenv path files args ≠ Call json p (Mutate r)) as Hdash.
  { intros l. unfold runClientDashboardCommand. destruct (flags_of _ _) as [set|]; [|done]. destruct (get_bool _ _); [done|].
    destruct (resolveClientProfile _ _ _); [|done]. by destruct (New files _). }
  unfold runClientCLI in H. destruct args as [|command rest]; [by destruct (Hdash [])|].
  destruct (bool_decide (command ∈ ["help"; "--help"; "-h"; "version"])); [done|].
  destruct (String.eqb command "dashboard"); [by destruct (Hdash rest)|].
  destruct (bool_decide (command ∈ ["meta"; _; _; _; _; _; _; _; _; _])).
  { unfold runClientReadCommand in H. destruct (flags_of _ _) as [set|]; [|done]. apply Hcall in H.
    by destruct (dispatchClientRead command _). }
  destruct (bool_decide (command ∈ mutation_commands)) eqn:Hm.
  2:{ destruct (bool_decide (command ∈ ["auth-start"; _])).
      - unfold runClientAuthCommand in H. destruct (whole_line _ _) as [set|]; [|done]. apply Hcall in H.
        destruct (String.eqb _ _); [destruct (_ || _); done|by destruct (is_blank _)].
      - destruct (bool_decide (command ∈ ["secret-set"; _])); [|done]. unfold runClientSecretCommand in H.
        destruct (whole_line _ _) as [set|]; [|done]. destruct (is_blank _); [done|]. apply Hcall in H.
        destruct (String.eqb _ _), (get_bool _ _); done. }
  apply bool_decide_eq_true in Hm. unfold runClientMutationCommand, flags_of in H.
  destruct (Parse mutation_flags ∅ rest) as [[set left]|] eqn:Hp; [|done].
  destruct (bool_decide (set !! "revision" = None)) eqn:Hrev; [done|]. apply bool_decide_eq_false in Hrev.
  apply Hcall in H. destruct (buildMutationRequest _ _ _ _ _ _ _ _) as [request|] eqn:Hb; [|done]. injection H as ->.
  apply built_revision in Hb.
  exists command, rest, set, left. do 3 (split; [done|]). rewrite Hb.
  destruct (set !! "revision") as [v|] eqn:Hl; [|done].
  destruct (proj1 (Parse_well_typed mutation_flags ∅ rest set left (λ n v Hn, ltac:(by rewrite lookup_empty in Hn)) Hp) _ _ Hl) as (kind & Hk & Hv). vm_compute in Hk. injection Hk as <-.
  destruct v as [| |z]; [done..|]. unfold get_int. rewrite Hl. split; [done|exact Hv].
Qed.

(** The exit code tells what the daemon answered. *)
Theorem exit_codes_tell_the_answer {A} json p c (answer : result (option A) client_error) :
  let code := client_exit (Call json p c) (Some "") answer in
  let status n := ∃ e, answer = Err (APIFailed e) ∧ ap_Status e = n in
  (code = clientExitOK ↔ is_ok answer = true) ∧ code ≠ clientExitUsage ∧
  (code = clientExitAuth ↔ status 401%Z) ∧ (code = clientExitForbidden ↔ status 403%Z) ∧
  (code = clientExitNotFound ↔ status 404%Z) ∧ (code = clientExitConflict ↔ status 409%Z) ∧
  (code = clientExitIncompatible ↔ status 426%Z) ∧
  (code = clientExitServer ↔ ∃ e, answer = Err (APIFailed e) ∧ (500 <= ap_Status e)%Z) ∧
  (code = clientExitConnection ↔ ∃ e, answer = Err e ∧ ∀ x, e ≠ APIFailed x).
Proof.
  cbv zeta. replace (client_exit (Call json p c) (Some "") answer)
    with (match answer with Ok _ => clientExitOK | Err e => reportClientError e end) by (by destruct c).
  destruct answer as [a|e].
  { split_and!; try done; (split; [done|]); by intros (? & [=] & _). }
  destruct e as [| | | |e| | | |]; try (split_and!;
    first [done | split; done | split; [done|by intros (? & [=] & _)] | split; [intros _; by eexists|done]]; fail).
  unfold reportClientError. set (s := ap_Status e).
  assert (∀ n : Z, (∃ e0, Err (A := option A) (APIFailed e) = Err (APIFailed e0) ∧ ap_Status e0 = n) ↔ s = n) as Hs
    by (intros n; split; [intros (? & [= <-] & ?); done|intros <-; by exists e]).
  rewrite !Hs.
  assert ((∃ e0, Err (A := option A) (APIFailed e) = Err (APIFailed e0) ∧ (500 <= ap_Status e0)%Z) ↔ (500 <= s)%Z) as ->
    by (split; [intros (? & [= <-] & ?); done|intros ?; by exists e]).
  assert ((∃ e0, Err (A := option A) (APIFailed e) = Err e0 ∧ ∀ x, e0 ≠ APIFailed x) ↔ False) as ->
    by (split; [intros (? & [= <-] & H); by apply (H e)|done]).
  unfold clientExitOK, clientExitUsage, clientExitAuth, clientExitForbidden, clientExitNotFound, clientExitConflict,
    clientExitIncompatible, clientExitServer, clientExitConnection, clientExitRuntimeFailure.
  destruct (Z.eqb_spec s 401); [split_and!; first [lia|split; [lia|done]]|]. destruct (Z.eqb_spec s 403); [split_and!; first [lia|split; [lia|done]]|].
  destruct (Z.eqb_spec s 404); [split_and!; first [lia|split; [lia|done]]|]. destruct (Z.eqb_spec s 409); [split_and!; first [lia|split; [lia|done]]|].
  destruct (Z.eqb_spec s 426); [split_and!; first [lia|split; [lia|done]]|]. destruct (Z.leb_spec 500 s); split_and!; first [lia|split; [lia|done]].
Qed.

(** A refusal of the daemon ends the command at once: an answer from 400 to 499 is not
    asked for again. *)
Theorem refusals_are_not_repeated `{JSON} {A} files profile c method path body key http done_at
    (out : option (string → option A)) status payload :
  New files profile = Ok c → pf_MaxRetries profile = 0%Z → http 0%nat = Answers status payload → (400 ≤ status < 500)%Z →
  is_Some key → body ≠ Some None →
  ∃ request, doJSON c method path body key http done_at out
    = ([(0%Z, request)], Err (APIFailed (decodeAPIError status (limited payload)))).
Proof.
  intros Hn Hr Ha Hs [k ->] Hb. assert (cl_maxRetries c = DefaultMaxRetries) as Hm.
  { unfold New in Hn. set (p' := if String.eqb (pf_Transport profile) "" then with_transport TransportUnix profile else profile) in *.
    assert (pf_MaxRetries p' = 0%Z) as Hp by (subst p'; by destruct (String.eqb _ "")). clearbody p'. rewrite Hp in Hn. cbv zeta in Hn.
    destruct (String.eqb _ _).
    - destruct (String.eqb _ _); [done|]. by injection Hn as <-.
    - destruct (String.eqb _ _); [|done]. destruct (String.eqb _ _); [done|].
      destruct (buildTLSConfig files p'); [|done]. by injection Hn as <-. }
  assert (∀ request, attempts_loop http done_at out request (Z.to_nat (wrap_i64 (cl_maxRetries c + 1))) 0 (Ok None)
    = ([(0%Z, request)], Err (APIFailed (decodeAPIError status (limited payload))))) as Hloop.
  { intros request. rewrite Hm. change (Z.to_nat (wrap_i64 (DefaultMaxRetries + 1))) with 3%nat.
    cbn [attempts_loop Nat.ltb Nat.leb andb]. rewrite Ha. cbn [read_answer].
    rewrite (proj2 (Z.leb_le 400 status)) by lia.
    assert (ap_Status (decodeAPIError status (limited payload)) = status) as Hst.
    { unfold decodeAPIError. destruct (_ ≫= _) as [[[[[code ?] ?] ?] ?]|]; [|done]. by destruct (String.eqb code ""). }
    cbn [shouldRetry]. rewrite Hst. rewrite (proj2 (Z.leb_gt 500 status)) by lia. by rewrite andb_false_r. }
  unfold doJSON. destruct body as [[encoded|]|]; [|done|]; destruct (String.eqb method "GET"); eexists; apply Hloop.
Qed.

Module ExampleClientCli.

Definition files : tls_files := mkTLSFiles (λ _, true) (λ _, true) (λ _ _, true).
Definition variables (l : list (string * string)) (name : string) : string := default "" (@list_to_map _ _ (gmap string string) _ _ l !! name).
Definition config_json : result string path_error := Ok "/etc/ya/config.json".

Lemma client_finds_the_daemon_witness :
  ∃ profile, resolveClientProfile (variables []) config_json (mkCommon false "" "" 0 false 0 "") = Some profile
    ∧ pf_Socket profile = "/etc/ya/control.sock".
Proof.
  destruct (client_finds_the_daemon (variables []) "/etc/ya/config.json" ltac:(vm_compute; reflexivity)) as (profile & E & _ & Hs).
  exists profile. split; [exact E|]. vm_compute in Hs. vm_compute. exact Hs.
Defined.

(** The daemon has no socket, and the client looks for one called [off]. *)
Lemma switched_off_socket_is_called :
  let env := variables [(controlSocketEnv, "off")] in
  configured_socket env "/etc/ya/config.json" = ""
  ∧ pf_Socket <$> resolveClientProfile env config_json (mkCommon false "" "" 0 false 0 "") = Some "off".
Proof. vm_compute. split; reflexivity. Qed.

Definition disable : MutationRequest := mkRequest MutationProviderEnabled 7 false "codex" (Some false) "" "" [] "".
Definition current : Config := set_codex (λ p, mkCodexProvider true (cx_Auth p) (cx_Accounts p) 0 (Some ["gpt-5"]) "") Defaults.defaultConfig.

Lemma client_mutations_are_understood_witness :
  buildMutationRequest "provider-disable" 7 false "codex" "" "" "" "" = Some disable
  ∧ match ApplyMutation (Some current) disable with
    | Ok next => provider_enabled "codex" next = Some false
    | Err _ => False
    end.
Proof.
  assert (buildMutationRequest "provider-disable" 7 false "codex" "" "" "" "" = Some disable) as Hb by (vm_compute; reflexivity).
  split; [exact Hb|].
  destruct (client_mutations_are_understood "provider-disable" 7 false "codex" "" "" "" "" disable current Hb) as (_ & _ & H).
  destruct (ApplyMutation (Some current) disable) as [next|e] eqn:E; [exact H|]. vm_compute in E. discriminate E.
Defined.

(** A list of models that was forgotten lifts the restriction. *)
Lemma forgotten_models_lift_the_restriction :
  match buildMutationRequest "allowed-models" 7 false "codex" "" "" "" "" with
  | Some request =>
    provider_allowed "codex" current = Some (Some ["gpt-5"]) ∧
    match ApplyMutation (Some current) request with Ok next => provider_allowed "codex" next = Some None | Err _ => False end
  | None => False
  end.
Proof. vm_compute. split; reflexivity. Qed.

Definition line : list string := ["default-model"; "--revision"; "0"; "--model=thiendu"; "--json"].
Definition asked : MutationRequest := mkRequest MutationDefaultModel 0 false "" None "thiendu" "" [] "".

Lemma every_mutation_names_its_revision_witness :
  ∃ p, runClientCLI (variables []) config_json files line = Call true p (Mutate asked) ∧
  ∃ command rest set left, line = command :: rest ∧ command ∈ mutation_commands ∧
    Parse mutation_flags ∅ rest = Ok (set, left) ∧ set !! "revision" = Some (VInt 0).
Proof.
  eexists. split; [vm_compute; reflexivity|].
  destruct (every_mutation_names_its_revision (variables []) config_json files line true _ asked ltac:(vm_compute; reflexivity))
    as (command & rest & set & left & E & Hc & Hp & Hr & _).
  exists command, rest, set, left. split; [exact E|]. split; [exact Hc|]. split; [exact Hp|exact Hr].
Defined.

Lemma command_lines_of_the_client :
  let run := runClientCLI (variables []) config_json files in
  run ["default-model"; "--model=thiendu"] = UsageError
  ∧ run ["operation"; "--id= "] = UsageError ∧ run ["secret-set"; "--slot"; "codex/api_key"; "--stdin"; "value"] = UsageError
  ∧ run ["secret-set"; "--slot"; "codex/api_key"] = UsageError ∧ run ["events"; "--refresh"] = UsageError
  ∧ run ["meta"; "--address"; " "] = run ["meta"] ∧ run ["--json"] = UsageError
  ∧ match run ["events"; "--after=9"] with Call false _ (Read (CEvents 9)) => True | _ => False end
  ∧ match run ["secret-set"; "--slot"; "codex/api_key"; "--stdin"] with Call false _ (SetSecret "codex/api_key") => True | _ => False end
  ∧ match run [] with Dashboard (Some _) => True | _ => False end.
Proof. vm_compute. repeat split. Qed.

Definition profile : Profile := mkProfile "" TransportUnix "/etc/ya/control.sock" "" "" "" "" "" "" 0 0.

(** A conflict: one request, exit code 8. *)
Lemma refusals_are_not_repeated_witness :
  ∃ c request, New files profile = Ok c ∧
    doJSON (A := unit) c "POST" "/control/v1/config/mutations" (Some (Some "{}")) (Some "k") (λ _, Answers 409 "") (λ _, false) None
    = ([(0%Z, request)], Err (APIFailed (decodeAPIError 409 (limited ""))))
    ∧ client_exit (A := unit) (Call false profile (Mutate asked)) None (Err (APIFailed (decodeAPIError 409 (limited "")))) = clientExitConflict.
Proof.
  destruct (New files profile) as [c|e] eqn:Hn; [|discriminate Hn]. exists c.
  destruct (refusals_are_not_repeated (A := unit) files profile c "POST" "/control/v1/config/mutations" (Some (Some "{}")) (Some "k")
    (λ _, Answers 409 "") (λ _, false) None 409 "" Hn eq_refl eq_refl ltac:(split; [discriminate|reflexivity]) ltac:(by eexists)
    ltac:(discriminate)) as [request E].
  exists request. split; [reflexivity|]. split; [exact E|]. vm_compute. reflexivity.
Defined.
End ExampleClientCli.
