(* ===== verification/ChatPane.v ===== *)
(** * The chat pane of the terminal client

    [src/src/client_chat_model.go]: the transcript of a conversation, the composer in which
    the next message is typed and the request in flight.  The composer is a Go string that
    every key converts to runes and back, so the conversions of UTF-8 come first.  A slice
    out of bounds, which ends the program, is [None].

    The pane has no connection of its own: [Workspace] feeds it the events of [WSClient]. *)

From stdpp Require Import pretty.
From S2P Require Import Prelude GoStd Writers.

#[local] Set Default Proof Using "Type".

(** ** Runes: [[]rune(s)] and [string(runes)] *)

Definition byte_of (z : Z) : ascii := ascii_of_N (Z.to_N z).
Definition byte_val (c : ascii) : Z := Z.of_N (N_of_ascii c).

(** What stands for a rune, or a byte, that is not one. *)
Definition RuneError : Z := 65533.
Definition valid_rune (r : Z) : bool := ((0 <=? r) && (r <? 55296) || (57344 <=? r) && (r <=? 1114111))%Z.
Definition normal (r : Z) : Z := if valid_rune r then r else RuneError.

Definition bytes_of (l : list Z) : string := foldr (λ b s, String (byte_of b) s) "" l.

Definition encode_rune (rune : Z) : string :=
  let r := normal rune in
  bytes_of (if r <? 128 then [r]
            else if r <? 2048 then [192 + r / 64; 128 + r mod 64]
            else if r <? 65536 then [224 + r / 4096; 128 + (r / 64) mod 64; 128 + r mod 64]
            else [240 + r / 262144; 128 + (r / 4096) mod 64; 128 + (r / 64) mod 64; 128 + r mod 64])%Z.

Definition of_runes (l : list Z) : string := foldr (λ r s, encode_rune r +:+ s) "" l.

Definition continues (b : Z) : bool := ((128 <=? b) && (b <=? 191))%Z.

(** The first rune of a string that starts with [c], and the rest: the shortest form of
    a valid rune, or one byte that is none. *)
Definition decode_rune (c : ascii) (s : string) : Z * string :=
  let b := byte_val c in
  let bad := (RuneError, s) in
  if (b <? 128)%Z then (b, s)
  else match s with
  | "" => bad
  | String c1 s1 =>
    let b1 := byte_val c1 in
    if negb (continues b1) then bad
    else if ((194 <=? b) && (b <=? 223))%Z then (((b - 192) * 64 + (b1 - 128))%Z, s1)
    else match s1 with
    | "" => bad
    | String c2 s2 =>
      let b2 := byte_val c2 in
      let r := ((b - 224) * 4096 + (b1 - 128) * 64 + (b2 - 128))%Z in
      if negb (continues b2) then bad
      else if ((224 <=? b) && (b <=? 239))%Z then (if (2048 <=? r)%Z && valid_rune r then (r, s2) else bad)
      else match s2 with
      | "" => bad
      | String c3 s3 =>
        let b3 := byte_val c3 in
        let r := ((b - 240) * 262144 + (b1 - 128) * 4096 + (b2 - 128) * 64 + (b3 - 128))%Z in
        if continues b3 && (65536 <=? r)%Z && valid_rune r && (240 <=? b)%Z then (r, s3) else bad
      end
    end
  end.

Fixpoint runes_loop (fuel : nat) (s : string) : list Z :=
  match fuel, s with
  | S fuel, String c s => let '(r, rest) := decode_rune c s in r :: runes_loop fuel rest
  | _, _ => []
  end.
(** Every rune takes a byte at least, so the length is fuel enough. *)
Definition runes (s : string) : list Z := runes_loop (String.length s) s.

Example runes_of_bytes :
  runes "ya" = [121; 97]%Z ∧ runes (of_runes [233; 8230; 128512; 55296]%Z) = [233; 8230; 128512; RuneError]%Z
  ∧ runes (bytes_of [97; 255; 195; 40; 224; 128; 128]%Z) = [97; RuneError; RuneError; 40; RuneError; RuneError; RuneError]%Z.
Proof. vm_compute. split_and!; reflexivity. Qed.

(** *** Converting there and back *)

Lemma byte_val_of z : (0 <= z < 256)%Z → byte_val (byte_of z) = z.
Proof.
  intros Hz. unfold byte_val, byte_of. rewrite N_ascii_embedding by lia. lia.
Qed.

Lemma normal_valid r : valid_rune (normal r) = true.
Proof. unfold normal. by destruct (valid_rune r) eqn:E. Qed.

Lemma normal_id r : valid_rune r = true → normal r = r.
Proof. unfold normal. by intros ->. Qed.

Lemma valid_rune_range r : valid_rune r = true ↔ (0 <= r < 55296 ∨ 57344 <= r <= 1114111)%Z.
Proof. unfold valid_rune. rewrite orb_true_iff, !andb_true_iff. lia. Qed.

Lemma decode_encode r s : ∃ c t, encode_rune r +:+ s = String c t ∧ decode_rune c t = (normal r, s).
Proof.
  pose proof (normal_valid r) as Hr. unfold encode_rune. cbv zeta. set (n := normal r) in *. clearbody n. clear r.
  pose proof (proj1 (valid_rune_range n) Hr) as Hrange.
  assert (∀ b l, bytes_of (b :: l) +:+ s = String (byte_of b) (bytes_of l +:+ s)) as Hcons by done.
  destruct (n <? 128)%Z eqn:H1; [|destruct (n <? 2048)%Z eqn:H2; [|destruct (n <? 65536)%Z eqn:H3]];
    rewrite Hcons; eexists _, _; (split; [reflexivity|]); unfold decode_rune; cbv zeta; rewrite ?Hcons;
    change (bytes_of [] +:+ s) with s; cbn [bytes_of foldr String.append];
    rewrite !byte_val_of by (Z.div_mod_to_equations; lia).
  - by rewrite H1.
  - replace (192 + n / 64 <? 128)%Z with false by (symmetry; Z.div_mod_to_equations; lia).
    replace (continues (128 + n mod 64)) with true by (unfold continues; symmetry; Z.div_mod_to_equations; lia).
    replace ((194 <=? 192 + n / 64) && (192 + n / 64 <=? 223))%Z with true by (symmetry; Z.div_mod_to_equations; lia).
    cbn [negb]. f_equal. Z.div_mod_to_equations; lia.
  - replace (224 + n / 4096 <? 128)%Z with false by (symmetry; Z.div_mod_to_equations; lia).
    replace (continues (128 + (n / 64) mod 64)) with true by (unfold continues; symmetry; Z.div_mod_to_equations; lia).
    replace (continues (128 + n mod 64)) with true by (unfold continues; symmetry; Z.div_mod_to_equations; lia).
    replace ((194 <=? 224 + n / 4096) && (224 + n / 4096 <=? 223))%Z with false by (symmetry; Z.div_mod_to_equations; lia).
    replace ((224 <=? 224 + n / 4096) && (224 + n / 4096 <=? 239))%Z with true by (symmetry; Z.div_mod_to_equations; lia).
    cbn [negb].
    replace ((224 + n / 4096 - 224) * 4096 + (128 + (n / 64) mod 64 - 128) * 64 + (128 + n mod 64 - 128))%Z with n
      by (Z.div_mod_to_equations; lia).
    rewrite Hr. replace (2048 <=? n)%Z with true by lia. done.
  - replace (240 + n / 262144 <? 128)%Z with false by (symmetry; Z.div_mod_to_equations; lia).
    replace (continues (128 + (n / 4096) mod 64)) with true by (unfold continues; symmetry; Z.div_mod_to_equations; lia).
    replace (continues (128 + (n / 64) mod 64)) with true by (unfold continues; symmetry; Z.div_mod_to_equations; lia).
    replace (continues (128 + n mod 64)) with true by (unfold continues; symmetry; Z.div_mod_to_equations; lia).
    replace ((194 <=? 240 + n / 262144) && (240 + n / 262144 <=? 223))%Z with false by (symmetry; Z.div_mod_to_equations; lia).
    replace ((224 <=? 240 + n / 262144) && (240 + n / 262144 <=? 239))%Z with false by (symmetry; Z.div_mod_to_equations; lia).
    replace (240 <=? 240 + n / 262144)%Z with true by (symmetry; Z.div_mod_to_equations; lia).
    cbn [negb].
    replace ((240 + n / 262144 - 240) * 262144 + (128 + (n / 4096) mod 64 - 128) * 4096 + (128 + (n / 64) mod 64 - 128) * 64
             + (128 + n mod 64 - 128))%Z with n by (Z.div_mod_to_equations; lia).
    rewrite Hr. replace (65536 <=? n)%Z with true by lia. done.
Qed.

Lemma runes_loop_of l fuel : String.length (of_runes l) ≤ fuel → runes_loop fuel (of_runes l) = normal <$> l.
Proof.
  revert fuel; induction l as [|r l IH]; intros fuel Hfuel; [by destruct fuel|].
  change (of_runes (r :: l)) with (encode_rune r +:+ of_runes l) in *.
  destruct (decode_encode r (of_runes l)) as (c & t & E & D). rewrite E in *.
  destruct fuel as [|fuel]; [simpl in Hfuel; lia|]. cbn [runes_loop]. rewrite D. cbn [fmap list_fmap].
  f_equal. apply IH. apply (f_equal String.length) in E. rewrite str_length_app in E. simpl in E, Hfuel.
  assert (0 < String.length (encode_rune r)); [|lia].
  unfold encode_rune. cbv zeta. repeat case_match; simpl; lia.
Qed.

(** [[]rune(string(l))] is [l], with every value that is no rune replaced. *)
Lemma runes_of_runes l : runes (of_runes l) = normal <$> l.
Proof. by apply runes_loop_of. Qed.

Lemma of_runes_app l l' : of_runes (l ++ l') = of_runes l +:+ of_runes l'.
Proof. induction l as [|r l IH]; [done|]. cbn [app of_runes foldr]. fold (of_runes (l ++ l')) (of_runes l). by rewrite IH, str_app_assoc. Qed.

Lemma of_runes_normal l : of_runes (normal <$> l) = of_runes l.
Proof.
  induction l as [|r l IH]; [done|].
  change (encode_rune (normal r) +:+ of_runes (normal <$> l) = encode_rune r +:+ of_runes l).
  rewrite IH. f_equal. unfold encode_rune. by rewrite (normal_id (normal r)) by apply normal_valid.
Qed.

(** ** Keys

    What the terminal library reports of a key: its type, the runes of a typed or pasted
    text, and two flags. *)

Inductive key_type :=
| KeyRunes | KeyEnter | KeyEsc | KeyBackspace | KeyLeft | KeyRight | KeySpace | KeyCtrlJ | KeyOther (code : Z).

Record KeyMsg := mkKey { key_Type : key_type; key_Runes : list Z; key_Alt : bool; key_Paste : bool }.

(** ** The pane *)

(* src/src/client_chat_model.go chatMessageRole *)
(* src/src/client_chat_model.go chatRoleUser *)
Inductive chatMessageRole := chatRoleUser | chatRoleAssistant.
#[export] Instance chatMessageRole_eq : EqDecision chatMessageRole.
Proof. solve_decision. Defined.

(* src/src/client_chat_model.go chatTranscriptEntry *)
Record chatTranscriptEntry := mkEntry { te_Role : chatMessageRole; te_Text : string; te_Interrupted : bool }.

(* src/src/client_chat_model.go chatRequestState *)
(* src/src/client_chat_model.go chatIdle *)
Inductive chatRequestState := chatIdle | chatAwaitingRoute | chatStreaming.
#[export] Instance chatRequestState_eq : EqDecision chatRequestState.
Proof. solve_decision. Defined.

(** [ch_cursor] counts runes; no step makes it negative. *)
(* src/src/client_chat_model.go chatModel *)
Record chatModel := mkChat {
  ch_transcript : list chatTranscriptEntry; ch_composer : string; ch_cursor : nat; ch_state : chatRequestState;
  ch_activeRequestID : string; ch_streamingIndex : Z; ch_requestedModel : string; ch_selectedProvider : string;
  ch_selectedModel : string; ch_lastError : string; ch_focused : bool;
}.

(* src/src/client_chat_model.go newChatModel *)
Definition newChatModel : chatModel := mkChat [] "" 0 chatIdle "" 0 "thiendu" "" "" "" false.

(* src/src/client_chat_model.go nextChatRequestID *)
Definition nextChatRequestID (counter : Z) : Z * string :=
  let counter := wrap_i64 (counter + 1) in (counter, "chat-" +:+ pretty counter).

Definition set_transcript (l : list chatTranscriptEntry) (m : chatModel) : chatModel :=
  mkChat l (ch_composer m) (ch_cursor m) (ch_state m) (ch_activeRequestID m) (ch_streamingIndex m) (ch_requestedModel m)
    (ch_selectedProvider m) (ch_selectedModel m) (ch_lastError m) (ch_focused m).
Definition set_composer (text : string) (cursor : nat) (m : chatModel) : chatModel :=
  mkChat (ch_transcript m) text cursor (ch_state m) (ch_activeRequestID m) (ch_streamingIndex m) (ch_requestedModel m)
    (ch_selectedProvider m) (ch_selectedModel m) (ch_lastError m) (ch_focused m).
Definition set_request (state : chatRequestState) (id : string) (index : Z) (m : chatModel) : chatModel :=
  mkChat (ch_transcript m) (ch_composer m) (ch_cursor m) state id index (ch_requestedModel m)
    (ch_selectedProvider m) (ch_selectedModel m) (ch_lastError m) (ch_focused m).
Definition set_selected (provider model : string) (m : chatModel) : chatModel :=
  mkChat (ch_transcript m) (ch_composer m) (ch_cursor m) (ch_state m) (ch_activeRequestID m) (ch_streamingIndex m)
    (ch_requestedModel m) provider model (ch_lastError m) (ch_focused m).
Definition set_lastError (message : string) (m : chatModel) : chatModel :=
  mkChat (ch_transcript m) (ch_composer m) (ch_cursor m) (ch_state m) (ch_activeRequestID m) (ch_streamingIndex m)
    (ch_requestedModel m) (ch_selectedProvider m) (ch_selectedModel m) message (ch_focused m).
Definition set_focused (focused : bool) (m : chatModel) : chatModel :=
  mkChat (ch_transcript m) (ch_composer m) (ch_cursor m) (ch_state m) (ch_activeRequestID m) (ch_streamingIndex m)
    (ch_requestedModel m) (ch_selectedProvider m) (ch_selectedModel m) (ch_lastError m) focused.

(* src/src/client_chat_model.go chatModel.canSend *)
Definition canSend (m : chatModel) : bool :=
  bool_decide (ch_state m = chatIdle) && negb (String.eqb (TrimSpace (ch_composer m)) "").

(* src/src/client_chat_model.go chatModel.canCancel *)
Definition canCancel (m : chatModel) : bool := negb (bool_decide (ch_state m = chatIdle)).

(* src/src/client_chat_model.go chatModel.beginUserMessage *)
Definition beginUserMessage (m : chatModel) : chatModel * string :=
  let text := TrimSpace (ch_composer m) in
  (set_request chatAwaitingRoute (ch_activeRequestID m) (-1)
     (set_composer "" 0 (set_transcript (ch_transcript m ++ [mkEntry chatRoleUser text false]) m)), text).

(** [0 <= streamingIndex && streamingIndex < len(transcript)]. *)
Definition streams (m : chatModel) : bool :=
  ((0 <=? ch_streamingIndex m) && (ch_streamingIndex m <? Z.of_nat (length (ch_transcript m))))%Z.
Definition streaming_at (m : chatModel) : nat := Z.to_nat (ch_streamingIndex m).

(** Appends an empty assistant entry, the one that streams from now on. *)
Definition open_entry (m : chatModel) : chatModel :=
  set_request (ch_state m) (ch_activeRequestID m) (Z.of_nat (length (ch_transcript m)))
    (set_transcript (ch_transcript m ++ [mkEntry chatRoleAssistant "" false]) m).

(* src/src/client_chat_model.go chatModel.onRoute *)
Definition onRoute (provider resolvedModel : string) (m : chatModel) : chatModel :=
  let m := set_selected provider resolvedModel m in
  if bool_decide (ch_state m = chatStreaming) && streams m then m
  else open_entry (set_request chatStreaming (ch_activeRequestID m) (ch_streamingIndex m) m).

Definition add_text (text : string) (e : chatTranscriptEntry) : chatTranscriptEntry :=
  mkEntry (te_Role e) (te_Text e +:+ text) (te_Interrupted e).

(* src/src/client_chat_model.go chatModel.onDelta *)
Definition onDelta (text : string) (m : chatModel) : chatModel :=
  let m := if streams m then m else open_entry m in
  set_transcript (alter (add_text text) (streaming_at m) (ch_transcript m)) m.

(* src/src/client_chat_model.go chatModel.finishRequest *)
Definition finishRequest (interrupted : bool) (m : chatModel) : chatModel :=
  let m := set_request chatIdle "" (-1) m in
  if interrupted then m else set_selected "" "" m.

(* src/src/client_chat_model.go chatModel.onDone *)
Definition onDone (m : chatModel) : chatModel := finishRequest false (set_lastError "" m).

(* src/src/client_chat_model.go chatModel.onError *)
Definition onError (interrupted : bool) (message : string) (m : chatModel) : chatModel :=
  let i := streaming_at m in
  let m := match ch_transcript m !! i with
           | Some e =>
             if negb (streams m) then m
             else if String.eqb (te_Text e) "" && negb interrupted then set_transcript (delete i (ch_transcript m)) m
             else set_transcript (<[i := mkEntry (te_Role e) (te_Text e) interrupted]> (ch_transcript m)) m
           | None => m
           end in
  finishRequest interrupted (set_lastError message m).

(** *** The composer *)

(** A cursor beyond the text is a slice out of bounds. *)
(* src/src/client_chat_model.go chatModel.insertRune *)
Definition insertRune (r : Z) (m : chatModel) : option chatModel :=
  let l := runes (ch_composer m) in
  if (length l <? ch_cursor m)%nat then None
  else Some (set_composer (of_runes (take (ch_cursor m) l ++ r :: drop (ch_cursor m) l)) (S (ch_cursor m)) m).

(* src/src/client_chat_model.go chatModel.insertNewline *)
Definition insertNewline : chatModel → option chatModel := insertRune 10.

(* src/src/client_chat_model.go chatModel.backspace *)
Definition backspace (m : chatModel) : option chatModel :=
  let l := runes (ch_composer m) in
  match ch_cursor m with
  | O => Some m
  | S cursor => if (length l <? ch_cursor m)%nat then None
                else Some (set_composer (of_runes (take cursor l ++ drop (S cursor) l)) cursor m)
  end.

(* src/src/client_chat_model.go chatModel.moveCursorLeft *)
Definition moveCursorLeft (m : chatModel) : chatModel := set_composer (ch_composer m) (pred (ch_cursor m)) m.

(* src/src/client_chat_model.go chatModel.moveCursorRight *)
Definition moveCursorRight (m : chatModel) : chatModel :=
  if (ch_cursor m <? length (runes (ch_composer m)))%nat then set_composer (ch_composer m) (S (ch_cursor m)) m else m.

Fixpoint insert_runes (l : list Z) (m : chatModel) : option chatModel :=
  match l with [] => Some m | r :: l => insertRune r m ≫= insert_runes l end.

(* src/src/client_chat_model.go chatModel.handleComposerKey *)
Definition handleComposerKey (key : KeyMsg) (m : chatModel) : option chatModel :=
  match key_Type key with
  | KeyBackspace => backspace m
  | KeyLeft => Some (moveCursorLeft m)
  | KeyRight => Some (moveCursorRight m)
  | KeyEnter => if key_Alt key then insertNewline m else Some m
  | KeyCtrlJ => insertNewline m
  | KeyRunes => if key_Alt key || key_Paste key then Some m else insert_runes (key_Runes key) m
  | KeySpace => insertRune 32 m
  | KeyEsc | KeyOther _ => Some m
  end.

(** ** The composer is a text editor

    The reference: the runes before the cursor, the last one first, and those after it. *)

Definition editor : Type := list Z * list Z.

Definition ed_type (r : Z) (e : editor) : editor := (normal r :: e.1, e.2).

Definition ed_key (key : KeyMsg) (e : editor) : editor :=
  match key_Type key, e with
  | KeyBackspace, (_ :: before, after) => (before, after)
  | KeyLeft, (r :: before, after) => (before, r :: after)
  | KeyRight, (before, r :: after) => (r :: before, after)
  | KeyEnter, _ => if key_Alt key then ed_type 10 e else e
  | KeyCtrlJ, _ => ed_type 10 e
  | KeySpace, _ => ed_type 32 e
  | KeyRunes, _ => if key_Alt key || key_Paste key then e else foldl (λ e r, ed_type r e) e (key_Runes key)
  | _, _ => e
  end.

Definition edits (e : editor) (m : chatModel) : Prop :=
  ch_composer m = of_runes (reverse e.1 ++ e.2) ∧ ch_cursor m = length e.1 ∧ Forall (λ r, valid_rune r = true) (e.1 ++ e.2).

(** What a key does to the rest of the pane: nothing. *)
Definition same_chat (m m' : chatModel) : Prop := set_composer "" 0 m = set_composer "" 0 m'.

Lemma edits_runes e m : edits e m → runes (ch_composer m) = reverse e.1 ++ e.2.
Proof.
  intros (-> & _ & Hv). rewrite runes_of_runes. apply list_eq_same_length with (length (reverse e.1 ++ e.2)); [done|by rewrite length_fmap|].
  intros i x y _ Hx Hy. apply list_lookup_fmap_Some in Hx as (z & -> & Hz). rewrite Hz in Hy. injection Hy as <-.
  apply normal_id. assert (Forall (λ r, valid_rune r = true) (reverse e.1 ++ e.2)) as Hv'.
  { apply Forall_app in Hv as [Hv1 Hv2]. apply Forall_app. split; [|done]. by rewrite reverse_Permutation. }
  by apply (proj1 (Forall_lookup _ _) Hv' i).
Qed.

Lemma take_reverse_app (l r : list Z) : take (length l) (reverse l ++ r) = reverse l.
Proof. rewrite <-(length_reverse l). apply take_app_length. Qed.
Lemma drop_reverse_app (l r : list Z) : drop (length l) (reverse l ++ r) = r.
Proof. rewrite <-(length_reverse l). apply drop_app_length. Qed.

Lemma insertRune_edits r e m :
  edits e m → ∃ m', insertRune r m = Some m' ∧ edits (ed_type r e) m' ∧ same_chat m m'.
Proof.
  intros Hm. pose proof (edits_runes e m Hm) as Hl. destruct Hm as (Hc & Hn & Hv). unfold insertRune. rewrite Hl, Hn.
  rewrite length_app, length_reverse. replace (_ <? _)%nat with false by (symmetry; apply Nat.ltb_ge; lia).
  eexists; split; [done|]. split; [|done]. destruct e as [before after]; cbn [ed_type fst snd] in *.
  rewrite take_reverse_app, drop_reverse_app. split_and!; cbn [ch_composer ch_cursor set_composer ed_type fst snd]; [|done|].
  - rewrite reverse_cons, <-(assoc_L (++)). cbn [app]. rewrite <-(of_runes_normal (_ ++ r :: _)), <-(of_runes_normal (_ ++ normal r :: _)).
    f_equal. rewrite !fmap_app. f_equal. cbn [fmap list_fmap]. by rewrite (normal_id (normal r)) by apply normal_valid.
  - constructor; [apply normal_valid|done].
Qed.

Lemma same_chat_trans m1 m2 m3 : same_chat m1 m2 → same_chat m2 m3 → same_chat m1 m3.
Proof. unfold same_chat. congruence. Qed.

Lemma insert_runes_edits l e m :
  edits e m → ∃ m', insert_runes l m = Some m' ∧ edits (foldl (λ e r, ed_type r e) e l) m' ∧ same_chat m m'.
Proof.
  revert e m; induction l as [|r l IH]; intros e m Hm; [by exists m|].
  destruct (insertRune_edits r e m Hm) as (m1 & H1 & E1 & S1). destruct (IH _ _ E1) as (m2 & H2 & E2 & S2).
  exists m2. cbn [insert_runes foldl]. rewrite H1. split_and!; [done..|]. by eapply same_chat_trans.
Qed.

Lemma handleComposerKey_edits key e m :
  edits e m → ∃ m', handleComposerKey key m = Some m' ∧ edits (ed_key key e) m' ∧ same_chat m m'.
Proof.
  intros Hm. unfold handleComposerKey, ed_key. destruct (key_Type key) eqn:Ht.
  - destruct (_ || _); [by exists m|]. by apply insert_runes_edits.
  - destruct (key_Alt key); [by apply insertRune_edits|by exists m].
  - by exists m.
  - unfold backspace. pose proof (edits_runes e m Hm) as Hl. destruct e as [[|r before] after]; cbn [fst snd] in *.
    + pose proof Hm as (_ & -> & _). by exists m.
    + pose proof Hm as (_ & Hn & Hv). cbn [fst snd length] in Hn, Hv. rewrite Hn, Hl, length_app, length_reverse. cbn [length].
      replace (_ <? _)%nat with false by (symmetry; apply Nat.ltb_ge; lia).
      eexists; split; [done|]. split; [|done]. split_and!; cbn [ch_composer ch_cursor set_composer ed_type fst snd]; [|done|].
      * rewrite reverse_cons, <-(assoc_L (++)), take_reverse_app. f_equal. f_equal.
        rewrite <-(length_reverse before). rewrite drop_app. rewrite drop_ge by lia.
        by replace (S (length (reverse before)) - length (reverse before)) with 1 by lia.
      * by apply Forall_cons in Hv as [_ Hv].
  - unfold moveCursorLeft. destruct e as [[|r before] after]; pose proof Hm as (Hc & Hn & Hv); cbn [fst snd length] in *.
    + eexists; split; [done|]. split; [|done]. rewrite Hn. destruct m; simpl in *; subst. done.
    + eexists; split; [done|]. split; [|done]. rewrite Hn. split_and!; cbn [ch_composer ch_cursor set_composer ed_type fst snd]; [|done|].
      * by rewrite Hc, reverse_cons, <-(assoc_L (++)).
      * cbn [app] in Hv. apply Forall_cons in Hv as [? Hv]. apply Forall_app in Hv as [? ?]. apply Forall_app. split; [done|by constructor].
  - unfold moveCursorRight. pose proof (edits_runes e m Hm) as Hl. pose proof Hm as (Hc & Hn & Hv). rewrite Hl, Hn, length_app, length_reverse.
    destruct e as [before [|r after]]; cbn [fst snd length] in *.
    + replace (_ <? _)%nat with false by (symmetry; apply Nat.ltb_ge; lia). exists m. split_and!; [done| |done]. by destruct before.
    + replace (_ <? _)%nat with true by (symmetry; apply Nat.ltb_lt; lia). eexists; split; [done|]. split; [|done].
      replace (match before with [] | _ => (r :: before, after) end) with (r :: before, after) by by destruct before.
      split_and!; cbn [ch_composer ch_cursor set_composer ed_type fst snd]; [|done|].
      * by rewrite Hc, reverse_cons, <-(assoc_L (++)).
      * apply Forall_app in Hv as [? Hv]. apply Forall_cons in Hv as [? ?]. cbn [app]. constructor; [done|]. by apply Forall_app.
  - by apply insertRune_edits.
  - by apply insertRune_edits.
  - by exists m.
Qed.

Fixpoint type_keys (keys : list KeyMsg) (m : chatModel) : option chatModel :=
  match keys with [] => Some m | key :: keys => handleComposerKey key m ≫= type_keys keys end.

(** C36. Whatever keys are pressed, with whatever runes, the composer is a text editor: it never
    slices out of bounds, its text and cursor are those of the reference, and the rest of the
    pane stays as it is. *)
Theorem composer_is_a_text_editor keys e m (Hm : edits e m) :
  ∃ m', type_keys keys m = Some m' ∧ edits (foldl (λ e key, ed_key key e) e keys) m' ∧ same_chat m m'.
Proof.
  revert e m Hm; induction keys as [|key keys IH]; intros e m Hm; [by exists m|].
  destruct (handleComposerKey_edits key e m Hm) as (m1 & H1 & E1 & S1). destruct (IH _ _ E1) as (m2 & H2 & E2 & S2).
  exists m2. cbn [type_keys foldl]. rewrite H1. split_and!; [done..|]. by eapply same_chat_trans.
Qed.

(** ** The transcript *)

(** What the user has said, which no event may change. *)
Definition said (m : chatModel) : list string :=
  omap (λ e, match te_Role e with chatRoleUser => Some (te_Text e) | chatRoleAssistant => None end) (ch_transcript m).

Definition is_reply (e : chatTranscriptEntry) : Prop := te_Role e = chatRoleAssistant.

(** The entry that streams is a reply, and a request that streams has one. *)
Definition chat_ok (m : chatModel) : Prop :=
  (streams m = true → ∃ e, ch_transcript m !! streaming_at m = Some e ∧ is_reply e)
  ∧ (ch_state m = chatStreaming → streams m = true).

Lemma streams_last l m :
  ch_transcript m = l → ch_streamingIndex m = (Z.of_nat (length l) - 1)%Z → l ≠ [] → streams m = true ∧ streaming_at m = pred (length l).
Proof.
  intros Hl Hi Hne. destruct l as [|x l]; [done|]. cbn [length] in Hi. unfold streams, streaming_at. rewrite Hl, Hi. cbn [length].
  split; [apply andb_true_intro; split; [apply Z.leb_le|apply Z.ltb_lt]; lia|lia].
Qed.

Lemma open_entry_ok m :
  let m' := open_entry m in
  streams m' = true ∧ streaming_at m' = length (ch_transcript m)
  ∧ ch_transcript m' !! streaming_at m' = Some (mkEntry chatRoleAssistant "" false) ∧ said m' = said m.
Proof.
  cbv zeta. assert (streaming_at (open_entry m) = length (ch_transcript m)) as Hat by (unfold streaming_at; simpl; lia).
  split_and!.
  - unfold streams. simpl. rewrite length_app. simpl. apply andb_true_intro; split; [apply Z.leb_le|apply Z.ltb_lt]; lia.
  - done.
  - rewrite Hat. apply list_lookup_middle. done.
  - unfold said. simpl. rewrite omap_app. simpl. apply app_nil_r.
Qed.

Lemma alter_said f i m :
  (∀ e, te_Role (f e) = te_Role e) → (∀ e, ch_transcript m !! i = Some e → is_reply e) →
  said (set_transcript (alter f i (ch_transcript m)) m) = said m.
Proof.
  unfold said. cbn [ch_transcript set_transcript]. intros Hf. generalize (ch_transcript m). clear m.
  intros l; revert i; induction l as [|x l IH]; intros [|i] Hi; [done|done|..]; cbn [alter list_alter omap list_omap].
  - rewrite Hf. by rewrite (Hi x).
  - destruct (te_Role x); [f_equal|]; apply IH; intros e He; by apply (Hi e).
Qed.

Lemma insert_said e i m :
  is_reply e → (∀ e, ch_transcript m !! i = Some e → is_reply e) → said (set_transcript (<[i := e]> (ch_transcript m)) m) = said m.
Proof.
  unfold said. cbn [ch_transcript set_transcript]. intros He. generalize (ch_transcript m). clear m.
  intros l; revert i; induction l as [|x l IH]; intros [|i] Hi; [done|done|..]; cbn [insert list_insert omap list_omap].
  - by rewrite He, (Hi x).
  - destruct (te_Role x); [f_equal|]; apply IH; intros e' He'; by apply (Hi e').
Qed.

Lemma delete_said i m :
  (∀ e, ch_transcript m !! i = Some e → is_reply e) → said (set_transcript (delete i (ch_transcript m)) m) = said m.
Proof.
  unfold said. cbn [ch_transcript set_transcript]. generalize (ch_transcript m). clear m.
  intros l; revert i; induction l as [|x l IH]; intros [|i] Hi; [done|done|..]; cbn [delete list_delete omap list_omap].
  - by rewrite (Hi x).
  - destruct (te_Role x); [f_equal|]; apply IH; intros e He; by apply (Hi e).
Qed.

Lemma onRoute_ok provider model m : chat_ok m → chat_ok (onRoute provider model m) ∧ said (onRoute provider model m) = said m.
Proof.
  intros Hm. unfold onRoute. cbv zeta. destruct (_ && _); [by split|].
  pose proof (open_entry_ok (set_request chatStreaming (ch_activeRequestID (set_selected provider model m))
    (ch_streamingIndex (set_selected provider model m)) (set_selected provider model m))) as (Hs & _ & He & Hd).
  split; [|done]. split; [|done]. intros _. by eexists.
Qed.

Lemma onDelta_ok text m : chat_ok m → chat_ok (onDelta text m) ∧ said (onDelta text m) = said m.
Proof.
  intros [Hm1 Hm2]. unfold onDelta. cbv zeta.
  assert (∃ m1, (if streams m then m else open_entry m) = m1 ∧ streams m1 = true ∧ said m1 = said m
    ∧ ∃ e, ch_transcript m1 !! streaming_at m1 = Some e ∧ is_reply e) as (m1 & -> & Hs & Hd & e & He & Hr).
  { destruct (streams m) eqn:E; [by exists m; split_and!; [..|apply Hm1]|].
    destruct (open_entry_ok m) as (? & _ & ? & ?). exists (open_entry m). split_and!; [done..|]. by eexists. }
  assert (streams (set_transcript (alter (add_text text) (streaming_at m1) (ch_transcript m1)) m1) = true) as Hs'.
  { unfold streams in *. cbn [ch_streamingIndex ch_transcript set_transcript]. by rewrite length_alter. }
  split; [split|].
  - intros _. exists (add_text text e). split; [|done]. cbn [ch_transcript set_transcript streaming_at ch_streamingIndex].
    change (streaming_at (set_transcript (alter (add_text text) (streaming_at m1) (ch_transcript m1)) m1)) with (streaming_at m1).
    by rewrite list_lookup_alter_eq, He.
  - done.
  - rewrite alter_said, Hd; [done|done|]. intros e' He'. rewrite He in He'. by injection He' as <-.
Qed.

Lemma finishRequest_ok interrupted m : chat_ok (finishRequest interrupted m) ∧ said (finishRequest interrupted m) = said m.
Proof. by destruct interrupted. Qed.

Lemma onError_ok interrupted message m :
  chat_ok m → chat_ok (onError interrupted message m) ∧ said (onError interrupted message m) = said m.
Proof.
  intros [Hm _]. unfold onError. cbv zeta.
  match goal with |- chat_ok (finishRequest _ (set_lastError _ ?x)) ∧ _ => assert (said x = said m) as Hx end.
  2:{ split; [apply finishRequest_ok|]. rewrite (proj2 (finishRequest_ok _ _)). exact Hx. }
  destruct (ch_transcript m !! streaming_at m) as [e|] eqn:He; [|done].
  destruct (streams m) eqn:E; cbn [negb]; [|done]. destruct (Hm eq_refl) as (e' & He' & Hr). injection He' as <-.
  assert (∀ e', ch_transcript m !! streaming_at m = Some e' → is_reply e') as Hall by (intros e'; rewrite He; by intros [= <-]).
  destruct (_ && _); [by apply delete_said|by apply insert_said].
Qed.

(** *** A reply *)

Inductive piece := PRoute (provider model : string) | PText (text : string).
Definition show_piece (m : chatModel) (p : piece) : chatModel :=
  match p with PRoute provider model => onRoute provider model m | PText text => onDelta text m end.
Definition text_of (l : list piece) : string := foldr (λ p s, match p with PText text => text +:+ s | PRoute _ _ => s end) "" l.

Lemma show_pieces l before e m :
  ch_transcript m = before ++ [e] → ch_streamingIndex m = Z.of_nat (length before) → ch_state m = chatStreaming →
  let m' := foldl show_piece m l in
  ch_transcript m' = before ++ [add_text (text_of l) e] ∧ ch_streamingIndex m' = Z.of_nat (length before) ∧ ch_state m' = chatStreaming.
Proof.
  revert e m; induction l as [|p l IH]; intros e m Ht Hi Hs; cbn [foldl text_of foldr].
  - split_and!; [|done..]. rewrite Ht. unfold add_text. rewrite str_app_nil_r. by destruct e.
  - assert (streams m = true) as Hst.
    { unfold streams. rewrite Ht, Hi, length_app. simpl. apply andb_true_intro; split; [apply Z.leb_le|apply Z.ltb_lt]; lia. }
    destruct p as [provider model|text]; cbn [show_piece].
    + unfold onRoute. cbv zeta. rewrite bool_decide_true by done.
      replace (streams (set_selected provider model m)) with (streams m) by done. rewrite Hst. cbn [andb]. by apply IH.
    + unfold onDelta. rewrite Hst. cbv zeta.
      destruct (IH (add_text text e) (set_transcript (alter (add_text text) (streaming_at m) (ch_transcript m)) m)) as (H1 & H2 & H3).
      * cbn [ch_transcript set_transcript]. unfold streaming_at. rewrite Ht, Hi, Nat2Z.id. by rewrite alter_app_r_alt, Nat.sub_diag by done.
      * done.
      * done.
      * split_and!; [|done..]. rewrite H1. unfold add_text. cbn [te_Role te_Text te_Interrupted]. by rewrite str_app_assoc.
Qed.

(** What has come of a reply when it ends: the pieces of text put together, after a route. *)
Lemma reply_shown provider model l m :
  ch_state m = chatAwaitingRoute → streams m = false →
  let m' := foldl show_piece m (PRoute provider model :: l) in
  ch_transcript m' = ch_transcript m ++ [mkEntry chatRoleAssistant (text_of l) false]
  ∧ ch_streamingIndex m' = Z.of_nat (length (ch_transcript m)) ∧ ch_state m' = chatStreaming.
Proof.
  intros Hs Hst. cbn [foldl show_piece]. unfold onRoute. cbv zeta.
  rewrite (bool_decide_false (ch_state (set_selected provider model m) = chatStreaming)) by (cbn [ch_state set_selected]; by rewrite Hs).
  cbn [andb]. apply (show_pieces l (ch_transcript m) (mkEntry chatRoleAssistant "" false)); done.
Qed.

Lemma onDone_spec m : ch_transcript (onDone m) = ch_transcript m ∧ ch_state (onDone m) = chatIdle ∧ ch_lastError (onDone m) = "".
Proof. done. Qed.

Lemma onError_spec interrupted message before text m :
  ch_transcript m = before ++ [mkEntry chatRoleAssistant text false] → ch_streamingIndex m = Z.of_nat (length before) →
  let m' := onError interrupted message m in
  ch_transcript m' = before ++ (if String.eqb text "" && negb interrupted then [] else [mkEntry chatRoleAssistant text interrupted])
  ∧ ch_state m' = chatIdle ∧ ch_lastError m' = message.
Proof.
  intros Ht Hi. unfold onError. cbv zeta. assert (streaming_at m = length before) as Hat by (unfold streaming_at; rewrite Hi; lia).
  assert (streams m = true) as Hst.
  { unfold streams. rewrite Ht, Hi, length_app. simpl. apply andb_true_intro; split; [apply Z.leb_le|apply Z.ltb_lt]; lia. }
  rewrite Hat, Ht, list_lookup_middle, Hst by done. cbn [negb te_Text te_Role].
  destruct (_ && _); (split; [|by destruct interrupted]).
  - transitivity (delete (length before) (before ++ [mkEntry chatRoleAssistant text false])); [by destruct interrupted|].
    by rewrite delete_middle.
  - transitivity (<[length before := mkEntry chatRoleAssistant text interrupted]> (before ++ [mkEntry chatRoleAssistant text false]));
      [by destruct interrupted|].
    rewrite insert_app_r_alt, Nat.sub_diag by done. done.
Qed.

Lemma onError_nothing message m :
  streams m = false → ch_transcript (onError false message m) = ch_transcript m ∧ ch_state (onError false message m) = chatIdle
  ∧ ch_lastError (onError false message m) = message.
Proof.
  intros Hs. unfold onError. cbv zeta. rewrite Hs. cbn [negb]. by destruct (ch_transcript m !! _).
Qed.

Module ExampleChatPane.

Definition typed (s : string) : KeyMsg := mkKey KeyRunes (runes s) false false.
Definition pasted (s : string) : KeyMsg := mkKey KeyRunes (runes s) false true.
Definition press (t : key_type) : KeyMsg := mkKey t [] false false.

Definition some_keys : list KeyMsg :=
  [typed "hello"; press KeyLeft; press KeyBackspace; mkKey KeyRunes [233; 55296]%Z false false; press KeyRight; press KeyRight;
   press KeySpace; mkKey KeyEnter [] true false; pasted "gone"; press KeyEsc].

Lemma composer_is_a_text_editor_witness :
  ∃ m', type_keys some_keys newChatModel = Some m' ∧ edits ([10; 32; 111; RuneError; 233; 108; 101; 104]%Z, []) m' ∧ same_chat newChatModel m'.
Proof. exact (composer_is_a_text_editor some_keys ([], []) newChatModel ltac:(split_and!; [reflexivity|reflexivity|constructor])). Defined.

(** Pasted text is dropped without a word, and so is a multi-line message that is pasted. *)
Example pasted_text_is_lost : type_keys [typed "a"; pasted "b"] newChatModel = type_keys [typed "a"] newChatModel.
Proof. vm_compute. reflexivity. Qed.

Definition sent : chatModel := set_request chatAwaitingRoute "chat-1" (-1) (set_transcript [mkEntry chatRoleUser "hi" false] newChatModel).

Example replies :
  let reply := foldl show_piece sent [PRoute "codex" "gpt-5"; PText "hel"; PRoute "kilo" "free"; PText "lo"] in
  ch_transcript (onDone reply) = [mkEntry chatRoleUser "hi" false; mkEntry chatRoleAssistant "hello" false]
  ∧ ch_transcript (onError true "connection lost" reply) = [mkEntry chatRoleUser "hi" false; mkEntry chatRoleAssistant "hello" true]
  ∧ ch_transcript (onError false "busy" (onRoute "codex" "gpt-5" sent)) = [mkEntry chatRoleUser "hi" false]
  ∧ ch_lastError (onError false "busy" sent) = "busy" ∧ ch_selectedProvider reply = "kilo".
Proof. vm_compute. split_and!; reflexivity. Qed.

End ExampleChatPane.
