(* ===== verification/Dashboard.v ===== *)
(** * The dashboard of the terminal client

    [src/src/client_dashboard_model.go], [client_dashboard_actions.go] and
    [client_dashboard_data.go]: what the dashboard shows of the daemon, its modes, and what a
    key makes it ask of the daemon.  The commands the program returns to the terminal library
    are data here ([cmd]), an action among them being the request it is to make; [run_action]
    and [loadDashboard] are what the library then runs, against the answers of the daemon.

    [keyString] is the name the terminal library gives a key ([KeyMsg.String]), [isPrint] the
    table of printable runes of [unicode]. *)

From S2P Require Import Prelude GoStd Config Provider Writers State Mutations Operation Secrets ReadModel Client ClientCli ChatPane.

#[local] Set Default Proof Using "Type".

(** ** What is shown *)

(** The state that the daemon pushes, as it is read back. *)
(* src/internal/control/ws_state.go ProviderStateView *)
Record live_provider := mkLiveProvider { lp_Provider : string; lp_State : string }.
(* src/internal/control/ws_state.go RoutingTargetView *)
Record live_target := mkLiveTarget { lt_Target : string; lt_Routable : bool; lt_Reason : string }.
(* src/internal/control/ws_state.go RoutingStateView *)
Record live_routing := mkLiveRouting { lr_VirtualModel : string; lr_SelectedTarget : string; lr_Targets : list live_target }.
(* src/internal/control/ws_state.go UsageView *)
(* src/internal/control/ws_state.go TargetCountersView *)
Record live_counters := mkLiveCounters {
  lk_Provider : string; lk_Model : string; lk_Requests : Z; lk_Successes : Z; lk_Errors : Z; lk_InFlight : Z; lk_Messages : Z;
  lk_LastLatencyMillis : Z; lk_LastErrorCategory : string; lk_TotalTokens : Z; lk_Unavailable : bool;
}.
(* src/internal/control/ws_state.go WSStatePayload *)
Record live_state := mkLiveState {
  ls_ConfigRevision : Z; ls_Providers : list live_provider; ls_Routing : list live_routing; ls_Counters : list live_counters;
}.
Definition no_state : live_state := mkLiveState 0 [] [] [].

(** Of the answer of the meta route, what the dashboard shows. *)
(* src/internal/control/meta.go MetaResponse *)
Record MetaResponse := mkMeta { mt_ServiceVersion : string; mt_DeploymentMode : string }.
Definition no_meta : MetaResponse := mkMeta "" "".

(* src/src/client_dashboard_model.go dashboardSnapshot *)
Record dashboardSnapshot := mkDashSnapshot {
  dn_meta : MetaResponse; dn_providers : list ProviderResource; dn_accounts : list AccountResource; dn_models : list ProviderCatalog;
  dn_config : option ConfigResource; dn_routing : option RoutingStatusResource; dn_operations : list Record_;
  dn_events : list EventBus.LifecycleEvent; dn_secrets : list Metadata; dn_wsState : live_state;
}.
Definition no_snapshot : dashboardSnapshot := mkDashSnapshot no_meta [] [] [] None None [] [] [] no_state.

(** The zero configuration resource, [None], has revision 0. *)
Definition shown_revision (s : dashboardSnapshot) : Z := from_option cv_Revision 0%Z (dn_config s).

Definition set_wsState (state : live_state) (s : dashboardSnapshot) : dashboardSnapshot :=
  mkDashSnapshot (dn_meta s) (dn_providers s) (dn_accounts s) (dn_models s) (dn_config s) (dn_routing s) (dn_operations s)
    (dn_events s) (dn_secrets s) state.

(* src/src/client_dashboard_model.go dashboardMode *)
(* src/src/client_dashboard_model.go dashboardMainMode *)
Inductive dashboardMode := dashboardMainMode | dashboardPaletteMode | dashboardConfirmMode | dashboardSecretMode.
#[export] Instance dashboardMode_eq : EqDecision dashboardMode.
Proof. solve_decision. Defined.

(** The request of an action. *)
Inductive dashboard_action :=
| AToggle (request : MutationRequest)
| AStartAuth (provider method : string)
| ACancelAuth (id : string)
| ASetSecret (slot value : string).

(** Commands: a load of the snapshot, the next tick, an action, waiting for the next event
    of the connection, or the end; the list is a batch. *)
Inductive cmd := CLoad (refresh : bool) | CTick | CAct (a : dashboard_action) | CWait | CQuit.

(* src/src/client_dashboard_model.go dashboardModel *)
Record dashboardModel := mkDash {
  dm_snapshot : dashboardSnapshot; dm_mode : dashboardMode; dm_selectedProvider : Z; dm_width : Z; dm_height : Z; dm_connected : bool;
  dm_status : string; dm_confirm : string; dm_confirmSecret : bool; dm_pending : option dashboard_action; dm_secretSlot : string;
  dm_secretValue : string;
}.

Definition connecting : string := "Connecting to daemon...".

(* src/src/client_dashboard_model.go newDashboardModel *)
Definition newDashboardModel : dashboardModel :=
  mkDash no_snapshot dashboardMainMode 0 0 0 false connecting "" false None "" "".

Definition dm_set_snapshot (s : dashboardSnapshot) (m : dashboardModel) : dashboardModel :=
  mkDash s (dm_mode m) (dm_selectedProvider m) (dm_width m) (dm_height m) (dm_connected m) (dm_status m) (dm_confirm m)
    (dm_confirmSecret m) (dm_pending m) (dm_secretSlot m) (dm_secretValue m).
Definition dm_set_mode (mode : dashboardMode) (m : dashboardModel) : dashboardModel :=
  mkDash (dm_snapshot m) mode (dm_selectedProvider m) (dm_width m) (dm_height m) (dm_connected m) (dm_status m) (dm_confirm m)
    (dm_confirmSecret m) (dm_pending m) (dm_secretSlot m) (dm_secretValue m).
Definition dm_select (i : Z) (m : dashboardModel) : dashboardModel :=
  mkDash (dm_snapshot m) (dm_mode m) i (dm_width m) (dm_height m) (dm_connected m) (dm_status m) (dm_confirm m)
    (dm_confirmSecret m) (dm_pending m) (dm_secretSlot m) (dm_secretValue m).
Definition dm_resize (width height : Z) (m : dashboardModel) : dashboardModel :=
  mkDash (dm_snapshot m) (dm_mode m) (dm_selectedProvider m) width height (dm_connected m) (dm_status m) (dm_confirm m)
    (dm_confirmSecret m) (dm_pending m) (dm_secretSlot m) (dm_secretValue m).
Definition dm_set_status (connected : bool) (status : string) (m : dashboardModel) : dashboardModel :=
  mkDash (dm_snapshot m) (dm_mode m) (dm_selectedProvider m) (dm_width m) (dm_height m) connected status (dm_confirm m)
    (dm_confirmSecret m) (dm_pending m) (dm_secretSlot m) (dm_secretValue m).
Definition dm_say (status : string) (m : dashboardModel) : dashboardModel := dm_set_status (dm_connected m) status m.
Definition dm_ask (confirm : string) (confirmSecret : bool) (pending : option dashboard_action) (m : dashboardModel) : dashboardModel :=
  mkDash (dm_snapshot m) (dm_mode m) (dm_selectedProvider m) (dm_width m) (dm_height m) (dm_connected m) (dm_status m) confirm
    confirmSecret pending (dm_secretSlot m) (dm_secretValue m).
Definition dm_set_secret (slot value : string) (m : dashboardModel) : dashboardModel :=
  mkDash (dm_snapshot m) (dm_mode m) (dm_selectedProvider m) (dm_width m) (dm_height m) (dm_connected m) (dm_status m) (dm_confirm m)
    (dm_confirmSecret m) (dm_pending m) slot value.

(** ** Selection *)

(* src/src/client_dashboard_actions.go dashboardModel.clampSelection *)
Definition clampSelection (m : dashboardModel) : dashboardModel :=
  let n := Z.of_nat (length (dn_providers (dm_snapshot m))) in
  if (n =? 0)%Z then dm_select 0 m
  else
    let i := if (dm_selectedProvider m <? 0)%Z then (n - 1)%Z else dm_selectedProvider m in
    dm_select (if (n <=? i)%Z then 0 else i) m.

(* src/src/client_dashboard_actions.go dashboardModel.currentProvider *)
Definition currentProvider (m : dashboardModel) : option ProviderResource :=
  if (dm_selectedProvider m <? 0)%Z || (Z.of_nat (length (dn_providers (dm_snapshot m))) <=? dm_selectedProvider m)%Z then None
  else dn_providers (dm_snapshot m) !! Z.to_nat (dm_selectedProvider m).

Definition provider_id (p : ProviderResource) : string := Descriptor.d_ID (pv_Descriptor p).

(** ** Actions *)

Definition toggle_request (p : ProviderResource) (revision : Z) : MutationRequest :=
  mkRequest MutationProviderEnabled revision false (provider_id p) (Some (negb (pv_Enabled p))) "" "" [] "".

Definition toggle_question (p : ProviderResource) : string :=
  if pv_Enabled p then "Disable the selected provider? Existing requests will drain safely." else "Enable the selected provider?".

(** The function it keeps reads the revision from the copy of the model that it was made
    in, which nothing changes afterwards. *)
(* src/src/client_dashboard_actions.go dashboardModel.prepareToggle *)
Definition prepareToggle (m : dashboardModel) : dashboardModel :=
  match currentProvider m with
  | None => dm_say "Choose a provider first." m
  | Some p =>
    dm_ask (toggle_question p) false (Some (AToggle (toggle_request p (shown_revision (dm_snapshot m)))))
      (dm_set_mode dashboardConfirmMode m)
  end.

(* src/src/client_dashboard_actions.go dashboardModel.startAuth *)
Definition startAuth (m : dashboardModel) : list cmd :=
  match currentProvider m with
  | None => []
  | Some p => [CAct (AStartAuth (provider_id p) (if String.eqb (provider_id p) "kilo" then "anonymous" else "device_code"))]
  end.

Definition can_cancel (r : Record_) : bool := r_Cancelable r && negb (Operation.Terminal (r_State r)).

(* src/src/client_dashboard_actions.go dashboardModel.cancelAuth *)
Definition cancelAuth (m : dashboardModel) : dashboardModel * list cmd :=
  match List.find can_cancel (dn_operations (dm_snapshot m)) with
  | Some r => (m, [CAct (ACancelAuth (r_ID r))])
  | None => (dm_say "No cancelable authentication operation." m, [])
  end.

Definition api_key_providers : list string := ["codex"; "kilo"].
Definition api_key_slot (id : string) : string := id +:+ "/api_key".

(* src/src/client_dashboard_actions.go dashboardModel.prepareSecret *)
Definition prepareSecret (m : dashboardModel) : dashboardModel :=
  match currentProvider m with
  | Some p =>
    if negb (bool_decide (provider_id p ∈ api_key_providers)) then dm_say "API-key entry is available for Codex or Kilo." m
    else
      let slot := api_key_slot (provider_id p) in
      let m := dm_set_secret slot (dm_secretValue m) (dm_ask (dm_confirm m) false (dm_pending m) m) in
      if existsb (λ item, String.eqb (md_ID item) slot && md_Configured item) (dn_secrets (dm_snapshot m))
      then dm_set_mode dashboardConfirmMode (dm_ask "Replace the existing provider credential?" true (dm_pending m) m)
      else dm_set_mode dashboardSecretMode m
  | None => dm_say "API-key entry is available for Codex or Kilo." m
  end.

(* src/src/client_dashboard_actions.go dashboardModel.clearSecret *)
Definition clearSecret (m : dashboardModel) : dashboardModel := dm_set_secret "" "" m.

(** ** Messages *)

Inductive dashboard_msg :=
| MWindow (width height : Z)
| MLoaded (snapshot : dashboardSnapshot) (failed : bool)
| MAction (failed : bool)
| MTick
| MKey (key : KeyMsg)
| MOther.

Section keys.
Context (keyString : KeyMsg → string) (isPrint : Z → bool).

(* src/src/client_dashboard_actions.go dashboardModel.handleSecretKey *)
Definition handleSecretKey (key : KeyMsg) (m : dashboardModel) : dashboardModel * list cmd :=
  let name := keyString key in
  if String.eqb name "esc" then (dm_say "Secret entry cancelled." (dm_set_mode dashboardPaletteMode (clearSecret m)), [])
  else if String.eqb name "enter" then
    if negb (String.eqb (dm_secretValue m) "")
    then (dm_set_mode dashboardPaletteMode (clearSecret m), [CAct (ASetSecret (dm_secretSlot m) (dm_secretValue m))])
    else (m, [])
  else if String.eqb name "backspace" then
    let l := runes (dm_secretValue m) in
    ((match l with [] => m | _ => dm_set_secret (dm_secretSlot m) (of_runes (take (length l - 1) l)) m end), [])
  else match key_Type key with
  | KeyRunes =>
    if key_Alt key || key_Paste key then (m, [])
    else (dm_set_secret (dm_secretSlot m)
            (foldl (λ v r, if isPrint r && negb (r =? 10)%Z && negb (r =? 13)%Z then v +:+ encode_rune r else v)
               (dm_secretValue m) (key_Runes key)) m, [])
  | _ => (m, [])
  end.

(* src/src/client_dashboard_model.go dashboardModel.handleConfirmKey *)
Definition handleConfirmKey (key : KeyMsg) (m : dashboardModel) : dashboardModel * list cmd :=
  let name := keyString key in
  if String.eqb name "y" then
    if dm_confirmSecret m then (dm_set_mode dashboardSecretMode (dm_ask (dm_confirm m) false None m), [])
    else (dm_set_mode dashboardPaletteMode (dm_ask (dm_confirm m) (dm_confirmSecret m) None m), from_option (λ a, [CAct a]) [] (dm_pending m))
  else if String.eqb name "n" || String.eqb name "esc"
  then (dm_say "Action cancelled." (dm_ask (dm_confirm m) (dm_confirmSecret m) None (dm_set_mode dashboardPaletteMode m)), [])
  else (m, []).

(** Go leaves open whether [return model, model.cancelAuth()] reads [model] before or
    after the call; here it is after, as the compiler does. *)
(* src/src/client_dashboard_model.go dashboardModel.handlePaletteKey *)
Definition handlePaletteKey (key : KeyMsg) (m : dashboardModel) : dashboardModel * list cmd :=
  let name := keyString key in
  if String.eqb name "esc" || String.eqb name "a" then (dm_set_mode dashboardMainMode m, [])
  else if String.eqb name "up" || String.eqb name "k" then (clampSelection (dm_select (dm_selectedProvider m - 1) m), [])
  else if String.eqb name "down" || String.eqb name "j" then (clampSelection (dm_select (dm_selectedProvider m + 1) m), [])
  else if String.eqb name "r" then (dm_say "Reconnecting..." m, [CLoad false])
  else if String.eqb name "m" then (dm_say "Refreshing provider catalogs..." m, [CLoad true])
  else if String.eqb name "e" then (prepareToggle m, [])
  else if String.eqb name "c" then let m := dm_say "Starting authentication operation..." m in (m, startAuth m)
  else if String.eqb name "x" then cancelAuth m
  else if String.eqb name "p" then (prepareSecret m, [])
  else (m, []).

(* src/src/client_dashboard_model.go dashboardModel.handleKey *)
Definition dm_handleKey (key : KeyMsg) (m : dashboardModel) : dashboardModel * list cmd :=
  let name := keyString key in
  if String.eqb name "ctrl+c" || (String.eqb name "q" && negb (bool_decide (dm_mode m = dashboardSecretMode))) then (m, [CQuit])
  else match dm_mode m with
  | dashboardSecretMode => handleSecretKey key m
  | dashboardConfirmMode => handleConfirmKey key m
  | dashboardPaletteMode => handlePaletteKey key m
  | dashboardMainMode =>
    if String.eqb name "a" then (dm_say "Action palette open." (dm_set_mode dashboardPaletteMode m), [])
    else if String.eqb name "r" then (dm_say "Reconnecting..." m, [CLoad false])
    else (m, [])
  end.

(** A load keeps the state that was pushed meanwhile. *)
(* src/src/client_dashboard_model.go dashboardModel.Update *)
Definition dm_Update (message : dashboard_msg) (m : dashboardModel) : dashboardModel * list cmd :=
  match message with
  | MWindow width height => (dm_resize width height m, [])
  | MLoaded snapshot failed =>
    if failed then (dm_set_status false "Daemon unavailable; press r to reconnect." m, [])
    else
      let m := dm_set_snapshot (set_wsState (dn_wsState (dm_snapshot m)) snapshot) m in
      let status := if String.eqb (dm_status m) connecting || negb (HasPrefix (dm_status m) "Action") then "Connected." else dm_status m in
      (clampSelection (dm_set_status true status m), [])
  | MAction failed =>
    (dm_say (if failed then "Action was not applied; state reloaded." else "Action accepted; state refreshed.") m, [CLoad false])
  | MTick => (m, [CLoad false; CTick])
  | MKey key => dm_handleKey key m
  | MOther => (m, [])
  end.

(* src/src/client_dashboard_model.go dashboardModel.Init *)
Definition dm_Init : list cmd := [CLoad false; CTick].

Definition dm_run (l : list dashboard_msg) : dashboardModel := foldl (λ m msg, (dm_Update msg m).1) newDashboardModel l.

End keys.

(** ** What commands do

    The answers of the daemon at the times of the calls. *)

(* src/src/client_dashboard.go dashboardBackend *)
Record dashboardBackend := mkBackend {
  db_Meta : result MetaResponse client_error; db_Providers : result (list ProviderResource) client_error;
  db_Accounts : result (list AccountResource) client_error; db_Models : bool → result (list ProviderCatalog) client_error;
  db_Configuration : result ConfigResource client_error; db_RoutingStatus : result RoutingStatusResource client_error;
  db_Operations : result (list Record_) client_error; db_Events : result (list EventBus.LifecycleEvent) client_error;
  db_Secrets : result (list Metadata) client_error; db_ApplyMutation : MutationRequest → result unit client_error;
  db_CreateAuthSession : string → string → result unit client_error; db_CancelAuthSession : string → result unit client_error;
  db_SetSecret : string → string → result unit client_error;
}.

Definition is_404 (e : client_error) : bool := match e with APIFailed e => (ap_Status e =? 404)%Z | _ => false end.

(** Without an umbrella model the daemon has no routing status: that 404 is no failure.
    A failed load is only a failure to its caller, so the model drops what it had read. *)
(* src/src/client_dashboard_data.go loadDashboard *)
Definition loadDashboard (b : dashboardBackend) (refresh : bool) : result dashboardSnapshot client_error :=
  match db_Meta b with Err e => Err e | Ok meta =>
  match db_Providers b with Err e => Err e | Ok providers =>
  match db_Accounts b with Err e => Err e | Ok accounts =>
  match db_Models b refresh with Err e => Err e | Ok models =>
  match db_Configuration b with Err e => Err e | Ok config =>
  match (match db_RoutingStatus b with Ok r => Ok (Some r) | Err e => if is_404 e then Ok None else Err e end) with Err e => Err e | Ok routing =>
  match db_Operations b with Err e => Err e | Ok operations =>
  match db_Events b with Err e => Err e | Ok events =>
  match db_Secrets b with Err e => Err e | Ok secrets =>
  Ok (mkDashSnapshot meta providers accounts models (Some config) routing operations events secrets no_state)
  end end end end end end end end end.

Inductive backend_call := BApply (request : MutationRequest) | BCreateAuth (provider method : string) | BCancelAuth (id : string) | BSetSecret (slot value : string).

Definition TrimSuffix (s suffix : string) : string :=
  match strip_prefix (str_rev suffix) (str_rev s) with Some r => str_rev r | None => s end.

Definition after_ok {A} (calls : list backend_call) (r : result unit client_error) (next : list backend_call * A) (failed : client_error → A)
    : list backend_call * A :=
  match r with Ok _ => (calls ++ next.1, next.2) | Err e => (calls, failed e) end.

(** The calls an action makes, in order, and how it ends. *)
(* src/src/client_dashboard_actions.go:20-33 dashboardModel.handleSecretKey *)
(* src/src/client_dashboard_data.go dashboardModel.action *)
Definition run_action (b : dashboardBackend) (a : dashboard_action) : list backend_call * result unit client_error :=
  match a with
  | AToggle request => ([BApply request], db_ApplyMutation b request)
  | AStartAuth provider method => ([BCreateAuth provider method], db_CreateAuthSession b provider method)
  | ACancelAuth id => ([BCancelAuth id], db_CancelAuthSession b id)
  | ASetSecret slot value =>
    let provider := TrimSuffix slot "/api_key" in
    after_ok [BSetSecret slot value] (db_SetSecret b slot value)
      ([BCreateAuth provider "api_key"], db_CreateAuthSession b provider "api_key") Err
  end.

(** The message a command sends back; the others have none of their own. *)
(* src/src/client_dashboard_data.go dashboardModel.load *)
(* src/src/client_dashboard_data.go dashboardTick *)
Definition run_cmd (b : dashboardBackend) (c : cmd) : option dashboard_msg :=
  match c with
  | CLoad refresh => Some (match loadDashboard b refresh with Ok s => MLoaded s false | Err _ => MLoaded no_snapshot true end)
  | CTick => Some MTick
  | CAct a => Some (MAction (negb (is_ok (run_action b a).2)))
  | CWait | CQuit => None
  end.

(** In nanoseconds of [int64]. *)
(* src/src/client_dashboard_data.go dashboardRequestTimeout *)
Definition dashboardRequestTimeout (timeout : Z) : Duration :=
  if (0 <? timeout)%Z then wrap_i64 (wrap_i64 (timeout + 5) * Second) else wrap_i64 (Client.DefaultTimeout + 5 * Second).

(** ** The selection *)

Definition selection_ok (m : dashboardModel) : Prop :=
  let n := Z.of_nat (length (dn_providers (dm_snapshot m))) in
  (dm_selectedProvider m = 0 ∨ 0 <= dm_selectedProvider m < n)%Z.

Lemma clampSelection_ok m : selection_ok (clampSelection m).
Proof.
  unfold clampSelection, selection_ok. cbv zeta. destruct (Z.eqb_spec (Z.of_nat (length (dn_providers (dm_snapshot m)))) 0); [by left|].
  cbn [dm_selectedProvider dm_select dm_snapshot]. destruct (Z.ltb_spec (dm_selectedProvider m) 0);
    [|destruct (Z.leb_spec (Z.of_nat (length (dn_providers (dm_snapshot m)))) (dm_selectedProvider m)); [by left|]].
  - destruct (Z.leb_spec (Z.of_nat (length (dn_providers (dm_snapshot m)))) (Z.of_nat (length (dn_providers (dm_snapshot m))) - 1)); [by left|].
    right. lia.
  - right. lia.
Qed.

Lemma currentProvider_listed m : selection_ok m → dn_providers (dm_snapshot m) ≠ [] → is_Some (currentProvider m).
Proof.
  intros Hs Hne. unfold currentProvider. assert (0 < length (dn_providers (dm_snapshot m))) as Hl by (destruct (dn_providers _); [done|simpl; lia]).
  unfold selection_ok in Hs. cbv zeta in Hs.
  replace (_ || _) with false by (symmetry; apply orb_false_iff; split; [apply Z.ltb_ge|apply Z.leb_gt]; lia).
  apply lookup_lt_is_Some. lia.
Qed.

(** ** What was asked before a change

    [asked l p r]: at some point of the history [l] the toggle of the selected provider was
    chosen, [p] is that provider as it was shown then, and [r] the request made for it. *)

Section history.
Context (keyString : KeyMsg → string) (isPrint : Z → bool).
Local Notation run := (dm_run keyString isPrint).
Local Notation Update := (dm_Update keyString isPrint).

Definition asked (l : list dashboard_msg) (p : ProviderResource) (r : MutationRequest) : Prop :=
  ∃ l1 key l2, l = l1 ++ MKey key :: l2 ∧ keyString key = "e" ∧ dm_mode (run l1) = dashboardPaletteMode
    ∧ currentProvider (run l1) = Some p ∧ r = toggle_request p (shown_revision (dm_snapshot (run l1))).

Definition is_slot (slot : string) : Prop := ∃ p, p ∈ api_key_providers ∧ slot = api_key_slot p.

Record dash_ok (l : list dashboard_msg) (m : dashboardModel) : Prop := {
  ok_selection : selection_ok m;
  ok_pending : ∀ a, dm_pending m = Some a → dm_mode m = dashboardConfirmMode ∧ dm_confirmSecret m = false
    ∧ ∃ r p, a = AToggle r ∧ asked l p r ∧ dm_confirm m = toggle_question p;
  ok_secret : dm_secretValue m ≠ "" → dm_mode m = dashboardSecretMode;
  ok_slot : dm_mode m = dashboardSecretMode ∨ dm_mode m = dashboardConfirmMode ∧ dm_confirmSecret m = true → is_slot (dm_secretSlot m);
}.

Lemma asked_later l x p r : asked l p r → asked (l ++ [x]) p r.
Proof.
  intros (l1 & key & l2 & -> & H). exists l1, key, (l2 ++ [x]). split; [|done]. by rewrite <-(assoc_L (++)).
Qed.

(** A step that changes nothing but what is shown. *)
Definition same_question (m m' : dashboardModel) : Prop :=
  dm_mode m' = dm_mode m ∧ dm_pending m' = dm_pending m ∧ dm_confirm m' = dm_confirm m ∧ dm_confirmSecret m' = dm_confirmSecret m
  ∧ dm_secretSlot m' = dm_secretSlot m ∧ dm_secretValue m' = dm_secretValue m.

Lemma same_question_ok l x m m' : dash_ok l m → same_question m m' → selection_ok m' → dash_ok (l ++ [x]) m'.
Proof.
  intros [_ Hp Hv Hs] (E1 & E2 & E3 & E4 & E5 & E6) Hsel. split; rewrite ?E1, ?E2, ?E3, ?E4, ?E5, ?E6; [done| |done..].
  intros a Ha. destruct (Hp a Ha) as (? & ? & r & p & ? & ? & ?). split_and!; [done..|]. exists r, p. split_and!; [done| |done]. by apply asked_later.
Qed.

Lemma clamp_same m : same_question m (clampSelection m).
Proof. unfold clampSelection. by repeat case_match. Qed.

(** Outside the question, nothing is pending. *)
Lemma nothing_pending l m : dash_ok l m → dm_mode m ≠ dashboardConfirmMode → dm_pending m = None.
Proof. intros [_ Hp _ _] Hm. destruct (dm_pending m) as [a|] eqn:E; [|done]. by destruct (Hp a eq_refl). Qed.

(** A step after which nothing is pending and no secret is typed. *)
Lemma settled_ok l m :
  selection_ok m → dm_pending m = None → dm_secretValue m = "" → dm_mode m = dashboardMainMode ∨ dm_mode m = dashboardPaletteMode → dash_ok l m.
Proof.
  intros Hs Hp Hv Hm. split; [done| | |].
  - by rewrite Hp.
  - by rewrite Hv.
  - intros [E|[E _]]; rewrite E in Hm; by destruct Hm.
Qed.

Lemma no_secret l m : dash_ok l m → dm_mode m ≠ dashboardSecretMode → dm_secretValue m = "".
Proof. intros [_ _ Hv _] Hm. destruct (dm_secretValue m) as [|c s] eqn:E; [done|]. by destruct Hm; apply Hv. Qed.

Lemma prepareToggle_ok l key m :
  m = run l → dash_ok l m → dm_mode m = dashboardPaletteMode → keyString key = "e" → dash_ok (l ++ [MKey key]) (prepareToggle m).
Proof.
  intros Hrun Hm Hmode Hkey. unfold prepareToggle. destruct (currentProvider m) as [p|] eqn:Hp.
  - split; [by apply Hm| | |].
    + intros a [= <-]. split; [done|]. split; [done|]. eexists _, p. split_and!; [done| |done]. exists l, key, []. subst m. by split_and!.
    + cbn [dm_secretValue dm_ask dm_set_mode]. intros Hv. by rewrite (no_secret l m Hm) in Hv by (by rewrite Hmode).
    + intros [E|[_ E]]; discriminate E.
  - apply (same_question_ok l _ m); [done|done|apply Hm].
Qed.

Lemma prepareSecret_ok l x m :
  dash_ok l m → dm_mode m = dashboardPaletteMode → dash_ok (l ++ [x]) (prepareSecret m).
Proof.
  intros Hm Hmode. pose proof (no_secret l m Hm ltac:(by rewrite Hmode)) as Hv.
  pose proof (nothing_pending l m Hm ltac:(by rewrite Hmode)) as Hp. unfold prepareSecret.
  destruct (currentProvider m) as [p|]; [|apply (same_question_ok l _ m); [done|done|apply Hm]].
  destruct (bool_decide_reflect (provider_id p ∈ api_key_providers)) as [Hin|]; cbn [negb];
    [|apply (same_question_ok l _ m); [done|done|apply Hm]].
  cbv zeta. destruct (existsb _ _); (split; [by apply Hm| | |]).
  - intros a Ha. exfalso. cbn in Ha. rewrite Hp in Ha. discriminate Ha.
  - intros Hv'. cbn in Hv'. by rewrite Hv in Hv'.
  - intros _. by exists (provider_id p).
  - intros a Ha. exfalso. cbn in Ha. rewrite Hp in Ha. discriminate Ha.
  - intros Hv'. cbn in Hv'. by rewrite Hv in Hv'.
  - intros _. by exists (provider_id p).
Qed.

Lemma handlePaletteKey_ok l key m :
  m = run l → dash_ok l m → dm_mode m = dashboardPaletteMode → dash_ok (l ++ [MKey key]) (handlePaletteKey keyString key m).1.
Proof.
  intros Hrun Hm Hmode. pose proof (ok_selection _ _ Hm) as Hsel.
  assert (∀ m', same_question m m' → selection_ok m' → dash_ok (l ++ [MKey key]) m') as Hsame
    by (intros; by apply (same_question_ok l _ m)).
  assert (∀ i, dash_ok (l ++ [MKey key]) (clampSelection (dm_select i m))) as Hmove.
  { intros i. apply Hsame; [|apply clampSelection_ok]. apply (clamp_same (dm_select i m)). }
  unfold handlePaletteKey. cbv zeta.
  destruct (_ || _); [apply settled_ok; [done|..|by left]|].
  { by apply (nothing_pending l m Hm); rewrite Hmode. } { by apply (no_secret l m Hm); rewrite Hmode. }
  destruct (_ || _); [apply Hmove|]. destruct (_ || _); [apply Hmove|].
  destruct (String.eqb (keyString key) "r"); [by apply Hsame|]. destruct (String.eqb (keyString key) "m"); [by apply Hsame|].
  destruct (String.eqb_spec (keyString key) "e"); [by apply prepareToggle_ok|].
  destruct (String.eqb (keyString key) "c"); [by apply Hsame|].
  destruct (String.eqb (keyString key) "x"); [unfold cancelAuth; destruct (List.find _ _); by apply Hsame|].
  destruct (String.eqb (keyString key) "p"); [by apply prepareSecret_ok|]. by apply Hsame.
Qed.

Lemma handleConfirmKey_ok l key m :
  dash_ok l m → dm_mode m = dashboardConfirmMode → dash_ok (l ++ [MKey key]) (handleConfirmKey keyString key m).1.
Proof.
  intros Hm Hmode. pose proof (ok_selection _ _ Hm) as Hsel. pose proof (no_secret l m Hm ltac:(by rewrite Hmode)) as Hv.
  unfold handleConfirmKey. cbv zeta. destruct (String.eqb (keyString key) "y").
  - destruct (dm_confirmSecret m) eqn:Hc; [|apply settled_ok; [done..|by right]]. split; [done|done|done|].
    intros _. apply (ok_slot _ _ Hm). by right.
  - destruct (_ || _); [apply settled_ok; [done..|by right]|]. by apply (same_question_ok l _ m).
Qed.

Lemma handleSecretKey_ok l key m :
  dash_ok l m → dm_mode m = dashboardSecretMode → dash_ok (l ++ [MKey key]) (handleSecretKey keyString isPrint key m).1.
Proof.
  intros Hm Hmode. pose proof (ok_selection _ _ Hm) as Hsel. pose proof (nothing_pending l m Hm ltac:(by rewrite Hmode)) as Hp.
  assert (∀ value, dash_ok (l ++ [MKey key]) (dm_set_secret (dm_secretSlot m) value m)) as Htype.
  { intros value. split; [done| |done|].
    - intros a Ha. exfalso. cbn in Ha. rewrite Hp in Ha. discriminate Ha.
    - intros _. apply (ok_slot _ _ Hm). by left. }
  assert (dash_ok (l ++ [MKey key]) m) as Hid by (by apply (same_question_ok l _ m)).
  unfold handleSecretKey. cbv zeta. destruct (String.eqb (keyString key) "esc"); [apply settled_ok; [done..|by right]|].
  destruct (String.eqb (keyString key) "enter"); [destruct (negb _); [apply settled_ok; [done..|by right]|done]|].
  destruct (String.eqb (keyString key) "backspace"); [cbn [fst]; destruct (runes _); [done|apply Htype]|].
  destruct (key_Type key); try done. destruct (_ || _); [done|apply Htype].
Qed.

Lemma Update_ok l msg m : m = run l → dash_ok l m → dash_ok (l ++ [msg]) (Update msg m).1.
Proof.
  intros Hrun Hm. pose proof (ok_selection _ _ Hm) as Hsel.
  assert (∀ m', same_question m m' → selection_ok m' → dash_ok (l ++ [msg]) m') as Hsame
    by (intros; by apply (same_question_ok l _ m)).
  destruct msg as [w h|s failed|failed| |key|]; cbn [dm_Update]; try by apply Hsame.
  - destruct failed; [by apply Hsame|]. apply Hsame; [|apply clampSelection_ok]. cbv zeta. cbn [fst].
    match goal with |- same_question _ (clampSelection ?m1) => exact (clamp_same m1) end.
  - unfold dm_handleKey. cbv zeta. destruct (_ || _); [by apply Hsame|].
    destruct (dm_mode m) eqn:Hmode.
    + destruct (String.eqb (keyString key) "a"); [|destruct (String.eqb (keyString key) "r"); by apply Hsame].
      apply settled_ok; [done|..|by right].
      * by apply (nothing_pending l m Hm); rewrite Hmode.
      * by apply (no_secret l m Hm); rewrite Hmode.
    + by apply handlePaletteKey_ok.
    + by apply handleConfirmKey_ok.
    + by apply handleSecretKey_ok.
Qed.

Lemma dm_run_snoc l msg : run (l ++ [msg]) = (Update msg (run l)).1.
Proof. unfold dm_run. by rewrite foldl_app. Qed.

Lemma run_ok l : dash_ok l (run l).
Proof.
  induction l as [|msg l IH] using rev_ind.
  - apply settled_ok; [by left|done|done|by left].
  - rewrite dm_run_snoc. by apply Update_ok.
Qed.

(** A key that makes the dashboard act. *)
Definition acts (m : dashboardModel) (key : KeyMsg) (a : dashboard_action) : Prop :=
  match a with
  | AToggle _ => keyString key = "y" ∧ dm_mode m = dashboardConfirmMode ∧ dm_pending m = Some a
  | AStartAuth provider method => keyString key = "c" ∧ dm_mode m = dashboardPaletteMode ∧
      ∃ p, currentProvider m = Some p ∧ provider = provider_id p ∧ method ∈ ["anonymous"; "device_code"]
  | ACancelAuth id => keyString key = "x" ∧ dm_mode m = dashboardPaletteMode ∧
      ∃ r, r ∈ dn_operations (dm_snapshot m) ∧ r_ID r = id ∧ can_cancel r = true
  | ASetSecret slot value => keyString key = "enter" ∧ dm_mode m = dashboardSecretMode ∧ value = dm_secretValue m ∧ value ≠ "" ∧ slot = dm_secretSlot m
  end.

Lemma no_act (l : list cmd) a : (∀ c, c ∈ l → ∀ a, c ≠ CAct a) → CAct a ∉ l.
Proof. intros H Hin. by apply (H _ Hin a). Qed.

Lemma startAuth_acts m a key :
  keyString key = "c" → dm_mode m = dashboardPaletteMode → CAct a ∈ startAuth m → acts m key a.
Proof.
  intros Hk Hm. unfold startAuth. destruct (currentProvider m) as [p|] eqn:Hp; [|by intros ?%not_elem_of_nil].
  intros Ha%list_elem_of_singleton. injection Ha as ->. split_and!; [done..|]. exists p. split_and!; [done..|].
  destruct (String.eqb _ _); [by left|by right; left].
Qed.

Lemma cancelAuth_acts m a key :
  keyString key = "x" → dm_mode m = dashboardPaletteMode → CAct a ∈ (cancelAuth m).2 → acts m key a.
Proof.
  intros Hk Hm. unfold cancelAuth. destruct (List.find _ _) as [r|] eqn:Hr; [|by intros ?%not_elem_of_nil].
  intros Ha%list_elem_of_singleton. injection Ha as ->. split_and!; [done..|]. apply List.find_some in Hr as [Hin Hc].
  exists r. split_and!; [|done..]. by apply list_elem_of_In.
Qed.

(** The only commands that change the daemon come from these keys. *)
Lemma Update_acts l msg a : CAct a ∈ (Update msg (run l)).2 → ∃ key, msg = MKey key ∧ acts (run l) key a.
Proof.
  pose proof (run_ok l) as Hm. set (m := run l) in *. clearbody m.
  assert (∀ c, CAct a ∈ [CLoad c] → False) as Hload by (by intros c Hc%list_elem_of_singleton).
  destruct msg as [w h|s failed|failed| |key|]; cbn [dm_Update snd].
  - by intros ?%not_elem_of_nil.
  - destruct failed; by intros ?%not_elem_of_nil.
  - by intros ?%Hload.
  - by intros [?|[?|?%not_elem_of_nil]%elem_of_cons]%elem_of_cons.
  - intros Ha. exists key. split; [done|]. revert Ha. unfold dm_handleKey. cbv zeta.
    destruct (_ || _); [by intros ?%list_elem_of_singleton|]. destruct (dm_mode m) eqn:Hmode.
    + destruct (String.eqb _ "a"); [by intros ?%not_elem_of_nil|]. destruct (String.eqb _ "r"); [by intros ?%Hload|by intros ?%not_elem_of_nil].
    + unfold handlePaletteKey. cbv zeta. do 3 (destruct (_ || _); [by intros ?%not_elem_of_nil|]).
      destruct (String.eqb _ "r"); [by intros ?%Hload|]. destruct (String.eqb _ "m"); [by intros ?%Hload|].
      destruct (String.eqb _ "e"); [by intros ?%not_elem_of_nil|].
      destruct (String.eqb_spec (keyString key) "c"); [by apply (startAuth_acts (dm_say "Starting authentication operation..." m) a key)|].
      destruct (String.eqb_spec (keyString key) "x"); [by apply cancelAuth_acts|].
      destruct (String.eqb _ "p"); by intros ?%not_elem_of_nil.
    + unfold handleConfirmKey. cbv zeta. destruct (String.eqb_spec (keyString key) "y") as [Hy|];
        [|destruct (_ || _); by intros ?%not_elem_of_nil].
      destruct (dm_confirmSecret m); [by intros ?%not_elem_of_nil|]. cbn [snd].
      destruct (dm_pending m) as [b|] eqn:Hp; [|by intros ?%not_elem_of_nil]. cbn [from_option].
      intros Ha%list_elem_of_singleton. injection Ha as ->. destruct (ok_pending _ _ Hm b Hp) as (_ & _ & r & p & -> & _). done.
    + unfold handleSecretKey. cbv zeta. destruct (String.eqb _ "esc"); [by intros ?%not_elem_of_nil|].
      destruct (String.eqb_spec (keyString key) "enter").
      * destruct (String.eqb_spec (dm_secretValue m) ""); cbn [negb]; [by intros ?%not_elem_of_nil|].
        intros Ha%list_elem_of_singleton. by injection Ha as ->.
      * destruct (String.eqb _ "backspace"); [by intros ?%not_elem_of_nil|].
        destruct (key_Type key); try by intros ?%not_elem_of_nil. destruct (_ || _); by intros ?%not_elem_of_nil.
  - by intros ?%not_elem_of_nil.
Qed.

(** A provider is switched only after its question.  Whenever the dashboard sends a
    toggle, the user has chosen it for the provider that was selected then and answers [y]
    to the question that names the switch; what the daemon makes of the request is the
    opposite of what was shown then, and at any other revision than the one shown then the
    daemon changes nothing. *)
Theorem toggles_do_what_was_asked `{State.StateCodec} l msg r :
  CAct (AToggle r) ∈ (Update msg (run l)).2 →
  ∃ key p, msg = MKey key ∧ keyString key = "y" ∧ asked l p r ∧ dm_confirm (run l) = toggle_question p
    ∧ (∀ config next, ApplyMutation (Some config) r = Ok next →
         provider_enabled (TrimSpace (provider_id p)) config ≠ None
         ∧ provider_enabled (TrimSpace (provider_id p)) next = Some (negb (pv_Enabled p)))
    ∧ (∀ stop1 stop2 now1 now2 actor reload m, mr_ExpectedRevision r ≠ Revision (snapshot m) →
         ∃ zero, applyManagedMutation stop1 stop2 now1 now2 r actor reload (Some m)
         = (Some m, Err (zero, StateError (ConflictError (mr_ExpectedRevision r) (Revision (snapshot m)))))).
Proof.
  intros Ha. destruct (Update_acts l msg _ Ha) as (key & -> & Hk & Hm & Hp).
  destruct (ok_pending _ _ (run_ok l) _ Hp) as (_ & _ & r' & p & [= <-] & Hasked & Hq).
  pose proof Hasked as (l1 & key1 & l2 & _ & _ & _ & _ & Hr).
  exists key, p. split_and!; [done..| |].
  - intros config next. rewrite Hr. unfold toggle_request. cbn [ApplyMutation mr_Kind mr_Enabled mr_Provider]. unfold setProviderEnabled.
    pose proof (update_provider_spec (provider_id p) (λ _, negb (pv_Enabled p)) (λ a, a) (Clone config)) as Hspec.
    intros E. rewrite E in Hspec. destruct Hspec as ((b & Hb & Hn) & _). split; [|done]. intros Hnone.
    change (provider_enabled (TrimSpace (provider_id p)) (Clone config)) with (provider_enabled (TrimSpace (provider_id p)) config) in Hb.
    rewrite Hnone in Hb. discriminate Hb.
  - intros stop1 stop2 now1 now2 actor reload m Hrev. eexists. unfold applyManagedMutation.
    unfold currentSnapshot, cloneSnapshot. cbn [Revision]. rewrite (proj2 (Z.eqb_neq _ _) Hrev). done.
Qed.

(** An API key is stored only when it was entered.  The dashboard stores a value only on
    [enter], in the mode that asks for it, under the key of Codex or Kilo, and it is the text
    entered, which is nowhere once that mode is left. *)
Theorem api_keys_are_stored_when_entered l msg slot value :
  CAct (ASetSecret slot value) ∈ (Update msg (run l)).2 →
  (∃ key, msg = MKey key ∧ keyString key = "enter") ∧ dm_mode (run l) = dashboardSecretMode ∧ value = dm_secretValue (run l) ∧ value ≠ ""
  ∧ is_slot slot ∧ dm_secretValue (run (l ++ [msg])) = ""
  ∧ ∀ l', dm_mode (run l') ≠ dashboardSecretMode → dm_secretValue (run l') = "".
Proof.
  intros Ha. destruct (Update_acts l msg _ Ha) as (key & -> & Hk & Hm & -> & Hv & ->).
  assert (∀ l', dm_mode (run l') ≠ dashboardSecretMode → dm_secretValue (run l') = "") as Hall
    by (intros l'; apply (no_secret l'); apply run_ok).
  split_and!; [by exists key|done|done|done|by apply (ok_slot _ _ (run_ok l)); left| |done].
  rewrite dm_run_snoc. cbn [dm_Update]. unfold dm_handleKey. rewrite Hm, Hk. cbv zeta. cbn [orb andb String.eqb Ascii.eqb Bool.eqb].
  unfold handleSecretKey. rewrite Hk. cbv zeta. cbn [String.eqb Ascii.eqb Bool.eqb]. by rewrite (proj2 (String.eqb_neq _ _) Hv).
Qed.

(** Something is selected whenever something is listed. *)
Lemma a_listed_provider_is_selected l : dn_providers (dm_snapshot (run l)) ≠ [] → is_Some (currentProvider (run l)).
Proof. apply currentProvider_listed, run_ok. Qed.

End history.

Module ExampleDashboard.

Definition key_name (k : KeyMsg) : string :=
  match key_Type k with
  | KeyRunes => of_runes (key_Runes k) | KeyEnter => if key_Alt k then "alt+enter" else "enter" | KeyEsc => "esc"
  | KeyBackspace => "backspace" | KeyLeft => "left" | KeyRight => "right" | KeySpace => " " | KeyCtrlJ => "ctrl+j"
  | KeyOther 3 => "ctrl+c" | KeyOther 9 => "tab" | KeyOther _ => "other"
  end.
Definition ascii_printable (r : Z) : bool := ((32 <=? r) && (r <? 127))%Z.

Definition typed (s : string) : dashboard_msg := MKey (mkKey KeyRunes (runes s) false false).
Definition press (t : key_type) : dashboard_msg := MKey (mkKey t [] false false).

Definition listed_providers : list ProviderResource :=
  match read_Providers (Some ReadModel.ExampleReads.statuses) with Ok l => l | Err _ => [] end.
Definition loaded (revision : Z) (secrets : list Metadata) : dashboard_msg :=
  MLoaded (mkDashSnapshot no_meta listed_providers [] [] (Some (mkConfigResource revision "aa" "aa" [] (on_port 2) (on_port 2)))
    None [] [] secrets no_state) false.

Definition answers (l : list dashboard_msg) (msg : dashboard_msg) : list cmd :=
  (dm_Update key_name ascii_printable msg (dm_run key_name ascii_printable l)).2.

(** The question is answered after a reload; the request still names revision 7. *)
Definition disable_codex : list dashboard_msg := [loaded 7 []; typed "a"; typed "e"; loaded 8 []].
Definition codex_off : MutationRequest := mkRequest MutationProviderEnabled 7 false "codex" (Some false) "" "" [] "".

Example actions_of_keys :
  answers disable_codex (typed "y") = [CAct (AToggle codex_off)] ∧ answers disable_codex (typed "n") = []
  ∧ answers [loaded 7 []; typed "a"; typed "j"] (typed "c") = [CAct (AStartAuth "kilo" "anonymous")]
  ∧ answers [loaded 7 []; typed "a"; typed "k"; typed "j"] (typed "c") = [CAct (AStartAuth "codex" "device_code")]
  ∧ answers [typed "a"; typed "e"] (typed "y") = [] ∧ answers [typed "a"] (typed "q") = [CQuit].
Proof. vm_compute. split_and!; reflexivity. Qed.

(** A key that is pasted is dropped; a stored one is replaced after a question only. *)
Definition stored_key : list Metadata := [mkMetadata "codex/api_key" SourceManaged true false zeroTime 1].
Example entering_a_key :
  answers [loaded 7 []; typed "a"; typed "p"; typed "sk-q"; press KeyBackspace] (press KeyEnter) = [CAct (ASetSecret "codex/api_key" "sk-")]
  ∧ answers [loaded 7 []; typed "a"; typed "p"; MKey (mkKey KeyRunes (runes "sk-q") false true)] (press KeyEnter) = []
  ∧ answers [loaded 7 stored_key; typed "a"; typed "p"; typed "sk"] (press KeyEnter) = []
  ∧ answers [loaded 7 stored_key; typed "a"; typed "p"; typed "y"; typed "sk"] (press KeyEnter) = [CAct (ASetSecret "codex/api_key" "sk")].
Proof. vm_compute. split_and!; reflexivity. Qed.

Lemma toggles_do_what_was_asked_witness :
  ∃ key p, typed "y" = MKey key ∧ key_name key = "y" ∧ provider_id p = "codex" ∧ pv_Enabled p = true
    ∧ dm_confirm (dm_run key_name ascii_printable disable_codex) = toggle_question p.
Proof.
  assert (CAct (AToggle codex_off) ∈ answers disable_codex (typed "y")) as Ha by (vm_compute; by left). unfold answers in Ha.
  destruct (toggles_do_what_was_asked key_name ascii_printable disable_codex (typed "y") codex_off Ha)
    as (key & p & H1 & H2 & (l1 & k & l2 & _ & _ & _ & _ & Hr) & H3 & _).
  exists key, p. split_and!; [exact H1|exact H2| | |exact H3].
  - symmetry. exact (f_equal mr_Provider Hr).
  - pose proof (f_equal mr_Enabled Hr) as He. cbn in He. destruct (pv_Enabled p); [reflexivity|discriminate He].
Defined.

Definition entering : list dashboard_msg := [loaded 7 []; typed "a"; typed "p"; typed "sk"].
Lemma api_keys_are_stored_when_entered_witness :
  (∃ key, press KeyEnter = MKey key ∧ key_name key = "enter") ∧ is_slot "codex/api_key" ∧ "sk" ≠ "".
Proof.
  assert (CAct (ASetSecret "codex/api_key" "sk")
    ∈ (dm_Update key_name ascii_printable (press KeyEnter) (dm_run key_name ascii_printable entering)).2) as Ha by (vm_compute; by left).
  destruct (api_keys_are_stored_when_entered key_name ascii_printable entering (press KeyEnter) "codex/api_key" "sk" Ha)
    as (H1 & _ & _ & H2 & H3 & _).
  split; [exact H1|]. split; [exact H3|exact H2].
Defined.

(** *** Loads *)

Definition busy_api : client_error := APIFailed (mkAPIError 404 "not_found" "" false "" None).
Definition backend (routing : result RoutingStatusResource client_error) : dashboardBackend :=
  mkBackend (Ok (mkMeta "1" "local")) (Ok listed_providers) (Ok []) (λ _, Ok []) (Ok (mkConfigResource 9 "aa" "aa" [] (on_port 2) (on_port 2)))
    routing (Ok []) (Ok []) (Ok []) (λ _, Err transportError) (λ _ _, Ok tt) (λ _, Ok tt) (λ _ _, Ok tt).

Example loads_and_actions :
  is_ok (loadDashboard (backend (Err busy_api)) false) = true ∧ is_ok (loadDashboard (backend (Err transportError)) false) = false
  ∧ run_action (backend (Err busy_api)) (ASetSecret "kilo/api_key" "k") = ([BSetSecret "kilo/api_key" "k"; BCreateAuth "kilo" "api_key"], Ok tt)
  ∧ run_cmd (backend (Err busy_api)) (CAct (AToggle codex_off)) = Some (MAction true).
Proof. vm_compute. split_and!; reflexivity. Qed.

End ExampleDashboard.
