(* ===== verification/Workspace.v ===== *)
(** * The workspace of the terminal client

    [src/src/client_chat_workspace.go] and [client_chat_view.go]: the chat pane and the
    dashboard in one program, fed by the keyboard and by the events of [WSClient].  What it
    asks of the connection is data ([client_call]); whether a chat could be handed to the
    connection is an argument of the step.

    The end of the file puts the parts together: what the daemon sends of a chat ([WSChat]),
    read by the client ([WSClient.dispatch]), is what the user sees. *)

From stdpp Require Import pretty.
From S2P Require Import Prelude GoStd Writers GoJson Telemetry WebSocket WSChat WSClient ChatPane Dashboard.

#[local] Set Default Proof Using "Type".

(** ** Payloads *)

Definition d_route : decoder (string * string) :=
  d_struct [fld "provider" fst (λ x s, (x, s.2)) d_string; fld "resolved_model" snd (λ x s, (s.1, x)) d_string].
Definition d_text : decoder string := d_struct [fld "text" (λ s, s) (λ x _, x) d_string].
Definition d_reason : decoder string := d_struct [fld "finish_reason" (λ s, s) (λ x _, x) d_string].
Definition f_chat_error : list (field (string * string)) :=
  [fld "category" fst (λ x s, (x, s.2)) d_string; fld "message" snd (λ x s, (s.1, x)) d_string].
Definition d_chat_error : decoder (string * string) := d_struct f_chat_error.

(** What [json.Unmarshal] leaves in a struct of plain fields when its error is ignored: a
    member that does not decode is passed over, as is a payload that is no object. *)
Definition unmarshal_kept {S} (zero : S) (fields : list (field S)) (v : json) : S :=
  match v with
  | JObj l => foldl (λ s kv, default s (d_member fields (Some s) kv)) zero l
  | _ => zero
  end.

Lemma unmarshal_kept_decodes {S} (zero s : S) fields v :
  unmarshal zero (d_struct fields) v = Some s → unmarshal_kept zero fields v = s.
Proof.
  unfold unmarshal, d_struct, unmarshal_kept. destruct v as [| | | |l|l]; try (intros [= <-]; done); try done.
  revert zero. induction l as [|kv l IH]; intros zero; cbn [foldl]; [by intros [= <-]|].
  destruct (d_member fields (Some zero) kv) as [s'|] eqn:E; [apply IH|]. by rewrite d_member_None.
Qed.

Definition d_live_provider : decoder live_provider :=
  d_struct [fld "provider" lp_Provider (λ x p, mkLiveProvider x (lp_State p)) d_string;
            fld "state" lp_State (λ x p, mkLiveProvider (lp_Provider p) x) d_string].
Definition d_live_target : decoder live_target :=
  d_struct [fld "target" lt_Target (λ x t, mkLiveTarget x (lt_Routable t) (lt_Reason t)) d_string;
            fld "routable" lt_Routable (λ x t, mkLiveTarget (lt_Target t) x (lt_Reason t)) d_bool;
            fld "reason" lt_Reason (λ x t, mkLiveTarget (lt_Target t) (lt_Routable t) x) d_string].
Definition d_live_routing : decoder live_routing :=
  d_struct [fld "virtual_model" lr_VirtualModel (λ x r, mkLiveRouting x (lr_SelectedTarget r) (lr_Targets r)) d_string;
            fld "selected_target" lr_SelectedTarget (λ x r, mkLiveRouting (lr_VirtualModel r) x (lr_Targets r)) d_string;
            fld "targets" lr_Targets (λ x r, mkLiveRouting (lr_VirtualModel r) (lr_SelectedTarget r) x)
              (d_list (mkLiveTarget "" false "") d_live_target)].

(** The four numbers of the usage, of which the total and the flag are shown. *)
Definition d_live_usage : decoder (Z * bool) :=
  d_struct [fld "input_tokens" (λ _, 0%Z) (λ _ u, u) d_int; fld "output_tokens" (λ _, 0%Z) (λ _ u, u) d_int;
            fld "total_tokens" fst (λ x u, (x, u.2)) d_int; fld "unavailable" snd (λ x u, (u.1, x)) d_bool].

Definition set_lk (provider model : string) (l : list Z) (category : string) (tokens : Z * bool) (k : live_counters) : live_counters :=
  match l with
  | [requests; successes; errors; inFlight; messages; latency] =>
    mkLiveCounters provider model requests successes errors inFlight messages latency category tokens.1 tokens.2
  | _ => k
  end.
Definition numbers (k : live_counters) : list Z :=
  [lk_Requests k; lk_Successes k; lk_Errors k; lk_InFlight k; lk_Messages k; lk_LastLatencyMillis k].
Definition tokens (k : live_counters) : Z * bool := (lk_TotalTokens k, lk_Unavailable k).
Definition number (name : string) (i : nat) (d : decoder Z) : field live_counters :=
  fld name (λ k, nth i (numbers k) 0%Z) (λ x k, set_lk (lk_Provider k) (lk_Model k) (<[i := x]> (numbers k)) (lk_LastErrorCategory k) (tokens k) k) d.

Definition d_live_counters : decoder live_counters :=
  d_struct [fld "provider" lk_Provider (λ x k, set_lk x (lk_Model k) (numbers k) (lk_LastErrorCategory k) (tokens k) k) d_string;
            fld "model" lk_Model (λ x k, set_lk (lk_Provider k) x (numbers k) (lk_LastErrorCategory k) (tokens k) k) d_string;
            number "requests" 0 d_uint64; number "successes" 1 d_uint64; number "errors" 2 d_uint64; number "in_flight" 3 d_int;
            number "messages" 4 d_uint64; number "last_latency_millis" 5 d_int;
            fld "last_error_category" lk_LastErrorCategory (λ x k, set_lk (lk_Provider k) (lk_Model k) (numbers k) x (tokens k) k) d_string;
            fld "usage" tokens (λ x k, set_lk (lk_Provider k) (lk_Model k) (numbers k) (lk_LastErrorCategory k) x k) d_live_usage].
Definition no_counters : live_counters := mkLiveCounters "" "" 0 0 0 0 0 0 "" 0 false.

Definition d_live_state : decoder live_state :=
  d_struct [fld "config_revision" ls_ConfigRevision (λ x s, mkLiveState x (ls_Providers s) (ls_Routing s) (ls_Counters s)) d_uint64;
            fld "providers" ls_Providers (λ x s, mkLiveState (ls_ConfigRevision s) x (ls_Routing s) (ls_Counters s))
              (d_list (mkLiveProvider "" "") d_live_provider);
            fld "routing" ls_Routing (λ x s, mkLiveState (ls_ConfigRevision s) (ls_Providers s) x (ls_Counters s))
              (d_list (mkLiveRouting "" "" []) d_live_routing);
            fld "counters" ls_Counters (λ x s, mkLiveState (ls_ConfigRevision s) (ls_Providers s) (ls_Routing s) x)
              (d_list no_counters d_live_counters)].

(** Whether a payload decodes into the type of its message. *)
Definition payload_decodes (type : string) (p : json) : bool :=
  if String.eqb type WSTypeSnapshot || String.eqb type WSTypeStateUpdated then bool_decide (is_Some (unmarshal no_state d_live_state p))
  else if String.eqb type WSTypeChatRoute then bool_decide (is_Some (unmarshal ("", "") d_route p))
  else if String.eqb type WSTypeChatDelta then bool_decide (is_Some (unmarshal "" d_text p))
  else if String.eqb type WSTypeChatDone then bool_decide (is_Some (unmarshal "" d_reason p))
  else bool_decide (is_Some (unmarshal ("", "") d_chat_error p)).

(** ** The workspace *)

(* src/src/client_chat_workspace.go workspaceLayout *)
(* src/src/client_chat_workspace.go layoutTabbed *)
Inductive workspaceLayout := layoutTabbed | layoutTwoColumn.
#[export] Instance workspaceLayout_eq : EqDecision workspaceLayout.
Proof. solve_decision. Defined.

(* src/src/client_chat_workspace.go workspaceTwoColumnMinWidth *)
Definition workspaceTwoColumnMinWidth : Z := 100.

(* src/src/client_chat_workspace.go workspaceTab *)
(* src/src/client_chat_workspace.go tabChat *)
Inductive workspaceTab := tabChat | tabStatus.
#[export] Instance workspaceTab_eq : EqDecision workspaceTab.
Proof. solve_decision. Defined.

(** [ws_client]: there is a connection, which a remote profile has not. *)
(* src/src/client_chat_workspace.go workspaceModel *)
Record workspaceModel := mkWorkspace {
  ws_dashboard : dashboardModel; ws_chat : chatModel; ws_client : bool; ws_connected : bool; ws_requestIDSeq : Z;
  ws_activeTab : workspaceTab; ws_layout : workspaceLayout; ws_statusMessage : string;
}.

(* src/src/client_chat_workspace.go newWorkspaceModel *)
Definition newWorkspaceModel (client : bool) : workspaceModel :=
  mkWorkspace newDashboardModel newChatModel client false 0 tabChat layoutTabbed "".

Inductive client_call := KConnect | KStartChat (requestID : string) (payload : WSChatStartPayload) | KCancelChat | KClose.

(* src/src/client_chat_workspace.go workspaceModel.Init *)
Definition ws_Init (m : workspaceModel) : list cmd * list client_call :=
  (dm_Init ++ (if ws_client m then [CWait] else []), if ws_client m then [KConnect] else []).

Definition set_dashboard (d : dashboardModel) (m : workspaceModel) : workspaceModel :=
  mkWorkspace d (ws_chat m) (ws_client m) (ws_connected m) (ws_requestIDSeq m) (ws_activeTab m) (ws_layout m) (ws_statusMessage m).
Definition set_chat (c : chatModel) (m : workspaceModel) : workspaceModel :=
  mkWorkspace (ws_dashboard m) c (ws_client m) (ws_connected m) (ws_requestIDSeq m) (ws_activeTab m) (ws_layout m) (ws_statusMessage m).
Definition set_connection (connected : bool) (message : string) (m : workspaceModel) : workspaceModel :=
  mkWorkspace (ws_dashboard m) (ws_chat m) (ws_client m) connected (ws_requestIDSeq m) (ws_activeTab m) (ws_layout m) message.
Definition set_counter (n : Z) (m : workspaceModel) : workspaceModel :=
  mkWorkspace (ws_dashboard m) (ws_chat m) (ws_client m) (ws_connected m) n (ws_activeTab m) (ws_layout m) (ws_statusMessage m).
Definition set_view (tab : workspaceTab) (layout : workspaceLayout) (m : workspaceModel) : workspaceModel :=
  mkWorkspace (ws_dashboard m) (ws_chat m) (ws_client m) (ws_connected m) (ws_requestIDSeq m) tab layout (ws_statusMessage m).

(* src/src/client_chat_workspace.go layoutForWidth *)
Definition layoutForWidth (width : Z) : workspaceLayout := if (workspaceTwoColumnMinWidth <=? width)%Z then layoutTwoColumn else layoutTabbed.

(* src/src/client_chat_workspace.go otherTab *)
Definition otherTab (tab : workspaceTab) : workspaceTab := match tab with tabChat => tabStatus | tabStatus => tabChat end.

(* src/src/client_chat_workspace.go chatErrorMessage *)
Definition chatErrorMessage (payload : option (string * string)) : string :=
  match payload with
  | None => "chat failed"
  | Some (category, message) => if String.eqb message "" then category else message
  end.

(** An event's payload is the value it decodes into, as [dispatch] only passes on
    payloads that decode, and that of an error what of it does. *)
(* src/src/client_chat_workspace.go workspaceModel.handleWSEvent *)
Definition handleWSEvent (event : WSEvent) (m : workspaceModel) : workspaceModel :=
  let show_state state :=
    match unmarshal no_state d_live_state state with
    | Some s => set_dashboard (dm_set_snapshot (set_wsState s (dm_snapshot (ws_dashboard m))) (ws_dashboard m)) m
    | None => m
    end in
  match event with
  | WSEventConnected => set_connection true "Live connection established." m
  | WSEventDisconnected _ => set_connection false "Live connection lost; reconnecting..." m
  | WSEventNonRetryable => set_connection false "Live connection incompatible with this daemon version." m
  | WSEventSnapshot _ state | WSEventStateUpdated _ state => show_state state
  | WSEventChatRoute _ route =>
    match unmarshal ("", "") d_route route with
    | Some (provider, model) => set_chat (onRoute provider model (ws_chat m)) m
    | None => m
    end
  | WSEventChatDelta _ delta =>
    match unmarshal "" d_text delta with Some text => set_chat (onDelta text (ws_chat m)) m | None => m end
  | WSEventChatDone _ _ => set_chat (onDone (ws_chat m)) m
  | WSEventChatError _ chatErr =>
    let payload := unmarshal_kept ("", "") f_chat_error <$> chatErr in
    let interrupted := match payload with Some (category, _) => String.eqb category "interrupted" | None => false end in
    set_chat (onError interrupted (chatErrorMessage payload) (ws_chat m)) m
  end.

(** The conversation that is sent: the last message alone. *)
(* src/src/client_chat_workspace.go mustMarshalWorkspaceMessages *)
Definition mustMarshalWorkspaceMessages (userText : string) : json :=
  JArr [JObj [("role", JStr "user"); ("content", JStr userText)]].

Definition outcome : Type := workspaceModel * list cmd * list client_call.

(** [accepted] is what [StartChat] answers. *)
(* src/src/client_chat_workspace.go workspaceModel.submitChat *)
Definition submitChat (accepted : bool) (m : workspaceModel) : outcome :=
  let '(chat, text) := beginUserMessage (ws_chat m) in
  let '(counter, requestID) := nextChatRequestID (ws_requestIDSeq m) in
  let chat := set_request (ch_state chat) requestID (ch_streamingIndex chat) chat in
  let m := set_chat chat (set_counter counter m) in
  let payload := mkChatStart (ch_requestedModel chat) (Some (mustMarshalWorkspaceMessages text)) in
  let calls := if ws_client m then [KStartChat requestID payload] else [] in
  if ws_client m && accepted then (m, [], calls)
  else (set_connection (ws_connected m) "Chat could not be sent: not connected."
          (set_chat (onError false "not connected to the daemon" chat) m), [], calls).

(** The messages of the dashboard go through the workspace; [accepted] is for the chat that
    a key may start. *)
(* src/src/client_chat_workspace.go wsClientEventMsg *)
Inductive workspace_msg :=
| WEvent (event : option WSEvent)     (** [None]: the channel of events is closed *)
| WDash (message : dashboard_msg) (accepted : bool).

Section keys.
Context (keyString : KeyMsg → string) (isPrint : Z → bool).

(** A key outside the bounds of the composer ends the program: [None]. *)
(* src/src/client_chat_workspace.go workspaceModel.handleComposerFocusedKey *)
Definition handleComposerFocusedKey (key : KeyMsg) (accepted : bool) (m : workspaceModel) : option outcome :=
  let edit := (λ c, (set_chat c m, [], [])) <$> handleComposerKey key (ws_chat m) in
  match key_Type key with
  | KeyEsc => Some (set_chat (set_focused false (ws_chat m)) m, [], [])
  | KeyEnter => if negb (key_Alt key) && canSend (ws_chat m) then Some (submitChat accepted m) else edit
  | _ => edit
  end.

Definition to_dashboard (message : dashboard_msg) (m : workspaceModel) : outcome :=
  let '(d, cmds) := dm_Update keyString isPrint message (ws_dashboard m) in (set_dashboard d m, cmds, []).

(* src/src/client_chat_workspace.go workspaceModel.handleKey *)
Definition ws_handleKey (key : KeyMsg) (accepted : bool) (m : workspaceModel) : option outcome :=
  let name := keyString key in
  let quit := (m, [CQuit], if ws_client m then [KClose] else []) in
  if String.eqb name "ctrl+c" then Some quit
  else if ch_focused (ws_chat m) then handleComposerFocusedKey key accepted m
  else if negb (bool_decide (dm_mode (ws_dashboard m) = dashboardMainMode)) then Some (to_dashboard (MKey key) m)
  else if String.eqb name "q" then Some quit
  else if String.eqb name "tab" && bool_decide (ws_layout m = layoutTabbed)
  then Some (set_view (otherTab (ws_activeTab m)) (ws_layout m) m, [], [])
  else if String.eqb name "i" then Some (set_chat (set_focused true (ws_chat m)) m, [], [])
  else if String.eqb name "c" then Some (m, [], if canCancel (ws_chat m) && ws_client m then [KCancelChat] else [])
  else if String.eqb name "n" then Some (set_chat newChatModel m, [], [])
  else Some (to_dashboard (MKey key) m).

(* src/src/client_chat_workspace.go workspaceModel.Update *)
Definition ws_Update (message : workspace_msg) (m : workspaceModel) : option outcome :=
  match message with
  | WDash (MWindow width height) _ =>
    Some (to_dashboard (MWindow width height) (set_view (ws_activeTab m) (layoutForWidth width) m))
  | WEvent None => Some (m, [], [])
  | WEvent (Some event) => Some (handleWSEvent event m, [CWait], [])
  | WDash (MKey key) accepted => ws_handleKey key accepted m
  | WDash message _ => Some (to_dashboard message m)
  end.

End keys.

(** ** What is drawn *)

Definition newline : string := String "010" "".
Definition with_lines (l : list string) : string := foldr (λ line s, line +:+ newline +:+ s) "" l.

Definition interrupted_mark : string := " [interrupted — connection lost before this reply finished]".

(* src/src/client_chat_view.go renderChatEntry *)
Definition renderChatEntry (e : chatTranscriptEntry) : string :=
  let label := match te_Role e with chatRoleUser => "you" | chatRoleAssistant => "thiendu" end in
  let text := te_Text e +:+ (if te_Interrupted e then interrupted_mark else "") in
  match Split text "010" with
  | [] => ""
  | first :: rest => with_lines (("  " +:+ label +:+ ": " +:+ first) :: ((λ line, "      " +:+ line) <$> rest))
  end.

(* src/src/client_chat_view.go composerWithCursor *)
Definition composerWithCursor (text : string) (cursor : nat) (focused : bool) : string :=
  if negb focused then (if String.eqb text "" then "(press i to type)" else text)
  else
    let l := runes text in
    let cursor := Nat.min cursor (length l) in
    of_runes (take cursor l) +:+ "|" +:+ of_runes (drop cursor l).

(* src/src/client_chat_view.go renderComposer *)
Definition renderComposer (chat : chatModel) : string :=
  with_lines ["----------------------------------------";
              (if ch_focused chat then "composer [focused]" else "composer") +:+ ": "
              +:+ composerWithCursor (ch_composer chat) (ch_cursor chat) (ch_focused chat)].

(* src/src/client_chat_view.go workspaceModel.renderChat *)
Definition renderChat (m : workspaceModel) : string :=
  let chat := ws_chat m in
  "Chat" +:+ (if String.eqb (ch_selectedProvider chat) "" then ""
              else "  (routed to " +:+ ch_selectedProvider chat +:+ "/" +:+ ch_selectedModel chat +:+ ")") +:+ newline
  +:+ (match ch_transcript chat with [] => with_lines ["  Send a message to start a thiendu chat."] | _ => "" end)
  +:+ foldr (λ e s, renderChatEntry e +:+ s) "" (ch_transcript chat)
  +:+ (if bool_decide (ch_state chat = chatIdle) then "" else with_lines ["  ..."])
  +:+ (if String.eqb (ch_lastError chat) "" then "" else with_lines ["  [error] " +:+ ch_lastError chat])
  +:+ newline +:+ renderComposer chat.

(* src/src/client_chat_view.go writeProviderStatusLines *)
Definition providerStatusLines (l : list live_provider) : list string :=
  "Providers" :: match l with
                 | [] => ["  No live provider state yet."]
                 | _ => (λ p, "  [" +:+ lp_State p +:+ "] " +:+ lp_Provider p) <$> l
                 end.

(* src/src/client_chat_view.go writeRoutingStatusLines *)
Definition routingStatusLines (l : list live_routing) : list string :=
  "Routing" :: match l with
  | [] => ["  No routing state yet."]
  | _ => l ≫= λ vm,
    ("  " +:+ lr_VirtualModel vm +:+ " -> " +:+ (if String.eqb (lr_SelectedTarget vm) "" then "no eligible target" else lr_SelectedTarget vm))
    :: ((λ t, "    " +:+ lt_Target t +:+ " [" +:+ (if lt_Routable t then "ready" else "unavailable") +:+ ":" +:+ lt_Reason t +:+ "]") <$> lr_Targets vm)
  end.

(* src/src/client_chat_view.go writeCounterStatusLines *)
Definition counterStatusLines (l : list live_counters) : list string :=
  "Usage (since daemon start)" :: match l with
  | [] => ["  No requests yet."]
  | _ => l ≫= λ k,
    let tokens := if lk_Unavailable k then "unavailable" else pretty (lk_TotalTokens k) in
    ("  " +:+ lk_Provider k +:+ "/" +:+ lk_Model k +:+ " req=" +:+ pretty (lk_Requests k) +:+ " ok=" +:+ pretty (lk_Successes k)
     +:+ " err=" +:+ pretty (lk_Errors k) +:+ " inflight=" +:+ pretty (lk_InFlight k) +:+ " msgs=" +:+ pretty (lk_Messages k)
     +:+ " tokens=" +:+ tokens)
    :: (if String.eqb (lk_LastErrorCategory k) "" then []
        else ["    last_error=" +:+ lk_LastErrorCategory k +:+ " latency_ms=" +:+ pretty (lk_LastLatencyMillis k)])
  end.

(* src/src/client_chat_view.go workspaceModel.renderStatus *)
Definition renderStatus (m : workspaceModel) : string :=
  let state := dn_wsState (dm_snapshot (ws_dashboard m)) in
  with_lines (["Status"] ++ providerStatusLines (ls_Providers state) ++ [""] ++ routingStatusLines (ls_Routing state) ++ [""]
    ++ counterStatusLines (ls_Counters state)).

(** *** Two columns

    Widths are not negative here: two columns take a hundred runes at least
    ([two_columns_are_wide]). *)

Definition ellipsis : Z := 8230.

(* src/src/client_chat_view.go padOrTruncate *)
Definition padOrTruncate (s : string) (width : nat) : string :=
  let l := runes s in
  if (width <? length l)%nat then of_runes (if (width <=? 1)%nat then take width l else take (width - 1) l ++ [ellipsis])
  else s.

(** [%-*s]: spaces up to a width that is counted in runes. *)
Definition spaces (n : nat) : string := of_runes (replicate n 32%Z).
Definition pad_to (width : nat) (s : string) : string := s +:+ spaces (width - length (runes s)).

Fixpoint drop_newlines (s : string) : string :=
  match s with String c rest => if Ascii.eqb c "010" then drop_newlines rest else s | "" => "" end.
Definition trim_newlines (s : string) : string := str_rev (drop_newlines (str_rev s)).

Definition column_rows (left_ right_ : string) (leftWidth rightWidth : nat) : list string :=
  let leftLines := Split (trim_newlines left_) "010" in
  let rightLines := Split (trim_newlines right_) "010" in
  (λ i, pad_to leftWidth (padOrTruncate (nth i leftLines "") leftWidth) +:+ " | "
        +:+ pad_to rightWidth (padOrTruncate (nth i rightLines "") rightWidth))
  <$> seq 0 (Nat.max (length leftLines) (length rightLines)).

(* src/src/client_chat_view.go padColumnsSideBySide *)
Definition padColumnsSideBySide (left_ right_ : string) (leftWidth rightWidth : nat) : string :=
  with_lines (column_rows left_ right_ leftWidth rightWidth).

(* src/src/client_chat_workspace.go joinWorkspaceColumns *)
Definition column_widths (totalWidth : Z) : Z * Z :=
  let rightWidth := Z.max (Z.quot totalWidth 3) 24 in ((totalWidth - rightWidth - 3)%Z, rightWidth).
(* src/src/client_chat_workspace.go joinWorkspaceColumns *)
Definition joinWorkspaceColumns (left_ right_ : string) (totalWidth : Z) : string :=
  let '(leftWidth, rightWidth) := column_widths totalWidth in
  padColumnsSideBySide left_ right_ (Z.to_nat leftWidth) (Z.to_nat rightWidth).

(* src/src/client_chat_workspace.go workspaceModel.renderHeader *)
Definition renderHeader (m : workspaceModel) : string :=
  let marker tab label := if bool_decide (ws_activeTab m = tab) then "[" +:+ label +:+ "]" else " " +:+ label +:+ " " in
  "ya  [" +:+ (if ws_connected m then "live" else "offline") +:+ "]"
  +:+ (if bool_decide (ws_layout m = layoutTabbed) then "   " +:+ marker tabChat "Chat" +:+ marker tabStatus "Status" else "")
  +:+ (if String.eqb (ws_statusMessage m) "" then "" else "   " +:+ ws_statusMessage m) +:+ newline +:+ newline.

(* src/src/client_chat_workspace.go workspaceModel.renderFooter *)
Definition renderFooter (m : workspaceModel) : string :=
  newline +:+ with_lines [
    if ch_focused (ws_chat m) then "i composer focused — enter send, alt+enter newline, esc release focus, ctrl+c quit"
    else match ws_layout m with
         | layoutTabbed => "i focus composer  tab switch view  c cancel chat  n new chat  q quit"
         | layoutTwoColumn => "i focus composer  c cancel chat  n new chat  q quit"
         end].

(* src/src/client_chat_workspace.go workspaceModel.View *)
Definition ws_View (m : workspaceModel) : string :=
  let width := dm_width (ws_dashboard m) in
  if (0 <? width)%Z && ((width <? 60)%Z || (dm_height (ws_dashboard m) <? 16)%Z)
  then with_lines ["ya workspace"; ""; "Terminal is too small. Resize to at least 60x16."; ""; "q quit"]
  else
    renderHeader m
    +:+ (match ws_layout m with
         | layoutTwoColumn => joinWorkspaceColumns (renderChat m) (renderStatus m) width
         | layoutTabbed => match ws_activeTab m with tabChat => renderChat m | tabStatus => renderStatus m end
         end)
    +:+ renderFooter m.

(** What is drawn does not depend on the dashboard's mode, question, selection, status or
    secret: none of them is ever shown. *)
Fact the_dashboard_is_not_drawn d m :
  dm_width d = dm_width (ws_dashboard m) → dm_height d = dm_height (ws_dashboard m) →
  dn_wsState (dm_snapshot d) = dn_wsState (dm_snapshot (ws_dashboard m)) →
  ws_View (set_dashboard d m) = ws_View m.
Proof.
  intros Hw Hh Hs. unfold ws_View. cbn [set_dashboard ws_dashboard ws_layout ws_activeTab]. rewrite Hw, Hh.
  replace (renderStatus (set_dashboard d m)) with (renderStatus m); [done|].
  unfold renderStatus. cbn [set_dashboard ws_dashboard]. by rewrite Hs.
Qed.

(** *** Rows are as wide as the terminal *)

Lemma decode_rune_ascii c s a t :
  (byte_val a < 128)%Z → decode_rune c (s +:+ String a t) = ((decode_rune c s).1, (decode_rune c s).2 +:+ String a t).
Proof.
  intros Ha. assert (continues (byte_val a) = false) as Hc by (unfold continues; apply andb_false_iff; left; apply Z.leb_gt; lia).
  unfold decode_rune. cbv zeta. destruct (byte_val c <? 128)%Z; [done|].
  destruct s as [|c1 [|c2 [|c3 s]]]; cbn [String.append]; rewrite ?Hc; cbn [negb]; try done;
    destruct (continues (byte_val c1)); cbn [negb]; try done; destruct (_ && _); try done;
    destruct (continues (byte_val c2)); cbn [negb]; try done; destruct ((224 <=? byte_val c)%Z && _); try (by destruct (_ && _)); try done.
Qed.

Lemma decode_rune_length c s : String.length (decode_rune c s).2 ≤ String.length s.
Proof. unfold decode_rune. cbv zeta. repeat (case_match; simpl; try lia). Qed.

Lemma runes_loop_fuel fuel fuel' s :
  String.length s ≤ fuel → String.length s ≤ fuel' → runes_loop fuel s = runes_loop fuel' s.
Proof.
  revert fuel' s; induction fuel as [|fuel IH]; intros fuel' [|c s] H H'; [by destruct fuel'|simpl in H; lia|by destruct fuel'|].
  destruct fuel' as [|fuel']; [simpl in H'; lia|]. cbn [runes_loop]. pose proof (decode_rune_length c s) as Hl.
  destruct (decode_rune c s) as [r rest]. f_equal. simpl in *. apply IH; lia.
Qed.

Lemma runes_ascii_app s a t :
  (byte_val a < 128)%Z → runes (s +:+ String a t) = runes s ++ runes (String a t).
Proof.
  intros Ha. unfold runes.
  assert (∀ fuel s, String.length s ≤ fuel → runes_loop (fuel + String.length (String a t)) (s +:+ String a t)
    = runes_loop fuel s ++ runes_loop (String.length (String a t)) (String a t)) as Hgen.
  { intros fuel; induction fuel as [|fuel IH]; intros [|c s'] Hs; [done|simpl in Hs; lia| |].
    - cbn [String.append]. cbn [runes_loop app]. apply runes_loop_fuel; lia.
    - cbn [String.append plus]. cbn [runes_loop]. rewrite decode_rune_ascii by done.
      pose proof (decode_rune_length c s') as Hl. destruct (decode_rune c s') as [r rest]. cbn [fst snd] in *.
      cbn [app]. f_equal. apply IH. simpl in *. lia. }
  rewrite str_length_app. apply Hgen. lia.
Qed.

Lemma spaces_app n s : runes (s +:+ spaces n) = runes s ++ replicate n 32%Z.
Proof.
  destruct n as [|n]; [cbn; by rewrite str_app_nil_r, app_nil_r|].
  change (spaces (S n)) with (String " " (spaces n)). rewrite runes_ascii_app by (vm_compute; done).
  f_equal. change (runes (String " " (spaces n))) with (runes (of_runes (replicate (S n) 32%Z))). rewrite runes_of_runes.
  by rewrite fmap_replicate.
Qed.

Lemma padOrTruncate_width s width : length (runes (padOrTruncate s width)) ≤ width.
Proof.
  unfold padOrTruncate. cbv zeta. destruct (Nat.ltb_spec width (length (runes s))) as [Hw|Hw]; [|done].
  rewrite runes_of_runes, length_fmap. destruct (Nat.leb_spec width 1).
  - rewrite length_take. lia.
  - rewrite length_app, length_take. simpl. lia.
Qed.

Lemma pad_to_width width s : length (runes s) ≤ width → length (runes (pad_to width s)) = width.
Proof. intros Hs. unfold pad_to. rewrite spaces_app, length_app, length_replicate. lia. Qed.

(** In two columns every row is exactly as wide as the terminal, whatever texts, of
    whatever bytes, stand in it. *)
Theorem rows_fit_the_terminal left_ right_ totalWidth row :
  (workspaceTwoColumnMinWidth <= totalWidth)%Z →
  let '(leftWidth, rightWidth) := column_widths totalWidth in
  row ∈ column_rows left_ right_ (Z.to_nat leftWidth) (Z.to_nat rightWidth) → Z.of_nat (length (runes row)) = totalWidth.
Proof.
  unfold workspaceTwoColumnMinWidth. intros Hw. unfold column_widths. cbv zeta.
  assert (0 <= totalWidth - Z.max (totalWidth ÷ 3) 24 - 3)%Z as Hl by (Z.quot_rem_to_equations; lia).
  intros (i & -> & _)%list_elem_of_fmap.
  match goal with |- context [pad_to ?w ?s +:+ " | " +:+ ?x] =>
    change (pad_to w s +:+ " | " +:+ x) with (pad_to w s +:+ String " " ("| " +:+ x)); rewrite runes_ascii_app by (vm_compute; done);
    change (runes (String " " ("| " +:+ x))) with ([32; 124; 32]%Z ++ runes x) end.
  rewrite !length_app, !pad_to_width by apply padOrTruncate_width. simpl. lia.
Qed.

(** ** Runs *)

Ltac decoded := match goal with |- context [unmarshal ?zero ?d ?v] => let x := fresh "payload" in destruct (unmarshal zero d v) as [x|]; [|done] end.

Section runs.
Context (keyString : KeyMsg → string) (isPrint : Z → bool).
Local Notation Update := (ws_Update keyString isPrint).

Fixpoint ws_run (l : list workspace_msg) (m : workspaceModel) : option workspaceModel :=
  match l with
  | [] => Some m
  | msg :: l => match Update msg m with Some (m, _, _) => ws_run l m | None => None end
  end.

Record ws_ok (m : workspaceModel) : Prop := {
  ok_composer : ∃ e, edits e (ws_chat m);
  ok_chat : chat_ok (ws_chat m);
  ok_focus : ch_focused (ws_chat m) = true → dm_mode (ws_dashboard m) = dashboardMainMode;
  ok_layout : ws_layout m = layoutTwoColumn → (workspaceTwoColumnMinWidth <= dm_width (ws_dashboard m))%Z;
}.

Lemma edits_same e m m' : ch_composer m' = ch_composer m → ch_cursor m' = ch_cursor m → edits e m → edits e m'.
Proof. unfold edits. by intros -> ->. Qed.

(** A step that changes the chat only. *)
Lemma chat_step_ok c m :
  ws_ok m → (∃ e, edits e c) → chat_ok c → (ch_focused c = true → dm_mode (ws_dashboard m) = dashboardMainMode) → ws_ok (set_chat c m).
Proof. intros [_ _ _ Hl] He Hc Hf. by split. Qed.

(** Only a key changes the mode of the dashboard, and no message but that of the window its width. *)
Lemma dm_Update_mode msg d :
  (∀ key, msg ≠ MKey key) → dm_mode (dm_Update keyString isPrint msg d).1 = dm_mode d.
Proof.
  intros Hk. destruct msg as [w h|s failed|failed| |key|]; cbn [dm_Update]; try done; [|by destruct (Hk key)].
  destruct failed; [done|]. cbv zeta. cbn [fst].
  match goal with |- dm_mode (clampSelection ?m1) = _ => transitivity (dm_mode m1); [apply (clamp_same m1)|done] end.
Qed.

Lemma clamp_width m : dm_width (clampSelection m) = dm_width m.
Proof. unfold clampSelection. by repeat case_match. Qed.

Lemma dm_Update_width msg d :
  (∀ w h, msg ≠ MWindow w h) → dm_width (dm_Update keyString isPrint msg d).1 = dm_width d.
Proof.
  intros Hw. destruct msg as [w h|s failed|failed| |key|]; cbn [dm_Update]; try done; [by destruct (Hw w h)|by destruct failed; [|cbv zeta; cbn [fst]; rewrite clamp_width]|].
  unfold dm_handleKey. cbv zeta. destruct (_ || _); [done|]. destruct (dm_mode d).
  - by repeat case_match.
  - unfold handlePaletteKey, prepareToggle, prepareSecret, cancelAuth. cbv zeta.
    repeat (match goal with |- context [if ?b then _ else _] => destruct b end; cbn [fst]; rewrite ?clamp_width; try done);
      by repeat case_match.
  - unfold handleConfirmKey. by repeat case_match.
  - unfold handleSecretKey. by repeat case_match.
Qed.

Lemma to_dashboard_ok msg m :
  ws_ok m → (ch_focused (ws_chat m) = true → ∀ key, msg ≠ MKey key) → (∀ w h, msg ≠ MWindow w h) →
  ws_ok (to_dashboard keyString isPrint msg m).1.1.
Proof.
  intros [H1 H2 H3 H4] Hf Hw. unfold to_dashboard. pose proof (dm_Update_width msg (ws_dashboard m) Hw) as Ew.
  pose proof (dm_Update_mode msg (ws_dashboard m)) as Em.
  destruct (dm_Update _ _ _ _) as [d cmds]. cbn [fst] in *. split; cbn [set_dashboard ws_chat ws_dashboard ws_layout]; [done..| |].
  - intros E. rewrite Em by by apply Hf. by apply H3.
  - rewrite Ew. done.
Qed.

Lemma handleWSEvent_ok event m : ws_ok m → ws_ok (handleWSEvent event m).
Proof.
  intros Hm. pose proof Hm as [[e He] Hc Hf Hl]. destruct event as [| | |? state|? state|? route|? delta| |? chatErr]; cbn [handleWSEvent].
  1-3: by split; [exists e|..].
  1-2: by decoded; split; [exists e|..].
  - decoded. destruct payload as [provider model]. apply chat_step_ok; [done| |by apply onRoute_ok|].
    + exists e. revert He. apply edits_same; unfold onRoute; cbv zeta; by destruct (_ && _).
    + intros E. apply Hf. revert E. unfold onRoute; cbv zeta; by destruct (_ && _).
  - decoded. rename payload into text. apply chat_step_ok; [done| |by apply onDelta_ok|].
    + exists e. revert He. apply edits_same; unfold onDelta; cbv zeta; by destruct (streams _).
    + intros E. apply Hf. revert E. unfold onDelta; cbv zeta; by destruct (streams _).
  - apply chat_step_ok; [done| |apply finishRequest_ok|done]. by exists e.
  - apply chat_step_ok; [done| |by apply onError_ok|].
    + exists e. revert He. apply edits_same; unfold onError, finishRequest; cbv zeta; by repeat case_match.
    + intros E. apply Hf. revert E. unfold onError, finishRequest; cbv zeta; by repeat case_match.
Qed.

Lemma submitChat_ok accepted m : ws_ok m → ws_ok (submitChat accepted m).1.1.
Proof.
  intros Hm. pose proof Hm as [_ Hc Hf Hl]. unfold submitChat, beginUserMessage, nextChatRequestID.
  set (c := set_request _ _ _ _).
  assert (chat_ok c ∧ edits ([], []) c ∧ ch_focused c = ch_focused (ws_chat m)) as (Hc' & He & Hfc) by (by subst c).
  clearbody c. cbv zeta. destruct (_ && _); cbn [fst].
  - split; [by eexists|done|cbn; by rewrite Hfc|done].
  - split; [|by apply onError_ok|cbn|done].
    + exists ([], []). revert He. apply edits_same; unfold onError, finishRequest; cbv zeta; by repeat case_match.
    + rewrite <-Hfc in Hf. intros E. apply Hf. revert E. unfold onError, finishRequest; cbv zeta; by repeat case_match.
Qed.

Lemma submitChat_said accepted m : said (ws_chat m) `prefix_of` said (ws_chat (submitChat accepted m).1.1).
Proof.
  unfold submitChat, beginUserMessage, nextChatRequestID. set (c := set_request _ (_ +:+ _) _ _).
  assert (chat_ok c ∧ said c = said (ws_chat m) ++ [TrimSpace (ch_composer (ws_chat m))]) as [Hc Hs].
  { split; [done|]. unfold said. subst c. cbn. by rewrite omap_app. }
  clearbody c. cbv zeta. destruct (_ && _); cbn [fst ws_chat set_chat set_connection].
  - rewrite Hs. by apply prefix_app_r.
  - rewrite (proj2 (onError_ok _ _ _ Hc)), Hs. by apply prefix_app_r.
Qed.

Lemma composer_key_ok key m e :
  ws_ok m → edits e (ws_chat m) → ∃ c, handleComposerKey key (ws_chat m) = Some c ∧ ws_ok (set_chat c m) ∧ said c = said (ws_chat m).
Proof.
  intros Hm He. destruct (handleComposerKey_edits key e _ He) as (c & Hc & Ee & Hs). exists c. split; [done|].
  unfold same_chat in Hs. pose proof Hm as [_ [Hok1 Hok2] Hf _].
  assert (said c = said (ws_chat m)) as Hsaid by exact (eq_sym (f_equal said Hs)). split; [|done].
  apply chat_step_ok; [done|by eexists| |].
  - pose proof (f_equal streams Hs) as Es. pose proof (f_equal streaming_at Hs) as Ea.
    pose proof (f_equal ch_transcript Hs) as Et. pose proof (f_equal ch_state Hs) as Est. cbn in Et, Est.
    change (streams (set_composer "" 0 ?x)) with (streams x) in Es. change (streaming_at (set_composer "" 0 ?x)) with (streaming_at x) in Ea.
    unfold chat_ok. rewrite <-Es, <-Ea, <-Et, <-Est. done.
  - intros E. apply Hf. rewrite <-E. exact (f_equal ch_focused Hs).
Qed.

(** A step does not fail, keeps the workspace well formed, and keeps what the user has
    said, unless it begins a new conversation. *)
Lemma ws_Update_ok msg m :
  ws_ok m → ∃ m' cmds calls, Update msg m = Some (m', cmds, calls) ∧ ws_ok m'
    ∧ (said (ws_chat m) `prefix_of` said (ws_chat m') ∨ ws_chat m' = newChatModel).
Proof.
  intros Hm. pose proof Hm as [[e He] Hc Hf Hl].
  assert (∀ tab, ws_ok (set_view tab (ws_layout m) m)) as Htab by (intros tab; split; [by exists e|done..]).
  assert (∀ msg', (ch_focused (ws_chat m) = true → ∀ key, msg' ≠ MKey key) → (∀ w h, msg' ≠ MWindow w h) →
    ∃ m' cmds calls, Some (to_dashboard keyString isPrint msg' m) = Some (m', cmds, calls) ∧ ws_ok m'
    ∧ (said (ws_chat m) `prefix_of` said (ws_chat m') ∨ ws_chat m' = newChatModel)) as Hdash.
  { intros msg' H1 H2. pose proof (to_dashboard_ok msg' m Hm H1 H2) as Hok. unfold to_dashboard in *.
    destruct (dm_Update _ _ _ _) as [d cmds]. eexists _, _, _. split; [done|]. split; [done|]. by left. }
  assert (∀ m' (cmds : list cmd) (calls : list client_call), ws_ok m' → said (ws_chat m') = said (ws_chat m) →
    ∃ m'' cmds' calls', Some (m', cmds, calls) = Some (m'', cmds', calls') ∧ ws_ok m''
    ∧ (said (ws_chat m) `prefix_of` said (ws_chat m'') ∨ ws_chat m'' = newChatModel)) as Hkeep.
  { intros m' cmds calls H1 H2. eexists _, _, _. split; [done|]. split; [done|]. left. by rewrite H2. }
  destruct msg as [[event|]|[w h|s failed|failed| |key|] accepted]; cbn [ws_Update]; try by apply Hdash.
  - apply Hkeep; [by apply handleWSEvent_ok|].
    destruct event as [| | |? state|? state|? route|? delta| |? chatErr]; cbn [handleWSEvent]; try done.
    1-2: by decoded.
    + decoded. destruct payload as [provider model]. by apply onRoute_ok.
    + decoded. by apply onDelta_ok.
    + by apply onError_ok.
  - by apply Hkeep.
  - unfold to_dashboard. cbn [dm_Update]. apply Hkeep; [|done]. split; cbn; [by exists e|done|done|].
    unfold layoutForWidth. by destruct (Z.leb_spec workspaceTwoColumnMinWidth w).
  - unfold ws_handleKey. cbv zeta. destruct (String.eqb _ "ctrl+c"); [by apply Hkeep|].
    destruct (ch_focused (ws_chat m)) eqn:Efoc.
    { unfold handleComposerFocusedKey. cbv zeta. destruct (composer_key_ok key m e Hm He) as (c & -> & Hok & Hs).
      destruct (key_Type key); try by apply Hkeep.
      - destruct (_ && _); [|by apply Hkeep]. pose proof (submitChat_ok accepted m Hm) as Hsub.
        destruct (submitChat accepted m) as [[m' cmds] calls] eqn:E. eexists _, _, _. split; [done|]. split; [done|]. left.
        pose proof (submitChat_said accepted m) as Hs'. by rewrite E in Hs'.
      - apply Hkeep; [|done]. apply chat_step_ok; [done|by exists e|done|done]. }
    destruct (negb _) eqn:Emode; [by apply Hdash|]. destruct (String.eqb _ "q"); [by apply Hkeep|].
    destruct (_ && _); [by apply Hkeep|]. destruct (String.eqb _ "i").
    { apply Hkeep; [|done]. apply chat_step_ok; [done|by exists e|done|]. intros _.
      apply negb_false_iff, bool_decide_eq_true_1 in Emode. done. }
    destruct (String.eqb _ "c"); [by apply Hkeep|]. destruct (String.eqb _ "n"); [|by apply Hdash].
    eexists _, _, _. split; [done|]. split; [|by right]. apply chat_step_ok; [done| |done|done]. by exists ([], []).
Qed.

Lemma new_workspace_ok client : ws_ok (newWorkspaceModel client).
Proof. split; try done. by exists ([], []). Qed.

(** The terminal client never fails.  Whatever keys, events of the connection and
    answers of the daemon come, in whatever order, no step ends the program; what is typed
    is only ever in the composer or in a question of the dashboard, never in both; the entry
    a reply streams into is a reply; and two columns are only drawn on a wide terminal. *)
Theorem workspace_never_fails l client : ∃ m, ws_run l (newWorkspaceModel client) = Some m ∧ ws_ok m.
Proof.
  assert (∀ m, ws_ok m → ∃ m', ws_run l m = Some m' ∧ ws_ok m') as H; [|apply H, new_workspace_ok].
  induction l as [|msg l IH]; intros m Hm; [by exists m|].
  destruct (ws_Update_ok msg m Hm) as (m1 & cmds & calls & E & H1 & _). cbn [ws_run]. rewrite E. by apply IH.
Qed.

(** What the user has said stays: no key and no event changes or drops a message of the
    user, except the key that begins a new conversation. *)
Theorem what_was_said_stays l client m msg m' cmds calls :
  ws_run l (newWorkspaceModel client) = Some m → Update msg m = Some (m', cmds, calls) →
  said (ws_chat m) `prefix_of` said (ws_chat m') ∨ ws_chat m' = newChatModel.
Proof.
  intros Hr Hu. assert (ws_ok m) as Hm.
  { revert Hr. generalize (new_workspace_ok client). generalize (newWorkspaceModel client). clear Hu.
    induction l as [|msg1 l IH]; intros m0 H0; cbn [ws_run]; [by intros [= ->]|].
    destruct (ws_Update_ok msg1 m0 H0) as (m1 & ? & ? & E & H1 & _). rewrite E. by apply IH. }
  destruct (ws_Update_ok msg m Hm) as (m1 & ? & ? & E & _ & H1). rewrite Hu in E. by injection E as -> -> ->.
Qed.

End runs.

(** ** The dashboard inside

    Its messages reach it through the workspace, and the state that is pushed goes past it. *)

Definition with_live (s : live_state) (d : dashboardModel) : dashboardModel := dm_set_snapshot (set_wsState s (dm_snapshot d)) d.

Lemma with_live_id d : with_live (dn_wsState (dm_snapshot d)) d = d.
Proof. by destruct d as [[] ? ? ? ? ? ? ? ? ? ? ?]. Qed.

Section inside.
Context (keyString : KeyMsg → string) (isPrint : Z → bool).
Local Notation Update := (ws_Update keyString isPrint).
Local Notation run := (dm_run keyString isPrint).

Lemma clamp_live s d : clampSelection (with_live s d) = with_live s (clampSelection d).
Proof. unfold clampSelection. cbn [with_live dm_snapshot dm_set_snapshot set_wsState dn_providers dm_selectedProvider]. by repeat case_match. Qed.

(** The dashboard does not look at the state that is pushed. *)
Lemma dm_Update_live s msg d :
  dm_Update keyString isPrint msg (with_live s d)
  = (with_live s (dm_Update keyString isPrint msg d).1, (dm_Update keyString isPrint msg d).2).
Proof.
  destruct msg as [w h|n failed|failed| |key|]; cbn [dm_Update]; try done.
  - destruct failed; [done|]. cbv zeta. cbn [fst snd]. rewrite <-clamp_live. done.
  - unfold dm_handleKey. cbv zeta. change (dm_mode (with_live s d)) with (dm_mode d).
    destruct (_ || _); [done|]. destruct (dm_mode d).
    + destruct (String.eqb _ "a"); [done|]. by destruct (String.eqb _ "r").
    + unfold handlePaletteKey. cbv zeta. destruct (_ || _); [done|].
      destruct (_ || _); [cbn [fst snd]; by rewrite <-clamp_live|]. destruct (_ || _); [cbn [fst snd]; by rewrite <-clamp_live|].
      destruct (String.eqb _ "r"); [done|]. destruct (String.eqb _ "m"); [done|].
      destruct (String.eqb _ "e"); [unfold prepareToggle; change (currentProvider (with_live s d)) with (currentProvider d);
        by destruct (currentProvider d)|].
      destruct (String.eqb _ "c"); [done|].
      destruct (String.eqb _ "x"); [unfold cancelAuth; change (dn_operations (dm_snapshot (with_live s d))) with (dn_operations (dm_snapshot d));
        by destruct (List.find _ _)|].
      destruct (String.eqb _ "p"); [|done]. unfold prepareSecret. change (currentProvider (with_live s d)) with (currentProvider d).
      destruct (currentProvider d); [|done]. destruct (negb _); [done|]. cbv zeta.
      cbn [dm_snapshot dm_set_secret dm_ask with_live dm_set_snapshot set_wsState dn_secrets]. by destruct (existsb _ _).
    + unfold handleConfirmKey. cbv zeta. destruct (String.eqb _ "y"); [|by destruct (_ || _)].
      change (dm_confirmSecret (with_live s d)) with (dm_confirmSecret d). by destruct (dm_confirmSecret d).
    + unfold handleSecretKey. cbv zeta. destruct (String.eqb _ "esc"); [done|].
      destruct (String.eqb _ "enter"); [change (dm_secretValue (with_live s d)) with (dm_secretValue d); by destruct (negb _)|].
      destruct (String.eqb _ "backspace"); [change (dm_secretValue (with_live s d)) with (dm_secretValue d); by destruct (runes _)|].
      destruct (key_Type key); try done. by destruct (_ || _).
Qed.

Definition dash_msg (msg : workspace_msg) : option dashboard_msg := match msg with WDash msg _ => Some msg | WEvent _ => None end.

Lemma handleWSEvent_dashboard event m : ∃ s, ws_dashboard (handleWSEvent event m) = with_live s (ws_dashboard m).
Proof.
  destruct event as [| | |? state|? state|? route|? delta| |? chatErr]; cbn [handleWSEvent];
    try (exists (dn_wsState (dm_snapshot (ws_dashboard m))); symmetry; apply with_live_id).
  1-2: destruct (unmarshal no_state d_live_state state) as [s|];
    [by exists s|exists (dn_wsState (dm_snapshot (ws_dashboard m))); symmetry; apply with_live_id].
  all: match goal with |- context [unmarshal ?zero ?d ?v] => destruct (unmarshal zero d v) as [[]|] end;
    exists (dn_wsState (dm_snapshot (ws_dashboard m))); symmetry; apply with_live_id.
Qed.

(** A step of the workspace steps the dashboard or passes it by. *)
Lemma step_dashboard msg m m' cmds calls :
  Update msg m = Some (m', cmds, calls) →
  (∃ s, ws_dashboard m' = with_live s (ws_dashboard m) ∧ ∀ a, CAct a ∉ cmds) ∨
  (∃ msg' accepted, msg = WDash msg' accepted ∧ ws_dashboard m' = (dm_Update keyString isPrint msg' (ws_dashboard m)).1
     ∧ cmds = (dm_Update keyString isPrint msg' (ws_dashboard m)).2
     ∧ (∀ key, msg' = MKey key → ch_focused (ws_chat m) = false)).
Proof.
  assert (∀ m2 (cmds2 : list cmd) (calls2 : list client_call), ws_dashboard m2 = ws_dashboard m → (∀ a, CAct a ∉ cmds2) →
    Some (m2, cmds2, calls2) = Some (m', cmds, calls) → ∃ s, ws_dashboard m' = with_live s (ws_dashboard m) ∧ ∀ a, CAct a ∉ cmds) as Hpass.
  { intros m2 cmds2 calls2 Hd Hc E. injection E as <- <- _. exists (dn_wsState (dm_snapshot (ws_dashboard m))).
    split; [rewrite Hd; symmetry; apply with_live_id|done]. }
  assert (∀ a, CAct a ∉ []) as Hnil by (intros a; apply not_elem_of_nil).
  assert (∀ a c, (∀ b, c ≠ CAct b) → CAct a ∉ [c]) as Hone by (intros a c Hc Hin%list_elem_of_singleton; by apply (Hc a)).
  assert (∀ msg' m0, ws_dashboard m0 = ws_dashboard m → Some (to_dashboard keyString isPrint msg' m0) = Some (m', cmds, calls) →
    ws_dashboard m' = (dm_Update keyString isPrint msg' (ws_dashboard m)).1 ∧ cmds = (dm_Update keyString isPrint msg' (ws_dashboard m)).2) as Hto.
  { intros msg' m0 Hd. unfold to_dashboard. rewrite Hd. destruct (dm_Update _ _ _ _) as [d cmds']. intros E. by injection E as <- <- _. }
  destruct msg as [[event|]|[w h|s failed|failed| |key|] accepted]; cbn [ws_Update]; intros E.
  - left. injection E as <- <- _. destruct (handleWSEvent_dashboard event m) as [s Hs]. exists s. split; [done|]. by intros a; apply Hone.
  - left. revert E. by apply Hpass.
  - right. apply Hto in E as [-> ->]; [|done]. by eexists _, _.
  - right. apply Hto in E as [-> ->]; [|done]. by eexists _, _.
  - right. apply Hto in E as [-> ->]; [|done]. by eexists _, _.
  - right. apply Hto in E as [-> ->]; [|done]. by eexists _, _.
  - revert E. unfold ws_handleKey. cbv zeta.
    destruct (String.eqb _ "ctrl+c"); [left; revert E; apply Hpass; [done|by intros a; apply Hone]|].
    destruct (ch_focused (ws_chat m)) eqn:Hf.
    { intros E. left. revert E. unfold handleComposerFocusedKey. cbv zeta.
      assert (((λ c, (set_chat c m, @nil cmd, @nil client_call)) <$> handleComposerKey key (ws_chat m)) = Some (m', cmds, calls) →
        ∃ s, ws_dashboard m' = with_live s (ws_dashboard m) ∧ ∀ a, CAct a ∉ cmds) as Hedit.
      { destruct (handleComposerKey key (ws_chat m)) as [c|]; [|done]. by apply Hpass. }
      destruct (key_Type key); try exact Hedit; [|by apply Hpass]. destruct (_ && _); [|exact Hedit].
      unfold submitChat. destruct (beginUserMessage _) as [c text], (nextChatRequestID _) as [n id]. cbv zeta.
      destruct (_ && _); by apply Hpass. }
    assert (Some (to_dashboard keyString isPrint (MKey key) m) = Some (m', cmds, calls) →
      ∃ msg' accepted', WDash (MKey key) accepted = WDash msg' accepted' ∧ ws_dashboard m' = (dm_Update keyString isPrint msg' (ws_dashboard m)).1
     ∧ cmds = (dm_Update keyString isPrint msg' (ws_dashboard m)).2 ∧ (∀ key, msg' = MKey key → false = false)) as Hkey.
    { intros E. apply Hto in E as [-> ->]; [|done]. by eexists _, _. }
    destruct (negb _); [by right; apply Hkey|].
    destruct (String.eqb _ "q"); [left; revert E; apply Hpass; [done|by intros a; apply Hone]|].
    destruct (_ && _); [by left; revert E; apply Hpass|]. destruct (String.eqb _ "i"); [by left; revert E; apply Hpass|].
    destruct (String.eqb _ "c"); [by left; revert E; apply Hpass|]. destruct (String.eqb _ "n"); [by left; revert E; apply Hpass|].
    by right; apply Hkey.
  - right. apply Hto in E as [-> ->]; [|done]. by eexists _, _.
Qed.

Lemma ws_run_app l l' m : ws_run keyString isPrint (l ++ l') m = ws_run keyString isPrint l m ≫= ws_run keyString isPrint l'.
Proof.
  revert m; induction l as [|msg l IH]; intros m; [done|]. cbn [app ws_run].
  destruct (Update msg m) as [[[m1 ?] ?]|]; [apply IH|done].
Qed.

(** The dashboard inside is one that got some of the messages, in their order. *)
Lemma inside_runs l client m :
  ws_run keyString isPrint l (newWorkspaceModel client) = Some m →
  ∃ l' s, l' `sublist_of` omap dash_msg l ∧ ws_dashboard m = with_live s (run l').
Proof.
  revert m; induction l as [|msg l IH] using rev_ind; intros m.
  { intros [= <-]. exists [], no_state. by split. }
  rewrite ws_run_app. destruct (ws_run keyString isPrint l (newWorkspaceModel client)) as [m1|]; [|done].
  cbn [mbind option_bind ws_run]. destruct (Update msg m1) as [[[m2 cmds] calls]|] eqn:E; [|done]. intros [= <-].
  destruct (IH m1 eq_refl) as (l' & s & Hl & Hd). rewrite omap_app.
  destruct (step_dashboard msg m1 m2 cmds calls E) as [(s' & Hd' & _)|(msg' & accepted & -> & Hd' & _ & _)].
  - exists l', s'. split; [|by rewrite Hd', Hd; destruct (run l') as [[] ? ? ? ? ? ? ? ? ? ? ?]].
    etransitivity; [exact Hl|]. by apply sublist_inserts_r.
  - exists (l' ++ [msg']), s. split; [by apply sublist_app|]. rewrite Hd', Hd, dm_Update_live, dm_run_snoc. done.
Qed.

(** C35. The workspace changes the daemon only as its dashboard would.  Whatever has been
    typed into the chat and whatever has come over the connection, an action is only ever
    started by a key that is not typed into the composer, where a dashboard that got some of
    the messages, in their order, would start it; a switch of a provider is one that was
    asked for there. *)
Theorem workspace_acts_as_its_dashboard l client m msg m' cmds calls a :
  ws_run keyString isPrint l (newWorkspaceModel client) = Some m → Update msg m = Some (m', cmds, calls) → CAct a ∈ cmds →
  ∃ l' key accepted, l' `sublist_of` omap dash_msg l ∧ msg = WDash (MKey key) accepted ∧ ch_focused (ws_chat m) = false
    ∧ acts keyString (run l') key a
    ∧ ∀ r, a = AToggle r → ∃ p, asked keyString isPrint l' p r ∧ dm_confirm (ws_dashboard m) = toggle_question p.
Proof.
  intros Hr Hu Ha. destruct (inside_runs l client m Hr) as (l' & s & Hl & Hd).
  destruct (step_dashboard msg m m' cmds calls Hu) as [(_ & _ & Hno)|(msg' & accepted & -> & _ & Hc & Hf)]; [by destruct (Hno a)|].
  rewrite Hd, dm_Update_live in Hc. cbn [snd] in Hc. subst cmds.
  destruct (Update_acts keyString isPrint l' msg' a Ha) as (key & -> & Hacts).
  exists l', key, accepted. split_and!; [done|done|by apply (Hf key)|done|].
  intros r ->. destruct Hacts as (_ & _ & Hp).
  destruct (ok_pending _ _ _ _ (run_ok keyString isPrint l') _ Hp) as (_ & _ & r' & p & [= <-] & Hasked & Hq).
  exists p. split; [done|]. by rewrite Hd.
Qed.

End inside.

(** ** A chat from the daemon to the screen *)

Definition piece_msg (p : piece) : string * json :=
  match p with PRoute provider model => chat_route provider model | PText text => chat_delta text end.

(** The envelopes of a connection that carry these messages. *)
Definition carries (e : WSEnvelope) (m : string * json) : Prop := we_Type e = m.1 ∧ we_Payload e = Some m.2.

Definition see (m : workspaceModel) (es : list WSEnvelope) : workspaceModel :=
  foldl (λ m event, handleWSEvent event m) m (es ≫= dispatch payload_decodes).

(** The first thing told of a chat that was dispatched is its route. *)
Definition routed (ps : list piece) : Prop := match ps with PText _ :: _ => False | _ => True end.

Lemma see_cons e es m : see m (e :: es) = see (see m [e]) es.
Proof. unfold see. cbn [mbind list_bind]. by rewrite app_nil_r, foldl_app. Qed.

Lemma see_app es es' m : see m (es ++ es') = see (see m es) es'.
Proof. unfold see. by rewrite bind_app, foldl_app. Qed.

Lemma see_piece e p m : carries e (piece_msg p) → see m [e] = set_chat (show_piece (ws_chat m) p) m.
Proof.
  destruct e as [type id seq payload]. intros [Ht Hp]. cbn [we_Type we_Payload] in *. subst type payload. by destruct p.
Qed.

Lemma see_pieces es ps m :
  Forall2 carries es (piece_msg <$> ps) → see m es = set_chat (foldl show_piece (ws_chat m) ps) m.
Proof.
  revert ps m; induction es as [|e es IH]; intros [|p ps] m H; try by inversion H.
  - by destruct m.
  - apply Forall2_cons in H as [He H]. rewrite see_cons, (see_piece e p m He), (IH ps) by done. done.
Qed.

Section daemon.
Context `{JSON}.

Lemma followed_are_pieces l w : ∃ ps, (follow l w).1 = piece_msg <$> ps.
Proof.
  revert w; induction l as [|[provider model|a] l IH]; intros w; cbn [follow]; [by exists []|..].
  - destruct (IH w) as [ps Hps]. destruct (follow l w). exists (PRoute provider model :: ps). cbn in *. by rewrite Hps.
  - destruct (IH (chat_act a w)) as [ps Hps]. destruct (follow l _). cbv zeta.
    exists ((PText <$> drop (length (wt_deltas w)) (wt_deltas (chat_act a w))) ++ ps).
    rewrite fmap_app, <-list_fmap_compose. cbn in *. by rewrite Hps.
Qed.

(** What a chat sends are routes and pieces of text, and how it ended. *)
Lemma chat_is_pieces lease dispatched canceled payload :
  ∃ ps final, chat_messages lease dispatched canceled payload = (piece_msg <$> ps) ++ [final] ∧
    (final = chat_done "stop" ∨ ∃ category message, final = chat_error category message ∧ category ≠ "interrupted" ∧ message ≠ "").
Proof.
  unfold chat_messages. destruct lease; cbn [negb].
  2:{ exists [], (chat_error "provider_unavailable" "the daemon is shutting down"). split; [done|]. right. by eexists _, _. }
  destruct (buildWSChatRequestBody payload) as [body|].
  2:{ exists [], (chat_error "invalid_request" "chat.start payload is malformed"). split; [done|]. right. by eexists _, _. }
  destruct (dispatched body) as [acts perr]. destruct (followed_are_pieces acts newWSChatWriter) as [ps Hps].
  destruct (follow acts newWSChatWriter) as [sent w]. cbn [fst] in Hps. subst sent.
  exists (ps ++ (PText <$> WSChat.Finish w)). eexists. split; [rewrite fmap_app, <-list_fmap_compose, <-(assoc_L (++)); reflexivity|].
  destruct canceled; [right; by eexists _, _|]. destruct (_ || _); [|by left]. right. cbv zeta. eexists _, _. split; [done|].
  match goal with |- category_text ?c ≠ _ ∧ _ => by destruct c end.
Qed.

Definition reply (text : string) : chatTranscriptEntry := mkEntry chatRoleAssistant text false.

Lemma see_done e m : carries e (chat_done "stop") → see m [e] = set_chat (onDone (ws_chat m)) m.
Proof. destruct e as [type id seq payload]. intros [Ht Hp]. cbn [we_Type we_Payload] in *. by subst type payload. Qed.

Lemma see_error e category message m :
  carries e (chat_error category message) → category ≠ "interrupted" → message ≠ "" →
  see m [e] = set_chat (onError false message (ws_chat m)) m.
Proof.
  destruct e as [type id seq payload]. intros [Ht Hp] Hc Hm. cbn [we_Type we_Payload] in *. subst type payload.
  cbn. rewrite (proj2 (String.eqb_neq _ _) Hc). unfold chatErrorMessage. by rewrite (proj2 (String.eqb_neq _ _) Hm).
Qed.

(** What the chat pane has after all messages of a chat. *)
Definition shown_after (before : list chatTranscriptEntry) (ps : list piece) (final : string * json) (chat : chatModel) : Prop :=
  ch_state chat = chatIdle ∧
  (final = chat_done "stop" →
     ch_transcript chat = before ++ (match ps with [] => [] | _ => [reply (text_of ps)] end) ∧ ch_lastError chat = "") ∧
  (∀ category message, final = chat_error category message →
     ch_transcript chat = before ++ (if String.eqb (text_of ps) "" then [] else [reply (text_of ps)]) ∧ ch_lastError chat = message).

Lemma see_chat es ps final m :
  Forall2 carries es ((piece_msg <$> ps) ++ [final]) → routed ps →
  (final = chat_done "stop" ∨ ∃ category message, final = chat_error category message ∧ category ≠ "interrupted" ∧ message ≠ "") →
  ch_state (ws_chat m) = chatAwaitingRoute → streams (ws_chat m) = false →
  shown_after (ch_transcript (ws_chat m)) ps final (ws_chat (see m es)).
Proof.
  intros He Hr Hfinal Hs Hst. apply Forall2_app_inv_r in He as (es1 & es2 & He1 & He2 & ->).
  apply Forall2_cons_inv_r in He2 as (e & es3 & He & He3 & ->). apply Forall2_nil_inv_r in He3 as ->.
  rewrite see_app, (see_pieces es1 ps m He1). set (c := foldl show_piece (ws_chat m) ps).
  assert (ps = [] ∧ c = ws_chat m ∨ ch_transcript c = ch_transcript (ws_chat m) ++ [reply (text_of ps)]
    ∧ ch_streamingIndex c = Z.of_nat (length (ch_transcript (ws_chat m))) ∧ ps ≠ []) as Hc.
  { destruct ps as [|[provider model|text] ps]; [by left| |by destruct Hr]. right.
    destruct (reply_shown provider model ps (ws_chat m) Hs Hst) as (H1 & H2 & _). by split_and!. }
  clearbody c. destruct Hfinal as [->|(category & message & -> & Hcat & Hmsg)].
  - rewrite (see_done e _ He). cbn [ws_chat set_chat]. split; [done|]. split; [|intros category message E; discriminate E].
    intros _. split; [|done]. cbn [onDone]. destruct Hc as [[-> ->]|(Ht & _ & Hne)]; [by rewrite app_nil_r|].
    change (ch_transcript (onDone c)) with (ch_transcript c). rewrite Ht. by destruct ps.
  - rewrite (see_error e category message _ He Hcat Hmsg). cbn [ws_chat set_chat].
    assert (∀ category' message', chat_error category message = chat_error category' message' → message' = message) as Hinj.
    { intros category' message' E. unfold chat_error, WSChatErrorPayload in E. by injection E as -> ->. }
    destruct Hc as [[-> ->]|(Ht & Hi & _)].
    + destruct (onError_nothing message (ws_chat m) Hst) as (H1 & H2 & H3). split; [done|]. split; [intros E; discriminate E|].
      intros category' message' E%Hinj. subst message'. cbn [text_of foldr String.eqb]. by rewrite app_nil_r.
    + destruct (onError_spec false message (ch_transcript (ws_chat m)) (text_of ps) c Ht Hi) as (H1 & H2 & H3).
      split; [done|]. split; [intros E; discriminate E|]. intros category' message' E%Hinj. subst message'. split; [|done].
      rewrite H1. by rewrite andb_true_r.
Qed.

(** C34. The user sees the answer.  A message that is sent goes out alone, as typed and
    trimmed; when the daemon has handled the chat and the client has read its messages, the
    transcript has the message of the user and then, unless nothing came, one reply: the
    pieces of text of the answer put together, whatever routes were tried; the pane is
    ready for the next message and shows the error the chat ended with, if it did. *)
Theorem terminal_shows_the_reply lease dispatched canceled id payload es m m' :
  ws_client m = true →
  submitChat true m = (m', [], [KStartChat id payload]) →
  Forall2 carries es (chat_messages lease dispatched canceled payload) →
  let text := TrimSpace (ch_composer (ws_chat m)) in
  cs_Messages payload = Some (JArr [JObj [("role", JStr "user"); ("content", JStr text)]]) ∧
  ∃ ps final, chat_messages lease dispatched canceled payload = (piece_msg <$> ps) ++ [final]
    ∧ (routed ps → shown_after (ch_transcript (ws_chat m) ++ [mkEntry chatRoleUser text false]) ps final (ws_chat (see m' es))).
Proof.
  intros Hclient Hsub He. cbv zeta. unfold submitChat, beginUserMessage, nextChatRequestID in Hsub.
  cbn [ws_client set_chat set_counter] in Hsub. rewrite Hclient in Hsub.
  cbn [andb] in Hsub. pose proof (f_equal (λ o, o.1.1) Hsub) as Hm. pose proof (f_equal snd Hsub) as Hcall. cbn [fst snd] in Hm, Hcall. clear Hsub.
  injection Hcall as _ Hp. rewrite <-Hp. split; [done|].
  destruct (chat_is_pieces lease dispatched canceled payload) as (ps & final & E & Hfinal). exists ps, final.
  rewrite Hp. split; [done|]. intros Hr. rewrite E in He. rewrite <-Hm.
  match goal with |- shown_after ?before _ _ (ws_chat (see ?m2 _)) => apply (see_chat es ps final m2); done end.
Qed.

End daemon.

Module ExampleWorkspace.
Import ExampleDashboard.

Definition key (s : string) : workspace_msg := WDash (typed s) true.
Definition hit (t : key_type) : workspace_msg := WDash (press t) true.
Definition after (l : list workspace_msg) : workspaceModel :=
  match ws_run key_name ascii_printable l (newWorkspaceModel true) with Some m => m | None => newWorkspaceModel true end.

Definition asking : list workspace_msg := [WEvent (Some WSEventConnected); key "i"; key "hi q"; hit KeyEnter].
Definition route_event : WSEvent := WSEventChatRoute "chat-1" (JObj [("provider", JStr "codex"); ("resolved_model", JStr "gpt-5")]).
Definition delta_event (s : string) : WSEvent := WSEventChatDelta "chat-1" (JObj [("text", JStr s)]).
Definition streaming : list workspace_msg := asking ++ [WEvent (Some route_event); WEvent (Some (delta_event "hel"))].
Definition lo : workspace_msg := WEvent (Some (delta_event "lo")).

(** An error whose payload does not decode shows what of it does, maybe nothing. *)
Definition broken (p : json) : workspace_msg :=
  match dispatch payload_decodes (mkEnvelope "chat.error" "chat-1" 5 (Some p)) with e :: _ => WEvent (Some e) | [] => WEvent None end.

Example undecodable_error_is_shown_in_part :
  (λ p, ch_lastError (ws_chat (after (asking ++ [broken p]))))
    <$> [JObj [("category", JStr "timeout"); ("message", JNum "7")]; JStr "failed"; JObj [("message", JStr "no"); ("category", JNull)]]
  = ["timeout"; ""; "no"].
Proof. vm_compute. reflexivity. Qed.

(** Letters are typed while the composer has the focus; only [esc] gives it up. *)
Example a_conversation :
  ch_transcript (ws_chat (after (streaming ++ [lo; WEvent (Some (WSEventChatDone "chat-1" None))])))
    = [mkEntry chatRoleUser "hi q" false; mkEntry chatRoleAssistant "hello" false]
  ∧ ch_transcript (ws_chat (after (streaming ++ [WEvent (Some (WSEventChatError "chat-1" (Some interrupted)))])))
    = [mkEntry chatRoleUser "hi q" false; mkEntry chatRoleAssistant "hel" true]
  ∧ ch_lastError (ws_chat (after [key "i"; key "x"; WDash (press KeyEnter) false])) = "not connected to the daemon".
Proof. vm_compute. split_and!; reflexivity. Qed.

(** Events are not matched to the chat they belong to: after a new conversation was begun
    during a chat, the rest of the old answer is its first entry. *)
Example the_old_answer_flows_into_the_new_conversation :
  ch_transcript (ws_chat (after (streaming ++ [hit KeyEsc; key "n"; lo]))) = [mkEntry chatRoleAssistant "lo" false]
  ∧ ch_state (ws_chat (after (streaming ++ [hit KeyEsc; key "n"; lo]))) = chatIdle.
Proof. vm_compute. split; reflexivity. Qed.

(** The whole sequence that disables a provider is typed with the screen as it was. *)
Definition disabling : list workspace_msg := [WDash (loaded 7 []) true; key "a"; key "e"].
Example the_question_is_not_shown :
  ws_View (after disabling) = ws_View (after [WDash (loaded 7 []) true])
  ∧ dm_confirm (ws_dashboard (after disabling)) = "Disable the selected provider? Existing requests will drain safely."
  ∧ (match ws_Update key_name ascii_printable (key "y") (after disabling) with Some (_, cmds, _) => cmds | None => [] end) = [CAct (AToggle codex_off)].
Proof. vm_compute. split_and!; reflexivity. Qed.

Definition wide : workspaceModel := after (streaming ++ [WDash (MWindow 100 30) true]).
Example two_columns :
  nth 4 (Split (ws_View wide) "010") "" = pad_to 64 "  thiendu: hel" +:+ " | " +:+ pad_to 33 "  No live provider state yet."
  ∧ nth 8 (Split (ws_View (after streaming)) "010") "" = "composer [focused]: |".
Proof. vm_compute. split; reflexivity. Qed.

Lemma rows_fit_the_terminal_witness :
  (pad_to 64 "Chat" +:+ " | " +:+ pad_to 33 "Status") ∈ column_rows "Chat" "Status" 64 33
  ∧ Z.of_nat (length (runes (pad_to 64 "Chat" +:+ " | " +:+ pad_to 33 "Status"))) = 100%Z.
Proof.
  assert ((pad_to 64 "Chat" +:+ " | " +:+ pad_to 33 "Status") ∈ column_rows "Chat" "Status" 64 33) as Hin by (vm_compute; by left).
  split; [exact Hin|]. exact (rows_fit_the_terminal "Chat" "Status" 100 _ ltac:(vm_compute; discriminate) Hin).
Defined.

Lemma what_was_said_stays_witness :
  said (ws_chat (after streaming)) `prefix_of` said (ws_chat (after (streaming ++ [lo]))) ∨ ws_chat (after (streaming ++ [lo])) = newChatModel.
Proof.
  apply (what_was_said_stays key_name ascii_printable streaming true (after streaming) lo (after (streaming ++ [lo])) [CWait] []);
    vm_compute; reflexivity.
Defined.

Lemma workspace_acts_as_its_dashboard_witness :
  ∃ l' p, l' `sublist_of` omap dash_msg disabling ∧ asked key_name ascii_printable l' p codex_off
    ∧ dm_confirm (ws_dashboard (after disabling)) = toggle_question p.
Proof.
  destruct (ws_Update key_name ascii_printable (key "y") (after disabling)) as [[[m' cmds] calls]|] eqn:E; [|vm_compute in E; discriminate E].
  assert (CAct (AToggle codex_off) ∈ cmds) as Ha.
  { assert (cmds = [CAct (AToggle codex_off)]) as ->; [|by left].
    transitivity (match ws_Update key_name ascii_printable (key "y") (after disabling) with Some (_, cmds, _) => cmds | None => [] end);
      [by rewrite E|vm_compute; reflexivity]. }
  assert (ws_run key_name ascii_printable disabling (newWorkspaceModel true) = Some (after disabling)) as Hr by (vm_compute; reflexivity).
  destruct (workspace_acts_as_its_dashboard key_name ascii_printable disabling true (after disabling) (key "y") m' cmds calls
    (AToggle codex_off) Hr E Ha) as (l' & k & accepted & H1 & _ & _ & _ & H2).
  destruct (H2 codex_off eq_refl) as (p & H3 & H4). exists l', p. split; [exact H1|]. split; [exact H3|exact H4].
Defined.

(** *** A chat through daemon and client *)

Definition composed : workspaceModel := after [WEvent (Some WSEventConnected); key "i"; key " hi "].
Definition sent_payload : WSChatStartPayload := mkChatStart "thiendu" (Some (mustMarshalWorkspaceMessages "hi")).
(** The daemon is the one whose upstream streams one text, tried over two targets. *)
Definition two_routes (body : string) : list dispatch_act * option Failover.perr :=
  ([DRoute "codex" "gpt"; DRoute "kilo" "free"; DAct (ASetHeader "Content-Type" "text/event-stream");
    DAct (AWrite ("data: {hello}" +:+ newline))], None).
Definition told : list (string * json) := @chat_messages WSChat.ExampleChat.texts_json true two_routes false sent_payload.
Definition read : list WSEnvelope := (λ m, mkEnvelope m.1 "chat-1" 5 (Some m.2)) <$> told.

Example told_and_shown :
  fst <$> told = ["chat.route"; "chat.route"; "chat.delta"; "chat.done"]
  ∧ ch_transcript (ws_chat (see (submitChat true composed).1.1 read)) = [mkEntry chatRoleUser "hi" false; reply "hello"].
Proof. vm_compute. split; reflexivity. Qed.

Lemma terminal_shows_the_reply_witness :
  ∃ ps final, told = (piece_msg <$> ps) ++ [final]
    ∧ (routed ps → shown_after [mkEntry chatRoleUser "hi" false] ps final (ws_chat (see (submitChat true composed).1.1 read))).
Proof.
  assert (Forall2 carries read told) as Hread.
  { unfold read. apply Forall2_fmap_l, Forall_Forall2_diag, Forall_forall. intros m _. split; reflexivity. }
  assert (submitChat true composed = ((submitChat true composed).1.1, [], [KStartChat "chat-1" sent_payload])) as Hsub
    by (vm_compute; reflexivity).
  destruct (@terminal_shows_the_reply WSChat.ExampleChat.texts_json true two_routes false "chat-1" sent_payload read composed
    (submitChat true composed).1.1 ltac:(vm_compute; reflexivity) Hsub Hread) as (_ & ps & final & H1 & H2).
  exists ps, final. split; [exact H1|]. intros Hr. exact (H2 Hr).
Defined.

End ExampleWorkspace.
