(* ===== verification/Startup.v ===== *)
(** * The start of the daemon and its routes

    [handleRunWithMigration] of [src/src/cli.go]: the parts of the daemon in the order they
    are built, what each failure leaves, and the paths of the data plane with the handlers
    behind them.  [http.ServeMux] is the one of the language's version: it matches the path
    as it was sent, a segment at a time, after a redirect to the clean form of the path;
    [secureHandler] in front of it ([Security]) looks at the decoded path.

    The parts themselves are those of the other files; here a part is opened or fails. *)

From stdpp Require Import pretty.
From S2P Require Import Prelude GoStd Config Provider Failover Defaults Security ConfigFiles ControlRuntime.

#[local] Set Default Proof Using "Type".

(** ** Paths *)

Definition hex_value (c : ascii) : option nat :=
  let n := nat_of_ascii c in
  if in_range 48 57 c then Some (n - 48) else if in_range 65 70 c then Some (n - 55)
  else if in_range 97 102 c then Some (n - 87) else None.

(** [url.PathUnescape]; what is no escape stays, which a request never has. *)
Fixpoint unescape (s : string) : string :=
  match s with
  | String "%" (String a (String b rest) as tail) =>
    match hex_value a, hex_value b with
    | Some h, Some l => String (ascii_of_nat (16 * h + l)) (unescape rest)
    | _, _ => String "%" (unescape tail)
    end
  | String c rest => String c (unescape rest)
  | "" => ""
  end.

(** [cleanPath] of [net/http]. *)
Definition cleanPath (p : string) : string :=
  if String.eqb p "" then "/"
  else
    let p := if HasPrefix p "/" then p else "/" +:+ p in
    let np := path_Clean p in
    if HasPrefix (str_rev p) "/" && negb (String.eqb np "/") then np +:+ "/" else np.

(** The decoded segments of a path; the last one is empty behind a final slash. *)
Definition segments (path : string) : list string := unescape <$> Split (TrimPrefix path "/") "/".

(** ** [http.ServeMux] *)

Inductive handler := HModels | HProxy | HAnthropic | HHealth | HPprof | HRoot.
#[export] Instance handler_eq : EqDecision handler.
Proof. solve_decision. Defined.

(** A pattern, and whether it takes everything below. *)
Record pattern := mkPattern { pt_segments : list string; pt_subtree : bool; pt_handler : handler }.

Definition matches (segs : list string) (p : pattern) : bool :=
  if pt_subtree p
  then (length (pt_segments p) <? length segs)%nat && bool_decide (take (length (pt_segments p)) segs = pt_segments p)
  else bool_decide (segs = pt_segments p).

(** The more specific of two patterns that match: a whole path, or the longer subtree. *)
Definition more_specific (p q : pattern) : bool :=
  if pt_subtree p then pt_subtree q && (length (pt_segments q) <? length (pt_segments p))%nat else true.

Fixpoint best (segs : list string) (l : list pattern) : option pattern :=
  match l with
  | [] => None
  | p :: l =>
    let rest := best segs l in
    if matches segs p then match rest with Some q => if more_specific p q then Some p else Some q | None => Some p end else rest
  end.

Inductive dispatched := Redirect (path : string) | Handler (h : handler) | NotFound.

(** A path that only a subtree pattern takes, its slash added, is redirected there. *)
Definition wants_slash (routes : list pattern) (path : string) : bool :=
  negb (HasPrefix (str_rev path) "/") &&
  match best (segments path) routes with
  | Some p => pt_subtree p &&
      match best (segments (path +:+ "/")) routes with
      | Some q => pt_subtree q && (S (length (pt_segments q)) =? length (segments (path +:+ "/")))%nat
      | None => false
      end
  | None => false
  end.

Definition mux (routes : list pattern) (connect : bool) (path : string) : dispatched :=
  let clean := if connect then path else cleanPath path in
  if wants_slash routes clean then Redirect (clean +:+ "/")
  else if negb (String.eqb clean path) then Redirect clean
  else match best (segments clean) routes with Some p => Handler (pt_handler p) | None => NotFound end.

Definition both (segs : list string) (h : handler) : list pattern := [mkPattern segs false h; mkPattern segs true h].

(* src/src/cli.go:478-504 handleRunWithMigration *)
Definition routes (pprof : bool) : list pattern :=
  both ["v1"; "models"] HModels ++ both ["v1"; "embeddings"] HProxy ++ both ["v1"; "chat"; "completions"] HProxy
  ++ both ["v1"; "responses"] HProxy ++ both ["v1"; "messages"] HAnthropic ++ [mkPattern [] true HRoot] ++ both ["health"] HHealth
  ++ (if pprof then mkPattern ["debug"; "pprof"] true HPprof
        :: ((λ name, mkPattern ["debug"; "pprof"; name] false HPprof) <$> ["cmdline"; "profile"; "symbol"; "trace"])
      else []).

(** The answer of [/]. *)
(* src/src/cli.go:489-495 handleRunWithMigration *)
Definition root_status (method : string) : Z := if String.eqb method "HEAD" then StatusOK else StatusNotFound.

(** A request: [secureHandler] sees the decoded path, the mux the one that was sent. *)
Record data_request := mkDataRequest {
  dq_Method : string; dq_EscapedPath : string; dq_Origin : string; dq_XAPIKey : string; dq_Authorization : string;
}.
Definition inbound_of (r : data_request) : inbound_request :=
  mkInboundRequest (dq_Method r) (unescape (dq_EscapedPath r)) (dq_Origin r) (dq_XAPIKey r) (dq_Authorization r).

(** The handler a request comes to, unless it is answered before. *)
(* src/src/cli.go:514-520 handleRunWithMigration *)
Definition data_plane (env : inbound_env) (pprof : bool) (r : data_request) : option dispatched :=
  match (secureHandler env (inbound_of r)).2 with
  | Serve => Some (mux (routes pprof) (String.eqb (dq_Method r) "CONNECT") (dq_EscapedPath r))
  | _ => None
  end.

Example dispatching :
  mux (routes false) false "/v1/chat/completions" = Handler HProxy ∧ mux (routes false) false "/v1/models/codex%2Fgpt" = Handler HModels
  ∧ mux (routes false) false "/health/../v1/responses" = Redirect "/v1/responses" ∧ mux (routes false) false "//v1/models" = Redirect "/v1/models"
  ∧ mux (routes false) false "/health/..%2Fv1/responses" = Handler HHealth ∧ mux (routes false) false "/v1" = Handler HRoot
  ∧ mux (routes false) false "/debug/pprof/heap" = Handler HRoot ∧ mux (routes true) false "/debug/pprof/heap" = Handler HPprof
  ∧ mux (routes true) false "/debug/pprof" = Redirect "/debug/pprof/" ∧ mux (routes false) false "/%76%31/messages" = Handler HAnthropic.
Proof. vm_compute. repeat split. Qed.

(** ** The path that was sent and its segments *)

Lemma Split_cons s c : ∃ p l, Split s c = p :: l.
Proof. destruct s as [|d s]; cbn [Split]; [by eexists _, _|]. repeat case_match; by eexists _, _. Qed.

Lemma Join_Split s c : Join (Split s c) (String c "") = s.
Proof.
  induction s as [|d s IH]; [done|]. cbn [Split]. destruct (Split_cons s c) as (p & l & E). rewrite E in *.
  destruct (Ascii.eqb_spec d c) as [->|Hd].
  - change (Join ("" :: p :: l) (String c "")) with (String c (Join (p :: l) (String c ""))). by rewrite IH.
  - destruct l as [|q l]; cbn [Join String.append] in *; by rewrite IH.
Qed.

Lemma unescape_percent x y s :
  unescape (String "%" (String x (String y s)))
  = match hex_value x, hex_value y with
    | Some h, Some l => String (ascii_of_nat (16 * h + l)) (unescape s)
    | _, _ => String "%" (unescape (String x (String y s)))
    end.
Proof. reflexivity. Qed.

Lemma unescape_other c s : c ≠ "%"%char → unescape (String c s) = String c (unescape s).
Proof. intros Hc. destruct c as [[] [] [] [] [] [] [] []]; try reflexivity; by destruct Hc. Qed.

(** An escape does not reach over a slash. *)
Lemma unescape_slash a b : unescape (a +:+ String "/" b) = unescape a +:+ String "/" (unescape b).
Proof.
  assert (∀ n a, String.length a ≤ n → unescape (a +:+ String "/" b) = unescape a +:+ String "/" (unescape b)) as H; [|by eapply H].
  clear a. intros n; induction n as [|n IH]; intros [|c a] Hn; [done|simpl in Hn; lia|done|].
  simpl in Hn. destruct (Ascii.ascii_dec c "%") as [->|Hc].
  2:{ cbn [String.append]. rewrite !unescape_other by done. cbn [String.append]. by rewrite IH by lia. }
  destruct a as [|x [|y a]]; [by destruct b| |].
  - transitivity (String "%" (unescape (String x "" +:+ String "/" b))).
    + cbn [String.append]. rewrite unescape_percent. by destruct (hex_value x).
    + by rewrite IH by (simpl in *; lia).
  - cbn [String.append]. rewrite !unescape_percent. simpl in Hn.
    pose proof (IH (String x (String y a)) ltac:(simpl; lia)) as IH1. pose proof (IH a ltac:(lia)) as IH2. cbn [String.append] in IH1.
    destruct (hex_value x); [destruct (hex_value y)|]; cbn [String.append]; by rewrite ?IH1, ?IH2.
Qed.

Lemma Join_unescape l : Join (unescape <$> l) "/" = unescape (Join l "/").
Proof.
  induction l as [|x [|y l] IH]; [done|done|]. change (Join (unescape <$> x :: y :: l) "/") with (unescape x +:+ "/" +:+ Join (unescape <$> y :: l) "/").
  rewrite IH. change (Join (x :: y :: l) "/") with (x +:+ String "/" (Join (y :: l) "/")). by rewrite unescape_slash.
Qed.

(** The decoded path, from the decoded segments. *)
Lemma decoded_path path : ∃ slash, (slash = "" ∨ slash = "/") ∧ unescape path = slash +:+ Join (segments path) "/".
Proof.
  unfold segments. rewrite Join_unescape. change "/" with (String "/" "") at 2. rewrite Join_Split.
  unfold TrimPrefix. destruct (strip_prefix "/" path) as [rest|] eqn:E; [exists "/"|exists ""]; (split; [by auto|]); [|done].
  destruct path as [|c path]; [discriminate E|]. simpl in E. destruct (Ascii.eqb_spec c "/") as [->|]; [|by destruct c as [[] [] [] [] [] [] [] []]].
  injection E as <-. by rewrite unescape_other.
Qed.

Lemma best_spec segs l p : best segs l = Some p → p ∈ l ∧ matches segs p = true.
Proof.
  induction l as [|q l IH]; cbn [best]; [done|]. intros H. rewrite elem_of_cons. destruct (matches segs q) eqn:Hq.
  - destruct (best segs l) as [r|]; [destruct (more_specific q r)|]; injection H as <-; try (split; [by left|done]).
    destruct (IH eq_refl) as [? ?]. auto.
  - destruct (IH H) as [? ?]. auto.
Qed.

Lemma matches_spec segs p :
  matches segs p = true → ∃ more, segs = pt_segments p ++ more ∧ (pt_subtree p = false → more = []).
Proof.
  unfold matches. destruct (pt_subtree p).
  - intros [_ Ht%bool_decide_eq_true_1]%andb_true_iff. exists (drop (length (pt_segments p)) segs). split; [|done].
    rewrite <-Ht at 1. symmetry. apply take_drop.
  - intros ->%bool_decide_eq_true_1. exists []. by rewrite app_nil_r.
Qed.

(** What the mux sends to a handler is below one of its patterns. *)
Lemma mux_Handler rs connect path h :
  mux rs connect path = Handler h → ∃ p more, p ∈ rs ∧ pt_handler p = h ∧ segments path = pt_segments p ++ more ∧ (pt_subtree p = false → more = []).
Proof.
  unfold mux. cbv zeta. destruct (wants_slash _ _); [done|].
  destruct (String.eqb_spec (if connect then path else cleanPath path) path) as [->|]; [|done]. cbn [negb].
  destruct (best (segments path) rs) as [p|] eqn:E; [|done]. intros [= <-].
  apply best_spec in E as [Hin (more & Hs & Hm)%matches_spec]. by exists p, more.
Qed.

(** The patterns of a handler. *)
Lemma routes_of pprof p :
  p ∈ routes pprof → ∃ tail, pt_segments p = match pt_handler p with
    | HModels => ["v1"; "models"] | HAnthropic => ["v1"; "messages"] | HHealth => ["health"] | HRoot => []
    | HPprof => "debug" :: "pprof" :: tail
    | HProxy => tail
    end ∧ (pt_handler p = HProxy → tail ∈ [["v1"; "embeddings"]; ["v1"; "chat"; "completions"]; ["v1"; "responses"]]).
Proof.
  intros Hin. apply list_elem_of_In in Hin. destruct pprof; repeat (destruct Hin as [<-|Hin]; [eexists; split; [reflexivity|];
    first [discriminate|intros _; rewrite !elem_of_cons; by auto]|]); destruct Hin.
  Unshelve. all: exact [].
Qed.

(** C30. Only the health paths are open.  When the daemon has a key, a request that reaches
    the models, a provider, the Anthropic facade or the profiler carries it, however its path
    is written: the check sees the decoded path and the mux matches the one that was sent, but
    nothing that decodes to a path under [/health] matches a pattern outside it. *)
Theorem only_health_is_open env pprof r h :
  TrimSpace (ie_APIKey env) ≠ "" → data_plane env pprof r = Some (Handler h) → h ≠ HHealth → h ≠ HRoot →
  dq_Method r ≠ "OPTIONS" ∧ supplied_credential (inbound_of r) = TrimSpace (ie_APIKey env).
Proof.
  intros Hkey Hd Hh1 Hh2. unfold data_plane in Hd.
  destruct (secureHandler env (inbound_of r)).2 eqn:Hs; try discriminate Hd. injection Hd as Hd.
  apply mux_Handler in Hd as (p & more & Hin & Hp & Hsegs & _). apply routes_of in Hin as (tail & Htail & Hproxy).
  assert (HasPrefix (unescape (dq_EscapedPath r)) "/health" = false) as Hno.
  { destruct (decoded_path (dq_EscapedPath r)) as (slash & Hslash & ->). rewrite Hsegs, Htail, Hp in *.
    destruct h; try done; [| | |].
    - by destruct Hslash as [-> | ->].
    - rewrite !elem_of_cons in Hproxy.
      destruct (Hproxy eq_refl) as [->|[->|[->|?%not_elem_of_nil]]]; [by destruct Hslash as [-> | ->]..|done].
    - by destruct Hslash as [-> | ->].
    - by destruct Hslash as [-> | ->]. }
  revert Hs. unfold secureHandler. cbn [snd inbound_of in_Method in_Path]. rewrite Hno.
  destruct (String.eqb_spec (dq_Method r) "OPTIONS"); [done|]. apply String.eqb_neq in Hkey as ->. cbn [negb andb].
  destruct (validInboundCredential _ _) eqn:Hv; [|cbn [negb]; by destruct (HasPrefix (unescape (dq_EscapedPath r)) "/v1/messages")]. intros _. split; [done|].
  by apply validInboundCredential_spec.
Qed.

(** What reaches the proxy has a capability.  The proxy reads the capability off the
    decoded path; every path the mux sends there gives one, and the paths of the patterns
    themselves give their own. *)
Theorem proxied_paths_have_a_capability pprof connect path :
  mux (routes pprof) connect path = Handler HProxy →
  is_Some (CapabilityFromPath (unescape path)) ∧
  (segments path = ["v1"; "embeddings"] → CapabilityFromPath (unescape path) = Some CapabilityEmbeddings) ∧
  (segments path = ["v1"; "responses"] → CapabilityFromPath (unescape path) = Some CapabilityResponses) ∧
  (segments path = ["v1"; "chat"; "completions"] → CapabilityFromPath (unescape path) = Some CapabilityChat).
Proof.
  intros Hd. apply mux_Handler in Hd as (p & more & Hin & Hp & Hsegs & _). apply routes_of in Hin as (tail & Htail & Hproxy).
  destruct (decoded_path path) as (slash & Hslash & ->). rewrite Hp in Htail. subst tail.
  assert (∀ s, Contains s "/embeddings" = true ∨ Contains s "/chat/completions" = true ∨ Contains s "/responses" = true →
    is_Some (CapabilityFromPath s)) as Hcap.
  { intros s Hs. unfold CapabilityFromPath. destruct (Contains s "/chat/completions"); [by eexists|].
    destruct (Contains s "/responses"); [by eexists|]. destruct (Contains s "/embeddings"); [by eexists|]. naive_solver. }
  split; [|split_and!; intros ->; by destruct Hslash as [-> | ->]].
  apply Hcap. rewrite Hsegs. specialize (Hproxy Hp). rewrite !elem_of_cons in Hproxy.
  destruct Hproxy as [->|[->|[->|?%not_elem_of_nil]]]; [| | |done].
  - left. by destruct more; destruct Hslash as [-> | ->].
  - right; left. by destruct more; destruct Hslash as [-> | ->].
  - right; right. by destruct more; destruct Hslash as [-> | ->].
Qed.

(** ** The start *)

(** What is held while the daemon runs; the secret store has nothing to close. *)
Inductive part := PLog | PRuntime | PProviders | PRefresher.

Inductive start_step :=
| SMigrate | SLoad | SSaveModelMap | SSecrets | SAuthenticate | SRefreshHealth | SRoutes (pprof : bool) | SListen (address : string)
| SControl | SServe | SOpen (p : part) | SClose (p : part).

Inductive start_error :=
| MigrationFailed | LoadFailed | RuntimeFailed | SecretsFailed | ProvidersFailed | AddressRefused | ControlFailed | ServeFailed (e : serve_error).

(** How each part comes up; [sw_config] is the configuration, if it could be loaded. *)
Record start_world := mkStart {
  st_migrated : bool; st_config : option Config; st_runtime : bool; st_secrets : bool; st_providers : bool; st_control : bool;
  st_served : option serve_error;
}.

Definition listen_port (c : Config) : Z := if (Port c =? 0)%Z then 7071%Z else Port c.

(** The deferred calls: the refresher stops, the providers are drained, the runtime ends. *)
Definition stop_all : list start_step := [SClose PRefresher; SClose PProviders; SClose PRuntime; SClose PLog].

(* src/src/cli.go handleRunWithMigration *)
Definition handleRunWithMigration (env : inbound_env) (mode : string) (w : start_world) : list start_step * option start_error :=
  let migrate := negb (String.eqb mode ConfigMigrationNone) in
  let begun := (if migrate then [SMigrate] else []) in
  if migrate && negb (st_migrated w) then (begun, Some MigrationFailed)
  else match st_config w with
  | None => (begun ++ [SLoad], Some LoadFailed)
  | Some c =>
    let save := cx_Enabled (pr_Codex (cfg_Providers c)) && (ensureCodexModelMap (ModelMap (cfg_Routing c))).2 in
    let begun := begun ++ [SLoad; SOpen PLog] ++ (if save then [SSaveModelMap] else []) in
    if negb (st_runtime w) then (begun ++ [SClose PLog], Some RuntimeFailed)
    else if negb (st_secrets w) then (begun ++ [SOpen PRuntime; SSecrets; SClose PRuntime; SClose PLog], Some SecretsFailed)
    else if negb (st_providers w) then (begun ++ [SOpen PRuntime; SSecrets; SClose PRuntime; SClose PLog], Some ProvidersFailed)
    else
      let begun := begun ++ [SOpen PRuntime; SSecrets; SOpen PProviders; SAuthenticate; SRefreshHealth; SOpen PRefresher; SRoutes (EnablePprof c)] in
      match configuredListenAddress env (pretty (listen_port c)) with
      | None => (begun ++ stop_all, Some AddressRefused)
      | Some address =>
        if negb (st_control w) then (begun ++ [SListen address; SControl] ++ stop_all, Some ControlFailed)
        else (begun ++ [SListen address; SControl; SServe] ++ stop_all, ServeFailed <$> st_served w)
      end
  end.

Definition opens (l : list start_step) : list part := omap (λ s, match s with SOpen p => Some p | _ => None end) l.
Definition closes (l : list start_step) : list part := omap (λ s, match s with SClose p => Some p | _ => None end) l.

Lemma opens_app l l' : opens (l ++ l') = opens l ++ opens l'.
Proof. apply omap_app. Qed.
Lemma closes_app l l' : closes (l ++ l') = closes l ++ closes l'.
Proof. apply omap_app. Qed.

(** A start that fails leaves nothing behind.  Wherever the start of the daemon stops,
    what it had opened is closed, the last first; and it only serves once every part is up,
    on the configured address, with the requests outside the health paths behind the key if
    others can reach it. *)
Theorem start_closes_what_it_opened env mode w :
  let '(trace, e) := handleRunWithMigration env mode w in
  closes trace = reverse (opens trace) ∧
  (SServe ∈ trace → opens trace = [PLog; PRuntime; PProviders; PRefresher] ∧ e = ServeFailed <$> st_served w ∧
     ∃ c address, st_config w = Some c ∧ SListen address ∈ trace ∧ configuredListenAddress env (pretty (listen_port c)) = Some address) ∧
  (SServe ∉ trace → e ≠ None).
Proof.
  unfold handleRunWithMigration. cbv zeta. set (b := if negb _ then [SMigrate] else []).
  assert (opens b = [] ∧ closes b = [] ∧ SServe ∉ b) as (Hb1 & Hb2 & Hb3) by (subst b; destruct (negb _); (split_and!; [done..|set_solver])).
  clearbody b. destruct (negb _ && negb _); [rewrite Hb1, Hb2; by split_and!|].
  destruct (st_config w) as [c|].
  2:{ rewrite opens_app, closes_app, Hb1, Hb2. split_and!; [done| |done]. intros [?|?]%elem_of_app; [done|set_solver]. }
  set (d := b ++ _). assert (opens d = [PLog] ∧ closes d = [] ∧ SServe ∉ d) as (Hd1 & Hd2 & Hd3).
  { subst d. rewrite !opens_app, !closes_app, Hb1, Hb2. destruct (_ && _); split_and!; try done; rewrite !elem_of_app; set_solver. }
  clearbody d. destruct (negb (st_runtime w)); [|destruct (negb (st_secrets w)); [|destruct (negb (st_providers w)); [|]]].
  1-3: rewrite !opens_app, !closes_app, Hd1, Hd2; split_and!; [done| |done]; intros [?|?]%elem_of_app; [done|set_solver].
  destruct (configuredListenAddress _ _) as [address|] eqn:Ha; [destruct (negb (st_control w))|];
    rewrite !opens_app, !closes_app, Hd1, Hd2; (split; [done|]); (split; [|try done]).
  1,4: unfold stop_all; rewrite !elem_of_app; set_solver.
  - intros _. split; [done|]. split; [done|]. exists c, address. split; [done|]. split; [|done]. set_solver.
  - intros Hno. exfalso. apply Hno. set_solver.
Qed.

Module ExampleStartup.

Definition env : inbound_env := mkInbound "0.0.0.0" "sk-key" "".
Definition ask (path key : string) : data_request := mkDataRequest "POST" path "" key "".

(** The capability is read off the whole path, so a part behind a pattern can change it. *)
Example chat_below_embeddings :
  data_plane env false (ask "/v1/embeddings/chat/completions" "sk-key") = Some (Handler HProxy)
  ∧ CapabilityFromPath "/v1/embeddings/chat/completions" = Some CapabilityChat
  ∧ data_plane env false (ask "/health/..%2Fv1/responses" "") = Some (Handler HHealth)
  ∧ data_plane env false (ask "/healthz" "") = Some (Handler HRoot) ∧ data_plane env false (ask "/v1/models" "") = None.
Proof. vm_compute. repeat split. Qed.

Lemma only_health_is_open_witness :
  dq_Method (ask "/%76%31/responses" "sk-key") ≠ "OPTIONS" ∧ supplied_credential (inbound_of (ask "/%76%31/responses" "sk-key")) = "sk-key".
Proof.
  apply (only_health_is_open env false (ask "/%76%31/responses" "sk-key") HProxy);
    [vm_compute; discriminate|vm_compute; reflexivity|discriminate|discriminate].
Defined.

Lemma proxied_paths_have_a_capability_witness : is_Some (CapabilityFromPath (unescape "/v1/responses/x%2Fy")).
Proof. apply (proxied_paths_have_a_capability false false "/v1/responses/x%2Fy"). vm_compute. reflexivity. Defined.

Definition up (control : bool) : start_world := mkStart true (Some Defaults.defaultConfig) true true true control (Some DataServerFailed).
Definition listens (p : list start_step * option start_error) : list string := omap (λ s, match s with SListen a => Some a | _ => None end) p.1.
Example starts_and_failures :
  listens (handleRunWithMigration env "merge" (up true)) = ["0.0.0.0:7071"]
  ∧ (handleRunWithMigration env "merge" (up true)).2 = Some (ServeFailed DataServerFailed)
  ∧ (handleRunWithMigration env "none" (up false)).2 = Some ControlFailed
  ∧ (handleRunWithMigration (mkInbound "0.0.0.0" "" "") "none" (up true)).2 = Some AddressRefused
  ∧ closes (handleRunWithMigration env "none" (up false)).1 = [PRefresher; PProviders; PRuntime; PLog].
Proof. vm_compute. repeat split. Qed.
End ExampleStartup.
